(* ===== verification/_CoqProject ===== *)
-Q . S2P
Prelude.v
Forest.v
KList.v
Sched.v
Cpuacct.v
Demo.v
Ras.v
RasSpec.v
TypeSpec.v
Rt.v
RtSpec.v
LoadAvg.v
LoadSpec.v
Core.v
CoreSpec.v
WakeSpec.v
PolicySpec.v
CoreWitness.v
PageTrace.v
PageTraceSpec.v
Fault.v
FaultSpec.v
TraceWitness.v
Pstree.v
PstreeSpec.v
TaskGroup.v
TaskGroupSpec.v
GroupWitness.v
Server.v
ServerSpec.v
Client.v
Account.v
AccountSpec.v
Wait.v
WaitSpec.v
SetschedSpec.v
CompletionSpec.v
Cmp.v
CmpSpec.v
Features.v
Init.v
InitSpec.v
Affinity.v
AffinitySpec.v
Quota.v
QuotaSpec.v
RtBorrow.v
RtBorrowSpec.v
Smp.v
RtSmp.v
RtPush.v
SmpSpec.v
RtSmpSpec.v
SmpMachine.v
RtPushSpec.v
Migrate.v
MigrateSpec.v
HotplugSpec.v
WakeupSpec.v
RootSpec.v
Domains.v
DomLogic.v
DomAlloc.v
DomVisit.v
DomAttach.v
DomGroups.v
DomDebug.v
DomTopo.v
DomBuild.v
DomRings.v
DomClaim.v
DomPublish.v
DomConstruct.v
DomSpec.v
DomSysctl.v
CoreMisc.v
SmpDemo.v
SmpWitness.v
DomWitness.v
DomSpecWitness.v
