(* ===== verification/Prelude.v ===== *)
(** * The Race-Averse Scheduler and its companions, verified

    The repository is an operating-systems course project on an Android
    emulator kernel (Linux 3.4, goldfish, ARMv7): a scheduling class that gives
    short time slices to tasks that write much to memory, the tracing of page
    writes that measures this, a system call that lists the process tree, an
    encryption server, and a tool that evaluates the scheduler's log.  The
    repository holds the kernel files the project changes; this development
    models them and the programs around them as executable definitions and
    proves what they promise.

    ** Build

    The configuration is the one of the project: one processor (CONFIG_SMP
    off), control groups with real-time group scheduling and CPU accounting,
    32-bit [long].  Integers are [Z] with the wrap-around of their type written
    out ([u32], [s32], [u64], [s64] below).  Locks, RCU and memory barriers have
    no effect on one processor, where a critical section is one step; sleeping
    is where a function is cut in two.

    Some parts are modelled as an option compiles them that the project leaves
    off: the interrupt time of Account, the CFS bandwidth of Quota, RtBorrow,
    and, from Smp on, the scheduler of a multiprocessor (CONFIG_SMP with hotplug
    and preemption, without group scheduling).  There a critical section is one
    step of the processor that holds the lock; where the code drops the lock,
    waits or sleeps, the other processors run ([others_run], [others_go]).

    ** Files and sources (paths below src/Project2/goldfish unless said)

    - Prelude: machine integers, record update, lists.  Forest: trees given by
      parent pointers and lists of children.  KList: the kernel's circular
      lists as a class of operations and laws, with an implementation.
    - Sched: the data of include/linux/sched.h and kernel/sched/sched.h, the
      state [kst] of the scheduler, the record [class_ops] of a scheduling
      class, and [KEnv], the code outside the repository.  Demo: a concrete
      machine for the instances of the theorems.
    - Cpuacct: the CPU accounting groups of kernel/sched/core.c.
    - Ras, RasSpec, TypeSpec: kernel/sched/ras.c, the Race-Averse class.
    - Rt, RtSpec: kernel/sched/rt.c, the real-time class with bandwidth control.
    - LoadAvg, LoadSpec: the load averages of core.c.
    - Core, CoreSpec, WakeSpec, PolicySpec, SetschedSpec, CoreWitness: core.c
      from activate_task() to the system calls on policies.
    - TaskGroup, TaskGroupSpec, GroupWitness: the task groups of core.c, their
      hierarchy and their real-time bandwidth.
    - Quota, QuotaSpec: the CFS bandwidth files of core.c.  RtBorrow,
      RtBorrowSpec: the borrowing of real-time runtime in rt.c.
    - Smp, SmpSpec: several processors: the data and the inline functions below
      CONFIG_SMP, and what the theorems assume of masks, sorted lists and bit
      searches.  RtSmp, RtSmpSpec: the real-time class there: the queues, the
      list of tasks to push, the overloaded processors of a root domain.
      SmpMachine: the invariant of the machine with all classes.  RtPush,
      RtPushSpec: pushing and pulling.  Migrate: the SMP part of core.c.
      MigrateSpec: affinity masks and the migration thread.  HotplugSpec: a
      processor goes down.  WakeupSpec: try_to_wake_up() across processors.
      RootSpec: a runqueue changes its root domain.  SmpDemo, SmpWitness: a
      machine of four processors.
    - Domains: the scheduling domains of core.c, from sched_domain_level_max to
      sched_init_smp(), as objects of a heap whose allocations can fail.
      DomLogic: total correctness for its monad.  DomAlloc, DomVisit: the
      allocations and what undoes them.  DomGroups: the rings of groups.
      DomAttach: attaching a chain of domains to a runqueue.  DomDebug: the
      kernel's own check of attached domains.  DomTopo: the topology that
      build_sched_domains() needs; DomBuild, DomRings, DomClaim, DomPublish: its
      phases (the domains, their groups, what they keep, the attaching);
      DomConstruct, DomSpec: their composition.  DomSysctl: their sysctl tables.
      DomWitness, DomSpecWitness: the instances.
    - Features: the feature switches of core.c and their debugfs file.
      CoreMisc: what remains of core.c (the lock of a task's runqueue, the
      high-resolution tick, preemption notifiers, the checks of the preemption
      counter, spinning on a mutex owner, the listing of tasks).
    - Account, AccountSpec: the time accounting of core.c.
    - Wait, WaitSpec, CompletionSpec: wait queues and completions of core.c.
    - Init, InitSpec: sched_init() and normalize_rt_tasks() of core.c.  Affinity,
      AffinitySpec: its affinity system calls.
    - PageTrace, PageTraceSpec: the system calls of src/Project2/page-trace,
      rr_fifo_trace and set_wcounts.  Fault, FaultSpec: arch/arm/mm/fault.c.
      TraceWitness: their instances.
    - Pstree, PstreeSpec: src/Project1/Problem1/sys_ptree.c and Problem2/ptree.c.
    - Server, ServerSpec: src/Project1/Problem4/server.  Client: its client, and
      a session of the two.
    - Cmp, CmpSpec: src/Project2/cmp/cmp.c.

    A definition has the name of the C function, of the structure or of the
    constant it translates; a part of a function that is a definition of its
    own is named after what it does, and its comment says which function it
    belongs to.  Names in [Spec] files belong to the specification.

    ** How the parts interact

    __schedule(), try_to_wake_up() and the policy changes (Core) call the
    classes through [class_ops]; [rt_ops] and [ras_ops] are the two modelled
    ones, the stop, fair and idle classes are members of [CoreEnv] with the laws
    [CoreLaws].  A write fault on a page protected by start_trace() (PageTrace)
    is counted by access_error() (Fault) in the task's [wcounts], from which
    calc_ras_weight() (Ras) computes the weight that sets the slice at the next
    refill.  Time of a running task is charged to its accounting groups
    (Cpuacct) and, per tick, to the statistics (Account).  Wake-ups of wait
    queues and completions (Wait) go through try_to_wake_up().  The classes log
    their ticks ([klog]), and Cmp reads that log.  Domains holds the machine of
    Smp as one of its fields: attaching a domain moves the runqueue to another
    root domain, where rq_attach_root() calls the hotplug functions of the
    classes (RtSmp, RtBorrow).  The Client's loop and the thread of the Server
    alternate over the bytes of a socket.

    ** What the theorems show

    - RasSpec: every operation of the RAS class, in any sequence, refines a
      queue of tasks with slices ([ras_refines_queue]); tick, preemption and
      weights as the design asks, a heavier writer never gets a longer slice.
    - InitSpec: sched_init() establishes the invariants the other theorems start
      from ([sched_init_establishes]).  TypeSpec: no operation of the RAS class
      takes an integer out of the range of its C type.
    - CoreSpec, WakeSpec, PolicySpec: a RAS task waits for at most the sum of
      the slices before it ([ras_bounded_waiting]); waking, blocking, yielding,
      forking and priority inheritance; the order of the classes, and that a pick
      does not reach the BUG_ON()s of rt.c ([pick_next_task_order]; a class's pick
      has an outcome of its own for them).  SetschedSpec: exactly when
      sched_setscheduler() succeeds, and what it then leaves behind
      ([sched_setscheduler_outcome]).
    - RtSpec: the priority array; round robin; throttling and replenishment.
    - AffinitySpec: sched_setaffinity(2) ends after two passes whatever the
      cpuset answers, and which of its errors is reported.
    - TaskGroupSpec: the iterative walk visits a hierarchy in recursive order
      and ends; every accepted bandwidth change keeps every group's children
      within its share, and so does any sequence of writes to the files of the
      control groups ([rt_hierarchy_bounded]).
    - QuotaSpec: which changes of a quota are accepted, and that no group then has
      a larger share than a group above it, the share being the ratio truncated
      to 32 bits by to_ratio(): it is the true one below 4096 processors, and
      above that a larger one is accepted ([quota_wraps]).  RtBorrowSpec: borrowed
      runtime is conserved over borrowing, on-line changes and hotplug, and the
      BUG_ON() is not reached, as long as no processor is enabled that has
      borrowed or lent.  The proviso is necessary, and the kernel does not
      establish it: a processor that comes up is enabled by rq_online_rt() and a
      second time by update_runtime(); when it has lent in between, the
      processors hold more than there is and the BUG_ON() is reached later
      ([second_enable_leaks]).
    - SmpMachine: one invariant ties the runqueues of all processors and classes
      together: a task is on one queue at most, of the processor and the class
      it belongs to, and the counters, bitmaps, push lists and overload masks
      agree with the queues; moving a task keeps it.  RtPushSpec: whatever the
      other processors do meanwhile, pushing never hits a BUG_ON() and puts a
      task only where it may run and is the best ([push_rt_task_safe]); pulling
      leaves nothing better elsewhere ([pull_rt_task_best]).  MigrateSpec: a new
      affinity mask takes effect ([set_cpus_allowed_ptr_spec]).  HotplugSpec: a
      dying processor is emptied ([migrate_tasks_empties]), unless its real-time
      queue is throttled; then, when the classes below have no task,
      migrate_tasks() migrates the idle task in vain for ever
      ([migrate_tasks_throttled]).  WakeupSpec: a woken task
      ends up where it may run ([try_to_wake_up_wakes]).  RootSpec: a runqueue
      leaves a root domain without a BUG_ON(), and in every root domain the
      real-time runtime stays conserved ([rq_attach_root_spec]).
    - DomGroups: the groups of a domain are a ring that divides its span, each
      made once and shared by the domains of the span
      ([build_sched_groups_spec]).  DomAttach: exactly the degenerate domains
      are removed and freed, the links in both directions agree, and the old
      domains are freed after a grace period ([cpu_attach_domain_spec]).
      DomDebug: sched_domain_debug() logs an error exactly when a domain is not
      sound ([sched_domain_debug_exact]).  DomSpec: build_sched_domains() as a
      whole, for topologies without overlapping (NUMA) levels
      ([build_sched_domains_spec]).  DomVisit: when an allocation fails,
      everything is freed once.  DomSysctl: registering and unregistering the
      tables leaves no allocation and no dangling one.
    - Features: what is written to the file can be read back, and the keys of
      the jump labels follow the bits ([sched_feat_roundtrip]).
    - AccountSpec: no jiffy is lost or counted twice; reported times are
      monotone and bounded.  LoadSpec: bounds and conservation of the averages.
    - WaitSpec, CompletionSpec: whom a wake-up wakes; over all interleavings no
      completion is lost or taken twice.
    - PageTraceSpec, FaultSpec: what start_trace() protects, that exactly the
      write faults of the traced task are counted, and how the count reaches the
      weight.
    - PstreeSpec: the entries are the tree in preorder, and what is printed;
      copy_to_user() may fail, also after the first bytes of a name.
    - ServerSpec: the line reader does not depend on how the stream is cut; the
      answers of a session; the admission counter over all interleavings.
      Client: which lines it sends for a line of the terminal, and that every
      line of at most 252 characters comes back enciphered
      ([client_server_session]).
    - CmpSpec: the tool recovers the ticks and completion times of every task
      from the lines the kernel prints, if the lines between them are not empty
      and fit its buffer.

    Where the code departs from its intention the theorem states what the code
    does: for example a group with real-time tasks can lose all its runtime
    ([rt_zero_runtime_accepted]), a forked RAS task is put into the fair class
    ([sched_fork_ras]), and a read error makes the server repeat a line
    ([serve_read_error]).

    ** Fuel

    Walks to the root of a hierarchy are bounded by its depth ([rt_depth],
    [cgroup_depth]); __schedule() by a number of passes, and the theorems about
    it produce the result with a stated number; walk_tg_tree_from() and the walk
    over the process tree by the size of the forest, with theorems that this is
    enough; reading loops by the length of the input.  Loops along a chain of
    scheduling domains are bounded by the number of levels, loops around a ring of
    groups by the number of processors, and the sysctl tables by their depth,
    three.  The retries of
    pushing and the loop of migrate_tasks() are bounded by the number of queued
    tasks.  A definition that runs out of fuel is [None], [NoFuel] or leaves the
    state alone, and no theorem assumes that
    it does not without a bound that implies it.

    ** Parameters

    Code outside the repository is a class member: [KListOps] (list.h), [KEnv],
    [CoreEnv], [AcctEnv], [WaitQueues], [WaitEnv], [MmEnv], [FaultEnv], [TgEnv],
    [BootEnv], [AffEnv], [CpuMask], [QuotaEnv] and [QuietClass]; for several
    processors [CpuMasks], [SmpTypes], [SmpEnv], [SmpClasses] (the other classes,
    whose queues [OtherClasses] describes), [MigrateEnv] and [RuntimeHooks]; for
    the scheduling domains [DomMasks], [DomEnv] and [NumaEnv]; for the rest of
    core.c [FeatEnv], [HrTimers] and [HList].  The classes named
    [Laws] state its documented behaviour, and each has a concrete instance, on
    which the theorems are applied in the witnesses.  The opaque types [Ext] and
    [SExt] are the state of that code.

    ** Not modelled

    - CFS: fair.c is not in the repository; neither are the idle and stop
      classes, timers, and the core of the control groups.
    - Of the code for several processors: __schedule(), and the waiting for
      spinlocks (this_rq_lock(), double_rq_lock()), since a critical section is
      one step.
    - The allocation of the arrays of root_task_group in sched_init(), which the
      code does not check.  Overlapping scheduling domains
      (build_overlap_sched_groups()) are defined, but the theorem about
      build_sched_domains() excludes them.
    - Printing for debugging (debug.c), registration with debugfs, sysfs and
      the control groups, the set-up of sockets, the static initialisers of
      init_task.h, and interactive test programs. *)

From stdpp Require Export base tactics numbers list strings functions sets gmap.
From Stdlib Require Export ZArith Lia.

#[global] Open Scope Z_scope.
#[export] Set Warnings "-clear-no-such-hyp,-level-tolerance".

(** * Machine integers of the 32-bit ARM target *)

(** [unsigned int] and [unsigned long] are 32 bits wide, [u64] is 64 bits;
    signed values are in two's complement (the kernel is built with
    wrapping signed arithmetic). *)
Definition u8 (x : Z) : Z := x mod 2 ^ 8.
Definition u32 (x : Z) : Z := x mod 2 ^ 32.
Definition u64 (x : Z) : Z := x mod 2 ^ 64.
Definition s32 (x : Z) : Z := (x + 2 ^ 31) mod 2 ^ 32 - 2 ^ 31.
Definition s64 (x : Z) : Z := (x + 2 ^ 63) mod 2 ^ 64 - 2 ^ 63.

(** C truth values: a condition is an integer different from 0. *)
Definition c_true (x : Z) : bool := negb (x =? 0).
Definition of_bool (b : bool) : Z := if b then 1 else 0.
Definition has_flag (x m : Z) : bool := c_true (Z.land x m).

Lemma u32_small x : 0 <= x < 2 ^ 32 -> u32 x = x.
Proof. intros; unfold u32; now rewrite Z.mod_small. Qed.

Lemma u64_small x : 0 <= x < 2 ^ 64 -> u64 x = x.
Proof. intros; unfold u64; now rewrite Z.mod_small. Qed.

Lemma u8_small x : 0 <= x < 2 ^ 8 -> u8 x = x.
Proof. intros; unfold u8; now rewrite Z.mod_small. Qed.

Lemma s32_small x : - 2 ^ 31 <= x < 2 ^ 31 -> s32 x = x.
Proof. intros; unfold s32; rewrite Z.mod_small; lia. Qed.

Lemma s64_small x : - 2 ^ 63 <= x < 2 ^ 63 -> s64 x = x.
Proof. intros; unfold s64; rewrite Z.mod_small; lia. Qed.

Lemma u32_range x : 0 <= u32 x < 2 ^ 32.
Proof. unfold u32; now apply Z.mod_pos_bound. Qed.

Lemma u64_range x : 0 <= u64 x < 2 ^ 64.
Proof. unfold u64; now apply Z.mod_pos_bound. Qed.

Lemma s32_range x : - 2 ^ 31 <= s32 x < 2 ^ 31.
Proof. unfold s32; pose proof (Z.mod_pos_bound (x + 2 ^ 31) (2 ^ 32)); lia. Qed.

Lemma s64_range x : - 2 ^ 63 <= s64 x < 2 ^ 63.
Proof. unfold s64; pose proof (Z.mod_pos_bound (x + 2 ^ 63) (2 ^ 64)); lia. Qed.

Lemma u32_u32 x : u32 (u32 x) = u32 x.
Proof. apply u32_small, u32_range. Qed.

Lemma u64_u64 x : u64 (u64 x) = u64 x.
Proof. apply u64_small, u64_range. Qed.

Lemma u32_add_l x y : u32 (u32 x + y) = u32 (x + y).
Proof. unfold u32; now rewrite Zplus_mod_idemp_l. Qed.

Lemma u64_add_l x y : u64 (u64 x + y) = u64 (x + y).
Proof. unfold u64; now rewrite Zplus_mod_idemp_l. Qed.

Lemma s32_add_l x y : s32 (s32 x + y) = s32 (x + y).
Proof.
  unfold s32. replace ((x + 2 ^ 31) mod 2 ^ 32 - 2 ^ 31 + y + 2 ^ 31) with ((x + 2 ^ 31) mod 2 ^ 32 + y) by lia.
  rewrite Zplus_mod_idemp_l. do 2 f_equal. lia.
Qed.

Lemma s32_s32 x : s32 (s32 x) = s32 x.
Proof. apply s32_small, s32_range. Qed.

(** The difference of two u64 time stamps read as s64 is the true
    difference while the stamps are less than 2^63 apart. *)
Lemma s64_u64_sub x y : - 2 ^ 63 <= x - y < 2 ^ 63 -> s64 (u64 (x - y)) = x - y.
Proof.
  intros H. unfold s64, u64.
  rewrite Zplus_mod_idemp_l, Z.mod_small; lia.
Qed.

Lemma c_true_0 : c_true 0 = false.
Proof. reflexivity. Qed.

Lemma c_true_iff x : c_true x = true <-> x <> 0.
Proof. unfold c_true. rewrite negb_true_iff, Z.eqb_neq. done. Qed.

Lemma c_true_false x : c_true x = false <-> x = 0.
Proof. unfold c_true. rewrite negb_false_iff, Z.eqb_eq. done. Qed.

(** * Record update

    [r <| f := v |>] is the record [r] with its field [f] set to [v].  A
    record declares its eta expansion once ([Eta]); the setter of a field is
    then computed from it by abstracting the field's projection. *)
Class Eta (R : Type) := eta_of : R -> R.
Class Setter {R F : Type} (proj : R -> F) := setf : (F -> F) -> R -> R.

Ltac solve_setter :=
  match goal with
  | |- @Setter ?R ?F ?proj =>
      let i := constr:(_ : Eta R) in
      let e := eval hnf in i in
      let h := eval pattern proj in e in
      match h with
      | ?body _ =>
          let t := constr:(fun (g : F -> F) (r : R) => body (fun r' => g (proj r')) r) in
          let t' := eval cbv beta in t in
          exact t'
      end
  end.

#[export] Hint Extern 1 (Setter _) => solve_setter : typeclass_instances.

Arguments setf {R F} proj {_} _ _ /.

Declare Scope upd_scope.
Delimit Scope upd_scope with upd.
Notation "r <| f := v |>" := (setf f (fun _ => v) r)
  (at level 1, left associativity, f constr at level 1, v at level 200,
   format "r  <| f  :=  v |>") : upd_scope.
Notation "r <| f ::= g |>" := (setf f g r)
  (at level 1, left associativity, f constr at level 1, g at level 200,
   format "r  <| f  ::=  g |>") : upd_scope.
#[global] Open Scope upd_scope.

(** * Tactics *)

(** Case analysis on the boolean integer comparisons of the goal. *)
Ltac bcase :=
  repeat match goal with
  | |- context [?x =? ?y] => destruct (Z.eqb_spec x y)
  | |- context [?x <? ?y] => destruct (Z.ltb_spec x y)
  | |- context [?x <=? ?y] => destruct (Z.leb_spec x y)
  | H : context [?x =? ?y] |- _ => destruct (Z.eqb_spec x y)
  | H : context [?x <? ?y] |- _ => destruct (Z.ltb_spec x y)
  | H : context [?x <=? ?y] |- _ => destruct (Z.leb_spec x y)
  end.

(** * Lists *)

(** [without x l] is [l] with every occurrence of [x] removed. *)
Definition without `{EqDecision A} (x : A) (l : list A) : list A :=
  filter (fun y => y <> x) l.

Section without.
Context `{EqDecision A}.
Implicit Types (x y : A) (l : list A).

Lemma without_not_in x l : x ∉ l -> without x l = l.
Proof.
  unfold without. induction l as [|y l IH]; intros Hx; [done|].
  rewrite filter_cons_True by set_solver. rewrite IH; set_solver.
Qed.

Lemma elem_of_without x y l : y ∈ without x l <-> y <> x /\ y ∈ l.
Proof. unfold without. by rewrite list_elem_of_filter. Qed.

Lemma without_app x l1 l2 : without x (l1 ++ l2) = without x l1 ++ without x l2.
Proof. apply filter_app. Qed.

Lemma without_cons_eq x l : without x (x :: l) = without x l.
Proof. unfold without. apply filter_cons_False. intros []; done. Qed.

Lemma without_cons_ne x y l : y <> x -> without x (y :: l) = y :: without x l.
Proof. intros. unfold without. by apply filter_cons_True. Qed.

Lemma without_nodup x l : NoDup l -> NoDup (without x l).
Proof. apply NoDup_filter. Qed.

Lemma without_perm x l : NoDup l -> x ∈ l -> l ≡ₚ x :: without x l.
Proof.
  induction l as [|y l IH]; intros Hnd Hin; [set_solver|].
  apply NoDup_cons in Hnd as [Hy Hnd].
  destruct (decide (y = x)) as [->|Hne].
  - rewrite without_cons_eq, without_not_in by done. done.
  - rewrite without_cons_ne by done. assert (x ∈ l) as Hx by (apply elem_of_cons in Hin as [?|?]; congruence).
    rewrite (IH Hnd Hx) at 1. apply Permutation_swap.
Qed.

Lemma without_length x l : NoDup l -> x ∈ l -> length l = S (length (without x l)).
Proof. intros Hnd Hin. by rewrite (without_perm x l Hnd Hin) at 1. Qed.

Lemma without_split x l1 l2 :
  NoDup (l1 ++ x :: l2) -> without x (l1 ++ x :: l2) = l1 ++ l2.
Proof.
  intros (H1 & H2 & H3)%NoDup_app. apply NoDup_cons in H3 as [H3 H4].
  rewrite without_app, without_cons_eq, !without_not_in by set_solver. done.
Qed.
End without.

Create HintDb lists.
#[export] Hint Resolve without_nodup NoDup_nil_2 : lists.
Create Rewrite HintDb lists.
#[export] Hint Rewrite @elem_of_without : lists.
