(* ===== verification/Forest.v ===== *)
(** First-child/next-sibling trees of numbered objects, as the process tree and
    the hierarchy of task groups have them: [linked] says that a parent pointer
    and a list of children represent a forest, [ids] is its preorder. *)

From S2P Require Import Prelude.

Inductive forest := FNil | FCons (p : nat) (children siblings : forest).

Fixpoint roots (f : forest) : list nat :=
  match f with FNil => [] | FCons p _ g => p :: roots g end.
Fixpoint ids (f : forest) : list nat :=
  match f with FNil => [] | FCons p c g => p :: ids c ++ ids g end.
Fixpoint fsize (f : forest) : nat :=
  match f with FNil => 0%nat | FCons _ c g => S (fsize c + fsize g) end.

Section linked.
Variable parent : nat -> option nat.
Variable children : nat -> list nat.

(** Every object of the forest has its parent and its list of children. *)
Fixpoint linked (par : nat) (f : forest) : Prop :=
  match f with
  | FNil => True
  | FCons p c g => parent p = Some par /\ children p = roots c /\ linked p c /\ linked par g
  end.

(** The tree rooted at [top]: the objects are distinct. *)
Record tree_at (top : nat) (f : forest) : Prop := {
  tree_children : children top = roots f;
  tree_linked : linked top f;
  tree_nodup : NoDup (top :: ids f) }.

Lemma linked_root par f p : linked par f -> p ∈ roots f -> parent p = Some par.
Proof.
  induction f as [|q c _ g IH]; intros Hl Hp; [set_solver|]. destruct Hl as (H1 & _ & _ & H4).
  apply elem_of_cons in Hp as [->|Hp]; [done|by apply IH].
Qed.
End linked.

Lemma roots_ids f : roots f ⊆ ids f.
Proof. induction f as [|p c _ g IH]; cbn; set_solver. Qed.

Lemma ids_length f : length (ids f) = fsize f.
Proof. induction f as [|p c IHc g IHg]; cbn; [done|]. by rewrite length_app, IHc, IHg. Qed.

Lemma roots_nodup f : NoDup (ids f) -> NoDup (roots f).
Proof.
  induction f as [|p c _ g IH]; cbn; [constructor|].
  intros [Hp (_ & _ & Hg)%NoDup_app]%NoDup_cons. constructor; [|by apply IH].
  intros H%roots_ids. set_solver.
Qed.

(** A representation depends only on the links of the forest's objects. *)
Lemma linked_ext parent children parent' children' par f :
  (forall p, p ∈ ids f -> parent' p = parent p /\ children' p = children p) ->
  linked parent children par f -> linked parent' children' par f.
Proof.
  revert par. induction f as [|p c IHc g IHg]; intros par He; [done|].
  intros (H1 & H2 & H3 & H4). cbn in He. destruct (He p ltac:(set_solver)) as [E1 E2].
  split; [by rewrite E1|]. split; [by rewrite E2|].
  split; [apply IHc|apply IHg]; try done; intros q Hq; apply He; set_solver.
Qed.
