(* ===== verification/KList.v ===== *)
(** The kernel's intrusive circular lists ([struct list_head]).

    include/linux/list.h is not part of the repository, so its operations are
    the parameters of the class [KListOps] and their documented behaviour is
    the class [KListLaws].  The laws speak about [view s a]: the nodes met when
    [->next] is followed from [a] until [a] comes back, [a] itself left out.
    An initialised, unlinked node has the empty view.  Every component with a
    list head (the RAS and RT run queues, the children of a task) is written
    against the operations and proved against the laws; [RingLists] at the end
    discharges the laws with an executable implementation, on which the
    concrete instances of the theorems are evaluated. *)

From S2P Require Import Prelude.

Class KListOps (A : Type) := {
  lh : Type;                          (* the links of all list_head fields *)
  view : lh -> A -> list A;           (* the rest of the ring of a node *)
  lh_ok : lh -> Prop;                 (* every ring is closed and disjoint *)
  INIT_LIST_HEAD : A -> lh -> lh;
  list_add : A -> A -> lh -> lh;      (* new, head *)
  list_add_tail : A -> A -> lh -> lh; (* new, head *)
  list_del_init : A -> lh -> lh;
  list_move : A -> A -> lh -> lh;     (* node, head *)
  list_move_tail : A -> A -> lh -> lh;
  list_empty : lh -> A -> bool;
  list_next : lh -> A -> A;           (* a->next *)
  list_prev : lh -> A -> A;           (* a->prev *)
}.

Class KListLaws (A : Type) `{EqDecision A} `{KListOps A} : Prop := {
  view_nodup (s : lh) a : lh_ok s -> NoDup (a :: view s a);
  view_rot (s : lh) a b l1 l2 :
    lh_ok s -> view s a = l1 ++ b :: l2 -> view s b = l2 ++ a :: l1;
  list_empty_spec (s : lh) a : list_empty s a = bool_decide (view s a = []);
  list_next_spec (s : lh) a : lh_ok s -> list_next s a = default a (head (view s a));
  list_prev_spec (s : lh) a : lh_ok s -> list_prev s a = default a (last (view s a));
  (* INIT_LIST_HEAD of a node that is on no list changes nothing *)
  init_spec (s : lh) a : lh_ok s -> view s a = [] ->
    lh_ok (INIT_LIST_HEAD a s) /\ forall b, view (INIT_LIST_HEAD a s) b = view s b;
  add_spec (s : lh) n h : lh_ok s -> n <> h -> view s n = [] ->
    lh_ok (list_add n h s) /\
    view (list_add n h s) h = n :: view s h /\
    forall b, b ∉ n :: h :: view s h -> view (list_add n h s) b = view s b;
  add_tail_spec (s : lh) n h : lh_ok s -> n <> h -> view s n = [] ->
    lh_ok (list_add_tail n h s) /\
    view (list_add_tail n h s) h = view s h ++ [n] /\
    forall b, b ∉ n :: h :: view s h -> view (list_add_tail n h s) b = view s b;
  del_init_spec (s : lh) n : lh_ok s ->
    lh_ok (list_del_init n s) /\
    view (list_del_init n s) n = [] /\
    forall b, b <> n -> view (list_del_init n s) b = without n (view s b);
  (* list_move and list_move_tail are a deletion followed by an insertion *)
  move_spec (s : lh) n h : lh_ok s -> n <> h ->
    lh_ok (list_move n h s) /\
    view (list_move n h s) h = n :: without n (view s h) /\
    forall b, b ∉ n :: h :: view s h -> view (list_move n h s) b = without n (view s b);
  move_tail_spec (s : lh) n h : lh_ok s -> n <> h ->
    lh_ok (list_move_tail n h s) /\
    view (list_move_tail n h s) h = without n (view s h) ++ [n] /\
    forall b, b ∉ n :: h :: view s h -> view (list_move_tail n h s) b = without n (view s b);
}.

(** * Consequences of the laws *)

Section KList.
Context {A : Type} `{KLA : KListLaws A}.
Implicit Types (s : lh) (a b n h : A).

Lemma view_self_not_in s a : lh_ok s -> a ∉ view s a.
Proof. intros Hok. by apply (view_nodup s a), NoDup_cons in Hok as [? _]. Qed.

Lemma view_no_dup s a : lh_ok s -> NoDup (view s a).
Proof. intros Hok. by apply (view_nodup s a), NoDup_cons in Hok as [_ ?]. Qed.

(** Two nodes are on each other's ring or on neither's. *)
Lemma view_sym s a b : lh_ok s -> b ∈ view s a -> a ∈ view s b.
Proof.
  intros Hok (l1 & l2 & E)%list_elem_of_split.
  rewrite (view_rot s a b l1 l2) by done. set_solver.
Qed.

Lemma view_not_empty s a b : lh_ok s -> b ∈ view s a -> view s b <> [].
Proof. intros Hok Hin%view_sym E; [|done]. rewrite E in Hin. set_solver. Qed.

Lemma list_empty_true s a : list_empty s a = true <-> view s a = [].
Proof. rewrite list_empty_spec. apply bool_decide_eq_true. Qed.

Lemma list_empty_false s a : list_empty s a = false <-> view s a <> [].
Proof. rewrite list_empty_spec. apply bool_decide_eq_false. Qed.

(** A node linked behind another head's ring is not in this one. *)
Lemma view_disjoint s a b n :
  lh_ok s -> n ∈ view s a -> b ∉ a :: view s a -> n ∉ view s b.
Proof.
  intros Hok Ha Hb Hn.
  apply list_elem_of_split in Ha as (l1 & l2 & E).
  pose proof (view_rot s a n l1 l2 Hok E) as Hv.
  apply view_sym in Hn; [|done]. rewrite Hv in Hn. rewrite E in Hb. set_solver.
Qed.

(** The ring through a node is a rotation of the ring through the head. *)
Lemma view_ring s a b : lh_ok s -> b ∈ view s a -> b :: view s b ≡ₚ a :: view s a.
Proof.
  intros Hok (l1 & l2 & E)%list_elem_of_split.
  rewrite (view_rot s a b l1 l2 Hok E), E. solve_Permutation.
Qed.

(** [head->prev != head->next] tells a list of two nodes or more from a list
    of one node or none. *)
Lemma prev_ne_next s a :
  lh_ok s -> (list_prev s a <> list_next s a <-> (2 <= length (view s a))%nat).
Proof.
  intros Hok. rewrite list_prev_spec, list_next_spec by done.
  pose proof (view_no_dup s a Hok) as Hnd.
  destruct (view s a) as [|x [|y l]] eqn:E; [simpl; split; [done|lia]..|].
  rewrite last_cons_cons. split; [simpl; lia|]. intros _ Hx.
  destruct (last (y :: l)) as [z|] eqn:El; [|by apply last_None in El].
  simpl in Hx. subst z. apply last_Some_elem_of in El.
  apply NoDup_cons in Hnd as [? _]. done.
Qed.
End KList.

(** * An implementation: rings as rotated sequences *)

Module RingLists.
Section Ring.
Context {A : Type} `{EqDecision A}.

(** [rot b r] is the ring [r] read from behind [b], [b] left out. *)
Fixpoint rot_from (b : A) (seen r : list A) : list A :=
  match r with
  | [] => []
  | x :: r' => if decide (x = b) then r' ++ rev seen else rot_from b (x :: seen) r'
  end.
Definition rot (b : A) (r : list A) : list A := rot_from b [] r.

Definition set_ring (r : list A) (s : A -> list A) : A -> list A :=
  fun b => if decide (b ∈ r) then rot b r else s b.

Definition r_del (n : A) (s : A -> list A) : A -> list A :=
  set_ring (s n) (fun b => if decide (b = n) then [] else s b).
Definition r_add (n h : A) (s : A -> list A) : A -> list A := set_ring (h :: n :: s h) s.
Definition r_add_tail (n h : A) (s : A -> list A) : A -> list A :=
  set_ring (h :: s h ++ [n]) s.

#[export] Instance ring_ops : KListOps A := {|
  lh := A -> list A;
  view := fun s a => s a;
  lh_ok := fun s => forall a, NoDup (a :: s a) /\ forall b, b ∈ s a -> s b = rot b (a :: s a);
  INIT_LIST_HEAD := fun a s => fun b => if decide (b = a) then [] else s b;
  list_add := r_add;
  list_add_tail := r_add_tail;
  list_del_init := r_del;
  list_move := fun n h s => r_add n h (r_del n s);
  list_move_tail := fun n h s => r_add_tail n h (r_del n s);
  list_empty := fun s a => match s a with [] => true | _ => false end;
  list_next := fun s a => match s a with [] => a | x :: _ => x end;
  list_prev := fun s a => match last (s a) with None => a | Some x => x end;
|}.

Lemma rot_from_split b seen l1 l2 :
  b ∉ l1 -> rot_from b seen (l1 ++ b :: l2) = l2 ++ rev seen ++ l1.
Proof.
  revert seen. induction l1 as [|x l1 IH]; intros seen Hb; simpl.
  - rewrite decide_True by done. by rewrite app_nil_r.
  - rewrite decide_False by set_solver. rewrite IH by set_solver. simpl.
    by rewrite <- !(assoc_L (++)).
Qed.

Lemma rot_split b l1 l2 : b ∉ l1 -> rot b (l1 ++ b :: l2) = l2 ++ l1.
Proof. intros. unfold rot. by rewrite rot_from_split. Qed.

Lemma rot_head a r : rot a (a :: r) = r.
Proof. change (a :: r) with ([] ++ a :: r). rewrite rot_split by set_solver. apply app_nil_r. Qed.

Lemma rot_rot a b r : NoDup r -> a ∈ r -> b ∈ r -> rot b (a :: rot a r) = rot b r.
Proof.
  intros Hnd Ha Hb. apply list_elem_of_split in Ha as (l1 & l2 & ->).
  apply NoDup_app in Hnd as (Hn1 & Hd & Hn2). apply NoDup_cons in Hn2 as [Hal2 Hn2].
  rewrite rot_split by set_solver.
  destruct (decide (b = a)) as [->|Hne].
  { rewrite rot_head, rot_split by set_solver. done. }
  apply elem_of_app in Hb as [Hb|[?|Hb]%elem_of_cons]; [|done|];
    apply list_elem_of_split in Hb as (k1 & k2 & ->).
  - apply NoDup_app in Hn1 as (? & ? & Hn1). apply NoDup_cons in Hn1 as [? _].
    replace (a :: l2 ++ k1 ++ b :: k2) with ((a :: l2 ++ k1) ++ b :: k2)
      by (simpl; by rewrite <- !(assoc_L (++))).
    replace ((k1 ++ b :: k2) ++ a :: l2) with (k1 ++ b :: (k2 ++ a :: l2))
      by (by rewrite <- (assoc_L (++))).
    rewrite !rot_split; [|set_solver..]. by rewrite <- !(assoc_L (++)).
  - apply NoDup_app in Hn2 as (? & ? & Hn2). apply NoDup_cons in Hn2 as [? _].
    replace (a :: (k1 ++ b :: k2) ++ l1) with ((a :: k1) ++ b :: (k2 ++ l1))
      by (simpl; by rewrite <- !(assoc_L (++))).
    replace (l1 ++ a :: k1 ++ b :: k2) with ((l1 ++ a :: k1) ++ b :: k2)
      by (by rewrite <- !(assoc_L (++))).
    rewrite !rot_split; [|set_solver..]. by rewrite <- !(assoc_L (++)).
Qed.

Lemma rot_perm a r : a ∈ r -> NoDup r -> a :: rot a r ≡ₚ r.
Proof.
  intros (l1 & l2 & ->)%list_elem_of_split (_ & ? & _)%NoDup_app.
  rewrite rot_split by set_solver. solve_Permutation.
Qed.

Lemma ok_in_sym (s : lh) a b : lh_ok s -> b ∈ view s a -> a ∈ view s b.
Proof.
  intros Hok Hb. destruct (Hok a) as [Hnd Hr]. simpl in *. rewrite (Hr b Hb).
  assert (b :: rot b (a :: s a) ≡ₚ a :: s a) as P by (apply rot_perm; [set_solver|done]).
  assert (a ∈ b :: rot b (a :: s a)) as H by (rewrite P; set_solver).
  apply NoDup_cons in Hnd as [? _]. set_solver.
Qed.

(** Installing a new ring [r] keeps the links well formed when no node
    outside [r] is linked to a node of [r]. *)
Lemma set_ring_ok r (s : lh) :
  NoDup r -> (forall a, a ∉ r -> NoDup (a :: s a) /\
                       forall b, b ∈ s a -> b ∉ r /\ s b = rot b (a :: s a)) ->
  lh_ok (set_ring r s).
Proof.
  intros Hnd Hout a. unfold set_ring. simpl. destruct (decide (a ∈ r)) as [Ha|Ha].
  - pose proof (rot_perm a r Ha Hnd) as P. split; [by rewrite P|].
    intros b Hb. assert (b ∈ r) as Hbr by (rewrite <- P; set_solver).
    rewrite decide_True by done. symmetry. by apply rot_rot.
  - destruct (Hout a Ha) as [Hn Hr]. split; [done|].
    intros b Hb. destruct (Hr b Hb) as [Hbr E]. by rewrite decide_False.
Qed.

Lemma del_ok (s : lh) n : lh_ok s ->
  lh_ok (r_del n s) /\ r_del n s n = [] /\ forall b, b <> n -> r_del n s b = without n (s b).
Proof.
  intros Hok. destruct (Hok n) as [Hnd Hr]. pose proof Hnd as Hnd'.
  apply NoDup_cons in Hnd' as [Hnn Hnd']. split; [|split].
  - apply set_ring_ok; [done|]. intros a Ha. destruct (decide (a = n)) as [->|Hne].
    + split; [repeat constructor; set_solver|set_solver].
    + destruct (Hok a) as [Ha1 Ha2]. split; [done|]. intros b Hb.
      assert (b <> n) by (intros ->; apply Ha; by apply (ok_in_sym s a n)).
      rewrite decide_False by done. split; [|by apply Ha2].
      intros Hbn. apply Ha.
      apply (ok_in_sym s a b Hok) in Hb. simpl in Hb. rewrite (Hr b Hbn) in Hb.
      assert (b :: rot b (n :: s n) ≡ₚ n :: s n) as P by (apply rot_perm; [set_solver|done]).
      assert (a ∈ n :: s n) as Hx by (rewrite <- P; set_solver). set_solver.
  - unfold r_del, set_ring. rewrite decide_False, decide_True by done. done.
  - intros b Hb. unfold r_del, set_ring. destruct (decide (b ∈ s n)) as [Hin|Hin].
    + rewrite (Hr b Hin). apply list_elem_of_split in Hin as (l1 & l2 & E).
      rewrite E in *. apply NoDup_app in Hnd' as (? & ? & H2).
      apply NoDup_cons in H2 as [? _].
      rewrite rot_split by set_solver.
      replace (n :: l1 ++ b :: l2) with ((n :: l1) ++ b :: l2) by done.
      rewrite rot_split by set_solver.
      rewrite without_app, without_cons_eq, !without_not_in by set_solver. done.
    + rewrite decide_False by done. rewrite without_not_in; [done|].
      intros Hn. apply Hin. by apply (ok_in_sym s b n).
Qed.

Lemma ring_out (s : lh) h n a : lh_ok s -> s n = [] -> a ∉ n :: h :: s h ->
  NoDup (a :: s a) /\ forall b, b ∈ s a -> b ∉ n :: h :: s h /\ s b = rot b (a :: s a).
Proof.
  intros Hok Hn Ha. destruct (Hok a) as [Hnd Hr]. split; [done|]. intros b Hb.
  split; [|by apply Hr].
  pose proof (ok_in_sym s a b Hok Hb) as Hs. simpl in Hs.
  intros [->|[->|Hbh]%elem_of_cons]%elem_of_cons.
  - rewrite Hn in Hs. set_solver.
  - set_solver.
  - destruct (Hok h) as [Hndh Hrh]. rewrite (Hrh b Hbh) in Hs.
    assert (b :: rot b (h :: s h) ≡ₚ h :: s h) as P by (apply rot_perm; [set_solver|done]).
    assert (a ∈ h :: s h) as Hx by (rewrite <- P; set_solver). set_solver.
Qed.

Lemma add_at_ok (s : lh) n h r : lh_ok s -> n <> h -> s n = [] ->
  r ≡ₚ n :: s h ->
  lh_ok (set_ring (h :: r) s) /\ set_ring (h :: r) s h = r /\
  forall b, b ∉ n :: h :: s h -> set_ring (h :: r) s b = s b.
Proof.
  intros Hok Hne Hn Hp. destruct (Hok h) as [Hnd Hr].
  assert (forall b, b ∈ h :: r <-> b ∈ n :: h :: s h) as Hin.
  { intros b. rewrite !elem_of_cons, Hp, elem_of_cons. tauto. }
  assert (n ∉ s h) as Hnh.
  { intros Hx. apply (ok_in_sym s h n) in Hx; [|done]. simpl in Hx. rewrite Hn in Hx.
    set_solver. }
  split; [|split].
  - apply set_ring_ok.
    + rewrite Hp. apply NoDup_cons in Hnd as [? ?].
      repeat constructor; [set_solver|done|done].
    + intros a Ha. rewrite Hin in Ha. destruct (ring_out s h n a Hok Hn Ha) as [H1 H2].
      split; [done|]. intros b Hb. rewrite Hin. by apply H2.
  - unfold set_ring. rewrite decide_True by set_solver. apply rot_head.
  - intros b Hb. unfold set_ring. rewrite decide_False; [done|]. by rewrite Hin.
Qed.

#[export] Instance ring_laws : KListLaws A.
Proof.
  assert (forall (s : lh) n, lh_ok s -> s n = [] -> forall h, n <> h ->
    lh_ok (r_add_tail n h s) /\ r_add_tail n h s h = s h ++ [n] /\
    forall b, b ∉ n :: h :: s h -> r_add_tail n h s b = s b) as Hat.
  { intros s n Hok Hn h Hne. apply add_at_ok; try done. solve_Permutation. }
  assert (forall (s : lh) n, lh_ok s -> s n = [] -> forall h, n <> h ->
    lh_ok (r_add n h s) /\ r_add n h s h = n :: s h /\
    forall b, b ∉ n :: h :: s h -> r_add n h s b = s b) as Ha.
  { intros s n Hok Hn h Hne. by apply add_at_ok. }
  split; simpl.
  - intros s a Hok. by apply (Hok a).
  - intros s a b l1 l2 Hok E. destruct (Hok a) as [Hnd Hr].
    rewrite (Hr b) by (rewrite E; set_solver). rewrite E in *.
    replace (a :: l1 ++ b :: l2) with ((a :: l1) ++ b :: l2) by done.
    apply rot_split. apply (NoDup_app (a :: l1)) in Hnd as (_ & H2 & _).
    intros ?. by apply (H2 b); [|set_solver].
  - intros s a. by destruct (s a).
  - intros s a Hok. by destruct (s a).
  - intros s a Hok. by destruct (last (s a)).
  - intros s a Hok E. split.
    + intros b. destruct (Hok b) as [H1 H2].
      destruct (decide (b = a)) as [->|]; [split; [repeat constructor; set_solver|set_solver]|].
      split; [done|]. intros c Hc. destruct (decide (c = a)) as [->|]; [|by apply H2].
      pose proof (ok_in_sym s b a Hok Hc) as Hx. simpl in Hx. rewrite E in Hx. set_solver.
    + intros b. by destruct (decide (b = a)) as [->|].
  - intros s n h Hok Hne Hn. by apply Ha.
  - intros s n h Hok Hne Hn. by apply Hat.
  - intros s n Hok. by apply del_ok.
  - intros s n h Hok Hne. destruct (del_ok s n Hok) as (D1 & D2 & D3).
    destruct (Ha (r_del n s) n D1 D2 h Hne) as (H1 & H2 & H3).
    split; [done|]. rewrite H2, D3 by done. split; [done|]. intros b Hb.
    rewrite H3, D3; [done|set_solver|].
    rewrite D3 by done. rewrite !elem_of_cons, elem_of_without. set_solver.
  - intros s n h Hok Hne. destruct (del_ok s n Hok) as (D1 & D2 & D3).
    destruct (Hat (r_del n s) n D1 D2 h Hne) as (H1 & H2 & H3).
    split; [done|]. rewrite H2, D3 by done. split; [done|]. intros b Hb.
    rewrite H3, D3; [done|set_solver|].
    rewrite D3 by done. rewrite !elem_of_cons, elem_of_without. set_solver.
Qed.

(** The state in which every node is initialised and unlinked. *)
Definition unlinked : lh := fun _ => [].

Lemma unlinked_ok : lh_ok unlinked.
Proof. intros a. split; [repeat constructor; set_solver|set_solver]. Qed.
End Ring.
End RingLists.
