(* ===== verification/Sched.v ===== *)
(** The scheduler's data: include/linux/sched.h and kernel/sched/sched.h.

    The build is the goldfish ARMv7 one: CONFIG_SMP off (one runqueue, so a
    [struct rq *] argument is always [rq s]), CONFIG_CGROUP_SCHED,
    CONFIG_RT_GROUP_SCHED, CONFIG_CGROUP_CPUACCT and CONFIG_SCHEDSTATS on,
    CONFIG_SCHED_DEBUG off.  Spin locks, RCU sections and memory barriers
    order the accesses of several processors and have no effect on the state
    of this single-processor model; printk is not modelled except for the three
    tracing lines that the repository's cmp.c reads back ([klog]).

    A task is a pointer [p : nat] into the store [tasks]; a task group is a
    pointer into [tgs].  On one processor a group has exactly one rt_rq and
    one group entity, which are addressed by the group ([rt_rqs], [group_se]);
    the group [root_task_group] owns [rq->rt].  All [list_head] links live in
    [links] (see KList.v).  What the scheduler calls but the repository does
    not hold (fair.c, idle_task.c, stop_task.c, rtmutex.c, cgroup, signal and
    security code) is a member of [KEnv]; the state of that code is the opaque
    type [Ext], so that a member typed [Ext -> Ext] cannot touch the
    scheduler's own state. *)

From S2P Require Import Prelude KList.

(** * Constants *)

Definition SCHED_NORMAL := 0.
Definition SCHED_FIFO := 1.
Definition SCHED_RR := 2.
Definition SCHED_BATCH := 3.
Definition SCHED_IDLE := 5.
Definition SCHED_RAS := 6.
Definition SCHED_RESET_ON_FORK := 0x40000000.

Definition TASK_RUNNING := 0.
Definition TASK_INTERRUPTIBLE := 1.
Definition TASK_UNINTERRUPTIBLE := 2.
Definition TASK_DEAD := 64.
Definition TASK_WAKEKILL := 128.
Definition TASK_KILLABLE := Z.lor TASK_WAKEKILL TASK_UNINTERRUPTIBLE.
Definition TASK_NORMAL := Z.lor TASK_INTERRUPTIBLE TASK_UNINTERRUPTIBLE.

Definition WF_SYNC := 1.
Definition WF_FORK := 2.
Definition ENQUEUE_WAKEUP := 1.
Definition ENQUEUE_HEAD := 2.
Definition ENQUEUE_WAKING := 0.
Definition DEQUEUE_SLEEP := 1.

Definition PF_VCPU := 0x10.
Definition PF_WQ_WORKER := 0x20.
Definition PF_FROZEN := 0x10000.

Definition MAX_USER_RT_PRIO := 100.
Definition MAX_RT_PRIO := MAX_USER_RT_PRIO.
Definition MAX_PRIO := MAX_RT_PRIO + 40.

(** From other headers of the kernel ABI (asm/resource.h, errno.h, time.h). *)
Definition RLIMIT_NICE := 13.
Definition RLIMIT_RTPRIO := 14.
Definition RLIMIT_RTTIME := 15.
Definition RLIM_INFINITY := 2 ^ 32 - 1.
Definition EPERM := 1.
Definition ESRCH := 3.
Definition EAGAIN := 11.
Definition ENOMEM := 12.
Definition EACCES := 13.
Definition EFAULT := 14.
Definition EBUSY := 16.
Definition EINVAL := 22.
Definition ERESTARTSYS := 512.
Definition CAP_SYS_NICE := 23.
Definition NSEC_PER_SEC := 1000000000.
Definition NSEC_PER_USEC := 1000.
Definition USEC_PER_SEC := 1000000.
(** kernel.h: DIV_ROUND_UP() on unsigned long operands *)
Definition DIV_ROUND_UP (n d : Z) : Z := u32 (n + d - 1) / d.

Definition RUNTIME_INF := 2 ^ 64 - 1.

Definition NICE_TO_PRIO (nice : Z) : Z := MAX_RT_PRIO + nice + 20.
Definition PRIO_TO_NICE (prio : Z) : Z := prio - MAX_RT_PRIO - 20.

(** kernel/sched/sched.h: rt_policy() *)
Definition rt_policy (policy : Z) : bool :=
  (policy =? SCHED_FIFO) || (policy =? SCHED_RR).

(** include/linux/sched.h: rt_prio() *)
Definition rt_prio (prio : Z) : bool := prio <? MAX_RT_PRIO.

(** * Data *)

Inductive node :=
  | RasQueue                       (* rq->ras.run_list *)
  | RasNode (p : nat)              (* p->ras.run_list *)
  | RtQueue (g i : nat)            (* g's rt_rq->active.queue + i *)
  | RtTask (p : nat)               (* p->rt.run_list *)
  | RtGroup (g : nat)              (* g->rt_se[0]->run_list *)
  | SeGroup (p : nat)              (* p->se.group_node *)
  | Children (p : nat)             (* p->children *)
  | Sibling (p : nat).             (* p->sibling *)

#[export] Instance node_eq_dec : EqDecision node.
Proof. solve_decision. Defined.

(** The five scheduling classes, [struct sched_class] objects. *)
Inductive sched_class := stop_class | rt_class | ras_class | fair_class | idle_class.

#[export] Instance sched_class_eq_dec : EqDecision sched_class.
Proof. solve_decision. Defined.

(** A [struct sched_rt_entity *] is a task's entity or a group's. *)
Inductive rtse := TaskSe (p : nat) | GroupSe (g : nat).

#[export] Instance rtse_eq_dec : EqDecision rtse.
Proof. solve_decision. Defined.

(** [struct sched_statistics]: the members the modelled code writes. *)
Record sched_statistics := mkStats {
  wait_start : Z; sleep_start : Z; block_start : Z; exec_max : Z;
  nr_wakeups : Z; nr_wakeups_sync : Z }.

Record load_weight := mkLw { weight : Z; inv_weight : Z }.

Record sched_entity := mkSe {
  se_load : load_weight;                   (* load *)
  se_on_rq : Z;
  exec_start : Z; sum_exec_runtime : Z; vruntime : Z; prev_sum_exec_runtime : Z;
  nr_migrations : Z;
  statistics : sched_statistics;
  se_parent : option nat;                  (* parent, by the group it stands for *)
  se_cfs_rq : nat }.                       (* cfs_rq, by the group that owns it *)

Record sched_rt_entity := mkRtSe {
  rt_timeout : Z; rt_time_slice : Z; rt_nr_cpus_allowed : Z;
  rt_parent : option rtse;                 (* parent *)
  rt_on : nat;                             (* rt_rq, by the group that owns it *)
  rt_my_q : option nat }.                  (* my_q *)

Record sched_ras_entity := mkRasSe {
  ras_timeout : Z; ras_time_slice : Z; ras_nr_cpus_allowed : Z; ras_weight : Z }.

Record cred := mkCred { cr_uid : Z; cr_euid : Z; cr_suid : Z; cr_user_ns : nat }.

Record task_struct := mkTask {
  wcounts : Z; trace_flag : Z; rr_fifo_trace : Z;
  t_state : Z; t_flags : Z; t_on_rq : Z;
  t_prio : Z; t_static_prio : Z; t_normal_prio : Z; t_rt_priority : Z;
  t_class : sched_class;
  t_se : sched_entity; t_rt : sched_rt_entity; t_ras : sched_ras_entity;
  sched_task_group : nat;
  t_policy : Z; t_cpus_allowed : Z;
  t_mm : option nat; t_active_mm : option nat;
  t_exit_state : Z;
  t_in_iowait : Z; sched_reset_on_fork : Z;
  t_pid : Z; real_parent : option nat; t_comm : list Z;
  t_cred : cred;
  t_utime : Z; t_stime : Z; t_utimescaled : Z; t_stimescaled : Z; t_gtime : Z;
  prev_utime : Z; prev_stime : Z;
  t_nvcsw : Z; t_nivcsw : Z;
  sched_exp : Z;                           (* cputime_expires.sched_exp *)
  rlim : Z -> Z * Z;                       (* signal->rlim[]: (rlim_cur, rlim_max) *)
  need_resched : bool;                     (* TIF_NEED_RESCHED *)
  sigpending : bool;                       (* TIF_SIGPENDING *)
  sigkill_pending : bool;                  (* SIGKILL in pending.signal *)
  preempt_count : Z;                       (* thread_info *)
  pi_blocked : bool }.                     (* pi_blocked_on != NULL *)

(** [struct rt_rq]; the queues of [active] are the lists [RtQueue g i]. *)
Record rt_rq := mkRtRq {
  rt_bitmap : Z;                           (* active.bitmap *)
  rt_nr_running : Z; highest_prio : Z;     (* highest_prio.curr *)
  rt_throttled : Z; rt_time : Z; rt_runtime : Z; rt_nr_boosted : Z;
  rt_tg : option nat }.                    (* tg *)

(** [struct ras_rq]; run_list is the list [RasQueue]. *)
Record ras_rq := mkRasRq { ras_nr_running : Z; ras_time : Z }.

Record rt_bandwidth := mkRtB {
  rtb_period : Z; rtb_runtime : Z; rtb_timer_active : bool }.

Record task_group := mkTg {
  tg_se : option nat;                      (* se[0], NULL for the root group *)
  tg_rt_se : option rtse;                  (* rt_se[0] *)
  tg_rt_bandwidth : rt_bandwidth;
  tg_parent : option nat; tg_children : list nat }.

(** [struct rq]; CPU_LOAD_IDX_MAX is 5. *)
Record rq_t := mkRq {
  nr_running : Z; cpu_load : list Z; last_load_update_tick : Z;
  skip_clock_update : Z;
  rq_load : load_weight; nr_load_updates : Z; nr_switches : Z;
  cfs_h_nr_running : Z;                    (* cfs.h_nr_running *)
  rq_ras : ras_rq;
  nr_uninterruptible : Z;
  rq_curr : nat; rq_idle : nat; rq_stop : option nat;
  rq_prev_mm : option nat;
  clock : Z; clock_task : Z;
  nr_iowait : Z;
  rq_calc_load_update : Z; calc_load_active : Z;
  yld_count : Z; sched_count : Z; ttwu_count : Z }.

(** The globals of the load-average code of core.c. *)
Record load_globals := mkLoad {
  calc_load_tasks : Z; calc_load_update : Z; avenrun : list Z;
  calc_load_idle : list Z; calc_load_idx : Z }.

(** The tracing lines of task_tick_ras() and task_tick_rt(). *)
Inductive klog_line :=
  | RAS_Tracing (pid slice : Z)
  | RR_tracing (pid slice : Z)
  | FIFO_tracing (pid : Z).

#[export] Instance eta_stats : Eta sched_statistics := fun r =>
  mkStats r.(wait_start) r.(sleep_start) r.(block_start) r.(exec_max)
    r.(nr_wakeups) r.(nr_wakeups_sync).
#[export] Instance eta_se : Eta sched_entity := fun r =>
  mkSe r.(se_load) r.(se_on_rq) r.(exec_start)
    r.(sum_exec_runtime) r.(vruntime) r.(prev_sum_exec_runtime)
    r.(nr_migrations) r.(statistics) r.(se_parent) r.(se_cfs_rq).
#[export] Instance eta_lw : Eta load_weight := fun r => mkLw r.(weight) r.(inv_weight).
#[export] Instance eta_rtse : Eta sched_rt_entity := fun r =>
  mkRtSe r.(rt_timeout) r.(rt_time_slice) r.(rt_nr_cpus_allowed) r.(rt_parent)
    r.(rt_on) r.(rt_my_q).
#[export] Instance eta_rasse : Eta sched_ras_entity := fun r =>
  mkRasSe r.(ras_timeout) r.(ras_time_slice) r.(ras_nr_cpus_allowed) r.(ras_weight).
#[export] Instance eta_task : Eta task_struct := fun r =>
  mkTask r.(wcounts) r.(trace_flag) r.(rr_fifo_trace) r.(t_state) r.(t_flags)
    r.(t_on_rq) r.(t_prio) r.(t_static_prio) r.(t_normal_prio) r.(t_rt_priority)
    r.(t_class) r.(t_se) r.(t_rt) r.(t_ras) r.(sched_task_group) r.(t_policy) r.(t_cpus_allowed)
    r.(t_mm) r.(t_active_mm) r.(t_exit_state) r.(t_in_iowait)
    r.(sched_reset_on_fork) r.(t_pid) r.(real_parent) r.(t_comm) r.(t_cred)
    r.(t_utime) r.(t_stime) r.(t_utimescaled) r.(t_stimescaled) r.(t_gtime)
    r.(prev_utime) r.(prev_stime) r.(t_nvcsw) r.(t_nivcsw) r.(sched_exp)
    r.(rlim) r.(need_resched) r.(sigpending) r.(sigkill_pending)
    r.(preempt_count) r.(pi_blocked).
#[export] Instance eta_rt_rq : Eta rt_rq := fun r =>
  mkRtRq r.(rt_bitmap) r.(rt_nr_running) r.(highest_prio) r.(rt_throttled)
    r.(rt_time) r.(rt_runtime) r.(rt_nr_boosted) r.(rt_tg).
#[export] Instance eta_ras_rq : Eta ras_rq := fun r =>
  mkRasRq r.(ras_nr_running) r.(ras_time).
#[export] Instance eta_rtb : Eta rt_bandwidth := fun r =>
  mkRtB r.(rtb_period) r.(rtb_runtime) r.(rtb_timer_active).
#[export] Instance eta_tg : Eta task_group := fun r =>
  mkTg r.(tg_se) r.(tg_rt_se) r.(tg_rt_bandwidth) r.(tg_parent) r.(tg_children).
#[export] Instance eta_rq : Eta rq_t := fun r =>
  mkRq r.(nr_running) r.(cpu_load) r.(last_load_update_tick) r.(skip_clock_update)
    r.(rq_load) r.(nr_load_updates) r.(nr_switches) r.(cfs_h_nr_running)
    r.(rq_ras) r.(nr_uninterruptible) r.(rq_curr) r.(rq_idle) r.(rq_stop)
    r.(rq_prev_mm) r.(clock) r.(clock_task) r.(nr_iowait)
    r.(rq_calc_load_update) r.(calc_load_active) r.(yld_count) r.(sched_count)
    r.(ttwu_count).
#[export] Instance eta_load : Eta load_globals := fun r =>
  mkLoad r.(calc_load_tasks) r.(calc_load_update) r.(avenrun)
    r.(calc_load_idle) r.(calc_load_idx).

(** [root_task_group]; its rt_rq is [rq->rt]. *)
Definition root_task_group : nat := 0.

(** The two type parameters of the model: the opaque state of the code outside
    the repository, and the links of the list heads. *)
Class KTypes := { Ext : Type; node_lists :: KListOps node }.

(** The state of the kernel that the scheduler reads and writes. *)
Record kst `{KTypes} := mkKst {
  tasks : nat -> task_struct;
  rq : rq_t;
  links : lh (A := node);
  rt_rqs : nat -> rt_rq;
  group_se : nat -> sched_rt_entity;
  leaf_rt_rqs : list nat;                  (* rq->leaf_rt_rq_list, by group *)
  tgs : nat -> task_group;
  def_rt_bandwidth : rt_bandwidth;
  sysctl_sched_rt_period : Z;
  sysctl_sched_rt_runtime : Z;
  jiffies : Z;
  loadavg : load_globals;
  cpuusage : nat -> Z;                     (* cpuacct: *ca->cpuusage *)
  cpustat : nat -> nat -> Z;               (* cpuacct: ca->cpustat->cpustat[] *)
  klog : list klog_line;                   (* newest line last *)
  ext : Ext }.

#[export] Instance eta_kst `{KTypes} : Eta kst := fun r =>
  mkKst _ r.(tasks) r.(rq) r.(links) r.(rt_rqs) r.(group_se) r.(leaf_rt_rqs) r.(tgs)
    r.(def_rt_bandwidth) r.(sysctl_sched_rt_period) r.(sysctl_sched_rt_runtime)
    r.(jiffies) r.(loadavg) r.(cpuusage) r.(cpustat) r.(klog) r.(ext).

Section updates.
Context `{KTypes}.

(** Writes through a pointer to a run queue, a group or a group's entity. *)
Definition upd_rt_rq (g : nat) (f : rt_rq -> rt_rq) (s : kst) : kst :=
  s <| rt_rqs ::= fun m h => if (h =? g)%nat then f (m g) else m h |>.
Definition upd_tg (g : nat) (f : task_group -> task_group) (s : kst) : kst :=
  s <| tgs ::= fun m h => if (h =? g)%nat then f (m g) else m h |>.
Definition upd_group_se (g : nat) (f : sched_rt_entity -> sched_rt_entity) (s : kst) : kst :=
  s <| group_se ::= fun m h => if (h =? g)%nat then f (m g) else m h |>.

Lemma rt_rqs_upd_eq g f s : rt_rqs (upd_rt_rq g f s) g = f (rt_rqs s g).
Proof. unfold upd_rt_rq; simpl. by rewrite Nat.eqb_refl. Qed.

Lemma rt_rqs_upd_ne g h f s : h <> g -> rt_rqs (upd_rt_rq g f s) h = rt_rqs s h.
Proof. intros Hne. unfold upd_rt_rq; simpl. by rewrite (proj2 (Nat.eqb_neq h g) Hne). Qed.

(** Writes through a task pointer. *)
Definition upd_task (p : nat) (g : task_struct -> task_struct) (s : kst) : kst :=
  s <| tasks ::= fun f q => if (q =? p)%nat then g (f q) else f q |>.
Definition upd_ras (p : nat) (g : sched_ras_entity -> sched_ras_entity) : kst -> kst :=
  upd_task p (fun t => t <| t_ras ::= g |>).
Definition upd_rt (p : nat) (g : sched_rt_entity -> sched_rt_entity) : kst -> kst :=
  upd_task p (fun t => t <| t_rt ::= g |>).
Definition upd_se (p : nat) (g : sched_entity -> sched_entity) : kst -> kst :=
  upd_task p (fun t => t <| t_se ::= g |>).

Lemma tasks_upd_eq p g s : tasks (upd_task p g s) p = g (tasks s p).
Proof. unfold upd_task; simpl. by rewrite Nat.eqb_refl. Qed.

Lemma tasks_upd_ne p q g s : q <> p -> tasks (upd_task p g s) q = tasks s q.
Proof. intros Hne. unfold upd_task; simpl. by rewrite (proj2 (Nat.eqb_neq q p) Hne). Qed.

(** [rq->curr] *)
Definition curr (s : kst) : nat := rq_curr (rq s).

(** ** Inline functions of the two headers *)

(** kernel/sched/sched.h: task_group() *)
Definition task_group_of (s : kst) (p : nat) : nat := sched_task_group (tasks s p).

(** kernel/sched/sched.h: set_task_rq(), __set_task_cpu() *)
Definition set_task_rq (p : nat) (s : kst) : kst :=
  let tg := task_group_of s p in
  let s := upd_se p (fun e => e <| se_cfs_rq := tg |> <| se_parent := tg_se (tgs s tg) |>) s in
  upd_rt p (fun e => e <| rt_on := tg |> <| rt_parent := tg_rt_se (tgs s tg) |>) s.
Definition __set_task_cpu (p : nat) (s : kst) : kst := set_task_rq p s.

(** kernel/sched/sched.h: update_load_add(), update_load_sub(), update_load_set() *)
Definition update_load_add (inc : Z) (lw : load_weight) : load_weight :=
  mkLw (u32 (weight lw + inc)) 0.
Definition update_load_sub (dec : Z) (lw : load_weight) : load_weight :=
  mkLw (u32 (weight lw - dec)) 0.
Definition update_load_set (w : Z) (lw : load_weight) : load_weight := mkLw w 0.

(** kernel/sched/sched.h: inc_nr_running(), dec_nr_running() *)
Definition inc_nr_running (s : kst) : kst :=
  s <| rq ::= fun r => r <| nr_running ::= fun n => u32 (n + 1) |> |>.
Definition dec_nr_running (s : kst) : kst :=
  s <| rq ::= fun r => r <| nr_running ::= fun n => u32 (n - 1) |> |>.

(** kernel/sched/sched.h: task_current(), task_running() *)
Definition task_current (s : kst) (p : nat) : bool := (curr s =? p)%nat.
Definition task_running (s : kst) (p : nat) : bool := task_current s p.

(** kernel/sched/sched.h: task_has_rt_policy() *)
Definition task_has_rt_policy (s : kst) (p : nat) : bool := rt_policy (t_policy (tasks s p)).

(** kernel/sched/sched.h: global_rt_period(), global_rt_runtime() *)
Definition global_rt_period (s : kst) : Z :=
  u64 (sysctl_sched_rt_period s * NSEC_PER_USEC).
Definition global_rt_runtime (s : kst) : Z :=
  if sysctl_sched_rt_runtime s <? 0 then RUNTIME_INF
  else u64 (sysctl_sched_rt_runtime s * NSEC_PER_USEC).

(** kernel/sched/sched.h: rt_bandwidth_enabled() *)
Definition rt_bandwidth_enabled (s : kst) : bool := 0 <=? sysctl_sched_rt_runtime s.

(** include/linux/sched.h: rt_task() *)
Definition rt_task (s : kst) (p : nat) : bool := rt_prio (t_prio (tasks s p)).

(** include/linux/sched.h: task_contributes_to_load() *)
Definition task_contributes_to_load (t : task_struct) : bool :=
  has_flag (t_state t) TASK_UNINTERRUPTIBLE && (Z.land (t_flags t) PF_FROZEN =? 0).

(** include/linux/sched.h: set_tsk_need_resched(), clear_tsk_need_resched(),
    test_tsk_need_resched() *)
Definition set_tsk_need_resched (p : nat) : kst -> kst :=
  upd_task p (fun t => t <| need_resched := true |>).
Definition clear_tsk_need_resched (p : nat) : kst -> kst :=
  upd_task p (fun t => t <| need_resched := false |>).
Definition test_tsk_need_resched (s : kst) (p : nat) : bool := need_resched (tasks s p).

(** kernel/sched/core.c: resched_task() of the uniprocessor build *)
Definition resched_task (p : nat) (s : kst) : kst := set_tsk_need_resched p s.

(** include/linux/sched.h: signal_pending(), __fatal_signal_pending(),
    signal_pending_state() *)
Definition signal_pending (t : task_struct) : bool := sigpending t.
Definition __fatal_signal_pending (t : task_struct) : bool := sigkill_pending t.
Definition signal_pending_state (state : Z) (t : task_struct) : bool :=
  if negb (has_flag state (Z.lor TASK_INTERRUPTIBLE TASK_WAKEKILL)) then false
  else if negb (signal_pending t) then false
  else has_flag state TASK_INTERRUPTIBLE || __fatal_signal_pending t.

(** include/linux/sched.h: task_rlimit(), task_rlimit_max() *)
Definition task_rlimit (t : task_struct) (limit : Z) : Z := (rlim t limit).1.
Definition task_rlimit_max (t : task_struct) (limit : Z) : Z := (rlim t limit).2.

(** include/linux/sched.h: struct sched_class, the operations of a class.
    A missing operation (NULL) is [None].  The outer [None] of
    [pick_next_task_op] is a BUG_ON(), the inner one the answer NULL. *)
Record class_ops := mkOps {
  next_class : option sched_class;
  enqueue_task_op : nat -> Z -> kst -> kst;
  dequeue_task_op : nat -> Z -> kst -> kst;
  yield_task_op : kst -> kst;
  yield_to_task_op : option (nat -> bool -> kst -> bool * kst);
  check_preempt_curr_op : nat -> Z -> kst -> kst;
  pick_next_task_op : kst -> option (option nat * kst);
  put_prev_task_op : nat -> kst -> kst;
  set_curr_task_op : kst -> kst;
  task_tick_op : nat -> Z -> kst -> kst;
  task_fork_op : option (nat -> kst -> kst);
  switched_from_op : option (nat -> kst -> kst);
  switched_to_op : nat -> kst -> kst;
  prio_changed_op : nat -> Z -> kst -> kst;
  get_rr_interval_op : nat -> kst -> Z * kst;
  task_move_group_op : option (nat -> bool -> kst -> kst) }.

(** What the scheduling classes call and the repository does not hold:
    the clock, the thread-group CPU timers, the autogroup and cgroup code. *)
Class KEnv := {
  HZ : Z;                                       (* CONFIG_HZ *)
  sched_clock_cpu : Ext -> Z;
  account_group_exec_runtime : nat -> Z -> Ext -> Ext;
  autogroup_path : nat -> Ext -> option string; (* Some: the path was written *)
  css_cgroup : nat -> Ext -> option nat;        (* tg->css.cgroup *)
  cgroup_path : nat -> Ext -> string;
  cpuacct_subsys_active : Ext -> bool;
  task_ca_of : nat -> Ext -> nat;               (* task_subsys_state(), cpuacct *)
  ca_cgroup_parent : nat -> Ext -> option nat;  (* ca->css.cgroup->parent *)
  cgroup_ca : nat -> Ext -> nat;                (* the cpuacct of a cgroup *)
  cgroup_depth : nat;                           (* bound on the cgroup tree's depth *)
  sched_find_first_bit : Z -> Z;
  hrtimer_forward : nat -> Ext -> Z * Ext }.    (* by group: periods overrun *)

(** The configured tick rate is one of the values Kconfig offers, 100 to 1000,
    and accounting run time to the thread group's CPU timers neither moves a
    task group in the cgroup tree nor renames a cgroup. *)
Class KEnvLaws `{KEnv} : Prop := {
  HZ_range : 100 <= HZ <= 1000;
  depth_pos : (1 <= cgroup_depth)%nat;
  acct_autogroup p d e tg :
    autogroup_path tg (account_group_exec_runtime p d e) = autogroup_path tg e;
  acct_css_cgroup p d e tg :
    css_cgroup tg (account_group_exec_runtime p d e) = css_cgroup tg e;
  acct_cgroup_path p d e cgrp :
    cgroup_path cgrp (account_group_exec_runtime p d e) = cgroup_path cgrp e;
  (* the lowest set bit of a priority bitmap with its delimiter bit set *)
  find_first_bit_spec b : 0 <= b -> Z.testbit b MAX_RT_PRIO = true ->
    0 <= sched_find_first_bit b <= MAX_RT_PRIO /\
    Z.testbit b (sched_find_first_bit b) = true /\
    forall i, 0 <= i < sched_find_first_bit b -> Z.testbit b i = false }.

Context `{KEnv}.

(** include/linux/sched.h: RR_TIMESLICE, RAS_FG_TIMESLICE, RAS_BG_TIMESLICE,
    RAS_INC_TIME *)
Definition RR_TIMESLICE : Z := 100 * HZ ÷ 1000.
Definition RAS_FG_TIMESLICE : Z := 50 * HZ ÷ 1000.
Definition RAS_BG_TIMESLICE : Z := 30 * HZ ÷ 1000.
Definition RAS_INC_TIME : Z := 10 * HZ ÷ 1000.

(** kernel/sched/debug.c: task_group_path(); the shared buffer [group_path]
    is overwritten by each call and read before the next one *)
Definition task_group_path (tg : nat) (s : kst) : string :=
  match autogroup_path tg (ext s) with
  | Some path => path
  | None =>
      match css_cgroup tg (ext s) with
      | None => ""%string
      | Some cgrp => cgroup_path cgrp (ext s)
      end
  end.
End updates.
