(* ===== verification/Cpuacct.v ===== *)
(** CPU accounting groups: the cpuacct part of kernel/sched/core.c and its
    inline helpers in kernel/sched/sched.h.

    A [struct cpuacct *] is a number; the per-processor counters of the single
    processor are [cpuusage] and [cpustat] of the state.  The cgroup core,
    which owns the tree of groups, is a parameter ([ca_cgroup_parent],
    [cgroup_ca], [task_ca_of] of [KEnv]); the walk towards the root is bounded
    by [cgroup_depth], and [chain_ends] says that the bound is enough. *)

From S2P Require Import Prelude KList Sched.

(** enum cpu_usage_stat of linux/kernel_stat.h *)
Definition CPUTIME_USER := 0%nat.
Definition CPUTIME_NICE := 1%nat.
Definition CPUTIME_SYSTEM := 2%nat.
Definition CPUTIME_SOFTIRQ := 3%nat.
Definition CPUTIME_IRQ := 4%nat.
Definition CPUTIME_IDLE := 5%nat.
Definition CPUTIME_IOWAIT := 6%nat.
Definition CPUTIME_STEAL := 7%nat.
Definition CPUTIME_GUEST := 8%nat.
Definition CPUTIME_GUEST_NICE := 9%nat.

(** enum cpuacct_stat_index *)
Inductive cpuacct_stat_index := CPUACCT_STAT_USER | CPUACCT_STAT_SYSTEM.

Section cpuacct.
Context {KT : KTypes} {KE : KEnv}.

(** task_ca(), parent_ca() *)
Definition task_ca (p : nat) (s : kst) : nat := task_ca_of p (ext s).
Definition parent_ca (ca : option nat) (s : kst) : option nat :=
  match ca with
  | None => None
  | Some ca =>
      match ca_cgroup_parent ca (ext s) with
      | None => None
      | Some cgrp => Some (cgroup_ca cgrp (ext s))
      end
  end.

(** cpuacct_charge(): [for (; ca; ca = parent_ca(ca))] *)
Fixpoint cpuacct_charge_loop (fuel : nat) (ca : option nat) (cputime : Z) (s : kst) : kst :=
  match fuel, ca with
  | S fuel, Some c =>
      let s := s <| cpuusage ::= fun f d => if (d =? c)%nat then u64 (f c + cputime) else f d |> in
      cpuacct_charge_loop fuel (parent_ca (Some c) s) cputime s
  | _, _ => s
  end.
Definition cpuacct_charge (tsk : nat) (cputime : Z) (s : kst) : kst :=
  if negb (cpuacct_subsys_active (ext s)) then s
  else cpuacct_charge_loop cgroup_depth (Some (task_ca tsk s)) cputime s.

(** cpuacct_cpuusage_read(), cpuacct_cpuusage_write(): the read of one
    processor's counter is atomic under the run queue's lock *)
Definition cpuacct_cpuusage_read (ca : nat) (s : kst) : Z := cpuusage s ca.
Definition cpuacct_cpuusage_write (ca : nat) (val : Z) (s : kst) : kst :=
  s <| cpuusage ::= fun f d => if (d =? ca)%nat then val else f d |>.

(** cpuusage_read(), cpuusage_write(), cpuacct_percpu_seq_read(): the loops
    over the present processors visit the single processor *)
Definition cpuusage_read (cgrp : nat) (s : kst) : Z :=
  let ca := cgroup_ca cgrp (ext s) in
  let totalcpuusage := 0 in
  u64 (totalcpuusage + cpuacct_cpuusage_read ca s).
Definition cpuusage_write (cgrp : nat) (reset : Z) (s : kst) : Z * kst :=
  let ca := cgroup_ca cgrp (ext s) in
  if c_true reset then (- EINVAL, s)
  else (0, cpuacct_cpuusage_write ca 0 s).

(** The numbers that cpuacct_percpu_seq_read() prints. *)
Definition cpuacct_percpu_seq_read (cgroup : nat) (s : kst) : list Z :=
  [cpuacct_cpuusage_read (cgroup_ca cgroup (ext s)) s].

(** cpuacct_stats_show(): the pairs given to cb->fill(), in order.
    cputime64_to_clock_t() is outside the repository. *)
Definition cpuacct_stats_show (cputime64_to_clock_t : Z -> Z) (cgrp : nat) (s : kst)
  : list (cpuacct_stat_index * Z) :=
  let ca := cgroup_ca cgrp (ext s) in
  let val := 0 in
  let val := s64 (val + cpustat s ca CPUTIME_USER) in
  let val := s64 (val + cpustat s ca CPUTIME_NICE) in
  let user := cputime64_to_clock_t val in
  let val := 0 in
  let val := s64 (val + cpustat s ca CPUTIME_SYSTEM) in
  let val := s64 (val + cpustat s ca CPUTIME_IRQ) in
  let val := s64 (val + cpustat s ca CPUTIME_SOFTIRQ) in
  let system := cputime64_to_clock_t val in
  [(CPUACCT_STAT_USER, user); (CPUACCT_STAT_SYSTEM, system)].
End cpuacct.

(** The allocations of cpuacct_create(): the group, its usage counters and
    its statistics.  [live] is the set of blocks allocated and not freed. *)
Inductive ca_block := CaStruct | CaUsage | CaStat.

#[export] Instance ca_block_eq_dec : EqDecision ca_block.
Proof. solve_decision. Defined.

Inductive ca_result := RootCss | NewCss | ErrPtr (err : Z).

(** cpuacct_create(); the three booleans say whether each allocation succeeds *)
Definition cpuacct_create (cgrp_parent : option nat) (ok_ca ok_usage ok_stat : bool)
  (live : list ca_block) : ca_result * list ca_block :=
  match cgrp_parent with
  | None => (RootCss, live)
  | Some _ =>
      let out live := (ErrPtr (- ENOMEM), live) in
      let out_free_ca live := out (without CaStruct live) in
      let out_free_cpuusage live := out_free_ca (without CaUsage live) in
      if negb ok_ca then out live else
      let live := CaStruct :: live in
      if negb ok_usage then out_free_ca live else
      let live := CaUsage :: live in
      if negb ok_stat then out_free_cpuusage live else
      (NewCss, CaStat :: live)
  end.

(** cpuacct_destroy() *)
Definition cpuacct_destroy (live : list ca_block) : list ca_block :=
  without CaStruct (without CaUsage (without CaStat live)).

(** * Charging a task charges each group above it once *)

Section charge.
Context {KT : KTypes} {KE : KEnv}.

(** The groups from [ca] to the root, as the walk meets them. *)
Fixpoint ca_chain (fuel : nat) (ca : option nat) (s : kst) : list nat :=
  match fuel, ca with
  | S fuel, Some c => c :: ca_chain fuel (parent_ca (Some c) s) s
  | _, _ => []
  end.

(** The walk from [ca] reaches the root within [fuel] groups. *)
Fixpoint chain_ends (fuel : nat) (ca : option nat) (s : kst) : Prop :=
  match ca with
  | None => True
  | Some c =>
      match fuel with
      | O => False
      | S fuel => chain_ends fuel (parent_ca (Some c) s) s
      end
  end.

Lemma parent_ca_ext ca s s' : ext s' = ext s -> parent_ca ca s' = parent_ca ca s.
Proof. intros E. unfold parent_ca. by rewrite E. Qed.

Lemma ca_chain_ext n ca s s' : ext s' = ext s -> ca_chain n ca s' = ca_chain n ca s.
Proof.
  intros E. revert ca. induction n as [|n IH]; intros [c|]; simpl; [done..| |done].
  by rewrite !E, IH.
Qed.

Lemma charge_loop_frame n ca t s :
  exists f, cpuacct_charge_loop n ca t s = s <| cpuusage := f |>.
Proof.
  revert ca s. induction n as [|n IH]; intros [c|] s; simpl;
    try (exists (cpuusage s); by destruct s).
  edestruct IH as [f ->]. by exists f.
Qed.

Lemma charge_frame p t s : exists f, cpuacct_charge p t s = s <| cpuusage := f |>.
Proof.
  unfold cpuacct_charge. case_match; [exists (cpuusage s); by destruct s|].
  apply charge_loop_frame.
Qed.

Lemma charge_loop_usage n ca t s d :
  NoDup (ca_chain n ca s) ->
  cpuusage (cpuacct_charge_loop n ca t s) d =
  if decide (d ∈ ca_chain n ca s) then u64 (cpuusage s d + t) else cpuusage s d.
Proof.
  revert ca s. induction n as [|n IH]; intros [c|] s; cbn [ca_chain cpuacct_charge_loop];
    try (intros _; by rewrite decide_False by set_solver).
  intros [Hc Hnd]%NoDup_cons.
  set (s' := s <| cpuusage ::= _ |>).
  assert (forall x, ca_chain n x s' = ca_chain n x s) as Hch by (intros; by apply ca_chain_ext).
  change (parent_ca (Some c) s') with (parent_ca (Some c) s).
  rewrite IH by (rewrite Hch; done). rewrite Hch.
  assert (cpuusage s' d = if (d =? c)%nat then u64 (cpuusage s c + t) else cpuusage s d)
    as -> by reflexivity. destruct (Nat.eqb_spec d c) as [->|Hne].
  - rewrite decide_False by done. rewrite decide_True by (apply elem_of_cons; auto). done.
  - destruct (decide (d ∈ ca_chain n (parent_ca (Some c) s) s)).
    + by rewrite decide_True by (apply elem_of_cons; auto).
    + rewrite decide_False; [done|]. intros [?|?]%elem_of_cons; done.
Qed.
End charge.
