(* ===== verification/Demo.v ===== *)
(** A concrete machine, on which the theorems' instances are evaluated: rings
    of list nodes as links (KList.RingLists), a tick rate of 100 Hz, a clock
    that is the only opaque state, three task groups (0 is the root, "/", 1 is
    "/bg_non_interactive", 2 another one) and one cpuacct group per task group,
    with the root above the others. *)

From S2P Require Import Prelude KList Sched Cpuacct.
Import RingLists.

Module Demo.

#[export] Instance types : KTypes := {| Ext := Z; node_lists := ring_ops |}.
#[export] Instance laws : KListLaws node := ring_laws.

(** The lowest set bit, searched upwards from bit [i]. *)
Fixpoint first_bit (fuel : nat) (i b : Z) : Z :=
  match fuel with
  | O => i
  | S fuel => if Z.testbit b i then i else first_bit fuel (i + 1) b
  end.

Lemma first_bit_spec fuel i b : 0 <= i -> (exists j, i <= j < i + Z.of_nat fuel /\ Z.testbit b j = true) ->
  i <= first_bit fuel i b < i + Z.of_nat fuel /\ Z.testbit b (first_bit fuel i b) = true /\
  forall j, i <= j < first_bit fuel i b -> Z.testbit b j = false.
Proof.
  revert i. induction fuel as [|fuel IH]; intros i Hi (j & Hj & Hb); [lia|].
  cbn [first_bit]. destruct (Z.testbit b i) eqn:E; [split; [lia|split; [done|lia]]|].
  assert (i <> j) by congruence.
  destruct (IH (i + 1)) as (H1 & H2 & H3); [lia|exists j; split; [lia|done]|].
  split; [lia|]. split; [done|]. intros k Hk. destruct (decide (k = i)) as [->|]; [done|].
  apply H3. lia.
Qed.

#[export] Instance env : KEnv := {|
  HZ := 100;
  sched_clock_cpu := fun e => e;
  account_group_exec_runtime := fun _ _ e => e;
  autogroup_path := fun _ _ => None;
  css_cgroup := fun tg _ => Some tg;
  cgroup_path := fun cgrp _ =>
    match cgrp with
    | 0%nat => "/"%string
    | 1%nat => "/bg_non_interactive"%string
    | _ => "/apps"%string
    end;
  cpuacct_subsys_active := fun _ => true;
  task_ca_of := fun p _ => (p mod 2)%nat;
  ca_cgroup_parent := fun ca _ => match ca with 0%nat => None | _ => Some 0%nat end;
  cgroup_ca := fun cgrp _ => cgrp;
  cgroup_depth := 3;
  sched_find_first_bit := fun b => first_bit 101 0 b;
  hrtimer_forward := fun _ e => (0, e) |}.

#[export] Instance env_laws : KEnvLaws.
Proof.
  split; [simpl; lia|simpl; lia|done..|]. intros b Hb Hd.
  destruct (first_bit_spec 101 0 b) as (H1 & H2 & H3); [lia|exists 100; split; [lia|done]|].
  change (Z.of_nat 101) with 101 in H1. unfold MAX_RT_PRIO, MAX_USER_RT_PRIO.
  change (sched_find_first_bit b) with (first_bit 101 0 b).
  split; [lia|]. split; [done|]. intros i Hi. by apply H3.
Defined.

Definition stats0 : sched_statistics := mkStats 0 0 0 0 0 0.
Definition task0 : task_struct := {|
  wcounts := 0; trace_flag := 0; rr_fifo_trace := 0;
  t_state := TASK_RUNNING; t_flags := 0; t_on_rq := 0;
  t_prio := 120; t_static_prio := 120; t_normal_prio := 120; t_rt_priority := 0;
  t_class := fair_class;
  t_se := mkSe (mkLw 1024 4194304) 0 0 0 0 0 0 stats0 None 0;
  t_rt := mkRtSe 0 0 1 None 0 None;
  t_ras := mkRasSe 0 0 1 0;
  sched_task_group := 0; t_policy := SCHED_NORMAL; t_cpus_allowed := 1;
  t_mm := None; t_active_mm := None; t_exit_state := 0;
  t_in_iowait := 0; sched_reset_on_fork := 0; t_pid := 1;
  real_parent := None; t_comm := []; t_cred := mkCred 0 0 0 0;
  t_utime := 0; t_stime := 0; t_utimescaled := 0; t_stimescaled := 0; t_gtime := 0;
  prev_utime := 0; prev_stime := 0; t_nvcsw := 0; t_nivcsw := 0; sched_exp := 0;
  rlim := fun _ => (RLIM_INFINITY, RLIM_INFINITY);
  need_resched := false; sigpending := false; sigkill_pending := false;
  preempt_count := 0; pi_blocked := false |}.

Definition ras_task (pid wc slice : Z) (tg : nat) : task_struct :=
  task0 <| t_pid := pid |> <| wcounts := wc |> <| t_class := ras_class |>
    <| t_policy := SCHED_RAS |> <| sched_task_group := tg |>
    <| t_ras := mkRasSe 0 slice 1 0 |>.

Definition rq0 : rq_t := {|
  nr_running := 0; cpu_load := [0; 0; 0; 0; 0]; last_load_update_tick := 0;
  skip_clock_update := 0; rq_load := mkLw 0 0; nr_load_updates := 0; nr_switches := 0;
  cfs_h_nr_running := 0; rq_ras := mkRasRq 0 0; nr_uninterruptible := 0;
  rq_curr := 0; rq_idle := 0; rq_stop := None; rq_prev_mm := None;
  clock := 0; clock_task := 0; nr_iowait := 0; rq_calc_load_update := 0;
  calc_load_active := 0; yld_count := 0; sched_count := 0; ttwu_count := 0 |}.

Definition rt_rq0 : rt_rq := mkRtRq (2 ^ 100) 0 100 0 0 950000000 0 (Some 0%nat).
Definition tg0 : task_group := mkTg None None (mkRtB 1000000000 950000000 false) None [].

(** The idle task 0 runs; no task is queued. *)
Definition idle_state : kst := {|
  tasks := fun _ => task0; rq := rq0; links := unlinked;
  rt_rqs := fun _ => rt_rq0; group_se := fun _ => mkRtSe 0 0 1 None 0 None;
  leaf_rt_rqs := []; tgs := fun _ => tg0; def_rt_bandwidth := mkRtB 1000000000 950000000 false;
  sysctl_sched_rt_period := 1000000; sysctl_sched_rt_runtime := 950000;
  jiffies := 0; loadavg := mkLoad 0 0 [0; 0; 0] [0; 0] 0;
  cpuusage := fun _ => 0; cpustat := fun _ _ => 0; klog := []; ext := 0 |}.

(** [s] with task [p] set to [t]. *)
Definition set_task (p : nat) (t : task_struct) (s : kst) : kst := upd_task p (fun _ => t) s.

End Demo.
