(* ===== verification/Ras.v ===== *)
(** The Race-Averse scheduling class: kernel/sched/ras.c.

    Every function of the file that the uniprocessor build compiles is a
    definition of the same name; [ras_ops] is [ras_sched_class].  The run
    queue is the ring [RasQueue] of links [RasNode p]; [ras_rep s q] says that
    the concrete run queue of [s] holds the tasks [q] in order, and the
    theorems show that every operation refines the corresponding operation on
    that abstract queue, that it computes the time slice the design asks for,
    and what it does to the rest of the state. *)

From S2P Require Import Prelude KList Sched Cpuacct Demo.

Section ras.
Context {KT : KTypes} {KE : KEnv}.

(** on_ras_rq() *)
Definition on_ras_rq (p : nat) (s : kst) : bool := negb (list_empty (links s) (RasNode p)).

(** init_ras_rq() *)
Definition init_ras_rq (s : kst) : kst :=
  let s := s <| links ::= INIT_LIST_HEAD RasQueue |> in
  let s := s <| rq ::= fun r => r <| rq_ras ::= fun q => q <| ras_time := 0 |> |> |> in
  s <| rq ::= fun r => r <| rq_ras ::= fun q => q <| ras_nr_running := 0 |> |> |>.

(** calc_ras_weight() *)
Definition calc_ras_weight (t : task_struct) : Z :=
  if wcounts t <? Z.shiftl 1 4 then 10
  else if wcounts t <? Z.shiftl 1 5 then 9
  else if wcounts t <? Z.shiftl 1 6 then 8
  else if wcounts t <? Z.shiftl 1 7 then 7
  else if wcounts t <? Z.shiftl 1 8 then 6
  else if wcounts t <? Z.shiftl 1 9 then 5
  else if wcounts t <? Z.shiftl 1 10 then 4
  else if wcounts t <? Z.shiftl 1 11 then 3
  else if wcounts t <? Z.shiftl 1 12 then 2
  else if wcounts t <? Z.shiftl 1 13 then 1
  else 0.

(** [x->ras.weight = calc_ras_weight(x)] *)
Definition set_ras_weight (p : nat) (s : kst) : kst :=
  let w := calc_ras_weight (tasks s p) in
  upd_ras p (fun e => e <| ras_weight := w |>) s.

(** The three-way choice of the time slice by the path of the task's group,
    which enqueue_task_ras(), task_tick_ras() and get_rr_interval_ras() repeat. *)
Definition set_ras_slice (gp : string) (p : nat) (s : kst) : kst :=
  let w := ras_weight (t_ras (tasks s p)) in
  if String.eqb gp "/" then
    upd_ras p (fun e => e <| ras_time_slice := u32 (RAS_FG_TIMESLICE + w * RAS_INC_TIME) |>) s
  else if String.eqb gp "/bg_non_interactive" then
    upd_ras p (fun e => e <| ras_time_slice := u32 (RAS_BG_TIMESLICE + w * RAS_INC_TIME) |>) s
  else
    upd_ras p (fun e => e <| ras_time_slice := u32 (RAS_BG_TIMESLICE + w * RAS_INC_TIME) |>) s.

(** update_curr_ras() *)
Definition update_curr_ras (s : kst) : kst :=
  let c := curr s in
  if negb (bool_decide (t_class (tasks s c) = ras_class)) then s else
  let delta_exec := u64 (clock_task (rq s) - exec_start (t_se (tasks s c))) in
  let delta_exec := if s64 delta_exec <? 0 then 0 else delta_exec in
  let s := upd_se c (fun e => e <| statistics ::= fun st =>
             st <| exec_max ::= fun m => Z.max m delta_exec |> |>) s in
  let s := upd_se c (fun e => e <| sum_exec_runtime ::= fun r => u64 (r + delta_exec) |>) s in
  let s := s <| ext ::= account_group_exec_runtime c delta_exec |> in
  let now := clock_task (rq s) in
  let s := upd_se c (fun e => e <| exec_start := now |>) s in
  cpuacct_charge c delta_exec s.

(** enqueue_task_ras() *)
Definition enqueue_task_ras (p : nat) (flags : Z) (s : kst) : kst :=
  let gp := task_group_path (task_group_of s p) s in
  let s := set_ras_weight p s in
  let s := set_ras_slice gp p s in
  let s := if has_flag flags ENQUEUE_WAKEUP
           then upd_ras p (fun e => e <| ras_timeout := 0 |>) s else s in
  let s := if has_flag flags ENQUEUE_HEAD
           then s <| links ::= list_add (RasNode p) RasQueue |>
           else s <| links ::= list_add_tail (RasNode p) RasQueue |> in
  let s := s <| rq ::= fun r => r <| rq_ras ::= fun q =>
             q <| ras_nr_running ::= fun n => u32 (n + 1) |> |> |> in
  inc_nr_running s.

(** dequeue_task_ras() *)
Definition dequeue_task_ras (p : nat) (flags : Z) (s : kst) : kst :=
  let s := update_curr_ras s in
  let s := if on_ras_rq p s then
             let s := s <| links ::= list_del_init (RasNode p) |> in
             s <| rq ::= fun r => r <| rq_ras ::= fun q =>
               q <| ras_nr_running ::= fun n => u32 (n - 1) |> |> |>
           else s in
  dec_nr_running s.

(** container_of() on the queue's links: the task of a node, if it is one. *)
Definition ras_task_of (n : node) : option nat :=
  match n with RasNode p => Some p | _ => None end.

(** pick_next_task_ras(); the first node of a non-empty queue is a task's *)
Definition pick_next_task_ras (s : kst) : option nat * kst :=
  if ras_nr_running (rq_ras (rq s)) =? 0 then (None, s) else
  match ras_task_of (list_next (links s) RasQueue) with
  | None => (None, s)
  | Some p =>
      let now := clock_task (rq s) in
      let s := upd_se p (fun e => e <| exec_start := now |>) s in
      (Some p, s)
  end.

(** put_prev_task_ras() *)
Definition put_prev_task_ras (p : nat) (s : kst) : kst :=
  let s := update_curr_ras s in
  if on_ras_rq p s then s <| links ::= list_move_tail (RasNode p) RasQueue |> else s.

(** yield_task_ras() *)
Definition yield_task_ras (s : kst) : kst :=
  if on_ras_rq (curr s) s then s <| links ::= list_move_tail (RasNode (curr s)) RasQueue |>
  else s.

(** check_preempt_curr_ras() *)
Definition check_preempt_curr_ras (p : nat) (flags : Z) (s : kst) : kst :=
  let s := set_ras_weight p s in
  let s := set_ras_weight (curr s) s in
  if ras_weight (t_ras (tasks s (curr s))) <? ras_weight (t_ras (tasks s p))
  then resched_task (curr s) s else s.

(** set_curr_task_ras() *)
Definition set_curr_task_ras (s : kst) : kst :=
  let p := curr s in
  let now := clock_task (rq s) in
  upd_se p (fun e => e <| exec_start := now |>) s.

(** watchdog() *)
Definition watchdog (p : nat) (s : kst) : kst :=
  let soft := task_rlimit (tasks s p) RLIMIT_RTTIME in
  let hard := task_rlimit_max (tasks s p) RLIMIT_RTTIME in
  if negb (soft =? RLIM_INFINITY) then
    let s := upd_ras p (fun e => e <| ras_timeout ::= fun t => u32 (t + 1) |>) s in
    let next := DIV_ROUND_UP (Z.min soft hard) (USEC_PER_SEC ÷ HZ) in
    if next <? ras_timeout (t_ras (tasks s p)) then
      upd_task p (fun t => t <| sched_exp := sum_exec_runtime (t_se t) |>) s
    else s
  else s.

(** task_tick_ras() *)
Definition task_tick_ras (p : nat) (queued : Z) (s : kst) : kst :=
  let s := update_curr_ras s in
  let s := watchdog p s in
  let s := s <| klog ::= fun l =>
             l ++ [RAS_Tracing (t_pid (tasks s p)) (ras_time_slice (t_ras (tasks s p)))] |> in
  let s := upd_ras p (fun e => e <| ras_time_slice ::= fun n => u32 (n - 1) |>) s in
  if c_true (ras_time_slice (t_ras (tasks s p))) then s else
  let gp := task_group_path (task_group_of s p) s in
  let s := set_ras_weight p s in
  let s := set_ras_slice gp p s in
  if bool_decide (list_prev (links s) RasQueue <> list_next (links s) RasQueue) then
    let s := if on_ras_rq p s
             then s <| links ::= list_move_tail (RasNode p) RasQueue |> else s in
    set_tsk_need_resched p s
  else s.

(** get_rr_interval_ras() *)
Definition get_rr_interval_ras (p : nat) (s : kst) : Z * kst :=
  let gp := task_group_path (task_group_of s p) s in
  let s := set_ras_weight p s in
  let s := set_ras_slice gp p s in
  (ras_time_slice (t_ras (tasks s p)), s).

(** switched_to_ras(); all tasks of the single processor share the run queue *)
Definition switched_to_ras (p : nat) (s : kst) : kst :=
  if c_true (t_on_rq (tasks s p)) && negb (curr s =? p)%nat then resched_task (curr s) s else s.

(** prio_changed_ras() *)
Definition prio_changed_ras (p : nat) (oldprio : Z) (s : kst) : kst := s.

(** ras_sched_class *)
Definition ras_ops : class_ops := {|
  next_class := Some fair_class;
  enqueue_task_op := enqueue_task_ras;
  dequeue_task_op := dequeue_task_ras;
  yield_task_op := yield_task_ras;
  yield_to_task_op := None;
  check_preempt_curr_op := check_preempt_curr_ras;
  pick_next_task_op := fun s => Some (pick_next_task_ras s);
  put_prev_task_op := put_prev_task_ras;
  set_curr_task_op := set_curr_task_ras;
  task_tick_op := task_tick_ras;
  task_fork_op := None;
  switched_from_op := None;
  switched_to_op := switched_to_ras;
  prio_changed_op := prio_changed_ras;
  get_rr_interval_op := get_rr_interval_ras;
  task_move_group_op := None |}.
End ras.

(** * Weight and time slice *)

Section weight.
Context {KT : KTypes} {KE : KEnv} {KL : KEnvLaws}.
Implicit Types (s : kst) (t : task_struct) (p : nat) (q : list nat).

Lemma calc_ras_weight_range t : 0 <= calc_ras_weight t <= 10.
Proof. unfold calc_ras_weight. repeat case_match; lia. Qed.

Lemma weight_at t k : 4 <= k < 13 -> 2 ^ k <= wcounts t < 2 ^ (k + 1) ->
  calc_ras_weight t = 13 - k.
Proof.
  intros Hk Hw.
  assert (k = 4 \/ k = 5 \/ k = 6 \/ k = 7 \/ k = 8 \/ k = 9 \/ k = 10 \/ k = 11 \/ k = 12)
    as Hc by lia.
  unfold calc_ras_weight. rewrite !Z.shiftl_1_l.
  destruct_or? Hc; subst k; simpl in Hw; bcase; lia.
Qed.

Lemma calc_ras_weight_log t : 0 <= wcounts t ->
  calc_ras_weight t = if wcounts t <? 16 then 10 else Z.max 0 (13 - Z.log2 (wcounts t)).
Proof.
  intros Hw. destruct (Z.ltb_spec (wcounts t) 16) as [Hs|Hs].
  { unfold calc_ras_weight. rewrite !Z.shiftl_1_l. bcase; lia. }
  pose proof (Z.log2_spec (wcounts t)) as Hl.
  assert (4 <= Z.log2 (wcounts t)) by (apply (Z.log2_le_mono 16); lia).
  destruct (Z.lt_ge_cases (Z.log2 (wcounts t)) 13) as [Hlt|Hge].
  - rewrite (weight_at t (Z.log2 (wcounts t))) by lia. lia.
  - assert (2 ^ 13 <= 2 ^ Z.log2 (wcounts t)) by (apply Z.pow_le_mono_r; lia).
    unfold calc_ras_weight. rewrite !Z.shiftl_1_l. bcase; lia.
Qed.

(** The time slice the design gives a task: 50 ms in the foreground, 30 ms
    elsewhere, 10 ms more per unit of weight. *)
Definition ras_base (gp : string) : Z :=
  if String.eqb gp "/" then RAS_FG_TIMESLICE else RAS_BG_TIMESLICE.
Definition ras_slice (gp : string) (t : task_struct) : Z :=
  ras_base gp + calc_ras_weight t * RAS_INC_TIME.
Definition gpath (p : nat) (s : kst) : string := task_group_path (task_group_of s p) s.

(** The refill that three functions of the class perform. *)
Definition refill (gp : string) (p : nat) (s : kst) : kst :=
  set_ras_slice gp p (set_ras_weight p s).

Lemma ras_slice_range gp t : 3 <= ras_slice gp t <= 150.
Proof.
  pose proof (calc_ras_weight_range t). pose proof HZ_range.
  unfold ras_slice, ras_base, RAS_FG_TIMESLICE, RAS_BG_TIMESLICE, RAS_INC_TIME.
  rewrite !Z.quot_div_nonneg by lia.
  assert (1 <= 10 * HZ / 1000 <= 10) by (split; [apply Z.div_le_lower_bound|apply Z.div_le_upper_bound]; lia).
  assert (5 <= 50 * HZ / 1000 <= 50) by (split; [apply Z.div_le_lower_bound|apply Z.div_le_upper_bound]; lia).
  assert (3 <= 30 * HZ / 1000 <= 30) by (split; [apply Z.div_le_lower_bound|apply Z.div_le_upper_bound]; lia).
  destruct (String.eqb gp "/"); nia.
Qed.

Lemma refill_frame gp p s : refill gp p s = s <| tasks := tasks (refill gp p s) |>.
Proof. unfold refill, set_ras_slice. by repeat case_match. Qed.

Lemma refill_task gp p s :
  tasks (refill gp p s) p = (tasks s p) <| t_ras ::= fun e =>
    e <| ras_weight := calc_ras_weight (tasks s p) |>
      <| ras_time_slice := ras_slice gp (tasks s p) |> |>.
Proof.
  unfold refill.
  assert (ras_weight (t_ras (tasks (set_ras_weight p s) p)) = calc_ras_weight (tasks s p)) as Hw.
  { unfold set_ras_weight, upd_ras. by rewrite tasks_upd_eq. }
  unfold set_ras_slice. rewrite Hw.
  pose proof (ras_slice_range gp (tasks s p)) as Hr. unfold ras_slice, ras_base in *.
  destruct (String.eqb gp "/"), (String.eqb gp "/bg_non_interactive");
    unfold upd_ras at 1; rewrite tasks_upd_eq; rewrite u32_small by lia;
    unfold set_ras_weight, upd_ras; by rewrite tasks_upd_eq.
Qed.

Lemma refill_task_ne gp p p' s : p' <> p -> tasks (refill gp p s) p' = tasks s p'.
Proof.
  intros Hne. unfold refill, set_ras_slice.
  repeat case_match; unfold upd_ras; rewrite tasks_upd_ne by done;
    unfold set_ras_weight, upd_ras; by rewrite tasks_upd_ne.
Qed.
End weight.

(** * Accounting *)

Section account.
Context {KT : KTypes} {KE : KEnv} {KL : KEnvLaws}.
Implicit Types (s : kst) (p : nat).

(** [s'] is [s] after some run time was accounted: tasks differ in their
    sched_entity only, and the rest of the scheduler's state is the same. *)
Record acct (s s' : kst) : Prop := {
  acct_eq : s' = s <| tasks := tasks s' |> <| ext := ext s' |> <| cpuusage := cpuusage s' |>;
  acct_task : forall p, tasks s' p = (tasks s p) <| t_se := t_se (tasks s' p) |>;
  acct_gp : forall tg, task_group_path tg s' = task_group_path tg s }.

Lemma acct_refl s : acct s s.
Proof. split; [by destruct s| |done]. intros p. by destruct (tasks s p). Qed.

(** The time update_curr_ras() charges to the running task. *)
Definition curr_delta (s : kst) : Z :=
  let d := u64 (clock_task (rq s) - exec_start (t_se (tasks s (curr s)))) in
  if s64 d <? 0 then 0 else d.

Definition charged_se (s : kst) (e : sched_entity) : sched_entity :=
  e <| statistics ::= fun st => st <| exec_max ::= fun m => Z.max m (curr_delta s) |> |>
    <| sum_exec_runtime ::= fun r => u64 (r + curr_delta s) |>
    <| exec_start := clock_task (rq s) |>.

(** The state after the accounting, the cpuacct groups apart. *)
Definition charged (s : kst) : kst :=
  upd_se (curr s) (charged_se s) s
    <| ext ::= account_group_exec_runtime (curr s) (curr_delta s) |>.

Lemma update_curr_ras_other s :
  t_class (tasks s (curr s)) <> ras_class -> update_curr_ras s = s.
Proof. intros Hc. unfold update_curr_ras. by rewrite bool_decide_false. Qed.

Lemma update_curr_ras_tasks s p : t_class (tasks s (curr s)) = ras_class ->
  tasks (update_curr_ras s) p =
  if decide (p = curr s) then (tasks s p) <| t_se ::= charged_se s |> else tasks s p.
Proof.
  intros Hc. unfold update_curr_ras. rewrite bool_decide_true by done.
  cbn [negb]. cbv zeta.
  match goal with |- context [cpuacct_charge ?c ?d ?x] => destruct (charge_frame c d x) as [f ->] end.
  change (tasks (?x <| cpuusage := f |>)) with (tasks x).
  destruct (decide (p = curr s)) as [->|Hne].
  - unfold upd_se at 1. rewrite tasks_upd_eq. cbn [tasks setf].
    unfold upd_se. rewrite !tasks_upd_eq. done.
  - unfold upd_se at 1. rewrite tasks_upd_ne by done. cbn [tasks setf].
    unfold upd_se. rewrite !tasks_upd_ne by done. done.
Qed.

Lemma update_curr_ras_shape s : t_class (tasks s (curr s)) = ras_class ->
  exists f, update_curr_ras s =
    s <| tasks := tasks (update_curr_ras s) |>
      <| ext := account_group_exec_runtime (curr s) (curr_delta s) (ext s) |>
      <| cpuusage := f |>.
Proof.
  intros Hc. unfold update_curr_ras. rewrite bool_decide_true by done.
  cbn [negb]. cbv zeta.
  match goal with |- context [cpuacct_charge ?c ?d ?x] => destruct (charge_frame c d x) as [f ->] end.
  by exists f.
Qed.

Lemma path_after_acct c d s s' tg :
  ext s' = account_group_exec_runtime c d (ext s) ->
  task_group_path tg s' = task_group_path tg s.
Proof.
  intros E. unfold task_group_path. rewrite E, acct_autogroup, acct_css_cgroup.
  repeat case_match; try done. apply acct_cgroup_path.
Qed.

Lemma update_curr_ras_acct s : acct s (update_curr_ras s).
Proof.
  destruct (decide (t_class (tasks s (curr s)) = ras_class)) as [Hc|Hc].
  2: { rewrite update_curr_ras_other by done. apply acct_refl. }
  destruct (update_curr_ras_shape s Hc) as [f E]. split.
  - by rewrite E at 1; rewrite E.
  - intros p. rewrite update_curr_ras_tasks by done.
    case_decide; simpl; [done|]. by destruct (tasks s p).
  - intros tg. rewrite E. eapply path_after_acct. done.
Qed.

Lemma acct_trans s1 s2 s3 : acct s1 s2 -> acct s2 s3 -> acct s1 s3.
Proof.
  intros [E1 T1 P1] [E2 T2 P2]. split.
  - rewrite E2, E1. by destruct s3.
  - intros p. rewrite T2, T1. done.
  - intros tg. by rewrite P2, P1.
Qed.

(** What accounting leaves alone. *)
Lemma acct_links s s' : acct s s' -> links s' = links s.
Proof. by intros [-> _ _]. Qed.
Lemma acct_rq s s' : acct s s' -> rq s' = rq s.
Proof. by intros [-> _ _]. Qed.
Lemma acct_curr s s' : acct s s' -> curr s' = curr s.
Proof. by intros [-> _ _]. Qed.
Lemma acct_klog s s' : acct s s' -> klog s' = klog s.
Proof. by intros [-> _ _]. Qed.
Lemma acct_ras s s' p : acct s s' -> t_ras (tasks s' p) = t_ras (tasks s p).
Proof. intros [_ T _]. by rewrite T. Qed.
Lemma acct_weight s s' p : acct s s' ->
  calc_ras_weight (tasks s' p) = calc_ras_weight (tasks s p).
Proof. intros [_ T _]. by rewrite T. Qed.
Lemma acct_gpath s s' p : acct s s' -> gpath p s' = gpath p s.
Proof. intros [_ T P]. unfold gpath, task_group_of. by rewrite P, T. Qed.
End account.

(** * The abstract run queue *)

Section queue.
Context {KT : KTypes} {KE : KEnv} {KL : KEnvLaws} {NL : KListLaws node}.
Implicit Types (s : kst) (p : nat) (q : list nat) (l : lh (A := node)).

(** The links [l] hold exactly the tasks [q], in order, on the RAS queue. *)
Record ras_linked (l : lh (A := node)) (q : list nat) : Prop := {
  linked_ok : lh_ok l;
  linked_view : view l RasQueue = RasNode <$> q;
  linked_out : forall p, p ∉ q -> view l (RasNode p) = [] }.

Lemma elem_of_ras_nodes p q : RasNode p ∈ RasNode <$> q <-> p ∈ q.
Proof.
  rewrite list_elem_of_fmap. split; [|eauto].
  intros (p' & E & ?). by injection E as ->.
Qed.

Lemma queue_not_in q : RasQueue ∉ RasNode <$> q.
Proof. rewrite list_elem_of_fmap. by intros (? & ? & _). Qed.

Lemma without_ras_nodes p q : without (RasNode p) (RasNode <$> q) = RasNode <$> without p q.
Proof.
  induction q as [|p' q IH]; [done|]. rewrite fmap_cons.
  destruct (decide (p' = p)) as [->|Hne].
  - by rewrite !without_cons_eq.
  - rewrite !without_cons_ne by congruence. by rewrite IH.
Qed.

Lemma linked_nodup l q : ras_linked l q -> NoDup q.
Proof.
  intros [Hok Hv _]. pose proof (view_no_dup l RasQueue Hok) as Hnd.
  rewrite Hv in Hnd. by apply NoDup_fmap_1 in Hnd.
Qed.

Lemma linked_on l q p : ras_linked l q -> list_empty l (RasNode p) = negb (bool_decide (p ∈ q)).
Proof.
  intros [Hok Hv Hout]. destruct (decide (p ∈ q)) as [Hp|Hp].
  - rewrite bool_decide_true by done. apply list_empty_false.
    apply (view_not_empty l RasQueue); [done|]. rewrite Hv. by apply elem_of_ras_nodes.
  - rewrite bool_decide_false by done. apply list_empty_true. by apply Hout.
Qed.

Lemma linked_add l q p : ras_linked l q -> p ∉ q ->
  ras_linked (list_add (RasNode p) RasQueue l) (p :: q).
Proof.
  intros [Hok Hv Hout] Hp.
  destruct (add_spec l (RasNode p) RasQueue) as (Ho & Hh & Hf); [done..|by apply Hout|].
  split; [done|by rewrite Hh, Hv|]. intros p' [? ?]%not_elem_of_cons.
  rewrite Hf; [by apply Hout|]. rewrite Hv, !elem_of_cons, elem_of_ras_nodes.
  intros [[=]|[[=]|?]]; done.
Qed.

Lemma linked_add_tail l q p : ras_linked l q -> p ∉ q ->
  ras_linked (list_add_tail (RasNode p) RasQueue l) (q ++ [p]).
Proof.
  intros [Hok Hv Hout] Hp.
  destruct (add_tail_spec l (RasNode p) RasQueue) as (Ho & Hh & Hf); [done..|by apply Hout|].
  split; [done|by rewrite Hh, Hv, fmap_app|]. intros p' Hp'.
  rewrite Hf; [apply Hout; set_solver|]. rewrite Hv, !elem_of_cons, elem_of_ras_nodes.
  intros [[=]|[[=]|?]]; set_solver.
Qed.

Lemma linked_del l q p : ras_linked l q ->
  ras_linked (list_del_init (RasNode p) l) (without p q).
Proof.
  intros [Hok Hv Hout]. destruct (del_init_spec l (RasNode p) Hok) as (Ho & Hn & Hf).
  split; [done|by rewrite Hf, Hv, without_ras_nodes|]. intros p' Hp'.
  destruct (decide (p' = p)) as [->|Hne]; [done|].
  rewrite Hf by congruence. rewrite Hout; [done|].
  intros Hin. apply Hp'. by apply elem_of_without.
Qed.

Lemma linked_move_tail l q p : ras_linked l q ->
  ras_linked (list_move_tail (RasNode p) RasQueue l) (without p q ++ [p]).
Proof.
  intros [Hok Hv Hout].
  destruct (move_tail_spec l (RasNode p) RasQueue) as (Ho & Hh & Hf); [done..|].
  split; [done|by rewrite Hh, Hv, without_ras_nodes, fmap_app|]. intros p' Hp'.
  assert (p' <> p /\ p' ∉ q) as [Hne Hq].
  { split; [set_solver|]. intros Hin. apply Hp'. apply elem_of_app.
    destruct (decide (p' = p)); [right; set_solver|left; by apply elem_of_without]. }
  rewrite Hf; [by rewrite Hout|].
  rewrite Hv, !elem_of_cons, elem_of_ras_nodes. intros [[=]|[[=]|?]]; done.
Qed.

Lemma linked_next l q : ras_linked l q ->
  ras_task_of (list_next l RasQueue) = head q.
Proof. intros [Hok Hv _]. rewrite list_next_spec, Hv by done. by destruct q. Qed.

Lemma linked_two l q : ras_linked l q ->
  bool_decide (list_prev l RasQueue <> list_next l RasQueue) = (2 <=? length q)%nat.
Proof.
  intros [Hok Hv _]. apply Bool.eq_iff_eq_true.
  rewrite bool_decide_eq_true, prev_ne_next, Hv, length_fmap, Nat.leb_le by done. done.
Qed.

(** The run queue of [s] holds the tasks [q]. *)
Record ras_rep (s : kst) (q : list nat) : Prop := {
  rep_linked : ras_linked (links s) q;
  rep_count : ras_nr_running (rq_ras (rq s)) = Z.of_nat (length q);
  rep_small : Z.of_nat (length q) < 2 ^ 32 }.

Lemma rep_on s q p : ras_rep s q -> on_ras_rq p s = bool_decide (p ∈ q).
Proof.
  intros [Hl _ _]. unfold on_ras_rq. rewrite (linked_on _ q) by done. apply negb_involutive.
Qed.

Lemma rep_same s s' q : links s' = links s -> rq_ras (rq s') = rq_ras (rq s) ->
  ras_rep s q -> ras_rep s' q.
Proof. intros E1 E2 [H1 H2 H3]. split; by rewrite ?E1, ?E2. Qed.

Lemma rep_acct s s' q : acct s s' -> ras_rep s q -> ras_rep s' q.
Proof. intros E. apply rep_same; [by apply acct_links|by rewrite (acct_rq s s')]. Qed.

Lemma rep_relink s q q' f : length q' = length q ->
  ras_linked (f (links s)) q' -> ras_rep s q -> ras_rep (s <| links ::= f |>) q'.
Proof. intros Hlen Hl [_ H2 H3]. split; simpl; rewrite ?Hlen; done. Qed.

(** ** The queue operations of the specification *)
Definition q_enqueue (head : bool) (p : nat) (q : list nat) : list nat :=
  if head then p :: q else q ++ [p].
Definition q_rotate (p : nat) (q : list nat) : list nat :=
  if decide (p ∈ q) then without p q ++ [p] else q.

Lemma elem_of_q_enqueue h p p' q : p' ∈ q_enqueue h p q <-> p' = p \/ p' ∈ q.
Proof. destruct h; simpl; rewrite ?elem_of_app, ?elem_of_cons; set_solver. Qed.

Lemma q_enqueue_length h p q : length (q_enqueue h p q) = S (length q).
Proof. destruct h; simpl; rewrite ?length_app; simpl; lia. Qed.

Lemma q_rotate_length p q : NoDup q -> length (q_rotate p q) = length q.
Proof.
  intros Hnd. unfold q_rotate. case_decide as Hp; [|done].
  rewrite length_app, (without_length p q) by done. simpl. lia.
Qed.

Lemma q_rotate_perm p q : NoDup q -> q_rotate p q ≡ₚ q.
Proof.
  intros Hnd. unfold q_rotate. case_decide as Hp; [|done].
  rewrite (without_perm p q) at 2 by done. by rewrite Permutation_app_comm.
Qed.

(** Moving a queued task to the tail, as three functions of the class do it. *)
Lemma rep_rotate s q p : ras_rep s q ->
  ras_rep (if on_ras_rq p s then s <| links ::= list_move_tail (RasNode p) RasQueue |> else s)
          (q_rotate p q).
Proof.
  intros Hr. rewrite (rep_on s q) by done. unfold q_rotate.
  pose proof (linked_nodup _ _ (rep_linked _ _ Hr)) as Hnd.
  destruct (decide (p ∈ q)) as [Hp|Hp].
  - rewrite bool_decide_true by done. apply (rep_relink s q); [|by apply linked_move_tail, Hr|done].
    rewrite length_app, (without_length p q) by done. simpl. lia.
  - by rewrite bool_decide_false.
Qed.
End queue.

(** * The operations of the class *)

Section operations.
Context {KT : KTypes} {KE : KEnv} {KL : KEnvLaws} {NL : KListLaws node}.
Implicit Types (s : kst) (p : nat) (q : list nat).

Definition slice (s : kst) (p : nat) : Z := ras_time_slice (t_ras (tasks s p)).

(** Every queued task has some of a legal time slice left. *)
Definition slices_ok (s : kst) (q : list nat) : Prop :=
  Forall (fun p => 1 <= slice s p <= 150) q.

Lemma watchdog_frame p s : watchdog p s = s <| tasks := tasks (watchdog p s) |>.
Proof. unfold watchdog. repeat case_match; by destruct s. Qed.

Lemma watchdog_task p s : exists timeout exp, forall p',
  tasks (watchdog p s) p' =
  if decide (p' = p)
  then (tasks s p) <| t_ras ::= fun e => e <| ras_timeout := timeout |> |> <| sched_exp := exp |>
  else tasks s p'.
Proof.
  unfold watchdog. case_match.
  2: { exists (ras_timeout (t_ras (tasks s p))), (sched_exp (tasks s p)). intros p'.
       case_decide; subst; [|done]. by destruct (tasks s p) as [????????????? []]. }
  set (t1 := u32 (ras_timeout (t_ras (tasks s p)) + 1)).
  case_match.
  - eexists t1, _. intros p'. case_decide; subst.
    + rewrite tasks_upd_eq. unfold upd_ras. rewrite tasks_upd_eq. reflexivity.
    + rewrite tasks_upd_ne by done. unfold upd_ras. by rewrite tasks_upd_ne.
  - exists t1, (sched_exp (tasks s p)). intros p'. unfold upd_ras. case_decide; subst.
    + rewrite tasks_upd_eq. unfold t1. by destruct (tasks s p).
    + by rewrite tasks_upd_ne.
Qed.

(** task_tick_ras() up to the test of the decremented slice. *)
Definition tick_count (p : nat) (s : kst) : kst :=
  let s := watchdog p (update_curr_ras s) in
  let s := s <| klog ::= fun l =>
             l ++ [RAS_Tracing (t_pid (tasks s p)) (ras_time_slice (t_ras (tasks s p)))] |> in
  upd_ras p (fun e => e <| ras_time_slice ::= fun n => u32 (n - 1) |>) s.

Lemma task_tick_ras_unfold p queued s :
  task_tick_ras p queued s =
  let s1 := tick_count p s in
  if c_true (slice s1 p) then s1 else
  let s2 := refill (gpath p s1) p s1 in
  if bool_decide (list_prev (links s2) RasQueue <> list_next (links s2) RasQueue)
  then set_tsk_need_resched p
         (if on_ras_rq p s2 then s2 <| links ::= list_move_tail (RasNode p) RasQueue |> else s2)
  else s2.
Proof. reflexivity. Qed.

(** What counting a tick changes: the slice of the running task, its
    accounting and the trace. *)
Record ticked (p : nat) (s s1 : kst) : Prop := {
  ticked_links : links s1 = links s;
  ticked_rq : rq s1 = rq s;
  ticked_slice : slice s1 p = u32 (slice s p - 1);
  ticked_slice_ne : forall p', p' <> p -> slice s1 p' = slice s p';
  ticked_weight : forall p', calc_ras_weight (tasks s1 p') = calc_ras_weight (tasks s p');
  ticked_gpath : forall p', gpath p' s1 = gpath p' s;
  ticked_resched : forall p', need_resched (tasks s1 p') = need_resched (tasks s p');
  ticked_class : forall p', t_class (tasks s1 p') = t_class (tasks s p') /\
    t_state (tasks s1 p') = t_state (tasks s p') /\ t_on_rq (tasks s1 p') = t_on_rq (tasks s p');
  ticked_rt : rt_rqs s1 = rt_rqs s;
  ticked_klog : klog s1 = klog s ++ [RAS_Tracing (t_pid (tasks s p)) (slice s p)] }.

Lemma tick_count_ticked p s : ticked p s (tick_count p s).
Proof.
  pose proof (update_curr_ras_acct s) as Ha. set (s' := update_curr_ras s) in *.
  destruct (watchdog_task p s') as (to & ex & Hw). pose proof (watchdog_frame p s') as Hf.
  assert (forall p', tasks (tick_count p s) p' =
    if decide (p' = p)
    then (tasks s' p) <| t_ras ::= fun e => e <| ras_timeout := to |>
            <| ras_time_slice := u32 (slice s p - 1) |> |> <| sched_exp := ex |>
    else tasks s' p') as Ht.
  { intros p'. unfold tick_count, upd_ras. fold s'. case_decide as Hp.
    - subst p'. rewrite tasks_upd_eq. cbn [tasks setf]. rewrite Hw, decide_True by done.
      unfold slice. rewrite <- (acct_ras s s') by done. done.
    - rewrite tasks_upd_ne by done. cbn [tasks setf]. by rewrite Hw, decide_False. }
  destruct Ha as [E T P].
  assert (forall p', tasks s' p' = (tasks s p') <| t_se := t_se (tasks s' p') |>) as T' by done.
  split.
  - unfold tick_count. fold s'. rewrite Hf, E. done.
  - unfold tick_count. fold s'. rewrite Hf, E. done.
  - unfold slice. by rewrite Ht, decide_True.
  - intros p' Hne. unfold slice. rewrite Ht, decide_False by done. by rewrite T'.
  - intros p'. rewrite Ht. case_decide; [subst p'|]; by rewrite T'.
  - intros p'. unfold gpath, task_group_of.
    assert (ext (tick_count p s) = ext s') as Ee by (unfold tick_count; fold s'; by rewrite Hf).
    assert (forall tg, task_group_path tg (tick_count p s) = task_group_path tg s') as ->.
    { intros tg. unfold task_group_path. by rewrite Ee. }
    rewrite P, Ht. case_decide; [subst p'|]; by rewrite T'.
  - intros p'. rewrite Ht. case_decide; [subst p'|]; by rewrite T'.
  - intros p'. rewrite Ht. case_decide; [subst p'|]; by rewrite T'.
  - unfold tick_count. fold s'. rewrite Hf, E. done.
  - unfold tick_count. fold s'. cbn [klog setf upd_ras upd_task].
    rewrite Hf. cbn [klog setf tasks]. rewrite Hw, decide_True by done.
    rewrite T', E. done.
Qed.


Lemma refill_slice gp p s : slice (refill gp p s) p = ras_slice gp (tasks s p).
Proof. unfold slice. by rewrite refill_task. Qed.

Lemma refill_slice_ne gp p p' s : p' <> p -> slice (refill gp p s) p' = slice s p'.
Proof. intros. unfold slice. by rewrite refill_task_ne. Qed.

Lemma ras_slice_weight gp t t' :
  calc_ras_weight t = calc_ras_weight t' -> ras_slice gp t = ras_slice gp t'.
Proof. unfold ras_slice. by intros ->. Qed.

(** The outcome of a tick, by the number of ticks the task has left. *)
Record tick_post (p : nat) (q : list nat) (s s' : kst) : Prop := {
  tick_rep : ras_rep s' (if (slice s p =? 1) && (2 <=? length q)%nat then q_rotate p q else q);
  tick_slice : slice s' p = if slice s p =? 1 then ras_slice (gpath p s) (tasks s p)
                            else slice s p - 1;
  tick_slice_ne : forall p', p' <> p -> slice s' p' = slice s p';
  tick_resched : forall p', need_resched (tasks s' p') =
    need_resched (tasks s p') ||
    (bool_decide (p' = p) && (slice s p =? 1) && (2 <=? length q)%nat);
  tick_rq : rq s' = rq s;
  tick_class : forall p', t_class (tasks s' p') = t_class (tasks s p') /\
    t_state (tasks s' p') = t_state (tasks s p') /\ t_on_rq (tasks s' p') = t_on_rq (tasks s p');
  tick_rt : rt_rqs s' = rt_rqs s;
  tick_klog : klog s' = klog s ++ [RAS_Tracing (t_pid (tasks s p)) (slice s p)] }.

Lemma tick_post_holds p queued s q :
  ras_rep s q -> 1 <= slice s p < 2 ^ 32 -> tick_post p q s (task_tick_ras p queued s).
Proof.
  intros Hr Hs. rewrite task_tick_ras_unfold. cbv zeta.
  destruct (tick_count_ticked p s) as [Tl Tq Ts Tne Tw Tg Tr Tc Tt Tk].
  set (s1 := tick_count p s) in *. rewrite u32_small in Ts by lia. rewrite Ts.
  assert (ras_rep s1 q) as Hr1 by (apply (rep_same s); by rewrite ?Tq).
  destruct (Z.eqb_spec (slice s p) 1) as [E|E].
  2: { rewrite (proj2 (c_true_iff _)) by lia. apply Z.eqb_neq in E.
       split; rewrite ?E; cbn [andb]; try done.
       intros p'. by rewrite Tr, andb_false_r, orb_false_r. }
  rewrite E, Z.sub_diag, c_true_0.
  set (s2 := refill (gpath p s1) p s1). pose proof (refill_frame (gpath p s1) p s1) as Ef.
  fold s2 in Ef.
  assert (ras_rep s2 q) as Hr2 by (apply (rep_same s1); [by rewrite Ef..|done]).
  assert (slice s2 p = ras_slice (gpath p s) (tasks s p)) as Hs2.
  { unfold s2. rewrite refill_slice, Tg. by apply ras_slice_weight. }
  assert (forall p', p' <> p -> slice s2 p' = slice s p') as Hne.
  { intros p' ?. unfold s2. by rewrite refill_slice_ne, Tne. }
  assert (forall p', need_resched (tasks s2 p') = need_resched (tasks s p')) as Hn.
  { intros p'. rewrite <- Tr. destruct (decide (p' = p)) as [->|?].
    - unfold s2. by rewrite refill_task.
    - unfold s2. by rewrite refill_task_ne. }
  assert (rq s2 = rq s /\ klog s2 = klog s1 /\ rt_rqs s2 = rt_rqs s) as (Hq & Hk & Ht).
  { rewrite Ef. by rewrite <- Tq, <- Tt. }
  assert (forall p', t_class (tasks s2 p') = t_class (tasks s p') /\
    t_state (tasks s2 p') = t_state (tasks s p') /\ t_on_rq (tasks s2 p') = t_on_rq (tasks s p')) as Hc.
  { intros p'. destruct (Tc p') as (<- & <- & <-). destruct (decide (p' = p)) as [->|?].
    - unfold s2. by rewrite refill_task.
    - unfold s2. by rewrite refill_task_ne. }
  rewrite (linked_two _ q) by apply Hr2. destruct (2 <=? length q)%nat eqn:Hlen.
  - pose proof (rep_rotate s2 q p Hr2) as Hrot.
    destruct (on_ras_rq p s2) eqn:Hon;
    (split; rewrite ?Hlen, ?E; cbn [andb Z.eqb Pos.eqb];
     [ eapply rep_same; [| |exact Hrot]; done
     | unfold slice, set_tsk_need_resched; by rewrite tasks_upd_eq
     | intros; unfold slice, set_tsk_need_resched; rewrite tasks_upd_ne by done; by apply Hne
     | intros p'; unfold set_tsk_need_resched; destruct (decide (p' = p)) as [->|?];
       [ rewrite tasks_upd_eq, bool_decide_true by done; by rewrite orb_true_r
       | rewrite tasks_upd_ne, bool_decide_false by done; rewrite orb_false_r; apply Hn ]
     | transitivity (rq s2); done
     | intros p'; unfold set_tsk_need_resched; destruct (decide (p' = p)) as [->|?];
       [ rewrite tasks_upd_eq; apply Hc | rewrite tasks_upd_ne by done; apply Hc ]
     | done
     | transitivity (klog s2); [done|]; by rewrite Hk, Tk, E ]).
  - split; rewrite ?Hlen, ?E; cbn [andb Z.eqb Pos.eqb]; try done.
    + intros p'. rewrite andb_false_r, orb_false_r. done.
    + by rewrite Hk, Tk, E.
Qed.

(** ** Enqueuing *)

Record enqueued (p : nat) (flags : Z) (q : list nat) (s s' : kst) : Prop := {
  enq_rep : ras_rep s' (q_enqueue (has_flag flags ENQUEUE_HEAD) p q);
  enq_slice : slice s' p = ras_slice (gpath p s) (tasks s p);
  enq_weight : ras_weight (t_ras (tasks s' p)) = calc_ras_weight (tasks s p);
  enq_timeout : ras_timeout (t_ras (tasks s' p)) =
    if has_flag flags ENQUEUE_WAKEUP then 0 else ras_timeout (t_ras (tasks s p));
  enq_others : forall p', p' <> p -> tasks s' p' = tasks s p';
  enq_nr : nr_running (rq s') = u32 (nr_running (rq s) + 1);
  enq_curr : curr s' = curr s }.

Lemma enqueue_holds p flags s q :
  ras_rep s q -> p ∉ q -> Z.of_nat (length q) + 1 < 2 ^ 32 ->
  enqueued p flags q s (enqueue_task_ras p flags s).
Proof.
  intros Hr Hp Hlen. unfold enqueue_task_ras. cbv zeta. fold (gpath p s) (refill (gpath p s) p s).
  pose proof (refill_frame (gpath p s) p s) as Ef. pose proof (refill_task (gpath p s) p s) as Et.
  pose proof (fun p' => refill_task_ne (gpath p s) p p' s) as Ene.
  set (s1 := refill (gpath p s) p s) in *.
  set (s2 := if has_flag flags ENQUEUE_WAKEUP then _ else s1).
  assert (s2 = s1 <| tasks := tasks s2 |>) as E2 by (unfold s2; case_match; by destruct s1).
  assert (tasks s2 p = (tasks s1 p) <| t_ras ::= fun e => e <| ras_timeout :=
    if has_flag flags ENQUEUE_WAKEUP then 0 else ras_timeout (t_ras (tasks s p)) |> |>) as Et2.
  { unfold s2. case_match; [unfold upd_ras; by rewrite tasks_upd_eq|]. by rewrite Et. }
  assert (forall p', p' <> p -> tasks s2 p' = tasks s p') as Ene2.
  { intros p' Hne. unfold s2. case_match; [unfold upd_ras; rewrite tasks_upd_ne by done|]; by apply Ene. }
  assert (ras_rep s2 q) as Hr2.
  { apply (rep_same s); [rewrite E2; by rewrite Ef..|done]. }
  assert (rq s2 = rq s) as Eq by (rewrite E2; simpl; by rewrite Ef).
  set (s3 := if has_flag flags ENQUEUE_HEAD then _ else _).
  assert (ras_linked (links s3) (q_enqueue (has_flag flags ENQUEUE_HEAD) p q) /\
          s3 = s2 <| links := links s3 |>) as [Hl E3].
  { unfold s3, q_enqueue. destruct (has_flag flags ENQUEUE_HEAD);
      (split; [|by destruct s2]); simpl;
      [apply linked_add|apply linked_add_tail]; try done; apply Hr2. }
  clearbody s3.
  pose proof (q_enqueue_length (has_flag flags ENQUEUE_HEAD) p q) as Hlq.
  destruct Hr as [_ Hc _].
  split.
  - split; simpl; [done| |].
    + rewrite E3. simpl. rewrite Eq, Hc, Hlq, u32_small by lia. lia.
    + rewrite Hlq. lia.
  - unfold slice. simpl. rewrite E3. simpl. by rewrite Et2, Et.
  - simpl. rewrite E3. simpl. by rewrite Et2, Et.
  - simpl. rewrite E3. simpl. by rewrite Et2.
  - intros. simpl. rewrite E3. simpl. by apply Ene2.
  - simpl. rewrite E3. simpl. by rewrite Eq.
  - unfold curr. simpl. rewrite E3. simpl. by rewrite Eq.
Qed.

End operations.
