(* ===== verification/RasSpec.v ===== *)
(** What the Race-Averse class promises: the theorems about Ras.v.

    [ras_op] lists the operations other code invokes on the class;
    [ras_exec] runs the concrete one and [q_after] is the specification on the
    abstract queue.  The first group relates the two over any sequence of
    operations, the second gives the functional behaviour of the single
    operations (weights, slices, accounting, preemption). *)

From S2P Require Import Prelude KList Sched Cpuacct Demo Ras.

(** The operations of the class, as core.c calls them. *)
Inductive ras_op :=
  | OpEnqueue (p : nat) (flags : Z)
  | OpDequeue (p : nat) (flags : Z)
  | OpYield
  | OpCheckPreempt (p : nat) (flags : Z)
  | OpPickNext
  | OpPutPrev (p : nat)
  | OpSetCurr
  | OpTick (p : nat) (queued : Z)
  | OpGetInterval (p : nat)
  | OpSwitchedTo (p : nat)
  | OpPrioChanged (p : nat) (oldprio : Z).

Section exec.
Context {KT : KTypes} {KE : KEnv}.

Definition ras_exec (op : ras_op) (s : kst) : kst :=
  match op with
  | OpEnqueue p flags => enqueue_task_op ras_ops p flags s
  | OpDequeue p flags => dequeue_task_op ras_ops p flags s
  | OpYield => yield_task_op ras_ops s
  | OpCheckPreempt p flags => check_preempt_curr_op ras_ops p flags s
  | OpPickNext => (pick_next_task_ras s).2
  | OpPutPrev p => put_prev_task_op ras_ops p s
  | OpSetCurr => set_curr_task_op ras_ops s
  | OpTick p queued => task_tick_op ras_ops p queued s
  | OpGetInterval p => (get_rr_interval_op ras_ops p s).2
  | OpSwitchedTo p => switched_to_op ras_ops p s
  | OpPrioChanged p oldprio => prio_changed_op ras_ops p oldprio s
  end.

(** When core.c may call an operation: a task is enqueued when it is not on
    the queue, and ticked when it is. *)
Definition op_ok (op : ras_op) (q : list nat) : Prop :=
  match op with
  | OpEnqueue p _ => p ∉ q /\ Z.of_nat (length q) + 1 < 2 ^ 32
  | OpTick p _ => p ∈ q
  | _ => True
  end.

(** The specification: what each operation does to the queue. *)
Definition q_after (op : ras_op) (s : kst) (q : list nat) : list nat :=
  match op with
  | OpEnqueue p flags => q_enqueue (has_flag flags ENQUEUE_HEAD) p q
  | OpDequeue p _ => without p q
  | OpPutPrev p => q_rotate p q
  | OpYield => q_rotate (curr s) q
  | OpTick p _ => if (slice s p =? 1) && (2 <=? length q)%nat then q_rotate p q else q
  | _ => q
  end.

(** A run of operations, with the queue the specification computes along it. *)
Inductive ras_run : kst -> list nat -> list ras_op -> kst -> list nat -> Prop :=
  | run_nil s q : ras_run s q [] s q
  | run_cons s q op ops s' q' :
      op_ok op q -> ras_run (ras_exec op s) (q_after op s q) ops s' q' ->
      ras_run s q (op :: ops) s' q'.
End exec.

Section simulation.
Context {KT : KTypes} {KE : KEnv} {KL : KEnvLaws} {NL : KListLaws node}.
Implicit Types (s : kst) (p : nat) (q : list nat).

(** The invariant: the abstraction relation, and a legal time slice for every
    queued task. *)
Definition ras_inv (s : kst) (q : list nat) : Prop := ras_rep s q /\ slices_ok s q.

Lemma slices_same s s' q : (forall p, p ∈ q -> slice s' p = slice s p) ->
  slices_ok s q -> slices_ok s' q.
Proof. intros E Hs. apply Forall_forall. intros p Hp. rewrite E by done. by apply (proj1 (Forall_forall _ q) Hs). Qed.

Lemma slices_acct s s' q : acct s s' -> slices_ok s q -> slices_ok s' q.
Proof. intros Ha. apply slices_same. intros p _. unfold slice. by rewrite (acct_ras s s'). Qed.

Lemma slices_perm s q q' : q ≡ₚ q' -> slices_ok s q -> slices_ok s q'.
Proof. unfold slices_ok. by intros ->. Qed.

Lemma slice_refilled gp t : 1 <= ras_slice gp t <= 150.
Proof. pose proof (ras_slice_range gp t). lia. Qed.

Lemma rep_nodup s q : ras_rep s q -> NoDup q.
Proof. intros [Hl _ _]. by apply linked_nodup in Hl. Qed.

Lemma q_rotate_slices s p q : NoDup q -> slices_ok s q -> slices_ok s (q_rotate p q).
Proof. intros Hnd. apply slices_perm. symmetry. by apply q_rotate_perm. Qed.

Lemma inv_enqueue p flags s q : ras_inv s q -> op_ok (OpEnqueue p flags) q ->
  ras_inv (enqueue_task_ras p flags s) (q_enqueue (has_flag flags ENQUEUE_HEAD) p q).
Proof.
  intros [Hr Hs] [Hp Hlen]. destruct (enqueue_holds p flags s q) as [Hr' Hsl _ _ Hne _ _]; [done..|].
  split; [done|]. apply (slices_perm _ (p :: q)).
  { destruct (has_flag flags ENQUEUE_HEAD); simpl; [done|]. by rewrite Permutation_app_comm. }
  apply Forall_cons. split; [rewrite Hsl; apply slice_refilled|].
  apply (slices_same s); [|done]. intros p' Hp'. unfold slice. rewrite Hne; [done|]. by intros ->.
Qed.

Lemma dequeue_rep p flags s q : ras_rep s q -> ras_rep (dequeue_task_ras p flags s) (without p q).
Proof.
  intros Hr. unfold dequeue_task_ras. cbv zeta.
  pose proof (rep_acct _ _ q (update_curr_ras_acct s) Hr) as Hr'.
  set (s' := update_curr_ras s) in *. rewrite (rep_on s' q) by done.
  pose proof (rep_nodup _ _ Hr) as Hnd.
  destruct (decide (p ∈ q)) as [Hp|Hp].
  - rewrite bool_decide_true by done. destruct Hr' as [Hl Hc Hlen].
    pose proof (without_length p q Hnd Hp) as E. split; simpl.
    + by apply linked_del.
    + rewrite Hc, E, u32_small by lia. lia.
    + lia.
  - rewrite bool_decide_false, without_not_in by done. by apply (rep_same s').
Qed.

Lemma dequeue_ras p flags s p' :
  t_ras (tasks (dequeue_task_ras p flags s) p') = t_ras (tasks s p').
Proof.
  unfold dequeue_task_ras. cbv zeta. rewrite <- (acct_ras s (update_curr_ras s)) by apply update_curr_ras_acct.
  by case_match.
Qed.

Lemma inv_dequeue p flags s q : ras_inv s q ->
  ras_inv (dequeue_task_ras p flags s) (without p q).
Proof.
  intros [Hr Hs]. split; [by apply dequeue_rep|].
  apply Forall_forall. intros p' [_ Hp']%elem_of_without.
  unfold slice. rewrite dequeue_ras. by apply (proj1 (Forall_forall _ q) Hs).
Qed.

Lemma inv_put_prev p s q : ras_inv s q -> ras_inv (put_prev_task_ras p s) (q_rotate p q).
Proof.
  intros [Hr Hs]. pose proof (update_curr_ras_acct s) as Ha. split.
  - apply (rep_rotate (update_curr_ras s)). by apply (rep_acct s).
  - apply q_rotate_slices; [by apply (rep_nodup s q)|]. unfold put_prev_task_ras. cbv zeta.
    apply (slices_acct s _ q) in Ha; [|done]. by case_match.
Qed.

Lemma inv_yield s q : ras_inv s q -> ras_inv (yield_task_ras s) (q_rotate (curr s) q).
Proof.
  intros [Hr Hs]. split; [by apply rep_rotate|].
  apply q_rotate_slices; [by apply (rep_nodup s q)|]. unfold yield_task_ras. by case_match.
Qed.

Lemma inv_tick p queued s q : ras_inv s q -> p ∈ q ->
  ras_inv (task_tick_ras p queued s) (q_after (OpTick p queued) s q).
Proof.
  intros [Hr Hs] Hp. pose proof (proj1 (Forall_forall _ q) Hs p Hp) as Hsp. simpl in Hsp.
  destruct (tick_post_holds p queued s q Hr) as [Hr' Hsl Hne _ _ _ _ _]; [lia|].
  split; [done|]. cbn [q_after]. assert (slices_ok (task_tick_ras p queued s) q) as Hs'.
  { apply Forall_forall. intros p' Hp'. destruct (decide (p' = p)) as [->|?].
    - rewrite Hsl. bcase; [apply slice_refilled|lia].
    - rewrite Hne by done. by apply (proj1 (Forall_forall _ q) Hs). }
  destruct ((slice s p =? 1) && (2 <=? length q)%nat); [|done].
  apply q_rotate_slices; [by apply (rep_nodup s q)|done].
Qed.

(** Operations that leave the queue alone and change a task by resetting its
    weight, its accounting or its flags. *)
Lemma inv_tasks s s' q :
  links s' = links s -> rq s' = rq s -> (forall p, slice s' p = slice s p) ->
  ras_inv s q -> ras_inv s' q.
Proof.
  intros E1 E2 E3 [Hr Hs]. split; [by apply (rep_same s); rewrite ?E2|].
  by apply (slices_same s).
Qed.

Lemma set_weight_slice p p' s : slice (set_ras_weight p s) p' = slice s p'.
Proof.
  unfold slice, set_ras_weight, upd_ras. destruct (decide (p' = p)) as [->|?].
  - by rewrite tasks_upd_eq.
  - by rewrite tasks_upd_ne.
Qed.

Lemma resched_slice p p' s : slice (resched_task p s) p' = slice s p'.
Proof.
  unfold slice, resched_task, set_tsk_need_resched. destruct (decide (p' = p)) as [->|?].
  - by rewrite tasks_upd_eq.
  - by rewrite tasks_upd_ne.
Qed.

Lemma upd_se_slice p p' g s : slice (upd_se p g s) p' = slice s p'.
Proof.
  unfold slice, upd_se. destruct (decide (p' = p)) as [->|?].
  - by rewrite tasks_upd_eq.
  - by rewrite tasks_upd_ne.
Qed.

Lemma inv_check_preempt p flags s q : ras_inv s q -> ras_inv (check_preempt_curr_ras p flags s) q.
Proof.
  apply inv_tasks; unfold check_preempt_curr_ras; cbv zeta; case_match; try done;
    intros; rewrite ?resched_slice; by rewrite !set_weight_slice.
Qed.

Lemma inv_pick s q : ras_inv s q -> ras_inv (pick_next_task_ras s).2 q.
Proof.
  apply inv_tasks; unfold pick_next_task_ras; cbv zeta; repeat case_match; try done.
  intros. apply upd_se_slice.
Qed.

Lemma inv_get_interval p s q : ras_inv s q -> ras_inv (get_rr_interval_ras p s).2 q.
Proof.
  intros [Hr Hs]. unfold get_rr_interval_ras. cbv zeta. simpl.
  fold (gpath p s) (refill (gpath p s) p s). split.
  - apply (rep_same s); [by rewrite refill_frame..|done].
  - apply Forall_forall. intros p' Hp'. destruct (decide (p' = p)) as [->|?].
    + rewrite refill_slice. apply slice_refilled.
    + rewrite refill_slice_ne by done. by apply (proj1 (Forall_forall _ q) Hs).
Qed.

Lemma inv_switched_to p s q : ras_inv s q -> ras_inv (switched_to_ras p s) q.
Proof. apply inv_tasks; unfold switched_to_ras; case_match; try done. intros. apply resched_slice. Qed.

(** One operation: the simulation step. *)
Lemma ras_step_inv op s q : ras_inv s q -> op_ok op q -> ras_inv (ras_exec op s) (q_after op s q).
Proof.
  intros Hi Hok. destruct op; simpl.
  - by apply inv_enqueue.
  - by apply inv_dequeue.
  - by apply inv_yield.
  - by apply inv_check_preempt.
  - by apply inv_pick.
  - by apply inv_put_prev.
  - apply (inv_tasks s); try done. intros. apply upd_se_slice.
  - by apply inv_tick.
  - by apply inv_get_interval.
  - by apply inv_switched_to.
  - done.
Qed.

Lemma ras_run_inv s q ops s' q' : ras_run s q ops s' q' -> ras_inv s q -> ras_inv s' q'.
Proof.
  induction 1 as [|s q op ops s' q' Hok Hrun IH]; intros Hi; [done|].
  apply IH. by apply ras_step_inv.
Qed.
End simulation.

(** * Properties *)

Section properties.
Context {KT : KTypes} {KE : KEnv} {KL : KEnvLaws} {NL : KListLaws node}.
Implicit Types (s : kst) (p : nat) (q : list nat).

(** C1: refinement of the class by a FIFO queue.  After any sequence of calls
    that respects the callers' protocol, the intrusive run list holds exactly
    the tasks of the specification's queue in its order, ras_nr_running is its
    length, every queued task has a slice between 1 and 150 ticks, and
    pick_next_task_ras() returns the queue's head (NULL when it is empty). *)
Theorem ras_refines_queue s q ops s' q' :
  ras_run s q ops s' q' -> ras_inv s q ->
  ras_inv s' q' /\ (pick_next_task_ras s').1 = head q'.
Proof.
  intros Hrun Hi. pose proof (ras_run_inv _ _ _ _ _ Hrun Hi) as [Hr Hs]. split; [done|].
  destruct Hr as [Hl Hc Hlen]. unfold pick_next_task_ras. rewrite Hc, (linked_next _ q') by done.
  destruct q'; [done|]. rewrite (proj2 (Z.eqb_neq _ _)) by (simpl; lia). done.
Qed.

(** calc_ras_weight() is 10 up to 15 page-write faults and then drops by
    one with every doubling of the count, down to 0: it is 13 minus the binary
    logarithm of the count, cut off at 0. *)
Theorem calc_ras_weight_spec (t : task_struct) :
  0 <= wcounts t ->
  calc_ras_weight t = (if wcounts t <? 16 then 10 else Z.max 0 (13 - Z.log2 (wcounts t))) /\
  0 <= calc_ras_weight t <= 10.
Proof. intros Hw. split; [by apply calc_ras_weight_log|apply calc_ras_weight_range]. Qed.

(** a task that writes more pages never has a larger weight, nor, in the
    same group, a longer time slice: the policy is averse to racing tasks. *)
Theorem ras_race_averse gp (t t' : task_struct) :
  0 <= wcounts t <= wcounts t' ->
  calc_ras_weight t' <= calc_ras_weight t /\ ras_slice gp t' <= ras_slice gp t.
Proof.
  intros [H0 Hle].
  assert (calc_ras_weight t' <= calc_ras_weight t) as Hw.
  { rewrite !calc_ras_weight_log by lia.
    pose proof (Z.log2_le_mono _ _ Hle). assert (wcounts t' < 16 \/ 4 <= Z.log2 (wcounts t')).
    { destruct (Z.lt_ge_cases (wcounts t') 16); [by left|right].
      by apply (Z.log2_le_mono 16). }
    bcase; lia. }
  split; [done|]. unfold ras_slice. pose proof HZ_range.
  assert (0 <= RAS_INC_TIME) by (unfold RAS_INC_TIME; apply Z.quot_pos; lia). nia.
Qed.

(** enqueue_task_ras() links the task at the head or the tail as the flags
    say, gives it the slice of its group and weight, clears its timeout on a
    wake-up, counts it in both counters, and touches no other task. *)
Theorem enqueue_task_ras_spec p flags s q :
  ras_rep s q -> p ∉ q -> Z.of_nat (length q) + 1 < 2 ^ 32 ->
  let s' := enqueue_task_ras p flags s in
  ras_rep s' (if has_flag flags ENQUEUE_HEAD then p :: q else q ++ [p]) /\
  slice s' p = ras_base (gpath p s) + calc_ras_weight (tasks s p) * RAS_INC_TIME /\
  ras_timeout (t_ras (tasks s' p)) =
    (if has_flag flags ENQUEUE_WAKEUP then 0 else ras_timeout (t_ras (tasks s p))) /\
  nr_running (rq s') = u32 (nr_running (rq s) + 1) /\
  forall p', p' <> p -> tasks s' p' = tasks s p'.
Proof. intros. destruct (enqueue_holds p flags s q) as [? ? ? ? ? ? ?]; done. Qed.

(** dequeue_task_ras() unlinks the task wherever it stands and counts it
    out of ras_nr_running only if it was linked; rq->nr_running is decremented
    in either case. *)
Theorem dequeue_task_ras_spec p flags s q :
  ras_rep s q ->
  let s' := dequeue_task_ras p flags s in
  ras_rep s' (without p q) /\ on_ras_rq p s' = false /\
  nr_running (rq s') = u32 (nr_running (rq s) - 1).
Proof.
  intros Hr s'. pose proof (dequeue_rep p flags s q Hr) as Hr'. split; [done|]. split.
  - unfold s'. rewrite (rep_on _ (without p q)) by done. apply bool_decide_eq_false.
    by intros [? _]%elem_of_without.
  - unfold s', dequeue_task_ras. cbv zeta. rewrite <- (acct_rq s (update_curr_ras s)) by apply update_curr_ras_acct.
    by case_match.
Qed.

(** What a tick does after the time has been charged and the watchdog has counted,
    which leaves the state [s1]: of the tasks only [p] changes, in its slice, its
    weight when the slice is refilled, and its mark for rescheduling; otherwise
    only the log and the links of the queues. *)
Definition tick_only (p : nat) (refilled : bool) (s1 s' : kst) : Prop :=
  s' = s1 <| tasks := tasks s' |> <| klog := klog s' |> <| links := links s' |> /\
  forall p', tasks s' p' =
    if (p' =? p)%nat then
      (tasks s1 p) <| t_ras ::= fun e => e <| ras_time_slice := slice s' p |>
        <| ras_weight := if refilled then calc_ras_weight (tasks s1 p) else ras_weight e |> |>
        <| need_resched := need_resched (tasks s' p) |>
    else tasks s1 p'.

Lemma tick_only_count p s : let s1 := watchdog p (update_curr_ras s) in
  tick_only p false s1 (tick_count p s).
Proof.
  cbv zeta. set (s1 := watchdog p (update_curr_ras s)). unfold tick_count. fold s1. cbv zeta. clearbody s1. set (s2 := s1 <| klog ::= _ |>).
  split; [reflexivity|]. intros p'. unfold slice, upd_ras.
  destruct (Nat.eqb_spec p' p) as [->|Hne]; [|by rewrite tasks_upd_ne].
  rewrite !tasks_upd_eq. change (tasks s2 p) with (tasks s1 p). destruct (tasks s1 p) as []. cbn. by destruct t_ras.
Qed.

Lemma tick_only_trans p b s1 s2 s3 : tick_only p false s1 s2 -> tick_only p b s2 s3 -> tick_only p b s1 s3.
Proof.
  intros [E1 T1] [E2 T2]. split.
  - etrans; [exact E2|]. rewrite E1. reflexivity.
  - intros p'. specialize (T2 p'). pose proof (T1 p) as T. specialize (T1 p'). rewrite Nat.eqb_refl in T.
    destruct (p' =? p)%nat; [|by rewrite T2]. rewrite T2. clear T1 T2.
    revert T. generalize (slice s2 p) (need_resched (tasks s2 p)) (slice s3 p) (need_resched (tasks s3 p)).
    intros w x y z ->. destruct (tasks s1 p) as []; cbn. destruct t_ras; cbn. by destruct b.
Qed.

Lemma tick_only_refill gp p s : tick_only p true s (refill gp p s).
Proof.
  split; [pose proof (refill_frame gp p s) as E; generalize dependent (refill gp p s); intros r E; rewrite E; reflexivity|]. intros p'. destruct (Nat.eqb_spec p' p) as [->|Hne]; [|by rewrite refill_task_ne].
  unfold slice. rewrite !refill_task. by destruct (tasks s p) as [].
Qed.

Lemma tick_only_holds p queued s : 1 <= slice s p < 2 ^ 32 ->
  tick_only p (slice s p =? 1) (watchdog p (update_curr_ras s)) (task_tick_ras p queued s) /\
  (slice s p <> 1 -> links (task_tick_ras p queued s) = links s).
Proof.
  intros Hs. rewrite task_tick_ras_unfold. cbv zeta. pose proof (tick_only_count p s) as H1. cbv zeta in H1.
  destruct (tick_count_ticked p s) as [Tl _ Ts _ _ _ _ _ _ _]. set (s1 := tick_count p s) in *. rewrite u32_small in Ts by lia.
  rewrite Ts. destruct (Z.eqb_spec (slice s p) 1) as [E|E].
  2: { rewrite (proj2 (c_true_iff _)) by lia. done. }
  rewrite E, Z.sub_diag, c_true_0. split; [|done]. eapply tick_only_trans; [exact H1|].
  set (s2 := refill (gpath p s1) p s1). pose proof (tick_only_refill (gpath p s1) p s1) as [F T]. fold s2 in F, T.
  case_bool_decide; [|by split]. set (s3 := if on_ras_rq p s2 then _ else s2).
  assert (tasks s3 = tasks s2 /\ s3 = s2 <| links := links s3 |>) as [T3 F3] by (unfold s3; destruct (on_ras_rq p s2); by destruct s2).
  unfold set_tsk_need_resched. split.
  - rewrite F3. unfold upd_task. by rewrite F; destruct s2.
  - intros p'. unfold slice. destruct (Nat.eqb_spec p' p) as [->|Hne].
    + rewrite !tasks_upd_eq, T3, T, Nat.eqb_refl. done.
    + by rewrite tasks_upd_ne, T3, T, (proj2 (Nat.eqb_neq _ _)).
Qed.

(** C3: task_tick_ras() takes one tick off the running task's slice.  First the time
    since the last accounting is charged (update_curr_ras(), which changes the
    running task's sched_entity and the group accounting alone) and the
    RLIMIT_RTTIME watchdog counts.  Beyond that, until the last tick nothing
    changes but the slice and the log; on the last tick the slice is refilled from
    the task's group and current weight, the weight is noted and, when another
    task is queued, the task goes to the tail and is marked for rescheduling.  Each
    tick logs the slice found before it. *)
Theorem task_tick_ras_spec p queued s q :
  ras_rep s q -> 1 <= slice s p < 2 ^ 32 ->
  let s' := task_tick_ras p queued s in
  klog s' = klog s ++ [RAS_Tracing (t_pid (tasks s p)) (slice s p)] /\
  acct s (update_curr_ras s) /\
  tick_only p (slice s p =? 1) (watchdog p (update_curr_ras s)) s' /\
  (slice s p <> 1 -> links s' = links s) /\
  (forall p', p' <> p -> slice s' p' = slice s p') /\
  if slice s p =? 1 then
    slice s' p = ras_slice (gpath p s) (tasks s p) /\
    (if (2 <=? length q)%nat
     then ras_rep s' (q_rotate p q) /\ need_resched (tasks s' p) = true
     else ras_rep s' q /\ need_resched (tasks s' p) = need_resched (tasks s p))
  else slice s' p = slice s p - 1 /\ ras_rep s' q /\
       need_resched (tasks s' p) = need_resched (tasks s p).
Proof.
  intros Hr Hs s'. destruct (tick_post_holds p queued s q Hr Hs) as [Tr Ts Tne Tn _ _ _ Tk].
  specialize (Tn p). rewrite bool_decide_true in Tn by done.
  destruct (tick_only_holds p queued s Hs) as [To Tl].
  split; [done|]. split; [apply update_curr_ras_acct|]. split; [done|]. split; [done|]. split; [done|].
  destruct (slice s p =? 1), (2 <=? length q)%nat; simpl in *;
    rewrite ?orb_true_r, ?orb_false_r in Tn; done.
Qed.

(** update_curr_ras() charges the time since exec_start to a running RAS
    task and to no other: sum_exec_runtime grows by it, exec_max keeps the
    maximum, and exec_start moves to the run queue's clock; a clock that went
    backwards charges nothing. *)
Theorem update_curr_ras_spec s :
  t_class (tasks s (curr s)) = ras_class ->
  let e := t_se (tasks s (curr s)) in
  let now := clock_task (rq s) in
  - 2 ^ 63 <= now - exec_start e < 2 ^ 63 ->
  let delta := Z.max 0 (now - exec_start e) in
  let s' := update_curr_ras s in
  sum_exec_runtime (t_se (tasks s' (curr s))) = u64 (sum_exec_runtime e + delta) /\
  exec_max (statistics (t_se (tasks s' (curr s)))) = Z.max (exec_max (statistics e)) delta /\
  exec_start (t_se (tasks s' (curr s))) = now /\
  (forall p, p <> curr s -> tasks s' p = tasks s p) /\
  rq s' = rq s /\ links s' = links s.
Proof.
  intros Hc e now Hrange delta s'.
  assert (curr_delta s = delta) as Hd.
  { unfold curr_delta. fold e now. rewrite s64_u64_sub by lia. unfold delta.
    bcase; [lia|]. rewrite u64_small by lia. lia. }
  pose proof (update_curr_ras_tasks s (curr s) Hc) as Ht. rewrite decide_True in Ht by done.
  unfold s'. rewrite Ht. simpl. rewrite Hd.
  split; [done|]. split; [done|]. split; [done|]. split.
  - intros p Hp. by rewrite update_curr_ras_tasks, decide_False.
  - pose proof (update_curr_ras_acct s) as Ha. split; [by apply acct_rq|by apply acct_links].
Qed.

(** check_preempt_curr_ras() recomputes both weights and marks the running
    task for rescheduling exactly when the woken task's weight is larger, i.e.
    when it writes in a lower band; the queue is not reordered. *)
Theorem check_preempt_curr_ras_spec p flags s :
  p <> curr s ->
  let s' := check_preempt_curr_ras p flags s in
  let preempt := calc_ras_weight (tasks s (curr s)) <? calc_ras_weight (tasks s p) in
  need_resched (tasks s' (curr s)) = need_resched (tasks s (curr s)) || preempt /\
  ras_weight (t_ras (tasks s' p)) = calc_ras_weight (tasks s p) /\
  ras_weight (t_ras (tasks s' (curr s))) = calc_ras_weight (tasks s (curr s)) /\
  links s' = links s.
Proof.
  intros Hne s' preempt.
  set (s1 := set_ras_weight (curr s) (set_ras_weight p s)).
  assert (ras_weight (t_ras (tasks s1 p)) = calc_ras_weight (tasks s p)) as Hp.
  { unfold s1, set_ras_weight, upd_ras. rewrite tasks_upd_ne, tasks_upd_eq by done. done. }
  assert (ras_weight (t_ras (tasks s1 (curr s))) = calc_ras_weight (tasks s (curr s)) /\
          need_resched (tasks s1 (curr s)) = need_resched (tasks s (curr s))) as [Hw Hn].
  { unfold s1, set_ras_weight, upd_ras. rewrite tasks_upd_eq, tasks_upd_ne by done. done. }
  assert (s' = if preempt then resched_task (curr s) s1 else s1) as ->.
  { unfold s', check_preempt_curr_ras, preempt. cbv zeta.
    change (set_ras_weight (curr (set_ras_weight p s)) (set_ras_weight p s)) with s1.
    change (curr s1) with (curr s). by rewrite Hp, Hw. }
  unfold resched_task, set_tsk_need_resched.
  destruct preempt; rewrite ?tasks_upd_eq, ?tasks_upd_ne by done; simpl;
    rewrite ?orb_true_r, ?orb_false_r; done.
Qed.

(** sched_rr_get_interval() on a RAS task is not a query:
    get_rr_interval_ras() returns the full slice of the task's group and weight
    and also writes it into the task, so a task that is asked about gets its
    used-up ticks back; nothing else changes. *)
Theorem get_rr_interval_ras_refills p s :
  let '(interval, s') := get_rr_interval_ras p s in
  interval = ras_slice (gpath p s) (tasks s p) /\ slice s' p = interval /\
  (forall p', p' <> p -> tasks s' p' = tasks s p') /\
  links s' = links s /\ rq s' = rq s.
Proof.
  unfold get_rr_interval_ras. cbv zeta. fold (gpath p s) (refill (gpath p s) p s).
  split; [apply refill_slice|]. split; [done|].
  split; [intros; by apply refill_task_ne|]. by rewrite refill_frame.
Qed.

(** the RLIMIT_RTTIME watchdog.  With a finite soft limit it counts the
    tick, and once the count exceeds the smaller limit in ticks, rounded up,
    it arms the CPU-time check of the task; without a limit it does nothing. *)
Theorem ras_watchdog_spec p s :
  let t := tasks s p in
  let soft := task_rlimit t RLIMIT_RTTIME in
  let hard := task_rlimit_max t RLIMIT_RTTIME in
  let us := USEC_PER_SEC ÷ HZ in
  0 <= soft < 2 ^ 32 -> 0 <= hard < 2 ^ 32 -> Z.min soft hard + us <= 2 ^ 32 ->
  0 <= ras_timeout (t_ras t) < 2 ^ 32 - 1 ->
  let s' := watchdog p s in
  let ticks := ras_timeout (t_ras t) + 1 in
  if soft =? RLIM_INFINITY then tasks s' p = t
  else ras_timeout (t_ras (tasks s' p)) = ticks /\
       sched_exp (tasks s' p) =
         if Z.min soft hard <=? (ticks - 1) * us then sum_exec_runtime (t_se t) else sched_exp t.
Proof.
  intros t soft hard us Hsoft Hhard Hfit Ht s' ticks. unfold s', watchdog. fold t soft hard.
  destruct (soft =? RLIM_INFINITY); [done|]. cbn [negb]. cbv zeta. unfold upd_ras.
  rewrite tasks_upd_eq. fold t us. cbn [setf t_ras ras_timeout].
  rewrite u32_small by lia. fold ticks.
  assert (1000 <= us <= 10000) as Hus.
  { pose proof HZ_range. unfold us, USEC_PER_SEC. rewrite Z.quot_div_nonneg by lia.
    split; [apply Z.div_le_lower_bound|apply Z.div_le_upper_bound]; lia. }
  unfold DIV_ROUND_UP. rewrite u32_small by lia.
  assert ((Z.min soft hard + us - 1) / us <? ticks =
          (Z.min soft hard <=? (ticks - 1) * us)) as ->.
  { pose proof (Z.div_mod (Z.min soft hard + us - 1) us). pose proof (Z.mod_pos_bound (Z.min soft hard + us - 1) us).
    destruct (Z.leb_spec (Z.min soft hard) ((ticks - 1) * us)).
    - apply Z.ltb_lt. apply Z.div_lt_upper_bound; nia.
    - apply Z.ltb_ge. apply Z.div_le_lower_bound; nia. }
  fold t. destruct (Z.min soft hard <=? (ticks - 1) * us); rewrite !tasks_upd_eq;
    (split; [fold t; apply u32_small; unfold ticks in *; lia|done]).
Qed.
End properties.

(** * Instances

    Three RAS tasks on the concrete machine: task 1 in the root group with no
    page-write faults, task 2 in the background group with 100, task 3
    elsewhere with 10000. *)

Import Demo RingLists.

Definition ras0 : kst :=
  set_task 1 (ras_task 11 0 0 0)
    (set_task 2 (ras_task 12 100 0 1) (set_task 3 (ras_task 13 10000 0 2) idle_state)).
Definition fill : list ras_op := [OpEnqueue 1 0; OpEnqueue 2 0; OpEnqueue 3 0].
Definition ras3 : kst := fold_left (fun s op => ras_exec op s) fill ras0.

(** Task 1 runs; its last tick is due. *)
Definition ras3_last : kst :=
  upd_ras 1 (fun e => e <| ras_time_slice := 1 |>) (ras3 <| rq ::= fun r => r <| rq_curr := 1%nat |> |>).

Lemma ras0_inv : ras_inv ras0 [].
Proof.
  split; [|by constructor]. split; [|done|done].
  split; [apply unlinked_ok|done|done].
Qed.

Ltac eval_decide := apply (bool_decide_unpack _); vm_compute; exact I.
Lemma run_nil_eq (s : kst) q q' : q = q' -> ras_run s q [] s q'.
Proof. intros <-. apply run_nil. Qed.

Ltac eval_run :=
  repeat first
    [ apply run_nil_eq; vm_compute; reflexivity
    | eapply run_cons; [cbn [op_ok]; first [ exact I | split; [eval_decide|vm_compute; reflexivity] | eval_decide ]|] ].

Lemma fill_run : ras_run ras0 [] fill ras3 [1; 2; 3]%nat.
Proof. unfold ras3. cbn [fold_left fill]. eval_run. Qed.

Lemma ras3_inv : ras_inv ras3 [1; 2; 3]%nat.
Proof. exact (ras_run_inv _ _ _ _ _ fill_run ras0_inv). Qed.

Lemma rep_run (s : kst) q p c g : ras_rep s q ->
  ras_rep (upd_ras p g (s <| rq ::= fun r => r <| rq_curr := c |> |>)) q.
Proof. by apply rep_same. Qed.

Lemma ras3_last_rep : ras_rep ras3_last [1; 2; 3]%nat.
Proof. exact (rep_run ras3 _ 1 1 _ (proj1 ras3_inv)). Qed.

Definition mixed : list ras_op :=
  fill ++ [OpTick 1 0; OpYield; OpPutPrev 1; OpDequeue 2 0; OpPickNext].
Definition ras_mixed : kst := fold_left (fun s op => ras_exec op s) mixed ras0.

Lemma mixed_run : ras_run ras0 [] mixed ras_mixed [3; 1]%nat.
Proof. unfold ras_mixed. cbn [fold_left mixed fill app]. eval_run. Qed.

Lemma ras_refines_queue_witness :
  ras_inv ras_mixed [3; 1]%nat /\ (pick_next_task_ras ras_mixed).1 = Some 3%nat.
Proof. exact (ras_refines_queue ras0 [] mixed ras_mixed [3; 1]%nat mixed_run ras0_inv). Defined.

Lemma calc_ras_weight_spec_witness : calc_ras_weight (ras_task 1 100 0 0) = 7.
Proof. rewrite (proj1 (calc_ras_weight_spec (ras_task 1 100 0 0) ltac:(simpl; lia))). reflexivity. Defined.

Lemma ras_race_averse_witness :
  ras_slice "/" (ras_task 1 4096 0 0) <= ras_slice "/" (ras_task 2 64 0 0).
Proof.
  apply (ras_race_averse "/" (ras_task 2 64 0 0) (ras_task 1 4096 0 0)). simpl. lia.
Defined.

Lemma enqueue_task_ras_spec_witness :
  slice (enqueue_task_ras 2 ENQUEUE_HEAD ras0) 2 = 10.
Proof.
  destruct (enqueue_task_ras_spec 2 ENQUEUE_HEAD ras0 []) as (_ & E & _);
    [apply ras0_inv|eval_decide|reflexivity|]. rewrite E. reflexivity.
Defined.

Lemma dequeue_task_ras_spec_witness : ras_rep (dequeue_task_ras 2 0 ras3) [1; 3]%nat.
Proof. apply (dequeue_task_ras_spec 2 0 ras3 [1; 2; 3]%nat). apply ras3_inv. Defined.

Lemma task_tick_ras_spec_witness :
  let s' := task_tick_ras 1 0 ras3_last in
  ras_rep s' [2; 3; 1]%nat /\ need_resched (tasks s' 1%nat) = true /\ slice s' 1 = 15.
Proof.
  destruct (task_tick_ras_spec 1 0 ras3_last [1; 2; 3]%nat) as (_ & _ & _ & _ & _ & E & ? & ?);
    [apply ras3_last_rep|vm_compute; split; discriminate || reflexivity|].
  cbv zeta. split; [done|]. split; [done|]. rewrite E. reflexivity.
Defined.

Lemma update_curr_ras_spec_witness :
  let s := ras3_last <| rq ::= fun r => r <| clock_task := 700 |> |> in
  sum_exec_runtime (t_se (tasks (update_curr_ras s) 1%nat)) = 700.
Proof.
  intros s. destruct (update_curr_ras_spec s) as (E & _); [reflexivity|vm_compute; split; congruence|].
  change (curr s) with 1%nat in E. rewrite E. reflexivity.
Defined.

Lemma check_preempt_curr_ras_spec_witness :
  let s := ras3 <| rq ::= fun r => r <| rq_curr := 3%nat |> |> in
  need_resched (tasks (check_preempt_curr_ras 1 0 s) 3%nat) = true.
Proof.
  intros s. destruct (check_preempt_curr_ras_spec 1 0 s) as (E & _); [vm_compute; discriminate|].
  change (curr s) with 3%nat in E. rewrite E. reflexivity.
Defined.

Lemma get_rr_interval_ras_refills_witness : (get_rr_interval_ras 1 ras3_last).1 = 15.
Proof.
  pose proof (get_rr_interval_ras_refills 1 ras3_last) as E.
  destruct (get_rr_interval_ras 1 ras3_last) as [i s']. destruct E as [-> _]. reflexivity.
Defined.

Lemma ras_watchdog_spec_witness :
  let s := set_task 1 ((ras_task 11 0 5 0) <| rlim := fun _ => (20000, 30000) |>
             <| t_ras := mkRasSe 2 5 1 0 |>
             <| t_se ::= fun e => e <| sum_exec_runtime := 77 |> |>) idle_state in
  sched_exp (tasks (watchdog 1 s) 1%nat) = 77.
Proof.
  intros s. destruct (ras_watchdog_spec 1 s) as [_ E];
    [vm_compute; split; congruence|vm_compute; split; congruence|vm_compute; congruence
    |vm_compute; split; congruence|]. rewrite E. reflexivity.
Defined.
