(* ===== verification/TypeSpec.v ===== *)
(** Well-typed machine states: every integer the Race-Averse class writes stays
    in the range of its C type, in any state and for any arguments. *)

From S2P Require Import Prelude KList Sched Cpuacct Demo Ras RasSpec.

Definition is_u32 (x : Z) : Prop := 0 <= x < 2 ^ 32.
Definition is_s32 (x : Z) : Prop := - 2 ^ 31 <= x < 2 ^ 31.
Definition is_u64 (x : Z) : Prop := 0 <= x < 2 ^ 64.

(** The members of a task, of the run queue and of a log line. *)
Record task_typed (t : task_struct) : Prop := {
  ty_slice : is_u32 (ras_time_slice (t_ras t));
  ty_timeout : is_u32 (ras_timeout (t_ras t));
  ty_weight : is_s32 (ras_weight (t_ras t));
  ty_start : is_u64 (exec_start (t_se t));
  ty_sum : is_u64 (sum_exec_runtime (t_se t));
  ty_max : is_u64 (exec_max (statistics (t_se t)));
  ty_exp : is_u64 (sched_exp t) }.
Record rq_typed (r : rq_t) : Prop := {
  ty_running : is_u32 (nr_running r);
  ty_ras_running : is_u32 (ras_nr_running (rq_ras r));
  ty_clock : is_u64 (clock_task r) }.
Definition line_typed (l : klog_line) : Prop :=
  match l with RAS_Tracing _ slice => is_u32 slice | _ => True end.

Record typed `{KTypes} (s : kst) : Prop := {
  ty_tasks : forall p, task_typed (tasks s p);
  ty_rq : rq_typed (rq s);
  ty_usage : forall ca, is_u64 (cpuusage s ca);
  ty_log : Forall line_typed (klog s) }.

Create HintDb typed.

Lemma u32_typed x : is_u32 (u32 x).
Proof. apply u32_range. Qed.
Lemma u64_typed x : is_u64 (u64 x).
Proof. apply u64_range. Qed.
Lemma zero_u32 : is_u32 0.
Proof. unfold is_u32. lia. Qed.
Lemma max_u64 x y : is_u64 x -> is_u64 y -> is_u64 (Z.max x y).
Proof. unfold is_u64. lia. Qed.

Section typed.
Context {KT : KTypes} {KE : KEnv}.
Implicit Types (s : kst) (p : nat).

(** Writes that keep a state typed. *)
Lemma typed_task p F s : (task_typed (tasks s p) -> task_typed (F (tasks s p))) -> typed s -> typed (upd_task p F s).
Proof.
  intros HF [Ht Hr Hu Hl]. split; try done. intros x. destruct (decide (x = p)) as [->|Hx].
  - rewrite tasks_upd_eq. auto.
  - by rewrite tasks_upd_ne.
Qed.

Lemma typed_ras p F s :
  (forall e, is_u32 (ras_time_slice e) -> is_u32 (ras_timeout e) -> is_s32 (ras_weight e) ->
    is_u32 (ras_time_slice (F e)) /\ is_u32 (ras_timeout (F e)) /\ is_s32 (ras_weight (F e))) ->
  typed s -> typed (upd_ras p F s).
Proof.
  intros HF. apply typed_task. intros [H1 H2 H3 H4 H5 H6 H7].
  destruct (HF (t_ras (tasks s p)) H1 H2 H3) as (F1 & F2 & F3). by split.
Qed.

Lemma typed_se p F s :
  (forall e, is_u64 (exec_start e) -> is_u64 (sum_exec_runtime e) -> is_u64 (exec_max (statistics e)) ->
    is_u64 (exec_start (F e)) /\ is_u64 (sum_exec_runtime (F e)) /\ is_u64 (exec_max (statistics (F e)))) ->
  typed s -> typed (upd_se p F s).
Proof.
  intros HF. apply typed_task. intros [H1 H2 H3 H4 H5 H6 H7].
  destruct (HF (t_se (tasks s p)) H4 H5 H6) as (F1 & F2 & F3). by split.
Qed.

Lemma typed_rq F s : (rq_typed (rq s) -> rq_typed (F (rq s))) -> typed s -> typed (s <| rq ::= F |>).
Proof. intros HF [Ht Hr Hu Hl]. split; try done. by apply HF. Qed.

Lemma typed_links F s : typed s -> typed (s <| links ::= F |>).
Proof. intros []. by split. Qed.

Lemma typed_ext F s : typed s -> typed (s <| ext ::= F |>).
Proof. intros []. by split. Qed.

Lemma typed_log l s : line_typed l -> typed s -> typed (s <| klog ::= fun k => k ++ [l] |>).
Proof. intros Hl [Ht Hr Hu Hk]. split; try done. apply Forall_app. split; [done|by constructor]. Qed.

Lemma typed_resched p s : typed s -> typed (resched_task p s).
Proof. apply typed_task. by intros []. Qed.

Lemma typed_inc s : typed s -> typed (inc_nr_running s).
Proof. apply typed_rq. intros []. split; [apply u32_typed|done..]. Qed.
Lemma typed_dec s : typed s -> typed (dec_nr_running s).
Proof. apply typed_rq. intros []. split; [apply u32_typed|done..]. Qed.

Lemma typed_set_weight p s : typed s -> typed (set_ras_weight p s).
Proof.
  unfold set_ras_weight. cbv zeta. apply typed_ras. intros e H1 H2 H3. split; [done|]. split; [done|].
  pose proof (calc_ras_weight_range (tasks s p)). cbn. unfold is_s32. lia.
Qed.

Lemma typed_set_slice gp p s : typed s -> typed (set_ras_slice gp p s).
Proof.
  unfold set_ras_slice. cbv zeta. destruct (String.eqb gp "/"), (String.eqb gp "/bg_non_interactive");
    apply typed_ras; intros e H1 H2 H3; (split; [apply u32_typed|done]).
Qed.

Lemma typed_charge c t s : typed s -> typed (cpuacct_charge c t s).
Proof.
  unfold cpuacct_charge. destruct (negb _); [done|]. generalize (Some (task_ca c s)).
  revert s. induction cgroup_depth as [|fuel IH]; intros s [ca|] Hs; try done.
  cbn [cpuacct_charge_loop]. apply IH. destruct Hs as [Ht Hr Hu Hl]. split; try done.
  intros d. cbn. destruct (d =? ca)%nat; [apply u64_typed|apply Hu].
Qed.

Lemma typed_update_curr s : typed s -> typed (update_curr_ras s).
Proof.
  intros Hs. unfold update_curr_ras. destruct (negb _); [done|]. cbv zeta.
  set (d := if _ <? 0 then 0 else _).
  assert (is_u64 d) as Hd by (unfold d; destruct (_ <? 0); [unfold is_u64; lia|apply u64_typed]). clearbody d.
  pose proof (ty_clock _ (ty_rq s Hs)) as Hc.
  apply typed_charge, typed_se; [intros e H1 H2 H3; by split_and!|]. apply typed_ext.
  apply typed_se; [intros e H1 H2 H3; split_and!; [done|apply u64_typed|done]|].
  apply typed_se; [intros e H1 H2 H3; split_and!; [done|done|by apply max_u64]|done].
Qed.

Lemma typed_watchdog p s : typed s -> typed (watchdog p s).
Proof.
  intros Hs. unfold watchdog. destruct (negb _); [|done]. cbv zeta.
  set (s1 := upd_ras p _ s). assert (typed s1) as H1.
  { apply typed_ras; [|done]. intros e H1 H2 H3. split_and!; [done|apply u32_typed|done]. }
  clearbody s1. destruct (_ <? _); [|done]. apply typed_task; [|done]. intros []. by split.
Qed.

Lemma typed_refill gp p s : typed s -> typed (set_ras_slice gp p (set_ras_weight p s)).
Proof. intros Hs. by apply typed_set_slice, typed_set_weight. Qed.
End typed.

#[export] Hint Resolve typed_links typed_ext typed_resched typed_inc typed_dec typed_set_weight typed_refill
  typed_charge typed_update_curr typed_watchdog u32_typed u64_typed zero_u32 : typed.

Section operations.
Context {KT : KTypes} {KE : KEnv}.
Implicit Types (s : kst) (p : nat).

Lemma typed_enqueue p flags s : typed s -> typed (enqueue_task_ras p flags s).
Proof.
  intros Hs. unfold enqueue_task_ras. cbv zeta. apply typed_inc, typed_rq.
  { intros []. split; [done|apply u32_typed|done]. }
  set (s1 := set_ras_slice _ _ _). assert (typed s1) as H1 by (unfold s1; auto with typed). clearbody s1.
  set (s2 := if has_flag flags ENQUEUE_WAKEUP then _ else s1). assert (typed s2) as H2.
  { unfold s2. destruct (has_flag flags ENQUEUE_WAKEUP); [|done]. apply typed_ras; [|done].
    intros e F1 F2 F3. split_and!; [done|apply zero_u32|done]. }
  clearbody s2. destruct (has_flag flags ENQUEUE_HEAD); auto with typed.
Qed.

Lemma typed_dequeue p flags s : typed s -> typed (dequeue_task_ras p flags s).
Proof.
  intros Hs. unfold dequeue_task_ras. cbv zeta. apply typed_dec.
  destruct (on_ras_rq p (update_curr_ras s)); [|auto with typed].
  apply typed_rq; [|auto with typed]. intros []. split; [done|apply u32_typed|done].
Qed.

Lemma typed_start p s : typed s -> typed (upd_se p (fun e => e <| exec_start := clock_task (rq s) |>) s).
Proof.
  intros Hs. pose proof (ty_clock _ (ty_rq s Hs)) as Hc. apply typed_se; [|done].
  intros e H1 H2 H3. by split_and!.
Qed.

Lemma typed_tick p queued s : typed s -> typed (task_tick_ras p queued s).
Proof.
  intros Hs. unfold task_tick_ras. cbv zeta.
  set (s1 := watchdog p (update_curr_ras s)). assert (typed s1) as H1 by (unfold s1; auto with typed). clearbody s1.
  set (s2 := s1 <| klog ::= _ |>). assert (typed s2) as H2.
  { apply typed_log; [|done]. apply (ty_slice _ (ty_tasks s1 H1 p)). }
  clearbody s2. set (s3 := upd_ras p _ s2). assert (typed s3) as H3.
  { apply typed_ras; [|done]. intros e F1 F2 F3. split_and!; [apply u32_typed|done|done]. }
  clearbody s3. destruct (c_true _); [done|].
  set (s4 := set_ras_slice _ _ _). assert (typed s4) as H4 by (unfold s4; auto with typed). clearbody s4.
  case_bool_decide; [|done]. change (set_tsk_need_resched p) with (resched_task p).
  destruct (on_ras_rq p s4); auto with typed.
Qed.

Lemma typed_exec op s : typed s -> typed (ras_exec op s).
Proof.
  intros Hs. destruct op; cbn [ras_exec ras_ops enqueue_task_op dequeue_task_op yield_task_op check_preempt_curr_op
    pick_next_task_op put_prev_task_op set_curr_task_op task_tick_op get_rr_interval_op switched_to_op prio_changed_op].
  - by apply typed_enqueue.
  - by apply typed_dequeue.
  - unfold yield_task_ras. destruct (on_ras_rq _ _); auto with typed.
  - unfold check_preempt_curr_ras. cbv zeta. destruct (_ <? _); auto with typed.
  - unfold pick_next_task_ras. destruct (_ =? 0); [done|]. destruct (ras_task_of _); [|done]. by apply typed_start.
  - unfold put_prev_task_ras. cbv zeta. destruct (on_ras_rq _ _); auto with typed.
  - by apply typed_start.
  - by apply typed_tick.
  - unfold get_rr_interval_ras. cbn [snd]. auto with typed.
  - unfold switched_to_ras. destruct (_ && _); auto with typed.
  - done.
Qed.

(** well-typed states are closed under the Race-Averse class: whatever
    operations are called, in whatever order and with whatever tasks and flags,
    the time slices, watchdog counters, weights, clocks, run times, task
    counts, accounting counters and the slices in the log stay in the ranges of
    their C types. *)
Theorem ras_ops_typed ops s (Hs : typed s) : typed (fold_left (fun s op => ras_exec op s) ops s).
Proof. revert s Hs. induction ops as [|op ops IH]; intros s Hs; [done|]. by apply IH, typed_exec. Qed.
End operations.

Import Demo.

(** The wrap-around of the counters: a dequeue from an empty queue. *)
Lemma ras_ops_typed_witness :
  typed (fold_left (fun s op => ras_exec op s) [OpDequeue 3 0; OpTick 3 0; OpEnqueue 3 ENQUEUE_WAKEUP] idle_state) /\
  nr_running (rq (dequeue_task_ras 3 0 idle_state)) = 2 ^ 32 - 1.
Proof.
  split; [|vm_compute; reflexivity]. apply ras_ops_typed.
  split; [intros p; split; split; vm_compute; congruence|split; split; vm_compute; congruence|intros ca; split; vm_compute; congruence|constructor].
Defined.
