(* ===== verification/Rt.v ===== *)
(** The real-time scheduling class with group scheduling and bandwidth
    control: kernel/sched/rt.c, uniprocessor build.

    An rt_rq is addressed by the group that owns it, an entity by its task or
    its group ([rtse]); the priority array of the rt_rq of group [g] is the
    bitmap in [rt_rqs s g] and the queues [RtQueue g i].  The walk
    for_each_sched_rt_entity() from an entity to the top of the hierarchy is
    [for_each_rt_se], bounded by [rt_depth], the depth of the group tree.
    Pushing and pulling of tasks and bandwidth balancing exist on
    multiprocessors only. *)

From S2P Require Import Prelude KList Sched Cpuacct Demo Ras.

Section rt.
Context {KT : KTypes} {KE : KEnv}.

(** Bound on the depth of the task group tree. *)
Definition rt_depth : nat := cgroup_depth.

(** The entity a pointer designates, and its list node. *)
Definition rt_ent (se : rtse) (s : kst) : sched_rt_entity :=
  match se with TaskSe p => t_rt (tasks s p) | GroupSe g => group_se s g end.
Definition rt_node (se : rtse) : node :=
  match se with TaskSe p => RtTask p | GroupSe g => RtGroup g end.
Definition rt_entity_is_task (se : rtse) (s : kst) : bool :=
  match rt_my_q (rt_ent se s) with None => true | Some _ => false end.

(** rt_rq_of_se(), group_rt_rq() *)
Definition rt_rq_of_se (se : rtse) (s : kst) : nat := rt_on (rt_ent se s).
Definition group_rt_rq (se : rtse) (s : kst) : option nat := rt_my_q (rt_ent se s).

(** on_rt_rq() *)
Definition on_rt_rq (se : rtse) (s : kst) : bool := negb (list_empty (links s) (rt_node se)).

(** sched_rt_runtime(), sched_rt_period(), sched_rt_bandwidth() *)
Definition sched_rt_runtime (g : nat) (s : kst) : Z :=
  match rt_tg (rt_rqs s g) with
  | None => RUNTIME_INF
  | Some _ => rt_runtime (rt_rqs s g)
  end.
Definition rt_bandwidth_of (g : nat) (s : kst) : rt_bandwidth :=
  match rt_tg (rt_rqs s g) with
  | Some tg => tg_rt_bandwidth (tgs s tg)
  | None => def_rt_bandwidth s
  end.
Definition sched_rt_period (g : nat) (s : kst) : Z := rtb_period (rt_bandwidth_of g s).

(** for_each_sched_rt_entity() *)
Fixpoint for_each_rt_se (fuel : nat) (se : option rtse) (body : rtse -> kst -> kst) (s : kst) : kst :=
  match fuel, se with
  | S fuel, Some e =>
      let s := body e s in
      for_each_rt_se fuel (rt_parent (rt_ent e s)) body s
  | _, _ => s
  end.

(** rt_rq_throttled(), rt_se_boosted() *)
Definition rt_rq_throttled (g : nat) (s : kst) : bool :=
  c_true (rt_throttled (rt_rqs s g)) && negb (c_true (rt_nr_boosted (rt_rqs s g))).
Definition rt_se_boosted (se : rtse) (s : kst) : bool :=
  match group_rt_rq se s with
  | Some g => c_true (rt_nr_boosted (rt_rqs s g))
  | None =>
      match se with
      | TaskSe p => negb (t_prio (tasks s p) =? t_normal_prio (tasks s p))
      | GroupSe _ => false
      end
  end.

(** rt_se_prio() *)
Definition rt_se_prio (se : rtse) (s : kst) : Z :=
  match group_rt_rq se s with
  | Some g => highest_prio (rt_rqs s g)
  | None => match se with TaskSe p => t_prio (tasks s p) | GroupSe _ => MAX_RT_PRIO end
  end.
Definition rt_queue (g : nat) (prio : Z) : node := RtQueue g (Z.to_nat prio).

(** core.c: start_bandwidth_timer(); rt.c: start_rt_bandwidth() on the
    bandwidth of group [tg] *)
Definition start_bandwidth_timer (b : rt_bandwidth) : rt_bandwidth :=
  if rtb_timer_active b then b else b <| rtb_timer_active := true |>.
Definition start_rt_bandwidth (tg : nat) (s : kst) : kst :=
  let b := tg_rt_bandwidth (tgs s tg) in
  if negb (rt_bandwidth_enabled s) || (rtb_runtime b =? RUNTIME_INF) then s
  else if rtb_timer_active b then s
  else upd_tg tg (fun t => t <| tg_rt_bandwidth ::= start_bandwidth_timer |>) s.

(** inc_rt_prio(), dec_rt_prio() *)
Definition inc_rt_prio (g : nat) (prio : Z) (s : kst) : kst :=
  let prev_prio := highest_prio (rt_rqs s g) in
  if prio <? prev_prio then upd_rt_rq g (fun r => r <| highest_prio := prio |>) s else s.
Definition dec_rt_prio (g : nat) (prio : Z) (s : kst) : kst :=
  let prev_prio := highest_prio (rt_rqs s g) in
  if c_true (rt_nr_running (rt_rqs s g)) then
    if prio =? prev_prio then
      upd_rt_rq g (fun r => r <| highest_prio := sched_find_first_bit (rt_bitmap r) |>) s
    else s
  else upd_rt_rq g (fun r => r <| highest_prio := MAX_RT_PRIO |>) s.

(** inc_rt_group(), dec_rt_group() *)
Definition inc_rt_group (se : rtse) (g : nat) (s : kst) : kst :=
  let s := if rt_se_boosted se s
           then upd_rt_rq g (fun r => r <| rt_nr_boosted ::= fun n => u32 (n + 1) |>) s else s in
  match rt_tg (rt_rqs s g) with
  | Some tg => start_rt_bandwidth tg s
  | None => s
  end.
Definition dec_rt_group (se : rtse) (g : nat) (s : kst) : kst :=
  if rt_se_boosted se s
  then upd_rt_rq g (fun r => r <| rt_nr_boosted ::= fun n => u32 (n - 1) |>) s else s.

(** inc_rt_tasks(), dec_rt_tasks() *)
Definition inc_rt_tasks (se : rtse) (g : nat) (s : kst) : kst :=
  let prio := rt_se_prio se s in
  let s := upd_rt_rq g (fun r => r <| rt_nr_running ::= fun n => u32 (n + 1) |>) s in
  let s := inc_rt_prio g prio s in
  inc_rt_group se g s.
Definition dec_rt_tasks (se : rtse) (g : nat) (s : kst) : kst :=
  let s := upd_rt_rq g (fun r => r <| rt_nr_running ::= fun n => u32 (n - 1) |>) s in
  let s := dec_rt_prio g (rt_se_prio se s) s in
  dec_rt_group se g s.

(** list_add_leaf_rt_rq(), list_del_leaf_rt_rq() *)
Definition list_add_leaf_rt_rq (g : nat) (s : kst) : kst :=
  s <| leaf_rt_rqs ::= fun l => g :: l |>.
Definition list_del_leaf_rt_rq (g : nat) (s : kst) : kst :=
  s <| leaf_rt_rqs ::= without g |>.

(** __enqueue_rt_entity() *)
Definition __enqueue_rt_entity (head : bool) (se : rtse) (s : kst) : kst :=
  let g := rt_rq_of_se se s in
  let queue := rt_queue g (rt_se_prio se s) in
  if match group_rt_rq se s with
     | Some group_rq => rt_rq_throttled group_rq s || negb (c_true (rt_nr_running (rt_rqs s group_rq)))
     | None => false
     end then s else
  let s := if negb (c_true (rt_nr_running (rt_rqs s g))) then list_add_leaf_rt_rq g s else s in
  let s := if head then s <| links ::= list_add (rt_node se) queue |>
           else s <| links ::= list_add_tail (rt_node se) queue |> in
  let prio := rt_se_prio se s in
  let s := upd_rt_rq g (fun r => r <| rt_bitmap ::= fun b => Z.setbit b prio |>) s in
  inc_rt_tasks se g s.

(** __dequeue_rt_entity() *)
Definition __dequeue_rt_entity (se : rtse) (s : kst) : kst :=
  let g := rt_rq_of_se se s in
  let s := s <| links ::= list_del_init (rt_node se) |> in
  let prio := rt_se_prio se s in
  let s := if list_empty (links s) (rt_queue g prio)
           then upd_rt_rq g (fun r => r <| rt_bitmap ::= fun b => Z.clearbit b prio |>) s else s in
  let s := dec_rt_tasks se g s in
  if negb (c_true (rt_nr_running (rt_rqs s g))) then list_del_leaf_rt_rq g s else s.

(** dequeue_rt_stack(): the first loop links the entities from [se] to the top
    backwards, the second dequeues them from the top down *)
Fixpoint rt_stack (fuel : nat) (se : option rtse) (back : list rtse) (s : kst) : list rtse :=
  match fuel, se with
  | S fuel, Some e => rt_stack fuel (rt_parent (rt_ent e s)) (e :: back) s
  | _, _ => back
  end.
Definition dequeue_rt_stack (se : rtse) (s : kst) : kst :=
  fold_left (fun s e => if on_rt_rq e s then __dequeue_rt_entity e s else s)
    (rt_stack rt_depth (Some se) [] s) s.

(** enqueue_rt_entity(), dequeue_rt_entity() *)
Definition enqueue_rt_entity (se : rtse) (head : bool) (s : kst) : kst :=
  let s := dequeue_rt_stack se s in
  for_each_rt_se rt_depth (Some se) (__enqueue_rt_entity head) s.
Definition dequeue_rt_entity (se : rtse) (s : kst) : kst :=
  let s := dequeue_rt_stack se s in
  for_each_rt_se rt_depth (Some se) (fun e s =>
    match group_rt_rq e s with
    | Some g => if c_true (rt_nr_running (rt_rqs s g)) then __enqueue_rt_entity false e s else s
    | None => s
    end) s.

(** sched_rt_rq_enqueue(), sched_rt_rq_dequeue() *)
Definition group_entity (g : nat) (s : kst) : option rtse :=
  match rt_tg (rt_rqs s g) with Some tg => tg_rt_se (tgs s tg) | None => None end.
Definition sched_rt_rq_enqueue (g : nat) (s : kst) : kst :=
  let c := curr s in
  if c_true (rt_nr_running (rt_rqs s g)) then
    let s := match group_entity g s with
             | Some se => if negb (on_rt_rq se s) then enqueue_rt_entity se false s else s
             | None => s
             end in
    if highest_prio (rt_rqs s g) <? t_prio (tasks s c) then resched_task c s else s
  else s.
Definition sched_rt_rq_dequeue (g : nat) (s : kst) : kst :=
  match group_entity g s with
  | Some se => if on_rt_rq se s then dequeue_rt_entity se s else s
  | None => s
  end.

(** sched_rt_runtime_exceeded(); balance_runtime() does nothing on one processor *)
Definition sched_rt_runtime_exceeded (g : nat) (s : kst) : bool * kst :=
  let runtime := sched_rt_runtime g s in
  if c_true (rt_throttled (rt_rqs s g)) then (rt_rq_throttled g s, s)
  else if sched_rt_period g s <=? runtime then (false, s)
  else if runtime =? RUNTIME_INF then (false, s)
  else if runtime <? rt_time (rt_rqs s g) then
    let s := if c_true (rtb_runtime (rt_bandwidth_of g s))
             then upd_rt_rq g (fun r => r <| rt_throttled := 1 |>) s
             else upd_rt_rq g (fun r => r <| rt_time := 0 |>) s in
    if rt_rq_throttled g s then (true, sched_rt_rq_dequeue g s) else (false, s)
  else (false, s).

(** update_curr_rt() *)
Definition rt_charge (c : nat) (delta_exec : Z) (e : rtse) (s : kst) : kst :=
  let g := rt_rq_of_se e s in
  if negb (sched_rt_runtime g s =? RUNTIME_INF) then
    let s := upd_rt_rq g (fun r => r <| rt_time ::= fun t => u64 (t + delta_exec) |>) s in
    let '(exceeded, s) := sched_rt_runtime_exceeded g s in
    if exceeded then resched_task c s else s
  else s.
Definition update_curr_rt (s : kst) : kst :=
  let c := curr s in
  if negb (bool_decide (t_class (tasks s c) = rt_class)) then s else
  let delta_exec := u64 (clock_task (rq s) - exec_start (t_se (tasks s c))) in
  let delta_exec := if s64 delta_exec <? 0 then 0 else delta_exec in
  let s := upd_se c (fun e => e <| statistics ::= fun st =>
             st <| exec_max ::= fun m => Z.max m delta_exec |> |>) s in
  let s := upd_se c (fun e => e <| sum_exec_runtime ::= fun r => u64 (r + delta_exec) |>) s in
  let s := s <| ext ::= account_group_exec_runtime c delta_exec |> in
  let now := clock_task (rq s) in
  let s := upd_se c (fun e => e <| exec_start := now |>) s in
  let s := cpuacct_charge c delta_exec s in
  if negb (rt_bandwidth_enabled s) then s
  else for_each_rt_se rt_depth (Some (TaskSe c)) (rt_charge c delta_exec) s.

(** do_sched_rt_period_timer() for the bandwidth of group [tg]: first the
    replenishment of the processor's rt_rq under its lock, with the values of
    [idle] and [enqueue] it computes, then the rest of the loop's body *)
Definition rt_replenish (g : nat) (overrun : Z) (s : kst) : bool * bool * kst :=
  let r := rt_rqs s g in
  if c_true (rt_time r) then
    let runtime := rt_runtime r in
    let s := upd_rt_rq g (fun r => r <| rt_time ::= fun t =>
               u64 (t - Z.min t (u64 (overrun * runtime))) |>) s in
    let '(enqueue, s) :=
      if c_true (rt_throttled (rt_rqs s g)) && (rt_time (rt_rqs s g) <? runtime) then
        let s := upd_rt_rq g (fun r => r <| rt_throttled := 0 |>) s in
        let s := if c_true (rt_nr_running (rt_rqs s g)) && (rq_curr (rq s) =? rq_idle (rq s))%nat
                 then s <| rq ::= fun q => q <| skip_clock_update := -1 |> |> else s in
        (true, s)
      else (false, s) in
    let idle := negb (c_true (rt_time (rt_rqs s g)) || c_true (rt_nr_running (rt_rqs s g))) in
    (idle, enqueue, s)
  else if c_true (rt_nr_running r) then (false, negb (rt_rq_throttled g s), s)
  else (true, false, s).
Definition do_sched_rt_period_timer (tg : nat) (overrun : Z) (s : kst) : bool * kst :=
  let g := tg in
  let '(idle, enqueue, s) := rt_replenish g overrun s in
  let throttled := c_true (rt_throttled (rt_rqs s g)) in
  let s := if enqueue : bool then sched_rt_rq_enqueue g s else s in
  if negb throttled &&
     (negb (rt_bandwidth_enabled s) || (rtb_runtime (tg_rt_bandwidth (tgs s tg)) =? RUNTIME_INF))
  then (true, s)
  else (idle, s).

(** sched_rt_period_timer(): true is HRTIMER_NORESTART, which tells the timer
    core not to start the timer again; [None] is running out of fuel *)
Fixpoint sched_rt_period_timer (fuel : nat) (tg : nat) (idle : bool) (s : kst) : option (bool * kst) :=
  match fuel with
  | O => None
  | S fuel =>
      let '(overrun, e) := hrtimer_forward tg (ext s) in
      let s := s <| ext := e |> in
      if negb (c_true overrun) then Some (idle, s)
      else let '(idle, s) := do_sched_rt_period_timer tg overrun s in
           sched_rt_period_timer fuel tg idle s
  end.

(** enqueue_task_rt(), dequeue_task_rt(); the pushable-task lists exist on
    multiprocessors only *)
Definition enqueue_task_rt (p : nat) (flags : Z) (s : kst) : kst :=
  let s := if has_flag flags ENQUEUE_WAKEUP
           then upd_rt p (fun e => e <| rt_timeout := 0 |>) s else s in
  let s := enqueue_rt_entity (TaskSe p) (has_flag flags ENQUEUE_HEAD) s in
  inc_nr_running s.
Definition dequeue_task_rt (p : nat) (flags : Z) (s : kst) : kst :=
  let s := update_curr_rt s in
  let s := dequeue_rt_entity (TaskSe p) s in
  dec_nr_running s.

(** requeue_rt_entity(), requeue_task_rt(), yield_task_rt() *)
Definition requeue_rt_entity (g : nat) (head : bool) (se : rtse) (s : kst) : kst :=
  if on_rt_rq se s then
    let queue := rt_queue g (rt_se_prio se s) in
    if head then s <| links ::= list_move (rt_node se) queue |>
    else s <| links ::= list_move_tail (rt_node se) queue |>
  else s.
Definition requeue_task_rt (p : nat) (head : bool) (s : kst) : kst :=
  for_each_rt_se rt_depth (Some (TaskSe p))
    (fun e s => requeue_rt_entity (rt_rq_of_se e s) head e s) s.
Definition yield_task_rt (s : kst) : kst := requeue_task_rt (curr s) false s.

(** check_preempt_curr_rt() *)
Definition check_preempt_curr_rt (p : nat) (flags : Z) (s : kst) : kst :=
  if t_prio (tasks s p) <? t_prio (tasks s (curr s)) then resched_task (curr s) s else s.

(** container_of() on a node of a priority queue *)
Definition rt_ent_of (n : node) : option rtse :=
  match n with RtTask p => Some (TaskSe p) | RtGroup g => Some (GroupSe g) | _ => None end.

(** pick_next_rt_entity(); [None] is the BUG_ON() *)
Definition pick_next_rt_entity (g : nat) (s : kst) : option rtse :=
  let idx := sched_find_first_bit (rt_bitmap (rt_rqs s g)) in
  if MAX_RT_PRIO <=? idx then None
  else rt_ent_of (list_next (links s) (rt_queue g idx)).

(** _pick_next_task_rt(), pick_next_task_rt().  The loop goes down from group to
    group; its [None] is a BUG_ON() (there are at most [rt_depth] levels).  The
    outer [None] of the function is that BUG_ON(), the inner one NULL. *)
Fixpoint pick_rt_loop (fuel : nat) (g : nat) (s : kst) : option nat :=
  match fuel with
  | O => None
  | S fuel =>
      match pick_next_rt_entity g s with
      | None => None
      | Some se =>
          match group_rt_rq se s with
          | Some g => pick_rt_loop fuel g s
          | None => match se with TaskSe p => Some p | GroupSe _ => None end
          end
      end
  end.
Definition _pick_next_task_rt (s : kst) : option (option nat * kst) :=
  if negb (c_true (rt_nr_running (rt_rqs s root_task_group))) then Some (None, s)
  else if rt_rq_throttled root_task_group s then Some (None, s)
  else match pick_rt_loop rt_depth root_task_group s with
       | None => None
       | Some p =>
           let now := clock_task (rq s) in
           Some (Some p, upd_se p (fun e => e <| exec_start := now |>) s)
       end.
Definition pick_next_task_rt (s : kst) : option (option nat * kst) := _pick_next_task_rt s.

(** put_prev_task_rt() *)
Definition put_prev_task_rt (p : nat) (s : kst) : kst := update_curr_rt s.

(** switched_to_rt(), prio_changed_rt() *)
Definition switched_to_rt (p : nat) (s : kst) : kst :=
  if c_true (t_on_rq (tasks s p)) && negb (curr s =? p)%nat then
    if t_prio (tasks s p) <? t_prio (tasks s (curr s)) then resched_task (curr s) s else s
  else s.
Definition prio_changed_rt (p : nat) (oldprio : Z) (s : kst) : kst :=
  if negb (c_true (t_on_rq (tasks s p))) then s
  else if (curr s =? p)%nat then
    if oldprio <? t_prio (tasks s p) then resched_task p s else s
  else
    if t_prio (tasks s p) <? t_prio (tasks s (curr s)) then resched_task (curr s) s else s.

(** watchdog() of rt.c, on the task's rt entity *)
Definition watchdog_rt (p : nat) (s : kst) : kst :=
  let soft := task_rlimit (tasks s p) RLIMIT_RTTIME in
  let hard := task_rlimit_max (tasks s p) RLIMIT_RTTIME in
  if negb (soft =? RLIM_INFINITY) then
    let s := upd_rt p (fun e => e <| rt_timeout ::= fun t => u32 (t + 1) |>) s in
    let next := DIV_ROUND_UP (Z.min soft hard) (USEC_PER_SEC ÷ HZ) in
    if next <? rt_timeout (t_rt (tasks s p)) then
      upd_task p (fun t => t <| sched_exp := sum_exec_runtime (t_se t) |>) s
    else s
  else s.

(** The requeueing loop of task_tick_rt(): at the first entity with company on
    its queue the task is requeued and marked, and the function returns. *)
Fixpoint tick_requeue (fuel : nat) (se : option rtse) (p : nat) (s : kst) : kst :=
  match fuel, se with
  | S fuel, Some e =>
      if bool_decide (list_prev (links s) (rt_node e) <> list_next (links s) (rt_node e)) then
        let s := requeue_task_rt p false s in
        set_tsk_need_resched p s
      else tick_requeue fuel (rt_parent (rt_ent e s)) p s
  | _, _ => s
  end.

(** task_tick_rt() *)
Definition task_tick_rt (p : nat) (queued : Z) (s : kst) : kst :=
  let s := update_curr_rt s in
  let s := watchdog_rt p s in
  if negb (t_policy (tasks s p) =? SCHED_RR) then
    if rr_fifo_trace (tasks s p) =? 1
    then s <| klog ::= fun l => l ++ [FIFO_tracing (t_pid (tasks s p))] |> else s
  else
    let s := if rr_fifo_trace (tasks s p) =? 1
             then s <| klog ::= fun l => l ++ [RR_tracing (t_pid (tasks s p))
                        (rt_time_slice (t_rt (tasks s p)))] |> else s in
    let s := upd_rt p (fun e => e <| rt_time_slice ::= fun n => u32 (n - 1) |>) s in
    if c_true (rt_time_slice (t_rt (tasks s p))) then s else
    let s := upd_rt p (fun e => e <| rt_time_slice := RR_TIMESLICE |>) s in
    tick_requeue rt_depth (Some (TaskSe p)) p s.

(** set_curr_task_rt(), get_rr_interval_rt() *)
Definition set_curr_task_rt (s : kst) : kst :=
  let p := curr s in
  let now := clock_task (rq s) in
  upd_se p (fun e => e <| exec_start := now |>) s.
Definition get_rr_interval_rt (p : nat) (s : kst) : Z * kst :=
  if t_policy (tasks s p) =? SCHED_RR then (RR_TIMESLICE, s) else (0, s).

(** rt_sched_class *)
Definition rt_ops : class_ops := {|
  next_class := Some ras_class;
  enqueue_task_op := enqueue_task_rt;
  dequeue_task_op := dequeue_task_rt;
  yield_task_op := yield_task_rt;
  yield_to_task_op := None;
  check_preempt_curr_op := check_preempt_curr_rt;
  pick_next_task_op := pick_next_task_rt;
  put_prev_task_op := put_prev_task_rt;
  set_curr_task_op := set_curr_task_rt;
  task_tick_op := task_tick_rt;
  task_fork_op := None;
  switched_from_op := None;
  switched_to_op := switched_to_rt;
  prio_changed_op := prio_changed_rt;
  get_rr_interval_op := get_rr_interval_rt;
  task_move_group_op := None |}.

(** init_rt_bandwidth() on the bandwidth of a group; ns_to_ktime() keeps the
    number of nanoseconds, and the initialised timer is not active *)
Definition init_rt_bandwidth (period runtime : Z) (b : rt_bandwidth) : rt_bandwidth :=
  b <| rtb_period := period |> <| rtb_runtime := runtime |> <| rtb_timer_active := false |>.

(** destroy_rt_bandwidth(): hrtimer_cancel() leaves the timer inactive *)
Definition destroy_rt_bandwidth (b : rt_bandwidth) : rt_bandwidth :=
  b <| rtb_timer_active := false |>.

(** init_rt_rq(): the loop over the priorities *)
Fixpoint init_rt_queues (n : nat) (g : nat) (s : kst) : kst :=
  match n with
  | O => s
  | S n =>
      let s := init_rt_queues n g s in
      let s := s <| links ::= INIT_LIST_HEAD (RtQueue g n) |> in
      upd_rt_rq g (fun r => r <| rt_bitmap ::= fun b => Z.clearbit b (Z.of_nat n) |>) s
  end.
Definition init_rt_rq (g : nat) (s : kst) : kst :=
  let s := init_rt_queues (Z.to_nat MAX_RT_PRIO) g s in
  let s := upd_rt_rq g (fun r => r <| rt_bitmap ::= fun b => Z.setbit b MAX_RT_PRIO |>) s in
  upd_rt_rq g (fun r => r <| rt_time := 0 |> <| rt_throttled := 0 |> <| rt_runtime := 0 |>) s.

(** init_tg_rt_entry() for group [tg] and the rt_rq it owns; [se] says whether
    an entity is given, [parent] is the parent group's entity *)
Definition init_tg_rt_entry (tg : nat) (se : bool) (parent : option rtse) (s : kst) : kst :=
  let s := upd_rt_rq tg (fun r => r <| highest_prio := MAX_RT_PRIO |> <| rt_nr_boosted := 0 |>
             <| rt_tg := Some tg |>) s in
  let s := upd_tg tg (fun t => t <| tg_rt_se := if se then Some (GroupSe tg) else None |>) s in
  if negb se then s else
  let on := match parent with
            | None => Some root_task_group
            | Some pe => rt_my_q (rt_ent pe s)
            end in
  let s := upd_group_se tg (fun e => e <| rt_on := default root_task_group on |>) s in
  let s := upd_group_se tg (fun e => e <| rt_my_q := Some tg |> <| rt_parent := parent |>) s in
  s <| links ::= INIT_LIST_HEAD (RtGroup tg) |>.

(** alloc_rt_sched_group(): the booleans are the outcomes of the four
    allocations, in order; kzalloc() returns zeroed memory *)
Definition zero_rt_rq : rt_rq := mkRtRq 0 0 0 0 0 0 0 None.
Definition zero_rt_se : sched_rt_entity := mkRtSe 0 0 0 None 0 None.
Definition alloc_rt_sched_group (tg parent : nat) (ok_rqs ok_ses ok_rq ok_se : bool) (s : kst) : Z * kst :=
  if negb ok_rqs then (0, s)
  else if negb ok_ses then (0, s)
  else
    let period := rtb_period (def_rt_bandwidth s) in
    let s := upd_tg tg (fun t => t <| tg_rt_bandwidth ::= init_rt_bandwidth period 0 |>) s in
    if negb ok_rq then (0, s)
    else
      let s := upd_rt_rq tg (fun _ => zero_rt_rq) s in
      if negb ok_se then (0, s)
      else
        let s := upd_group_se tg (fun _ => zero_rt_se) s in
        let s := init_rt_rq tg s in
        let s := upd_rt_rq tg (fun r => r <| rt_runtime := rtb_runtime (tg_rt_bandwidth (tgs s tg)) |>) s in
        (1, init_tg_rt_entry tg true (tg_rt_se (tgs s parent)) s).
End rt.
