(* ===== verification/RtSpec.v ===== *)
(** What the real-time class promises: the theorems about Rt.v.

    The first part is the priority array of the root group when its tasks are
    in no other group: [rt_rep s qs] says that the queue of priority [i] holds
    the tasks [qs i] in order, that the bitmap has exactly the bits of the
    non-empty queues, that highest_prio is the lowest of them, and that
    rt_nr_running counts the tasks.  The second part is bandwidth control of a
    group, the third the round-robin tick and the preemption decisions. *)

From S2P Require Import Prelude KList Sched Cpuacct Demo Ras Rt.

(** The tasks of the first [n] priorities. *)
Fixpoint total (n : nat) (qs : Z -> list nat) : nat :=
  match n with
  | O => O
  | S n => total n qs + length (qs (Z.of_nat n))
  end.

Lemma total_change n qs qs' i : 0 <= i < Z.of_nat n -> (forall j, j <> i -> qs' j = qs j) ->
  (total n qs' + length (qs i) = total n qs + length (qs' i))%nat.
Proof.
  intros Hi Hne. induction n as [|n IH]; [lia|]. cbn [total].
  destruct (decide (i = Z.of_nat n)) as [->|Hd].
  - assert (total n qs' = total n qs) as ->; [|lia]. clear IH Hi.
    assert (forall m, (m <= n)%nat -> total m qs' = total m qs) as H; [|by apply H].
    intros m Hm. induction m as [|m IHm]; [done|]. cbn [total]. rewrite IHm, Hne by lia. done.
  - rewrite (Hne (Z.of_nat n)) by done. specialize (IH ltac:(lia)). lia.
Qed.

Lemma total_zero n qs i : total n qs = 0%nat -> 0 <= i < Z.of_nat n -> qs i = [].
Proof.
  induction n as [|n IH]; cbn [total]; intros Ht Hi; [lia|].
  destruct (decide (i = Z.of_nat n)) as [->|]; [|apply IH; lia].
  destruct (qs (Z.of_nat n)); [done|simpl in Ht; lia].
Qed.

Lemma total_pos n qs : (0 < total n qs)%nat -> exists i, 0 <= i < Z.of_nat n /\ qs i <> [].
Proof.
  induction n as [|n IH]; cbn [total]; intros Ht; [lia|].
  destruct (qs (Z.of_nat n)) eqn:E.
  - destruct IH as (i & ? & ?); [simpl in Ht; lia|]. exists i. split; [lia|done].
  - exists (Z.of_nat n). rewrite E. split; [lia|done].
Qed.

(** ** The specification: an array of FIFO queues *)
Definition qs_add (head : bool) (i : Z) (p : nat) (qs : Z -> list nat) : Z -> list nat :=
  fun j => if j =? i then q_enqueue head p (qs j) else qs j.
Definition qs_del (p : nat) (qs : Z -> list nat) : Z -> list nat := fun j => without p (qs j).
Definition qs_tail (i : Z) (p : nat) (qs : Z -> list nat) : Z -> list nat :=
  fun j => if j =? i then without p (qs j) ++ [p] else qs j.
Definition in_range (i : Z) : Prop := 0 <= i < MAX_RT_PRIO.
Definition nr_prios : nat := Z.to_nat MAX_RT_PRIO.

Section rep.
Context {KT : KTypes} {KE : KEnv} {KL : KEnvLaws} {NL : KListLaws node}.
Implicit Types (s : kst) (p : nat) (qs : Z -> list nat) (l : lh (A := node)).

(** A task of the root group. *)
Definition flat (s : kst) (p : nat) : Prop :=
  rt_parent (t_rt (tasks s p)) = None /\ rt_on (t_rt (tasks s p)) = root_task_group /\
  rt_my_q (t_rt (tasks s p)) = None.

Record rt_linked (l : lh (A := node)) (qs : Z -> list nat) : Prop := {
  rtl_ok : lh_ok l;
  rtl_view : forall i, in_range i -> view l (rt_queue root_task_group i) = RtTask <$> qs i;
  rtl_out : forall p, (forall i, in_range i -> p ∉ qs i) -> view l (RtTask p) = [];
  rtl_uniq : forall p i j, in_range i -> in_range j -> p ∈ qs i -> p ∈ qs j -> i = j }.

Record bitmap_ok (b : Z) (qs : Z -> list nat) : Prop := {
  bm_nonneg : 0 <= b;
  bm_delim : Z.testbit b MAX_RT_PRIO = true;
  bm_bits : forall i, in_range i -> Z.testbit b i = negb (bool_decide (qs i = [])) }.

Record rt_rep (s : kst) (qs : Z -> list nat) : Prop := {
  rr_linked : rt_linked (links s) qs;
  rr_flat : forall p i, in_range i -> p ∈ qs i -> t_prio (tasks s p) = i /\ flat s p;
  rr_bitmap : bitmap_ok (rt_bitmap (rt_rqs s root_task_group)) qs;
  rr_highest : highest_prio (rt_rqs s root_task_group) =
               sched_find_first_bit (rt_bitmap (rt_rqs s root_task_group));
  rr_count : rt_nr_running (rt_rqs s root_task_group) = Z.of_nat (total nr_prios qs);
  rr_small : Z.of_nat (total nr_prios qs) < 2 ^ 32 }.

Lemma rt_queue_inj i j : in_range i -> in_range j -> rt_queue root_task_group i = rt_queue root_task_group j -> i = j.
Proof. unfold in_range, rt_queue. intros ? ? [=]. lia. Qed.

Lemma elem_of_rt_nodes p (q : list nat) : RtTask p ∈ RtTask <$> q <-> p ∈ q.
Proof.
  rewrite list_elem_of_fmap. split; [|eauto]. intros (p' & E & ?). by injection E as ->.
Qed.

Lemma without_rt_nodes p (q : list nat) : without (RtTask p) (RtTask <$> q) = RtTask <$> without p q.
Proof.
  induction q as [|p' q IH]; [done|]. rewrite fmap_cons. destruct (decide (p' = p)) as [->|Hne].
  - by rewrite !without_cons_eq.
  - rewrite !without_cons_ne by congruence. by rewrite IH.
Qed.

Lemma rtl_nodup l qs i : rt_linked l qs -> in_range i -> NoDup (qs i).
Proof.
  intros Hl Hi. pose proof (view_no_dup l (rt_queue root_task_group i) (rtl_ok _ _ Hl)) as Hnd.
  rewrite (rtl_view _ _ Hl) in Hnd by done. by apply NoDup_fmap_1 in Hnd.
Qed.

Lemma rtl_on l qs p i : rt_linked l qs -> in_range i -> p ∈ qs i -> list_empty l (RtTask p) = false.
Proof.
  intros Hl Hi Hp. apply list_empty_false.
  apply (view_not_empty l (rt_queue root_task_group i)); [apply Hl|].
  rewrite (rtl_view _ _ Hl) by done. by apply elem_of_rt_nodes.
Qed.

Lemma rtl_off l qs p : rt_linked l qs -> (forall i, in_range i -> p ∉ qs i) ->
  list_empty l (RtTask p) = true.
Proof. intros Hl Hp. apply list_empty_true. by apply (rtl_out _ _ Hl). Qed.

(** A queue other than the one a node joins is not touched. *)
Lemma rtl_other l qs i j p : rt_linked l qs -> in_range i -> in_range j -> j <> i ->
  rt_queue root_task_group j ∉ RtTask p :: rt_queue root_task_group i :: view l (rt_queue root_task_group i).
Proof.
  intros Hl Hi Hj Hne. rewrite (rtl_view _ _ Hl) by done.
  rewrite !elem_of_cons, list_elem_of_fmap. intros [[=]|[E|(? & [=] & _)]].
  apply Hne. by apply rt_queue_inj.
Qed.

Lemma rtl_other_task l qs i p p' : rt_linked l qs -> in_range i -> p' <> p -> p' ∉ qs i ->
  RtTask p' ∉ RtTask p :: rt_queue root_task_group i :: view l (rt_queue root_task_group i).
Proof.
  intros Hl Hi Hne Hp. rewrite (rtl_view _ _ Hl) by done.
  rewrite !elem_of_cons, elem_of_rt_nodes. intros [[=]|[[=]|?]]; done.
Qed.

Lemma linked_qs_add l qs i p head : rt_linked l qs -> in_range i ->
  (forall j, in_range j -> p ∉ qs j) ->
  rt_linked ((if head : bool then list_add else list_add_tail) (RtTask p) (rt_queue root_task_group i) l)
            (qs_add head i p qs).
Proof.
  intros Hl Hi Hp. set (l' := _ l).
  assert (lh_ok l' /\ view l' (rt_queue root_task_group i) = RtTask <$> q_enqueue head p (qs i) /\
          forall b, b ∉ RtTask p :: rt_queue root_task_group i :: view l (rt_queue root_task_group i) ->
                    view l' b = view l b) as (Ho & Hh & Hf).
  { unfold l'. destruct head.
    - destruct (add_spec l (RtTask p) (rt_queue root_task_group i)) as (? & E & ?); [apply Hl|done|by apply (rtl_out _ _ Hl)|].
      rewrite (rtl_view _ _ Hl) in * by done. done.
    - destruct (add_tail_spec l (RtTask p) (rt_queue root_task_group i)) as (? & E & ?); [apply Hl|done|by apply (rtl_out _ _ Hl)|].
      rewrite (rtl_view _ _ Hl) in * by done. split; [done|]. split; [|done].
      rewrite E. simpl. by rewrite fmap_app. }
  pose proof (fun p' => elem_of_q_enqueue head p p' (qs i)) as Hin.
  split; [done| | |].
  - intros j Hj. unfold qs_add. bcase; subst; [done|].
    rewrite Hf; [by apply (rtl_view _ _ Hl)|by apply (rtl_other l qs)].
  - intros p' Hp'. pose proof (Hp' i Hi) as Hpi. unfold qs_add in Hpi. rewrite Z.eqb_refl, Hin in Hpi.
    rewrite Hf; [|by apply (rtl_other_task l qs); tauto].
    apply (rtl_out _ _ Hl). intros j Hj Hx. apply (Hp' j Hj). unfold qs_add. bcase; [subst|done].
    apply Hin. by right.
  - intros p' a b Ha Hb. unfold qs_add.
    destruct (Z.eqb_spec a i), (Z.eqb_spec b i); subst; rewrite ?Hin; try done; intros H1 H2.
    + destruct H1 as [->|H1]; [by apply Hp in H2|by apply (rtl_uniq _ _ Hl p')].
    + destruct H2 as [->|H2]; [by apply Hp in H1|by apply (rtl_uniq _ _ Hl p')].
    + by apply (rtl_uniq _ _ Hl p').
Qed.

Lemma linked_qs_del l qs i p : rt_linked l qs -> in_range i -> p ∈ qs i ->
  rt_linked (list_del_init (RtTask p) l) (qs_del p qs).
Proof.
  intros Hl Hi Hp. destruct (del_init_spec l (RtTask p) (rtl_ok _ _ Hl)) as (Ho & Hn & Hf).
  split; [done| | |].
  - intros j Hj. rewrite Hf by done. by rewrite (rtl_view _ _ Hl), without_rt_nodes.
  - intros p' Hp'. destruct (decide (p' = p)) as [->|Hne]; [done|].
    rewrite Hf by congruence. rewrite (rtl_out _ _ Hl); [done|].
    intros j Hj Hx. apply (Hp' j Hj). by apply elem_of_without.
  - intros p' a b Ha Hb [_ H1]%elem_of_without [_ H2]%elem_of_without. by apply (rtl_uniq _ _ Hl p').
Qed.

Lemma linked_qs_tail l qs i p : rt_linked l qs -> in_range i -> p ∈ qs i ->
  rt_linked (list_move_tail (RtTask p) (rt_queue root_task_group i) l) (qs_tail i p qs).
Proof.
  intros Hl Hi Hp.
  destruct (move_tail_spec l (RtTask p) (rt_queue root_task_group i)) as (Ho & Hh & Hf); [apply Hl|done|].
  rewrite (rtl_view _ _ Hl) in Hh by done.
  assert (forall p', p' ∈ without p (qs i) ++ [p] <-> p' ∈ qs i) as Hin.
  { intros p'. rewrite elem_of_app, elem_of_without, list_elem_of_singleton.
    destruct (decide (p' = p)) as [->|]; tauto. }
  split; [done| | |].
  - intros j Hj. unfold qs_tail. bcase; subst; [by rewrite Hh, without_rt_nodes, fmap_app|].
    rewrite Hf by (by apply (rtl_other l qs)). rewrite (rtl_view _ _ Hl), without_rt_nodes by done.
    rewrite without_not_in; [done|]. intros Hx. by apply n, (rtl_uniq _ _ Hl p).
  - intros p' Hp'. pose proof (Hp' i Hi) as Hpi. unfold qs_tail in Hpi. rewrite Z.eqb_refl, Hin in Hpi.
    assert (p' <> p) by (by intros ->).
    rewrite Hf by (by apply (rtl_other_task l qs)).
    rewrite (rtl_out _ _ Hl); [done|]. intros j Hj Hx. apply (Hp' j Hj). unfold qs_tail.
    bcase; [subst; by apply Hin|done].
  - intros p' a b Ha Hb. unfold qs_tail.
    destruct (Z.eqb_spec a i), (Z.eqb_spec b i); subst; rewrite ?Hin; intros; try done;
      by apply (rtl_uniq _ _ Hl p').
Qed.

(** ** The bitmap *)
Lemma bitmap_first b qs : bitmap_ok b qs ->
  let i := sched_find_first_bit b in
  0 <= i <= MAX_RT_PRIO /\ (forall j, 0 <= j < i -> qs j = []) /\
  (i < MAX_RT_PRIO -> qs i <> []) /\ (forall j, in_range j -> qs j <> [] -> i <= j).
Proof.
  intros [Hb Hd Hbits] i. destruct (find_first_bit_spec b Hb Hd) as (Hr & Ht & Hf). fold i in Hr, Ht, Hf.
  assert (forall j, 0 <= j < i -> qs j = []) as Hlow.
  { intros j Hj. specialize (Hf j Hj). rewrite Hbits in Hf by (unfold in_range; lia).
    apply negb_false_iff in Hf. by apply bool_decide_eq_true in Hf. }
  split; [done|]. split; [done|]. split.
  - intros Hlt. rewrite Hbits in Ht by (unfold in_range; lia). apply negb_true_iff in Ht.
    by apply bool_decide_eq_false in Ht.
  - intros j Hj Hne. destruct (Z.lt_ge_cases j i); [|lia]. by rewrite Hlow in Hne by (unfold in_range in *; lia).
Qed.

Lemma bitmap_add b qs i p head : bitmap_ok b qs -> in_range i ->
  bitmap_ok (Z.setbit b i) (qs_add head i p qs).
Proof.
  intros [Hb Hd Hbits] Hi. assert (i <> MAX_RT_PRIO) by (unfold in_range in Hi; lia). split.
  - rewrite Z.setbit_spec'. apply Z.lor_nonneg. split; [done|]. apply Z.pow_nonneg. lia.
  - rewrite Z.setbit_neq by (unfold in_range in *; lia). done.
  - intros j Hj. unfold qs_add. destruct (Z.eqb_spec j i) as [->|Hne].
    + rewrite Z.setbit_eq by (unfold in_range in *; lia). rewrite bool_decide_false; [done|].
      destruct head; simpl; [done|]. by intros []%app_eq_nil.
    + rewrite Z.setbit_neq by (unfold in_range in *; lia). by apply Hbits.
Qed.

Lemma bitmap_del b qs i p : bitmap_ok b qs -> in_range i ->
  (forall j, in_range j -> j <> i -> p ∉ qs j) ->
  bitmap_ok (if bool_decide (without p (qs i) = []) then Z.clearbit b i else b) (qs_del p qs).
Proof.
  intros [Hb Hd Hbits] Hi Hp. assert (i <> MAX_RT_PRIO) by (unfold in_range in Hi; lia).
  assert (forall j, in_range j -> j <> i -> qs_del p qs j = qs j) as Hdel.
  { intros j Hj Hne. unfold qs_del. by rewrite without_not_in by auto. }
  case_bool_decide as Hc.
  - split.
    + rewrite Z.clearbit_spec'. by apply Z.ldiff_nonneg; left.
    + rewrite Z.clearbit_neq by (unfold in_range in *; lia). done.
    + intros j Hj. destruct (decide (j = i)) as [->|Hne].
      * rewrite Z.clearbit_eq by (unfold in_range in *; lia). unfold qs_del.
        by rewrite bool_decide_true.
      * rewrite Z.clearbit_neq, Hdel by (unfold in_range in *; try lia; done). by apply Hbits.
  - split; [done..|]. intros j Hj. destruct (decide (j = i)) as [->|Hne].
    + unfold qs_del. rewrite bool_decide_false by done. rewrite Hbits by done.
      rewrite bool_decide_false; [done|]. intros E. by rewrite E in Hc.
    + rewrite Hdel by done. by apply Hbits.
Qed.
End rep.

Section array_ops.
Context {KT : KTypes} {KE : KEnv} {KL : KEnvLaws} {NL : KListLaws node}.
Implicit Types (s : kst) (p : nat) (qs : Z -> list nat).

Lemma first_bit_is b qs i : bitmap_ok b qs -> 0 <= i <= MAX_RT_PRIO ->
  (forall j, 0 <= j < i -> qs j = []) -> (i < MAX_RT_PRIO -> qs i <> []) ->
  sched_find_first_bit b = i.
Proof.
  intros Hb Hi Hlow Hne. destruct (bitmap_first b qs Hb) as (Hr & Hl & Hn & _).
  set (k := sched_find_first_bit b) in *.
  destruct (Z.lt_trichotomy k i) as [Hlt|[?|Hgt]]; [|done|].
  - exfalso. apply Hn; [lia|]. apply Hlow. lia.
  - exfalso. apply Hne; [lia|]. apply Hl. lia.
Qed.

(** [s'] differs from [s] in no field the priority array or the tasks use. *)
Record same_array (s s' : kst) : Prop := {
  sa_links : links s' = links s;
  sa_tasks : tasks s' = tasks s;
  sa_rq : rq s' = rq s;
  sa_leaf : leaf_rt_rqs s' = leaf_rt_rqs s;
  sa_bitmap : forall g, rt_bitmap (rt_rqs s' g) = rt_bitmap (rt_rqs s g);
  sa_nr : forall g, rt_nr_running (rt_rqs s' g) = rt_nr_running (rt_rqs s g);
  sa_high : forall g, highest_prio (rt_rqs s' g) = highest_prio (rt_rqs s g) }.

Lemma same_array_refl s : same_array s s.
Proof. by split. Qed.

Lemma start_rt_bandwidth_same tg s : same_array s (start_rt_bandwidth tg s).
Proof. unfold start_rt_bandwidth. repeat case_match; apply same_array_refl || by split. Qed.

Lemma upd_boosted_same g f s :
  same_array s (upd_rt_rq g (fun r => r <| rt_nr_boosted ::= f |>) s).
Proof.
  split; try done; intros h; (destruct (decide (h = g)) as [->|?];
    [by rewrite rt_rqs_upd_eq|by rewrite rt_rqs_upd_ne]).
Qed.

Lemma same_array_trans s1 s2 s3 : same_array s1 s2 -> same_array s2 s3 -> same_array s1 s3.
Proof.
  intros [] []. split; congruence || (intros g; etrans; eauto).
Qed.

Lemma inc_rt_group_same se g s : same_array s (inc_rt_group se g s).
Proof.
  unfold inc_rt_group. cbv zeta.
  set (s1 := if rt_se_boosted se s then _ else s).
  assert (same_array s s1).
  { unfold s1. destruct (rt_se_boosted se s); [apply upd_boosted_same|apply same_array_refl]. }
  destruct (rt_tg (rt_rqs s1 g)); [|done].
  by apply (same_array_trans _ s1); [|apply start_rt_bandwidth_same].
Qed.

Lemma dec_rt_group_same se g s : same_array s (dec_rt_group se g s).
Proof. unfold dec_rt_group. case_match; [apply upd_boosted_same|apply same_array_refl]. Qed.

Lemma rep_same_array s s' qs : same_array s s' -> rt_rep s qs -> rt_rep s' qs.
Proof.
  intros [E1 E2 E3 E4 E5 E6 E7] [H1 H2 H3 H4 H5 H6].
  split; rewrite ?E1, ?E5, ?E6, ?E7; try done. intros p i. unfold flat. rewrite E2. apply H2.
Qed.

Lemma task_prio s p : flat s p -> rt_se_prio (TaskSe p) s = t_prio (tasks s p).
Proof. intros (_ & _ & E). unfold rt_se_prio, group_rt_rq. simpl. by rewrite E. Qed.

Lemma same_flat s s' p : tasks s' = tasks s -> flat s p -> flat s' p.
Proof. intros E. unfold flat. by rewrite E. Qed.

(** The two loops over an entity's ancestors, for a task of the root group. *)
Lemma stack_flat s p : flat s p -> rt_stack rt_depth (Some (TaskSe p)) [] s = [TaskSe p].
Proof.
  intros (E & _). unfold rt_depth. pose proof depth_pos. destruct cgroup_depth as [|n]; [lia|].
  cbn [rt_stack]. simpl rt_ent. rewrite E. by destruct n.
Qed.

Lemma for_each_flat s p body : flat (body (TaskSe p) s) p ->
  for_each_rt_se rt_depth (Some (TaskSe p)) body s = body (TaskSe p) s.
Proof.
  intros (E & _). unfold rt_depth. pose proof depth_pos. destruct cgroup_depth as [|n]; [lia|].
  cbn [for_each_rt_se]. cbv zeta. simpl rt_ent. rewrite E. by destruct n.
Qed.

Definition absent p qs : Prop := forall i, in_range i -> p ∉ qs i.

Lemma prio_nat i : in_range i -> (Z.to_nat i < nr_prios)%nat.
Proof. unfold in_range, nr_prios, MAX_RT_PRIO, MAX_USER_RT_PRIO. lia. Qed.

Lemma total_add head i p qs : in_range i -> total nr_prios (qs_add head i p qs) = S (total nr_prios qs).
Proof.
  intros Hi. pose proof (total_change nr_prios qs (qs_add head i p qs) i) as H.
  assert (qs_add head i p qs i = q_enqueue head p (qs i)) as E by (unfold qs_add; by rewrite Z.eqb_refl).
  rewrite E, q_enqueue_length in H.
  assert (0 <= i < Z.of_nat nr_prios) as Hr.
  { unfold in_range, nr_prios, MAX_RT_PRIO, MAX_USER_RT_PRIO in *. lia. }
  specialize (H Hr). assert (forall j, j <> i -> qs_add head i p qs j = qs j) as Hne.
  { intros j Hj. unfold qs_add. by rewrite (proj2 (Z.eqb_neq j i) Hj). }
  specialize (H Hne). lia.
Qed.

Lemma inc_rt_prio_fields g prio s :
  let s' := inc_rt_prio g prio s in
  rt_bitmap (rt_rqs s' g) = rt_bitmap (rt_rqs s g) /\
  rt_nr_running (rt_rqs s' g) = rt_nr_running (rt_rqs s g) /\
  highest_prio (rt_rqs s' g) = Z.min prio (highest_prio (rt_rqs s g)) /\
  links s' = links s /\ tasks s' = tasks s /\ rq s' = rq s.
Proof.
  cbv zeta. unfold inc_rt_prio. destruct (Z.ltb_spec prio (highest_prio (rt_rqs s g))).
  - rewrite rt_rqs_upd_eq. split; [done|]. split; [done|]. split; [simpl; lia|done].
  - split; [done|]. split; [done|]. split; [lia|done].
Qed.

(** The highest priority after a task was queued or taken off. *)
Lemma highest_add b qs i (p : nat) (head : bool) : bitmap_ok b qs -> in_range i ->
  sched_find_first_bit (Z.setbit b i) = Z.min i (sched_find_first_bit b).
Proof.
  intros Hb Hi. pose proof (bitmap_add b qs i p head Hb Hi) as Hb'.
  destruct (bitmap_first _ _ Hb) as (Hr & Hlow & Hne & _).
  unfold in_range in Hi. apply (first_bit_is _ _ _ Hb'); unfold qs_add; [lia| |].
  - intros j Hj. bcase; [lia|]. apply Hlow. lia.
  - intros Hlt. bcase; [destruct head; simpl; [done|by intros []%app_eq_nil]|].
    destruct (Z.min_spec i (sched_find_first_bit b)) as [[? E]|[? E]]; [lia|].
    rewrite E. apply Hne. lia.
Qed.
Lemma highest_del b b' qs i p : bitmap_ok b qs -> bitmap_ok b' (qs_del p qs) -> in_range i -> p ∈ qs i ->
  (forall j, in_range j -> j <> i -> p ∉ qs j) ->
  (if c_true (Z.of_nat (total nr_prios (qs_del p qs)))
   then if i =? sched_find_first_bit b then sched_find_first_bit b' else sched_find_first_bit b else MAX_RT_PRIO)
  = sched_find_first_bit b'.
Proof.
  intros Hb Hb' Hi Hin Huniq. symmetry. destruct (bitmap_first _ _ Hb) as (Hr & Hlow & Hne & Hmin).
  destruct (c_true (Z.of_nat (total nr_prios (qs_del p qs)))) eqn:Ec.
  - bcase; [done|]. assert (sched_find_first_bit b <= i) as Hle.
    { apply Hmin; [exact Hi|]. intros E. rewrite E in Hin. by apply not_elem_of_nil in Hin. }
    apply (first_bit_is _ _ _ Hb'); [done| |].
    + intros j Hj. unfold qs_del. by rewrite Hlow.
    + intros Hlt. unfold qs_del. rewrite without_not_in; [by apply Hne|].
      apply Huniq; [unfold in_range; lia|done].
  - apply c_true_false in Ec. apply (first_bit_is _ _ _ Hb'); [unfold MAX_RT_PRIO, MAX_USER_RT_PRIO; lia| |lia].
    intros j Hj. apply (total_zero nr_prios); [lia|].
    unfold nr_prios, MAX_RT_PRIO, MAX_USER_RT_PRIO in *. lia.
Qed.

Lemma enq_entity_rep s p head qs :
  rt_rep s qs -> flat s p -> in_range (t_prio (tasks s p)) -> absent p qs ->
  Z.of_nat (total nr_prios qs) + 1 < 2 ^ 32 ->
  let s' := __enqueue_rt_entity head (TaskSe p) s in
  rt_rep s' (qs_add head (t_prio (tasks s p)) p qs) /\ tasks s' = tasks s /\ rq s' = rq s.
Proof.
  intros [Hl Hf Hb Hh Hc Hs] Hp Hi Ha Hn. set (i := t_prio (tasks s p)) in *.
  unfold __enqueue_rt_entity. cbv zeta. rewrite (task_prio s p) by done. fold i.
  unfold group_rt_rq, rt_rq_of_se, rt_node. cbn [rt_ent].
  destruct (Hp) as (_ & Eo & Em). rewrite Em, Eo.
  set (s1 := if negb _ then list_add_leaf_rt_rq _ s else s).
  assert (s1 = s <| leaf_rt_rqs := leaf_rt_rqs s1 |>) as E1 by (unfold s1; case_match; by destruct s).
  clearbody s1.
  set (s2 := if head then _ else _).
  assert (links s2 = (if head then list_add else list_add_tail) (RtTask p)
            (rt_queue root_task_group i) (links s) /\ s2 = s1 <| links := links s2 |>) as [El E2].
  { unfold s2. rewrite E1. by destruct head. }
  clearbody s2.
  assert (tasks s2 = tasks s /\ rt_rqs s2 = rt_rqs s /\ rq s2 = rq s) as (Et & Er & Eq).
  { rewrite E2, E1. done. }
  rewrite (task_prio s2 p) by (by apply (same_flat s)). rewrite Et. fold i.
  set (s3 := upd_rt_rq root_task_group _ s2).
  unfold inc_rt_tasks. cbv zeta.
  set (s4 := upd_rt_rq root_task_group _ s3).
  rewrite (task_prio s3 p) by (by apply (same_flat s)).
  change (tasks s3) with (tasks s2). rewrite Et. fold i.
  set (b' := Z.setbit (rt_bitmap (rt_rqs s root_task_group)) i).
  pose proof (bitmap_add _ qs i p head Hb Hi) as Hb'. fold b' in Hb'.
  set (h' := Z.min i (highest_prio (rt_rqs s root_task_group))).
  assert (sched_find_first_bit b' = h') as Hfb by (unfold b', h'; rewrite Hh; by eapply highest_add).
  set (s5 := inc_rt_prio root_task_group i s4).
  assert (rt_bitmap (rt_rqs s5 root_task_group) = b' /\
          rt_nr_running (rt_rqs s5 root_task_group) = u32 (rt_nr_running (rt_rqs s root_task_group) + 1) /\
          highest_prio (rt_rqs s5 root_task_group) = h' /\
          links s5 = links s2 /\ tasks s5 = tasks s /\ rq s5 = rq s) as (G1 & G2 & G3 & G4 & G5 & G6).
  { unfold s5. destruct (inc_rt_prio_fields root_task_group i s4) as (-> & -> & -> & -> & -> & ->).
    unfold s4, s3. rewrite !rt_rqs_upd_eq, Er. unfold b', h'. done. }
  pose proof (inc_rt_group_same (TaskSe p) root_task_group s5) as Hsa.
  split; [|split; [by rewrite (sa_tasks _ _ Hsa)|by rewrite (sa_rq _ _ Hsa)]].
  apply (rep_same_array s5); [done|]. split.
  - rewrite G4, El. by apply linked_qs_add.
  - intros p' j Hj. unfold qs_add, flat. rewrite G5. bcase; [|by apply Hf].
    subst j. intros [->|?]%elem_of_q_enqueue; [done|by apply Hf].
  - by rewrite G1.
  - by rewrite G1, G3.
  - rewrite G2, Hc, total_add by exact Hi. rewrite u32_small by lia. lia.
  - rewrite total_add by exact Hi. lia.
Qed.

Lemma total_del i p qs : in_range i -> p ∈ qs i -> NoDup (qs i) ->
  (forall j, in_range j -> j <> i -> p ∉ qs j) ->
  total nr_prios qs = S (total nr_prios (qs_del p qs)).
Proof.
  intros Hi Hp Hnd Hne.
  assert (forall n, (n <= nr_prios)%nat ->
    total n qs = (total n (qs_del p qs) + if (Z.to_nat i <? n)%nat then 1 else 0)%nat) as H.
  { unfold in_range, nr_prios, MAX_RT_PRIO, MAX_USER_RT_PRIO in *.
    intros n. induction n as [|n IH]; intros Hn; [done|]. cbn [total]. rewrite IH by lia.
    change (qs_del p qs (Z.of_nat n)) with (without p (qs (Z.of_nat n))).
    destruct (decide (Z.of_nat n = i)) as [<-|Hd].
    - rewrite (without_length p (qs (Z.of_nat n))) by done.
      rewrite Nat2Z.id, (proj2 (Nat.ltb_ge n n)), (proj2 (Nat.ltb_lt n (S n))) by lia. lia.
    - rewrite without_not_in by (apply Hne; [lia|done]).
      destruct (Nat.ltb_spec (Z.to_nat i) n), (Nat.ltb_spec (Z.to_nat i) (S n)); lia. }
  rewrite (H nr_prios) by done. rewrite (proj2 (Nat.ltb_lt _ _)) by (by apply prio_nat). lia.
Qed.

Lemma dec_rt_prio_fields g prio s :
  let s' := dec_rt_prio g prio s in
  rt_bitmap (rt_rqs s' g) = rt_bitmap (rt_rqs s g) /\
  rt_nr_running (rt_rqs s' g) = rt_nr_running (rt_rqs s g) /\
  highest_prio (rt_rqs s' g) =
    (if c_true (rt_nr_running (rt_rqs s g))
     then if prio =? highest_prio (rt_rqs s g) then sched_find_first_bit (rt_bitmap (rt_rqs s g))
          else highest_prio (rt_rqs s g)
     else MAX_RT_PRIO) /\
  links s' = links s /\ tasks s' = tasks s /\ rq s' = rq s.
Proof.
  cbv zeta. unfold dec_rt_prio.
  destruct (c_true (rt_nr_running (rt_rqs s g))); [destruct (prio =? highest_prio (rt_rqs s g))|];
    rewrite ?rt_rqs_upd_eq; done.
Qed.

Lemma deq_entity_rep s p i qs :
  rt_rep s qs -> in_range i -> p ∈ qs i ->
  let s' := __dequeue_rt_entity (TaskSe p) s in
  rt_rep s' (qs_del p qs) /\ tasks s' = tasks s /\ rq s' = rq s.
Proof.
  intros [Hl Hf Hb Hh Hc Hs] Hi Hin. destruct (Hf p i Hi Hin) as [Hpi Hp].
  assert (forall j, in_range j -> j <> i -> p ∉ qs j) as Huniq.
  { intros j Hj Hne Hx. by apply Hne, (rtl_uniq _ _ Hl p). }
  pose proof (rtl_nodup _ _ i Hl Hi) as Hnd.
  pose proof (total_del i p qs Hi Hin Hnd Huniq) as Htot.
  pose proof (linked_qs_del _ _ i p Hl Hi Hin) as Hl'.
  unfold __dequeue_rt_entity. cbv zeta. unfold rt_rq_of_se, rt_node. cbn [rt_ent].
  destruct (Hp) as (_ & -> & _).
  set (s1 := s <| links ::= list_del_init (RtTask p) |>).
  rewrite (task_prio s1 p) by (by apply (same_flat s)). change (tasks s1) with (tasks s). rewrite Hpi.
  assert (list_empty (links s1) (rt_queue root_task_group i) = bool_decide (without p (qs i) = [])) as ->.
  { rewrite list_empty_spec. apply bool_decide_ext. change (links s1) with (list_del_init (RtTask p) (links s)).
    rewrite (rtl_view _ _ Hl') by done. unfold qs_del. destruct (without p (qs i)); done. }
  set (s2 := if bool_decide _ then _ else s1).
  set (b' := if bool_decide (without p (qs i) = [])
             then Z.clearbit (rt_bitmap (rt_rqs s root_task_group)) i
             else rt_bitmap (rt_rqs s root_task_group)).
  assert (rt_bitmap (rt_rqs s2 root_task_group) = b' /\
          rt_nr_running (rt_rqs s2 root_task_group) = rt_nr_running (rt_rqs s root_task_group) /\
          highest_prio (rt_rqs s2 root_task_group) = highest_prio (rt_rqs s root_task_group) /\
          links s2 = list_del_init (RtTask p) (links s) /\ tasks s2 = tasks s /\ rq s2 = rq s)
    as (F1 & F2 & F3 & F4 & F5 & F6).
  { unfold s2, b'. destruct (bool_decide (without p (qs i) = [])); by rewrite ?rt_rqs_upd_eq. }
  clearbody s2.
  pose proof (bitmap_del _ qs i p Hb Hi Huniq) as Hb'. fold b' in Hb'.
  unfold dec_rt_tasks. cbv zeta. set (s3 := upd_rt_rq root_task_group _ s2).
  assert (rt_se_prio (TaskSe p) s3 = i) as ->.
  { rewrite (task_prio s3 p); [|apply (same_flat s); [exact F5|done]]. change (tasks s3) with (tasks s2). by rewrite F5. }
  set (s4 := dec_rt_prio root_task_group i s3).
  destruct (dec_rt_prio_fields root_task_group i s3) as (G1 & G2 & G3 & G4 & G5 & G6).
  fold s4 in G1, G2, G3, G4, G5, G6.
  unfold s3 in G1, G2, G3. rewrite rt_rqs_upd_eq in G1, G2, G3. cbn [setf rt_bitmap rt_nr_running highest_prio] in G1, G2, G3.
  rewrite F1 in G1, G3. rewrite F2, Hc, Htot in G2, G3. rewrite F3 in G3.
  rewrite u32_small in G2, G3 by lia.
  assert (Z.of_nat (S (total nr_prios (qs_del p qs))) - 1 = Z.of_nat (total nr_prios (qs_del p qs))) as Et by lia.
  rewrite Et in G2, G3.
  set (s5 := dec_rt_group (TaskSe p) root_task_group s4).
  assert (same_array s4 s5) as Hsa by apply dec_rt_group_same.
  set (s6 := if negb _ then list_del_leaf_rt_rq _ s5 else s5).
  assert (rt_rep s5 (qs_del p qs) /\ tasks s5 = tasks s /\ rq s5 = rq s) as (R1 & R2 & R3).
  { split; [|by rewrite (sa_tasks _ _ Hsa), (sa_rq _ _ Hsa), G5, G6].
    apply (rep_same_array s4); [done|]. split.
    - rewrite G4. change (links s3) with (links s2). by rewrite F4.
    - intros p' j Hj [_ Hx]%elem_of_without. unfold flat. rewrite G5.
      change (tasks s3) with (tasks s2). rewrite F5. by apply Hf.
    - by rewrite G1.
    - rewrite G1, G3, Hh. by apply (highest_del _ b' qs i p).
    - rewrite G2. done.
    - lia. }
  unfold s6. destruct (negb _); [|done]. split; [|done]. destruct R1 as [A1 A2 A3 A4 A5 A6]. by split.
Qed.
End array_ops.

(** * Operations on a system whose tasks are all in the root group *)

Section operations.
Context {KT : KTypes} {KE : KEnv} {KL : KEnvLaws} {NL : KListLaws node}.
Implicit Types (s : kst) (p : nat) (qs : Z -> list nat).

(** No RT group exists: every task is queued on [rq->rt], which has no entity. *)
Definition flat_sys (s : kst) : Prop :=
  group_entity root_task_group s = None /\ forall p, flat s p.

(** [s'] differs from [s] in accounting, throttling and flags only. *)
Record quiet (s s' : kst) : Prop := {
  qu_links : links s' = links s;
  qu_rq : rq s' = rq s;
  qu_task : forall p, tasks s' p = (tasks s p) <| t_se := t_se (tasks s' p) |>
                       <| need_resched := need_resched (tasks s' p) |>;
  qu_bitmap : forall g, rt_bitmap (rt_rqs s' g) = rt_bitmap (rt_rqs s g);
  qu_nr : forall g, rt_nr_running (rt_rqs s' g) = rt_nr_running (rt_rqs s g);
  qu_high : forall g, highest_prio (rt_rqs s' g) = highest_prio (rt_rqs s g);
  qu_tg : forall g, rt_tg (rt_rqs s' g) = rt_tg (rt_rqs s g);
  qu_tgs : tgs s' = tgs s;
  qu_klog : klog s' = klog s }.

Lemma quiet_refl s : quiet s s.
Proof. split; try done. intros p. by destruct (tasks s p). Qed.

Lemma quiet_trans s1 s2 s3 : quiet s1 s2 -> quiet s2 s3 -> quiet s1 s3.
Proof.
  intros [A1 A2 A3 A4 A5 A6 A7 A8 A9] [B1 B2 B3 B4 B5 B6 B7 B8 B9].
  split; [congruence|congruence| |intros g; by rewrite B4|intros g; by rewrite B5|intros g; by rewrite B6
         |intros g; by rewrite B7|congruence|congruence].
  intros p. by rewrite B3, A3.
Qed.

Lemma quiet_upd_rt_rq g f s :
  (forall r, rt_bitmap (f r) = rt_bitmap r /\ rt_nr_running (f r) = rt_nr_running r /\
             highest_prio (f r) = highest_prio r /\ rt_tg (f r) = rt_tg r) ->
  quiet s (upd_rt_rq g f s).
Proof.
  intros Hf. split; try done;
    [intros p; change (tasks (upd_rt_rq g f s)) with (tasks s); by destruct (tasks s p)|..];
    intros h; (destruct (decide (h = g)) as [->|?]; [rewrite rt_rqs_upd_eq; by destruct (Hf (rt_rqs s g)) as (? & ? & ? & ?)
    |by rewrite rt_rqs_upd_ne]).
Qed.

Lemma quiet_upd_task p f s :
  (forall t, f t = t <| t_se := t_se (f t) |> <| need_resched := need_resched (f t) |>) ->
  quiet s (upd_task p f s).
Proof.
  intros Hf. split; try done. intros p'. destruct (decide (p' = p)) as [->|?].
  - by rewrite tasks_upd_eq.
  - rewrite tasks_upd_ne by done. by destruct (tasks s p').
Qed.

Lemma quiet_flat s s' p : quiet s s' -> flat s p -> flat s' p.
Proof. intros Hq. unfold flat. rewrite (qu_task _ _ Hq p). done. Qed.

Lemma quiet_flat_sys s s' : quiet s s' -> flat_sys s -> flat_sys s'.
Proof.
  intros Hq [Hg Hf]. split; [|intros p; by apply (quiet_flat s)].
  unfold group_entity in *. by rewrite (qu_tg _ _ Hq), (qu_tgs _ _ Hq).
Qed.

Lemma quiet_prio s s' p : quiet s s' -> t_prio (tasks s' p) = t_prio (tasks s p).
Proof. intros Hq. by rewrite (qu_task _ _ Hq p). Qed.

Lemma rep_quiet s s' qs : quiet s s' -> rt_rep s qs -> rt_rep s' qs.
Proof.
  intros Hq [H1 H2 H3 H4 H5 H6]. pose proof Hq as [E1 E2 E3 E4 E5 E6 _ _ _].
  split; rewrite ?E1, ?E4, ?E5, ?E6; try done. intros p i Hi Hp. destruct (H2 p i Hi Hp) as [A B].
  split; [by rewrite (quiet_prio s)|by apply (quiet_flat s)].
Qed.

Lemma resched_quiet p s : quiet s (resched_task p s).
Proof. apply quiet_upd_task. intros t. by destruct t. Qed.

Lemma exceeded_quiet g s : group_entity g s = None -> quiet s (sched_rt_runtime_exceeded g s).2.
Proof.
  intros Hg. unfold sched_rt_runtime_exceeded. cbv zeta.
  destruct (c_true _); [apply quiet_refl|]. destruct (_ <=? _); [apply quiet_refl|].
  destruct (_ =? _); [apply quiet_refl|]. destruct (_ <? _); [|apply quiet_refl].
  set (s1 := if c_true _ then _ else _).
  assert (quiet s s1) as Hq.
  { unfold s1. destruct (c_true _); apply quiet_upd_rt_rq; done. }
  destruct (rt_rq_throttled g s1); [|done]. simpl. unfold sched_rt_rq_dequeue.
  assert (group_entity g s1 = None) as ->; [|done].
  unfold group_entity in *. by rewrite (qu_tg _ _ Hq), (qu_tgs _ _ Hq).
Qed.

Lemma charge_quiet c d p s : flat_sys s -> quiet s (rt_charge c d (TaskSe p) s).
Proof.
  intros [Hg Hf]. unfold rt_charge. cbv zeta. unfold rt_rq_of_se. cbn [rt_ent].
  destruct (Hf p) as (_ & -> & _). destruct (negb _); [|apply quiet_refl].
  set (s1 := upd_rt_rq _ _ s). assert (quiet s s1) as Hq by (by apply quiet_upd_rt_rq).
  pose proof (exceeded_quiet root_task_group s1) as He.
  destruct (sched_rt_runtime_exceeded root_task_group s1) as [ex s2]. simpl in He.
  assert (quiet s s2) as Hq2.
  { apply (quiet_trans _ s1); [done|]. apply He. unfold group_entity in *.
    by rewrite (qu_tg _ _ Hq), (qu_tgs _ _ Hq). }
  destruct ex; [|done]. apply (quiet_trans _ s2); [done|apply resched_quiet].
Qed.

Lemma quiet_upd_se p g s : quiet s (upd_se p g s).
Proof. apply quiet_upd_task. intros t. by destruct t. Qed.

Lemma quiet_ext f s : quiet s (s <| ext ::= f |>).
Proof. split; try done. intros p. cbn [tasks setf]. by destruct (tasks s p). Qed.

Lemma quiet_charge c d s : quiet s (cpuacct_charge c d s).
Proof.
  destruct (charge_frame c d s) as [f ->]. split; try done.
  intros p. cbn [tasks setf]. by destruct (tasks s p).
Qed.

Lemma update_curr_rt_quiet s : flat_sys s -> quiet s (update_curr_rt s).
Proof.
  intros Hfs. unfold update_curr_rt. cbv zeta. destruct (negb (bool_decide _)); [apply quiet_refl|].
  match goal with |- context [cpuacct_charge ?c ?d ?x] =>
    assert (quiet s (cpuacct_charge c d x)) as Hq; [|set (s1 := cpuacct_charge c d x) in *] end.
  { eapply quiet_trans; [|apply quiet_charge]. eapply quiet_trans; [|apply quiet_upd_se].
    eapply quiet_trans; [|apply quiet_ext]. eapply quiet_trans; [|apply quiet_upd_se].
    apply quiet_upd_se. }
  pose proof (quiet_flat_sys _ _ Hq Hfs) as Hfs1.
  destruct (negb (rt_bandwidth_enabled s1)); [done|].
  rewrite for_each_flat.
  - apply (quiet_trans _ s1); [done|by apply charge_quiet].
  - apply (quiet_flat s1); [by apply charge_quiet|]. apply Hfs1.
Qed.

(** [s'] has the priority array, the hierarchy and the priorities of [s]. *)
Record calm (s s' : kst) : Prop := {
  ca_links : links s' = links s;
  ca_curr : curr s' = curr s;
  ca_task : forall p, t_prio (tasks s' p) = t_prio (tasks s p) /\
    rt_parent (t_rt (tasks s' p)) = rt_parent (t_rt (tasks s p)) /\
    rt_on (t_rt (tasks s' p)) = rt_on (t_rt (tasks s p)) /\
    rt_my_q (t_rt (tasks s' p)) = rt_my_q (t_rt (tasks s p));
  ca_array : forall g, rt_bitmap (rt_rqs s' g) = rt_bitmap (rt_rqs s g) /\
    rt_nr_running (rt_rqs s' g) = rt_nr_running (rt_rqs s g) /\
    highest_prio (rt_rqs s' g) = highest_prio (rt_rqs s g) /\
    rt_tg (rt_rqs s' g) = rt_tg (rt_rqs s g);
  ca_tgs : forall t, tg_rt_se (tgs s' t) = tg_rt_se (tgs s t) }.

Lemma quiet_calm s s' : quiet s s' -> calm s s'.
Proof.
  intros [A1 A2 A3 A4 A5 A6 A7 A8 _]. split; [done|unfold curr; by rewrite A2| | |by rewrite A8].
  - intros p. rewrite A3. done.
  - intros g. by rewrite A4, A5, A6, A7.
Qed.

Lemma calm_trans s1 s2 s3 : calm s1 s2 -> calm s2 s3 -> calm s1 s3.
Proof.
  intros [A1 A2 A3 A4 A5] [B1 B2 B3 B4 B5]. split; [congruence|congruence| | |].
  - intros p. destruct (A3 p) as (<- & <- & <- & <-). apply B3.
  - intros g. destruct (A4 g) as (<- & <- & <- & <-). apply B4.
  - intros t. by rewrite B5.
Qed.

Lemma calm_flat s s' p : calm s s' -> flat s p -> flat s' p.
Proof. intros Hc. unfold flat. by destruct (ca_task _ _ Hc p) as (_ & -> & -> & ->). Qed.

Lemma calm_flat_sys s s' : calm s s' -> flat_sys s -> flat_sys s'.
Proof.
  intros Hc [Hg Hf]. split; [|intros p; by apply (calm_flat s)]. unfold group_entity in *.
  destruct (ca_array _ _ Hc root_task_group) as (_ & _ & _ & ->).
  destruct (rt_tg _); [by rewrite (ca_tgs _ _ Hc)|done].
Qed.

Lemma rep_calm s s' qs : calm s s' -> rt_rep s qs -> rt_rep s' qs.
Proof.
  intros Hc [H1 H2 H3 H4 H5 H6]. destruct (ca_array _ _ Hc root_task_group) as (E1 & E2 & E3 & _).
  split; rewrite ?(ca_links _ _ Hc), ?E1, ?E2, ?E3; try done.
  intros p i Hi Hp. destruct (H2 p i Hi Hp) as [A B].
  split; [by destruct (ca_task _ _ Hc p) as (-> & _)|by apply (calm_flat s)].
Qed.

Lemma calm_upd_task p f s :
  (forall t, t_prio (f t) = t_prio t /\ rt_parent (t_rt (f t)) = rt_parent (t_rt t) /\
             rt_on (t_rt (f t)) = rt_on (t_rt t) /\ rt_my_q (t_rt (f t)) = rt_my_q (t_rt t)) ->
  calm s (upd_task p f s).
Proof.
  intros Hf. split; try done. intros p'. destruct (decide (p' = p)) as [->|?].
  - rewrite tasks_upd_eq. apply (Hf (tasks s p)).
  - by rewrite tasks_upd_ne.
Qed.

Lemma calm_refl s : calm s s.
Proof. by split. Qed.

(** ** The hierarchy is not changed by queueing *)
Definition bw_fields (r : rt_rq) : option nat * Z * Z * Z :=
  (rt_tg r, rt_time r, rt_throttled r, rt_runtime r).
Definition top_same (s s' : kst) : Prop :=
  (forall g, bw_fields (rt_rqs s' g) = bw_fields (rt_rqs s g)) /\
  (forall t, tg_rt_se (tgs s' t) = tg_rt_se (tgs s t)).

Lemma top_same_trans s1 s2 s3 : top_same s1 s2 -> top_same s2 s3 -> top_same s1 s3.
Proof. intros [A1 A2] [B1 B2]. split; intros; by rewrite ?B1, ?B2. Qed.

Lemma top_same_refl s : top_same s s.
Proof. by split. Qed.

Lemma top_upd_rt_rq g f s : (forall r, bw_fields (f r) = bw_fields r) -> top_same s (upd_rt_rq g f s).
Proof.
  intros Hf. split; [|done]. intros h. destruct (decide (h = g)) as [->|?];
    [rewrite rt_rqs_upd_eq; apply Hf|by rewrite rt_rqs_upd_ne].
Qed.

Lemma top_start tg s : top_same s (start_rt_bandwidth tg s).
Proof.
  unfold start_rt_bandwidth. cbv zeta. repeat case_match; try apply top_same_refl.
  split; [done|]. intros t. unfold upd_tg. cbn [tgs setf].
  destruct (Nat.eqb_spec t tg) as [->|]; done.
Qed.

Lemma top_inc_tasks se g s : top_same s (inc_rt_tasks se g s).
Proof.
  unfold inc_rt_tasks. cbv zeta. set (s1 := upd_rt_rq g _ s).
  apply (top_same_trans _ s1); [by apply top_upd_rt_rq|].
  set (s2 := inc_rt_prio g _ s1). apply (top_same_trans _ s2).
  { unfold s2, inc_rt_prio. cbv zeta. destruct (_ <? _); [by apply top_upd_rt_rq|apply top_same_refl]. }
  unfold inc_rt_group. cbv zeta. set (s3 := if rt_se_boosted se s2 then _ else s2).
  apply (top_same_trans _ s3).
  { unfold s3. destruct (rt_se_boosted se s2); [by apply top_upd_rt_rq|apply top_same_refl]. }
  destruct (rt_tg (rt_rqs s3 g)); [apply top_start|apply top_same_refl].
Qed.

Lemma top_enqueue head se s : top_same s (__enqueue_rt_entity head se s).
Proof.
  unfold __enqueue_rt_entity. cbv zeta. destruct (match group_rt_rq se s with Some _ => _ | None => _ end);
    [apply top_same_refl|].
  eapply top_same_trans; [|apply top_inc_tasks].
  eapply top_same_trans; [|by apply top_upd_rt_rq].
  by destruct head, (negb (c_true (rt_nr_running (rt_rqs s (rt_rq_of_se se s))))).
Qed.

Lemma top_dequeue se s : top_same s (__dequeue_rt_entity se s).
Proof.
  unfold __dequeue_rt_entity. cbv zeta. set (g := rt_rq_of_se se s).
  set (s1 := s <| links ::= _ |>). set (s2 := if list_empty _ _ then _ else s1).
  assert (top_same s s2) as H2.
  { apply (top_same_trans _ s1); [done|]. unfold s2. destruct (list_empty _ _);
      [by apply top_upd_rt_rq|apply top_same_refl]. }
  set (s3 := dec_rt_tasks se g s2). assert (top_same s s3) as H3.
  { apply (top_same_trans _ s2); [done|]. unfold s3, dec_rt_tasks. cbv zeta.
    set (s4 := upd_rt_rq g _ s2). apply (top_same_trans _ s4); [by apply top_upd_rt_rq|].
    set (s5 := dec_rt_prio g _ s4). apply (top_same_trans _ s5).
    { unfold s5, dec_rt_prio. cbv zeta. destruct (c_true _); [destruct (_ =? _)|];
        (by apply top_upd_rt_rq) || apply top_same_refl. }
    unfold dec_rt_group. destruct (rt_se_boosted se s5); [by apply top_upd_rt_rq|apply top_same_refl]. }
  by destruct (negb (c_true (rt_nr_running (rt_rqs s3 g)))).
Qed.

Lemma top_flat_sys s s' : top_same s s' -> tasks s' = tasks s -> flat_sys s -> flat_sys s'.
Proof.
  intros [T1 T2] Et [Hg Hf]. split; [|intros p; by apply (same_flat s)].
  unfold group_entity in *. specialize (T1 root_task_group). injection T1 as -> _ _ _.
  destruct (rt_tg _); [by rewrite T2|done].
Qed.

Lemma top_for_each n se body s : (forall e s, top_same s (body e s)) ->
  top_same s (for_each_rt_se n se body s).
Proof.
  intros Hb. revert se s. induction n as [|n IH]; intros [e|] s; cbn [for_each_rt_se];
    try apply top_same_refl. cbv zeta. eapply top_same_trans; [apply Hb|apply IH].
Qed.

Lemma top_stack se s : top_same s (dequeue_rt_stack se s).
Proof.
  unfold dequeue_rt_stack. generalize (rt_stack rt_depth (Some se) [] s). intros l. revert s.
  induction l as [|e l IH]; intros s; [apply top_same_refl|]. cbn [fold_left].
  eapply top_same_trans; [|apply IH]. destruct (on_rt_rq e s); [apply top_dequeue|apply top_same_refl].
Qed.

Lemma top_enqueue_rt_entity se head s : top_same s (enqueue_rt_entity se head s).
Proof.
  unfold enqueue_rt_entity. cbv zeta. eapply top_same_trans; [apply top_stack|].
  apply top_for_each. intros. apply top_enqueue.
Qed.

Lemma top_dequeue_rt_entity se s : top_same s (dequeue_rt_entity se s).
Proof.
  unfold dequeue_rt_entity. cbv zeta. eapply top_same_trans; [apply top_stack|].
  apply top_for_each. intros e s'. destruct (group_rt_rq e s'); [|apply top_same_refl].
  destruct (c_true _); [apply top_enqueue|apply top_same_refl].
Qed.

Lemma top_rq_enqueue g s : top_same s (sched_rt_rq_enqueue g s).
Proof.
  unfold sched_rt_rq_enqueue. cbv zeta. destruct (c_true _); [|apply top_same_refl].
  set (s1 := match group_entity g s with Some _ => _ | None => _ end).
  assert (top_same s s1) as H1.
  { unfold s1. destruct (group_entity g s); [|apply top_same_refl].
    destruct (negb _); [apply top_enqueue_rt_entity|apply top_same_refl]. }
  by destruct (_ <? _).
Qed.

Lemma top_rq_dequeue g s : top_same s (sched_rt_rq_dequeue g s).
Proof.
  unfold sched_rt_rq_dequeue. destruct (group_entity g s); [|apply top_same_refl].
  destruct (on_rt_rq _ _); [apply top_dequeue_rt_entity|apply top_same_refl].
Qed.

(** ** The operations *)

Definition tprio (s : kst) (p : nat) : Z := t_prio (tasks s p).

Lemma off_rq s qs p : rt_rep s qs -> absent p qs -> on_rt_rq (TaskSe p) s = false.
Proof.
  intros Hr Ha. unfold on_rt_rq. simpl. rewrite (rtl_off _ qs) by (done || apply Hr). done.
Qed.

Lemma on_rq s qs p i : rt_rep s qs -> in_range i -> p ∈ qs i -> on_rt_rq (TaskSe p) s = true.
Proof.
  intros Hr Hi Hp. unfold on_rt_rq. simpl. rewrite (rtl_on _ qs p i) by (done || apply Hr). done.
Qed.

Lemma enqueue_task_rt_holds p flags s qs :
  rt_rep s qs -> flat_sys s -> in_range (tprio s p) -> absent p qs ->
  Z.of_nat (total nr_prios qs) + 1 < 2 ^ 32 ->
  let s' := enqueue_task_rt p flags s in
  rt_rep s' (qs_add (has_flag flags ENQUEUE_HEAD) (tprio s p) p qs) /\ flat_sys s' /\
  nr_running (rq s') = u32 (nr_running (rq s) + 1) /\
  (forall p', tprio s' p' = tprio s p') /\ curr s' = curr s.
Proof.
  intros Hr Hfs Hi Ha Hn. unfold enqueue_task_rt. cbv zeta.
  set (s1 := if has_flag flags ENQUEUE_WAKEUP then _ else s).
  assert (calm s s1 /\ rq s1 = rq s) as [Hc Eq].
  { unfold s1. destruct (has_flag flags ENQUEUE_WAKEUP); [|by split; [apply calm_refl|]].
    split; [|done]. by apply calm_upd_task. }
  pose proof (calm_flat_sys _ _ Hc Hfs) as Hfs1. pose proof (rep_calm _ _ _ Hc Hr) as Hr1.
  assert (forall p', tprio s1 p' = tprio s p') as Hp by (intros p'; apply (ca_task _ _ Hc p')).
  clearbody s1. unfold enqueue_rt_entity, dequeue_rt_stack. cbv zeta.
  rewrite stack_flat by apply Hfs1. cbn [fold_left]. rewrite (off_rq s1 qs) by done.
  destruct (enq_entity_rep s1 p (has_flag flags ENQUEUE_HEAD) qs Hr1) as (H1 & H2 & H3);
    [apply Hfs1|by fold (tprio s1 p); rewrite Hp|done|done|].
  pose proof (top_enqueue (has_flag flags ENQUEUE_HEAD) (TaskSe p) s1) as Ht.
  set (s2 := __enqueue_rt_entity _ _ s1) in *.
  assert (flat_sys s2) as Hfs2 by (by apply (top_flat_sys s1)).
  rewrite for_each_flat by apply Hfs2. fold s2.
  fold (tprio s1 p) in H1. rewrite Hp in H1.
  split; [by destruct H1; split|]. split; [done|]. split; [simpl; by rewrite H3, Eq|].
  split; [|unfold curr; simpl; by rewrite H3, Eq].
  intros p'. rewrite <- Hp. unfold tprio. simpl. by rewrite H2.
Qed.

Lemma dequeue_task_rt_holds p flags s qs :
  rt_rep s qs -> flat_sys s -> in_range (tprio s p) -> p ∈ qs (tprio s p) ->
  let s' := dequeue_task_rt p flags s in
  rt_rep s' (qs_del p qs) /\ flat_sys s' /\
  nr_running (rq s') = u32 (nr_running (rq s) - 1) /\
  (forall p', tprio s' p' = tprio s p') /\ curr s' = curr s.
Proof.
  intros Hr Hfs Hi Hp. unfold dequeue_task_rt. cbv zeta.
  pose proof (update_curr_rt_quiet s Hfs) as Hq. set (s1 := update_curr_rt s) in *.
  pose proof (quiet_flat_sys _ _ Hq Hfs) as Hfs1. pose proof (rep_quiet _ _ _ Hq Hr) as Hr1.
  assert (forall p', tprio s1 p' = tprio s p') as Hpr by (intros p'; by apply quiet_prio).
  pose proof (qu_rq _ _ Hq) as Eq. clearbody s1.
  unfold dequeue_rt_entity, dequeue_rt_stack. cbv zeta.
  rewrite stack_flat by apply Hfs1. cbn [fold_left]. rewrite (on_rq s1 qs p (tprio s p)) by done.
  destruct (deq_entity_rep s1 p (tprio s p) qs Hr1 Hi Hp) as (H1 & H2 & H3).
  pose proof (top_dequeue (TaskSe p) s1) as Ht. set (s2 := __dequeue_rt_entity _ s1) in *.
  assert (flat_sys s2) as Hfs2 by (by apply (top_flat_sys s1)).
  assert (group_rt_rq (TaskSe p) s2 = None) as Hg by apply Hfs2.
  rewrite for_each_flat by (rewrite Hg; apply Hfs2). rewrite Hg.
  split; [by destruct H1; split|]. split; [done|]. split; [simpl; by rewrite H3, Eq|].
  split; [|unfold curr; simpl; by rewrite H3, Eq].
  intros p'. rewrite <- Hpr. unfold tprio. simpl. by rewrite H2.
Qed.

Lemma total_tail i p qs : in_range i -> p ∈ qs i -> NoDup (qs i) ->
  total nr_prios (qs_tail i p qs) = total nr_prios qs.
Proof.
  intros Hi Hp Hnd. pose proof (total_change nr_prios qs (qs_tail i p qs) i) as H.
  assert (qs_tail i p qs i = without p (qs i) ++ [p]) as E by (unfold qs_tail; by rewrite Z.eqb_refl).
  rewrite E, length_app in H. rewrite (without_length p (qs i)) in H by done. simpl length in H.
  assert (0 <= i < Z.of_nat nr_prios) as Hr.
  { unfold in_range, nr_prios, MAX_RT_PRIO, MAX_USER_RT_PRIO in *. lia. }
  specialize (H Hr). assert (forall j, j <> i -> qs_tail i p qs j = qs j) as Hne.
  { intros j Hj. unfold qs_tail. by rewrite (proj2 (Z.eqb_neq j i) Hj). }
  specialize (H Hne). lia.
Qed.

Lemma requeue_holds p s qs : rt_rep s qs -> flat_sys s -> in_range (tprio s p) -> p ∈ qs (tprio s p) ->
  requeue_task_rt p false s =
    s <| links ::= list_move_tail (RtTask p) (rt_queue root_task_group (tprio s p)) |> /\
  rt_rep (requeue_task_rt p false s) (qs_tail (tprio s p) p qs).
Proof.
  intros Hr Hfs Hi Hp. unfold requeue_task_rt.
  assert (requeue_rt_entity (rt_rq_of_se (TaskSe p) s) false (TaskSe p) s =
    s <| links ::= list_move_tail (RtTask p) (rt_queue root_task_group (tprio s p)) |>) as E.
  { unfold requeue_rt_entity. rewrite (on_rq s qs p (tprio s p)) by done. cbv zeta.
    rewrite task_prio by apply Hfs. unfold rt_rq_of_se. cbn [rt_ent rt_node].
    destruct (proj2 Hfs p) as (_ & -> & _). done. }
  rewrite for_each_flat; rewrite E; [|apply Hfs]. split; [done|].
  pose proof (rtl_nodup _ _ _ (rr_linked _ _ Hr) Hi) as Hnd. set (i := tprio s p) in *.
  assert (forall j p', p' ∈ qs_tail i p qs j <-> p' ∈ qs j) as Hin.
  { intros j p'. unfold qs_tail. bcase; [subst j|done].
    rewrite elem_of_app, elem_of_without, list_elem_of_singleton.
    destruct (decide (p' = p)) as [->|]; tauto. }
  destruct Hr as [A1 A2 A3 A4 A5 A6]. split; try done; [by apply linked_qs_tail| | | |].
  - intros p' j Hj Hx. by apply A2, Hin.
  - destruct A3 as [B1 B2 B3]. split; [done..|]. intros j Hj. cbn [rt_rqs setf]. rewrite B3 by done.
    f_equal. apply bool_decide_ext. unfold qs_tail. bcase; [subst j|done].
    split; [intros E0; rewrite E0 in Hp; by apply not_elem_of_nil in Hp|by intros [_ ?]%app_eq_nil].
  - by rewrite total_tail.
  - by rewrite total_tail.
Qed.

(** A node of a queue has company exactly when the queue has two nodes. *)
Lemma rtl_company l qs p i : rt_linked l qs -> in_range i -> p ∈ qs i ->
  bool_decide (list_prev l (RtTask p) <> list_next l (RtTask p)) = (2 <=? length (qs i))%nat.
Proof.
  intros Hl Hi Hp. apply Bool.eq_iff_eq_true.
  rewrite bool_decide_eq_true, prev_ne_next, Nat.leb_le by apply Hl.
  assert (RtTask p ∈ view l (rt_queue root_task_group i)) as Hv.
  { rewrite (rtl_view _ _ Hl) by done. by apply elem_of_rt_nodes. }
  pose proof (Permutation_length (view_ring l _ _ (rtl_ok _ _ Hl) Hv)) as E.
  rewrite (rtl_view _ _ Hl) in E by done. simpl in E. rewrite length_fmap in E. lia.
Qed.

Definition rslice (s : kst) (p : nat) : Z := rt_time_slice (t_rt (tasks s p)).

(** The state of a task that the RR tick reads, but for its slice. *)
Definition rr_data (s : kst) (p : nat) : Z * Z * Z :=
  (t_policy (tasks s p), rr_fifo_trace (tasks s p), t_pid (tasks s p)).

Lemma watchdog_rt_holds p s :
  calm s (watchdog_rt p s) /\ rr_data (watchdog_rt p s) p = rr_data s p /\
  rslice (watchdog_rt p s) p = rslice s p /\ klog (watchdog_rt p s) = klog s.
Proof.
  unfold watchdog_rt. cbv zeta. destruct (negb _); [|by split; [apply calm_refl|]].
  set (s1 := upd_rt p _ s).
  assert (calm s s1) as Hc by (by apply calm_upd_task).
  assert (rr_data s1 p = rr_data s p /\ rslice s1 p = rslice s p /\ klog s1 = klog s) as (E1 & E2 & E3).
  { unfold s1, rr_data, rslice, upd_rt. by rewrite tasks_upd_eq. }
  clearbody s1. destruct (_ <? _).
  - split; [apply (calm_trans _ s1); [done|by apply calm_upd_task]|].
    rewrite <- E1, <- E2. unfold rr_data, rslice. rewrite !tasks_upd_eq. done.
  - done.
Qed.

Lemma update_curr_rt_data p s : flat_sys s ->
  rr_data (update_curr_rt s) p = rr_data s p /\ rslice (update_curr_rt s) p = rslice s p /\
  klog (update_curr_rt s) = klog s.
Proof.
  intros Hfs. pose proof (update_curr_rt_quiet s Hfs) as Hq.
  unfold rr_data, rslice. rewrite (qu_task _ _ Hq p). split; [done|]. split; [done|apply Hq].
Qed.

(** The trace line of a tick. *)
Definition tick_line (s : kst) (p : nat) : list klog_line :=
  if rr_fifo_trace (tasks s p) =? 1 then
    if t_policy (tasks s p) =? SCHED_RR then [RR_tracing (t_pid (tasks s p)) (rslice s p)]
    else [FIFO_tracing (t_pid (tasks s p))]
  else [].

Lemma upd_rt_slice p f s :
  rslice (upd_rt p (fun e => e <| rt_time_slice ::= f |>) s) p = f (rslice s p) /\
  calm s (upd_rt p (fun e => e <| rt_time_slice ::= f |>) s).
Proof. split; [unfold rslice, upd_rt; by rewrite tasks_upd_eq|by apply calm_upd_task]. Qed.

Lemma tick_requeue_holds p s qs : rt_rep s qs -> flat_sys s -> in_range (tprio s p) ->
  p ∈ qs (tprio s p) ->
  let s' := tick_requeue rt_depth (Some (TaskSe p)) p s in
  rslice s' p = rslice s p /\ klog s' = klog s /\
  if (2 <=? length (qs (tprio s p)))%nat
  then rt_rep s' (qs_tail (tprio s p) p qs) /\ need_resched (tasks s' p) = true
  else s' = s.
Proof.
  intros Hr Hfs Hi Hp. cbv zeta. unfold rt_depth. pose proof depth_pos.
  destruct cgroup_depth as [|n] eqn:En; [lia|]. cbn [tick_requeue]. cbv zeta. cbn [rt_node rt_ent].
  rewrite (rtl_company _ qs p (tprio s p)) by (done || apply Hr).
  destruct (2 <=? length (qs (tprio s p)))%nat.
  - destruct (requeue_holds p s qs Hr Hfs Hi Hp) as [E Hr']. rewrite E in *.
    unfold rslice, set_tsk_need_resched. rewrite !tasks_upd_eq. split; [done|]. split; [done|].
    split; [|done]. eapply rep_calm; [|exact Hr']. by apply calm_upd_task.
  - destruct (proj2 Hfs p) as (-> & _). by destruct n.
Qed.
End operations.

(** * Properties *)

Section properties.
Context {KT : KTypes} {KE : KEnv} {KL : KEnvLaws} {NL : KListLaws node}.
Implicit Types (s : kst) (p : nat) (qs : Z -> list nat).

(** What the real-time class has to offer: the first of the highest priority that
    is queued; or nothing, when it is throttled or its queues are empty. *)
Definition rt_choice s qs p : Prop :=
  rt_rq_throttled root_task_group s = false /\
  (exists q, in_range (t_prio (tasks s p)) /\ qs (t_prio (tasks s p)) = p :: q) /\
  (forall j, 0 <= j < t_prio (tasks s p) -> qs j = []).
Definition rt_nothing s qs : Prop :=
  rt_rq_throttled root_task_group s = true \/ forall i, in_range i -> qs i = [].

Lemma pick_rt_holds s qs :
  rt_rep s qs -> flat_sys s ->
  match pick_next_task_rt s with
  | Some (Some p, s') => rt_choice s qs p /\ exec_start (t_se (tasks s' p)) = clock_task (rq s)
  | Some (None, s') => s' = s /\ rt_nothing s qs
  | None => False
  end.
Proof.
  unfold rt_choice, rt_nothing. intros Hr Hfs. unfold pick_next_task_rt, _pick_next_task_rt.
  destruct (c_true (rt_nr_running (rt_rqs s root_task_group))) eqn:Ec; cbn [negb].
  2: { split; [done|]. right. intros i Hi. apply c_true_false in Ec. rewrite (rr_count _ _ Hr) in Ec.
       apply (total_zero nr_prios); [lia|].
       unfold in_range, nr_prios, MAX_RT_PRIO, MAX_USER_RT_PRIO in *. lia. }
  destruct (rt_rq_throttled root_task_group s) eqn:Et; [by split; [|left]|].
  apply c_true_iff in Ec. rewrite (rr_count _ _ Hr) in Ec.
  destruct (total_pos nr_prios qs) as (k & Hk & Hne); [lia|].
  destruct (bitmap_first _ _ (rr_bitmap _ _ Hr)) as (H1 & H2 & H3 & H4).
  assert (in_range k) as Hk' by (unfold in_range, nr_prios, MAX_RT_PRIO, MAX_USER_RT_PRIO in *; lia).
  specialize (H4 k Hk' Hne). set (i := sched_find_first_bit _) in *.
  assert (in_range i) as Hi by (unfold in_range in *; lia).
  destruct (qs i) as [|p q] eqn:Eq; [by exfalso; apply H3; [unfold in_range in Hi; lia|]|].
  destruct (rr_flat _ _ Hr p i Hi) as [Hp Hfp]; [rewrite Eq; by left|].
  assert (pick_rt_loop rt_depth root_task_group s = Some p) as ->.
  { unfold rt_depth. pose proof depth_pos. destruct cgroup_depth as [|n]; [lia|].
    cbn [pick_rt_loop]. unfold pick_next_rt_entity. fold i.
    rewrite (proj2 (Z.leb_gt _ _)) by (unfold in_range in Hi; lia).
    rewrite list_next_spec by apply Hr. rewrite (rtl_view _ _ (rr_linked _ _ Hr)), Eq by done.
    simpl. unfold group_rt_rq. simpl. destruct Hfp as (_ & _ & ->). done. }
  rewrite Hp. split; [split; [done|split; [by exists q|done]]|].
  unfold upd_se. by rewrite tasks_upd_eq.
Qed.

(** enqueueing and dequeueing a real-time task keep the priority array
    consistent (queues, bitmap, highest_prio and counter agree, see rt_rep) and
    change exactly the queue of the task's priority: the task is added at the
    head or the tail, or removed wherever it stands. *)
Theorem rt_enqueue_dequeue p flags s qs :
  rt_rep s qs -> flat_sys s -> in_range (t_prio (tasks s p)) ->
  (absent p qs -> Z.of_nat (total nr_prios qs) + 1 < 2 ^ 32 ->
   rt_rep (enqueue_task_rt p flags s)
     (fun j => if j =? t_prio (tasks s p)
               then if has_flag flags ENQUEUE_HEAD then p :: qs j else qs j ++ [p] else qs j) /\
   nr_running (rq (enqueue_task_rt p flags s)) = u32 (nr_running (rq s) + 1)) /\
  (p ∈ qs (t_prio (tasks s p)) ->
   rt_rep (dequeue_task_rt p flags s) (fun j => without p (qs j)) /\
   nr_running (rq (dequeue_task_rt p flags s)) = u32 (nr_running (rq s) - 1)).
Proof.
  intros Hr Hfs Hi. split.
  - intros Ha Hn. by destruct (enqueue_task_rt_holds p flags s qs Hr Hfs Hi Ha Hn) as (? & _ & ? & _).
  - intros Hp. by destruct (dequeue_task_rt_holds p flags s qs Hr Hfs Hi Hp) as (? & _ & ? & _).
Qed.

(** pick_next_task_rt() returns a task of the highest priority that is
    queued, the one that has waited longest among its equals, and starts its
    accounting; it returns NULL exactly when no task is queued or the run queue
    is throttled, so the BUG_ON() on an empty bitmap is never reached. *)
Theorem pick_next_task_rt_spec s qs :
  rt_rep s qs -> flat_sys s ->
  match pick_next_task_rt s with
  | Some (Some p, s') => rt_choice s qs p /\ exec_start (t_se (tasks s' p)) = clock_task (rq s)
  | Some (None, s') => s' = s /\ rt_nothing s qs
  | None => False
  end.
Proof. apply pick_rt_holds. Qed.

(** the tick of a queued real-time task.  A FIFO task keeps its place and
    its slice whatever the tick; an RR task loses a tick, and when it was the
    last one the slice is refilled and, if other tasks share its priority, the
    task moves behind them and is marked for rescheduling.  A traced task logs
    the slice found before the tick. *)
Theorem task_tick_rt_spec p queued s qs :
  rt_rep s qs -> flat_sys s -> in_range (t_prio (tasks s p)) -> p ∈ qs (t_prio (tasks s p)) ->
  1 <= rslice s p < 2 ^ 32 ->
  let s' := task_tick_rt p queued s in
  klog s' = klog s ++ tick_line s p /\
  if negb (t_policy (tasks s p) =? SCHED_RR) then rslice s' p = rslice s p /\ rt_rep s' qs
  else if rslice s p =? 1 then
    rslice s' p = RR_TIMESLICE /\
    if (2 <=? length (qs (t_prio (tasks s p))))%nat
    then rt_rep s' (qs_tail (t_prio (tasks s p)) p qs) /\ need_resched (tasks s' p) = true
    else rt_rep s' qs
  else rslice s' p = rslice s p - 1 /\ rt_rep s' qs.
Proof.
  intros Hr Hfs Hi Hp Hs. cbv zeta. unfold task_tick_rt. cbv zeta.
  destruct (update_curr_rt_data p s Hfs) as (U1 & U2 & U3).
  destruct (watchdog_rt_holds p (update_curr_rt s)) as (W0 & W1 & W2 & W3).
  set (s1 := watchdog_rt p (update_curr_rt s)) in *.
  assert (calm s s1) as Hc by (by apply (calm_trans _ _ _ (quiet_calm _ _ (update_curr_rt_quiet s Hfs)))).
  rewrite U1 in W1. rewrite U2 in W2. rewrite U3 in W3. injection W1 as E1 E2 E3.
  pose proof (rep_calm _ _ _ Hc Hr) as Hr1. pose proof (calm_flat_sys _ _ Hc Hfs) as Hfs1.
  assert (tprio s1 p = t_prio (tasks s p)) as Hpr by apply (ca_task _ _ Hc p).
  clearbody s1. unfold tick_line. rewrite E1, E2.
  destruct (t_policy (tasks s p) =? SCHED_RR); cbn [negb].
  2: { destruct (rr_fifo_trace (tasks s p) =? 1).
       - split; [simpl; by rewrite W3, E3|]. split; [exact W2|]. by destruct Hr1; split.
       - rewrite app_nil_r. done. }
  set (s2 := if rr_fifo_trace (tasks s p) =? 1 then _ else s1).
  assert (klog s2 = klog s ++ (if rr_fifo_trace (tasks s p) =? 1
            then [RR_tracing (t_pid (tasks s p)) (rslice s p)] else []) /\
          calm s1 s2 /\ rslice s2 p = rslice s p) as (K1 & K2 & K3).
  { unfold s2. destruct (rr_fifo_trace (tasks s p) =? 1).
    - rewrite <- W2 at 2. split; [simpl; by rewrite W3, E3, <- W2|]. split; [by split|done].
    - rewrite app_nil_r. split; [done|]. split; [apply calm_refl|done]. }
  clearbody s2. destruct (upd_rt_slice p (fun n => u32 (n - 1)) s2) as [Hsl Hc3].
  set (s3 := upd_rt p _ s2) in *. rewrite K3, u32_small in Hsl by lia.
  change (rt_time_slice (t_rt (tasks s3 p))) with (rslice s3 p). rewrite Hsl.
  change (klog s2) with (klog s3) in K1.
  pose proof (calm_trans _ _ _ K2 Hc3) as Hc13. clearbody s3.
  destruct (Z.eqb_spec (rslice s p) 1) as [E|E].
  2: { rewrite (proj2 (c_true_iff _)) by lia. split; [done|]. split; [done|]. by apply (rep_calm s1). }
  rewrite E, Z.sub_diag, c_true_0.
  set (s4 := upd_rt p _ s3). destruct (upd_rt_slice p (fun _ => RR_TIMESLICE) s3) as [Hsl4 Hc4].
  pose proof (calm_trans _ _ _ Hc13 Hc4) as Hc14. fold s4 in Hsl4, Hc14.
  assert (tprio s4 p = t_prio (tasks s p)) as Hpr4.
  { unfold tprio. destruct (ca_task _ _ Hc14 p) as [-> _]. exact Hpr. }
  destruct (tick_requeue_holds p s4 qs) as (T1 & T2 & T3);
    [by apply (rep_calm s1)|by apply (calm_flat_sys s1)|by rewrite Hpr4|by rewrite Hpr4|].
  rewrite Hpr4 in T3. split; [rewrite T2; change (klog s4) with (klog s3); by rewrite K1, E|].
  split; [by rewrite T1|]. destruct (2 <=? length (qs (t_prio (tasks s p))))%nat; [done|].
  rewrite T3. by apply (rep_calm s1).
Qed.

Lemma rt_replenish_holds tg overrun s :
  let r := rt_rqs s tg in
  0 <= rt_time r < 2 ^ 64 -> 0 <= overrun * rt_runtime r < 2 ^ 64 -> 0 <= rt_runtime r ->
  let '(idle, _, s') := rt_replenish tg overrun s in
  let time' := Z.max 0 (rt_time r - overrun * rt_runtime r) in
  rt_time (rt_rqs s' tg) = time' /\
  rt_throttled (rt_rqs s' tg) =
    (if c_true (rt_time r) && (c_true (rt_throttled r) && (time' <? rt_runtime r)) then 0
     else rt_throttled r) /\
  (idle = true -> time' = 0 /\ rt_nr_running r = 0).
Proof.
  intros r Ht Ho Hrt. unfold rt_replenish. cbv zeta. fold r.
  destruct (c_true (rt_time r)) eqn:Et.
  2: { apply c_true_false in Et. rewrite Et.
       destruct (c_true (rt_nr_running r)) eqn:En; [split; [unfold r in *; lia|done]|].
       apply c_true_false in En. split; [unfold r in *; lia|]. split; [done|]. intros _. split; [lia|done]. }
  rewrite (u64_small (overrun * rt_runtime r)) by lia.
  set (s1 := upd_rt_rq tg _ s). set (t' := Z.max 0 (rt_time r - overrun * rt_runtime r)).
  assert (rt_rqs s1 tg = r <| rt_time := t' |>) as E1.
  { unfold s1. rewrite rt_rqs_upd_eq. fold r. cbn [setf].
    replace (u64 (rt_time r - Z.min (rt_time r) (overrun * rt_runtime r))) with t'; [done|].
    rewrite u64_small; unfold t'; lia. }
  rewrite E1. cbn [setf rt_throttled rt_time rt_nr_running andb].
  destruct (c_true (rt_throttled r) && (t' <? rt_runtime r)).
  - set (s2 := if _ && _ then _ else _). assert (rt_rqs s2 tg = (rt_rqs s1 tg) <| rt_throttled := 0 |>) as ->.
    { unfold s2. destruct (_ && _); cbn [rt_rqs setf]; by rewrite rt_rqs_upd_eq. }
    rewrite E1. cbn [setf rt_throttled rt_time rt_nr_running].
    split; [done|]. split; [done|]. rewrite negb_orb, andb_true_iff, !negb_true_iff, !c_true_false. done.
  - rewrite E1. cbn [setf rt_throttled rt_time rt_nr_running].
    split; [done|]. split; [done|]. rewrite negb_orb, andb_true_iff, !negb_true_iff, !c_true_false. done.
Qed.

(** the replenishment of a group's run time.  Each elapsed period pays back
    the group's runtime, never below zero, and lifts the throttling exactly
    when the remaining debt is below one period's runtime; the timer may stop
    only when the group owes nothing and queues nothing, or bandwidth control is
    off for it and it is not throttled. *)
Theorem do_sched_rt_period_timer_spec tg overrun s :
  let r := rt_rqs s tg in
  0 <= rt_time r < 2 ^ 64 -> 0 <= overrun * rt_runtime r < 2 ^ 64 -> 0 <= rt_runtime r ->
  let '(idle, s') := do_sched_rt_period_timer tg overrun s in
  let time' := Z.max 0 (rt_time r - overrun * rt_runtime r) in
  rt_time (rt_rqs s' tg) = time' /\
  rt_throttled (rt_rqs s' tg) =
    (if c_true (rt_time r) && (c_true (rt_throttled r) && (time' <? rt_runtime r)) then 0
     else rt_throttled r) /\
  (idle = true ->
    time' = 0 /\ rt_nr_running r = 0 \/
    rt_throttled (rt_rqs s' tg) = 0 /\
    (rt_bandwidth_enabled s' = false \/ rtb_runtime (tg_rt_bandwidth (tgs s' tg)) = RUNTIME_INF)).
Proof.
  intros r Ht Ho Hrt. pose proof (rt_replenish_holds tg overrun s Ht Ho Hrt) as H.
  unfold do_sched_rt_period_timer. cbv zeta. destruct (rt_replenish tg overrun s) as [[idle enq] s1].
  cbv zeta in H. fold r in H. destruct H as (H1 & H2 & H3).
  set (s2 := if enq : bool then _ else s1).
  assert (bw_fields (rt_rqs s2 tg) = bw_fields (rt_rqs s1 tg)) as E.
  { unfold s2. destruct enq; [apply top_rq_enqueue|done]. }
  injection E as _ E1 E2 _. rewrite <- E1 in H1. rewrite <- E2 in H2 |- *.
  destruct (negb (c_true (rt_throttled (rt_rqs s2 tg))) && _) eqn:Eb.
  - split; [done|]. split; [done|]. intros _. right.
    apply andb_true_iff in Eb as [Ea Eb]. apply negb_true_iff, c_true_false in Ea. split; [done|].
    apply orb_true_iff in Eb as [Eb|Eb]; [left; by apply negb_true_iff in Eb|right; by apply Z.eqb_eq in Eb].
  - split; [done|]. split; [done|]. intros Hi. left. by apply H3.
Qed.

(** the throttling decision.  A run queue with bandwidth control that is
    over its runtime and whose group has some runtime is throttled, unless a
    priority-boosted task is queued on it; a group without any runtime has its
    time reset instead; in every other case nothing changes. *)
Theorem sched_rt_runtime_exceeded_spec g s :
  rt_throttled (rt_rqs s g) = 0 ->
  let over := (sched_rt_runtime g s <? sched_rt_period g s) &&
              negb (sched_rt_runtime g s =? RUNTIME_INF) &&
              (sched_rt_runtime g s <? rt_time (rt_rqs s g)) in
  let '(exceeded, s') := sched_rt_runtime_exceeded g s in
  if over then
    if c_true (rtb_runtime (rt_bandwidth_of g s)) then
      rt_throttled (rt_rqs s' g) = 1 /\ rt_time (rt_rqs s' g) = rt_time (rt_rqs s g) /\
      exceeded = negb (c_true (rt_nr_boosted (rt_rqs s g)))
    else rt_throttled (rt_rqs s' g) = 0 /\ rt_time (rt_rqs s' g) = 0 /\ exceeded = false
  else s' = s /\ exceeded = false.
Proof.
  intros Ht. cbv zeta. unfold sched_rt_runtime_exceeded. cbv zeta. rewrite Ht, c_true_0.
  rewrite (Z.leb_antisym (sched_rt_runtime g s)).
  destruct (sched_rt_runtime g s <? sched_rt_period g s); [|done].
  destruct (sched_rt_runtime g s =? RUNTIME_INF); [done|]. cbn [negb andb].
  destruct (sched_rt_runtime g s <? rt_time (rt_rqs s g)); [|done].
  destruct (c_true (rtb_runtime (rt_bandwidth_of g s))).
  - set (s1 := upd_rt_rq g _ s).
    assert (rt_rqs s1 g = (rt_rqs s g) <| rt_throttled := 1 |>) as E1 by (unfold s1; by rewrite rt_rqs_upd_eq).
    unfold rt_rq_throttled. rewrite E1. cbn [setf rt_throttled rt_nr_boosted]. cbn [c_true Z.eqb negb andb].
    destruct (c_true (rt_nr_boosted (rt_rqs s g))); cbn [negb].
    + by rewrite E1.
    + destruct (top_rq_dequeue g s1) as [T _]. specialize (T g). rewrite E1 in T.
      injection T as _ T1 T2 _. by rewrite T1, T2.
  - set (s1 := upd_rt_rq g _ s).
    assert (rt_rqs s1 g = (rt_rqs s g) <| rt_time := 0 |>) as E1 by (unfold s1; by rewrite rt_rqs_upd_eq).
    unfold rt_rq_throttled. rewrite E1. cbn [setf rt_throttled rt_nr_boosted]. rewrite Ht, c_true_0.
    cbn [andb]. rewrite E1. done.
Qed.
End properties.

(** * Instances

    Two RR tasks of priority 98 and a FIFO task of priority 50. *)

Import Demo RingLists.

Definition rt_task_of (prio policy slice : Z) : task_struct :=
  task0 <| t_prio := prio |> <| t_normal_prio := prio |> <| t_policy := policy |>
    <| t_class := rt_class |> <| rr_fifo_trace := 1 |> <| t_rt := mkRtSe 0 slice 1 None 0 None |>.

Definition rt0 : kst :=
  set_task 1 (rt_task_of 98 SCHED_RR 1)
    (set_task 2 (rt_task_of 98 SCHED_RR 5) (set_task 3 (rt_task_of 50 SCHED_FIFO 0) idle_state)).

Lemma flat_set_task p t s : rt_parent (t_rt t) = None -> rt_on (t_rt t) = root_task_group ->
  rt_my_q (t_rt t) = None -> flat_sys s -> flat_sys (set_task p t s).
Proof.
  intros H1 H2 H3 [Hg Hf]. split; [done|]. intros p'. unfold flat, set_task.
  destruct (decide (p' = p)) as [->|?]; [by rewrite tasks_upd_eq|rewrite tasks_upd_ne by done].
  apply Hf.
Qed.

Lemma rt0_flat : flat_sys rt0.
Proof. unfold rt0. repeat (apply flat_set_task; [done..|]). by split. Qed.

Definition no_queues : Z -> list nat := fun _ => [].

Lemma bitmap_empty : bitmap_ok (2 ^ MAX_RT_PRIO) no_queues.
Proof.
  split; [vm_compute; discriminate|done|]. intros i Hi.
  rewrite Z.pow2_bits_false by (unfold in_range in Hi; lia). done.
Qed.

Lemma rt0_rep : rt_rep rt0 no_queues.
Proof.
  split; [|by intros ? ? _ ?%not_elem_of_nil|exact bitmap_empty|reflexivity|reflexivity|reflexivity].
  split; [apply unlinked_ok|done|done|by intros ? ? ? _ _ ?%not_elem_of_nil].
Qed.

Definition rt1 : kst := enqueue_task_rt 1 0 rt0.
Definition rt3 : kst := enqueue_task_rt 3 0 (enqueue_task_rt 2 0 rt1).
Definition qs1 : Z -> list nat := qs_add false 98 1 no_queues.
Definition qs3 : Z -> list nat := qs_add false 50 3 (qs_add false 98 2 qs1).

(** Membership in the queues of a concrete array. *)
Ltac absent_tac := intros ? _; unfold qs1, qs_add, no_queues; bcase; simpl;
  rewrite ?elem_of_app, ?elem_of_cons, ?elem_of_nil; lia.

Lemma rt1_rep : rt_rep rt1 qs1 /\ flat_sys rt1 /\ forall p, tprio rt1 p = tprio rt0 p.
Proof.
  destruct (enqueue_task_rt_holds 1 0 rt0 no_queues rt0_rep rt0_flat) as (A & B & _ & C & _);
    [vm_compute; split; congruence|by intros ? _ ?%not_elem_of_nil|reflexivity|].
  split; [exact A|]. split; [exact B|exact C].
Qed.

Lemma rt3_rep : rt_rep rt3 qs3 /\ flat_sys rt3.
Proof.
  destruct rt1_rep as (A1 & B1 & C1). assert (tprio rt1 2 = 98) as E2 by (by rewrite C1).
  destruct (enqueue_task_rt_holds 2 0 rt1 qs1 A1 B1) as (A2 & B2 & _ & C2 & _);
    [rewrite E2; vm_compute; split; congruence|absent_tac|reflexivity|].
  rewrite E2 in A2. set (rt2 := enqueue_task_rt 2 0 rt1) in *.
  assert (tprio rt2 3 = 50) as E3 by (by rewrite C2, C1).
  destruct (enqueue_task_rt_holds 3 0 rt2 _ A2 B2) as (A3 & B3 & _);
    [rewrite E3; vm_compute; split; congruence|absent_tac|reflexivity|].
  rewrite E3 in A3. split; [exact A3|exact B3].
Qed.

Lemma rt_enqueue_dequeue_witness :
  rt_rep (dequeue_task_rt 3 0 rt3) (fun j => without 3%nat (qs3 j)).
Proof.
  destruct rt3_rep as [A B].
  apply (rt_enqueue_dequeue 3 0 rt3 qs3 A B); [vm_compute; split; congruence|].
  apply (bool_decide_unpack _). vm_compute. exact I.
Defined.

Lemma qs3_first k p q : qs3 k = p :: q -> (forall j, 0 <= j < k -> qs3 j = []) -> p = 3%nat.
Proof.
  intros E Hlow. destruct (Z.lt_ge_cases 50 k) as [H|H]; [specialize (Hlow 50 ltac:(lia)); discriminate Hlow|].
  revert E. unfold qs3, qs1, qs_add, no_queues. bcase; [..|]; try lia; simpl; congruence.
Qed.

Lemma pick_next_task_rt_spec_witness : fst <$> pick_next_task_rt rt3 = Some (Some 3%nat).
Proof.
  pose proof (pick_next_task_rt_spec rt3 qs3 (proj1 rt3_rep) (proj2 rt3_rep)) as H.
  destruct (pick_next_task_rt rt3) as [[[p|] s']|]; simpl; [| |destruct H].
  - destruct H as ((_ & (q & _ & E) & Hlow) & _). do 2 f_equal. exact (qs3_first _ _ _ E Hlow).
  - destruct H as [_ [H|H]]; [vm_compute in H; discriminate H|].
    specialize (H 50 ltac:(split; vm_compute; congruence)). discriminate H.
Defined.

Lemma task_tick_rt_spec_witness :
  let s' := task_tick_rt 1 0 rt3 in
  rt_rep s' (qs_tail 98 1 qs3) /\ need_resched (tasks s' 1%nat) = true /\ rslice s' 1 = 10.
Proof.
  assert (t_prio (tasks rt3 1%nat) = 98) as E1 by (vm_compute; reflexivity).
  assert (rslice rt3 1 = 1) as E2 by (vm_compute; reflexivity).
  assert (t_policy (tasks rt3 1%nat) = SCHED_RR) as E3 by (vm_compute; reflexivity).
  pose proof (task_tick_rt_spec 1 0 rt3 qs3 (proj1 rt3_rep) (proj2 rt3_rep)) as H.
  rewrite E1, E2, E3 in H. destruct H as (_ & E & A & B);
    [vm_compute; split; congruence|apply (bool_decide_unpack _); vm_compute; exact I
    |vm_compute; split; congruence|].
  cbv zeta. split; [exact A|]. split; [exact B|]. rewrite E. reflexivity.
Defined.

Lemma do_sched_rt_period_timer_spec_witness :
  let s := upd_rt_rq 0 (fun r => r <| rt_time := 1900000000 |> <| rt_throttled := 1 |>) rt3 in
  rt_time (rt_rqs (do_sched_rt_period_timer 0 1 s).2 0%nat) = 950000000.
Proof.
  intros s. pose proof (do_sched_rt_period_timer_spec 0 1 s) as H.
  destruct (do_sched_rt_period_timer 0 1 s) as [i s']. destruct H as (E & _);
    [vm_compute; split; congruence|vm_compute; split; congruence|vm_compute; congruence|].
  simpl. rewrite E. reflexivity.
Defined.

Lemma sched_rt_runtime_exceeded_spec_witness :
  let s := upd_rt_rq 0 (fun r => r <| rt_time := 960000000 |>) rt0 in
  rt_throttled (rt_rqs (sched_rt_runtime_exceeded 0 s).2 0%nat) = 1.
Proof.
  intros s. pose proof (sched_rt_runtime_exceeded_spec 0 s) as H.
  destruct (sched_rt_runtime_exceeded 0 s) as [e s']. apply H. reflexivity.
Defined.
