(* ===== verification/LoadAvg.v ===== *)
(** Load averages: the calc_load and cpu_load part of kernel/sched/core.c,
    tickless kernel (CONFIG_NO_HZ), with the fixed-point constants of
    include/linux/sched.h.

    All arithmetic is that of the 32-bit [long]; the theorems state the range
    in which no intermediate product overflows. *)

From S2P Require Import Prelude KList Sched Cpuacct Demo.

Definition FSHIFT := 11.
Definition FIXED_1 := Z.shiftl 1 FSHIFT.
Definition EXP_1 := 1884.
Definition EXP_5 := 2014.
Definition EXP_15 := 2037.

(** linux/jiffies.h: time_before() *)
Definition time_before (a b : Z) : bool := s32 (u32 (a - b)) <? 0.

(** calc_load() *)
Definition calc_load (load exp active : Z) : Z :=
  let load := u32 (load * exp) in
  let load := u32 (load + u32 (active * u32 (FIXED_1 - exp))) in
  let load := u32 (load + Z.shiftl 1 (FSHIFT - 1)) in
  Z.shiftr load FSHIFT.

(** fixed_power_int(): the [for (;;)] loop; a 32-bit [n] is exhausted after 32
    rounds *)
Fixpoint fixed_power_loop (fuel : nat) (x frac_bits n result : Z) : Z :=
  match fuel with
  | O => result
  | S fuel =>
      let result :=
        if c_true (Z.land n 1) then
          Z.shiftr (u32 (u32 (result * x) + Z.shiftl 1 (frac_bits - 1))) frac_bits
        else result in
      let n := Z.shiftr n 1 in
      if negb (c_true n) then result
      else
        let x := Z.shiftr (u32 (u32 (x * x) + Z.shiftl 1 (frac_bits - 1))) frac_bits in
        fixed_power_loop fuel x frac_bits n result
  end.
Definition fixed_power_int (x frac_bits n : Z) : Z :=
  let result := Z.shiftl 1 frac_bits in
  if c_true n then fixed_power_loop 32 x frac_bits n result else result.

(** calc_load_n() *)
Definition calc_load_n (load exp active n : Z) : Z :=
  calc_load load (fixed_power_int exp FSHIFT n) active.

(** decay_load_missed() with its tables *)
Definition CPU_LOAD_IDX_MAX := 5%nat.
Definition DEGRADE_SHIFT := 7.
Definition degrade_zero_ticks : list Z := [0; 8; 32; 64; 128].
Definition degrade_factor : list (list Z) :=
  [[0; 0; 0; 0; 0; 0; 0; 0];
   [64; 32; 8; 0; 0; 0; 0; 0];
   [96; 72; 40; 12; 1; 0; 0; 0];
   [112; 98; 75; 43; 15; 1; 0; 0];
   [120; 112; 98; 76; 45; 16; 2; 0]].
Definition degrade (idx j : nat) : Z := nth j (nth idx degrade_factor []) 0.

Fixpoint decay_loop (fuel : nat) (load missed : Z) (idx j : nat) : Z :=
  match fuel with
  | O => load
  | S fuel =>
      if negb (c_true missed) then load
      else
        let load := if c_true (missed mod 2)
                    then Z.shiftr (u32 (load * degrade idx j)) DEGRADE_SHIFT else load in
        decay_loop fuel load (Z.shiftr missed 1) idx (S j)
  end.
Definition decay_load_missed (load missed_updates : Z) (idx : nat) : Z :=
  if negb (c_true missed_updates) then load
  else if nth idx degrade_zero_ticks 0 <=? missed_updates then 0
  else if (idx =? 1)%nat then Z.shiftr load missed_updates
  else decay_loop 32 load missed_updates idx 0.

Section loadavg.
Context {KT : KTypes} {KE : KEnv}.

Definition LOAD_FREQ : Z := 5 * HZ + 1.

(** get_avenrun() *)
Definition get_avenrun (offset shift : Z) (s : kst) : list Z :=
  map (fun a => u32 (Z.shiftl (u32 (a + offset)) shift)) (avenrun (loadavg s)).

(** calc_load_fold_active() *)
Definition calc_load_fold_active (s : kst) : Z * kst :=
  let nr_active := s32 (nr_running (rq s)) in
  let nr_active := s32 (nr_active + s32 (nr_uninterruptible (rq s))) in
  if negb (nr_active =? calc_load_active (rq s)) then
    let delta := s32 (nr_active - calc_load_active (rq s)) in
    (delta, s <| rq ::= fun r => r <| calc_load_active := nr_active |> |>)
  else (0, s).

(** calc_load_write_idx(), calc_load_read_idx() *)
Definition calc_load_write_idx (s : kst) : nat :=
  let idx := calc_load_idx (loadavg s) in
  let idx := if negb (time_before (jiffies s) (calc_load_update (loadavg s)))
             then s32 (idx + 1) else idx in
  Z.to_nat (Z.land idx 1).
Definition calc_load_read_idx (s : kst) : nat :=
  Z.to_nat (Z.land (calc_load_idx (loadavg s)) 1).

(** calc_load_enter_idle(), calc_load_exit_idle() *)
Definition calc_load_enter_idle (s : kst) : kst :=
  let '(delta, s) := calc_load_fold_active s in
  if c_true delta then
    let idx := calc_load_write_idx s in
    s <| loadavg ::= fun l => l <| calc_load_idle ::= alter (fun d => s32 (d + delta)) idx |> |>
  else s.
Definition calc_load_exit_idle (s : kst) : kst :=
  if time_before (jiffies s) (rq_calc_load_update (rq s)) then s
  else
    let upd := calc_load_update (loadavg s) in
    let s := s <| rq ::= fun r => r <| rq_calc_load_update := upd |> |> in
    if time_before (jiffies s) (u32 (rq_calc_load_update (rq s) + 10))
    then s <| rq ::= fun r => r <| rq_calc_load_update ::= fun u => u32 (u + LOAD_FREQ) |> |>
    else s.

(** calc_load_fold_idle() *)
Definition calc_load_fold_idle (s : kst) : Z * kst :=
  let idx := calc_load_read_idx s in
  let d := nth idx (calc_load_idle (loadavg s)) 0 in
  if c_true d
  then (d, s <| loadavg ::= fun l => l <| calc_load_idle ::= <[idx := 0]> |> |>)
  else (0, s).

(** The update of the three averages. *)
Definition update_avenrun (f : Z -> Z -> Z) (l : list Z) : list Z :=
  match l with
  | [a0; a1; a2] => [f a0 EXP_1; f a1 EXP_5; f a2 EXP_15]
  | _ => l
  end.

(** calc_global_nohz() *)
Definition calc_global_nohz (s : kst) : kst :=
  let upd := calc_load_update (loadavg s) in
  let s :=
    if negb (time_before (jiffies s) (u32 (upd + 10))) then
      let delta := s32 (u32 (jiffies s - upd - 10)) in
      let n := 1 + delta ÷ LOAD_FREQ in
      let active := calc_load_tasks (loadavg s) in
      let active := if 0 <? active then s32 (active * FIXED_1) else 0 in
      let s := s <| loadavg ::= fun l => l <| avenrun ::=
                 update_avenrun (fun a e => calc_load_n a e (u32 active) (u32 n)) |> |> in
      s <| loadavg ::= fun l => l <| calc_load_update ::= fun u => u32 (u + n * LOAD_FREQ) |> |>
    else s in
  s <| loadavg ::= fun l => l <| calc_load_idx ::= fun i => s32 (i + 1) |> |>.

(** calc_global_load() *)
Definition calc_global_load (ticks : Z) (s : kst) : kst :=
  if time_before (jiffies s) (u32 (calc_load_update (loadavg s) + 10)) then s
  else
    let '(delta, s) := calc_load_fold_idle s in
    let s := if c_true delta
             then s <| loadavg ::= fun l => l <| calc_load_tasks ::= fun t => s32 (t + delta) |> |>
             else s in
    let active := calc_load_tasks (loadavg s) in
    let active := if 0 <? active then s32 (active * FIXED_1) else 0 in
    let s := s <| loadavg ::= fun l => l <| avenrun ::=
               update_avenrun (fun a e => calc_load a e (u32 active)) |> |> in
    let s := s <| loadavg ::= fun l => l <| calc_load_update ::= fun u => u32 (u + LOAD_FREQ) |> |> in
    calc_global_nohz s.

(** calc_load_account_active() *)
Definition calc_load_account_active (s : kst) : kst :=
  if time_before (jiffies s) (rq_calc_load_update (rq s)) then s
  else
    let '(delta, s) := calc_load_fold_active s in
    let s := if c_true delta
             then s <| loadavg ::= fun l => l <| calc_load_tasks ::= fun t => s32 (t + delta) |> |>
             else s in
    s <| rq ::= fun r => r <| rq_calc_load_update ::= fun u => u32 (u + LOAD_FREQ) |> |>.

(** update_cpu_load(): one iteration of its loop, for [cpu_load[i]] *)
Definition cpu_load_step (this_load pending : Z) (i : nat) (old : Z) : Z :=
  let scale := Z.shiftl 1 (Z.of_nat i) in
  let old_load := decay_load_missed old (u32 (pending - 1)) i in
  let new_load := this_load in
  let new_load := if old_load <? new_load then u32 (new_load + (scale - 1)) else new_load in
  Z.shiftr (u32 (u32 (old_load * (scale - 1)) + new_load)) (Z.of_nat i).
Fixpoint cpu_load_loop (this_load pending : Z) (i : nat) (l : list Z) : list Z :=
  match l with
  | [] => []
  | old :: l => cpu_load_step this_load pending i old :: cpu_load_loop this_load pending (S i) l
  end.
Definition update_cpu_load (s : kst) : kst :=
  let this_load := weight (rq_load (rq s)) in
  let curr_jiffies := jiffies s in
  let s := s <| rq ::= fun r => r <| nr_load_updates ::= fun n => u32 (n + 1) |> |> in
  if curr_jiffies =? last_load_update_tick (rq s) then s
  else
    let pending_updates := u32 (curr_jiffies - last_load_update_tick (rq s)) in
    let s := s <| rq ::= fun r => r <| last_load_update_tick := curr_jiffies |> |> in
    s <| rq ::= fun r => r <| cpu_load ::= fun l =>
      match l with
      | [] => []
      | _ :: l => this_load :: cpu_load_loop this_load pending_updates 1 l
      end |> |>.

(** update_cpu_load_active() *)
Definition update_cpu_load_active (s : kst) : kst :=
  let s := update_cpu_load s in
  calc_load_account_active s.

(** nr_running(), nr_uninterruptible(), nr_context_switches(), nr_iowait(),
    this_cpu_load(): the sums over one processor *)
Definition nr_running_sum (s : kst) : Z := u32 (nr_running (rq s)).
Definition nr_uninterruptible_sum (s : kst) : Z :=
  let sum := u32 (nr_uninterruptible (rq s)) in
  if s32 sum <? 0 then 0 else sum.
Definition nr_context_switches (s : kst) : Z := u64 (nr_switches (rq s)).
Definition nr_iowait_sum (s : kst) : Z := u32 (nr_iowait (rq s)).
Definition this_cpu_load (s : kst) : Z := nth 0 (cpu_load (rq s)) 0.
End loadavg.
