(* ===== verification/LoadSpec.v ===== *)
(** Properties of the load averages (LoadAvg.v): the averages stay between
    their old value and the current load, missed ticks only decay, the
    per-processor load moves strictly towards the current one, and no task is
    lost or counted twice between the run queue, the idle deltas and the global
    count. *)

From S2P Require Import Prelude KList Sched Cpuacct Demo LoadAvg.

(** * Fixed-point averages *)

Lemma calc_load_eq load exp active :
  0 <= exp <= FIXED_1 -> 0 <= load < 2 ^ 21 -> 0 <= active < 2 ^ 21 ->
  calc_load load exp active = (load * exp + active * (FIXED_1 - exp) + 1024) / FIXED_1.
Proof.
  intros He Hl Ha. unfold calc_load. change FIXED_1 with 2048 in *. change (Z.shiftl 1 (FSHIFT - 1)) with 1024.
  rewrite Z.shiftr_div_pow2 by done. change (2 ^ FSHIFT) with 2048.
  assert (0 <= load * exp <= load * 2048) by nia.
  assert (load * exp + active * (2048 - exp) <= (2 ^ 21 - 1) * 2048).
  { transitivity ((2 ^ 21 - 1) * exp + (2 ^ 21 - 1) * (2048 - exp)); nia. }
  assert (0 <= active * (2048 - exp)) by nia.
  rewrite (u32_small (load * exp)), (u32_small (2048 - exp)), (u32_small (active * (2048 - exp))) by lia.
  rewrite (u32_small (load * exp + _)) by lia. by rewrite u32_small by lia.
Qed.

Lemma calc_load_hull load exp active :
  0 <= exp <= FIXED_1 -> 0 <= load < 2 ^ 21 -> 0 <= active < 2 ^ 21 ->
  Z.min load active <= calc_load load exp active <= Z.max load active.
Proof.
  intros He Hl Ha. rewrite calc_load_eq by done. change FIXED_1 with 2048 in *. split.
  - apply Z.div_le_lower_bound; [lia|]. destruct (Z.min_spec load active) as [[? ->]|[? ->]]; nia.
  - apply Z.lt_succ_r, Z.div_lt_upper_bound; [lia|].
    destruct (Z.max_spec load active) as [[? ->]|[? ->]]; nia.
Qed.

Lemma fixed_mul_range x y : 0 <= x <= FIXED_1 -> 0 <= y <= FIXED_1 ->
  0 <= Z.shiftr (u32 (u32 (x * y) + Z.shiftl 1 (FSHIFT - 1))) FSHIFT <= FIXED_1.
Proof.
  intros Hx Hy. change FIXED_1 with 2048 in *. change (Z.shiftl 1 (FSHIFT - 1)) with 1024.
  rewrite Z.shiftr_div_pow2 by done. change (2 ^ FSHIFT) with 2048.
  assert (0 <= x * y <= 2048 * 2048) by nia.
  rewrite (u32_small (x * y)), u32_small by lia. split.
  - apply Z.div_pos; lia.
  - apply Z.lt_succ_r, Z.div_lt_upper_bound; lia.
Qed.

Lemma fixed_power_loop_range fuel x n r : 0 <= x <= FIXED_1 -> 0 <= r <= FIXED_1 ->
  0 <= fixed_power_loop fuel x FSHIFT n r <= FIXED_1.
Proof.
  revert x n r. induction fuel as [|fuel IH]; intros x n r Hx Hr; cbn [fixed_power_loop]; [done|].
  set (r' := if c_true (Z.land n 1) then _ else r).
  assert (0 <= r' <= FIXED_1) by (unfold r'; destruct (c_true _); [by apply fixed_mul_range|done]).
  destruct (negb _); [done|]. apply IH; [by apply fixed_mul_range|done].
Qed.

Lemma fixed_power_range x n : 0 <= x <= FIXED_1 -> 0 <= fixed_power_int x FSHIFT n <= FIXED_1.
Proof.
  intros Hx. unfold fixed_power_int. destruct (c_true n).
  - apply fixed_power_loop_range; [done|vm_compute; split; congruence].
  - vm_compute; split; congruence.
Qed.

(** The 32 rounds allowed are enough for every 32-bit exponent. *)
Lemma fixed_power_loop_fuel fuel k x b n r : 0 < n < 2 ^ Z.of_nat fuel ->
  fixed_power_loop (fuel + k) x b n r = fixed_power_loop fuel x b n r.
Proof.
  revert x n r. induction fuel as [|fuel IH]; intros x n r Hn; [simpl in Hn; lia|].
  cbn [fixed_power_loop Nat.add]. destruct (negb (c_true (Z.shiftr n 1))) eqn:E; [done|].
  apply negb_false_iff, c_true_iff in E. rewrite Z.shiftr_div_pow2 in * by done.
  apply IH. rewrite Z.shiftr_div_pow2 by done. change (2 ^ 1) with 2 in *. rewrite Nat2Z.inj_succ, Z.pow_succ_r in Hn by lia.
  split; [pose proof (Z.div_pos n 2 ltac:(lia) ltac:(lia)); lia|]. apply Z.div_lt_upper_bound; lia.
Qed.

(** * Decay over missed ticks *)

Definition degrade_ok : bool :=
  forallb (fun row => forallb (fun f => (0 <=? f) && (f <=? 128)) row) degrade_factor.

Lemma degrade_range idx j : 0 <= degrade idx j <= 128.
Proof.
  assert (degrade_ok = true) as H by reflexivity. unfold degrade.
  destruct (le_lt_dec (length degrade_factor) idx) as [Hi|Hi].
  { rewrite (nth_overflow degrade_factor) by done. destruct j; simpl; lia. }
  unfold degrade_ok in H. rewrite forallb_forall in H. specialize (H _ (nth_In _ [] Hi)).
  destruct (le_lt_dec (length (nth idx degrade_factor [])) j) as [Hj|Hj].
  { rewrite (nth_overflow (nth idx degrade_factor [])) by done. lia. }
  rewrite forallb_forall in H. specialize (H _ (nth_In _ 0 Hj)). lia.
Qed.

Lemma decay_loop_range fuel load missed idx j : 0 <= load < 2 ^ 25 ->
  0 <= decay_loop fuel load missed idx j <= load.
Proof.
  revert load missed j. induction fuel as [|fuel IH]; intros load missed j Hl; cbn [decay_loop]; [lia|].
  destruct (negb _); [lia|].
  set (l' := if c_true (missed mod 2) then _ else load).
  assert (0 <= l' <= load) as Hl'.
  { unfold l'. destruct (c_true _); [|lia]. pose proof (degrade_range idx j).
    rewrite u32_small by nia. rewrite Z.shiftr_div_pow2 by done. change (2 ^ DEGRADE_SHIFT) with 128.
    split; [apply Z.div_pos; nia|apply Z.div_le_upper_bound; nia]. }
  specialize (IH l' (Z.shiftr missed 1) (S j)). lia.
Qed.

Lemma decay_range load missed idx : 0 <= load < 2 ^ 25 -> 0 <= missed ->
  0 <= decay_load_missed load missed idx <= load.
Proof.
  intros Hl Hm. unfold decay_load_missed. destruct (negb _); [lia|].
  destruct (_ <=? _); [lia|]. destruct (_ =? _)%nat; [|by apply decay_loop_range].
  rewrite Z.shiftr_div_pow2 by done. assert (0 < 2 ^ missed) by (by apply Z.pow_pos_nonneg).
  split; [apply Z.div_pos; lia|apply Z.div_le_upper_bound; nia].
Qed.

Lemma step_scale i : (1 <= i <= 4)%nat -> Z.shiftl 1 (Z.of_nat i) = 2 ^ Z.of_nat i /\ 2 <= 2 ^ Z.of_nat i <= 16.
Proof. intros Hi. rewrite Z.shiftl_1_l. split; [done|]. destruct i as [|[|[|[|[|?]]]]]; try lia; simpl; lia. Qed.

(** The average without the rounding: [o] is the decayed old load. *)
Lemma cpu_load_avg i this o : (1 <= i <= 4)%nat -> 0 <= this < 2 ^ 25 -> 0 <= o < 2 ^ 25 ->
  let scale := 2 ^ Z.of_nat i in
  let up := if o <? this then u32 (this + (scale - 1)) else this in
  let r := Z.shiftr (u32 (u32 (o * (scale - 1)) + up)) (Z.of_nat i) in
  Z.min o this <= r <= Z.max o this /\ (o < this -> o < r) /\ (this < o -> r < o).
Proof.
  intros Hi Ht Ho scale up r. destruct (step_scale i Hi) as [_ Hs]. fold scale in Hs.
  assert (up = if o <? this then this + (scale - 1) else this) as Eup.
  { unfold up. destruct (o <? this); [|done]. rewrite u32_small; lia. }
  assert (r = (o * (scale - 1) + up) / scale) as ->.
  { unfold r. rewrite Z.shiftr_div_pow2 by lia. fold scale. clearbody up. subst up.
    rewrite (u32_small (o * (scale - 1))) by nia. rewrite u32_small; [done|].
    destruct (o <? this); nia. }
  rewrite Eup. destruct (Z.ltb_spec o this) as [H|H].
  - split; [|split; [intros _|lia]].
    + split; [apply Z.div_le_lower_bound; nia|apply Z.lt_succ_r, Z.div_lt_upper_bound; nia].
    + apply Z.lt_le_trans with (o + 1); [lia|]. apply Z.div_le_lower_bound; nia.
  - split; [|split; [lia|]].
    + split; [apply Z.div_le_lower_bound; nia|apply Z.lt_succ_r, Z.div_lt_upper_bound; nia].
    + intros Hlt. apply Z.div_lt_upper_bound; nia.
Qed.

(** * Conservation of the global count *)

Section conservation.
Context {KT : KTypes} {KE : KEnv}.
Implicit Types (s : kst).

(** The number of active tasks of the run queue. *)
Definition rq_active (s : kst) : Z :=
  s32 (s32 (nr_running (rq s)) + s32 (nr_uninterruptible (rq s))).

(** Everything folded out of the run queue is in the global count or in one of
    the two idle deltas. *)
Definition load_conserved (s : kst) : Prop :=
  exists d0 d1, calc_load_idle (loadavg s) = [d0; d1] /\
    s32 (calc_load_tasks (loadavg s) + d0 + d1) = calc_load_active (rq s).

Inductive load_event :=
  | LAccount                                  (* the tick: calc_load_account_active() *)
  | LEnterIdle | LExitIdle
  | LGlobal (ticks : Z)                       (* the timer: calc_global_load() *)
  | LEnv (running uninterruptible now : Z).   (* tasks come and go, time passes *)

Definition load_exec (e : load_event) (s : kst) : kst :=
  match e with
  | LAccount => calc_load_account_active s
  | LEnterIdle => calc_load_enter_idle s
  | LExitIdle => calc_load_exit_idle s
  | LGlobal ticks => calc_global_load ticks s
  | LEnv r u now => s <| rq ::= fun q => q <| nr_running := r |> <| nr_uninterruptible := u |> |>
                      <| jiffies := now |>
  end.

Lemma fold_active_holds s :
  let '(delta, s') := calc_load_fold_active s in
  loadavg s' = loadavg s /\ jiffies s' = jiffies s /\
  calc_load_active (rq s') = rq_active s /\
  s32 (calc_load_active (rq s) + delta) = rq_active s \/
  delta = 0 /\ s' = s /\ calc_load_active (rq s) = rq_active s.
Proof.
  unfold calc_load_fold_active. cbv zeta. fold (rq_active s).
  destruct (Z.eqb_spec (rq_active s) (calc_load_active (rq s))) as [E|E]; cbn [negb].
  - by right.
  - left. split; [done|]. split; [done|]. split; [done|].
    rewrite Z.add_comm, s32_add_l. replace (rq_active s - calc_load_active (rq s) + calc_load_active (rq s))
      with (rq_active s) by lia. apply s32_s32.
Qed.

Lemma s32_fold t d a a' : s32 t = a -> s32 (a + d) = a' -> s32 (t + d) = a'.
Proof. intros <- <-. by rewrite s32_add_l. Qed.

Lemma land_1 i : Z.land i 1 = 0 \/ Z.land i 1 = 1.
Proof.
  assert (Z.land i 1 = i mod 2) as -> by (apply (Z.land_ones i 1); lia).
  pose proof (Z.mod_pos_bound i 2 ltac:(lia)). lia.
Qed.

Lemma account_conserved s : load_conserved s -> load_conserved (calc_load_account_active s).
Proof.
  intros (d0 & d1 & Ei & Et). unfold calc_load_account_active.
  destruct (time_before _ _); [by exists d0, d1|].
  pose proof (fold_active_holds s) as H. destruct (calc_load_fold_active s) as [delta s'].
  destruct H as [(El & _ & Ea & Ed)|(-> & -> & _)]; [|by exists d0, d1].
  destruct (c_true delta) eqn:Ec.
  - exists d0, d1. cbn [loadavg setf calc_load_idle calc_load_tasks rq calc_load_active]. rewrite El, Ea.
    split; [done|]. rewrite <- Z.add_assoc, s32_add_l.
    replace (calc_load_tasks (loadavg s) + delta + (d0 + d1))
      with (calc_load_tasks (loadavg s) + d0 + d1 + delta) by lia. by apply (s32_fold _ _ _ _ Et).
  - apply c_true_false in Ec. subst delta. rewrite Z.add_0_r in Ed. exists d0, d1.
    cbn [loadavg setf rq calc_load_active]. rewrite El, Ea. split; [done|].
    rewrite <- Ed, <- Et. by rewrite s32_s32.
Qed.

Lemma enter_idle_conserved s : load_conserved s -> load_conserved (calc_load_enter_idle s).
Proof.
  intros (d0 & d1 & Ei & Et). unfold calc_load_enter_idle.
  pose proof (fold_active_holds s) as H. destruct (calc_load_fold_active s) as [delta s'].
  destruct H as [(El & _ & Ea & Ed)|(-> & -> & _)]; [|by exists d0, d1].
  destruct (c_true delta) eqn:Ec.
  - unfold calc_load_write_idx. set (i := if negb _ then _ else _).
    unfold load_conserved. cbn [loadavg setf calc_load_idle calc_load_tasks rq calc_load_active]. rewrite El, Ea, Ei.
    destruct (land_1 i) as [-> | ->]; [exists (s32 (d0 + delta)), d1|exists d0, (s32 (d1 + delta))];
      (split; [done|]).
    + replace (calc_load_tasks (loadavg s) + s32 (d0 + delta) + d1)
        with (s32 (d0 + delta) + (calc_load_tasks (loadavg s) + d1)) by lia. rewrite s32_add_l.
      replace (d0 + delta + (calc_load_tasks (loadavg s) + d1))
        with (calc_load_tasks (loadavg s) + d0 + d1 + delta) by lia. by apply (s32_fold _ _ _ _ Et).
    + replace (calc_load_tasks (loadavg s) + d0 + s32 (d1 + delta))
        with (s32 (d1 + delta) + (calc_load_tasks (loadavg s) + d0)) by lia. rewrite s32_add_l.
      replace (d1 + delta + (calc_load_tasks (loadavg s) + d0))
        with (calc_load_tasks (loadavg s) + d0 + d1 + delta) by lia. by apply (s32_fold _ _ _ _ Et).
  - apply c_true_false in Ec. subst delta. rewrite Z.add_0_r in Ed. exists d0, d1. rewrite El, Ea.
    split; [done|]. rewrite <- Ed, <- Et. by rewrite s32_s32.
Qed.

Lemma nohz_conserved s : load_conserved s -> load_conserved (calc_global_nohz s).
Proof. intros (d0 & d1 & Ei & Et). exists d0, d1. unfold calc_global_nohz. cbv zeta. by destruct (negb _). Qed.

Lemma fold_idle_holds s d0 d1 : calc_load_idle (loadavg s) = [d0; d1] ->
  let '(delta, s') := calc_load_fold_idle s in
  calc_load_tasks (loadavg s') = calc_load_tasks (loadavg s) /\ rq s' = rq s /\
  exists e0 e1, calc_load_idle (loadavg s') = [e0; e1] /\ delta + e0 + e1 = d0 + d1.
Proof.
  intros Ei. unfold calc_load_fold_idle, calc_load_read_idx. cbv zeta. rewrite Ei.
  destruct (land_1 (calc_load_idx (loadavg s))) as [-> | ->];
    [change (nth (Z.to_nat 0) [d0; d1] 0) with d0|change (nth (Z.to_nat 1) [d0; d1] 0) with d1];
    (match goal with |- context [c_true ?d] => destruct (c_true d) end;
     (split; [done|]; split; [done|])).
  - exists 0, d1. cbn [loadavg setf calc_load_idle]. rewrite Ei. split; [done|lia].
  - exists d0, d1. split; [done|lia].
  - exists d0, 0. cbn [loadavg setf calc_load_idle]. rewrite Ei. split; [done|lia].
  - exists d0, d1. split; [done|lia].
Qed.

Lemma global_conserved ticks s : load_conserved s -> load_conserved (calc_global_load ticks s).
Proof.
  intros (d0 & d1 & Ei & Et). unfold calc_global_load. destruct (time_before _ _); [by exists d0, d1|].
  pose proof (fold_idle_holds s d0 d1 Ei) as H. destruct (calc_load_fold_idle s) as [delta s'].
  destruct H as (E1 & E2 & e0 & e1 & E3 & E4). cbv zeta. apply nohz_conserved.
  exists e0, e1. destruct (c_true delta) eqn:Ec;
    cbn [loadavg setf calc_load_idle calc_load_tasks rq]; rewrite E1, E2; (split; [done|]).
  - rewrite <- Et, <- Z.add_assoc, s32_add_l. f_equal. lia.
  - apply c_true_false in Ec. rewrite <- Et. f_equal. lia.
Qed.

Lemma load_exec_conserved e s : load_conserved s -> load_conserved (load_exec e s).
Proof.
  destruct e; simpl; [apply account_conserved|apply enter_idle_conserved| |apply global_conserved|done].
  intros (d0 & d1 & Ei & Et). exists d0, d1. unfold calc_load_exit_idle.
  destruct (time_before _ _); [done|]. cbv zeta. by destruct (time_before _ _).
Qed.
End conservation.

(** * Properties *)

Section properties.
Context {KT : KTypes} {KE : KEnv}.
Implicit Types (s : kst).

(** A load average never leaves the interval between its old value and the
    current load, whatever the number of missed periods it is caught up with;
    the 32-bit products do not overflow as long as fewer than 1024 tasks are
    active. *)
Theorem calc_load_between load exp active n :
  0 <= exp <= FIXED_1 -> 0 <= load < 2 ^ 21 -> 0 <= active < 2 ^ 21 ->
  Z.min load active <= calc_load load exp active <= Z.max load active /\
  Z.min load active <= calc_load_n load exp active n <= Z.max load active.
Proof.
  intros He Hl Ha. split; [by apply calc_load_hull|]. unfold calc_load_n.
  apply calc_load_hull; [|done|done]. by apply fixed_power_range.
Qed.

(** update_cpu_load() stores the current load in cpu_load[0]; the longer
    averages stay between zero and the larger of the old value and the current
    load, and when a single tick has passed they strictly approach the current
    load, so an average never gets stuck (rounding up while the load rises). *)
Theorem update_cpu_load_spec s l0 ls :
  let this := weight (rq_load (rq s)) in
  cpu_load (rq s) = l0 :: ls -> length ls = 4%nat ->
  Forall (fun l => 0 <= l < 2 ^ 25) ls -> 0 <= this < 2 ^ 25 ->
  jiffies s <> last_load_update_tick (rq s) ->
  let s' := update_cpu_load s in
  exists ls', cpu_load (rq s') = this :: ls' /\
    Forall2 (fun l l' => 0 <= l' <= Z.max l this) ls ls' /\
    (u32 (jiffies s - last_load_update_tick (rq s)) = 1 ->
     Forall2 (fun l l' => (l < this -> l < l' <= this) /\ (this < l -> this <= l' < l) /\
                          (l = this -> l' = this)) ls ls').
Proof.
  intros this El Hlen Hr Ht Hj s'. unfold s', update_cpu_load. cbv zeta. fold this.
  cbn [rq setf last_load_update_tick]. rewrite (proj2 (Z.eqb_neq _ _) Hj).
  cbn [rq setf cpu_load]. rewrite El. set (pending := u32 (jiffies s - last_load_update_tick (rq s))).
  exists (cpu_load_loop this pending 1 ls). split; [done|].
  assert (forall i ls, (1 <= i)%nat -> (i + length ls <= 5)%nat -> Forall (fun l => 0 <= l < 2 ^ 25) ls ->
    Forall2 (fun l l' => 0 <= l' <= Z.max l this) ls (cpu_load_loop this pending i ls) /\
    (pending = 1 -> Forall2 (fun l l' => (l < this -> l < l' <= this) /\
       (this < l -> this <= l' < l) /\ (l = this -> l' = this)) ls (cpu_load_loop this pending i ls)))
    as H; [|apply H; [lia|lia|done]].
  clear El Hlen Hr l0 ls. intros i ls. revert i. induction ls as [|l ls IH]; intros i Hi Hn Hr;
    cbn [cpu_load_loop]; [split; constructor|].
  apply Forall_cons in Hr as [Hl Hr]. cbn [length] in Hn.
  destruct (IH (S i)) as [IH1 IH2]; [lia|lia|done|].
  destruct (step_scale i ltac:(lia)) as [Es _].
  pose proof (u32_range (pending - 1)) as Hp.
  pose proof (decay_range l (u32 (pending - 1)) i Hl ltac:(lia)) as Hd.
  destruct (cpu_load_avg i this (decay_load_missed l (u32 (pending - 1)) i)) as (A & B & C); [lia|done|lia|].
  rewrite <- Es in A, B, C.
  split.
  - constructor; [|done]. unfold cpu_load_step. cbv zeta. lia.
  - intros E1. constructor; [|by apply IH2]. unfold cpu_load_step. cbv zeta. rewrite E1 in *.
    assert (decay_load_missed l (u32 (1 - 1)) i = l) as Ed by reflexivity. rewrite Ed in *. lia.
Qed.

(** conservation of the load count.  Whatever the order of ticks, idle
    entries and exits, global updates and changes of the run queue, the tasks
    folded out of the run queue are exactly those in the global count and the
    two idle deltas; after a tick inside its window these add up to the
    run queue's active tasks. *)
Theorem calc_load_count_conserved (es : list load_event) s :
  load_conserved s ->
  let s' := fold_left (fun s e => load_exec e s) es s in
  load_conserved s' /\
  (time_before (jiffies s') (rq_calc_load_update (rq s')) = false ->
   calc_load_active (rq (calc_load_account_active s')) = rq_active s').
Proof.
  intros Hc. cbv zeta. revert s Hc. induction es as [|e es IH]; intros s Hc; cbn [fold_left].
  - split; [done|]. intros Hw. unfold calc_load_account_active. rewrite Hw.
    pose proof (fold_active_holds s) as H. destruct (calc_load_fold_active s) as [d s'].
    destruct H as [(_ & _ & Ea & _)|(-> & -> & Ea)]; cbv zeta; [by destruct (c_true d)|done].
  - apply IH. by apply load_exec_conserved.
Qed.
End properties.

(** * Instances *)

Import Demo.

Lemma calc_load_between_witness : 1000 <= calc_load_n 1000 EXP_5 6144 70000 <= 6144.
Proof. apply (calc_load_between 1000 EXP_5 6144 70000); vm_compute; split; congruence. Defined.

Definition load_state : kst :=
  idle_state <| rq ::= fun r => r <| rq_load := mkLw 1024 0 |> <| cpu_load := [0; 0; 512; 2048; 1024] |> |>
             <| jiffies := 1 |>.

Lemma update_cpu_load_spec_witness :
  exists ls', cpu_load (rq (update_cpu_load load_state)) = 1024 :: ls' /\
    Forall2 (fun l l' => 0 <= l' <= Z.max l 1024) [0; 512; 2048; 1024] ls'.
Proof.
  destruct (update_cpu_load_spec load_state 0 [0; 512; 2048; 1024]) as (ls' & E & F & _);
    [reflexivity|reflexivity|repeat constructor; vm_compute; congruence
    |vm_compute; split; congruence|vm_compute; congruence|].
  exists ls'. split; [exact E|exact F].
Defined.

Lemma calc_load_count_conserved_witness :
  load_conserved (fold_left (fun s e => load_exec e s)
    [LEnv 3 1 0; LAccount; LEnv 2 0 4; LEnterIdle; LEnv 5 2 11; LGlobal 1; LExitIdle] load_state).
Proof. apply (calc_load_count_conserved _ load_state). by exists 0, 0. Defined.
