(* ===== verification/Core.v ===== *)
(** The scheduler core: kernel/sched/core.c, uniprocessor build.

    Task activation, wake-up, fork, the tick, __schedule() with its choice of
    the next task over the five classes, and the system calls that change or
    read a task's policy.  The classes are the [class_ops] records [rt_ops] and
    [ras_ops] of Rt.v and Ras.v and the members [stop_ops], [fair_ops] and
    [idle_ops] of [CoreEnv], which stand for stop_task.c, fair.c and
    idle_task.c.  [CoreLaws] states what the core relies on of them.

    A switch of context is the end of one task's call of __schedule() and the
    continuation of another's; on the state of the processor it is one step, so
    [__schedule] runs to the point where the next task leaves the function. *)

From S2P Require Import Prelude KList Sched Cpuacct Demo Ras Rt LoadAvg.

(** linux/preempt.h *)
Definition PREEMPT_ACTIVE := 0x40000000.

Definition WEIGHT_IDLEPRIO := 3.
Definition WMULT_IDLEPRIO := 1431655765.
Definition prio_to_weight : list Z :=
  [88761; 71755; 56483; 46273; 36291; 29154; 23254; 18705; 14949; 11916;
   9548; 7620; 6100; 4904; 3906; 3121; 2501; 1991; 1586; 1277;
   1024; 820; 655; 526; 423; 335; 272; 215; 172; 137;
   110; 87; 70; 56; 45; 36; 29; 23; 18; 15].
Definition prio_to_wmult : list Z :=
  [48388; 59856; 76040; 92818; 118348; 147320; 184698; 229616; 287308; 360437;
   449829; 563644; 704093; 875809; 1099582; 1376151; 1717300; 2157191; 2708050; 3363326;
   4194304; 5237765; 6557202; 8165337; 10153587; 12820798; 15790321; 19976592; 24970740; 31350126;
   39045157; 49367440; 61356676; 76695844; 95443717; 119304647; 148102320; 186737708; 238609294; 286331153].

Class CoreEnv `{KEnv} := {
  stop_ops : class_ops;
  fair_ops : class_ops;
  idle_ops : class_ops;
  sched_clock_tick : Ext -> Ext;
  sched_info_queued : nat -> Ext -> Ext;
  sched_info_dequeued : nat -> Ext -> Ext;
  sched_info_switch : nat -> nat -> Ext -> Ext;
  sched_info_reset : nat -> Ext -> Ext;
  wq_worker_waking_up : nat -> Ext -> Ext;
  wq_worker_sleeping : nat -> Ext -> option nat * Ext;
  switch_mm : option nat -> option nat -> nat -> Ext -> Ext;  (* enter_lazy_tlb(), switch_mm() *)
  mmdrop : nat -> Ext -> Ext;
  put_task_struct : nat -> Ext -> Ext;                        (* with kprobe_flush_task() *)
  blk_flush_plug : nat -> Ext -> Ext;
  rt_mutex_getprio : nat -> kst -> Z;
  rt_mutex_adjust_pi : nat -> kst -> kst;
  find_task_by_vpid : Z -> Ext -> option nat;
  capable : Z -> Ext -> bool;
  security_task_setscheduler : nat -> Ext -> Z;
  security_task_getscheduler : nat -> Ext -> Z;
  security_task_setnice : nat -> Z -> Ext -> Z;
  task_group_is_autogroup : nat -> Ext -> bool }.

Section core.
Context {KT : KTypes} {KE : KEnv} {CE : CoreEnv}.

Definition ops_of (c : sched_class) : class_ops :=
  match c with
  | stop_class => stop_ops
  | rt_class => rt_ops
  | ras_class => ras_ops
  | fair_class => fair_ops
  | idle_class => idle_ops
  end.
(** [p->sched_class] *)
Definition class_of (p : nat) (s : kst) : class_ops := ops_of (t_class (tasks s p)).

Definition upd_rq (f : rq_t -> rq_t) (s : kst) : kst := s <| rq ::= f |>.

(** update_rq_clock_task(), update_rq_clock() *)
Definition update_rq_clock_task (delta : Z) (s : kst) : kst :=
  upd_rq (fun r => r <| clock_task ::= fun c => u64 (c + delta) |>) s.
Definition update_rq_clock (s : kst) : kst :=
  if 0 <? skip_clock_update (rq s) then s
  else
    let delta := s64 (u64 (sched_clock_cpu (ext s) - clock (rq s))) in
    let s := upd_rq (fun r => r <| clock ::= fun c => u64 (c + delta) |>) s in
    update_rq_clock_task delta s.

(** set_load_weight() *)
Definition set_load_weight (p : nat) (s : kst) : kst :=
  let prio := Z.to_nat (t_static_prio (tasks s p) - MAX_RT_PRIO) in
  if t_policy (tasks s p) =? SCHED_IDLE
  then upd_se p (fun e => e <| se_load := mkLw WEIGHT_IDLEPRIO WMULT_IDLEPRIO |>) s
  else upd_se p (fun e => e <| se_load := mkLw (nth prio prio_to_weight 0) (nth prio prio_to_wmult 0) |>) s.

(** enqueue_task(), dequeue_task(), activate_task(), deactivate_task() *)
Definition enqueue_task (p : nat) (flags : Z) (s : kst) : kst :=
  let s := update_rq_clock s in
  let s := s <| ext ::= sched_info_queued p |> in
  enqueue_task_op (class_of p s) p flags s.
Definition dequeue_task (p : nat) (flags : Z) (s : kst) : kst :=
  let s := update_rq_clock s in
  let s := s <| ext ::= sched_info_dequeued p |> in
  dequeue_task_op (class_of p s) p flags s.
Definition activate_task (p : nat) (flags : Z) (s : kst) : kst :=
  let s := if task_contributes_to_load (tasks s p)
           then upd_rq (fun r => r <| nr_uninterruptible ::= fun n => u32 (n - 1) |>) s else s in
  enqueue_task p flags s.
Definition deactivate_task (p : nat) (flags : Z) (s : kst) : kst :=
  let s := if task_contributes_to_load (tasks s p)
           then upd_rq (fun r => r <| nr_uninterruptible ::= fun n => u32 (n + 1) |>) s else s in
  dequeue_task p flags s.

(** __normal_prio(), normal_prio(), effective_prio(), task_curr() *)
Definition __normal_prio (t : task_struct) : Z := t_static_prio t.
Definition normal_prio (t : task_struct) : Z :=
  if rt_policy (t_policy t) then s32 (u32 (MAX_RT_PRIO - 1 - t_rt_priority t)) else __normal_prio t.
Definition effective_prio (p : nat) (s : kst) : Z * kst :=
  let np := normal_prio (tasks s p) in
  let s := upd_task p (fun t => t <| t_normal_prio := np |>) s in
  if negb (rt_prio (t_prio (tasks s p))) then (t_normal_prio (tasks s p), s)
  else (t_prio (tasks s p), s).
Definition task_curr (p : nat) (s : kst) : bool := (curr s =? p)%nat.

(** check_class_changed() *)
Definition check_class_changed (p : nat) (prev_class : sched_class) (oldprio : Z) (s : kst) : kst :=
  if negb (bool_decide (prev_class = t_class (tasks s p))) then
    let s := match switched_from_op (ops_of prev_class) with
             | Some f => f p s
             | None => s
             end in
    switched_to_op (class_of p s) p s
  else if negb (oldprio =? t_prio (tasks s p)) then prio_changed_op (class_of p s) p oldprio s
  else s.

(** for_each_class(): the classes from the highest, [stop_sched_class], along
    [next].  There are five classes. *)
Fixpoint classes_from (fuel : nat) (c : option sched_class) : list sched_class :=
  match fuel, c with
  | S fuel, Some c => c :: classes_from fuel (next_class (ops_of c))
  | _, _ => []
  end.
Definition all_classes : list sched_class := classes_from 5 (Some stop_class).

(** check_preempt_curr() *)
Fixpoint preempt_loop (cs : list sched_class) (p : nat) (s : kst) : kst :=
  match cs with
  | [] => s
  | c :: cs =>
      if bool_decide (c = t_class (tasks s (curr s))) then s
      else if bool_decide (c = t_class (tasks s p)) then resched_task (curr s) s
      else preempt_loop cs p s
  end.
Definition check_preempt_curr (p : nat) (flags : Z) (s : kst) : kst :=
  let s := if bool_decide (t_class (tasks s p) = t_class (tasks s (curr s)))
           then check_preempt_curr_op (class_of (curr s) s) p flags s
           else preempt_loop all_classes p s in
  if c_true (t_on_rq (tasks s (curr s))) && test_tsk_need_resched s (curr s)
  then upd_rq (fun r => r <| skip_clock_update := 1 |>) s else s.

(** ** Wake-up *)

(** ttwu_stat() *)
Definition ttwu_stat (p : nat) (wake_flags : Z) (s : kst) : kst :=
  let s := upd_rq (fun r => r <| ttwu_count ::= fun n => u32 (n + 1) |>) s in
  let s := upd_se p (fun e => e <| statistics ::= fun st =>
             st <| nr_wakeups ::= fun n => u64 (n + 1) |> |>) s in
  if has_flag wake_flags WF_SYNC
  then upd_se p (fun e => e <| statistics ::= fun st =>
         st <| nr_wakeups_sync ::= fun n => u64 (n + 1) |> |>) s
  else s.

(** ttwu_activate(), ttwu_do_wakeup(), ttwu_do_activate(), ttwu_remote(),
    ttwu_queue() *)
Definition ttwu_activate (p : nat) (en_flags : Z) (s : kst) : kst :=
  let s := activate_task p en_flags s in
  let s := upd_task p (fun t => t <| t_on_rq := 1 |>) s in
  if has_flag (t_flags (tasks s p)) PF_WQ_WORKER
  then s <| ext ::= wq_worker_waking_up p |> else s.
Definition ttwu_do_wakeup (p : nat) (wake_flags : Z) (s : kst) : kst :=
  let s := check_preempt_curr p wake_flags s in
  upd_task p (fun t => t <| t_state := TASK_RUNNING |>) s.
Definition ttwu_do_activate (p : nat) (wake_flags : Z) (s : kst) : kst :=
  let s := ttwu_activate p (Z.lor ENQUEUE_WAKEUP ENQUEUE_WAKING) s in
  ttwu_do_wakeup p wake_flags s.
Definition ttwu_remote (p : nat) (wake_flags : Z) (s : kst) : bool * kst :=
  if c_true (t_on_rq (tasks s p)) then (true, ttwu_do_wakeup p wake_flags s) else (false, s).
Definition ttwu_queue (p : nat) (s : kst) : kst := ttwu_do_activate p 0 s.

(** try_to_wake_up() *)
Definition try_to_wake_up (p : nat) (state wake_flags : Z) (s : kst) : bool * kst :=
  if negb (has_flag (t_state (tasks s p)) state) then (false, s)
  else
    let '(remote, s) := ttwu_remote p wake_flags s in
    let s := if remote then s else ttwu_queue p s in
    (true, ttwu_stat p wake_flags s).

(** try_to_wake_up_local(), wake_up_process(), wake_up_state() *)
Definition try_to_wake_up_local (p : nat) (s : kst) : kst :=
  if (p =? curr s)%nat then s
  else if negb (has_flag (t_state (tasks s p)) TASK_NORMAL) then s
  else
    let s := if negb (c_true (t_on_rq (tasks s p))) then ttwu_activate p ENQUEUE_WAKEUP s else s in
    let s := ttwu_do_wakeup p 0 s in
    ttwu_stat p 0 s.
Definition wake_up_process (p : nat) (s : kst) : bool * kst := try_to_wake_up p TASK_NORMAL 0 s.
Definition wake_up_state (p : nat) (state : Z) (s : kst) : bool * kst := try_to_wake_up p state 0 s.

(** ** Fork *)

(** __sched_fork() *)
Definition zero_stats : sched_statistics := mkStats 0 0 0 0 0 0.
Definition __sched_fork (p : nat) (s : kst) : kst :=
  let s := upd_task p (fun t => t <| t_on_rq := 0 |>) s in
  let s := upd_se p (fun e => e <| se_on_rq := 0 |> <| exec_start := 0 |> <| sum_exec_runtime := 0 |>
             <| prev_sum_exec_runtime := 0 |> <| nr_migrations := 0 |> <| vruntime := 0 |>) s in
  let s := s <| links ::= INIT_LIST_HEAD (SeGroup p) |> in
  let s := upd_se p (fun e => e <| statistics := zero_stats |>) s in
  let s := s <| links ::= INIT_LIST_HEAD (RtTask p) |> in
  s <| links ::= INIT_LIST_HEAD (RasNode p) |>.

(** sched_fork(); set_task_cpu() does nothing on a uniprocessor *)
Definition sched_fork (p : nat) (s : kst) : kst :=
  let s := __sched_fork p s in
  let s := upd_task p (fun t => t <| t_state := TASK_RUNNING |>) s in
  let np := t_normal_prio (tasks s (curr s)) in
  let s := upd_task p (fun t => t <| t_prio := np |>) s in
  let s :=
    if c_true (sched_reset_on_fork (tasks s p)) then
      let s := if task_has_rt_policy s p then
                 upd_task p (fun t => t <| t_policy := SCHED_NORMAL |>
                   <| t_static_prio := NICE_TO_PRIO 0 |> <| t_rt_priority := 0 |>) s
               else if PRIO_TO_NICE (t_static_prio (tasks s p)) <? 0 then
                 upd_task p (fun t => t <| t_static_prio := NICE_TO_PRIO 0 |>) s
               else s in
      let np := __normal_prio (tasks s p) in
      let s := upd_task p (fun t => t <| t_normal_prio := np |> <| t_prio := np |>) s in
      let s := set_load_weight p s in
      upd_task p (fun t => t <| sched_reset_on_fork := 0 |>) s
    else s in
  let s := if negb (rt_prio (t_prio (tasks s p)))
           then upd_task p (fun t => t <| t_class := fair_class |>) s else s in
  let s := match task_fork_op (class_of p s) with Some f => f p s | None => s end in
  let s := s <| ext ::= sched_info_reset p |> in
  upd_task p (fun t => t <| preempt_count := 1 |>) s.

(** wake_up_new_task() *)
Definition wake_up_new_task (p : nat) (s : kst) : kst :=
  let s := activate_task p 0 s in
  let s := upd_task p (fun t => t <| t_on_rq := 1 |>) s in
  check_preempt_curr p WF_FORK s.

(** ** The tick and the scheduler *)

(** scheduler_tick() *)
Definition scheduler_tick (s : kst) : kst :=
  let c := curr s in
  let s := s <| ext ::= sched_clock_tick |> in
  let s := update_rq_clock s in
  let s := update_cpu_load_active s in
  task_tick_op (class_of c s) c 0 s.

(** schedule_debug() *)
Definition schedule_debug (prev : nat) (s : kst) : kst :=
  upd_rq (fun r => r <| sched_count ::= fun n => u32 (n + 1) |>) s.

(** put_prev_task(), pick_next_task(); [None] is the BUG(), or that of
    a class *)
Definition put_prev_task (prev : nat) (s : kst) : kst :=
  let s := if c_true (t_on_rq (tasks s prev)) || (skip_clock_update (rq s) <? 0)
           then update_rq_clock s else s in
  put_prev_task_op (class_of prev s) prev s.
Fixpoint pick_loop (cs : list sched_class) (s : kst) : option (nat * kst) :=
  match cs with
  | [] => None
  | c :: cs =>
      match pick_next_task_op (ops_of c) s with
      | None => None
      | Some (Some p, s) => Some (p, s)
      | Some (None, s) => pick_loop cs s
      end
  end.
Definition pick_next_task (s : kst) : option (nat * kst) :=
  if nr_running (rq s) =? cfs_h_nr_running (rq s) then
    match pick_next_task_op fair_ops s with
    | None => None
    | Some (Some p, s) => Some (p, s)
    | Some (None, s) => pick_loop all_classes s
    end
  else pick_loop all_classes s.

(** prepare_task_switch(), finish_task_switch(), context_switch() *)
Definition prepare_task_switch (prev next : nat) (s : kst) : kst :=
  s <| ext ::= sched_info_switch prev next |>.
Definition finish_task_switch (prev : nat) (s : kst) : kst :=
  let mm := rq_prev_mm (rq s) in
  let s := upd_rq (fun r => r <| rq_prev_mm := None |>) s in
  let prev_state := t_state (tasks s prev) in
  let s := match mm with Some mm => s <| ext ::= mmdrop mm |> | None => s end in
  if prev_state =? TASK_DEAD then s <| ext ::= put_task_struct prev |> else s.
Definition context_switch (prev next : nat) (s : kst) : kst :=
  let s := prepare_task_switch prev next s in
  let mm := t_mm (tasks s next) in
  let oldmm := t_active_mm (tasks s prev) in
  let s := match mm with
           | None => upd_task next (fun t => t <| t_active_mm := oldmm |>) s
           | Some _ => s
           end in
  let s := s <| ext ::= switch_mm oldmm mm next |> in
  let s := match t_mm (tasks s prev) with
           | None =>
               let s := upd_task prev (fun t => t <| t_active_mm := None |>) s in
               upd_rq (fun r => r <| rq_prev_mm := oldmm |>) s
           | Some _ => s
           end in
  finish_task_switch prev s.

(** schedule_tail(), the first thing a forked thread calls; set_child_tid is
    user memory *)
Definition schedule_tail (prev : nat) (s : kst) : kst := finish_task_switch prev s.

(** preempt_disable(), sched_preempt_enable_no_resched() of linux/preempt.h *)
Definition preempt_disable (s : kst) : kst :=
  upd_task (curr s) (fun t => t <| preempt_count ::= fun n => n + 1 |>) s.
Definition preempt_enable_no_resched (s : kst) : kst :=
  upd_task (curr s) (fun t => t <| preempt_count ::= fun n => n - 1 |>) s.

(** The part of __schedule() that takes a blocking task off the run queue; the
    result says which of [nvcsw] and [nivcsw] counts the switch. *)
Definition schedule_deactivate (prev : nat) (s : kst) : bool * kst :=
  if c_true (t_state (tasks s prev)) && negb (has_flag (preempt_count (tasks s prev)) PREEMPT_ACTIVE) then
    let s :=
      if signal_pending_state (t_state (tasks s prev)) (tasks s prev) then
        upd_task prev (fun t => t <| t_state := TASK_RUNNING |>) s
      else
        let s := deactivate_task prev DEQUEUE_SLEEP s in
        let s := upd_task prev (fun t => t <| t_on_rq := 0 |>) s in
        if has_flag (t_flags (tasks s prev)) PF_WQ_WORKER then
          let '(to_wakeup, e) := wq_worker_sleeping prev (ext s) in
          let s := s <| ext := e |> in
          match to_wakeup with Some p => try_to_wake_up_local p s | None => s end
        else s in
    (true, s)
  else (false, s).

(** From put_prev_task() to the switch, and one pass of __schedule() over the
    label [need_resched]; [None] is the BUG() of pick_next_task(). *)
Definition schedule_switch (prev : nat) (voluntary : bool) (s : kst) : option kst :=
  let s := put_prev_task prev s in
  match pick_next_task s with
  | None => None
  | Some (next, s) =>
      let s := clear_tsk_need_resched prev s in
      let s := upd_rq (fun r => r <| skip_clock_update := 0 |>) s in
      let s :=
        if negb (prev =? next)%nat then
          let s := upd_rq (fun r => r <| nr_switches ::= fun n => u64 (n + 1) |>) s in
          let s := upd_rq (fun r => r <| rq_curr := next |>) s in
          let s := if voluntary
                   then upd_task prev (fun t => t <| t_nvcsw ::= fun n => u32 (n + 1) |>) s
                   else upd_task prev (fun t => t <| t_nivcsw ::= fun n => u32 (n + 1) |>) s in
          context_switch prev next s
        else s in
      Some (preempt_enable_no_resched s)
  end.
Definition schedule_once (s : kst) : option kst :=
  let s := preempt_disable s in
  let prev := curr s in
  let s := schedule_debug prev s in
  let '(voluntary, s) := schedule_deactivate prev s in
  schedule_switch prev voluntary s.

(** __schedule(): passes until the running task need not reschedule; [None] is
    the BUG() or running out of fuel *)
Fixpoint __schedule (fuel : nat) (s : kst) : option kst :=
  match fuel with
  | O => None
  | S fuel =>
      match schedule_once s with
      | None => None
      | Some s => if test_tsk_need_resched s (curr s) then __schedule fuel s else Some s
      end
  end.

(** sched_submit_work(), schedule() *)
Definition sched_submit_work (p : nat) (s : kst) : kst :=
  if negb (c_true (t_state (tasks s p))) || pi_blocked (tasks s p) then s
  else s <| ext ::= blk_flush_plug p |>.
Definition schedule (fuel : nat) (s : kst) : option kst :=
  let s := sched_submit_work (curr s) s in
  __schedule fuel s.

(** preempt_schedule() and its twin preempt_schedule_irq(), up to the switch:
    PREEMPT_ACTIVE is taken back by the preempted task itself once it runs
    again, here when __schedule() kept it.  The loop ends when the running task
    need not reschedule, which holds when __schedule() returns. *)
Definition add_preempt_count (val : Z) (s : kst) : kst :=
  upd_task (curr s) (fun t => t <| preempt_count ::= fun n => n + val |>) s.
Definition sub_preempt_count (val : Z) (s : kst) : kst :=
  upd_task (curr s) (fun t => t <| preempt_count ::= fun n => n - val |>) s.
Definition preempt_schedule (fuel : nat) (irqs_disabled : bool) (s : kst) : option kst :=
  let ti := curr s in
  if c_true (preempt_count (tasks s ti)) || irqs_disabled then Some s
  else
    let s := add_preempt_count PREEMPT_ACTIVE s in
    match __schedule fuel s with
    | None => None
    | Some s => Some (if (curr s =? ti)%nat then sub_preempt_count PREEMPT_ACTIVE s else s)
    end.

(** ** Priorities and policies *)

(** rt_mutex_setprio(); [None] is the BUG_ON() *)
Definition rt_mutex_setprio (p : nat) (prio : Z) (s : kst) : option kst :=
  if (prio <? 0) || (MAX_PRIO <? prio) then None
  else if (p =? rq_idle (rq s))%nat then Some s
  else
    let oldprio := t_prio (tasks s p) in
    let prev_class := t_class (tasks s p) in
    let on_rq := c_true (t_on_rq (tasks s p)) in
    let running := task_current s p in
    let s := if on_rq then dequeue_task p 0 s else s in
    let s := if running then put_prev_task_op (class_of p s) p s else s in
    let s := if t_policy (tasks s p) =? SCHED_RAS
             then upd_task p (fun t => t <| t_class := ras_class |>) s
             else if rt_prio prio then upd_task p (fun t => t <| t_class := rt_class |>) s
             else upd_task p (fun t => t <| t_class := fair_class |>) s in
    let s := upd_task p (fun t => t <| t_prio := prio |>) s in
    let s := if running then set_curr_task_op (class_of p s) s else s in
    let s := if on_rq then enqueue_task p (if oldprio <? prio then ENQUEUE_HEAD else 0) s else s in
    Some (check_class_changed p prev_class oldprio s).

(** TASK_NICE(), task_nice(), task_prio() *)
Definition task_nice (t : task_struct) : Z := PRIO_TO_NICE (t_static_prio t).
Definition task_prio (t : task_struct) : Z := t_prio t - MAX_RT_PRIO.

(** set_user_nice() *)
Definition set_user_nice (p : nat) (nice : Z) (s : kst) : kst :=
  if (task_nice (tasks s p) =? nice) || (nice <? -20) || (19 <? nice) then s
  else if task_has_rt_policy s p then
    upd_task p (fun t => t <| t_static_prio := NICE_TO_PRIO nice |>) s
  else
    let on_rq := c_true (t_on_rq (tasks s p)) in
    let s := if on_rq then dequeue_task p 0 s else s in
    let s := upd_task p (fun t => t <| t_static_prio := NICE_TO_PRIO nice |>) s in
    let s := set_load_weight p s in
    let old_prio := t_prio (tasks s p) in
    let '(prio, s) := effective_prio p s in
    let s := upd_task p (fun t => t <| t_prio := prio |>) s in
    let delta := t_prio (tasks s p) - old_prio in
    if on_rq then
      let s := enqueue_task p 0 s in
      if (delta <? 0) || ((0 <? delta) && task_running s p) then resched_task (curr s) s else s
    else s.

(** can_nice(), sys_nice() *)
Definition can_nice (p : nat) (nice : Z) (s : kst) : bool :=
  let nice_rlim := u32 (20 - nice) in
  (nice_rlim <=? task_rlimit (tasks s p) RLIMIT_NICE) || capable CAP_SYS_NICE (ext s).
Definition sys_nice (increment : Z) (s : kst) : Z * kst :=
  let increment := if increment <? -40 then -40 else increment in
  let increment := if 40 <? increment then 40 else increment in
  let nice := task_nice (tasks s (curr s)) + increment in
  let nice := if nice <? -20 then -20 else nice in
  let nice := if 19 <? nice then 19 else nice in
  if (increment <? 0) && negb (can_nice (curr s) nice s) then (- EPERM, s)
  else
    let retval := security_task_setnice (curr s) nice (ext s) in
    if c_true retval then (retval, s)
    else (0, set_user_nice (curr s) nice s).

(** idle_cpu(), idle_task(), find_process_by_pid() *)
Definition idle_cpu (s : kst) : bool :=
  if negb (curr s =? rq_idle (rq s))%nat then false
  else if c_true (nr_running (rq s)) then false
  else true.
Definition idle_task (s : kst) : nat := rq_idle (rq s).
Definition find_process_by_pid (pid : Z) (s : kst) : option nat :=
  if c_true pid then find_task_by_vpid pid (ext s) else Some (curr s).

(** __setscheduler() *)
Definition __setscheduler (p : nat) (policy prio : Z) (s : kst) : kst :=
  let s := upd_task p (fun t => t <| t_policy := policy |>) s in
  let s := upd_task p (fun t => t <| t_rt_priority := prio |>) s in
  let np := normal_prio (tasks s p) in
  let s := upd_task p (fun t => t <| t_normal_prio := np |>) s in
  let pr := rt_mutex_getprio p s in
  let s := upd_task p (fun t => t <| t_prio := pr |>) s in
  let s := if policy =? SCHED_RAS then upd_task p (fun t => t <| t_class := ras_class |>) s
           else if rt_prio (t_prio (tasks s p)) then upd_task p (fun t => t <| t_class := rt_class |>) s
           else upd_task p (fun t => t <| t_class := fair_class |>) s in
  set_load_weight p s.

(** check_same_owner() *)
Definition check_same_owner (p : nat) (s : kst) : bool :=
  let cred := t_cred (tasks s (curr s)) in
  let pcred := t_cred (tasks s p) in
  if (cr_user_ns cred =? cr_user_ns pcred)%nat
  then (cr_euid cred =? cr_euid pcred) || (cr_euid cred =? cr_uid pcred)
  else false.

(** The permission checks of __sched_setscheduler() for an unprivileged user:
    0, or the error. *)
Definition setscheduler_perm (p : nat) (policy prio : Z) (reset_on_fork : bool) (s : kst) : Z :=
  let t := tasks s p in
  let rlim_rtprio := task_rlimit t RLIMIT_RTPRIO in
  if rt_policy policy && negb (policy =? t_policy t) && (rlim_rtprio =? 0) then - EPERM
  else if rt_policy policy && (t_rt_priority t <? u32 prio) && (rlim_rtprio <? u32 prio) then - EPERM
  else if (t_policy t =? SCHED_IDLE) && negb (policy =? SCHED_IDLE) && negb (can_nice p (task_nice t) s)
       then - EPERM
  else if negb (check_same_owner p s) then - EPERM
  else if c_true (sched_reset_on_fork t) && negb reset_on_fork then - EPERM
  else 0.

Definition valid_policy (policy : Z) : bool :=
  (policy =? SCHED_FIFO) || (policy =? SCHED_RR) || (policy =? SCHED_NORMAL) ||
  (policy =? SCHED_BATCH) || (policy =? SCHED_IDLE) || (policy =? SCHED_RAS).

(** The change itself, from the test of [on_rq] on. *)
Definition change_policy (p : nat) (policy prio : Z) (reset_on_fork : bool) (s : kst) : kst :=
  let on_rq := c_true (t_on_rq (tasks s p)) in
  let running := task_current s p in
  let s := if on_rq then dequeue_task p 0 s else s in
  let s := if running then put_prev_task_op (class_of p s) p s else s in
  let s := upd_task p (fun t => t <| sched_reset_on_fork := of_bool reset_on_fork |>) s in
  let oldprio := t_prio (tasks s p) in
  let prev_class := t_class (tasks s p) in
  let s := __setscheduler p policy prio s in
  let s := if running then set_curr_task_op (class_of p s) s else s in
  let s := if on_rq then enqueue_task p 0 s else s in
  let s := check_class_changed p prev_class oldprio s in
  rt_mutex_adjust_pi p s.

(** __sched_setscheduler(); the label [recheck] is reached again only if the
    policy changed between its two readings, which on one processor it does not *)
Fixpoint __sched_setscheduler (fuel : nat) (p : nat) (policy prio : Z) (user : bool) (s : kst) : Z * kst :=
  match fuel with
  | O => (- EAGAIN, s)
  | S fuel =>
      let t := tasks s p in
      let keep := policy <? 0 in
      let oldpolicy := if keep then t_policy t else -1 in
      let reset_on_fork := if keep then c_true (sched_reset_on_fork t)
                           else has_flag policy SCHED_RESET_ON_FORK in
      let policy := if keep then t_policy t else Z.ldiff policy SCHED_RESET_ON_FORK in
      if negb keep && negb (valid_policy policy) then (- EINVAL, s)
      else if (prio <? 0) ||
              (bool_decide (t_mm t <> None) && (MAX_USER_RT_PRIO - 1 <? prio)) ||
              (bool_decide (t_mm t = None) && (MAX_RT_PRIO - 1 <? prio)) then (- EINVAL, s)
      else if negb (Bool.eqb (rt_policy policy) (c_true prio)) then (- EINVAL, s)
      else
        let perm := if user && negb (capable CAP_SYS_NICE (ext s))
                    then setscheduler_perm p policy prio reset_on_fork s else 0 in
        if c_true perm then (perm, s)
        else
          let sec := if user then security_task_setscheduler p (ext s) else 0 in
          if c_true sec then (sec, s)
          else if bool_decide (rq_stop (rq s) = Some p) then (- EINVAL, s)
          else if (policy =? t_policy t) && (negb (rt_policy policy) || (u32 prio =? t_rt_priority t))
          then (0, s)
          else if user && rt_bandwidth_enabled s && rt_policy policy &&
                  (rtb_runtime (tg_rt_bandwidth (tgs s (task_group_of s p))) =? 0) &&
                  negb (task_group_is_autogroup (task_group_of s p) (ext s)) then (- EPERM, s)
          else if negb (oldpolicy =? -1) && negb (oldpolicy =? t_policy t)
          then __sched_setscheduler fuel p (-1) prio user s
          else (0, change_policy p policy prio reset_on_fork s)
  end.

(** sched_setscheduler(), sched_setscheduler_nocheck() *)
Definition sched_setscheduler (p : nat) (policy prio : Z) (s : kst) : Z * kst :=
  __sched_setscheduler 2 p policy prio true s.
Definition sched_setscheduler_nocheck (p : nat) (policy prio : Z) (s : kst) : Z * kst :=
  __sched_setscheduler 2 p policy prio false s.

(** A user pointer to a sched_param: NULL, not readable, or readable. *)
Inductive user_param := ParamNull | ParamFault | ParamAt (sched_priority : Z).

(** do_sched_setscheduler(), sys_sched_setscheduler(), sys_sched_setparam() *)
Definition do_sched_setscheduler (pid policy : Z) (param : user_param) (s : kst) : Z * kst :=
  match param with
  | ParamNull => (- EINVAL, s)
  | ParamFault => if pid <? 0 then (- EINVAL, s) else (- EFAULT, s)
  | ParamAt prio =>
      if pid <? 0 then (- EINVAL, s)
      else match find_process_by_pid pid s with
           | None => (- ESRCH, s)
           | Some p => sched_setscheduler p policy prio s
           end
  end.
Definition sys_sched_setscheduler (pid policy : Z) (param : user_param) (s : kst) : Z * kst :=
  if policy <? 0 then (- EINVAL, s) else do_sched_setscheduler pid policy param s.
Definition sys_sched_setparam (pid : Z) (param : user_param) (s : kst) : Z * kst :=
  do_sched_setscheduler pid (-1) param s.

(** sys_sched_getscheduler() *)
Definition sys_sched_getscheduler (pid : Z) (s : kst) : Z :=
  if pid <? 0 then - EINVAL
  else match find_process_by_pid pid s with
       | None => - ESRCH
       | Some p =>
           let retval := security_task_getscheduler p (ext s) in
           if c_true retval then retval
           else Z.lor (t_policy (tasks s p))
                  (if c_true (sched_reset_on_fork (tasks s p)) then SCHED_RESET_ON_FORK else 0)
       end.

(** sys_sched_getparam(): the result and what is written to user memory;
    [copy_ok] says whether copy_to_user() succeeds *)
Definition sys_sched_getparam (pid : Z) (param_null copy_ok : bool) (s : kst) : Z * option Z :=
  if param_null || (pid <? 0) then (- EINVAL, None)
  else match find_process_by_pid pid s with
       | None => (- ESRCH, None)
       | Some p =>
           let retval := security_task_getscheduler p (ext s) in
           if c_true retval then (retval, None)
           else if copy_ok then (0, Some (t_rt_priority (tasks s p))) else (- EFAULT, None)
       end.

(** ** Yielding *)

(** sys_sched_yield(), yield() up to the switch of context *)
Definition sys_sched_yield (fuel : nat) (s : kst) : option kst :=
  let s := upd_rq (fun r => r <| yld_count ::= fun n => u32 (n + 1) |>) s in
  let s := yield_task_op (class_of (curr s) s) s in
  schedule fuel s.
Definition yield (fuel : nat) (s : kst) : option kst :=
  let s := upd_task (curr s) (fun t => t <| t_state := TASK_RUNNING |>) s in
  sys_sched_yield fuel s.

(** should_resched(), __cond_resched(), _cond_resched() *)
Definition should_resched (s : kst) : bool :=
  test_tsk_need_resched s (curr s) && negb (has_flag (preempt_count (tasks s (curr s))) PREEMPT_ACTIVE).
Definition __cond_resched (fuel : nat) (s : kst) : option kst :=
  let ti := curr s in
  let s := add_preempt_count PREEMPT_ACTIVE s in
  match __schedule fuel s with
  | None => None
  | Some s => Some (if (curr s =? ti)%nat then sub_preempt_count PREEMPT_ACTIVE s else s)
  end.
Definition _cond_resched (fuel : nat) (s : kst) : Z * option kst :=
  if should_resched s then (1, __cond_resched fuel s) else (0, Some s).

(** yield_to(); both tasks are on the only run queue *)
Definition yield_to (fuel : nat) (p : nat) (preempt : bool) (s : kst) : bool * option kst :=
  match yield_to_task_op (class_of (curr s) s) with
  | None => (false, Some s)
  | Some f =>
      if negb (bool_decide (t_class (tasks s (curr s)) = t_class (tasks s p))) then (false, Some s)
      else if task_running s p || c_true (t_state (tasks s p)) then (false, Some s)
      else
        let '(yielded, s) := f p preempt s in
        if yielded : bool
        then (true, schedule fuel (upd_rq (fun r => r <| yld_count ::= fun n => u32 (n + 1) |>) s))
        else (false, Some (upd_rq (fun r => r <| skip_clock_update := 0 |>) s))
  end.

(** io_schedule(): the part before schedule(), and the part after it, which the
    task [p] runs when it is switched back in *)
Definition io_schedule_enter (s : kst) : kst :=
  let s := upd_rq (fun r => r <| nr_iowait ::= fun n => n + 1 |>) s in
  let s := s <| ext ::= blk_flush_plug (curr s) |> in
  upd_task (curr s) (fun t => t <| t_in_iowait := 1 |>) s.
Definition io_schedule_exit (p : nat) (s : kst) : kst :=
  let s := upd_task p (fun t => t <| t_in_iowait := 0 |>) s in
  upd_rq (fun r => r <| nr_iowait ::= fun n => n - 1 |>) s.

(** sys_sched_get_priority_max(), sys_sched_get_priority_min() *)
Definition sys_sched_get_priority_max (policy : Z) : Z :=
  if (policy =? SCHED_FIFO) || (policy =? SCHED_RR) then MAX_USER_RT_PRIO - 1
  else if (policy =? SCHED_NORMAL) || (policy =? SCHED_BATCH) || (policy =? SCHED_IDLE) ||
          (policy =? SCHED_RAS) then 0
  else - EINVAL.
Definition sys_sched_get_priority_min (policy : Z) : Z :=
  if (policy =? SCHED_FIFO) || (policy =? SCHED_RR) then 1
  else if (policy =? SCHED_NORMAL) || (policy =? SCHED_BATCH) || (policy =? SCHED_IDLE) ||
          (policy =? SCHED_RAS) then 0
  else - EINVAL.

(** sys_sched_rr_get_interval(): the result and the ticks converted and written
    to user memory *)
Definition sys_sched_rr_get_interval (pid : Z) (copy_ok : bool) (s : kst) : Z * option Z * kst :=
  if pid <? 0 then (- EINVAL, None, s)
  else match find_process_by_pid pid s with
       | None => (- ESRCH, None, s)
       | Some p =>
           let retval := security_task_getscheduler p (ext s) in
           if c_true retval then (retval, None, s)
           else
             let '(time_slice, s) := get_rr_interval_op (class_of p s) p s in
             if copy_ok then (0, Some time_slice, s) else (- EFAULT, None, s)
       end.

(** sched_set_stop_task() *)
Definition sched_set_stop_task (stop : option nat) (s : kst) : kst :=
  let old_stop := rq_stop (rq s) in
  let s := match stop with
           | Some p =>
               let s := (sched_setscheduler_nocheck p SCHED_FIFO (MAX_RT_PRIO - 1) s).2 in
               upd_task p (fun t => t <| t_class := stop_class |>) s
           | None => s
           end in
  let s := upd_rq (fun r => r <| rq_stop := stop |>) s in
  match old_stop with
  | Some p => upd_task p (fun t => t <| t_class := rt_class |>) s
  | None => s
  end.

(** init_idle_bootup_task(), init_idle() *)
Definition init_idle_bootup_task (p : nat) (s : kst) : kst :=
  upd_task p (fun t => t <| t_class := idle_class |>) s.
Definition init_idle (idle : nat) (sched_clock : Z) (s : kst) : kst :=
  let s := __sched_fork idle s in
  let s := upd_task idle (fun t => t <| t_state := TASK_RUNNING |>) s in
  let s := upd_se idle (fun e => e <| exec_start := sched_clock |>) s in
  let s := __set_task_cpu idle s in
  let s := upd_rq (fun r => r <| rq_curr := idle |> <| rq_idle := idle |>) s in
  let s := upd_task idle (fun t => t <| preempt_count := 0 |>) s in
  upd_task idle (fun t => t <| t_class := idle_class |>) s.
End core.

(** What the core relies on of the classes outside the repository: the order of
    the [next] pointers, the idle class always has a task, the fair class changes nothing when it
    has none, forking into
    the fair class and leaving it keep the policy and the class, and
    rt_mutex_adjust_pi() returns at once for a task that waits for no mutex. *)
Class CoreLaws `{CoreEnv} : Prop := {
  stop_next : next_class stop_ops = Some rt_class;
  fair_next : next_class fair_ops = Some idle_class;
  idle_next : next_class idle_ops = None;
  stop_picks s : rq_stop (rq s) = None -> pick_next_task_op stop_ops s = Some (None, s);
  idle_picks s : exists s', pick_next_task_op idle_ops s = Some (Some (rq_idle (rq s)), s');
  fair_picks s : exists o s', pick_next_task_op fair_ops s = Some (o, s') /\ (o = None -> s' = s);
  fair_switched_from f p s : switched_from_op fair_ops = Some f ->
    t_policy (tasks (f p s) p) = t_policy (tasks s p) /\
    t_class (tasks (f p s) p) = t_class (tasks s p) /\
    t_rt_priority (tasks (f p s) p) = t_rt_priority (tasks s p) /\
    t_on_rq (tasks (f p s) p) = t_on_rq (tasks s p) /\
    pi_blocked (tasks (f p s) p) = pi_blocked (tasks s p);
  adjust_pi_unblocked p s : pi_blocked (tasks s p) = false -> rt_mutex_adjust_pi p s = s;
  fair_fork f p s : task_fork_op fair_ops = Some f ->
    t_policy (tasks (f p s) p) = t_policy (tasks s p) /\
    t_class (tasks (f p s) p) = t_class (tasks s p) }.
