(* ===== verification/CoreSpec.v ===== *)
(** Properties of the scheduler core (Core.v) with the Race-Averse class in it:
    the order of the classes, bounded waiting of RAS tasks under the tick and
    __schedule(), wake-up, fork, priority inheritance, and the system calls
    that change a policy. *)

From S2P Require Import Prelude KList Sched Cpuacct Demo Ras RasSpec Rt LoadAvg Core.

Section order.
Context {KT : KTypes} {KE : KEnv} {CE : CoreEnv} {CL : CoreLaws}.

Lemma all_classes_order :
  all_classes = [stop_class; rt_class; ras_class; fair_class; idle_class].
Proof. unfold all_classes. cbn. rewrite stop_next. cbn. by rewrite fair_next. Qed.
End order.

(** * States the core's bookkeeping does not touch *)

Section same.
Context {KT : KTypes} {KE : KEnv} {KL : KEnvLaws} {NL : KListLaws node} {CE : CoreEnv} {CL : CoreLaws}.
Implicit Types (s : kst) (p : nat) (q : list nat).

(** What the scheduling decisions read of a task. *)
Definition decide_view (t : task_struct) : sched_class * Z * Z * Z * bool :=
  (t_class t, t_state t, wcounts t, ras_time_slice (t_ras t), need_resched t).

(** [s'] differs from [s] in clocks, accounting and statistics only. *)
Record wsame (s s' : kst) : Prop := {
  ws_links : links s' = links s;
  ws_rt : rt_rqs s' = rt_rqs s;
  ws_rq : rq_ras (rq s') = rq_ras (rq s) /\ nr_running (rq s') = nr_running (rq s) /\
          cfs_h_nr_running (rq s') = cfs_h_nr_running (rq s) /\ rq_stop (rq s') = rq_stop (rq s) /\
          rq_curr (rq s') = rq_curr (rq s);
  ws_task : forall p, decide_view (tasks s' p) = decide_view (tasks s p) }.

Lemma wsame_refl s : wsame s s.
Proof. by split. Qed.

Lemma wsame_trans s1 s2 s3 : wsame s1 s2 -> wsame s2 s3 -> wsame s1 s3.
Proof.
  intros [A1 A2 (A3 & A4 & A5 & A6 & A7) A8] [B1 B2 (B3 & B4 & B5 & B6 & B7) B8].
  split; [congruence|congruence|repeat split; congruence|]. intros p. by rewrite B8.
Qed.

Lemma wsame_curr s s' : wsame s s' -> curr s' = curr s.
Proof. intros Hw. unfold curr. by destruct (ws_rq _ _ Hw) as (_ & _ & _ & _ & ->). Qed.

Lemma wsame_upd_at p f s : decide_view (f (tasks s p)) = decide_view (tasks s p) -> wsame s (upd_task p f s).
Proof.
  intros Hf. split; try done. intros p'. destruct (decide (p' = p)) as [->|?].
  - by rewrite tasks_upd_eq.
  - by rewrite tasks_upd_ne.
Qed.

Lemma wsame_upd_task p f s : (forall t, decide_view (f t) = decide_view t) -> wsame s (upd_task p f s).
Proof. intros Hf. by apply wsame_upd_at. Qed.

Lemma wsame_upd_rq f s :
  (forall r, rq_ras (f r) = rq_ras r /\ nr_running (f r) = nr_running r /\
             cfs_h_nr_running (f r) = cfs_h_nr_running r /\ rq_stop (f r) = rq_stop r /\
             rq_curr (f r) = rq_curr r) ->
  wsame s (upd_rq f s).
Proof. intros Hf. split; try done. apply (Hf (rq s)). Qed.

Lemma wsame_ext f s : wsame s (s <| ext ::= f |>).
Proof. by split. Qed.

Lemma wsame_clock s : wsame s (update_rq_clock s).
Proof.
  unfold update_rq_clock. destruct (_ <? _); [apply wsame_refl|]. cbv zeta.
  eapply wsame_trans; by apply wsame_upd_rq.
Qed.

Lemma wsame_load s : wsame s (update_cpu_load_active s).
Proof.
  unfold update_cpu_load_active, update_cpu_load, calc_load_account_active. cbv zeta.
  set (s1 := if _ =? _ then _ else _). assert (wsame s s1) as H1 by (unfold s1; by destruct (_ =? _)).
  clearbody s1. destruct (time_before _ _); [done|].
  unfold calc_load_fold_active. cbv zeta. apply (wsame_trans _ s1); [done|].
  destruct (negb _); destruct (c_true _); by split.
Qed.

Lemma wsame_acct s s' : acct s s' -> wsame s s'.
Proof.
  intros Ha. split; [by apply acct_links|by destruct Ha as [-> _ _]|by rewrite (acct_rq s s')|].
  intros p. destruct Ha as [_ T _]. by rewrite T.
Qed.

Lemma rep_wsame s s' q : wsame s s' -> ras_rep s q -> ras_rep s' q.
Proof. intros Hw. apply rep_same; [apply Hw|by destruct (ws_rq _ _ Hw)]. Qed.

Lemma wsame_slice s s' p : wsame s s' -> slice s' p = slice s p.
Proof. intros Hw. by injection (ws_task _ _ Hw p) as _ _ _ E _. Qed.

(** * A processor on which the RAS tasks [q] are the runnable ones

    The real-time class is empty, no stop task exists and every other runnable
    task is one of the fair class.  [rst] are the states of
    the tasks, [c] runs, [sl] are the remaining slices, and
    [flag] is the task marked for rescheduling, if one is. *)
Record ras_state_st (rst : nat -> Z) (s : kst) (q : list nat) (c : nat) (flag : option nat)
    (sl : nat -> Z) : Prop := {
  rs_rep : ras_rep s q;
  rs_curr : curr s = c;
  rs_class : t_class (tasks s c) = ras_class;
  rs_tasks : forall p, p ∈ q ->
    t_class (tasks s p) = ras_class /\ t_state (tasks s p) = rst p /\
    need_resched (tasks s p) = bool_decide (flag = Some p) /\ slice s p = sl p;
  rs_rt : rt_nr_running (rt_rqs s root_task_group) = 0;
  rs_stop : rq_stop (rq s) = None;
  rs_nr : 0 <= cfs_h_nr_running (rq s) /\
          nr_running (rq s) = cfs_h_nr_running (rq s) + Z.of_nat (length q) /\
          nr_running (rq s) < 2 ^ 32 }.
Arguments rs_rep {_ _ _ _ _ _}.
Arguments rs_curr {_ _ _ _ _ _}.
Arguments rs_tasks {_ _ _ _ _ _}.
Arguments rs_rt {_ _ _ _ _ _}.
Arguments rs_nr {_ _ _ _ _ _}.
Arguments rs_class {_ _ _ _ _ _}.
(** All of them are runnable. *)
Definition ras_state := ras_state_st (fun _ => TASK_RUNNING).

(** Between two periods: the head of the queue runs, nothing is flagged, and
    every task has some of a legal slice left. *)
Definition ras_world (s : kst) (q : list nat) : Prop :=
  exists c sl, ras_state s q c None sl /\ head q = Some c /\ slices_ok s q.

Lemma state_wsame rst s s' q c fl sl : wsame s s' -> ras_state_st rst s q c fl sl -> ras_state_st rst s' q c fl sl.
Proof.
  intros Hw [Hr Hc Hi Ht Hrt Hst Hn]. destruct (ws_rq _ _ Hw) as (_ & E2 & E3 & E4 & _). split.
  - by apply (rep_wsame s).
  - by rewrite (wsame_curr s).
  - by injection (ws_task _ _ Hw c) as ->.
  - intros p Hp. destruct (Ht p Hp) as (A & B & C & D). rewrite (wsame_slice s) by done.
    injection (ws_task _ _ Hw p) as -> -> _ _ ->. done.
  - by rewrite (ws_rt _ _ Hw).
  - by rewrite E4.
  - by rewrite E2, E3.
Qed.

Lemma state_rotate rst s q c fl sl : ras_state_st rst s q c fl sl ->
  ras_state_st rst (if on_ras_rq c s then s <| links ::= list_move_tail (RasNode c) RasQueue |> else s)
            (q_rotate c q) c fl sl.
Proof.
  intros [Hr Hc Hi Ht Hrt Hst Hn]. pose proof (q_rotate_perm c q (rep_nodup _ _ Hr)) as Hp.
  pose proof (rep_rotate s q c Hr) as Hr'.
  destruct (on_ras_rq c s); (split; [done|done|done| |done|done|by rewrite Hp];
    intros p; rewrite Hp; apply Ht).
Qed.

Lemma state_clear rst s q c fl sl : ras_state_st rst s q c fl sl -> fl = None \/ fl = Some c ->
  ras_state_st rst (clear_tsk_need_resched c s) q c None sl.
Proof.
  intros [Hr Hc Hi Ht Hrt Hst Hn] Hfl. split; [by apply (rep_same s)|done| | |done..].
  { unfold clear_tsk_need_resched. by rewrite tasks_upd_eq. }
  intros p Hp. destruct (Ht p Hp) as (A & B & C & D). unfold clear_tsk_need_resched, slice.
  destruct (decide (p = c)) as [->|Hne].
  - by rewrite tasks_upd_eq.
  - rewrite tasks_upd_ne by done. rewrite C. destruct Hfl as [->| ->]; rewrite !bool_decide_false by congruence; done.
Qed.

Lemma state_switch rst s q c n fl sl : n ∈ q -> ras_state_st rst s q c fl sl ->
  ras_state_st rst (upd_rq (fun r => r <| rq_curr := n |>) s) q n fl sl.
Proof.
  intros Hn [Hr Hc Hi Ht Hrt Hst Hnr].
  split; [by apply (rep_same s)|done|by apply (Ht n)|done..].
Qed.

(** ** __schedule() *)

Lemma wsame_switch prev next s : wsame s (context_switch prev next s).
Proof.
  unfold context_switch, prepare_task_switch, finish_task_switch. cbv zeta.
  set (s1 := s <| ext ::= sched_info_switch prev next |>).
  set (s2 := match t_mm (tasks s1 next) with None => _ | _ => s1 end).
  assert (wsame s s2) as H2.
  { apply (wsame_trans _ s1); [by apply wsame_ext|]. unfold s2.
    destruct (t_mm (tasks s1 next)); [apply wsame_refl|by apply wsame_upd_task]. }
  clearbody s2. generalize (t_active_mm (tasks s1 prev)), (t_mm (tasks s1 next)). intros om mm.
  set (s3 := s2 <| ext ::= switch_mm om mm next |>).
  set (s4 := match t_mm (tasks s3 prev) with None => _ | _ => s3 end).
  assert (wsame s s4) as H4.
  { apply (wsame_trans _ s2); [done|]. apply (wsame_trans _ s3); [by apply wsame_ext|]. unfold s4.
    destruct (t_mm (tasks s3 prev)); [apply wsame_refl|].
    apply (wsame_trans _ (upd_task prev (fun t => t <| t_active_mm := None |>) s3));
      [by apply wsame_upd_task|by apply wsame_upd_rq]. }
  clearbody s4. apply (wsame_trans _ s4); [done|].
  set (s5 := upd_rq _ s4). assert (wsame s4 s5) as H5 by by apply wsame_upd_rq.
  apply (wsame_trans _ s5); [done|]. clearbody s5.
  destruct (rq_prev_mm (rq s4)), (_ =? TASK_DEAD); by split.
Qed.

Lemma state_put_prev rst s q c fl sl : ras_state_st rst s q c fl sl ->
  ras_state_st rst (put_prev_task c s) (q_rotate c q) c fl sl.
Proof.
  intros Hs. unfold put_prev_task. cbv zeta. set (s1 := if _ || _ then _ else s).
  assert (ras_state_st rst s1 q c fl sl) as H1.
  { unfold s1. case_match; [|done]. apply (state_wsame _ s); [apply wsame_clock|done]. }
  clearbody s1. unfold class_of. rewrite (rs_class H1). cbn [ops_of put_prev_task_op ras_ops].
  apply state_rotate, (state_wsame _ s1); [|done]. apply wsame_acct, update_curr_ras_acct.
Qed.

Lemma state_pick rst s q c fl sl n : ras_state_st rst s q c fl sl -> head q = Some n ->
  exists s', pick_next_task s = Some (n, s') /\ ras_state_st rst s' q c fl sl.
Proof.
  intros Hs Hh. unfold pick_next_task. pose proof (rs_nr Hs) as Hnr.
  assert (0 < length q)%nat by (destruct q; simpl; [done|lia]).
  rewrite (proj2 (Z.eqb_neq _ _)) by lia.
  rewrite all_classes_order. cbn [pick_loop ops_of]. rewrite stop_picks by apply Hs.
  cbn [pick_next_task_op rt_ops ras_ops]. unfold pick_next_task_rt, _pick_next_task_rt.
  rewrite (rs_rt Hs), c_true_0. cbn [negb]. unfold pick_next_task_ras.
  destruct (rs_rep Hs) as [Hl Hc _]. rewrite Hc, (linked_next _ q), Hh by done.
  rewrite (proj2 (Z.eqb_neq _ _)) by (destruct q; simpl; [done|lia]).
  eexists. split; [done|]. apply (state_wsame _ s); [|done]. by apply wsame_upd_task.
Qed.

Lemma switch_holds rst s q c fl sl n vol : ras_state_st rst s q c fl sl -> fl = None \/ fl = Some c ->
  head (q_rotate c q) = Some n ->
  exists s', schedule_switch c vol s = Some s' /\ ras_state_st rst s' (q_rotate c q) n None sl.
Proof.
  intros Hs Hfl Hh. unfold schedule_switch. cbv zeta.
  apply state_put_prev in Hs. destruct (state_pick _ _ _ _ _ _ _ Hs Hh) as (s2 & -> & H2).
  apply state_clear in H2; [|done]. set (s3 := clear_tsk_need_resched c s2) in *. clearbody s3.
  set (s4 := upd_rq _ s3). assert (ras_state_st rst s4 (q_rotate c q) c None sl) as H4.
  { apply (state_wsame _ s3); [by apply wsame_upd_rq|done]. }
  clearbody s4. set (s5 := if negb _ then _ else s4).
  assert (ras_state_st rst s5 (q_rotate c q) n None sl) as H5.
  { unfold s5. destruct (Nat.eqb_spec c n) as [<-|Hne]; [done|]. cbn [negb].
    set (s6 := upd_rq (fun r => r <| nr_switches ::= fun n => u64 (n + 1) |>) s4).
    eapply state_wsame; [apply wsame_switch|].
    apply (state_wsame _ (upd_rq (fun r => r <| rq_curr := n |>) s6));
      [destruct vol; by apply wsame_upd_task|].
    apply (state_switch _ _ _ c). { by apply head_Some_elem_of. }
    apply (state_wsame _ s4); [by apply wsame_upd_rq|done]. }
  clearbody s5. exists (preempt_enable_no_resched s5). split; [done|].
  apply (state_wsame _ s5); [by apply wsame_upd_task|done].
Qed.

Lemma once_schedule rst s s' q n sl : schedule_once s = Some s' -> ras_state_st rst s' q n None sl ->
  n ∈ q -> __schedule 1 s = Some s'.
Proof.
  intros E Hs Hn. cbn [__schedule]. rewrite E. unfold test_tsk_need_resched.
  rewrite (rs_curr Hs). by destruct (rs_tasks Hs n Hn) as (_ & _ & -> & _).
Qed.

Lemma schedule_holds s q c fl sl n : ras_state s q c fl sl -> c ∈ q -> fl = None \/ fl = Some c ->
  head (q_rotate c q) = Some n ->
  exists s', __schedule 1 s = Some s' /\ ras_state s' (q_rotate c q) n None sl.
Proof.
  intros Hs Hin Hfl Hh. set (s1 := schedule_debug c (preempt_disable s)).
  assert (ras_state s1 q c fl sl) as H1.
  { apply (state_wsame _ s); [|done].
    apply (wsame_trans _ (preempt_disable s)); [by apply wsame_upd_task|by apply wsame_upd_rq]. }
  assert (schedule_deactivate c s1 = (false, s1)) as E1.
  { unfold schedule_deactivate. destruct (rs_tasks H1 c Hin) as (_ & -> & _). done. }
  destruct (switch_holds _ s1 q c fl sl n false H1 Hfl Hh) as (s' & E & H').
  exists s'. split; [|done]. eapply once_schedule; [|exact H'|by apply head_Some_elem_of].
  unfold schedule_once. change (curr (preempt_disable s)) with (curr s). rewrite (rs_curr Hs).
  cbv zeta. fold s1. by rewrite E1.
Qed.

(** ** One period of the clock: the tick, and __schedule() on the return from
    the interrupt when the tick asked for it *)
Definition after_tick (s : kst) : option kst :=
  if test_tsk_need_resched s (curr s) then __schedule 1 s else Some s.
Definition tick_step (s : kst) : option kst := after_tick (scheduler_tick s).
Fixpoint ticks (n : nat) (s : kst) : option kst :=
  match n with
  | O => Some s
  | S n => match tick_step s with Some s => ticks n s | None => None end
  end.

(** The slices of the tasks queued before [p]. *)
Fixpoint wait_time (s : kst) (q : list nat) (p : nat) : Z :=
  match q with
  | [] => 0
  | x :: q => if (x =? p)%nat then 0 else slice s x + wait_time s q p
  end.

Lemma wait_time_same s s' q p : (forall x, x ∈ q -> slice s' x = slice s x) ->
  wait_time s' q p = wait_time s q p.
Proof.
  induction q as [|x q IH]; intros Hs; [done|]. cbn [wait_time]. rewrite Hs by set_solver.
  rewrite IH by set_solver. done.
Qed.

Lemma wait_time_app s q x p : p ∈ q -> wait_time s (q ++ [x]) p = wait_time s q p.
Proof.
  induction q as [|y q IH]; intros Hp; [set_solver|]. cbn [wait_time app].
  destruct (Nat.eqb_spec y p) as [|Hne]; [done|]. rewrite IH; [done|].
  apply elem_of_cons in Hp as [?|?]; congruence.
Qed.

Lemma wait_time_bound s q p i : slices_ok s q -> q !! i = Some p -> 0 <= wait_time s q p <= 150 * Z.of_nat i.
Proof.
  revert i. induction q as [|x q IH]; intros i Hs Hi; [done|]. cbn [wait_time].
  apply Forall_cons in Hs as [Hx Hs]. destruct (Nat.eqb_spec x p) as [|Hne]; [lia|].
  destruct i as [|i]; [simpl in Hi; congruence|]. specialize (IH i Hs Hi). simpl in Hx. lia.
Qed.

Lemma wait_time_nonneg s q p : slices_ok s q -> 0 <= wait_time s q p.
Proof.
  induction q as [|x q IH]; intros Hs; [done|]. cbn [wait_time].
  apply Forall_cons in Hs as [Hx Hs]. simpl in Hx. specialize (IH Hs). case_match; lia.
Qed.

Lemma scheduler_tick_holds s c q sl : ras_state s (c :: q) c None sl -> slices_ok s (c :: q) ->
  exists s1, ras_state s1 (c :: q) c None sl /\
             tick_post c (c :: q) s1 (scheduler_tick s).
Proof.
  intros Hs Hok. unfold scheduler_tick. cbv zeta. rewrite (rs_curr Hs).
  set (s1 := update_cpu_load_active (update_rq_clock (s <| ext ::= sched_clock_tick |>))).
  assert (wsame s s1) as Hw.
  { eapply wsame_trans; [apply (wsame_ext sched_clock_tick s)|].
    eapply wsame_trans; [apply wsame_clock|apply wsame_load]. }
  clearbody s1. apply (state_wsame _ _ s1) in Hs; [|done].
  exists s1. split; [done|].
  unfold class_of. rewrite (rs_class Hs). apply tick_post_holds; [apply Hs|].
  rewrite (wsame_slice s) by done. apply Forall_cons in Hok as [Hx _]. simpl in Hx. lia.
Qed.

Lemma state_tick q c sl s s' : tick_post c (c :: q) s s' -> ras_state s (c :: q) c None sl ->
  let last := (sl c =? 1) && (2 <=? length (c :: q))%nat in
  ras_state s' (if last then q_rotate c (c :: q) else c :: q) c (if last then Some c else None)
    (fun p => if (p =? c)%nat then slice s' c else sl p).
Proof.
  intros [Tr Ts Tne Tn Tq Tc Trt _] Hs last. pose proof Hs as [Hr Hcu Hi Ht Hrt Hst Hnr].
  destruct (Ht c) as (_ & _ & _ & Hsl); [set_solver|]. rewrite Hsl in Tr, Tn. fold last in Tr.
  assert ((if last then q_rotate c (c :: q) else c :: q) ≡ₚ c :: q) as Hp.
  { destruct last; [|done]. by apply q_rotate_perm, (rep_nodup s). }
  split.
  - done.
  - unfold curr. by rewrite Tq.
  - by destruct (Tc c) as (-> & _).
  - intros p Hpq. rewrite Hp in Hpq. destruct (Ht p Hpq) as (A & B & C & D).
    destruct (Tc p) as (-> & -> & _). split; [done|]. split; [done|]. split.
    + rewrite Tn, C, <- andb_assoc. fold last.
      destruct (decide (p = c)) as [->|Hne]; destruct last; repeat case_bool_decide; naive_solver.
    + destruct (Nat.eqb_spec p c) as [->|Hne]; [done|]. by rewrite Tne.
  - by rewrite Trt.
  - by rewrite Tq.
  - by rewrite Tq, Hp.
Qed.

Lemma q_rotate_head c q : NoDup (c :: q) -> q_rotate c (c :: q) = q ++ [c].
Proof.
  intros [Hc _]%NoDup_cons. unfold q_rotate. rewrite decide_True by set_solver.
  by rewrite without_cons_eq, without_not_in.
Qed.

Lemma q_rotate_last c q : NoDup (q ++ [c]) -> q_rotate c (q ++ [c]) = q ++ [c].
Proof.
  intros Hnd. unfold q_rotate. rewrite decide_True by set_solver.
  rewrite without_split by done. by rewrite app_nil_r.
Qed.

Lemma tick_slices_ok q c sl s s' : tick_post c (c :: q) s s' -> ras_state s (c :: q) c None sl ->
  slices_ok s (c :: q) -> slices_ok s' (c :: q).
Proof.
  intros [_ Ts Tne _ _ _ _ _] Hs [Hc Hok]%Forall_cons. simpl in Hc. apply Forall_cons. split.
  - rewrite Ts. bcase; [apply slice_refilled|lia].
  - pose proof (rep_nodup _ _ (rs_rep Hs)) as [Hn _]%NoDup_cons.
    apply (slices_same s); [|done]. intros p Hp. apply Tne. by intros ->.
Qed.

(** What follows the tick in a period. *)
Lemma after_tick_holds s s2 c q sl p : ras_state s (c :: q) c None sl -> slices_ok s (c :: q) ->
  tick_post c (c :: q) s s2 -> p ∈ c :: q -> 0 < wait_time s (c :: q) p ->
  exists s' q', after_tick s2 = Some s' /\ ras_world s' q' /\ p ∈ q' /\
                wait_time s' q' p = wait_time s (c :: q) p - 1.
Proof.
  intros Hs Hok Hpost Hp Hw.
  pose proof (rep_nodup _ _ (rs_rep Hs)) as Hnd.
  pose proof (tick_slices_ok _ _ _ _ _ Hpost Hs Hok) as Hok'.
  pose proof (state_tick _ _ _ _ _ Hpost Hs) as H2. cbv zeta in H2.
  assert (sl c = slice s c) as Esc.
  { destruct (rs_tasks Hs c) as (_ & _ & _ & ->); [set_solver|done]. }
  cbn [wait_time] in Hw |- *. destruct (Nat.eqb_spec c p) as [|Hne]; [lia|].
  assert (p ∈ q) as Hpq by (apply elem_of_cons in Hp as [?|?]; congruence).
  assert (2 <= length (c :: q))%nat as Hlen by (destruct q; simpl; [set_solver|lia]).
  rewrite (proj2 (Nat.leb_le _ _) Hlen), andb_true_r, Esc in H2.
  pose proof (tick_slice _ _ _ _ Hpost) as Tsl.
  pose proof (tick_slice_ne _ _ _ _ Hpost) as Tne. clear Hpost. unfold after_tick.
  assert (forall x, x ∈ q -> slice s2 x = slice s x) as Hq.
  { intros x Hx. apply NoDup_cons in Hnd as [Hn _]. apply Tne. by intros ->. }
  destruct (Z.eqb_spec (slice s c) 1) as [E1|E1].
  - (* the last tick of the slice: the next task is switched in *)
    rewrite (rs_curr H2). unfold test_tsk_need_resched.
    rewrite q_rotate_head in H2 by done.
    destruct (rs_tasks H2 c) as (_ & _ & -> & _); [set_solver|].
    rewrite bool_decide_true by done.
    destruct q as [|n q]; [set_solver|].
    assert (NoDup ((n :: q) ++ [c])) as Hnd' by (by rewrite Permutation_app_comm).
    destruct (schedule_holds s2 ((n :: q) ++ [c]) c _ _ n H2) as (s3 & E & H3);
      [set_solver|by right|by rewrite q_rotate_last|].
    rewrite q_rotate_last in H3 by done. exists s3, ((n :: q) ++ [c]). split; [done|].
    assert (forall x, x ∈ c :: n :: q -> slice s3 x = slice s2 x) as Hs3.
    { intros x Hx. destruct (rs_tasks H3 x) as (_ & _ & _ & ->); [set_solver|].
      destruct (rs_tasks H2 x) as (_ & _ & _ & ->); [set_solver|done]. }
    split; [|split].
    + eexists n, _. split; [done|]. split; [done|]. apply (slices_perm _ (c :: n :: q)).
      { by rewrite (Permutation_app_comm _ [c]). }
      by apply (slices_same s2).
    + set_solver.
    + rewrite wait_time_app by done. rewrite (wait_time_same s), E1; [lia|].
      intros x Hx. rewrite Hs3 by set_solver. by apply Hq.
  - rewrite (rs_curr H2). unfold test_tsk_need_resched.
    destruct (rs_tasks H2 c) as (_ & _ & -> & _); [set_solver|].
    rewrite bool_decide_false by done. exists s2, (c :: q). split; [done|]. split; [|split; [set_solver|]].
    + eexists c, _. split; [done|]. done.
    + cbn [wait_time]. rewrite (proj2 (Nat.eqb_neq _ _)), (wait_time_same s), Tsl by done. lia.
Qed.

(** A period with at least one slice tick to wait brings [p] one tick nearer. *)
Lemma tick_step_holds s q p : ras_world s q -> p ∈ q -> 0 < wait_time s q p ->
  exists s' q', tick_step s = Some s' /\ ras_world s' q' /\ p ∈ q' /\
                wait_time s' q' p = wait_time s q p - 1.
Proof.
  intros (c & sl & Hs & Hh & Hok) Hp Hw. destruct q as [|c' q]; [done|]. injection Hh as ->.
  destruct (scheduler_tick_holds s c q sl) as (s1 & Hs1 & Hpost); [done..|].
  assert (forall x, x ∈ c :: q -> slice s1 x = slice s x) as Hsl.
  { intros x Hx. destruct (rs_tasks Hs x Hx) as (_ & _ & _ & ->).
    by destruct (rs_tasks Hs1 x Hx) as (_ & _ & _ & ->). }
  rewrite <- (wait_time_same s s1) in Hw |- * by done.
  eapply after_tick_holds; [exact Hs1|by apply (slices_same s)|exact Hpost|done|done].
Qed.
End same.

Arguments rs_rep {_ _ _ _ _ _ _}.
Arguments rs_curr {_ _ _ _ _ _ _}.
Arguments rs_tasks {_ _ _ _ _ _ _}.
Arguments rs_rt {_ _ _ _ _ _ _}.
Arguments rs_nr {_ _ _ _ _ _ _}.
Arguments rs_class {_ _ _ _ _ _ _}.

Section properties.
Context {KT : KTypes} {KE : KEnv} {KL : KEnvLaws} {NL : KListLaws node} {CE : CoreEnv} {CL : CoreLaws}.
Implicit Types (s : kst) (p : nat) (q : list nat).

(** C2: no RAS task starves.  While the runnable tasks are those of the RAS
    queue, the [i]-th task of the queue is running after exactly as many clock
    periods (tick, and __schedule() when the tick asks for it) as the tasks
    before it have ticks left, hence after at most 150 [i] of them; __schedule()
    never reaches the BUG() of pick_next_task() and one pass of its loop
    suffices. *)
Theorem ras_bounded_waiting s q p i :
  ras_world s q -> q !! i = Some p ->
  let n := wait_time s q p in
  0 <= n <= 150 * Z.of_nat i /\
  exists s' q', ticks (Z.to_nat n) s = Some s' /\ curr s' = p /\ ras_world s' q'.
Proof.
  intros Hw Hi n. assert (0 <= n <= 150 * Z.of_nat i) as Hn.
  { destruct Hw as (_ & _ & _ & _ & Hok). by apply wait_time_bound. }
  split; [done|]. apply list_elem_of_lookup_2 in Hi as Hp. clear Hi.
  remember (Z.to_nat n) as k eqn:Ek.
  assert (Hk : wait_time s q p = Z.of_nat k) by lia. clearbody n. clear Hn Ek n i.
  revert s q Hw Hp Hk. induction k as [|k IH]; intros s q Hw Hp Hk.
  - exists s, q. split; [done|]. split; [|done]. destruct Hw as (c & sl & Hs & Hh & Hok).
    destruct q as [|c' q]; [done|]. injection Hh as ->. rewrite (rs_curr Hs).
    cbn [wait_time] in Hk. destruct (Nat.eqb_spec c p) as [|Hne]; [done|].
    apply Forall_cons in Hok as [Hc Hok]. simpl in Hc. pose proof (wait_time_nonneg s q p Hok). lia.
  - destruct (tick_step_holds s q p) as (s' & q' & E & Hw' & Hp' & Hk'); [done..|lia|].
    cbn [ticks]. rewrite E. apply (IH s' q'); [done..|lia].
Qed.
End properties.
