(* ===== verification/WakeSpec.v ===== *)
(** How single RAS tasks move through the core (Core.v): wake-up and wake-up
    preemption, yielding, blocking, priority inheritance, fork, and the choice
    of the next task over the classes.  The states are those of CoreSpec.v. *)

From S2P Require Import Prelude KList Sched Cpuacct Demo Ras RasSpec Rt LoadAvg Core CoreSpec.

Section moves.
Context {KT : KTypes} {KE : KEnv} {KL : KEnvLaws} {NL : KListLaws node} {CE : CoreEnv} {CL : CoreLaws}.
Implicit Types (s : kst) (p : nat) (q : list nat).

(** ** Putting a task on the queue and taking it off *)

(** What enqueuing and dequeuing leave alone. *)
Record queue_frame (s s' : kst) : Prop := {
  qf_rt : rt_rqs s' = rt_rqs s;
  qf_rq : cfs_h_nr_running (rq s') = cfs_h_nr_running (rq s) /\ rq_stop (rq s') = rq_stop (rq s) /\
          rq_curr (rq s') = rq_curr (rq s);
  qf_task : forall p, t_class (tasks s' p) = t_class (tasks s p) /\
    t_state (tasks s' p) = t_state (tasks s p) /\ need_resched (tasks s' p) = need_resched (tasks s p) /\
    wcounts (tasks s' p) = wcounts (tasks s p) /\ t_policy (tasks s' p) = t_policy (tasks s p) /\
    t_prio (tasks s' p) = t_prio (tasks s p) }.

Lemma enqueue_frame p flags s : queue_frame s (enqueue_task_ras p flags s).
Proof.
  unfold enqueue_task_ras. cbv zeta. fold (gpath p s) (refill (gpath p s) p s).
  pose proof (refill_frame (gpath p s) p s) as Ef. pose proof (refill_task (gpath p s) p s) as Et.
  pose proof (fun p' => refill_task_ne (gpath p s) p p' s) as Ene.
  set (s1 := refill (gpath p s) p s) in *.
  assert (queue_frame s s1) as H1.
  { split; [by rewrite Ef|by rewrite Ef|]. intros p'. destruct (decide (p' = p)) as [->|?].
    - by rewrite Et.
    - by rewrite Ene. }
  clear Ef Et Ene. clearbody s1.
  assert (forall s2, queue_frame s s2 -> queue_frame s (upd_ras p (fun e => e <| ras_timeout := 0 |>) s2)) as H2.
  { intros s2 [A B C]. split; [done|done|]. intros p'.
    destruct (C p') as (C1 & C2 & C3 & C4 & C5 & C6).
    unfold upd_ras. destruct (decide (p' = p)) as [->|?]; rewrite ?tasks_upd_eq, ?tasks_upd_ne by done; done. }
  destruct (has_flag flags ENQUEUE_WAKEUP); [apply H2 in H1|]; destruct H1;
    destruct (has_flag flags ENQUEUE_HEAD); by split.
Qed.

Lemma dequeue_frame p flags s : queue_frame s (dequeue_task_ras p flags s).
Proof.
  unfold dequeue_task_ras. cbv zeta. pose proof (update_curr_ras_acct s) as Ha.
  set (s1 := update_curr_ras s) in *. clearbody s1.
  assert (queue_frame s s1) as [A B C].
  { split; [by destruct Ha as [-> _ _]|by rewrite (acct_rq s s1)|].
    intros p'. destruct Ha as [_ T _]. by rewrite T. }
  destruct (on_ras_rq p s1); by split.
Qed.

(** A runnable task joins the queue. *)
Lemma state_enqueue rst s q c fl sl p flags :
  ras_state_st rst s q c fl sl -> p ∉ q -> t_class (tasks s p) = ras_class ->
  t_state (tasks s p) = rst p -> need_resched (tasks s p) = false -> fl <> Some p ->
  nr_running (rq s) + 1 < 2 ^ 32 ->
  ras_state_st rst (enqueue_task_ras p flags s) (q_enqueue (has_flag flags ENQUEUE_HEAD) p q) c fl
    (fun p' => if (p' =? p)%nat then ras_slice (gpath p s) (tasks s p) else sl p').
Proof.
  intros [Hr Hc Hcl Ht Hrt Hst Hnr] Hp Hpc Hps Hpn Hfl Hlen.
  destruct (enqueue_holds p flags s q) as [E1 E2 _ _ E5 E6 E7]; [done|done|lia|].
  destruct (enqueue_frame p flags s) as [F1 (F2 & F3 & F4) F5]. split.
  - done.
  - by rewrite E7.
  - by destruct (F5 c) as (-> & _).
  - intros p' Hp'. destruct (F5 p') as (-> & -> & -> & _).
    destruct (Nat.eqb_spec p' p) as [->|Hne].
    + rewrite bool_decide_false by done. done.
    + apply elem_of_q_enqueue in Hp' as [?|Hp']; [done|]. destruct (Ht p' Hp') as (A & B & C & D).
      split; [done|]. split; [done|]. split; [done|]. unfold slice. by rewrite E5.
  - by rewrite F1.
  - by rewrite F3.
  - rewrite F2, E6, q_enqueue_length, u32_small by lia. lia.
Qed.

(** A task leaves the queue. *)
Lemma state_dequeue rst s q c fl sl p flags : ras_state_st rst s q c fl sl -> p ∈ q ->
  ras_state_st rst (dequeue_task_ras p flags s) (without p q) c fl sl.
Proof.
  intros [Hr Hc Hcl Ht Hrt Hst Hnr] Hp. pose proof (rep_nodup _ _ Hr) as Hnd.
  pose proof (without_length p q Hnd Hp) as Hl.
  destruct (dequeue_frame p flags s) as [F1 (F2 & F3 & F4) F5].
  assert (nr_running (rq (dequeue_task_ras p flags s)) = u32 (nr_running (rq s) - 1)) as E6.
  { unfold dequeue_task_ras. cbv zeta. rewrite <- (acct_rq s (update_curr_ras s)) by apply update_curr_ras_acct.
    by case_match. }
  split.
  - by apply dequeue_rep.
  - unfold curr. by rewrite F4.
  - by destruct (F5 c) as (-> & _).
  - intros p' [Hne Hp']%elem_of_without. destruct (F5 p') as (-> & -> & -> & _).
    unfold slice. rewrite dequeue_ras. by apply Ht.
  - by rewrite F1.
  - by rewrite F3.
  - rewrite F2, E6, u32_small by lia. lia.
Qed.

(** ** Waking a task up *)

Lemma calc_weight_wcounts (t t' : task_struct) : wcounts t = wcounts t' -> calc_ras_weight t = calc_ras_weight t'.
Proof. unfold calc_ras_weight. by intros ->. Qed.

Lemma wsame_weight s s' p : wsame s s' -> calc_ras_weight (tasks s' p) = calc_ras_weight (tasks s p).
Proof. intros Hw. apply calc_weight_wcounts. by injection (ws_task _ _ Hw p). Qed.

Lemma wsame_class s s' p : wsame s s' -> t_class (tasks s' p) = t_class (tasks s p).
Proof. intros Hw. by injection (ws_task _ _ Hw p). Qed.
Lemma wsame_state s s' p : wsame s s' -> t_state (tasks s' p) = t_state (tasks s p).
Proof. intros Hw. by injection (ws_task _ _ Hw p). Qed.
Lemma wsame_flag s s' p : wsame s s' -> need_resched (tasks s' p) = need_resched (tasks s p).
Proof. intros Hw. by injection (ws_task _ _ Hw p). Qed.

(** The states of the queued tasks while [p], in state [st], is being woken. *)
Definition waking (p : nat) (st : Z) : nat -> Z := fun p' => if (p' =? p)%nat then st else TASK_RUNNING.

Lemma state_waking s q c fl sl p st : ras_state s q c fl sl -> p ∉ q ->
  ras_state_st (waking p st) s q c fl sl.
Proof.
  intros [Hr Hc Hcl Ht Hrt Hst Hnr] Hp. split; try done. intros p' Hp'. destruct (Ht p' Hp') as (A & B & C).
  split; [done|]. split; [|done]. rewrite B. unfold waking. destruct (Nat.eqb_spec p' p); naive_solver.
Qed.

Lemma state_woken s q c fl sl p st : ras_state_st (waking p st) s q c fl sl ->
  ras_state (upd_task p (fun t => t <| t_state := TASK_RUNNING |>) s) q c fl sl.
Proof.
  intros [Hr Hc Hcl Ht Hrt Hst Hnr]. split; [by apply (rep_same s)|done| | |done..].
  - destruct (decide (c = p)) as [->|?]; rewrite ?tasks_upd_eq, ?tasks_upd_ne by done; done.
  - intros p' Hp'. destruct (Ht p' Hp') as (A & B & C & D). unfold slice, waking in *.
    destruct (Nat.eqb_spec p' p) as [->|?]; rewrite ?tasks_upd_eq, ?tasks_upd_ne by done; done.
Qed.

Lemma state_flag rst s q c sl : ras_state_st rst s q c None sl ->
  ras_state_st rst (resched_task c s) q c (Some c) sl.
Proof.
  intros [Hr Hc Hcl Ht Hrt Hst Hnr]. unfold resched_task, set_tsk_need_resched.
  split; [by apply (rep_same s)|done|by rewrite tasks_upd_eq| |done..].
  intros p Hp. destruct (Ht p Hp) as (A & B & C & D). unfold slice. destruct (decide (p = c)) as [->|?].
  - rewrite tasks_upd_eq, bool_decide_true by done. done.
  - rewrite tasks_upd_ne, bool_decide_false by congruence. done.
Qed.

Lemma wsame_set_weight p s : wsame s (set_ras_weight p s).
Proof. by apply wsame_upd_task. Qed.

(** check_preempt_curr() between two RAS tasks. *)
Lemma state_check_preempt rst s q c sl p flags : ras_state_st rst s q c None sl -> p ∈ q -> p <> c ->
  ras_state_st rst (check_preempt_curr p flags s) q c
    (if calc_ras_weight (tasks s c) <? calc_ras_weight (tasks s p) then Some c else None) sl.
Proof.
  intros Hs Hp Hne. unfold check_preempt_curr. cbv zeta. rewrite (rs_curr Hs).
  destruct (rs_tasks Hs p Hp) as (Hpc & _). rewrite bool_decide_true by (by rewrite Hpc, (rs_class Hs)).
  unfold class_of. rewrite (rs_class Hs). cbn [ops_of ras_ops check_preempt_curr_op].
  set (s1 := set_ras_weight c (set_ras_weight p s)).
  assert (check_preempt_curr_ras p flags s =
    if calc_ras_weight (tasks s c) <? calc_ras_weight (tasks s p) then resched_task c s1 else s1) as ->.
  { unfold check_preempt_curr_ras. cbv zeta.
    change (curr (set_ras_weight p s)) with (curr s). rewrite (rs_curr Hs). fold s1.
    change (curr s1) with (curr s). rewrite (rs_curr Hs).
    assert (ras_weight (t_ras (tasks s1 c)) = calc_ras_weight (tasks s c)) as ->.
    { unfold s1, set_ras_weight, upd_ras. rewrite tasks_upd_eq, tasks_upd_ne by done. done. }
    assert (ras_weight (t_ras (tasks s1 p)) = calc_ras_weight (tasks s p)) as ->; [|done].
    { unfold s1, set_ras_weight, upd_ras. rewrite tasks_upd_ne, tasks_upd_eq by done. done. } }
  assert (wsame s s1) as Hw.
  { apply (wsame_trans _ (set_ras_weight p s)); apply wsame_set_weight. }
  apply (state_wsame _ _ s1) in Hs; [|done]. clear Hw. clearbody s1.
  set (s2 := if _ <? _ then resched_task c s1 else s1).
  assert (ras_state_st rst s2 q c (if calc_ras_weight (tasks s c) <? calc_ras_weight (tasks s p)
    then Some c else None) sl) as H2 by (unfold s2; case_match; [by apply state_flag|done]).
  clearbody s2. destruct (c_true _ && _); [|done]. apply (state_wsame _ s2); [by apply wsame_upd_rq|done].
Qed.

Lemma wsame_ttwu_stat p wf s : wsame s (ttwu_stat p wf s).
Proof.
  unfold ttwu_stat. cbv zeta. set (s1 := upd_rq _ s). set (s2 := upd_se p _ s1).
  assert (wsame s s2) as H2.
  { apply (wsame_trans _ s1); [by apply wsame_upd_rq|by apply wsame_upd_task]. }
  destruct (has_flag wf WF_SYNC); [|done].
  apply (wsame_trans _ s2); [done|by apply wsame_upd_task].
Qed.

Lemma wsame_activate p s : wsame s (if task_contributes_to_load (tasks s p)
  then upd_rq (fun r => r <| nr_uninterruptible ::= fun n => u32 (n - 1) |>) s else s).
Proof. case_match; [by apply wsame_upd_rq|apply wsame_refl]. Qed.

Definition woken_slice (sl : nat -> Z) (p : nat) (z : Z) : nat -> Z :=
  fun p' => if (p' =? p)%nat then z else sl p'.

Lemma state_ttwu s q c sl p state wf :
  ras_state s q c None sl -> c ∈ q -> p ∉ q -> nr_running (rq s) + 1 < 2 ^ 32 ->
  t_class (tasks s p) = ras_class -> t_on_rq (tasks s p) = 0 -> need_resched (tasks s p) = false ->
  has_flag (t_state (tasks s p)) state = true ->
  exists s' z, try_to_wake_up p state wf s = (true, s') /\ 1 <= z <= 150 /\
    ras_state s' (q ++ [p]) c
      (if calc_ras_weight (tasks s c) <? calc_ras_weight (tasks s p) then Some c else None)
      (woken_slice sl p z).
Proof.
  intros Hs Hcq Hp Hlen Hpc Hon Hpn Hst. assert (c <> p) as Hne by (by intros ->).
  unfold try_to_wake_up, ttwu_remote. rewrite Hst, Hon, c_true_0. cbn [negb].
  unfold ttwu_queue, ttwu_do_activate, ttwu_activate, activate_task, enqueue_task. cbv zeta.
  set (s1 := (update_rq_clock (if task_contributes_to_load (tasks s p) then _ else s))
               <| ext ::= sched_info_queued p |>).
  assert (wsame s s1) as Hw.
  { eapply wsame_trans; [apply (wsame_activate p)|]. eapply wsame_trans; [apply wsame_clock|apply wsame_ext]. }
  assert (Hs1 : ras_state_st (waking p (t_state (tasks s p))) s1 q c None sl).
  { apply (state_wsame _ s); [done|by apply state_waking]. }
  pose proof (wsame_class _ _ p Hw) as V1. pose proof (wsame_state _ _ p Hw) as V2.
  pose proof (wsame_flag _ _ p Hw) as V5.
  pose proof (wsame_weight _ _ c Hw) as Wc. pose proof (wsame_weight _ _ p Hw) as Wp.
  destruct (ws_rq _ _ Hw) as (_ & Wn & _). clear Hw. clearbody s1.
  assert (class_of p s1 = ras_ops) as -> by (unfold class_of; by rewrite V1, Hpc).
  cbn [ras_ops enqueue_task_op].
  apply (state_enqueue _ _ _ _ _ _ p (Z.lor ENQUEUE_WAKEUP ENQUEUE_WAKING)) in Hs1;
    [|done|congruence|by rewrite V2; unfold waking; rewrite Nat.eqb_refl|congruence|done|lia].
  set (s2 := enqueue_task_ras p _ s1) in *.
  assert (forall p', calc_ras_weight (tasks s2 p') = calc_ras_weight (tasks s1 p')) as W2.
  { intros p'. apply calc_weight_wcounts. by apply (enqueue_frame p _ s1). }
  cbn [has_flag q_enqueue Z.lor ENQUEUE_WAKEUP ENQUEUE_WAKING ENQUEUE_HEAD Z.land c_true Z.eqb negb] in Hs1.
  exists (ttwu_stat p wf (ttwu_do_wakeup p 0
    (let s3 := upd_task p (fun t => t <| t_on_rq := 1 |>) s2 in
     if has_flag (t_flags (tasks s3 p)) PF_WQ_WORKER then s3 <| ext ::= wq_worker_waking_up p |> else s3))).
  eexists. split; [done|]. split; [apply (slice_refilled (gpath p s1) (tasks s1 p))|].
  clearbody s2. set (s3 := upd_task p (fun t => t <| t_on_rq := 1 |>) s2). cbv zeta.
  set (s4 := if has_flag _ _ then _ else s3).
  assert (wsame s2 s4) as Hw.
  { apply (wsame_trans _ s3); [by apply wsame_upd_task|]. unfold s4. case_match; [apply wsame_ext|apply wsame_refl]. }
  apply (state_wsame _ _ s4) in Hs1; [|done].
  pose proof (wsame_weight _ _ c Hw) as Wc4. pose proof (wsame_weight _ _ p Hw) as Wp4.
  clear Hw. clearbody s4. eapply state_wsame; [apply wsame_ttwu_stat|]. unfold ttwu_do_wakeup. cbv zeta.
  apply (state_woken _ _ _ _ _ p (t_state (tasks s p))).
  apply (state_check_preempt _ _ _ _ _ p 0) in Hs1; [|set_solver|done].
  rewrite Wc4, Wp4, !W2, Wc, Wp in Hs1. done.
Qed.
End moves.

Section blocking.
Context {KT : KTypes} {KE : KEnv} {KL : KEnvLaws} {NL : KListLaws node} {CE : CoreEnv} {CL : CoreLaws}.
Implicit Types (s : kst) (p : nat) (q : list nat).

(** ** Blocking *)

Lemma state_off_rq rst s q c fl sl : ras_state_st rst s q c fl sl ->
  ras_state_st rst (upd_task c (fun t => t <| t_on_rq := 0 |>) s) q c fl sl.
Proof. apply state_wsame. by apply wsame_upd_task. Qed.

Lemma wsame_deactivate p s : wsame s (if task_contributes_to_load (tasks s p)
  then upd_rq (fun r => r <| nr_uninterruptible ::= fun n => u32 (n + 1) |>) s else s).
Proof. case_match; [by apply wsame_upd_rq|apply wsame_refl]. Qed.

Lemma state_deactivate rst s q c fl sl : ras_state_st rst s q c fl sl -> c ∈ q ->
  ras_state_st rst (deactivate_task c DEQUEUE_SLEEP s) (without c q) c fl sl.
Proof.
  intros Hs Hc. unfold deactivate_task, dequeue_task. cbv zeta.
  set (s1 := (update_rq_clock (if task_contributes_to_load (tasks s c) then _ else s))
               <| ext ::= sched_info_dequeued c |>).
  assert (wsame s s1) as Hw.
  { eapply wsame_trans; [apply (wsame_deactivate c)|]. eapply wsame_trans; [apply wsame_clock|apply wsame_ext]. }
  apply (state_wsame _ _ s1) in Hs; [|done]. clear Hw. clearbody s1.
  assert (class_of c s1 = ras_ops) as -> by (unfold class_of; by rewrite (rs_class Hs)).
  by apply state_dequeue.
Qed.

(** A task that __schedule() takes off the queue: it is in a sleeping state,
    not preempted, without a signal that wakes it, and not a workqueue worker. *)
Record sleeper (t : task_struct) : Prop := {
  sl_state : t_state t <> TASK_RUNNING;
  sl_preempt : has_flag (preempt_count t + 1) PREEMPT_ACTIVE = false;
  sl_signal : signal_pending_state (t_state t) t = false;
  sl_worker : has_flag (t_flags t) PF_WQ_WORKER = false }.

(** What the updates of deactivate_task() leave of a task. *)
Definition sleep_view (t : task_struct) : Z * Z := (t_flags t, t_state t).

Lemma deactivate_flags s c : t_class (tasks s c) = ras_class ->
  sleep_view (tasks (deactivate_task c DEQUEUE_SLEEP s) c) = sleep_view (tasks s c).
Proof.
  intros Hcl. unfold deactivate_task, dequeue_task. cbv zeta.
  set (s1 := (update_rq_clock (if task_contributes_to_load (tasks s c) then _ else s))
               <| ext ::= sched_info_dequeued c |>).
  assert (tasks s1 = tasks s) as E1.
  { unfold s1, update_rq_clock. cbv zeta. by destruct (task_contributes_to_load _), (_ <? _). }
  assert (class_of c s1 = ras_ops) as -> by (unfold class_of; by rewrite E1, Hcl).
  cbn [ras_ops dequeue_task_op]. unfold dequeue_task_ras. cbv zeta.
  pose proof (update_curr_ras_acct s1) as [_ T _].
  assert (sleep_view (tasks (update_curr_ras s1) c) = sleep_view (tasks s c)) as E.
  { rewrite T, E1. done. }
  by destruct (on_ras_rq _ _).
Qed.

Lemma state_block rst s q c fl sl : ras_state_st rst s q c fl sl -> c ∈ q ->
  sleeper (tasks s c) ->
  exists s1, schedule_deactivate c (schedule_debug c (preempt_disable s)) = (true, s1) /\
    ras_state_st rst s1 (without c q) c fl sl /\ t_on_rq (tasks s1 c) = 0 /\
    t_state (tasks s1 c) = t_state (tasks s c).
Proof.
  intros Hs Hc [S1 S2 S3 S4]. unfold schedule_deactivate.
  set (s1 := schedule_debug c (preempt_disable s)).
  assert (tasks s1 c = (tasks s c) <| preempt_count ::= fun n => n + 1 |>) as E.
  { unfold s1, schedule_debug, preempt_disable, upd_rq. cbn [tasks setf]. by rewrite (rs_curr Hs), tasks_upd_eq. }
  assert (ras_state_st rst s1 q c fl sl) as H1.
  { apply (state_wsame _ s); [|done].
    apply (wsame_trans _ (preempt_disable s)); [by apply wsame_upd_task|by apply wsame_upd_rq]. }
  clearbody s1. assert (t_state (tasks s1 c) = t_state (tasks s c)) as -> by by rewrite E.
  assert (preempt_count (tasks s1 c) = preempt_count (tasks s c) + 1) as -> by by rewrite E.
  rewrite (proj2 (c_true_iff _) S1), S2. cbn [andb negb].
  assert (signal_pending_state (t_state (tasks s c)) (tasks s1 c) = false) as -> by by rewrite E.
   cbv zeta. set (s2 := upd_task c (fun t => t <| t_on_rq := 0 |>) (deactivate_task c DEQUEUE_SLEEP s1)).
  pose proof (deactivate_flags s1 c (rs_class H1)) as Ef. rewrite E in Ef.
  assert (t_flags (tasks s2 c) = t_flags (tasks s c) /\ t_state (tasks s2 c) = t_state (tasks s c)) as [F1 F2].
  { unfold s2. rewrite tasks_upd_eq. unfold sleep_view in Ef. injection Ef as F1 F2. done. }
  rewrite F1, S4. exists s2. split; [done|].
  split; [by apply state_off_rq, state_deactivate|]. split; [|done]. unfold s2. by rewrite tasks_upd_eq.
Qed.

End blocking.

Section properties.
Context {KT : KTypes} {KE : KEnv} {KL : KEnvLaws} {NL : KListLaws node} {CE : CoreEnv} {CL : CoreLaws}.
Implicit Types (s : kst) (p : nat) (q : list nat).

(** C15: waking a sleeping RAS task.  try_to_wake_up() succeeds, links the task
    at the tail of the queue and makes it runnable; the running task [c] is
    asked to reschedule exactly when the woken task writes in a lower band.
    The __schedule() that follows then hands the processor to the task queued
    after [c], which is the woken one only if no other was waiting. *)
Theorem ras_wakeup_preemption s c rest sl p state wf :
  ras_state s (c :: rest) c None sl -> p ∉ c :: rest -> nr_running (rq s) + 1 < 2 ^ 32 ->
  t_class (tasks s p) = ras_class -> t_on_rq (tasks s p) = 0 -> need_resched (tasks s p) = false ->
  has_flag (t_state (tasks s p)) state = true ->
  let preempt := calc_ras_weight (tasks s c) <? calc_ras_weight (tasks s p) in
  exists s', try_to_wake_up p state wf s = (true, s') /\
    ras_rep s' (c :: rest ++ [p]) /\ t_state (tasks s' p) = TASK_RUNNING /\
    need_resched (tasks s' c) = preempt /\
    (preempt = true -> exists s'', __schedule 1 s' = Some s'' /\
       ras_rep s'' (rest ++ [p; c]) /\ curr s'' = default p (head rest)).
Proof.
  intros Hs Hp Hlen Hpc Hon Hpn Hst preempt.
  destruct (state_ttwu s (c :: rest) c sl p state wf) as (s' & z & E & _ & H'); [done|set_solver|done..|].
  exists s'. split; [done|]. split; [apply (rs_rep H')|]. fold preempt in H'.
  split; [apply (rs_tasks H'); set_solver|].
  destruct (rs_tasks H' c) as (_ & _ & Hf & _); [set_solver|].
  split. { rewrite Hf. destruct preempt; [by rewrite bool_decide_true|done]. }
  intros Hpre. rewrite Hpre in H'.
  pose proof (rep_nodup _ _ (rs_rep H')) as Hnd. rewrite <- app_comm_cons in H', Hnd.
  pose proof (q_rotate_head _ _ Hnd) as Hq. rewrite <- app_assoc in Hq. cbn [app] in Hq.
  destruct (schedule_holds s' _ c _ _ (default p (head rest)) H') as (s'' & E' & H'');
    [set_solver|by right|rewrite Hq; by destruct rest|].
  exists s''. split; [done|]. rewrite Hq in H''. split; [apply (rs_rep H'')|apply (rs_curr H'')].
Qed.

(** Sched_yield() of the running RAS task puts it behind all others and
    switches to the next one, in one pass of __schedule(); alone on the queue
    it goes on running. *)
Theorem ras_sched_yield s c rest sl :
  ras_state s (c :: rest) c None sl ->
  exists s', sys_sched_yield 1 s = Some s' /\ ras_state s' (rest ++ [c]) (default c (head rest)) None sl.
Proof.
  intros Hs. unfold sys_sched_yield. cbv zeta.
  set (s1 := upd_rq _ s). assert (wsame s s1) as Hw by by apply wsame_upd_rq.
  apply (state_wsame _ _ s1) in Hs; [|done]. clear Hw. clearbody s1.
  pose proof (rep_nodup _ _ (rs_rep Hs)) as Hnd.
  assert (class_of (curr s1) s1 = ras_ops) as -> by (unfold class_of; by rewrite (rs_curr Hs), (rs_class Hs)).
  cbn [ras_ops yield_task_op]. unfold yield_task_ras. rewrite (rs_curr Hs).
  apply state_rotate in Hs. rewrite q_rotate_head in Hs by done.
  set (s2 := if on_ras_rq c s1 then _ else s1) in *. clearbody s2. unfold schedule, sched_submit_work.
  rewrite (rs_curr Hs). destruct (rs_tasks Hs c) as (_ & -> & _); [set_solver|].
  cbn [c_true TASK_RUNNING Z.eqb negb orb].
  assert (q_rotate c (rest ++ [c]) = rest ++ [c]) as Hq.
  { apply q_rotate_last. by rewrite Permutation_app_comm. }
  destruct (schedule_holds s2 (rest ++ [c]) c None sl (default c (head rest)) Hs) as (s' & E & H');
    [set_solver|by left|rewrite Hq; by destruct rest|].
  exists s'. by rewrite Hq in H'.
Qed.

(** C16: blocking.  When the running RAS task [c] calls __schedule() in a
    sleeping state with no signal to wake it, it leaves the queue, and the task
    behind it runs after one pass; the others keep their order and slices. *)
Theorem ras_block s c n rest sl st :
  ras_state_st (waking c st) s (c :: n :: rest) c None sl -> sleeper (tasks s c) ->
  exists s', __schedule 1 s = Some s' /\ ras_state s' (n :: rest) n None sl /\
    on_ras_rq c s' = false.
Proof.
  intros Hs Hsl. pose proof (rep_nodup _ _ (rs_rep Hs)) as Hnd.
  pose proof (proj1 (NoDup_cons _ _) Hnd) as [Hc _].
  destruct (state_block _ s (c :: n :: rest) c None sl Hs) as (s1 & E1 & H1 & _); [set_solver|done|].
  rewrite without_cons_eq, without_not_in in H1 by done.
  assert (q_rotate c (n :: rest) = n :: rest) as Hq by (unfold q_rotate; by rewrite decide_False).
  destruct (switch_holds _ s1 _ c None sl n true H1) as (s' & E & H'); [by left|by rewrite Hq|].
  rewrite Hq in H'. exists s'. split; [|split].
  - eapply once_schedule; [|exact H'|set_solver].
    unfold schedule_once. change (curr (preempt_disable s)) with (curr s). rewrite (rs_curr Hs).
    cbv zeta. by rewrite E1.
  - destruct H' as [Hr Hcu Hcl Ht Hrt Hst Hnr]. split; try done.
    intros x Hx. destruct (Ht x Hx) as (A & B & C). split; [done|]. split; [|done].
    rewrite B. unfold waking. destruct (Nat.eqb_spec x c); naive_solver.
  - rewrite (rep_on _ (n :: rest)) by apply (rs_rep H'). by apply bool_decide_eq_false.
Qed.
End properties.
