(* ===== verification/PolicySpec.v ===== *)
(** Changing a task's priority or policy (Core.v): priority inheritance on a
    RAS task, fork, the choice over the classes, and sched_setscheduler(). *)

From S2P Require Import Prelude KList Sched Cpuacct Demo Ras RasSpec Rt RtSpec LoadAvg Core CoreSpec WakeSpec.

Section setprio.
Context {KT : KTypes} {KE : KEnv} {KL : KEnvLaws} {NL : KListLaws node} {CE : CoreEnv} {CL : CoreLaws}.
Implicit Types (s : kst) (p : nat) (q : list nat).

Lemma clock_tasks s : tasks (update_rq_clock s) = tasks s.
Proof. unfold update_rq_clock. by destruct (_ <? _). Qed.

(** dequeue_task() and enqueue_task() of a RAS task. *)
Record dequeued_task (p : nat) (s s' : kst) : Prop := {
  dq_nr : nr_running (rq s) = nr_running (rq s') + 1;
  dq_class : t_class (tasks s' p) = ras_class;
  dq_state : t_state (tasks s' p) = t_state (tasks s p);
  dq_flag : need_resched (tasks s' p) = need_resched (tasks s p);
  dq_policy : t_policy (tasks s' p) = t_policy (tasks s p) }.

Lemma state_dequeue_task rst s q c fl sl p flags : ras_state_st rst s q c fl sl -> p ∈ q ->
  ras_state_st rst (dequeue_task p flags s) (without p q) c fl sl /\
  dequeued_task p s (dequeue_task p flags s).
Proof.
  intros Hs Hp. unfold dequeue_task. cbv zeta.
  set (s1 := (update_rq_clock s) <| ext ::= sched_info_dequeued p |>).
  assert (wsame s s1) as Hw by (eapply wsame_trans; [apply wsame_clock|apply wsame_ext]).
  assert (tasks s1 = tasks s) as Et by apply clock_tasks.
  destruct (ws_rq _ _ Hw) as (_ & Wn & Wc & _).
  apply (state_wsame _ _ s1) in Hs; [|done]. clear Hw.
  destruct (rs_tasks Hs p Hp) as (Hpc & _).
  assert (class_of p s1 = ras_ops) as -> by (unfold class_of; by rewrite Hpc).
  pose proof (state_dequeue _ _ _ _ _ _ p flags Hs Hp) as H1. split; [done|].
  destruct (dequeue_frame p flags s1) as [_ (F2 & _) F]. destruct (F p) as (F3 & F4 & F5 & _ & F6 & _).
  pose proof (without_length p q (rep_nodup _ _ (rs_rep Hs)) Hp) as Hlen.
  pose proof (rs_nr Hs). pose proof (rs_nr H1). cbn [ras_ops dequeue_task_op].
  split; [lia|by rewrite F3|by rewrite F4, Et|by rewrite F5, Et|by rewrite F6, Et].
Qed.

Lemma state_enqueue_task rst s q c fl sl p flags : ras_state_st rst s q c fl sl -> p ∉ q ->
  t_class (tasks s p) = ras_class -> t_state (tasks s p) = rst p -> need_resched (tasks s p) = false ->
  fl <> Some p -> nr_running (rq s) + 1 < 2 ^ 32 ->
  exists z, 1 <= z <= 150 /\
    ras_state_st rst (enqueue_task p flags s) (q_enqueue (has_flag flags ENQUEUE_HEAD) p q) c fl
      (woken_slice sl p z) /\
    t_prio (tasks (enqueue_task p flags s) p) = t_prio (tasks s p) /\
    t_policy (tasks (enqueue_task p flags s) p) = t_policy (tasks s p).
Proof.
  intros Hs Hp Hc Hst Hn Hfl Hlen. unfold enqueue_task. cbv zeta.
  set (s1 := (update_rq_clock s) <| ext ::= sched_info_queued p |>).
  assert (wsame s s1) as Hw by (eapply wsame_trans; [apply wsame_clock|apply wsame_ext]).
  assert (tasks s1 = tasks s) as Et by apply clock_tasks.
  destruct (ws_rq _ _ Hw) as (_ & Wn & _).
  apply (state_wsame _ _ s1) in Hs; [|done]. clear Hw. rewrite <- Et in *. rewrite <- Wn in Hlen. clearbody s1.
  assert (class_of p s1 = ras_ops) as -> by (unfold class_of; by rewrite Hc).
  eexists. split; [apply (slice_refilled (gpath p s1) (tasks s1 p))|].
  split; [by apply state_enqueue|]. split; by apply (enqueue_frame p flags s1).
Qed.

(** priority inheritance does not lift a RAS task out of its class.  When
    rt_mutex_setprio() gives a queued SCHED_RAS task any priority, be it a
    real-time one, the task keeps the RAS class; the requeueing gives it a new
    slice and moves it to the tail of the queue (to the head when the priority
    number grows), and nobody is asked to reschedule. *)
Theorem rt_mutex_setprio_ras s q c sl p prio :
  ras_state s q c None sl -> p ∈ q -> p <> c -> p <> rq_idle (rq s) ->
  t_policy (tasks s p) = SCHED_RAS -> t_on_rq (tasks s p) <> 0 -> 0 <= prio <= MAX_PRIO ->
  let q' := if t_prio (tasks s p) <? prio then p :: without p q else without p q ++ [p] in
  exists s' z, rt_mutex_setprio p prio s = Some s' /\ 1 <= z <= 150 /\
    ras_state s' q' c None (woken_slice sl p z) /\
    t_class (tasks s' p) = ras_class /\ t_prio (tasks s' p) = prio.
Proof.
  intros Hs Hp Hne Hidle Hpol Hon Hprio q'. unfold rt_mutex_setprio.
  rewrite (proj2 (Z.ltb_ge prio 0)), (proj2 (Z.ltb_ge MAX_PRIO prio)) by lia. cbn [orb].
  rewrite (proj2 (Nat.eqb_neq _ _)) by done. cbv zeta.
  unfold task_current. rewrite (rs_curr Hs), (proj2 (Nat.eqb_neq c p)), (proj2 (c_true_iff _) Hon) by done.
  destruct (rs_tasks Hs p Hp) as (Hpc & Hst & Hn & _). rewrite Hpc.
  destruct (state_dequeue_task _ _ _ _ _ _ p 0 Hs Hp) as [H1 [Hnr D1 D2 D3 D4]].
  rewrite <- D4 in Hpol. rewrite Hst in D2. rewrite Hn in D3.
  set (s1 := dequeue_task p 0 s) in *. clearbody s1.
  rewrite Hpol. cbn [SCHED_RAS Z.eqb Pos.eqb].
  set (s2 := upd_task p (fun t => t <| t_class := ras_class |>) s1).
  set (s3 := upd_task p (fun t => t <| t_prio := prio |>) s2).
  assert (wsame s1 s3) as Hw.
  { apply (wsame_trans _ s2); [|by apply wsame_upd_task].
    apply wsame_upd_at. unfold decide_view. cbn [t_class setf]. by rewrite D1. }
  apply (state_wsame _ _ s3) in H1; [|done].
  rewrite <- (wsame_class _ _ _ Hw) in D1. rewrite <- (wsame_state _ _ _ Hw) in D2.
  rewrite <- (wsame_flag _ _ _ Hw) in D3. destruct (ws_rq _ _ Hw) as (_ & Wn & _).
  assert (t_prio (tasks s3 p) = prio) as Hp3 by (unfold s3; by rewrite tasks_upd_eq).
  clear Hw. clearbody s3.
  destruct (state_enqueue_task _ _ _ _ _ _ p (if t_prio (tasks s p) <? prio then ENQUEUE_HEAD else 0) H1)
    as (z & Hz & H4 & Hpr & _); [by intros [? _]%elem_of_without|done..|pose proof (rs_nr Hs); lia|].
  set (s4 := enqueue_task p _ s3) in *. clearbody s4. rewrite Hp3 in Hpr.
  assert (ras_state s4 q' c None (woken_slice sl p z)) as H5.
  { unfold q'. by destruct (_ <? _). }
  assert (t_class (tasks s4 p) = ras_class) as Hc4.
  { apply (rs_tasks H5). unfold q'. destruct (_ <? _); set_solver. }
  exists s4, z. split; [|done]. f_equal. unfold check_class_changed, class_of. rewrite Hc4.
  rewrite bool_decide_true by done. cbn [negb]. by destruct (negb _).
Qed.
End setprio.

Section fork.
Context {KT : KTypes} {KE : KEnv} {KL : KEnvLaws} {NL : KListLaws node} {CE : CoreEnv} {CL : CoreLaws}.
Implicit Types (s : kst) (p : nat) (q : list nat).

Lemma sched_fork_tasks p s : exists e, forall p', tasks (__sched_fork p s) p' =
  if (p' =? p)%nat then (tasks s p) <| t_on_rq := 0 |> <| t_se := e |> else tasks s p'.
Proof.
  unfold __sched_fork. cbv zeta.
  set (s1 := upd_task p (fun t => t <| t_on_rq := 0 |>) s).
  match goal with |- context [upd_se p ?f s1] => set (f1 := f) end.
  exists (f1 (t_se (tasks s p)) <| statistics := zero_stats |>). intros p'.
  unfold upd_se, upd_task. unfold s1, upd_task. simpl. destruct (Nat.eqb_spec p' p) as [->|]; done.
Qed.

Lemma sched_fork_split p s : t_policy (tasks s p) = SCHED_RAS -> sched_reset_on_fork (tasks s p) = 0 ->
  rt_prio (t_normal_prio (tasks s (curr s))) = false -> p <> curr s ->
  exists s1, sched_fork p s = upd_task p (fun t => t <| preempt_count := 1 |>)
      ((match task_fork_op fair_ops with Some f => f p s1 | None => s1 end) <| ext ::= sched_info_reset p |>) /\
    t_class (tasks s1 p) = fair_class /\ t_policy (tasks s1 p) = SCHED_RAS.
Proof.
  intros Hpol Hreset Hprio Hne. unfold sched_fork. cbv zeta.
  set (s0 := upd_task p (fun t => t <| t_state := TASK_RUNNING |>) (__sched_fork p s)).
  assert (t_policy (tasks s0 p) = SCHED_RAS /\ sched_reset_on_fork (tasks s0 p) = 0 /\
          tasks s0 (curr s) = tasks s (curr s) /\ curr s0 = curr s) as (E1 & E2 & E3 & E4).
  { destruct (sched_fork_tasks p s) as [e He]. unfold s0.
    rewrite tasks_upd_eq, tasks_upd_ne, !He, Nat.eqb_refl by done.
    by rewrite (proj2 (Nat.eqb_neq _ _)) by done. }
  clearbody s0. rewrite E4, E3.
  set (s1 := upd_task p (fun t => t <| t_prio := t_normal_prio (tasks s (curr s)) |>) s0).
  assert (t_prio (tasks s1 p) = t_normal_prio (tasks s (curr s)) /\ sched_reset_on_fork (tasks s1 p) = 0 /\
          t_policy (tasks s1 p) = SCHED_RAS) as (F1 & F2 & F3).
  { unfold s1. rewrite tasks_upd_eq. done. }
  clearbody s1. rewrite F2, c_true_0, F1, Hprio. cbn [negb].
  set (s2 := upd_task p (fun t => t <| t_class := fair_class |>) s1).
  assert (t_class (tasks s2 p) = fair_class /\ t_policy (tasks s2 p) = SCHED_RAS) as [G1 G2].
  { unfold s2. rewrite tasks_upd_eq. done. }
  clearbody s2. exists s2. split; [|done]. unfold class_of. by rewrite G1.
Qed.

(** fork does not inherit the RAS class.  The child of a SCHED_RAS task
    that runs at a normal priority keeps the policy SCHED_RAS but is put into
    the fair class, where its policy has no effect until the next change of
    priority or policy. *)
Theorem sched_fork_ras p s :
  t_policy (tasks s p) = SCHED_RAS -> sched_reset_on_fork (tasks s p) = 0 ->
  MAX_RT_PRIO <= t_normal_prio (tasks s (curr s)) -> p <> curr s ->
  let s' := sched_fork p s in
  t_policy (tasks s' p) = SCHED_RAS /\ t_class (tasks s' p) = fair_class.
Proof.
  intros Hpol Hreset Hprio Hne s'. unfold s'.
  destruct (sched_fork_split p s) as (s1 & -> & H1 & H2); [done|done| |done|].
  { unfold rt_prio. by apply Z.ltb_ge. }
  rewrite tasks_upd_eq. cbn [t_policy t_class setf tasks].
  destruct (task_fork_op fair_ops) as [f|] eqn:Ef; [|done].
  destruct (fair_fork f p s1 Ef) as [-> ->]. done.
Qed.
End fork.

Section choice.
Context {KT : KTypes} {KE : KEnv} {KL : KEnvLaws} {NL : KListLaws node} {CE : CoreEnv} {CL : CoreLaws}.
Implicit Types (s : kst) (p : nat) (q : list nat).

Lemma pick_ras_holds s q : ras_rep s q -> (pick_next_task_ras s).1 = head q /\
  (q = [] -> pick_next_task_ras s = (None, s)).
Proof.
  intros [Hl Hc Hlen]. unfold pick_next_task_ras. rewrite Hc, (linked_next _ q) by done.
  destruct q; [done|]. rewrite (proj2 (Z.eqb_neq _ _)) by (simpl; lia). done.
Qed.

(** The order of the classes, once each has made its choice. *)
Definition class_order (rt ras fair : option nat) (idle : nat) : nat :=
  match rt, ras, fair with
  | Some p, _, _ => p
  | None, Some p, _ => p
  | None, None, Some p => p
  | None, None, None => idle
  end.

Lemma pick_loop_order s qs q : rt_rep s qs -> flat_sys s -> ras_rep s q -> rq_stop (rq s) = None ->
  exists rt s1 fair s2 s', pick_next_task_rt s = Some (rt, s1) /\ pick_next_task_op fair_ops s = Some (fair, s2) /\
    match rt with Some p => rt_choice s qs p | None => rt_nothing s qs end /\
    pick_loop all_classes s = Some (class_order rt (head q) fair (rq_idle (rq s)), s').
Proof.
  intros Hrt Hfl Hras Hstop. destruct (pick_ras_holds s q Hras) as [R1 R2].
  destruct (fair_picks s) as (fair & s2 & Ef & Hf). destruct (idle_picks s) as [s3 Ei].
  rewrite all_classes_order. cbn [pick_loop ops_of]. rewrite stop_picks by done.
  pose proof (pick_rt_holds s qs Hrt Hfl) as H1. cbn [rt_ops ras_ops pick_next_task_op].
  destruct (pick_next_task_rt s) as [[[p|] s1]|]; [| |done]; destruct H1 as [H1 H2].
  - by exists (Some p), s1, fair, s2, s1.
  - subst s1. destruct q as [|p q]; cbn [head] in *.
    + rewrite R2, Ef by done. destruct fair as [p|]; [by exists None, s, (Some p), s2, s2|].
      rewrite Hf in Ef |- * by done. rewrite Ei. by exists None, s, None, s, s3.
    + destruct (pick_next_task_ras s) as [[p'|] s4]; [|done]. cbn in R1. injection R1 as ->.
      by exists None, s, fair, s2, s4.
Qed.

(** C17: the scheduler never hits a BUG() when it picks the next task, as long as no
    task is in a real-time group of its own (every one queues on the root's
    rt_rq), the queues and nr_running are consistent and there is no stop task:
    pick_next_task() always finds a task, in the order of the classes:
    the real-time class's choice if it has one, which is the first task of the
    highest priority queued unless the class is throttled, else the head of the
    RAS queue, else the fair class's choice, else the idle task.  The fast path
    that asks the fair class first is taken only when it gives the same result
    and the same state as the loop over the classes. *)
Theorem pick_next_task_order s qs q :
  rt_rep s qs -> flat_sys s -> ras_rep s q -> rq_stop (rq s) = None ->
  nr_running (rq s) =
    cfs_h_nr_running (rq s) + Z.of_nat (length q) + Z.of_nat (total nr_prios qs) ->
  pick_next_task s = pick_loop all_classes s /\
  exists rt s1 fair s2 s', pick_next_task_rt s = Some (rt, s1) /\ pick_next_task_op fair_ops s = Some (fair, s2) /\
    match rt with Some p => rt_choice s qs p | None => rt_nothing s qs end /\
    pick_next_task s = Some (class_order rt (head q) fair (rq_idle (rq s)), s').
Proof.
  intros Hrt Hfl Hras Hstop Hnr. pose proof (pick_loop_order s qs q Hrt Hfl Hras Hstop) as Hloop.
  enough (pick_next_task s = pick_loop all_classes s) as -> by done.
  unfold pick_next_task. destruct (Z.eqb_spec (nr_running (rq s)) (cfs_h_nr_running (rq s))) as [E|E]; [|done].
  assert (length q = 0%nat /\ total nr_prios qs = 0%nat) as [Hq Ht] by lia.
  apply nil_length_inv in Hq as ->. destruct (pick_ras_holds s [] Hras) as [_ R2].
  destruct (fair_picks s) as (fair & s2 & Ef & Hf). rewrite Ef.
  destruct fair as [p|]; [|by rewrite Hf].
  rewrite all_classes_order. cbn [pick_loop ops_of]. rewrite stop_picks by done.
  assert (pick_next_task_rt s = Some (None, s)) as Ert.
  { unfold pick_next_task_rt, _pick_next_task_rt. by rewrite (rr_count _ _ Hrt), Ht. }
  cbn [rt_ops ras_ops pick_next_task_op]. by rewrite Ert, R2, Ef.
Qed.
End choice.

Section setscheduler.
Context {KT : KTypes} {KE : KEnv} {KL : KEnvLaws} {NL : KListLaws node} {CE : CoreEnv} {CL : CoreLaws}.
Implicit Types (s : kst) (p : nat) (q : list nat).

Lemma set_load_weight_view p s :
  (t_class (tasks (set_load_weight p s) p) = t_class (tasks s p)) /\
  (t_policy (tasks (set_load_weight p s) p) = t_policy (tasks s p)) /\
  (t_rt_priority (tasks (set_load_weight p s) p) = t_rt_priority (tasks s p)) /\
  (t_on_rq (tasks (set_load_weight p s) p) = t_on_rq (tasks s p)) /\
  (pi_blocked (tasks (set_load_weight p s) p) = pi_blocked (tasks s p)).
Proof. unfold set_load_weight, upd_se. cbv zeta. case_match; by rewrite tasks_upd_eq. Qed.

Lemma setscheduler_ras_view p s :
  let s' := __setscheduler p SCHED_RAS 0 s in
  (t_class (tasks s' p) = ras_class) /\ (t_policy (tasks s' p) = SCHED_RAS) /\
  (t_rt_priority (tasks s' p) = 0) /\ (t_on_rq (tasks s' p) = t_on_rq (tasks s p)) /\
  (pi_blocked (tasks s' p) = pi_blocked (tasks s p)).
Proof.
  unfold __setscheduler. cbn [SCHED_RAS Z.eqb Pos.eqb]. cbv zeta.
  match goal with |- context [set_load_weight p ?x] => destruct (set_load_weight_view p x) as (-> & -> & -> & -> & ->) end.
  rewrite !tasks_upd_eq. done.
Qed.

(** any task may make itself, or a task of the same owner, a RAS task: for
    a sleeping task without the reset-on-fork flag and not under SCHED_IDLE,
    sched_setscheduler(SCHED_RAS) with priority 0 succeeds without CAP_SYS_NICE
    and whatever RLIMIT_RTPRIO is, and puts the task into the RAS class. *)
Theorem sched_setscheduler_ras p s :
  capable CAP_SYS_NICE (ext s) = false -> check_same_owner p s = true ->
  sched_reset_on_fork (tasks s p) = 0 -> security_task_setscheduler p (ext s) = 0 ->
  t_policy (tasks s p) <> SCHED_IDLE -> t_policy (tasks s p) <> SCHED_RAS ->
  rq_stop (rq s) <> Some p -> t_class (tasks s p) = fair_class ->
  t_on_rq (tasks s p) = 0 -> p <> curr s -> pi_blocked (tasks s p) = false ->
  let '(r, s') := sched_setscheduler p SCHED_RAS 0 s in
  r = 0 /\ t_policy (tasks s' p) = SCHED_RAS /\ t_class (tasks s' p) = ras_class /\
  t_rt_priority (tasks s' p) = 0.
Proof.
  intros Hcap Hown Hres Hsec Hidle Hras Hstop Hcl Hon Hne Hpi.
  assert (sched_setscheduler p SCHED_RAS 0 s = (0, change_policy p SCHED_RAS 0 false s)) as ->.
  { unfold sched_setscheduler, __sched_setscheduler, setscheduler_perm.
    change (SCHED_RAS <? 0) with false. change (Z.ldiff SCHED_RAS SCHED_RESET_ON_FORK) with SCHED_RAS.
    change (has_flag SCHED_RAS SCHED_RESET_ON_FORK) with false.
    change (valid_policy SCHED_RAS) with true. change (rt_policy SCHED_RAS) with false.
    rewrite Hcap, Hown, Hres, Hsec, !c_true_0, ?andb_false_r. cbn [andb orb negb Bool.eqb].
    change (0 <? 0) with false. rewrite (proj2 (Z.eqb_neq _ _) Hidle), ?andb_false_r. cbn [andb orb].
    rewrite bool_decide_false by done.
    rewrite (proj2 (Z.eqb_neq SCHED_RAS (t_policy (tasks s p)))) by congruence. done. }
  split; [done|]. unfold change_policy. rewrite Hon, c_true_0. unfold task_current.
  rewrite (proj2 (Nat.eqb_neq (curr s) p)) by done. cbv zeta.
  set (s1 := upd_task p (fun t => t <| sched_reset_on_fork := of_bool false |>) s).
  assert (t_class (tasks s1 p) = fair_class) as ->. { unfold s1. by rewrite tasks_upd_eq. }
  destruct (setscheduler_ras_view p s1) as (V1 & V2 & V3 & V4 & V5).
  assert (t_on_rq (tasks s1 p) = 0 /\ pi_blocked (tasks s1 p) = false) as [E1 E2].
  { unfold s1. rewrite tasks_upd_eq. done. }
  rewrite E1 in V4. rewrite E2 in V5. set (s2 := __setscheduler p SCHED_RAS 0 s1) in *. clearbody s2.
  unfold check_class_changed. rewrite V1. rewrite bool_decide_false by done. cbn [negb ops_of].
  set (s3 := match switched_from_op fair_ops with Some _ => _ | None => s2 end).
  assert (t_policy (tasks s3 p) = SCHED_RAS /\ t_class (tasks s3 p) = ras_class /\
    t_rt_priority (tasks s3 p) = 0 /\ t_on_rq (tasks s3 p) = 0 /\ pi_blocked (tasks s3 p) = false)
    as (W1 & W2 & W3 & W4 & W5).
  { unfold s3. destruct (switched_from_op fair_ops) as [f|] eqn:Ef; [|done].
    destruct (fair_switched_from f p s2 Ef) as (-> & -> & -> & -> & ->). done. }
  clearbody s3. assert (class_of p s3 = ras_ops) as -> by (unfold class_of; by rewrite W2).
  cbn [ras_ops switched_to_op]. unfold switched_to_ras. rewrite W4, c_true_0. cbn [andb].
  rewrite adjust_pi_unblocked; done.
Qed.
End setscheduler.
