(* ===== verification/CoreWitness.v ===== *)
(** Instances of the theorems about the core, on the concrete machine of
    Demo.v with the simplest classes around the RAS one: the stop and the fair
    class hold no task and the idle class offers the idle task. *)

From S2P Require Import Prelude KList Sched Cpuacct Demo Ras RasSpec Rt RtSpec LoadAvg LoadSpec Core CoreSpec WakeSpec PolicySpec.
Import Demo RingLists.

Module CoreDemo.

Definition null_ops (next : option sched_class) (pick : kst -> option nat) : class_ops := {|
  next_class := next;
  enqueue_task_op := fun _ _ s => inc_nr_running s;
  dequeue_task_op := fun _ _ s => dec_nr_running s;
  yield_task_op := fun s => s;
  yield_to_task_op := None;
  check_preempt_curr_op := fun _ _ s => s;
  pick_next_task_op := fun s => Some (pick s, s);
  put_prev_task_op := fun _ s => s;
  set_curr_task_op := fun s => s;
  task_tick_op := fun _ _ s => s;
  task_fork_op := None;
  switched_from_op := None;
  switched_to_op := fun _ s => s;
  prio_changed_op := fun _ _ s => s;
  get_rr_interval_op := fun _ s => (0, s);
  task_move_group_op := None |}.

#[export] Instance core_env : CoreEnv := {|
  stop_ops := null_ops (Some rt_class) (fun s => rq_stop (rq s));
  fair_ops := null_ops (Some idle_class) (fun _ => None);
  idle_ops := null_ops None (fun s => Some (rq_idle (rq s)));
  sched_clock_tick := fun e => e + 10000000;
  sched_info_queued := fun _ e => e;
  sched_info_dequeued := fun _ e => e;
  sched_info_switch := fun _ _ e => e;
  sched_info_reset := fun _ e => e;
  wq_worker_waking_up := fun _ e => e;
  wq_worker_sleeping := fun _ e => (None, e);
  switch_mm := fun _ _ _ e => e;
  mmdrop := fun _ e => e;
  put_task_struct := fun _ e => e;
  blk_flush_plug := fun _ e => e;
  rt_mutex_getprio := fun p s => t_normal_prio (tasks s p);
  rt_mutex_adjust_pi := fun _ s => s;
  find_task_by_vpid := fun pid _ => Some (Z.to_nat pid);
  capable := fun _ _ => false;
  security_task_setscheduler := fun _ _ => 0;
  security_task_getscheduler := fun _ _ => 0;
  security_task_setnice := fun _ _ _ => 0;
  task_group_is_autogroup := fun _ _ => false |}.

#[export] Instance core_laws : CoreLaws.
Proof. split; try done; intros s; [intros E; simpl; by rewrite E|by eexists|by do 2 eexists]. Qed.

(** A state whose RAS queue is [q], from its invariant and an evaluation. *)
Lemma state_of rst (s : kst) q c fl : ras_inv s q -> curr s = c -> t_class (tasks s c) = ras_class ->
  Forall (fun p => t_class (tasks s p) = ras_class /\ t_state (tasks s p) = rst p /\
                   need_resched (tasks s p) = bool_decide (fl = Some p)) q ->
  rt_nr_running (rt_rqs s root_task_group) = 0 -> rq_stop (rq s) = None ->
  0 <= cfs_h_nr_running (rq s) /\ nr_running (rq s) = cfs_h_nr_running (rq s) + Z.of_nat (length q) /\
    nr_running (rq s) < 2 ^ 32 ->
  ras_state_st rst s q c fl (slice s).
Proof.
  intros [Hr _] Hc Hcl Hf Hrt Hst Hnr. split; try done. intros p Hp.
  destruct (proj1 (Forall_forall _ q) Hf p Hp) as (A & B & C). done.
Qed.

Lemma inv_set_curr (s : kst) q c : ras_inv s q -> ras_inv (s <| rq ::= fun r => r <| rq_curr := c |> |>) q.
Proof. intros [Hr Hs]. split; [by apply (rep_same s)|by apply (slices_same s)]. Qed.

Lemma inv_set_state (s : kst) q p f : (forall t, t_ras (f t) = t_ras t) -> ras_inv s q -> ras_inv (upd_task p f s) q.
Proof.
  intros Hf [Hr Hs]. split; [by apply (rep_same s)|]. apply (slices_same s); [|done].
  intros p' _. unfold slice. destruct (decide (p' = p)) as [->|?].
  - by rewrite tasks_upd_eq, Hf.
  - by rewrite tasks_upd_ne.
Qed.

Ltac eval_state :=
  repeat (apply Forall_cons; split; [vm_compute; repeat split; reflexivity|]); apply Forall_nil; exact I.
Ltac eval_range := vm_compute; repeat split; congruence.

(** Task 1 runs, 2 and 3 wait. *)
Definition world3 : kst := ras3 <| rq ::= fun r => r <| rq_curr := 1%nat |> |>.

Lemma world3_state : ras_state world3 [1; 2; 3]%nat 1 None (slice world3).
Proof.
  apply state_of; [exact (inv_set_curr _ _ _ ras3_inv)|reflexivity|reflexivity|eval_state
    |reflexivity|reflexivity|eval_range].
Qed.

Lemma world3_world : ras_world world3 [1; 2; 3]%nat.
Proof.
  exists 1%nat, (slice world3). split; [exact world3_state|]. split; [reflexivity|].
  exact (proj2 (inv_set_curr _ _ _ ras3_inv)).
Qed.

(** Task 3, which writes most, runs and 2 waits; task 1 sleeps. *)
Definition asleep : kst := upd_task 1 (fun t => t <| t_state := TASK_INTERRUPTIBLE |>) ras0.
Definition fill32 : list ras_op := [OpEnqueue 3 0; OpEnqueue 2 0].
Definition world32 : kst :=
  (fold_left (fun s op => ras_exec op s) fill32 asleep) <| rq ::= fun r => r <| rq_curr := 3%nat |> |>.

Lemma fill32_run : ras_run asleep [] fill32 (fold_left (fun s op => ras_exec op s) fill32 asleep) [3; 2]%nat.
Proof. cbn [fold_left fill32]. eval_run. Qed.

Lemma world32_state : ras_state world32 [3; 2]%nat 3 None (slice world32).
Proof.
  apply state_of; [|reflexivity|reflexivity|eval_state|reflexivity|reflexivity|eval_range].
  apply inv_set_curr, (ras_run_inv _ _ _ _ _ fill32_run). apply inv_set_state; [done|exact ras0_inv].
Qed.

(** Task 1 is about to block. *)
Definition world3_sleep : kst := upd_task 1 (fun t => t <| t_state := TASK_INTERRUPTIBLE |>) world3.

Lemma world3_sleep_state :
  ras_state_st (waking 1 TASK_INTERRUPTIBLE) world3_sleep [1; 2; 3]%nat 1 None (slice world3_sleep).
Proof.
  apply state_of; [|reflexivity|reflexivity|eval_state|reflexivity|reflexivity|eval_range].
  apply inv_set_state; [done|exact (inv_set_curr _ _ _ ras3_inv)].
Qed.

(** Task 2 is boosted: it is runnable, and 0 is the idle task. *)
Definition world3_on : kst := upd_task 2 (fun t => t <| t_on_rq := 1 |>) world3.

Lemma world3_on_state : ras_state world3_on [1; 2; 3]%nat 1 None (slice world3_on).
Proof.
  apply state_of; [|reflexivity|reflexivity|eval_state|reflexivity|reflexivity|eval_range].
  apply inv_set_state; [done|exact (inv_set_curr _ _ _ ras3_inv)].
Qed.
End CoreDemo.
Import CoreDemo.

Lemma ras_bounded_waiting_witness :
  exists s', ticks 25 world3 = Some s' /\ curr s' = 3%nat.
Proof.
  destruct (ras_bounded_waiting world3 [1; 2; 3]%nat 3 2 world3_world eq_refl) as (_ & s' & q' & E & Ec & _).
  assert (Z.to_nat (wait_time world3 [1; 2; 3]%nat 3) = 25%nat) as En by (vm_compute; reflexivity).
  rewrite En in E. exists s'. split; [exact E|exact Ec].
Defined.

Lemma ras_wakeup_preemption_witness :
  exists s' s'', try_to_wake_up 1 TASK_NORMAL 0 world32 = (true, s') /\
    __schedule 1 s' = Some s'' /\ curr s'' = 2%nat.
Proof.
  destruct (ras_wakeup_preemption world32 3 [2]%nat (slice world32) 1 TASK_NORMAL 0 world32_state)
    as (s' & E & _ & _ & _ & H);
    [eval_decide|reflexivity|reflexivity|reflexivity|reflexivity|reflexivity|].
  destruct H as (s'' & E' & _ & Hc); [vm_compute; reflexivity|].
  exists s', s''. split; [exact E|]. split; [exact E'|exact Hc].
Defined.

Lemma ras_sched_yield_witness :
  exists s', sys_sched_yield 1 world3 = Some s' /\ curr s' = 2%nat.
Proof.
  destruct (ras_sched_yield world3 1 [2; 3]%nat (slice world3) world3_state) as (s' & E & H).
  exists s'. split; [exact E|exact (rs_curr H)].
Defined.

Lemma ras_block_witness :
  exists s', __schedule 1 world3_sleep = Some s' /\ curr s' = 2%nat /\ on_ras_rq 1 s' = false.
Proof.
  destruct (ras_block world3_sleep 1 2 [3]%nat (slice world3_sleep) TASK_INTERRUPTIBLE world3_sleep_state)
    as (s' & E & H & Hon); [split; vm_compute; congruence|].
  exists s'. split; [exact E|]. split; [exact (rs_curr H)|exact Hon].
Defined.

Lemma rt_mutex_setprio_ras_witness :
  exists s', rt_mutex_setprio 2 50 world3_on = Some s' /\ t_class (tasks s' 2%nat) = ras_class /\
    ras_rep s' [1; 3; 2]%nat.
Proof.
  destruct (rt_mutex_setprio_ras world3_on [1; 2; 3]%nat 1 (slice world3_on) 2 50 world3_on_state)
    as (s' & z & E & _ & H & Hc & _);
    [eval_decide|discriminate|discriminate|reflexivity|discriminate|eval_range|].
  exists s'. split; [exact E|]. split; [exact Hc|exact (rs_rep H)].
Defined.

Lemma sched_fork_ras_witness : t_class (tasks (sched_fork 2 world3) 2%nat) = fair_class.
Proof.
  apply (sched_fork_ras 2 world3); [reflexivity|reflexivity|vm_compute; congruence|discriminate].
Defined.

Lemma rt3_no_ras : ras_rep rt3 [].
Proof.
  split; [|reflexivity|reflexivity]. split; [apply (rr_linked _ _ (proj1 rt3_rep))|reflexivity|].
  intros p _. reflexivity.
Qed.

Lemma pick_next_task_order_witness : fst <$> pick_next_task rt3 = Some 3%nat.
Proof.
  destruct (pick_next_task_order rt3 qs3 [] (proj1 rt3_rep) (proj2 rt3_rep) rt3_no_ras) as (_ & o & s1 & f & s2 & s' & E1 & _ & _ & E);
    [reflexivity|vm_compute; reflexivity|].
  assert (fst <$> pick_next_task_rt rt3 = Some (Some 3%nat)) as Ep by (vm_compute; reflexivity).
  rewrite E1 in Ep. injection Ep as ->. rewrite E. reflexivity.
Defined.

(** Task 4, of the same owner as the running task 1, sleeps in the fair class. *)
Definition world_fair : kst := set_task 4 task0 world3.

Lemma sched_setscheduler_ras_witness :
  t_class (tasks (sched_setscheduler 4 SCHED_RAS 0 world_fair).2 4%nat) = ras_class.
Proof.
  pose proof (sched_setscheduler_ras 4 world_fair) as H.
  destruct (sched_setscheduler 4 SCHED_RAS 0 world_fair) as [r s'].
  apply H; first [reflexivity | discriminate].
Defined.
