(* ===== verification/PageTrace.v ===== *)
(** Page-write tracing: the system calls of src/Project2/page-trace,
    rr_fifo_trace and set_wcounts.

    sys_start_trace() clears the calling task's write counter and takes the
    write permission from a range of its address space; the page-fault path
    (Fault.v) then counts the writes that trap.  An address space is the list
    of its areas in address order ([vmas]); an area is the value of its
    [vm_area_struct], and [vm_next], [vm_prev] follow the list.  find_vma(),
    mprotect_fixup() and security_file_mprotect() belong to the kernel's mm and
    security code outside the repository: they are members of [MmEnv], and
    [MmLaws] states what the code relies on of them. *)

From S2P Require Import Prelude KList Sched.

(** * Constants of the kernel's headers (32-bit ARM, pages of 4096 bytes) *)
Definition PAGE_SIZE := 4096.
Definition PROT_READ := 1.
Definition PROT_EXEC := 4.
Definition PROT_GROWSDOWN := 0x01000000.
Definition PROT_GROWSUP := 0x02000000.
Definition VM_READ := 1.
Definition VM_WRITE := 2.
Definition VM_EXEC := 4.
Definition VM_GROWSDOWN := 0x100.
Definition VM_GROWSUP := 0.
Definition VM_RWX := Z.lor VM_READ (Z.lor VM_WRITE VM_EXEC).
Definition READ_IMPLIES_EXEC := 0x0400000.
Definition ENOSYS := 38.
Definition PAGE_ALIGN (x : Z) : Z := Z.ldiff (u32 (x + (PAGE_SIZE - 1))) (PAGE_SIZE - 1).

(** * Address spaces *)

(** [struct vm_area_struct] *)
Record vma := mkVma { vm_start : Z; vm_end : Z; vm_flags : Z }.

#[export] Instance vma_eq_dec : EqDecision vma.
Proof. solve_decision. Defined.

(** The areas of an address space are ordered and disjoint. *)
Fixpoint wf_vmas (lo : Z) (l : list vma) : Prop :=
  match l with
  | [] => True
  | v :: l => lo <= vm_start v /\ vm_start v < vm_end v /\ wf_vmas (vm_end v) l
  end.

Definition in_vma (a : Z) (v : vma) : bool := (vm_start v <=? a) && (a <? vm_end v).

(** The flags that govern address [a]. *)
Fixpoint flags_in (l : list vma) (a : Z) : option Z :=
  match l with
  | [] => None
  | v :: l => if in_vma a v then Some (vm_flags v) else flags_in l a
  end.

(** The area after, and before, area [v] of the list. *)
Fixpoint next_in (l : list vma) (v : vma) : option vma :=
  match l with
  | [] => None
  | w :: l => if bool_decide (w = v) then head l else next_in l v
  end.
Fixpoint prev_in (before : option vma) (l : list vma) (v : vma) : option vma :=
  match l with
  | [] => None
  | w :: l => if bool_decide (w = v) then before else prev_in (Some w) l v
  end.

Class MmEnv `{KTypes} := {
  Mm : Type;                                     (* struct mm_struct *)
  vmas : Mm -> list vma;                         (* mm->mmap and its links *)
  find_vma : Z -> Mm -> option vma;
  calc_vm_prot_bits : Z -> Z;
  arch_validate_prot : Z -> bool;
  security_file_mprotect : vma -> Z -> Z -> Ext -> Z;
  mprotect_fixup : vma -> option vma -> Z -> Z -> Z -> Mm -> Z * option vma * Mm;
  personality : nat -> Ext -> Z;
  pid_task : Z -> Ext -> option nat }.           (* pid_task(find_vpid(pid), PIDTYPE_PID) *)

Definition flags_at `{MmEnv} (mm : Mm) (a : Z) : option Z := flags_in (vmas mm) a.
Definition vm_next `{MmEnv} (mm : Mm) (v : vma) : option vma := next_in (vmas mm) v.
Definition vm_prev `{MmEnv} (mm : Mm) (v : vma) : option vma := prev_in None (vmas mm) v.

(** mm/mmap.c and mm/mprotect.c: find_vma() returns the first area that ends
    above the address; mprotect_fixup() of a part of an area, called with the
    preceding area, gives that part the new flags and leaves in [*pprev] the
    area that then contains it, or fails with a negative error and changes no
    permission; the security hook returns 0 or a negative error. *)
Class MmLaws `{MmEnv} : Prop := {
  vmas_wf mm : wf_vmas 0 (vmas mm);
  find_vma_spec a mm : find_vma a mm = head (filter (fun v => a < vm_end v) (vmas mm));
  prot_bits_spec p : calc_vm_prot_bits p = Z.land p VM_RWX;
  fixup_ok v prev s e f mm prev' mm' :
    v ∈ vmas mm -> vm_start v <= s -> s < e -> e <= vm_end v ->
    prev = (if vm_start v <? s then Some v else vm_prev mm v) ->
    mprotect_fixup v prev s e f mm = (0, prev', mm') ->
    (exists pv, prev' = Some pv /\ pv ∈ vmas mm' /\ vm_start pv <= s /\ e <= vm_end pv /\ vm_flags pv = f) /\
    forall a, flags_at mm' a = if (s <=? a) && (a <? e) then Some f else flags_at mm a;
  fixup_fails v prev s e f mm r prev' mm' :
    mprotect_fixup v prev s e f mm = (r, prev', mm') -> r <> 0 ->
    r < 0 /\ forall a, flags_at mm' a = flags_at mm a;
  security_errno v r p e : security_file_mprotect v r p e <= 0 }.

(** * The system calls *)

(** The scheduler's state and the address spaces. *)
Record mst `{MmEnv} := mkMst { k : kst; mms : nat -> Mm }.
#[export] Instance eta_mst `{MmEnv} : Eta mst := fun r => mkMst _ _ r.(k) r.(mms).

Section calls.
Context {KT : KTypes} {ME : MmEnv}.

Definition upd_mm (m : nat) (mm : Mm) (s : mst) : mst :=
  s <| mms ::= fun f n => if (n =? m)%nat then mm else f n |>.

(** The loop of mprotect_s() over the areas; [None] when the fuel is used up
    or a NULL pointer is read. *)
Fixpoint mprotect_loop (fuel : nat) (v : vma) (prev : option vma) (nstart end_ vmf reqprot prot : Z)
    (e : Ext) (mm : Mm) : option (Z * Mm) :=
  match fuel with
  | O => None
  | S fuel =>
      let newflags := Z.lor vmf (Z.ldiff (vm_flags v) VM_RWX) in
      if c_true (Z.land (Z.ldiff newflags (Z.shiftr newflags 4)) VM_RWX) then Some (- EACCES, mm)
      else
        let error := security_file_mprotect v reqprot prot e in
        if c_true error then Some (error, mm)
        else
          let tmp := vm_end v in
          let tmp := if end_ <? tmp then end_ else tmp in
          let '(error, prev, mm) := mprotect_fixup v prev nstart tmp newflags mm in
          if c_true error then Some (error, mm)
          else
            let nstart := tmp in
            match prev with
            | None => None
            | Some p =>
                let nstart := if nstart <? vm_end p then vm_end p else nstart in
                if end_ <=? nstart then Some (error, mm)
                else
                  match vm_next mm p with
                  | None => Some (- ENOMEM, mm)
                  | Some v =>
                      if negb (vm_start v =? nstart) then Some (- ENOMEM, mm)
                      else mprotect_loop fuel v (Some p) nstart end_ vmf reqprot prot e mm
                  end
            end
  end.

(** mprotect_s(), the module's copy of sys_mprotect(), on the address space
    [mm] of the calling task *)
Definition mprotect_mm (start len prot : Z) (p : nat) (e : Ext) (mm : Mm) : option (Z * Mm) :=
  let grows := Z.land prot (Z.lor PROT_GROWSDOWN PROT_GROWSUP) in
  let prot := Z.ldiff prot (Z.lor PROT_GROWSDOWN PROT_GROWSUP) in
  if grows =? Z.lor PROT_GROWSDOWN PROT_GROWSUP then Some (- EINVAL, mm)
  else if c_true (Z.land start (PAGE_SIZE - 1)) then Some (- EINVAL, mm)
  else if negb (c_true len) then Some (0, mm)
  else
    let len := PAGE_ALIGN len in
    let end_ := u32 (start + len) in
    if end_ <=? start then Some (- ENOMEM, mm)
    else if negb (arch_validate_prot prot) then Some (- EINVAL, mm)
    else
      let reqprot := prot in
      let prot := if has_flag prot PROT_READ && has_flag (personality p e) READ_IMPLIES_EXEC
                  then Z.lor prot PROT_EXEC else prot in
      let vmf := calc_vm_prot_bits prot in
      match find_vma start mm with
      | None => Some (- ENOMEM, mm)
      | Some v =>
          let prev := vm_prev mm v in
          let go start end_ :=
            let prev := if vm_start v <? start then Some v else prev in
            mprotect_loop (Z.to_nat (end_ - start)) v prev start end_ vmf reqprot prot e mm in
          if has_flag grows PROT_GROWSDOWN then
            if end_ <=? vm_start v then Some (- ENOMEM, mm)
            else
              let start := vm_start v in
              if negb (has_flag (vm_flags v) VM_GROWSDOWN) then Some (- EINVAL, mm)
              else go start end_
          else if start <? vm_start v then Some (- ENOMEM, mm)
          else if has_flag grows PROT_GROWSUP then
            let end_ := vm_end v in
            if negb (has_flag (vm_flags v) VM_GROWSUP) then Some (- EINVAL, mm)
            else go start end_
          else go start end_
      end.
Definition mprotect_s (start len prot : Z) (s : mst) : option (Z * mst) :=
  let c := curr (k s) in
  match t_mm (tasks (k s) c) with
  | None => None
  | Some m =>
      match mprotect_mm start len prot c (ext (k s)) (mms s m) with
      | None => None
      | Some (error, mm) => Some (error, upd_mm m mm s)
      end
  end.

(** sys_start_trace() *)
Definition sys_start_trace (pid start size : Z) (s : mst) : option (Z * mst) :=
  match pid_task pid (ext (k s)) with
  | None => Some (-1, s)
  | Some tsk =>
      if negb (t_pid (tasks (k s) tsk) =? t_pid (tasks (k s) (curr (k s)))) then Some (-1, s)
      else if trace_flag (tasks (k s) tsk) =? 1 then Some (- EINVAL, s)
      else
        let s := s <| k ::= upd_task tsk (fun t => t <| trace_flag := 1 |>) |> in
        let s := s <| k ::= upd_task tsk (fun t => t <| wcounts := 0 |>) |> in
        match mprotect_s start size PROT_READ s with
        | None => None
        | Some (error, s) => if error <? 0 then Some (-1, s) else Some (0, s)
        end
  end.

(** sys_stop_trace() *)
Definition sys_stop_trace (pid : Z) (s : mst) : Z * mst :=
  match pid_task pid (ext (k s)) with
  | None => (-1, s)
  | Some tsk =>
      if trace_flag (tasks (k s) tsk) =? 0 then (- EINVAL, s)
      else (0, s <| k ::= upd_task tsk (fun t => t <| trace_flag := 0 |>) |>)
  end.

(** sys_get_trace(): the result and the int written to user memory; the
    outcome of put_user(), [put_ok], is not looked at *)
Definition sys_get_trace (pid : Z) (put_ok : bool) (s : mst) : Z * option Z :=
  match pid_task pid (ext (k s)) with
  | None => (-1, None)
  | Some tsk => (0, if put_ok then Some (s32 (wcounts (tasks (k s) tsk))) else None)
  end.

(** sys_rr_fifo_trace(), sys_set_wcounts() *)
Definition sys_rr_fifo_trace (pid : Z) (s : mst) : Z * mst :=
  match pid_task pid (ext (k s)) with
  | None => (-1, s)
  | Some tsk => (0, s <| k ::= upd_task tsk (fun t => t <| rr_fifo_trace := 1 |>) |>)
  end.
Definition sys_set_wcounts (pid wc : Z) (s : mst) : Z * mst :=
  match pid_task pid (ext (k s)) with
  | None => (-1, s)
  | Some tsk => (0, s <| k ::= upd_task tsk (fun t => t <| wcounts := u32 wc |>) |>)
  end.
End calls.

(** * The modules *)

(** The state of a loaded module: the system call table, the saved entry and
    the two functions found by name (0 is NULL). *)
Record mod_state := mkMod {
  syscall_table : Z -> Z; oldcall : Z;
  mprotect_fixup_s : Z; security_file_mprotect_s : Z }.
#[export] Instance eta_mod : Eta mod_state := fun r =>
  mkMod r.(syscall_table) r.(oldcall) r.(mprotect_fixup_s) r.(security_file_mprotect_s).

Definition __NR_sys_start_trace := 361.
Definition __NR_sys_stop_trace := 362.
Definition __NR_sys_get_trace := 363.
Definition __NR_sys_rr_fifo_trace := 364.
Definition __NR_sys_set_wcounts := 365.

Definition set_entry (nr fn : Z) (m : mod_state) : mod_state :=
  m <| syscall_table ::= fun t n => if n =? nr then fn else t n |>.

(** addsyscall_init() of the four modules that need no lookup, with the number
    and the address of their system call, and addsyscall_exit() *)
Definition addsyscall_init (nr fn : Z) (m : mod_state) : Z * mod_state :=
  let m := m <| oldcall := syscall_table m nr |> in
  (0, set_entry nr fn m).
Definition addsyscall_exit (nr : Z) (m : mod_state) : mod_state := set_entry nr (oldcall m) m.

(** addsyscall_init() of start_trace.c; [lookup] is kallsyms_lookup_name() *)
Definition start_trace_init (lookup : string -> Z) (fn : Z) (m : mod_state) : Z * mod_state :=
  let m := m <| oldcall := syscall_table m __NR_sys_start_trace |> in
  let m := set_entry __NR_sys_start_trace fn m in
  let m := m <| mprotect_fixup_s := lookup "mprotect_fixup"%string |> in
  if mprotect_fixup_s m =? 0 then (- ENOSYS, m)
  else
    let m := m <| security_file_mprotect_s := lookup "security_file_mprotect"%string |> in
    if security_file_mprotect_s m =? 0 then (- ENOSYS, m)
    else (0, m).
