(* ===== verification/PageTraceSpec.v ===== *)
(** What page-write tracing guarantees (PageTrace.v): the protection of the
    traced range, the life cycle of the trace flag and the counter, and the
    installation of the system calls. *)

From S2P Require Import Prelude KList Sched Demo PageTrace.

(** * Lists of areas *)

Lemma wf_elem lo l v : wf_vmas lo l -> v ∈ l -> lo <= vm_start v /\ vm_start v < vm_end v.
Proof.
  revert lo. induction l as [|w l IH]; intros lo Hw Hv; [set_solver|].
  destruct Hw as (H1 & H2 & H3). apply elem_of_cons in Hv as [->|Hv]; [done|].
  destruct (IH _ H3 Hv). lia.
Qed.

Lemma flags_in_of lo l v a : wf_vmas lo l -> v ∈ l -> vm_start v <= a < vm_end v ->
  flags_in l a = Some (vm_flags v).
Proof.
  revert lo. induction l as [|w l IH]; intros lo Hw Hv Ha; [set_solver|].
  destruct Hw as (H1 & H2 & H3). cbn [flags_in]. unfold in_vma.
  apply elem_of_cons in Hv as [->|Hv].
  - rewrite (proj2 (Z.leb_le _ _)), (proj2 (Z.ltb_lt _ _)) by lia. done.
  - destruct (wf_elem _ _ _ H3 Hv). rewrite (proj2 (Z.ltb_ge a (vm_end w))), andb_false_r by lia.
    by apply (IH (vm_end w)).
Qed.

Lemma next_in_elem l v w : next_in l v = Some w -> v ∈ l /\ w ∈ l.
Proof.
  induction l as [|x l IH]; [done|]. cbn [next_in]. case_bool_decide as Hx.
  - subst x. intros Hh. apply head_Some_elem_of in Hh. set_solver.
  - intros Hn. destruct (IH Hn). set_solver.
Qed.

Lemma next_prev lo before l v w : wf_vmas lo l -> next_in l v = Some w ->
  prev_in before l w = Some v /\ vm_end v <= vm_start w.
Proof.
  revert lo before. induction l as [|x l IH]; intros lo before Hw Hn; [done|].
  pose proof Hw as (H1 & H2 & H3). cbn [next_in prev_in] in *. case_bool_decide as Hx.
  - subst x. destruct l as [|y l]; [done|]. injection Hn as ->. destruct H3 as (H4 & H5 & _).
    rewrite bool_decide_false by (intros ->; lia). cbn [prev_in]. by rewrite bool_decide_true.
  - destruct (next_in_elem _ _ _ Hn) as [_ Hwl]. destruct (wf_elem _ _ _ H3 Hwl).
    rewrite bool_decide_false by (intros ->; lia). by apply (IH (vm_end x)).
Qed.

Lemma first_above lo l a v : wf_vmas lo l -> head (filter (fun v => a < vm_end v) l) = Some v ->
  v ∈ l /\ a < vm_end v.
Proof.
  intros Hw Hh. apply head_Some_elem_of, list_elem_of_filter in Hh. tauto.
Qed.

(** * mprotect_s() *)

Section mprotect.
Context {KT : KTypes} {ME : MmEnv} {ML : MmLaws}.
Implicit Types (mm : Mm) (v : vma).

(** Every address of the range is mapped with exactly the permissions [vmf]. *)
Definition protected (mm : Mm) (lo hi vmf : Z) : Prop :=
  forall a, lo <= a < hi -> exists f, flags_at mm a = Some f /\ Z.land f VM_RWX = vmf.
Definition same_outside (mm mm' : Mm) (lo hi : Z) : Prop :=
  forall a, ~ (lo <= a < hi) -> flags_at mm' a = flags_at mm a.

Lemma new_flags vmf old : Z.land vmf VM_RWX = vmf ->
  Z.land (Z.lor vmf (Z.ldiff old VM_RWX)) VM_RWX = vmf.
Proof.
  intros E. rewrite Z.land_lor_distr_l, E. rewrite Z.ldiff_land, <- Z.land_assoc.
  rewrite (Z.land_comm (Z.lnot VM_RWX)), Z.land_lnot_diag, Z.land_0_r, Z.lor_0_r. done.
Qed.

(** What the loop guarantees from [nstart] on. *)
Record loop_done (mm mm' : Mm) (nstart end_ vmf err : Z) : Prop := {
  ld_errno : err <= 0;
  ld_outside : same_outside mm mm' nstart end_;
  ld_protected : err = 0 -> protected mm' nstart end_ vmf }.

Lemma loop_holds fuel v prev nstart end_ vmf reqprot prot e mm :
  Z.land vmf VM_RWX = vmf -> v ∈ vmas mm -> vm_start v <= nstart < vm_end v -> nstart < end_ ->
  prev = (if vm_start v <? nstart then Some v else vm_prev mm v) ->
  (Z.to_nat (end_ - nstart) <= fuel)%nat ->
  exists err mm', mprotect_loop fuel v prev nstart end_ vmf reqprot prot e mm = Some (err, mm') /\
                  loop_done mm mm' nstart end_ vmf err.
Proof.
  intros Hvmf. revert v prev nstart mm.
  induction fuel as [|fuel IH]; intros v prev nstart mm Hv Hns Hend Hprev Hfuel; [lia|].
  cbn [mprotect_loop]. set (newflags := Z.lor vmf _).
  assert (forall err, err < 0 -> loop_done mm mm nstart end_ vmf err) as Hsame.
  { intros. split; [lia|done|lia]. }
  destruct (c_true (Z.land (Z.ldiff newflags _) VM_RWX)).
  { eexists _, mm. split; [done|]. by apply Hsame. }
  destruct (c_true (security_file_mprotect v reqprot prot e)) eqn:Es.
  { apply c_true_iff in Es. eexists _, mm. split; [done|]. apply Hsame.
    pose proof (security_errno v reqprot prot e). lia. }
  set (tmp := if end_ <? vm_end v then end_ else vm_end v).
  assert (nstart < tmp <= vm_end v /\ tmp <= end_) as [Ht1 Ht2] by (unfold tmp; bcase; lia).
  destruct (mprotect_fixup v prev nstart tmp newflags mm) as [[err prev'] mm1] eqn:Ef.
  destruct (c_true err) eqn:Ec.
  { apply c_true_iff in Ec. destruct (fixup_fails _ _ _ _ _ _ _ _ _ Ef Ec) as [Hneg Hfl].
    exists err, mm1. split; [done|]. split; [lia| |done]. intros a _. apply Hfl. }
  apply c_true_false in Ec as ->.
  destruct (fixup_ok v prev nstart tmp newflags mm prev' mm1) as ((pv & -> & Hpv & P1 & P2 & P3) & Hfl);
    [done|lia|lia|lia|done|done|].
  set (n' := if tmp <? vm_end pv then vm_end pv else tmp).
  assert (n' = vm_end pv) as -> by (unfold n'; bcase; lia).
  assert (protected mm1 nstart (vm_end pv) vmf) as Hprot.
  { intros a Ha. exists (vm_flags pv). split.
    - apply (flags_in_of 0 _ pv); [apply vmas_wf|done|lia].
    - rewrite P3. by apply new_flags. }
  assert (same_outside mm mm1 nstart end_) as Hout.
  { intros a Ha. rewrite Hfl. destruct (Z.leb_spec nstart a), (Z.ltb_spec a tmp); simpl; try done. lia. }
  destruct (Z.leb_spec end_ (vm_end pv)) as [Hle|Hlt].
  { exists 0, mm1. split; [done|]. split; [done|done|]. intros _ a Ha. apply Hprot. lia. }
  destruct (vm_next mm1 pv) as [v2|] eqn:En.
  2: { exists (- ENOMEM), mm1. split; [done|]. by split. }
  destruct (Z.eqb_spec (vm_start v2) (vm_end pv)) as [E2|E2]; cbn [negb].
  2: { exists (- ENOMEM), mm1. split; [done|]. by split. }
  destruct (next_prev 0 None _ _ _ (vmas_wf mm1) En) as [Hpn _].
  destruct (next_in_elem _ _ _ En) as [_ Hv2]. destruct (wf_elem _ _ _ (vmas_wf mm1) Hv2) as [_ Hlen].
  destruct (IH v2 (Some pv) (vm_end pv) mm1) as (err & mm2 & E & [L0 L1 L2]); [done|lia|lia| |lia|].
  { rewrite E2, Z.ltb_irrefl. done. }
  exists err, mm2. split; [done|]. split; [done| |].
  - intros a Ha. rewrite L1 by lia. by apply Hout.
  - intros He a Ha. destruct (Z.lt_ge_cases a (vm_end pv)) as [Hlo|Hhi]; [|apply L2; [done|lia]].
    rewrite L1 by lia. apply Hprot. lia.
Qed.

Lemma page_align_range x : 0 <= PAGE_ALIGN x < 2 ^ 32.
Proof.
  unfold PAGE_ALIGN. pose proof (u32_range (x + (PAGE_SIZE - 1))) as H. set (y := u32 _) in *.
  split; [apply Z.ldiff_nonneg; lia|].
  apply Z.le_lt_trans with y; [|lia]. apply Z.ldiff_le; [lia|].
  apply Z.bits_inj'. intros i _. rewrite !Z.ldiff_spec, Z.bits_0. by destruct (Z.testbit y i), (Z.testbit _ i).
Qed.

(** The permissions that PROT_READ stands for. *)
Definition read_bits (p : nat) (e : Ext) : Z :=
  if has_flag (personality p e) READ_IMPLIES_EXEC then Z.lor VM_READ VM_EXEC else VM_READ.

(** mprotect_s(start, len, PROT_READ) on an address space. *)
Lemma mprotect_read_holds start len p e mm : 0 <= start < 2 ^ 32 ->
  exists err mm', mprotect_mm start len PROT_READ p e mm = Some (err, mm') /\ err <= 0 /\
    same_outside mm mm' start (start + PAGE_ALIGN len) /\
    (err = 0 -> len <> 0 -> protected mm' start (start + PAGE_ALIGN len) (read_bits p e)).
Proof.
  intros Hs. unfold mprotect_mm. change (Z.land PROT_READ _) with 0. change (Z.ldiff PROT_READ _) with PROT_READ.
  change (0 =? _) with false. change (has_flag PROT_READ PROT_READ) with true.
  change (has_flag 0 _) with false. cbn [andb].
  assert (forall err, err < 0 -> exists err' mm', Some (err, mm) = Some (err', mm') /\ err' <= 0 /\
    same_outside mm mm' start (start + PAGE_ALIGN len) /\
    (err' = 0 -> len <> 0 -> protected mm' start (start + PAGE_ALIGN len) (read_bits p e))) as Hfail.
  { intros err Herr. exists err, mm. split; [done|]. split; [lia|]. split; [done|lia]. }
  destruct (c_true (Z.land start (PAGE_SIZE - 1))); [by apply Hfail|].
  destruct (c_true len) eqn:El; cbn [negb].
  2: { apply c_true_false in El as ->. exists 0, mm. done. }
  pose proof (page_align_range len) as Hl. set (n := PAGE_ALIGN len) in *.
  destruct (Z.leb_spec (u32 (start + n)) start) as [|Hgt]; [by apply Hfail|].
  assert (u32 (start + n) = start + n) as Hend.
  { destruct (Z.lt_ge_cases (start + n) (2 ^ 32)); [apply u32_small; lia|].
    unfold u32 in *. rewrite <- (Z.mod_add _ (-1) (2 ^ 32)) in Hgt by lia.
    rewrite Z.mod_small in Hgt by lia. lia. }
  rewrite Hend in *. destruct (arch_validate_prot PROT_READ); cbn [negb]; [|by apply Hfail].
  rewrite find_vma_spec. destruct (head _) as [v|] eqn:Eh; [|by apply Hfail].
  destruct (first_above 0 _ _ _ (vmas_wf mm) Eh) as [Hv Hlt].
  destruct (Z.ltb_spec start (vm_start v)) as [|Hge]; [by apply Hfail|].
  set (prot := if has_flag (personality p e) _ then _ else PROT_READ).
  assert (calc_vm_prot_bits prot = read_bits p e) as ->.
  { unfold prot, read_bits. rewrite prot_bits_spec. by case_match. }
  destruct (loop_holds (Z.to_nat (start + n - start)) v (if vm_start v <? start then Some v else vm_prev mm v)
    start (start + n) (read_bits p e) PROT_READ prot e mm) as (err & mm' & E & [L0 L1 L2]);
    [unfold read_bits; by case_match|done|lia|lia|done|lia|].
  exists err, mm'. split; [done|]. split; [done|]. split; [done|]. intros He _. by apply L2.
Qed.
End mprotect.

(** * The system calls *)

Section calls.
Context {KT : KTypes} {ME : MmEnv} {ML : MmLaws}.
Implicit Types (s : mst) (p : nat).

(** A range of an address space that can be read but not written. *)
Definition write_protected (mm : Mm) (lo hi : Z) : Prop :=
  forall a, lo <= a < hi -> exists f, flags_at mm a = Some f /\ has_flag f VM_READ = true /\
                                      has_flag f VM_WRITE = false.

Lemma read_bits_protects p e f : Z.land f VM_RWX = read_bits p e ->
  has_flag f VM_READ = true /\ has_flag f VM_WRITE = false.
Proof.
  intros E. unfold has_flag.
  assert (forall m, Z.land m VM_RWX = m -> Z.land f m = Z.land (Z.land f VM_RWX) m) as H.
  { intros m Hm. rewrite <- Z.land_assoc, (Z.land_comm VM_RWX), Hm. done. }
  rewrite (H VM_READ), (H VM_WRITE), E by done. unfold read_bits. by case_match.
Qed.

(** The task after its counter and flag are set. *)
Definition started (c : nat) (x : kst) : kst :=
  upd_task c (fun t => t <| wcounts := 0 |>) (upd_task c (fun t => t <| trace_flag := 1 |>) x).

Lemma start_trace_holds pid start size s c m :
  pid_task pid (ext (k s)) = Some c -> curr (k s) = c -> trace_flag (tasks (k s) c) <> 1 ->
  t_mm (tasks (k s) c) = Some m -> 0 <= start < 2 ^ 32 ->
  let hi := start + PAGE_ALIGN size in
  exists r s', sys_start_trace pid start size s = Some (r, s') /\ (r = 0 \/ r = -1) /\
    trace_flag (tasks (k s') c) = 1 /\ wcounts (tasks (k s') c) = 0 /\
    same_outside (mms s m) (mms s' m) start hi /\
    (r = 0 -> size <> 0 -> write_protected (mms s' m) start hi) /\
    k s' = started c (k s).
Proof.
  intros Hpid Hc Hfl Hm Hs hi. unfold sys_start_trace. rewrite Hpid, Hc, Z.eqb_refl. cbn [negb].
  rewrite (proj2 (Z.eqb_neq _ _) Hfl).
  set (k1 := started c (k s)).
  assert (trace_flag (tasks k1 c) = 1 /\ wcounts (tasks k1 c) = 0 /\ t_mm (tasks k1 c) = Some m /\
          curr k1 = c /\ ext k1 = ext (k s)) as (E1 & E2 & E3 & E4 & E5).
  { unfold k1, started. rewrite !tasks_upd_eq. done. }
  change (s <| k ::= _ |> <| k ::= _ |>) with (mkMst _ _ k1 (mms s)). 
  unfold mprotect_s. cbn [k mms]. rewrite E4, E3, E5.
  destruct (mprotect_read_holds start size c (ext (k s)) (mms s m) Hs) as (err & mm' & -> & He & Ho & Hp).
  set (s' := upd_mm m mm' _).
  assert (k s' = k1 /\ mms s' m = mm') as [F1 F2] by (split; [done|]; unfold s'; simpl; by rewrite Nat.eqb_refl).
  exists (if err <? 0 then -1 else 0), s'. rewrite F1, F2.
  split; [by case_match|]. split; [case_match; auto|]. split; [done|]. split; [done|]. split; [done|].
  split; [|done]. intros Hr Hsz a Ha. destruct (Z.ltb_spec err 0) as [|Hz]; [done|].
  destruct (Hp ltac:(lia) Hsz a Ha) as (f & Ef & Eb). exists f. split; [done|]. by apply (read_bits_protects c (ext (k s))).
Qed.

(** A range that is accepted was rounded up and summed without overflow. *)
Lemma page_align_up x : 0 <= x < 2 ^ 32 -> PAGE_ALIGN x <> 0 -> x <= PAGE_ALIGN x.
Proof.
  unfold PAGE_ALIGN, PAGE_SIZE. change (4096 - 1) with (Z.ones 12). intros Hx. rewrite Z.ldiff_ones_r, Z.shiftl_mul_pow2, Z.shiftr_div_pow2 by lia.
  change (Z.ones 12) with 4095. change (2 ^ 12) with 4096. intros Hn. destruct (Z.lt_ge_cases (x + 4095) (2 ^ 32)) as [H|H].
  - rewrite u32_small in * by lia. pose proof (Z.div_mod (x + 4095) 4096). pose proof (Z.mod_pos_bound (x + 4095) 4096). lia.
  - exfalso. apply Hn. replace (u32 (x + 4095)) with (x + 4095 - 2 ^ 32); [rewrite Z.div_small by lia; lia|].
    unfold u32. rewrite <- (Z.mod_add (x + 4095) (-1)) by lia. rewrite Z.mod_small by lia. lia.
Qed.

Lemma mprotect_fits start len p e mm err mm' : mprotect_mm start len PROT_READ p e mm = Some (err, mm') ->
  0 <= err -> 0 <= start < 2 ^ 32 -> 0 <= len < 2 ^ 32 -> len <> 0 -> len <= PAGE_ALIGN len /\ start + PAGE_ALIGN len < 2 ^ 32.
Proof.
  unfold mprotect_mm. change (Z.ldiff PROT_READ _) with PROT_READ. change (Z.land PROT_READ (Z.lor PROT_GROWSDOWN PROT_GROWSUP)) with 0.
  change (0 =? Z.lor PROT_GROWSDOWN PROT_GROWSUP) with false. cbv iota zeta. intros E He Hs Hlen Hne.
  destruct (c_true (Z.land start (PAGE_SIZE - 1))); [injection E as <- _; unfold EINVAL in He; lia|].
  rewrite (proj2 (c_true_iff len)) in E by done. cbn [negb] in E.
  destruct (Z.leb_spec (u32 (start + PAGE_ALIGN len)) start) as [|Hgt]; [injection E as <- _; unfold ENOMEM in He; lia|].
  pose proof (page_align_range len). assert (start + PAGE_ALIGN len < 2 ^ 32) as Hf.
  { apply Z.nle_gt. intros Hle. unfold u32 in Hgt. rewrite <- (Z.mod_add _ (-1) (2 ^ 32)) in Hgt by lia. rewrite Z.mod_small in Hgt; lia. }
  split; [|done]. apply page_align_up; [done|]. intros H0. rewrite H0, Z.add_0_r, u32_small in Hgt by done. lia.
Qed.

Lemma start_trace_fits pid start size s c s' : pid_task pid (ext (k s)) = Some c -> curr (k s) = c -> trace_flag (tasks (k s) c) <> 1 ->
  sys_start_trace pid start size s = Some (0, s') -> 0 <= start < 2 ^ 32 -> 0 <= size < 2 ^ 32 -> size <> 0 ->
  size <= PAGE_ALIGN size /\ start + PAGE_ALIGN size < 2 ^ 32.
Proof.
  intros Hpid Hc Hfl. unfold sys_start_trace. rewrite Hpid, Hc, Z.eqb_refl, (proj2 (Z.eqb_neq _ _) Hfl). cbn [negb]. unfold mprotect_s.
  destruct (t_mm _); [|done]. destruct (mprotect_mm _ _ _ _ _ _) as [[err mm']|] eqn:E; [|done].
  destruct (Z.ltb_spec err 0); [done|]. intros _. by apply (mprotect_fits _ _ _ _ _ _ _ E).
Qed.

(** C26: sys_start_trace() for the calling task, which has user memory.  A task that is traced already
    gets EINVAL and nothing changes.  Otherwise, whatever becomes of the
    protection, the write counter is 0 and the flag is set; the call returns 0 or
    -1; and if it returns 0 for a size that is not 0, rounding the size up to whole
    pages and adding it to the start did not overflow, and every address of the
    pages of the range is mapped, readable and not writable.  No address outside
    the range changes. *)
Theorem sys_start_trace_spec pid start size s c m :
  pid_task pid (ext (k s)) = Some c -> curr (k s) = c ->
  t_mm (tasks (k s) c) = Some m -> 0 <= start < 2 ^ 32 -> 0 <= size < 2 ^ 32 ->
  let hi := start + PAGE_ALIGN size in
  if trace_flag (tasks (k s) c) =? 1 then sys_start_trace pid start size s = Some (- EINVAL, s)
  else exists r s', sys_start_trace pid start size s = Some (r, s') /\ (r = 0 \/ r = -1) /\
    trace_flag (tasks (k s') c) = 1 /\ wcounts (tasks (k s') c) = 0 /\
    same_outside (mms s m) (mms s' m) start hi /\
    (r = 0 -> size <> 0 -> size <= PAGE_ALIGN size /\ hi < 2 ^ 32 /\ write_protected (mms s' m) start hi).
Proof.
  intros Hpid Hc Hm Hs Hsz hi. destruct (Z.eqb_spec (trace_flag (tasks (k s) c)) 1) as [Hfl|Hfl].
  - unfold sys_start_trace. by rewrite Hpid, Hc, Z.eqb_refl, Hfl.
  - destruct (start_trace_holds pid start size s c m) as (r & s' & E & A & B & C & D & P & _); [done..|].
    exists r, s'. split_and!; try done. intros -> Hne.
    destruct (start_trace_fits pid start size s c s') as [F1 F2]; [done..|]. split; [done|]. split; [done|]. by apply P.
Qed.

(** the calls alternate.  While a task is traced another sys_start_trace()
    fails with EINVAL, and while it is not sys_stop_trace() does; both failures
    change nothing.  A successful stop clears the flag and keeps the counter,
    and sys_get_trace() reads the counter without changing anything. *)
Theorem trace_calls_alternate pid start size ok s c :
  pid_task pid (ext (k s)) = Some c -> curr (k s) = c ->
  trace_flag (tasks (k s) c) = 0 \/ trace_flag (tasks (k s) c) = 1 ->
  let '(stopped, s1) := sys_stop_trace pid s in
  sys_get_trace pid ok s = (0, if ok then Some (s32 (wcounts (tasks (k s) c))) else None) /\
  if trace_flag (tasks (k s) c) =? 1
  then sys_start_trace pid start size s = Some (- EINVAL, s) /\ stopped = 0 /\
       trace_flag (tasks (k s1) c) = 0 /\ wcounts (tasks (k s1) c) = wcounts (tasks (k s) c) /\
       sys_stop_trace pid s1 = (- EINVAL, s1)
  else stopped = - EINVAL /\ s1 = s.
Proof.
  intros Hpid Hc Hfl. unfold sys_stop_trace at 1, sys_get_trace, sys_start_trace.
  rewrite Hpid, Hc, Z.eqb_refl. cbn [negb].
  destruct Hfl as [-> | Hone]; [done|]. rewrite Hone.
  split; [done|]. split; [done|]. split; [done|]. unfold sys_stop_trace. cbn [k setf ext upd_task].
  rewrite tasks_upd_eq. split; [done|]. split; [done|]. cbn [setf ext upd_task]. rewrite Hpid.
  by rewrite tasks_upd_eq.
Qed.
End calls.

(** * The modules *)

(** loading a module replaces its own entry of the system call table and
    no other, and unloading it gives back the table as it was. *)
Theorem addsyscall_roundtrip nr fn (m : mod_state) :
  let '(r, m1) := addsyscall_init nr fn m in
  r = 0 /\ syscall_table m1 nr = fn /\
  (forall n, n <> nr -> syscall_table m1 n = syscall_table m n) /\
  forall n, syscall_table (addsyscall_exit nr m1) n = syscall_table m n.
Proof.
  unfold addsyscall_init, addsyscall_exit, set_entry. simpl.
  split; [done|]. split; [by rewrite Z.eqb_refl|]. split.
  - intros n Hn. by rewrite (proj2 (Z.eqb_neq _ _) Hn).
  - intros n. by destruct (Z.eqb_spec n nr) as [->|].
Qed.

(** start_trace.c is not undone when it fails to load: if either symbol is
    missing, addsyscall_init() returns ENOSYS and leaves the table entry
    pointing into the module that is about to be freed. *)
Theorem start_trace_init_failure lookup fn (m : mod_state) :
  let '(r, m1) := start_trace_init lookup fn m in
  syscall_table m1 __NR_sys_start_trace = fn /\
  (r = 0 <-> lookup "mprotect_fixup"%string <> 0 /\ lookup "security_file_mprotect"%string <> 0) /\
  (r = 0 \/ r = - ENOSYS).
Proof.
  unfold start_trace_init. cbv zeta. cbn [mprotect_fixup_s setf].
  destruct (Z.eqb_spec (lookup "mprotect_fixup"%string) 0) as [E1|E1]; [|cbn [security_file_mprotect_s setf];
    destruct (Z.eqb_spec (lookup "security_file_mprotect"%string) 0) as [E2|E2]];
    (split; [done|]); split; (done || naive_solver).
Qed.
