(* ===== verification/Fault.v ===== *)
(** The ARM page-fault path: arch/arm/mm/fault.c, with the count of the write
    faults of a traced task in access_error().

    The build has an MMU, two-level page tables (no LPAE) and no kprobes.  A
    fault ends in a return to the faulting code, in a signal, in a search of
    the kernel's exception table or an oops, or in the OOM killer; the last
    three are recorded as [fault_event]s in order.  What mm/ and the ARM code
    outside the repository do is a member of [FaultEnv]. *)

From S2P Require Import Prelude KList Sched PageTrace.

(** asm/fault.h, linux/mm.h, asm/pgtable-2level.h, signal numbers *)
Definition FSR_WRITE := 2 ^ 11.
Definition FSR_LNX_PF := 2 ^ 31.
Definition FAULT_FLAG_WRITE := 0x01.
Definition FAULT_FLAG_ALLOW_RETRY := 0x08.
Definition FAULT_FLAG_KILLABLE := 0x20.
Definition VM_FAULT_OOM := 0x0001.
Definition VM_FAULT_SIGBUS := 0x0002.
Definition VM_FAULT_MAJOR := 0x0004.
Definition VM_FAULT_HWPOISON := 0x0010.
Definition VM_FAULT_HWPOISON_LARGE := 0x0020.
Definition VM_FAULT_RETRY := 0x0400.
Definition VM_FAULT_ERROR :=
  Z.lor VM_FAULT_OOM (Z.lor VM_FAULT_SIGBUS (Z.lor VM_FAULT_HWPOISON VM_FAULT_HWPOISON_LARGE)).
Definition VM_FAULT_BADMAP := 0x010000.
Definition VM_FAULT_BADACCESS := 0x020000.
Definition FIRST_USER_ADDRESS := PAGE_SIZE.
Definition PGDIR_SHIFT := 21.
Definition SECTION_SHIFT := 20.
Definition SIGBUS := 7.
Definition SIGSEGV := 11.
Definition SEGV_MAPERR := 0x30001.
Definition SEGV_ACCERR := 0x30002.
Definition BUS_ADRERR := 0x20002.
Definition TRAP_NO := 14.

(** [struct pt_regs]: what the handlers ask of it. *)
Record pt_regs := mkRegs { user_mode : bool; interrupts_enabled : bool; ARM_pc : Z }.

Inductive fault_event :=
  | EvSignal (tsk : nat) (sig code addr : Z)
  | EvFixup (pc : Z)                         (* an exception table entry handled it *)
  | EvOops (addr fsr : Z)                    (* die() and do_exit() *)
  | EvOom
  | EvNotifyDie (sig code addr fsr : Z).     (* arm_notify_die() *)

Class FaultEnv `{MmEnv} := {
  handle_mm_fault : vma -> Z -> Z -> Mm -> Ext -> Z * Mm * Ext;
  expand_stack : vma -> Z -> Mm -> Z * Mm;
  in_atomic : Ext -> bool;
  irqs_disabled : Ext -> bool;
  down_read_trylock : nat -> Ext -> bool;
  search_exception_tables : Z -> bool;
  fixup_exception : Z -> bool;
  TASK_SIZE : Z;
  fsr_fs : Z -> nat }.

(** The state: the machine of PageTrace.v with the members of task_struct and
    the page tables that only this file uses. *)
Record fst_t `{MmEnv} := mkF {
  ms : mst;
  maj_flt : nat -> Z; min_flt : nat -> Z;
  thread_fault : nat -> Z * Z * Z;           (* thread.address, error_code, trap_no *)
  init_pgd : Z -> Z * Z;                     (* init_mm.pgd[]: two hardware entries *)
  cpu_pgd : Z -> Z * Z;                      (* cpu_get_pgd()[] *)
  events : list fault_event }.
#[export] Instance eta_f `{MmEnv} : Eta fst_t := fun r =>
  mkF _ _ r.(ms) r.(maj_flt) r.(min_flt) r.(thread_fault) r.(init_pgd) r.(cpu_pgd) r.(events).

Section fault.
Context {KT : KTypes} {ME : MmEnv} {FE : FaultEnv}.

(** [current] *)
Definition current (s : fst_t) : nat := curr (k (ms s)).
Definition cur_task (s : fst_t) : task_struct := tasks (k (ms s)) (current s).
Definition upd_k (f : kst -> kst) (s : fst_t) : fst_t := s <| ms ::= fun x => x <| k ::= f |> |>.
Definition emit (e : fault_event) (s : fst_t) : fst_t := s <| events ::= fun l => l ++ [e] |>.

(** include/linux/sched.h: fatal_signal_pending() *)
Definition fatal_signal_pending (t : task_struct) : bool := signal_pending t && __fatal_signal_pending t.

(** __do_kernel_fault(), __do_user_fault(), do_bad_area() *)
Definition __do_kernel_fault (addr fsr : Z) (regs : pt_regs) (s : fst_t) : fst_t :=
  if fixup_exception (ARM_pc regs) then emit (EvFixup (ARM_pc regs)) s
  else emit (EvOops addr fsr) s.
Definition __do_user_fault (tsk : nat) (addr fsr sig code : Z) (s : fst_t) : fst_t :=
  let s := s <| thread_fault ::= fun f p => if (p =? tsk)%nat then (addr, fsr, TRAP_NO) else f p |> in
  emit (EvSignal tsk sig code addr) s.
Definition do_bad_area (addr fsr : Z) (regs : pt_regs) (s : fst_t) : fst_t :=
  if user_mode regs then __do_user_fault (current s) addr fsr SIGSEGV SEGV_MAPERR s
  else __do_kernel_fault addr fsr regs s.

(** access_error() *)
Definition access_error (fsr : Z) (v : vma) (s : fst_t) : bool * fst_t :=
  let mask := VM_RWX in
  let mask := if has_flag fsr FSR_WRITE then VM_WRITE else mask in
  let mask := if has_flag fsr FSR_LNX_PF then VM_EXEC else mask in
  if has_flag (vm_flags v) mask then (false, s)
  else
    if (Z.land (vm_flags v) VM_WRITE =? 0) && (mask =? VM_WRITE) && (trace_flag (cur_task s) =? 1)
    then (true, upd_k (upd_task (current s) (fun t => t <| wcounts ::= fun n => u32 (n + 1) |>)) s)
    else (true, s).

Definition set_mm (m : nat) (mm : Mm) (s : fst_t) : fst_t := s <| ms ::= upd_mm m mm |>.
Definition mm_at (m : nat) (s : fst_t) : Mm := mms (ms s) m.
Definition fext (s : fst_t) : Ext := ext (k (ms s)).

(** __do_page_fault() *)
Definition good_area (m : nat) (v : vma) (addr fsr flags : Z) (s : fst_t) : Z * fst_t :=
  let '(bad, s) := access_error fsr v s in
  if bad : bool then (VM_FAULT_BADACCESS, s)
  else
    let '(fault, mm, e) := handle_mm_fault v (Z.ldiff addr (PAGE_SIZE - 1)) flags (mm_at m s) (fext s) in
    (fault, upd_k (fun x => x <| ext := e |>) (set_mm m mm s)).
Definition __do_page_fault (m : nat) (addr fsr flags : Z) (s : fst_t) : Z * fst_t :=
  match find_vma addr (mm_at m s) with
  | None => (VM_FAULT_BADMAP, s)
  | Some v =>
      if addr <? vm_start v then
        if has_flag (vm_flags v) VM_GROWSDOWN && (FIRST_USER_ADDRESS <=? addr) then
          let '(err, mm) := expand_stack v addr (mm_at m s) in
          let s := set_mm m mm s in
          if err =? 0 then good_area m v addr fsr flags s else (VM_FAULT_BADMAP, s)
        else (VM_FAULT_BADMAP, s)
      else good_area m v addr fsr flags s
  end.

(** do_page_fault() from the label [retry] to the release of mmap_sem: the
    fault's outcome, or [inl] for the return on a fatal signal; [None] when the
    fuel is used up. *)
Fixpoint fault_retry (fuel : nat) (m : nat) (addr fsr flags : Z) (s : fst_t) : option (fst_t + Z * fst_t) :=
  match fuel with
  | O => None
  | S fuel =>
      let tsk := current s in
      let '(fault, s) := __do_page_fault m addr fsr flags s in
      if has_flag fault VM_FAULT_RETRY && fatal_signal_pending (cur_task s) then Some (inl s)
      else if negb (has_flag fault VM_FAULT_ERROR) && has_flag flags FAULT_FLAG_ALLOW_RETRY then
        let s := if has_flag fault VM_FAULT_MAJOR
                 then s <| maj_flt ::= fun f p => if (p =? tsk)%nat then u32 (f p + 1) else f p |>
                 else s <| min_flt ::= fun f p => if (p =? tsk)%nat then u32 (f p + 1) else f p |> in
        if has_flag fault VM_FAULT_RETRY
        then fault_retry fuel m addr fsr (Z.ldiff flags FAULT_FLAG_ALLOW_RETRY) s
        else Some (inr (fault, s))
      else Some (inr (fault, s))
  end.

(** do_page_fault() after the release of mmap_sem *)
Definition fault_outcome (tsk : nat) (fault addr fsr : Z) (regs : pt_regs) (s : fst_t) : fst_t :=
  if negb (has_flag fault (Z.lor VM_FAULT_ERROR (Z.lor VM_FAULT_BADMAP VM_FAULT_BADACCESS))) then s
  else if has_flag fault VM_FAULT_OOM then emit EvOom s
  else if negb (user_mode regs) then __do_kernel_fault addr fsr regs s
  else
    let '(sig, code) :=
      if has_flag fault VM_FAULT_SIGBUS then (SIGBUS, BUS_ADRERR)
      else (SIGSEGV, if fault =? VM_FAULT_BADACCESS then SEGV_ACCERR else SEGV_MAPERR) in
    __do_user_fault tsk addr fsr sig code s.

(** do_page_fault(); it always returns 0 *)
Definition do_page_fault (addr fsr : Z) (regs : pt_regs) (s : fst_t) : option fst_t :=
  let flags := Z.lor (Z.lor FAULT_FLAG_ALLOW_RETRY FAULT_FLAG_KILLABLE)
                 (if has_flag fsr FSR_WRITE then FAULT_FLAG_WRITE else 0) in
  let tsk := current s in
  match t_mm (cur_task s) with
  | None => Some (__do_kernel_fault addr fsr regs s)
  | Some m =>
      if in_atomic (fext s) || irqs_disabled (fext s) then Some (__do_kernel_fault addr fsr regs s)
      else if negb (down_read_trylock m (fext s)) && negb (user_mode regs) &&
              negb (search_exception_tables (ARM_pc regs))
      then Some (__do_kernel_fault addr fsr regs s)
      else match fault_retry 2 m addr fsr flags s with
           | None => None
           | Some (inl s) => Some s
           | Some (inr (fault, s)) => Some (fault_outcome tsk fault addr fsr regs s)
           end
  end.

(** do_translation_fault(): a level of the table is two hardware entries; in
    the two-level layout pgd_none(), pud_none() are false and the present tests
    true, and copy_pmd() copies both entries *)
Definition do_translation_fault (addr fsr : Z) (regs : pt_regs) (s : fst_t) : option fst_t :=
  if addr <? TASK_SIZE then do_page_fault addr fsr regs s
  else if user_mode regs then Some (do_bad_area addr fsr regs s)
  else
    let index := Z.shiftr addr PGDIR_SHIFT in
    let pmd_k := init_pgd s index in
    let half := Z.land (Z.shiftr addr SECTION_SHIFT) 1 in
    if (if half =? 0 then pmd_k.1 else pmd_k.2) =? 0 then Some (do_bad_area addr fsr regs s)
    else Some (s <| cpu_pgd ::= fun f i => if i =? index then pmd_k else f i |>).

(** do_sect_fault(), do_bad() *)
Definition do_sect_fault (addr fsr : Z) (regs : pt_regs) (s : fst_t) : Z * option fst_t :=
  (0, Some (do_bad_area addr fsr regs s)).
Definition do_bad (addr fsr : Z) (regs : pt_regs) (s : fst_t) : Z * option fst_t := (1, Some s).

(** A handler of the fault tables; other files install further ones. *)
Inductive handler :=
  | FnPage | FnTranslation | FnSect | FnBad
  | FnOther (f : Z -> Z -> pt_regs -> fst_t -> Z * option fst_t).
Definition run_handler (h : handler) (addr fsr : Z) (regs : pt_regs) (s : fst_t) : Z * option fst_t :=
  match h with
  | FnPage => (0, do_page_fault addr fsr regs s)
  | FnTranslation => (0, do_translation_fault addr fsr regs s)
  | FnSect => do_sect_fault addr fsr regs s
  | FnBad => do_bad addr fsr regs s
  | FnOther f => f addr fsr regs s
  end.

(** [struct fsr_info]; the tables are in fsr-2level.c, outside the repository *)
Record fsr_info := mkFsr { fn : handler; fi_sig : Z; fi_code : Z }.

(** hook_fault_code(), hook_ifault_code(); [None] is the BUG() *)
Definition hook_fault_code (nr : Z) (h : handler) (sig code : Z) (tbl : list fsr_info) : option (list fsr_info) :=
  if (nr <? 0) || (Z.of_nat (length tbl) <=? nr) then None
  else Some (<[Z.to_nat nr := mkFsr h sig code]> tbl).
Definition hook_ifault_code := hook_fault_code.

(** do_DataAbort(), do_PrefetchAbort() *)
Definition dispatch (tbl : list fsr_info) (addr fsr fsr' : Z) (regs : pt_regs) (s : fst_t) : option fst_t :=
  match tbl !! fsr_fs fsr with
  | None => None
  | Some inf =>
      match run_handler (fn inf) addr fsr' regs s with
      | (_, None) => None
      | (r, Some s) =>
          if r =? 0 then Some s
          else Some (emit (EvNotifyDie (fi_sig inf) (fi_code inf) addr fsr) s)
      end
  end.
Definition do_DataAbort (tbl : list fsr_info) (addr fsr : Z) (regs : pt_regs) (s : fst_t) : option fst_t :=
  dispatch tbl addr fsr (Z.ldiff fsr FSR_LNX_PF) regs s.
Definition do_PrefetchAbort (tbl : list fsr_info) (addr ifsr : Z) (regs : pt_regs) (s : fst_t) : option fst_t :=
  dispatch tbl addr ifsr (Z.lor ifsr FSR_LNX_PF) regs s.

(** exceptions_init(); [arch] is cpu_architecture() *)
Definition exceptions_init (arch ARMv6 ARMv7 : Z) (tbl : list fsr_info) : option (list fsr_info) :=
  let tbl := if ARMv6 <=? arch then hook_fault_code 4 FnTranslation SIGSEGV SEGV_MAPERR tbl
             else Some tbl in
  if ARMv7 <=? arch then
    match tbl with
    | None => None
    | Some tbl =>
        match hook_fault_code 3 FnBad SIGSEGV SEGV_MAPERR tbl with
        | None => None
        | Some tbl => hook_fault_code 6 FnBad SIGSEGV SEGV_MAPERR tbl
        end
    end
  else tbl.
End fault.
