(* ===== verification/FaultSpec.v ===== *)
(** What the fault path does with a traced task (Fault.v): write faults on a
    protected page are counted, nothing else is, and the count reaches the
    scheduler as the task's RAS weight. *)

From S2P Require Import Prelude KList Sched Cpuacct Demo Ras PageTrace PageTraceSpec Fault.

Section find.
Context {KT : KTypes} {ME : MmEnv} {ML : MmLaws}.

Lemma in_vma_iff a v : in_vma a v = true <-> vm_start v <= a < vm_end v.
Proof. unfold in_vma. rewrite andb_true_iff, Z.leb_le, Z.ltb_lt. done. Qed.

(** find_vma() of a mapped address returns the area that contains it. *)
Lemma find_in lo l a f : wf_vmas lo l -> flags_in l a = Some f ->
  exists v, head (filter (fun v => a < vm_end v) l) = Some v /\ vm_start v <= a < vm_end v /\ vm_flags v = f.
Proof.
  revert lo. induction l as [|v l IH]; intros lo Hw Hf; [done|].
  destruct Hw as (H1 & H2 & H3). cbn [flags_in] in Hf. destruct (in_vma a v) eqn:Ei.
  - apply in_vma_iff in Ei as [A B]. injection Hf as <-. exists v. rewrite filter_cons_True by done. done.
  - destruct (IH _ H3 Hf) as (w & Hh & Ha & Hw).
    assert (vm_end v <= vm_start w) by (destruct (wf_elem (vm_end v) l w H3); [|done];
      apply head_Some_elem_of, list_elem_of_filter in Hh; tauto).
    rewrite filter_cons_False by lia. by exists w.
Qed.

Lemma find_mapped mm a f : flags_at mm a = Some f ->
  exists v, find_vma a mm = Some v /\ vm_start v <= a < vm_end v /\ vm_flags v = f.
Proof. intros Hf. rewrite find_vma_spec. by apply (find_in 0); [apply vmas_wf|]. Qed.
End find.

Section counting.
Context {KT : KTypes} {ME : MmEnv} {ML : MmLaws} {FE : FaultEnv}.
Implicit Types (s : fst_t) (p : nat).

(** A write fault (not a prefetch abort). *)
Definition write_fsr (fsr : Z) : Prop := has_flag fsr FSR_WRITE = true /\ has_flag fsr FSR_LNX_PF = false.

(** ** access_error() *)

Definition counted (fsr : Z) (v : vma) (s : fst_t) : bool :=
  has_flag fsr FSR_WRITE && negb (has_flag fsr FSR_LNX_PF) && negb (has_flag (vm_flags v) VM_WRITE) &&
  (trace_flag (cur_task s) =? 1).
Definition bump (s : fst_t) : fst_t :=
  upd_k (upd_task (current s) (fun t => t <| wcounts ::= fun n => u32 (n + 1) |>)) s.

Lemma access_error_eq fsr v s :
  (access_error fsr v s).2 = (if counted fsr v s then bump s else s) /\
  (counted fsr v s = true -> (access_error fsr v s).1 = true).
Proof.
  unfold access_error, counted. cbv zeta.
  assert (Z.land (vm_flags v) VM_WRITE =? 0 = negb (has_flag (vm_flags v) VM_WRITE)) as ->.
  { unfold has_flag, c_true. by rewrite negb_involutive. }
  destruct (has_flag fsr FSR_WRITE), (has_flag fsr FSR_LNX_PF); cbn [negb andb];
    change (VM_WRITE =? VM_WRITE) with true; change (VM_EXEC =? VM_WRITE) with false;
    change (VM_RWX =? VM_WRITE) with false; rewrite ?andb_false_r, ?andb_true_r; cbn [andb];
    try (by case_match).
  destruct (has_flag (vm_flags v) VM_WRITE); [done|]. cbn [negb andb]. by destruct (_ =? 1).
Qed.

(** ** What a fault may do to the tasks: count one write, or nothing *)

Definition unchanged (s s' : fst_t) : Prop :=
  tasks (k (ms s')) = tasks (k (ms s)) /\ rq (k (ms s')) = rq (k (ms s)).
Definition bumped (fsr : Z) (s s' : fst_t) : Prop :=
  tasks (k (ms s')) = tasks (k (ms (bump s))) /\ rq (k (ms s')) = rq (k (ms s)) /\
  write_fsr fsr /\ trace_flag (cur_task s) = 1.

(** A pass counts a write only to fail. *)
Definition pass_ok (fsr : Z) (s : fst_t) (r : Z * fst_t) : Prop :=
  unchanged s r.2 \/ (bumped fsr s r.2 /\ r.1 = VM_FAULT_BADACCESS).

Lemma good_area_ok m v addr fsr flags s : pass_ok fsr s (good_area m v addr fsr flags s).
Proof.
  unfold good_area, pass_ok. destruct (access_error_eq fsr v s) as [E1 E2].
  destruct (access_error fsr v s) as [bad s1]. simpl in E1, E2.
  destruct (counted fsr v s) eqn:Ec.
  - rewrite E2 by done. subst s1. right. split; [|done]. unfold counted in Ec.
    rewrite !andb_true_iff, negb_true_iff, negb_true_iff, Z.eqb_eq in Ec.
    destruct Ec as (((A & B) & C) & D). by repeat split.
  - subst s1. left. destruct bad; [done|].
    by destruct (handle_mm_fault _ _ _ _ _) as [[fault mm] e].
Qed.

Lemma pass_holds m addr fsr flags s : pass_ok fsr s (__do_page_fault m addr fsr flags s).
Proof.
  unfold __do_page_fault. destruct (find_vma addr _) as [v|]; [|by left].
  destruct (_ <? _); [|apply good_area_ok]. destruct (_ && _); [|by left].
  destruct (expand_stack v addr _) as [err mm]. destruct (err =? 0); [|by left].
  exact (good_area_ok m v addr fsr flags (set_mm m mm s)).
Qed.

(** The passes of the retry loop; the second pass ends it. *)
Definition retry_state (r : fst_t + Z * fst_t) : fst_t := match r with inl s => s | inr (_, s) => s end.
Definition one_count (fsr : Z) (s s' : fst_t) : Prop := unchanged s s' \/ bumped fsr s s'.

Lemma one_count_k fsr s s1 s2 : k (ms s2) = k (ms s1) -> one_count fsr s s1 -> one_count fsr s s2.
Proof. unfold one_count, unchanged, bumped. by intros ->. Qed.

Lemma count_fault (b : bool) p s :
  k (ms (if b then s <| maj_flt ::= fun f q => if (q =? p)%nat then u32 (f q + 1) else f q |>
       else s <| min_flt ::= fun f q => if (q =? p)%nat then u32 (f q + 1) else f q |>)) = k (ms s).
Proof. by destruct b. Qed.

Lemma flag_cleared flags : has_flag (Z.ldiff flags FAULT_FLAG_ALLOW_RETRY) FAULT_FLAG_ALLOW_RETRY = false.
Proof.
  unfold has_flag. rewrite Z.ldiff_land, <- Z.land_assoc, (Z.land_comm (Z.lnot _)), Z.land_lnot_diag, Z.land_0_r.
  done.
Qed.

Lemma pass_one_count fsr s r : pass_ok fsr s r -> one_count fsr s r.2.
Proof. intros [?|[? _]]; [by left|by right]. Qed.

Lemma last_pass fuel m addr fsr flags s : has_flag flags FAULT_FLAG_ALLOW_RETRY = false ->
  exists r, fault_retry (S fuel) m addr fsr flags s = Some r /\ one_count fsr s (retry_state r).
Proof.
  intros Hf. cbn [fault_retry]. pose proof (pass_one_count _ _ _ (pass_holds m addr fsr flags s)) as Hp.
  destruct (__do_page_fault m addr fsr flags s) as [fault s1]. cbn [snd] in Hp.
  rewrite Hf, andb_false_r. destruct (_ && _); [by exists (inl s1)|by exists (inr (fault, s1))].
Qed.

Lemma retry_holds m addr fsr flags s :
  exists r, fault_retry 2 m addr fsr flags s = Some r /\ one_count fsr s (retry_state r).
Proof.
  change (fault_retry 2) with (fault_retry (S 1)). remember 1%nat as n eqn:En. cbn [fault_retry].
  pose proof (pass_holds m addr fsr flags s) as Hp. pose proof (pass_one_count _ _ _ Hp) as Hc.
  destruct (__do_page_fault m addr fsr flags s) as [fault s1]. unfold pass_ok in Hp. cbn [snd fst] in Hp, Hc.
  destruct (_ && fatal_signal_pending _); [by exists (inl s1)|].
  destruct (negb _ && _); [|by exists (inr (fault, s1))]. cbv zeta.
  pose proof (count_fault (has_flag fault VM_FAULT_MAJOR) (current s) s1) as Ek.
  set (s2 := if has_flag fault VM_FAULT_MAJOR then _ else _) in *. clearbody s2.
  apply (one_count_k _ _ _ s2) in Hc; [|done].
  destruct (has_flag fault VM_FAULT_RETRY) eqn:Er; [|by exists (inr (fault, s2))].
  destruct Hp as [Hs|[_ ->]]; [|done]. subst n.
  destruct (last_pass 0 m addr fsr _ s2 (flag_cleared flags)) as (r & E & H2).
  exists r. split; [exact E|]. destruct Hs as [E1 E2]. rewrite <- Ek in E1, E2.
  destruct H2 as [[A B]|(A & B & C & D)]; [left; split; congruence|right].
  unfold bumped, bump, upd_k, cur_task, current, curr in *. cbn [ms k setf] in *.
  assert (forall x y : kst, tasks x = tasks y -> rq_curr (rq x) = rq_curr (rq y) ->
    tasks (upd_task (rq_curr (rq x)) (fun t => t <| wcounts ::= fun n => u32 (n + 1) |>) x) =
    tasks (upd_task (rq_curr (rq y)) (fun t => t <| wcounts ::= fun n => u32 (n + 1) |>) y)) as Hcong.
  { intros x y Ex Ey. simpl. by rewrite Ex, Ey. }
  split; [|split; [congruence|split; [done|]]].
  - rewrite A. apply Hcong; [done|by rewrite E2].
  - by rewrite <- E1, <- E2.
Qed.

Lemma fault_kst addr fsr regs s : k (ms (__do_kernel_fault addr fsr regs s)) = k (ms s).
Proof. unfold __do_kernel_fault. by destruct (fixup_exception _). Qed.

Lemma outcome_kst tsk fault addr fsr regs s : k (ms (fault_outcome tsk fault addr fsr regs s)) = k (ms s).
Proof.
  unfold fault_outcome. destruct (negb _); [done|]. destruct (has_flag fault VM_FAULT_OOM); [done|].
  destruct (negb _); [apply fault_kst|]. by destruct (has_flag fault VM_FAULT_SIGBUS).
Qed.

Lemma page_fault_holds addr fsr regs s :
  exists s', do_page_fault addr fsr regs s = Some s' /\ one_count fsr s s'.
Proof.
  unfold do_page_fault. destruct (t_mm (cur_task s)) as [m|].
  2: { eexists. split; [done|]. apply (one_count_k _ _ s); [apply fault_kst|by left]. }
  destruct (_ || _).
  { eexists. split; [done|]. apply (one_count_k _ _ s); [apply fault_kst|by left]. }
  destruct (_ && _).
  { eexists. split; [done|]. apply (one_count_k _ _ s); [apply fault_kst|by left]. }
  set (flags := Z.lor _ _). destruct (retry_holds m addr fsr flags s) as (r & -> & Hc).
  destruct r as [s1|[fault s1]]; [by exists s1|].
  eexists. split; [done|]. by apply (one_count_k _ _ s1); [apply outcome_kst|].
Qed.

(** ** A write to a protected page of the traced task *)

Record can_fault (s : fst_t) (m : nat) : Prop := {
  cf_mm : t_mm (cur_task s) = Some m;
  cf_atomic : in_atomic (fext s) || irqs_disabled (fext s) = false;
  cf_traced : trace_flag (cur_task s) = 1 }.

Lemma protected_fault m addr fsr flags s f :
  flags_at (mm_at m s) addr = Some f -> has_flag f VM_WRITE = false -> write_fsr fsr ->
  trace_flag (cur_task s) = 1 ->
  __do_page_fault m addr fsr flags s = (VM_FAULT_BADACCESS, bump s).
Proof.
  intros Hf Hw [W1 W2] Ht. unfold __do_page_fault.
  destruct (find_mapped _ _ _ Hf) as (v & -> & Hr & Hv). subst f.
  rewrite (proj2 (Z.ltb_ge _ _)) by lia. unfold good_area.
  destruct (access_error_eq fsr v s) as [E1 E2].
  assert (counted fsr v s = true) as Ec by (unfold counted; by rewrite W1, W2, Hw, Ht).
  rewrite Ec in *. destruct (access_error fsr v s) as [bad s1]. simpl in *. by rewrite E2, E1.
Qed.

(** The state after the counted fault and its signal. *)
Definition after_write (addr fsr : Z) (s : fst_t) : fst_t :=
  __do_user_fault (current s) addr fsr SIGSEGV SEGV_ACCERR
    (bump s <| min_flt ::= fun f q => if (q =? current s)%nat then u32 (f q + 1) else f q |>).

Lemma write_fault_holds addr fsr regs s m f :
  can_fault s m -> user_mode regs = true -> write_fsr fsr ->
  flags_at (mm_at m s) addr = Some f -> has_flag f VM_WRITE = false ->
  do_page_fault addr fsr regs s = Some (after_write addr fsr s).
Proof.
  intros [Hm Ha Ht] Hu Hw Hf Hnw. unfold do_page_fault. rewrite Hm, Ha, Hu. cbn [negb].
  rewrite andb_false_r. cbn [andb]. set (flags := Z.lor _ _).
  assert (has_flag flags FAULT_FLAG_ALLOW_RETRY = true) as Hfl.
  { unfold flags. by rewrite (proj1 Hw). }
  cbn [fault_retry]. rewrite (protected_fault m addr fsr flags s f) by done.
  change (has_flag VM_FAULT_BADACCESS VM_FAULT_RETRY) with false.
  change (has_flag VM_FAULT_BADACCESS VM_FAULT_ERROR) with false.
  change (has_flag VM_FAULT_BADACCESS VM_FAULT_MAJOR) with false. cbn [andb negb]. rewrite Hfl. cbv zeta.
  unfold fault_outcome.
  change (has_flag VM_FAULT_BADACCESS _) with true at 1. cbn [negb].
  change (has_flag VM_FAULT_BADACCESS VM_FAULT_OOM) with false.
  change (has_flag VM_FAULT_BADACCESS VM_FAULT_SIGBUS) with false. rewrite Hu. done.
Qed.
End counting.

Section properties.
Context {KT : KTypes} {ME : MmEnv} {ML : MmLaws} {FE : FaultEnv}.
Implicit Types (s : fst_t) (p : nat).

(** C27: a write of a traced task to a page it may not write is counted exactly
    once and reported to the task as SIGSEGV with SEGV_ACCERR at the written
    address; it is accounted as a minor fault, and neither the address space
    nor another task changes. *)
Theorem write_fault_counted addr fsr regs s m f :
  can_fault s m -> user_mode regs = true -> write_fsr fsr ->
  flags_at (mm_at m s) addr = Some f -> has_flag f VM_WRITE = false ->
  exists s', do_page_fault addr fsr regs s = Some s' /\
    wcounts (cur_task s') = u32 (wcounts (cur_task s) + 1) /\
    events s' = events s ++ [EvSignal (current s) SIGSEGV SEGV_ACCERR addr] /\
    min_flt s' (current s) = u32 (min_flt s (current s) + 1) /\
    mms (ms s') = mms (ms s) /\ current s' = current s /\
    forall p, p <> current s -> tasks (k (ms s')) p = tasks (k (ms s)) p.
Proof.
  intros Hc Hu Hw Hf Hnw. exists (after_write addr fsr s). split; [by apply (write_fault_holds _ _ _ _ m f)|].
  change (current (after_write addr fsr s)) with (current s). unfold cur_task.
  change (current (after_write addr fsr s)) with (current s).
  change (tasks (k (ms (after_write addr fsr s)))) with (tasks (k (ms (bump s)))).
  unfold bump, upd_k. cbn [ms k setf]. split; [by rewrite tasks_upd_eq|]. split; [done|]. split.
  - simpl. by rewrite Nat.eqb_refl.
  - split; [done|]. split; [done|]. intros p Hp. by rewrite tasks_upd_ne.
Qed.

(** the fault path counts nothing else.  do_page_fault() always returns
    (its retry loop makes at most two passes), never touches another task's
    counter, and adds at most one to the running task's, and only for a write
    fault of a task that is being traced. *)
Theorem page_fault_counts_once addr fsr regs s :
  exists s', do_page_fault addr fsr regs s = Some s' /\ current s' = current s /\
    (forall p, p <> current s -> tasks (k (ms s')) p = tasks (k (ms s)) p) /\
    (wcounts (cur_task s') = wcounts (cur_task s) \/
     wcounts (cur_task s') = u32 (wcounts (cur_task s) + 1) /\
     has_flag fsr FSR_WRITE = true /\ trace_flag (cur_task s) = 1).
Proof.
  destruct (page_fault_holds addr fsr regs s) as (s' & E & Hc). exists s'. split; [done|].
  assert (current s' = current s) as Ec.
  { unfold current, curr. destruct Hc as [[_ ->]|(_ & -> & _)]; done. }
  split; [done|]. unfold cur_task. rewrite Ec.
  destruct Hc as [[-> _]|(-> & _ & [Hw _] & Ht)]; [by split; [|left]|].
  unfold bump, upd_k. cbn [ms k setf]. split.
  - intros p Hp. by rewrite tasks_upd_ne.
  - right. by rewrite tasks_upd_eq.
Qed.

(** A task that writes at each address of [l] in turn, every write faulting. *)
Fixpoint write_all (l : list Z) (fsr : Z) (regs : pt_regs) (s : fst_t) : option fst_t :=
  match l with
  | [] => Some s
  | a :: l => match do_page_fault a fsr regs s with
              | None => None
              | Some s => write_all l fsr regs s
              end
  end.

Lemma after_write_task addr fsr s : cur_task (after_write addr fsr s) =
  (cur_task s) <| wcounts ::= fun n => u32 (n + 1) |>.
Proof.
  unfold cur_task. change (current (after_write addr fsr s)) with (current s).
  change (tasks (k (ms (after_write addr fsr s)))) with (tasks (k (ms (bump s)))).
  unfold bump, upd_k. cbn [ms k setf]. by rewrite tasks_upd_eq.
Qed.

Lemma write_all_holds l fsr regs s m lo hi : write_fsr fsr -> user_mode regs = true ->
  can_fault s m -> write_protected (mm_at m s) lo hi -> Forall (fun a => lo <= a < hi) l ->
  wcounts (cur_task s) = u32 (wcounts (cur_task s)) ->
  exists s', write_all l fsr regs s = Some s' /\
    wcounts (cur_task s') = u32 (wcounts (cur_task s) + Z.of_nat (length l)) /\
    events s' = events s ++ ((fun a => EvSignal (current s) SIGSEGV SEGV_ACCERR a) <$> l).
Proof.
  intros Hw Hu. revert s. induction l as [|a l IH]; intros s Hc Hp Hl Hr.
  - exists s. split; [done|]. rewrite Z.add_0_r, app_nil_r. done.
  - apply Forall_cons in Hl as [Ha Hl]. destruct (Hp a Ha) as (f & Hf & _ & Hnw). cbn [write_all].
    rewrite (write_fault_holds a fsr regs s m f) by done.
    pose proof (after_write_task a fsr s) as Et.
    destruct (IH (after_write a fsr s)) as (s' & E & Hwc & Hev).
    + destruct Hc as [C1 C2 C3]. split; [by rewrite Et|done|by rewrite Et].
    + done.
    + done.
    + rewrite Et. cbn [wcounts setf]. by rewrite u32_u32.
    + exists s'. split; [done|]. rewrite Hwc, Hev, Et. cbn [wcounts setf]. rewrite u32_add_l. split.
      * f_equal. simpl length. lia.
      * change (events (after_write a fsr s)) with (events s ++ [EvSignal (current s) SIGSEGV SEGV_ACCERR a]).
        rewrite <- app_assoc. done.
Qed.

(** C28: from the trace to the scheduler.  When sys_start_trace() has succeeded
    on a range and the task then writes [l], a list of addresses of the range,
    with every write trapping, the counter is the number of writes, each write
    was reported, and the Race-Averse scheduler will give the task the weight
    of that count: 10 below 16 writes, then one less for every doubling. *)
Theorem traced_writes_weight pid start size c m (s0 : mst) l fsr regs s :
  pid_task pid (ext (k s0)) = Some c -> curr (k s0) = c -> trace_flag (tasks (k s0) c) <> 1 ->
  t_mm (tasks (k s0) c) = Some m -> 0 <= start < 2 ^ 32 -> size <> 0 ->
  sys_start_trace pid start size s0 = Some (0, ms s) ->
  in_atomic (fext s) || irqs_disabled (fext s) = false ->
  user_mode regs = true -> write_fsr fsr ->
  Forall (fun a => start <= a < start + PAGE_ALIGN size) l ->
  let n := Z.of_nat (length l) in n < 2 ^ 32 ->
  exists s', write_all l fsr regs s = Some s' /\ wcounts (cur_task s') = n /\
    events s' = events s ++ ((fun a => EvSignal c SIGSEGV SEGV_ACCERR a) <$> l) /\
    calc_ras_weight (cur_task s') = (if n <? 16 then 10 else Z.max 0 (13 - Z.log2 n)).
Proof.
  intros Hpid Hc Hfl Hm Hs Hsz Hst Hat Hu Hw Hl n Hn.
  destruct (start_trace_holds pid start size s0 c m) as (r & s1 & E & _ & F1 & F2 & _ & Hp & Hk); [done..|].
  rewrite Hst in E. injection E as <- <-. specialize (Hp eq_refl Hsz).
  assert (current s = c) as Ec by (unfold current; rewrite Hk; done).
  assert (can_fault s m) as Hcf.
  { split; [|done|unfold cur_task; by rewrite Ec]. unfold cur_task. rewrite Ec, Hk. unfold started.
    by rewrite !tasks_upd_eq. }
  destruct (write_all_holds l fsr regs s m start (start + PAGE_ALIGN size)) as (s' & E' & Hwc & Hev); [done..| |].
  { unfold cur_task. by rewrite Ec, F2. }
  unfold cur_task in Hwc at 2. rewrite Ec, F2, Z.add_0_l, u32_small in Hwc by lia. fold n in Hwc.
  exists s'. split; [done|]. split; [done|]. split; [by rewrite Hev, Ec|].
  rewrite calc_ras_weight_log by (rewrite Hwc; lia). by rewrite Hwc.
Qed.
End properties.
