(* ===== verification/TraceWitness.v ===== *)
(** Instances of the theorems about page-write tracing, on the concrete
    machine of Demo.v with a concrete address space: the list of its areas,
    with an mprotect_fixup() that splits an area in up to three. *)

From S2P Require Import Prelude KList Sched Cpuacct Demo Ras PageTrace PageTraceSpec Fault FaultSpec.
Import Demo RingLists.

Module TraceDemo.

Fixpoint wf_b (lo : Z) (l : list vma) : bool :=
  match l with
  | [] => true
  | v :: l => (lo <=? vm_start v) && (vm_start v <? vm_end v) && wf_b (vm_end v) l
  end.

Lemma wf_b_iff lo l : wf_b lo l = true <-> wf_vmas lo l.
Proof.
  revert lo. induction l as [|v l IH]; intros lo; [done|]. cbn [wf_b wf_vmas].
  rewrite !andb_true_iff, Z.leb_le, Z.ltb_lt, IH. tauto.
Qed.

Lemma wf_lower lo lo' l : lo' <= lo -> wf_vmas lo l -> wf_vmas lo' l.
Proof. destruct l; [done|]. intros ? (? & ? & ?). split; [lia|done]. Qed.

(** The area [v] cut at [s] and [e], with the flags [f] in between. *)
Definition pieces (v : vma) (s e f : Z) : list vma :=
  (if vm_start v <? s then [mkVma (vm_start v) s (vm_flags v)] else []) ++
  mkVma s e f :: (if e <? vm_end v then [mkVma e (vm_end v) (vm_flags v)] else []).
Fixpoint split_vma (l : list vma) (v : vma) (s e f : Z) : list vma :=
  match l with
  | [] => []
  | w :: l => if bool_decide (w = v) then pieces v s e f ++ l else w :: split_vma l v s e f
  end.

Lemma split_wf lo l v s e f : wf_vmas lo l -> vm_start v <= s -> s < e -> e <= vm_end v ->
  wf_vmas lo (split_vma l v s e f).
Proof.
  intros Hw H1 H2 H3. revert lo Hw. induction l as [|w l IH]; intros lo Hw; [done|].
  destruct Hw as (A & B & C). cbn [split_vma]. case_bool_decide as E.
  - subst w. unfold pieces. destruct (Z.ltb_spec (vm_start v) s), (Z.ltb_spec e (vm_end v)); simpl;
      (repeat split; try lia; try done); apply (wf_lower (vm_end v)); done || lia.
  - split; [done|]. split; [done|]. by apply IH.
Qed.

Lemma flags_below lo l a : wf_vmas lo l -> a < lo -> flags_in l a = None.
Proof.
  revert lo. induction l as [|v l IH]; intros lo Hw Ha; [done|]. destruct Hw as (A & B & C).
  cbn [flags_in]. unfold in_vma. rewrite (proj2 (Z.leb_gt (vm_start v) a)) by lia. cbn [andb].
  apply (IH (vm_end v)); [done|lia].
Qed.

Lemma split_flags lo l v s e f a : wf_vmas lo l -> v ∈ l -> vm_start v <= s -> s < e -> e <= vm_end v ->
  flags_in (split_vma l v s e f) a = if (s <=? a) && (a <? e) then Some f else flags_in l a.
Proof.
  intros Hw Hv H1 H2 H3. revert lo Hw. induction l as [|w l IH]; intros lo Hw; [set_solver|].
  destruct Hw as (A & B & C). cbn [split_vma]. case_bool_decide as E.
  - subst w. unfold pieces.
    destruct (Z.ltb_spec (vm_start v) s), (Z.ltb_spec e (vm_end v)); simpl; unfold in_vma; simpl;
      bcase; simpl; try done; try lia.
  - apply elem_of_cons in Hv as [->|Hv]; [done|]. cbn [flags_in]. rewrite (IH Hv (vm_end w) C).
    destruct (wf_elem _ _ _ C Hv). destruct (in_vma a w) eqn:Ei; [|done].
    apply in_vma_iff in Ei. rewrite (proj2 (Z.leb_gt s a)) by lia. done.
Qed.

Lemma split_elem l v s e f : v ∈ l -> mkVma s e f ∈ split_vma l v s e f.
Proof.
  induction l as [|w l IH]; intros Hv; [set_solver|]. cbn [split_vma]. case_bool_decide as E.
  - unfold pieces. rewrite !elem_of_app, elem_of_cons. left. right. by left.
  - apply elem_of_cons in Hv as [->|Hv]; [done|]. rewrite elem_of_cons. right. by apply IH.
Qed.

Definition space : Type := { l : list vma | wf_b 0 l = true }.

Lemma split_ok (mm : space) v s e f : vm_start v <= s -> s < e -> e <= vm_end v ->
  wf_b 0 (split_vma (proj1_sig mm) v s e f) = true.
Proof. intros. apply wf_b_iff, split_wf; [|done..]. apply wf_b_iff, (proj2_sig mm). Qed.

Definition fixup (v : vma) (prev : option vma) (s e f : Z) (mm : space) : Z * option vma * space :=
  match decide (vm_start v <= s), decide (s < e), decide (e <= vm_end v) with
  | left H1, left H2, left H3 =>
      (0, Some (mkVma s e f), exist _ (split_vma (proj1_sig mm) v s e f) (split_ok mm v s e f H1 H2 H3))
  | _, _, _ => (- ENOMEM, prev, mm)
  end.

#[export] Instance mm_env : MmEnv := {|
  Mm := space;
  vmas := fun mm => proj1_sig mm;
  find_vma := fun a mm => head (filter (fun v => a < vm_end v) (proj1_sig mm));
  calc_vm_prot_bits := fun p => Z.land p VM_RWX;
  arch_validate_prot := fun _ => true;
  security_file_mprotect := fun _ _ _ _ => 0;
  mprotect_fixup := fixup;
  personality := fun _ _ => 0;
  pid_task := fun pid _ => Some (Z.to_nat pid) |}.

#[export] Instance mm_laws : MmLaws.
Proof.
  split.
  - intros mm. apply wf_b_iff, (proj2_sig mm).
  - done.
  - done.
  - intros v prev s e f mm prev' mm' Hv H1 H2 H3 _. simpl. unfold fixup.
    repeat (case_decide; [|lia]). intros [= <- <-]. split.
    + exists (mkVma s e f). simpl. split; [done|]. split; [by apply split_elem|]. split; [lia|]. split; [lia|done].
    + intros a. apply (split_flags 0); [|done..]. apply wf_b_iff, (proj2_sig mm).
  - intros v prev s e f mm r prev' mm'. simpl. unfold fixup.
    repeat case_decide; intros [= <- <- <-] Hr; try done; (split; [|done]); unfold ENOMEM; lia.
  - simpl. lia.
Qed.

#[export] Instance fault_env : FaultEnv := {|
  handle_mm_fault := fun _ _ _ mm e => (0, mm, e);
  expand_stack := fun _ _ mm => (- ENOMEM, mm);
  in_atomic := fun _ => false;
  irqs_disabled := fun _ => false;
  down_read_trylock := fun _ _ => true;
  search_exception_tables := fun _ => false;
  fixup_exception := fun _ => false;
  TASK_SIZE := 0xbf000000;
  fsr_fs := fun fsr => Z.to_nat (Z.land fsr 15) |}.

(** Task 1 has four writable pages from 0x10000 on. *)
Definition mm1 : space := exist _ [mkVma 0x10000 0x14000 0x73] eq_refl.
Definition m0 : mst := {|
  k := set_task 1 (task0 <| t_mm := Some 7%nat |>) (idle_state <| rq ::= fun r => r <| rq_curr := 1%nat |> |>);
  mms := fun _ => mm1 |}.

(** Traced on its second and third page. *)
Definition m1 : mst := match sys_start_trace 1 0x11000 8192 m0 with Some (_, s) => s | None => m0 end.
Definition f1 : fst_t := {|
  ms := m1; maj_flt := fun _ => 0; min_flt := fun _ => 0; thread_fault := fun _ => (0, 0, 0);
  init_pgd := fun _ => (0, 0); cpu_pgd := fun _ => (0, 0); events := [] |}.
Definition user : pt_regs := mkRegs true true 0x8000.

Lemma m1_started : sys_start_trace 1 0x11000 8192 m0 = Some (0, m1).
Proof.
  unfold m1. destruct (start_trace_holds 1 0x11000 8192 m0 1 7) as (r & s' & E & _);
    [reflexivity|reflexivity|vm_compute; discriminate|reflexivity|split; vm_compute; congruence|].
  assert (fst <$> sys_start_trace 1 0x11000 8192 m0 = Some 0) as E0 by (vm_compute; reflexivity).
  rewrite E in E0 |- *. simpl in E0. injection E0 as ->. reflexivity.
Qed.
End TraceDemo.
Import TraceDemo.

Lemma sys_start_trace_spec_witness :
  exists s', sys_start_trace 1 0x11000 8192 m0 = Some (0, s') /\
    write_protected (mms s' 7%nat) 0x11000 0x13000.
Proof.
  assert ((trace_flag (tasks (k m0) 1%nat) =? 1) = false) as Hf by (vm_compute; reflexivity).
  pose proof (sys_start_trace_spec 1 0x11000 8192 m0 1 7) as H. cbv zeta in H. rewrite Hf in H.
  destruct H as (r & s' & E & _ & _ & _ & _ & Hp);
    [reflexivity|reflexivity|reflexivity|split; vm_compute; congruence|split; vm_compute; congruence|].
  rewrite m1_started in E. injection E as <- <-. exists m1. split; [exact m1_started|].
  destruct (Hp eq_refl ltac:(discriminate)) as (_ & _ & W). exact W.
Defined.

Lemma trace_calls_alternate_witness :
  sys_start_trace 1 0 0 m1 = Some (- EINVAL, m1).
Proof.
  pose proof (trace_calls_alternate 1 0 0 true m1 1) as H.
  assert (trace_flag (tasks (k m1) 1%nat) = 1) as Ef by (vm_compute; reflexivity).
  destruct (sys_stop_trace 1 m1) as [r s1]. rewrite Ef in H.
  apply H; [reflexivity|vm_compute; reflexivity|right; reflexivity].
Defined.

Lemma write_fault_counted_witness :
  exists s', do_page_fault 0x11004 FSR_WRITE user f1 = Some s' /\ wcounts (cur_task s') = 1.
Proof.
  destruct (write_fault_counted 0x11004 FSR_WRITE user f1 7 0x71) as (s' & E & Hw & _);
    [split; vm_compute; reflexivity|reflexivity|split; reflexivity|vm_compute; reflexivity|reflexivity|].
  exists s'. split; [exact E|]. rewrite Hw. vm_compute. reflexivity.
Defined.

Lemma traced_writes_weight_witness :
  exists s', write_all (replicate 20 0x12000) FSR_WRITE user f1 = Some s' /\ calc_ras_weight (cur_task s') = 9.
Proof.
  destruct (traced_writes_weight 1 0x11000 8192 1 7 m0 (replicate 20 0x12000) FSR_WRITE user f1)
    as (s' & E & _ & _ & Hc);
    [reflexivity|reflexivity|vm_compute; discriminate|reflexivity|split; vm_compute; congruence|discriminate
    |exact m1_started|reflexivity|reflexivity|split; reflexivity
    |apply Forall_forall; intros a Ha; apply elem_of_replicate in Ha as [-> _]; split; vm_compute; congruence
    |vm_compute; reflexivity|].
  exists s'. split; [exact E|]. rewrite Hc. reflexivity.
Defined.
