(* ===== verification/Pstree.v ===== *)
(** The process-tree system call and the program that prints its result:
    src/Project1/Problem1/sys_ptree.c and Problem2/ptree.c.

    The kernel's process tree is the [children] and [sibling] links of the
    tasks ([Children p], [Sibling p] of KList.v).  The user's buffer is a map
    from indices to [prinfo]s; [put_ok i f] says whether put_user() of the member
    [f] of entry [i] succeeds, and [copied i] how many bytes of the member [comm]
    of entry [i] copy_to_user() can write before it faults, all of them or only a
    prefix (the system call only logs a failure).
    Locks and logging have no effect on the result. *)

From S2P Require Import Prelude KList Sched.
From stdpp Require Import pretty.
#[local] Open Scope Z_scope.

(** [struct prinfo] *)
Record prinfo := mkPr {
  parent_pid : Z; pr_pid : Z; first_child_pid : Z; next_sibling_pid : Z;
  pr_state : Z; pr_uid : Z; pr_comm : list Z; pr_layer : Z }.
#[export] Instance eta_pr : Eta prinfo := fun r =>
  mkPr r.(parent_pid) r.(pr_pid) r.(first_child_pid) r.(next_sibling_pid)
    r.(pr_state) r.(pr_uid) r.(pr_comm) r.(pr_layer).

(** The members that put_user() writes. *)
Inductive pr_field := FParent | FPid | FChild | FSibling | FState | FUid | FLayer.

Definition ubuf : Type := Z -> prinfo.

(** [init_task] *)
Definition init_task : nat := 0.
(** "Finish here!" with its terminating NUL *)
Definition finish_here : list Z :=
  [70; 105; 110; 105; 115; 104; 32; 104; 101; 114; 101; 33; 0]%Z.

Section ptree.
Context {KT : KTypes}.
Variable put_ok : Z -> pr_field -> bool.
Variable copied : Z -> nat.
Variable s : kst.
Variable nr : Z.                             (* *nr *)

(** Put_user(), and Copy_to_user() of [bytes] to the member [comm] *)
Definition Put (i : Z) (f : pr_field) (g : prinfo -> prinfo) (b : ubuf) : ubuf :=
  if put_ok i f then fun j => if j =? i then g (b i) else b j else b.
Definition copy_bytes (n : nat) (bytes old : list Z) : list Z := take n bytes ++ drop (n `min` length bytes) old.
Definition Copy_comm (i : Z) (bytes : list Z) (b : ubuf) : ubuf := fun j =>
  if j =? i then (b i) <| pr_comm ::= copy_bytes (copied i) bytes |> else b j.

(** list_entry(): the task of a sibling link *)
Definition task_of_sibling (n : node) : option nat :=
  match n with Sibling p => Some p | _ => None end.
Definition pid_of_sibling (n : node) : Z :=
  match task_of_sibling n with Some q => t_pid (tasks s q) | None => 0 end.

(** The body of pstree_dfs() for a child while there is room. *)
Definition fill_entry (i : Z) (t_child : nat) (layer : Z) (b : ubuf) : ubuf :=
  let t := tasks s t_child in
  let ppid := match real_parent t with Some q => t_pid (tasks s q) | None => 0 end in
  let b := Put i FParent (fun e => e <| parent_pid := ppid |>) b in
  let b := Put i FPid (fun e => e <| pr_pid := t_pid t |>) b in
  let child := if list_empty (links s) (Children t_child) then 0
               else pid_of_sibling (list_next (links s) (Children t_child)) in
  let b := Put i FChild (fun e => e <| first_child_pid := child |>) b in
  let p := Sibling t_child in
  let sib := if list_empty (links s) p then 0
             else if bool_decide (Some (list_next (links s) p) = Children <$> real_parent t) then 0
             else pid_of_sibling (list_next (links s) p) in
  let b := Put i FSibling (fun e => e <| next_sibling_pid := sib |>) b in
  let b := Put i FState (fun e => e <| pr_state := t_state t |>) b in
  let b := Put i FUid (fun e => e <| pr_uid := cr_uid (t_cred t) |>) b in
  let b := Copy_comm i (t_comm t) b in
  Put i FLayer (fun e => e <| pr_layer := layer |>) b.

(** pstree_dfs(): list_for_each() over the children from the link [cur], with
    the recursive call in its body; [*layer] is restored after each call.
    [None] when the fuel is used up or a link is not a sibling's. *)
Fixpoint dfs_loop (fuel : nat) (head cur : node) (idx layer : Z) (b : ubuf) : option (Z * ubuf) :=
  match fuel with
  | O => None
  | S fuel =>
      if bool_decide (cur = head) then Some (idx, b)
      else
        match task_of_sibling cur with
        | None => None
        | Some t_child =>
            let '(idx, b) := if idx <? nr then (idx + 1, fill_entry idx t_child layer b) else (idx, b) in
            match dfs_loop fuel (Children t_child) (list_next (links s) (Children t_child)) idx (layer + 1) b with
            | None => None
            | Some (idx, b) => dfs_loop fuel head (list_next (links s) cur) idx layer b
            end
        end
  end.
Definition pstree_dfs (fuel : nat) (idx layer : Z) (task : nat) (b : ubuf) : option (Z * ubuf) :=
  dfs_loop fuel (Children task) (list_next (links s) (Children task)) idx layer b.

(** The entry ptree() writes for [init_task]. *)
Definition fill_init (i layer : Z) (b : ubuf) : ubuf :=
  let t := tasks s init_task in
  let b := Put i FParent (fun e => e <| parent_pid := 0 |>) b in
  let b := Put i FPid (fun e => e <| pr_pid := t_pid t |>) b in
  let child := if list_empty (links s) (Children init_task) then 0
               else pid_of_sibling (list_next (links s) (Children init_task)) in
  let b := Put i FChild (fun e => e <| first_child_pid := child |>) b in
  let b := Put i FSibling (fun e => e <| next_sibling_pid := 0 |>) b in
  let b := Put i FState (fun e => e <| pr_state := t_state t |>) b in
  let b := Put i FUid (fun e => e <| pr_uid := cr_uid (t_cred t) |>) b in
  let b := Copy_comm i (t_comm t) b in
  Put i FLayer (fun e => e <| pr_layer := layer |>) b.

(** ptree(): the result and the buffer; the booleans say that [buf] and the
    pointer [nr] are NULL *)
Definition ptree (fuel : nat) (buf_null nr_null : bool) (b : ubuf) : option (Z * ubuf) :=
  if buf_null || nr_null then Some (1, b)
  else
    let idx := 0 in
    let layer := 0 in
    let '(idx, b) := if idx <? nr then (idx + 1, fill_init idx layer b) else (idx, b) in
    let layer := layer + 1 in
    match pstree_dfs fuel idx layer init_task b with
    | None => None
    | Some (idx, b) =>
        let b := if idx <? nr
                 then Copy_comm idx finish_here b
                 else b in
        Some (0, b)
    end.
End ptree.

(** * ptree.c *)

(** The bytes of a C string up to its NUL. *)
Fixpoint c_str (l : list Z) : list Z :=
  match l with
  | [] => []
  | c :: l => if c =? 0 then [] else c :: c_str l
  end.
Definition string_of (l : list Z) : string :=
  String.string_of_list_ascii ((fun z => Ascii.ascii_of_N (Z.to_N z)) <$> c_str l).
(** strcmp() of two strings, as the equality the code asks for *)
Definition str_eq (a b : list Z) : bool := bool_decide (c_str a = c_str b).

(** The line printed for an entry: four blanks per layer and the seven fields. *)
Fixpoint indent (n : nat) : string :=
  match n with O => "" | S n => "    " +:+ indent n end.
Definition pr_line (e : prinfo) : string :=
  indent (Z.to_nat (pr_layer e)) +:+ string_of (pr_comm e) +:+ "," +:+ pretty (pr_pid e) +:+ "," +:+
  pretty (pr_state e) +:+ "," +:+ pretty (parent_pid e) +:+ "," +:+ pretty (first_child_pid e) +:+ "," +:+
  pretty (next_sibling_pid e) +:+ "," +:+ pretty (pr_uid e).

(** main(): the loop from [i] over the entries below [nr] *)
Fixpoint print_loop (fuel : nat) (i nr : Z) (b : ubuf) : list string :=
  match fuel with
  | O => []
  | S fuel =>
      if i <? nr then
        if str_eq finish_here (pr_comm (b i)) then []
        else pr_line (b i) :: print_loop fuel (i + 1) nr b
      else []
  end.

(** main(): [call] is the outcome of system call 356 *)
Definition ptree_main (nr : Z) (call : Z * ubuf) : list string :=
  let '(r, b) := call in
  if r =? 1 then ["Call failed"%string] else print_loop (Z.to_nat nr) 0 nr b.
