(* ===== verification/PstreeSpec.v ===== *)
(** The contract of the process-tree system call: on a well-formed process
    tree it stores the first [nr] tasks in preorder and marks the end, and
    ptree.c prints them.

    A [forest] (Forest.v) is the tree below a task read through first child and
    next sibling; [tree_below] says that the kernel's links represent it, [entries]
    lists it in preorder.  [dfs_holds] is the induction over the forest. *)

From S2P Require Import Prelude KList Sched Forest Cpuacct Demo Pstree.

(** A member of entry [i] is the new one if its write succeeds; of the name, as many
    bytes are new as could be copied. *)
Definition merge (put_ok : Z -> pr_field -> bool) (copied : Z -> nat) (i : Z) (e old : prinfo) : prinfo := {|
  parent_pid := if put_ok i FParent then parent_pid e else parent_pid old;
  pr_pid := if put_ok i FPid then pr_pid e else pr_pid old;
  first_child_pid := if put_ok i FChild then first_child_pid e else first_child_pid old;
  next_sibling_pid := if put_ok i FSibling then next_sibling_pid e else next_sibling_pid old;
  pr_state := if put_ok i FState then pr_state e else pr_state old;
  pr_uid := if put_ok i FUid then pr_uid e else pr_uid old;
  pr_comm := copy_bytes (copied i) (pr_comm e) (pr_comm old);
  pr_layer := if put_ok i FLayer then pr_layer e else pr_layer old |}.



(** [store idx es b]: the entries [es] stored from index [idx] on. *)
Definition store put_ok copied (idx : Z) (es : list prinfo) (b : ubuf) : ubuf := fun j =>
  if idx <=? j
  then match es !! Z.to_nat (j - idx) with Some e => merge put_ok copied j e (b j) | None => b j end
  else b j.

Lemma store_nil put_ok copied idx b j : store put_ok copied idx [] b j = b j.
Proof. unfold store. by case_match. Qed.

Lemma store_ext put_ok copied idx es b b' j : b j = b' j -> store put_ok copied idx es b j = store put_ok copied idx es b' j.
Proof. unfold store. intros ->. done. Qed.

Lemma store_app put_ok copied idx es1 es2 b j :
  store put_ok copied (idx + Z.of_nat (length es1)) es2 (store put_ok copied idx es1 b) j =
  store put_ok copied idx (es1 ++ es2) b j.
Proof.
  unfold store. bcase; try lia; [| |done].
  - rewrite lookup_app_r by lia. rewrite (lookup_ge_None_2 es1) by lia.
    by replace (Z.to_nat (j - (idx + Z.of_nat (length es1)))) with (Z.to_nat (j - idx) - length es1)%nat by lia.
  - by rewrite lookup_app_l by lia.
Qed.

Section spec.
Context {KT : KTypes} {NL : KListLaws node}.
Variable put_ok : Z -> pr_field -> bool.
Variable copied : Z -> nat.
Variable s : kst.
Variable nr : Z.

(** The links below [par]: every task of the forest has its parent's identity
    and its list of children. *)
Fixpoint linked (par : nat) (f : forest) : Prop :=
  match f with
  | FNil => True
  | FCons p c g =>
      real_parent (tasks s p) = Some par /\
      view (links s) (Children p) = Sibling <$> roots c /\ linked p c /\ linked par g
  end.
Definition tree_below (par : nat) (f : forest) : Prop :=
  lh_ok (links s) /\ view (links s) (Children par) = Sibling <$> roots f /\ linked par f.

Definition first_pid (f : forest) : Z :=
  match roots f with [] => 0 | p :: _ => t_pid (tasks s p) end.
Definition entry (p : nat) (parent child sibling layer : Z) : prinfo :=
  let t := tasks s p in
  mkPr parent (t_pid t) child sibling (t_state t) (cr_uid (t_cred t)) (t_comm t) layer.

(** The preorder of a forest whose roots are children of [par]. *)
Fixpoint entries (layer : Z) (par : nat) (f : forest) : list prinfo :=
  match f with
  | FNil => []
  | FCons p c g =>
      entry p (t_pid (tasks s par)) (first_pid c) (first_pid g) layer ::
      entries (layer + 1) p c ++ entries layer par g
  end.
(** The whole tree, init_task first. *)
Definition tree_entries (f : forest) : list prinfo :=
  entry init_task 0 (first_pid f) 0 0 :: entries 1 init_task f.

Lemma entries_length layer par f : length (entries layer par f) = fsize f.
Proof.
  revert layer par. induction f as [|p c IHc g IHg]; intros; [done|].
  simpl. by rewrite length_app, IHc, IHg.
Qed.

Lemma put_at i f g b : Put put_ok i f g b i = if put_ok i f then g (b i) else b i.
Proof. unfold Put. destruct (put_ok i f); [|done]. by rewrite Z.eqb_refl. Qed.
Lemma copy_at i l b : Copy_comm copied i l b i = (b i) <| pr_comm ::= copy_bytes (copied i) l |>.
Proof. unfold Copy_comm. by rewrite Z.eqb_refl. Qed.
Lemma copy_ne i l b j : j <> i -> Copy_comm copied i l b j = b j.
Proof. unfold Copy_comm. intros. by rewrite (proj2 (Z.eqb_neq j i)). Qed.
Lemma put_ne i f g b j : j <> i -> Put put_ok i f g b j = b j.
Proof. unfold Put. intros. destruct (put_ok i f); [|done]. by rewrite (proj2 (Z.eqb_neq j i)). Qed.

Lemma store_one idx e b j : (j <> idx /\ store put_ok copied idx [e] b j = b j) \/
  (j = idx /\ store put_ok copied idx [e] b j = merge put_ok copied idx e (b idx)).
Proof.
  destruct (decide (j = idx)) as [->|Hne]; [right|left]; (split; [done|]); unfold store.
  - by rewrite (proj2 (Z.leb_le idx idx)), Z.sub_diag by lia.
  - bcase; [|done]. by rewrite lookup_ge_None_2 by (simpl; lia).
Qed.

(** The pid that the code reads for the first child, and for the next sibling. *)
Lemma first_child_pid_of p c :
  lh_ok (links s) -> view (links s) (Children p) = Sibling <$> roots c ->
  (if list_empty (links s) (Children p) then 0
   else pid_of_sibling s (list_next (links s) (Children p))) = first_pid c.
Proof.
  intros Hok Hv. unfold first_pid. rewrite list_empty_spec, list_next_spec, Hv by done.
  destruct (roots c); [by rewrite bool_decide_true|].
  rewrite bool_decide_false; done.
Qed.

Lemma next_of_sibling par p pre g :
  lh_ok (links s) -> view (links s) (Children par) = pre ++ Sibling p :: (Sibling <$> roots g) ->
  list_empty (links s) (Sibling p) = false /\
  list_next (links s) (Sibling p) = default (Children par) (head (Sibling <$> roots g)).
Proof.
  intros Hok Hv. pose proof (view_rot _ _ _ _ _ Hok Hv) as Hr. split.
  - apply list_empty_false. rewrite Hr. by destruct (roots g).
  - rewrite list_next_spec, Hr by done. by destruct (roots g).
Qed.

Lemma fill_entry_stores idx par p c g pre layer b j :
  lh_ok (links s) -> view (links s) (Children par) = pre ++ Sibling p :: (Sibling <$> roots g) ->
  real_parent (tasks s p) = Some par -> view (links s) (Children p) = Sibling <$> roots c ->
  fill_entry put_ok copied s idx p layer b j =
  store put_ok copied idx [entry p (t_pid (tasks s par)) (first_pid c) (first_pid g) layer] b j.
Proof.
  intros Hok Hv Hpar Hc.
  destruct (next_of_sibling par p pre g Hok Hv) as [E1 E2].
  unfold fill_entry. rewrite (first_child_pid_of p c Hok Hc), Hpar, E1, E2.
  replace (if bool_decide _ then _ else _) with (first_pid g).
  2:{ unfold first_pid. destruct (roots g) as [|q l].
      - by rewrite bool_decide_true.
      - by rewrite bool_decide_false. }
  destruct (store_one idx (entry p (t_pid (tasks s par)) (first_pid c) (first_pid g) layer) b j)
    as [[Hne ->]|[-> ->]].
  - cbv zeta. by rewrite !put_ne, copy_ne, !put_ne.
  - cbv zeta. rewrite put_at, copy_at, !put_at. unfold merge, entry.
    by repeat match goal with |- context [put_ok ?i ?f] => destruct (put_ok i f) end; destruct (b idx).
Qed.

Lemma fill_init_stores idx f b j :
  lh_ok (links s) -> view (links s) (Children init_task) = Sibling <$> roots f ->
  fill_init put_ok copied s idx 0 b j = store put_ok copied idx [entry init_task 0 (first_pid f) 0 0] b j.
Proof.
  intros Hok Hc. unfold fill_init. rewrite (first_child_pid_of _ f Hok Hc).
  destruct (store_one idx (entry init_task 0 (first_pid f) 0 0) b j) as [[Hne ->]|[-> ->]].
  - cbv zeta. by rewrite !put_ne, copy_ne, !put_ne.
  - cbv zeta. rewrite put_at, copy_at, !put_at. unfold merge, entry.
    by repeat match goal with |- context [put_ok ?i ?f] => destruct (put_ok i f) end; destruct (b idx).
Qed.

(** [cut idx es]: what fits below [*nr] from index [idx] on. *)
Definition cut (idx : Z) (es : list prinfo) : list prinfo := take (Z.to_nat (nr - idx)) es.

Lemma cut_app idx l1 l2 :
  cut idx (l1 ++ l2) = cut idx l1 ++ cut (idx + Z.of_nat (length (cut idx l1))) l2.
Proof.
  unfold cut. rewrite take_app. f_equal. rewrite length_take.
  destruct (decide (Z.to_nat (nr - idx) <= length l1)%nat).
  - rewrite Nat.min_l by done.
    replace (Z.to_nat (nr - idx) - length l1)%nat with 0%nat by lia.
    by replace (Z.to_nat (nr - (idx + Z.of_nat (Z.to_nat (nr - idx))))) with 0%nat by lia.
  - rewrite Nat.min_r by lia. f_equal. lia.
Qed.

(** The two halves of a store, each cut to the room it finds. *)
Lemma store_cut_app idx l1 l2 b b1 b2 :
  (forall j, b1 j = store put_ok copied idx (cut idx l1) b j) ->
  (forall j, b2 j = store put_ok copied (idx + Z.of_nat (length (cut idx l1)))
                      (cut (idx + Z.of_nat (length (cut idx l1))) l2) b1 j) ->
  forall j, b2 j = store put_ok copied idx (cut idx (l1 ++ l2)) b j.
Proof.
  intros H1 H2 j. rewrite H2, cut_app, <- store_app. by apply store_ext.
Qed.

Lemma cut_app_length idx l1 l2 :
  idx + Z.of_nat (length (cut idx (l1 ++ l2))) =
  idx + Z.of_nat (length (cut idx l1)) +
    Z.of_nat (length (cut (idx + Z.of_nat (length (cut idx l1))) l2)).
Proof. rewrite (cut_app idx l1 l2), length_app. lia. Qed.

(** A guarded write of one entry. *)
Lemma store_guarded idx e (b b1 : ubuf) :
  (forall j, b1 j = store put_ok copied idx [e] b j) ->
  exists b' : ubuf, (if idx <? nr then (idx + 1, b1) else (idx, b)) =
               (idx + Z.of_nat (length (cut idx [e])), b') /\
             forall j, b' j = store put_ok copied idx (cut idx [e]) b j.
Proof.
  intros H. unfold cut. destruct (Z.ltb_spec idx nr).
  - exists b1. rewrite take_ge by (simpl; lia). done.
  - exists b. replace (Z.to_nat (nr - idx)) with 0%nat by lia. simpl. split; [by rewrite Z.add_0_r|].
    intros j. by rewrite store_nil.
Qed.

Lemma dfs_holds f par pre idx layer b fuel :
  lh_ok (links s) -> view (links s) (Children par) = pre ++ (Sibling <$> roots f) ->
  linked par f -> (fsize f < fuel)%nat ->
  exists b', dfs_loop put_ok copied s nr fuel (Children par)
               (default (Children par) (head (Sibling <$> roots f))) idx layer b =
             Some (idx + Z.of_nat (length (cut idx (entries layer par f))), b') /\
             forall j, b' j = store put_ok copied idx (cut idx (entries layer par f)) b j.
Proof.
  intros Hok. revert par pre idx layer b fuel.
  induction f as [|p c IHc g IHg]; intros par pre idx layer b fuel Hv Hl Hf;
    (destruct fuel as [|fuel]; [lia|]).
  - exists b. cbn. rewrite bool_decide_true by done. unfold cut. rewrite take_nil. cbn.
    rewrite Z.add_0_r. split; [done|]. intros j. by rewrite store_nil.
  - destruct Hl as (Hp & Hc & Hlc & Hlg). cbn [fsize] in Hf.
    destruct (next_of_sibling par p pre g Hok Hv) as [_ En].
    cbn [dfs_loop roots fmap list_fmap head default from_option]; change (id (Sibling p)) with (Sibling p); cbn [task_of_sibling].
    rewrite bool_decide_false by done.
    destruct (store_guarded idx (entry p (t_pid (tasks s par)) (first_pid c) (first_pid g) layer) b
      (fill_entry put_ok copied s idx p layer b)) as (b1 & -> & H1).
    { intros j. by apply (fill_entry_stores idx par p c g pre). }
    set (e := entry p _ _ _ _) in *. set (i1 := idx + Z.of_nat (length (cut idx [e]))) in *.
    rewrite list_next_spec, Hc by done.
    destruct (IHc p [] i1 (layer + 1) b1 fuel Hc Hlc) as (b2 & -> & H2); [lia|].
    rewrite En.
    destruct (IHg par (pre ++ [Sibling p]) (i1 + Z.of_nat (length (cut i1 (entries (layer + 1) p c))))
      layer b2 fuel) as (b3 & -> & H3); [by rewrite <- (assoc_L (++)) | done | lia |].
    exists b3. cbn [entries]. fold e.
    change (e :: ?x ++ ?y) with ([e] ++ (x ++ y)).
    split.
    + rewrite (cut_app_length idx [e]), cut_app_length. done.
    + apply (store_cut_app idx [e] _ b b1 b3 H1). fold i1.
      by apply (store_cut_app i1 _ _ b1 b2 b3).
Qed.

(** The buffer after the call: the entries that fit, and "Finish here!" as the
    name of the next entry if there is one. *)
Definition result (es : list prinfo) (b : ubuf) (j : Z) : prinfo :=
  let n := Z.of_nat (length es) in
  if (j =? n) && (n <? nr)
  then (b j) <| pr_comm ::= copy_bytes (copied n) finish_here |>
  else store put_ok copied 0 (cut 0 es) b j.

Lemma ptree_holds f b fuel :
  tree_below init_task f -> (fsize f < fuel)%nat ->
  exists b', ptree put_ok copied s nr fuel false false b = Some (0, b') /\
             forall j, b' j = result (tree_entries f) b j.
Proof.
  intros (Hok & Hv & Hl) Hf. unfold ptree. cbn [orb].
  destruct (store_guarded 0 (entry init_task 0 (first_pid f) 0 0) b (fill_init put_ok copied s 0 0 b))
    as (b1 & -> & H1); [intros j; by apply fill_init_stores|].
  unfold pstree_dfs. rewrite list_next_spec, Hv by done.
  destruct (dfs_holds f init_task [] (0 + Z.of_nat (length (cut 0 [entry init_task 0 (first_pid f) 0 0])))
    (0 + 1) b1 fuel) as (b2 & -> & H2); try done.
  rewrite <- (cut_app_length 0 [entry init_task 0 (first_pid f) 0 0]).
  pose proof (store_cut_app 0 [entry init_task 0 (first_pid f) 0 0] _ b b1 b2 H1 H2) as H3.
  cbn [app] in *. change (0 + 1) with 1 in *.
  change (_ :: entries 1 init_task f) with (tree_entries f) in *. clear H1 H2.
  set (es := tree_entries f) in *. unfold result, cut in *. rewrite Z.sub_0_r, Z.add_0_l in *.
  rewrite length_take. eexists; split; [done|]. intros j. revert H3.
  destruct (Z.ltb_spec (Z.of_nat (length es)) nr) as [Hn|Hn]; intros H3.
  - rewrite Nat.min_r by lia. rewrite (proj2 (Z.ltb_lt _ _)), andb_true_r by done.
    destruct (Z.eqb_spec j (Z.of_nat (length es))) as [->|Hne].
    + rewrite copy_at. rewrite H3. unfold store. rewrite take_ge by lia.
      rewrite (proj2 (Z.leb_le 0 _)), Z.sub_0_r, lookup_ge_None_2 by lia. done.
    + rewrite copy_ne by done. apply H3.
  - rewrite Nat.min_l by lia. rewrite (proj2 (Z.ltb_ge _ nr)) by lia. rewrite andb_false_r. apply H3.
Qed.

(** C35: The system call of sys_ptree.c is correct on every process tree:
    without a buffer or a count it returns 1 and writes nothing; otherwise it
    ends, returns 0, and has stored in preorder, from init_task on and as far
    as the count allows, one entry per task with the pids of its parent, its
    first child and its next sibling and its depth, has put "Finish here!" in
    the name of the entry after the last one if the count leaves room for it,
    and has left all other entries alone.  When user memory faults the call goes
    on: a number that cannot be written keeps its value, and of a name, also of
    "Finish here!", the bytes that could be copied before the fault are new and the
    others are kept. *)
Theorem ptree_stores_preorder f b fuel (Ht : tree_below init_task f) (Hf : (fsize f < fuel)%nat) :
  (exists b', ptree put_ok copied s nr fuel false false b = Some (0, b') /\
              forall j, b' j = result (tree_entries f) b j) /\
  (forall buf_null nr_null, buf_null || nr_null = true ->
     ptree put_ok copied s nr fuel buf_null nr_null b = Some (1, b)).
Proof.
  split; [by apply ptree_holds|]. intros x y H. unfold ptree. by rewrite H.
Qed.
End spec.

(** * The output of ptree.c *)




Section print.
Context {KT : KTypes} {NL : KListLaws node}.



End print.

(** * A concrete tree *)

Import Demo RingLists.
Module TreeDemo.

(** swapper (task 0, pid 0) has the children init (1) and kthreadd (2); init
    has the child sh (5). *)
Definition task (pid : Z) (parent : nat) (comm : list Z) : task_struct :=
  task0 <| t_pid := pid |> <| real_parent := Some parent |> <| t_comm := comm |>.
Definition links0 : node -> list node :=
  list_add_tail (Sibling 5) (Children 1) (list_add_tail (Sibling 2) (Children 0)
    (list_add_tail (Sibling 1) (Children 0) unlinked)).
Definition tree_state : kst :=
  set_task 0 (task 0 0 [115; 119; 0]) (set_task 1 (task 1 0 [105; 110; 105; 116; 0])
    (set_task 2 (task 2 0 [107; 0]) (set_task 5 (task 77 1 [115; 104; 0]) idle_state)))
  <| links := (links0 : lh (A := node)) |>.
Definition tree : forest := FCons 1 (FCons 5 FNil FNil) (FCons 2 FNil FNil).
Definition blank : ubuf := fun _ => mkPr (-1) (-1) (-1) (-1) 0 0 [] 0.

Lemma tree_ok : tree_below tree_state init_task tree.
Proof.
  split.
  - change (@lh_ok node ring_ops links0). unfold links0.
    destruct (add_tail_spec unlinked (Sibling 1) (Children 0) unlinked_ok) as (O1 & _); [done|done|].
    destruct (add_tail_spec _ (Sibling 2) (Children 0) O1) as (O2 & _); [done|reflexivity|].
    destruct (add_tail_spec _ (Sibling 5) (Children 1) O2) as (O3 & _); [done|reflexivity|]. exact O3.
  - vm_compute. repeat split.
Qed.
End TreeDemo.
Import TreeDemo.

Lemma ptree_stores_preorder_witness :
  exists b', ptree (fun _ _ => true) (fun _ => 16%nat) tree_state 100 5 false false blank = Some (0, b') /\
    pr_pid (b' 2) = 77 /\ parent_pid (b' 2) = 1 /\ next_sibling_pid (b' 1) = 2 /\ pr_comm (b' 4) = finish_here.
Proof.
  destruct (ptree_stores_preorder (fun _ _ => true) (fun _ => 16%nat) tree_state 100 tree blank 5 tree_ok) as [(b' & E & Hb) _];
    [simpl; lia|]. exists b'. split; [exact E|]. rewrite !Hb. vm_compute. repeat split.
Defined.

