(* ===== verification/TaskGroup.v ===== *)
(** Task groups: the cgroup part of kernel/sched/core.c, with the walk over the
    hierarchy, the real-time bandwidth constraints and the files of the cpu
    subsystem.

    A group is a pointer into [tgs]; the list of a group's children is
    [tg_children], newest first, and [task_groups] is the list of all groups.
    A group taken out of the lists is freed by an RCU callback, which runs at
    some later time ([rcu_pending], [run_rcu]).  The CFS and autogroup parts of
    a group, the threads of the system and the cgroup core are outside the
    repository ([TgEnv]). *)

From S2P Require Import Prelude KList Sched Cpuacct Demo Ras Rt LoadAvg Core.

Definition PF_EXITING := 0x4.

(** * walk_tg_tree_from()

    The C function is one loop over the children lists with two labels; [Down
    p] is the entry of [p] at the label [down], [Scan p child] the loop over
    [p]'s children with [child] the next one ([None]: the list's head is
    reached).  The jump to [up] goes on behind the group just left. *)

Section walk.
Context {St : Type}.
Variable tgs : nat -> task_group.
Variables down up : nat -> St -> Z * St.
Variable from : nat.

Inductive walk_pc := Down (p : nat) | Scan (p : nat) (child : option nat).

(** The entry behind [c] in a list. *)
Fixpoint next_after (c : nat) (l : list nat) : option nat :=
  match l with
  | [] => None
  | x :: l => if (x =? c)%nat then head l else next_after c l
  end.

Fixpoint walk_loop (fuel : nat) (pc : walk_pc) (s : St) : option (Z * St) :=
  match fuel with
  | O => None
  | S fuel =>
      match pc with
      | Down p =>
          let '(ret, s) := down p s in
          if c_true ret then Some (ret, s)
          else walk_loop fuel (Scan p (head (tg_children (tgs p)))) s
      | Scan p (Some child) => walk_loop fuel (Down child) s
      | Scan p None =>
          let '(ret, s) := up p s in
          if c_true ret || (p =? from)%nat then Some (ret, s)
          else
            match tg_parent (tgs p) with
            | None => Some (ret, s)
            | Some q => walk_loop fuel (Scan q (next_after p (tg_children (tgs q)))) s
            end
      end
  end.
Definition walk_tg_tree_from (fuel : nat) (s : St) : option (Z * St) := walk_loop fuel (Down from) s.
End walk.

(** walk_tg_tree() of sched.h, tg_nop() *)
Definition walk_tg_tree {St : Type} (tgs : nat -> task_group) (down up : nat -> St -> Z * St)
  (fuel : nat) (s : St) : option (Z * St) :=
  walk_tg_tree_from tgs down up root_task_group fuel s.
Definition tg_nop {St : Type} (tg : nat) (s : St) : Z * St := (0, s).

(** to_ratio(): div64_u64() of 64-bit operands, returned as unsigned long *)
Definition to_ratio (period runtime : Z) : Z :=
  if runtime =? RUNTIME_INF then 2 ^ 20 else u32 (u64 (Z.shiftl runtime 20) / period).

Class TgEnv `{KEnv} := {
  all_threads : Ext -> list nat;                     (* do_each_thread() *)
  cgroup_tg : nat -> Ext -> nat;                     (* by the cgroup_subsys_state *)
  cgroup_parent : nat -> Ext -> option nat;          (* cgrp->parent *)
  task_css_tg : nat -> Ext -> nat;                   (* the group of a task's css *)
  autogroup_task_group : nat -> nat -> Ext -> nat;
  alloc_fair_sched_group : nat -> nat -> Ext -> bool * option nat * Ext;
  unregister_fair_sched_group : nat -> Ext -> Ext;
  free_fair_sched_group : nat -> Ext -> Ext;
  autogroup_free : nat -> Ext -> Ext;
  sched_group_set_shares : nat -> Z -> Ext -> Z * Ext;
  tg_shares : nat -> Ext -> Z }.

(** The state with the list of groups and the groups waiting to be freed. *)
Record gst `{KTypes} := mkGst { gk : kst; task_groups : list nat; rcu_pending : list nat; freed : list nat }.
#[export] Instance eta_gst `{KTypes} : Eta gst := fun r =>
  mkGst _ r.(gk) r.(task_groups) r.(rcu_pending) r.(freed).

Section groups.
Context {KT : KTypes} {KE : KEnv} {CE : CoreEnv} {TE : TgEnv}.

(** * Real-time bandwidth *)

(** tg_has_rt_tasks(): the group compared is that of the run queue's own rt_rq *)
Definition tg_has_rt_tasks (tg : nat) (s : kst) : bool :=
  existsb (fun p => rt_task s p && bool_decide (rt_tg (rt_rqs s root_task_group) = Some tg))
    (all_threads (ext s)).

Record rt_schedulable_data := mkRtData { d_tg : option nat; d_rt_period : Z; d_rt_runtime : Z }.

(** The period and runtime of a group, with those of [d] in place of its own. *)
Definition d_bandwidth (d : rt_schedulable_data) (tg : nat) (s : kst) : Z * Z :=
  if bool_decide (d_tg d = Some tg) then (d_rt_period d, d_rt_runtime d)
  else (rtb_period (tg_rt_bandwidth (tgs s tg)), rtb_runtime (tg_rt_bandwidth (tgs s tg))).

(** tg_rt_schedulable() *)
Definition tg_rt_schedulable (d : rt_schedulable_data) (tg : nat) (s : kst) : Z :=
  let '(period, runtime) := d_bandwidth d tg s in
  if (period <? runtime) && negb (runtime =? RUNTIME_INF) then - EINVAL
  else if rt_bandwidth_enabled s && (runtime =? 0) && tg_has_rt_tasks tg s then - EBUSY
  else
    let total := to_ratio period runtime in
    if to_ratio (global_rt_period s) (global_rt_runtime s) <? total then - EINVAL
    else
      let sum := fold_left (fun sum child =>
                   let '(period, runtime) := d_bandwidth d child s in
                   u32 (sum + to_ratio period runtime)) (tg_children (tgs s tg)) 0 in
      if total <? sum then - EINVAL else 0.

(** __rt_schedulable(); the visitor reads the state and changes nothing *)
Definition __rt_schedulable (fuel : nat) (tg : option nat) (period runtime : Z) (s : kst) : option Z :=
  fst <$> walk_tg_tree (tgs s) (fun g s => (tg_rt_schedulable (mkRtData tg period runtime) g s, s))
            tg_nop fuel s.

(** tg_set_rt_bandwidth() *)
Definition tg_set_rt_bandwidth (fuel : nat) (tg : nat) (rt_period rt_runtime : Z) (s : kst) : option (Z * kst) :=
  match __rt_schedulable fuel (Some tg) rt_period rt_runtime s with
  | None => None
  | Some err =>
      if c_true err then Some (err, s)
      else
        let s := upd_tg tg (fun t => t <| tg_rt_bandwidth ::= fun b =>
                   b <| rtb_period := rt_period |> <| rtb_runtime := rt_runtime |> |>) s in
        let s := upd_rt_rq tg (fun r => r <| Sched.rt_runtime := rt_runtime |>) s in
        Some (err, s)
  end.

(** sched_group_set_rt_runtime(), sched_group_rt_runtime(),
    sched_group_set_rt_period(), sched_group_rt_period(); a [long] is a signed
    32-bit integer, converted to u64 with its sign *)
Definition sched_group_set_rt_runtime (fuel : nat) (tg : nat) (rt_runtime_us : Z) (s : kst) : option (Z * kst) :=
  let rt_period := rtb_period (tg_rt_bandwidth (tgs s tg)) in
  let rt_runtime := u64 (u64 rt_runtime_us * NSEC_PER_USEC) in
  let rt_runtime := if rt_runtime_us <? 0 then RUNTIME_INF else rt_runtime in
  tg_set_rt_bandwidth fuel tg rt_period rt_runtime s.
Definition sched_group_rt_runtime (tg : nat) (s : kst) : Z :=
  let runtime := rtb_runtime (tg_rt_bandwidth (tgs s tg)) in
  if runtime =? RUNTIME_INF then -1 else s32 (runtime / NSEC_PER_USEC).
Definition sched_group_set_rt_period (fuel : nat) (tg : nat) (rt_period_us : Z) (s : kst) : option (Z * kst) :=
  let rt_period := u64 (u64 rt_period_us * NSEC_PER_USEC) in
  let rt_runtime := rtb_runtime (tg_rt_bandwidth (tgs s tg)) in
  if rt_period =? 0 then Some (- EINVAL, s) else tg_set_rt_bandwidth fuel tg rt_period rt_runtime s.
Definition sched_group_rt_period (tg : nat) (s : kst) : Z :=
  s32 (rtb_period (tg_rt_bandwidth (tgs s tg)) / NSEC_PER_USEC).

(** sched_rt_global_constraints() *)
Definition sched_rt_global_constraints (fuel : nat) (s : kst) : option Z :=
  if sysctl_sched_rt_period s <=? 0 then Some (- EINVAL)
  else
    let runtime := global_rt_runtime s in
    let period := global_rt_period s in
    if (period <? runtime) && negb (runtime =? RUNTIME_INF) then Some (- EINVAL)
    else __rt_schedulable fuel None 0 0 s.

(** sched_rt_can_attach() *)
Definition sched_rt_can_attach (tg tsk : nat) (s : kst) : bool :=
  negb (rt_task s tsk && (rtb_runtime (tg_rt_bandwidth (tgs s tg)) =? 0)).

(** sched_rt_handler(): [proc] is the outcome of proc_dointvec(), its result and
    the values the two variables have after it *)
Definition sched_rt_handler (fuel : nat) (write : bool) (proc : Z * Z * Z) (s : kst) : option (Z * kst) :=
  let old_period := sysctl_sched_rt_period s in
  let old_runtime := sysctl_sched_rt_runtime s in
  let '(ret, period, runtime) := proc in
  let s := s <| sysctl_sched_rt_period := period |> <| sysctl_sched_rt_runtime := runtime |> in
  if negb (c_true ret) && write then
    match sched_rt_global_constraints fuel s with
    | None => None
    | Some ret =>
        if c_true ret then
          Some (ret, s <| sysctl_sched_rt_period := old_period |> <| sysctl_sched_rt_runtime := old_runtime |>)
        else
          let s := s <| def_rt_bandwidth ::= fun b => b <| rtb_runtime := global_rt_runtime s |> |> in
          let s := s <| def_rt_bandwidth ::= fun b => b <| rtb_period := global_rt_period s |> |> in
          Some (ret, s)
    end
  else Some (ret, s).

(** * Creation and destruction *)

(** free_rt_sched_group(): the timer is cancelled if the entities were allocated *)
Definition free_rt_sched_group (tg : nat) (rt_se : bool) (s : kst) : kst :=
  if rt_se then upd_tg tg (fun t => t <| tg_rt_bandwidth ::= destroy_rt_bandwidth |>) s else s.

Definition upd_gk (f : kst -> kst) (s : gst) : gst := s <| gk ::= f |>.

(** free_sched_group() *)
Definition free_sched_group (tg : nat) (rt_se : bool) (s : gst) : gst :=
  let s := upd_gk (fun s => s <| ext ::= free_fair_sched_group tg |>) s in
  let s := upd_gk (free_rt_sched_group tg rt_se) s in
  let s := upd_gk (fun s => s <| ext ::= autogroup_free tg |>) s in
  s <| freed ::= fun l => tg :: l |>.

Definition zero_tg : task_group := mkTg None None (mkRtB 0 0 false) None [].

(** sched_create_group(): [new] is the result of kzalloc(), [rt_ok] the
    outcomes of the four allocations of alloc_rt_sched_group(); the result is a
    group or the error of ERR_PTR() *)
Definition sched_create_group (new : option nat) (rt_ok : bool * bool * bool * bool) (parent : nat) (s : gst)
  : (Z + nat) * gst :=
  match new with
  | None => (inl (- ENOMEM), s)
  | Some tg =>
      let s := upd_gk (upd_tg tg (fun _ => zero_tg)) s in
      let '(ok, se, e) := alloc_fair_sched_group tg parent (ext (gk s)) in
      let s := upd_gk (fun k => k <| ext := e |>) s in
      let s := upd_gk (upd_tg tg (fun t => t <| tg_se := se |>)) s in
      if negb ok then (inl (- ENOMEM), free_sched_group tg false s)
      else
        let '(ok1, ok2, ok3, ok4) := rt_ok in
        let '(r, k) := alloc_rt_sched_group tg parent ok1 ok2 ok3 ok4 (gk s) in
        let s := s <| gk := k |> in
        if negb (c_true r) then (inl (- ENOMEM), free_sched_group tg (ok1 && ok2) s)
        else
          let s := s <| task_groups ::= fun l => tg :: l |> in
          let s := upd_gk (upd_tg tg (fun t => t <| tg_parent := Some parent |>)) s in
          let s := upd_gk (upd_tg tg (fun t => t <| tg_children := [] |>)) s in
          let s := upd_gk (upd_tg parent (fun t => t <| tg_children ::= fun l => tg :: l |>)) s in
          (inr tg, s)
  end.

(** free_sched_group_rcu(): the callback that call_rcu() was given runs *)
Definition free_sched_group_rcu (tg : nat) (s : gst) : gst :=
  free_sched_group tg true (s <| rcu_pending ::= without tg |>).

(** sched_destroy_group() *)
Definition sched_destroy_group (tg : nat) (s : gst) : gst :=
  let s := upd_gk (fun k => k <| ext ::= unregister_fair_sched_group tg |>) s in
  let s := s <| task_groups ::= without tg |> in
  let s := match tg_parent (tgs (gk s) tg) with
           | Some p => upd_gk (upd_tg p (fun t => t <| tg_children ::= without tg |>)) s
           | None => s
           end in
  s <| rcu_pending ::= fun l => tg :: l |>.

(** sched_move_task() *)
Definition sched_move_task (tsk : nat) (s : kst) : kst :=
  let running := task_current s tsk in
  let on_rq := c_true (t_on_rq (tasks s tsk)) in
  let s := if on_rq then dequeue_task tsk 0 s else s in
  let s := if running then put_prev_task_op (class_of tsk s) tsk s else s in
  let tg := task_css_tg tsk (ext s) in
  let tg := autogroup_task_group tsk tg (ext s) in
  let s := upd_task tsk (fun t => t <| sched_task_group := tg |>) s in
  let s := match task_move_group_op (class_of tsk s) with
           | Some f => f tsk on_rq s
           | None => set_task_rq tsk s
           end in
  let s := if running then set_curr_task_op (class_of tsk s) s else s in
  if on_rq then enqueue_task tsk 0 s else s.

(** * The cpu subsystem *)

(** cpu_cgroup_create() *)
Definition cpu_cgroup_create (new : option nat) (rt_ok : bool * bool * bool * bool) (cgrp : nat) (s : gst)
  : (Z + nat) * gst :=
  match cgroup_parent cgrp (ext (gk s)) with
  | None => (inr root_task_group, s)
  | Some pc =>
      let parent := cgroup_tg pc (ext (gk s)) in
      match sched_create_group new rt_ok parent s with
      | (inl _, s) => (inl (- ENOMEM), s)
      | (inr tg, s) => (inr tg, s)
      end
  end.

(** cpu_cgroup_destroy(), cpu_cgroup_exit() *)
Definition cpu_cgroup_destroy (cgrp : nat) (s : gst) : gst :=
  sched_destroy_group (cgroup_tg cgrp (ext (gk s))) s.
Definition cpu_cgroup_exit (task : nat) (s : kst) : kst :=
  if negb (has_flag (t_flags (tasks s task)) PF_EXITING) then s else sched_move_task task s.

(** cpu_cgroup_allow_attach(), cpu_cgroup_can_attach(), cpu_cgroup_attach() on
    the tasks of the cgroup_taskset *)
Fixpoint cpu_cgroup_allow_attach (tset : list nat) (s : kst) : Z :=
  match tset with
  | [] => 0
  | task :: tset =>
      let cred := t_cred (tasks s (curr s)) in
      let tcred := t_cred (tasks s task) in
      if negb (curr s =? task)%nat && negb (capable CAP_SYS_NICE (ext s)) &&
         negb (cr_euid cred =? cr_uid tcred) && negb (cr_euid cred =? cr_suid tcred)
      then - EACCES
      else cpu_cgroup_allow_attach tset s
  end.
Fixpoint cpu_cgroup_can_attach (cgrp : nat) (tset : list nat) (s : kst) : Z :=
  match tset with
  | [] => 0
  | task :: tset =>
      if negb (sched_rt_can_attach (cgroup_tg cgrp (ext s)) task s) then - EINVAL
      else cpu_cgroup_can_attach cgrp tset s
  end.
Fixpoint cpu_cgroup_attach (tset : list nat) (s : kst) : kst :=
  match tset with
  | [] => s
  | task :: tset => cpu_cgroup_attach tset (sched_move_task task s)
  end.

(** cpu_shares_write_u64(), cpu_shares_read_u64() *)
Definition cpu_shares_write_u64 (cgrp : nat) (shareval : Z) (s : kst) : Z * kst :=
  let '(r, e) := sched_group_set_shares (cgroup_tg cgrp (ext s)) (u32 shareval) (ext s) in
  (r, s <| ext := e |>).
Definition cpu_shares_read_u64 (cgrp : nat) (s : kst) : Z := tg_shares (cgroup_tg cgrp (ext s)) (ext s).

(** cpu_rt_runtime_write(), cpu_rt_runtime_read(), cpu_rt_period_write_uint(),
    cpu_rt_period_read_uint(): the 64-bit value of the file becomes a [long] *)
Definition cpu_rt_runtime_write (fuel : nat) (cgrp : nat) (val : Z) (s : kst) : option (Z * kst) :=
  sched_group_set_rt_runtime fuel (cgroup_tg cgrp (ext s)) (s32 val) s.
Definition cpu_rt_runtime_read (cgrp : nat) (s : kst) : Z :=
  sched_group_rt_runtime (cgroup_tg cgrp (ext s)) s.
Definition cpu_rt_period_write_uint (fuel : nat) (cgrp : nat) (rt_period_us : Z) (s : kst) : option (Z * kst) :=
  sched_group_set_rt_period fuel (cgroup_tg cgrp (ext s)) (s32 rt_period_us) s.
Definition cpu_rt_period_read_uint (cgrp : nat) (s : kst) : Z :=
  u64 (sched_group_rt_period (cgroup_tg cgrp (ext s)) s).
End groups.
