(* ===== verification/TaskGroupSpec.v ===== *)
(** The contracts of the task-group code: the iterative walk visits the
    hierarchy in the recursive order and ends; the real-time bandwidth
    constraints hold after every accepted change of a group, whatever is
    written to the files; and groups are created and destroyed without
    breaking the hierarchy or the constraints. *)

From S2P Require Import Prelude KList Sched Forest Cpuacct Demo Ras Rt LoadAvg Core TaskGroup.

(** * The walk *)

Section visit.
Context {St : Type}.
Variables down up : nat -> St -> Z * St.

(** Go on unless an error was returned. *)
Definition andthen (r : Z * St) (k : St -> Z * St) : Z * St := if c_true r.1 then r else k r.2.

(** The recursive traversal: [down], the children in order, [up]. *)
Fixpoint visit (f : forest) (s : St) : Z * St :=
  match f with
  | FNil => (0, s)
  | FCons p c g => andthen (andthen (andthen (down p s) (visit c)) (up p)) (visit g)
  end.
Definition visit_tree (top : nat) (f : forest) (s : St) : Z * St :=
  andthen (andthen (down top s) (visit f)) (up top).
End visit.

Lemma andthen_err {St : Type} r (s : St) k : c_true r = true -> andthen (r, s) k = (r, s).
Proof. intros E. unfold andthen. cbn. by rewrite E. Qed.
Lemma andthen_ok {St : Type} r (s : St) k : c_true r = false -> andthen (r, s) k = k s.
Proof. intros E. unfold andthen. cbn. by rewrite E. Qed.

(** One call of a visitor or of a part of the traversal, with its result [r]:
    an error ends the traversal. *)
Ltac call r :=
  let E := fresh "E" in
  destruct (c_true r) eqn:E;
  [rewrite ?(andthen_err r _ _ E); cbn [fst snd]; rewrite ?E; done|rewrite ?(andthen_ok r _ _ E)].

(** The group tree below [top]. *)
Definition group_tree (tgs : nat -> task_group) (top : nat) (f : forest) : Prop :=
  tree_at (fun g => tg_parent (tgs g)) (fun g => tg_children (tgs g)) top f.

Lemma next_after_split c l1 l2 : c ∉ l1 -> next_after c (l1 ++ c :: l2) = head l2.
Proof.
  induction l1 as [|x l1 IH]; intros Hc; cbn; [by rewrite Nat.eqb_refl|].
  rewrite (proj2 (Nat.eqb_neq x c)) by set_solver. apply IH. set_solver.
Qed.

Section walk.
Context {St : Type}.
Variable tgs : nat -> task_group.
Variables down up : nat -> St -> Z * St.
Variable from : nat.

Lemma walk_forest f par pre fuel s :
  tg_children (tgs par) = pre ++ roots f ->
  linked (fun g => tg_parent (tgs g)) (fun g => tg_children (tgs g)) par f ->
  NoDup (pre ++ ids f) -> from ∉ ids f ->
  walk_loop tgs down up from (3 * fsize f + fuel) (Scan par (head (roots f))) s =
  (if c_true (visit down up f s).1 then Some (visit down up f s)
   else walk_loop tgs down up from fuel (Scan par None) (visit down up f s).2).
Proof.
  revert par pre fuel s. induction f as [|p c IHc g IHg]; intros par pre fuel s Hch Hl Hnd Hfrom; [done|].
  destruct Hl as (Hp & Hc & Hlc & Hlg). cbn [ids] in Hnd, Hfrom.
  apply NoDup_app in Hnd as (Hn1 & Hd & [Hpn (Hn2 & Hd2 & Hn3)%NoDup_app]%NoDup_cons).
  replace (3 * fsize (FCons p c g) + fuel)%nat
    with (S (S (3 * fsize c + S (3 * fsize g + fuel)))) by (cbn [fsize]; lia).
  cbn [roots head]. cbn [walk_loop]. cbn [visit].
  destruct (down p s) as [r1 s1]. call r1.
  rewrite Hc, (IHc p [] _ s1) by (done || set_solver).
  destruct (visit down up c s1) as [r2 s2]. cbn [fst snd]. call r2.
  cbn [walk_loop]. destruct (up p s2) as [r3 s3]. call r3.
  rewrite (proj2 (Nat.eqb_neq p from)) by set_solver. cbn [orb].
  rewrite Hp, Hch. cbn [roots]. rewrite next_after_split by set_solver.
  rewrite (IHg par (pre ++ [p])); [done|by rewrite <- (assoc_L (++))|done| |set_solver].
  rewrite <- (assoc_L (++)). apply NoDup_app. split; [done|]. split; [set_solver|].
  constructor; [set_solver|done].
Qed.

Lemma walk_holds f fuel s : group_tree tgs from f -> (3 * fsize f + 2 <= fuel)%nat ->
  walk_tg_tree_from tgs down up from fuel s = Some (visit_tree down up from f s).
Proof.
  intros [Hc Hl [Hn1 Hn2]%NoDup_cons] Hf. unfold walk_tg_tree_from, visit_tree.
  replace fuel with (S (3 * fsize f + S (fuel - (3 * fsize f + 2)))) by lia.
  cbn [walk_loop]. destruct (down from s) as [r1 s1]. call r1.
  rewrite Hc, (walk_forest f from [] _ s1) by done.
  destruct (visit down up f s1) as [r2 s2]. cbn [fst snd]. call r2.
  cbn [walk_loop]. destruct (up from s2) as [r3 s3].
  by rewrite Nat.eqb_refl, orb_true_r.
Qed.

(** C20: walk_tg_tree_from(), which follows the links with two gotos instead of
    recursion, ends on every group tree after at most three steps per group and
    is the recursive traversal: it calls [down] on a group before its children,
    [up] after them, each group once, and stops at the first error, which it
    returns. *)
Theorem walk_tg_tree_visits f fuel s (Ht : group_tree tgs from f) (Hf : (3 * fsize f + 2 <= fuel)%nat) :
  walk_tg_tree_from tgs down up from fuel s = Some (visit_tree down up from f s).
Proof. by apply walk_holds. Qed.
End walk.

(** A visitor that only reads: the walk returns the first error in preorder. *)
Fixpoint first_error (l : list Z) : Z :=
  match l with [] => 0 | r :: l => if c_true r then r else first_error l end.

Lemma first_error_app l1 l2 : first_error (l1 ++ l2) =
  if c_true (first_error l1) then first_error l1 else first_error l2.
Proof.
  induction l1 as [|r l1 IH]; [done|]. cbn. destruct (c_true r) eqn:E; [by rewrite E|done].
Qed.

Lemma first_error_0 l : first_error l = 0 <-> Forall (fun r => r = 0) l.
Proof.
  induction l as [|r l IH]; cbn; [split; [constructor|done]|].
  destruct (c_true r) eqn:E.
  - apply c_true_iff in E. split; [done|]. by intros [? _]%Forall_cons.
  - apply c_true_false in E. rewrite IH, Forall_cons. tauto.
Qed.

Lemma first_error_elem l : first_error l <> 0 -> first_error l ∈ l.
Proof.
  induction l as [|r l IH]; cbn; [done|]. destruct (c_true r); [by left|]. intros H. right. by apply IH.
Qed.

Lemma visit_reader {St : Type} (h : nat -> St -> Z) f s :
  visit (fun g s => (h g s, s)) tg_nop f s = (first_error ((fun g => h g s) <$> ids f), s).
Proof.
  revert s. induction f as [|p c IHc g IHg]; intros s; [done|].
  cbn [visit ids fmap list_fmap first_error]. call (h p s).
  rewrite IHc. fold (fmap (fun g => h g s) (ids c ++ ids g)).
  rewrite fmap_app, first_error_app. call (first_error ((fun g => h g s) <$> ids c)).
  unfold tg_nop. by rewrite (andthen_ok 0), IHg.
Qed.

(** * Real-time bandwidth *)

Fixpoint zsum (l : list Z) : Z := match l with [] => 0 | x :: l => x + zsum l end.

Lemma zsum_app l1 l2 : zsum (l1 ++ l2) = zsum l1 + zsum l2.
Proof. induction l1 as [|x l1 IH]; cbn; [done|]. rewrite IH. lia. Qed.

Lemma zsum_zero l : Forall (fun x => x = 0) l -> zsum l = 0.
Proof. induction 1; cbn; lia. Qed.

Lemma zsum_nonneg l : Forall (fun x => 0 <= x) l -> 0 <= zsum l.
Proof. induction 1; cbn; lia. Qed.

Lemma zsum_elem x l : Forall (fun x => 0 <= x) l -> x ∈ l -> x <= zsum l.
Proof.
  induction 1 as [|y l Hy Hl IH]; [set_solver|]. pose proof (zsum_nonneg l Hl).
  intros [->|Hx]%elem_of_cons; cbn; [lia|]. specialize (IH Hx). lia.
Qed.

(** The ratio of a valid bandwidth is its fraction of 2^20, rounded down. *)
Definition bw_ok (period runtime : Z) : Prop :=
  0 < period /\ (runtime = RUNTIME_INF \/ 0 <= runtime <= period /\ runtime < 2 ^ 44).

Lemma to_ratio_range period runtime : 0 <= to_ratio period runtime < 2 ^ 32.
Proof. unfold to_ratio. destruct (runtime =? RUNTIME_INF); [lia|]. apply u32_range. Qed.

Lemma to_ratio_0 period : to_ratio period 0 = 0.
Proof. unfold to_ratio. change (u64 (Z.shiftl 0 20)) with 0. by rewrite Zdiv_0_l. Qed.

Lemma to_ratio_exact period runtime : bw_ok period runtime -> runtime <> RUNTIME_INF ->
  to_ratio period runtime = runtime * 2 ^ 20 / period.
Proof.
  intros [Hp [?|[Hr Hb]]] Hne; [done|]. unfold to_ratio.
  rewrite (proj2 (Z.eqb_neq _ _)) by done. rewrite Z.shiftl_mul_pow2 by lia.
  rewrite (u64_small (runtime * 2 ^ 20)) by lia. apply u32_small.
  assert (runtime * 2 ^ 20 / period <= 2 ^ 20) by (apply Z.div_le_upper_bound; nia).
  split; [apply Z.div_pos; lia|lia].
Qed.

Lemma to_ratio_le period runtime : bw_ok period runtime -> to_ratio period runtime <= 2 ^ 20.
Proof.
  intros H. destruct (decide (runtime = RUNTIME_INF)) as [->|Hne]; [done|].
  rewrite to_ratio_exact by done. destruct H as [Hp [?|[Hr _]]]; [done|].
  apply Z.div_le_upper_bound; nia.
Qed.

(** The sum the code computes is exact while it fits. *)
Lemma fold_sum l acc : 0 <= acc -> Forall (fun x => 0 <= x) l -> acc + zsum l < 2 ^ 32 ->
  fold_left (fun sum x => u32 (sum + x)) l acc = acc + zsum l.
Proof.
  revert acc. induction l as [|x l IH]; intros acc Ha Hl Hs; cbn in *; [lia|].
  apply Forall_cons in Hl as [Hx Hl]. pose proof (zsum_nonneg l Hl).
  rewrite u32_small by lia. rewrite IH by (done || lia). lia.
Qed.

Lemma zsum_update (r r' : nat -> Z) c l : NoDup l -> (forall x, x <> c -> r' x = r x) ->
  zsum (r' <$> l) = zsum (r <$> l) + (if bool_decide (c ∈ l) then r' c - r c else 0).
Proof.
  intros Hnd Hne. induction Hnd as [|x l Hx Hnd IH]; [done|]. cbn. rewrite IH.
  destruct (decide (x = c)) as [->|Hxc].
  - rewrite (bool_decide_false (c ∈ l)), (bool_decide_true (c ∈ c :: l)) by set_solver. lia.
  - rewrite (Hne x Hxc). destruct (decide (c ∈ l)) as [Hc|Hc].
    + rewrite (bool_decide_true (c ∈ l)), (bool_decide_true (c ∈ x :: l)) by set_solver. lia.
    + rewrite (bool_decide_false (c ∈ l)), (bool_decide_false (c ∈ x :: l)) by set_solver. lia.
Qed.

Section rt.
Context {KT : KTypes} {KE : KEnv} {TE : TgEnv}.
Implicit Types (s : kst).

Definition period_of s (g : nat) : Z := rtb_period (tg_rt_bandwidth (tgs s g)).
Definition runtime_of s (g : nat) : Z := rtb_runtime (tg_rt_bandwidth (tgs s g)).
Definition ratio s (g : nat) : Z := to_ratio (period_of s g) (runtime_of s g).
Definition global_ratio s : Z := to_ratio (global_rt_period s) (global_rt_runtime s).

(** The constraints on one group: its bandwidth is valid and below the global
    limit, and the bandwidths of its children fit into it (an exact sum). *)
Record group_ok s (g : nat) : Prop := {
  ok_bw : bw_ok (period_of s g) (runtime_of s g);
  ok_global : ratio s g <= global_ratio s;
  ok_children : zsum (ratio s <$> tg_children (tgs s g)) <= ratio s g }.

(** The group tree of the machine, and the constraints on all its groups. *)
Definition groups s (f : forest) : Prop := group_tree (tgs s) root_task_group f.
Definition rt_ok s (f : forest) : Prop := Forall (group_ok s) (root_task_group :: ids f).

Lemma ratio_nonneg s l : Forall (fun x => 0 <= x) (ratio s <$> l).
Proof. apply Forall_fmap, Forall_true. intros g. apply to_ratio_range. Qed.

(** The children of a group of the tree are in the tree, each once. *)
Lemma tree_group_children tgs top f g : group_tree tgs top f -> g ∈ top :: ids f ->
  NoDup (tg_children (tgs g)) /\ tg_children (tgs g) ⊆ ids f.
Proof.
  intros [Hc Hl [Hn1 Hn2]%NoDup_cons]. intros [->|Hg]%elem_of_cons.
  { rewrite Hc. split; [by apply roots_nodup|apply roots_ids]. }
  clear Hc Hn1. revert Hl. generalize top as par. clear top.
  induction f as [|p c IHc h IHh]; intros par Hl; [set_solver|].
  destruct Hl as (_ & Hch & Hlc & Hlh). cbn [ids] in *.
  apply NoDup_cons in Hn2 as [Hp (Hnc & _ & Hnh)%NoDup_app].
  apply elem_of_cons in Hg as [->|[Hg|Hg]%elem_of_app].
  - rewrite Hch. split; [by apply roots_nodup|]. pose proof (roots_ids c). set_solver.
  - destruct (IHc Hnc Hg _ Hlc). split; [done|set_solver].
  - destruct (IHh Hnh Hg _ Hlh). split; [done|set_solver].
Qed.

(** ** The check *)

(** A state that has the data's bandwidth in the group itself. *)
Definition set_bw (tg : nat) (period runtime : Z) s : kst :=
  upd_tg tg (fun t => t <| tg_rt_bandwidth ::= fun b =>
    b <| rtb_period := period |> <| rtb_runtime := runtime |> |>) s.

Lemma set_bw_eq tg p r s : period_of (set_bw tg p r s) tg = p /\ runtime_of (set_bw tg p r s) tg = r.
Proof. unfold period_of, runtime_of, set_bw, upd_tg. cbn. by rewrite Nat.eqb_refl. Qed.

Lemma set_bw_ne tg p r s g : g <> tg -> tgs (set_bw tg p r s) g = tgs s g.
Proof. intros H. unfold set_bw, upd_tg. cbn. by rewrite (proj2 (Nat.eqb_neq g tg)). Qed.

Lemma set_bw_links tg p r s g :
  tg_children (tgs (set_bw tg p r s) g) = tg_children (tgs s g) /\
  tg_parent (tgs (set_bw tg p r s) g) = tg_parent (tgs s g).
Proof. unfold set_bw, upd_tg. cbn. by destruct (Nat.eqb_spec g tg) as [->|]. Qed.

Lemma set_bw_groups tg p r s f : groups s f -> groups (set_bw tg p r s) f.
Proof.
  intros [Hc Hl Hn]. split; [|eapply linked_ext; [|exact Hl]|done].
  - by rewrite (proj1 (set_bw_links tg p r s _)).
  - intros q _. by destruct (set_bw_links tg p r s q).
Qed.

(** What tg_rt_schedulable() checks of a group, its 32-bit sum included. *)
Definition checked s (g : nat) : Prop :=
  (runtime_of s g <= period_of s g \/ runtime_of s g = RUNTIME_INF) /\
  ~ (rt_bandwidth_enabled s = true /\ runtime_of s g = 0 /\ tg_has_rt_tasks g s = true) /\
  ratio s g <= global_ratio s /\
  fold_left (fun sum x => u32 (sum + x)) (ratio s <$> tg_children (tgs s g)) 0 <= ratio s g.

Lemma d_bandwidth_set tg p r s g :
  d_bandwidth (mkRtData (Some tg) p r) g s = (period_of (set_bw tg p r s) g, runtime_of (set_bw tg p r s) g).
Proof.
  unfold d_bandwidth. cbn [d_tg d_rt_period d_rt_runtime].
  destruct (set_bw_eq tg p r s) as [E1 E2].
  destruct (decide (g = tg)) as [->|Hne].
  - rewrite bool_decide_true by done. by rewrite E1, E2.
  - rewrite bool_decide_false by congruence. unfold period_of, runtime_of. by rewrite set_bw_ne.
Qed.

Lemma d_bandwidth_none s g : d_bandwidth (mkRtData None 0 0) g s = (period_of s g, runtime_of s g).
Proof. unfold d_bandwidth. by rewrite bool_decide_false. Qed.

(** The check with [d] in place of a group's bandwidth is the check of the
    state [s1] that has it. *)
Lemma schedulable_checked d s s1 g :
  (forall h, d_bandwidth d h s = (period_of s1 h, runtime_of s1 h)) ->
  global_ratio s1 = global_ratio s -> rt_bandwidth_enabled s1 = rt_bandwidth_enabled s ->
  tg_has_rt_tasks g s1 = tg_has_rt_tasks g s ->
  tg_children (tgs s1 g) = tg_children (tgs s g) ->
  (tg_rt_schedulable d g s = 0 <-> checked s1 g) /\
  (tg_rt_schedulable d g s = 0 \/ tg_rt_schedulable d g s = - EINVAL \/ tg_rt_schedulable d g s = - EBUSY).
Proof.
  intros Hd Hg He Ht Hc. unfold tg_rt_schedulable, checked. rewrite Hd, He, Ht, Hc. fold (global_ratio s).
  rewrite Hg. fold (ratio s1 g).
  assert (forall l acc, fold_left (fun sum child => let '(p, r) := d_bandwidth d child s in u32 (sum + to_ratio p r)) l acc =
    fold_left (fun sum x => u32 (sum + x)) (ratio s1 <$> l) acc) as ->.
  { induction l as [|x l IH]; intros acc; [done|]. cbn. rewrite Hd. apply IH. }
  generalize (fold_left (fun sum x => u32 (sum + x)) (ratio s1 <$> tg_children (tgs s g)) 0). intros sum.
  destruct (Z.ltb_spec (period_of s1 g) (runtime_of s1 g)), (Z.eqb_spec (runtime_of s1 g) RUNTIME_INF);
    cbn [andb negb];
    try (split; [split; [unfold EINVAL; lia|intros [[?|?] _]; lia]|by auto]).
  all: destruct (rt_bandwidth_enabled s), (Z.eqb_spec (runtime_of s1 g) 0), (tg_has_rt_tasks g s);
    cbn [andb]; try (split; [split; [unfold EBUSY; lia|intros (_ & [] & _); done]|by auto]).
  all: destruct (Z.ltb_spec (global_ratio s) (ratio s1 g));
    [split; [split; [unfold EINVAL; lia|intros (_ & _ & ? & _); lia]|by auto]|].
  all: destruct (Z.ltb_spec (ratio s1 g) sum);
    [split; [split; [unfold EINVAL; lia|intros (_ & _ & _ & ?); lia]|by auto]|].
  all: split; [split; [intros _; split_and!; try lia; try (intros (? & ? & ?); congruence)|done]|by auto].
Qed.

Lemma rt_schedulable_holds fuel tg p r s f : groups s f -> (3 * fsize f + 2 <= fuel)%nat ->
  __rt_schedulable fuel tg p r s =
  Some (first_error ((fun g => tg_rt_schedulable (mkRtData tg p r) g s) <$> root_task_group :: ids f)).
Proof.
  intros Hg Hf. unfold __rt_schedulable, walk_tg_tree. rewrite (walk_holds _ _ _ _ f) by done.
  unfold visit_tree. cbn [fmap list_fmap first_error option_fmap option_map].
  destruct (c_true (tg_rt_schedulable _ root_task_group s)) eqn:E.
  - by rewrite !(andthen_err _ _ _ E).
  - rewrite (andthen_ok _ _ _ E), visit_reader. unfold andthen, tg_nop. cbn.
    destruct (c_true (first_error _)) eqn:E2; [done|]. cbn. apply c_true_false in E2. by rewrite E2.
Qed.

(** The bandwidth a caller asks for: any period that is not 0, and a runtime
    that the shift in to_ratio() does not overflow. *)
Definition bw_arg (period runtime : Z) : Prop :=
  0 < period /\ (runtime = RUNTIME_INF \/ 0 <= runtime < 2 ^ 44).

Lemma checked_ok tg p r s f g : groups s f -> rt_ok s f -> tg ∈ root_task_group :: ids f -> bw_arg p r ->
  checked (set_bw tg p r s) tg -> g ∈ root_task_group :: ids f ->
  bw_ok (period_of (set_bw tg p r s) g) (runtime_of (set_bw tg p r s) g) /\
  fold_left (fun sum x => u32 (sum + x))
    (ratio (set_bw tg p r s) <$> tg_children (tgs (set_bw tg p r s) g)) 0 =
  zsum (ratio (set_bw tg p r s) <$> tg_children (tgs (set_bw tg p r s) g)).
Proof.
  intros Hg Hok Htg Harg (Hc1 & _) Hin.
  set (s1 := set_bw tg p r s) in *. destruct (set_bw_eq tg p r s) as [E1 E2]. fold s1 in E1, E2.
  assert (bw_ok (period_of s1 tg) (runtime_of s1 tg)) as Hbw.
  { rewrite E1, E2 in *. destruct Harg as [Hp Hr]. split; [done|].
    destruct Hc1 as [Hc1|?]; [|by left]. destruct Hr as [?|Hr]; [by left|]. right. lia. }
  destruct (proj1 (Forall_forall _ _) Hok g Hin) as [Hb Hgl Hch].
  assert (bw_ok (period_of s1 g) (runtime_of s1 g)) as Hbg.
  { destruct (decide (g = tg)) as [->|Hne]; [done|]. unfold period_of, runtime_of, s1.
    by rewrite set_bw_ne. }
  split; [done|].
  rewrite (proj1 (set_bw_links tg p r s g) : tg_children (tgs s1 g) = _).
  destruct (tree_group_children _ _ _ _ Hg Hin) as [Hnd _].
  rewrite fold_sum; [done|done|apply ratio_nonneg|].
  rewrite (zsum_update (ratio s) (ratio s1) tg) by
    (done || (intros x Hx; unfold ratio, period_of, runtime_of, s1; by rewrite set_bw_ne)).
  pose proof (to_ratio_le _ _ Hbw) as H1. pose proof (to_ratio_le _ _ Hb) as H2.
  pose proof (to_ratio_range (period_of s tg) (runtime_of s tg)) as H3.
  fold (ratio s g) in H2. fold (ratio s1 tg) in H1. fold (ratio s tg) in H3. case_bool_decide; lia.
Qed.

(** The new bandwidth is accepted exactly when the constraints hold with it and
    it takes no runtime from a group found to have real-time tasks. *)
Definition starves s (f : forest) : Prop :=
  exists g, g ∈ root_task_group :: ids f /\
    rt_bandwidth_enabled s = true /\ runtime_of s g = 0 /\ tg_has_rt_tasks g s = true.

Lemma schedulable_iff fuel tg p r s f : groups s f -> (3 * fsize f + 2 <= fuel)%nat -> rt_ok s f ->
  tg ∈ root_task_group :: ids f -> bw_arg p r ->
  exists err, __rt_schedulable fuel (Some tg) p r s = Some err /\
    (err = 0 \/ err = - EINVAL \/ err = - EBUSY) /\
    (err = 0 <-> rt_ok (set_bw tg p r s) f /\ ~ starves (set_bw tg p r s) f).
Proof.
  intros Hg Hf Hok Htg Harg. set (s1 := set_bw tg p r s). rewrite (rt_schedulable_holds _ _ _ _ _ f) by done.
  set (d := mkRtData (Some tg) p r). set (l := root_task_group :: ids f) in *.
  assert (forall g, (tg_rt_schedulable d g s = 0 <-> checked s1 g) /\
    (tg_rt_schedulable d g s = 0 \/ tg_rt_schedulable d g s = - EINVAL \/ tg_rt_schedulable d g s = - EBUSY)) as Hs.
  { intros g. apply schedulable_checked; try done; [intros h; apply d_bandwidth_set|].
    apply (set_bw_links tg p r s g). }
  eexists. split; [done|]. split.
  - destruct (decide (first_error ((fun g => tg_rt_schedulable d g s) <$> l) = 0)) as [|Hne]; [by left|].
    apply first_error_elem, list_elem_of_fmap in Hne as (g & -> & _). apply (Hs g).
  - rewrite first_error_0, Forall_fmap, Forall_forall. split.
    + intros Hall. assert (forall g, g ∈ l -> checked s1 g) as Hck by (intros g Hin; by apply Hs, Hall).
      split; [|intros (g & Hin & Hst); destruct (Hck g Hin) as (_ & Hn & _); by apply Hn].
      apply Forall_forall. intros g Hin.
      destruct (checked_ok tg p r s f g Hg Hok Htg Harg (Hck tg Htg) Hin) as [Hb E].
      destruct (Hck g Hin) as (_ & _ & H3 & H4). fold s1 in E. rewrite E in H4. done.
    + intros [Hok1 Hns] g Hin. apply Hs.
      assert (forall h, h ∈ l -> runtime_of s1 h <= period_of s1 h \/ runtime_of s1 h = RUNTIME_INF) as Hrp.
      { intros h Hh. destruct (proj1 (Forall_forall _ _) Hok1 h Hh) as [[_ [?|[? _]]] _ _]; [by right|left; lia]. }
      destruct (proj1 (Forall_forall _ _) Hok1 g Hin) as [Hb H3 H4].
      split; [by apply Hrp|]. split; [intros Hst; apply Hns; by exists g|]. split; [done|].
      destruct (tree_group_children _ _ _ _ (set_bw_groups tg p r s f Hg) Hin) as [Hnd Hsub].
      rewrite fold_sum; [exact H4|done|apply ratio_nonneg|].
      pose proof (to_ratio_le _ _ Hb) as H5. fold (ratio s1 g) in H5. fold s1. lia.
Qed.

Lemma rt_ok_ext s s' f : tgs s' = tgs s -> global_ratio s' = global_ratio s -> rt_ok s f -> rt_ok s' f.
Proof.
  intros E Eg. intros Hok; eapply Forall_impl; [exact Hok|]. intros g [H1 H2 H3].
  split; unfold ratio, period_of, runtime_of in *; by rewrite ?E, ?Eg.
Qed.

Lemma set_bandwidth_holds fuel tg p r s f : groups s f -> (3 * fsize f + 2 <= fuel)%nat -> rt_ok s f ->
  tg ∈ root_task_group :: ids f -> bw_arg p r ->
  exists err s', tg_set_rt_bandwidth fuel tg p r s = Some (err, s') /\
    (err = 0 \/ err = - EINVAL \/ err = - EBUSY) /\
    (err = 0 <-> rt_ok (set_bw tg p r s) f /\ ~ starves (set_bw tg p r s) f) /\
    (err <> 0 -> s' = s) /\
    (err = 0 -> rt_ok s' f /\ groups s' f /\ tgs s' = tgs (set_bw tg p r s) /\ rt_runtime (rt_rqs s' tg) = r).
Proof.
  intros Hg Hf Hok Htg Harg.
  destruct (schedulable_iff fuel tg p r s f Hg Hf Hok Htg Harg) as (err & E & Herr & Hiff).
  unfold tg_set_rt_bandwidth. rewrite E. destruct (c_true err) eqn:Ec.
  - apply c_true_iff in Ec. exists err, s. by split_and!.
  - apply c_true_false in Ec as ->. eexists 0, _. split; [done|].
    split; [done|]. split; [done|]. split; [done|]. intros _.
    destruct (proj1 Hiff eq_refl) as [Hok1 _]. split; [|split; [|split]].
    + by apply (rt_ok_ext (set_bw tg p r s)).
    + exact (set_bw_groups tg p r s f Hg).
    + done.
    + cbn. by rewrite Nat.eqb_refl.
Qed.

(** C19: Changing the real-time bandwidth of a group is all or nothing and keeps
    the hierarchy schedulable: tg_set_rt_bandwidth() ends; it returns 0 exactly
    when, with the new values, every group's runtime fits its period and the
    global limit, the ratios of the children of every group add up to at most
    the group's own, and no runtime is taken from a group found to have
    real-time tasks; then the group and its run queue have the new values, and
    all constraints hold again.  Otherwise it returns -EINVAL or -EBUSY and
    changes nothing.  The 32-bit sums of the check are exact. *)
Theorem tg_set_rt_bandwidth_spec fuel tg p r s f (Hg : groups s f) (Hf : (3 * fsize f + 2 <= fuel)%nat)
    (Hok : rt_ok s f) (Htg : tg ∈ root_task_group :: ids f) (Hargs : bw_arg p r) :
  exists err s', tg_set_rt_bandwidth fuel tg p r s = Some (err, s') /\
    (err = 0 \/ err = - EINVAL \/ err = - EBUSY) /\
    (err = 0 <-> rt_ok (set_bw tg p r s) f /\ ~ starves (set_bw tg p r s) f) /\
    (err <> 0 -> s' = s) /\
    (err = 0 -> rt_ok s' f /\ groups s' f /\ tgs s' = tgs (set_bw tg p r s) /\ rt_runtime (rt_rqs s' tg) = r).
Proof. by apply set_bandwidth_holds. Qed.

Lemma bw_arg_of p r : bw_ok p r -> bw_arg p r.
Proof. intros [? [?|?]]; split; try done; [by left|right; lia]. Qed.

(** Whatever number is written to the files rt_runtime_us and rt_period_us
    of a group, also one that does not fit the signed 32-bit parameter it is
    passed in, the constraints on all groups hold afterwards: the write returns
    an error and changes nothing, or returns 0 and leaves every group within
    its period, its parent and the global limit. *)
Theorem rt_files_safe fuel cgrp val s f (Hg : groups s f) (Hf : (3 * fsize f + 2 <= fuel)%nat)
    (Hok : rt_ok s f) (Htg : cgroup_tg cgrp (ext s) ∈ root_task_group :: ids f) :
  (exists err s', cpu_rt_runtime_write fuel cgrp val s = Some (err, s') /\
     groups s' f /\ rt_ok s' f /\ (err <> 0 -> s' = s)) /\
  (exists err s', cpu_rt_period_write_uint fuel cgrp val s = Some (err, s') /\
     groups s' f /\ rt_ok s' f /\ (err <> 0 -> s' = s)).
Proof.
  set (tg := cgroup_tg cgrp (ext s)) in *.
  pose proof (ok_bw _ _ (proj1 (Forall_forall _ _) Hok tg Htg)) as Hbw.
  assert (forall p r, bw_arg p r -> exists err s', tg_set_rt_bandwidth fuel tg p r s = Some (err, s') /\
     groups s' f /\ rt_ok s' f /\ (err <> 0 -> s' = s)) as Hset.
  { intros p r Ha. destruct (set_bandwidth_holds fuel tg p r s f Hg Hf Hok Htg Ha) as (err & s' & E & _ & _ & H1 & H2).
    exists err, s'. split; [done|]. destruct (decide (err = 0)) as [->|Hne].
    - destruct (H2 eq_refl) as (? & ? & _). done.
    - by rewrite (H1 Hne). }
  pose proof (s32_range val) as Hv. split.
  - unfold cpu_rt_runtime_write, sched_group_set_rt_runtime. fold tg. apply Hset.
    destruct Hbw as [Hp _]. split; [done|]. destruct (Z.ltb_spec (s32 val) 0); [by left|right].
    rewrite (u64_small (s32 val)), u64_small by (unfold NSEC_PER_USEC; lia). unfold NSEC_PER_USEC. lia.
  - unfold cpu_rt_period_write_uint, sched_group_set_rt_period. fold tg.
    pose proof (u64_range (u64 (s32 val) * NSEC_PER_USEC)).
    destruct (Z.eqb_spec (u64 (u64 (s32 val) * NSEC_PER_USEC)) 0).
    + eexists _, s. done.
    + apply Hset. apply bw_arg_of in Hbw as [_ Hr]. split; [lia|exact Hr].
Qed.

(** A choice of groups none of which lies below another. *)
Inductive disjoint_groups : forest -> list nat -> Prop :=
  | dg_nil : disjoint_groups FNil []
  | dg_take p c g l : disjoint_groups g l -> disjoint_groups (FCons p c g) (p :: l)
  | dg_below p c g l1 l2 : disjoint_groups c l1 -> disjoint_groups g l2 ->
      disjoint_groups (FCons p c g) (l1 ++ l2).

Lemma disjoint_sum s f l par : disjoint_groups f l ->
  linked (fun g => tg_parent (tgs s g)) (fun g => tg_children (tgs s g)) par f ->
  (forall g, g ∈ ids f -> group_ok s g) ->
  zsum (ratio s <$> l) <= zsum (ratio s <$> roots f).
Proof.
  intros Hd. revert par. induction Hd as [|p c g l Hd IH|p c g l1 l2 H1 IH1 H2 IH2]; intros par Hl Hok; [done|..];
    destruct Hl as (_ & Hc & Hlc & Hlg); cbn [ids roots] in *.
  - cbn. specialize (IH par Hlg ltac:(set_solver)). lia.
  - rewrite fmap_app, zsum_app. cbn. specialize (IH1 p Hlc ltac:(set_solver)). specialize (IH2 par Hlg ltac:(set_solver)).
    pose proof (ok_children _ _ (Hok p ltac:(set_solver))) as H. rewrite Hc in H. lia.
Qed.

(** A constrained hierarchy promises no more than there is. *)
Lemma ok_bounded s f l : groups s f -> rt_ok s f -> disjoint_groups f l ->
  zsum (ratio s <$> l) <= ratio s root_task_group <= global_ratio s.
Proof.
  intros [Hc Hlk _] Hok Hl. apply Forall_cons in Hok as [[_ Hr Hch] Hok].
  split; [|done]. rewrite Hc in Hch.
  pose proof (disjoint_sum s f l _ Hl Hlk (proj1 (Forall_forall _ _) Hok)). lia.
Qed.

(** Writes to the files rt_runtime_us and rt_period_us of the groups, whose
    results are not looked at. *)
Inductive rt_write := WriteRuntime (cgrp : nat) (val : Z) | WritePeriod (cgrp : nat) (val : Z).
Definition write_cgroup (w : rt_write) : nat := match w with WriteRuntime c _ | WritePeriod c _ => c end.
Definition rt_write_exec (fuel : nat) (w : rt_write) s : option (Z * kst) :=
  match w with
  | WriteRuntime c val => cpu_rt_runtime_write fuel c val s
  | WritePeriod c val => cpu_rt_period_write_uint fuel c val s
  end.
Fixpoint rt_writes (fuel : nat) (ws : list rt_write) s : option kst :=
  match ws with
  | [] => Some s
  | w :: ws => match rt_write_exec fuel w s with None => None | Some (_, s) => rt_writes fuel ws s end
  end.

Lemma rt_write_ext fuel w s err s' : rt_write_exec fuel w s = Some (err, s') -> ext s' = ext s.
Proof.
  assert (forall tg p r err s', tg_set_rt_bandwidth fuel tg p r s = Some (err, s') -> ext s' = ext s) as Hset.
  { intros tg p r err0 s0. unfold tg_set_rt_bandwidth. destruct (__rt_schedulable _ _ _ _ _); [|done].
    destruct (c_true z); by intros [= _ <-]. }
  destruct w as [c val|c val]; cbn [rt_write_exec].
  - unfold cpu_rt_runtime_write, sched_group_set_rt_runtime. apply Hset.
  - unfold cpu_rt_period_write_uint, sched_group_set_rt_period. cbv zeta. destruct (_ =? 0); [by intros [= _ <-]|apply Hset].
Qed.

(** C32: The hierarchy never promises more real-time runtime than there is.  From
    a hierarchy within its limits, whatever numbers are written in whatever order
    to the files rt_runtime_us and rt_period_us of its groups, every write ends,
    and afterwards, of any groups none of which lies below another, the ratios of
    runtime to period (in 2^-20, rounded down, as to_ratio() computes them) add up
    to at most the ratio of the root group, which is at most the global one. *)
Theorem rt_hierarchy_bounded fuel ws s f l (Hg : groups s f) (Hf : (3 * fsize f + 2 <= fuel)%nat) (Hok : rt_ok s f)
    (Hws : Forall (fun w => cgroup_tg (write_cgroup w) (ext s) ∈ root_task_group :: ids f) ws) (Hl : disjoint_groups f l) :
  exists s', rt_writes fuel ws s = Some s' /\
    zsum (ratio s' <$> l) <= ratio s' root_task_group <= global_ratio s'.
Proof.
  revert s Hg Hok Hws. induction ws as [|w ws IH]; intros s Hg Hok Hws; [exists s; split; [done|by apply (ok_bounded s f)]|].
  apply Forall_cons in Hws as [Hw Hws]. cbn [rt_writes].
  assert (exists err s1, rt_write_exec fuel w s = Some (err, s1) /\ groups s1 f /\ rt_ok s1 f) as (err & s1 & E & Hg1 & Hok1).
  { destruct w as [c val|c val]; cbn [write_cgroup rt_write_exec] in *;
      destruct (rt_files_safe fuel c val s f Hg Hf Hok Hw) as [(e1 & t1 & E1 & G1 & O1 & _) (e2 & t2 & E2 & G2 & O2 & _)]; eauto 6. }
  rewrite E. apply IH; [done|done|]. by rewrite (rt_write_ext _ _ _ _ _ E).
Qed.

(** The check that should not let a group with real-time tasks lose its
    runtime looks at the group of the processor's own run queue instead of the
    task's: a group other than the root is given a runtime of 0 although
    real-time tasks are in it, if its children have none. *)
Theorem rt_zero_runtime_accepted fuel tg p s f (Hg : groups s f) (Hf : (3 * fsize f + 2 <= fuel)%nat)
    (Hok : rt_ok s f) (Htg : tg ∈ ids f) (Hroot : rt_tg (rt_rqs s root_task_group) = Some root_task_group)
    (Hch : Forall (fun g => runtime_of s g = 0) (tg_children (tgs s tg)))
    (Hrun : runtime_of s root_task_group <> 0)
    (Hp : p ∈ all_threads (ext s)) (Hrt : rt_task s p = true) (Hin : task_group_of s p = tg) :
  exists s', sched_group_set_rt_runtime fuel tg 0 s = Some (0, s') /\
    runtime_of s' tg = 0 /\ task_group_of s' p = tg /\ rt_task s' p = true.
Proof.
  assert (tg <> root_task_group) as Hne by (intros ->; by destruct Hg as [_ _ [? _]%NoDup_cons]).
  assert (tg ∈ root_task_group :: ids f) as Htg' by (by right).
  pose proof (ok_bw _ _ (proj1 (Forall_forall _ _) Hok tg Htg')) as [Hpos _].
  unfold sched_group_set_rt_runtime. change (0 <? 0) with false. cbv zeta iota.
  change (u64 (u64 0 * NSEC_PER_USEC)) with 0. fold (period_of s tg).
  assert (bw_arg (period_of s tg) 0) as Ha by (split; [done|right; lia]).
  destruct (set_bandwidth_holds fuel tg (period_of s tg) 0 s f Hg Hf Hok Htg' Ha)
    as (err & s' & E & _ & Hiff & _ & Hs).
  set (s1 := set_bw tg (period_of s tg) 0 s) in *.
  destruct (set_bw_eq tg (period_of s tg) 0 s) as [E1 E2]. fold s1 in E1, E2.
  assert (forall g, g <> tg -> ratio s1 g = ratio s g) as Hsame.
  { intros g H. unfold ratio, period_of, runtime_of, s1. by rewrite set_bw_ne. }
  assert (ratio s1 tg = 0) as Hz.
  { unfold ratio. by rewrite E2, to_ratio_0. }
  assert (err = 0) as ->; [apply Hiff; split|].
  - apply Forall_forall. intros g Hgin.
    destruct (proj1 (Forall_forall _ _) Hok g Hgin) as [H1 H2 H3].
    destruct (tree_group_children _ _ _ _ Hg Hgin) as [Hnd _].
    assert (tg_children (tgs s1 g) = tg_children (tgs s g)) as Ec by apply (set_bw_links tg (period_of s tg) 0 s g).
    destruct (decide (g = tg)) as [->|Hgne].
    + split; [rewrite E1, E2; split; [done|right; lia]| |].
      * rewrite Hz. apply to_ratio_range.
      * rewrite Ec, Hz, zsum_zero; [done|]. apply Forall_fmap. eapply Forall_impl; [exact Hch|].
        intros g H0. cbn. destruct (decide (g = tg)) as [->|Hg']; [done|]. rewrite Hsame by done.
        unfold ratio. by rewrite H0, to_ratio_0.
    + split; [unfold period_of, runtime_of, s1; by rewrite set_bw_ne|by rewrite Hsame|].
      rewrite Hsame, Ec by done. rewrite (zsum_update (ratio s) (ratio s1) tg) by done.
      pose proof (to_ratio_range (period_of s tg) (runtime_of s tg)) as Hr. fold (ratio s tg) in Hr.
      case_bool_decide; lia.
  - intros (g & Hgin & _ & Hg0 & Ht). unfold tg_has_rt_tasks in Ht.
    apply existsb_exists in Ht as (q & _ & [_ Hq]%andb_true_iff). apply bool_decide_eq_true in Hq.
    change (rt_tg (rt_rqs s root_task_group) = Some g) in Hq. rewrite Hroot in Hq. injection Hq as <-.
    unfold runtime_of, s1 in Hg0. rewrite set_bw_ne in Hg0 by done. done.
  - destruct (Hs eq_refl) as (_ & _ & Et & _). exists s'. split; [done|].
    unfold tg_set_rt_bandwidth in E. destruct (__rt_schedulable _ _ _ _ _) as [err|]; [|done].
    destruct (c_true err) eqn:Ec; [injection E as -> <-; done|]. injection E as -> <-.
    split; [|done]. unfold runtime_of. cbn. by rewrite Nat.eqb_refl.
Qed.
End rt.

(** * Groups come and go *)

(** The tree with [tg] as first child of [parent]. *)
Fixpoint insert_child (parent tg : nat) (f : forest) : forest :=
  match f with
  | FNil => FNil
  | FCons p c g =>
      FCons p (if (p =? parent)%nat then FCons tg FNil c else insert_child parent tg c)
        (insert_child parent tg g)
  end.
Definition insert_below (parent tg : nat) (f : forest) : forest :=
  if (parent =? root_task_group)%nat then FCons tg FNil f else insert_child parent tg f.

(** The tree without the leaf [tg]. *)
Fixpoint remove_leaf (tg : nat) (f : forest) : forest :=
  match f with
  | FNil => FNil
  | FCons p c g => if (p =? tg)%nat then remove_leaf tg g else FCons p (remove_leaf tg c) (remove_leaf tg g)
  end.

Lemma insert_child_roots parent tg f : roots (insert_child parent tg f) = roots f.
Proof. induction f as [|p c _ g IH]; cbn; [done|by rewrite IH]. Qed.

Lemma insert_child_none parent tg f : parent ∉ ids f -> insert_child parent tg f = f.
Proof.
  induction f as [|p c IHc g IHg]; cbn; [done|]. intros H.
  rewrite (proj2 (Nat.eqb_neq p parent)), IHc, IHg by set_solver. done.
Qed.

Lemma insert_child_ids parent tg f : parent ∈ ids f -> NoDup (ids f) -> ids (insert_child parent tg f) ≡ₚ tg :: ids f.
Proof.
  induction f as [|p c IHc g IHg]; cbn; [set_solver|].
  intros Hin [Hp (Hc & Hd & Hg)%NoDup_app]%NoDup_cons.
  destruct (Nat.eqb_spec p parent) as [->|Hne].
  - rewrite insert_child_none by set_solver. cbn. apply Permutation_swap.
  - destruct (decide (parent ∈ ids c)) as [Hpc|Hpc].
    + rewrite (insert_child_none parent tg g) by (intros ?; by apply (Hd parent)). rewrite IHc by done.
      cbn. apply Permutation_swap.
    + rewrite (insert_child_none parent tg c) by done. rewrite IHg by (set_solver || done).
      rewrite <- Permutation_middle. apply Permutation_swap.
Qed.

(** New links that differ from the old only in the new child. *)
Lemma insert_child_linked (t t' : nat -> task_group) par parent tg f :
  linked (fun g => tg_parent (t g)) (fun g => tg_children (t g)) par f ->
  NoDup (ids f) -> tg ∉ ids f ->
  tg_parent (t' tg) = Some parent -> tg_children (t' tg) = [] ->
  (forall g, g <> tg -> tg_parent (t' g) = tg_parent (t g)) ->
  (forall g, g <> tg -> tg_children (t' g) = if (g =? parent)%nat then tg :: tg_children (t g) else tg_children (t g)) ->
  linked (fun g => tg_parent (t' g)) (fun g => tg_children (t' g)) par (insert_child parent tg f).
Proof.
  intros Hl Hnd Htg Hp' Hc' Hpar Hch. revert par Hl.
  induction f as [|p c IHc g IHg]; intros par Hl; [done|]. destruct Hl as (H1 & H2 & H3 & H4).
  cbn [ids] in *. apply NoDup_cons in Hnd as [Hpn (Hnc & Hd & Hng)%NoDup_app].
  cbn [insert_child linked]. rewrite Hpar, Hch, H1, H2 by set_solver.
  split; [done|]. destruct (Nat.eqb_spec p parent) as [->|Hne].
  - split; [done|]. split; [|apply IHg; [done|set_solver|done]]. cbn [linked]. rewrite Hp', Hc'.
    split; [done|]. split; [done|]. split; [done|]. rewrite <- (insert_child_none parent tg c) by set_solver.
    apply IHc; [done|set_solver|done].
  - rewrite insert_child_roots. split; [done|].
    split; [apply IHc|apply IHg]; try done; set_solver.
Qed.

Lemma insert_tree (t t' : nat -> task_group) parent tg f :
  group_tree t root_task_group f -> parent ∈ root_task_group :: ids f -> tg ∉ root_task_group :: ids f ->
  tg_parent (t' tg) = Some parent -> tg_children (t' tg) = [] ->
  (forall g, g <> tg -> tg_parent (t' g) = tg_parent (t g)) ->
  (forall g, g <> tg -> tg_children (t' g) = if (g =? parent)%nat then tg :: tg_children (t g) else tg_children (t g)) ->
  group_tree t' root_task_group (insert_below parent tg f) /\
  ids (insert_below parent tg f) ≡ₚ tg :: ids f.
Proof.
  intros [Hc Hl Hnd] Hpin Htg Hp' Hc' Hpar Hch. pose proof Hnd as [Hr Hn]%NoDup_cons.
  unfold insert_below. destruct (Nat.eqb_spec parent root_task_group) as [->|Hne].
  - split; [|done]. split.
    + rewrite Hch by set_solver. rewrite Nat.eqb_refl, Hc. done.
    + cbn [linked]. split; [done|]. split; [done|]. split; [done|].
      rewrite <- (insert_child_none root_task_group tg f) by done.
      apply (insert_child_linked t t'); try done. set_solver.
    + cbn [ids app]. rewrite Permutation_swap. constructor; [set_solver|done].
  - assert (parent ∈ ids f) as Hpf by set_solver.
    pose proof (insert_child_ids parent tg f Hpf Hn) as P. split; [|done]. split.
    + rewrite Hch by set_solver. rewrite (proj2 (Nat.eqb_neq _ _)) by done.
      by rewrite insert_child_roots.
    + apply (insert_child_linked t t'); try done. set_solver.
    + rewrite P, Permutation_swap. constructor; [set_solver|done].
Qed.

Section lifecycle.
Context {KT : KTypes} {KE : KEnv} {TE : TgEnv}.

(** The parts of the state that a group's creation leaves alone. *)
Definition same_groups (tg : nat) (s s' : kst) : Prop :=
  (forall g, g <> tg -> tgs s' g = tgs s g) /\ global_ratio s' = global_ratio s.

Lemma init_rt_rq_frame g s : tgs (init_rt_rq g s) = tgs s /\ global_ratio (init_rt_rq g s) = global_ratio s.
Proof.
  assert (forall n s, tgs (init_rt_queues n g s) = tgs s /\
    sysctl_sched_rt_period (init_rt_queues n g s) = sysctl_sched_rt_period s /\
    sysctl_sched_rt_runtime (init_rt_queues n g s) = sysctl_sched_rt_runtime s) as H.
  { intros n. induction n as [|n IH]; intros s0; [done|]. cbn. apply IH. }
  unfold init_rt_rq. generalize (Z.to_nat MAX_RT_PRIO). intros n. destruct (H n s) as (E1 & E2 & E3).
  split; [exact E1|]. unfold global_ratio, global_rt_period, global_rt_runtime. cbn. by rewrite E2, E3.
Qed.

Lemma init_entry_frame tg b pe s : same_groups tg s (init_tg_rt_entry tg b pe s) /\
  tg_rt_bandwidth (tgs (init_tg_rt_entry tg b pe s) tg) = tg_rt_bandwidth (tgs s tg).
Proof.
  split; [split|].
  - intros g H. unfold init_tg_rt_entry. destruct b; cbn; by rewrite (proj2 (Nat.eqb_neq _ _) H).
  - unfold init_tg_rt_entry. by destruct b.
  - unfold init_tg_rt_entry. destruct b; cbn; by rewrite Nat.eqb_refl.
Qed.

Lemma tgs_upd_rt_rq g f s : tgs (upd_rt_rq g f s) = tgs s.
Proof. done. Qed.
Lemma global_upd_rt_rq g f s : global_ratio (upd_rt_rq g f s) = global_ratio s.
Proof. done. Qed.

Lemma alloc_rt_frame tg parent o1 o2 o3 o4 s r s' : alloc_rt_sched_group tg parent o1 o2 o3 o4 s = (r, s') ->
  same_groups tg s s' /\
  (r <> 0 -> period_of s' tg = rtb_period (def_rt_bandwidth s) /\ runtime_of s' tg = 0).
Proof.
  assert (forall g h, g <> h -> (g =? h)%nat = false) as Hne by (intros; by apply Nat.eqb_neq).
  unfold alloc_rt_sched_group. destruct o1, o2; cbn [negb]; try (intros [= <- <-]; done).
  destruct o3; cbn [negb].
  2:{ intros [= <- <-]. split; [|done]. split; [|done]. intros g H. cbn. by rewrite Hne. }
  destruct o4; cbn [negb].
  2:{ intros [= <- <-]. split; [|done]. split; [|done]. intros g H. cbn. by rewrite Hne. }
  intros [<- <-]%pair_equal_spec.
  match goal with |- context [init_rt_rq tg ?s0] =>
    destruct (init_rt_rq_frame tg s0) as [E1 E2];
    assert (forall g, g <> tg -> tgs s0 g = tgs s g) as E3 by (intros g H; cbn; by rewrite Hne);
    assert (tg_rt_bandwidth (tgs s0 tg) = init_rt_bandwidth (rtb_period (def_rt_bandwidth s)) 0 (tg_rt_bandwidth (tgs s tg)))
      as E4 by (cbn; by rewrite Nat.eqb_refl);
    assert (global_ratio s0 = global_ratio s) as E5 by done;
    generalize dependent s0
  end.
  intros s0 E1 E2 E3 E4 E5.
  match goal with |- context [init_tg_rt_entry tg true ?pe ?s1] =>
    destruct (init_entry_frame tg true pe s1) as [[F1 F2] F3];
    assert (tgs s1 = tgs s0) as G1 by (rewrite tgs_upd_rt_rq; exact E1);
    assert (global_ratio s1 = global_ratio s) as G2 by (rewrite global_upd_rt_rq, <- E5; exact E2);
    generalize dependent s1
  end.
  intros s1 F1 F2 F3 G1 G2. split; [split|].
  - intros g H. by rewrite F1, G1, E3.
  - by rewrite F2.
  - intros _. unfold period_of, runtime_of. by rewrite F3, G1, E4.
Qed.

Lemma same_groups_trans tg s1 s2 s3 : same_groups tg s1 s2 -> same_groups tg s2 s3 -> same_groups tg s1 s3.
Proof. intros [A1 A2] [B1 B2]. split; [intros g H; by rewrite B1, A1|by rewrite B2]. Qed.

Lemma upd_tg_same tg F s : same_groups tg s (upd_tg tg F s).
Proof. split; [|done]. intros g H. cbn. by rewrite (proj2 (Nat.eqb_neq _ _) H). Qed.

Lemma free_group_same tg b s : same_groups tg (gk s) (gk (free_sched_group tg b s)).
Proof. split; [|by destruct b]. intros g H. destruct b; cbn; by rewrite ?(proj2 (Nat.eqb_neq _ _) H). Qed.

(** A tree without [tg] and its constraints do not see a change of [tg]. *)
Lemma same_groups_ok tg s s' f : same_groups tg s s' -> tg ∉ root_task_group :: ids f ->
  groups s f -> rt_ok s f -> groups s' f /\ rt_ok s' f.
Proof.
  intros [Hs Hgl] Htg Hg Hok.
  assert (forall g, g ∈ root_task_group :: ids f -> tgs s' g = tgs s g) as He
    by (intros g Hin; apply Hs; intros ->; done).
  split.
  - destruct Hg as [Hc Hl Hn]. split; [by rewrite He by set_solver|eapply linked_ext; [|exact Hl]|done].
    intros q Hq. by rewrite He by set_solver.
  - apply Forall_forall. intros g Hin. destruct (proj1 (Forall_forall _ _) Hok g Hin) as [H1 H2 H3].
    destruct (tree_group_children _ _ _ _ Hg Hin) as [_ Hsub].
    split; unfold ratio, period_of, runtime_of in *; rewrite ?Hgl, (He g Hin); try done.
    replace (zsum _) with (zsum (ratio s <$> tg_children (tgs s g))); [done|]. f_equal.
    apply list_fmap_ext. intros i x Hx. unfold ratio, period_of, runtime_of.
    rewrite (He x); [done|]. apply list_elem_of_lookup_2 in Hx. set_solver.
Qed.

(** A new group without runtime satisfies the constraints wherever it is put. *)
Lemma insert_rt_ok tg parent s s' f : rt_ok s f -> groups s f -> tg ∉ root_task_group :: ids f ->
  global_ratio s' = global_ratio s -> 0 < period_of s' tg -> runtime_of s' tg = 0 -> tg_children (tgs s' tg) = [] ->
  (forall g, g <> tg -> tg_rt_bandwidth (tgs s' g) = tg_rt_bandwidth (tgs s g)) ->
  (forall g, g <> tg -> tg_children (tgs s' g) = if (g =? parent)%nat then tg :: tg_children (tgs s g) else tg_children (tgs s g)) ->
  Forall (group_ok s') (tg :: root_task_group :: ids f).
Proof.
  intros Hok Hg Htg Hgl Hp Hr Hc Hbw Hch.
  assert (ratio s' tg = 0) as Hz by (unfold ratio; by rewrite Hr, to_ratio_0).
  assert (forall g, g <> tg -> ratio s' g = ratio s g) as He by (intros g H; unfold ratio, period_of, runtime_of; by rewrite Hbw).
  constructor.
  - split; [split; [done|rewrite Hr; right; lia]|rewrite Hz; apply to_ratio_range|by rewrite Hz, Hc].
  - apply Forall_forall. intros g Hin. assert (g <> tg) as Hne by (intros ->; done).
    destruct (proj1 (Forall_forall _ _) Hok g Hin) as [H1 H2 H3].
    split; [unfold period_of, runtime_of; by rewrite Hbw|by rewrite He, Hgl|].
    destruct (tree_group_children _ _ _ _ Hg Hin) as [_ Hsub].
    assert (zsum (ratio s' <$> tg_children (tgs s g)) = zsum (ratio s <$> tg_children (tgs s g))) as Es.
    { f_equal. apply list_fmap_ext. intros i x Hx%list_elem_of_lookup_2. apply He. set_solver. }
    rewrite He, Hch by done. destruct (g =? parent)%nat; cbn; rewrite ?Hz, Es; lia.
Qed.

(** The last steps of sched_create_group(): the new group is hooked into the
    hierarchy. *)
Definition hook (parent tg : nat) (k : kst) : kst :=
  upd_tg parent (fun t => t <| tg_children ::= fun l => tg :: l |>)
    (upd_tg tg (fun t => t <| tg_children := [] |>) (upd_tg tg (fun t => t <| tg_parent := Some parent |>) k)).

Lemma hook_ok s k tg parent f : groups s f -> rt_ok s f -> parent ∈ root_task_group :: ids f ->
  tg ∉ root_task_group :: ids f -> same_groups tg s k -> 0 < period_of k tg -> runtime_of k tg = 0 ->
  groups (hook parent tg k) (insert_below parent tg f) /\ ids (insert_below parent tg f) ≡ₚ tg :: ids f /\
  rt_ok (hook parent tg k) (insert_below parent tg f) /\ runtime_of (hook parent tg k) tg = 0.
Proof.
  intros Hg Hok Hp Hnew [Hs Hgl] Hkp Hkr. assert (parent <> tg) as Hpt by (intros ->; done).
  set (k' := hook parent tg k).
  assert (forall g, tg_rt_bandwidth (tgs k' g) = tg_rt_bandwidth (tgs k g)) as Eb.
  { intros g. unfold k'. cbn. destruct (Nat.eqb_spec g parent) as [->|].
    - by rewrite !(proj2 (Nat.eqb_neq parent tg)).
    - destruct (Nat.eqb_spec g tg) as [->|]; by rewrite ?Nat.eqb_refl. }
  assert (tg_parent (tgs k' tg) = Some parent /\ tg_children (tgs k' tg) = []) as [Ep Ec].
  { unfold k'. cbn. by rewrite (proj2 (Nat.eqb_neq tg parent)), Nat.eqb_refl by done. }
  assert (forall g, g <> tg -> tg_parent (tgs k' g) = tg_parent (tgs s g) /\
    tg_children (tgs k' g) = if (g =? parent)%nat then tg :: tg_children (tgs s g) else tg_children (tgs s g)) as Eo.
  { intros g H. rewrite <- (Hs g H). unfold k'. cbn. rewrite !(proj2 (Nat.eqb_neq g tg)) by done.
    destruct (Nat.eqb_spec g parent) as [->|]; [|done]. by rewrite !(proj2 (Nat.eqb_neq parent tg)) by done. }
  destruct (insert_tree (tgs s) (tgs k') parent tg f) as [T P]; try done; [apply Eo..|].
  split; [done|]. split; [done|]. split; [|unfold runtime_of; by rewrite Eb].
  assert (Forall (group_ok k') (tg :: root_task_group :: ids f)) as Hall.
  { apply (insert_rt_ok tg parent s); try done.
    - unfold period_of. by rewrite Eb.
    - unfold runtime_of. by rewrite Eb.
    - intros g H. by rewrite Eb, (Hs g H).
    - apply Eo. }
  apply Forall_forall. intros g Hin. apply (proj1 (Forall_forall _ _) Hall). rewrite P in Hin. set_solver.
Qed.

(** A new task group is born consistent: sched_create_group() either
    returns -ENOMEM and leaves the hierarchy and the list of groups as they
    were, or puts a group without real-time runtime first among the children of
    its parent and first in the list of groups; the result is a tree with one
    more group on which all bandwidth constraints still hold. *)
Theorem sched_create_group_spec new rt_oks parent s f (Hg : groups (gk s) f) (Hok : rt_ok (gk s) f)
    (Hdef : 0 < rtb_period (def_rt_bandwidth (gk s))) (Hp : parent ∈ root_task_group :: ids f)
    (Hnew : forall tg, new = Some tg -> tg ∉ root_task_group :: ids f) :
  match sched_create_group new rt_oks parent s with
  | (inl err, s') => err = - ENOMEM /\ groups (gk s') f /\ rt_ok (gk s') f /\ task_groups s' = task_groups s
  | (inr tg, s') =>
      new = Some tg /\ groups (gk s') (insert_below parent tg f) /\
      ids (insert_below parent tg f) ≡ₚ tg :: ids f /\ rt_ok (gk s') (insert_below parent tg f) /\
      runtime_of (gk s') tg = 0 /\ task_groups s' = tg :: task_groups s
  end.
Proof.
  unfold sched_create_group. destruct new as [tg|]; [|done]. specialize (Hnew tg eq_refl).
  set (s1 := upd_gk (upd_tg tg (fun _ => zero_tg)) s).
  destruct (alloc_fair_sched_group tg parent (ext (gk s1))) as [[ok se] e].
  set (s2 := upd_gk (upd_tg tg (fun t => t <| tg_se := se |>)) (upd_gk (fun k => k <| ext := e |>) s1)).
  assert (same_groups tg (gk s) (gk s2)) as H2.
  { apply (same_groups_trans tg _ (gk s1)); [apply upd_tg_same|].
    apply (same_groups_trans tg _ ((gk s1) <| ext := e |>)); [done|apply upd_tg_same]. }
  assert (def_rt_bandwidth (gk s2) = def_rt_bandwidth (gk s)) as Hd by done.
  assert (task_groups s2 = task_groups s) as Hl by done. clearbody s2.
  assert (forall b s3, same_groups tg (gk s) (gk s3) -> task_groups s3 = task_groups s ->
    groups (gk (free_sched_group tg b s3)) f /\ rt_ok (gk (free_sched_group tg b s3)) f /\
    task_groups (free_sched_group tg b s3) = task_groups s) as Hfail.
  { intros b s3 H3 Hl3. pose proof (same_groups_trans _ _ _ _ H3 (free_group_same tg b s3)) as H4.
    destruct (same_groups_ok _ _ _ f H4 Hnew Hg Hok). done. }
  destruct ok; cbn [negb]; [|split; [done|by apply Hfail]].
  destruct rt_oks as [[[o1 o2] o3] o4].
  destruct (alloc_rt_sched_group tg parent o1 o2 o3 o4 (gk s2)) as [r k] eqn:E.
  destruct (alloc_rt_frame _ _ _ _ _ _ _ _ _ E) as [Hk Hkr].
  pose proof (same_groups_trans _ _ _ _ H2 Hk) as H3.
  destruct (c_true r) eqn:Er; cbn [negb];
    [|split; [done|exact (Hfail (o1 && o2) (s2 <| gk := k |>) H3 Hl)]].
  apply c_true_iff in Er. destruct (Hkr Er) as [Hkp Hkr0]. rewrite Hd in Hkp.
  destruct (hook_ok (gk s) k tg parent f) as (A & B & C & D); try done; [by rewrite Hkp|].
  split; [done|]. split; [exact A|]. split; [done|]. split; [exact C|]. split; [exact D|]. cbn. by rewrite Hl.
Qed.
End lifecycle.
