(* ===== verification/GroupWitness.v ===== *)
(** Instances of the theorems about task groups, on a hierarchy of four groups:
    the root 0 with the children 2 and 1, and 3 below 1. *)

From S2P Require Import Prelude KList Sched Forest Cpuacct Demo Ras RasSpec Rt RtSpec LoadAvg LoadSpec Core CoreSpec WakeSpec PolicySpec CoreWitness TaskGroup TaskGroupSpec.
Import Demo RingLists CoreDemo.

Module GroupDemo.

(** Thread 5 is the only real-time one; cgroup [n] is group [n]. *)
#[export] Instance tg_env : TgEnv := {|
  all_threads := fun _ => [4; 5]%nat;
  cgroup_tg := fun c _ => c;
  cgroup_parent := fun c _ => match c with O => None | _ => Some O end;
  task_css_tg := fun _ _ => 1%nat;
  autogroup_task_group := fun _ tg _ => tg;
  alloc_fair_sched_group := fun _ _ e => (true, None, e);
  unregister_fair_sched_group := fun _ e => e;
  free_fair_sched_group := fun _ e => e;
  autogroup_free := fun _ e => e;
  sched_group_set_shares := fun _ _ e => (0, e);
  tg_shares := fun _ _ => 1024 |}.

Definition second := 1000000000.
Definition group (runtime_ms : Z) (parent : option nat) (children : list nat) : task_group :=
  mkTg None None (mkRtB second (runtime_ms * 1000000) false) parent children.
Definition groups4 (g : nat) : task_group :=
  match g with
  | 0%nat => group 950 None [2; 1]%nat
  | 1%nat => group 400 (Some 0%nat) [3]%nat
  | 2%nat => group 300 (Some 0%nat) []
  | 3%nat => group 100 (Some 1%nat) []
  | _ => group 0 None []
  end.
Definition forest4 : forest := FCons 2 FNil (FCons 1 (FCons 3 FNil FNil) FNil).

Definition machine : kst :=
  (set_task 5 (task0 <| t_prio := 50 |> <| t_policy := SCHED_FIFO |> <| sched_task_group := 2%nat |>) idle_state)
    <| tgs := groups4 |>.

Ltac solve_nodup := repeat (constructor; [set_solver|]); constructor.

Lemma machine_groups : groups machine forest4.
Proof. split; [reflexivity|vm_compute; repeat split|cbn [ids forest4 app]; solve_nodup]. Qed.

Ltac group_check := split; [split; [reflexivity|right; vm_compute; repeat split; congruence]|vm_compute; congruence|vm_compute; congruence].

Lemma machine_ok : rt_ok machine forest4.
Proof. unfold rt_ok. cbn [ids forest4 app]. repeat (constructor; [group_check|]). constructor. Qed.

(** The machine with its list of groups, where group 7 is created. *)
Definition registry : gst := mkGst _ machine [0; 1; 2; 3]%nat [] [].
Definition all_ok : bool * bool * bool * bool := (true, true, true, true).

Lemma new_ok tg : Some 7%nat = Some tg -> tg ∉ root_task_group :: ids forest4.
Proof. intros [= <-]. cbn. set_solver. Qed.

(** The groups in the order in which the walk enters and leaves them. *)
Definition note (e : bool) (g : nat) (l : list (bool * nat)) : Z * list (bool * nat) := (0, l ++ [(e, g)]).
End GroupDemo.
Import GroupDemo.

Lemma walk_tg_tree_visits_witness :
  walk_tg_tree_from groups4 (note true) (note false) 0 11 [] =
  Some (0, [(true, 0); (true, 2); (false, 2); (true, 1); (true, 3); (false, 3); (false, 1); (false, 0)]%nat).
Proof.
  rewrite (walk_tg_tree_visits groups4 (note true) (note false) 0 forest4 11 []);
    [reflexivity|exact machine_groups|simpl; lia].
Defined.

Lemma tg_set_rt_bandwidth_spec_witness :
  exists s', tg_set_rt_bandwidth 11 3 second 350000000 machine = Some (0, s') /\ rt_ok s' forest4.
Proof.
  destruct (tg_set_rt_bandwidth_spec 11 3 second 350000000 machine forest4) as (err & s' & E & _ & _ & _ & H);
    [exact machine_groups|simpl; lia|exact machine_ok|set_solver|split; [reflexivity|right; split; [discriminate|reflexivity]]|].
  assert (fst <$> tg_set_rt_bandwidth 11 3 second 350000000 machine = Some 0) as E0 by (vm_compute; reflexivity).
  rewrite E in E0. injection E0 as ->. exists s'. split; [exact E|]. apply H. reflexivity.
Defined.

Lemma rt_files_safe_witness :
  exists err s', cpu_rt_runtime_write 11 2 (2 ^ 33 + 650001) machine = Some (err, s') /\ rt_ok s' forest4.
Proof.
  destruct (rt_files_safe 11 2 (2 ^ 33 + 650001) machine forest4) as [(err & s' & E & _ & H & _) _];
    [exact machine_groups|simpl; lia|exact machine_ok|set_solver|]. exists err, s'. split; [exact E|exact H].
Defined.

(** Group 2 asks for 600 of 1000 ms, which is refused, then for 500, and group 3
    doubles its share. *)
Lemma rt_hierarchy_bounded_witness :
  exists s', rt_writes 11 [WriteRuntime 2 600000; WriteRuntime 2 500000; WritePeriod 3 500000] machine = Some s' /\
    zsum (ratio s' <$> [2; 3]%nat) <= ratio s' root_task_group <= global_ratio s'.
Proof.
  apply (rt_hierarchy_bounded 11 _ machine forest4 [2; 3]%nat); [exact machine_groups|simpl; lia|exact machine_ok| |].
  - repeat (constructor; [set_solver|]). constructor.
  - apply dg_take, (dg_below 1 _ _ [3]%nat []); [apply dg_take, dg_nil|apply dg_nil].
Defined.

Lemma rt_zero_runtime_accepted_witness :
  exists s', sched_group_set_rt_runtime 11 2 0 machine = Some (0, s') /\ runtime_of s' 2 = 0 /\ rt_task s' 5 = true.
Proof.
  destruct (rt_zero_runtime_accepted 11 2 5 machine forest4) as (s' & E & H & _ & Hr);
    [exact machine_groups|simpl; lia|exact machine_ok|set_solver|reflexivity|constructor|discriminate
    |set_solver|reflexivity|reflexivity|]. exists s'. split; [exact E|]. split; [exact H|exact Hr].
Defined.

Lemma sched_create_group_spec_witness :
  match sched_create_group (Some 7%nat) all_ok 2 registry with
  | (inr tg, s') => rt_ok (gk s') (insert_below 2 7 forest4) /\ task_groups s' = [7; 0; 1; 2; 3]%nat
  | (inl _, _) => False
  end.
Proof.
  pose proof (sched_create_group_spec (Some 7%nat) all_ok 2 registry forest4 machine_groups machine_ok eq_refl
    ltac:(set_solver) new_ok) as H.
  assert (fst (sched_create_group (Some 7%nat) all_ok 2 registry) = inr 7%nat) as E by (vm_compute; reflexivity).
  destruct (sched_create_group (Some 7%nat) all_ok 2 registry) as [[err|tg] s']; [discriminate E|].
  injection E as ->. destruct H as (_ & _ & _ & H & _ & Hl). split; [exact H|exact Hl].
Defined.
