(* ===== verification/Server.v ===== *)
(** The encryption server of src/Project1/Problem4: the buffered line reader of
    general.h and the threads of server.c.

    A connection is the list of outcomes of its successive read() calls; a
    thread blocks for ever when the list is used up.  The threads share only
    [nserv], which they change under one mutex, once per turn of the loop of
    serve(): a step of the server is therefore one turn of one thread
    ([serve_turn]), the end of one thread ([serve_close]), or the arrival of a
    connection.  Messages to the terminal are left out.  Bytes are integers
    from 0 to 255. *)

From S2P Require Import Prelude.

Definition MAXBUFFER := 256.
Definition MAXLINE := 256.
Definition MAXCLIBUF := 2.
Definition CAESAR_SHIFT := 3.

(** * general.h *)

(** An outcome of read(): bytes (none at the end of the stream), an error, or
    an interruption by a signal. *)
Inductive rd := RdBytes (bs : list Z) | RdErr | RdIntr.

(** The caller's [buffer], [cnt] and [bptr] (an offset in the buffer), and the
    outcomes of the reads to come. *)
Record rio := mkRio { r_buffer : list Z; r_cnt : Z; r_bptr : nat; r_inp : list rd }.
#[export] Instance eta_rio : Eta rio := fun r => mkRio r.(r_buffer) r.(r_cnt) r.(r_bptr) r.(r_inp).

(** read_from_buf(): the loop that reads while the buffer is empty, with the
    value returned from inside it, if any *)
Fixpoint refill (inp : list rd) (buffer : list Z) (bptr : nat) : option (option Z * rio) :=
  match inp with
  | [] => None
  | RdErr :: inp => Some (Some (-1), mkRio buffer (-1) bptr inp)
  | RdIntr :: inp => refill inp buffer bptr
  | RdBytes bs :: inp =>
      let cnt := Z.of_nat (length bs) in
      if cnt =? 0 then Some (Some 0, mkRio buffer 0 bptr inp)
      else Some (None, mkRio (bs ++ drop (length bs) buffer) cnt 0 inp)
  end.

(** read_from_buf(): the result and the bytes copied to [sc] *)
Definition read_from_buf (n : Z) (r : rio) : option (Z * list Z * rio) :=
  match (if r_cnt r <=? 0 then refill (r_inp r) (r_buffer r) (r_bptr r) else Some (None, r)) with
  | None => None
  | Some (Some rc, r) => Some (rc, [], r)
  | Some (None, r) =>
      let c := if r_cnt r <? n then r_cnt r else n in
      let sc := take (Z.to_nat c) (drop (r_bptr r) (r_buffer r)) in
      Some (c, sc, r <| r_bptr ::= fun b => (b + Z.to_nat c)%nat |> <| r_cnt ::= fun x => x - c |>)
  end.

(** read_line(): [k] is [length - n], [pos] is [bufp - sc]; the result is an
    [unsigned], the array and the reader *)
Fixpoint read_line_loop (k : nat) (n : Z) (pos : nat) (line : list Z) (r : rio) : option (Z * list Z * rio) :=
  match k with
  | O => Some (u32 (n - 1), <[pos := 0]> line, r)
  | S k =>
      match read_from_buf 1 r with
      | None => None
      | Some (rc, sc, r) =>
          if rc =? 1 then
            let c := hd 0 sc in
            let line := <[pos := c]> line in
            if c =? 10 then Some (u32 (n + 1 - 1), <[S pos := 0]> line, r)
            else read_line_loop k (n + 1) (S pos) line r
          else if rc =? 0 then
            if n =? 1 then Some (0, line, r) else Some (u32 (n - 1), <[pos := 0]> line, r)
          else Some (u32 (-1), line, r)
      end
  end.
Definition read_line (length : Z) (line : list Z) (r : rio) : option (Z * list Z * rio) :=
  read_line_loop (Z.to_nat (length - 1)) 1 0 line r.

(** * server.c *)

(** The cipher of serve() on a byte. *)
Definition caesar (c : Z) : Z :=
  if (97 <=? c) && (c <=? 122) then (c - 97 + CAESAR_SHIFT) mod 26 + 97
  else if (65 <=? c) && (c <=? 90) then (c - 65 + CAESAR_SHIFT) mod 26 + 65
  else c.

Definition quit_line : list Z := [58; 113; 10].                 (* :q\n *)
Definition wait_line : list Z :=                                (* Please wait...\n *)
  [80; 108; 101; 97; 115; 101; 32; 119; 97; 105; 116; 46; 46; 46; 10].

(** The string in an array; [None] when no NUL ends it. *)
Fixpoint c_string (a : list Z) : option (list Z) :=
  match a with
  | [] => None
  | c :: a => if c =? 0 then Some [] else match c_string a with Some l => Some (c :: l) | None => None end
  end.
(** strcmp(s, a) == 0; only as much of the array is read as [s] is long *)
Definition strcmp_eq (s a : list Z) : bool := bool_decide (take (S (length s)) a = s ++ [0]).

Inductive phase := Serving | Closing | Done.
#[export] Instance phase_eq_dec : EqDecision phase.
Proof. solve_decision. Defined.

(** A thread: the locals of serve(), and what it has written to its client. *)
Record thread := mkThread { t_rio : rio; t_line : list Z; t_start : Z; t_out : list (list Z); t_phase : phase }.
#[export] Instance eta_thread : Eta thread := fun r =>
  mkThread r.(t_rio) r.(t_line) r.(t_start) r.(t_out) r.(t_phase).

(** [Exit] is exit(1), which ends the whole server; [Wild] is a read past the
    end of an array. *)
Inductive outcome := Next (nserv : Z) (t : thread) | Exit | Blocked | Wild.

(** The admission under the mutex. *)
Definition admit_client (nserv start : Z) : Z * Z :=
  if start =? 0 then
    if nserv <? MAXCLIBUF then (nserv + 1, 1) else (nserv, start)
  else (nserv, start).

(** Write(); [wr] gives the result of write() *)
Definition Write (wr : list Z -> Z) (nserv : Z) (msg : list Z) (t : thread) : outcome :=
  let rs := wr msg in
  if rs <? 0 then Exit else Next nserv (t <| t_out ::= fun o => o ++ [take (Z.to_nat rs) msg] |>).

(** serve(): a turn of its loop *)
Definition serve_turn (wr : list Z -> Z) (nserv : Z) (t : thread) : outcome :=
  match read_line MAXLINE (t_line t) (t_rio t) with
  | None => Blocked
  | Some (rc, line, r) =>
      let t := t <| t_rio := r |> <| t_line := line |> in
      if negb (0 <? rc) then Next nserv (t <| t_phase := Closing |>)
      else
        let '(nserv, start) := admit_client nserv (t_start t) in
        let t := t <| t_start := start |> in
        if start =? 1 then
          if strcmp_eq quit_line line then Next nserv (t <| t_phase := Closing |>)
          else
            match c_string line with
            | None => Wild
            | Some msg =>
                let enc := caesar <$> msg in
                let t := t <| t_line := enc ++ drop (length msg) line |> in
                Write wr nserv enc t
            end
        else
          let t := t <| t_line := wait_line ++ 0 :: drop (S (length wait_line)) line |> in
          Write wr nserv wait_line t
  end.

(** serve(): after the loop; [close_ok] is the outcome of close() *)
Definition serve_close (close_ok : bool) (nserv : Z) (t : thread) : outcome :=
  let nserv := nserv - 1 in
  if close_ok then Next nserv (t <| t_phase := Done |>) else Exit.

(** serve(), when no other thread runs meanwhile; [None] when the fuel is used
    up *)
Fixpoint serve (fuel : nat) (wr : list Z -> Z) (nserv : Z) (t : thread) : option outcome :=
  match fuel with
  | O => None
  | S fuel =>
      match t_phase t with
      | Done => Some (Next nserv t)
      | Closing => Some (serve_close true nserv t)
      | Serving =>
          match serve_turn wr nserv t with
          | Next nserv t => serve fuel wr nserv t
          | o => Some o
          end
      end
  end.

(** A new thread; the arrays hold what was on its stack. *)
Definition new_thread (buffer line : list Z) (inp : list rd) : thread :=
  mkThread (mkRio buffer 0 0 inp) line 0 [] Serving.

(** The server: main() accepts connections, the threads take turns. *)
Record server := mkServer { nserv : Z; threads : list thread; exited : bool }.
#[export] Instance eta_server : Eta server := fun r => mkServer r.(nserv) r.(threads) r.(exited).
Definition server_init : server := mkServer 0 [] false.

Inductive cmd :=
  | CAccept (buffer line : list Z) (inp : list rd)   (* accept() and Pthread_create() *)
  | CAcceptFail                                       (* accept() fails: the loop goes on *)
  | CCreateFail                                       (* Pthread_create() fails: exit(1) *)
  | CTurn (i : nat) (wr : list Z -> Z)
  | CClose (i : nat) (close_ok : bool).

Definition apply_outcome (i : nat) (o : outcome) (s : server) : option server :=
  match o with
  | Next n t => Some (s <| nserv := n |> <| threads ::= <[i := t]> |>)
  | Exit => Some (s <| exited := true |>)
  | Blocked | Wild => None
  end.

(** A step of the server; [None] when the command is not enabled. *)
Definition server_step (c : cmd) (s : server) : option server :=
  if exited s then None
  else
    match c with
    | CAccept buffer line inp => Some (s <| threads ::= fun l => l ++ [new_thread buffer line inp] |>)
    | CAcceptFail => Some s
    | CCreateFail => Some (s <| exited := true |>)
    | CTurn i wr =>
        match threads s !! i with
        | Some t => if bool_decide (t_phase t = Serving)
                    then apply_outcome i (serve_turn wr (nserv s) t) s else None
        | None => None
        end
    | CClose i ok =>
        match threads s !! i with
        | Some t => if bool_decide (t_phase t = Closing)
                    then apply_outcome i (serve_close ok (nserv s) t) s else None
        | None => None
        end
    end.

(** The states that some interleaving reaches. *)
Inductive server_reach : server -> Prop :=
  | reach_init : server_reach server_init
  | reach_step s c s' : server_reach s -> server_step c s = Some s' -> server_reach s'.
