(* ===== verification/ServerSpec.v ===== *)
(** The contracts of the encryption server: the line reader does not depend on
    how the stream is cut into reads, a session answers every line with its
    encryption, and the admission counter under all interleavings.

    [items r] is what a connection has left to deliver, byte by byte; the
    reader is proved equal to [line_spec] on the items. *)

From S2P Require Import Prelude Server.

(** * The stream of a connection *)

Inductive item := Byte (c : Z) | Eof | Err.

Definition flat1 (r : rd) : list item :=
  match r with RdBytes [] => [Eof] | RdBytes bs => Byte <$> bs | RdErr => [Err] | RdIntr => [] end.
Definition flat (inp : list rd) : list item := concat (flat1 <$> inp).

(** The bytes that are read but not consumed. *)
Definition slice (r : rio) : list Z := take (Z.to_nat (r_cnt r)) (drop (r_bptr r) (r_buffer r)).
Definition items (r : rio) : list item := (Byte <$> slice r) ++ flat (r_inp r).

(** A read() returns at most as much as it was asked for, and the unread part
    lies in the buffer. *)
Definition rd_ok (r : rd) : Prop :=
  match r with RdBytes bs => Z.of_nat (length bs) <= MAXBUFFER | _ => True end.
Record rio_ok (r : rio) : Prop := {
  buffer_len : Z.of_nat (length (r_buffer r)) = MAXBUFFER;
  unread_in : 0 < r_cnt r -> Z.of_nat (r_bptr r) + r_cnt r <= MAXBUFFER;
  reads_ok : Forall rd_ok (r_inp r) }.

Lemma flat_cons r inp : flat (r :: inp) = flat1 r ++ flat inp.
Proof. done. Qed.

Lemma flat_bytes bs : bs <> [] -> flat1 (RdBytes bs) = Byte <$> bs.
Proof. by destruct bs. Qed.

(** One byte through the buffer. *)
Definition next_item (its : list item) : option (Z * list Z * list item) :=
  match its with
  | [] => None
  | Byte c :: its => Some (1, [c], its)
  | Eof :: its => Some (0, [], its)
  | Err :: its => Some (-1, [], its)
  end.

Lemma slice_empty r : r_cnt r <= 0 -> slice r = [].
Proof. intros. unfold slice. replace (Z.to_nat (r_cnt r)) with 0%nat by lia. done. Qed.

Lemma refill_spec inp buffer bptr :
  Z.of_nat (length buffer) = MAXBUFFER -> Forall rd_ok inp ->
  match refill inp buffer bptr with
  | None => flat inp = []
  | Some (Some rc, r) =>
      rio_ok r /\ next_item (flat inp) = Some (rc, [], items r)
  | Some (None, r) => rio_ok r /\ 0 < r_cnt r /\ items r = flat inp
  end.
Proof.
  intros Hb Hin. induction inp as [|x inp IH]; [done|].
  apply Forall_cons in Hin as [Hx Hin]. cbn [refill]. rewrite flat_cons.
  destruct x as [bs| |].
  - destruct (Z.eqb_spec (Z.of_nat (length bs)) 0) as [E|E].
    + destruct bs; [|simpl in E; lia]. split; [by constructor|]. done.
    + assert (bs <> []) as Hne by (intros ->; done). simpl in Hx.
      split; [constructor; cbn; [rewrite length_app, length_drop; lia|lia|done]|].
      split; [cbn; lia|]. unfold items, slice. cbn [r_buffer r_cnt r_bptr r_inp].
      rewrite Nat2Z.id, drop_0, take_app_length. by rewrite flat_bytes.
  - split; [by constructor|]. done.
  - by apply IH.
Qed.

Lemma read_one r : rio_ok r ->
  match read_from_buf 1 r with
  | None => items r = []
  | Some (rc, sc, r') => rio_ok r' /\ next_item (items r) = Some (rc, sc, items r')
  end.
Proof.
  intros Hok. unfold read_from_buf.
  assert (forall r0 : rio, rio_ok r0 -> 0 < r_cnt r0 ->
    let c := if r_cnt r0 <? 1 then r_cnt r0 else 1 in
    let r' := r0 <| r_bptr ::= fun b => (b + Z.to_nat c)%nat |> <| r_cnt ::= fun x => x - c |> in
    rio_ok r' /\
    next_item (items r0) = Some (c, take (Z.to_nat c) (drop (r_bptr r0) (r_buffer r0)), items r')) as Hget.
  { intros r0 [Hl Hu Hr] Hc. specialize (Hu Hc). rewrite (proj2 (Z.ltb_ge _ _)) by lia. cbn zeta.
    split; [constructor; cbn; [done|lia|done]|].
    unfold items, slice. cbn [r_bptr r_cnt r_buffer r_inp setf].
    destruct (drop (r_bptr r0) (r_buffer r0)) as [|c l] eqn:E.
    { apply (f_equal length) in E. rewrite length_drop in E. simpl in E. lia. }
    replace (Z.to_nat (r_cnt r0)) with (S (Z.to_nat (r_cnt r0 - 1))) by lia.
    change (Z.to_nat 1) with 1%nat. simpl.
    assert (drop (r_bptr r0 + 1) (r_buffer r0) = l) as ->; [|done].
    by rewrite <- drop_drop, E. }
  destruct (Z.leb_spec (r_cnt r) 0) as [Hc|Hc].
  - pose proof (refill_spec (r_inp r) (r_buffer r) (r_bptr r) (buffer_len r Hok) (reads_ok r Hok)) as H.
    assert (items r = flat (r_inp r)) as -> by (unfold items; by rewrite slice_empty).
    destruct (refill _ _ _) as [[[rc|] r']|]; [done| |done].
    destruct H as (H1 & H2 & <-). by apply Hget.
  - by apply Hget.
Qed.

(** * Lines *)

Inductive line_end := Full | AtEof | AtErr.

(** The next line of the stream: at most [k] bytes, up to a newline. *)
Fixpoint line_spec (k : nat) (its : list item) : option (list Z * line_end * list item) :=
  match k with
  | O => Some ([], Full, its)
  | S k =>
      match its with
      | [] => None
      | Eof :: its => Some ([], AtEof, its)
      | Err :: its => Some ([], AtErr, its)
      | Byte c :: its =>
          if c =? 10 then Some ([c], Full, its)
          else match line_spec k its with
               | None => None
               | Some (l, e, its) => Some (c :: l, e, its)
               end
      end
  end.

(** What read_line() returns, and the array it leaves. *)
Definition line_ret (l : list Z) (e : line_end) : Z :=
  match e with AtErr => 2 ^ 32 - 1 | _ => Z.of_nat (length l) end.
Definition line_array (l : list Z) (e : line_end) (line : list Z) : list Z :=
  match e with
  | AtErr => l ++ drop (length l) line
  | AtEof => if bool_decide (l = []) then line else l ++ 0 :: drop (S (length l)) line
  | Full => l ++ 0 :: drop (S (length l)) line
  end.

Lemma line_spec_length k its l e rest : line_spec k its = Some (l, e, rest) -> (length l <= k)%nat.
Proof.
  revert its l e rest. induction k as [|k IH]; intros its l e rest; cbn [line_spec].
  - intros [= <- _ _]. done.
  - destruct its as [|[c| |] its]; try (intros [= <- _ _]; simpl; lia).
    destruct (c =? 10); [intros [= <- _ _]; simpl; lia|].
    destruct (line_spec k its) as [[[l0 e0] r0]|] eqn:E; [|done].
    intros [= <- _ _]. apply IH in E. simpl. lia.
Qed.

Lemma insert_prefix (acc : list Z) c line : (length acc < length line)%nat ->
  <[length acc := c]> (acc ++ drop (length acc) line) = (acc ++ [c]) ++ drop (S (length acc)) line.
Proof.
  intros H. rewrite insert_app_r_alt by lia. rewrite Nat.sub_diag.
  destruct (drop (length acc) line) as [|x l] eqn:E.
  { apply (f_equal length) in E. rewrite length_drop in E. simpl in E. lia. }
  assert (drop (S (length acc)) line = l) as ->; [|by rewrite <- (assoc_L (++))].
  replace (S (length acc)) with (length acc + 1)%nat by lia. by rewrite <- drop_drop, E.
Qed.

(** The loop of read_line(), entered with the bytes [acc] already stored. *)
Lemma read_line_loop_spec k acc line r : rio_ok r ->
  (length acc + k < length line)%nat -> Z.of_nat (length line) <= MAXLINE ->
  match read_line_loop k (Z.of_nat (length acc) + 1) (length acc) (acc ++ drop (length acc) line) r,
        line_spec k (items r) with
  | None, None => True
  | Some (rc, line', r'), Some (l, e, rest) =>
      rc = line_ret (acc ++ l) e /\ line' = line_array (acc ++ l) e line /\
      items r' = rest /\ rio_ok r'
  | _, _ => False
  end.
Proof.
  revert acc r. induction k as [|k IH]; intros acc r Hok Hl Hm; cbn [read_line_loop line_spec].
  - rewrite app_nil_r, insert_prefix by lia. unfold MAXLINE in Hm. rewrite u32_small by lia.
    unfold line_ret, line_array. rewrite <- (assoc_L (++)). split; [lia|done].
  - pose proof (read_one r Hok) as H.
    destruct (read_from_buf 1 r) as [[[rc sc] r']|]; [|by rewrite H].
    destruct H as [Hok' Hn].
    destruct (items r) as [|[c| |] its]; [done|..]; cbn in Hn; injection Hn as <- <- Hi; subst its; cbn [hd].
    + change (1 =? 1) with true. rewrite insert_prefix by lia.
      destruct (Z.eqb_spec c 10) as [->|Hc].
      * replace (S (length acc)) with (length (acc ++ [10])) by (rewrite length_app; simpl; lia).
        rewrite insert_prefix by (rewrite length_app; simpl; lia).
        unfold MAXLINE in Hm. rewrite u32_small by lia. unfold line_ret, line_array.
        split; [rewrite length_app; simpl; lia|]. by rewrite <- !(assoc_L (++)).
      * specialize (IH (acc ++ [c]) r' Hok').
        replace (length (acc ++ [c])) with (S (length acc)) in IH by (rewrite length_app; simpl; lia).
        replace (Z.of_nat (S (length acc)) + 1) with (Z.of_nat (length acc) + 1 + 1) in IH by lia.
        specialize (IH ltac:(lia) Hm).
        destruct (read_line_loop k _ _ _ r') as [[[rc line'] r2]|], (line_spec k (items r')) as [[[l e] rest]|]; try done.
        by rewrite <- (assoc_L (++)) in IH.
    + change (0 =? 1) with false. change (0 =? 0) with true. rewrite app_nil_r.
      unfold line_ret, line_array. destruct (Z.eqb_spec (Z.of_nat (length acc) + 1) 1) as [E|E].
      * destruct acc; [|simpl in E; lia]. done.
      * rewrite bool_decide_false by (intros ->; simpl in E; lia).
        rewrite insert_prefix by lia. unfold MAXLINE in Hm. rewrite u32_small by lia.
        rewrite <- (assoc_L (++)). split; [lia|done].
    + change (-1 =? 1) with false. change (-1 =? 0) with false. rewrite app_nil_r. done.
Qed.

Lemma read_line_holds line r : rio_ok r -> Z.of_nat (length line) = MAXLINE ->
  match read_line MAXLINE line r, line_spec (Z.to_nat (MAXLINE - 1)) (items r) with
  | None, None => True
  | Some (rc, line', r'), Some (l, e, rest) =>
      rc = line_ret l e /\ line' = line_array l e line /\ items r' = rest /\ rio_ok r'
  | _, _ => False
  end.
Proof.
  intros Hok Hl. apply (read_line_loop_spec _ [] line r Hok); [|lia].
  unfold MAXLINE in *. simpl. lia.
Qed.

(** C25: read_line() of general.h returns the next line of the stream whatever
    the sizes of the reads that deliver it, interrupted reads included: the
    bytes up to a newline, at most 255 of them, ended by NUL, with their number;
    0 and an unchanged array at the end of the stream; a last line without
    newline if the stream ends in it; and for a read error the number 2^32 - 1
    (its -1 is returned as unsigned) with no NUL written.  Nothing behind the
    line is lost, and the array and the buffer are never overrun. *)
Theorem read_line_stream line r (Hok : rio_ok r) (Hl : Z.of_nat (length line) = MAXLINE) :
  match read_line MAXLINE line r, line_spec 255 (items r) with
  | None, None => True
  | Some (rc, line', r'), Some (l, e, rest) =>
      rc = line_ret l e /\ line' = line_array l e line /\ length line' = length line /\
      items r' = rest /\ rio_ok r'
  | _, _ => False
  end /\
  (forall r2, rio_ok r2 -> items r2 = items r ->
     fst <$> read_line MAXLINE line r2 = fst <$> read_line MAXLINE line r).
Proof.
  assert (forall l e its rest, line_spec 255 its = Some (l, e, rest) ->
    length (line_array l e line) = length line) as Hlen.
  { intros l e its rest E%line_spec_length. unfold MAXLINE in Hl. unfold line_array.
    destruct e; repeat case_bool_decide; rewrite ?length_app; simpl; rewrite ?length_drop; lia. }
  pose proof (read_line_holds line r Hok Hl) as H. change (Z.to_nat (MAXLINE - 1)) with 255%nat in H.
  split.
  - destruct (read_line _ _ r) as [[[rc line'] r']|], (line_spec 255 (items r)) as [[[l e] rest]|] eqn:E; try done.
    destruct H as (-> & -> & Hi & Hr). split_and!; try done. by eapply Hlen.
  - intros r2 H2 E2. pose proof (read_line_holds line r2 H2 Hl) as H'.
    change (Z.to_nat (MAXLINE - 1)) with 255%nat in H'. rewrite E2 in H'.
    destruct (read_line _ _ r) as [[[rc line'] r']|], (read_line _ _ r2) as [[[rc2 line2] r2']|],
      (line_spec 255 (items r)) as [[[l e] rest]|]; try done.
    destruct H as (-> & -> & _), H' as (-> & -> & _). done.
Qed.

(** * A session *)

(** A text line without its newline. *)
Definition text (l : list Z) : Prop := 0 ∉ l /\ 10 ∉ l /\ (length l <= 254)%nat /\ l <> [58; 113].
Definition stream (ls : list (list Z)) (its : list item) : list item :=
  (Byte <$> concat ((fun l => l ++ [10]) <$> ls)) ++ its.
Definition full_write (m : list Z) : Z := Z.of_nat (length m).

Lemma line_spec_text k l its : 10 ∉ l -> (length l < k)%nat ->
  line_spec k ((Byte <$> (l ++ [10])) ++ its) = Some (l ++ [10], Full, its).
Proof.
  revert l. induction k as [|k IH]; intros l Hn Hk; [lia|].
  destruct l as [|c l]; [done|]. cbn [app fmap list_fmap line_spec].
  rewrite (proj2 (Z.eqb_neq c 10)) by set_solver.
  by rewrite (IH l) by (set_solver || (simpl in Hk; lia)).
Qed.

Lemma c_string_text l a : 0 ∉ l -> c_string (l ++ 0 :: a) = Some l.
Proof.
  induction l as [|c l IH]; intros Hn; [done|]. cbn [app c_string].
  rewrite (proj2 (Z.eqb_neq c 0)) by set_solver. rewrite IH by set_solver. done.
Qed.

Lemma strcmp_text l a : 10 ∉ l -> l <> [58; 113] -> strcmp_eq quit_line ((l ++ [10]) ++ 0 :: a) = false.
Proof.
  intros Hn Hne. apply bool_decide_eq_false. cbn [length quit_line].
  destruct l as [|x [|y [|z l]]]; cbn [app take]; intros [= ]; subst; try done.
  set_solver.
Qed.

(** A turn that reads a line. *)
Lemma text_read t l its : rio_ok (t_rio t) -> Z.of_nat (length (t_line t)) = MAXLINE ->
  10 ∉ l -> (length l <= 254)%nat -> items (t_rio t) = (Byte <$> (l ++ [10])) ++ its ->
  exists r', read_line MAXLINE (t_line t) (t_rio t) =
               Some (Z.of_nat (length (l ++ [10])),
                     (l ++ [10]) ++ 0 :: drop (S (length (l ++ [10]))) (t_line t), r') /\
             items r' = its /\ rio_ok r'.
Proof.
  intros Hok Hl Hn Hlen Hi. pose proof (read_line_holds _ _ Hok Hl) as H.
  change (Z.to_nat (MAXLINE - 1)) with 255%nat in H.
  rewrite Hi, line_spec_text in H by (done || lia).
  destruct (read_line _ _ _) as [[[rc line'] r']|]; [|done].
  destruct H as (-> & -> & <- & Hr). by exists r'.
Qed.

(** What the loop needs of a thread. *)
Record serving (start : Z) (its : list item) (t : thread) : Prop := {
  sv_rio : rio_ok (t_rio t); sv_items : items (t_rio t) = its;
  sv_line : Z.of_nat (length (t_line t)) = MAXLINE;
  sv_start : t_start t = start; sv_phase : t_phase t = Serving }.

Lemma full_write_take m : take (Z.to_nat (full_write m)) m = m.
Proof. unfold full_write. rewrite Nat2Z.id. by apply firstn_all. Qed.

Ltac lengths :=
  unfold MAXLINE in *; repeat (rewrite length_app || rewrite length_fmap || rewrite length_drop);
  cbn [length wait_line]; repeat (rewrite length_app || rewrite length_drop); cbn [length]; lia.

(** The turn of an admitted client answers the line, that of another asks it to
    wait. *)
Lemma turn_admitted t l its n : serving 1 ((Byte <$> (l ++ [10])) ++ its) t -> text l ->
  exists t', serve_turn full_write n t = Next n t' /\ serving 1 its t' /\
             t_out t' = t_out t ++ [caesar <$> (l ++ [10])].
Proof.
  intros [Hr Hi Hl Hs Hp] (H0 & H10 & Hlen & Hq).
  destruct (text_read t l its Hr Hl H10 Hlen Hi) as (r' & E & Hi' & Hr').
  unfold serve_turn. rewrite E. rewrite (proj2 (Z.ltb_lt _ _)) by (rewrite length_app; simpl; lia).
  cbn [negb]. cbn [t_start setf]. rewrite Hs. unfold admit_client. change (1 =? 0) with false. cbn iota.
  rewrite strcmp_text by done. change (1 =? 1) with true. cbn iota.
  rewrite c_string_text by set_solver. unfold Write.
  rewrite (proj2 (Z.ltb_ge (full_write _) 0)) by (unfold full_write; lia).
  rewrite full_write_take.
  eexists. split; [done|]. split; [|done]. constructor; try done. cbn.
  lengths.
Qed.

Lemma turn_refused t l its n : serving 0 ((Byte <$> (l ++ [10])) ++ its) t -> text l -> MAXCLIBUF <= n ->
  exists t', serve_turn full_write n t = Next n t' /\ serving 0 its t' /\
             t_out t' = t_out t ++ [wait_line].
Proof.
  intros [Hr Hi Hl Hs Hp] (H0 & H10 & Hlen & Hq) Hn.
  destruct (text_read t l its Hr Hl H10 Hlen Hi) as (r' & E & Hi' & Hr').
  unfold serve_turn. rewrite E. rewrite (proj2 (Z.ltb_lt _ _)) by (rewrite length_app; simpl; lia).
  cbn [negb]. cbn [t_start setf]. rewrite Hs. unfold admit_client. change (0 =? 0) with true. cbn iota.
  rewrite (proj2 (Z.ltb_ge _ _)) by done. change (0 =? 1) with false. cbn iota. unfold Write.
  rewrite (proj2 (Z.ltb_ge (full_write _) 0)) by (unfold full_write; lia).
  rewrite full_write_take.
  eexists. split; [done|]. split; [|done]. constructor; try done. cbn.
  lengths.
Qed.

(** The turn that ends the loop: the end of the stream, or ":q" of an admitted
    client. *)
Definition ending (q : bool) : list item := if q then Byte <$> quit_line else [Eof].

Lemma turn_quit t its n : serving 1 (ending true ++ its) t ->
  exists t', serve_turn full_write n t = Next n t' /\ t_phase t' = Closing /\ t_out t' = t_out t.
Proof.
  intros [Hr Hi Hl Hs Hp].
  destruct (text_read t [58; 113] its Hr Hl) as (r' & E & Hi' & Hr'); [set_solver|simpl; lia|done|].
  unfold serve_turn. rewrite E. cbn [negb]. change (negb _) with false. cbn iota.
  cbn [t_start setf]. rewrite Hs. unfold admit_client. change (1 =? 0) with false. cbn iota.
  change (1 =? 1) with true. cbn iota.
  assert (forall a, strcmp_eq quit_line (([58; 113] ++ [10]) ++ 0 :: a) = true) as -> by (by intros; apply bool_decide_eq_true).
  eexists. split; [done|]. done.
Qed.

Lemma turn_eof t start its n : serving start (Eof :: its) t ->
  exists t', serve_turn full_write n t = Next n t' /\ t_phase t' = Closing /\ t_out t' = t_out t.
Proof.
  intros [Hr Hi Hl Hs Hp]. pose proof (read_line_holds _ _ Hr Hl) as H. rewrite Hi in H.
  unfold serve_turn. destruct (read_line _ _ _) as [[[rc line'] r']|]; [|done].
  destruct H as (-> & _ & _). eexists. split; [done|]. done.
Qed.

Lemma stream_cons l ls its : stream (l :: ls) its = (Byte <$> (l ++ [10])) ++ stream ls its.
Proof. unfold stream. cbn [fmap list_fmap concat]. by rewrite fmap_app, <- (assoc_L (++)). Qed.

Lemma serve_turns fuel n t n' t' : t_phase t = Serving -> serve_turn full_write n t = Next n' t' ->
  serve (S fuel) full_write n t = serve fuel full_write n' t'.
Proof. intros Hp E. cbn [serve]. by rewrite Hp, E. Qed.

Lemma serve_closing fuel n t : t_phase t = Closing ->
  exists t', serve (S fuel) full_write n t = Some (Next (n - 1) t') /\
             t_phase t' = Done /\ t_out t' = t_out t.
Proof. intros Hp. cbn [serve]. rewrite Hp. eexists. split; [done|]. done. Qed.

(** The loop of a client that was admitted, and of one that waits. *)
Lemma serve_admitted ls q its n fuel t : serving 1 (stream ls (ending q ++ its)) t ->
  Forall text ls -> (length ls + 1 < fuel)%nat ->
  exists t', serve fuel full_write n t = Some (Next (n - 1) t') /\ t_phase t' = Done /\
             t_out t' = t_out t ++ ((fun l => caesar <$> (l ++ [10])) <$> ls).
Proof.
  revert fuel t. induction ls as [|l ls IH]; intros fuel t Hsv Hls Hf; (destruct fuel as [|fuel]; [lia|]).
  - assert (exists t', serve_turn full_write n t = Next n t' /\ t_phase t' = Closing /\ t_out t' = t_out t)
      as (t1 & E & Hp & Ho) by (destruct q; [exact (turn_quit t its n Hsv)|exact (turn_eof t 1 its n Hsv)]).
    rewrite (serve_turns _ _ _ _ _ (sv_phase _ _ _ Hsv) E).
    destruct fuel as [|fuel]; [simpl in Hf; lia|].
    destruct (serve_closing fuel n t1 Hp) as (t' & -> & Hd & Ho'). exists t'.
    split; [done|]. split; [done|]. by rewrite app_nil_r, Ho'.
  - apply Forall_cons in Hls as [Hl Hls]. rewrite stream_cons in Hsv.
    destruct (turn_admitted t l _ n Hsv Hl) as (t1 & E & Hsv1 & Ho).
    rewrite (serve_turns _ _ _ _ _ (sv_phase _ _ _ Hsv) E).
    destruct (IH fuel t1 Hsv1 Hls) as (t' & -> & Hd & Ho'); [simpl in Hf; lia|].
    exists t'. split; [done|]. split; [done|]. by rewrite Ho', Ho, <- (assoc_L (++)).
Qed.

Lemma serve_refused ls its n fuel t : serving 0 (stream ls (Eof :: its)) t ->
  Forall text ls -> MAXCLIBUF <= n -> (length ls + 1 < fuel)%nat ->
  exists t', serve fuel full_write n t = Some (Next (n - 1) t') /\ t_phase t' = Done /\
             t_out t' = t_out t ++ replicate (length ls) wait_line.
Proof.
  intros Hsv Hls Hn. revert fuel t Hsv. induction ls as [|l ls IH]; intros fuel t Hsv Hf;
    (destruct fuel as [|fuel]; [lia|]).
  - destruct (turn_eof t 0 its n Hsv) as (t1 & E & Hp & Ho).
    rewrite (serve_turns _ _ _ _ _ (sv_phase _ _ _ Hsv) E).
    destruct fuel as [|fuel]; [simpl in Hf; lia|].
    destruct (serve_closing fuel n t1 Hp) as (t' & -> & Hd & Ho'). exists t'.
    split; [done|]. split; [done|]. cbn [length replicate]. by rewrite app_nil_r, Ho'.
  - apply Forall_cons in Hls as [Hl Hls]. rewrite stream_cons in Hsv.
    destruct (turn_refused t l _ n Hsv Hl Hn) as (t1 & E & Hsv1 & Ho).
    rewrite (serve_turns _ _ _ _ _ (sv_phase _ _ _ Hsv) E).
    destruct (IH Hls fuel t1 Hsv1) as (t' & -> & Hd & Ho'); [simpl in Hf; lia|].
    exists t'. split; [done|]. split; [done|]. rewrite Ho', Ho, <- (assoc_L (++)). done.
Qed.

(** The first line of a client that finds room is handled as if the client had
    been admitted before. *)
Lemma turn_admits t l its n : serving 0 ((Byte <$> (l ++ [10])) ++ its) t ->
  10 ∉ l -> (length l <= 254)%nat -> n < MAXCLIBUF ->
  serve_turn full_write n t = serve_turn full_write (n + 1) (t <| t_start := 1 |>).
Proof.
  intros [Hr Hi Hl Hs Hp] H10 Hlen Hn.
  destruct (text_read t l its Hr Hl H10 Hlen Hi) as (r' & E & _).
  unfold serve_turn. cbn [t_line t_rio setf]. rewrite E.
  rewrite (proj2 (Z.ltb_lt _ _)) by (rewrite length_app; simpl; lia). cbn [negb t_start setf].
  rewrite Hs. unfold admit_client. change (0 =? 0) with true. change (1 =? 0) with false. cbn iota.
  rewrite (proj2 (Z.ltb_lt n _)) by done. reflexivity.
Qed.

Lemma serve_first t l its n fuel : serving 0 ((Byte <$> (l ++ [10])) ++ its) t ->
  10 ∉ l -> (length l <= 254)%nat -> n < MAXCLIBUF ->
  serve fuel full_write n t = serve fuel full_write (n + 1) (t <| t_start := 1 |>).
Proof.
  intros Hsv H10 Hl Hn. destruct fuel as [|fuel]; [done|]. cbn [serve].
  rewrite (sv_phase _ _ _ Hsv), (turn_admits t l its n Hsv H10 Hl Hn).
  cbn [t_phase setf]. by rewrite (sv_phase _ _ _ Hsv).
Qed.

(** A whole session of the server, with no other client meanwhile: a
    client that finds fewer than two clients served gets, for each line it
    sends, that line with its letters shifted by three, until it sends ":q" or
    closes, and leaves the count of clients as it was; a client that finds two
    gets "Please wait..." for each line.  When a client closes that was not
    admitted (it found two, or never sent a line) the count is one less than
    before. *)
Theorem serve_session ls q its n fuel t (Ht : serving 0 (stream ls (ending q ++ its)) t)
    (Hout : t_out t = []) (Hls : Forall text ls) (Hq : q = true -> n < MAXCLIBUF)
    (Hf : (length ls + 1 < fuel)%nat) :
  exists t', serve fuel full_write n t =
      Some (Next (if (n <? MAXCLIBUF) && (q || negb (bool_decide (ls = []))) then n else n - 1) t') /\
    t_phase t' = Done /\
    t_out t' = (if n <? MAXCLIBUF then (fun l => caesar <$> (l ++ [10])) <$> ls
                else replicate (length ls) wait_line).
Proof.
  destruct (Z.ltb_spec n MAXCLIBUF) as [Hn|Hn]; cbn [andb].
  - assert (serving 1 (stream ls (ending q ++ its)) (t <| t_start := 1 |>)) as Hsv
      by (destruct Ht; by constructor).
    destruct (serve_admitted ls q its (n + 1) fuel _ Hsv Hls Hf) as (t' & E & Hp & Ho).
    cbn [t_out setf] in Ho. rewrite Hout in Ho. cbn [app] in Ho. rewrite Z.add_simpl_r in E.
    destruct ls as [|l ls]; [destruct q|].
    + exists t'. rewrite (serve_first t [58; 113] its) by (done || set_solver || (simpl; lia)). done.
    + destruct (turn_eof t 0 its n Ht) as (t1 & E1 & Hp1 & Ho1).
      destruct fuel as [|[|fuel]]; [simpl in Hf; lia..|].
      rewrite (serve_turns _ _ _ _ _ (sv_phase _ _ _ Ht) E1).
      destruct (serve_closing fuel n t1 Hp1) as (t2 & -> & Hd & Ho2). exists t2.
      split; [done|]. split; [done|]. by rewrite Ho2, Ho1.
    + exists t'. rewrite stream_cons in Ht. apply Forall_inv in Hls as (_ & H10 & Hlen & _).
      rewrite (serve_first t l _ _ _ Ht) by done. rewrite E. rewrite orb_true_r. done.
  - destruct q; [specialize (Hq eq_refl); lia|].
    destruct (serve_refused ls its n fuel t Ht Hls Hn Hf) as (t' & E & Hp & Ho). exists t'.
    rewrite Hout in Ho. done.
Qed.

(** * Admission under all interleavings *)

Definition is_done (t : thread) : bool := match t_phase t with Done => true | _ => false end.
Definition running (t : thread) : bool := (t_start t =? 1) && negb (is_done t).
Definition left_unadmitted (t : thread) : bool := (t_start t =? 0) && is_done t.
Definition count (f : thread -> bool) (l : list thread) : Z := Z.of_nat (length (filter f l)).
(** The clients being served, and those that have left without being admitted. *)
Definition admitted (s : server) : Z := count running (threads s).
Definition dropped (s : server) : Z := count left_unadmitted (threads s).

Definition contribution (t : thread) : Z := of_bool (running t) - of_bool (left_unadmitted t).
Definition start_ok (t : thread) : Prop := t_start t = 0 \/ t_start t = 1.

Lemma count_cons f t l : count f (t :: l) = of_bool (f t) + count f l.
Proof.
  unfold count. rewrite filter_cons. destruct (f t); cbn; [|done].
  rewrite decide_True by done. simpl length. lia.
Qed.

Lemma count_snoc f l t : count f (l ++ [t]) = count f l + of_bool (f t).
Proof. induction l as [|x l IH]; cbn [app]; rewrite !count_cons; [cbn; lia|]. rewrite IH. lia. Qed.

Lemma count_insert f l i t t' : l !! i = Some t ->
  count f (<[i := t']> l) = count f l + of_bool (f t') - of_bool (f t).
Proof.
  revert i. induction l as [|x l IH]; intros [|i] Hi; [done..| |]; cbn in Hi.
  - injection Hi as ->. cbn. rewrite !count_cons. lia.
  - cbn. rewrite !count_cons, IH by done. lia.
Qed.

Lemma admit_sum n start n' start' : admit_client n start = (n', start') -> start = 0 \/ start = 1 ->
  n' - n = start' - start /\ (start' = 0 \/ start' = 1) /\ (n <= MAXCLIBUF -> n' <= MAXCLIBUF).
Proof. unfold admit_client, MAXCLIBUF. intros H [-> | ->]; revert H; bcase; intros [= <- <-]; lia. Qed.

(** A turn changes the counter by what it changes the thread's contribution. *)
Lemma turn_contribution wr n t n' t' : serve_turn wr n t = Next n' t' -> t_phase t = Serving -> start_ok t ->
  n' - n = contribution t' - contribution t /\ start_ok t' /\ (n <= MAXCLIBUF -> n' <= MAXCLIBUF).
Proof.
  intros H Hp Hs.
  assert (forall x, t_phase x <> Done -> start_ok x -> contribution x = t_start x) as Hc.
  { intros x Hx [E|E]; unfold contribution, running, left_unadmitted, is_done; rewrite E;
      by destruct (t_phase x). }
  enough (n' - n = t_start t' - t_start t /\ start_ok t' /\ (n <= MAXCLIBUF -> n' <= MAXCLIBUF) /\ t_phase t' <> Done)
    as (H1 & H2 & H3 & H4).
  { rewrite !Hc; [done|congruence|done|done|done]. }
  revert H. unfold serve_turn. destruct (read_line _ _ _) as [[[rc line] r]|]; [|done].
  destruct (negb (0 <? rc)).
  { intros [= <- <-]. unfold start_ok. cbn. split_and!; [lia|done|done|done]. }
  destruct (admit_client n (t_start _)) as [n1 start] eqn:E.
  apply admit_sum in E as (E1 & E2 & E3); [|done]. cbn [t_start setf] in E1.
  unfold start_ok, Write.
  destruct (start =? 1);
    [destruct (strcmp_eq _ _); [|destruct (c_string line); [|done]]|];
    try (destruct (wr _ <? 0); [done|]); intros [= <- <-]; cbn; split_and!; try done; congruence.
Qed.

(** What holds of the counter in every state reached. *)
Definition counter_ok (s : server) : Prop :=
  nserv s = admitted s - dropped s /\ nserv s <= MAXCLIBUF /\ Forall start_ok (threads s).

Lemma counter_update s i t n t' : counter_ok s -> threads s !! i = Some t ->
  n - nserv s = contribution t' - contribution t -> n <= MAXCLIBUF -> start_ok t' ->
  counter_ok (s <| nserv := n |> <| threads ::= <[i := t']> |>).
Proof.
  intros (H1 & H2 & H3) Hi Hd Hn Hs. split; [|split; [done|]].
  - unfold admitted, dropped in *. cbn. rewrite !(count_insert _ _ _ _ _ Hi).
    unfold contribution in Hd. lia.
  - cbn. by apply Forall_insert.
Qed.

Lemma counter_step s c s' : counter_ok s -> server_step c s = Some s' -> counter_ok s'.
Proof.
  intros Hok. unfold server_step. destruct (exited s); [done|].
  pose proof Hok as (H1 & H2 & H3). destruct c as [b l inp| | |i wr|i ok].
  - intros [= <-]. split; [|split; [done|]]; cbn.
    + unfold admitted, dropped in *. cbn. rewrite !count_snoc. cbn. lia.
    + apply Forall_app. split; [done|]. repeat constructor.
  - by intros [= <-].
  - by intros [= <-].
  - destruct (threads s !! i) as [t|] eqn:Hi; [|done]. case_bool_decide as Hp; [|done].
    pose proof (Forall_lookup_1 _ _ _ _ H3 Hi) as Hs.
    destruct (serve_turn wr (nserv s) t) as [n t'| | |] eqn:E; cbn; [|by intros [= <-]|done|done].
    intros [= <-]. destruct (turn_contribution _ _ _ _ _ E Hp Hs) as (D1 & D2 & D3).
    apply (counter_update s i t); auto.
  - destruct (threads s !! i) as [t|] eqn:Hi; [|done]. case_bool_decide as Hp; [|done].
    pose proof (Forall_lookup_1 _ _ _ _ H3 Hi) as Hs.
    unfold serve_close. destruct ok; [|by intros [= <-]]. cbn [apply_outcome]. intros <-%(inj Some).
    apply (counter_update s i t); try done; [|lia].
    unfold contribution, running, left_unadmitted, is_done. cbn [t_start t_phase setf]. rewrite Hp.
    destruct Hs as [E|E]; rewrite E; cbn [Z.eqb andb negb of_bool]; change (1 =? 1) with true; cbn; lia.
Qed.

Lemma counter_holds s : server_reach s -> counter_ok s.
Proof.
  induction 1 as [|s c s' _ IH Hs]; [|by apply (counter_step s c)].
  split; [done|]. split; [done|constructor].
Qed.

(** An interleaving as a list of commands. *)
Fixpoint server_run (cs : list cmd) (s : server) : option server :=
  match cs with
  | [] => Some s
  | c :: cs => match server_step c s with Some s => server_run cs s | None => None end
  end.

Lemma run_reach cs s s' : server_reach s -> server_run cs s = Some s' -> server_reach s'.
Proof.
  revert s. induction cs as [|c cs IH]; intros s Hr; cbn; [by intros [= <-]|].
  destruct (server_step c s) as [s1|] eqn:E; [|done]. apply IH. by apply (reach_step s c).
Qed.

(** Two clients are served; a third is told to wait and closes; a fourth comes. *)
Definition hello : list rd := [RdBytes [104; 105; 10]].
Definition page0 : list Z := replicate 256 0.
Definition overcrowding : list cmd :=
  [CAccept page0 page0 hello; CTurn 0 full_write; CAccept page0 page0 hello; CTurn 1 full_write;
   CAccept page0 page0 (hello ++ [RdBytes []]); CTurn 2 full_write; CTurn 2 full_write; CClose 2 true;
   CAccept page0 page0 hello; CTurn 3 full_write].

(** C24: However the threads are interleaved, the counter of the server is the
    number of clients being served less the number of clients that left without
    having been admitted, and at most two; so while no such client has left at
    most two clients are served at a time, and each one that leaves lets one
    more in: the bound of two can be exceeded. *)
Theorem server_admission :
  (forall s, server_reach s ->
     nserv s = admitted s - dropped s /\ nserv s <= MAXCLIBUF /\
     admitted s <= MAXCLIBUF + dropped s) /\
  (exists s, server_reach s /\ admitted s = MAXCLIBUF + 1).
Proof.
  split.
  - intros s H%counter_holds. destruct H as (H1 & H2 & _). split_and!; [done|done|]. lia.
  - destruct (server_run overcrowding server_init) as [s|] eqn:E; [|by vm_compute in E].
    exists s. split; [by apply (run_reach overcrowding server_init); [constructor|]|].
    vm_compute in E. injection E as <-. vm_compute. reflexivity.
Qed.

(** A failing read() does not end a session: because read_line() returns
    its -1 as an unsigned number, the loop of serve() takes it for a line,
    encrypts what the array still holds and sends it again; and if that write
    fails, as it does on a broken connection, the whole server ends. *)
Theorem serve_read_error t its n m (Ht : serving 1 (Err :: its) t)
    (Hm : c_string (t_line t) = Some m) (Hq : strcmp_eq quit_line (t_line t) = false) :
  (exists t', serve_turn full_write n t = Next n t' /\ serving 1 its t' /\
              t_out t' = t_out t ++ [caesar <$> m]) /\
  (forall wr, wr (caesar <$> m) < 0 -> serve_turn wr n t = Exit).
Proof.
  destruct Ht as [Hr Hi Hl Hs Hp]. pose proof (read_line_holds _ _ Hr Hl) as H. rewrite Hi in H.
  assert (length m <= length (t_line t))%nat as Hlen.
  { clear -Hm. revert m Hm. induction (t_line t) as [|c a IH]; intros m; cbn [c_string]; [done|].
    destruct (c =? 0); [intros [= <-]; simpl; lia|]. destruct (c_string a); [|done].
    intros [= <-]. simpl. specialize (IH _ eq_refl). lia. }
  unfold serve_turn. destruct (read_line _ _ _) as [[[rc line'] r']|]; [|done].
  destruct H as (-> & -> & Hi' & Hr'). unfold line_array, line_ret. cbn [app length]. rewrite drop_0.
  cbn [negb]. change (negb (0 <? 2 ^ 32 - 1)) with false. cbn iota. cbn [t_start setf]. rewrite Hs.
  unfold admit_client. change (1 =? 0) with false. cbn iota. change (1 =? 1) with true. cbn iota.
  rewrite Hq, Hm. unfold Write. split.
  - rewrite (proj2 (Z.ltb_ge (full_write _) 0)) by (unfold full_write; lia). rewrite full_write_take.
    eexists. split; [done|]. split; [|done]. constructor; try done. cbn.
    rewrite length_app, length_fmap, length_drop. lia.
  - intros wr Hw. by rewrite (proj2 (Z.ltb_lt _ _)).
Qed.

(** * Instances *)

(** "hi\n" in two reads with an interruption between them, then the end. *)
Definition chopped : rio := mkRio page0 0 0 [RdBytes [104]; RdIntr; RdBytes [105; 10]; RdBytes []].

Lemma chopped_ok : rio_ok chopped.
Proof. split; [done|done|]. repeat constructor; done. Qed.

Lemma read_line_stream_witness :
  exists r', read_line MAXLINE page0 chopped = Some (3, 104 :: 105 :: 10 :: 0 :: replicate 252 0, r').
Proof.
  destruct (read_line_stream page0 chopped chopped_ok eq_refl) as [H _].
  destruct (read_line MAXLINE page0 chopped) as [[[rc line'] r']|]; [|vm_compute in H; destruct H].
  exists r'. vm_compute in H. destruct H as (-> & -> & _). vm_compute. reflexivity.
Defined.

Lemma serve_session_witness :
  exists t', serve 5 full_write 0 (new_thread page0 page0 (r_inp chopped)) = Some (Next 0 t') /\
    t_out t' = [[107; 108; 10]].
Proof.
  destruct (serve_session [[104; 105]] false [] 0 5 (new_thread page0 page0 (r_inp chopped))) as (t' & E & _ & Ho).
  - split; [exact chopped_ok|reflexivity|reflexivity|reflexivity|reflexivity].
  - reflexivity.
  - repeat constructor; try done; try set_solver; simpl; lia.
  - done.
  - simpl; lia.
  - exists t'. split; [exact E|]. rewrite Ho. reflexivity.
Defined.

Lemma serve_read_error_witness :
  exists t', serve_turn full_write 1 ((new_thread page0 (107 :: replicate 255 0) [RdErr]) <| t_start := 1 |>) = Next 1 t' /\
    t_out t' = [[110]].
Proof.
  destruct (serve_read_error ((new_thread page0 (107 :: replicate 255 0) [RdErr]) <| t_start := 1 |>) [] 1 [107])
    as [(t' & E & _ & Ho) _].
  - split; [split; [reflexivity|done|repeat constructor]|reflexivity|reflexivity|reflexivity|reflexivity].
  - reflexivity.
  - reflexivity.
  - exists t'. split; [exact E|]. rewrite Ho. reflexivity.
Defined.
