(* ===== verification/Client.v ===== *)
(** The client of src/Project1/Problem4 (client.c), and a session of it with the
    server of Server.v.

    The client takes its lines from the terminal, whose bytes are a list that ends
    with the end of the file, and waits for one reply to each.  Its read() gives
    one of the outcomes of Server.v; what it prints is kept line by line. *)

From S2P Require Import Prelude Server ServerSpec.

(** ** client.c *)

Inductive client_phase := Asking | Closed | Failed.
#[export] Instance client_phase_eq_dec : EqDecision client_phase.
Proof. solve_decision. Defined.
(** [c_stdin] is what is left of the terminal's input, [c_shown] what stands after
    "From server: ". *)
Record client := mkClient { c_stdin : list Z; c_sent : list (list Z); c_shown : list (list Z); c_phase : client_phase }.
#[export] Instance eta_client : Eta client := fun r => mkClient r.(c_stdin) r.(c_sent) r.(c_shown) r.(c_phase).

(** fgets() with room for [n] bytes and the NUL: the bytes and the rest *)
Fixpoint fgets_take (n : nat) (stdin : list Z) : list Z * list Z :=
  match n, stdin with
  | S n, c :: stdin =>
      if c =? 10 then ([c], stdin)
      else let '(l, rest) := fgets_take n stdin in (c :: l, rest)
  | _, _ => ([], stdin)
  end.
(** The buffer after fgets() and the two assignments, and the string in it. *)
Definition client_buffer (l : list Z) : list Z :=
  <[254%nat := 10]> (<[255%nat := 0]> (l ++ replicate (256 - length l) 0)).
Definition client_message (l : list Z) : list Z := default [] (c_string (client_buffer l)).
(** The loop up to Write(), with the message; its result is not looked at here *)
Definition client_send (c : client) : list Z * client :=
  let '(l, rest) := fgets_take 255 (c_stdin c) in
  let m := client_message l in
  (m, c <| c_stdin := rest |> <| c_sent ::= fun s => s ++ [m] |>).
(** The loop from read() on; [None] is a read past the end of [receive] *)
Definition client_receive (r : rd) (c : client) : option client :=
  match r with
  | RdErr | RdIntr => Some (c <| c_phase := Failed |>)
  | RdBytes bs =>
      if bool_decide (bs = []) then Some (c <| c_phase := Closed |>)
      else
        match c_string (bs ++ replicate (256 - length bs) 0) with
        | None => None
        | Some m => Some (c <| c_shown ::= fun s => s ++ [m] |>)
        end
  end.
(** A client at the start of its loop. *)
Definition new_client (stdin : list Z) : client := mkClient stdin [] [] Asking.

(** ** A session *)

(** The message reaches the server's thread in one piece, behind what it has not
    read yet; a write() of no bytes sends nothing. *)
Definition feed (m : list Z) (t : thread) : thread := t <| t_rio ::= fun r => r <| r_inp ::= fun l => l ++ [RdBytes m] |> |>.
Definition deliver (m : list Z) (t : thread) : thread := if bool_decide (m = []) then t else feed m t.
(** A round: the client sends, the thread takes a turn if it has something to read,
    be it older than the message, and the client receives the reply, or the end of
    the stream when the thread closes.  [None] when the thread has nothing to read,
    so that both wait for ever, or when one of them ends otherwise. *)
Definition session_round (n : Z) (t : thread) (c : client) : option (Z * thread * client) :=
  let '(m, c) := client_send c in
  match serve_turn full_write n (deliver m t) with
  | Next n t' =>
      let reply := match t_phase t' with Serving => concat (drop (length (t_out t)) (t_out t')) | _ => [] end in
      match client_receive (RdBytes reply) c with
      | None => None
      | Some c => Some (n, t', c)
      end
  | _ => None
  end.
Fixpoint session (fuel : nat) (n : Z) (t : thread) (c : client) : option (Z * thread * client) :=
  match fuel with
  | O => None
  | S fuel =>
      match session_round n t c with
      | None => None
      | Some (n, t, c) => if bool_decide (c_phase c = Asking) then session fuel n t c else Some (n, t, c)
      end
  end.

(** ** What the client sends *)

Lemma fgets_line l rest n : 10 ∉ l -> (length l < n)%nat -> fgets_take n (l ++ 10 :: rest) = (l ++ [10], rest).
Proof.
  revert n. induction l as [|c l IH]; intros n Hl Hn; (destruct n as [|n]; [cbn in Hn; lia|]); [done|]. cbn [fgets_take app].
  rewrite (proj2 (Z.eqb_neq c 10)) by set_solver. rewrite IH; [done|set_solver|cbn in Hn; lia].
Qed.
Lemma fgets_long l rest : 10 ∉ l -> fgets_take (length l) (l ++ rest) = (l, rest).
Proof.
  induction l as [|c l IH]; intros Hl; [done|]. cbn [fgets_take app length]. rewrite (proj2 (Z.eqb_neq c 10)) by set_solver.
  by rewrite IH by set_solver.
Qed.
(** The string in the buffer: the assignment to the last but one byte hits the NUL
    of a line of 254 bytes, and the last byte of a longer one. *)
Lemma message_eq l : 0 ∉ l -> (length l <= 255)%nat ->
  client_message l = if (length l <=? 253)%nat then l else take 254 l ++ [10].
Proof.
  intros H0 Hl. unfold client_message, client_buffer. destruct (Nat.leb_spec (length l) 253) as [Hs|Hs].
  - replace (256 - length l)%nat with (S (255 - length l))%nat by lia. cbn [replicate].
    rewrite !insert_app_r_alt by lia. replace (255 - length l)%nat with (S (254 - length l))%nat by lia.
    replace (254 - length l)%nat with (S (253 - length l))%nat by lia. cbn [insert list_insert]. by rewrite c_string_text.
  - assert (take 254 l ++ drop 254 l = l) as E by apply take_drop. assert (length (take 254 l) = 254%nat) as E1 by (rewrite length_take; lia).
    rewrite <- E at 1. rewrite <- app_assoc. rewrite !insert_app_r_alt by lia. rewrite E1. change (254 - 254)%nat with 0%nat. change (255 - 254)%nat with 1%nat.
    assert (length (drop 254 l ++ replicate (256 - length l) 0) = 2%nat) as E2 by (rewrite length_app, length_drop, length_replicate; lia).
    destruct (drop 254 l ++ _) as [|x [|y [|z k]]]; cbn in E2; try lia. cbn [insert list_insert].
    assert ((take 254 l ++ [10; 0]) = (take 254 l ++ [10]) ++ 0 :: []) as -> by by rewrite <- app_assoc. rewrite c_string_text; [done|].
    rewrite elem_of_app, list_elem_of_singleton. intros [H|H]; [|done]. apply H0. rewrite <- E. apply elem_of_app. by left.
Qed.
(** A typed line that arrives as it is. *)
Definition typed (l : list Z) : Prop := text l /\ (length l <= 252)%nat.

(** ** A session with the server *)

Lemma flat_app l l' : flat (l ++ l') = flat l ++ flat l'.
Proof. unfold flat. by rewrite fmap_app, concat_app. Qed.
Lemma feed_serving start m t : serving start [] t -> m <> [] -> (length m <= 256)%nat -> serving start (Byte <$> m) (feed m t).
Proof.
  intros [Hr Hi Hl Hs Hp] Hm Hlen. split; try done.
  - destruct Hr as [R1 R2 R3]. split; try done. cbn. apply Forall_app. split; [done|]. constructor; [|done]. cbn. unfold MAXBUFFER. lia.
  - unfold items in *. change (r_inp (t_rio (feed m t))) with (r_inp (t_rio t) ++ [RdBytes m]).
    change (slice (t_rio (feed m t))) with (slice (t_rio t)). rewrite flat_app. apply app_eq_nil in Hi as [-> ->]. cbn [app].
    rewrite flat_cons, flat_bytes by done. by rewrite app_nil_r.
Qed.
Lemma caesar_nonzero c : 0 <= c -> c <> 0 -> caesar c <> 0.
Proof.
  intros H0 H. unfold caesar. destruct ((97 <=? c) && (c <=? 122)); [|destruct ((65 <=? c) && (c <=? 90)); [|done]].
  - pose proof (Z.mod_pos_bound (c - 97 + CAESAR_SHIFT) 26). lia.
  - pose proof (Z.mod_pos_bound (c - 65 + CAESAR_SHIFT) 26). lia.
Qed.
Lemma receive_line m c : m <> [] -> 0 ∉ m -> (length m < 256)%nat ->
  client_receive (RdBytes m) c = Some (c <| c_shown ::= fun s => s ++ [m] |>).
Proof.
  intros Hm H0 Hl. unfold client_receive. rewrite bool_decide_false by done.
  replace (256 - length m)%nat with (S (255 - length m))%nat by lia. cbn [replicate]. by rewrite c_string_text.
Qed.

(** A turn with a line: the client shows it, encrypted. *)
Lemma round_reply n t t0 c c1 m l its : client_send c = (m, c1) -> deliver m t = t0 -> t_out t0 = t_out t ->
  serving 1 ((Byte <$> (l ++ [10])) ++ its) t0 -> text l -> Forall (fun x => 0 <= x) l ->
  exists t', session_round n t c = Some (n, t', c1 <| c_shown ::= fun s => s ++ [caesar <$> (l ++ [10])] |>) /\
    serving 1 its t' /\ t_out t' = t_out t ++ [caesar <$> (l ++ [10])].
Proof.
  intros Es Ed Eo Hf Hx Hpos. pose proof Hx as (H0 & H10 & Hlen & _). unfold session_round. rewrite Es, Ed.
  destruct (turn_admitted t0 l its n Hf Hx) as (t' & -> & Hs & Ho). rewrite (sv_phase _ _ _ Hs), Ho, Eo.
  rewrite drop_app_length. cbn [concat]. rewrite app_nil_r. rewrite receive_line.
  - exists t'. split_and!; [done|done|]. by rewrite Ho, Eo.
  - by destruct l.
  - rewrite fmap_app. intros [Hin|Hin]%elem_of_app.
    + apply list_elem_of_fmap in Hin as (x & E & Hin). rewrite Forall_forall in Hpos. symmetry in E. revert E. apply caesar_nonzero; [by apply Hpos|].
      by intros ->.
    + by apply list_elem_of_singleton in Hin.
  - rewrite length_fmap, length_app. cbn. lia.
Qed.

(** A thread without input waits. *)
Lemma turn_blocked n start t : serving start [] t -> serve_turn full_write n t = Blocked.
Proof.
  intros [Hr Hi Hl _ _]. pose proof (read_line_holds _ _ Hr Hl) as H. rewrite Hi in H.
  unfold serve_turn. by destruct (read_line _ _ _) as [[[rc line'] r']|].
Qed.

(** C39: what the client sends for a line of the terminal.  A line without NUL is
    sent as it is, with its newline, if it has at most 252 characters or exactly
    254; one of 253 characters is sent with a second newline, which the server
    takes for another, empty line; of a longer one the first 254 characters are
    sent as a line, and the 255th is lost.  At the end of the file nothing is sent:
    a line that the server's thread has not read yet is answered all the same, but
    when it has read everything, client and server wait for each other for
    ever. *)
Theorem client_send_spec w rest c : 0 ∉ w -> 10 ∉ w -> c_phase c = Asking ->
  (c_stdin c = w ++ 10 :: rest -> (length w <= 254)%nat ->
     let m := w ++ (if (length w =? 253)%nat then [10; 10] else [10]) in
     client_send c = (m, c <| c_stdin := rest |> <| c_sent ::= fun s => s ++ [m] |>)) /\
  (c_stdin c = w ++ rest -> (length w = 255)%nat ->
     let m := take 254 w ++ [10] in client_send c = (m, c <| c_stdin := rest |> <| c_sent ::= fun s => s ++ [m] |>)) /\
  (c_stdin c = [] -> let c1 := c <| c_sent ::= fun s => s ++ [[]] |> in
     client_send c = ([], c1) /\
     (forall n start t, serving start [] t -> session_round n t c = None) /\
     (forall n t l its, serving 1 ((Byte <$> (l ++ [10])) ++ its) t -> text l -> Forall (fun x => 0 <= x) l ->
        exists t', session_round n t c = Some (n, t', c1 <| c_shown ::= fun s => s ++ [caesar <$> (l ++ [10])] |>) /\ serving 1 its t')).
Proof.
  intros H0 H10 Hp. split_and!.
  - intros E Hl. unfold client_send. rewrite E, fgets_line by (done || lia). rewrite message_eq.
    + rewrite length_app. cbn [length]. destruct (Nat.eqb_spec (length w) 253) as [Hw|Hw].
      * rewrite (proj2 (Nat.leb_gt _ _)) by lia. rewrite take_ge by (rewrite length_app; cbn; lia). by rewrite <- app_assoc.
      * destruct (Nat.leb_spec (length w + 1) 253); [done|]. assert (length w = 254)%nat as Hw' by lia. by rewrite <- Hw', take_app_length.
    + rewrite elem_of_app, list_elem_of_singleton. naive_solver.
    + rewrite length_app. cbn. lia.
  - intros E Hl. unfold client_send. rewrite E. pose proof (fgets_long w rest H10) as Hf. rewrite Hl in Hf. rewrite Hf, message_eq by (done || lia).
    rewrite (proj2 (Nat.leb_gt _ _)) by lia. done.
  - intros E c1. assert (client_send c = ([], c1)) as Es by (unfold client_send; rewrite E; unfold c1; destruct c; cbn in E; by subst).
    split; [done|]. split.
    + intros n start t Ht. unfold session_round. rewrite Es. unfold deliver. rewrite bool_decide_true by done. by rewrite (turn_blocked n start t).
    + intros n t l its Ht Hx Hpos. destruct (round_reply n t t c c1 [] l its) as (t' & ? & ? & _); [done..|]. by exists t'.
Qed.

(** A round with a line, and the last round. *)
Lemma round_line n t c l rest : serving 1 [] t -> typed l -> Forall (fun x => 0 <= x) l -> c_stdin c = l ++ 10 :: rest -> c_phase c = Asking ->
  exists t', session_round n t c = Some (n, t', c <| c_stdin := rest |> <| c_sent ::= fun s => s ++ [l ++ [10]] |>
      <| c_shown ::= fun s => s ++ [caesar <$> (l ++ [10])] |>) /\ serving 1 [] t' /\ t_out t' = t_out t ++ [caesar <$> (l ++ [10])].
Proof.
  intros Ht [Hx Hlen] Hpos Ein Hp. pose proof Hx as (H0 & H10 & _ & _).
  destruct (round_reply n t (feed (l ++ [10]) t) c (c <| c_stdin := rest |> <| c_sent ::= fun s => s ++ [l ++ [10]] |>) (l ++ [10]) l []) as (t' & ? & ? & ?); [..|by exists t'].
  - unfold client_send. rewrite Ein, fgets_line by (done || lia). rewrite message_eq by (rewrite ?length_app; cbn; (lia || set_solver)).
    rewrite length_app. cbn [length]. by rewrite (proj2 (Nat.leb_le _ _)) by lia.
  - unfold deliver. by rewrite bool_decide_false by (by destruct l).
  - done.
  - rewrite app_nil_r. apply feed_serving; [done|by destruct l|rewrite length_app; cbn; lia].
  - done.
  - done.
Qed.
Lemma round_quit n t c rest : serving 1 [] t -> c_stdin c = quit_line ++ rest -> c_phase c = Asking ->
  exists t' c', session_round n t c = Some (n, t', c') /\ t_phase t' = Closing /\ t_out t' = t_out t /\ c_phase c' = Closed /\ c_shown c' = c_shown c.
Proof.
  intros Ht Ein Hp. unfold session_round, client_send. rewrite Ein. change (quit_line ++ rest) with ([58; 113] ++ 10 :: rest).
  rewrite fgets_line by (set_solver || (cbn; lia)). change (client_message ([58; 113] ++ [10])) with quit_line. change (deliver quit_line t) with (feed quit_line t).
  assert (serving 1 (ending true ++ []) (feed quit_line t)) as Hf by (rewrite app_nil_r; apply (feed_serving 1 quit_line t); [done|done|cbn; lia]).
  destruct (turn_quit _ [] n Hf) as (t' & -> & Hc & Ho). rewrite Hc. cbn. eexists _, _. split; [done|]. by split_and!.
Qed.
Lemma session_admitted ls fuel n t c rest : serving 1 [] t -> Forall typed ls -> Forall (Forall (fun x => 0 <= x)) ls ->
  c_stdin c = concat ((fun l => l ++ [10]) <$> ls) ++ quit_line ++ rest -> c_phase c = Asking -> (length ls < fuel)%nat ->
  exists t' c', session fuel n t c = Some (n, t', c') /\ t_phase t' = Closing /\ c_phase c' = Closed /\
    t_out t' = t_out t ++ ((fun l => caesar <$> (l ++ [10])) <$> ls) /\ c_shown c' = c_shown c ++ ((fun l => caesar <$> (l ++ [10])) <$> ls).
Proof.
  revert fuel t c. induction ls as [|l ls IH]; intros fuel t c Ht Hls Hpos Ein Hp Hf; (destruct fuel as [|fuel]; [lia|]); cbn [session].
  - destruct (round_quit n t c rest Ht Ein Hp) as (t' & c' & -> & H1 & H2 & H3 & H4). rewrite H3. exists t', c'.
    rewrite bool_decide_false by done. split_and!; try done; by rewrite app_nil_r.
  - apply Forall_cons in Hls as [Hl Hls]. apply Forall_cons in Hpos as [Hl' Hpos]. cbn [fmap list_fmap concat] in Ein. rewrite <- !app_assoc in Ein.
    destruct (round_line n t c l _ Ht Hl Hl' Ein Hp) as (t1 & -> & Ht1 & Ho). set (c1 := c <| c_stdin := _ |> <| c_sent ::= _ |> <| c_shown ::= _ |>).
    change (c_phase c1) with (c_phase c). rewrite bool_decide_true by done.
    destruct (IH fuel t1 c1 Ht1 Hls Hpos) as (t' & c' & E & H1 & H2 & H3 & H4); [done|done|cbn in Hf; lia|].
    exists t', c'. split_and!; try done; [by rewrite H3, Ho, <- app_assoc|]. rewrite H4. unfold c1. cbn. by rewrite <- app_assoc.
Qed.

(** C36: client and server together encrypt what is typed.  While messages arrive in
    one piece and the thread takes its turns while the client waits, a client that
    is given lines of text of at most 252 characters each and then ":q", and finds
    a place, shows after each line that line with its letters shifted by three, and
    then closes because the server's thread does; the thread ends and the count of
    clients is what it was. *)
Theorem client_server_session ls n buffer line rest : n < MAXCLIBUF -> Forall typed ls -> Forall (Forall (fun x => 0 <= x)) ls ->
  length buffer = 256%nat -> length line = 256%nat ->
  exists t c t', session (S (length ls)) n (new_thread buffer line []) (new_client (concat ((fun l => l ++ [10]) <$> ls) ++ quit_line ++ rest)) = Some (n + 1, t, c) /\
    c_shown c = ((fun l => caesar <$> (l ++ [10])) <$> ls) /\ t_out t = c_shown c /\ c_phase c = Closed /\
    serve_close true (n + 1) t = Next n t' /\ t_phase t' = Done.
Proof.
  intros Hn Hls Hpos Hb Hline. set (t0 := new_thread buffer line []). set (c0 := new_client _).
  assert (serving 0 [] t0) as H0.
  { split; try done; [|cbn; unfold MAXLINE; lia]. split; cbn; [unfold MAXBUFFER; lia|lia|constructor]. }
  assert (serving 1 [] (t0 <| t_start := 1 |>)) as H1 by (destruct H0; by split).
  destruct (session_admitted ls (S (length ls)) (n + 1) _ c0 rest H1 Hls Hpos) as (t & c & E & A1 & A2 & A3 & A4); [done|done|lia|].
  assert (session (S (length ls)) n t0 c0 = session (S (length ls)) (n + 1) (t0 <| t_start := 1 |>) c0) as ->.
  { cbn [session]. unfold session_round. destruct (client_send c0) as [m c1] eqn:Es.
    assert (exists l its, m = l ++ [10] /\ 10 ∉ l /\ (length l <= 254)%nat /\ its = @nil item) as (l & its & -> & H10 & Hl & _).
    { unfold client_send, c0 in Es. cbn [c_stdin new_client] in Es. destruct ls as [|l ls].
      - cbn in Es. injection Es as <- _. exists [58; 113], []. split_and!; [done|set_solver|cbn; lia|done].
      - apply Forall_inv in Hls as [(H00 & H10 & Hlen & _) Hlen']. cbn [fmap list_fmap concat] in Es. rewrite <- !app_assoc in Es. cbn [app] in Es.
        rewrite fgets_line in Es by (done || lia). rewrite message_eq in Es by (rewrite ?length_app; cbn; (lia || set_solver)).
        rewrite length_app in Es. cbn [length] in Es. rewrite (proj2 (Nat.leb_le _ _)) in Es by lia. injection Es as <- _.
        exists l, []. split_and!; try done. }
    assert (forall x, deliver (l ++ [10]) x = feed (l ++ [10]) x) as Hd by (intros x; unfold deliver; by rewrite bool_decide_false by (by destruct l)).
    rewrite !Hd. assert (serving 0 ((Byte <$> (l ++ [10])) ++ []) (feed (l ++ [10]) t0)) as Hf.
    { rewrite app_nil_r. apply feed_serving; [done|by destruct l|rewrite length_app; cbn; lia]. }
    by rewrite (turn_admits _ l [] n Hf H10 Hl Hn). }
  exists t, c, (t <| t_phase := Done |>). rewrite E. split_and!; try done.
  - by rewrite A3, A4.
  - unfold serve_close. by rewrite Z.add_simpl_r.
Qed.

(** ** Instances *)

(** "ab" and a line of 253 letters. *)
Lemma client_send_spec_witness : let c := new_client (97 :: 98 :: 10 :: replicate 253 97 ++ [10]) in
  client_send c = ([97; 98; 10], c <| c_stdin := replicate 253 97 ++ [10] |> <| c_sent ::= fun s => s ++ [[97; 98; 10]] |>).
Proof.
  intros c. destruct (client_send_spec [97; 98] (replicate 253 97 ++ [10]) c) as [H _].
  - set_solver by lia.
  - set_solver by lia.
  - done.
  - apply H; [done|]. cbn. lia.
Defined.
Lemma client_server_session_witness : exists t c t',
  session 2 1 (new_thread (replicate 256 0) (replicate 256 0) []) (new_client (concat ((fun l => l ++ [10]) <$> [[104; 105]]) ++ quit_line ++ [])) = Some (2, t, c) /\
  c_shown c = [[107; 108; 10]] /\ t_out t = c_shown c /\ c_phase c = Closed /\ serve_close true 2 t = Next 1 t' /\ t_phase t' = Done.
Proof.
  apply (client_server_session [[104; 105]] 1 (replicate 256 0) (replicate 256 0) []); try done.
  - constructor; [|constructor]. split; [|cbn; lia]. split_and!; try done; set_solver by lia.
  - repeat constructor; lia.
Defined.
