(* ===== verification/Account.v ===== *)
(** Time accounting: the cputime part of kernel/sched/core.c.

    A tick is charged to one field of the processor's statistics, to the task
    it interrupted and to the accounting groups above the task.  The statistics
    of the processor are those of the root group ([root_cpuacct.cpustat] points
    to [kernel_cpustat]), so [kcpustat_this_cpu->cpustat] is
    [cpustat s root_cpuacct].

    CONFIG_VIRT_CPU_ACCOUNTING and CONFIG_PARAVIRT are off.  The interrupt-time
    code is that of CONFIG_IRQ_TIME_ACCOUNTING with its per-processor variables
    in [irqtime]; without the option [sched_clock_irqtime] is the constant 0,
    which is the value [false] of the field: the theorems hold in both builds.
    The units of [cputime_t], the interrupt bits of the preemption count, the
    CPU timers of a thread group and the BSD accounting belong to other
    directories and are members of [AcctEnv]. *)

From S2P Require Import Prelude KList Sched Cpuacct Core.

Definition root_cpuacct : nat := 0.

(** The per-processor variables of CONFIG_IRQ_TIME_ACCOUNTING. *)
Record irqtime := mkIrqtime {
  cpu_hardirq_time : Z; cpu_softirq_time : Z; irq_start_time : Z;
  sched_clock_irqtime : bool }.

#[export] Instance eta_irqtime : Eta irqtime := fun r =>
  mkIrqtime r.(cpu_hardirq_time) r.(cpu_softirq_time) r.(irq_start_time) r.(sched_clock_irqtime).

(** [struct signal_struct], the members thread_group_times() uses, and
    [struct task_cputime]. *)
Record signal_struct := mkSignal { sig_prev_utime : Z; sig_prev_stime : Z }.
Record task_cputime := mkCputime { tc_utime : Z; tc_stime : Z; tc_sum_exec_runtime : Z }.

Class AcctEnv `{KEnv} := {
  cputime_one_jiffy : Z;
  cputime_to_scaled : Z -> Z;
  jiffies_to_cputime : Z -> Z;
  nsecs_to_cputime64 : Z -> Z;
  nsecs_to_jiffies : Z -> Z;
  HARDIRQ_OFFSET : Z;
  hardirq_count : Z -> Z;            (* of the preemption count *)
  irq_count : Z -> Z;
  in_serving_softirq : Z -> bool;
  this_cpu_ksoftirqd : Ext -> option nat;
  account_group_user_time : nat -> Z -> Ext -> Ext;
  account_group_system_time : nat -> Z -> Ext -> Ext;
  acct_update_integrals : nat -> Ext -> Ext;
  thread_group_cputime : nat -> kst -> task_cputime }.

Section account.
Context {KT : KTypes} {KE : KEnv} {AE : AcctEnv}.

(** preempt_count() is that of the running task *)
Definition cur_preempt_count (s : kst) : Z := preempt_count (tasks s (curr s)).

(** ** Interrupt time *)

(** enable_sched_clock_irqtime(), disable_sched_clock_irqtime() *)
Definition enable_sched_clock_irqtime (it : irqtime) : irqtime := it <| sched_clock_irqtime := true |>.
Definition disable_sched_clock_irqtime (it : irqtime) : irqtime := it <| sched_clock_irqtime := false |>.

(** irq_time_read(): on one processor the sequence count is never odd at a
    reader *)
Definition irq_time_read (it : irqtime) : Z := u64 (cpu_softirq_time it + cpu_hardirq_time it).

(** account_system_vtime() *)
Definition account_system_vtime (p : nat) (s : kst) (it : irqtime) : irqtime :=
  if negb (sched_clock_irqtime it) then it
  else
    let delta := s64 (u64 (sched_clock_cpu (ext s) - irq_start_time it)) in
    let it := it <| irq_start_time ::= fun x => u64 (x + delta) |> in
    if c_true (hardirq_count (cur_preempt_count s))
    then it <| cpu_hardirq_time ::= fun x => u64 (x + delta) |>
    else if in_serving_softirq (cur_preempt_count s) && negb (bool_decide (this_cpu_ksoftirqd (ext s) = Some p))
    then it <| cpu_softirq_time ::= fun x => u64 (x + delta) |>
    else it.

(** irqtime_account_hi_update(), irqtime_account_si_update() *)
Definition irqtime_account_hi_update (s : kst) (it : irqtime) : bool :=
  cpustat s root_cpuacct CPUTIME_IRQ <? nsecs_to_cputime64 (cpu_hardirq_time it).
Definition irqtime_account_si_update (s : kst) (it : irqtime) : bool :=
  cpustat s root_cpuacct CPUTIME_SOFTIRQ <? nsecs_to_cputime64 (cpu_softirq_time it).

(** ** Charging a span of time *)

(** [ca->cpustat->cpustat[index] += tmp] *)
Definition add_cpustat (ca index : nat) (tmp : Z) (s : kst) : kst :=
  s <| cpustat ::= fun f d i =>
         if ((d =? ca)%nat && (i =? index)%nat) then u64 (f ca index + tmp) else f d i |>.

(** task_group_account_field(): [while (ca && (ca != &root_cpuacct))] *)
Fixpoint account_field_loop (fuel : nat) (ca : option nat) (index : nat) (tmp : Z) (s : kst) : kst :=
  match fuel, ca with
  | S fuel, Some c =>
      if (c =? root_cpuacct)%nat then s
      else
        let s := add_cpustat c index tmp s in
        account_field_loop fuel (parent_ca (Some c) s) index tmp s
  | _, _ => s
  end.
Definition task_group_account_field (p index : nat) (tmp : Z) (s : kst) : kst :=
  let s := add_cpustat root_cpuacct index tmp s in
  if negb (cpuacct_subsys_active (ext s)) then s
  else account_field_loop cgroup_depth (Some (task_ca p s)) index tmp s.

(** account_user_time() *)
Definition account_user_time (p : nat) (cputime cputime_scaled : Z) (s : kst) : kst :=
  let s := upd_task p (fun t => t <| t_utime ::= fun x => u32 (x + cputime) |>) s in
  let s := upd_task p (fun t => t <| t_utimescaled ::= fun x => u32 (x + cputime_scaled) |>) s in
  let s := s <| ext ::= account_group_user_time p cputime |> in
  let index := if 0 <? task_nice (tasks s p) then CPUTIME_NICE else CPUTIME_USER in
  let s := task_group_account_field p index cputime s in
  s <| ext ::= acct_update_integrals p |>.

(** account_guest_time() *)
Definition account_guest_time (p : nat) (cputime cputime_scaled : Z) (s : kst) : kst :=
  let s := upd_task p (fun t => t <| t_utime ::= fun x => u32 (x + cputime) |>) s in
  let s := upd_task p (fun t => t <| t_utimescaled ::= fun x => u32 (x + cputime_scaled) |>) s in
  let s := s <| ext ::= account_group_user_time p cputime |> in
  let s := upd_task p (fun t => t <| t_gtime ::= fun x => u32 (x + cputime) |>) s in
  if 0 <? task_nice (tasks s p) then
    let s := add_cpustat root_cpuacct CPUTIME_NICE cputime s in
    add_cpustat root_cpuacct CPUTIME_GUEST_NICE cputime s
  else
    let s := add_cpustat root_cpuacct CPUTIME_USER cputime s in
    add_cpustat root_cpuacct CPUTIME_GUEST cputime s.

(** __account_system_time(), account_system_time() *)
Definition __account_system_time (p : nat) (cputime cputime_scaled : Z) (index : nat) (s : kst) : kst :=
  let s := upd_task p (fun t => t <| t_stime ::= fun x => u32 (x + cputime) |>) s in
  let s := upd_task p (fun t => t <| t_stimescaled ::= fun x => u32 (x + cputime_scaled) |>) s in
  let s := s <| ext ::= account_group_system_time p cputime |> in
  let s := task_group_account_field p index cputime s in
  s <| ext ::= acct_update_integrals p |>.
Definition account_system_time (p : nat) (hardirq_offset cputime cputime_scaled : Z) (s : kst) : kst :=
  let count := cur_preempt_count s in
  if has_flag (t_flags (tasks s p)) PF_VCPU && (irq_count count - hardirq_offset =? 0)
  then account_guest_time p cputime cputime_scaled s
  else
    let index := if c_true (hardirq_count count - hardirq_offset) then CPUTIME_IRQ
                 else if in_serving_softirq count then CPUTIME_SOFTIRQ
                 else CPUTIME_SYSTEM in
    __account_system_time p cputime cputime_scaled index s.

(** account_steal_time(), account_idle_time() *)
Definition account_steal_time (cputime : Z) (s : kst) : kst :=
  add_cpustat root_cpuacct CPUTIME_STEAL cputime s.
Definition account_idle_time (cputime : Z) (s : kst) : kst :=
  if 0 <? nr_iowait (rq s) then add_cpustat root_cpuacct CPUTIME_IOWAIT cputime s
  else add_cpustat root_cpuacct CPUTIME_IDLE cputime s.

(** steal_account_process_tick() without CONFIG_PARAVIRT *)
Definition steal_account_process_tick (s : kst) : bool * kst := (false, s).

(** ** Ticks *)

(** irqtime_account_process_tick() *)
Definition irqtime_account_process_tick (p : nat) (user_tick : bool) (it : irqtime) (s : kst) : kst :=
  let one_jiffy_scaled := cputime_to_scaled cputime_one_jiffy in
  let '(stolen, s) := steal_account_process_tick s in
  if stolen : bool then s
  else if irqtime_account_hi_update s it then add_cpustat root_cpuacct CPUTIME_IRQ cputime_one_jiffy s
  else if irqtime_account_si_update s it then add_cpustat root_cpuacct CPUTIME_SOFTIRQ cputime_one_jiffy s
  else if bool_decide (this_cpu_ksoftirqd (ext s) = Some p)
  then __account_system_time p cputime_one_jiffy one_jiffy_scaled CPUTIME_SOFTIRQ s
  else if user_tick then account_user_time p cputime_one_jiffy one_jiffy_scaled s
  else if (p =? rq_idle (rq s))%nat then account_idle_time cputime_one_jiffy s
  else if has_flag (t_flags (tasks s p)) PF_VCPU
  then account_guest_time p cputime_one_jiffy one_jiffy_scaled s
  else __account_system_time p cputime_one_jiffy one_jiffy_scaled CPUTIME_SYSTEM s.

(** account_process_tick() *)
Definition account_process_tick (p : nat) (user_tick : bool) (it : irqtime) (s : kst) : kst :=
  let one_jiffy_scaled := cputime_to_scaled cputime_one_jiffy in
  if sched_clock_irqtime it then irqtime_account_process_tick p user_tick it s
  else
    let '(stolen, s) := steal_account_process_tick s in
    if stolen : bool then s
    else if user_tick then account_user_time p cputime_one_jiffy one_jiffy_scaled s
    else if negb (p =? rq_idle (rq s))%nat || negb (irq_count (cur_preempt_count s) =? HARDIRQ_OFFSET)
    then account_system_time p HARDIRQ_OFFSET cputime_one_jiffy one_jiffy_scaled s
    else account_idle_time cputime_one_jiffy s.

(** irqtime_account_idle_ticks(): [for (i = 0; i < ticks; i++)] *)
Fixpoint irqtime_account_idle_ticks (ticks : nat) (it : irqtime) (s : kst) : kst :=
  match ticks with
  | O => s
  | S ticks => irqtime_account_idle_ticks ticks it (irqtime_account_process_tick (curr s) false it s)
  end.

(** account_steal_ticks(), account_idle_ticks(); the count becomes an [int] on
    the way to irqtime_account_idle_ticks() *)
Definition account_steal_ticks (ticks : Z) (s : kst) : kst :=
  account_steal_time (jiffies_to_cputime ticks) s.
Definition account_idle_ticks (ticks : Z) (it : irqtime) (s : kst) : kst :=
  if sched_clock_irqtime it then irqtime_account_idle_ticks (Z.to_nat (s32 ticks)) it s
  else account_idle_time (jiffies_to_cputime ticks) s.

(** ** Reading the times *)

(** do_task_delta_exec(), task_delta_exec(), task_sched_runtime() *)
Definition do_task_delta_exec (p : nat) (s : kst) : Z * kst :=
  if task_current s p then
    let s := update_rq_clock s in
    let ns := u64 (clock_task (rq s) - exec_start (t_se (tasks s p))) in
    (if s64 ns <? 0 then 0 else ns, s)
  else (0, s).
Definition task_delta_exec (p : nat) (s : kst) : Z * kst := do_task_delta_exec p s.
Definition task_sched_runtime (p : nat) (s : kst) : Z * kst :=
  let '(delta, s') := do_task_delta_exec p s in
  (u64 (sum_exec_runtime (t_se (tasks s p)) + delta), s').

(** nsecs_to_cputime() is nsecs_to_jiffies() when the architecture has none *)
Definition nsecs_to_cputime (nsecs : Z) : Z := nsecs_to_jiffies nsecs.

(** scale_utime() with a [cputime_t] of four bytes *)
Definition scale_utime (utime rtime total : Z) : Z :=
  let temp := rtime in
  let temp := u64 (temp * utime) in
  let temp := temp / u32 total in
  u32 temp.

(** task_times(), thread_group_times(): the two times reported *)
Definition task_times (p : nat) (s : kst) : (Z * Z) * kst :=
  let t := tasks s p in
  let utime := t_utime t in
  let total := u32 (utime + t_stime t) in
  let rtime := nsecs_to_cputime (sum_exec_runtime (t_se t)) in
  let utime := if c_true total then scale_utime utime rtime total else rtime in
  let s := upd_task p (fun t => t <| prev_utime := Z.max (prev_utime t) utime |>) s in
  let s := upd_task p (fun t => t <| prev_stime := Z.max (prev_stime t) (u32 (rtime - prev_utime t)) |>) s in
  ((prev_utime (tasks s p), prev_stime (tasks s p)), s).
Definition thread_group_times (p : nat) (sig : signal_struct) (s : kst) : (Z * Z) * signal_struct :=
  let cputime := thread_group_cputime p s in
  let total := u32 (tc_utime cputime + tc_stime cputime) in
  let rtime := nsecs_to_cputime (tc_sum_exec_runtime cputime) in
  let utime := if c_true total then scale_utime (tc_utime cputime) rtime total else rtime in
  let prev_utime := Z.max (sig_prev_utime sig) utime in
  let prev_stime := Z.max (sig_prev_stime sig) (u32 (rtime - prev_utime)) in
  ((prev_utime, prev_stime), mkSignal prev_utime prev_stime).
End account.
