(* ===== verification/AccountSpec.v ===== *)
(** What time accounting guarantees (Account.v): no jiffy is lost or counted
    twice however the ticks fall, a group never has more time than the groups
    above it, and the times reported for a task never run backwards and cover
    its precise run time. *)

From S2P Require Import Prelude KList Sched Cpuacct Demo Core Account.

(** The fields that partition the time of a processor, USER to STEAL; GUEST and
    GUEST_NICE repeat a part of USER and NICE. *)
Definition NR_MAIN : nat := 8.
Definition main_total (f : nat -> Z) : Z := foldr (fun i z => f i + z) 0 (seq 0 NR_MAIN).

Lemma foldr_update (f g : nat -> Z) k t l : NoDup l ->
  (forall i, i ∈ l -> g i = if (i =? k)%nat then f i + t else f i) ->
  foldr (fun i z => g i + z) 0 l = foldr (fun i z => f i + z) 0 l + (if decide (k ∈ l) then t else 0).
Proof.
  induction l as [|x l IH]; intros Hnd Hg; [by rewrite decide_False by set_solver|].
  apply NoDup_cons in Hnd as [Hx Hnd]. cbn [foldr]. rewrite (Hg x), IH by (done || set_solver).
  destruct (Nat.eqb_spec x k) as [->|Hne].
  - rewrite decide_False, decide_True by set_solver. lia.
  - destruct (decide (k ∈ l)); [rewrite decide_True by set_solver|rewrite decide_False by set_solver]; lia.
Qed.

Lemma main_irq : (CPUTIME_IRQ < NR_MAIN)%nat.
Proof. unfold CPUTIME_IRQ, NR_MAIN. lia. Qed.
Lemma main_softirq : (CPUTIME_SOFTIRQ < NR_MAIN)%nat.
Proof. unfold CPUTIME_SOFTIRQ, NR_MAIN. lia. Qed.
Lemma main_system : (CPUTIME_SYSTEM < NR_MAIN)%nat.
Proof. unfold CPUTIME_SYSTEM, NR_MAIN. lia. Qed.

Lemma main_total_update (f g : nat -> Z) k t : (k < NR_MAIN)%nat ->
  (forall i, (i < NR_MAIN)%nat -> g i = if (i =? k)%nat then f i + t else f i) ->
  main_total g = main_total f + t.
Proof.
  intros Hk Hg. unfold main_total. rewrite (foldr_update f g k t); [|apply NoDup_seq|].
  - rewrite decide_True; [lia|]. apply elem_of_seq. lia.
  - intros i [_ Hi]%elem_of_seq. apply Hg. lia.
Qed.

Lemma main_total_bound (f : nat -> Z) k : (k < NR_MAIN)%nat ->
  (forall i, (i < NR_MAIN)%nat -> 0 <= f i) -> f k <= main_total f.
Proof.
  intros Hk Hf. unfold main_total. assert (k ∈ seq 0 NR_MAIN) as Hin by (apply elem_of_seq; lia).
  assert (forall i, i ∈ seq 0 NR_MAIN -> 0 <= f i) as Hf' by (intros i [_ Hi]%elem_of_seq; apply Hf; lia).
  clear Hk Hf. revert Hin Hf'. generalize (seq 0 NR_MAIN). intros l.
  assert (forall m, (forall i, i ∈ m -> 0 <= f i) -> 0 <= foldr (fun i z => f i + z) 0 m) as Hp.
  { intros m Hm. induction m as [|y m IHm]; cbn [foldr]; [lia|].
    assert (0 <= f y) by (apply Hm; set_solver). assert (forall i, i ∈ m -> 0 <= f i) as Hm' by set_solver.
    specialize (IHm Hm'). lia. }
  induction l as [|x l IH]; intros Hin Hf; [set_solver|]. cbn [foldr].
  assert (0 <= f x) by (apply Hf; set_solver).
  assert (forall i, i ∈ l -> 0 <= f i) as Hl by set_solver. specialize (Hp l Hl).
  apply elem_of_cons in Hin as [->|Hin]; [lia|]. specialize (IH Hin Hl). lia.
Qed.

(** [e'] has the accounting groups of [e]. *)
Record same_ca {KT : KTypes} {KE : KEnv} (e e' : Ext) : Prop := {
  sc_active : cpuacct_subsys_active e' = cpuacct_subsys_active e;
  sc_task p : task_ca_of p e' = task_ca_of p e;
  sc_parent ca : ca_cgroup_parent ca e' = ca_cgroup_parent ca e;
  sc_cgroup c : cgroup_ca c e' = cgroup_ca c e }.

(** Jiffies are counted linearly in an unsigned long, and the CPU timers and BSD accounting do not
    move accounting groups. *)
Class AcctLaws `{AcctEnv} : Prop := {
  one_jiffy_pos : 0 < cputime_one_jiffy < 2 ^ 32;
  jiffies_linear n : 0 <= n -> jiffies_to_cputime n = n * cputime_one_jiffy;
  nsecs_to_jiffies_ulong n : 0 <= nsecs_to_jiffies n < 2 ^ 32;
  user_time_ca p c e : same_ca e (account_group_user_time p c e);
  system_time_ca p c e : same_ca e (account_group_system_time p c e);
  integrals_ca p e : same_ca e (acct_update_integrals p e) }.

Section charges.
Context {KT : KTypes} {KE : KEnv} {AE : AcctEnv} {AL : AcctLaws}.
Implicit Types (s : kst) (p c d i k : nat).

#[export] Instance same_ca_preorder : PreOrder same_ca.
Proof.
  split; [by intros e|]. intros e1 e2 e3 [A1 B1 C1 D1] [A2 B2 C2 D2].
  split; intros; [by rewrite A2|by rewrite B2|by rewrite C2|by rewrite D2].
Qed.

Lemma same_ca_parent s s' ca : same_ca (ext s) (ext s') -> parent_ca ca s' = parent_ca ca s.
Proof.
  intros [_ _ C D]. unfold parent_ca. destruct ca as [c|]; [|done]. rewrite C.
  destruct (ca_cgroup_parent c (ext s)); [by rewrite D|done].
Qed.

(** The accounting groups form a tree with the root group on top, no deeper
    than the bound of the walks. *)
Record ca_tree (depth : nat -> nat) s : Prop := {
  ct_bound c : (depth c < cgroup_depth)%nat;
  ct_parent c d : parent_ca (Some c) s = Some d -> (depth d < depth c)%nat;
  ct_root : parent_ca (Some root_cpuacct) s = None }.

Lemma ca_tree_same depth s s' : same_ca (ext s) (ext s') -> ca_tree depth s -> ca_tree depth s'.
Proof.
  intros Hs [A B C]. split; [done| |by rewrite (same_ca_parent s)].
  intros c d. rewrite (same_ca_parent s) by done. apply B.
Qed.

(** [charged G k t s s']: the step from [s] to [s'] adds [t] to field [k] of the
    groups in [G] and leaves the other main fields alone. *)
Definition charged (G : nat -> bool) k (t : Z) s s' : Prop :=
  forall d i, (i < NR_MAIN)%nat ->
    cpustat s' d i = if G d && (i =? k)%nat then u64 (cpustat s d i + t) else cpustat s d i.

(** The groups of [G] are closed under the way to the root, and the root is
    one of them. *)
Record up_closed (G : nat -> bool) s : Prop := {
  uc_root : G root_cpuacct = true;
  uc_parent c d : G c = true -> parent_ca (Some c) s = Some d -> G d = true }.

Lemma add_cpustat_at c k t s d i : cpustat (add_cpustat c k t s) d i =
  if (d =? c)%nat && (i =? k)%nat then u64 (cpustat s d i + t) else cpustat s d i.
Proof.
  unfold add_cpustat. cbn [cpustat setf].
  destruct (Nat.eqb_spec d c) as [->|]; [|done]. by destruct (Nat.eqb_spec i k) as [->|].
Qed.

Lemma charged_root k t s : charged (fun d => (d =? root_cpuacct)%nat) k t s (add_cpustat root_cpuacct k t s).
Proof. intros d i _. apply add_cpustat_at. Qed.

Lemma up_closed_root depth s : ca_tree depth s -> up_closed (fun d => (d =? root_cpuacct)%nat) s.
Proof.
  intros Ht. split; [apply Nat.eqb_refl|]. intros c d ->%Nat.eqb_eq. by rewrite (ct_root _ _ Ht).
Qed.

(** The loop charges the groups from [ca] up to the one below the root. *)
Lemma account_field_loop_charges depth n ca k t s : ca_tree depth s ->
  (forall c, ca = Some c -> (depth c < n)%nat) ->
  exists G, charged G k t s (account_field_loop n ca k t s) /\ G root_cpuacct = false /\
    (forall c d, G c = true -> parent_ca (Some c) s = Some d -> d = root_cpuacct \/ G d = true) /\
    (forall c, G c = true -> exists x, ca = Some x /\ (depth c <= depth x)%nat) /\
    (forall c, ca = Some c -> c = root_cpuacct \/ G c = true) /\
    ext (account_field_loop n ca k t s) = ext s.
Proof.
  revert ca s. induction n as [|n IH]; intros [x|] s Ht Hn;
    try (exists (fun _ => false); split; [by intros d i _|]; split_and!; naive_solver).
  { specialize (Hn x eq_refl). lia. }
  cbn [account_field_loop]. destruct (Nat.eqb_spec x root_cpuacct) as [->|Hx].
  { exists (fun _ => false). split; [by intros d i _|]. split_and!; naive_solver. }
  set (s1 := add_cpustat x k t s). change (parent_ca (Some x) s1) with (parent_ca (Some x) s).
  destruct (IH (parent_ca (Some x) s) s1) as (G & Hc & Hr & Hu & Hd & Hin & He); [by apply (ca_tree_same _ s)| |].
  { intros c Hc. specialize (Hn x eq_refl). pose proof (ct_parent _ _ Ht x c Hc). lia. }
  assert (G x = false) as Hgx.
  { destruct (G x) eqn:E; [|done]. destruct (Hd x E) as (y & Hy & Hle).
    pose proof (ct_parent _ _ Ht x y Hy). lia. }
  exists (fun d => (d =? x)%nat || G d). split; [|split_and!].
  - intros d i Hi. rewrite (Hc d i Hi). unfold s1. rewrite !add_cpustat_at.
    destruct (Nat.eqb_spec d x) as [->|]; [|done]. rewrite Hgx. by destruct (i =? k)%nat.
  - rewrite Hr. destruct (Nat.eqb_spec root_cpuacct x); [congruence|done].
  - intros c d [->%Nat.eqb_eq|Hg]%orb_true_iff Hp.
    + destruct (Hin d Hp) as [?|Hg]; [by left|]. right. by rewrite Hg, orb_true_r.
    + destruct (Hu c d Hg Hp) as [?|Hg']; [by left|]. right. by rewrite Hg', orb_true_r.
  - intros c [->%Nat.eqb_eq|Hg]%orb_true_iff; [by exists x|]. destruct (Hd c Hg) as (y & Hy & Hle).
    exists x. split; [done|]. pose proof (ct_parent _ _ Ht x y Hy). lia.
  - intros c [= <-]. right. by rewrite Nat.eqb_refl.
  - done.
Qed.

(** What one accounting step does: one jiffy span to one main field of an
    upwards closed set of groups. *)
Definition one_charge (t : Z) s s' : Prop :=
  same_ca (ext s) (ext s') /\
  exists k G, (k < NR_MAIN)%nat /\ charged G k t s s' /\ up_closed G s.

Lemma one_charge_pre s0 s t s' : cpustat s0 = cpustat s -> same_ca (ext s0) (ext s) ->
  one_charge t s s' -> one_charge t s0 s'.
Proof.
  intros Hc He (Hs & k & G & Hk & Hg & [U1 U2]). split; [by etrans|]. exists k, G. split; [done|]. split.
  - intros d i Hi. rewrite Hc. by apply Hg.
  - split; [done|]. intros c d Hgc Hp. apply (U2 c d); [done|]. by rewrite (same_ca_parent s0).
Qed.

Lemma one_charge_post s t s' s1 : cpustat s1 = cpustat s' -> same_ca (ext s') (ext s1) ->
  one_charge t s s' -> one_charge t s s1.
Proof.
  intros Hc He (Hs & k & G & Hk & Hg & U). split; [by etrans|]. exists k, G. split; [done|]. split; [|done].
  intros d i Hi. rewrite Hc. by apply Hg.
Qed.

Lemma one_charge_integrals t s s' p : one_charge t s s' ->
  one_charge t s (s' <| ext ::= acct_update_integrals p |>).
Proof. apply one_charge_post; [done|apply integrals_ca]. Qed.

Lemma one_charge_root depth k t s : ca_tree depth s -> (k < NR_MAIN)%nat ->
  one_charge t s (add_cpustat root_cpuacct k t s).
Proof.
  intros Ht Hk. split; [done|]. exists k, (fun d => (d =? root_cpuacct)%nat). split; [done|].
  split; [apply charged_root|by apply (up_closed_root depth)].
Qed.

Lemma one_charge_field depth p k t s : ca_tree depth s -> (k < NR_MAIN)%nat ->
  one_charge t s (task_group_account_field p k t s).
Proof.
  intros Ht Hk. unfold task_group_account_field. set (s1 := add_cpustat root_cpuacct k t s).
  destruct (negb _); [by apply (one_charge_root depth)|].
  destruct (account_field_loop_charges depth cgroup_depth (Some (task_ca p s1)) k t s1)
    as (G & Hc & Hr & Hu & _ & _ & He).
  { by apply (ca_tree_same _ s). }
  { intros c _. apply (ct_bound _ _ Ht). }
  split; [by rewrite He|]. exists k, (fun d => (d =? root_cpuacct)%nat || G d). split; [done|]. split; [|split].
  - intros d i Hi. rewrite (Hc d i Hi). unfold s1. rewrite !add_cpustat_at.
    destruct (Nat.eqb_spec d root_cpuacct) as [->|]; [|done]. rewrite Hr. by destruct (i =? k)%nat.
  - done.
  - intros c d [->%Nat.eqb_eq|Hg]%orb_true_iff Hp; [by rewrite (ct_root _ _ Ht) in Hp|].
    destruct (Hu c d Hg Hp) as [->|Hg']; [done|]. by rewrite Hg', orb_true_r.
Qed.

(** The guest counters are no main fields. *)
Lemma one_charge_guest k t s s' : (NR_MAIN <= k)%nat -> one_charge t s s' ->
  one_charge t s (add_cpustat root_cpuacct k t s').
Proof.
  intros Hk (Hs & k' & G & Hk' & Hg & U). split; [done|]. exists k', G. split; [done|]. split; [|done].
  intros d i Hi. rewrite add_cpustat_at. destruct (Nat.eqb_spec i k); [lia|]. rewrite andb_false_r. by apply Hg.
Qed.
End charges.

Section ticks.
Context {KT : KTypes} {KE : KEnv} {AE : AcctEnv} {AL : AcctLaws}.
Implicit Types (s : kst) (p c d i k : nat) (it : irqtime).

Lemma one_charge_user depth p t sc s : ca_tree depth s -> one_charge t s (account_user_time p t sc s).
Proof.
  intros Ht. unfold account_user_time. cbv zeta. apply one_charge_integrals.
  set (s1 := _ <| ext ::= account_group_user_time p t |>).
  assert (same_ca (ext s) (ext s1)) as He by apply user_time_ca.
  eapply one_charge_pre; [|exact He|apply (one_charge_field depth); [by eapply ca_tree_same|]]; [done|].
  case_match; unfold NR_MAIN, CPUTIME_NICE, CPUTIME_USER; lia.
Qed.

Lemma one_charge_system depth p t sc k s : ca_tree depth s -> (k < NR_MAIN)%nat ->
  one_charge t s (__account_system_time p t sc k s).
Proof.
  intros Ht Hk. unfold __account_system_time. cbv zeta. apply one_charge_integrals.
  set (s1 := _ <| ext ::= account_group_system_time p t |>).
  assert (same_ca (ext s) (ext s1)) as He by apply system_time_ca.
  eapply one_charge_pre; [|exact He|apply (one_charge_field depth); [by eapply ca_tree_same|done]]. done.
Qed.

Lemma one_charge_guest_time depth p t sc s : ca_tree depth s -> one_charge t s (account_guest_time p t sc s).
Proof.
  intros Ht. unfold account_guest_time. cbv zeta.
  set (s1 := upd_task p (fun t0 => t0 <| t_gtime ::= _ |>) _).
  assert (same_ca (ext s) (ext s1)) as He by apply user_time_ca.
  assert (ca_tree depth s1) as Ht1 by by eapply ca_tree_same.
  assert (cpustat s = cpustat s1) as Hc by done. clearbody s1.
  case_match; (apply one_charge_guest; [unfold NR_MAIN, CPUTIME_GUEST_NICE, CPUTIME_GUEST; lia|]);
    (eapply one_charge_pre; [exact Hc|exact He|]); apply (one_charge_root depth);
    unfold NR_MAIN, CPUTIME_NICE, CPUTIME_USER; (done || lia).
Qed.

Lemma one_charge_idle depth t s : ca_tree depth s -> one_charge t s (account_idle_time t s).
Proof.
  intros Ht. unfold account_idle_time.
  case_match; apply (one_charge_root depth); unfold NR_MAIN, CPUTIME_IOWAIT, CPUTIME_IDLE; (done || lia).
Qed.

Lemma one_charge_if (b : bool) t s s1 s2 :
  one_charge t s s1 -> one_charge t s s2 -> one_charge t s (if b then s1 else s2).
Proof. by destruct b. Qed.

Lemma main_field_if (b : bool) k1 k2 : (k1 < NR_MAIN)%nat -> (k2 < NR_MAIN)%nat ->
  ((if b then k1 else k2) < NR_MAIN)%nat.
Proof. by destruct b. Qed.

Lemma one_charge_irqtime depth p user it s : ca_tree depth s ->
  one_charge cputime_one_jiffy s (irqtime_account_process_tick p user it s).
Proof.
  intros Ht. unfold irqtime_account_process_tick. cbn [steal_account_process_tick].
  apply one_charge_if; [apply (one_charge_root depth); [done|apply main_irq]|].
  apply one_charge_if; [apply (one_charge_root depth); [done|apply main_softirq]|].
  apply one_charge_if; [apply (one_charge_system depth); [done|apply main_softirq]|].
  apply one_charge_if; [by apply (one_charge_user depth)|].
  apply one_charge_if; [by apply (one_charge_idle depth)|].
  apply one_charge_if; [by apply (one_charge_guest_time depth)|].
  apply (one_charge_system depth); [done|apply main_system].
Qed.

Lemma one_charge_tick depth p user it s : ca_tree depth s ->
  one_charge cputime_one_jiffy s (account_process_tick p user it s).
Proof.
  intros Ht. unfold account_process_tick, account_system_time. cbn [steal_account_process_tick].
  apply one_charge_if; [by apply (one_charge_irqtime depth)|].
  apply one_charge_if; [by apply (one_charge_user depth)|].
  apply one_charge_if; [|by apply (one_charge_idle depth)].
  apply one_charge_if; [by apply (one_charge_guest_time depth)|].
  apply (one_charge_system depth); [done|].
  apply main_field_if; [apply main_irq|]. apply main_field_if; [apply main_softirq|apply main_system].
Qed.

(** ** Invariants of the statistics *)

(** No group has more time in a field than the group above it, nor than the
    whole processor. *)
Record stat_ok s : Prop := {
  so_pos c i : (i < NR_MAIN)%nat -> 0 <= cpustat s c i;
  so_parent c d i : (i < NR_MAIN)%nat -> parent_ca (Some c) s = Some d -> cpustat s c i <= cpustat s d i;
  so_root c i : (i < NR_MAIN)%nat -> cpustat s c i <= cpustat s root_cpuacct i }.

Definition cpu_total s : Z := main_total (cpustat s root_cpuacct).

Lemma one_charge_ok t s s' : 0 <= t -> stat_ok s -> cpu_total s + t < 2 ^ 64 ->
  one_charge t s s' ->
  stat_ok s' /\ cpu_total s' = cpu_total s + t.
Proof.
  intros Ht [P1 P2 P3] Hb (Hs & k & G & Hk & Hc & [U1 U2]).
  assert (forall c i, (i < NR_MAIN)%nat -> cpustat s c i + t < 2 ^ 64) as Hnw.
  { intros c i Hi. specialize (P3 c i Hi).
    pose proof (main_total_bound (cpustat s root_cpuacct) i Hi (P1 root_cpuacct)). unfold cpu_total in Hb. lia. }
  assert (forall c i, (i < NR_MAIN)%nat ->
    cpustat s' c i = if G c && (i =? k)%nat then cpustat s c i + t else cpustat s c i) as Hv.
  { intros c i Hi. rewrite (Hc c i Hi). case_match; [|done]. apply u64_small.
    specialize (P1 c i Hi). specialize (Hnw c i Hi). lia. }
  split; [split|].
  - intros c i Hi. rewrite Hv by done. specialize (P1 c i Hi). case_match; lia.
  - intros c d i Hi. rewrite (same_ca_parent s) by done. intros Hp. rewrite !Hv by done.
    specialize (P2 c d i Hi Hp). destruct (G c) eqn:Hgc.
    + rewrite (U2 c d Hgc Hp). case_match; lia.
    + cbn [andb]. case_match; lia.
  - intros c i Hi. rewrite !Hv, U1 by done. specialize (P3 c i Hi). destruct (G c), (i =? k)%nat; cbn [andb]; lia.
  - unfold cpu_total. apply (main_total_update _ _ k); [done|]. intros i Hi. rewrite Hv, U1 by done. done.
Qed.
End ticks.

(** ** Histories *)

Section history.
Context {KT : KTypes} {KE : KEnv} {AE : AcctEnv} {AL : AcctLaws}.
Implicit Types (s : kst) (p c d i k : nat) (it : irqtime) (n : Z).

(** [timeline n s s']: [n] jiffies of ticks, idle ticks and stolen ticks lead
    from [s] to [s'], with any activity of the rest of the kernel in between
    that leaves the statistics and the accounting groups alone. *)
Inductive timeline s : Z -> kst -> Prop :=
  | tl_here : timeline s 0 s
  | tl_tick n s' p user it : timeline s n s' ->
      timeline s (n + 1) (account_process_tick p user it s')
  | tl_idle n s' ticks it : timeline s n s' -> 0 <= ticks < 2 ^ 31 ->
      timeline s (n + ticks) (account_idle_ticks ticks it s')
  | tl_steal n s' ticks : timeline s n s' -> 0 <= ticks ->
      timeline s (n + ticks) (account_steal_ticks ticks s')
  | tl_other n s' s'' : timeline s n s' -> cpustat s'' = cpustat s' ->
      same_ca (ext s') (ext s'') -> timeline s n s''.

Lemma timeline_pos s n s' : timeline s n s' -> 0 <= n.
Proof. induction 1; lia. Qed.

(** What a stretch of [n] jiffies keeps and adds. *)
Definition accounted depth n s s' : Prop :=
  ca_tree depth s' /\ stat_ok s' /\ cpu_total s' = cpu_total s + n * cputime_one_jiffy.

Lemma accounted_charge depth n m s s' s'' : 0 <= n -> 0 <= m ->
  cpu_total s + (n + m) * cputime_one_jiffy < 2 ^ 64 -> accounted depth n s s' ->
  one_charge (m * cputime_one_jiffy) s' s'' -> accounted depth (n + m) s s''.
Proof.
  pose proof one_jiffy_pos as Hj. intros Hn Hm Hb (T & O & E) Hc.
  destruct (one_charge_ok (m * cputime_one_jiffy) s' s'') as [O' E']; [nia|done|rewrite E; lia|done|].
  split; [by apply (ca_tree_same _ s'), T; destruct Hc|]. split; [done|]. rewrite E', E. lia.
Qed.

Lemma accounted_idle_loop depth ticks n it s s' : 0 <= n ->
  cpu_total s + (n + Z.of_nat ticks) * cputime_one_jiffy < 2 ^ 64 -> accounted depth n s s' ->
  accounted depth (n + Z.of_nat ticks) s (irqtime_account_idle_ticks ticks it s').
Proof.
  revert n s'. induction ticks as [|m IH]; intros n s' Hn Hb H; cbn [irqtime_account_idle_ticks].
  - by rewrite Z.add_0_r.
  - replace (n + Z.of_nat (S m)) with (n + 1 + Z.of_nat m) in * by lia. apply IH; [lia|done|].
    pose proof one_jiffy_pos. apply (accounted_charge _ _ _ _ s'); [done|lia|nia|done|].
    rewrite Z.mul_1_l. apply (one_charge_irqtime depth), H.
Qed.

Lemma timeline_accounted depth s n s' : ca_tree depth s -> stat_ok s ->
  cpu_total s + n * cputime_one_jiffy < 2 ^ 64 -> timeline s n s' -> accounted depth n s s'.
Proof.
  intros Ht Ho Hb H. pose proof one_jiffy_pos as Hj.
  induction H as [|n s' p user it H IH|n s' ticks it H IH Hk|n s' ticks H IH Hk|n s' s'' H IH Hc He];
    try (pose proof (timeline_pos _ _ _ H)).
  - split; [done|]. split; [done|lia].
  - apply (accounted_charge _ _ _ _ s'); [done|lia|done|apply IH; nia|].
    rewrite Z.mul_1_l. apply (one_charge_tick depth), IH. nia.
  - assert (accounted depth n s s') as H' by (apply IH; nia). unfold account_idle_ticks. case_match.
    + rewrite s32_small by lia. rewrite <- (Z2Nat.id ticks) at 1 by lia.
      apply accounted_idle_loop; [done|by rewrite Z2Nat.id by lia|done].
    + apply (accounted_charge _ _ _ _ s'); [done|lia|done|done|].
      rewrite jiffies_linear by lia. apply (one_charge_idle depth), H'.
  - assert (accounted depth n s s') as H' by (apply IH; nia).
    apply (accounted_charge _ _ _ _ s'); [done|lia|done|done|].
    unfold account_steal_ticks, account_steal_time. rewrite jiffies_linear by lia.
    apply (one_charge_root depth); [apply H'|]. unfold NR_MAIN, CPUTIME_STEAL. lia.
  - destruct (IH Hb) as (T & [O1 O2 O3] & E). split; [by apply (ca_tree_same _ s')|]. split; [split|].
    + intros c i. rewrite Hc. apply O1.
    + intros c d i. rewrite Hc, (same_ca_parent s') by done. apply O2.
    + intros c i. rewrite Hc. apply O3.
    + unfold cpu_total in *. by rewrite Hc.
Qed.
End history.

(** ** Reported times *)

Section times.
Context {KT : KTypes} {KE : KEnv} {AE : AcctEnv} {AL : AcctLaws}.
Implicit Types (s : kst) (p : nat).

(** The precise run time of a task in jiffies. *)
Definition rtime_of p s : Z := nsecs_to_cputime (sum_exec_runtime (t_se (tasks s p))).

(** The ticks counted for the task fit in the 32-bit [cputime_t], and no more
    time was reported of either kind than the task ran. *)
Record times_ok p s : Prop := {
  to_ticks : 0 <= t_utime (tasks s p) /\ 0 <= t_stime (tasks s p) /\
             t_utime (tasks s p) + t_stime (tasks s p) < 2 ^ 32;
  to_prev_utime : prev_utime (tasks s p) <= rtime_of p s;
  to_prev_stime : prev_stime (tasks s p) <= rtime_of p s }.

(** The share of the run time that scale_utime() gives to user mode. *)
Lemma scale_utime_bounds u r t : 0 <= u <= t -> 0 < t < 2 ^ 32 -> 0 <= r < 2 ^ 32 ->
  scale_utime u r t = r * u / t /\ 0 <= scale_utime u r t <= r.
Proof.
  intros Hu Ht Hr. unfold scale_utime. cbv zeta. rewrite (u32_small t) by lia.
  rewrite u64_small by nia.
  assert (0 <= r * u / t <= r).
  { split; [apply Z.div_pos; nia|]. apply Z.div_le_upper_bound; nia. }
  rewrite u32_small by lia. done.
Qed.

(** The two values task_times() computes and stores. *)
Definition new_utime p s : Z :=
  let t := tasks s p in
  Z.max (prev_utime t)
    (if c_true (u32 (t_utime t + t_stime t))
     then scale_utime (t_utime t) (rtime_of p s) (u32 (t_utime t + t_stime t)) else rtime_of p s).
Definition new_stime p s : Z := Z.max (prev_stime (tasks s p)) (u32 (rtime_of p s - new_utime p s)).

Lemma task_times_eq p s : exists s',
  task_times p s = ((new_utime p s, new_stime p s), s') /\
  tasks s' p = (tasks s p) <| prev_utime := new_utime p s |> <| prev_stime := new_stime p s |> /\
  forall q, q <> p -> tasks s' q = tasks s q.
Proof.
  unfold task_times. cbv zeta. fold (rtime_of p s). eexists. split; [|split].
  - rewrite !tasks_upd_eq. reflexivity.
  - by rewrite !tasks_upd_eq.
  - intros q Hq. by rewrite !tasks_upd_ne.
Qed.

Lemma new_utime_bounds p s : times_ok p s ->
  prev_utime (tasks s p) <= new_utime p s <= rtime_of p s /\ 0 <= new_utime p s.
Proof.
  intros [(U & S & B) P _]. pose proof (nsecs_to_jiffies_ulong (sum_exec_runtime (t_se (tasks s p)))) as Hr.
  change (nsecs_to_jiffies _) with (rtime_of p s) in Hr. unfold new_utime. cbv zeta.
  rewrite (u32_small (_ + _)) by lia. unfold c_true. destruct (Z.eqb_spec (t_utime (tasks s p) + t_stime (tasks s p)) 0); cbn [negb].
  - lia.
  - destruct (scale_utime_bounds (t_utime (tasks s p)) (rtime_of p s) (t_utime (tasks s p) + t_stime (tasks s p)))
      as [_ ?]; lia.
Qed.

Lemma new_stime_eq p s : times_ok p s ->
  new_stime p s = Z.max (prev_stime (tasks s p)) (rtime_of p s - new_utime p s).
Proof.
  intros H. pose proof (new_utime_bounds p s H) as [? ?].
  pose proof (nsecs_to_jiffies_ulong (sum_exec_runtime (t_se (tasks s p)))) as Hr.
  change (nsecs_to_jiffies _) with (rtime_of p s) in Hr.
  unfold new_stime. by rewrite u32_small by lia.
Qed.

(** task_times().  The user and the system time reported for a task never
    fall below the ones reported before, neither exceeds the task's precise run
    time, together they cover it, and asking again without running reports the
    same; what is stored keeps these bounds for the next call, and no other
    task is touched. *)
Theorem task_times_spec p s : times_ok p s ->
  exists ut st s', task_times p s = ((ut, st), s') /\
    prev_utime (tasks s p) <= ut <= rtime_of p s /\ prev_stime (tasks s p) <= st <= rtime_of p s /\
    rtime_of p s <= ut + st /\ times_ok p s' /\
    (task_times p s').1 = (ut, st) /\ (forall q, q <> p -> tasks s' q = tasks s q).
Proof.
  intros H. pose proof (new_utime_bounds p s H) as [[U1 U2] U3]. pose proof (new_stime_eq p s H) as Hs.
  pose proof (to_prev_stime _ _ H) as P.
  destruct (task_times_eq p s) as (s' & E & Et & Eo). exists (new_utime p s), (new_stime p s), s'.
  split; [done|]. split; [done|]. split; [lia|]. split; [lia|].
  assert (rtime_of p s' = rtime_of p s) as Er by (unfold rtime_of; by rewrite Et).
  assert (times_ok p s') as H'.
  { split; rewrite ?Er, Et; cbn; [apply (to_ticks _ _ H)|lia|lia]. }
  split; [done|]. split; [|done].
  destruct (task_times_eq p s') as (s'' & E' & _ & _). rewrite E'. cbn [fst].
  assert (new_utime p s' = new_utime p s) as Eu.
  { unfold new_utime at 1. cbv zeta. rewrite Er, Et. cbn. unfold new_utime. cbv zeta. lia. }
  rewrite (new_stime_eq p s') by done. rewrite Eu, Er, Et. cbn. f_equal. lia.
Qed.

(** C30: conservation of time.  However the ticks fall (in user or system mode,
    in interrupts, on the idle task, with or without interrupt-time
    accounting), [n] jiffies add exactly [n] jiffies to the processor's time,
    each to one of the fields USER to STEAL, and no accounting group ever has
    more time of a kind than the group above it or than the processor. *)
Theorem cputime_conserved depth s n s' : ca_tree depth s -> stat_ok s ->
  cpu_total s + n * cputime_one_jiffy < 2 ^ 64 -> timeline s n s' ->
  cpu_total s' = cpu_total s + n * cputime_one_jiffy /\ stat_ok s'.
Proof. intros Ht Ho Hb H. by destruct (timeline_accounted depth s n s') as (_ & ? & ?). Qed.
End times.

(** * An instance *)

Module AccountDemo.
Import Demo RingLists.

#[export] Instance acct_env : AcctEnv := {|
  cputime_one_jiffy := 1;
  cputime_to_scaled := fun t => t;
  jiffies_to_cputime := fun n => n;
  nsecs_to_cputime64 := fun n => n / 10000000;
  nsecs_to_jiffies := fun n => u32 (n / 10000000);
  HARDIRQ_OFFSET := 65536;
  hardirq_count := fun c => Z.land c 0x03ff0000;
  irq_count := fun c => Z.land c 0x07ffff00;
  in_serving_softirq := fun c => c_true (Z.land c 0x100);
  this_cpu_ksoftirqd := fun _ => Some 3%nat;
  account_group_user_time := fun _ _ e => e;
  account_group_system_time := fun _ _ e => e;
  acct_update_integrals := fun _ e => e;
  thread_group_cputime := fun p s =>
    mkCputime (t_utime (tasks s p)) (t_stime (tasks s p)) (sum_exec_runtime (t_se (tasks s p))) |}.

#[export] Instance acct_laws : AcctLaws.
Proof.
  split; [done|intros; cbn; lia|intros; apply u32_range|by intros..].
Defined.

Lemma demo_tree : ca_tree (fun c => if (c =? 0)%nat then 0%nat else 1%nat) idle_state.
Proof.
  split; [|intros [|c] d; cbn; [done|by intros [= <-]; cbn; lia]|done].
  intros c. unfold cgroup_depth, env. destruct (c =? 0)%nat; lia.
Defined.

Lemma demo_stat_ok : stat_ok idle_state.
Proof. split; cbn; lia. Defined.

(** A user tick of task 1 (in the group 1 below the root), a tick on the idle
    task, ten stolen ticks: twelve jiffies. *)
Definition no_irqtime : irqtime := mkIrqtime 0 0 0 false.
Definition day : kst :=
  account_steal_ticks 10 (account_process_tick 0 false no_irqtime
    (account_process_tick 1 true no_irqtime idle_state)).

Lemma day_timeline : timeline idle_state (0 + 1 + 1 + 10) day.
Proof. apply tl_steal; [|lia]. apply tl_tick, tl_tick, tl_here. Defined.

Lemma cputime_conserved_witness :
  cpu_total day = 12 /\ stat_ok day /\ cpustat day 1%nat CPUTIME_USER = 1.
Proof.
  destruct (cputime_conserved _ idle_state (0 + 1 + 1 + 10) day demo_tree demo_stat_ok) as [H1 H2];
    [vm_compute; reflexivity|exact day_timeline|].
  split; [exact H1|]. split; [exact H2|vm_compute; reflexivity].
Defined.

(** Task 1 ran 70 ms; 3 of its 4 ticks fell in user mode. *)
Definition ran : kst := upd_task 1 (fun t => t <| t_utime := 3 |> <| t_stime := 1 |>
  <| t_se ::= fun e => e <| sum_exec_runtime := 70000000 |> |>) idle_state.

Lemma task_times_spec_witness : times_ok 1 ran /\ exists s', task_times 1 ran = ((5, 2), s') /\ times_ok 1 s'.
Proof.
  assert (times_ok 1 ran) as H.
  { split; [vm_compute; split_and!; congruence|vm_compute; congruence|vm_compute; congruence]. }
  split; [exact H|]. destruct (task_times_spec 1 ran H) as (ut & st & s' & E & _ & _ & _ & H' & _).
  exists s'. split; [|exact H'].
  assert ((task_times 1 ran).1 = (5, 2)) as Ev by (vm_compute; reflexivity).
  rewrite E in Ev |- *. cbn [fst] in Ev. rewrite Ev. reflexivity.
Defined.
End AccountDemo.
