(* ===== verification/Wait.v ===== *)
(** Wait queues, completions and sleep_on(): kernel/sched/core.c from
    default_wake_function() to sleep_on_timeout().

    linux/wait.h is not part of the repository: the contents of the queues and
    the three operations core.c uses are the class [WaitQueues] with its laws;
    a [wait_queue_t *] is a number ([wq_addr]), the local variable of the
    waiting task.  [call_other] stands for the wake functions of other code.
    list_for_each_entry_safe() visits the entries that are queued when the walk
    starts: a wake function may take its own entry off the queue, no other.

    A function that sleeps is cut at its call of schedule_timeout(), which
    releases the lock: [WaitSleep t] is the call, with the timeout [t], and the
    [_resume] definition is what the task does when the call returns.  Each
    piece runs under the queue's lock, so the pieces are the atomic steps of
    the concurrent system of WaitSpec.v. *)

From S2P Require Import Prelude KList Sched Cpuacct Core.

(** linux/wait.h *)
Definition WQ_FLAG_EXCLUSIVE := 1.

(** linux/kernel.h *)
Definition UINT_MAX := 2 ^ 32 - 1.
Definition LONG_MAX := 2 ^ 31 - 1.
Definition MAX_SCHEDULE_TIMEOUT := LONG_MAX.

(** A [wait_queue_head_t *]: a queue of its own, or the one in a completion. *)
Inductive wq_head := WqHead (n : nat) | WqCompletion (x : nat).

#[export] Instance wq_head_eq_dec : EqDecision wq_head.
Proof. solve_decision. Defined.

(** The wake function of an entry. *)
Inductive wq_func := DefaultWake | OtherWake (f : nat).

Record wait_queue_t := mkWait {
  wq_addr : nat; wq_flags : Z; wq_private : nat; wq_fn : wq_func }.

#[export] Instance eta_wait : Eta wait_queue_t := fun r =>
  mkWait r.(wq_addr) r.(wq_flags) r.(wq_private) r.(wq_fn).

Class WaitQueues := {
  wqs : Type;
  task_list : wqs -> wq_head -> list wait_queue_t;
  __add_wait_queue : wq_head -> wait_queue_t -> wqs -> wqs;
  __add_wait_queue_tail_exclusive : wq_head -> wait_queue_t -> wqs -> wqs;
  __remove_wait_queue : wq_head -> nat -> wqs -> wqs }.

Class WaitQueueLaws `{WaitQueues} : Prop := {
  add_wait_spec h e q h' : task_list (__add_wait_queue h e q) h' =
    if decide (h' = h) then e :: task_list q h else task_list q h';
  add_wait_tail_spec h e q h' : task_list (__add_wait_queue_tail_exclusive h e q) h' =
    if decide (h' = h) then task_list q h ++ [e <| wq_flags ::= fun f => Z.lor f WQ_FLAG_EXCLUSIVE |>]
    else task_list q h';
  remove_wait_spec h a q h' : task_list (__remove_wait_queue h a q) h' =
    if decide (h' = h) then filter (fun e => wq_addr e <> a) (task_list q h) else task_list q h' }.

(** The kernel with its wait queues and completions. *)
Record wst `{KTypes, WaitQueues} := mkWst {
  ks : kst;
  queues : wqs;
  done : nat -> Z }.                       (* x->done, by completion *)

#[export] Instance eta_wst `{KTypes, WaitQueues} : Eta wst := fun r =>
  mkWst _ _ r.(ks) r.(queues) r.(done).

Class WaitEnv `{KTypes, WaitQueues} := {
  call_other : nat -> wait_queue_t -> Z -> Z -> Z -> wst -> bool * wst }.

Section wait.
Context {KT : KTypes} {KE : KEnv} {CE : CoreEnv} {WQ : WaitQueues} {WE : WaitEnv}.

(** [current] *)
Definition current (w : wst) : nat := curr (ks w).

Definition set_done (x : nat) (v : Z) (w : wst) : wst :=
  w <| done ::= fun f y => if (y =? x)%nat then v else f y |>.

(** default_wake_function() and the call [curr->func(curr, ...)] *)
Definition default_wake_function (c : wait_queue_t) (mode wake_flags key : Z) (w : wst) : bool * wst :=
  let '(r, k) := try_to_wake_up (wq_private c) mode wake_flags (ks w) in
  (r, w <| ks := k |>).
Definition call_func (c : wait_queue_t) (mode wake_flags key : Z) (w : wst) : bool * wst :=
  match wq_fn c with
  | DefaultWake => default_wake_function c mode wake_flags key w
  | OtherWake f => call_other f c mode wake_flags key w
  end.

(** __wake_up_common() *)
Fixpoint wake_loop (l : list wait_queue_t) (mode nr_exclusive wake_flags key : Z) (w : wst) : wst :=
  match l with
  | [] => w
  | c :: l =>
      let flags := wq_flags c in
      let '(woken, w) := call_func c mode wake_flags key w in
      if woken && has_flag flags WQ_FLAG_EXCLUSIVE then
        let nr_exclusive := s32 (nr_exclusive - 1) in
        if negb (c_true nr_exclusive) then w else wake_loop l mode nr_exclusive wake_flags key w
      else wake_loop l mode nr_exclusive wake_flags key w
  end.
Definition __wake_up_common (q : wq_head) (mode nr_exclusive wake_flags key : Z) (w : wst) : wst :=
  wake_loop (task_list (queues w) q) mode nr_exclusive wake_flags key w.

(** __wake_up(), __wake_up_locked(), __wake_up_locked_key() *)
Definition __wake_up (q : wq_head) (mode nr_exclusive key : Z) (w : wst) : wst :=
  __wake_up_common q mode nr_exclusive 0 key w.
Definition __wake_up_locked (q : wq_head) (mode nr : Z) (w : wst) : wst :=
  __wake_up_common q mode nr 0 0 w.
Definition __wake_up_locked_key (q : wq_head) (mode key : Z) (w : wst) : wst :=
  __wake_up_common q mode 1 0 key w.

(** __wake_up_sync_key(), __wake_up_sync(); [None] is a null queue *)
Definition __wake_up_sync_key (q : option wq_head) (mode nr_exclusive key : Z) (w : wst) : wst :=
  match q with
  | None => w
  | Some q =>
      let wake_flags := if negb (c_true nr_exclusive) then 0 else WF_SYNC in
      __wake_up_common q mode nr_exclusive wake_flags key w
  end.
Definition __wake_up_sync (q : option wq_head) (mode nr_exclusive : Z) (w : wst) : wst :=
  __wake_up_sync_key q mode nr_exclusive 0 w.

(** ** Completions *)

(** complete(), complete_all() *)
Definition complete (x : nat) (w : wst) : wst :=
  let w := set_done x (u32 (done w x + 1)) w in
  __wake_up_common (WqCompletion x) TASK_NORMAL 1 0 0 w.
Definition complete_all (x : nat) (w : wst) : wst :=
  let w := set_done x (u32 (done w x + UINT_MAX / 2)) w in
  __wake_up_common (WqCompletion x) TASK_NORMAL 0 0 0 w.

(** What a sleeping function comes to: its result, or schedule_timeout(). *)
Inductive wait_result := WaitReturn (r : Z) | WaitSleep (timeout : Z).

(** __set_current_state() *)
Definition __set_current_state (state : Z) (w : wst) : wst :=
  w <| ks ::= upd_task (current w) (fun t => t <| t_state := state |>) |>.

(** do_wait_for_common() with the local variable [wait]: the end, the part
    after the loop, the body of the loop, the part before schedule_timeout()
    and the part after it *)
Definition wait_take (x : nat) (timeout : Z) (w : wst) : wait_result * wst :=
  (WaitReturn (if c_true timeout then timeout else 1), set_done x (u32 (done w x - 1)) w).
Definition wait_finish (wait x : nat) (timeout : Z) (w : wst) : wait_result * wst :=
  let w := w <| queues ::= __remove_wait_queue (WqCompletion x) wait |> in
  if negb (c_true (done w x)) then (WaitReturn timeout, w) else wait_take x timeout w.
Definition wait_body (wait x : nat) (timeout state : Z) (w : wst) : wait_result * wst :=
  if signal_pending_state state (tasks (ks w) (current w))
  then wait_finish wait x (- ERESTARTSYS) w
  else (WaitSleep timeout, __set_current_state state w).
Definition do_wait_for_common (wait x : nat) (timeout state : Z) (w : wst) : wait_result * wst :=
  if negb (c_true (done w x)) then
    let e := mkWait wait 0 (current w) DefaultWake in
    let w := w <| queues ::= __add_wait_queue_tail_exclusive (WqCompletion x) e |> in
    wait_body wait x timeout state w
  else wait_take x timeout w.
Definition do_wait_for_common_resume (wait x : nat) (timeout state : Z) (w : wst) : wait_result * wst :=
  if negb (c_true (done w x)) && c_true timeout then wait_body wait x timeout state w
  else wait_finish wait x timeout w.

(** The callers of wait_for_common(): the arguments and what they return. *)
Record wait_call := mkCall { wc_timeout : Z; wc_state : Z; wc_ret : Z -> Z }.
Definition no_signal_ret (t : Z) : Z := if t =? - ERESTARTSYS then t else 0.
Definition wait_for_completion : wait_call :=
  mkCall MAX_SCHEDULE_TIMEOUT TASK_UNINTERRUPTIBLE (fun _ => 0).
Definition wait_for_completion_timeout (timeout : Z) : wait_call :=
  mkCall (s32 timeout) TASK_UNINTERRUPTIBLE u32.
Definition wait_for_completion_interruptible : wait_call :=
  mkCall MAX_SCHEDULE_TIMEOUT TASK_INTERRUPTIBLE no_signal_ret.
Definition wait_for_completion_interruptible_timeout (timeout : Z) : wait_call :=
  mkCall (s32 timeout) TASK_INTERRUPTIBLE (fun t => t).
Definition wait_for_completion_killable : wait_call :=
  mkCall MAX_SCHEDULE_TIMEOUT TASK_KILLABLE no_signal_ret.
Definition wait_for_completion_killable_timeout (timeout : Z) : wait_call :=
  mkCall (s32 timeout) TASK_KILLABLE (fun t => t).
Definition wait_for_common (wait x : nat) (c : wait_call) (w : wst) : wait_result * wst :=
  do_wait_for_common wait x (wc_timeout c) (wc_state c) w.

(** try_wait_for_completion(), completion_done() *)
Definition try_wait_for_completion (x : nat) (w : wst) : bool * wst :=
  if negb (c_true (done w x)) then (false, w) else (true, set_done x (u32 (done w x - 1)) w).
Definition completion_done (x : nat) (w : wst) : bool := c_true (done w x).

(** ** sleep_on() *)

(** sleep_on_common(), before and after schedule_timeout(), and its callers *)
Definition sleep_on_common (wait : nat) (q : wq_head) (state timeout : Z) (w : wst) : wait_result * wst :=
  let e := mkWait wait 0 (current w) DefaultWake in
  let w := __set_current_state state w in
  (WaitSleep timeout, w <| queues ::= __add_wait_queue q e |>).
Definition sleep_on_common_resume (wait : nat) (q : wq_head) (timeout : Z) (w : wst) : wait_result * wst :=
  (WaitReturn timeout, w <| queues ::= __remove_wait_queue q wait |>).
Definition interruptible_sleep_on (wait : nat) (q : wq_head) : wst -> wait_result * wst :=
  sleep_on_common wait q TASK_INTERRUPTIBLE MAX_SCHEDULE_TIMEOUT.
Definition interruptible_sleep_on_timeout (wait : nat) (q : wq_head) (timeout : Z) : wst -> wait_result * wst :=
  sleep_on_common wait q TASK_INTERRUPTIBLE timeout.
Definition sleep_on (wait : nat) (q : wq_head) : wst -> wait_result * wst :=
  sleep_on_common wait q TASK_UNINTERRUPTIBLE MAX_SCHEDULE_TIMEOUT.
Definition sleep_on_timeout (wait : nat) (q : wq_head) (timeout : Z) : wst -> wait_result * wst :=
  sleep_on_common wait q TASK_UNINTERRUPTIBLE timeout.
End wait.
