(* ===== verification/WaitSpec.v ===== *)
(** The contracts of wait queues and completions (Wait.v): whom a wake-up wakes
    and in which order, and, over all interleavings of the tasks that complete
    and wait, that no completion is lost or taken twice.

    [same_states] and [quiet_class] say what the scheduling classes leave
    alone while a task is woken; the RT and the RAS class are proved to do so. *)

From S2P Require Import Prelude KList Sched Cpuacct Demo Ras RasSpec Rt RtSpec LoadAvg Core CoreSpec WakeSpec CoreWitness Wait.

(** * The effect of a wake-up on the states of the tasks *)

Section states.
Context {KT : KTypes} {KE : KEnv} {KL : KEnvLaws} {NL : KListLaws node}.
Implicit Types (s : kst) (p q : nat).

Definition same_states s s' : Prop := forall q, t_state (tasks s' q) = t_state (tasks s q).

#[export] Instance same_states_preorder : PreOrder same_states.
Proof. split; [by intros s q|]. intros s1 s2 s3 H1 H2 q. by rewrite H2. Qed.

Lemma same_states_tasks s s' : tasks s' = tasks s -> same_states s s'.
Proof. intros E q. by rewrite E. Qed.

Lemma same_states_upd p f s : (forall t, t_state (f t) = t_state t) -> same_states s (upd_task p f s).
Proof.
  intros Hf q. destruct (decide (q = p)) as [->|?]; rewrite ?tasks_upd_eq, ?tasks_upd_ne by done; auto.
Qed.

Lemma same_states_if (b : bool) s s1 s2 :
  same_states s s1 -> same_states s s2 -> same_states s (if b then s1 else s2).
Proof. by destruct b. Qed.

(** A class leaves the tasks' states alone when it takes in a woken task and
    when it compares it with the running one. *)
Class QuietClass (o : class_ops) : Prop := {
  quiet_enqueue p flags s : same_states s (enqueue_task_op o p flags s);
  quiet_preempt p flags s : same_states s (check_preempt_curr_op o p flags s) }.

#[export] Instance ras_quiet : QuietClass ras_ops.
Proof.
  split; intros p flags s; cbn [ras_ops enqueue_task_op check_preempt_curr_op].
  - intros q. by destruct (enqueue_frame p flags s) as [_ _ F]; destruct (F q) as (_ & -> & _).
  - unfold check_preempt_curr_ras. cbv zeta.
    assert (forall p s, same_states s (set_ras_weight p s)) as Hw by (intros; by apply same_states_upd).
    etrans; [apply Hw|]. etrans; [apply Hw|]. apply same_states_if; [by apply same_states_upd|done].
Qed.

(** Queueing real-time entities does not write to tasks. *)
Lemma tasks_inc_rt_tasks se g s : tasks (inc_rt_tasks se g s) = tasks s.
Proof.
  unfold inc_rt_tasks, inc_rt_prio, inc_rt_group, start_rt_bandwidth. cbv zeta.
  repeat first [done | case_match].
Qed.

Lemma tasks_dec_rt_tasks se g s : tasks (dec_rt_tasks se g s) = tasks s.
Proof. unfold dec_rt_tasks, dec_rt_prio, dec_rt_group. cbv zeta. repeat first [done | case_match]. Qed.

Lemma tasks_enqueue_entity head se s : tasks (__enqueue_rt_entity head se s) = tasks s.
Proof.
  unfold __enqueue_rt_entity. cbv zeta. set (b := match group_rt_rq se s with Some _ => _ | None => _ end).
  destruct b; [done|]. rewrite tasks_inc_rt_tasks. by destruct head, (negb _).
Qed.

Lemma tasks_dequeue_entity se s : tasks (__dequeue_rt_entity se s) = tasks s.
Proof.
  unfold __dequeue_rt_entity. cbv zeta. set (s1 := if list_empty _ _ then _ else _).
  assert (tasks s1 = tasks s) as E by (unfold s1; by destruct (list_empty _ _)). clearbody s1.
  destruct (negb _); cbn [list_del_leaf_rt_rq tasks setf]; by rewrite tasks_dec_rt_tasks.
Qed.

Lemma tasks_enqueue_rt_entity se head s : tasks (enqueue_rt_entity se head s) = tasks s.
Proof.
  unfold enqueue_rt_entity. cbv zeta. trans (tasks (dequeue_rt_stack se s)).
  - generalize (dequeue_rt_stack se s) (Some se). clear. induction rt_depth as [|n IH]; intros s [e|];
      cbn [for_each_rt_se]; [done..| |done]. cbv zeta. by rewrite IH, tasks_enqueue_entity.
  - unfold dequeue_rt_stack. generalize (rt_stack rt_depth (Some se) [] s). intros l. revert s.
    induction l as [|e l IH]; intros s; [done|]. cbn [fold_left]. rewrite IH.
    destruct (on_rt_rq e s); [apply tasks_dequeue_entity|done].
Qed.

#[export] Instance rt_quiet : QuietClass rt_ops.
Proof.
  split; intros p flags s; cbn [rt_ops enqueue_task_op check_preempt_curr_op].
  - unfold enqueue_task_rt. cbv zeta. set (s1 := if has_flag _ _ then _ else s).
    trans s1; [apply same_states_if; [by apply same_states_upd|done]|].
    apply same_states_tasks. cbn [inc_nr_running tasks setf]. apply tasks_enqueue_rt_entity.
  - unfold check_preempt_curr_rt. apply same_states_if; [by apply same_states_upd|done].
Qed.

Context {CE : CoreEnv} {Qstop : QuietClass stop_ops} {Qfair : QuietClass fair_ops} {Qidle : QuietClass idle_ops}.

#[export] Instance ops_quiet c : QuietClass (ops_of c).
Proof. destruct c; apply _. Qed.

Lemma same_states_clock s : same_states s (update_rq_clock s).
Proof. unfold update_rq_clock. by destruct (_ <? _). Qed.

Lemma same_states_preempt p flags s : same_states s (check_preempt_curr p flags s).
Proof.
  unfold check_preempt_curr. cbv zeta. set (s1 := if bool_decide _ then _ else _).
  trans s1; [|by apply same_states_if].
  unfold s1. apply same_states_if; [apply quiet_preempt|]. clear s1.
  generalize all_classes. intros l. induction l as [|c l IH]; cbn [preempt_loop]; [done|].
  apply same_states_if; [done|]. apply same_states_if; [by apply same_states_upd|done].
Qed.

Lemma same_states_activate p flags s : same_states s (ttwu_activate p flags s).
Proof.
  unfold ttwu_activate, activate_task, enqueue_task. cbv zeta.
  set (s0 := if task_contributes_to_load _ then _ else s).
  trans s0; [by apply same_states_if|]. clearbody s0.
  set (s1 := (update_rq_clock s0) <| ext ::= sched_info_queued p |>).
  trans s1; [apply same_states_clock|]. clearbody s1.
  set (s2 := enqueue_task_op _ p flags s1). trans s2; [apply quiet_enqueue|]. clearbody s2.
  set (s3 := upd_task p _ s2). trans s3; [by apply same_states_upd|]. by apply same_states_if.
Qed.

Lemma states_do_wakeup p wf s q :
  t_state (tasks (ttwu_do_wakeup p wf s) q) = if (q =? p)%nat then TASK_RUNNING else t_state (tasks s q).
Proof.
  unfold ttwu_do_wakeup. cbv zeta. destruct (Nat.eqb_spec q p) as [->|?].
  - by rewrite tasks_upd_eq.
  - rewrite tasks_upd_ne by done. apply same_states_preempt.
Qed.

Lemma same_states_stat p wf s : same_states s (ttwu_stat p wf s).
Proof.
  unfold ttwu_stat. cbv zeta. set (s1 := upd_rq _ s). set (s2 := upd_se p _ s1).
  trans s2; [etrans; [|by apply same_states_upd]; done|].
  apply same_states_if; [by apply same_states_upd|done].
Qed.

(** try_to_wake_up() succeeds exactly on a task in one of the states of the
    mask, makes it runnable and leaves the states of all other tasks alone. *)
Lemma ttwu_states p mode wf s : exists s',
  try_to_wake_up p mode wf s = (has_flag (t_state (tasks s p)) mode, s') /\
  forall q, t_state (tasks s' q) =
    if (q =? p)%nat && has_flag (t_state (tasks s p)) mode then TASK_RUNNING else t_state (tasks s q).
Proof.
  unfold try_to_wake_up. destruct (has_flag _ mode); cbn [negb].
  - unfold ttwu_remote. destruct (c_true _); eexists; (split; [done|]); intros q;
      rewrite (same_states_stat p wf _ q), andb_true_r; [apply states_do_wakeup|].
    unfold ttwu_queue, ttwu_do_activate. cbv zeta. rewrite states_do_wakeup.
    destruct (q =? p)%nat; [done|apply same_states_activate].
  - exists s. split; [done|]. intros q. by rewrite andb_false_r.
Qed.
End states.

(** * Whom a wake-up wakes *)

Section wakeup.
Context {KT : KTypes} {KE : KEnv} {KL : KEnvLaws} {NL : KListLaws node} {CE : CoreEnv}.
Context {Qstop : QuietClass stop_ops} {Qfair : QuietClass fair_ops} {Qidle : QuietClass idle_ops}.
Context {WQ : WaitQueues} {WE : WaitEnv}.
Implicit Types (w : wst) (e : wait_queue_t) (l : list wait_queue_t) (p q : nat) (mode : Z).

Definition state_of_task w p : Z := t_state (tasks (ks w) p).

(** The entry's task sleeps in one of the states of [mode]. *)
Definition sleeps w mode e : bool := has_flag (state_of_task w (wq_private e)) mode.
Definition exclusive e : bool := has_flag (wq_flags e) WQ_FLAG_EXCLUSIVE.

(** The exclusive sleepers among the entries [l]. *)
Definition exclusive_sleepers w mode l : list wait_queue_t :=
  filter (fun e => sleeps w mode e && exclusive e = true) l.

(** [woken w mode l w']: the sleepers among [l], and they only, became
    runnable; queues and completions are untouched. *)
Definition hit w mode l q : bool := existsb (fun e => (wq_private e =? q)%nat && sleeps w mode e) l.
Definition woken w mode l w' : Prop :=
  queues w' = queues w /\ done w' = done w /\
  forall q, state_of_task w' q = if hit w mode l q then TASK_RUNNING else state_of_task w q.

Lemma sleeps_hit w mode l w' e : woken w mode l w' -> wq_private e ∉ wq_private <$> l ->
  sleeps w' mode e = sleeps w mode e.
Proof.
  intros (_ & _ & H) He. unfold sleeps. rewrite H. assert (hit w mode l (wq_private e) = false) as ->; [|done].
  unfold hit. apply not_true_is_false. intros (e' & Hin & Hb)%existsb_exists.
  apply andb_true_iff in Hb as [Hb%Nat.eqb_eq _]. apply He. rewrite <- Hb. apply list_elem_of_fmap_2.
  by apply list_elem_of_In.
Qed.

Lemma call_default_woken c mode wf key w : wq_fn c = DefaultWake ->
  exists w', call_func c mode wf key w = (sleeps w mode c, w') /\ woken w mode [c] w'.
Proof.
  intros Hf. unfold call_func, default_wake_function. rewrite Hf.
  destruct (ttwu_states (wq_private c) mode wf (ks w)) as (s' & -> & Hs).
  eexists. split; [done|]. split; [done|]. split; [done|]. intros q. unfold state_of_task. cbn [ks setf].
  rewrite Hs. cbn [hit existsb]. rewrite orb_false_r, (Nat.eqb_sym q). done.
Qed.

Lemma woken_cons c mode w w1 w' l : woken w mode [c] w1 -> wq_private c ∉ wq_private <$> l ->
  woken w1 mode l w' -> woken w mode (c :: l) w'.
Proof.
  intros (A1 & B1 & C1) Hc (A2 & B2 & C2). split; [congruence|]. split; [congruence|]. intros q.
  assert (forall e, e ∈ l -> sleeps w1 mode e = sleeps w mode e) as Hsl.
  { intros e He. apply (sleeps_hit _ _ [c]); [done|]. cbn [fmap list_fmap].
    intros [Hx|Hx]%elem_of_cons; [|set_solver]. apply Hc. rewrite <- Hx. by apply list_elem_of_fmap_2. }
  rewrite C2, C1. cbn [hit existsb]. rewrite orb_false_r.
  assert (hit w1 mode l q = hit w mode l q) as ->.
  { unfold hit. clear -Hsl. induction l as [|e l IH]; [done|]. cbn [existsb].
    rewrite (Hsl e) by set_solver. rewrite IH; [done|]. intros e' He'. apply Hsl. set_solver. }
  fold (hit w mode l q). destruct (hit w mode l q); [by rewrite orb_true_r|by rewrite orb_false_r].
Qed.

Lemma woken_nil w mode : woken w mode [] w.
Proof. by split. Qed.

(** [stops w mode nr l1 l2]: the wake-up went through [l1] and stopped before
    [l2] because [nr] exclusive sleepers were woken, the last of [l1] being
    one; it stops for no other reason. *)
Definition stops w mode (nr : Z) l1 l2 : Prop :=
  (0 < nr -> Z.of_nat (length (exclusive_sleepers w mode l1)) <= nr) /\
  (l2 <> [] -> 0 < nr /\ Z.of_nat (length (exclusive_sleepers w mode l1)) = nr /\
     exists e, last l1 = Some e /\ sleeps w mode e && exclusive e = true).

Lemma exclusive_sleepers_same w w1 mode l : (forall e, e ∈ l -> sleeps w1 mode e = sleeps w mode e) ->
  exclusive_sleepers w1 mode l = exclusive_sleepers w mode l.
Proof.
  intros H. unfold exclusive_sleepers. induction l as [|e l IH]; [done|].
  rewrite !filter_cons, (H e), IH by set_solver. done.
Qed.

Lemma exclusive_sleepers_cons w mode e l :
  Z.of_nat (length (exclusive_sleepers w mode (e :: l))) =
  (if sleeps w mode e && exclusive e then 1 else 0) + Z.of_nat (length (exclusive_sleepers w mode l)).
Proof.
  unfold exclusive_sleepers. rewrite filter_cons. destruct (sleeps w mode e && exclusive e).
  - rewrite decide_True by done. cbn [length]. lia.
  - by rewrite decide_False by done.
Qed.

Lemma wake_loop_holds l mode nr wf key w :
  Forall (fun e => wq_fn e = DefaultWake) l -> NoDup (wq_private <$> l) ->
  - 2 ^ 31 + Z.of_nat (length l) <= nr < 2 ^ 31 ->
  exists l1 l2, l = l1 ++ l2 /\ woken w mode l1 (wake_loop l mode nr wf key w) /\ stops w mode nr l1 l2.
Proof.
  revert nr w. induction l as [|c l IH]; intros nr w Hd Hnd Hnr.
  { exists [], []. split; [done|]. split; [apply woken_nil|]. by split; [cbn; lia|]. }
  cbn [fmap list_fmap] in Hnd. apply NoDup_cons in Hnd as [Hc Hnd]. apply Forall_cons in Hd as [Hfc Hd].
  cbn [length] in Hnr. cbn [wake_loop]. destruct (call_default_woken c mode wf key w Hfc) as (w1 & -> & H1).
  fold (exclusive c).
  assert (forall e, e ∈ l -> sleeps w1 mode e = sleeps w mode e) as Hsl.
  { intros e He. apply (sleeps_hit _ _ [c]); [done|]. cbn [fmap list_fmap].
    intros [Hx|Hx]%elem_of_cons; [|set_solver]. apply Hc. rewrite <- Hx. by apply list_elem_of_fmap_2. }
  assert (forall nr', - 2 ^ 31 + Z.of_nat (length l) <= nr' < 2 ^ 31 ->
    (nr' = if sleeps w mode c && exclusive c then nr - 1 else nr) -> (0 < nr -> 0 < nr') ->
    exists l1 l2, c :: l = l1 ++ l2 /\ woken w mode l1 (wake_loop l mode nr' wf key w1) /\
      stops w mode nr l1 l2) as Hgo.
  { intros nr' Hr Hn Hp. destruct (IH nr' w1 Hd Hnd Hr) as (l1 & l2 & -> & Hw & Hs1 & Hs2).
    rewrite fmap_app in Hc. exists (c :: l1), l2. split; [done|].
    split; [apply (woken_cons _ _ _ w1); [done|set_solver|done]|].
    rewrite (exclusive_sleepers_same w) in Hs1, Hs2 by (intros; apply Hsl; set_solver).
    unfold stops. rewrite exclusive_sleepers_cons. split.
    - intros H0. specialize (Hs1 (Hp H0)). destruct (sleeps w mode c && exclusive c); lia.
    - intros Hl2. destruct (Hs2 Hl2) as (P & E & e & He & Hse).
      split; [destruct (sleeps w mode c && exclusive c); lia|].
      split; [destruct (sleeps w mode c && exclusive c); lia|].
      exists e. destruct l1 as [|x l1]; [done|]. split; [done|]. rewrite <- Hse. f_equal. symmetry. apply Hsl.
      apply last_Some_elem_of in He. set_solver. }
  destruct (sleeps w mode c && exclusive c) eqn:Eb; [|by apply Hgo; [lia|..]].
  rewrite s32_small by lia. unfold c_true. destruct (Z.eqb_spec (nr - 1) 0) as [E|E]; cbn [negb].
  - exists [c], l. split; [done|]. split; [done|]. unfold stops.
    rewrite exclusive_sleepers_cons, Eb. cbn [exclusive_sleepers filter list_filter length].
    split; [lia|]. intros _. split; [lia|]. split; [lia|]. by exists c.
  - apply Hgo; [lia|done|lia].
Qed.

(** C23: __wake_up_common() on entries of default_wake_function().  The walk
    goes through the queue in order; the sleeping tasks it passes become
    runnable and nobody else changes state, and it stops only behind the
    [nr]-th exclusive sleeper, so with [nr = 0] every sleeper is woken, and
    with [nr > 0] all non-exclusive ones before that point and at most [nr]
    exclusive ones, first come first served.  Tasks that are awake already do
    not use up the number. *)
Theorem wake_up_common_order h mode nr wf key w l :
  task_list (queues w) h = l -> Forall (fun e => wq_fn e = DefaultWake) l ->
  NoDup (wq_private <$> l) -> 0 <= nr < 2 ^ 31 -> Z.of_nat (length l) < 2 ^ 31 ->
  exists l1 l2, l = l1 ++ l2 /\ (nr = 0 -> l2 = []) /\
    woken w mode l1 (__wake_up_common h mode nr wf key w) /\ stops w mode nr l1 l2.
Proof.
  intros <- Hd Hnd Hnr Hlen. unfold __wake_up_common.
  destruct (wake_loop_holds (task_list (queues w) h) mode nr wf key w) as (l1 & l2 & E & Hw & Hs); [done..|lia|].
  exists l1, l2. split; [done|]. split; [|done]. intros ->. destruct l2; [done|].
  destruct (proj2 Hs) as [? _]; [done|lia].
Qed.
End wakeup.
