(* ===== verification/SetschedSpec.v ===== *)
(** sched_setscheduler() decides and changes: when it succeeds, which error it
    returns otherwise, and that a success leaves the task with the policy and the
    priority asked for.

    [same_policy] says what the scheduling classes leave alone while a task
    changes its policy; the RT and the RAS class are proved to do so, for the
    others it is assumed ([KeepsPolicy]). *)

From S2P Require Import Prelude KList Sched Cpuacct Demo Ras RasSpec Rt RtSpec LoadAvg Core CoreSpec WakeSpec PolicySpec CoreWitness Wait WaitSpec.

(** * What the classes leave alone *)

Section frame.
Context {KT : KTypes} {KE : KEnv} {KL : KEnvLaws} {NL : KListLaws node}.
Implicit Types (s : kst) (p q : nat).

Definition policy_view (t : task_struct) :=
  (t_policy t, t_rt_priority t, t_class t, sched_reset_on_fork t, pi_blocked t).
Definition same_policy s s' : Prop := forall q, policy_view (tasks s' q) = policy_view (tasks s q).

#[export] Instance same_policy_preorder : PreOrder same_policy.
Proof. split; [by intros s q|]. intros s1 s2 s3 H1 H2 q. by rewrite H2. Qed.

Lemma same_policy_tasks s s' : tasks s' = tasks s -> same_policy s s'.
Proof. intros E q. by rewrite E. Qed.
Lemma same_policy_upd p f s : (forall t, policy_view (f t) = policy_view t) -> same_policy s (upd_task p f s).
Proof. intros Hf q. destruct (decide (q = p)) as [->|?]; rewrite ?tasks_upd_eq, ?tasks_upd_ne by done; auto. Qed.
Lemma same_policy_if (b : bool) s s1 s2 : same_policy s s1 -> same_policy s s2 -> same_policy s (if b then s1 else s2).
Proof. by destruct b. Qed.
Lemma same_policy_resched p s : same_policy s (resched_task p s).
Proof. by apply same_policy_upd. Qed.

(** What __sched_setscheduler() calls of a class. *)
Class KeepsPolicy (o : class_ops) : Prop := {
  keep_enqueue p flags s : same_policy s (enqueue_task_op o p flags s);
  keep_dequeue p flags s : same_policy s (dequeue_task_op o p flags s);
  keep_put_prev p s : same_policy s (put_prev_task_op o p s);
  keep_set_curr s : same_policy s (set_curr_task_op o s);
  keep_switched_from f p s : switched_from_op o = Some f -> same_policy s (f p s);
  keep_switched_to p s : same_policy s (switched_to_op o p s);
  keep_prio_changed p oldprio s : same_policy s (prio_changed_op o p oldprio s) }.

Lemma same_policy_acct s s' : acct s s' -> same_policy s s'.
Proof. intros [_ H _] q. by rewrite H. Qed.

#[export] Instance ras_keeps : KeepsPolicy ras_ops.
Proof.
  split; cbn [ras_ops enqueue_task_op dequeue_task_op put_prev_task_op set_curr_task_op switched_from_op switched_to_op prio_changed_op].
  - intros p flags s. unfold enqueue_task_ras. cbv zeta. set (gp := task_group_path _ _).
    trans (set_ras_weight p s); [by apply same_policy_upd|]. set (s1 := set_ras_weight p s). clearbody s1.
    trans (set_ras_slice gp p s1); [unfold set_ras_slice; cbv zeta; repeat case_match; by apply same_policy_upd|].
    set (s2 := set_ras_slice gp p s1). clearbody s2. set (s3 := if has_flag flags ENQUEUE_WAKEUP then _ else s2).
    trans s3; [apply same_policy_if; [by apply same_policy_upd|done]|]. clearbody s3.
    apply same_policy_tasks. by destruct (has_flag flags ENQUEUE_HEAD).
  - intros p flags s. trans (update_curr_ras s); [apply same_policy_acct, update_curr_ras_acct|].
    unfold dequeue_task_ras. cbv zeta. apply same_policy_tasks. by destruct (on_ras_rq p _).
  - intros p s. trans (update_curr_ras s); [apply same_policy_acct, update_curr_ras_acct|].
    unfold put_prev_task_ras. cbv zeta. apply same_policy_tasks. by destruct (on_ras_rq p _).
  - intros s. by apply same_policy_upd.
  - done.
  - intros p s. unfold switched_to_ras. by apply same_policy_if; [apply same_policy_resched|].
  - done.
Qed.

(** Walking up the real-time entities. *)
Lemma for_each_keeps (f : rtse -> kst -> kst) n e s : (forall e s, same_policy s (f e s)) -> same_policy s (for_each_rt_se n e f s).
Proof.
  intros Hf. revert e s. induction n as [|n IH]; intros [e|] s; cbn [for_each_rt_se]; try done.
  cbv zeta. etrans; [apply (Hf e)|]. apply IH.
Qed.
Lemma tasks_dequeue_rt_stack se s : tasks (dequeue_rt_stack se s) = tasks s.
Proof.
  unfold dequeue_rt_stack. generalize (rt_stack rt_depth (Some se) [] s). intros l. revert s.
  induction l as [|e l IH]; intros s; [done|]. cbn [fold_left]. rewrite IH.
  destruct (on_rt_rq e s); [apply tasks_dequeue_entity|done].
Qed.
Lemma keeps_dequeue_rt_entity se s : same_policy s (dequeue_rt_entity se s).
Proof.
  unfold dequeue_rt_entity. cbv zeta. etrans; [apply same_policy_tasks, (tasks_dequeue_rt_stack se)|].
  apply for_each_keeps. intros e s1. destruct (group_rt_rq e s1); [|done].
  apply same_policy_if; [apply same_policy_tasks, tasks_enqueue_entity|done].
Qed.
Lemma keeps_exceeded g s : same_policy s (sched_rt_runtime_exceeded g s).2.
Proof.
  unfold sched_rt_runtime_exceeded. cbv zeta.
  destruct (c_true (rt_throttled (rt_rqs s g))); [done|]. destruct (sched_rt_period g s <=? sched_rt_runtime g s); [done|].
  destruct (sched_rt_runtime g s =? RUNTIME_INF); [done|]. destruct (sched_rt_runtime g s <? rt_time (rt_rqs s g)); [|done].
  set (s1 := if c_true (rtb_runtime _) then _ else _).
  assert (same_policy s s1) as K by (unfold s1; by apply same_policy_if). clearbody s1.
  destruct (rt_rq_throttled g s1); [|done]. cbn [snd]. trans s1; [done|].
  unfold sched_rt_rq_dequeue. destruct (group_entity g s1); [|done].
  apply same_policy_if; [apply keeps_dequeue_rt_entity|done].
Qed.
Lemma keeps_update_curr_rt s : same_policy s (update_curr_rt s).
Proof.
  unfold update_curr_rt. cbv zeta. destruct (negb (bool_decide _)); [done|]. set (d := if s64 _ <? 0 then _ else _). clearbody d.
  set (s1 := upd_se _ _ s). trans s1; [by apply same_policy_upd|]. clearbody s1.
  set (s2 := upd_se _ _ s1). trans s2; [by apply same_policy_upd|]. clearbody s2.
  set (s3 := s2 <| ext ::= _ |>). trans s3; [done|]. clearbody s3.
  set (s4 := upd_se _ _ s3). trans s4; [by apply same_policy_upd|]. clearbody s4.
  set (s5 := cpuacct_charge _ _ s4). trans s5.
  { unfold s5. match goal with |- context [cpuacct_charge ?c ?d ?x] => destruct (charge_frame c d x) as [f ->] end. done. }
  clearbody s5. apply same_policy_if; [done|]. apply for_each_keeps. intros e s6. unfold rt_charge. cbv zeta.
  destruct (negb _); [|done]. set (s7 := upd_rt_rq _ _ s6). trans s7; [done|]. clearbody s7.
  pose proof (keeps_exceeded (rt_rq_of_se e s6) s7) as H.
  destruct (sched_rt_runtime_exceeded _ s7) as [[|] s8]; [|done]. cbn [snd] in H. trans s8; [done|apply same_policy_resched].
Qed.

#[export] Instance rt_keeps : KeepsPolicy rt_ops.
Proof.
  split; cbn [rt_ops enqueue_task_op dequeue_task_op put_prev_task_op set_curr_task_op switched_from_op switched_to_op prio_changed_op].
  - intros p flags s. unfold enqueue_task_rt. cbv zeta. set (s1 := if has_flag _ _ then _ else s).
    trans s1; [apply same_policy_if; [by apply same_policy_upd|done]|].
    apply same_policy_tasks. cbn [inc_nr_running tasks setf]. apply tasks_enqueue_rt_entity.
  - intros p flags s. unfold dequeue_task_rt. cbv zeta. etrans; [apply keeps_update_curr_rt|].
    etrans; [apply (keeps_dequeue_rt_entity (TaskSe p))|]. done.
  - intros p s. apply keeps_update_curr_rt.
  - intros s. by apply same_policy_upd.
  - done.
  - intros p s. unfold switched_to_rt. apply same_policy_if; [|done]. by apply same_policy_if; [apply same_policy_resched|].
  - intros p o s. unfold prio_changed_rt. repeat apply same_policy_if; try done; apply same_policy_resched.
Qed.
End frame.

(** * The change *)

Section setscheduler.
Context {KT : KTypes} {KE : KEnv} {KL : KEnvLaws} {NL : KListLaws node} {CE : CoreEnv} {CL : CoreLaws}.
Context {Kstop : KeepsPolicy stop_ops} {Kfair : KeepsPolicy fair_ops} {Kidle : KeepsPolicy idle_ops}.
Implicit Types (s : kst) (p : nat).

#[export] Instance ops_keep c : KeepsPolicy (ops_of c).
Proof. destruct c; apply _. Qed.

Lemma keeps_clock s : same_policy s (update_rq_clock s).
Proof. unfold update_rq_clock. by destruct (_ <? _). Qed.
Lemma keeps_enqueue p flags s : same_policy s (enqueue_task p flags s).
Proof.
  unfold enqueue_task. cbv zeta. etrans; [apply keeps_clock|]. set (s1 := (update_rq_clock s) <| ext ::= _ |>).
  trans s1; [done|]. apply keep_enqueue.
Qed.
Lemma keeps_dequeue p flags s : same_policy s (dequeue_task p flags s).
Proof.
  unfold dequeue_task. cbv zeta. etrans; [apply keeps_clock|]. set (s1 := (update_rq_clock s) <| ext ::= _ |>).
  trans s1; [done|]. apply keep_dequeue.
Qed.
Lemma keeps_class_changed p k oldprio s : same_policy s (check_class_changed p k oldprio s).
Proof.
  unfold check_class_changed, class_of. destruct (negb (bool_decide _)); [|destruct (negb _); [apply keep_prio_changed|done]].
  cbv zeta. destruct (switched_from_op (ops_of k)) as [f|] eqn:E; [|apply keep_switched_to].
  etrans; [by eapply keep_switched_from|]. apply keep_switched_to.
Qed.

Lemma load_weight_view p s : policy_view (tasks (set_load_weight p s) p) = policy_view (tasks s p) /\
  t_prio (tasks (set_load_weight p s) p) = t_prio (tasks s p).
Proof. unfold set_load_weight, upd_se. cbv zeta. case_match; by rewrite tasks_upd_eq. Qed.

(** What __setscheduler() writes. *)
Lemma setscheduler_view p policy prio s :
  let t := tasks (__setscheduler p policy prio s) p in
  t_policy t = policy /\ t_rt_priority t = prio /\ sched_reset_on_fork t = sched_reset_on_fork (tasks s p) /\
  pi_blocked t = pi_blocked (tasks s p) /\
  t_class t = if policy =? SCHED_RAS then ras_class else if rt_prio (t_prio t) then rt_class else fair_class.
Proof.
  unfold __setscheduler. cbv zeta. set (s1 := upd_task p (fun t => t <| t_policy := policy |>) s).
  set (s2 := upd_task p (fun t => t <| t_rt_priority := prio |>) s1). set (np := normal_prio _). clearbody np.
  set (s3 := upd_task p _ s2). set (pr := rt_mutex_getprio p s3). clearbody pr. set (s4 := upd_task p _ s3).
  assert (exists k, policy_view (tasks s4 p) = (policy, prio, k, sched_reset_on_fork (tasks s p), pi_blocked (tasks s p))) as [k E4].
  { eexists. unfold s4, s3, s2, s1. by rewrite !tasks_upd_eq. }
  clearbody s4. set (s5 := if policy =? SCHED_RAS then _ else _).
  assert (policy_view (tasks s5 p) = (policy, prio, if policy =? SCHED_RAS then ras_class else if rt_prio (t_prio (tasks s5 p)) then rt_class else fair_class,
    sched_reset_on_fork (tasks s p), pi_blocked (tasks s p))) as E5.
  { injection E4 as E1 E2 _ E3 E5. unfold s5. destruct (policy =? SCHED_RAS); [|destruct (rt_prio (t_prio (tasks s4 p))) eqn:E];
      rewrite tasks_upd_eq; unfold policy_view; cbn; rewrite ?E; congruence. }
  clearbody s5. destruct (load_weight_view p s5) as [E6 E7]. rewrite E5 in E6. injection E6 as F1 F2 F3 F4 F5. rewrite E7. by split_and!.
Qed.

(** The whole change: [running] and [on_rq] or not, the task ends with what
    __setscheduler() wrote. *)
Lemma change_policy_view p policy prio reset s : pi_blocked (tasks s p) = false ->
  let t := tasks (change_policy p policy prio reset s) p in
  t_policy t = policy /\ t_rt_priority t = prio /\ sched_reset_on_fork t = of_bool reset /\
  (policy = SCHED_RAS -> t_class t = ras_class) /\ (policy <> SCHED_RAS -> t_class t = rt_class \/ t_class t = fair_class).
Proof.
  intros Hpi. unfold change_policy. cbv zeta. set (b1 := c_true (t_on_rq (tasks s p))). set (b2 := task_current s p). clearbody b1 b2.
  set (s1 := if b1 then dequeue_task p 0 s else s).
  assert (same_policy s s1) as H1 by (apply same_policy_if; [apply keeps_dequeue|done]). clearbody s1.
  set (s2 := if b2 then put_prev_task_op (class_of p s1) p s1 else s1).
  assert (same_policy s s2) as H2 by (trans s1; [done|]; apply same_policy_if; [apply keep_put_prev|done]). clearbody s2.
  set (s3 := upd_task p _ s2).
  assert (pi_blocked (tasks s3 p) = false /\ sched_reset_on_fork (tasks s3 p) = of_bool reset) as [B3 R3].
  { unfold s3. rewrite tasks_upd_eq. specialize (H2 p). injection H2 as _ _ _ _ Hb. cbn. by rewrite Hb. }
  clearbody s3. pose proof (setscheduler_view p policy prio s3) as V. set (s4 := __setscheduler p policy prio s3) in *.
  destruct V as (V1 & V2 & V3 & V4 & V5). clearbody s4.
  set (s5 := if b2 then set_curr_task_op (class_of p s4) s4 else s4).
  assert (same_policy s4 s5) as H5 by (apply same_policy_if; [apply keep_set_curr|done]). clearbody s5.
  set (s6 := if b1 then enqueue_task p 0 s5 else s5).
  assert (same_policy s4 s6) as H6 by (trans s5; [done|]; apply same_policy_if; [apply keeps_enqueue|done]). clearbody s6.
  set (s7 := check_class_changed p _ _ s6).
  assert (same_policy s4 s7) as H7 by (trans s6; [done|]; apply keeps_class_changed). clearbody s7.
  specialize (H7 p). injection H7 as E1 E2 E3 E4 E5. rewrite adjust_pi_unblocked by congruence.
  rewrite E1, E2, E3, E4, V5. split_and!; [done|done|congruence|by intros ->|].
  intros Hne. rewrite (proj2 (Z.eqb_neq _ _)) by done. destruct (rt_prio _); auto.
Qed.

(** * The decision *)

(** The policy and the flag that are asked for: a negative policy keeps both. *)
Definition asked_policy p policy s : Z := if policy <? 0 then t_policy (tasks s p) else Z.ldiff policy SCHED_RESET_ON_FORK.
Definition asked_reset p policy s : bool := if policy <? 0 then c_true (sched_reset_on_fork (tasks s p)) else has_flag policy SCHED_RESET_ON_FORK.

(** The arguments are valid. *)
Definition acceptable p policy prio s : Prop :=
  (policy < 0 \/ valid_policy (asked_policy p policy s) = true) /\
  0 <= prio <= (if bool_decide (t_mm (tasks s p) = None) then MAX_RT_PRIO - 1 else MAX_USER_RT_PRIO - 1) /\
  (rt_policy (asked_policy p policy s) = true <-> prio <> 0).

(** The caller may do it: it has CAP_SYS_NICE, or a real-time policy is within
    its limit, SCHED_IDLE is left only by a task that could raise its nice value
    so far, the owner is the same, and the reset flag is not taken away. *)
Definition permitted p policy prio s : Prop :=
  let t := tasks s p in
  let pol := asked_policy p policy s in
  let limit := task_rlimit t RLIMIT_RTPRIO in
  capable CAP_SYS_NICE (ext s) = true \/
  (rt_policy pol = true -> (pol = t_policy t \/ limit <> 0) /\ (prio <= t_rt_priority t \/ prio <= limit)) /\
  (t_policy t = SCHED_IDLE -> pol = SCHED_IDLE \/ can_nice p (task_nice t) s = true) /\
  check_same_owner p s = true /\
  (c_true (sched_reset_on_fork t) = true -> asked_reset p policy s = true).

(** Nothing would change, and the group gives real-time tasks no time. *)
Definition same_already p policy prio s : Prop :=
  asked_policy p policy s = t_policy (tasks s p) /\
  (rt_policy (asked_policy p policy s) = false \/ prio = t_rt_priority (tasks s p)).
Definition no_runtime p policy s : Prop :=
  rt_bandwidth_enabled s = true /\ rt_policy (asked_policy p policy s) = true /\
  rtb_runtime (tg_rt_bandwidth (tgs s (task_group_of s p))) = 0 /\
  task_group_is_autogroup (task_group_of s p) (ext s) = false.
(** The tests of the code say the same. *)
Definition acceptable_b p policy prio s : bool :=
  negb (negb (policy <? 0) && negb (valid_policy (asked_policy p policy s))) &&
  negb ((prio <? 0) || (bool_decide (t_mm (tasks s p) <> None) && (MAX_USER_RT_PRIO - 1 <? prio)) ||
        (bool_decide (t_mm (tasks s p) = None) && (MAX_RT_PRIO - 1 <? prio))) &&
  Bool.eqb (rt_policy (asked_policy p policy s)) (c_true prio).
Lemma acceptable_iff p policy prio s : acceptable_b p policy prio s = true <-> acceptable p policy prio s.
Proof.
  unfold acceptable_b, acceptable. rewrite !andb_true_iff, !negb_true_iff, eqb_true_iff, andb_false_iff, negb_false_iff.
  assert (c_true prio = true <-> prio <> 0) as E by apply c_true_iff.
  destruct (Z.ltb_spec policy 0), (valid_policy (asked_policy p policy s)), (rt_policy (asked_policy p policy s)), (c_true prio), (t_mm (tasks s p));
    repeat case_bool_decide; try done; cbn [andb orb negb]; rewrite ?orb_false_iff, ?Z.ltb_ge; intuition (try lia; try congruence).
Qed.

Lemma permitted_iff p policy prio s : 0 <= prio < 2 ^ 32 ->
  (if true && negb (capable CAP_SYS_NICE (ext s)) then setscheduler_perm p (asked_policy p policy s) prio (asked_reset p policy s) s else 0) = 0 <->
  permitted p policy prio s.
Proof.
  intros Hp. unfold permitted. cbv zeta. destruct (capable CAP_SYS_NICE (ext s)); cbn [andb negb]; [split; [by left|done]|].
  unfold setscheduler_perm. cbv zeta. rewrite (u32_small prio) by done. set (t := tasks s p). set (pol := asked_policy p policy s).
  set (lim := task_rlimit t RLIMIT_RTPRIO). set (reset := asked_reset p policy s).
  assert (forall a b c d e : bool, (if a then - EPERM else if b then - EPERM else if c then - EPERM else if d then - EPERM else if e then - EPERM else 0) = 0 <->
    (a = false /\ b = false) /\ c = false /\ d = false /\ e = false) as ->.
  { assert (- EPERM <> 0) as Hne by done. intros a b c d e. destruct a, b, c, d, e; (split; [intros H; try done|by intros [[? ?] (? & ? & ?)]]). }
  assert (rt_policy pol && negb (pol =? t_policy t) && (lim =? 0) = false /\ rt_policy pol && (t_rt_priority t <? prio) && (lim <? prio) = false <->
    (rt_policy pol = true -> (pol = t_policy t \/ lim <> 0) /\ (prio <= t_rt_priority t \/ prio <= lim))) as ->.
  { rewrite !andb_false_iff, negb_false_iff, !Z.ltb_ge, Z.eqb_eq, Z.eqb_neq. destruct (rt_policy pol); intuition congruence. }
  assert ((t_policy t =? SCHED_IDLE) && negb (pol =? SCHED_IDLE) && negb (can_nice p (task_nice t) s) = false <->
    (t_policy t = SCHED_IDLE -> pol = SCHED_IDLE \/ can_nice p (task_nice t) s = true)) as ->.
  { rewrite !andb_false_iff, !negb_false_iff, Z.eqb_eq, Z.eqb_neq. destruct (decide (t_policy t = SCHED_IDLE)); tauto. }
  assert (c_true (sched_reset_on_fork t) && negb reset = false <-> (c_true (sched_reset_on_fork t) = true -> reset = true)) as ->
    by (rewrite andb_false_iff, negb_false_iff; destruct (c_true (sched_reset_on_fork t)); intuition congruence).
  rewrite negb_false_iff. split; [intros H; by right|intros [H|H]; done].
Qed.

Lemma same_already_iff p policy prio s : 0 <= prio < 2 ^ 32 ->
  (asked_policy p policy s =? t_policy (tasks s p)) && (negb (rt_policy (asked_policy p policy s)) || (u32 prio =? t_rt_priority (tasks s p))) = true <->
  same_already p policy prio s.
Proof. intros Hp. unfold same_already. rewrite u32_small, andb_true_iff, orb_true_iff, negb_true_iff, !Z.eqb_eq by done. done. Qed.

Lemma no_runtime_iff p policy s :
  true && rt_bandwidth_enabled s && rt_policy (asked_policy p policy s) && (rtb_runtime (tg_rt_bandwidth (tgs s (task_group_of s p))) =? 0) &&
    negb (task_group_is_autogroup (task_group_of s p) (ext s)) = true <-> no_runtime p policy s.
Proof. unfold no_runtime. rewrite !andb_true_iff, negb_true_iff, Z.eqb_eq. tauto. Qed.

(** The decision list of __sched_setscheduler(): the loop over the label recheck
    ends in the first pass. *)
Lemma setscheduler_list p policy prio s : let perm := if true && negb (capable CAP_SYS_NICE (ext s))
    then setscheduler_perm p (asked_policy p policy s) prio (asked_reset p policy s) s else 0 in
  sched_setscheduler p policy prio s =
    if negb (acceptable_b p policy prio s) then (- EINVAL, s)
    else if c_true perm then (perm, s)
    else if c_true (security_task_setscheduler p (ext s)) then (security_task_setscheduler p (ext s), s)
    else if bool_decide (rq_stop (rq s) = Some p) then (- EINVAL, s)
    else if (asked_policy p policy s =? t_policy (tasks s p)) && (negb (rt_policy (asked_policy p policy s)) || (u32 prio =? t_rt_priority (tasks s p)))
    then (0, s)
    else if true && rt_bandwidth_enabled s && rt_policy (asked_policy p policy s) &&
            (rtb_runtime (tg_rt_bandwidth (tgs s (task_group_of s p))) =? 0) && negb (task_group_is_autogroup (task_group_of s p) (ext s))
    then (- EPERM, s)
    else (0, change_policy p (asked_policy p policy s) prio (asked_reset p policy s) s).
Proof.
  cbv zeta. unfold sched_setscheduler. cbn [__sched_setscheduler]. fold (asked_policy p policy s) (asked_reset p policy s).
  unfold acceptable_b. destruct (negb (policy <? 0) && negb (valid_policy _)); [done|].
  destruct ((prio <? 0) || _ || _); [done|]. destruct (Bool.eqb _ _); [|done]. cbn [negb andb].
  destruct (c_true (if negb (capable _ _) then _ else _)); [done|]. destruct (c_true (security_task_setscheduler p (ext s))); [done|].
  case_bool_decide; [done|]. destruct (_ && (_ || (u32 prio =? _))); [done|]. destruct (rt_bandwidth_enabled s && _ && _ && _); [done|].
  destruct (policy <? 0); cbn [negb andb Z.eqb]; rewrite ?Z.eqb_refl, ?andb_false_r; done.
Qed.

(** C18: sched_setscheduler() is all or nothing, and its result is exact.  It returns
    0 exactly when the arguments are valid (a known policy, or a negative one,
    which keeps the old one; a priority of 1 to 99 for FIFO and RR and 0 for the
    others, SCHED_RAS included), the caller is privileged or within its limits
    and of the same owner, the security module agrees, the task is not the stop
    task, and, unless nothing would change, its group has real-time runtime when
    it is to become a real-time task.  Any other call returns EINVAL, EPERM or the
    security module's error and leaves the state as it was.  A call that returns 0
    leaves the state alone if the task has the policy and priority already;
    otherwise it makes exactly one change_policy(), after which the task, when it
    waits for no mutex, has the policy, the priority and the reset flag that were
    asked for, and is in the Race-Averse class exactly when the policy is
    SCHED_RAS, else in the real-time or the fair class, whether it was queued,
    running or asleep. *)
Theorem sched_setscheduler_outcome p policy prio s :
  let pol := asked_policy p policy s in
  let reset := asked_reset p policy s in
  let '(r, s') := sched_setscheduler p policy prio s in
  (r = 0 <-> acceptable p policy prio s /\ permitted p policy prio s /\ security_task_setscheduler p (ext s) = 0 /\
     rq_stop (rq s) <> Some p /\ (same_already p policy prio s \/ ~ no_runtime p policy s)) /\
  (r <> 0 -> s' = s /\ (r = - EINVAL \/ r = - EPERM \/ r = security_task_setscheduler p (ext s))) /\
  (r = 0 -> same_already p policy prio s -> s' = s) /\
  (r = 0 -> ~ same_already p policy prio s -> s' = change_policy p pol prio reset s /\
     (pi_blocked (tasks s p) = false ->
        t_policy (tasks s' p) = pol /\ t_rt_priority (tasks s' p) = prio /\ sched_reset_on_fork (tasks s' p) = of_bool reset /\
        (pol = SCHED_RAS -> t_class (tasks s' p) = ras_class) /\
        (pol <> SCHED_RAS -> t_class (tasks s' p) = rt_class \/ t_class (tasks s' p) = fair_class))).
Proof.
  cbv zeta. rewrite setscheduler_list. cbv zeta.
  destruct (acceptable_b p policy prio s) eqn:Ea; cbn [negb]; [apply acceptable_iff in Ea|
    split_and!; [|by auto|done|done]; rewrite <- acceptable_iff, Ea; by split; [|intros [? _]]].
  assert (0 <= prio < 2 ^ 32) as Hp by (destruct Ea as (_ & H & _); case_bool_decide; unfold MAX_RT_PRIO, MAX_USER_RT_PRIO in *; lia).
  pose proof (permitted_iff p policy prio s Hp) as Hperm. set (perm := if true && _ then _ else 0) in *.
  assert (perm = 0 \/ perm = - EPERM) as [E|E].
  { unfold perm, setscheduler_perm. cbv zeta. repeat case_match; auto. }
  2: { rewrite E in *. cbn [c_true Z.eqb EPERM Z.opp negb]. split_and!; [|by auto|done|done].
       split; [done|]. intros (_ & H & _). by apply Hperm in H. }
  rewrite E, c_true_0. apply Hperm in E.
  destruct (c_true (security_task_setscheduler p (ext s))) eqn:Es.
  { apply c_true_iff in Es. split_and!; [|by auto|done|done]. split; [done|by intros (_ & _ & H & _)]. }
  apply c_true_false in Es. rewrite Es. case_bool_decide as Ht; [split_and!; [|by auto|done|done]; split; [done|tauto]|].
  pose proof (same_already_iff p policy prio s Hp) as Hsame. destruct (_ && (_ || _)).
  { split_and!; [|by auto|done|]; [split; [intros _|done]; split_and!; try done; left; by apply Hsame|]. intros _ H. exfalso. by apply H, Hsame. }
  assert (~ same_already p policy prio s) as Hns by (rewrite <- Hsame; done).
  pose proof (no_runtime_iff p policy s) as Hrun. destruct (true && _ && _ && _ && _).
  { split_and!; [|by auto|done|done]. split; [done|]. intros (_ & _ & _ & _ & [H|H]); [done|]. exfalso. by apply H, Hrun. }
  split_and!; [split; [intros _|done]; split_and!; try done; right; by rewrite <- Hrun|done|done|].
  intros _ _. split; [done|]. intros Hb. by apply change_policy_view.
Qed.
End setscheduler.

(** * An instance *)

Module SetschedDemo.
Import Demo RingLists CoreDemo.

#[export] Instance null_keeps next pick : KeepsPolicy (null_ops next pick).
Proof. by split. Defined.
#[export] Instance demo_stop_keeps : KeepsPolicy stop_ops := null_keeps _ _.
#[export] Instance demo_fair_keeps : KeepsPolicy fair_ops := null_keeps _ _.
#[export] Instance demo_idle_keeps : KeepsPolicy idle_ops := null_keeps _ _.

(** Task 1 runs in the Race-Averse class and is queued; an unprivileged caller of
    the same owner makes it an ordinary task, and the sleeping task 4 of the fair
    class a Race-Averse one. *)
Lemma sched_setscheduler_outcome_witness :
  (let '(r, s') := sched_setscheduler 1 SCHED_NORMAL 0 world_fair in
     r = 0 /\ t_policy (tasks s' 1%nat) = SCHED_NORMAL /\ (t_class (tasks s' 1%nat) = rt_class \/ t_class (tasks s' 1%nat) = fair_class)) /\
  (let '(r, s') := sched_setscheduler 4 SCHED_RAS 0 world_fair in
     r = 0 /\ t_policy (tasks s' 4%nat) = SCHED_RAS /\ t_class (tasks s' 4%nat) = ras_class).
Proof.
  split.
  - pose proof (sched_setscheduler_outcome 1 SCHED_NORMAL 0 world_fair) as H. cbv zeta in H.
    assert ((sched_setscheduler 1 SCHED_NORMAL 0 world_fair).1 = 0) as E by (vm_compute; reflexivity).
    destruct (sched_setscheduler 1 SCHED_NORMAL 0 world_fair) as [r s']. cbn [fst] in E. subst r.
    destruct H as (_ & _ & _ & H). destruct H as [_ H]; [reflexivity|intros [K _]; vm_compute in K; discriminate K|].
    destruct H as (H1 & _ & _ & _ & H2); [vm_compute; reflexivity|].
    split; [reflexivity|]. split; [rewrite H1; reflexivity|]. apply H2. vm_compute. discriminate.
  - pose proof (sched_setscheduler_outcome 4 SCHED_RAS 0 world_fair) as H. cbv zeta in H.
    assert ((sched_setscheduler 4 SCHED_RAS 0 world_fair).1 = 0) as E by (vm_compute; reflexivity).
    destruct (sched_setscheduler 4 SCHED_RAS 0 world_fair) as [r s']. cbn [fst] in E. subst r.
    destruct H as (_ & _ & _ & H). destruct H as [_ H]; [reflexivity|intros [K _]; vm_compute in K; discriminate K|].
    destruct H as (H1 & _ & _ & H2 & _); [vm_compute; reflexivity|].
    split; [reflexivity|]. split; [rewrite H1; reflexivity|]. apply H2. vm_compute. reflexivity.
Defined.
End SetschedDemo.
