(* ===== verification/CompletionSpec.v ===== *)
(** Completions under concurrency (Wait.v).

    [sys] is the kernel with the tasks that sleep in one of the
    wait_for_completion() functions on the completion [x]; [step] is one
    critical section of one task, or any activity of the rest of the kernel.
    Two ghost counters record how often the completion was posted and how often
    a waiter reported success.  The invariant gives: the counter of the
    completion is their difference, and it is never positive while all waiters
    sleep. *)

From S2P Require Import Prelude KList Sched Cpuacct Demo Ras RasSpec Rt RtSpec LoadAvg Core CoreSpec WakeSpec CoreWitness Wait WaitSpec.

(** linux/threads.h: an upper bound of the number of tasks *)
Definition PID_MAX_LIMIT : Z := 4 * 1024 * 1024.

Section completion.
Context {KT : KTypes} {KE : KEnv} {KL : KEnvLaws} {NL : KListLaws node} {CE : CoreEnv}.
Context {Qstop : QuietClass stop_ops} {Qfair : QuietClass fair_ops} {Qidle : QuietClass idle_ops}.
Context {WQ : WaitQueues} {WL : WaitQueueLaws} {WE : WaitEnv}.
Context (x : nat).
Implicit Types (w : wst) (e : wait_queue_t) (l : list wait_queue_t) (p q : nat) (st t : Z).

(** The states the wait functions sleep in. *)
Definition wait_state st : Prop :=
  st = TASK_UNINTERRUPTIBLE \/ st = TASK_INTERRUPTIBLE \/ st = TASK_KILLABLE.

(** ** Counting the waiters that are awake *)

Definition awake w e : bool := state_of_task w (wq_private e) =? TASK_RUNNING.
Definition nr_awake w l : Z := foldr (fun e n => (if awake w e then 1 else 0) + n) 0 l.

(** An entry of do_wait_for_common(), its task awake or asleep. *)
Definition waiting w e : Prop :=
  wq_fn e = DefaultWake /\ exclusive e = true /\
  (state_of_task w (wq_private e) = TASK_RUNNING \/ wait_state (state_of_task w (wq_private e))).

Lemma nr_awake_cons w e l : nr_awake w (e :: l) = (if awake w e then 1 else 0) + nr_awake w l.
Proof. done. Qed.

Lemma nr_awake_app w l1 l2 : nr_awake w (l1 ++ l2) = nr_awake w l1 + nr_awake w l2.
Proof. induction l1 as [|e l1 IH]; [done|]. cbn [app]. rewrite !nr_awake_cons, IH. lia. Qed.

Lemma nr_awake_bounds w l : 0 <= nr_awake w l <= Z.of_nat (length l).
Proof.
  induction l as [|e l IH]; [done|]. rewrite nr_awake_cons. cbn [length]. destruct (awake w e); lia.
Qed.

Lemma waiting_sleeps w e : waiting w e -> sleeps w TASK_NORMAL e && exclusive e = negb (awake w e).
Proof.
  intros (_ & -> & H). unfold sleeps, awake. rewrite andb_true_r.
  destruct H as [->|[->|[->| ->]]]; reflexivity.
Qed.

Lemma awake_or_sleeps w l : Forall (waiting w) l ->
  nr_awake w l + Z.of_nat (length (exclusive_sleepers w TASK_NORMAL l)) = Z.of_nat (length l).
Proof.
  induction 1 as [|e l He Hl IH]; [done|]. rewrite exclusive_sleepers_cons, waiting_sleeps by done.
  rewrite nr_awake_cons. cbn [length]. destruct (awake w e); cbn [negb]; lia.
Qed.

Lemma nr_awake_mono w w' l :
  (forall e, e ∈ l -> awake w e = true -> awake w' e = true) -> nr_awake w l <= nr_awake w' l.
Proof.
  induction l as [|e l IH]; intros H; [done|]. rewrite !nr_awake_cons.
  assert (nr_awake w l <= nr_awake w' l) by (apply IH; set_solver).
  specialize (H e ltac:(set_solver)). destruct (awake w e); [rewrite H by done; lia|]. destruct (awake w' e); lia.
Qed.

(** After a wake-up the tasks passed are awake, the others are as before. *)
Lemma nr_awake_woken w w' l1 l2 : woken w TASK_NORMAL l1 w' -> Forall (waiting w) (l1 ++ l2) ->
  NoDup (wq_private <$> l1 ++ l2) ->
  nr_awake w' (l1 ++ l2) = Z.of_nat (length l1) + nr_awake w l2.
Proof.
  intros Hw Hf Hnd. rewrite nr_awake_app. apply Forall_app in Hf as [Hf _].
  rewrite fmap_app in Hnd. apply NoDup_app in Hnd as (_ & Hd & _). f_equal.
  - assert (forall e, e ∈ l1 -> awake w' e = true) as Ha.
    { intros e He. destruct Hw as (_ & _ & Hw). unfold awake. rewrite Hw. case_match eqn:Eh; [done|].
      rewrite Forall_forall in Hf. pose proof (waiting_sleeps w e (Hf e He)) as Hs.
      destruct (awake w e) eqn:Ea; [done|]. exfalso. apply not_true_iff_false in Eh. apply Eh.
      apply existsb_exists. exists e. split; [by apply list_elem_of_In|].
      rewrite Nat.eqb_refl. apply andb_true_iff in Hs as [-> _]. done. }
    clear -Ha. induction l1 as [|e l IH]; [done|]. rewrite nr_awake_cons.
    cbn [length]. rewrite Ha, IH by set_solver. lia.
  - assert (forall e, e ∈ l2 -> awake w' e = awake w e) as Ha.
    { intros e He. destruct Hw as (_ & _ & Hw). unfold awake. rewrite Hw.
      assert (hit w TASK_NORMAL l1 (wq_private e) = false) as ->; [|done].
      apply not_true_is_false. intros (e' & Hin & Hb)%existsb_exists.
      apply andb_true_iff in Hb as [Hb%Nat.eqb_eq _]. apply (Hd (wq_private e)).
      - rewrite <- Hb. apply list_elem_of_fmap_2. by apply list_elem_of_In.
      - by apply list_elem_of_fmap_2. }
    clear -Ha. induction l2 as [|e l IH]; [done|]. rewrite !nr_awake_cons.
    by rewrite Ha, IH by set_solver.
Qed.

Lemma waiting_woken w w' l l1 : woken w TASK_NORMAL l1 w' -> Forall (waiting w) l -> Forall (waiting w') l.
Proof.
  intros (_ & _ & Hw) Hf. eapply Forall_impl; [exact Hf|]. intros e (A & B & C). split; [done|]. split; [done|].
  rewrite Hw. case_match; [by left|done].
Qed.

(** ** The system *)

Record sys := mkSys {
  sw : wst;
  waiters : gmap nat (Z * Z);              (* asleep: the state and the timeout *)
  posted : Z; taken : Z }.

Definition entries w : list wait_queue_t := task_list (queues w) (WqCompletion x).

(** What becomes of the system when [p] runs a wait function to its next sleep
    or its end: a positive result of wait_for_common() reports a completion. *)
Definition landed (p : nat) st (r : wait_result * wst) (y : sys) : sys :=
  match r.1 with
  | WaitSleep t => mkSys r.2 (<[p := (st, t)]> (waiters y)) (posted y) (taken y)
  | WaitReturn v => mkSys r.2 (delete p (waiters y)) (posted y) (taken y + if 0 <? v then 1 else 0)
  end.

Inductive step (y : sys) : sys -> Prop :=
  | st_complete : step y (mkSys (complete x (sw y)) (waiters y) (posted y + 1) (taken y))
  | st_complete_all :
      step y (mkSys (complete_all x (sw y)) (waiters y) (posted y + UINT_MAX / 2) (taken y))
  | st_try b w' : try_wait_for_completion x (sw y) = (b, w') ->
      step y (mkSys w' (waiters y) (posted y) (taken y + of_bool b))
  | st_wait p c : current (sw y) = p -> waiters y !! p = None -> wait_state (wc_state c) ->
      0 <= wc_timeout c -> Z.of_nat (length (entries (sw y))) < PID_MAX_LIMIT ->
      step y (landed p (wc_state c) (wait_for_common p x c (sw y)) y)
  (* schedule_timeout() returns in a task that is runnable again *)
  | st_resume p st t t' : current (sw y) = p -> waiters y !! p = Some (st, t) ->
      state_of_task (sw y) p = TASK_RUNNING -> 0 <= t' <= t ->
      step y (landed p st (do_wait_for_common_resume p x t' st (sw y)) y)
  (* ticks, switches, signals, timers, other queues: a task that sleeps here
     may be made runnable, and only the task itself changes its state else *)
  | st_other w' : done w' x = done (sw y) x -> entries w' = entries (sw y) ->
      (forall p, is_Some (waiters y !! p) ->
         state_of_task w' p = state_of_task (sw y) p \/ state_of_task w' p = TASK_RUNNING) ->
      step y (mkSys w' (waiters y) (posted y) (taken y)).

(** A new completion: init_completion() empties the queue. *)
Record initial (y : sys) : Prop := {
  in_done : done (sw y) x = 0; in_entries : entries (sw y) = [];
  in_waiters : waiters y = ∅; in_counts : posted y = 0 /\ taken y = 0 }.

Inductive reachable : sys -> Prop :=
  | rb_init y : initial y -> reachable y
  | rb_step y y' : reachable y -> step y y' -> reachable y'.

Record inv (y : sys) : Prop := {
  i_nodup : NoDup (wq_private <$> entries (sw y));
  i_addr : Forall (fun e => wq_addr e = wq_private e) (entries (sw y));
  i_waiting : Forall (waiting (sw y)) (entries (sw y));
  i_dom p : p ∈ wq_private <$> entries (sw y) <-> is_Some (waiters y !! p);
  i_state p st t : waiters y !! p = Some (st, t) -> wait_state st /\ 0 <= t;
  i_len : Z.of_nat (length (entries (sw y))) <= PID_MAX_LIMIT;
  i_count : done (sw y) x = posted y - taken y /\ 0 <= taken y /\ 0 <= done (sw y) x;
  i_awake : Z.min (done (sw y) x) (Z.of_nat (length (entries (sw y)))) <=
            nr_awake (sw y) (entries (sw y)) }.

(** complete_all() posts 2^31 - 1 completions. *)
Lemma all_count : UINT_MAX / 2 = 2147483647.
Proof. done. Qed.

Lemma step_posted y y' : step y y' -> posted y <= posted y'.
Proof.
  intros H. destruct H; cbn [posted]; try lia; [|unfold landed; case_match; cbn [posted]; lia..].
  rewrite all_count. lia.
Qed.

(** A posting that woke the waiters of [l1]. *)
Lemma inv_posted y w' n l1 l2 :
  inv y -> 0 <= n -> posted y + n < 2 ^ 32 -> entries (sw y) = l1 ++ l2 ->
  woken (set_done x (u32 (done (sw y) x + n)) (sw y)) TASK_NORMAL l1 w' ->
  (l2 <> [] -> Z.of_nat (length (exclusive_sleepers (sw y) TASK_NORMAL l1)) = n) ->
  inv (mkSys w' (waiters y) (posted y + n) (taken y)).
Proof.
  intros [A B C D E F (G1 & G2 & G3) H] Hn Hb El Hw Hst.
  assert (entries w' = entries (sw y)) as Ee by (destruct Hw as (Hq & _); unfold entries; by rewrite Hq).
  assert (done w' x = done (sw y) x + n) as Ed.
  { destruct Hw as (_ & Hd & _). rewrite Hd. unfold set_done. cbn [done setf]. rewrite Nat.eqb_refl.
    apply u32_small. lia. }
  split; cbn [sw waiters posted taken]; rewrite ?Ee; try done.
  - by apply (waiting_woken (set_done x (u32 (done (sw y) x + n)) (sw y)) w' _ l1).
  - rewrite Ed. lia.
  - rewrite Ed. rewrite El in *.
    rewrite (nr_awake_woken (set_done x (u32 (done (sw y) x + n)) (sw y)) w' l1 l2) by done.
    change (nr_awake (set_done x (u32 (done (sw y) x + n)) (sw y)) l2) with (nr_awake (sw y) l2).
    pose proof (nr_awake_bounds (sw y) l2). rewrite nr_awake_app in H.
    apply Forall_app in C as [C1 C2]. pose proof (awake_or_sleeps _ _ C1) as Hs1.
    rewrite length_app in *. destruct l2 as [|e l2]; [cbn [length] in *; lia|].
    specialize (Hst ltac:(done)). lia.
Qed.

(** ** A waiter that returns *)

Lemma filter_addr_notin p l : Forall (fun e => wq_addr e = wq_private e) l -> p ∉ wq_private <$> l ->
  filter (fun e => wq_addr e <> p) l = l.
Proof.
  induction 1 as [|e l He Hl IH]; [done|]. cbn [fmap list_fmap]. intros [Hp Hn]%not_elem_of_cons.
  rewrite filter_cons_True by congruence. by rewrite IH.
Qed.

Lemma filter_addr_in p l : Forall (fun e => wq_addr e = wq_private e) l -> NoDup (wq_private <$> l) ->
  p ∈ wq_private <$> l ->
  exists l1 e l2, l = l1 ++ e :: l2 /\ wq_private e = p /\ filter (fun e => wq_addr e <> p) l = l1 ++ l2.
Proof.
  induction 1 as [|e l He Hl IH]; cbn [fmap list_fmap]; [set_solver|].
  intros [Hn Hnd]%NoDup_cons Hp. destruct (decide (wq_private e = p)) as [Ee|Hne].
  - exists [], e, l. split; [done|]. split; [done|]. rewrite filter_cons_False by (intros Hx; congruence).
    apply filter_addr_notin; [done|by rewrite <- Ee].
  - destruct IH as (l1 & e' & l2 & -> & E & Ef); [done|set_solver|]. exists (e :: l1), e', l2.
    split; [done|]. split; [done|]. rewrite filter_cons_True by congruence. by rewrite Ef.
Qed.

(** [w'] is [w] without the entry of [p]; only [p] may be elsewhere. *)
Lemma inv_returned y p w' (k : bool) : inv y ->
  entries w' = filter (fun e => wq_addr e <> p) (entries (sw y)) ->
  (forall q, state_of_task w' q = state_of_task (sw y) q) ->
  (is_Some (waiters y !! p) -> state_of_task (sw y) p = TASK_RUNNING) ->
  done w' x = done (sw y) x - (if k then 1 else 0) ->
  (if k then 0 < done (sw y) x else done (sw y) x = 0) ->
  inv (mkSys w' (delete p (waiters y)) (posted y) (taken y + if k then 1 else 0)).
Proof.
  intros [A B C D E F (G1 & G2 & G3) H] Ee Hst Hrun Hd Hk.
  assert (forall l, nr_awake w' l = nr_awake (sw y) l) as Hna.
  { intros l. induction l as [|e l IH]; [done|]. rewrite !nr_awake_cons, IH. unfold awake. by rewrite Hst. }
  assert (forall l, Forall (waiting (sw y)) l -> Forall (waiting w') l) as Hwt.
  { intros l Hl. eapply Forall_impl; [exact Hl|]. intros e (W1 & W2 & W3). split; [done|]. split; [done|].
    by rewrite Hst. }
  assert (exists l', entries w' = l' /\ NoDup (wq_private <$> l') /\
    Forall (fun e => wq_addr e = wq_private e) l' /\ Forall (waiting (sw y)) l' /\
    (forall q, q ∈ wq_private <$> l' <-> q <> p /\ q ∈ wq_private <$> entries (sw y)) /\
    Z.of_nat (length l') <= PID_MAX_LIMIT /\
    Z.min (done w' x) (Z.of_nat (length l')) <= nr_awake (sw y) l')
    as (l' & El' & L1 & L2 & L3 & L4 & L5 & L6).
  { exists (filter (fun e => wq_addr e <> p) (entries (sw y))). split; [done|]. clear Ee.
    destruct (decide (p ∈ wq_private <$> entries (sw y))) as [Hp|Hp].
    - specialize (Hrun (proj1 (D p) Hp)).
      destruct (filter_addr_in p (entries (sw y))) as (l1 & e & l2 & El & Ep & ->); [done..|].
      rewrite El in *. rewrite fmap_app in A. cbn [fmap list_fmap] in A.
      apply Forall_app in B as [B1 [_ B2]%Forall_cons], C as [C1 [_ C2]%Forall_cons].
      rewrite nr_awake_app, nr_awake_cons in H. unfold awake in H. rewrite Ep, Hrun in H. cbn [Z.eqb TASK_RUNNING] in H.
      rewrite !length_app in *. cbn [length] in *.
      apply NoDup_app in A as (A1 & A2 & [A3 A4]%NoDup_cons).
      split. { rewrite fmap_app. apply NoDup_app. split; [done|]. split; [|done]. intros q Hq. specialize (A2 q Hq). set_solver. }
      split; [by apply Forall_app|]. split; [by apply Forall_app|].
      split. { intros q. rewrite !fmap_app. cbn [fmap list_fmap]. rewrite Ep in *.
        rewrite !elem_of_app, elem_of_cons. specialize (A2 q). split; [|naive_solver].
        intros Hq. split; [|naive_solver]. intros ->. destruct Hq as [Hq|Hq]; [|done]. apply A2 in Hq. set_solver. }
      split; [lia|]. rewrite nr_awake_app.
      pose proof (nr_awake_bounds (sw y) l1). pose proof (nr_awake_bounds (sw y) l2). destruct k; lia.
    - rewrite filter_addr_notin by done. split; [done|]. split; [done|]. split; [done|].
      split; [intros q; split; [|naive_solver]; intros Hq; split; [by intros ->|done]|].
      split; [done|]. destruct k; lia. }
  split; cbn [sw waiters posted taken]; rewrite ?El'.
  - done.
  - done.
  - by apply Hwt.
  - intros q. rewrite L4, D. destruct (decide (q = p)) as [->|Hq].
    + rewrite lookup_delete_eq. split; [by intros []|by intros []].
    + rewrite lookup_delete_ne by done. naive_solver.
  - intros q st t Hq. apply lookup_delete_Some in Hq as [_ Hq]. by apply (E q).
  - done.
  - destruct k; lia.
  - by rewrite Hna.
Qed.

(** ** A waiter that goes (back) to sleep *)

(** [p] is asleep in [st] and has an entry, an old one or a new one. *)
Definition queued y p w' : Prop :=
  (entries w' = entries (sw y) /\ is_Some (waiters y !! p)) \/
  (exists e, entries w' = entries (sw y) ++ [e] /\ waiters y !! p = None /\
     wq_addr e = p /\ wq_private e = p /\ wq_fn e = DefaultWake /\ exclusive e = true /\
     Z.of_nat (length (entries (sw y))) < PID_MAX_LIMIT).

Lemma inv_asleep y p st t w' : inv y -> done (sw y) x = 0 -> done w' x = 0 -> wait_state st -> 0 <= t ->
  (forall q, state_of_task w' q = if (q =? p)%nat then st else state_of_task (sw y) q) ->
  queued y p w' -> inv (mkSys w' (<[p := (st, t)]> (waiters y)) (posted y) (taken y)).
Proof.
  intros [A B C D E F (G1 & G2 & G3) H] Hd Hd' Hws Ht Hst Hq.
  assert (forall e, waiting (sw y) e -> waiting w' e) as Hwt.
  { intros e (W1 & W2 & W3). split; [done|]. split; [done|]. rewrite Hst. case_match; [by right|done]. }
  assert (NoDup (wq_private <$> entries w') /\ Forall (fun e => wq_addr e = wq_private e) (entries w') /\
    Forall (waiting w') (entries w') /\
    (forall q, q ∈ wq_private <$> entries w' <-> q = p \/ q ∈ wq_private <$> entries (sw y)) /\
    Z.of_nat (length (entries w')) <= PID_MAX_LIMIT) as (L1 & L2 & L3 & L4 & L5).
  { destruct Hq as [[-> Hp]|(e & -> & Hp & E1 & E2 & E3 & E4 & E5)].
    - split; [done|]. split; [done|]. split; [by eapply Forall_impl|]. split; [|done].
      intros q. split; [by right|]. intros [->|?]; [by apply D|done].
    - rewrite fmap_app, length_app. cbn [fmap list_fmap length]. rewrite E2. split_and!.
      + apply NoDup_app. split; [done|]. split; [|apply NoDup_singleton].
        intros q Hq%D ->%list_elem_of_singleton. rewrite Hp in Hq. by destruct Hq.
      + apply Forall_app. split; [done|]. apply Forall_singleton. congruence.
      + apply Forall_app. split; [by eapply Forall_impl|]. apply Forall_singleton.
        split; [done|]. split; [done|]. rewrite Hst, E2, Nat.eqb_refl. by right.
      + intros q. rewrite elem_of_app, list_elem_of_singleton. naive_solver.
      + lia. }
  split; cbn [sw waiters posted taken]; try done.
  - intros q. rewrite L4. destruct (decide (q = p)) as [->|Hne].
    + rewrite lookup_insert_eq. split; [by intros|by left].
    + rewrite lookup_insert_ne by done. rewrite <- D. naive_solver.
  - intros q st' t' [[<- [= <- <-]]|[_ Hl]]%lookup_insert_Some; [done|by apply (E q)].
  - lia.
  - rewrite Hd'. pose proof (nr_awake_bounds w' (entries w')). lia.
Qed.

(** ** The steps keep the invariant *)

Lemma state_of_set_state st w q :
  state_of_task (__set_current_state st w) q = if (q =? current w)%nat then st else state_of_task w q.
Proof.
  unfold state_of_task, __set_current_state. cbn [ks setf].
  destruct (Nat.eqb_spec q (current w)) as [->|?]; [by rewrite tasks_upd_eq|by rewrite tasks_upd_ne].
Qed.

Lemma entries_removed p w :
  entries (w <| queues ::= __remove_wait_queue (WqCompletion x) p |>) =
  filter (fun e => wq_addr e <> p) (entries w).
Proof. unfold entries. cbn [queues setf]. by rewrite remove_wait_spec, decide_True. Qed.

Lemma done_set v w : done (set_done x v w) x = v.
Proof. unfold set_done. cbn [done setf]. by rewrite Nat.eqb_refl. Qed.

(** The waiter leaves through the end of do_wait_for_common(). *)
Lemma inv_finish y p st t w : inv y -> done (sw y) x < 2 ^ 32 ->
  w = sw y \/ (exists e, queued y p w /\ entries w = entries (sw y) ++ [e] /\ ks w = ks (sw y) /\
                done w = done (sw y) /\ wq_addr e = p) ->
  (is_Some (waiters y !! p) -> state_of_task (sw y) p = TASK_RUNNING) ->
  (if c_true (done (sw y) x) then 0 <= t else t <= 0) ->
  inv (landed p st (wait_finish p x t w) y).
Proof.
  intros Hi Hb Hw Hrun Ht. pose proof (i_count _ Hi) as (_ & _ & G3).
  assert (entries (w <| queues ::= __remove_wait_queue (WqCompletion x) p |>) =
          filter (fun e => wq_addr e <> p) (entries (sw y))) as Ee.
  { rewrite entries_removed. destruct Hw as [->|(e & _ & -> & _ & _ & Ha)]; [done|].
    rewrite filter_app, filter_cons_False by (by intros []). by rewrite app_nil_r. }
  assert (done w = done (sw y) /\ ks w = ks (sw y)) as [Edw Ekw]
    by (destruct Hw as [->|(e & _ & _ & ? & ? & _)]; done).
  unfold wait_finish, landed. cbv zeta. set (w1 := w <| queues ::= _ |>) in *.
  assert (done w1 x = done (sw y) x) as E1 by (unfold w1; cbn [done setf]; by rewrite Edw). rewrite E1.
  assert (forall q, state_of_task w1 q = state_of_task (sw y) q) as Es.
  { intros q. unfold state_of_task, w1. cbn [ks setf]. by rewrite Ekw. }
  destruct (c_true (done (sw y) x)) eqn:E0; cbn [negb]; [apply c_true_iff in E0|apply c_true_false in E0].
  - unfold wait_take. cbn [fst snd].
    assert ((0 <? (if c_true t then t else 1)) = true) as ->.
    { apply Z.ltb_lt. unfold c_true. destruct (Z.eqb_spec t 0); cbn [negb]; lia. }
    apply (inv_returned y p _ true); try done.
    + rewrite done_set, E1. apply u32_small. lia.
    + lia.
  - cbn [fst snd]. rewrite (proj2 (Z.ltb_ge 0 t)) by done. apply (inv_returned y p w1 false); try done. lia.
Qed.

(** Posting [n] completions and waking [nr] exclusive waiters, or all. *)
Lemma inv_wake y n nr : inv y -> 0 <= n -> posted y + n < 2 ^ 32 -> nr = n \/ nr = 0 -> 0 <= nr < 2 ^ 31 ->
  inv (mkSys (__wake_up_common (WqCompletion x) TASK_NORMAL nr 0 0
               (set_done x (u32 (done (sw y) x + n)) (sw y)))
             (waiters y) (posted y + n) (taken y)).
Proof.
  intros Hi Hn Hb Hnr Hr. set (w1 := set_done x _ (sw y)).
  pose proof (i_len _ Hi) as Hl. unfold PID_MAX_LIMIT in Hl.
  destruct (wake_loop_holds (entries (sw y)) TASK_NORMAL nr 0 0 w1) as (l1 & l2 & El & Hw & _ & Hs).
  - eapply Forall_impl; [apply (i_waiting _ Hi)|]. by intros e (? & _).
  - apply (i_nodup _ Hi).
  - lia.
  - apply (inv_posted y _ n l1 l2); [done..|].
    intros Hl2. destruct (Hs Hl2) as (P & E & _).
    change (exclusive_sleepers (sw y) TASK_NORMAL l1) with (exclusive_sleepers w1 TASK_NORMAL l1). lia.
Qed.

Lemma inv_taken y p w' : inv y -> waiters y !! p = None -> entries w' = entries (sw y) ->
  (forall q, state_of_task w' q = state_of_task (sw y) q) -> 0 < done (sw y) x ->
  done w' x = done (sw y) x - 1 -> inv (mkSys w' (delete p (waiters y)) (posted y) (taken y + 1)).
Proof.
  intros Hi Hp Ee Hs Hd Hd'. apply (inv_returned y p w' true); try done.
  - rewrite filter_addr_notin; [done|apply (i_addr _ Hi)|]. intros Hx%(i_dom _ Hi). rewrite Hp in Hx. by destruct Hx.
  - rewrite Hp. by intros [].
Qed.

(** The body of the loop, entered by a waiter whose entry is queued in [w]. *)
Lemma inv_body y p st t w : inv y -> done (sw y) x = 0 -> wait_state st -> 0 <= t -> current w = p ->
  queued y p w -> ks w = ks (sw y) -> done w = done (sw y) ->
  w = sw y \/ (exists e, queued y p w /\ entries w = entries (sw y) ++ [e] /\ ks w = ks (sw y) /\
                done w = done (sw y) /\ wq_addr e = p) ->
  (is_Some (waiters y !! p) -> state_of_task (sw y) p = TASK_RUNNING) ->
  inv (landed p st (wait_body p x t st w) y).
Proof.
  intros Hi Hd Hws Ht Hc Hq Hk Hdw Hw Hrun. unfold wait_body. rewrite Hc.
  destruct (signal_pending_state st (tasks (ks w) p)).
  - apply inv_finish; [done|lia|done|done|]. rewrite Hd, c_true_0. unfold ERESTARTSYS. lia.
  - unfold landed. cbn [fst snd]. apply inv_asleep; try done.
    + unfold __set_current_state. cbn [done setf]. by rewrite Hdw.
    + intros q. rewrite state_of_set_state, Hc. unfold state_of_task. by rewrite Hk.
Qed.

Lemma inv_wait y p c : inv y -> done (sw y) x < 2 ^ 32 -> current (sw y) = p -> waiters y !! p = None ->
  wait_state (wc_state c) -> 0 <= wc_timeout c -> Z.of_nat (length (entries (sw y))) < PID_MAX_LIMIT ->
  inv (landed p (wc_state c) (wait_for_common p x c (sw y)) y).
Proof.
  intros Hi Hb Hc Hp Hws Ht Hlen. pose proof (i_count _ Hi) as (_ & _ & G3).
  unfold wait_for_common, do_wait_for_common. destruct (c_true (done (sw y) x)) eqn:E0; cbn [negb].
  - apply c_true_iff in E0. unfold wait_take, landed. cbn [fst snd].
    assert ((0 <? (if c_true (wc_timeout c) then wc_timeout c else 1)) = true) as ->.
    { apply Z.ltb_lt. unfold c_true. destruct (Z.eqb_spec (wc_timeout c) 0); cbn [negb]; lia. }
    apply inv_taken; try done; [lia|]. rewrite done_set. apply u32_small. lia.
  - apply c_true_false in E0. rewrite Hc.
    set (e := mkWait p 0 p DefaultWake). set (w := (sw y) <| queues ::= _ |>).
    assert (entries w = entries (sw y) ++ [e <| wq_flags ::= fun f => Z.lor f WQ_FLAG_EXCLUSIVE |>]) as Ee.
    { unfold entries, w. cbn [queues setf]. by rewrite add_wait_tail_spec, decide_True. }
    assert (queued y p w) as Hq by (right; eexists; split; [exact Ee|]; done).
    apply inv_body; try done; [right; eexists; split; [exact Hq|]; split; [exact Ee|done]|].
    rewrite Hp. by intros [].
Qed.

Lemma inv_resume y p st t t' : inv y -> done (sw y) x < 2 ^ 32 -> current (sw y) = p ->
  waiters y !! p = Some (st, t) -> state_of_task (sw y) p = TASK_RUNNING -> 0 <= t' <= t ->
  inv (landed p st (do_wait_for_common_resume p x t' st (sw y)) y).
Proof.
  intros Hi Hb Hc Hp Hrun Ht. destruct (i_state _ Hi p st t Hp) as [Hws _].
  unfold do_wait_for_common_resume. destruct (c_true (done (sw y) x)) eqn:E0; cbn [negb andb].
  - apply inv_finish; [done|done|by left|done|]. rewrite E0. lia.
  - destruct (c_true t') eqn:Et.
    + apply c_true_false in E0. apply inv_body; try done; [lia| |by left]. left. split; [done|by exists (st, t)].
    + apply inv_finish; [done|done|by left|done|]. rewrite E0. apply c_true_false in Et. lia.
Qed.

Lemma step_inv y y' : inv y -> step y y' -> posted y' < 2 ^ 32 -> inv y'.
Proof.
  intros Hi Hs Hb. pose proof (step_posted y y' Hs) as Hm. pose proof (i_count _ Hi) as (G1 & G2 & G3).
  assert (done (sw y) x < 2 ^ 32) as Hd by lia.
  destruct Hs as [| |b w' E|p c|p st t t'|w' Hdw He Hst]; cbn [posted] in Hb.
  - unfold complete. apply inv_wake; [done|lia|done|by left|lia].
  - unfold complete_all. apply inv_wake; [done|rewrite all_count; lia|done|by right|lia].
  - unfold try_wait_for_completion in E. destruct (c_true (done (sw y) x)) eqn:E0; cbn [negb] in E; injection E as <- <-.
    + apply c_true_iff in E0. set (p := fresh (dom (waiters y))).
      assert (waiters y !! p = None) as Hp by apply not_elem_of_dom, is_fresh.
      rewrite <- (delete_id (waiters y) p Hp) at 1. apply inv_taken; try done; [lia|].
      rewrite done_set. apply u32_small. lia.
    + cbn [of_bool]. rewrite Z.add_0_r. by destruct y.
  - by apply inv_wait.
  - by apply (inv_resume y p st t t').
  - destruct Hi as [A B C D E F G H].
    assert (forall e, e ∈ entries (sw y) -> waiting (sw y) e ->
      state_of_task w' (wq_private e) = state_of_task (sw y) (wq_private e) \/
      state_of_task w' (wq_private e) = TASK_RUNNING) as Hse.
    { intros e Hin _. apply Hst, D. by apply list_elem_of_fmap_2. }
    split; cbn [sw waiters posted taken]; rewrite ?He; try done.
    + rewrite Forall_forall in C |- *. intros e Hin. destruct (C e Hin) as (W1 & W2 & W3).
      split; [done|]. split; [done|]. destruct (Hse e Hin (C e Hin)) as [->| ->]; [done|by left].
    + by rewrite Hdw.
    + rewrite Hdw. etrans; [exact H|]. apply nr_awake_mono. intros e Hin Ha. rewrite Forall_forall in C.
      unfold awake in *. apply Z.eqb_eq in Ha. destruct (Hse e Hin (C e Hin)) as [-> | ->]; [|done].
      by apply Z.eqb_eq.
Qed.

Lemma reachable_inv y : reachable y -> posted y < 2 ^ 32 -> inv y.
Proof.
  induction 1 as [y [I1 I2 I3 [I4 I5]]|y y' H IH Hs]; intros Hb.
  - split; rewrite ?I1, ?I2, ?I3, ?I4, ?I5; try done; try by constructor.
    intros p. rewrite lookup_empty. split; [set_solver|by intros []].
  - apply (step_inv y); [|done|done]. apply IH. pose proof (step_posted y y' Hs). lia.
Qed.

(** C21: no completion is lost.  However complete(), complete_all(),
    try_wait_for_completion() and the waits of any number of tasks interleave,
    with time-outs, signals and wake-ups from elsewhere: as long as fewer than
    2^32 completions were posted, the counter is the number posted less the
    number of waits that reported success, no completion is taken twice, and
    while the counter is positive and tasks are waiting, one of them is
    runnable. *)
Theorem completion_no_lost_wakeup y : reachable y -> posted y < 2 ^ 32 ->
  done (sw y) x = posted y - taken y /\ taken y <= posted y /\
  (0 < done (sw y) x -> waiters y <> ∅ ->
   exists p st t, waiters y !! p = Some (st, t) /\ state_of_task (sw y) p = TASK_RUNNING).
Proof.
  intros Hr Hb. destruct (reachable_inv y Hr Hb) as [A B C D E F (G1 & G2 & G3) H].
  split; [done|]. split; [lia|]. intros Hd Hw.
  apply map_choose in Hw as (q & [st0 t0] & Hq).
  assert (q ∈ wq_private <$> entries (sw y)) as Hin by (apply D; by exists (st0, t0)).
  assert (0 < nr_awake (sw y) (entries (sw y))) as Ha.
  { destruct (entries (sw y)) as [|e l]; [cbn in Hin; set_solver|]. cbn [length] in H. lia. }
  assert (exists e, e ∈ entries (sw y) /\ awake (sw y) e = true) as (e & He & Hae).
  { clear -Ha. induction (entries (sw y)) as [|e l IH]; [done|]. rewrite nr_awake_cons in Ha.
    destruct (awake (sw y) e) eqn:Ee; [exists e; set_solver|]. destruct IH as (e' & ? & ?); [lia|].
    exists e'. set_solver. }
  destruct (proj1 (D (wq_private e))) as [[st t] Hl]; [by apply list_elem_of_fmap_2|].
  exists (wq_private e), st, t. split; [done|]. by apply Z.eqb_eq.
Qed.

(** C22: a waiter that runs while the counter is positive succeeds.  Whatever
    woke it (the completion, a signal, or its time-out at the same moment), it
    takes one completion, reports the time left or 1, and leaves the queue
    without disturbing the order of the others. *)
Theorem completion_waiter_succeeds y p st t t' : reachable y -> posted y < 2 ^ 32 ->
  waiters y !! p = Some (st, t) -> 0 <= t' -> 0 < done (sw y) x ->
  exists w', do_wait_for_common_resume p x t' st (sw y) = (WaitReturn (Z.max 1 t'), w') /\
    done w' x = done (sw y) x - 1 /\
    entries w' = filter (fun e => wq_private e <> p) (entries (sw y)).
Proof.
  intros Hr Hb Hp Ht Hd. destruct (reachable_inv y Hr Hb) as [A B C D E F (G1 & G2 & G3) H].
  unfold do_wait_for_common_resume. rewrite (proj2 (c_true_iff _)) by lia. cbn [negb andb].
  unfold wait_finish. cbv zeta. set (w1 := (sw y) <| queues ::= _ |>).
  change (done w1 x) with (done (sw y) x). rewrite (proj2 (c_true_iff _)) by lia. cbn [negb].
  unfold wait_take. eexists. split; [|split].
  - f_equal. f_equal. unfold c_true. destruct (Z.eqb_spec t' 0); cbn [negb]; lia.
  - rewrite done_set. change (done w1 x) with (done (sw y) x). apply u32_small. lia.
  - change (entries (set_done x _ w1)) with (entries w1). unfold w1. rewrite entries_removed.
    clear -B. induction B as [|e l He Hl IH]; [done|]. rewrite !filter_cons, IH, He. done.
Qed.
End completion.

(** * An instance *)

Module CompletionDemo.
Import Demo RingLists CoreDemo.

#[export] Instance demo_queues : WaitQueues := {|
  wqs := wq_head -> list wait_queue_t;
  task_list := fun q h => q h;
  __add_wait_queue := fun h e q h' => if decide (h' = h) then e :: q h else q h';
  __add_wait_queue_tail_exclusive := fun h e q h' =>
    if decide (h' = h) then q h ++ [e <| wq_flags ::= fun f => Z.lor f WQ_FLAG_EXCLUSIVE |>] else q h';
  __remove_wait_queue := fun h a q h' =>
    if decide (h' = h) then filter (fun e => wq_addr e <> a) (q h) else q h' |}.

#[export] Instance demo_queue_laws : WaitQueueLaws.
Proof. by split. Defined.

#[export] Instance demo_wait_env : WaitEnv := {| call_other := fun _ _ _ _ _ w => (false, w) |}.

#[export] Instance null_quiet next pick : QuietClass (null_ops next pick).
Proof. by split. Defined.
#[export] Instance demo_stop_quiet : QuietClass stop_ops := null_quiet _ _.
#[export] Instance demo_fair_quiet : QuietClass fair_ops := null_quiet _ _.
#[export] Instance demo_idle_quiet : QuietClass idle_ops := null_quiet _ _.

(** Task 1 waits for the completion 0 without a time-out and goes to sleep;
    then the completion is posted. *)
Definition w0 : wst := mkWst _ _ world3 (fun _ => []) (fun _ => 0).
Definition y0 : sys := mkSys w0 ∅ 0 0.
Definition y1 : sys :=
  landed 1 TASK_UNINTERRUPTIBLE (wait_for_common 1 0 wait_for_completion w0) y0.
Definition y2 : sys := mkSys (complete 0 (sw y1)) (waiters y1) (posted y1 + 1) (taken y1).

Lemma y2_reachable : reachable 0 y2.
Proof.
  apply (rb_step _ y1); [|exact (st_complete 0 y1)].
  apply (rb_step _ y0); [apply rb_init; split; [reflexivity|reflexivity|reflexivity|split; reflexivity]|].
  apply (st_wait 0 y0 1 wait_for_completion); [reflexivity|reflexivity|left; reflexivity| |reflexivity].
  vm_compute. congruence.
Defined.

Lemma completion_no_lost_wakeup_witness :
  exists p st t, waiters y2 !! p = Some (st, t) /\ state_of_task (sw y2) p = TASK_RUNNING.
Proof.
  destruct (completion_no_lost_wakeup 0 y2 y2_reachable) as (_ & _ & H); [vm_compute; reflexivity|].
  apply H; [vm_compute; reflexivity|]. intros E.
  assert (waiters y2 !! 1%nat = None) as Hn by (rewrite E; reflexivity).
  assert (is_Some (waiters y2 !! 1%nat)) as [v Hv] by (vm_compute; eexists; reflexivity).
  rewrite Hv in Hn. discriminate.
Defined.

Lemma completion_waiter_succeeds_witness :
  exists w', do_wait_for_common_resume 1 0 MAX_SCHEDULE_TIMEOUT TASK_UNINTERRUPTIBLE (sw y2) =
    (WaitReturn MAX_SCHEDULE_TIMEOUT, w') /\ done w' 0%nat = 0.
Proof.
  destruct (completion_waiter_succeeds 0 y2 1 TASK_UNINTERRUPTIBLE MAX_SCHEDULE_TIMEOUT MAX_SCHEDULE_TIMEOUT
    y2_reachable) as (w' & E & Hd & _);
    [vm_compute; reflexivity|vm_compute; reflexivity|vm_compute; congruence|vm_compute; reflexivity|].
  exists w'. split; [exact E|]. rewrite Hd. vm_compute. reflexivity.
Defined.

(** Two non-exclusive sleepers and two exclusive ones; one exclusive task is
    woken, together with the task that is queued before it. *)
Definition sleepy : kst :=
  fold_left (fun s p => upd_task p (fun t => t <| t_state := TASK_INTERRUPTIBLE |>) s) [4; 5; 6; 7]%nat world3.
Definition wq4 : list wait_queue_t :=
  [mkWait 4 0 4 DefaultWake; mkWait 5 1 5 DefaultWake; mkWait 6 1 6 DefaultWake; mkWait 7 0 7 DefaultWake].
Definition w4 : wst := mkWst _ _ sleepy (fun h => if decide (h = WqHead 0) then wq4 else []) (fun _ => 0).

Lemma wake_up_common_order_witness :
  let w' := __wake_up (WqHead 0) TASK_NORMAL 1 0 w4 in
  queues w' = queues w4 /\ map (state_of_task w') [4; 5; 6; 7]%nat = [0; 0; 1; 1].
Proof.
  destruct (wake_up_common_order (WqHead 0) TASK_NORMAL 1 0 0 w4 wq4) as (l1 & l2 & E & _ & [Hq _] & _);
    [reflexivity|repeat constructor|apply (bool_decide_unpack _); vm_compute; exact I
    |split; vm_compute; congruence|reflexivity|].
  split; [exact Hq|vm_compute; reflexivity].
Defined.

(** The counter wraps: after complete_all() twice and complete() twice the next
    waiter goes to sleep. *)
Example completion_counter_wraps :
  done (complete 0 (complete 0 (complete_all 0 (complete_all 0 w0)))) 0%nat = 0.
Proof. vm_compute. reflexivity. Qed.

(** completion_done() reports "waiters" on a completion nobody waits for. *)
Example completion_done_fresh : entries 0 w0 = [] /\ completion_done 0 w0 = false.
Proof. by split. Qed.
End CompletionDemo.
