(* ===== verification/Cmp.v ===== *)
(** The trace analysis tool: src/Project2/cmp/cmp.c.

    It reads the console log and counts, for one of the three policies, the
    ticks the kernel traced for each of up to nine tasks.  The file is the list
    of its bytes; the five arrays of main() are functions of the index.  What C
    leaves undefined (the write behind [buf], a null pointer of strchr(), an
    offset behind the end of the line, a number that does not fit in an [int])
    makes the run [None].  The averages are printed as a [double]; the model
    has the two exact sums of which they are the ninth part. *)

From S2P Require Import Prelude Sched.
From Stdlib Require Import Ascii.

(** ** The functions of the C library that the program uses *)

Definition chars (s : string) : list ascii := String.list_ascii_of_string s.
Definition newline : ascii := "010"%char.
Definition NUL : ascii := "000"%char.

(** The string that starts at the head of a buffer. *)
Fixpoint c_string (b : list ascii) : list ascii :=
  match b with
  | [] => []
  | c :: b => if Ascii.eqb c NUL then [] else c :: c_string b
  end.

(** [strncmp(p, buf, strlen(p)) == 0] *)
Fixpoint starts_with (p b : list ascii) : bool :=
  match p, b with
  | [], _ => true
  | c :: p, d :: b => Ascii.eqb c d && starts_with p b
  | _ :: _, [] => false
  end.

(** [strchr(b, c)] with the assignment of the terminator through the result:
    the part before the first [c]; [None] is the null pointer *)
Fixpoint cut_at (c : ascii) (b : list ascii) : option (list ascii) :=
  match b with
  | [] => None
  | d :: b => if Ascii.eqb d c then Some [] else option_map (cons d) (cut_at c b)
  end.

(** atoi(): white space, a sign, digits; [None] when an [int] cannot hold it *)
Definition is_space (c : ascii) : bool :=
  let n := nat_of_ascii c in (n =? 32)%nat || ((9 <=? n)%nat && (n <=? 13)%nat).
Definition digit_of (c : ascii) : option Z :=
  let n := Z.of_nat (nat_of_ascii c) in
  if (48 <=? n) && (n <=? 57) then Some (n - 48) else None.
Fixpoint digits_value (acc : Z) (b : list ascii) : Z :=
  match b with
  | [] => acc
  | c :: b => match digit_of c with Some d => digits_value (acc * 10 + d) b | None => acc end
  end.
Fixpoint skip_space (b : list ascii) : list ascii :=
  match b with
  | c :: b' => if is_space c then skip_space b' else b
  | [] => []
  end.
Definition int_of (v : Z) : option Z := if (- 2 ^ 31 <=? v) && (v <? 2 ^ 31) then Some v else None.
Definition atoi (b : list ascii) : option Z :=
  match skip_space b with
  | "-"%char :: b => int_of (- digits_value 0 b)
  | "+"%char :: b => int_of (digits_value 0 b)
  | b => int_of (digits_value 0 b)
  end.

(** ** main() *)

Record cmp_state := mkCmp {
  cycle : Z;
  running_cycle : nat -> Z; marked : nat -> Z; start_time : nat -> Z; end_time : nat -> Z;
  pid : nat -> Z;
  printed : list (Z * Z) }.                (* the lines "cycle pid" *)

#[export] Instance eta_cmp : Eta cmp_state := fun r =>
  mkCmp r.(cycle) r.(running_cycle) r.(marked) r.(start_time) r.(end_time) r.(pid) r.(printed).

Definition cmp_init : cmp_state :=
  mkCmp 0 (fun _ => 0) (fun _ => 0) (fun _ => 0) (fun _ => 0) (fun _ => 0) [].

(** [for (i = 0; i < 9; i++) if (...) break;]: the value of [i] after it *)
Fixpoint first_from (P : nat -> bool) (n i : nat) : nat :=
  match n with
  | O => i
  | S n => if P i then i else first_from P n (S i)
  end.
Definition first_slot (P : nat -> bool) : nat := first_from P 9 0.

Definition set_at (i : nat) (v : Z) (a : nat -> Z) : nat -> Z := fun j => if (j =? i)%nat then v else a j.

(** The body of the three cases once the pid [v] of the line is known. *)
Definition bump (i : nat) (st : cmp_state) : cmp_state :=
  let st := st <| end_time ::= set_at i (s32 (cycle st + 1)) |> in
  st <| running_cycle ::= set_at i (s32 (running_cycle st i + 1)) |>.
Definition tally (v : Z) (st : cmp_state) : cmp_state :=
  let i := first_slot (fun i => c_true (marked st i) && (pid st i =? v)) in
  let st :=
    if (i <? 9)%nat then bump i st
    else
      let i := first_slot (fun i => negb (c_true (marked st i))) in
      if (i <? 9)%nat
      then bump i (st <| pid ::= set_at i v |>) <| marked ::= set_at i 1 |>
      else st in
  st <| printed ::= fun l => l ++ [(cycle st, v)] |> <| cycle := s32 (cycle st + 1) |>.

(** The inner reading loop from [buf[k]] on, and [buf[k] = '\0'] behind it:
    [buf] has 500 elements, and the loop does not stop at the end of the file. *)
Definition BUF : nat := 500.
Fixpoint read_rest (f : list ascii) (k : nat) : option (list ascii * list ascii) :=
  match f with
  | [] => None
  | c :: f =>
      if (k <? BUF)%nat then
        if Ascii.eqb c newline
        then if (S k <? BUF)%nat then Some ([c], f) else None
        else match read_rest f (S k) with
             | Some (l, f) => Some (c :: l, f)
             | None => None
             end
      else None
  end.

(** The number in the line: [buf + off], cut at [stop] if the case does so. *)
Definition line_pid (off : nat) (stop : option ascii) (buf : list ascii) : option Z :=
  if (off <=? length buf)%nat then
    let s := c_string (drop off buf) in
    match stop with
    | None => atoi s
    | Some c => match cut_at c s with Some s => atoi s | None => None end
    end
  else None.

(** The switch on [choice]. *)
Definition cmp_line (choice : Z) (buf : list ascii) (st : cmp_state) : option cmp_state :=
  let case prefix off stop :=
    if starts_with (chars prefix) buf
    then match line_pid off stop buf with Some v => Some (tally v st) | None => None end
    else Some st in
  match choice with
  | 1 => case "FIFO tracing: "%string 18%nat None
  | 2 => case "RR tracing: "%string 16%nat (Some ","%char)
  | 3 => case "RAS Tracing: pid="%string 17%nat (Some " "%char)
  | _ => Some st
  end.

(** The loop over the lines; a turn takes at least two characters, so the
    length of the file is enough fuel. *)
Fixpoint cmp_loop (fuel : nat) (choice : Z) (f : list ascii) (st : cmp_state) : option cmp_state :=
  match fuel with
  | O => None
  | S fuel =>
      match f with
      | [] => Some st
      | c0 :: f =>
          match read_rest f 1 with
          | None => None
          | Some (l, f) =>
              match cmp_line choice (c0 :: l) st with
              | None => None
              | Some st => cmp_loop fuel choice f st
              end
          end
      end
  end.
Definition cmp_main (choice : Z) (f : list ascii) : option cmp_state :=
  cmp_loop (S (length f)) choice f cmp_init.

(** The sums of the two loops at the end, before the division by 9. *)
Definition sum9 (a : nat -> Z) : Z := foldr (fun i z => a i + z) 0 (seq 0 9).
Definition turnaround_sum (st : cmp_state) : Z := sum9 (fun i => end_time st i - start_time st i).
Definition waiting_sum (st : cmp_state) : Z := turnaround_sum st - sum9 (running_cycle st).

(** ** The lines the kernel writes *)

(** The conversion %d of printk(). *)
Definition digit_char (d : Z) : ascii := ascii_of_nat (Z.to_nat (48 + d)).
Fixpoint print_digits (fuel : nat) (n : Z) (acc : list ascii) : list ascii :=
  match fuel with
  | O => acc
  | S fuel =>
      let acc := digit_char (n mod 10) :: acc in
      if n <? 10 then acc else print_digits fuel (n / 10) acc
  end.
Definition print_int (n : Z) : list ascii :=
  if n <? 0 then "-"%char :: print_digits 10 (- n) [] else print_digits 10 n [].

(** The formats of task_tick_ras() and task_tick_rt(), as the console shows
    them (the level KERN_INFO is not printed). *)
Definition printk_line (l : klog_line) : list ascii :=
  match l with
  | RAS_Tracing pid slice =>
      chars "RAS Tracing: pid=" ++ print_int pid ++ chars ", remaining time slice=" ++ print_int slice
  | FIFO_tracing pid => chars "FIFO tracing: pid=" ++ print_int pid
  | RR_tracing pid slice =>
      chars "RR tracing: pid=" ++ print_int pid ++ chars ", remaining rr time slice=" ++ print_int slice
  end.
