(* ===== verification/CmpSpec.v ===== *)
(** The trace analysis tool reads what the kernel writes (Cmp.v): on a console
    log that contains the tracing lines of a run, among other lines, cmp.c
    recovers for every task the number of its ticks and the time of its last
    one, whatever the interleaving. *)

From S2P Require Import Prelude KList Sched Cmp.
From Stdlib Require Import Ascii.

(** * Numbers *)

Lemma digit_of_char d : 0 <= d < 10 -> digit_of (digit_char d) = Some d.
Proof.
  intros H. assert (d = 0 \/ d = 1 \/ d = 2 \/ d = 3 \/ d = 4 \/ d = 5 \/ d = 6 \/ d = 7 \/ d = 8 \/ d = 9)
    as Hd by lia. by repeat destruct Hd as [->|Hd]; subst.
Qed.

Definition is_digit (c : ascii) : Prop := exists d, 0 <= d < 10 /\ c = digit_char d.

Lemma print_digits_app fuel n acc : print_digits fuel n acc = print_digits fuel n [] ++ acc.
Proof.
  revert n acc. induction fuel as [|fuel IH]; intros n acc; [done|]. cbn [print_digits]. cbv zeta.
  case_match; [done|]. rewrite IH, (IH _ [_]), <- (assoc_L (++)). done.
Qed.

Lemma print_digits_digits fuel n : 0 <= n -> Forall is_digit (print_digits fuel n []).
Proof.
  revert n. induction fuel as [|fuel IH]; intros n Hn; [constructor|]. cbn [print_digits]. cbv zeta.
  assert (is_digit (digit_char (n mod 10))) as Hd.
  { exists (n mod 10). split; [|done]. apply Z.mod_pos_bound. lia. }
  case_match; [by repeat constructor|]. rewrite print_digits_app. apply Forall_app.
  split; [|by repeat constructor]. apply IH. apply Z.div_pos; lia.
Qed.

Lemma print_digits_length fuel n : (length (print_digits fuel n []) <= fuel)%nat.
Proof.
  revert n. induction fuel as [|fuel IH]; intros n; [done|]. cbn [print_digits]. cbv zeta.
  case_match; [cbn; lia|]. rewrite print_digits_app, length_app. specialize (IH (n / 10)). cbn. lia.
Qed.

(** Reading back: the digits printed for [n] turn the value 0 into [n]. *)
Lemma digits_value_print fuel n acc : 0 <= n < 10 ^ Z.of_nat fuel -> (0 < fuel)%nat ->
  digits_value 0 (print_digits fuel n acc) = digits_value n acc.
Proof.
  revert n acc. induction fuel as [|fuel IH]; intros n acc Hn Hf; [lia|]. cbn [print_digits]. cbv zeta.
  pose proof (Z.mod_pos_bound n 10 ltac:(lia)) as Hm. pose proof (Z.div_mod n 10 ltac:(lia)) as Hdm.
  destruct (Z.ltb_spec n 10).
  - cbn [digits_value]. rewrite digit_of_char, Z.mod_small by lia. done.
  - rewrite Nat2Z.inj_succ, Z.pow_succ_r in Hn by lia.
    assert (0 < fuel)%nat by (destruct fuel; [rewrite Z.pow_0_r in Hn; lia|lia]).
    rewrite IH by (split; [apply Z.div_pos; lia|apply Z.div_lt_upper_bound; lia] || lia).
    cbn [digits_value]. rewrite digit_of_char by done. f_equal. lia.
Qed.

(** [b] does not go on with a digit. *)
Definition ends_number (b : list ascii) : Prop :=
  match b with [] => True | c :: _ => digit_of c = None end.

Lemma digits_value_app acc b r : Forall is_digit b -> ends_number r ->
  digits_value acc (b ++ r) = digits_value acc b.
Proof.
  intros H Hr. revert acc. induction H as [|c b (d & Hd & ->) Hb IH]; intros acc; cbn [app digits_value].
  - destruct r as [|c r]; [done|]. cbn in *. by rewrite Hr.
  - by rewrite digit_of_char.
Qed.

Lemma digit_plain c : is_digit c -> is_space c = false /\ c <> "-"%char /\ c <> "+"%char /\
  c <> NUL /\ c <> newline /\ c <> ","%char /\ c <> " "%char.
Proof.
  intros (d & H & ->). assert (d = 0 \/ d = 1 \/ d = 2 \/ d = 3 \/ d = 4 \/ d = 5 \/ d = 6 \/ d = 7 \/ d = 8 \/ d = 9)
    as Hd by lia. repeat destruct Hd as [->|Hd]; subst; by vm_compute.
Qed.

Lemma print_int_digits n : 0 <= n ->
  exists c b, print_int n = c :: b /\ Forall is_digit (c :: b) /\ print_int n = print_digits 10 n [].
Proof.
  intros Hn. unfold print_int. rewrite (proj2 (Z.ltb_ge n 0)) by lia.
  pose proof (print_digits_digits 10 n Hn) as Hd. destruct (print_digits 10 n []) as [|c b] eqn:E; [|by exists c, b].
  exfalso. assert (print_digits 10 n [] <> []) as Hne; [|done].
  change (print_digits 10 n []) with (let acc := [digit_char (n mod 10)] in if n <? 10 then acc else print_digits 9 (n / 10) acc).
  cbv zeta. case_match; [done|]. rewrite print_digits_app. by intros [_ ?]%app_nil.
Qed.

Lemma atoi_print n r : 0 <= n < 2 ^ 31 -> ends_number r -> atoi (print_int n ++ r) = Some n.
Proof.
  intros Hn Hr. destruct (print_int_digits n) as (c & b & E & Hd & Ep); [lia|].
  pose proof (proj1 (Forall_cons _ _ _) Hd) as [Hc _]. destruct (digit_plain c Hc) as (Hs & H1 & H2 & _).
  assert (digits_value 0 (print_int n ++ r) = n) as Hv.
  { rewrite Ep, digits_value_app, digits_value_print; [done|lia|lia|by rewrite <- Ep, E|done]. }
  rewrite E in *. unfold atoi. cbn [app skip_space]. rewrite Hs.
  assert (int_of n = Some n) as Hi.
  { unfold int_of. rewrite (proj2 (Z.leb_le _ _)), (proj2 (Z.ltb_lt _ _)) by lia. done. }
  cbn [app] in Hv. rewrite <- Hv in Hi at 1. clear -H1 H2 Hi.
  destruct c as [[] [] [] [] [] [] [] []]; first [exact Hi | by destruct H1 | by destruct H2].
Qed.

(** * Lines *)

(** A character that neither ends a line nor a string. *)
Definition text_char (c : ascii) : Prop := c <> newline /\ c <> NUL.

Lemma print_int_text n : Forall text_char (print_int n).
Proof.
  assert (forall m, 0 <= m -> Forall text_char (print_digits 10 m [])) as H.
  { intros m Hm. eapply Forall_impl; [by apply print_digits_digits|].
    intros c (_ & _ & _ & ? & ? & _)%digit_plain. done. }
  unfold print_int. destruct (Z.ltb_spec n 0); [|by apply H].
  constructor; [by split|]. apply H. lia.
Qed.

Lemma print_int_length n : (length (print_int n) <= 11)%nat.
Proof.
  unfold print_int. case_match; cbn [length]; [pose proof (print_digits_length 10 (- n))|pose proof (print_digits_length 10 n)]; lia.
Qed.

#[export] Instance text_char_dec c : Decision (text_char c).
Proof. unfold text_char. apply _. Defined.

(** A concrete text without a line end. *)
Lemma chars_text s : forallb (fun c => bool_decide (text_char c)) (chars s) = true -> Forall text_char (chars s).
Proof.
  intros H. apply Forall_forall. intros c Hc%list_elem_of_In.
  rewrite forallb_forall in H. exact (bool_decide_eq_true_1 _ (H c Hc)).
Qed.

Lemma printk_line_text l : Forall text_char (printk_line l) /\ (1 <= length (printk_line l) <= 70)%nat.
Proof.
  destruct l as [p n|p n|p]; unfold printk_line; rewrite ?length_app;
    (split; [repeat (apply Forall_app; split); solve [apply print_int_text | by apply chars_text]|]);
    pose proof (print_int_length p); try (pose proof (print_int_length n)); cbn [length chars String.list_ascii_of_string]; lia.
Qed.

Lemma c_string_line b : Forall text_char b -> c_string (b ++ [newline]) = b ++ [newline].
Proof.
  induction 1 as [|c b [_ Hc] Hb IH]; [done|]. cbn [app c_string]. rewrite IH.
  destruct (Ascii.eqb_spec c NUL); done.
Qed.

Lemma cut_at_app c a b : c ∉ a -> cut_at c (a ++ c :: b) = Some a.
Proof.
  induction a as [|d a IH]; intros Hc; cbn [app cut_at].
  - by rewrite Ascii.eqb_refl.
  - destruct (Ascii.eqb_spec d c) as [->|]; [set_solver|]. rewrite IH by set_solver. done.
Qed.

Lemma not_in_int c n : 0 <= n -> (forall d, is_digit d -> d <> c) -> c ∉ print_int n.
Proof.
  intros Hn Hc Hin. destruct (print_int_digits n Hn) as (x & b & E & Hd & _). rewrite E in Hin.
  rewrite Forall_forall in Hd. by apply (Hc c (Hd c Hin)).
Qed.

Lemma starts_with_app p q r : starts_with p q = true -> starts_with p ((q ++ r) ++ [newline]) = true.
Proof.
  rewrite <- (assoc_L (++)). generalize (r ++ [newline]). intros r'. revert q.
  induction p as [|c p IH]; intros [|d q]; cbn [starts_with app]; [done..|].
  intros [-> H]%andb_true_iff. by apply IH.
Qed.

(** The number behind a prefix of the right length. *)
Lemma line_pid_at p n r stop : 0 <= n < 2 ^ 31 -> ends_number r -> Forall text_char r ->
  match stop with
  | None => True
  | Some c => exists r1 r2, r ++ [newline] = r1 ++ c :: r2 /\ c ∉ print_int n ++ r1 /\ ends_number r1
  end ->
  line_pid (length p) stop ((p ++ print_int n ++ r) ++ [newline]) = Some n.
Proof.
  intros Hn Hr Ht Hs. unfold line_pid. rewrite <- !(assoc_L (++)).
  rewrite (proj2 (Nat.leb_le _ _)) by (rewrite length_app; lia). rewrite drop_app_length.
  rewrite (assoc_L (++) (print_int n)), c_string_line by (apply Forall_app; split; [apply print_int_text|done]).
  rewrite <- (assoc_L (++)). destruct stop as [c|].
  - destruct Hs as (r1 & r2 & -> & Hc & Hr1). rewrite (assoc_L (++)), cut_at_app by done. by apply atoi_print.
  - apply atoi_print; [done|]. destruct r; done.
Qed.

(** The task a line is about, when the tool counts the lines of [choice]. *)
Definition traced (choice : Z) (l : klog_line) : option Z :=
  match l with
  | FIFO_tracing pid => if choice =? 1 then Some pid else None
  | RR_tracing pid _ => if choice =? 2 then Some pid else None
  | RAS_Tracing pid _ => if choice =? 3 then Some pid else None
  end.
Definition line_pid_of (l : klog_line) : Z :=
  match l with FIFO_tracing pid | RR_tracing pid _ | RAS_Tracing pid _ => pid end.

Definition tally_opt (v : option Z) (st : cmp_state) : cmp_state :=
  match v with Some v => tally v st | None => st end.

Lemma cmp_line_traced choice l st : 1 <= choice <= 3 -> 0 <= line_pid_of l < 2 ^ 31 ->
  cmp_line choice (printk_line l ++ [newline]) st = Some (tally_opt (traced choice l) st).
Proof.
  intros Hch Hp. assert (choice = 1 \/ choice = 2 \/ choice = 3) as Hc by lia.
  destruct l as [p n|p n|p]; cbn [line_pid_of] in Hp; repeat destruct Hc as [->|Hc]; subst; try reflexivity;
    unfold cmp_line, printk_line; cbv zeta; (rewrite starts_with_app by reflexivity).
  - change (line_pid 17) with (line_pid (length (chars "RAS Tracing: pid="))).
    rewrite (line_pid_at (chars "RAS Tracing: pid=") p (chars ", remaining time slice=" ++ print_int n) (Some " "%char));
      [done|done|done|apply Forall_app; split; [by apply chars_text|apply print_int_text]|].
    exists [","%char]. eexists. split; [by rewrite <- (assoc_L (++))|]. split; [|done].
    intros [Hx|Hx]%elem_of_app; [|set_solver]. revert Hx. apply not_in_int; [lia|].
    by intros d (_ & _ & _ & _ & _ & _ & ?)%digit_plain.
  - change (line_pid 16) with (line_pid (length (chars "RR tracing: pid="))).
    rewrite (line_pid_at (chars "RR tracing: pid=") p (chars ", remaining rr time slice=" ++ print_int n) (Some ","%char));
      [done|done|done|apply Forall_app; split; [by apply chars_text|apply print_int_text]|].
    exists []. eexists. split; [by rewrite <- (assoc_L (++))|]. split; [|done]. rewrite app_nil_r.
    apply not_in_int; [lia|]. by intros d (_ & _ & _ & _ & _ & ? & _)%digit_plain.
  - pose proof (line_pid_at (chars "FIFO tracing: pid=") p [] None) as H. rewrite app_nil_r in H.
    change (line_pid 18) with (line_pid (length (chars "FIFO tracing: pid="))).
    rewrite H; [done|done|done|constructor|done].
Qed.

(** * The file *)

(** A console log: the tracing lines, and lines of other origin. *)
Inductive console_line := Traced (l : klog_line) | Other (text : list ascii).

Definition line_text (l : console_line) : list ascii :=
  match l with Traced l => printk_line l | Other t => t end.

(** A task number is an [int]; another line is not empty, fits in the buffer
    and does not look like a tracing line. *)
Definition line_ok (l : console_line) : Prop :=
  match l with
  | Traced l => 0 <= line_pid_of l < 2 ^ 31
  | Other t => t <> [] /\ newline ∉ t /\ (length t <= 498)%nat /\
      Forall (fun p => starts_with (chars p) (t ++ [newline]) = false)
        ["FIFO tracing: "; "RR tracing: "; "RAS Tracing: pid="]%string
  end.

Definition file_of (ls : list console_line) : list ascii := concat (map (fun l => line_text l ++ [newline]) ls).

Definition line_traced (choice : Z) (l : console_line) : option Z :=
  match l with Traced l => traced choice l | Other _ => None end.

Lemma line_ok_text l : line_ok l -> line_text l <> [] /\ newline ∉ line_text l /\ (length (line_text l) <= 498)%nat.
Proof.
  destruct l as [l|t]; cbn [line_ok line_text]; [|naive_solver]. intros _.
  destruct (printk_line_text l) as [Ht Hl]. split; [|split; [|lia]].
  - intros E. rewrite E in Hl. cbn in Hl. lia.
  - intros Hin. rewrite Forall_forall in Ht. by destruct (Ht newline Hin).
Qed.

Lemma cmp_line_ok choice l st : 1 <= choice <= 3 -> line_ok l ->
  cmp_line choice (line_text l ++ [newline]) st = Some (tally_opt (line_traced choice l) st).
Proof.
  intros Hch. destruct l as [l|t]; cbn [line_ok line_text line_traced]; [by apply cmp_line_traced|].
  intros (_ & _ & _ & Hf). repeat apply Forall_cons in Hf as [?H Hf].
  assert (choice = 1 \/ choice = 2 \/ choice = 3) as [->|[->| ->]] by lia;
    unfold cmp_line; cbv zeta; by rewrite ?H, ?H0, ?H1.
Qed.

Lemma read_rest_line b f k : newline ∉ b -> (k + length b + 1 < BUF)%nat ->
  read_rest (b ++ newline :: f) k = Some (b ++ [newline], f).
Proof.
  revert k. induction b as [|c b IH]; intros k Hb Hk; cbn [app read_rest length] in *.
  - rewrite !(proj2 (Nat.ltb_lt _ _)), Ascii.eqb_refl by lia. done.
  - rewrite (proj2 (Nat.ltb_lt _ _)) by lia. destruct (Ascii.eqb_spec c newline) as [->|]; [set_solver|].
    rewrite IH by (set_solver || lia). done.
Qed.

(** The lines of the file are read one by one and each is counted for the task
    it names; then the loop is at what follows them. *)
Lemma cmp_loop_lines choice ls t fuel st : 1 <= choice <= 3 -> Forall line_ok ls ->
  (length (file_of ls ++ t) < fuel)%nat ->
  exists fuel', (length t < fuel')%nat /\ cmp_loop fuel choice (file_of ls ++ t) st =
    cmp_loop fuel' choice t (fold_left (fun st v => tally v st) (omap (line_traced choice) ls) st).
Proof.
  intros Hch Hok. revert fuel st. induction Hok as [|l ls Hl Hls IH]; intros fuel st Hf; [by exists fuel|].
  destruct (line_ok_text l Hl) as (Hne & Hnl & Hlen). pose proof (cmp_line_ok choice l st Hch Hl) as Hc.
  destruct (line_text l) as [|c0 b] eqn:Et; [done|].
  assert (file_of (l :: ls) ++ t = c0 :: b ++ newline :: (file_of ls ++ t)) as E.
  { unfold file_of. cbn [map concat]. rewrite Et. cbn [app]. by rewrite <- !(assoc_L (++)). }
  rewrite E in *. cbn [length] in *. rewrite length_app in Hf. cbn [length] in Hf.
  destruct fuel as [|fuel]; [lia|]. cbn [cmp_loop].
  rewrite read_rest_line by (set_solver || (unfold BUF; lia)). cbn [app] in Hc. rewrite Hc.
  destruct (IH fuel (tally_opt (line_traced choice l) st)) as (fuel' & Hl' & ->); [lia|].
  exists fuel'. split; [done|]. cbn [omap list_omap]. by destruct (line_traced choice l).
Qed.

Lemma cmp_main_lines choice ls : 1 <= choice <= 3 -> Forall line_ok ls ->
  cmp_main choice (file_of ls) =
  Some (fold_left (fun st v => tally v st) (omap (line_traced choice) ls) cmp_init).
Proof.
  intros Hch Hok. unfold cmp_main. rewrite <- (app_nil_r (file_of ls)).
  destruct (cmp_loop_lines choice ls [] (S (length (file_of ls ++ []))) cmp_init Hch Hok) as (fuel & Hf & ->);
    [lia|]. by destruct fuel; [cbn in Hf; lia|].
Qed.

Lemma read_rest_no_newline b k : newline ∉ b -> read_rest b k = None.
Proof.
  revert k. induction b as [|c b IH]; intros k Hb; [done|]. cbn [read_rest].
  destruct (_ <? _)%nat; [|done]. destruct (Ascii.eqb_spec c newline) as [->|]; [set_solver|].
  by rewrite IH by set_solver.
Qed.

(** * The table *)

Section table.
Implicit Types (ps : list Z) (v : Z) (st : cmp_state) (i k : nat).

(** How often [v] was traced, and one more than the number of its last cycle. *)
Definition ticks_of ps v : Z := foldr (fun u n => (if u =? v then 1 else 0) + n) 0 ps.
Definition last_tick ps v : Z :=
  (fold_left (fun '(n, e) u => (n + 1, if u =? v then n + 1 else e)) ps (0, 0)).2.

Lemma ticks_of_snoc ps u v : ticks_of (ps ++ [u]) v = ticks_of ps v + if u =? v then 1 else 0.
Proof.
  unfold ticks_of. rewrite foldr_app. cbn [foldr]. rewrite Z.add_0_r. generalize (if u =? v then 1 else 0).
  intros z. induction ps as [|w ps IH]; cbn [foldr]; [lia|]. rewrite IH. lia.
Qed.

Lemma last_tick_snoc ps u v :
  last_tick (ps ++ [u]) v = if u =? v then Z.of_nat (length ps) + 1 else last_tick ps v.
Proof.
  assert (forall e, (fold_left (fun '(n, e) w => (n + 1, if w =? v then n + 1 else e)) ps e).1 = e.1 + Z.of_nat (length ps)) as Hn.
  { induction ps as [|w ps IH]; intros [n e]; cbn [fold_left length]; [cbn; lia|]. rewrite IH. cbn. lia. }
  unfold last_tick. rewrite fold_left_app. cbn [fold_left]. specialize (Hn (0, 0)).
  destruct (fold_left _ ps (0, 0)) as [n e]. cbn in Hn |- *. case_match; [lia|done].
Qed.

Lemma ticks_of_bound ps v : 0 <= ticks_of ps v <= Z.of_nat (length ps).
Proof. induction ps as [|u ps IH]; [done|]. cbn [ticks_of foldr length]. unfold ticks_of in *. case_match; lia. Qed.

(** The first [k] slots are taken, one for each task traced so far. *)
Record table ps k st : Prop := {
  tb_slots : (k <= 9)%nat;
  tb_marked i : marked st i = if (i <? k)%nat then 1 else 0;
  tb_distinct i j : (i < k)%nat -> (j < k)%nat -> pid st i = pid st j -> i = j;
  tb_seen v : v ∈ ps <-> exists i, (i < k)%nat /\ pid st i = v;
  tb_running i : running_cycle st i = if (i <? k)%nat then ticks_of ps (pid st i) else 0;
  tb_end i : end_time st i = if (i <? k)%nat then last_tick ps (pid st i) else 0;
  tb_start i : start_time st i = 0;
  tb_cycle : cycle st = Z.of_nat (length ps);
  tb_printed : printed st = imap (fun n v => (Z.of_nat n, v)) ps }.

Lemma table_init : table [] 0 cmp_init.
Proof.
  split; try done; [lia|lia|]. intros v. split; [set_solver|]. intros (i & ? & _). lia.
Qed.

(** The search loop finds the first slot with the property. *)
Lemma first_slot_spec P : let i := first_slot P in
  (i <= 9)%nat /\ (forall j, (j < i)%nat -> P j = false) /\ ((i < 9)%nat -> P i = true).
Proof.
  unfold first_slot.
  assert (forall n i0, let i := first_from P n i0 in
    (i0 <= i <= i0 + n)%nat /\ (forall j, (i0 <= j < i)%nat -> P j = false) /\ ((i < i0 + n)%nat -> P i = true)) as H.
  { induction n as [|n IH]; intros i0; cbn [first_from].
    - split; [lia|]. split; intros; lia.
    - destruct (P i0) eqn:E; [split; [lia|]; split; [intros; lia|done]|].
      destruct (IH (S i0)) as (H1 & H2 & H3). split; [lia|]. split.
      + intros j Hj. destruct (decide (j = i0)) as [->|]; [done|]. apply H2. lia.
      + intros Hi. apply H3. lia. }
  destruct (H 9%nat 0%nat) as (H1 & H2 & H3). split; [lia|]. split; [intros j Hj; apply H2; lia|].
  intros Hi. apply H3. lia.
Qed.

(** A slot is free when a task that was not traced yet is one of at most nine. *)
Lemma table_room ps k st v (D : list Z) : table ps k st -> v ∉ ps -> (forall u, u ∈ ps ++ [v] -> u ∈ D) ->
  (length D <= 9)%nat -> (k < 9)%nat.
Proof.
  intros [A B C E _ _ _ _ _] Hv HD Hl. set (l := (pid st <$> seq 0 k) ++ [v]).
  assert (NoDup l) as Hnd.
  { apply NoDup_app. split; [|split; [|apply NoDup_singleton]].
    - apply NoDup_fmap_2_strong; [|apply NoDup_seq]. intros i j Hi%elem_of_seq Hj%elem_of_seq. apply C; lia.
    - intros u (i & -> & Hi%elem_of_seq)%list_elem_of_fmap Hu%list_elem_of_singleton.
      apply Hv, E. exists i. split; [lia|done]. }
  assert (forall u, u ∈ l -> u ∈ D) as Hsub.
  { intros u [(i & -> & Hi%elem_of_seq)%list_elem_of_fmap|Hu]%elem_of_app; apply HD, elem_of_app; [|by right].
    left. apply E. exists i. split; [lia|done]. }
  pose proof (submseteq_length _ _ (NoDup_submseteq l D Hnd Hsub)) as Hle.
  unfold l in Hle. rewrite length_app, length_fmap, length_seq in Hle. cbn [length] in Hle. lia.
Qed.

Lemma set_at_at i v a j : set_at i v a j = if (j =? i)%nat then v else a j.
Proof. done. Qed.

(** One more line of a task that has a slot. *)
Lemma tally_old ps k st i : table ps k st -> (i < k)%nat -> Z.of_nat (length ps) < 2 ^ 31 - 1 ->
  table (ps ++ [pid st i]) k (tally (pid st i) st).
Proof.
  intros [A B C E F G H I J] Hi Hlen. set (v := pid st i). unfold tally.
  assert (first_slot (fun j => c_true (marked st j) && (pid st j =? v)) = i) as ->.
  { destruct (first_slot_spec (fun j => c_true (marked st j) && (pid st j =? v))) as (H1 & H2 & H3).
    set (i0 := first_slot _) in *. destruct (decide (i0 < 9)%nat) as [Hlt|].
    - specialize (H3 Hlt). rewrite B in H3. destruct (Nat.ltb_spec i0 k); [|done].
      apply andb_true_iff in H3 as [_ H3%Z.eqb_eq]. by apply C.
    - specialize (H2 i ltac:(lia)). rewrite B, (proj2 (Nat.ltb_lt i k)) in H2 by done.
      unfold v in H2. by rewrite Z.eqb_refl in H2. }
  rewrite (proj2 (Nat.ltb_lt i 9)) by lia. cbv zeta. unfold bump. cbv zeta.
  assert (forall j, (j < k)%nat -> (v =? pid st j) = (j =? i)%nat) as Hv.
  { intros j Hj. destruct (Nat.eqb_spec j i) as [->|Hne]; [apply Z.eqb_refl|]. apply Z.eqb_neq. intros Heq.
    apply Hne. by apply C. }
  pose proof (ticks_of_bound ps v) as Hb.
  split; cbn [marked pid running_cycle end_time start_time cycle printed setf]; try done.
  - intros u. rewrite elem_of_app, list_elem_of_singleton, E. split; [intros [?| ->]; [done|by exists i]|by left].
  - intros j. rewrite set_at_at. destruct (Nat.ltb_spec j k) as [Hj|Hj].
    + rewrite ticks_of_snoc, Hv by done. destruct (Nat.eqb_spec j i) as [->|].
      * rewrite F, (proj2 (Nat.ltb_lt i k)) by done. fold v. apply s32_small. lia.
      * rewrite F, (proj2 (Nat.ltb_lt j k)) by done. lia.
    + destruct (Nat.eqb_spec j i); [lia|]. rewrite F. by destruct (Nat.ltb_spec j k); [lia|].
  - intros j. rewrite set_at_at. destruct (Nat.ltb_spec j k) as [Hj|Hj].
    + rewrite last_tick_snoc, Hv by done. destruct (Nat.eqb_spec j i) as [->|].
      * rewrite I. apply s32_small. lia.
      * by rewrite G, (proj2 (Nat.ltb_lt j k)) by done.
    + destruct (Nat.eqb_spec j i); [lia|]. rewrite G. by destruct (Nat.ltb_spec j k); [lia|].
  - rewrite I, length_app. cbn [length]. rewrite s32_small by lia. lia.
  - rewrite J, I, imap_app. cbn [imap]. by rewrite Nat.add_0_r.
Qed.

Lemma ticks_of_notin ps v : v ∉ ps -> ticks_of ps v = 0.
Proof.
  induction ps as [|u ps IH]; intros Hv; [done|]. cbn [ticks_of foldr]. fold (ticks_of ps v).
  rewrite IH by set_solver. destruct (Z.eqb_spec u v); [set_solver|done].
Qed.

(** The first line of a task. *)
Lemma tally_new ps k st v : table ps k st -> v ∉ ps -> (k < 9)%nat -> Z.of_nat (length ps) < 2 ^ 31 - 1 ->
  table (ps ++ [v]) (S k) (tally v st).
Proof.
  intros [A B C E F G H I J] Hv Hk Hlen. unfold tally.
  assert (forall j, (j < k)%nat -> pid st j <> v) as Hne.
  { intros j Hj Heq. apply Hv, E. by exists j. }
  assert (first_slot (fun j => c_true (marked st j) && (pid st j =? v)) = 9%nat) as ->.
  { destruct (first_slot_spec (fun j => c_true (marked st j) && (pid st j =? v))) as (H1 & H2 & H3).
    set (i0 := first_slot _) in *. destruct (decide (i0 < 9)%nat) as [Hlt|]; [|lia].
    specialize (H3 Hlt). rewrite B in H3. destruct (Nat.ltb_spec i0 k) as [Hlk|]; [|done].
    apply andb_true_iff in H3 as [_ H3%Z.eqb_eq]. by destruct (Hne i0 Hlk). }
  assert (first_slot (fun j => negb (c_true (marked st j))) = k) as ->.
  { destruct (first_slot_spec (fun j => negb (c_true (marked st j)))) as (H1 & H2 & H3).
    set (i0 := first_slot _) in *. destruct (lt_eq_lt_dec i0 k) as [[Hlt| ->]|Hgt]; [|done|].
    - specialize (H3 ltac:(lia)). by rewrite B, (proj2 (Nat.ltb_lt i0 k)) in H3.
    - specialize (H2 k Hgt). by rewrite B, Nat.ltb_irrefl in H2. }
  rewrite (proj2 (Nat.ltb_lt k 9)) by done. cbn [Nat.ltb Nat.leb]. cbv zeta. unfold bump. cbv zeta.
  assert (forall j, (j < S k)%nat -> set_at k v (pid st) j = if (j =? k)%nat then v else pid st j) as Hp by done.
  assert (forall j, (j < k)%nat -> (v =? pid st j) = false) as Hv'.
  { intros j Hj. apply Z.eqb_neq. intros Heq. by apply (Hne j). }
  split; cbn [marked pid running_cycle end_time start_time cycle printed setf]; try done.
  - intros j. rewrite set_at_at, B.
    destruct (Nat.eqb_spec j k), (Nat.ltb_spec j k), (Nat.ltb_spec j (S k)); lia.
  - intros i j Hi Hj. rewrite !set_at_at. destruct (Nat.eqb_spec i k) as [->|], (Nat.eqb_spec j k) as [->|]; intros Heq.
    + done.
    + by destruct (Hne j); [lia|].
    + by destruct (Hne i); [lia|].
    + apply C; [lia|lia|done].
  - intros u. rewrite elem_of_app, list_elem_of_singleton, E. split.
    + intros [(i & Hi & <-)| ->].
      * exists i. rewrite set_at_at. destruct (Nat.eqb_spec i k); [lia|]. split; [lia|done].
      * exists k. rewrite set_at_at, Nat.eqb_refl. split; [lia|done].
    + intros (i & Hi & <-). rewrite set_at_at. destruct (Nat.eqb_spec i k) as [->|]; [by right|].
      left. exists i. split; [lia|done].
  - intros j. rewrite !set_at_at. destruct (Nat.eqb_spec j k) as [->|].
    + rewrite (proj2 (Nat.ltb_lt k (S k))) by lia. rewrite ticks_of_snoc, Z.eqb_refl, ticks_of_notin by done.
      rewrite F, Nat.ltb_irrefl. done.
    + rewrite F. destruct (Nat.ltb_spec j k), (Nat.ltb_spec j (S k)); try lia.
      rewrite ticks_of_snoc, Hv' by done. lia.
  - intros j. rewrite !set_at_at. destruct (Nat.eqb_spec j k) as [->|].
    + rewrite (proj2 (Nat.ltb_lt k (S k))) by lia. rewrite last_tick_snoc, Z.eqb_refl, I. apply s32_small. lia.
    + rewrite G. destruct (Nat.ltb_spec j k), (Nat.ltb_spec j (S k)); try lia.
      by rewrite last_tick_snoc, Hv'.
  - rewrite I, length_app. cbn [length]. rewrite s32_small by lia. lia.
  - rewrite J, I, imap_app. cbn [imap]. by rewrite Nat.add_0_r.
Qed.

Lemma tally_all ps (D : list Z) : (forall u, u ∈ ps -> u ∈ D) -> (length D <= 9)%nat ->
  Z.of_nat (length ps) < 2 ^ 31 ->
  exists k, table ps k (fold_left (fun st v => tally v st) ps cmp_init).
Proof.
  intros HD Hl. induction ps as [|v ps IH] using rev_ind; intros Hlen; [exists 0%nat; apply table_init|].
  rewrite length_app in Hlen. cbn [length] in Hlen. rewrite fold_left_app. cbn [fold_left].
  destruct IH as (k & Hk); [intros u Hu; apply HD; set_solver|lia|].
  destruct (decide (v ∈ ps)) as [Hv|Hv].
  - apply (tb_seen _ _ _ Hk) in Hv as (i & Hi & <-). exists k. apply tally_old; [done|done|lia].
  - exists (S k). apply tally_new; [done|done| |lia]. by eapply table_room.
Qed.

(** ** The sums at the end *)

Definition total_over (f : Z -> Z) (D : list Z) : Z := foldr (fun v z => f v + z) 0 D.

Lemma total_over_sub f g (D : list Z) : total_over (fun v => f v - g v) D = total_over f D - total_over g D.
Proof. unfold total_over. induction D as [|v D IH]; cbn [foldr]; [done|]. rewrite IH. lia. Qed.

(** A sum over the nine slots that is zero in the free ones. *)
Lemma sum9_slots k st (g : Z -> Z) (h : nat -> Z) : (k <= 9)%nat ->
  (forall i, h i = if (i <? k)%nat then g (pid st i) else 0) -> sum9 h = total_over g (pid st <$> seq 0 k).
Proof.
  intros Hk Hh. unfold sum9.
  assert (forall n i0, foldr (fun i z => h i + z) 0 (seq i0 n) =
    total_over g (pid st <$> seq i0 (Nat.min n (k - i0)))) as Hs.
  { intros n. induction n as [|n IH]; intros i0; [done|]. cbn [seq foldr]. rewrite Hh, IH.
    destruct (Nat.ltb_spec i0 k).
    - replace (k - i0)%nat with (S (k - S i0)) by lia. rewrite <- Nat.succ_min_distr. done.
    - replace (k - i0)%nat with 0%nat by lia. replace (k - S i0)%nat with 0%nat by lia.
      by rewrite !Nat.min_0_r. }
  rewrite Hs. by rewrite Nat.sub_0_r, Nat.min_r.
Qed.

Lemma table_sums ps k st : table ps k st ->
  let D := pid st <$> seq 0 k in
  NoDup D /\ (forall v, v ∈ D <-> v ∈ ps) /\
  turnaround_sum st = total_over (last_tick ps) D /\
  waiting_sum st = total_over (fun v => last_tick ps v - ticks_of ps v) D.
Proof.
  intros [A B C E F G H I J] D. split; [|split].
  - apply NoDup_fmap_2_strong; [|apply NoDup_seq]. intros i j Hi%elem_of_seq Hj%elem_of_seq. apply C; lia.
  - intros v. rewrite E. unfold D. rewrite list_elem_of_fmap. split.
    + intros (i & -> & Hi%elem_of_seq). exists i. split; [lia|done].
    + intros (i & Hi & <-). exists i. split; [done|]. apply elem_of_seq. lia.
  - assert (turnaround_sum st = total_over (last_tick ps) D) as Ht.
    { apply sum9_slots; [done|]. intros i. rewrite G, H. case_match; lia. }
    split; [done|]. rewrite total_over_sub, <- Ht. unfold waiting_sum. f_equal. by apply sum9_slots.
Qed.
End table.

(** C31: cmp.c reads what the kernel wrote.  On a console log of tracing lines
    and other lines that are not empty, have at most 498 characters, contain no
    newline and do not start like a tracing line, with at most nine tasks among the
    fewer than 2^31 lines of the chosen policy, the tool ends with one slot for each of these
    tasks, which holds the number of the task's ticks and the time of its last
    one; it prints the ticks numbered from 0; and the two sums it averages are
    those of the completion times and of the time each task did not run before it
    completed. *)
Theorem cmp_reads_klog choice ls (D : list Z) : 1 <= choice <= 3 -> Forall line_ok ls ->
  let ps := omap (line_traced choice) ls in
  (forall v, v ∈ ps -> v ∈ D) -> (length D <= 9)%nat -> Z.of_nat (length ps) < 2 ^ 31 ->
  exists st k, cmp_main choice (file_of ls) = Some st /\ (k <= 9)%nat /\
    let tasks := pid st <$> seq 0 k in
    NoDup tasks /\ (forall v, v ∈ tasks <-> v ∈ ps) /\
    (forall i, (i < k)%nat -> running_cycle st i = ticks_of ps (pid st i) /\
                              end_time st i = last_tick ps (pid st i)) /\
    printed st = imap (fun n v => (Z.of_nat n, v)) ps /\
    turnaround_sum st = total_over (last_tick ps) tasks /\
    waiting_sum st = total_over (fun v => last_tick ps v - ticks_of ps v) tasks.
Proof.
  intros Hch Hok ps HD Hl Hlen. destruct (tally_all ps D HD Hl Hlen) as (k & Ht).
  set (st := fold_left _ ps cmp_init) in *. exists st, k.
  split; [by apply cmp_main_lines|]. split; [apply (tb_slots _ _ _ Ht)|].
  destruct (table_sums ps k st Ht) as (H1 & H2 & H3 & H4). split; [done|]. split; [done|].
  split; [|split; [apply (tb_printed _ _ _ Ht)|done]]. intros i Hi.
  by rewrite (tb_running _ _ _ Ht), (tb_end _ _ _ Ht), (proj2 (Nat.ltb_lt i k)).
Qed.

(** a log without a final newline.  The inner loop of cmp.c waits for a
    newline that never comes and writes behind its buffer: every file whose last
    line is not ended is outside the tool's domain, whatever stands before. *)
Theorem cmp_needs_newline choice ls t : 1 <= choice <= 3 -> Forall line_ok ls ->
  t <> [] -> newline ∉ t -> cmp_main choice (file_of ls ++ t) = None.
Proof.
  intros Hch Hok Hne Ht. unfold cmp_main.
  destruct (cmp_loop_lines choice ls t (S (length (file_of ls ++ t))) cmp_init Hch Hok) as (fuel & Hf & ->); [lia|].
  destruct fuel as [|fuel]; [lia|]. destruct t as [|c t]; [done|]. cbn [cmp_loop].
  by rewrite read_rest_no_newline by set_solver.
Qed.

(** * An instance *)

(** Two RAS tasks, and a line of the boot messages. *)
Definition demo_log : list console_line :=
  [Other (chars "serial0 console"); Traced (RAS_Tracing 407 3); Traced (RAS_Tracing 12 5);
   Traced (RAS_Tracing 407 2); Traced (RR_tracing 9 1)].

Lemma demo_log_ok : Forall line_ok demo_log.
Proof.
  repeat (apply Forall_cons; split; [|]); [|split; vm_compute; congruence..|apply Forall_nil; exact I].
  split; [discriminate|]. split; [apply (bool_decide_unpack _); vm_compute; exact I|].
  split; [vm_compute; lia|]. repeat constructor.
Defined.

Lemma cmp_reads_klog_witness : exists st, cmp_main 3 (file_of demo_log) = Some st /\
  printed st = [(0, 407); (1, 12); (2, 407)] /\ turnaround_sum st = 5 /\ waiting_sum st = 2.
Proof.
  destruct (cmp_reads_klog 3 demo_log [407; 12] ltac:(lia) demo_log_ok) as (st & k & E & _ & _ & _ & _ & Hp & _);
    [|vm_compute; lia|vm_compute; reflexivity|].
  - intros v Hv. vm_compute in Hv. vm_compute. repeat (apply elem_of_cons in Hv as [->|Hv]; [set_solver|]). set_solver.
  - exists st. split; [exact E|]. split; [exact Hp|].
    assert (option_map (fun st => (turnaround_sum st, waiting_sum st)) (cmp_main 3 (file_of demo_log)) = Some (5, 2))
      as Hs by (vm_compute; reflexivity).
    rewrite E in Hs. cbn [option_map] in Hs. by injection Hs.
Defined.

Lemma cmp_needs_newline_witness : cmp_main 3 (file_of demo_log ++ chars "RAS") = None.
Proof.
  apply cmp_needs_newline; [lia|exact demo_log_ok|discriminate|].
  apply (bool_decide_unpack _). vm_compute. exact I.
Defined.

(** The first character of a line is not tested: an empty line swallows the
    line behind it. *)
Example cmp_empty_line :
  option_map printed (cmp_main 3 (newline :: file_of [Traced (RAS_Tracing 407 3)])) = Some [].
Proof. vm_compute. reflexivity. Qed.
