(* ===== verification/Features.v ===== *)
(** The scheduler's features and the debugfs file sched_features, in
    kernel/sched/core.c below CONFIG_SCHED_DEBUG and jump labels.

    [sched_feat_names] are the names of features.h, and [strstrip] and the keys
    are the kernel's; a name stands for the bit of its position.  A write is the
    list of the characters the user handed over, or [None] when they cannot be
    read. *)

From S2P Require Import Prelude Sched Cmp.
From Stdlib Require Import Ascii.
#[local] Open Scope Z_scope.

Class FeatEnv := {
  sched_feat_names : list (list ascii);
  strstrip : list ascii -> list ascii;
  static_key : Type;
  static_key_count : static_key -> Z;
  static_key_slow_inc : static_key -> static_key;
  static_key_slow_dec : static_key -> static_key }.
(** linux/jump_label.h and lib/string.c: the keys count, and strstrip() keeps a
    string that has no white space. *)
Definition is_space (c : ascii) : bool := let n := Ascii.nat_of_ascii c in (n =? 32)%nat || (9 <=? n)%nat && (n <=? 13)%nat.
Class FeatLaws `{FeatEnv} : Prop := {
  slow_inc k : static_key_count (static_key_slow_inc k) = static_key_count k + 1;
  slow_dec k : static_key_count (static_key_slow_dec k) = static_key_count k - 1;
  strip_word w : forallb (fun c => negb (is_space c)) w = true -> strstrip w = w }.

(** The string "NO_" *)
Definition NO_ : list ascii := chars "NO_".
(** The end of a word and of the line in what the file shows *)
Definition SPACE : ascii := " "%char.
Definition NEWLINE : ascii := Ascii.ascii_of_nat 10.

Section features.
Context {FE : FeatEnv}.

(** [sysctl_sched_features], an unsigned int, and [sched_feat_keys[]]; the word is
    only changed through [1UL << i], both of 32 bits *)
Record features := mkFeat { sysctl_sched_features : Z; sched_feat_keys : list static_key }.
#[export] Instance eta_features : Eta features := fun r => mkFeat r.(sysctl_sched_features) r.(sched_feat_keys).

(** sched_feat() *)
Definition sched_feat (i : nat) (f : features) : bool := Z.testbit (sysctl_sched_features f) (Z.of_nat i).

(** sched_feat_show() *)
Definition show_word (f : features) (i : nat) (name : list ascii) : list ascii := (if sched_feat i f then [] else NO_) ++ name.
Definition show_words (f : features) : list (list ascii) := imap (show_word f) sched_feat_names.
Definition sched_feat_show (f : features) : list ascii := concat ((fun w => w ++ [SPACE]) <$> show_words f) ++ [NEWLINE].

(** static_key_enabled(), sched_feat_disable(), sched_feat_enable() *)
Definition static_key_enabled (k : static_key) : bool := 0 <? static_key_count k.
Definition sched_feat_disable (i : nat) (f : features) : features :=
  f <| sched_feat_keys ::= alter (fun k => if static_key_enabled k then static_key_slow_dec k else k) i |>.
Definition sched_feat_enable (i : nat) (f : features) : features :=
  f <| sched_feat_keys ::= alter (fun k => if negb (static_key_enabled k) then static_key_slow_inc k else k) i |>.

(** [i] when the loop over the names breaks, or ends *)
Fixpoint find_feat (names : list (list ascii)) (cmp : list ascii) (i : nat) : nat :=
  match names with
  | [] => i
  | n :: names => if decide (cmp = n) then i else find_feat names cmp (S i)
  end.

(** sched_feat_write(), with the new position in the file *)
Definition sched_feat_write (ubuf : option (list ascii)) (ppos : Z) (f : features) : Z * Z * features :=
  match ubuf with
  | None => (- EFAULT, ppos, f)
  | Some u =>
      let buf := take 63 u in
      let cnt := Z.of_nat (length buf) in
      let cmp := strstrip (c_string buf) in
      let neg := bool_decide (take 3 cmp = NO_) in
      let cmp := if neg then drop 3 cmp else cmp in
      let i := find_feat sched_feat_names cmp 0 in
      if (i =? length sched_feat_names)%nat then (- EINVAL, ppos, f)
      else
        let f := if neg
                 then sched_feat_disable i (f <| sysctl_sched_features ::= fun x => u32 (Z.ldiff x (Z.shiftl 1 (Z.of_nat i))) |>)
                 else sched_feat_enable i (f <| sysctl_sched_features ::= fun x => u32 (Z.lor x (Z.shiftl 1 (Z.of_nat i))) |>) in
        (cnt, ppos + cnt, f)
  end.

(** ** Reading back what the file shows *)

(** Names as features.h has them: at most as many as the word has bits, distinct,
    without white space or NUL, short enough for the buffer, none with the prefix. *)
Record names_ok : Prop := {
  no_bits : (length sched_feat_names <= 32)%nat;
  no_nodup : NoDup sched_feat_names;
  no_space : forall n, n ∈ sched_feat_names -> forallb (fun c => negb (is_space c) && negb (Ascii.eqb c NUL)) n = true;
  no_length : forall n, n ∈ sched_feat_names -> (length n <= 60)%nat;
  no_prefix : forall n, n ∈ sched_feat_names -> take 3 n <> NO_ }.
(** A key is on when its feature is, and all features have keys. *)
Record feat_inv (f : features) : Prop := {
  fi_keys : length (sched_feat_keys f) = length sched_feat_names;
  fi_count : forall i k, sched_feat_keys f !! i = Some k -> static_key_count k = of_bool (sched_feat i f) }.

Lemma find_feat_hit names n i k : NoDup names -> names !! i = Some n -> find_feat names n k = (k + i)%nat.
Proof.
  revert i k. induction names as [|m names IH]; intros i k Hnd E; [done|]. apply NoDup_cons in Hnd as [Hm Hnd]. cbn [find_feat].
  destruct i as [|i]; cbn in E.
  - injection E as ->. rewrite decide_True by done. lia.
  - rewrite decide_False by (intros ->; by apply list_elem_of_lookup_2 in E). rewrite (IH i) by done. lia.
Qed.
Lemma c_string_word w : forallb (fun c => negb (is_space c) && negb (Ascii.eqb c NUL)) w = true -> c_string w = w.
Proof.
  induction w as [|c w IH]; [done|]. cbn. intros [[_ H]%andb_true_iff Hw]%andb_true_iff. apply negb_true_iff in H. rewrite H. by rewrite IH.
Qed.
Lemma word_app w v : forallb (fun c => negb (is_space c) && negb (Ascii.eqb c NUL)) (w ++ v) =
  forallb (fun c => negb (is_space c) && negb (Ascii.eqb c NUL)) w && forallb (fun c => negb (is_space c) && negb (Ascii.eqb c NUL)) v.
Proof. apply forallb_app. Qed.

Context {FL : FeatLaws} (NO : names_ok).

(** One word switches its feature and nothing else. *)
Definition switched (i : nat) (b : bool) (f : features) : features :=
  if b then sched_feat_enable i (f <| sysctl_sched_features ::= fun x => u32 (Z.lor x (Z.shiftl 1 (Z.of_nat i))) |>)
  else sched_feat_disable i (f <| sysctl_sched_features ::= fun x => u32 (Z.ldiff x (Z.shiftl 1 (Z.of_nat i))) |>).
Lemma write_word (i : nat) (b : bool) n ppos f : sched_feat_names !! i = Some n ->
  let w := (if b then [] else NO_) ++ n in
  sched_feat_write (Some w) ppos f = (Z.of_nat (length w), ppos + Z.of_nat (length w), switched i b f).
Proof.
  intros E w. assert (n ∈ sched_feat_names) as Hn by by eapply list_elem_of_lookup_2.
  pose proof (no_space NO n Hn) as Hs. pose proof (no_length NO n Hn) as Hl. pose proof (no_prefix NO n Hn) as Hp.
  assert (length w <= 63)%nat as Hw by (unfold w; rewrite length_app; destruct b; [change (length (@nil ascii)) with 0%nat|change (length NO_) with 3%nat]; lia).
  assert (forallb (fun c => negb (is_space c) && negb (Ascii.eqb c NUL)) w = true) as Hsw by (unfold w; rewrite word_app, Hs; by destruct b).
  assert (strstrip (c_string w) = w) as Ew.
  { rewrite c_string_word by done. apply strip_word. apply forallb_forall. intros c Hc. rewrite forallb_forall in Hsw. specialize (Hsw c Hc).
    by apply andb_true_iff in Hsw as [? _]. }
  unfold sched_feat_write. rewrite (take_ge w 63 Hw). cbv zeta. rewrite Ew.
  pose proof (lookup_lt_Some _ _ _ E) as Hlt. destruct b; unfold w; cbn [app].
  - rewrite bool_decide_false by done. rewrite (find_feat_hit _ n i) by (done || apply NO). cbn [Nat.add].
    by rewrite (proj2 (Nat.eqb_neq i _)) by lia.
  - rewrite bool_decide_true by done. cbn [drop]. change (drop 3 (NO_ ++ n)) with n. rewrite (find_feat_hit _ n i) by (done || apply NO). cbn [Nat.add].
    by rewrite (proj2 (Nat.eqb_neq i _)) by lia.
Qed.
Lemma shift_bit i j : Z.testbit (Z.shiftl 1 (Z.of_nat i)) (Z.of_nat j) = (i =? j)%nat.
Proof.
  rewrite Z.shiftl_1_l, Z.pow2_bits_eqb by lia. destruct (Nat.eqb_spec i j) as [->|Hne]; [by rewrite Z.eqb_refl|].
  apply Z.eqb_neq. lia.
Qed.
Lemma u32_bit x j : (j < 32)%nat -> Z.testbit (u32 x) (Z.of_nat j) = Z.testbit x (Z.of_nat j).
Proof. intros H. unfold u32. apply Z.mod_pow2_bits_low. lia. Qed.
Lemma feat_bit i n : sched_feat_names !! i = Some n -> (i < 32)%nat.
Proof. intros H%lookup_lt_Some. pose proof (no_bits NO). lia. Qed.
Lemma switched_feat i b f j : (j < 32)%nat -> sched_feat j (switched i b f) = if (j =? i)%nat then b else sched_feat j f.
Proof.
  intros Hj. unfold sched_feat, switched. rewrite (Nat.eqb_sym j i). destruct b; cbn -[u32]; rewrite u32_bit by done.
  - rewrite Z.lor_spec, shift_bit. destruct (i =? j)%nat; [by rewrite orb_true_r|by rewrite orb_false_r].
  - rewrite Z.ldiff_spec, shift_bit. destruct (i =? j)%nat; [by rewrite andb_false_r|by rewrite andb_true_r].
Qed.
Lemma switched_inv i b f : feat_inv f -> feat_inv (switched i b f).
Proof.
  intros [H1 H2]. split.
  - unfold switched. destruct b; cbn; by rewrite length_alter.
  - intros j k E. assert (j < 32)%nat as Hj.
    { pose proof (no_bits NO). apply lookup_lt_Some in E. unfold switched in E. destruct b; cbn in E; rewrite length_alter in E; lia. }
    rewrite switched_feat by done. unfold switched in E. destruct (Nat.eqb_spec j i) as [->|Hne].
    + destruct b; cbn in E; rewrite list_lookup_alter_eq in E; apply fmap_Some in E as (k0 & E & ->); pose proof (H2 _ _ E) as Hc;
        unfold static_key_enabled; rewrite Hc; destruct (sched_feat i f); cbn in *; rewrite ?slow_inc, ?slow_dec, ?Hc; done.
    + destruct b; cbn in E; rewrite list_lookup_alter_ne in E by done; by apply H2.
Qed.

(** Writing words one after the other, until one fails *)
Fixpoint write_all (ws : list (list ascii)) (f : features) : option features :=
  match ws with
  | [] => Some f
  | w :: ws => let '(ret, _, f) := sched_feat_write (Some w) 0 f in if ret <? 0 then None else write_all ws f
  end.
Lemma write_all_shown f n names g : (forall i m, names !! i = Some m -> sched_feat_names !! (n + i)%nat = Some m) -> feat_inv g ->
  exists g', write_all (imap (fun i => show_word f (n + i)) names) g = Some g' /\ feat_inv g' /\
    (forall j, (n <= j < n + length names)%nat -> sched_feat j g' = sched_feat j f) /\ (forall j, (j < n)%nat -> sched_feat j g' = sched_feat j g).
Proof.
  revert n g. induction names as [|m names IH]; intros n g Hn Hg.
  - exists g. split_and!; try done. intros j Hj. cbn in Hj. lia.
  - cbn [imap write_all]. assert (sched_feat_names !! (n + 0)%nat = Some m) as E0 by by apply Hn.
    unfold show_word at 1. rewrite (write_word (n + 0) (sched_feat (n + 0) f) m 0 g E0). cbv zeta.
    assert ((Z.of_nat (length ((if sched_feat (n + 0) f then [] else NO_) ++ m)) <? 0) = false) as -> by (apply Z.ltb_ge; lia).
    destruct (IH (S n) (switched (n + 0) (sched_feat (n + 0) f) g)) as (g' & E & Hg' & H1 & H2).
    + intros i x Hi. replace (S n + i)%nat with (n + S i)%nat by lia. by apply Hn.
    + by apply switched_inv.
    + exists g'. split_and!; [|done|..].
      * rewrite <- E. f_equal. apply imap_ext. intros i x _. cbn. by replace (n + S i)%nat with (S (n + i)) by lia.
      * intros j Hj. cbn in Hj. destruct (decide (j = n)) as [->|]; [|apply H1; lia]. rewrite H2 by lia. pose proof (feat_bit _ _ E0). rewrite switched_feat by lia.
        rewrite Nat.add_0_r, Nat.eqb_refl. done.
      * intros j Hj. pose proof (feat_bit _ _ E0). rewrite H2 by lia. rewrite switched_feat by lia. by rewrite (proj2 (Nat.eqb_neq j (n + 0))) by lia.
Qed.

(** C38: the file sched_features restores what it shows.  The words that
    sched_feat_show() prints for one state, written back one after the other, are
    all accepted, bring any other state to the same features, with the same text,
    and keep the jump-label keys in step with the features: a key is on, with one
    count, exactly when its feature is. *)
Theorem sched_feat_roundtrip f g : feat_inv g ->
  exists g', write_all (show_words f) g = Some g' /\ feat_inv g' /\ sched_feat_show g' = sched_feat_show f /\
    forall i, (i < length sched_feat_names)%nat -> sched_feat i g' = sched_feat i f.
Proof.
  intros Hg. destruct (write_all_shown f 0 sched_feat_names g) as (g' & E & Hg' & H1 & _); [done|done|].
  exists g'. split_and!; [exact E|done| |intros i Hi; apply H1; lia].
  unfold sched_feat_show, show_words. do 3 f_equal. apply imap_ext. intros i x Hx%lookup_lt_Some. unfold show_word. by rewrite H1 by lia.
Qed.
End features.

(** ** An instance: three features *)

Definition demo_feat_names : list (list ascii) := [chars "GENTLE"; chars "HRTICK"; chars "TTWU_QUEUE"].
(** The white space before the first word. *)
Fixpoint skip_spaces (w : list ascii) : list ascii :=
  match w with
  | [] => []
  | c :: w' => if is_space c then skip_spaces w' else w
  end.
Definition demo_feat_env : FeatEnv := {|
  sched_feat_names := demo_feat_names;
  strstrip := fun w => rev (skip_spaces (rev (skip_spaces w)));
  static_key := Z; static_key_count := fun k => k; static_key_slow_inc := fun k => k + 1; static_key_slow_dec := fun k => k - 1 |}.
Lemma skip_word w : forallb (fun c => negb (is_space c)) w = true -> skip_spaces w = w.
Proof. destruct w as [|c w]; [done|]. cbn. intros [H%negb_true_iff _]%andb_true_iff. by rewrite H. Qed.
Lemma demo_feat_laws : @FeatLaws demo_feat_env.
Proof.
  split; [done|done|]. intros w Hw. cbn. rewrite (skip_word w) by done. rewrite skip_word; [apply rev_involutive|].
  apply forallb_forall. intros c Hc. apply in_rev in Hc. revert c Hc. by apply forallb_forall.
Qed.
Lemma demo_feat_ok : @names_ok demo_feat_env.
Proof.
  split; cbn.
  - lia.
  - apply (bool_decide_unpack _). by vm_compute.
  - apply Forall_forall. repeat constructor.
  - apply Forall_forall. repeat (constructor; [cbn; lia|]). constructor.
  - apply Forall_forall. repeat (constructor; [done|]). constructor.
Qed.
Definition feat_on : features (FE := demo_feat_env) := mkFeat (FE := demo_feat_env) 5 [1; 0; 1].
Definition feat_off : features (FE := demo_feat_env) := mkFeat (FE := demo_feat_env) 2 [0; 1; 0].
Example feat_shown : sched_feat_show (FE := demo_feat_env) feat_on = chars "GENTLE NO_HRTICK TTWU_QUEUE " ++ [NEWLINE].
Proof. by vm_compute. Qed.
Lemma sched_feat_roundtrip_witness : exists g', write_all (FE := demo_feat_env) (show_words (FE := demo_feat_env) feat_on) feat_off = Some g' /\
  sched_feat_show (FE := demo_feat_env) g' = sched_feat_show (FE := demo_feat_env) feat_on.
Proof.
  destruct (@sched_feat_roundtrip demo_feat_env demo_feat_laws demo_feat_ok feat_on feat_off) as (g' & E & _ & H & _).
  - split; [done|]. intros [|[|[|i]]] k [= <-]; done.
  - by exists g'.
Defined.
