(* ===== verification/Init.v ===== *)
(** Starting and resetting the scheduler: sched_init() and normalize_rt_tasks()
    of kernel/sched/core.c.

    At boot the static data is zero, except for the two real-time sysctls.  The
    arrays of pointers that sched_init() allocates have one element each, which
    is a field of [task_group]; the boot of CFS, autogroup and the memory
    manager is a member of [BootEnv].  The list [task_groups] and the flag
    [scheduler_running] complete the state. *)

From S2P Require Import Prelude KList Sched Forest Cpuacct Ras Rt LoadAvg Core TaskGroup Account.

Class BootEnv `{KEnv} := {
  autogroup_init : nat -> Ext -> Ext;
  init_cfs_rq : Ext -> Ext;
  set_root_shares : Ext -> Ext;
  init_cfs_bandwidth : Ext -> Ext;
  init_tg_cfs_entry : nat -> Ext -> option nat * Ext;   (* the group entity stored *)
  enter_lazy_tlb : nat -> Ext -> Ext;                   (* with the reference to init_mm *)
  init_sched_fair_class : Ext -> Ext }.

Record bst `{KTypes} := mkBst { bg : gst; scheduler_running : bool }.
#[export] Instance eta_bst `{KTypes} : Eta bst := fun r => mkBst _ r.(bg) r.(scheduler_running).

Section init.
Context {KT : KTypes} {KE : KEnv} {CE : CoreEnv} {TE : TgEnv} {BE : BootEnv}.

(** core.c: the initial values of the sysctls *)
Definition boot_rt_period : Z := 1000000.
Definition boot_rt_runtime : Z := 950000.

(** The bandwidths, the root group and the accounting root. *)
Definition init_bandwidths (s : kst) : kst :=
  let period := global_rt_period s in
  let runtime := global_rt_runtime s in
  let s := s <| def_rt_bandwidth ::= init_rt_bandwidth period runtime |> in
  upd_tg root_task_group (fun t => t <| tg_rt_bandwidth ::= init_rt_bandwidth period runtime |>) s.
Definition init_root_group (init_task : nat) (s : gst) : gst :=
  let s := s <| task_groups ::= fun l => root_task_group :: l |> in
  let s := upd_gk (upd_tg root_task_group (fun t => t <| tg_children := [] |>)) s in
  upd_gk (fun k => k <| ext ::= autogroup_init init_task |>) s.

(** The body of for_each_possible_cpu(): the root group's part of the run
    queue, and the whole. *)
Definition init_root_entries (s : kst) : kst :=
  let s := s <| ext ::= set_root_shares |> in
  let s := s <| ext ::= init_cfs_bandwidth |> in
  let '(se, e) := init_tg_cfs_entry root_task_group (ext s) in
  let s := s <| ext := e |> in
  let s := upd_tg root_task_group (fun t => t <| tg_se := se |>) s in
  let runtime := rtb_runtime (def_rt_bandwidth s) in
  let s := upd_rt_rq root_task_group (fun r => r <| rt_runtime := runtime |>) s in
  let s := s <| leaf_rt_rqs := [] |> in
  init_tg_rt_entry root_task_group false None s.
Definition init_rq (s : kst) : kst :=
  let s := upd_rq (fun r => r <| nr_running := 0 |>) s in
  let s := upd_rq (fun r => r <| calc_load_active := 0 |>) s in
  let s := upd_rq (fun r => r <| rq_calc_load_update := u32 (jiffies s + LOAD_FREQ) |>) s in
  let s := s <| ext ::= init_cfs_rq |> in
  let s := init_rt_rq root_task_group s in
  let s := init_ras_rq s in
  let s := init_root_entries s in
  let s := upd_rq (fun r => r <| cpu_load := [0; 0; 0; 0; 0] |>) s in
  let s := upd_rq (fun r => r <| last_load_update_tick := jiffies s |>) s in
  upd_rq (fun r => r <| nr_iowait := 0 |>) s.

(** sched_init(); [init_task] is [current], [ok] the outcome of the allocation
    behind the BUG_ON() ([None]), [now] the value of sched_clock() *)
Definition sched_init (init_task : nat) (ok : bool) (now : Z) (s : bst) : option bst :=
  let g := upd_gk init_bandwidths (bg s) in
  let g := init_root_group init_task g in
  if negb ok then None
  else
    let g := upd_gk (cpuacct_cpuusage_write root_cpuacct 0) g in
    let g := upd_gk init_rq g in
    let g := upd_gk (set_load_weight init_task) g in
    let g := upd_gk (fun k => k <| ext ::= enter_lazy_tlb init_task |>) g in
    let g := upd_gk (init_idle init_task now) g in
    let g := upd_gk (fun k => k <| loadavg ::= fun l => l <| calc_load_update := u32 (jiffies k + LOAD_FREQ) |> |>) g in
    let g := upd_gk (upd_task init_task (fun t => t <| t_class := fair_class |>)) g in
    let g := upd_gk (fun k => k <| ext ::= init_sched_fair_class |>) g in
    Some (mkBst _ g true).

(** normalize_task() *)
Definition normalize_task (p : nat) (s : kst) : kst :=
  let prev_class := t_class (tasks s p) in
  let old_prio := t_prio (tasks s p) in
  let on_rq := c_true (t_on_rq (tasks s p)) in
  let s := if on_rq then dequeue_task p 0 s else s in
  let s := __setscheduler p SCHED_NORMAL 0 s in
  let s := if on_rq then resched_task (curr s) (enqueue_task p 0 s) else s in
  check_class_changed p prev_class old_prio s.

(** normalize_rt_tasks(): the body of do_each_thread(), and the function *)
Definition normalize_one (p : nat) (s : kst) : kst :=
  if bool_decide (t_mm (tasks s p) = None) then s
  else
    let s := upd_se p (fun e => e <| exec_start := 0 |>) s in
    let s := upd_se p (fun e => e <| statistics ::= fun st => st <| wait_start := 0 |> |>) s in
    let s := upd_se p (fun e => e <| statistics ::= fun st => st <| sleep_start := 0 |> |>) s in
    let s := upd_se p (fun e => e <| statistics ::= fun st => st <| block_start := 0 |> |>) s in
    if negb (rt_task s p) then
      if (task_nice (tasks s p) <? 0) && bool_decide (t_mm (tasks s p) <> None) then set_user_nice p 0 s else s
    else normalize_task p s.
Definition normalize_rt_tasks (s : kst) : kst :=
  fold_left (fun s p => normalize_one p s) (all_threads (ext s)) s.
End init.
