(* ===== verification/InitSpec.v ===== *)
(** What sched_init() establishes: from the zeroed static data of a booting
    kernel, the invariants of all the other components.  The specifications
    of the classes, of the hierarchy of groups and of the load averages start
    from here. *)

From S2P Require Import Prelude KList Sched Forest Cpuacct Demo Ras RasSpec Rt RtSpec LoadAvg LoadSpec Core CoreSpec WakeSpec PolicySpec CoreWitness TaskGroup TaskGroupSpec GroupWitness Account Init.

(** * The lists and the priority array *)

Section init.
Context {KT : KTypes} {KE : KEnv} {KL : KEnvLaws} {NL : KListLaws node}.
Context {CE : CoreEnv} {CL : CoreLaws} {TE : TgEnv} {BE : BootEnv}.
Implicit Types (s : kst).

(** No node is on a list. *)
Definition all_unlinked (l : lh (A := node)) : Prop := lh_ok l /\ forall n, view l n = [].

Lemma unlinked_init a l : all_unlinked l -> all_unlinked (INIT_LIST_HEAD a l).
Proof.
  intros [Hok Hv]. destruct (init_spec l a Hok (Hv a)) as [H1 H2]. split; [done|].
  intros n. by rewrite H2.
Qed.

Lemma unlinked_ras l : all_unlinked l -> ras_linked l [].
Proof. intros [Hok Hv]. split; [done|by rewrite Hv|by intros p _]. Qed.

Lemma unlinked_rt l : all_unlinked l -> rt_linked l no_queues.
Proof. intros [Hok Hv]. split; [done|by intros i _|by intros p _|by intros p i j _ _ ?%not_elem_of_nil]. Qed.

(** The parts of the state that setting up the run queue of a group leaves
    alone, and its lists. *)
Record queues_only (s s' : kst) : Prop := {
  qo_tasks : tasks s' = tasks s;
  qo_rq : rq s' = rq s;
  qo_tgs : tgs s' = tgs s;
  qo_def : def_rt_bandwidth s' = def_rt_bandwidth s;
  qo_period : sysctl_sched_rt_period s' = sysctl_sched_rt_period s;
  qo_runtime : sysctl_sched_rt_runtime s' = sysctl_sched_rt_runtime s;
  qo_jiffies : jiffies s' = jiffies s;
  qo_loadavg : loadavg s' = loadavg s;
  qo_cpuusage : cpuusage s' = cpuusage s;
  qo_links : all_unlinked (links s) -> all_unlinked (links s') }.

Lemma queues_only_refl s : queues_only s s.
Proof. by split. Qed.

Lemma queues_only_trans s1 s2 s3 : queues_only s1 s2 -> queues_only s2 s3 -> queues_only s1 s3.
Proof. intros [] []. split; try congruence. auto. Qed.

Lemma queues_only_rt_rq g F s : queues_only s (upd_rt_rq g F s).
Proof. by split. Qed.

(** Clearing the bits of an empty bitmap. *)
Lemma init_rt_queues_boot n g s : rt_bitmap (rt_rqs s g) = 0 ->
  queues_only s (init_rt_queues n g s) /\ rt_rqs (init_rt_queues n g s) g = rt_rqs s g.
Proof.
  intros Hb. induction n as [|n [IH1 IH2]]; [split; [apply queues_only_refl|done]|].
  cbn [init_rt_queues]. cbv zeta. set (s1 := init_rt_queues n g s) in *. clearbody s1. split.
  - eapply queues_only_trans; [|apply queues_only_rt_rq].
    eapply queues_only_trans; [exact IH1|]. split; try done. apply unlinked_init.
  - rewrite rt_rqs_upd_eq. change (rt_rqs (?x <| links ::= ?f |>)) with (rt_rqs x). rewrite IH2.
    destruct (rt_rqs s g) as [b nr hp th t rn bo tg]. cbn in *. subst b.
    by rewrite Z.clearbit_spec', Z.ldiff_0_l.
Qed.

Lemma init_rt_rq_boot g s : rt_bitmap (rt_rqs s g) = 0 ->
  queues_only s (init_rt_rq g s) /\
  rt_rqs (init_rt_rq g s) g = (rt_rqs s g) <| rt_bitmap := 2 ^ MAX_RT_PRIO |>
    <| rt_time := 0 |> <| rt_throttled := 0 |> <| rt_runtime := 0 |>.
Proof.
  intros Hb. unfold init_rt_rq.
  destruct (init_rt_queues_boot (Z.to_nat MAX_RT_PRIO) g s Hb) as [H1 H2].
  generalize dependent (init_rt_queues (Z.to_nat MAX_RT_PRIO) g s). intros s1 H1 H2. cbv zeta. split.
  - eapply queues_only_trans; [exact H1|]. eapply queues_only_trans; apply queues_only_rt_rq.
  - rewrite !rt_rqs_upd_eq, H2. destruct (rt_rqs s g). cbn in *. by subst.
Qed.

(** * The boot state *)

(** The static data of a booting kernel: zero, but for the two sysctls. *)
Definition zero_tg : task_group := mkTg None None (mkRtB 0 0 false) None [].
Record booting (b : bst) : Prop := {
  boot_links : all_unlinked (links (gk (bg b)));
  boot_rt : rt_rqs (gk (bg b)) root_task_group = zero_rt_rq;
  boot_tg : tgs (gk (bg b)) root_task_group = zero_tg;
  boot_list : task_groups (bg b) = [];
  boot_period : sysctl_sched_rt_period (gk (bg b)) = boot_rt_period;
  boot_runtime : sysctl_sched_rt_runtime (gk (bg b)) = boot_rt_runtime;
  boot_load : loadavg (gk (bg b)) = mkLoad 0 0 [0; 0; 0] [0; 0] 0;
  boot_cfs : cfs_h_nr_running (rq (gk (bg b))) = 0;
  boot_unint : nr_uninterruptible (rq (gk (bg b))) = 0;
  boot_stop : rq_stop (rq (gk (bg b))) = None }.

(** The 95 percent of a second that real-time tasks may use. *)
Definition boot_bandwidth : rt_bandwidth := mkRtB 1000000000 950000000 false.

(** The entries of the root group. *)
Lemma init_root_entries_holds s :
  let s' := init_root_entries s in
  queues_only (s <| tgs := tgs s' |>) s' /\ links s' = links s /\
  rt_rqs s' root_task_group = (rt_rqs s root_task_group) <| rt_runtime := rtb_runtime (def_rt_bandwidth s) |>
    <| highest_prio := MAX_RT_PRIO |> <| rt_nr_boosted := 0 |> <| rt_tg := Some root_task_group |> /\
  (exists se, tgs s' root_task_group = (tgs s root_task_group) <| tg_se := se |> <| tg_rt_se := None |>).
Proof.
  unfold init_root_entries. cbv zeta.
  match goal with |- context [init_tg_cfs_entry root_task_group ?e] => destruct (init_tg_cfs_entry root_task_group e) as [se e'] end.
  unfold init_tg_rt_entry. cbn [negb]. cbv zeta.
  split; [by split|]. split; [reflexivity|]. split; [reflexivity|]. by exists se.
Qed.

(** The run queue after the body of the loop. *)
Lemma init_rq_holds s (Hl : all_unlinked (links s)) (Hr : rt_rqs s root_task_group = zero_rt_rq)
    (Hb : def_rt_bandwidth s = boot_bandwidth) :
  let s' := init_rq s in
  all_unlinked (links s') /\
  rt_rqs s' root_task_group = mkRtRq (2 ^ MAX_RT_PRIO) 0 MAX_RT_PRIO 0 0 950000000 0 (Some root_task_group) /\
  (exists se, tgs s' root_task_group = (tgs s root_task_group) <| tg_se := se |> <| tg_rt_se := None |>) /\
  rq s' = (rq s) <| nr_running := 0 |> <| calc_load_active := 0 |>
    <| rq_calc_load_update := u32 (jiffies s + LOAD_FREQ) |> <| rq_ras := mkRasRq 0 0 |>
    <| cpu_load := [0; 0; 0; 0; 0] |> <| last_load_update_tick := jiffies s |> <| nr_iowait := 0 |> /\
  (tasks s' = tasks s /\ loadavg s' = loadavg s /\ jiffies s' = jiffies s /\ cpuusage s' = cpuusage s /\
  sysctl_sched_rt_period s' = sysctl_sched_rt_period s /\
  sysctl_sched_rt_runtime s' = sysctl_sched_rt_runtime s).
Proof.
  unfold init_rq. cbv zeta.
  match goal with |- context [init_rt_rq root_task_group ?x] =>
    assert (queues_only x (init_rt_rq root_task_group x) /\ _) as [Hq Hi] by
      (apply init_rt_rq_boot; change (rt_rqs x) with (rt_rqs s); by rewrite Hr);
    change (rt_rqs x) with (rt_rqs s) in Hi;
    assert (Er : rq x = (rq s) <| nr_running := 0 |> <| calc_load_active := 0 |>
      <| rq_calc_load_update := u32 (jiffies s + LOAD_FREQ) |>) by done;
    assert (Ed : def_rt_bandwidth x = boot_bandwidth) by exact Hb;
    destruct Hq as [Q1 Q2 Q3 Q4 Q5 Q6 Q7 Q8 Q9 Q10]; specialize (Q10 Hl);
    rewrite Er in Q2; rewrite Ed in Q4; clear Er Ed;
    change (tasks x) with (tasks s) in Q1; change (tgs x) with (tgs s) in Q3;
    change (sysctl_sched_rt_period x) with (sysctl_sched_rt_period s) in Q5;
    change (sysctl_sched_rt_runtime x) with (sysctl_sched_rt_runtime s) in Q6;
    change (jiffies x) with (jiffies s) in Q7; change (loadavg x) with (loadavg s) in Q8;
    change (cpuusage x) with (cpuusage s) in Q9;
    generalize dependent (init_rt_rq root_task_group x)
  end.
  intros s1 Q1 Q2 Q3 Q4 Q5 Q6 Q7 Q8 Q9 Q10 Hi. rewrite Hr in Hi.
  destruct (init_root_entries_holds (init_ras_rq s1)) as ([R1 R2 _ _ R5 R6 R7 R8 R9 _] & Rl & Rr & se & Rt).
  set (s2 := init_root_entries (init_ras_rq s1)) in *. clearbody s2.
  change (rt_rqs (init_ras_rq s1)) with (rt_rqs s1) in Rr. rewrite Hi in Rr.
  change (def_rt_bandwidth (init_ras_rq s1)) with (def_rt_bandwidth s1) in Rr. rewrite Q4 in Rr.
  split; [change (all_unlinked (links s2)); rewrite Rl; exact (unlinked_init _ _ Q10)|].
  split; [exact Rr|].
  assert (tgs (init_ras_rq s1) = tgs s) as Et by exact Q3. rewrite Et in Rt.
  split; [exists se; exact Rt|]. split; [|split_and!].
  - assert (rq s2 = (rq s1) <| rq_ras := mkRasRq 0 0 |>) as E by exact R2.
    assert (jiffies s2 = jiffies s) as Ej by exact (eq_trans R7 Q7).
    rewrite Q2 in E.
    transitivity ((rq s2) <| cpu_load := [0; 0; 0; 0; 0] |> <| last_load_update_tick := jiffies s2 |> <| nr_iowait := 0 |>);
      [reflexivity|]. by rewrite E, Ej.
  - exact (eq_trans R1 Q1).
  - exact (eq_trans R8 Q8).
  - exact (eq_trans R7 Q7).
  - exact (eq_trans R9 Q9).
  - exact (eq_trans R5 Q5).
  - exact (eq_trans R6 Q6).
Qed.

(** A group tree of the root alone, with the boot bandwidth. *)
Lemma boot_groups s : tgs s root_task_group = (tgs s root_task_group) <| tg_parent := None |> <| tg_children := [] |>
    <| tg_rt_bandwidth := boot_bandwidth |> ->
  sysctl_sched_rt_period s = boot_rt_period -> sysctl_sched_rt_runtime s = boot_rt_runtime ->
  groups s FNil /\ rt_ok s FNil.
Proof.
  intros E Ep Er.
  assert (tg_children (tgs s root_task_group) = []) as Ec by (by rewrite E).
  assert (period_of s root_task_group = 1000000000) as Eperiod by (unfold period_of; by rewrite E).
  assert (runtime_of s root_task_group = 950000000) as Erun by (unfold runtime_of; by rewrite E).
  split.
  - split; [by rewrite Ec|done|]. cbn. apply NoDup_singleton.
  - constructor; [|constructor]. split.
    + rewrite Eperiod, Erun. split; [lia|right; lia].
    + unfold ratio, global_ratio, global_rt_period, global_rt_runtime.
      rewrite Eperiod, Erun, Ep, Er. (vm_compute; congruence).
    + rewrite Ec. cbn. unfold ratio. rewrite Eperiod, Erun. (vm_compute; congruence).
Qed.

Lemma tasks_links F s : tasks (s <| links ::= F |>) = tasks s.
Proof. done. Qed.

Lemma tasks_rq F s : tasks (upd_rq F s) = tasks s.
Proof. done. Qed.

(** What init_idle() does. *)
Lemma init_idle_holds idle now s : all_unlinked (links s) ->
  let s' := init_idle idle now s in
  all_unlinked (links s') /\ rt_rqs s' = rt_rqs s /\ tgs s' = tgs s /\
  rq s' = (rq s) <| rq_curr := idle |> <| rq_idle := idle |> /\
  loadavg s' = loadavg s /\ jiffies s' = jiffies s /\ cpuusage s' = cpuusage s /\
  sysctl_sched_rt_period s' = sysctl_sched_rt_period s /\
  sysctl_sched_rt_runtime s' = sysctl_sched_rt_runtime s /\
  (t_state (tasks s' idle) = TASK_RUNNING /\ t_on_rq (tasks s' idle) = 0 /\
   exec_start (t_se (tasks s' idle)) = now /\ preempt_count (tasks s' idle) = 0).
Proof.
  intros Hl. unfold init_idle, __set_task_cpu, set_task_rq, __sched_fork. cbv zeta.
  split; [exact (unlinked_init _ _ (unlinked_init _ _ (unlinked_init _ _ Hl)))|].
  split_and!; try reflexivity.
  all: unfold upd_se, upd_rt.
  all: repeat first [rewrite tasks_upd_eq|rewrite tasks_links|rewrite tasks_rq]; reflexivity.
Qed.

(** What sched_init() promises of the machine [s] it leaves. *)
Record started (init_task : nat) (now : Z) (s : kst) : Prop := {
  st_ras : ras_inv s [];
  st_rt : rt_rep s no_queues;
  st_groups : groups s FNil;
  st_bandwidth : rt_ok s FNil;
  st_root : rt_rqs s root_task_group =
    mkRtRq (2 ^ MAX_RT_PRIO) 0 MAX_RT_PRIO 0 0 950000000 0 (Some root_task_group);
  st_load : load_conserved s /\ rq_active s = 0 /\ calc_load_update (loadavg s) = rq_calc_load_update (rq s);
  st_usage : cpuusage s root_cpuacct = 0;
  st_curr : curr s = init_task /\ rq_idle (rq s) = init_task;
  st_task : t_state (tasks s init_task) = TASK_RUNNING /\ t_on_rq (tasks s init_task) = 0 /\
    exec_start (t_se (tasks s init_task)) = now /\ preempt_count (tasks s init_task) = 0 /\
    t_class (tasks s init_task) = fair_class;
  st_counts : nr_running (rq s) = 0 /\ cfs_h_nr_running (rq s) = 0 /\ rq_stop (rq s) = None }.

(** The machine from its parts. *)
Lemma started_from init_task now s :
  all_unlinked (links s) ->
  rt_rqs s root_task_group = mkRtRq (2 ^ MAX_RT_PRIO) 0 MAX_RT_PRIO 0 0 950000000 0 (Some root_task_group) ->
  tgs s root_task_group = (tgs s root_task_group) <| tg_parent := None |> <| tg_children := [] |>
    <| tg_rt_bandwidth := boot_bandwidth |> ->
  sysctl_sched_rt_period s = boot_rt_period -> sysctl_sched_rt_runtime s = boot_rt_runtime ->
  loadavg s = mkLoad 0 (u32 (jiffies s + LOAD_FREQ)) [0; 0; 0] [0; 0] 0 ->
  (nr_running (rq s) = 0 /\ cfs_h_nr_running (rq s) = 0 /\ rq_stop (rq s) = None) ->
  (calc_load_active (rq s) = 0 /\ nr_uninterruptible (rq s) = 0 /\ rq_ras (rq s) = mkRasRq 0 0 /\
   rq_calc_load_update (rq s) = u32 (jiffies s + LOAD_FREQ)) ->
  cpuusage s root_cpuacct = 0 -> (curr s = init_task /\ rq_idle (rq s) = init_task) ->
  (t_state (tasks s init_task) = TASK_RUNNING /\ t_on_rq (tasks s init_task) = 0 /\
   exec_start (t_se (tasks s init_task)) = now /\ preempt_count (tasks s init_task) = 0 /\
   t_class (tasks s init_task) = fair_class) ->
  started init_task now s.
Proof.
  intros Hl Hr Ht Hp Hrt Hload Hc (Ha & Hu & Hras & Hup) Husage Hcurr Htask.
  destruct (boot_groups s Ht Hp Hrt) as [Hg Hok]. split; try done.
  - split; [split; [by apply unlinked_ras|by rewrite Hras|done]|constructor].
  - split; rewrite ?Hr; cbn [rt_bitmap highest_prio rt_nr_running]; try done.
    + by apply unlinked_rt.
    + by intros p i _ ?%not_elem_of_nil.
    + exact bitmap_empty.
    + symmetry. apply (first_bit_is _ no_queues); [exact bitmap_empty|unfold MAX_RT_PRIO, MAX_USER_RT_PRIO; lia|done|lia].
  - split; [|split].
    + exists 0, 0. rewrite Hload, Ha. done.
    + unfold rq_active. destruct Hc as [-> _]. by rewrite Hu.
    + by rewrite Hload, Hup.
Qed.

(** The state in which the loop over the processors starts. *)
Lemma before_loop b init_task : booting b ->
  let s := cpuacct_cpuusage_write root_cpuacct 0 (gk (init_root_group init_task (upd_gk init_bandwidths (bg b)))) in
  all_unlinked (links s) /\ rt_rqs s root_task_group = zero_rt_rq /\ def_rt_bandwidth s = boot_bandwidth /\
  tgs s root_task_group = zero_tg <| tg_rt_bandwidth := boot_bandwidth |> /\
  sysctl_sched_rt_period s = boot_rt_period /\ sysctl_sched_rt_runtime s = boot_rt_runtime /\
  loadavg s = mkLoad 0 0 [0; 0; 0] [0; 0] 0 /\ rq s = rq (gk (bg b)) /\
  cpuusage s root_cpuacct = 0.
Proof.
  intros [Hl Hr Ht _ Hp Hrt Hload _ _ _]. destruct b as [[k l1 l2 l3] run]. cbn [bg gk] in *.
  assert (global_rt_period k = 1000000000) as Ep by (unfold global_rt_period; by rewrite Hp).
  assert (global_rt_runtime k = 950000000) as Er by (unfold global_rt_runtime; by rewrite Hrt).
  assert (init_bandwidths k = upd_tg root_task_group
    (fun t => t <| tg_rt_bandwidth ::= init_rt_bandwidth 1000000000 950000000 |>)
    (k <| def_rt_bandwidth := boot_bandwidth |>)) as E by (unfold init_bandwidths; cbv zeta; by rewrite Ep, Er).
  unfold init_root_group. cbv zeta. cbn [upd_gk gk task_groups setf].
  change (gk (upd_gk ?f (mkGst _ k l1 l2 l3))) with (f k). rewrite E. clear E.
  split; [exact Hl|]. split; [exact Hr|]. split; [reflexivity|].
  split; [cbn; rewrite Ht; reflexivity|].
  split; [exact Hp|]. split; [exact Hrt|]. split; [exact Hload|]. split; reflexivity.
Qed.

(** The rest of sched_init(), from the loop on. *)
Lemma loop_started init_task now s :
  all_unlinked (links s) -> rt_rqs s root_task_group = zero_rt_rq -> def_rt_bandwidth s = boot_bandwidth ->
  tgs s root_task_group = zero_tg <| tg_rt_bandwidth := boot_bandwidth |> ->
  sysctl_sched_rt_period s = boot_rt_period -> sysctl_sched_rt_runtime s = boot_rt_runtime ->
  loadavg s = mkLoad 0 0 [0; 0; 0] [0; 0] 0 -> cpuusage s root_cpuacct = 0 ->
  cfs_h_nr_running (rq s) = 0 -> nr_uninterruptible (rq s) = 0 -> rq_stop (rq s) = None ->
  let s := (set_load_weight init_task (init_rq s)) <| ext ::= enter_lazy_tlb init_task |> in
  let s := init_idle init_task now s in
  let s := s <| loadavg ::= fun l => l <| calc_load_update := u32 (jiffies s + LOAD_FREQ) |> |> in
  let s := upd_task init_task (fun t => t <| t_class := fair_class |>) s in
  started init_task now (s <| ext ::= init_sched_fair_class |>).
Proof.
  intros Hl Hr Hd Ht Hp Hrt Hload Husage Hcfs Hu Hstop.
  destruct (init_rq_holds s Hl Hr Hd) as (L1 & R1 & (se & T1) & Q1 & K1 & A1 & J1 & C1 & P1 & S1).
  generalize dependent (init_rq s). intros s1 L1 R1 T1 Q1 K1 A1 J1 C1 P1 S1. cbv zeta.
  assert (exists f, (set_load_weight init_task s1) <| ext ::= enter_lazy_tlb init_task |> =
    (upd_task init_task f s1) <| ext ::= enter_lazy_tlb init_task |>) as [f E]
    by (unfold set_load_weight, upd_se; cbv zeta; case_match; eauto).
  rewrite E. clear E. set (s2 := (upd_task init_task f s1) <| ext ::= enter_lazy_tlb init_task |>).
  destruct (init_idle_holds init_task now s2 L1) as (L2 & R2 & T2 & Q2 & A2 & J2 & C2 & P2 & S2 & K2).
  generalize dependent (init_idle init_task now s2). intros s3 L2 R2 T2 Q2 A2 J2 C2 P2 S2 K2.
  change (rt_rqs s2) with (rt_rqs s1) in R2. change (tgs s2) with (tgs s1) in T2. change (rq s2) with (rq s1) in Q2.
  change (loadavg s2) with (loadavg s1) in A2. change (jiffies s2) with (jiffies s1) in J2.
  change (cpuusage s2) with (cpuusage s1) in C2.
  change (sysctl_sched_rt_period s2) with (sysctl_sched_rt_period s1) in P2.
  change (sysctl_sched_rt_runtime s2) with (sysctl_sched_rt_runtime s1) in S2. clearbody s2.
  rewrite Q1 in Q2. rewrite Ht in T1. destruct K2 as (K3 & K4 & K5 & K6).
  apply started_from.
  - exact L2.
  - rewrite <- R1, <- R2. reflexivity.
  - change (tgs s3 root_task_group = (tgs s3 root_task_group) <| tg_parent := None |> <| tg_children := [] |>
      <| tg_rt_bandwidth := boot_bandwidth |>). by rewrite T2, T1.
  - exact (eq_trans P2 (eq_trans P1 Hp)).
  - exact (eq_trans S2 (eq_trans S1 Hrt)).
  - transitivity ((loadavg s3) <| calc_load_update := u32 (jiffies s3 + LOAD_FREQ) |>); [reflexivity|].
    rewrite A2, A1, Hload. reflexivity.
  - change (nr_running (rq s3) = 0 /\ cfs_h_nr_running (rq s3) = 0 /\ rq_stop (rq s3) = None). by rewrite Q2.
  - change (calc_load_active (rq s3) = 0 /\ nr_uninterruptible (rq s3) = 0 /\ rq_ras (rq s3) = mkRasRq 0 0 /\
      rq_calc_load_update (rq s3) = u32 (jiffies s3 + LOAD_FREQ)). by rewrite Q2, J2, J1.
  - transitivity (cpuusage s3 root_cpuacct); [reflexivity|]. by rewrite C2, C1.
  - change (rq_curr (rq s3) = init_task /\ rq_idle (rq s3) = init_task). by rewrite Q2.
  - change (tasks (?x <| ext ::= ?g |>)) with (tasks x). rewrite tasks_upd_eq. by split_and!.
Qed.

(** A machine just started picks the idle task. *)
Lemma started_pick init_task now s : started init_task now s ->
  (exists s', pick_next_task_op fair_ops s = Some (None, s')) -> exists s', pick_next_task s = Some (init_task, s').
Proof.
  intros H [s0 Hf]. destruct (st_counts _ _ _ H) as (En & Ec & Es). destruct (st_curr _ _ _ H) as [_ Ei].
  pose proof (st_root _ _ _ H) as Er. destruct (st_ras _ _ _ H) as [Hr _].
  pose proof (rep_count s [] Hr) as Era. destruct (fair_picks s) as (o & s1 & Ef & Hs).
  rewrite Hf in Ef. injection Ef as <- <-. rewrite Hs in Hf by done.
  unfold pick_next_task. rewrite En, Ec, Z.eqb_refl, Hf, all_classes_order. cbn [pick_loop ops_of].
  rewrite stop_picks by done. cbn [pick_next_task_op rt_ops ras_ops].
  unfold pick_next_task_rt, _pick_next_task_rt. rewrite Er. cbn [rt_nr_running]. rewrite c_true_0. cbn [negb].
  unfold pick_next_task_ras. rewrite Era. change (Z.of_nat (length (@nil nat))) with 0. rewrite Z.eqb_refl, Hf.
  destruct (idle_picks s) as [s2 ->]. exists s2. by rewrite Ei.
Qed.
(** C29: sched_init() brings a booting kernel into the state the other theorems
    start from, unless the allocation of the root's accounting counters fails,
    which stops the machine.  The Race-Averse queue and the array of real-time
    queues are empty and well formed, the only task group is the root, with 95
    percent of the processor for real-time tasks, which is exactly the global
    limit; the load averages balance; the running task is the idle task, in
    the fair class, and it is what pick_next_task() answers as long as the fair
    class has nothing. *)
Theorem sched_init_establishes init_task ok now b (Hb : booting b) :
  match sched_init init_task ok now b with
  | None => ok = false
  | Some b' =>
      ok = true /\ started init_task now (gk (bg b')) /\
      task_groups (bg b') = [root_task_group] /\ scheduler_running b' = true /\
      ((exists s', pick_next_task_op fair_ops (gk (bg b')) = Some (None, s')) ->
       exists s', pick_next_task (gk (bg b')) = Some (init_task, s'))
  end.
Proof.
  unfold sched_init. destruct ok; cbn [negb]; [|done]. cbv zeta.
  destruct (before_loop b init_task Hb) as (L & R & D & T & P & S & A & Q & U).
  destruct Hb as [_ _ _ Hl _ _ _ Hcfs Hu Hstop].
  assert (task_groups (init_root_group init_task (upd_gk init_bandwidths (bg b))) = [root_task_group]) as Hg
    by (transitivity (root_task_group :: task_groups (bg b)); [reflexivity|by rewrite Hl]).
  generalize dependent (init_root_group init_task (upd_gk init_bandwidths (bg b))). intros g L R D T P S A Q U Hg.
  rewrite <- Q in Hcfs, Hu, Hstop.
  pose proof (loop_started init_task now _ L R D T P S A U Hcfs Hu Hstop) as Hst. cbv zeta in Hst.
  split; [done|]. split; [exact Hst|]. split; [exact Hg|]. split; [done|]. exact (started_pick _ _ _ Hst).
Qed.

(** * normalize_rt_tasks() *)

Definition forget_times (e : sched_entity) : sched_entity :=
  e <| exec_start := 0 |> <| statistics ::= fun st =>
    st <| wait_start := 0 |> <| sleep_start := 0 |> <| block_start := 0 |> |>.

(** A thread that is neither a real-time one nor favoured by its nice value. *)
Definition ordinary (s : kst) (p : nat) : Prop := rt_task s p = false /\ 0 <= task_nice (tasks s p).
Definition user_thread (s : kst) (p : nat) : bool := negb (bool_decide (t_mm (tasks s p) = None)).

Lemma normalize_one_ordinary p s : ordinary s p ->
  links (normalize_one p s) = links s /\ rq (normalize_one p s) = rq s /\ ext (normalize_one p s) = ext s /\
  forall x, tasks (normalize_one p s) x =
    if bool_decide (x = p) && user_thread s p then (tasks s x) <| t_se ::= forget_times |> else tasks s x.
Proof.
  intros [Hrt Hn]. unfold normalize_one, user_thread. case_bool_decide as Hm.
  { split_and!; try done. intros x. by rewrite andb_false_r. }
  cbv zeta. set (s1 := upd_se p _ (upd_se p _ (upd_se p _ (upd_se p _ s)))).
  assert (tasks s1 p = (tasks s p) <| t_se ::= forget_times |>) as E by (unfold s1, upd_se; by rewrite !tasks_upd_eq).
  assert (rt_task s1 p = false) as -> by (unfold rt_task; rewrite E; exact Hrt).
  assert (task_nice (tasks s1 p) <? 0 = false) as -> by (rewrite E; apply Z.ltb_ge; exact Hn).
  cbn [negb andb]. split_and!; try reflexivity. intros x. case_bool_decide as Hx; cbn [andb].
  - by subst x.
  - unfold s1, upd_se. by rewrite !tasks_upd_ne.
Qed.

Lemma forget_times_twice e : forget_times (forget_times e) = forget_times e.
Proof. by destruct e as [? ? ? ? ? ? ? [] ? ?]. Qed.

Lemma normalize_threads l s : Forall (ordinary s) l ->
  let s' := fold_left (fun s p => normalize_one p s) l s in
  links s' = links s /\ rq s' = rq s /\
  forall x, tasks s' x =
    if bool_decide (x ∈ l) && user_thread s x then (tasks s x) <| t_se ::= forget_times |> else tasks s x.
Proof.
  revert s. induction l as [|p l IH]; intros s Hl; [by split_and!|]. apply Forall_cons in Hl as [Hp Hl].
  cbn [fold_left]. cbv zeta. destruct (normalize_one_ordinary p s Hp) as (E1 & E2 & _ & E3).
  set (s1 := normalize_one p s) in *. clearbody s1.
  assert (forall x, t_mm (tasks s1 x) = t_mm (tasks s x) /\ t_prio (tasks s1 x) = t_prio (tasks s x) /\
    t_static_prio (tasks s1 x) = t_static_prio (tasks s x)) as E by (intros x; rewrite E3; by case_match).
  assert (Forall (ordinary s1) l) as Hl1.
  { eapply Forall_impl; [exact Hl|]. intros x. unfold ordinary, rt_task, task_nice.
    by destruct (E x) as (_ & -> & ->). }
  destruct (IH s1 Hl1) as (F1 & F2 & F3). split; [congruence|]. split; [congruence|].
  intros x. rewrite F3, E3. unfold user_thread. rewrite (proj1 (E x)).
  destruct (bool_decide (t_mm (tasks s x) = None)) eqn:Hm; rewrite ?andb_false_r;
    [destruct (decide (x = p)) as [<-|Hx]; [by rewrite Hm, andb_false_r|by rewrite bool_decide_false]|].
  destruct (decide (x = p)) as [<-|Hx].
  - rewrite (bool_decide_true (x = x)) by done. rewrite (bool_decide_true (x ∈ x :: l)) by set_solver.
    rewrite Hm. destruct (bool_decide (x ∈ l)); cbn [negb andb]; [|reflexivity].
    destruct (tasks s x); cbn. by rewrite forget_times_twice.
  - rewrite (bool_decide_false (x = p)) by done. cbn [andb].
    assert (bool_decide (x ∈ p :: l) = bool_decide (x ∈ l)) as -> by (apply bool_decide_ext; set_solver). done.
Qed.

(** The key sequence that turns real-time threads into normal ones does not
    touch the Race-Averse class: its tasks stay queued in their order, with
    their slices, policy and class.  But it also forgets since when the running
    task runs, so that the next accounting charges it the whole time since
    boot. *)
Theorem normalize_rt_tasks_ras s q (Hq : ras_inv s q) (Hl : Forall (ordinary s) (all_threads (ext s))) :
  let s' := normalize_rt_tasks s in
  ras_inv s' q /\
  (forall p, t_class (tasks s' p) = t_class (tasks s p) /\ t_policy (tasks s' p) = t_policy (tasks s p) /\
             t_ras (tasks s' p) = t_ras (tasks s p)) /\
  (curr s ∈ all_threads (ext s) -> t_mm (tasks s (curr s)) <> None ->
   t_class (tasks s (curr s)) = ras_class -> 0 <= clock_task (rq s) < 2 ^ 63 ->
   sum_exec_runtime (t_se (tasks (update_curr_ras s') (curr s))) =
   u64 (sum_exec_runtime (t_se (tasks s (curr s))) + clock_task (rq s))).
Proof.
  intros s'. destruct (normalize_threads _ s Hl) as (E1 & E2 & E3). fold (normalize_rt_tasks s) in E1, E2, E3.
  fold s' in E1, E2, E3. clearbody s'.
  assert (forall p, t_class (tasks s' p) = t_class (tasks s p) /\ t_policy (tasks s' p) = t_policy (tasks s p) /\
             t_ras (tasks s' p) = t_ras (tasks s p)) as E by (intros p; rewrite E3; by case_match).
  split; [|split; [exact E|]].
  - apply (inv_tasks s); [done..| |done]. intros p. unfold slice. by destruct (E p) as (_ & _ & ->).
  - intros Hc Hm Hcl Hclk. assert (curr s' = curr s) as Ec by (unfold curr; by rewrite E2).
    assert (t_se (tasks s' (curr s)) = forget_times (t_se (tasks s (curr s)))) as Es.
    { rewrite E3. unfold user_thread. rewrite bool_decide_true, bool_decide_false by done. reflexivity. }
    rewrite update_curr_ras_tasks by (rewrite Ec, (proj1 (E _)); done). rewrite Ec, decide_True by done.
    cbn. rewrite Es. cbn. unfold curr_delta. rewrite Ec, Es, E2. cbn. rewrite Z.sub_0_r.
    rewrite (u64_small (clock_task _)), s64_small by lia. by rewrite (proj2 (Z.ltb_ge _ _)) by lia.
Qed.
End init.

(** * An instance *)

Import Demo RingLists CoreDemo GroupDemo.

Module InitDemo.

#[export] Instance boot_env : BootEnv := {|
  autogroup_init := fun _ e => e;
  init_cfs_rq := fun e => e;
  set_root_shares := fun e => e;
  init_cfs_bandwidth := fun e => e;
  init_tg_cfs_entry := fun _ e => (None, e);
  enter_lazy_tlb := fun _ e => e;
  init_sched_fair_class := fun e => e |}.

Definition boot_state : bst := {|
  bg := mkGst _ (idle_state <| rt_rqs := fun _ => zero_rt_rq |> <| tgs := fun _ => zero_tg |> <| jiffies := 4294937296 |>) [] [] [];
  scheduler_running := false |}.

Lemma boot_state_booting : booting boot_state.
Proof. split; try reflexivity. split; [apply unlinked_ok|reflexivity]. Qed.

Definition calc_update (o : option bst) : option Z :=
  match o with Some b => Some (rq_calc_load_update (rq (gk (bg b)))) | None => None end.
End InitDemo.
Import InitDemo.

Lemma sched_init_establishes_witness :
  exists b', sched_init 0 true 5 boot_state = Some b' /\ started 0 5 (gk (bg b')) /\
    rq_calc_load_update (rq (gk (bg b'))) = 4294937797.
Proof.
  pose proof (sched_init_establishes 0 true 5 boot_state boot_state_booting) as H.
  assert (calc_update (sched_init 0 true 5 boot_state) = Some 4294937797) as E by (vm_compute; reflexivity).
  destruct (sched_init 0 true 5 boot_state) as [b'|]; [|discriminate H].
  exists b'. split; [reflexivity|]. split; [apply H|]. injection E as E. exact E.
Defined.
