(* ===== verification/Affinity.v ===== *)
(** The affinity system calls of kernel/sched/core.c, in the uniprocessor
    build, where set_cpus_allowed_ptr() of include/linux/sched.h only checks
    that the mask has the processor.

    A [cpumask_t] is one 32-bit word here.  The operations of linux/cpumask.h
    are members of [CpuMask]; the cpuset code, whose answer can change between
    two calls, is a sequence of answers.  User memory is a function from a
    length to the bytes read, [None] when the access faults; a system call
    that writes returns the bytes. *)

From S2P Require Import Prelude KList Sched Forest Cpuacct Ras Rt LoadAvg Core.

Class CpuMask := {
  nr_cpu_ids : Z;
  cpumask_size : Z;                          (* in bytes *)
  cpu_online_mask : Z;
  cpumask_clear : Z;                         (* the cleared mask *)
  cpumask_test_cpu : nat -> Z -> bool;
  cpumask_and : Z -> Z -> Z;
  cpumask_subset : Z -> Z -> bool;
  mask_bytes : Z -> list Z;                  (* the mask in memory *)
  mask_load : list Z -> Z -> Z }.            (* bytes copied over a mask *)

Class AffEnv `{KEnv} := {
  ns_capable : nat -> Z -> Ext -> bool;
  get_task_struct : nat -> Ext -> Ext }.

Section affinity.
Context {KT : KTypes} {KE : KEnv} {CE : CoreEnv} {AE : AffEnv} {CM : CpuMask}.

(** include/linux/sched.h: set_cpus_allowed_ptr() *)
Definition set_cpus_allowed_ptr (new_mask : Z) : Z :=
  if negb (cpumask_test_cpu 0 new_mask) then - EINVAL else 0.

(** sched_setaffinity(): from the label [again] on; [cpuset] are the answers of
    cpuset_cpus_allowed() *)
Fixpoint setaffinity_again (fuel : nat) (cpuset : list Z) (new_mask : Z) : option Z :=
  match fuel with
  | O => None
  | S fuel =>
      let retval := set_cpus_allowed_ptr new_mask in
      if c_true retval then Some retval
      else match cpuset with
           | [] => None
           | cpus_allowed :: cpuset =>
               if negb (cpumask_subset new_mask cpus_allowed)
               then let new_mask := cpus_allowed in setaffinity_again fuel cpuset new_mask
               else Some retval
           end
  end.

(** sched_setaffinity(): the booleans are the outcomes of the two allocations *)
Definition sched_setaffinity (fuel : nat) (pid in_mask : Z) (ok1 ok2 : bool) (cpuset : list Z) (s : kst) : option (Z * kst) :=
  match find_process_by_pid pid s with
  | None => Some (- ESRCH, s)
  | Some p =>
      let s := s <| ext ::= get_task_struct p |> in
      let out_put_task retval := Some (retval, s <| ext ::= put_task_struct p |>) in
      if negb ok1 then out_put_task (- ENOMEM)
      else if negb ok2 then out_put_task (- ENOMEM)
      else if negb (check_same_owner p s) &&
              negb (ns_capable (cr_user_ns (t_cred (tasks s p))) CAP_SYS_NICE (ext s))
      then out_put_task (- EPERM)
      else
        let retval := security_task_setscheduler p (ext s) in
        if c_true retval then out_put_task retval
        else match cpuset with
             | [] => None
             | cpus_allowed :: cpuset =>
                 let new_mask := cpumask_and in_mask cpus_allowed in
                 match setaffinity_again fuel cpuset new_mask with
                 | None => None
                 | Some retval => out_put_task retval
                 end
             end
  end.

(** get_user_cpu_mask(): the error and the mask; [user n] are the first [n]
    bytes at the user's pointer *)
Definition get_user_cpu_mask (user : Z -> option (list Z)) (len new_mask : Z) : Z * Z :=
  let '(len, new_mask) :=
    if len <? cpumask_size then (len, cpumask_clear)
    else if cpumask_size <? len then (cpumask_size, new_mask)
    else (len, new_mask) in
  match user len with
  | None => (- EFAULT, new_mask)
  | Some l => (0, mask_load l new_mask)
  end.

(** sys_sched_setaffinity(); [junk] is the mask's initial content, [ok0] the
    outcome of its allocation *)
Definition sys_sched_setaffinity (fuel : nat) (pid len : Z) (user : Z -> option (list Z)) (junk : Z)
    (ok0 ok1 ok2 : bool) (cpuset : list Z) (s : kst) : option (Z * kst) :=
  if negb ok0 then Some (- ENOMEM, s)
  else
    let '(retval, new_mask) := get_user_cpu_mask user len junk in
    if retval =? 0 then sched_setaffinity fuel pid new_mask ok1 ok2 cpuset s
    else Some (retval, s).

(** sched_getaffinity(): the result and the mask *)
Definition sched_getaffinity (pid mask : Z) (s : kst) : Z * Z :=
  match find_process_by_pid pid s with
  | None => (- ESRCH, mask)
  | Some p =>
      let retval := security_task_getscheduler p (ext s) in
      if c_true retval then (retval, mask)
      else (retval, cpumask_and (t_cpus_allowed (tasks s p)) cpu_online_mask)
  end.

(** sys_sched_getaffinity(): the result and the bytes written; [copy_ok] says
    whether copy_to_user() succeeds *)
Definition sys_sched_getaffinity (pid len junk : Z) (ok copy_ok : bool) (s : kst) : Z * list Z :=
  if u32 (len * 8) <? nr_cpu_ids then (- EINVAL, [])
  else if c_true (Z.land len 3) then (- EINVAL, [])
  else if negb ok then (- ENOMEM, [])
  else
    let '(ret, mask) := sched_getaffinity pid junk s in
    if ret =? 0 then
      let retlen := Z.min len cpumask_size in
      if negb copy_ok then (- EFAULT, [])
      else (retlen, firstn (Z.to_nat retlen) (mask_bytes mask))
    else (ret, []).
End affinity.
