(* ===== verification/AffinitySpec.v ===== *)
(** The affinity system calls on one processor: which error wins, and that
    they change nothing. *)

From S2P Require Import Prelude KList Sched Forest Cpuacct Demo Ras RasSpec Rt RtSpec LoadAvg LoadSpec Core CoreSpec WakeSpec PolicySpec CoreWitness Affinity.

(** linux/cpumask.h on one processor, and reference counting. *)
Class CpuMaskLaws `{CpuMask} : Prop := {
  one_cpu : nr_cpu_ids = 1;
  one_word : cpumask_size = 4;
  online_test : cpumask_test_cpu 0 cpu_online_mask = true;
  clear_test : cpumask_test_cpu 0 cpumask_clear = false;
  and_test a b : cpumask_test_cpu 0 (cpumask_and a b) = cpumask_test_cpu 0 a && cpumask_test_cpu 0 b;
  subset_test a b : cpumask_subset a b = implb (cpumask_test_cpu 0 a) (cpumask_test_cpu 0 b);
  bytes_length m : length (mask_bytes m) = Z.to_nat cpumask_size;
  load_test l m : cpumask_test_cpu 0 (mask_load l m) =
    match l with [] => cpumask_test_cpu 0 m | b :: _ => Z.testbit b 0 end;
  load_bytes m m' : mask_load (mask_bytes m) m' = m }.

Class AffLaws `{CoreEnv} `{!AffEnv} : Prop := {
  put_get p e : put_task_struct p (get_task_struct p e) = e;
  get_capable p ns cap e : ns_capable ns cap (get_task_struct p e) = ns_capable ns cap e;
  get_security p q e : security_task_setscheduler q (get_task_struct p e) = security_task_setscheduler q e }.

(** The error of the first guard that fails, or 0. *)
Fixpoint first_error (guards : list (bool * Z)) : Z :=
  match guards with
  | [] => 0
  | (failed, err) :: guards => if failed then err else first_error guards
  end.

Section affinity.
Context {KT : KTypes} {KE : KEnv} {CE : CoreEnv} {AE : AffEnv} {AL : AffLaws}
  {CM : CpuMask} {ML : CpuMaskLaws}.
Implicit Types (s : kst).

(** A mask of the cpuset that has the processor. *)
#[local] Abbreviation has_cpu m := (cpumask_test_cpu 0 m).

(** The loop makes two passes at most: a mask that is not below the new answer
    of the cpuset is replaced by one without the processor. *)
Lemma again_holds fuel c cpuset m : (2 <= fuel)%nat ->
  setaffinity_again fuel (c :: cpuset) m = Some (if has_cpu m && has_cpu c then 0 else - EINVAL).
Proof.
  destruct fuel as [|[|fuel]]; [lia..|intros _]. cbn [setaffinity_again]. unfold set_cpus_allowed_ptr.
  rewrite subset_test. destruct (has_cpu m) eqn:Em; cbn; [|done]. by destruct (has_cpu c) eqn:Ec.
Qed.

Lemma sched_setaffinity_holds fuel pid m ok1 ok2 c0 c1 cpuset s : (2 <= fuel)%nat ->
  sched_setaffinity fuel pid m ok1 ok2 (c0 :: c1 :: cpuset) s =
  Some (match find_process_by_pid pid s with
        | None => - ESRCH
        | Some p =>
            first_error [(negb (ok1 && ok2), - ENOMEM);
              (negb (check_same_owner p s || ns_capable (cr_user_ns (t_cred (tasks s p))) CAP_SYS_NICE (ext s)), - EPERM);
              (c_true (security_task_setscheduler p (ext s)), security_task_setscheduler p (ext s));
              (negb (has_cpu m && has_cpu c0 && has_cpu c1), - EINVAL)]
        end, s).
Proof.
  intros Hf. unfold sched_setaffinity. destruct (find_process_by_pid pid s) as [p|]; [|done].
  cbv zeta. set (s1 := s <| ext ::= get_task_struct p |>).
  assert (forall r : Z, Some (r, s1 <| ext ::= put_task_struct p |>) = Some (r, s)) as E.
  { intros r. unfold s1. destruct s; cbn. by rewrite put_get. }
  change (check_same_owner p s1) with (check_same_owner p s). change (tasks s1) with (tasks s).
  assert (forall ns cap, ns_capable ns cap (ext s1) = ns_capable ns cap (ext s)) as -> by (intros; apply get_capable).
  assert (security_task_setscheduler p (ext s1) = security_task_setscheduler p (ext s)) as -> by apply get_security.
  rewrite !E. cbn [first_error]. destruct ok1, ok2; cbn [negb andb]; try done.
  rewrite <- negb_orb. destruct (negb (_ || _)); [done|].
  destruct (c_true (security_task_setscheduler p (ext s))); [done|].
  rewrite again_holds by done. rewrite E, and_test. by destruct (has_cpu m), (has_cpu c0), (has_cpu c1).
Qed.

(** The mask that arrives has the processor when the first byte is odd. *)
Definition user_mask_odd (user : Z -> option (list Z)) (len : Z) : bool :=
  match user (Z.min len 4) with Some (b :: _) => Z.testbit b 0 | _ => false end.

Lemma get_user_cpu_mask_holds user len junk : 0 <= len -> (forall l, user 4 = Some l -> l <> []) ->
  let '(err, m) := get_user_cpu_mask user len junk in
  match user (Z.min len 4) with
  | None => err = - EFAULT
  | Some _ => err = 0 /\ has_cpu m = user_mask_odd user len
  end.
Proof.
  intros Hlen Hne. unfold get_user_cpu_mask, user_mask_odd. rewrite one_word.
  destruct (Z.ltb_spec len 4); [|destruct (Z.ltb_spec 4 len)].
  - rewrite Z.min_l by lia. destruct (user len) as [l|]; [|done]. split; [done|].
    rewrite load_test. destruct l; [apply clear_test|done].
  - rewrite Z.min_r by lia. destruct (user 4) as [l|] eqn:E; [|done]. split; [done|].
    rewrite load_test. destruct l; [|done]. by destruct (Hne []).
  - assert (len = 4) as -> by lia. change (Z.min 4 4) with 4. destruct (user 4) as [l|] eqn:E; [|done]. split; [done|].
    rewrite load_test. destruct l; [|done]. by destruct (Hne []).
Qed.

(** on one processor sched_setaffinity(2) always returns, after two passes of
    its retry loop whatever the cpuset answers in between, changes no state at
    all, and answers the first of these errors, in this order: no memory for
    the mask, a bad user pointer, no such process, no memory, no permission,
    the security module's answer, and EINVAL when the user's mask, or one of
    the two masks of the cpuset, lacks the processor.  What lies beyond the
    four bytes of a mask, and the memory a shorter one is copied over, do not
    matter. *)
Theorem sys_sched_setaffinity_spec fuel pid len user junk ok0 ok1 ok2 c0 c1 cpuset s
    (Hfuel : (2 <= fuel)%nat) (Hlen : 0 <= len) (Huser : forall l, user 4 = Some l -> l <> []) :
  sys_sched_setaffinity fuel pid len user junk ok0 ok1 ok2 (c0 :: c1 :: cpuset) s =
  Some (first_error
    [(negb ok0, - ENOMEM); (bool_decide (user (Z.min len 4) = None), - EFAULT);
     (bool_decide (find_process_by_pid pid s = None), - ESRCH);
     (negb (ok1 && ok2), - ENOMEM);
     (negb (check_same_owner (default 0%nat (find_process_by_pid pid s)) s ||
            ns_capable (cr_user_ns (t_cred (tasks s (default 0%nat (find_process_by_pid pid s))))) CAP_SYS_NICE (ext s)), - EPERM);
     (c_true (security_task_setscheduler (default 0%nat (find_process_by_pid pid s)) (ext s)),
      security_task_setscheduler (default 0%nat (find_process_by_pid pid s)) (ext s));
     (negb (user_mask_odd user len && has_cpu c0 && has_cpu c1), - EINVAL)], s).
Proof.
  unfold sys_sched_setaffinity. cbn [first_error]. destruct ok0; cbn [negb]; [|done].
  pose proof (get_user_cpu_mask_holds user len junk Hlen Huser) as H.
  destruct (get_user_cpu_mask user len junk) as [err m]. destruct (user (Z.min len 4)) as [l|].
  - destruct H as [-> <-]. rewrite bool_decide_false by done. rewrite Z.eqb_refl, sched_setaffinity_holds by done.
    cbn [first_error]. destruct (find_process_by_pid pid s); [by rewrite bool_decide_false|by rewrite bool_decide_true].
  - subst err. by rewrite bool_decide_true.
Qed.

(** sched_getaffinity(2) answers the four bytes of the task's mask to every
    length that is a multiple of four, except to those whose number of bits is
    a multiple of 2^32: the test for a buffer that is too short multiplies 32
    bit numbers. *)
Theorem sys_sched_getaffinity_spec pid len junk p s (Hlen : 0 <= len < 2 ^ 32)
    (Hp : find_process_by_pid pid s = Some p) (Hsec : security_task_getscheduler p (ext s) = 0) :
  let '(r, bytes) := sys_sched_getaffinity pid len junk true true s in
  if bool_decide (len mod 4 = 0 /\ len mod 2 ^ 29 <> 0)
  then r = 4 /\ length bytes = 4%nat /\ forall m, has_cpu (mask_load bytes m) = has_cpu (t_cpus_allowed (tasks s p))
  else r = - EINVAL /\ bytes = [].
Proof.
  unfold sys_sched_getaffinity, sched_getaffinity. rewrite one_cpu, one_word, Hp, Hsec, c_true_0. cbn [negb].
  assert (Z.land len 3 = len mod 4) as -> by (change 3 with (Z.ones 2); by rewrite Z.land_ones by lia).
  assert (u32 (len * 8) = len mod 2 ^ 29 * 8) as ->.
  { unfold u32. change (2 ^ 32) with (2 ^ 29 * 8). by rewrite Z.mul_mod_distr_r by lia. }
  pose proof (Z.mod_pos_bound len (2 ^ 29) ltac:(lia)) as Hb.
  destruct (Z.ltb_spec (len mod 2 ^ 29 * 8) 1) as [H|H].
  { rewrite bool_decide_false by lia. done. }
  unfold c_true. destruct (Z.eqb_spec (len mod 4) 0) as [E|E]; cbn [negb]; [|by rewrite bool_decide_false by tauto].
  rewrite bool_decide_true by lia. cbn [Z.eqb].
  assert (len <> 0) by (intros ->; by rewrite Z.mod_0_l in H by lia).
  assert (4 <= len) by (destruct (Z.le_gt_cases 4 len); [done|rewrite Z.mod_small in E by lia; lia]).
  rewrite Z.min_r by lia. set (m0 := cpumask_and _ _).
  assert (length (mask_bytes m0) = 4%nat) as El by (rewrite bytes_length, one_word; done).
  rewrite firstn_all2 by (rewrite El; done). split; [done|]. split; [done|]. intros m.
  rewrite load_bytes. unfold m0. by rewrite and_test, online_test, andb_true_r.
Qed.
End affinity.

(** * An instance *)

Import Demo RingLists CoreDemo.

Module AffinityDemo.

#[export] Instance mask : CpuMask := {|
  nr_cpu_ids := 1; cpumask_size := 4; cpu_online_mask := 1; cpumask_clear := 0;
  cpumask_test_cpu := fun n m => Z.testbit m (Z.of_nat n);
  cpumask_and := Z.land;
  cpumask_subset := fun a b => implb (Z.testbit a 0) (Z.testbit b 0);
  mask_bytes := fun m => [m; 0; 0; 0];
  mask_load := fun l m => match l with [] => m | b :: _ => b end |}.

#[export] Instance mask_laws : CpuMaskLaws.
Proof. split; try done; [intros a b; apply Z.land_spec|by intros []]. Qed.

#[export] Instance aff_env : AffEnv := {| ns_capable := fun _ _ _ => false; get_task_struct := fun _ e => e |}.
#[export] Instance aff_laws : AffLaws.
Proof. split; done. Qed.
End AffinityDemo.
Import AffinityDemo.

(** The mask of a 64-processor machine: its first word counts. *)
Lemma sys_sched_setaffinity_spec_witness :
  sys_sched_setaffinity 2 0 8 (fun n => Some (firstn (Z.to_nat n) [255; 0; 0; 0; 7; 0; 0; 0])) 99 true true true [1; 1] idle_state
  = Some (0, idle_state) /\
  sys_sched_setaffinity 2 0 8 (fun n => Some (firstn (Z.to_nat n) [255; 0; 0; 0; 7; 0; 0; 0])) 99 true true true [1; 0] idle_state
  = Some (- EINVAL, idle_state).
Proof.
  split; (rewrite sys_sched_setaffinity_spec; [reflexivity|lia|lia|]).
  all: intros l E; vm_compute in E; injection E as <-; discriminate.
Defined.
