(* ===== verification/Quota.v ===== *)
(** The CFS bandwidth files of kernel/sched/core.c: the quota and period of a
    group and the check that no child has a larger share than its parent.

    The code is under CONFIG_CFS_BANDWIDTH, which the goldfish configuration
    leaves off; it is modelled as it is compiled with the option on.  The
    scheduler's own state [qk] is extended with the member [cfs_bandwidth] of a
    group and with the bandwidth members of the group's cfs_rq.  What the
    files call of fair.c is a member of [QuotaEnv]. *)

From S2P Require Import Prelude KList Sched Forest Cpuacct Demo Ras Rt LoadAvg Core TaskGroup.

(** kernel/sched/sched.h: struct cfs_bandwidth, with the members core.c uses,
    and the ones it uses of struct cfs_rq *)
Record cfs_bandwidth := mkCfsB {
  cfs_period : Z; cfs_quota : Z; cfs_runtime : Z;
  hierarchal_quota : Z;                    (* s64 *)
  cfs_timer_active : bool;
  nr_periods : Z; nr_throttled : Z; throttled_time : Z }.
Record cfs_rq := mkCfsRq { runtime_enabled : bool; runtime_remaining : Z; cfs_throttled : bool }.

#[export] Instance eta_cfsb : Eta cfs_bandwidth := fun r =>
  mkCfsB r.(cfs_period) r.(cfs_quota) r.(cfs_runtime) r.(hierarchal_quota)
    r.(cfs_timer_active) r.(nr_periods) r.(nr_throttled) r.(throttled_time).
#[export] Instance eta_cfsrq : Eta cfs_rq := fun r =>
  mkCfsRq r.(runtime_enabled) r.(runtime_remaining) r.(cfs_throttled).

Record qst `{KTypes} := mkQst { qk : kst; cfs_b : nat -> cfs_bandwidth; cfs_rqs : nat -> cfs_rq }.
#[export] Instance eta_qst `{KTypes} : Eta qst := fun r => mkQst _ r.(qk) r.(cfs_b) r.(cfs_rqs).

Class QuotaEnv `{KEnv} := {
  account_cfs_bandwidth_used : bool -> bool -> Ext -> Ext;
  __refill_cfs_bandwidth_runtime : cfs_bandwidth -> Ext -> cfs_bandwidth;
  __start_cfs_bandwidth : nat -> cfs_bandwidth -> Ext -> cfs_bandwidth * Ext;
  unthrottle_cfs_rq : nat -> qst -> qst }.

Section quota.
Context {KT : KTypes} {KE : KEnv} {TE : TgEnv} {QE : QuotaEnv}.
Implicit Types (s : qst).

Definition upd_cfs_b (g : nat) (f : cfs_bandwidth -> cfs_bandwidth) (s : qst) : qst :=
  s <| cfs_b ::= fun m h => if (h =? g)%nat then f (m g) else m h |>.
Definition upd_cfs_rq (g : nat) (f : cfs_rq -> cfs_rq) (s : qst) : qst :=
  s <| cfs_rqs ::= fun m h => if (h =? g)%nat then f (m g) else m h |>.

Definition NSEC_PER_MSEC := 1000000.
Definition max_cfs_quota_period : Z := 1 * NSEC_PER_SEC.
Definition min_cfs_quota_period : Z := 1 * NSEC_PER_MSEC.

(** tg_get_cfs_quota(), tg_get_cfs_period(); a [long] has 32 bits *)
Definition tg_get_cfs_quota (tg : nat) (s : qst) : Z :=
  let quota := cfs_quota (cfs_b s tg) in
  if quota =? RUNTIME_INF then -1 else s32 (quota / NSEC_PER_USEC).
Definition tg_get_cfs_period (tg : nat) (s : qst) : Z :=
  s32 (cfs_period (cfs_b s tg) / NSEC_PER_USEC).

(** struct cfs_schedulable_data *)
Record cfs_schedulable_data := mkCfsData { cd_tg : nat; cd_period : Z; cd_quota : Z }.

(** normalize_cfs_quota() *)
Definition normalize_cfs_quota (tg : nat) (d : cfs_schedulable_data) (s : qst) : Z :=
  let '(period, quota) :=
    if (tg =? cd_tg d)%nat then (cd_period d, cd_quota d)
    else (u64 (tg_get_cfs_period tg s), u64 (tg_get_cfs_quota tg s)) in
  if (quota =? RUNTIME_INF) || (quota =? u64 (-1)) then RUNTIME_INF
  else to_ratio period quota.

(** tg_cfs_schedulable_down(); a comparison of the s64 [quota] with RUNTIME_INF
    is one of u64 values *)
Definition tg_cfs_schedulable_down (d : cfs_schedulable_data) (tg : nat) (s : qst) : Z * qst :=
  match tg_parent (tgs (qk s) tg) with
  | None => (0, upd_cfs_b tg (fun b => b <| hierarchal_quota := s64 RUNTIME_INF |>) s)
  | Some parent =>
      let quota := s64 (normalize_cfs_quota tg d s) in
      let parent_quota := hierarchal_quota (cfs_b s parent) in
      if u64 quota =? RUNTIME_INF then
        (0, upd_cfs_b tg (fun b => b <| hierarchal_quota := parent_quota |>) s)
      else if negb (u64 parent_quota =? RUNTIME_INF) && (parent_quota <? quota) then (- EINVAL, s)
      else (0, upd_cfs_b tg (fun b => b <| hierarchal_quota := quota |>) s)
  end.

(** __cfs_schedulable() *)
Definition __cfs_schedulable (fuel : nat) (tg : nat) (period quota : Z) (s : qst) : option (Z * qst) :=
  let data := if negb (quota =? RUNTIME_INF)
              then mkCfsData tg (period / NSEC_PER_USEC) (quota / NSEC_PER_USEC)
              else mkCfsData tg period quota in
  walk_tg_tree (tgs (qk s)) (tg_cfs_schedulable_down data) tg_nop fuel s.

(** tg_set_cfs_bandwidth(): what follows the check, and the whole *)
Definition apply_cfs_bandwidth (tg : nat) (period quota : Z) (s : qst) : qst :=
  let enabled := negb (quota =? RUNTIME_INF) in
  let was_enabled := negb (cfs_quota (cfs_b s tg) =? RUNTIME_INF) in
  let s := s <| qk ::= fun k => k <| ext ::= account_cfs_bandwidth_used enabled was_enabled |> |> in
  let s := upd_cfs_b tg (fun b => b <| cfs_period := period |>) s in
  let s := upd_cfs_b tg (fun b => b <| cfs_quota := quota |>) s in
  let s := upd_cfs_b tg (fun b => __refill_cfs_bandwidth_runtime b (ext (qk s))) s in
  let s :=
    if enabled && cfs_timer_active (cfs_b s tg) then
      let s := upd_cfs_b tg (fun b => b <| cfs_timer_active := false |>) s in
      let '(b, e) := __start_cfs_bandwidth tg (cfs_b s tg) (ext (qk s)) in
      (upd_cfs_b tg (fun _ => b) s) <| qk ::= fun k => k <| ext := e |> |>
    else s in
  let s := upd_cfs_rq tg (fun r => r <| runtime_enabled := enabled |>) s in
  let s := upd_cfs_rq tg (fun r => r <| runtime_remaining := 0 |>) s in
  if cfs_throttled (cfs_rqs s tg) then unthrottle_cfs_rq tg s else s.
Definition tg_set_cfs_bandwidth (fuel : nat) (tg : nat) (period quota : Z) (s : qst) : option (Z * qst) :=
  if (tg =? root_task_group)%nat then Some (- EINVAL, s)
  else if (quota <? min_cfs_quota_period) || (period <? min_cfs_quota_period) then Some (- EINVAL, s)
  else if max_cfs_quota_period <? period then Some (- EINVAL, s)
  else
    match __cfs_schedulable fuel tg period quota s with
    | None => None
    | Some (ret, s) =>
        if c_true ret then Some (ret, s) else Some (ret, apply_cfs_bandwidth tg period quota s)
    end.

(** tg_set_cfs_quota(), tg_set_cfs_period() *)
Definition tg_set_cfs_quota (fuel : nat) (tg : nat) (cfs_quota_us : Z) (s : qst) : option (Z * qst) :=
  let period := cfs_period (cfs_b s tg) in
  let quota := if cfs_quota_us <? 0 then RUNTIME_INF else u64 (u64 cfs_quota_us * NSEC_PER_USEC) in
  tg_set_cfs_bandwidth fuel tg period quota s.
Definition tg_set_cfs_period (fuel : nat) (tg : nat) (cfs_period_us : Z) (s : qst) : option (Z * qst) :=
  let period := u64 (u64 cfs_period_us * NSEC_PER_USEC) in
  let quota := cfs_quota (cfs_b s tg) in
  tg_set_cfs_bandwidth fuel tg period quota s.

(** cpu_cfs_quota_read_s64(), cpu_cfs_quota_write_s64(),
    cpu_cfs_period_read_u64(), cpu_cfs_period_write_u64(), cpu_stats_show();
    the written values become [long] arguments *)
Definition cpu_cfs_quota_read_s64 (cgrp : nat) (s : qst) : Z :=
  tg_get_cfs_quota (cgroup_tg cgrp (ext (qk s))) s.
Definition cpu_cfs_quota_write_s64 (fuel : nat) (cgrp : nat) (cfs_quota_us : Z) (s : qst) : option (Z * qst) :=
  tg_set_cfs_quota fuel (cgroup_tg cgrp (ext (qk s))) (s32 cfs_quota_us) s.
Definition cpu_cfs_period_read_u64 (cgrp : nat) (s : qst) : Z :=
  u64 (tg_get_cfs_period (cgroup_tg cgrp (ext (qk s))) s).
Definition cpu_cfs_period_write_u64 (fuel : nat) (cgrp : nat) (cfs_period_us : Z) (s : qst) : option (Z * qst) :=
  tg_set_cfs_period fuel (cgroup_tg cgrp (ext (qk s))) (s32 cfs_period_us) s.
Definition cpu_stats_show (cgrp : nat) (s : qst) : list (string * Z) :=
  let b := cfs_b s (cgroup_tg cgrp (ext (qk s))) in
  [("nr_periods"%string, nr_periods b); ("nr_throttled"%string, nr_throttled b);
   ("throttled_time"%string, throttled_time b)].
End quota.
