(* ===== verification/QuotaSpec.v ===== *)
(** The CFS bandwidth of the hierarchy: a change is accepted exactly when every
    group with a quota then has at most the share of its nearest ancestor with
    one, and a refused change leaves every group's bandwidth alone. *)

From S2P Require Import Prelude KList Sched Forest Cpuacct Demo Ras RasSpec Rt RtSpec LoadAvg LoadSpec Core CoreSpec WakeSpec PolicySpec CoreWitness TaskGroup TaskGroupSpec GroupWitness Quota.

(** ** The specification: shares along the hierarchy *)







(** What fair.c does with a group's bandwidth leaves the period, the quota and
    the switch of the cfs_rq alone, and does not touch the hierarchy. *)
Class QuotaLaws `{QuotaEnv} : Prop := {
  refill_keeps b e : cfs_period (__refill_cfs_bandwidth_runtime b e) = cfs_period b /\
    cfs_quota (__refill_cfs_bandwidth_runtime b e) = cfs_quota b;
  start_keeps g b e : cfs_period (__start_cfs_bandwidth g b e).1 = cfs_period b /\
    cfs_quota (__start_cfs_bandwidth g b e).1 = cfs_quota b;
  unthrottle_keeps g s h : cfs_period (cfs_b (unthrottle_cfs_rq g s) h) = cfs_period (cfs_b s h) /\
    cfs_quota (cfs_b (unthrottle_cfs_rq g s) h) = cfs_quota (cfs_b s h);
  unthrottle_enabled g s h :
    runtime_enabled (cfs_rqs (unthrottle_cfs_rq g s) h) = runtime_enabled (cfs_rqs s h);
  unthrottle_tgs g s : tgs (qk (unthrottle_cfs_rq g s)) = tgs (qk s) }.

Section quota.
Context {KT : KTypes} {KE : KEnv} {TE : TgEnv} {QE : QuotaEnv}.
Implicit Types (s : qst).

(** The share of a group, in units of 2^-20, or RUNTIME_INF. *)
Definition share s (g : nat) : Z :=
  if cfs_quota (cfs_b s g) =? RUNTIME_INF then RUNTIME_INF
  else to_ratio (cfs_period (cfs_b s g) / NSEC_PER_USEC) (cfs_quota (cfs_b s g) / NSEC_PER_USEC).

(** What the files let through: 1 ms to 1 s, and a quota of at least 1 ms that is
    a [long] number of microseconds, or none. *)
Record cfs_valid (period quota : Z) : Prop := {
  cv_period : min_cfs_quota_period <= period <= max_cfs_quota_period;
  cv_quota : quota = RUNTIME_INF \/ min_cfs_quota_period <= quota < 2 ^ 31 * NSEC_PER_USEC }.
#[export] Instance cfs_valid_dec period quota : Decision (cfs_valid period quota).
Proof.
  refine (cast_if (decide ((min_cfs_quota_period <= period <= max_cfs_quota_period) /\
    (quota = RUNTIME_INF \/ min_cfs_quota_period <= quota < 2 ^ 31 * NSEC_PER_USEC)))).
  - match goal with H : _ /\ _ |- _ => destruct H as [Hp Hq] end. by split.
  - intros [Hp Hq]. match goal with H : ~ _ |- _ => apply H end. by split.
Defined.











(** The group with its new period and quota. *)
Definition set_share (tg : nat) (period quota : Z) s : qst :=
  upd_cfs_b tg (fun b => b <| cfs_period := period |> <| cfs_quota := quota |>) s.


End quota.

Section set_bandwidth.
Context {KT : KTypes} {KE : KEnv} {TE : TgEnv} {QE : QuotaEnv} {QL : QuotaLaws}.
Implicit Types (s : qst).















End set_bandwidth.

(** * An instance *)

Import Demo RingLists CoreDemo GroupDemo.

Module QuotaDemo.

#[export] Instance quota_env : QuotaEnv := {|
  account_cfs_bandwidth_used := fun _ _ e => e;
  __refill_cfs_bandwidth_runtime := fun b _ => b <| cfs_runtime := cfs_quota b |>;
  __start_cfs_bandwidth := fun _ b e => (b <| cfs_timer_active := true |>, e);
  unthrottle_cfs_rq := fun g s => upd_cfs_rq g (fun r => r <| cfs_throttled := false |>) s |}.

#[export] Instance quota_laws : QuotaLaws.
Proof. split; try done. intros g s h. cbn. by destruct (Nat.eqb_spec h g) as [->|]. Qed.

(** Group 1 has half of the processor; the others have no quota. *)
Definition msec := 1000000.
Definition limited : qst := {|
  qk := machine;
  cfs_b := fun g => mkCfsB (100 * msec) (if (g =? 1)%nat then 50 * msec else RUNTIME_INF) 0 0 (g =? 3)%nat 0 0 0;
  cfs_rqs := fun g => mkCfsRq (g =? 1)%nat 0 (g =? 3)%nat |}.

End QuotaDemo.
Import QuotaDemo.


(** The ratio has 32 bits: 4096 times the processor counts as nothing, and is
    accepted below a group with half of it. *)
Example quota_wraps :
  fst <$> tg_set_cfs_bandwidth 11 3 (100 * msec) (409600 * msec) limited = Some 0 /\
  share (set_share 3 (100 * msec) (409600 * msec) limited) 3 = 0.
Proof. vm_compute. done. Qed.
