(* ===== verification/RtBorrow.v ===== *)
(** Borrowing real-time runtime between processors: balance_runtime() and the
    hotplug callback of kernel/sched/rt.c.

    A group has an rt_rq on every processor ([cpu_rt g cpu]); [span] are the
    processors of the root domain and [rt_groups] the groups that for_each_rt_rq()
    visits.  The lock of the group's bandwidth is held during each operation, so
    that an operation is one step.  RtSmp.v uses these functions on the machine of
    the multiprocessor files, where rq_online_rt() and rq_offline_rt() (RtPush.v)
    and the hotplug callback call them. *)

From S2P Require Import Prelude KList Sched.

Record smp_rt := mkSmp {
  span : list nat;                         (* rd->span *)
  rt_groups : list nat;
  group_bw : nat -> rt_bandwidth;          (* tg->rt_bandwidth *)
  cpu_rt : nat -> nat -> rt_rq;            (* tg->rt_rq[cpu] *)
  share_feat : bool;                       (* sched_feat(RT_RUNTIME_SHARE) *)
  smp_running : bool }.                    (* scheduler_running *)
#[export] Instance eta_smp : Eta smp_rt := fun r =>
  mkSmp r.(span) r.(rt_groups) r.(group_bw) r.(cpu_rt) r.(share_feat) r.(smp_running).

Definition upd_cpu_rt (g c : nat) (f : rt_rq -> rt_rq) (s : smp_rt) : smp_rt :=
  s <| cpu_rt ::= fun m h i => if (h =? g)%nat && (i =? c)%nat then f (m g c) else m h i |>.

(** do_balance_runtime(): the loop over the other processors, with [more] *)
Fixpoint balance_loop (g c : nat) (weight rt_period : Z) (cpus : list nat) (more : Z) (s : smp_rt) : Z * smp_rt :=
  match cpus with
  | [] => (more, s)
  | i :: cpus =>
      if (i =? c)%nat then balance_loop g c weight rt_period cpus more s
      else if rt_runtime (cpu_rt s g i) =? RUNTIME_INF then balance_loop g c weight rt_period cpus more s
      else
        let diff := s64 (u64 (rt_runtime (cpu_rt s g i) - rt_time (cpu_rt s g i))) in
        if 0 <? diff then
          let diff := s64 (diff / weight) in
          let diff := if rt_period <? u64 (rt_runtime (cpu_rt s g c) + diff)
                      then s64 (u64 (rt_period - rt_runtime (cpu_rt s g c))) else diff in
          let s := upd_cpu_rt g i (fun r => r <| rt_runtime ::= fun x => u64 (x - diff) |>) s in
          let s := upd_cpu_rt g c (fun r => r <| rt_runtime ::= fun x => u64 (x + diff) |>) s in
          let more := 1 in
          if rt_runtime (cpu_rt s g c) =? rt_period then (more, s)
          else balance_loop g c weight rt_period cpus more s
        else balance_loop g c weight rt_period cpus more s
  end.
Definition do_balance_runtime (g c : nat) (s : smp_rt) : Z * smp_rt :=
  let weight := Z.of_nat (length (span s)) in
  let rt_period := rtb_period (group_bw s g) in
  balance_loop g c weight rt_period (span s) 0 s.

(** balance_runtime() *)
Definition balance_runtime (g c : nat) (s : smp_rt) : Z * smp_rt :=
  let more := 0 in
  if negb (share_feat s) then (more, s)
  else if rt_runtime (cpu_rt s g c) <? rt_time (cpu_rt s g c) then do_balance_runtime g c s
  else (more, s).

(** __disable_runtime(): the loop that takes back what was lent, with what is
    still wanted *)
Fixpoint reclaim_loop (g c : nat) (cpus : list nat) (want : Z) (s : smp_rt) : Z * smp_rt :=
  match cpus with
  | [] => (want, s)
  | i :: cpus =>
      if (i =? c)%nat || (rt_runtime (cpu_rt s g i) =? RUNTIME_INF) then reclaim_loop g c cpus want s
      else
        let '(want, s) :=
          if 0 <? want then
            let diff := Z.min (s64 (rt_runtime (cpu_rt s g i))) want in
            let s := upd_cpu_rt g i (fun r => r <| rt_runtime ::= fun x => u64 (x - diff) |>) s in
            (s64 (want - diff), s)
          else
            let s := upd_cpu_rt g i (fun r => r <| rt_runtime ::= fun x => u64 (x - want) |>) s in
            (s64 (want - want), s) in
        if want =? 0 then (want, s) else reclaim_loop g c cpus want s
  end.

(** The body of for_each_rt_rq() in __disable_runtime(); [None] is the BUG_ON() *)
Definition disable_group (c g : nat) (s : smp_rt) : option smp_rt :=
  let b := rtb_runtime (group_bw s g) in
  let r := rt_runtime (cpu_rt s g c) in
  let balanced := upd_cpu_rt g c (fun r => r <| rt_runtime := RUNTIME_INF |>) in
  if (r =? RUNTIME_INF) || (r =? b) then Some (balanced s)
  else
    let want := s64 (u64 (b - r)) in
    let '(want, s) := reclaim_loop g c (span s) want s in
    if c_true want then None else Some (balanced s).

Fixpoint disable_groups (c : nat) (groups : list nat) (s : smp_rt) : option smp_rt :=
  match groups with
  | [] => Some s
  | g :: groups =>
      match disable_group c g s with
      | None => None
      | Some s => disable_groups c groups s
      end
  end.
Definition __disable_runtime (c : nat) (s : smp_rt) : option smp_rt :=
  if negb (smp_running s) then Some s else disable_groups c (rt_groups s) s.
Definition disable_runtime (c : nat) (s : smp_rt) : option smp_rt := __disable_runtime c s.

(** __enable_runtime(): the body of for_each_rt_rq(), and the function *)
Definition enable_group (c g : nat) (s : smp_rt) : smp_rt :=
  let b := rtb_runtime (group_bw s g) in
  let s := upd_cpu_rt g c (fun r => r <| rt_runtime := b |>) s in
  let s := upd_cpu_rt g c (fun r => r <| rt_time := 0 |>) s in
  upd_cpu_rt g c (fun r => r <| rt_throttled := 0 |>) s.
Definition __enable_runtime (c : nat) (s : smp_rt) : smp_rt :=
  if negb (smp_running s) then s else fold_left (fun s g => enable_group c g s) (rt_groups s) s.
Definition enable_runtime (c : nat) (s : smp_rt) : smp_rt := __enable_runtime c s.

(** update_runtime(): an action and its variant during suspend are one; the
    result says whether the action concerns it (NOTIFY_OK) *)
Inductive cpu_action := CPU_DOWN_PREPARE | CPU_DOWN_FAILED | CPU_ONLINE | CPU_OTHER.
Definition update_runtime (action : cpu_action) (cpu : nat) (s : smp_rt) : option (bool * smp_rt) :=
  match action with
  | CPU_DOWN_PREPARE =>
      match disable_runtime cpu s with None => None | Some s => Some (true, s) end
  | CPU_DOWN_FAILED | CPU_ONLINE => Some (true, enable_runtime cpu s)
  | CPU_OTHER => Some (false, s)
  end.
