(* ===== verification/RtBorrowSpec.v ===== *)
(** Borrowed real-time runtime is conserved: over any sequence of borrowing and
    hotplug in which a processor is enabled only while it takes no part or holds
    what the group gives it, the processors that are up hold together what they
    started out with, and the BUG_ON() of __disable_runtime() is not reached.  The
    condition is needed, and the code does not ensure it: a processor that comes
    up is enabled twice ([second_enable_leaks] below). *)

From S2P Require Import Prelude KList Sched Forest Cpuacct Demo Ras Rt LoadAvg Core TaskGroup TaskGroupSpec RtBorrow.

(** ** Sums over the processors *)

Section sums.
Implicit Types (r : nat -> Z) (l : list nat).

Lemma zsum_le r r' l : (forall i, i ∈ l -> r i <= r' i) -> zsum (r <$> l) <= zsum (r' <$> l).
Proof.
  induction l as [|i l IH]; intros H; [done|]. cbn. pose proof (H i ltac:(set_solver)).
  specialize (IH (fun j Hj => H j ltac:(set_solver))). lia.
Qed.

Lemma zsum_ext r r' l : (forall i, i ∈ l -> r' i = r i) -> zsum (r' <$> l) = zsum (r <$> l).
Proof. intros H. apply Z.le_antisymm; apply zsum_le; intros i Hi; rewrite H by done; lia. Qed.

Lemma zsum_at r l i : (forall j, j ∈ l -> 0 <= r j) -> i ∈ l -> r i <= zsum (r <$> l).
Proof. intros Hr Hi. apply zsum_elem; [by apply Forall_fmap, Forall_forall|by apply list_elem_of_fmap_2]. Qed.

(** Two different members. *)
Lemma zsum_two r l i j : NoDup l -> (forall k, k ∈ l -> 0 <= r k) -> i ∈ l -> j ∈ l -> i <> j ->
  r i + r j <= zsum (r <$> l).
Proof.
  intros Hn Hr Hi Hj Hne. set (r' := fun k => if (k =? j)%nat then 0 else r k).
  assert (zsum (r' <$> l) = zsum (r <$> l) + (r' j - r j)) as E.
  { rewrite (zsum_update r r' j) by (done || (intros k Hk; unfold r'; by rewrite (proj2 (Nat.eqb_neq k j)))).
    by rewrite bool_decide_true. }
  assert (r' j = 0) as E2 by (unfold r'; by rewrite Nat.eqb_refl).
  assert (r' i = r i) as E3 by (unfold r'; by rewrite (proj2 (Nat.eqb_neq i j))).
  pose proof (zsum_at r' l i) as H. rewrite E3 in H.
  enough (r i <= zsum (r' <$> l)) by lia. apply H; [|done]. intros k Hk. unfold r'.
  destruct (k =? j)%nat; [lia|by apply Hr].
Qed.
End sums.

(** ** The invariant of one group *)

Definition rtime (s : smp_rt) (g i : nat) : Z := rt_runtime (cpu_rt s g i).
Definition disabled (s : smp_rt) (g i : nat) : bool := rtime s g i =? RUNTIME_INF.
(** What a processor holds, and whether it takes part. *)
Definition hold (s : smp_rt) (g i : nat) : Z := if disabled s g i then 0 else rtime s g i.
Definition part (s : smp_rt) (g i : nat) : Z := if disabled s g i then 0 else 1.
Definition group_rt (s : smp_rt) (g : nat) : Z := rtb_runtime (group_bw s g).

Record fair_group (s : smp_rt) (g : nat) : Prop := {
  fg_nodup : NoDup (span s);
  fg_bw : 0 <= group_rt s g /\ Z.of_nat (length (span s)) * group_rt s g < 2 ^ 63;
  fg_period : 0 <= rtb_period (group_bw s g) < 2 ^ 63;
  fg_hold : forall i, i ∈ span s -> 0 <= hold s g i;
  fg_time : forall i, i ∈ span s -> 0 <= rt_time (cpu_rt s g i) < 2 ^ 63;
  fg_sum : zsum (hold s g <$> span s) = group_rt s g * zsum (part s g <$> span s) }.

(** The operations change the rt_rqs of one group only. *)
Record same_frame (g : nat) (s s' : smp_rt) : Prop := {
  fr_span : span s' = span s;
  fr_groups : rt_groups s' = rt_groups s;
  fr_bw : group_bw s' = group_bw s;
  fr_feat : share_feat s' = share_feat s;
  fr_run : smp_running s' = smp_running s;
  fr_other : forall h i, h <> g -> cpu_rt s' h i = cpu_rt s h i;
  fr_time : forall i, rt_time (cpu_rt s' g i) = rt_time (cpu_rt s g i) }.

Lemma same_frame_refl g s : same_frame g s s.
Proof. by split. Qed.
Lemma same_frame_trans g s1 s2 s3 : same_frame g s1 s2 -> same_frame g s2 s3 -> same_frame g s1 s3.
Proof.
  intros [A1 A2 A3 A4 A5 A6 A7] [B1 B2 B3 B4 B5 B6 B7]. split; [congruence..| |].
  - intros h i Hh. by rewrite B6, A6.
  - intros i. by rewrite B7, A7.
Qed.



Lemma cpu_rt_eq g c F s : cpu_rt (upd_cpu_rt g c F s) g c = F (cpu_rt s g c).
Proof. unfold upd_cpu_rt. cbn. by rewrite !Nat.eqb_refl. Qed.
Lemma cpu_rt_ne g c F s i : i <> c -> cpu_rt (upd_cpu_rt g c F s) g i = cpu_rt s g i.
Proof. intros H. unfold upd_cpu_rt. cbn. by rewrite (proj2 (Nat.eqb_neq i c) H), andb_false_r. Qed.

Lemma frame_runtime g c F s : same_frame g s (upd_cpu_rt g c (fun r => r <| rt_runtime ::= F |>) s).
Proof.
  split; try done.
  - intros h i Hh. unfold upd_cpu_rt. cbn. by rewrite (proj2 (Nat.eqb_neq h g) Hh).
  - intros i. destruct (decide (i = c)) as [->|Hi]; [by rewrite cpu_rt_eq|by rewrite cpu_rt_ne].
Qed.

Section group.
Variables (g : nat).
Implicit Types (s : smp_rt).

(** All that one holds is below the sum, which is a machine integer. *)
Lemma total_bound s : fair_group s g -> zsum (hold s g <$> span s) < 2 ^ 63.
Proof.
  intros [_ [Hb Hn] _ _ _ ->].
  assert (zsum (part s g <$> span s) <= Z.of_nat (length (span s))) as H.
  { clear Hn. induction (span s) as [|i l IH]; [done|]. cbn [fmap list_fmap zsum length].
    assert (part s g i <= 1) by (unfold part; destruct (disabled s g i); lia). change (list_fmap _ _ ?f l) with (f <$> l) in *. lia. }
  nia.
Qed.

Lemma hold_bound s i : fair_group s g -> i ∈ span s -> disabled s g i = false -> 0 <= rtime s g i < 2 ^ 63.
Proof.
  intros Hf Hi Hd. pose proof (fg_hold s g Hf i Hi) as H0. pose proof (total_bound s Hf) as Ht.
  pose proof (zsum_at (hold s g) (span s) i (fg_hold s g Hf) Hi) as H1.
  unfold hold in H0, H1 at 1. rewrite Hd in H0, H1. lia.
Qed.

Lemma hold_two s i j : fair_group s g -> i ∈ span s -> j ∈ span s -> i <> j ->
  disabled s g i = false -> disabled s g j = false -> rtime s g i + rtime s g j < 2 ^ 63.
Proof.
  intros Hf Hi Hj Hne Hdi Hdj. pose proof (total_bound s Hf) as Ht.
  pose proof (zsum_two (hold s g) (span s) i j (fg_nodup s g Hf) (fg_hold s g Hf) Hi Hj Hne) as H.
  unfold hold in H at 1 2. rewrite Hdi, Hdj in H. lia.
Qed.

Lemma small_enabled x : 0 <= x < 2 ^ 63 -> (x =? RUNTIME_INF) = false.
Proof. intros H. apply Z.eqb_neq. unfold RUNTIME_INF. lia. Qed.

(** A transfer between two processors that take part keeps the invariant. *)
Lemma transfer s i c d : fair_group s g -> i ∈ span s -> c ∈ span s -> i <> c ->
  disabled s g i = false -> disabled s g c = false ->
  0 <= rtime s g i - d -> 0 <= rtime s g c + d ->
  let s1 := upd_cpu_rt g i (fun r => r <| rt_runtime ::= fun x => u64 (x - d) |>) s in
  let s2 := upd_cpu_rt g c (fun r => r <| rt_runtime ::= fun x => u64 (x + d) |>) s1 in
  fair_group s2 g /\ same_frame g s s2 /\
  rtime s2 g i = rtime s g i - d /\ rtime s2 g c = rtime s g c + d /\
  (forall k, k <> i -> k <> c -> rtime s2 g k = rtime s g k).
Proof.
  intros Hf Hi Hc Hne Hdi Hdc H1 H2 s1 s2. pose proof (hold_two s i c Hf Hi Hc Hne Hdi Hdc) as Hs.
  assert (rtime s2 g i = rtime s g i - d) as Ei.
  { unfold rtime, s2, s1. rewrite cpu_rt_ne by done. rewrite cpu_rt_eq. cbn. apply u64_small. unfold rtime in *. lia. }
  assert (rtime s2 g c = rtime s g c + d) as Ec.
  { unfold rtime, s2. rewrite cpu_rt_eq. unfold s1. rewrite cpu_rt_ne by congruence. cbn. apply u64_small. unfold rtime in *. lia. }
  assert (forall k, k <> i -> k <> c -> rtime s2 g k = rtime s g k) as Ek.
  { intros k Hk1 Hk2. unfold rtime, s2, s1. by rewrite !cpu_rt_ne. }
  assert (same_frame g s s2) as Hfr by (eapply same_frame_trans; apply frame_runtime).
  assert (disabled s2 g i = false) as Di by (unfold disabled; rewrite Ei; apply small_enabled; lia).
  assert (disabled s2 g c = false) as Dc by (unfold disabled; rewrite Ec; apply small_enabled; lia).
  assert (forall k, k <> i -> k <> c -> hold s2 g k = hold s g k /\ part s2 g k = part s g k) as Hk.
  { intros k Hk1 Hk2. unfold hold, part, disabled. by rewrite Ek. }
  split; [|done]. destruct Hf as [F1 F2 F3 F4 F5 F6]. split; try done.
  - intros k Hk'. destruct (decide (k = i)) as [->|Hki]; [unfold hold; rewrite Di; lia|].
    destruct (decide (k = c)) as [->|Hkc]; [unfold hold; rewrite Dc; lia|].
    destruct (Hk k Hki Hkc) as [-> _]. by apply F4.
  - intros k Hk'. rewrite (fr_time _ _ _ Hfr). by apply F5.
  - change (span s2) with (span s). change (group_rt s2 g) with (group_rt s g).
    rewrite (zsum_ext (part s g) (part s2 g)).
    2: { intros k _. destruct (decide (k = i)) as [->|Hki]; [unfold part; by rewrite Di, Hdi|].
         destruct (decide (k = c)) as [->|Hkc]; [unfold part; by rewrite Dc, Hdc|]. by apply Hk. }
    rewrite <- F6. set (r1 := fun k => if (k =? i)%nat then hold s2 g i else hold s g k).
    rewrite (zsum_update r1 (hold s2 g) c), (zsum_update (hold s g) r1 i); try done.
    + rewrite !bool_decide_true by done. unfold r1. rewrite Nat.eqb_refl, (proj2 (Nat.eqb_neq c i)) by congruence.
      unfold hold. rewrite Di, Dc, Hdi, Hdc. lia.
    + intros k Hk'. unfold r1. by rewrite (proj2 (Nat.eqb_neq k i)).
    + intros k Hk'. unfold r1. destruct (Nat.eqb_spec k i) as [->|]; [done|]. by apply Hk.
Qed.

(** ** Borrowing *)

(** What borrowing promises: the borrower ends at most at the period, or where
    it was; a lender keeps at least what it has already used. *)
Record borrowed (c : nat) s s' : Prop := {
  bo_fair : fair_group s' g;
  bo_frame : same_frame g s s';
  bo_disabled : forall k, k ∈ span s -> disabled s' g k = disabled s g k;
  bo_limit : rtime s' g c <= Z.max (rtime s g c) (rtb_period (group_bw s g));
  bo_lender : forall k, k ∈ span s -> k <> c ->
    Z.min (rtime s g k) (rt_time (cpu_rt s g k)) <= rtime s' g k }.

Lemma borrowed_refl c s : fair_group s g -> borrowed c s s.
Proof. intros Hf. split; try done; intros; lia. Qed.

Lemma borrowed_trans c s1 s2 s3 : borrowed c s1 s2 -> borrowed c s2 s3 -> borrowed c s1 s3.
Proof.
  intros [A1 A2 A3 A4 A5] [B1 B2 B3 B4 B5]. split; [done|by eapply same_frame_trans| | |].
  - intros k Hk. rewrite B3, A3; [done..|]. by rewrite (fr_span _ _ _ A2).
  - rewrite (fr_bw _ _ _ A2) in B4. lia.
  - intros k Hk Hkc. specialize (A5 k Hk Hkc). specialize (B5 k). rewrite (fr_span _ _ _ A2) in B5.
    specialize (B5 Hk Hkc). rewrite (fr_time _ _ _ A2) in B5. lia.
Qed.

(** One lender. *)
Lemma borrow_step s i c weight : fair_group s g -> i ∈ span s -> c ∈ span s -> i <> c -> 1 <= weight ->
  disabled s g i = false -> disabled s g c = false ->
  let diff := s64 (u64 (rtime s g i - rt_time (cpu_rt s g i))) in
  0 < diff ->
  let d1 := s64 (diff / weight) in
  let d := if rtb_period (group_bw s g) <? u64 (rtime s g c + d1)
           then s64 (u64 (rtb_period (group_bw s g) - rtime s g c)) else d1 in
  let s1 := upd_cpu_rt g i (fun r => r <| rt_runtime ::= fun x => u64 (x - d) |>) s in
  borrowed c s (upd_cpu_rt g c (fun r => r <| rt_runtime ::= fun x => u64 (x + d) |>) s1).
Proof.
  intros Hf Hi Hc Hne Hw Hdi Hdc diff Hdiff d1 d s1.
  pose proof (hold_bound s i Hf Hi Hdi) as Bi. pose proof (hold_bound s c Hf Hc Hdc) as Bc.
  pose proof (fg_time s g Hf i Hi) as Bt. pose proof (fg_period s g Hf) as Bp.
  assert (diff = rtime s g i - rt_time (cpu_rt s g i)) as Ed by (unfold diff; apply s64_u64_sub; lia).
  assert (0 <= diff / weight <= diff) as Hdw.
  { clearbody diff. split; [apply Z.div_pos; lia|]. apply Z.div_le_upper_bound; [lia|]. nia. }
  assert (d1 = diff / weight) as E1 by (unfold d1; apply s64_small; lia).
  assert (0 <= rtime s g c + d /\ d <= d1 /\ (rtime s g c + d <= Z.max (rtime s g c + d1) 0) /\
    rtime s g c + d <= Z.max (rtime s g c) (rtb_period (group_bw s g))) as (H2 & H3 & _ & H5).
  { unfold d. rewrite u64_small by lia. destruct (Z.ltb_spec (rtb_period (group_bw s g)) (rtime s g c + d1)).
    - rewrite s64_u64_sub by lia. lia.
    - lia. }
  destruct (transfer s i c d Hf Hi Hc Hne Hdi Hdc) as (F & Fr & Ei & Ec & Ek); [lia|lia|].
  fold s1 in F, Fr, Ei, Ec, Ek. set (s2 := upd_cpu_rt g c _ s1) in *.
  pose proof (hold_two s i c Hf Hi Hc Hne Hdi Hdc). split; [exact F|exact Fr| | |].
  - intros k Hk. destruct (decide (k = i)) as [->|Hki].
    { unfold disabled at 1. rewrite Ei, Hdi. apply small_enabled. lia. }
    destruct (decide (k = c)) as [->|Hkc]; [|unfold disabled; by rewrite Ek].
    unfold disabled at 1. rewrite Ec, Hdc. apply small_enabled. lia.
  - by rewrite Ec.
  - intros k Hk Hkc. destruct (decide (k = i)) as [->|Hki]; [rewrite Ei; lia|]. rewrite Ek by done. lia.
Qed.

Lemma balance_loop_holds c weight cpus more s : fair_group s g -> cpus ⊆ span s -> c ∈ span s ->
  1 <= weight -> disabled s g c = false ->
  borrowed c s (balance_loop g c weight (rtb_period (group_bw s g)) cpus more s).2.
Proof.
  revert more s. induction cpus as [|i cpus IH]; intros more s Hf Hsub Hc Hw Hdc; [by apply borrowed_refl|].
  cbn [balance_loop]. assert (cpus ⊆ span s) as Hsub' by set_solver.
  destruct (Nat.eqb_spec i c) as [->|Hne]; [by apply IH|].
  destruct (rt_runtime (cpu_rt s g i) =? RUNTIME_INF) eqn:Hdi; [by apply IH|].
  destruct (Z.ltb_spec 0 (s64 (u64 (rt_runtime (cpu_rt s g i) - rt_time (cpu_rt s g i))))) as [Hd|Hd]; [|by apply IH].
  cbv zeta. pose proof (borrow_step s i c weight Hf ltac:(set_solver) Hc Hne Hw Hdi Hdc Hd) as Hb. cbv zeta in Hb.
  unfold rtime in Hb. set (s2 := upd_cpu_rt g c _ _) in *. clearbody s2.
  destruct (rt_runtime (cpu_rt s2 g c) =? _); [exact Hb|]. destruct Hb as [B1 B2 B3 B4 B5]. eapply borrowed_trans; [by split|].
  rewrite <- (fr_bw _ _ _ B2). apply IH; [done|by rewrite (fr_span _ _ _ B2)..|done|by rewrite B3].
Qed.

Lemma balance_holds c s : fair_group s g -> c ∈ span s -> borrowed c s (balance_runtime g c s).2.
Proof.
  intros Hf Hc. unfold balance_runtime. destruct (negb (share_feat s)); [by apply borrowed_refl|].
  destruct (Z.ltb_spec (rt_runtime (cpu_rt s g c)) (rt_time (cpu_rt s g c))) as [Hlt|]; [|by apply borrowed_refl].
  unfold do_balance_runtime. apply balance_loop_holds; try done.
  - destruct (span s); [by apply not_elem_of_nil in Hc|cbn [length]; lia].
  - apply Z.eqb_neq. unfold rtime. pose proof (fg_time s g Hf c Hc). unfold RUNTIME_INF. lia.
Qed.

(** ** Taking back *)

(** The others' holdings while [c] still wants [want] from them. *)
Definition others (c : nat) (f : nat -> Z) (i : nat) : Z := if (i =? c)%nat then 0 else f i.
Record reclaiming (c : nat) s (want : Z) : Prop := {
  re_nodup : NoDup (span s);
  re_bw : 0 <= group_rt s g /\ Z.of_nat (length (span s)) * group_rt s g < 2 ^ 63;
  re_want : - 2 ^ 63 < want < 2 ^ 63;
  re_hold : forall i, i ∈ span s -> i <> c -> 0 <= hold s g i;
  re_total : zsum (others c (hold s g) <$> span s) < 2 ^ 63;
  re_sum : zsum (others c (hold s g) <$> span s) = group_rt s g * zsum (others c (part s g) <$> span s) + want }.

Lemma others_part c s l : zsum (others c (part s g) <$> l) <= Z.of_nat (length l).
Proof.
  induction l as [|i l IH]; [done|]. cbn [fmap list_fmap zsum length]. unfold others at 1, part at 1.
  change (list_fmap _ _ ?f l) with (f <$> l) in *. destruct (i =? c)%nat; [lia|]. destruct (disabled s g i); lia.
Qed.

Lemma others_sum c (f : nat -> Z) l : NoDup l -> c ∈ l -> zsum (others c f <$> l) = zsum (f <$> l) - f c.
Proof.
  intros Hn Hc. rewrite (zsum_update f (others c f) c) by
    (done || (intros k Hk; unfold others; by rewrite (proj2 (Nat.eqb_neq k c)))).
  rewrite bool_decide_true by done. unfold others. rewrite Nat.eqb_refl. lia.
Qed.

(** One processor gives [d] back. *)
Lemma reclaim_step c s want i d : reclaiming c s want -> i ∈ span s -> i <> c -> disabled s g i = false ->
  0 <= rtime s g i - d < 2 ^ 63 -> - 2 ^ 63 < want - d < 2 ^ 63 ->
  zsum (others c (hold s g) <$> span s) - d < 2 ^ 63 ->
  let s1 := upd_cpu_rt g i (fun r => r <| rt_runtime ::= fun x => u64 (x - d) |>) s in
  reclaiming c s1 (want - d) /\ same_frame g s s1 /\ rtime s1 g i = rtime s g i - d /\
  (forall k, k <> i -> rtime s1 g k = rtime s g k) /\ (forall k, disabled s1 g k = disabled s g k).
Proof.
  intros [R1 R2 R3 R4 R5 R6] Hi Hne Hdi Hd Hw Htot s1.
  assert (rtime s1 g i = rtime s g i - d) as Ei.
  { unfold rtime, s1. rewrite cpu_rt_eq. cbn. apply u64_small. unfold rtime in *. lia. }
  assert (forall k, k <> i -> rtime s1 g k = rtime s g k) as Ek.
  { intros k Hk. unfold rtime, s1. by rewrite cpu_rt_ne. }
  assert (forall k, disabled s1 g k = disabled s g k) as Dk.
  { intros k. destruct (decide (k = i)) as [->|Hk]; [|unfold disabled; by rewrite Ek].
    unfold disabled at 1. rewrite Ei, Hdi. by apply small_enabled. }
  assert (forall k, part s1 g k = part s g k) as Pk by (intros k; unfold part; by rewrite Dk).
  assert (forall k, k <> i -> hold s1 g k = hold s g k) as Hk by (intros k Hki; unfold hold; by rewrite Dk, Ek).
  assert (zsum (others c (hold s1 g) <$> span s) = zsum (others c (hold s g) <$> span s) - d) as Es.
  { rewrite (zsum_update (others c (hold s g)) (others c (hold s1 g)) i); [|done|].
    - rewrite bool_decide_true by done. unfold others. rewrite (proj2 (Nat.eqb_neq i c)) by done.
      unfold hold. rewrite Dk, Hdi, Ei. lia.
    - intros k Hki. unfold others. by rewrite Hk. }
  split; [|split; [apply frame_runtime|done]].
  split; [done|done|done| | |].
  - intros k Hks Hkc. change (span s1) with (span s) in Hks.
    destruct (decide (k = i)) as [->|Hki]; [unfold hold; rewrite Dk, Hdi; lia|rewrite Hk by done; by apply R4].
  - change (span s1) with (span s). lia.
  - change (span s1) with (span s). change (group_rt s1 g) with (group_rt s g). rewrite Es, R6.
    rewrite (zsum_ext (others c (part s g)) (others c (part s1 g))); [lia|].
    intros k _. unfold others. by rewrite Pk.
Qed.

Lemma others_ne c (f : nat -> Z) i : i <> c -> others c f i = f i.
Proof. intros H. unfold others. by rewrite (proj2 (Nat.eqb_neq i c) H). Qed.

Lemma reclaim_bound c s want i : reclaiming c s want -> i ∈ span s -> i <> c -> disabled s g i = false ->
  0 <= rtime s g i /\ rtime s g i <= zsum (others c (hold s g) <$> span s) /\
  zsum (others c (hold s g) <$> span s) - want < 2 ^ 63.
Proof.
  intros [R1 [R2 R2'] R3 R4 R5 R6] Hi Hne Hdi.
  assert (hold s g i = rtime s g i) as E by (unfold hold; by rewrite Hdi).
  pose proof (R4 i Hi Hne) as H0. rewrite E in H0. split; [done|]. split.
  - rewrite <- E, <- (others_ne c (hold s g) i Hne). apply zsum_at; [|done].
    intros k Hk. destruct (decide (k = c)) as [->|]; [unfold others; by rewrite Nat.eqb_refl|].
    rewrite others_ne by done. by apply R4.
  - rewrite R6. pose proof (others_part c s (span s)). nia.
Qed.

(** The loop: the processors before [cpus] have nothing more to give. *)
Lemma reclaim_holds c cpus pre want s : reclaiming c s want -> span s = pre ++ cpus -> want <> 0 ->
  want <= group_rt s g ->
  (forall i, i ∈ pre -> i = c \/ disabled s g i = true \/ (0 < want /\ rtime s g i = 0)) ->
  let r := reclaim_loop g c cpus want s in
  r.1 = 0 /\ reclaiming c r.2 0 /\ same_frame g s r.2 /\ (forall k, disabled r.2 g k = disabled s g k).
Proof.
  revert pre want s. induction cpus as [|i cpus IH]; intros pre want s Hr Hsp Hw Hwb Hpre.
  - exfalso. rewrite app_nil_r in Hsp. destruct (re_bw _ _ _ Hr) as [Hb _].
    assert (zsum (others c (hold s g) <$> span s) = 0) as H0.
    { apply zsum_zero, Forall_fmap, Forall_forall. intros i Hi. rewrite Hsp in Hi.
      unfold compose, others, hold. destruct (Hpre i Hi) as [->|[->|[_ H]]]; [by rewrite Nat.eqb_refl|by destruct (_ =? _)%nat|].
      rewrite H. by destruct (_ =? _)%nat, (disabled s g i). }
    pose proof (re_sum _ _ _ Hr) as Hs. rewrite H0 in Hs.
    assert (0 <= zsum (others c (part s g) <$> span s)) as Hp.
    { apply zsum_nonneg, Forall_fmap, Forall_forall. intros i _. unfold compose, others, part.
      destruct (_ =? _)%nat, (disabled s g i); lia. }
    assert (want < 0) as Hneg by nia.
    assert (zsum (others c (part s g) <$> span s) = 0) as Hz; [|lia].
    apply zsum_zero, Forall_fmap, Forall_forall. intros i Hi. rewrite Hsp in Hi.
    unfold compose, others, part. destruct (Hpre i Hi) as [->|[->|[? _]]]; [by rewrite Nat.eqb_refl|by destruct (_ =? _)%nat|lia].
  - cbn [reclaim_loop]. assert (i ∈ span s) as Hi by (rewrite Hsp; set_solver).
    destruct ((i =? c)%nat || (rt_runtime (cpu_rt s g i) =? RUNTIME_INF)) eqn:Eskip.
    { apply (IH (pre ++ [i])); [done|by rewrite <- (assoc_L (++))|done..|].
      intros k [Hk|Hk%list_elem_of_singleton]%elem_of_app; [by apply Hpre|]. subst k.
      apply orb_prop in Eskip as [E%Nat.eqb_eq|E]; [by left|right; by left]. }
    apply orb_false_iff in Eskip as [Hne%Nat.eqb_neq Hdi].
    destruct (reclaim_bound c s want i Hr Hi Hne Hdi) as (Hr0 & Hr1 & Hr2).
    pose proof (re_total _ _ _ Hr) as Ht. pose proof (re_want _ _ _ Hr) as Hwr.
    fold (rtime s g i). rewrite (s64_small (rtime s g i)) by lia.
    destruct (Z.ltb_spec 0 want) as [Hpos|Hneg]; cbv zeta.
    + set (d := Z.min (rtime s g i) want).
      destruct (reclaim_step c s want i d Hr Hi Hne Hdi) as (R & Fr & Ei & Ek & Dk); [lia..|].
      set (s1 := upd_cpu_rt g i _ s) in *. clearbody s1. rewrite s64_small by lia.
      destruct (Z.eqb_spec (want - d) 0) as [E|E]; [rewrite E in *; by split_and!|].
      destruct (IH (pre ++ [i]) (want - d) s1) as (I1 & I2 & I3 & I4); try done.
      * rewrite <- (assoc_L (++)). by rewrite (fr_span _ _ _ Fr).
      * unfold group_rt in *. rewrite (fr_bw _ _ _ Fr). lia.
      * intros k [Hk|Hk%list_elem_of_singleton]%elem_of_app; rewrite Dk.
        { destruct (decide (k = i)) as [->|Hki]; [right; right; lia|]. rewrite Ek by done.
          destruct (Hpre k Hk) as [?|[?|[? ?]]]; [by left|right; by left|right; right; lia]. }
        subst k. right; right. lia.
      * split_and!; [done|done|by eapply same_frame_trans|intros k; by rewrite I4].
    + destruct (reclaim_step c s want i want Hr Hi Hne Hdi) as (R & Fr & _ & _ & Dk); [lia..|].
      rewrite Z.sub_diag in *. change (s64 0 =? 0) with true. cbn [fst snd]. by split_and!.
Qed.

(** ** Hotplug *)

(** A processor leaves when the others hold what they should. *)
Lemma leave c s : reclaiming c s 0 -> c ∈ span s -> 0 <= rtb_period (group_bw s g) < 2 ^ 63 ->
  (forall i, i ∈ span s -> 0 <= rt_time (cpu_rt s g i) < 2 ^ 63) ->
  let s1 := upd_cpu_rt g c (fun r => r <| rt_runtime := RUNTIME_INF |>) s in
  fair_group s1 g /\ same_frame g s s1 /\ disabled s1 g c = true /\
  (forall k, k <> c -> disabled s1 g k = disabled s g k).
Proof.
  intros [R1 R2 _ R4 _ R6] Hc Hp Ht s1.
  assert (same_frame g s s1) as Hfr by (apply (frame_runtime g c (fun _ => RUNTIME_INF))).
  assert (disabled s1 g c = true) as Dc by (unfold disabled, rtime, s1; by rewrite cpu_rt_eq).
  assert (forall k, k <> c -> rtime s1 g k = rtime s g k) as Ek by (intros k Hk; unfold rtime, s1; by rewrite cpu_rt_ne).
  assert (forall k, k <> c -> disabled s1 g k = disabled s g k) as Dk by (intros k Hk; unfold disabled; by rewrite Ek).
  assert (forall k, k <> c -> hold s1 g k = hold s g k) as Hk by (intros k Hkc; unfold hold; by rewrite Dk, Ek).
  split; [|done]. split; try done.
  - intros k Hks. destruct (decide (k = c)) as [->|Hkc]; [unfold hold; rewrite Dc; lia|].
    rewrite Hk by done. by apply R4.
  - intros k Hks. rewrite (fr_time _ _ _ Hfr). by apply Ht.
  - change (span s1) with (span s). change (group_rt s1 g) with (group_rt s g).
    rewrite (zsum_ext (others c (hold s g)) (hold s1 g)), (zsum_ext (others c (part s g)) (part s1 g)); [lia|..].
    + intros k _. destruct (decide (k = c)) as [->|Hkc]; [unfold part, others; by rewrite Dc, Nat.eqb_refl|].
      rewrite others_ne by done. unfold part. by rewrite Dk.
    + intros k _. destruct (decide (k = c)) as [->|Hkc]; [unfold hold, others; by rewrite Dc, Nat.eqb_refl|].
      rewrite others_ne by done. by apply Hk.
Qed.

(** What the others of a fair group owe to [c]. *)
Lemma fair_reclaiming c s : fair_group s g -> c ∈ span s ->
  reclaiming c s (if disabled s g c then 0 else group_rt s g - rtime s g c).
Proof.
  intros Hf Hc. pose proof (total_bound s Hf) as Ht. pose proof Hf as [F1 F2 F3 F4 F5 F6].
  pose proof (F4 c Hc) as H0.
  assert (zsum (others c (hold s g) <$> span s) = zsum (hold s g <$> span s) - hold s g c) as E1 by (by apply others_sum).
  assert (zsum (others c (part s g) <$> span s) = zsum (part s g <$> span s) - part s g c) as E2 by (by apply others_sum).
  assert (1 <= Z.of_nat (length (span s))) as Hlen by (destruct (span s); [by apply not_elem_of_nil in Hc|cbn [length]; lia]).
  destruct F2 as [B1 B2]. assert (group_rt s g < 2 ^ 63) as B3 by nia.
  destruct (disabled s g c) eqn:Dc; unfold hold at 1 in H0; rewrite ?Dc in H0.
  - split; try done; [intros i Hi _; by apply F4|rewrite E1; unfold hold at 2; rewrite Dc; lia|].
    rewrite E1, E2. unfold hold at 2, part at 2. rewrite Dc. lia.
  - pose proof (hold_bound s c Hf Hc Dc) as Hb.
    split; try done; [lia|intros i Hi _; by apply F4|rewrite E1; unfold hold at 2; rewrite Dc; lia|].
    rewrite E1, E2. unfold hold at 2, part at 2. rewrite Dc. lia.
Qed.

Lemma disable_group_holds c s : fair_group s g -> c ∈ span s ->
  exists s', disable_group c g s = Some s' /\ fair_group s' g /\ same_frame g s s' /\ disabled s' g c = true /\
    (forall k, k <> c -> disabled s' g k = disabled s g k).
Proof.
  intros Hf Hc. pose proof (fair_reclaiming c s Hf Hc) as Hr. pose proof Hf as [F1 F2 F3 F4 F5 F6].
  unfold disable_group. fold (rtime s g c) (group_rt s g). cbv zeta. fold (disabled s g c).
  destruct (disabled s g c) eqn:Dc; cbn [orb].
  { eexists. split; [done|]. by apply leave. }
  destruct (Z.eqb_spec (rtime s g c) (group_rt s g)) as [E|E].
  { rewrite E, Z.sub_diag in Hr. eexists. split; [done|]. by apply leave. }
  pose proof (hold_bound s c Hf Hc Dc) as Hb. pose proof (re_want _ _ _ Hr) as Hw.
  rewrite s64_u64_sub by lia.
  destruct (reclaim_holds c (span s) [] _ s Hr) as (E1 & R & Fr & Dk); [done|lia|lia|intros i Hi; set_solver|].
  destruct (reclaim_loop g c (span s) (group_rt s g - rtime s g c) s) as [w s1]. cbn [fst snd] in *. subst w.
  cbn [c_true Z.eqb negb]. eexists. split; [done|].
  destruct (leave c s1 R) as (L1 & L2 & L3 & L4).
  - by rewrite (fr_span _ _ _ Fr).
  - by rewrite (fr_bw _ _ _ Fr).
  - intros i Hi. rewrite (fr_time _ _ _ Fr). apply F5. by rewrite <- (fr_span _ _ _ Fr).
  - split; [done|]. split; [by eapply same_frame_trans|]. split; [done|].
    intros k Hk. by rewrite L4, Dk.
Qed.

(** Enabling takes the runtime of the processor to that of the group, whatever
    it held. *)
Lemma enable_group_rtime c s : fair_group s g -> c ∈ span s ->
  let s' := enable_group c g s in
  disabled s' g c = false /\ rtime s' g c = group_rt s g /\ (forall k, k <> c -> cpu_rt s' g k = cpu_rt s g k) /\
  (forall h k, h <> g -> cpu_rt s' h k = cpu_rt s h k) /\
  (forall k, 0 <= rt_time (cpu_rt s g k) < 2 ^ 63 -> 0 <= rt_time (cpu_rt s' g k) < 2 ^ 63).
Proof.
  intros [F1 [F2 F2'] _ _ _ _] Hc s'.
  assert (1 <= Z.of_nat (length (span s))) as Hlen by (destruct (span s); [by apply not_elem_of_nil in Hc|cbn [length]; lia]).
  assert (cpu_rt s' g c = (cpu_rt s g c) <| rt_runtime := group_rt s g |> <| rt_time := 0 |> <| rt_throttled := 0 |>) as Ec
    by (unfold s', enable_group; by rewrite !cpu_rt_eq).
  assert (forall k, k <> c -> cpu_rt s' g k = cpu_rt s g k) as Ek by (intros k Hk; unfold s', enable_group; by rewrite !cpu_rt_ne).
  split_and!; [unfold disabled, rtime; rewrite Ec; apply small_enabled; cbn; nia|unfold rtime; by rewrite Ec|done| |].
  - intros h k Hh. unfold s', enable_group, upd_cpu_rt. cbn. by rewrite !(proj2 (Nat.eqb_neq h g) Hh).
  - intros k Hk. destruct (decide (k = c)) as [->|Hkc]; [rewrite Ec; cbn; lia|by rewrite Ek].
Qed.

(** What enabling does to the two sums. *)
Lemma enable_group_sums c s : fair_group s g -> c ∈ span s ->
  let s' := enable_group c g s in
  zsum (hold s' g <$> span s) = zsum (hold s g <$> span s) + (group_rt s g - hold s g c) /\
  zsum (part s' g <$> span s) = zsum (part s g <$> span s) + (1 - part s g c).
Proof.
  intros Hf Hc s'. destruct (enable_group_rtime c s Hf Hc) as (D & R & Ek & _). fold s' in D, R, Ek.
  assert (forall k, k <> c -> hold s' g k = hold s g k /\ part s' g k = part s g k) as Hk.
  { intros k Hkc. unfold hold, part, disabled, rtime. by rewrite Ek. }
  rewrite (zsum_update (hold s g) (hold s' g) c), (zsum_update (part s g) (part s' g) c);
    [|apply Hf|intros k Hkc; by apply Hk|apply Hf|intros k Hkc; by apply Hk].
  rewrite !bool_decide_true by done. unfold hold at 2, part at 2. by rewrite D, R.
Qed.

(** A processor may be enabled when it takes no part, or holds what the group
    gives it: exactly then the sum stays right. *)
Definition enable_ok s (c : nat) : Prop := disabled s g c = true \/ rtime s g c = group_rt s g.

Lemma enable_group_sum_iff c s : fair_group s g -> c ∈ span s ->
  zsum (hold (enable_group c g s) g <$> span s) = group_rt s g * zsum (part (enable_group c g s) g <$> span s) <-> enable_ok s c.
Proof.
  intros Hf Hc. destruct (enable_group_sums c s Hf Hc) as [-> ->]. rewrite (fg_sum s g Hf).
  unfold enable_ok, hold, part. destruct (disabled s g c); [split; [by left|lia]|].
  split; [intros H; right; lia|intros [H|H]; [done|lia]].
Qed.

Lemma enable_group_holds c s : fair_group s g -> c ∈ span s -> enable_ok s c ->
  let s' := enable_group c g s in
  fair_group s' g /\ disabled s' g c = false /\ (forall k, k <> c -> cpu_rt s' g k = cpu_rt s g k) /\
  (forall h k, h <> g -> cpu_rt s' h k = cpu_rt s h k).
Proof.
  intros Hf Hc Ho s'. destruct (enable_group_rtime c s Hf Hc) as (D & R & Ek & Eh & Et).
  pose proof (proj2 (enable_group_sum_iff c s Hf Hc) Ho) as E. fold s' in D, R, Ek, Eh, Et, E.
  split; [|done]. destruct Hf as [F1 F2 F3 F4 F5 F6]. split; try done.
  - intros k Hk. destruct (decide (k = c)) as [->|Hkc].
    + unfold hold. rewrite D, R. destruct F2 as [F2 _]. done.
    + unfold hold, disabled, rtime. rewrite Ek by done. by apply F4.
  - intros k Hk. by apply Et, F5.
Qed.
End group.

(** ** The system *)

(** Time is used, a throttled run queue borrows, run queues are taken into and
    out of the root domain (rq_online_rt() and rq_offline_rt(), which
    migration_call() and rq_attach_root() reach), and the hotplug callback runs. *)
Inductive rt_event :=
  | EvTime (g c : nat) (t : Z)
  | EvBalance (g c : nat)
  | EvOnline (c : nat)
  | EvOffline (c : nat)
  | EvHotplug (action : cpu_action) (c : nat).

Definition rt_exec (e : rt_event) (s : smp_rt) : option smp_rt :=
  match e with
  | EvTime g c t => Some (upd_cpu_rt g c (fun r => r <| rt_time := t |>) s)
  | EvBalance g c => Some (balance_runtime g c s).2
  | EvOnline c => Some (__enable_runtime c s)
  | EvOffline c => __disable_runtime c s
  | EvHotplug action c => snd <$> update_runtime action c s
  end.
Fixpoint rt_run (es : list rt_event) (s : smp_rt) : option smp_rt :=
  match es with [] => Some s | e :: es => match rt_exec e s with None => None | Some s => rt_run es s end end.

(** Each event concerns the root domain, and a processor is enabled only when it
    may be ([enable_ok]): it was disabled, or its runtime was enabled before and it
    has neither borrowed nor lent since. *)
Definition all_enable_ok (s : smp_rt) (c : nat) : Prop := forall g, g ∈ rt_groups s -> enable_ok g s c.
Definition ev_ok (s : smp_rt) (e : rt_event) : Prop :=
  match e with
  | EvTime _ _ t => 0 <= t < 2 ^ 63
  | EvBalance g c => g ∈ rt_groups s /\ c ∈ span s
  | EvOnline c | EvHotplug (CPU_DOWN_FAILED | CPU_ONLINE) c => c ∈ span s /\ all_enable_ok s c
  | EvOffline c | EvHotplug _ c => c ∈ span s
  end.
Fixpoint run_ok (s : smp_rt) (es : list rt_event) : Prop :=
  match es with
  | [] => True
  | e :: es => ev_ok s e /\ forall s', rt_exec e s = Some s' -> run_ok s' es
  end.

(** The same as tests. *)
Definition ev_okb (s : smp_rt) (e : rt_event) : bool :=
  match e with
  | EvTime _ _ t => bool_decide (0 <= t < 2 ^ 63)
  | EvBalance g c => bool_decide (g ∈ rt_groups s) && bool_decide (c ∈ span s)
  | EvOnline c | EvHotplug (CPU_DOWN_FAILED | CPU_ONLINE) c =>
      bool_decide (c ∈ span s) && forallb (fun g => disabled s g c || (rtime s g c =? group_rt s g)) (rt_groups s)
  | EvOffline c | EvHotplug _ c => bool_decide (c ∈ span s)
  end.
Fixpoint run_okb (s : smp_rt) (es : list rt_event) : bool :=
  match es with
  | [] => true
  | e :: es => ev_okb s e && match rt_exec e s with Some s' => run_okb s' es | None => true end
  end.

Lemma ev_okb_ok s e : ev_okb s e = true -> ev_ok s e.
Proof.
  destruct e as [g c t|g c|c|c|[] c]; cbn [ev_okb ev_ok]; intros H;
    try (apply andb_prop in H as [H1 H2]); rewrite ?bool_decide_eq_true in *; try done.
  all: split; [done|]; intros g Hg; rewrite forallb_forall in H2; apply list_elem_of_In in Hg.
  all: specialize (H2 g Hg); apply orb_prop in H2 as [H2|H2]; [by left|right; by apply Z.eqb_eq].
Qed.

Lemma run_okb_ok s es : run_okb s es = true -> run_ok s es.
Proof.
  revert s. induction es as [|e es IH]; intros s H; [done|]. cbn [run_okb run_ok] in *.
  apply andb_prop in H as [He H]. split; [by apply ev_okb_ok|]. intros s' E. rewrite E in H. by apply IH.
Qed.

Definition all_fair (s : smp_rt) : Prop := NoDup (rt_groups s) /\ forall g, g ∈ rt_groups s -> fair_group s g.

Lemma fair_ext h s s' : span s' = span s -> group_bw s' = group_bw s ->
  (forall i, rtime s' h i = rtime s h i) ->
  (forall i, i ∈ span s -> 0 <= rt_time (cpu_rt s' h i) < 2 ^ 63) -> fair_group s h -> fair_group s' h.
Proof.
  intros Es Eb Er Et [F1 F2 F3 F4 F5 F6].
  assert (forall i, hold s' h i = hold s h i /\ part s' h i = part s h i) as E.
  { intros i. unfold hold, part, disabled. by rewrite Er. }
  assert (group_rt s' h = group_rt s h) as Eg by (unfold group_rt; by rewrite Eb).
  split; rewrite ?Es, ?Eb, ?Eg; try done.
  - intros i Hi. destruct (E i) as [-> _]. by apply F4.
  - rewrite (zsum_ext (hold s h) (hold s' h)), (zsum_ext (part s h) (part s' h)); [done|intros; by apply E..].
Qed.

Lemma fair_other g h s s' : same_frame g s s' -> h <> g -> fair_group s h -> fair_group s' h.
Proof.
  intros Fr Hh Hf. apply (fair_ext h s); [apply Fr|apply Fr| |..|done].
  - intros i. unfold rtime. by rewrite (fr_other _ _ _ Fr).
  - intros i Hi. rewrite (fr_other _ _ _ Fr) by done. by apply (fg_time s h Hf).
Qed.

Lemma all_fair_group g s s' : all_fair s -> same_frame g s s' -> fair_group s' g -> all_fair s'.
Proof.
  intros [Hn Ha] Fr Hg. split; [by rewrite (fr_groups _ _ _ Fr)|]. intros h Hh. rewrite (fr_groups _ _ _ Fr) in Hh.
  destruct (decide (h = g)) as [->|Hne]; [done|]. apply (fair_other g h s); auto.
Qed.

Lemma disable_groups_holds c gs s : all_fair s -> gs ⊆ rt_groups s -> c ∈ span s ->
  exists s', disable_groups c gs s = Some s' /\ all_fair s'.
Proof.
  revert s. induction gs as [|g gs IH]; intros s Ha Hsub Hc; [by exists s|]. cbn [disable_groups].
  destruct (disable_group_holds g c s) as (s1 & -> & H1 & H2 & _); [apply Ha; set_solver|done|].
  apply IH; [by apply (all_fair_group g s)|rewrite (fr_groups _ _ _ H2); set_solver|by rewrite (fr_span _ _ _ H2)].
Qed.

Lemma enable_groups_holds c gs s : all_fair s -> NoDup gs -> gs ⊆ rt_groups s -> c ∈ span s ->
  (forall g, g ∈ gs -> enable_ok g s c) -> all_fair (fold_left (fun s g => enable_group c g s) gs s).
Proof.
  revert s. induction gs as [|g gs IH]; intros s Ha Hn Hsub Hc Hd; [done|]. cbn [fold_left].
  apply NoDup_cons in Hn as [Hg Hn].
  destruct (enable_group_holds g c s) as (E1 & _ & _ & E4); [apply Ha; set_solver|done|apply Hd; set_solver|].
  assert (forall h, h <> g -> forall i, cpu_rt (enable_group c g s) h i = cpu_rt s h i) as E5 by (intros; by apply E4).
  set (s1 := enable_group c g s) in *.
  assert (span s1 = span s /\ rt_groups s1 = rt_groups s /\ group_bw s1 = group_bw s) as (Es & Eg & Eb) by done.
  clearbody s1. apply IH; [|done|rewrite Eg; set_solver|by rewrite Es|].
  - split; [rewrite Eg; apply Ha|]. intros h Hh. rewrite Eg in Hh. destruct (decide (h = g)) as [->|Hne]; [done|].
    apply (fair_ext h s); [done..| | |by apply Ha]; [intros i; unfold rtime; by rewrite E5|].
    intros i Hi. rewrite E5 by done. apply (fg_time s h); [by apply Ha|done].
  - intros h Hh. assert (h <> g) by (intros ->; done). unfold enable_ok, disabled, rtime, group_rt.
    rewrite E5, Eb by done. apply Hd. set_solver.
Qed.

Lemma disable_fair c s : all_fair s -> c ∈ span s -> exists s', __disable_runtime c s = Some s' /\ all_fair s'.
Proof.
  intros Ha Hc. unfold __disable_runtime. destruct (negb (smp_running s)); [by exists s|]. by apply disable_groups_holds.
Qed.
Lemma enable_fair c s : all_fair s -> c ∈ span s -> all_enable_ok s c -> all_fair (__enable_runtime c s).
Proof.
  intros Ha Hc Ho. unfold __enable_runtime. destruct (negb (smp_running s)); [done|].
  apply enable_groups_holds; try done. apply Ha.
Qed.

Lemma exec_fair e s : all_fair s -> ev_ok s e -> exists s', rt_exec e s = Some s' /\ all_fair s'.
Proof.
  intros Ha He. destruct e as [g c t|g c|c|c|action c]; cbn [rt_exec ev_ok] in *.
  - eexists. split; [done|]. split; [apply Ha|]. intros h Hh. pose proof (proj2 Ha h Hh) as Hf.
    assert (forall F, (forall r, rt_runtime (F r) = rt_runtime r) -> forall i, rtime (upd_cpu_rt g c F s) h i = rtime s h i) as Er.
    { intros F HF i. unfold rtime, upd_cpu_rt. cbn.
      destruct (Nat.eqb_spec h g) as [->|], (Nat.eqb_spec i c) as [->|]; cbn [andb]; by rewrite ?HF. }
    apply (fair_ext h s); [done|done|by apply Er| |done].
    intros i Hi. unfold upd_cpu_rt. cbn. destruct ((h =? g)%nat && (i =? c)%nat); [done|]. by apply (fg_time s h Hf).
  - eexists. split; [done|]. destruct He as [Hg Hc].
    destruct (balance_holds g c s) as [B1 B2 _ _ _]; [by apply Ha|done|]. by apply (all_fair_group g s).
  - eexists. split; [done|]. destruct He as [Hc Ho]. by apply enable_fair.
  - by apply disable_fair.
  - destruct action; cbn [update_runtime].
    + unfold disable_runtime. destruct (disable_fair c s Ha He) as (s' & -> & Ha'). by exists s'.
    + eexists. split; [done|]. destruct He as [Hc Ho]. by apply enable_fair.
    + eexists. split; [done|]. destruct He as [Hc Ho]. by apply enable_fair.
    + by exists s.
Qed.

(** C34: runtime that real-time groups borrow from other processors is never lost,
    as long as a processor is enabled only while it takes no part or holds exactly
    the group's runtime.  In any sequence of borrowing, use of time, run queues
    going off line and on line and processors going down and up with that proviso,
    the groups' settings staying as they are, from a state in which this holds, the
    processors of the root domain that are up always hold together exactly the group's runtime times their
    number, none holds a negative amount, and the BUG_ON() that watches over leaks
    is not reached, so that every operation returns.  The proviso is necessary: in
    any state that is reached, enabling a processor keeps the sum right exactly
    when it holds. *)
Theorem borrowed_runtime_conserved es s (Hs : all_fair s) (Hes : run_ok s es) :
  exists s', rt_run es s = Some s' /\ forall g, g ∈ rt_groups s' ->
    zsum (hold s' g <$> span s') = group_rt s' g * zsum (part s' g <$> span s') /\
    (forall c, c ∈ span s' -> 0 <= hold s' g c) /\
    (forall c, c ∈ span s' ->
      zsum (hold (enable_group c g s') g <$> span s') = group_rt s' g * zsum (part (enable_group c g s') g <$> span s') <->
      disabled s' g c = true \/ rtime s' g c = group_rt s' g).
Proof.
  revert s Hs Hes. induction es as [|e es IH]; intros s Hs Hes.
  - exists s. split; [done|]. intros g Hg. pose proof (proj2 Hs g Hg) as Hf.
    split_and!; [by apply fg_sum|by apply fg_hold|]. intros c Hc. by apply enable_group_sum_iff.
  - destruct Hes as [He Hes]. destruct (exec_fair e s Hs He) as (s1 & E & H1). cbn [rt_run]. rewrite E.
    apply (IH s1 H1). by apply Hes.
Qed.

(** Borrowing takes a run queue to the period at most, unless it was above, and
    leaves every lender what it has used. *)
Theorem balance_runtime_bounds g c s (Hs : fair_group s g) (Hc : c ∈ span s) :
  let s' := (balance_runtime g c s).2 in
  rtime s' g c <= Z.max (rtime s g c) (rtb_period (group_bw s g)) /\
  forall k, k ∈ span s -> k <> c -> Z.min (rtime s g k) (rt_time (cpu_rt s g k)) <= rtime s' g k.
Proof. destruct (balance_holds g c s Hs Hc) as [_ _ _ H1 H2]. by split. Qed.

(** ** An instance: four processors, of which the first is throttled *)

Module BorrowDemo.
Definition machine : smp_rt := {|
  span := [0; 1; 2; 3]%nat; rt_groups := [0]%nat;
  group_bw := fun _ => mkRtB 1000000000 950000000 false;
  cpu_rt := fun _ i => mkRtRq 0 0 100 0 (if (i =? 0)%nat then 960000000 else 0) 950000000 0 (Some 0%nat);
  share_feat := true; smp_running := true |}.
(** Processor 1 goes down and comes up: its run queue goes on line before the
    callback enables its runtime once more. *)
Definition events : list rt_event :=
  [EvBalance 0 0; EvHotplug CPU_DOWN_PREPARE 1; EvOffline 1; EvHotplug CPU_DOWN_PREPARE 0; EvOnline 1; EvHotplug CPU_ONLINE 1].
(** The same, but processor 0 borrows between the two. *)
Definition racing : list rt_event :=
  [EvHotplug CPU_DOWN_PREPARE 1; EvOffline 1; EvOnline 1; EvBalance 0 0; EvHotplug CPU_ONLINE 1].
Definition all_down : list rt_event := EvHotplug CPU_DOWN_PREPARE <$> [1; 2; 3; 0]%nat.
Definition runtimes (o : option smp_rt) : list Z :=
  match o with Some s => (fun i => rt_runtime (cpu_rt s 0 i)) <$> span s | None => [] end.
End BorrowDemo.
Import BorrowDemo.

Lemma machine_fair : all_fair machine.
Proof.
  split; [apply NoDup_singleton|]. intros g _. split.
  - cbn. repeat (constructor; [set_solver|]). constructor.
  - vm_compute. split; congruence.
  - vm_compute. split; congruence.
  - intros i _. vm_compute. congruence.
  - intros i _. cbn. destruct (i =? 0)%nat; lia.
  - reflexivity.
Qed.

(** migration_call() puts the run queue of a processor that comes up on line,
    which enables its runtime; update_runtime() runs later for the same event and
    enables it again.  What the processor has lent in between is forgotten: the
    processors hold more than there is, and when they go down one after the other
    the last one reaches the BUG_ON(). *)
Example second_enable_leaks :
  runtimes (rt_run racing machine) = [1000000000; 950000000; 950000000; 950000000] /\
  rt_run (racing ++ all_down) machine = None.
Proof. split; vm_compute; reflexivity. Qed.

Lemma borrowed_runtime_conserved_witness :
  runtimes (rt_run events machine) = [RUNTIME_INF; 950000000; 950000000; 950000000] /\
  exists s', rt_run events machine = Some s' /\
    zsum (hold s' 0 <$> span s') = group_rt s' 0 * zsum (part s' 0 <$> span s').
Proof.
  split; [vm_compute; reflexivity|].
  destruct (borrowed_runtime_conserved events machine machine_fair) as (s' & E & H).
  - apply run_okb_ok. vm_compute. reflexivity.
  - exists s'. split; [exact E|]. apply H.
    assert (rt_groups <$> rt_run events machine = Some [0%nat]) as Eg by (vm_compute; reflexivity).
    rewrite E in Eg. injection Eg as ->. apply list_elem_of_here.
Defined.
