(* ===== verification/Smp.v ===== *)
(** The scheduler of a multiprocessor build: its data, the inline functions of
    kernel/sched/sched.h that CONFIG_SMP selects, and what linux/cpumask.h,
    linux/plist.h, linux/llist.h and kernel/sched/cpupri.c promise.

    The files Smp, RtSmp and Migrate model the code below CONFIG_SMP, with
    CONFIG_HOTPLUG_CPU, CONFIG_PREEMPT and CONFIG_SCHEDSTATS on and the group
    scheduling options off; NUMA, CPUACCT and debugging are off as well.  A
    processor is a number [c]; [cpus s c] is its runqueue, and the executing
    processor is [this_cpu s].  The members that runqueues and tasks have in both
    builds are the records of Sched.v.

    A critical section is one step.  Where the code drops the lock of its
    runqueue in the middle of an operation (double_lock_balance()), the other
    processors take any number of steps: this is the member [others_run] of
    [SmpEnv], an arbitrary function in the definitions, and in the theorems one
    that keeps the invariant they state.  [None] is a BUG_ON(); a loop that the
    other processors may keep busy has fuel, and its [outcome] tells a BUG_ON()
    from running out of fuel. *)

From S2P Require Import Prelude KList Sched Affinity.

(** The list nodes of the real-time queues: [SQueue c i] is
    cpu_rq(c)->rt.active.queue + i. *)
Inductive snode := SQueue (c i : nat) | STask (p : nat).

#[export] Instance snode_eq_dec : EqDecision snode.
Proof. solve_decision. Defined.

(** How an operation ends. *)
Inductive outcome (A : Type) := Bug | NoFuel | Ret (a : A).
Arguments Bug {_}.
Arguments NoFuel {_}.
Arguments Ret {_} a.

(** linux/cpumask.h, besides the operations of [CpuMask].  [cpumask_next None]
    starts the loop for_each_cpu(); a result that is no processor is not below
    nr_cpu_ids. *)
Class CpuMasks `{CpuMask} := {
  cpumask_next : option nat -> Z -> nat;
  cpumask_any : Z -> nat;
  cpumask_any_and : Z -> Z -> nat;
  cpumask_weight : Z -> Z;
  cpumask_equal : Z -> Z -> bool;
  cpumask_intersects : Z -> Z -> bool;
  cpumask_set_cpu : nat -> Z -> Z;
  cpumask_clear_cpu : nat -> Z -> Z;
  cpumask_of : nat -> Z }.

(** The priority-sorted lists, the lock-free lists and the processor priorities
    (cpupri.c). *)
Class SmpTypes := {
  plist : Type;
  plist_items : plist -> list (nat * Z);       (* the tasks with their node's prio *)
  plist_head_init : plist;
  plist_del : nat -> plist -> plist;
  plist_add : nat -> Z -> plist -> plist;      (* with plist_node_init() *)
  plist_head_empty : plist -> bool;
  plist_first : plist -> nat;
  llist : Type;
  llist_entries : llist -> list nat;           (* newest first *)
  llist_empty : llist -> bool;
  llist_add : nat -> llist -> bool * llist;    (* true: the list was empty *)
  llist_del_all : llist -> list nat * llist;
  Cpupri : Type;
  cpupri_find : Cpupri -> Z -> Z -> bool * Z;  (* the task's prio and cpus_allowed *)
  cpupri_set : nat -> Z -> Cpupri -> Cpupri }.

Definition CPUPRI_INVALID := -1.

(** kernel/sched/sched.h: the members of [struct rt_rq] below CONFIG_SMP *)
Record rt_rq_smp `{SmpTypes} := mkRtSmp {
  highest_next : Z;                        (* highest_prio.next *)
  rt_nr_migratory : Z; rt_nr_total : Z;
  overloaded : Z;
  pushable_tasks : plist }.

(** kernel/sched/sched.h: [struct root_domain] *)
Record root_domain `{SmpTypes} := mkRd {
  refcount : Z; rto_count : Z; rd_span : Z; rd_online : Z; rto_mask : Z; cpupri : Cpupri }.

(** include/linux/sched.h: [struct sched_domain]; [sd_groups] are the masks of
    the ring of groups, from [groups] on *)
Record sched_domain := mkSd {
  sd_flags : Z; sd_level : nat; sd_span : Z; sd_groups : list Z; ttwu_wake_remote : Z }.

(** kernel/sched/sched.h: [struct rq] with its members below CONFIG_SMP;
    [rq_sd] are the domains from [rq->sd] along [parent] *)
Record cpu_t `{SmpTypes} := mkCpu {
  c_rq : rq_t; c_rt : rt_rq; c_rts : rt_rq_smp;
  rq_rd : option nat;                      (* rd *)
  rq_sd : list sched_domain;               (* sd *)
  rq_online : Z; post_schedule_flag : Z;
  rt_avg : Z; age_stamp : Z;
  idle_stamp : Z; avg_idle : Z;
  idle_balance : Z; ttwu_local : Z;
  wake_list : llist }.

(** include/linux/sched.h: the members of a task below CONFIG_SMP *)
Record task_smp := mkTaskSmp {
  t_cpu : nat;                             (* task_thread_info(p)->cpu *)
  on_cpu : Z;
  sched_contributes_to_load : Z;
  thread_bound : bool;                     (* PF_THREAD_BOUND *)
  nr_wakeups_local : Z; nr_wakeups_remote : Z; nr_wakeups_migrate : Z }.

#[export] Instance eta_rt_rq_smp `{SmpTypes} : Eta rt_rq_smp := fun r =>
  mkRtSmp _ r.(highest_next) r.(rt_nr_migratory) r.(rt_nr_total) r.(overloaded) r.(pushable_tasks).
#[export] Instance eta_rd `{SmpTypes} : Eta root_domain := fun r =>
  mkRd _ r.(refcount) r.(rto_count) r.(rd_span) r.(rd_online) r.(rto_mask) r.(cpupri).
#[export] Instance eta_cpu `{SmpTypes} : Eta cpu_t := fun r =>
  mkCpu _ r.(c_rq) r.(c_rt) r.(c_rts) r.(rq_rd) r.(rq_sd) r.(rq_online) r.(post_schedule_flag)
    r.(rt_avg) r.(age_stamp) r.(idle_stamp) r.(avg_idle)
    r.(idle_balance) r.(ttwu_local) r.(wake_list).
#[export] Instance eta_task_smp : Eta task_smp := fun r =>
  mkTaskSmp r.(t_cpu) r.(on_cpu) r.(sched_contributes_to_load) r.(thread_bound)
    r.(nr_wakeups_local) r.(nr_wakeups_remote) r.(nr_wakeups_migrate).
#[export] Instance eta_sd : Eta sched_domain := fun r =>
  mkSd r.(sd_flags) r.(sd_level) r.(sd_span) r.(sd_groups) r.(ttwu_wake_remote).

(** The types of the model: the opaque state of the code outside the repository
    and the links of the real-time queues. *)
Class SKTypes := { SExt : Type; snode_lists :: KListOps snode }.

(** The state of the machine. *)
Record smp `{SKTypes} `{SmpTypes} := mkSmpState {
  stasks : nat -> task_struct;
  sthread : nat -> task_smp;
  cpus : nat -> cpu_t;                     (* the per-CPU variable runqueues *)
  slinks : lh (A := snode);
  rds : nat -> root_domain;
  online_mask : Z; active_mask : Z; possible_mask : Z;
  local_cpu_mask : nat -> bool;            (* rt.c: allocated by init_sched_rt_class() *)
  sd_llc_id : nat -> nat;
  def_rt_bw : rt_bandwidth;                (* def_rt_bandwidth *)
  rt_runtime_sysctl : Z;                   (* sysctl_sched_rt_runtime *)
  feat_share : bool; feat_ttwu_queue : bool;  (* sched_feat() *)
  running : bool;                          (* scheduler_running *)
  load_tasks : Z; load_update : Z;         (* calc_load_tasks, calc_load_update *)
  this_cpu : nat;                          (* smp_processor_id() *)
  sext : SExt }.
#[export] Instance eta_smp_state `{SKTypes} `{SmpTypes} : Eta smp := fun r =>
  mkSmpState _ _ r.(stasks) r.(sthread) r.(cpus) r.(slinks) r.(rds) r.(online_mask) r.(active_mask)
    r.(possible_mask) r.(local_cpu_mask) r.(sd_llc_id) r.(def_rt_bw) r.(rt_runtime_sysctl)
    r.(feat_share) r.(feat_ttwu_queue) r.(running) r.(load_tasks) r.(load_update)
    r.(this_cpu) r.(sext).

(** What the code calls and the repository does not hold. *)
Class SmpEnv `{SKTypes} `{SmpTypes} := {
  clock_of : nat -> SExt -> Z;                       (* sched_clock_cpu() *)
  account_exec : nat -> Z -> SExt -> SExt;           (* account_group_exec_runtime() *)
  first_bit : Z -> Z;                                (* sched_find_first_bit() *)
  next_bit : Z -> Z -> Z -> Z;                       (* find_next_bit(): size, offset *)
  migration_cost : Z;                                (* fair.c: sysctl_sched_migration_cost *)
  is_polling : nat -> SExt -> bool;                  (* tsk_is_polling() *)
  send_reschedule : nat -> SExt -> SExt;             (* smp_send_reschedule() *)
  info_queued : nat -> SExt -> SExt;                 (* sched_info_queued() *)
  info_dequeued : nat -> SExt -> SExt;
  worker_waking_up : nat -> nat -> SExt -> SExt;     (* wq_worker_waking_up() *)
  node_mask : nat -> Z;                              (* cpumask_of_node(cpu_to_node()) *)
  cpuset_cpus_allowed_fallback : nat -> smp -> smp;
  others_run : nat -> smp -> smp }.                  (* the lock of the runqueue is free *)

(** include/linux/sched.h: [struct sched_class], the operations of a class, with
    those below CONFIG_SMP; the first argument is the processor of the runqueue *)
Record smp_class `{SKTypes} `{SmpTypes} := mkSmpClass {
  sc_enqueue_task : nat -> nat -> Z -> smp -> smp;
  sc_dequeue_task : nat -> nat -> Z -> smp -> smp;
  sc_check_preempt_curr : nat -> nat -> Z -> smp -> smp;
  sc_pick_next_task : nat -> smp -> option (option nat * smp);
  sc_put_prev_task : nat -> nat -> smp -> smp;
  sc_select_task_rq : nat -> Z -> Z -> smp -> nat;
  sc_set_cpus_allowed : option (nat -> Z -> smp -> option smp);
  sc_rq_online : option (nat -> smp -> smp);
  sc_rq_offline : option (nat -> smp -> option smp);
  sc_task_woken : option (nat -> nat -> smp -> outcome smp);
  sc_task_waking : option (nat -> smp -> smp) }.

Section smp.
Context {SK : SKTypes} {ST : SmpTypes}.

(** Writes through the pointers to a runqueue, a task or a root domain. *)
Definition upd_cpu (c : nat) (f : cpu_t -> cpu_t) (s : smp) : smp :=
  s <| cpus ::= fun m d => if (d =? c)%nat then f (m c) else m d |>.
Definition upd_crq (c : nat) (f : rq_t -> rq_t) : smp -> smp := upd_cpu c (fun r => r <| c_rq ::= f |>).
Definition upd_crt (c : nat) (f : rt_rq -> rt_rq) : smp -> smp := upd_cpu c (fun r => r <| c_rt ::= f |>).
Definition upd_rts (c : nat) (f : rt_rq_smp -> rt_rq_smp) : smp -> smp := upd_cpu c (fun r => r <| c_rts ::= f |>).
Definition upd_stask (p : nat) (f : task_struct -> task_struct) (s : smp) : smp :=
  s <| stasks ::= fun m q => if (q =? p)%nat then f (m p) else m q |>.
Definition upd_thread (p : nat) (f : task_smp -> task_smp) (s : smp) : smp :=
  s <| sthread ::= fun m q => if (q =? p)%nat then f (m p) else m q |>.
Definition upd_rd (d : nat) (f : root_domain -> root_domain) (s : smp) : smp :=
  s <| rds ::= fun m e => if (e =? d)%nat then f (m d) else m e |>.

(** cpu_rq(), cpu_rq()->rt *)
Definition crq (s : smp) (c : nat) : rq_t := c_rq (cpus s c).
Definition crt (s : smp) (c : nat) : rt_rq := c_rt (cpus s c).
Definition crts (s : smp) (c : nat) : rt_rq_smp := c_rts (cpus s c).
(** kernel/sched/sched.h: cpu_curr(), task_cpu(), task_current(), task_running() *)
Definition cpu_curr (s : smp) (c : nat) : nat := rq_curr (crq s c).
Definition task_cpu (s : smp) (p : nat) : nat := t_cpu (sthread s p).
Definition task_current (s : smp) (c p : nat) : bool := (cpu_curr s c =? p)%nat.
Definition task_running (s : smp) (c p : nat) : bool := c_true (on_cpu (sthread s p)).

(** include/linux/sched.h: rt_task() *)
Definition rt_task (s : smp) (p : nat) : bool := rt_prio (t_prio (stasks s p)).
(** [tsk_cpus_allowed(p)], [p->rt.nr_cpus_allowed] *)
Definition tsk_cpus_allowed (s : smp) (p : nat) : Z := t_cpus_allowed (stasks s p).
Definition nr_cpus_allowed (s : smp) (p : nat) : Z := rt_nr_cpus_allowed (t_rt (stasks s p)).

(** kernel/sched/sched.h: rt_bandwidth_enabled() *)
Definition rt_bandwidth_enabled (s : smp) : bool := 0 <=? rt_runtime_sysctl s.

(** kernel/sched/sched.h: inc_nr_running(), dec_nr_running() *)
Definition inc_nr_running (c : nat) : smp -> smp := upd_crq c (fun r => r <| nr_running ::= fun n => u32 (n + 1) |>).
Definition dec_nr_running (c : nat) : smp -> smp := upd_crq c (fun r => r <| nr_running ::= fun n => u32 (n - 1) |>).

(** kernel/sched/sched.h: prepare_lock_switch(), finish_lock_switch() *)
Definition prepare_lock_switch (next : nat) : smp -> smp := upd_thread next (fun t => t <| on_cpu := 1 |>).
Definition finish_lock_switch (prev : nat) : smp -> smp := upd_thread prev (fun t => t <| on_cpu := 0 |>).

(** core.c: sysctl_sched_time_avg, a constant without CONFIG_SCHED_DEBUG; sched.h:
    sched_avg_period() *)
Definition sysctl_sched_time_avg := 1000.
Definition NSEC_PER_MSEC := 1000000.
Definition sched_avg_period : Z := u64 (sysctl_sched_time_avg * NSEC_PER_MSEC) / 2.

(** cpu_online(), cpu_active() *)
Context {CM : CpuMask} {CMS : CpuMasks}.
Definition cpu_online (s : smp) (c : nat) : bool := cpumask_test_cpu c (online_mask s).
Definition cpu_active (s : smp) (c : nat) : bool := cpumask_test_cpu c (active_mask s).
(** A number of a processor: below nr_cpu_ids. *)
Definition is_cpu (c : nat) : bool := Z.of_nat c <? nr_cpu_ids.

(** for_each_cpu(): the first processor of the mask that satisfies [f]; nothing
    happens to the mask meanwhile *)
Fixpoint for_each_cpu_find (fuel : nat) (prev : option nat) (mask : Z) (f : nat -> bool) : option nat :=
  match fuel with
  | O => None
  | S fuel =>
      let c := cpumask_next prev mask in
      if negb (is_cpu c) then None
      else if f c then Some c
      else for_each_cpu_find fuel (Some c) mask f
  end.
(** There are at most nr_cpu_ids of them. *)
Definition nr_cpus : nat := Z.to_nat nr_cpu_ids.

Context {SE : SmpEnv}.

(** include/linux/sched.h: set_tsk_need_resched(); core.c: resched_task(),
    resched_cpu() with its lock taken *)
Definition set_tsk_need_resched (p : nat) : smp -> smp := upd_stask p (fun t => t <| need_resched := true |>).
Definition resched_task (p : nat) (s : smp) : smp :=
  if need_resched (stasks s p) then s
  else
    let s := set_tsk_need_resched p s in
    let cpu := task_cpu s p in
    if (cpu =? this_cpu s)%nat then s
    else if negb (is_polling p (sext s)) then s <| sext ::= send_reschedule cpu |>
    else s.
Definition resched_cpu (c : nat) (trylock : bool) (s : smp) : smp :=
  if negb trylock then s else resched_task (cpu_curr s c) s.

(** core.c: sched_avg_update(); the loop runs once for every period that passed *)
Fixpoint sched_avg_loop (fuel : nat) (c : nat) (period : Z) (s : smp) : smp :=
  match fuel with
  | O => s
  | S fuel =>
      if period <? s64 (u64 (clock (crq s c) - age_stamp (cpus s c))) then
        let s := upd_cpu c (fun r => r <| age_stamp ::= fun a => u64 (a + period) |>) s in
        let s := upd_cpu c (fun r => r <| rt_avg ::= fun a => a / 2 |>) s in
        sched_avg_loop fuel c period s
      else s
  end.
Definition sched_avg_update (c : nat) (s : smp) : smp :=
  let period := s64 sched_avg_period in
  let late := s64 (u64 (clock (crq s c) - age_stamp (cpus s c))) in
  sched_avg_loop (Z.to_nat (late / period)) c period s.
(** sched.h: sched_rt_avg_update() *)
Definition sched_rt_avg_update (c : nat) (rt_delta : Z) (s : smp) : smp :=
  let s := upd_cpu c (fun r => r <| rt_avg ::= fun a => u64 (a + rt_delta) |>) s in
  sched_avg_update c s.

(** core.c: update_rq_clock() *)
Definition update_rq_clock (c : nat) (s : smp) : smp :=
  if 0 <? skip_clock_update (crq s c) then s
  else
    let delta := s64 (u64 (clock_of c (sext s) - clock (crq s c))) in
    let s := upd_crq c (fun r => r <| clock ::= fun t => u64 (t + delta) |>) s in
    upd_crq c (fun r => r <| clock_task ::= fun t => u64 (t + delta) |>) s.

(** sched.h: double_lock_balance() of a preemptible kernel: the lock of the
    runqueue [c] is dropped and both are taken *)
Definition double_lock_balance (c busiest : nat) (s : smp) : bool * smp := (true, others_run c s).

(** core.c: set_task_cpu(); sched.h: __set_task_cpu() *)
Definition __set_task_cpu (p cpu : nat) : smp -> smp := upd_thread p (fun t => t <| t_cpu := cpu |>).
Definition set_task_cpu (p new_cpu : nat) (s : smp) : smp :=
  let s := if negb (task_cpu s p =? new_cpu)%nat
           then upd_stask p (fun t => t <| t_se ::= fun e => e <| nr_migrations ::= fun n => u64 (n + 1) |> |>) s
           else s in
  __set_task_cpu p new_cpu s.
End smp.

(** The classes other than the real-time one. *)
Class SmpClasses `{SKTypes} `{SmpTypes} := {
  stop_smp : smp_class; ras_smp : smp_class; fair_smp : smp_class; idle_smp : smp_class }.
