(* ===== verification/RtSmp.v ===== *)
(** The real-time class of the multiprocessor build: kernel/sched/rt.c below
    CONFIG_SMP, without group scheduling.

    A runqueue has one rt_rq; besides the priority array it keeps the list of its
    tasks that may be pushed to another processor, the number of its tasks and of
    those that may migrate, and whether it is overloaded; the root domain knows
    the overloaded runqueues.  Pushing moves a waiting task to a processor that
    runs something less important, pulling fetches one from an overloaded
    processor. *)

From S2P Require Import Prelude KList Sched Rt RtBorrow Affinity Smp.

Section rt_smp.
Context {SK : SKTypes} {ST : SmpTypes} {CM : CpuMask} {CMS : CpuMasks} {SE : SmpEnv}.

(** ** The runqueue *)

(** init_rt_rq() *)
Fixpoint init_rt_array (n c : nat) (s : smp) : smp :=
  match n with
  | O => s
  | S n =>
      let s := init_rt_array n c s in
      let s := s <| slinks ::= INIT_LIST_HEAD (SQueue c n) |> in
      upd_crt c (fun r => r <| rt_bitmap ::= fun b => Z.clearbit b (Z.of_nat n) |>) s
  end.
Definition init_rt_rq (c : nat) (s : smp) : smp :=
  let s := init_rt_array (Z.to_nat MAX_RT_PRIO) c s in
  let s := upd_crt c (fun r => r <| rt_bitmap ::= fun b => Z.setbit b MAX_RT_PRIO |>) s in
  let s := upd_crt c (fun r => r <| highest_prio := MAX_RT_PRIO |>) s in
  let s := upd_rts c (fun r => r <| highest_next := MAX_RT_PRIO |> <| rt_nr_migratory := 0 |>
             <| overloaded := 0 |> <| pushable_tasks := plist_head_init |>) s in
  upd_crt c (fun r => r <| rt_time := 0 |> <| rt_throttled := 0 |> <| rt_runtime := 0 |>) s.

(** ** The overloaded runqueues *)

(** rt_overloaded(); [rq->rd] is set from sched_init() on *)
Definition rt_overloaded (c : nat) (s : smp) : Z :=
  match rq_rd (cpus s c) with Some d => rto_count (rds s d) | None => 0 end.
(** rt_set_overload(), rt_clear_overload(); rto_count is an atomic_t *)
Definition upd_my_rd (c : nat) (f : root_domain -> root_domain) (s : smp) : smp :=
  match rq_rd (cpus s c) with Some d => upd_rd d f s | None => s end.
Definition rt_set_overload (c : nat) (s : smp) : smp :=
  if negb (c_true (rq_online (cpus s c))) then s
  else
    let s := upd_my_rd c (fun d => d <| rto_mask ::= cpumask_set_cpu c |>) s in
    upd_my_rd c (fun d => d <| rto_count ::= fun n => s32 (n + 1) |>) s.
Definition rt_clear_overload (c : nat) (s : smp) : smp :=
  if negb (c_true (rq_online (cpus s c))) then s
  else
    let s := upd_my_rd c (fun d => d <| rto_count ::= fun n => s32 (n - 1) |>) s in
    upd_my_rd c (fun d => d <| rto_mask ::= cpumask_clear_cpu c |>) s.

(** update_rt_migration() *)
Definition update_rt_migration (c : nat) (s : smp) : smp :=
  if c_true (rt_nr_migratory (crts s c)) && (1 <? rt_nr_total (crts s c)) then
    if negb (c_true (overloaded (crts s c))) then
      let s := rt_set_overload c s in
      upd_rts c (fun r => r <| overloaded := 1 |>) s
    else s
  else if c_true (overloaded (crts s c)) then
    let s := rt_clear_overload c s in
    upd_rts c (fun r => r <| overloaded := 0 |>) s
  else s.

(** inc_rt_migration(), dec_rt_migration() on the entity of the task [p] *)
Definition inc_rt_migration (c p : nat) (s : smp) : smp :=
  let s := upd_rts c (fun r => r <| rt_nr_total ::= fun n => u32 (n + 1) |>) s in
  let s := if 1 <? nr_cpus_allowed s p
           then upd_rts c (fun r => r <| rt_nr_migratory ::= fun n => u32 (n + 1) |>) s else s in
  update_rt_migration c s.
Definition dec_rt_migration (c p : nat) (s : smp) : smp :=
  let s := upd_rts c (fun r => r <| rt_nr_total ::= fun n => u32 (n - 1) |>) s in
  let s := if 1 <? nr_cpus_allowed s p
           then upd_rts c (fun r => r <| rt_nr_migratory ::= fun n => u32 (n - 1) |>) s else s in
  update_rt_migration c s.

(** has_pushable_tasks(), enqueue_pushable_task(), dequeue_pushable_task() *)
Definition has_pushable_tasks (c : nat) (s : smp) : bool := negb (plist_head_empty (pushable_tasks (crts s c))).
Definition enqueue_pushable_task (c p : nat) (s : smp) : smp :=
  let s := upd_rts c (fun r => r <| pushable_tasks ::= plist_del p |>) s in
  let prio := t_prio (stasks s p) in
  let s := upd_rts c (fun r => r <| pushable_tasks ::= plist_add p prio |>) s in
  if prio <? highest_next (crts s c) then upd_rts c (fun r => r <| highest_next := prio |>) s else s.
Definition dequeue_pushable_task (c p : nat) (s : smp) : smp :=
  let s := upd_rts c (fun r => r <| pushable_tasks ::= plist_del p |>) s in
  if has_pushable_tasks c s then
    let p := plist_first (pushable_tasks (crts s c)) in
    let prio := t_prio (stasks s p) in
    upd_rts c (fun r => r <| highest_next := prio |>) s
  else upd_rts c (fun r => r <| highest_next := MAX_RT_PRIO |>) s.

(** on_rt_rq() *)
Definition on_rt_rq (p : nat) (s : smp) : bool := negb (list_empty (slinks s) (STask p)).

(** ** Bandwidth *)

(** sched_rt_runtime(), sched_rt_period(), rt_rq_throttled(), sched_rt_bandwidth()
    without group scheduling *)
Definition sched_rt_runtime (c : nat) (s : smp) : Z := rt_runtime (crt s c).
Definition sched_rt_period (s : smp) : Z := rtb_period (def_rt_bw s).
Definition rt_rq_throttled (c : nat) (s : smp) : bool := c_true (rt_throttled (crt s c)).
(** sched_rt_rq_enqueue() *)
Definition sched_rt_rq_enqueue (c : nat) (s : smp) : smp :=
  if c_true (rt_nr_running (crt s c)) then resched_task (cpu_curr s c) s else s.

(** The processors of a mask, in the order of for_each_cpu(). *)
Fixpoint cpus_from (fuel : nat) (prev : option nat) (mask : Z) : list nat :=
  match fuel with
  | O => []
  | S fuel =>
      let c := cpumask_next prev mask in
      if is_cpu c then c :: cpus_from fuel (Some c) mask else []
  end.
Definition cpus_of (mask : Z) : list nat := cpus_from nr_cpus None mask.

(** The rt_rqs of the machine as the borrowing code of RtBorrow.v sees them:
    there is one group, the processors are those of the root domain of [c]. *)
Definition borrow_view (c : nat) (s : smp) : smp_rt := {|
  span := match rq_rd (cpus s c) with Some d => cpus_of (rd_span (rds s d)) | None => [] end;
  rt_groups := [0%nat];
  group_bw := fun _ => def_rt_bw s;
  cpu_rt := fun _ i => crt s i;
  share_feat := feat_share s;
  smp_running := running s |}.
Definition borrow_back (v : smp_rt) (s : smp) : smp :=
  s <| cpus ::= fun m i => (m i) <| c_rt := cpu_rt v 0 i |> |>.
Definition balance_runtime (c : nat) (s : smp) : smp := borrow_back (RtBorrow.balance_runtime 0 c (borrow_view c s)).2 s.
Definition __enable_runtime (c : nat) (s : smp) : smp := borrow_back (RtBorrow.__enable_runtime c (borrow_view c s)) s.
Definition __disable_runtime (c : nat) (s : smp) : option smp :=
  match RtBorrow.__disable_runtime c (borrow_view c s) with
  | None => None
  | Some v => Some (borrow_back v s)
  end.

(** sched_rt_runtime_exceeded(); sched_rt_rq_dequeue() does nothing here *)
Definition sched_rt_runtime_exceeded (c : nat) (s : smp) : bool * smp :=
  let runtime := sched_rt_runtime c s in
  if c_true (rt_throttled (crt s c)) then (rt_rq_throttled c s, s)
  else if sched_rt_period s <=? runtime then (false, s)
  else
    let s := balance_runtime c s in
    let runtime := sched_rt_runtime c s in
    if runtime =? RUNTIME_INF then (false, s)
    else if runtime <? rt_time (crt s c) then
      let s := if c_true (rtb_runtime (def_rt_bw s))
               then upd_crt c (fun r => r <| rt_throttled := 1 |>) s
               else upd_crt c (fun r => r <| rt_time := 0 |>) s in
      if rt_rq_throttled c s then (true, s) else (false, s)
    else (false, s).

(** update_curr_rt() *)
Definition update_curr_rt (c : nat) (s : smp) : smp :=
  let curr := cpu_curr s c in
  if negb (bool_decide (t_class (stasks s curr) = rt_class)) then s else
  let delta_exec := u64 (clock_task (crq s c) - exec_start (t_se (stasks s curr))) in
  let delta_exec := if s64 delta_exec <? 0 then 0 else delta_exec in
  let s := upd_stask curr (fun t => t <| t_se ::= fun e => e <| statistics ::= fun st =>
             st <| exec_max ::= fun m => Z.max m delta_exec |> |> |>) s in
  let s := upd_stask curr (fun t => t <| t_se ::= fun e => e <| sum_exec_runtime ::= fun r => u64 (r + delta_exec) |> |>) s in
  let s := s <| sext ::= account_exec curr delta_exec |> in
  let now := clock_task (crq s c) in
  let s := upd_stask curr (fun t => t <| t_se ::= fun e => e <| exec_start := now |> |>) s in
  let s := sched_rt_avg_update c delta_exec s in
  if negb (rt_bandwidth_enabled s) then s
  else
    let g := task_cpu s curr in
    if negb (sched_rt_runtime g s =? RUNTIME_INF) then
      let s := upd_crt g (fun r => r <| rt_time ::= fun t => u64 (t + delta_exec) |>) s in
      let '(exceeded, s) := sched_rt_runtime_exceeded g s in
      if exceeded then resched_task curr s else s
    else s.

(** do_sched_rt_period_timer(): the body of the loop over the processors, with
    [idle], [throttled] *)
Definition period_timer_cpu (overrun : Z) (i : nat) (acc : bool * bool * smp) : bool * bool * smp :=
  let '(idle, throttled, s) := acc in
  let '(idle, enqueue, s) :=
    if c_true (rt_time (crt s i)) then
      let s := if c_true (rt_throttled (crt s i)) then balance_runtime i s else s in
      let runtime := rt_runtime (crt s i) in
      let s := upd_crt i (fun r => r <| rt_time ::= fun t => u64 (t - Z.min t (u64 (overrun * runtime))) |>) s in
      let '(enqueue, s) :=
        if c_true (rt_throttled (crt s i)) && (rt_time (crt s i) <? runtime) then
          let s := upd_crt i (fun r => r <| rt_throttled := 0 |>) s in
          let s := if c_true (rt_nr_running (crt s i)) && (rq_curr (crq s i) =? rq_idle (crq s i))%nat
                   then upd_crq i (fun q => q <| skip_clock_update := -1 |>) s else s in
          (true, s)
        else (false, s) in
      let idle := if c_true (rt_time (crt s i)) || c_true (rt_nr_running (crt s i)) then false else idle in
      (idle, enqueue, s)
    else if c_true (rt_nr_running (crt s i)) then (false, negb (rt_rq_throttled i s), s)
    else (idle, false, s) in
  let throttled := if c_true (rt_throttled (crt s i)) then true else throttled in
  let s := if enqueue : bool then sched_rt_rq_enqueue i s else s in
  (idle, throttled, s).
Definition do_sched_rt_period_timer (overrun : Z) (s : smp) : bool * smp :=
  let span := cpus_of (online_mask s) in
  let '(idle, throttled, s) := fold_left (fun acc i => period_timer_cpu overrun i acc) span (true, false, s) in
  if negb throttled &&
     (negb (rt_bandwidth_enabled s) || (rtb_runtime (def_rt_bw s) =? RUNTIME_INF))
  then (true, s)
  else (idle, s).

(** ** The priority array *)

(** inc_rt_prio(), dec_rt_prio(), with inc_rt_prio_smp(), dec_rt_prio_smp() *)
Definition inc_rt_prio_smp (c : nat) (prio prev_prio : Z) (s : smp) : smp :=
  if c_true (rq_online (cpus s c)) && (prio <? prev_prio)
  then upd_my_rd c (fun d => d <| cpupri ::= cpupri_set c prio |>) s else s.
Definition dec_rt_prio_smp (c : nat) (prio prev_prio : Z) (s : smp) : smp :=
  let curr := highest_prio (crt s c) in
  if c_true (rq_online (cpus s c)) && negb (curr =? prev_prio)
  then upd_my_rd c (fun d => d <| cpupri ::= cpupri_set c curr |>) s else s.
Definition inc_rt_prio (c : nat) (prio : Z) (s : smp) : smp :=
  let prev_prio := highest_prio (crt s c) in
  let s := if prio <? prev_prio then upd_crt c (fun r => r <| highest_prio := prio |>) s else s in
  inc_rt_prio_smp c prio prev_prio s.
Definition dec_rt_prio (c : nat) (prio : Z) (s : smp) : smp :=
  let prev_prio := highest_prio (crt s c) in
  let s :=
    if c_true (rt_nr_running (crt s c)) then
      if prio =? prev_prio
      then upd_crt c (fun r => r <| highest_prio := first_bit (rt_bitmap r) |>) s
      else s
    else upd_crt c (fun r => r <| highest_prio := MAX_RT_PRIO |>) s in
  dec_rt_prio_smp c prio prev_prio s.

(** start_rt_bandwidth(), inc_rt_group() without group scheduling *)
Definition start_rt_bandwidth (s : smp) : smp :=
  let b := def_rt_bw s in
  if negb (rt_bandwidth_enabled s) || (rtb_runtime b =? RUNTIME_INF) then s
  else if rtb_timer_active b then s
  else s <| def_rt_bw ::= start_bandwidth_timer |>.
Definition inc_rt_group (s : smp) : smp := start_rt_bandwidth s.

(** inc_rt_tasks(), dec_rt_tasks() *)
Definition inc_rt_tasks (c p : nat) (s : smp) : smp :=
  let prio := t_prio (stasks s p) in
  let s := upd_crt c (fun r => r <| rt_nr_running ::= fun n => u32 (n + 1) |>) s in
  let s := inc_rt_prio c prio s in
  let s := inc_rt_migration c p s in
  inc_rt_group s.
Definition dec_rt_tasks (c p : nat) (s : smp) : smp :=
  let s := upd_crt c (fun r => r <| rt_nr_running ::= fun n => u32 (n - 1) |>) s in
  let s := dec_rt_prio c (t_prio (stasks s p)) s in
  dec_rt_migration c p s.

(** __enqueue_rt_entity(), __dequeue_rt_entity(); the rt_rq of a task is that of
    the processor it is assigned to *)
Definition rt_queue (c : nat) (prio : Z) : snode := SQueue c (Z.to_nat prio).
Definition __enqueue_rt_entity (head : bool) (p : nat) (s : smp) : smp :=
  let c := task_cpu s p in
  let prio := t_prio (stasks s p) in
  let queue := rt_queue c prio in
  let s := if head then s <| slinks ::= list_add (STask p) queue |>
           else s <| slinks ::= list_add_tail (STask p) queue |> in
  let s := upd_crt c (fun r => r <| rt_bitmap ::= fun b => Z.setbit b prio |>) s in
  inc_rt_tasks c p s.
Definition __dequeue_rt_entity (p : nat) (s : smp) : smp :=
  let c := task_cpu s p in
  let prio := t_prio (stasks s p) in
  let s := s <| slinks ::= list_del_init (STask p) |> in
  let s := if list_empty (slinks s) (rt_queue c prio)
           then upd_crt c (fun r => r <| rt_bitmap ::= fun b => Z.clearbit b prio |>) s else s in
  dec_rt_tasks c p s.

(** dequeue_rt_stack(), enqueue_rt_entity(), dequeue_rt_entity(): a task's entity
    has no parent *)
Definition dequeue_rt_stack (p : nat) (s : smp) : smp :=
  if on_rt_rq p s then __dequeue_rt_entity p s else s.
Definition enqueue_rt_entity (p : nat) (head : bool) (s : smp) : smp :=
  let s := dequeue_rt_stack p s in
  __enqueue_rt_entity head p s.
Definition dequeue_rt_entity (p : nat) (s : smp) : smp := dequeue_rt_stack p s.

(** enqueue_task_rt(), dequeue_task_rt() *)
Definition enqueue_task_rt (c p : nat) (flags : Z) (s : smp) : smp :=
  let s := if has_flag flags ENQUEUE_WAKEUP
           then upd_stask p (fun t => t <| t_rt ::= fun e => e <| rt_timeout := 0 |> |>) s else s in
  let s := enqueue_rt_entity p (has_flag flags ENQUEUE_HEAD) s in
  let s := if negb (task_current s c p) && (1 <? nr_cpus_allowed s p)
           then enqueue_pushable_task c p s else s in
  inc_nr_running c s.
Definition dequeue_task_rt (c p : nat) (flags : Z) (s : smp) : smp :=
  let s := update_curr_rt c s in
  let s := dequeue_rt_entity p s in
  let s := dequeue_pushable_task c p s in
  dec_nr_running c s.

(** requeue_task_rt(), requeue_rt_entity() *)
Definition requeue_task_rt (p : nat) (head : bool) (s : smp) : smp :=
  if on_rt_rq p s then
    let queue := rt_queue (task_cpu s p) (t_prio (stasks s p)) in
    if head then s <| slinks ::= list_move (STask p) queue |>
    else s <| slinks ::= list_move_tail (STask p) queue |>
  else s.

(** pick_next_rt_entity(), _pick_next_task_rt(): the outer [None] is a BUG_ON() *)
Definition pick_next_rt_entity (c : nat) (s : smp) : option nat :=
  let idx := first_bit (rt_bitmap (crt s c)) in
  if MAX_RT_PRIO <=? idx then None
  else match list_next (slinks s) (rt_queue c idx) with STask p => Some p | SQueue _ _ => None end.
Definition _pick_next_task_rt (c : nat) (s : smp) : option (option nat * smp) :=
  if negb (c_true (rt_nr_running (crt s c))) then Some (None, s)
  else if rt_rq_throttled c s then Some (None, s)
  else match pick_next_rt_entity c s with
       | None => None
       | Some p =>
           let now := clock_task (crq s c) in
           Some (Some p, upd_stask p (fun t => t <| t_se ::= fun e => e <| exec_start := now |> |>) s)
       end.
(** pick_next_task_rt(), put_prev_task_rt(), set_curr_task_rt() *)
Definition pick_next_task_rt (c : nat) (s : smp) : option (option nat * smp) :=
  match _pick_next_task_rt c s with
  | None => None
  | Some (p, s) =>
      let s := match p with Some p => dequeue_pushable_task c p s | None => s end in
      let pushable := has_pushable_tasks c s in
      Some (p, upd_cpu c (fun r => r <| post_schedule_flag := of_bool pushable |>) s)
  end.
Definition put_prev_task_rt (c p : nat) (s : smp) : smp :=
  let s := update_curr_rt c s in
  if on_rt_rq p s && (1 <? nr_cpus_allowed s p) then enqueue_pushable_task c p s else s.
Definition set_curr_task_rt (c : nat) (s : smp) : smp :=
  let p := cpu_curr s c in
  let now := clock_task (crq s c) in
  let s := upd_stask p (fun t => t <| t_se ::= fun e => e <| exec_start := now |> |>) s in
  dequeue_pushable_task c p s.

(** ** The processor to run on *)

(** find_lowest_rq(): the loop over the domains of the task's processor, with
    the executing processor when it is among the lowest *)
Definition SD_WAKE_AFFINE := 0x20.
Fixpoint domain_search (sds : list sched_domain) (this : option nat) (lowest_mask : Z) : option nat :=
  match sds with
  | [] => None
  | sd :: sds =>
      if has_flag (sd_flags sd) SD_WAKE_AFFINE then
        match this with
        | Some this_cpu =>
            if cpumask_test_cpu this_cpu (sd_span sd) then Some this_cpu
            else
              let best_cpu := cpumask_any_and lowest_mask (sd_span sd) in
              if is_cpu best_cpu then Some best_cpu else domain_search sds this lowest_mask
        | None =>
            let best_cpu := cpumask_any_and lowest_mask (sd_span sd) in
            if is_cpu best_cpu then Some best_cpu else domain_search sds this lowest_mask
        end
      else domain_search sds this lowest_mask
  end.

(** cpupri_find() on the root domain of the runqueue [c] *)
Definition find_pri (c p : nat) (s : smp) : bool * Z :=
  match rq_rd (cpus s c) with
  | Some d => cpupri_find (cpupri (rds s d)) (t_prio (stasks s p)) (tsk_cpus_allowed s p)
  | None => (false, cpumask_clear)
  end.

(** find_lowest_rq(): [None] is the result -1 *)
Definition find_lowest_rq (task : nat) (s : smp) : option nat :=
  let this := this_cpu s in
  let cpu := task_cpu s task in
  if negb (local_cpu_mask s this) then None
  else if nr_cpus_allowed s task =? 1 then None
  else
    let '(found, lowest_mask) := find_pri cpu task s in
    if negb found then None
    else if cpumask_test_cpu cpu lowest_mask then Some cpu
    else
      let this := if negb (cpumask_test_cpu this lowest_mask) then None else Some this in
      match domain_search (rq_sd (cpus s cpu)) this lowest_mask with
      | Some cpu => Some cpu
      | None =>
          match this with
          | Some this => Some this
          | None =>
              let cpu := cpumask_any lowest_mask in
              if is_cpu cpu then Some cpu else None
          end
      end.

(** select_task_rq_rt() *)
Definition SD_BALANCE_EXEC := 0x4.
Definition SD_BALANCE_FORK := 0x8.
Definition SD_BALANCE_WAKE := 0x10.
Definition select_task_rq_rt (p : nat) (sd_flag flags : Z) (s : smp) : nat :=
  let cpu := task_cpu s p in
  if nr_cpus_allowed s p =? 1 then cpu
  else if negb (sd_flag =? SD_BALANCE_WAKE) && negb (sd_flag =? SD_BALANCE_FORK) then cpu
  else
    let curr := cpu_curr s cpu in
    if rt_task s curr && ((nr_cpus_allowed s curr <? 2) || (t_prio (stasks s curr) <=? t_prio (stasks s p))) &&
       (1 <? nr_cpus_allowed s p)
    then match find_lowest_rq p s with Some target => target | None => cpu end
    else cpu.

(** check_preempt_equal_prio(), check_preempt_curr_rt() *)
Definition check_preempt_equal_prio (c p : nat) (s : smp) : smp :=
  let curr := cpu_curr s c in
  if nr_cpus_allowed s curr =? 1 then s
  else if negb (nr_cpus_allowed s p =? 1) && (find_pri c p s).1 then s
  else if negb (find_pri c curr s).1 then s
  else
    let s := requeue_task_rt p true s in
    resched_task (cpu_curr s c) s.
Definition check_preempt_curr_rt (c p : nat) (flags : Z) (s : smp) : smp :=
  let curr := cpu_curr s c in
  if t_prio (stasks s p) <? t_prio (stasks s curr) then resched_task curr s
  else if (t_prio (stasks s p) =? t_prio (stasks s curr)) && negb (need_resched (stasks s curr))
  then check_preempt_equal_prio c p s
  else s.
End rt_smp.
