(* ===== verification/RtPush.v ===== *)
(** Moving real-time tasks between processors: activation of a task on a
    runqueue (core.c), pushing and pulling, and the rest of the real-time class of
    the multiprocessor build (rt.c). *)

From S2P Require Import Prelude KList Sched Rt Affinity Smp RtSmp.

Section push.
Context {SK : SKTypes} {ST : SmpTypes} {CM : CpuMask} {CMS : CpuMasks} {SE : SmpEnv} {SC : SmpClasses}.

(** ** core.c: enqueue_task(), dequeue_task(), activate_task(), deactivate_task() *)
Definition class_enqueue (k : sched_class) : nat -> nat -> Z -> smp -> smp :=
  match k with
  | stop_class => sc_enqueue_task stop_smp
  | rt_class => enqueue_task_rt
  | ras_class => sc_enqueue_task ras_smp
  | fair_class => sc_enqueue_task fair_smp
  | idle_class => sc_enqueue_task idle_smp
  end.
Definition class_dequeue (k : sched_class) : nat -> nat -> Z -> smp -> smp :=
  match k with
  | stop_class => sc_dequeue_task stop_smp
  | rt_class => dequeue_task_rt
  | ras_class => sc_dequeue_task ras_smp
  | fair_class => sc_dequeue_task fair_smp
  | idle_class => sc_dequeue_task idle_smp
  end.
Definition enqueue_task (c p : nat) (flags : Z) (s : smp) : smp :=
  let s := update_rq_clock c s in
  let s := s <| sext ::= info_queued p |> in
  class_enqueue (t_class (stasks s p)) c p flags s.
Definition dequeue_task (c p : nat) (flags : Z) (s : smp) : smp :=
  let s := update_rq_clock c s in
  let s := s <| sext ::= info_dequeued p |> in
  class_dequeue (t_class (stasks s p)) c p flags s.
Definition activate_task (c p : nat) (flags : Z) (s : smp) : smp :=
  let s := if task_contributes_to_load (stasks s p)
           then upd_crq c (fun r => r <| nr_uninterruptible ::= fun n => u32 (n - 1) |>) s else s in
  enqueue_task c p flags s.
Definition deactivate_task (c p : nat) (flags : Z) (s : smp) : smp :=
  let s := if task_contributes_to_load (stasks s p)
           then upd_crq c (fun r => r <| nr_uninterruptible ::= fun n => u32 (n + 1) |>) s else s in
  dequeue_task c p flags s.

(** ** Choosing a task to move *)

(** pick_rt_task(); [cpu] is [None] for a negative number *)
Definition pick_rt_task (c p : nat) (cpu : option nat) (s : smp) : bool :=
  negb (task_running s c p) &&
  match cpu with None => true | Some cpu => cpumask_test_cpu cpu (tsk_cpus_allowed s p) end &&
  (1 <? nr_cpus_allowed s p).

(** pick_next_highest_task_rt(): the search of one queue, and the loop from one
    priority to the next; there is one rt_rq to look at, so that [next] is set
    only when the search is over *)
Fixpoint pick_in_queue (l : list snode) (c : nat) (cpu : option nat) (s : smp) : option nat :=
  match l with
  | STask p :: l => if pick_rt_task c p cpu s then Some p else pick_in_queue l c cpu s
  | _ => None
  end.
Fixpoint pick_highest_loop (fuel : nat) (idx : Z) (c : nat) (cpu : option nat) (s : smp) : option nat :=
  match fuel with
  | O => None
  | S fuel =>
      if MAX_RT_PRIO <=? idx then None
      else match pick_in_queue (view (slinks s) (rt_queue c idx)) c cpu s with
           | Some p => Some p
           | None => pick_highest_loop fuel (next_bit (rt_bitmap (crt s c)) MAX_RT_PRIO (idx + 1)) c cpu s
           end
  end.
(** Each pass looks at a higher index. *)
Definition pick_next_highest_task_rt (c : nat) (cpu : option nat) (s : smp) : option nat :=
  pick_highest_loop (S (Z.to_nat MAX_RT_PRIO)) (first_bit (rt_bitmap (crt s c))) c cpu s.

(** pick_next_pushable_task(): the outer [None] is one of its BUG_ON()s *)
Definition pick_next_pushable_task (c : nat) (s : smp) : option (option nat) :=
  if negb (has_pushable_tasks c s) then Some None
  else
    let p := plist_first (pushable_tasks (crts s c)) in
    if negb (c =? task_cpu s p)%nat then None
    else if task_current s c p then None
    else if nr_cpus_allowed s p <=? 1 then None
    else if negb (c_true (t_on_rq (stasks s p))) then None
    else if negb (rt_task s p) then None
    else Some (Some p).

(** ** Pushing *)

(** find_lock_lowest_rq(), with its at most RT_MAX_TRIES passes *)
Definition RT_MAX_TRIES : nat := 3.
Fixpoint find_lock_lowest (tries : nat) (task c : nat) (s : smp) : option nat * smp :=
  match tries with
  | O => (None, s)
  | S tries =>
      match find_lowest_rq task s with
      | None => (None, s)
      | Some cpu =>
          if (cpu =? c)%nat then (None, s)
          else
            let '(dropped, s) := double_lock_balance c cpu s in
            if dropped && (negb (task_cpu s task =? c)%nat ||
                           negb (cpumask_test_cpu cpu (tsk_cpus_allowed s task)) ||
                           task_running s c task ||
                           negb (c_true (t_on_rq (stasks s task))))
            then (None, s)
            else if t_prio (stasks s task) <? highest_prio (crt s cpu) then (Some cpu, s)
            else find_lock_lowest tries task c s
      end
  end.
Definition find_lock_lowest_rq (task c : nat) (s : smp) : option nat * smp := find_lock_lowest RT_MAX_TRIES task c s.

(** push_rt_task() from the label [retry] on; it retries when the other
    processors changed the list of tasks to push, which [fuel] bounds *)
Fixpoint push_retry (fuel : nat) (next_task c : nat) (s : smp) : outcome (bool * smp) :=
  match fuel with
  | O => NoFuel
  | S fuel =>
      if (next_task =? cpu_curr s c)%nat then Ret (false, s)
      else if t_prio (stasks s next_task) <? t_prio (stasks s (cpu_curr s c))
      then Ret (false, resched_task (cpu_curr s c) s)
      else
        let '(lowest, s) := find_lock_lowest_rq next_task c s in
        match lowest with
        | None =>
            match pick_next_pushable_task c s with
            | None => Bug
            | Some task =>
                if (task_cpu s next_task =? c)%nat && bool_decide (task = Some next_task) then Ret (false, s)
                else match task with
                     | None => Ret (false, s)
                     | Some task => push_retry fuel task c s
                     end
            end
        | Some lowest =>
            let s := deactivate_task c next_task 0 s in
            let s := set_task_cpu next_task lowest s in
            let s := activate_task lowest next_task 0 s in
            Ret (true, resched_task (cpu_curr s lowest) s)
        end
  end.
Definition push_rt_task (fuel : nat) (c : nat) (s : smp) : outcome (bool * smp) :=
  if negb (c_true (overloaded (crts s c))) then Ret (false, s)
  else match pick_next_pushable_task c s with
       | None => Bug
       | Some None => Ret (false, s)
       | Some (Some next_task) => push_retry fuel next_task c s
       end.

(** push_rt_tasks(); [fuel] bounds its loop and the retries of each pass *)
Fixpoint push_rt_tasks_loop (fuel retries c : nat) (s : smp) : outcome smp :=
  match fuel with
  | O => NoFuel
  | S fuel =>
      match push_rt_task retries c s with
      | Bug => Bug
      | NoFuel => NoFuel
      | Ret (true, s) => push_rt_tasks_loop fuel retries c s
      | Ret (false, s) => Ret s
      end
  end.
Definition push_rt_tasks (fuel c : nat) (s : smp) : outcome smp := push_rt_tasks_loop fuel fuel c s.

(** ** Pulling *)

(** pull_rt_task(): the body of the loop over rto_mask for the processor [cpu] *)
Definition pull_from (c cpu : nat) (s : smp) : bool * smp :=
  if highest_prio (crt s c) <=? highest_next (crts s cpu) then (false, s)
  else
    let '(_, s) := double_lock_balance c cpu s in
    if rt_nr_running (crt s cpu) <=? 1 then (false, s)
    else
      match pick_next_highest_task_rt cpu (Some c) s with
      | None => (false, s)
      | Some p =>
          if t_prio (stasks s p) <? highest_prio (crt s c) then
            if t_prio (stasks s p) <? t_prio (stasks s (cpu_curr s cpu)) then (false, s)
            else
              let s := deactivate_task cpu p 0 s in
              let s := set_task_cpu p c s in
              (true, activate_task c p 0 s)
          else (false, s)
      end.
(** The loop reads the mask anew in each pass. *)
Definition my_rto_mask (c : nat) (s : smp) : Z :=
  match rq_rd (cpus s c) with Some d => rto_mask (rds s d) | None => cpumask_clear end.
Fixpoint pull_loop (fuel : nat) (prev : option nat) (c : nat) (ret : bool) (s : smp) : bool * smp :=
  match fuel with
  | O => (ret, s)
  | S fuel =>
      let cpu := cpumask_next prev (my_rto_mask c s) in
      if negb (is_cpu cpu) then (ret, s)
      else if (c =? cpu)%nat then pull_loop fuel (Some cpu) c ret s
      else
        let '(pulled, s) := pull_from c cpu s in
        pull_loop fuel (Some cpu) c (ret || pulled) s
  end.
Definition pull_rt_task (c : nat) (s : smp) : bool * smp :=
  if negb (c_true (rt_overloaded c s)) then (false, s)
  else pull_loop nr_cpus None c false s.

(** ** The hooks of the class *)

(** pre_schedule_rt(), post_schedule_rt(), task_woken_rt(); core.c: pre_schedule(),
    post_schedule() *)
Definition pre_schedule_rt (c prev : nat) (s : smp) : smp :=
  if t_prio (stasks s prev) <? highest_prio (crt s c) then (pull_rt_task c s).2 else s.
Definition post_schedule_rt (fuel c : nat) (s : smp) : outcome smp := push_rt_tasks fuel c s.
Definition task_woken_rt (fuel c p : nat) (s : smp) : outcome smp :=
  let curr := cpu_curr s c in
  if negb (task_running s c p) && negb (need_resched (stasks s curr)) && has_pushable_tasks c s &&
     (1 <? nr_cpus_allowed s p) && rt_task s curr &&
     ((nr_cpus_allowed s curr <? 2) || (t_prio (stasks s curr) <=? t_prio (stasks s p)))
  then push_rt_tasks fuel c s
  else Ret s.

(** set_cpus_allowed_rt(); [None] is one of its BUG_ON()s *)
Definition set_cpus_allowed_rt (p : nat) (new_mask : Z) (s : smp) : option smp :=
  let weight := cpumask_weight new_mask in
  if negb (rt_task s p) then None
  else if c_true (t_on_rq (stasks s p)) && negb (weight =? nr_cpus_allowed s p) then
    let c := task_cpu s p in
    let s :=
      if negb (task_current s c p) then
        let s := if 1 <? nr_cpus_allowed s p then dequeue_pushable_task c p s else s in
        if 1 <? weight then enqueue_pushable_task c p s else s
      else s in
    let s :=
      if (nr_cpus_allowed s p <=? 1) && (1 <? weight)
      then Some (upd_rts c (fun r => r <| rt_nr_migratory ::= fun n => u32 (n + 1) |>) s)
      else if (1 <? nr_cpus_allowed s p) && (weight <=? 1) then
        if negb (c_true (rt_nr_migratory (crts s c))) then None
        else Some (upd_rts c (fun r => r <| rt_nr_migratory ::= fun n => u32 (n - 1) |>) s)
      else Some s in
    match s with None => None | Some s => Some (update_rt_migration c s) end
  else Some s.

(** rq_online_rt(), rq_offline_rt() *)
Definition rq_online_rt (c : nat) (s : smp) : smp :=
  let s := if c_true (overloaded (crts s c)) then rt_set_overload c s else s in
  let s := __enable_runtime c s in
  let curr := highest_prio (crt s c) in
  upd_my_rd c (fun d => d <| cpupri ::= cpupri_set c curr |>) s.
Definition rq_offline_rt (c : nat) (s : smp) : option smp :=
  let s := if c_true (overloaded (crts s c)) then rt_clear_overload c s else s in
  match __disable_runtime c s with
  | None => None
  | Some s => Some (upd_my_rd c (fun d => d <| cpupri ::= cpupri_set c CPUPRI_INVALID |>) s)
  end.

(** switched_from_rt(), switched_to_rt(), prio_changed_rt() *)
Definition switched_from_rt (c p : nat) (s : smp) : smp :=
  if c_true (t_on_rq (stasks s p)) && negb (c_true (rt_nr_running (crt s c))) then (pull_rt_task c s).2 else s.
Definition switched_to_rt (fuel c p : nat) (s : smp) : outcome smp :=
  if c_true (t_on_rq (stasks s p)) && negb (cpu_curr s c =? p)%nat then
    match (if c_true (overloaded (crts s c)) then push_rt_task fuel c s else Ret (false, s)) with
    | Bug => Bug
    | NoFuel => NoFuel
    | Ret (pushed, s) =>
        let check_resched := negb (pushed && negb (task_cpu s p =? c)%nat) in
        if check_resched && (t_prio (stasks s p) <? t_prio (stasks s (cpu_curr s c)))
        then Ret (resched_task (cpu_curr s c) s) else Ret s
    end
  else Ret s.
Definition prio_changed_rt (c p : nat) (oldprio : Z) (s : smp) : smp :=
  if negb (c_true (t_on_rq (stasks s p))) then s
  else if (cpu_curr s c =? p)%nat then
    let s := if oldprio <? t_prio (stasks s p) then (pull_rt_task c s).2 else s in
    if (highest_prio (crt s c) <? t_prio (stasks s p)) && (cpu_curr s c =? p)%nat
    then resched_task p s else s
  else if t_prio (stasks s p) <? t_prio (stasks s (cpu_curr s c)) then resched_task (cpu_curr s c) s
  else s.

(** rt_sched_class *)
Definition rt_smp_class (fuel : nat) : smp_class := {|
  sc_enqueue_task := enqueue_task_rt;
  sc_dequeue_task := dequeue_task_rt;
  sc_check_preempt_curr := check_preempt_curr_rt;
  sc_pick_next_task := pick_next_task_rt;
  sc_put_prev_task := put_prev_task_rt;
  sc_select_task_rq := select_task_rq_rt;
  sc_set_cpus_allowed := Some set_cpus_allowed_rt;
  sc_rq_online := Some rq_online_rt;
  sc_rq_offline := Some rq_offline_rt;
  sc_task_woken := Some (task_woken_rt fuel);
  sc_task_waking := None |}.
End push.
