(* ===== verification/SmpSpec.v ===== *)
(** What the multiprocessor model assumes of the code outside the repository, and
    the operations that leave the real-time runqueues alone.

    [CpuMaskLaws], [CpuMasksLaws], [SmpTypesLaws] and [SmpEnvLaws] state the
    documented behaviour of linux/cpumask.h, linux/plist.h and the bit searches.
    [calm s s'] says that [s'] differs from [s] in clocks, statistics,
    bandwidth accounts and need_resched flags only. *)

From S2P Require Import Prelude KList Sched Ras Rt RtSpec RtBorrow RtBorrowSpec Affinity AffinitySpec Smp RtSmp.

(** The tasks of a priority array. *)
Definition members (q : Z -> list nat) : list nat := mjoin ((fun i => q (Z.of_nat i)) <$> seq 0 nr_prios).

Lemma elem_of_members q p : p ∈ members q <-> exists i, in_range i /\ p ∈ q i.
Proof.
  unfold members. rewrite list_elem_of_join. setoid_rewrite list_elem_of_fmap. split.
  - intros (l & Hp & i & -> & Hi%elem_of_seq). exists (Z.of_nat i). split; [|done].
    unfold in_range, nr_prios in *. lia.
  - intros (i & Hi & Hp). exists (q i). split; [done|]. exists (Z.to_nat i).
    unfold in_range, nr_prios in *. split; [f_equal; lia|]. apply elem_of_seq. lia.
Qed.

Lemma members_without p q : members (qs_del p q) = without p (members q).
Proof.
  unfold members, qs_del. induction (seq 0 nr_prios) as [|i l IH]; [done|]. cbn.
  etrans; [|symmetry; apply without_app]. by f_equal.
Qed.

Lemma join_ext (q q' : Z -> list nat) l : (forall i, i ∈ l -> q' (Z.of_nat i) = q (Z.of_nat i)) ->
  mjoin ((fun i => q' (Z.of_nat i)) <$> l) = mjoin ((fun i => q (Z.of_nat i)) <$> l).
Proof.
  intros H. induction l as [|i l IH]; [done|]. cbn. f_equal; [apply H; set_solver|].
  apply IH. set_solver.
Qed.

Lemma members_add head i p q : in_range i -> members (qs_add head i p q) ≡ₚ p :: members q.
Proof.
  intros Hi. unfold members. set (n := Z.to_nat i).
  assert (Hn : i = Z.of_nat n) by (unfold in_range, n in *; lia).
  assert (E : seq 0 nr_prios = seq 0 n ++ n :: seq (S n) (nr_prios - S n)).
  { change (n :: seq (S n) (nr_prios - S n)) with (seq n (S (nr_prios - S n))). 
    replace nr_prios with (n + S (nr_prios - S n))%nat at 1 by (unfold in_range, nr_prios in *; lia).
    by rewrite seq_app. }
  rewrite E, !fmap_app, !join_app. cbn.
  rewrite (join_ext q (qs_add head i p q)), (join_ext q (qs_add head i p q)).
  - unfold qs_add at 1. rewrite Hn, Z.eqb_refl.
    assert (q_enqueue head p (q (Z.of_nat n)) ≡ₚ p :: q (Z.of_nat n)) as ->; [|solve_Permutation].
    destruct head; cbn; [done|]. solve_Permutation.
  - intros j Hj%elem_of_seq. unfold qs_add. bcase; [lia|done].
  - intros j Hj%elem_of_seq. unfold qs_add. bcase; [lia|done].
Qed.

(** Counting the members of a list with a property. *)
Lemma filter_same {A} (f g : A -> bool) (l : list A) : (forall x, x ∈ l -> g x = f x) ->
  filter (fun x => g x = true) l = filter (fun x => f x = true) l.
Proof.
  intros H. induction l as [|x l IH]; [done|]. rewrite !filter_cons, IH by (intros; apply H; set_solver).
  by rewrite H by set_solver.
Qed.

Lemma NoDup_bound (l : list nat) (n : nat) : NoDup l -> (forall x, x ∈ l -> (x < n)%nat) -> (length l <= n)%nat.
Proof.
  intros Hn Hl. rewrite <- (length_seq n 0). apply submseteq_length, NoDup_submseteq; [done|].
  intros x Hx. apply elem_of_seq. specialize (Hl x Hx). lia.
Qed.

Lemma filter_flip (f g : nat -> bool) l c : NoDup l -> c ∈ l -> f c = false -> g c = true -> (forall x, x <> c -> g x = f x) ->
  length (filter (fun x => g x = true) l) = S (length (filter (fun x => f x = true) l)).
Proof.
  intros Hn Hc Hf Hg Ho. induction l as [|x l IH]; [set_solver|]. apply NoDup_cons in Hn as [Hx Hn].
  rewrite !filter_cons. destruct (decide (x = c)) as [->|Hne].
  - rewrite (decide_True (P := g c = true)) by done. rewrite (decide_False (P := f c = true)) by congruence.
    cbn. f_equal. f_equal. apply filter_same. intros y Hy. apply Ho. by intros ->.
  - rewrite (Ho x) by done. assert (c ∈ l) as Hc' by set_solver. specialize (IH Hn Hc').
    case_decide; cbn; by rewrite IH.
Qed.

(** linux/cpumask.h *)
Definition after (prev : option nat) (c : nat) : Prop := match prev with None => True | Some p => (p < c)%nat end.
Class CpuMasksLaws `{CpuMasks} : Prop := {
  nr_cpu_ids_range : 0 < nr_cpu_ids < 2 ^ 31;
  next_after prev m : after prev (cpumask_next prev m);
  next_in prev m : is_cpu (cpumask_next prev m) = true -> cpumask_test_cpu (cpumask_next prev m) m = true;
  next_least prev m c : is_cpu c = true -> after prev c -> cpumask_test_cpu c m = true -> (cpumask_next prev m <= c)%nat;
  any_in m : is_cpu (cpumask_any m) = true -> cpumask_test_cpu (cpumask_any m) m = true;
  any_none m c : is_cpu c = true -> cpumask_test_cpu c m = true -> is_cpu (cpumask_any m) = true;
  any_and_in m m' : is_cpu (cpumask_any_and m m') = true ->
    cpumask_test_cpu (cpumask_any_and m m') m = true /\ cpumask_test_cpu (cpumask_any_and m m') m' = true;
  any_and_none m m' c : is_cpu c = true -> cpumask_test_cpu c m = true -> cpumask_test_cpu c m' = true ->
    is_cpu (cpumask_any_and m m') = true;
  weight_spec m : cpumask_weight m = Z.of_nat (length (filter (fun c => cpumask_test_cpu c m = true) (seq 0 nr_cpus)));
  equal_spec m m' : cpumask_equal m m' = true <->
    forall c, is_cpu c = true -> cpumask_test_cpu c m = cpumask_test_cpu c m';
  intersects_spec m m' : cpumask_intersects m m' = true <->
    exists c, is_cpu c = true /\ cpumask_test_cpu c m = true /\ cpumask_test_cpu c m' = true;
  set_cpu_spec c d m : is_cpu c = true -> is_cpu d = true ->
    cpumask_test_cpu d (cpumask_set_cpu c m) = (d =? c)%nat || cpumask_test_cpu d m;
  clear_cpu_spec c d m : is_cpu c = true -> is_cpu d = true ->
    cpumask_test_cpu d (cpumask_clear_cpu c m) = negb (d =? c)%nat && cpumask_test_cpu d m;
  of_spec c d : is_cpu c = true -> is_cpu d = true -> cpumask_test_cpu d (cpumask_of c) = (d =? c)%nat }.

(** linux/plist.h, linux/llist.h, cpupri.h *)
Class SmpTypesLaws `{SmpTypes} : Prop := {
  plist_init_items : plist_items plist_head_init = [];
  plist_del_items p l : plist_items (plist_del p l) = filter (fun e => e.1 <> p) (plist_items l);
  plist_add_items p i l : p ∉ (plist_items l).*1 -> plist_items (plist_add p i l) ≡ₚ (p, i) :: plist_items l;
  plist_empty_spec l : plist_head_empty l = bool_decide (plist_items l = []);
  plist_first_spec l : plist_items l <> [] ->
    exists i, (plist_first l, i) ∈ plist_items l /\ forall e, e ∈ plist_items l -> i <= e.2;
  llist_empty_spec l : llist_empty l = bool_decide (llist_entries l = []);
  llist_add_spec p l : (llist_add p l).1 = llist_empty l /\ llist_entries (llist_add p l).2 = p :: llist_entries l;
  llist_del_spec l : (llist_del_all l).1 = llist_entries l /\ llist_entries (llist_del_all l).2 = [] }.

(** The bit searches. *)
Class SmpEnvLaws `{SmpEnv} : Prop := {
  first_bit_spec b : 0 <= b -> Z.testbit b MAX_RT_PRIO = true ->
    0 <= first_bit b <= MAX_RT_PRIO /\ Z.testbit b (first_bit b) = true /\
    forall i, 0 <= i < first_bit b -> Z.testbit b i = false;
  next_bit_spec b n o : 0 <= b -> 0 <= o ->
    (o <= next_bit b n o /\ forall i, o <= i < next_bit b n o -> i < n -> Z.testbit b i = false) /\
    (next_bit b n o < n -> Z.testbit b (next_bit b n o) = true) /\ (o <= n -> next_bit b n o <= n) }.

Section calm.
Context {SK : SKTypes} {ST : SmpTypes} {CM : CpuMask} {CMS : CpuMasks} {SE : SmpEnv}.
Implicit Types (s : smp) (c p d : nat).

(** What the scheduler decides by is the same in both tasks. *)
Record task_same (t t' : task_struct) : Prop := {
  ts_prio : t_prio t' = t_prio t;
  ts_class : t_class t' = t_class t;
  ts_allowed : t_cpus_allowed t' = t_cpus_allowed t;
  ts_nr : rt_nr_cpus_allowed (t_rt t') = rt_nr_cpus_allowed (t_rt t);
  ts_on_rq : t_on_rq t' = t_on_rq t;
  ts_state : t_state t' = t_state t;
  ts_flags : t_flags t' = t_flags t;
  ts_mm : t_mm t' = t_mm t }.
Record array_same (r r' : rt_rq) : Prop := {
  as_bitmap : rt_bitmap r' = rt_bitmap r;
  as_nr : rt_nr_running r' = rt_nr_running r;
  as_high : highest_prio r' = highest_prio r }.
Record rq_same (r r' : rq_t) : Prop := {
  rs_nr : nr_running r' = nr_running r;
  rs_curr : rq_curr r' = rq_curr r;
  rs_idle : rq_idle r' = rq_idle r;
  rs_stop : rq_stop r' = rq_stop r;
  rs_uninterruptible : nr_uninterruptible r' = nr_uninterruptible r;
  rs_calc : calc_load_active r' = calc_load_active r;
  rs_cfs : cfs_h_nr_running r' = cfs_h_nr_running r }.
Record cpu_same (r r' : cpu_t) : Prop := {
  cs_rq : rq_same (c_rq r) (c_rq r');
  cs_rt : array_same (c_rt r) (c_rt r');
  cs_rts : c_rts r' = c_rts r;
  cs_rd : rq_rd r' = rq_rd r;
  cs_sd : rq_sd r' = rq_sd r;
  cs_online : rq_online r' = rq_online r;
  cs_wake : wake_list r' = wake_list r }.
Record calm s s' : Prop := {
  cm_task : forall p, task_same (stasks s p) (stasks s' p);
  cm_thread : sthread s' = sthread s;
  cm_cpu : forall c, cpu_same (cpus s c) (cpus s' c);
  cm_links : slinks s' = slinks s;
  cm_rds : rds s' = rds s;
  cm_online : online_mask s' = online_mask s;
  cm_active : active_mask s' = active_mask s;
  cm_possible : possible_mask s' = possible_mask s;
  cm_local : local_cpu_mask s' = local_cpu_mask s;
  cm_load : load_tasks s' = load_tasks s;
  cm_this : this_cpu s' = this_cpu s;
  cm_run : running s' = running s;
  cm_share : feat_share s' = feat_share s;
  cm_sysctl : rt_runtime_sysctl s' = rt_runtime_sysctl s;
  cm_bw : rtb_period (def_rt_bw s') = rtb_period (def_rt_bw s) /\ rtb_runtime (def_rt_bw s') = rtb_runtime (def_rt_bw s) }.

#[export] Instance task_same_pre : PreOrder task_same.
Proof. split; [by split|]. intros x y z [] []; split; congruence. Qed.
#[export] Instance array_same_pre : PreOrder array_same.
Proof. split; [by split|]. intros x y z [] []; split; congruence. Qed.
#[export] Instance rq_same_pre : PreOrder rq_same.
Proof. split; [by split|]. intros x y z [] []; split; congruence. Qed.
#[export] Instance cpu_same_pre : PreOrder cpu_same.
Proof.
  split; [by split|]. intros x y z [] []; split; try congruence; by etrans.
Qed.
#[export] Instance calm_pre : PreOrder calm.
Proof.
  split; [by split|]. intros x y z [] []; split; try congruence.
  - intros p. etrans; eauto.
  - intros c. etrans; eauto.
  - destruct cm_bw0, cm_bw1. split; congruence.
Qed.

Lemma calm_task p f s : (forall t, task_same t (f t)) -> calm s (upd_stask p f s).
Proof.
  intros H. split; try done. intros q. unfold upd_stask. cbn.
  destruct (Nat.eqb_spec q p) as [->|]; [apply H|done].
Qed.
Lemma calm_cpu c f s : (forall r, cpu_same r (f r)) -> calm s (upd_cpu c f s).
Proof.
  intros H. split; try done. intros d. unfold upd_cpu. cbn.
  destruct (Nat.eqb_spec d c) as [->|]; [apply H|done].
Qed.
Lemma calm_ext f s : calm s (s <| sext ::= f |>).
Proof. by split. Qed.
End calm.
Create HintDb calm.
#[export] Hint Resolve calm_ext : calm.
#[export] Hint Extern 2 (calm ?s ?s) => reflexivity : calm.
#[export] Hint Extern 3 (calm _ (upd_stask _ _ _)) => apply calm_task; intros; by split : calm.
#[export] Hint Extern 3 (calm _ (upd_cpu _ _ _)) => apply calm_cpu; intros; by split : calm.
#[export] Hint Extern 3 (calm _ (upd_crq _ _ _)) => apply calm_cpu; intros; split; by try split : calm.
#[export] Hint Extern 3 (calm _ (upd_crt _ _ _)) => apply calm_cpu; intros; split; by try split : calm.

Section calm_ops.
Context {SK : SKTypes} {ST : SmpTypes} {CM : CpuMask} {CMS : CpuMasks} {SE : SmpEnv}.
Implicit Types (s : smp) (c p d : nat).

Lemma set_need_calm p s : calm s (set_tsk_need_resched p s).
Proof. unfold set_tsk_need_resched. auto with calm. Qed.

Lemma resched_calm p s : calm s (resched_task p s).
Proof.
  unfold resched_task. repeat case_match; try reflexivity; try apply set_need_calm.
  etrans; [apply set_need_calm|apply calm_ext].
Qed.

Lemma sched_avg_loop_calm n c period s : calm s (sched_avg_loop n c period s).
Proof.
  revert s; induction n as [|n IH]; intros s; cbn; [reflexivity|]. case_match; [|reflexivity].
  etrans; [|apply IH]. etrans; [|apply calm_cpu; intros; by split]. apply calm_cpu; intros; by split.
Qed.

Lemma rt_avg_calm c delta s : calm s (sched_rt_avg_update c delta s).
Proof. unfold sched_rt_avg_update. etrans; [|apply sched_avg_loop_calm]. auto with calm. Qed.

Lemma rq_clock_calm c s : calm s (update_rq_clock c s).
Proof. unfold update_rq_clock. case_match; [reflexivity|]. etrans; [|eauto with calm]. auto with calm. Qed.

Lemma bandwidth_calm s : calm s (start_rt_bandwidth s).
Proof.
  unfold start_rt_bandwidth. repeat case_match; try reflexivity. split; try done.
  cbn. unfold start_bandwidth_timer. by case_match.
Qed.
End calm_ops.

(** ** Borrowing only moves runtime *)
Definition arrays_same (v v' : smp_rt) : Prop := forall g i, array_same (cpu_rt v g i) (cpu_rt v' g i).
#[export] Instance arrays_same_pre : PreOrder arrays_same.
Proof. split; [by intros v g i|]. intros x y z H1 H2 g i. etrans; eauto. Qed.

Lemma arrays_upd g c f v : (forall r, array_same r (f r)) -> arrays_same v (upd_cpu_rt g c f v).
Proof.
  intros H h i. unfold upd_cpu_rt. cbn.
  destruct (Nat.eqb_spec h g) as [->|], (Nat.eqb_spec i c) as [->|]; cbn; done || apply H.
Qed.
Lemma arrays_upd_runtime g c F v : arrays_same v (upd_cpu_rt g c (fun r => r <| rt_runtime ::= F |>) v).
Proof. apply arrays_upd. by split. Qed.

Lemma balance_loop_arrays g c w period l more v : arrays_same v (balance_loop g c w period l more v).2.
Proof.
  revert more v; induction l as [|i l IH]; intros more v; cbn [balance_loop]; [done|].
  repeat case_match; try apply IH; (etrans; [apply arrays_upd_runtime|]);
    (etrans; [apply arrays_upd_runtime|]); done || apply IH.
Qed.

Lemma balance_arrays g c v : arrays_same v (RtBorrow.balance_runtime g c v).2.
Proof. unfold RtBorrow.balance_runtime. repeat case_match; try done. apply balance_loop_arrays. Qed.

Lemma reclaim_loop_arrays g c l want v : arrays_same v (reclaim_loop g c l want v).2.
Proof.
  revert want v; induction l as [|i l IH]; intros want v; cbn [reclaim_loop]; [done|].
  case_match; [apply IH|]. destruct (0 <? want); (case_match; [apply arrays_upd_runtime|]);
    (etrans; [apply arrays_upd_runtime|apply IH]).
Qed.

Lemma disable_group_arrays c g v v' : disable_group c g v = Some v' -> arrays_same v v'.
Proof.
  unfold disable_group. case_match.
  - intros [= <-]. apply arrays_upd. by split.
  - pose proof (reclaim_loop_arrays g c (span v) (s64 (u64 (rtb_runtime (group_bw v g) - rt_runtime (cpu_rt v g c)))) v) as H1.
    destruct (reclaim_loop _ _ _ _ _) as [want v1]. case_match; [done|]. intros [= <-].
    etrans; [apply H1|]. apply arrays_upd. by split.
Qed.

Lemma disable_arrays c v v' : RtBorrow.__disable_runtime c v = Some v' -> arrays_same v v'.
Proof.
  unfold RtBorrow.__disable_runtime. case_match; [by intros [= <-]|]. clear H.
  generalize (rt_groups v) as gs. intros gs. revert v. induction gs as [|g gs IH]; intros v; cbn; [by intros [= <-]|].
  destruct (disable_group c g v) as [v1|] eqn:E; [|done]. intros H.
  etrans; [by eapply disable_group_arrays|by apply IH].
Qed.

Lemma enable_arrays c v : arrays_same v (RtBorrow.__enable_runtime c v).
Proof.
  unfold RtBorrow.__enable_runtime. case_match; [done|]. clear H.
  generalize (rt_groups v) as gs. intros gs. revert v. induction gs as [|g gs IH]; intros v; cbn; [done|].
  etrans; [|apply IH]. unfold enable_group.
  do 2 (etrans; [|apply arrays_upd; by split]). apply arrays_upd; by split.
Qed.

Section borrow.
Context {SK : SKTypes} {ST : SmpTypes} {CM : CpuMask} {CMS : CpuMasks} {SE : SmpEnv}.
Implicit Types (s : smp) (c p : nat).

Lemma borrow_back_calm c v s : arrays_same (borrow_view c s) v -> calm s (borrow_back v s).
Proof. intros H. split; try done. intros i. unfold borrow_back. cbn. split; try done. apply (H 0%nat i). Qed.

Lemma balance_calm c s : calm s (balance_runtime c s).
Proof. apply (borrow_back_calm c), balance_arrays. Qed.
Lemma enable_calm c s : calm s (__enable_runtime c s).
Proof. apply (borrow_back_calm c), enable_arrays. Qed.
Lemma disable_calm c s s' : __disable_runtime c s = Some s' -> calm s s'.
Proof.
  unfold __disable_runtime. case_match eqn:E; [|done]. intros [= <-]. by eapply borrow_back_calm, disable_arrays.
Qed.

Lemma exceeded_calm c s : calm s (sched_rt_runtime_exceeded c s).2.
Proof.
  unfold sched_rt_runtime_exceeded. case_match; [done|]. case_match; [done|].
  set (s1 := balance_runtime c s). assert (calm s s1) as C1 by apply balance_calm. clearbody s1.
  etrans; [apply C1|]. case_match; [done|]. case_match; [|done].
  set (s2 := if c_true _ then _ else _). assert (calm s1 s2) as C2.
  { unfold s2. case_match; auto with calm. }
  clearbody s2. by case_match.
Qed.

Lemma update_curr_calm c s : calm s (update_curr_rt c s).
Proof.
  unfold update_curr_rt. case_match; [done|].
  cbv zeta. set (delta := if s64 _ <? 0 then 0 else _). clearbody delta.
  set (s1 := sched_rt_avg_update c delta _). assert (calm s s1) as C1.
  { unfold s1. etrans; [|apply rt_avg_calm]. etrans; [|apply calm_task; intros; by split].
    etrans; [|apply calm_ext]. etrans; [|apply calm_task; intros; by split]. apply calm_task; intros; by split. }
  clearbody s1. etrans; [apply C1|]. case_match; [done|]. case_match; [|done].
  set (s2 := upd_crt _ _ _). assert (calm s1 s2) as C2 by (unfold s2; auto with calm). clearbody s2.
  etrans; [apply C2|]. pose proof (exceeded_calm (task_cpu s1 (cpu_curr s c)) s2) as C3.
  destruct (sched_rt_runtime_exceeded _ s2) as [e s3]. cbn in C3. etrans; [apply C3|].
  destruct e; [apply resched_calm|done].
Qed.
End borrow.
#[export] Hint Resolve resched_calm rq_clock_calm update_curr_calm bandwidth_calm balance_calm enable_calm : calm.
