(* ===== verification/RtSmpSpec.v ===== *)
(** The runqueues of the real-time class on several processors.

    [array_ok qs s] says what the priority arrays hold: the queue of processor [c]
    and priority [i] holds the tasks [qs c i] in order, the bitmap and the
    counters agree with the queues, a runqueue is marked overloaded when it has
    a migratory task and another one, and every root domain counts and marks
    exactly its overloaded runqueues that are online.  [push_ok E s] says that
    the tasks that can be pushed from [c] are those with [E c].  Every operation
    that moves a task keeps both. *)

From S2P Require Import Prelude KList Sched Ras Rt RtSpec RtBorrow Affinity AffinitySpec Smp RtSmp SmpSpec.

(** The queues of processor [c] replaced. *)
Definition upd_qs (c : nat) (q : Z -> list nat) (qs : nat -> Z -> list nat) : nat -> Z -> list nat :=
  fun d => if (d =? c)%nat then q else qs d.
Lemma upd_qs_eq c q qs : upd_qs c q qs c = q.
Proof. unfold upd_qs. by rewrite Nat.eqb_refl. Qed.
Lemma upd_qs_ne c d q qs : d <> c -> upd_qs c q qs d = qs d.
Proof. intros H. unfold upd_qs. by rewrite (proj2 (Nat.eqb_neq d c) H). Qed.

Definition queued (qs : nat -> Z -> list nat) (c p : nat) : Prop := exists i, in_range i /\ p ∈ qs c i.

Lemma queued_members qs c p : queued qs c p <-> p ∈ members (qs c).
Proof. symmetry. apply elem_of_members. Qed.
#[export] Instance queued_dec qs c p : Decision (queued qs c p).
Proof. apply (decide_rel_iff _ _ (queued_members qs c p)) || (destruct (decide (p ∈ members (qs c))); [left|right]; by rewrite queued_members). Defined.

Section links.
Context {SK : SKTypes} {NL : KListLaws snode}.
Implicit Types (l : lh (A := snode)) (qs : nat -> Z -> list nat).

Record slinked l qs : Prop := {
  sl_ok : lh_ok l;
  sl_view : forall c i, in_range i -> view l (rt_queue c i) = STask <$> qs c i;
  sl_out : forall p, (forall c, ~ queued qs c p) -> view l (STask p) = [];
  sl_uniq : forall p c i d j, in_range i -> in_range j -> p ∈ qs c i -> p ∈ qs d j -> c = d /\ i = j }.

Lemma squeue_inj c i d j : in_range i -> in_range j -> rt_queue c i = rt_queue d j -> c = d /\ i = j.
Proof. unfold in_range, rt_queue. intros ? ? [=]. lia. Qed.

Lemma elem_of_stasks p (q : list nat) : STask p ∈ STask <$> q <-> p ∈ q.
Proof. rewrite list_elem_of_fmap. split; [|eauto]. intros (p' & [= ->] & ?). done. Qed.

Lemma without_stasks p (q : list nat) : without (STask p) (STask <$> q) = STask <$> without p q.
Proof.
  induction q as [|p' q IH]; [done|]. rewrite fmap_cons. destruct (decide (p' = p)) as [->|Hne].
  - by rewrite !without_cons_eq.
  - rewrite !without_cons_ne by congruence. by rewrite IH.
Qed.

Lemma sl_nodup l qs c i : slinked l qs -> in_range i -> NoDup (qs c i).
Proof.
  intros Hl Hi. pose proof (view_no_dup l (rt_queue c i) (sl_ok _ _ Hl)) as Hnd.
  rewrite (sl_view _ _ Hl) in Hnd by done. by apply NoDup_fmap_1 in Hnd.
Qed.

Lemma sl_on l qs c p : slinked l qs -> queued qs c p -> list_empty l (STask p) = false.
Proof.
  intros Hl (i & Hi & Hp). apply list_empty_false.
  apply (view_not_empty l (rt_queue c i)); [apply Hl|]. rewrite (sl_view _ _ Hl) by done. by apply elem_of_stasks.
Qed.
Lemma sl_off l qs p : slinked l qs -> (forall c, ~ queued qs c p) -> list_empty l (STask p) = true.
Proof. intros Hl Hp. apply list_empty_true. by apply (sl_out _ _ Hl). Qed.

(** The tasks of one processor are different. *)
Lemma members_nodup l qs c : slinked l qs -> NoDup (members (qs c)).
Proof.
  intros Hl. unfold members. assert (forall k, (k <= nr_prios)%nat ->
    NoDup (mjoin ((fun i => qs c (Z.of_nat i)) <$> seq 0 k))) as H; [|by apply H].
  induction k as [|k IH]; intros Hk; [constructor|].
  rewrite seq_S, fmap_app, join_app. cbn. rewrite app_nil_r. apply NoDup_app. split_and!; [apply IH; lia| |].
  - intros p Hp Hq. apply list_elem_of_join in Hp as (q & Hp & (i & -> & Hi%elem_of_seq)%list_elem_of_fmap).
    assert (Z.of_nat i = Z.of_nat k); [|lia].
    apply (sl_uniq _ _ Hl p c (Z.of_nat i) c (Z.of_nat k)); try done; unfold in_range, nr_prios in *; lia.
  - apply (sl_nodup l); [done|]. unfold in_range, nr_prios in *. lia.
Qed.

Lemma sl_other l qs c i d j p : slinked l qs -> in_range i -> in_range j -> (d <> c \/ j <> i) ->
  rt_queue d j ∉ STask p :: rt_queue c i :: view l (rt_queue c i).
Proof.
  intros Hl Hi Hj Hne. rewrite (sl_view _ _ Hl) by done.
  rewrite !elem_of_cons, list_elem_of_fmap. intros [[=]|[E|(? & [=] & _)]].
  apply squeue_inj in E as []; [tauto|done..].
Qed.
Lemma sl_other_task l qs c i p p' : slinked l qs -> in_range i -> p' <> p -> p' ∉ qs c i ->
  STask p' ∉ STask p :: rt_queue c i :: view l (rt_queue c i).
Proof.
  intros Hl Hi Hne Hp. rewrite (sl_view _ _ Hl) by done.
  rewrite !elem_of_cons, elem_of_stasks. intros [[=]|[[=]|?]]; done.
Qed.

Lemma queued_add qs c i p p' d head : in_range i ->
  queued (upd_qs c (qs_add head i p (qs c)) qs) d p' <-> queued qs d p' \/ (d = c /\ p' = p).
Proof.
  intros Hi. rewrite !queued_members. destruct (decide (d = c)) as [->|Hd].
  - rewrite upd_qs_eq, members_add, elem_of_cons by done. tauto.
  - rewrite upd_qs_ne by done. tauto.
Qed.
Lemma queued_del qs c p p' d : queued (upd_qs c (qs_del p (qs c)) qs) d p' <-> queued qs d p' /\ ~ (d = c /\ p' = p).
Proof.
  rewrite !queued_members. destruct (decide (d = c)) as [->|Hd].
  - rewrite upd_qs_eq, members_without, elem_of_without. tauto.
  - rewrite upd_qs_ne by done. tauto.
Qed.

Lemma slinked_add l qs c i p head : slinked l qs -> in_range i -> (forall d, ~ queued qs d p) ->
  slinked ((if head : bool then list_add else list_add_tail) (STask p) (rt_queue c i) l)
          (upd_qs c (qs_add head i p (qs c)) qs).
Proof.
  intros Hl Hi Hp. set (l' := _ l).
  assert (lh_ok l' /\ view l' (rt_queue c i) = STask <$> q_enqueue head p (qs c i) /\
          forall b, b ∉ STask p :: rt_queue c i :: view l (rt_queue c i) -> view l' b = view l b) as (Ho & Hh & Hf).
  { unfold l'. destruct head.
    - destruct (add_spec l (STask p) (rt_queue c i)) as (? & E & ?); [apply Hl|done|by apply (sl_out _ _ Hl)|].
      rewrite (sl_view _ _ Hl) in * by done. done.
    - destruct (add_tail_spec l (STask p) (rt_queue c i)) as (? & E & ?); [apply Hl|done|by apply (sl_out _ _ Hl)|].
      rewrite (sl_view _ _ Hl) in * by done. split; [done|]. split; [|done]. rewrite E. simpl. by rewrite fmap_app. }
  assert (forall d j q, q ∈ upd_qs c (qs_add head i p (qs c)) qs d j -> q ∈ qs d j \/ (d = c /\ j = i /\ q = p)) as Hin.
  { intros d j q. unfold upd_qs, qs_add. destruct (Nat.eqb_spec d c) as [->|]; [|auto].
    destruct (Z.eqb_spec j i) as [->|]; [|auto]. destruct head; cbn; rewrite ?elem_of_app, ?elem_of_cons, ?elem_of_nil; tauto. }
  split; [done| | |].
  - intros d j Hj. destruct (decide (d = c /\ j = i)) as [[-> ->]|Hne].
    + rewrite upd_qs_eq. unfold qs_add. by rewrite Z.eqb_refl.
    + rewrite Hf by (apply (sl_other l qs); [done..|by destruct (decide (d = c)); [right|left]; tauto]).
      rewrite (sl_view _ _ Hl) by done. unfold upd_qs, qs_add. destruct (Nat.eqb_spec d c) as [->|]; [|done].
      destruct (Z.eqb_spec j i) as [->|]; [tauto|done].
  - intros p' Hp'. assert (p' <> p) as Hne.
    { intros ->. apply (Hp' c). apply queued_add; [done|]. tauto. }
    assert (forall d, ~ queued qs d p') as Hq.
    { intros d Hq. apply (Hp' d). apply queued_add; [done|]. tauto. }
    rewrite Hf; [by apply (sl_out _ _ Hl)|]. apply (sl_other_task l qs); [done..|].
    intros Hx. apply (Hq c). by exists i.
  - intros q d1 j1 d2 j2 H1 H2 [Ha|(-> & -> & ->)]%Hin [Hb|(-> & -> & Hx)]%Hin.
    + by apply (sl_uniq _ _ Hl q).
    + subst. destruct (Hp d1). by exists j1.
    + destruct (Hp d2). by exists j2.
    + done.
Qed.

Lemma slinked_del l qs c i p : slinked l qs -> in_range i -> p ∈ qs c i ->
  slinked (list_del_init (STask p) l) (upd_qs c (qs_del p (qs c)) qs).
Proof.
  intros Hl Hi Hp. destruct (del_init_spec l (STask p) (sl_ok _ _ Hl)) as (Ho & Hn & Hf).
  assert (forall d j, in_range j -> upd_qs c (qs_del p (qs c)) qs d j = without p (qs d j)) as E.
  { intros d j Hj. unfold upd_qs, qs_del. destruct (Nat.eqb_spec d c) as [->|Hd]; [done|].
    rewrite without_not_in; [done|]. intros Hx. by destruct (sl_uniq _ _ Hl p c i d j). }
  split; [done| | |].
  - intros d j Hj. rewrite Hf by done. by rewrite (sl_view _ _ Hl), without_stasks, E.
  - intros p' Hp'. destruct (decide (p' = p)) as [->|Hne]; [done|].
    rewrite Hf by congruence. rewrite (sl_out _ _ Hl); [done|].
    intros d Hx. apply (Hp' d). apply queued_del. naive_solver.
  - intros p' d1 j1 d2 j2 H1 H2. rewrite !E by done. intros [_ Ha]%elem_of_without [_ Hb]%elem_of_without.
    by apply (sl_uniq _ _ Hl p').
Qed.
End links.

Section frames.
Context {SK : SKTypes} {ST : SmpTypes} {CM : CpuMask} {CMS : CpuMasks} {SE : SmpEnv}.
Implicit Types (s : smp) (c p d : nat).

(** ** What an operation on the runqueue [c] leaves alone *)
Record rq_same_but (b : Prop) (r r' : rq_t) : Prop := {
  rb_nr : b \/ nr_running r' = nr_running r;
  rb_curr : rq_curr r' = rq_curr r;
  rb_idle : rq_idle r' = rq_idle r;
  rb_stop : rq_stop r' = rq_stop r;
  rb_uninterruptible : nr_uninterruptible r' = nr_uninterruptible r;
  rb_calc : calc_load_active r' = calc_load_active r;
  rb_cfs : cfs_h_nr_running r' = cfs_h_nr_running r }.
Record cpu_same_but (b : Prop) (r r' : cpu_t) : Prop := {
  cb_rq : rq_same_but b (c_rq r) (c_rq r');
  cb_rt : b \/ array_same (c_rt r) (c_rt r');
  cb_rts : b \/ c_rts r' = c_rts r;
  cb_rd : rq_rd r' = rq_rd r;
  cb_sd : rq_sd r' = rq_sd r;
  cb_online : rq_online r' = rq_online r;
  cb_wake : wake_list r' = wake_list r }.
Record rd_same (r r' : root_domain) : Prop := {
  rds_ref : refcount r' = refcount r;
  rds_span : rd_span r' = rd_span r;
  rds_online : rd_online r' = rd_online r }.
Record step_frame c s s' : Prop := {
  sf_task : forall p, task_same (stasks s p) (stasks s' p);
  sf_thread : sthread s' = sthread s;
  sf_cpu : forall d, cpu_same_but (d = c) (cpus s d) (cpus s' d);
  sf_rds : forall d, rd_same (rds s d) (rds s' d);
  sf_online : online_mask s' = online_mask s;
  sf_active : active_mask s' = active_mask s;
  sf_possible : possible_mask s' = possible_mask s;
  sf_local : local_cpu_mask s' = local_cpu_mask s;
  sf_load : load_tasks s' = load_tasks s;
  sf_this : this_cpu s' = this_cpu s;
  sf_run : running s' = running s;
  sf_share : feat_share s' = feat_share s;
  sf_sysctl : rt_runtime_sysctl s' = rt_runtime_sysctl s;
  sf_bw : rtb_period (def_rt_bw s') = rtb_period (def_rt_bw s) /\ rtb_runtime (def_rt_bw s') = rtb_runtime (def_rt_bw s) }.

#[export] Instance rq_same_but_pre b : PreOrder (rq_same_but b).
Proof.
  split; [split; by try right|]. intros x y z [] []; split; try congruence.
  destruct rb_nr0, rb_nr1; auto. right. congruence.
Qed.
#[export] Instance cpu_same_but_pre b : PreOrder (cpu_same_but b).
Proof.
  split; [split; by try right|]. intros x y z [] []; split; try congruence.
  - by etrans.
  - destruct cb_rt0, cb_rt1; auto. right. by etrans.
  - destruct cb_rts0, cb_rts1; auto. right. congruence.
Qed.
#[export] Instance rd_same_pre : PreOrder rd_same.
Proof. split; [by split|]. intros x y z [] []; split; congruence. Qed.
#[export] Instance step_frame_pre c : PreOrder (step_frame c).
Proof.
  split; [by split|]. intros x y z [] []; split; try congruence; try (intros d; etrans; eauto; fail).
  destruct sf_bw0, sf_bw1. split; congruence.
Qed.

Lemma step_calm c s s' : calm s s' -> step_frame c s s'.
Proof.
  intros [H1 H2 H3 H4 H5 H6 H7 H8 H9]. split; try done.
  - intros d. destruct (H3 d) as [[] ? ? ? ? ? ?]. split; auto. split; auto.
  - intros d. by rewrite H5.
Qed.

(** The primitive steps. *)
Lemma step_links c f s : step_frame c s (s <| slinks ::= f |>).
Proof. by split. Qed.
Lemma step_cpu c f s : (forall r, cpu_same_but True r (f r)) -> step_frame c s (upd_cpu c f s).
Proof.
  intros H. split; try done. intros d. unfold upd_cpu. cbn.
  destruct (Nat.eqb_spec d c) as [->|]; [|done]. destruct (H (cpus s c)) as [[] ? ? ? ? ? ?]. split; auto. split; auto.
Qed.
Lemma step_crt c f s : step_frame c s (upd_crt c f s).
Proof. apply step_cpu. intros r. split; auto; by try split; auto. Qed.
Lemma step_rts c f s : step_frame c s (upd_rts c f s).
Proof. apply step_cpu. intros r. split; auto; by try split; auto. Qed.
Lemma step_nr c f s : step_frame c s (upd_crq c (fun r => r <| nr_running ::= f |>) s).
Proof. apply step_cpu. intros r. split; auto; by try split; auto. Qed.
Lemma step_rd c d f s : (forall r, rd_same r (f r)) -> step_frame c s (upd_rd d f s).
Proof.
  intros H. split; try done. intros e. unfold upd_rd. cbn.
  destruct (Nat.eqb_spec e d) as [->|]; [apply H|done].
Qed.
Lemma step_my_rd c f s : (forall r, rd_same r (f r)) -> step_frame c s (upd_my_rd c f s).
Proof. intros H. unfold upd_my_rd. case_match; [by apply step_rd|done]. Qed.
End frames.
Create HintDb step.
#[export] Hint Resolve step_links step_crt step_rts step_nr : step.
#[export] Hint Extern 2 (step_frame _ ?s ?s) => reflexivity : step.
#[export] Hint Extern 3 (step_frame _ _ (upd_my_rd _ _ _)) => apply step_my_rd; intros; by split : step.
#[export] Hint Extern 9 (step_frame _ _ _) => apply step_calm; solve [auto with calm] : step.
(** A chain of writes, from the last one back. *)
Ltac step_back := repeat (etrans; [|solve [auto with step]]); auto with step.

Section step_ops.
Context {SK : SKTypes} {ST : SmpTypes} {CM : CpuMask} {CMS : CpuMasks} {SE : SmpEnv}.
Implicit Types (s : smp) (c p d : nat).

Lemma set_overload_step c s : step_frame c s (rt_set_overload c s).
Proof. unfold rt_set_overload. case_match; step_back. Qed.
Lemma clear_overload_step c s : step_frame c s (rt_clear_overload c s).
Proof. unfold rt_clear_overload. case_match; step_back. Qed.

Hint Resolve set_overload_step clear_overload_step : step.

Lemma rt_migration_step c s : step_frame c s (update_rt_migration c s).
Proof. unfold update_rt_migration. repeat case_match; step_back. Qed.
Hint Resolve rt_migration_step : step.
Lemma inc_migration_step c p s : step_frame c s (inc_rt_migration c p s).
Proof. unfold inc_rt_migration. cbv zeta. etrans; [|apply rt_migration_step]. case_match; step_back. Qed.
Lemma dec_migration_step c p s : step_frame c s (dec_rt_migration c p s).
Proof. unfold dec_rt_migration. cbv zeta. etrans; [|apply rt_migration_step]. case_match; step_back. Qed.
Lemma inc_prio_step c prio s : step_frame c s (inc_rt_prio c prio s).
Proof. unfold inc_rt_prio, inc_rt_prio_smp. repeat case_match; step_back. Qed.
Lemma dec_prio_step c prio s : step_frame c s (dec_rt_prio c prio s).
Proof. unfold dec_rt_prio, dec_rt_prio_smp. repeat case_match; step_back. Qed.
Hint Resolve inc_migration_step dec_migration_step inc_prio_step dec_prio_step : step.
Lemma inc_tasks_step c p s : step_frame c s (inc_rt_tasks c p s).
Proof. unfold inc_rt_tasks, inc_rt_group. cbv zeta. step_back. Qed.
Lemma dec_tasks_step c p s : step_frame c s (dec_rt_tasks c p s).
Proof. unfold dec_rt_tasks. cbv zeta. step_back. Qed.
Hint Resolve inc_tasks_step dec_tasks_step : step.
Lemma enqueue_entity_step head p s : step_frame (task_cpu s p) s (__enqueue_rt_entity head p s).
Proof. unfold __enqueue_rt_entity. cbv zeta. etrans; [|apply inc_tasks_step]. destruct head; step_back. Qed.
Lemma dequeue_entity_step p s : step_frame (task_cpu s p) s (__dequeue_rt_entity p s).
Proof. unfold __dequeue_rt_entity. cbv zeta. etrans; [|apply dec_tasks_step]. case_match; step_back. Qed.
Lemma enqueue_pushable_step c p s : step_frame c s (enqueue_pushable_task c p s).
Proof. unfold enqueue_pushable_task. cbv zeta. case_match; step_back. Qed.
Lemma dequeue_pushable_step c p s : step_frame c s (dequeue_pushable_task c p s).
Proof. unfold dequeue_pushable_task. cbv zeta. case_match; step_back. Qed.
End step_ops.
#[export] Hint Resolve set_overload_step clear_overload_step rt_migration_step inc_migration_step
  dec_migration_step inc_prio_step dec_prio_step inc_tasks_step dec_tasks_step
  enqueue_pushable_step dequeue_pushable_step : step.

(** ** The invariant of the priority arrays *)
Section arrays.
Context {SK : SKTypes} {ST : SmpTypes} {CM : CpuMask} {CMS : CpuMasks} {SE : SmpEnv}.
Implicit Types (s : smp) (c p d : nat) (qs : nat -> Z -> list nat) (q : Z -> list nat).

(** A task pointer of the 32-bit machine, below the kernel's half. *)
Definition task_ptr p : Prop := Z.of_nat p < 2 ^ 31.
(** The task may run on more than one processor. *)
Definition migratory s p : bool := 1 <? nr_cpus_allowed s p.
Definition nr_mig s q : nat := length (filter (fun p => migratory s p = true) (members q)).
(** The runqueue has too much to do. *)
Definition too_much s q : bool := (0 <? nr_mig s q)%nat && (1 <? length (members q))%nat.

(** The runqueue [c] is among those the root domain [d] counts. *)
Definition over_in s d c : bool :=
  bool_decide (rq_rd (cpus s c) = Some d) && c_true (rq_online (cpus s c)) && c_true (overloaded (crts s c)).
Record rd_ok s : Prop := {
  ro_count : forall d, rto_count (rds s d) = Z.of_nat (length (filter (fun c => over_in s d c = true) (seq 0 nr_cpus)));
  ro_mask : forall d c, is_cpu c = true -> cpumask_test_cpu c (rto_mask (rds s d)) = over_in s d c }.

Record counters q s c : Prop := {
  ct_total : rt_nr_total (crts s c) = Z.of_nat (length (members q));
  ct_mig : rt_nr_migratory (crts s c) = Z.of_nat (nr_mig s q) }.
Record cpu_array q s c : Prop := {
  ca_bitmap : bitmap_ok (rt_bitmap (crt s c)) q;
  ca_high : highest_prio (crt s c) = first_bit (rt_bitmap (crt s c));
  ca_count : rt_nr_running (crt s c) = Z.of_nat (length (members q));
  ca_counters : counters q s c;
  ca_over : overloaded (crts s c) = of_bool (too_much s q) }.
Record array_ok `{KListLaws snode} qs s : Prop := {
  ao_linked : slinked (slinks s) qs;
  ao_task : forall c p, queued qs c p -> is_cpu c = true /\ task_cpu s p = c /\ in_range (t_prio (stasks s p)) /\
              p ∈ qs c (t_prio (stasks s p)) /\ task_ptr p;
  ao_cpu : forall c, is_cpu c = true -> cpu_array (qs c) s c;
  ao_rd : rd_ok s }.

Lemma task_same_nr s s' p : task_same (stasks s p) (stasks s' p) -> nr_cpus_allowed s' p = nr_cpus_allowed s p.
Proof. intros []. done. Qed.

Lemma nr_mig_same s s' q : (forall p, p ∈ members q -> nr_cpus_allowed s' p = nr_cpus_allowed s p) -> nr_mig s' q = nr_mig s q.
Proof.
  intros H. unfold nr_mig. f_equal. induction (members q) as [|p l IH]; [done|].
  rewrite !filter_cons, IH by (intros; apply H; set_solver).
  assert (migratory s' p = migratory s p) as -> by (unfold migratory; rewrite H by set_solver; done). done.
Qed.
Lemma too_much_same s s' q : (forall p, p ∈ members q -> nr_cpus_allowed s' p = nr_cpus_allowed s p) -> too_much s' q = too_much s q.
Proof. intros H. unfold too_much. by rewrite (nr_mig_same s s'). Qed.

(** Only these fields matter to one runqueue. *)
Lemma cpu_array_same q s s' c : (forall p, p ∈ members q -> nr_cpus_allowed s' p = nr_cpus_allowed s p) ->
  array_same (crt s c) (crt s' c) -> crts s' c = crts s c -> cpu_array q s c -> cpu_array q s' c.
Proof.
  intros Hn [E1 E2 E3] E4 [H1 H2 H3 [H4 H5] H6].
  split; rewrite ?E1, ?E2, ?E3, ?E4, ?(nr_mig_same s s'), ?(too_much_same s s') by done; try done.
  by split; rewrite ?E4, ?(nr_mig_same s s').
Qed.

Lemma over_same s s' d c : rq_rd (cpus s' c) = rq_rd (cpus s c) -> rq_online (cpus s' c) = rq_online (cpus s c) ->
  overloaded (crts s' c) = overloaded (crts s c) -> over_in s' d c = over_in s d c.
Proof. intros E1 E2 E3. unfold over_in. by rewrite E1, E2, E3. Qed.

Lemma rd_ok_same s s' : (forall d c, over_in s' d c = over_in s d c) ->
  (forall d, rto_count (rds s' d) = rto_count (rds s d) /\ rto_mask (rds s' d) = rto_mask (rds s d)) ->
  rd_ok s -> rd_ok s'.
Proof.
  intros Ho Hr [H1 H2]. split.
  - intros d. destruct (Hr d) as [-> _]. rewrite H1. do 2 f_equal. symmetry. apply filter_same. intros; apply Ho.
  - intros d c Hc. destruct (Hr d) as [_ ->]. by rewrite H2, Ho.
Qed.

Context {NL : KListLaws snode}.

Lemma array_calm qs s s' : calm s s' -> array_ok qs s -> array_ok qs s'.
Proof.
  intros [C1 C2 C3 C4 C5 _ _ _] [H1 H2 H3 H4]. split.
  - by rewrite C4.
  - intros c p Hq. destruct (H2 c p Hq) as (? & ? & ? & ? & ?). unfold task_cpu. rewrite C2, (ts_prio _ _ (C1 p)). done.
  - intros c Hc. apply (cpu_array_same _ s); [|apply (C3 c)|apply (C3 c)|by apply H3].
    intros p _. apply task_same_nr, C1.
  - apply (rd_ok_same s); [|by intros d; rewrite C5|done].
    intros d c. apply over_same; [apply (C3 c)..|]. unfold crts. by rewrite (cs_rts _ _ (C3 c)).
Qed.

(** There are fewer tasks than addresses. *)
Lemma members_small qs s c : array_ok qs s -> Z.of_nat (S (length (members (qs c)))) < 2 ^ 32.
Proof.
  intros Ha. set (n := Z.to_nat (2 ^ 31)). assert (length (members (qs c)) <= n)%nat as H; [|unfold n in *; lia].
  apply NoDup_bound; [apply (members_nodup (slinks s)); by apply Ha|].
  intros x Hx%queued_members. destruct (ao_task _ _ Ha c x Hx) as (_ & _ & _ & _ & Hx'). unfold task_ptr, n in *. lia.
Qed.

(** ** Overload *)

Lemma cpu_in_seq c : is_cpu c = true -> c ∈ seq 0 nr_cpus.
Proof. unfold is_cpu, nr_cpus. intros H%Z.ltb_lt. apply elem_of_seq. lia. Qed.
End arrays.

Section overload.
Context {SK : SKTypes} {ST : SmpTypes} {CM : CpuMask} {CMS : CpuMasks} {CML : CpuMasksLaws} {SE : SmpEnv}.
Implicit Types (s : smp) (c p d : nat) (q : Z -> list nat).

(** Nothing of [s] but the overload bookkeeping of [c] differs in [s']. *)
Record over_frame c s s' : Prop := {
  of_step : step_frame c s s';
  of_tasks : stasks s' = stasks s;
  of_links : slinks s' = slinks s;
  of_rq : forall d, crq s' d = crq s d;
  of_rt : forall d, crt s' d = crt s d;
  of_other : forall d, d <> c -> crts s' d = crts s d;
  of_total : rt_nr_total (crts s' c) = rt_nr_total (crts s c);
  of_mig : rt_nr_migratory (crts s' c) = rt_nr_migratory (crts s c);
  of_push : pushable_tasks (crts s' c) = pushable_tasks (crts s c);
  of_next : highest_next (crts s' c) = highest_next (crts s c);
  of_pri : forall d, cpupri (rds s' d) = cpupri (rds s d) }.

Definition flip_over (b : bool) c s : smp :=
  upd_rts c (fun r => r <| overloaded := of_bool b |>) ((if b then rt_set_overload else rt_clear_overload) c s).

(** Only the root domains change besides. *)
Lemma overload_eq (b : bool) c s : let t := (if b then rt_set_overload else rt_clear_overload) c s in
  t = s <| rds := rds t |> /\ forall d, cpupri (rds t d) = cpupri (rds s d).
Proof.
  cbv zeta. split.
  - destruct s as [? ? m], b; cbn; unfold rt_set_overload, rt_clear_overload, upd_my_rd; cbn;
      (destruct (c_true (rq_online (m c))), (rq_rd (m c)) as [e|] eqn:Er; cbn; rewrite ?Er; reflexivity).
  - intros d. destruct b; unfold rt_set_overload, rt_clear_overload, upd_my_rd;
      (destruct (c_true (rq_online (cpus s c))), (rq_rd (cpus s c)) as [e|] eqn:Er; cbn; rewrite ?Er; cbn;
       try done; by destruct (Nat.eqb_spec d e) as [->|]; cbn; rewrite ?Nat.eqb_refl).
Qed.
Lemma flip_eq b c s : exists m, (forall d, cpupri (m d) = cpupri (rds s d)) /\
  flip_over b c s = upd_rts c (fun r => r <| overloaded := of_bool b |>) (s <| rds := m |>).
Proof. destruct (overload_eq b c s) as [E H]. eexists. split; [exact H|]. unfold flip_over. by rewrite E at 1. Qed.

Lemma flip_frame b c s : over_frame c s (flip_over b c s).
Proof.
  assert (step_frame c s (flip_over b c s)) as H.
  { unfold flip_over. etrans; [|apply step_rts]. destruct b; auto with step. }
  destruct (flip_eq b c s) as (m & Em & E). rewrite E in *. clear E.
  split; try done; try (intros d); unfold upd_rts, upd_cpu, crq, crt, crts; cbn; rewrite ?Nat.eqb_refl; try done.
  - by destruct (Nat.eqb_spec d c) as [->|].
  - by destruct (Nat.eqb_spec d c) as [->|].
  - intros Hd. by rewrite (proj2 (Nat.eqb_neq d c) Hd).
Qed.

Lemma flip_over_in b c s d x :
  over_in (flip_over b c s) d x =
  if (x =? c)%nat then bool_decide (rq_rd (cpus s c) = Some d) && c_true (rq_online (cpus s c)) && b else over_in s d x.
Proof.
  pose proof (flip_frame b c s) as [Hs _ _ _ _ Ho _ _ _ _ _].
  unfold over_in. rewrite (cb_rd _ _ _ (sf_cpu _ _ _ Hs x)), (cb_online _ _ _ (sf_cpu _ _ _ Hs x)).
  destruct (Nat.eqb_spec x c) as [->|Hx]; [|by rewrite Ho].
  f_equal. unfold flip_over, crts, upd_rts, upd_cpu. cbn. rewrite Nat.eqb_refl. by destruct b.
Qed.

(** What the flip writes into the root domains. *)
Lemma flip_rd b c s d :
  let r := rds s d in
  let on := bool_decide (rq_rd (cpus s c) = Some d) && c_true (rq_online (cpus s c)) in
  rto_count (rds (flip_over b c s) d) = (if on then s32 (rto_count r + (if b then 1 else -1)) else rto_count r) /\
  rto_mask (rds (flip_over b c s) d) = (if on then (if b then cpumask_set_cpu else cpumask_clear_cpu) c (rto_mask r) else rto_mask r).
Proof.
  cbv zeta. unfold flip_over.
  destruct b; unfold rt_set_overload, rt_clear_overload, upd_my_rd;
    (destruct (c_true (rq_online (cpus s c))); [|by rewrite andb_false_r]); rewrite andb_true_r; cbn [negb];
    (destruct (rq_rd (cpus s c)) as [e|] eqn:Er; cbn; rewrite ?Er; cbn; [|by rewrite bool_decide_false]);
    (destruct (Nat.eqb_spec d e) as [->|]; [rewrite bool_decide_true by done|rewrite bool_decide_false by congruence]);
    cbn; rewrite ?Nat.eqb_refl; done.
Qed.

Lemma flip_ok b c s : is_cpu c = true -> rd_ok s -> overloaded (crts s c) = of_bool (negb b) -> rd_ok (flip_over b c s).
Proof.
  intros Hc [H1 H2] Hb.
  assert (forall d, over_in s d c = bool_decide (rq_rd (cpus s c) = Some d) && c_true (rq_online (cpus s c)) && negb b) as Hin.
  { intros d. unfold over_in. rewrite Hb. by destruct b. }
  pose proof (NoDup_seq 0 nr_cpus) as Hn. pose proof (cpu_in_seq c Hc) as Hci.
  assert (forall s1 d, (length (filter (fun x => over_in s1 d x = true) (seq 0 nr_cpus)) <= nr_cpus)%nat) as Hle.
  { intros s1 d. etrans; [apply length_filter|]. by rewrite length_seq. }
  pose proof nr_cpu_ids_range as Hr.
  assert (Hnr : Z.of_nat nr_cpus < 2 ^ 31) by (unfold nr_cpus; lia).
  split.
  - intros d. destruct (flip_rd b c s d) as [-> _]. rewrite H1.
    assert (forall x, x <> c -> over_in (flip_over b c s) d x = over_in s d x) as Ho.
    { intros x Hx. by rewrite flip_over_in, (proj2 (Nat.eqb_neq x c) Hx). }
    pose proof (Hle (flip_over b c s) d) as Hl1. pose proof (Hle s d) as Hl2.
    destruct (bool_decide _ && c_true _) eqn:Eon.
    + assert (over_in (flip_over b c s) d c = b) as Hfc by by rewrite flip_over_in, Nat.eqb_refl, Eon.
      assert (over_in s d c = negb b) as Hsc by by rewrite Hin, Eon.
      destruct b; cbn in Hsc.
      * rewrite (filter_flip (fun x => over_in s d x) (fun x => over_in (flip_over true c s) d x) (seq 0 nr_cpus) c) in * by done.
        rewrite s32_small by lia. lia.
      * rewrite (filter_flip (fun x => over_in (flip_over false c s) d x) (fun x => over_in s d x) (seq 0 nr_cpus) c) in *
          by (done || (intros; symmetry; by apply Ho)).
        rewrite s32_small by lia. lia.
    + do 2 f_equal. apply (filter_same (fun x => over_in (flip_over b c s) d x) (fun x => over_in s d x)). intros x _.
      rewrite flip_over_in. destruct (Nat.eqb_spec x c) as [->|]; [|done]. by rewrite Eon, Hin, Eon.
  - intros d x Hx. destruct (flip_rd b c s d) as [_ ->]. rewrite flip_over_in.
    destruct (bool_decide _ && c_true _) eqn:Eon.
    + destruct b; [rewrite set_cpu_spec by done|rewrite clear_cpu_spec by done];
        (destruct (Nat.eqb_spec x c) as [->|]; [done|cbn; by apply H2]).
    + rewrite H2 by done. destruct (Nat.eqb_spec x c) as [->|]; [by rewrite Hin, Eon|done].
Qed.

(** update_rt_migration() brings the mark up to date. *)
Lemma rt_migration_ok q c s (b : bool) : is_cpu c = true -> rd_ok s -> counters q s c ->
  overloaded (crts s c) = of_bool b ->
  let s' := update_rt_migration c s in
  rd_ok s' /\ overloaded (crts s' c) = of_bool (too_much s q) /\ over_frame c s s'.
Proof.
  intros Hc Hr [H1 H2] Hb s'.
  assert (c_true (rt_nr_migratory (crts s c)) && (1 <? rt_nr_total (crts s c)) = too_much s q) as E.
  { rewrite H1, H2. unfold too_much. f_equal; [|bcase; destruct (Nat.ltb_spec 1 (length (members q))); lia || done].
    unfold c_true. bcase; destruct (Nat.ltb_spec 0 (nr_mig s q)); lia || done. }
  assert (over_frame c s s) as Hrefl by by split.
  unfold s', update_rt_migration. rewrite E, Hb.
  assert (forall x, overloaded (crts (flip_over x c s) c) = of_bool x) as Eo.
  { intros x. unfold flip_over, crts, upd_rts, upd_cpu. cbn. by rewrite Nat.eqb_refl. }
  destruct (too_much s q), b; cbn.
  - done.
  - change (upd_rts c _ _) with (flip_over true c s). split; [by apply flip_ok|]. split; [apply Eo|apply flip_frame].
  - change (upd_rts c _ _) with (flip_over false c s). split; [by apply flip_ok|]. split; [apply Eo|apply flip_frame].
  - done.
Qed.
End overload.

(** ** Enqueueing and dequeueing *)
Section entity.
Context {SK : SKTypes} {ST : SmpTypes} {CM : CpuMask} {CMS : CpuMasks} {CML : CpuMasksLaws} {SE : SmpEnv} {SL : SmpEnvLaws}
  {NL : KListLaws snode}.
Implicit Types (s : smp) (c p d : nat) (qs : nat -> Z -> list nat) (q : Z -> list nat).

(** The highest priority of [c] is set to [v], and the root domain may be told. *)
Record prio_frame c (v : Z) s s' : Prop := {
  pf_step : step_frame c s s';
  pf_tasks : stasks s' = stasks s;
  pf_links : slinks s' = slinks s;
  pf_rq : forall d, crq s' d = crq s d;
  pf_rts : forall d, crts s' d = crts s d;
  pf_rt : crt s' c = (crt s c) <| highest_prio := v |>;
  pf_rto : forall d, rto_count (rds s' d) = rto_count (rds s d) /\ rto_mask (rds s' d) = rto_mask (rds s d) }.

Lemma prio_frame_pri c v s (b : bool) f :
  (forall r, rto_count (f r) = rto_count r /\ rto_mask (f r) = rto_mask r /\ rd_same r (f r)) ->
  prio_frame c v s (if b then upd_my_rd c f (upd_crt c (fun r => r <| highest_prio := v |>) s)
                    else upd_crt c (fun r => r <| highest_prio := v |>) s).
Proof.
  intros Hf.
  assert (prio_frame c v s (upd_crt c (fun r => r <| highest_prio := v |>) s)) as H.
  { split; try done; try apply step_crt; try (intros d); unfold crq, crts, crt, upd_crt, upd_cpu; cbn; rewrite ?Nat.eqb_refl; try done;
      by destruct (Nat.eqb_spec d c) as [->|]. }
  destruct b; [|done]. destruct H as [H1 H2 H3 H4 H5 H6 H7]. unfold upd_my_rd.
  case_match eqn:E; [|by split]. split; try done.
  - etrans; [exact H1|]. apply step_rd. intros r. apply Hf.
  - intros d. unfold upd_rd. cbn. destruct (Nat.eqb_spec d n) as [->|]; [|done].
    destruct (Hf (rds s n)) as (? & ? & _). done.
Qed.


Lemma inc_prio_frame c prio s : prio_frame c (Z.min prio (highest_prio (crt s c))) s (inc_rt_prio c prio s).
Proof.
  unfold inc_rt_prio, inc_rt_prio_smp. destruct (prio <? _) eqn:E; rewrite ?andb_false_r.
  - apply Z.ltb_lt in E. rewrite Z.min_l by lia. rewrite andb_true_r. apply prio_frame_pri. by intros r.
  - apply Z.ltb_ge in E. rewrite Z.min_r by lia. split; try done. by destruct (crt s c).
Qed.
Lemma dec_prio_frame c prio s : let r := crt s c in
  prio_frame c (if c_true (rt_nr_running r) then if prio =? highest_prio r then first_bit (rt_bitmap r) else highest_prio r
                else MAX_RT_PRIO) s (dec_rt_prio c prio s).
Proof.
  cbv zeta. unfold dec_rt_prio, dec_rt_prio_smp. destruct (c_true (rt_nr_running _)).
  - destruct (prio =? highest_prio (crt s c)).
    + set (v := first_bit (rt_bitmap (crt s c))).
      assert (upd_crt c (fun r => r <| highest_prio := first_bit (rt_bitmap r) |>) s =
              upd_crt c (fun r => r <| highest_prio := v |>) s) as -> by done.
      apply prio_frame_pri. by intros r.
    + rewrite Z.eqb_refl, andb_false_r. split; try done. by destruct (crt s c).
  - apply prio_frame_pri. by intros r.
Qed.

(** What enqueueing and dequeueing an entity leave alone besides. *)
Record entity_frame c s s' : Prop := {
  ef_step : step_frame c s s';
  ef_tasks : stasks s' = stasks s;
  ef_rq : forall d, crq s' d = crq s d;
  ef_push : pushable_tasks (crts s' c) = pushable_tasks (crts s c);
  ef_next : highest_next (crts s' c) = highest_next (crts s c) }.

Lemma nr_mig_perm s q q' p : members q' ≡ₚ p :: members q ->
  nr_mig s q' = ((if migratory s p then 1 else 0) + nr_mig s q)%nat.
Proof.
  intros H. unfold nr_mig. rewrite H, filter_cons. destruct (migratory s p); [by rewrite decide_True|by rewrite decide_False].
Qed.

Record mig_frame c s s' : Prop := {
  mf_step : step_frame c s s';
  mf_tasks : stasks s' = stasks s;
  mf_links : slinks s' = slinks s;
  mf_rq : forall d, crq s' d = crq s d;
  mf_rt : forall d, crt s' d = crt s d;
  mf_push : pushable_tasks (crts s' c) = pushable_tasks (crts s c);
  mf_next : highest_next (crts s' c) = highest_next (crts s c) }.

(** A change of the two counters followed by update_rt_migration(). *)
Lemma counters_update (q q' : Z -> list nat) c s (T M : Z -> Z) (b : bool) : is_cpu c = true -> rd_ok s ->
  overloaded (crts s c) = of_bool (too_much s q) ->
  T (rt_nr_total (crts s c)) = Z.of_nat (length (members q')) ->
  (if b then M (rt_nr_migratory (crts s c)) else rt_nr_migratory (crts s c)) = Z.of_nat (nr_mig s q') ->
  let s1 := upd_rts c (fun r => r <| rt_nr_total ::= T |>) s in
  let s2 := if b then upd_rts c (fun r => r <| rt_nr_migratory ::= M |>) s1 else s1 in
  let s' := update_rt_migration c s2 in
  rd_ok s' /\ counters q' s' c /\ overloaded (crts s' c) = of_bool (too_much s q') /\ mig_frame c s s'.
Proof.
  intros Hc Hr Hov HT HM s1 s2 s'.
  assert (crts s2 c = (crts s c) <| rt_nr_total ::= T |> <| rt_nr_migratory ::= if b then M else id |>) as E.
  { unfold s2, s1, crts, upd_rts, upd_cpu. destruct b; cbn; rewrite !Nat.eqb_refl; done. }
  assert (stasks s2 = stasks s) as Et by (unfold s2; by destruct b).
  assert (forall x, nr_mig s2 x = nr_mig s x) as Em by (intros; apply nr_mig_same; intros; unfold nr_cpus_allowed; by rewrite Et).
  assert (counters q' s2 c) as Hct by (split; rewrite E; [done|cbn; rewrite Em, <- HM; by destruct b]).
  assert (forall d, d <> c -> crts s2 d = crts s d) as Hne.
  { intros d Hd. unfold s2, s1, crts, upd_rts, upd_cpu. destruct b; cbn; by rewrite !(proj2 (Nat.eqb_neq d c) Hd). }
  assert (rd_ok s2) as Hr2.
  { apply (rd_ok_same s); [|unfold s2; by destruct b|done]. intros d x. apply over_same.
    - unfold s2, s1, upd_rts, upd_cpu. destruct b; cbn; rewrite ?Nat.eqb_refl; by destruct (Nat.eqb_spec x c) as [->|].
    - unfold s2, s1, upd_rts, upd_cpu. destruct b; cbn; rewrite ?Nat.eqb_refl; by destruct (Nat.eqb_spec x c) as [->|].
    - destruct (decide (x = c)) as [->|Hx]; [by rewrite E|by rewrite Hne]. }
  destruct (rt_migration_ok q' c s2 (too_much s q)) as (H1 & H2 & [F1 F2 F3 F4 F5 F6 F7 F8 F9 F10 F11]); try done.
  { by rewrite E. }
  split; [done|]. split.
  { split; unfold s'; rewrite ?F7, ?F8; [apply Hct|]. rewrite (nr_mig_same s2); [apply Hct|]. intros p _.
    unfold nr_cpus_allowed. by rewrite F2. }
  split; [unfold s'; rewrite H2; f_equal; unfold too_much; by rewrite Em|]. split; unfold s'.
  - etrans; [|exact F1]. unfold s2, s1. destruct b; [etrans; [|apply step_rts]|]; apply step_rts.
  - by rewrite F2.
  - rewrite F3. unfold s2. by destruct b.
  - intros d. rewrite F4. unfold s2, s1, crq, upd_rts, upd_cpu. destruct b; cbn; rewrite ?Nat.eqb_refl; by destruct (Nat.eqb_spec d c) as [->|].
  - intros d. rewrite F5. unfold s2, s1, crt, upd_rts, upd_cpu. destruct b; cbn; rewrite ?Nat.eqb_refl; by destruct (Nat.eqb_spec d c) as [->|].
  - by rewrite F9, E.
  - by rewrite F10, E.
Qed.

Lemma nr_mig_length q s : (nr_mig s q <= length (members q))%nat.
Proof. apply length_filter. Qed.

Lemma inc_migration_ok q q' s c p : is_cpu c = true -> rd_ok s -> counters q s c ->
  overloaded (crts s c) = of_bool (too_much s q) -> members q' ≡ₚ p :: members q ->
  Z.of_nat (S (length (members q))) < 2 ^ 32 ->
  let s' := inc_rt_migration c p s in
  rd_ok s' /\ counters q' s' c /\ overloaded (crts s' c) = of_bool (too_much s q') /\ mig_frame c s s'.
Proof.
  intros Hc Hr [Ht Hm] Ho Hp Hb s'. pose proof (nr_mig_length q s) as Hle.
  assert (nr_mig s q' = ((if migratory s p then 1 else 0) + nr_mig s q)%nat) as En by by apply nr_mig_perm.
  assert (length (members q') = S (length (members q))) as El by by rewrite Hp.
  unfold s', inc_rt_migration. cbv zeta. change (1 <? nr_cpus_allowed _ p) with (migratory s p).
  apply (counters_update q q' c s (fun n => u32 (n + 1)) (fun n => u32 (n + 1))); try done.
  - rewrite Ht, El, u32_small by lia. lia.
  - rewrite Hm, En. destruct (migratory s p); [rewrite u32_small by lia; lia|done].
Qed.
Lemma dec_migration_ok q q' s c p : is_cpu c = true -> rd_ok s -> counters q s c ->
  overloaded (crts s c) = of_bool (too_much s q) -> members q ≡ₚ p :: members q' ->
  Z.of_nat (length (members q)) < 2 ^ 32 ->
  let s' := dec_rt_migration c p s in
  rd_ok s' /\ counters q' s' c /\ overloaded (crts s' c) = of_bool (too_much s q') /\ mig_frame c s s'.
Proof.
  intros Hc Hr [Ht Hm] Ho Hp Hb s'. pose proof (nr_mig_length q s) as Hle.
  assert (nr_mig s q = ((if migratory s p then 1 else 0) + nr_mig s q')%nat) as En by by apply nr_mig_perm.
  assert (length (members q) = S (length (members q'))) as El by by rewrite Hp.
  unfold s', dec_rt_migration. cbv zeta. change (1 <? nr_cpus_allowed _ p) with (migratory s p).
  apply (counters_update q q' c s (fun n => u32 (n - 1)) (fun n => u32 (n - 1))); try done.
  - rewrite Ht, El, u32_small by lia. lia.
  - rewrite Hm, En. destruct (migratory s p); [rewrite u32_small by lia; lia|done].
Qed.

Lemma smp_bitmap_first b q : bitmap_ok b q ->
  let i := first_bit b in
  0 <= i <= MAX_RT_PRIO /\ (forall j, 0 <= j < i -> q j = []) /\ (i < MAX_RT_PRIO -> q i <> []).
Proof.
  intros [Hb Hd Hbits] i. destruct (first_bit_spec b Hb Hd) as (Hr & Ht & Hf). fold i in Hr, Ht, Hf.
  split; [done|]. split.
  - intros j Hj. specialize (Hf j Hj). rewrite Hbits in Hf by (unfold in_range; lia).
    apply negb_false_iff in Hf. by apply bool_decide_eq_true in Hf.
  - intros Hlt. rewrite Hbits in Ht by (unfold in_range; lia). apply negb_true_iff in Ht.
    by apply bool_decide_eq_false in Ht.
Qed.

Lemma smp_first_is b q i : bitmap_ok b q -> 0 <= i <= MAX_RT_PRIO ->
  (forall j, 0 <= j < i -> q j = []) -> (i < MAX_RT_PRIO -> q i <> []) -> first_bit b = i.
Proof.
  intros Hb Hi Hlow Hne. destruct (smp_bitmap_first b q Hb) as (Hr & Hl & Hn). set (k := first_bit b) in *.
  destruct (Z.lt_trichotomy k i) as [Hlt|[?|Hgt]]; [|done|].
  - exfalso. apply Hn; [lia|]. apply Hlow. lia.
  - exfalso. apply Hne; [lia|]. apply Hl. lia.
Qed.

(** The other runqueues are as they were. *)
Lemma others_array c qs q' s s' : step_frame c s s' -> (forall d, is_cpu d = true -> cpu_array (qs d) s d) ->
  cpu_array q' s' c -> forall d, is_cpu d = true -> cpu_array (upd_qs c q' qs d) s' d.
Proof.
  intros Hf Ha Hc d Hd. destruct (decide (d = c)) as [->|Hne]; [by rewrite upd_qs_eq|].
  rewrite upd_qs_ne by done. destruct (sf_cpu _ _ _ Hf d) as [_ [?|Hrt] [?|Hrts] _ _ _ _]; [done..|].
  apply (cpu_array_same _ s); [|done|done|by apply Ha]. intros p _. apply task_same_nr, Hf.
Qed.

(** Only the tasks' assignment and priority matter to the tasks' part. *)
Lemma task_part c s s' p : step_frame c s s' -> task_cpu s' p = task_cpu s p /\ t_prio (stasks s' p) = t_prio (stasks s p).
Proof. intros Hf. unfold task_cpu. by rewrite (sf_thread _ _ _ Hf), (ts_prio _ _ (sf_task _ _ _ Hf p)). Qed.

Lemma first_bit_add b (q : Z -> list nat) i p (head : bool) : bitmap_ok b q -> in_range i ->
  Z.min i (first_bit b) = first_bit (Z.setbit b i).
Proof.
  intros Cb Hi. symmetry. destruct (smp_bitmap_first _ _ Cb) as (G1 & G2 & G3). set (k := first_bit b) in *.
  apply (smp_first_is _ (qs_add head i p q)); [by apply bitmap_add|unfold in_range in Hi; lia| |].
  - intros j Hj. unfold qs_add. bcase; [lia|]. apply G2. lia.
  - intros Hlt. unfold qs_add. bcase; [destruct head; cbn; [done|by intros []%app_eq_nil]|].
    assert (Z.min i k = k) as E by lia. rewrite E in *. by apply G3.
Qed.

(** The tasks of the new queues are where their priority says. *)
Lemma tasks_add qs s c p head : array_ok qs s -> is_cpu c = true -> task_cpu s p = c -> in_range (t_prio (stasks s p)) -> task_ptr p ->
  let qs' := upd_qs c (qs_add head (t_prio (stasks s p)) p (qs c)) qs in
  forall d x, queued qs' d x -> is_cpu d = true /\ task_cpu s x = d /\ in_range (t_prio (stasks s x)) /\
    x ∈ qs' d (t_prio (stasks s x)) /\ task_ptr x.
Proof.
  intros Ha Hc <- Hi Hp qs' d x Hx. apply (queued_add qs _ _ p x d head Hi) in Hx as [Hx|[-> ->]].
  - destruct (ao_task _ _ Ha d x Hx) as (? & ? & ? & Hin & ?). split_and!; try done.
    unfold qs', upd_qs, qs_add. destruct (Nat.eqb_spec d (task_cpu s p)) as [->|]; [|done].
    destruct (Z.eqb_spec (t_prio (stasks s x)) (t_prio (stasks s p))) as [E|]; [|done].
    rewrite E in Hin. destruct head; cbn; rewrite ?elem_of_cons, ?elem_of_app; rewrite E; auto.
  - split_and!; try done. unfold qs'. rewrite upd_qs_eq. unfold qs_add. rewrite Z.eqb_refl.
    destruct head; cbn; rewrite ?elem_of_cons, ?elem_of_app, ?elem_of_cons; auto.
Qed.

(** What the runqueue of [c] and the root domains look like while the array has
    been written and the counters have not. *)
Record written c (b n h : Z) s s' : Prop := {
  wr_step : step_frame c s s';
  wr_tasks : stasks s' = stasks s;
  wr_rq : forall d, crq s' d = crq s d;
  wr_rts : forall d, crts s' d = crts s d;
  wr_bitmap : rt_bitmap (crt s' c) = b;
  wr_nr : rt_nr_running (crt s' c) = n;
  wr_high : highest_prio (crt s' c) = h;
  wr_rto : forall d, rto_count (rds s' d) = rto_count (rds s d) /\ rto_mask (rds s' d) = rto_mask (rds s d) }.

Lemma written_rd c b n h s s' : written c b n h s s' -> rd_ok s -> rd_ok s'.
Proof.
  intros [F1 F2 F3 F4 F5 F6 F7 F8] Hr. apply (rd_ok_same s); [|done|done].
  intros d x. apply over_same; [by rewrite (cb_rd _ _ _ (sf_cpu _ _ _ F1 x))|
    by rewrite (cb_online _ _ _ (sf_cpu _ _ _ F1 x))|by rewrite F4].
Qed.

(** The array is written and then the counters: the whole runqueue is right. *)
Lemma written_array c b n h (qs : nat -> Z -> list nat) q' s s4 s5 : array_ok qs s -> is_cpu c = true ->
  written c b n h s s4 -> mig_frame c s4 s5 -> slinked (slinks s4) (upd_qs c q' qs) ->
  (forall d x, queued (upd_qs c q' qs) d x -> is_cpu d = true /\ task_cpu s x = d /\ in_range (t_prio (stasks s x)) /\
    x ∈ upd_qs c q' qs d (t_prio (stasks s x)) /\ task_ptr x) ->
  bitmap_ok b q' -> h = first_bit b -> n = Z.of_nat (length (members q')) ->
  rd_ok s5 -> counters q' s5 c -> overloaded (crts s5 c) = of_bool (too_much s4 q') ->
  array_ok (upd_qs c q' qs) s5 /\ entity_frame c s s5.
Proof.
  intros Ha Hc [F1 F2 F3 F4 F5 F6 F7 F8] [J1 J2 J3 J4 J5 J6 J7] Hl Ht Hb Hh Hn Hr Hct Ho.
  assert (step_frame c s s5) as F by by etrans. split; split.
  - by rewrite J3.
  - intros d x Hx. destruct (task_part c s s5 x F) as [-> ->]. by apply Ht.
  - apply (others_array c qs q' s s5); [done|by apply Ha|]. split; rewrite ?J5, ?F5, ?F6, ?F7; try done.
    rewrite Ho. f_equal. symmetry. apply too_much_same. intros y _. unfold nr_cpus_allowed. by rewrite J2.
  - done.
  - done.
  - by rewrite J2, F2.
  - intros d. by rewrite J4, F3.
  - by rewrite J6, F4.
  - by rewrite J7, F4.
Qed.

(** The bitmap and the count are written, then the highest priority. *)
Lemma written_array_fields c l (t : bool) f g s :
  let s1 := s <| slinks := l |> in
  let s2 := if t then upd_crt c (fun r => r <| rt_bitmap ::= f |>) s1 else s1 in
  let s3 := upd_crt c (fun r => r <| rt_nr_running ::= g |>) s2 in
  written c ((if t then f else id) (rt_bitmap (crt s c))) (g (rt_nr_running (crt s c))) (highest_prio (crt s c)) s s3 /\ slinks s3 = l.
Proof.
  intros s1 s2 s3. split; [|unfold s3, s2; by destruct t]. split; try (unfold s3, s2; by destruct t).
  - unfold s3, s2, s1. etrans; [|apply step_crt]. destruct t; [etrans; [|apply step_crt]|]; apply step_links.
  - intros d. unfold s3, s2, crq, upd_crt, upd_cpu. destruct t; cbn; rewrite ?Nat.eqb_refl; by destruct (Nat.eqb_spec d c) as [->|].
  - intros d. unfold s3, s2, crts, upd_crt, upd_cpu. destruct t; cbn; rewrite ?Nat.eqb_refl; by destruct (Nat.eqb_spec d c) as [->|].
  - unfold s3, s2, crt, upd_crt, upd_cpu. by destruct t; cbn; rewrite !Nat.eqb_refl.
  - unfold s3, s2, crt, upd_crt, upd_cpu. by destruct t; cbn; rewrite !Nat.eqb_refl.
  - unfold s3, s2, crt, upd_crt, upd_cpu. by destruct t; cbn; rewrite !Nat.eqb_refl.
Qed.
Lemma written_prio c b n h0 h s s3 s4 : written c b n h0 s s3 -> prio_frame c h s3 s4 ->
  written c b n h s s4 /\ slinks s4 = slinks s3.
Proof.
  intros [F1 F2 F3 F4 F5 F6 F7 F8] [P1 P2 P3 P4 P5 P6 P7]. split; [|done]. split; rewrite ?P6; try done.
  - by etrans.
  - by rewrite P2.
  - intros d. by rewrite P4.
  - intros d. by rewrite P5.
  - intros d. destruct (P7 d) as [-> ->]. apply F8.
Qed.

Lemma bandwidth_entity c s : entity_frame c s (start_rt_bandwidth s).
Proof. split; [apply step_calm, bandwidth_calm|..]; unfold start_rt_bandwidth; by repeat case_match. Qed.
Lemma entity_frame_trans c s1 s2 s3 : entity_frame c s1 s2 -> entity_frame c s2 s3 -> entity_frame c s1 s3.
Proof. intros [] []. split; try congruence; by etrans. Qed.

Lemma enqueue_entity_ok qs s c p head : array_ok qs s -> is_cpu c = true -> task_cpu s p = c ->
  (forall d, ~ queued qs d p) -> in_range (t_prio (stasks s p)) -> task_ptr p ->
  let s' := __enqueue_rt_entity head p s in
  array_ok (upd_qs c (qs_add head (t_prio (stasks s p)) p (qs c)) qs) s' /\ entity_frame c s s'.
Proof.
  intros Ha Hc Hcpu Hq Hi Hp s'. pose proof (members_small qs s c Ha) as Hsmall.
  destruct (ao_cpu _ _ Ha c Hc) as [Cb Ch Cn Cc Co]. set (i := t_prio (stasks s p)) in *.
  set (q' := qs_add head i p (qs c)). pose proof (members_add head i p (qs c) Hi) as Hm. fold q' in Hm.
  set (l' := (if head then list_add else list_add_tail) (STask p) (rt_queue c i) (slinks s)).
  destruct (written_array_fields c l' true (fun b => Z.setbit b i) (fun n => u32 (n + 1)) s) as [W L].
  set (s3 := upd_crt c _ _) in W, L.
  destruct (written_prio _ _ _ _ _ _ _ _ W (inc_prio_frame c i s3)) as [W4 L4].
  set (s4 := inc_rt_prio c i s3) in *. set (s5 := inc_rt_migration c p s4).
  assert (s' = start_rt_bandwidth s5) as -> by (unfold s', __enqueue_rt_entity; rewrite Hcpu; unfold s5, s4, s3, l'; by destruct head).
  assert (forall x, nr_mig s4 x = nr_mig s x /\ too_much s4 x = too_much s x) as M4.
  { intros x. split; [apply nr_mig_same|apply too_much_same]; intros y _; unfold nr_cpus_allowed; by rewrite (wr_tasks _ _ _ _ _ _ W4). }
  destruct (inc_migration_ok (qs c) q' s4 c p) as (I1 & I2 & I3 & J); try done.
  { eapply written_rd; [exact W4|apply Ha]. }
  { split; rewrite (wr_rts _ _ _ _ _ _ W4), ?(proj1 (M4 _)); apply Cc. }
  { by rewrite (wr_rts _ _ _ _ _ _ W4), (proj2 (M4 _)). }
  destruct (written_array c (Z.setbit (rt_bitmap (crt s c)) i) (u32 (rt_nr_running (crt s c) + 1))
    (Z.min i (highest_prio (crt s3 c))) qs q' s s4 s5) as [A E]; try done.
  - rewrite L4, L. apply slinked_add; [apply Ha|done|done].
  - by apply tasks_add.
  - by apply bitmap_add.
  - rewrite (wr_high _ _ _ _ _ _ W), Ch. by apply (first_bit_add _ (qs c) i p head).
  - rewrite Cn, Hm, u32_small by lia. cbn [length]. lia.
  - split; [by eapply array_calm, A; apply bandwidth_calm|]. eapply entity_frame_trans; [exact E|apply bandwidth_entity].
Qed.

(** The bitmap after a dequeue, and the highest priority dec_rt_prio() finds. *)
Definition del_bitmap (b : Z) (q : Z -> list nat) (p : nat) (i : Z) : Z :=
  if bool_decide (without p (q i) = []) then Z.clearbit b i else b.

Lemma first_bit_del b (q : Z -> list nat) i p : bitmap_ok b q -> in_range i -> p ∈ q i ->
  (forall j, in_range j -> j <> i -> p ∉ q j) ->
  (if bool_decide (members (qs_del p q) = []) then MAX_RT_PRIO
   else if i =? first_bit b then first_bit (del_bitmap b q p i) else first_bit b) = first_bit (del_bitmap b q p i).
Proof.
  intros Cb Hi Hin Ho. pose proof (bitmap_del b q i p Cb Hi Ho) as Cb'. fold (del_bitmap b q p i) in Cb'.
  destruct (smp_bitmap_first _ _ Cb) as (G1 & G2 & G3). destruct (smp_bitmap_first _ _ Cb') as (K1 & K2 & K3).
  set (k := first_bit b) in *. set (k' := first_bit (del_bitmap b q p i)) in *.
  case_bool_decide as Hnil.
  - destruct (decide (k' < MAX_RT_PRIO)) as [Hlt|]; [|lia]. exfalso. specialize (K3 Hlt).
    destruct (qs_del p q k') as [|x l] eqn:E; [done|].
    assert (x ∈ members (qs_del p q)) as Hx; [|rewrite Hnil in Hx; set_solver].
    apply elem_of_members. exists k'. unfold in_range. split; [lia|]. rewrite E. set_solver.
  - bcase; [done|]. symmetry. apply (smp_first_is _ (qs_del p q)); [done|lia| |].
    + intros j Hj. unfold qs_del. by rewrite G2.
    + intros Hlt. unfold qs_del. rewrite without_not_in; [by apply G3|]. apply Ho; [unfold in_range; lia|congruence].
Qed.

Lemma tasks_del qs s c p : array_ok qs s ->
  let qs' := upd_qs c (qs_del p (qs c)) qs in
  forall d x, queued qs' d x -> is_cpu d = true /\ task_cpu s x = d /\ in_range (t_prio (stasks s x)) /\
    x ∈ qs' d (t_prio (stasks s x)) /\ task_ptr x.
Proof.
  intros Ha qs' d x [Hx Hne]%queued_del. destruct (ao_task _ _ Ha d x Hx) as (? & ? & ? & Hin & ?). split_and!; try done.
  unfold qs', upd_qs, qs_del. destruct (Nat.eqb_spec d c) as [->|]; [|done]. apply elem_of_without. naive_solver.
Qed.

Lemma dequeue_entity_ok qs s c p : array_ok qs s -> queued qs c p ->
  let s' := __dequeue_rt_entity p s in
  array_ok (upd_qs c (qs_del p (qs c)) qs) s' /\ entity_frame c s s'.
Proof.
  intros Ha Hq s'. destruct (ao_task _ _ Ha c p Hq) as (Hc & Hcpu & Hi & Hin & Hptr).
  set (i := t_prio (stasks s p)) in *. destruct (ao_cpu _ _ Ha c Hc) as [Cb Ch Cn Cc Co].
  assert (forall j, in_range j -> j <> i -> p ∉ qs c j) as Ho.
  { intros j Hj Hne Hx. by destruct (sl_uniq _ _ (ao_linked _ _ Ha) p c j c i). }
  set (q' := qs_del p (qs c)). pose proof (members_nodup _ _ c (ao_linked _ _ Ha)) as Hnd.
  assert (members (qs c) ≡ₚ p :: members q') as Hm.
  { unfold q'. rewrite members_without. apply without_perm; [done|]. by apply queued_members. }
  pose proof (slinked_del _ _ c i p (ao_linked _ _ Ha) Hi Hin) as Hl. fold q' in Hl.
  set (l' := list_del_init (STask p) (slinks s)) in *.
  assert (list_empty l' (rt_queue c i) = bool_decide (without p (qs c i) = [])) as He.
  { rewrite list_empty_spec. apply bool_decide_ext. rewrite (sl_view _ _ Hl) by done. rewrite upd_qs_eq.
    unfold q', qs_del. split; [apply fmap_nil_inv|by intros ->]. }
  pose proof (members_small qs s c Ha) as Hsmall.
  destruct (written_array_fields c l' (list_empty l' (rt_queue c i)) (fun b => Z.clearbit b i) (fun n => u32 (n - 1)) s) as [W L].
  set (s3 := upd_crt c _ _) in W, L.
  destruct (written_prio _ _ _ _ _ _ _ _ W (dec_prio_frame c i s3)) as [W4 L4].
  set (s4 := dec_rt_prio c i s3) in *. set (s5 := dec_rt_migration c p s4).
  assert (s' = s5) as ->.
  { unfold s', __dequeue_rt_entity. rewrite Hcpu. change (dec_rt_migration c p (dec_rt_prio c (t_prio (stasks s3 p)) s3) = s5).
    by rewrite (wr_tasks _ _ _ _ _ _ W). }
  assert (forall x, nr_mig s4 x = nr_mig s x /\ too_much s4 x = too_much s x) as M4.
  { intros x. split; [apply nr_mig_same|apply too_much_same]; intros y _; unfold nr_cpus_allowed; by rewrite (wr_tasks _ _ _ _ _ _ W4). }
  assert (length (members (qs c)) = S (length (members q'))) as Hlen by by rewrite Hm.
  assert ((if list_empty l' (rt_queue c i) then fun b => Z.clearbit b i else id) (rt_bitmap (crt s c)) =
    del_bitmap (rt_bitmap (crt s c)) (qs c) p i) as Eb by (rewrite He; unfold del_bitmap; by case_bool_decide).
  rewrite Eb in W, W4.
  destruct (dec_migration_ok (qs c) q' s4 c p) as (I1 & I2 & I3 & J); try done; [..|lia|].
  { eapply written_rd; [exact W4|apply Ha]. }
  { split; rewrite (wr_rts _ _ _ _ _ _ W4), ?(proj1 (M4 _)); apply Cc. }
  { by rewrite (wr_rts _ _ _ _ _ _ W4), (proj2 (M4 _)). }
  eapply (written_array c _ _ _ qs q' s s4 s5); try done.
  - by rewrite L4, L.
  - by apply tasks_del.
  - by apply bitmap_del.
  - rewrite (wr_high _ _ _ _ _ _ W), (wr_nr _ _ _ _ _ _ W), (wr_bitmap _ _ _ _ _ _ W), Ch.
    etrans; [|by apply (first_bit_del _ (qs c) i p)]. fold q'. rewrite Cn, Hlen.
    replace (u32 (Z.of_nat (S (length (members q'))) - 1)) with (Z.of_nat (length (members q'))) by (rewrite u32_small; lia).
    destruct (members q'); [by rewrite bool_decide_true|by rewrite bool_decide_false].
  - rewrite Cn, Hlen, u32_small by lia. lia.
Qed.
End entity.

(** ** The tasks that can be pushed *)
Section pushable.
Context {SK : SKTypes} {ST : SmpTypes} {STL : SmpTypesLaws} {CM : CpuMask} {CMS : CpuMasks} {SE : SmpEnv} {NL : KListLaws snode}.
Implicit Types (s : smp) (c p d : nat) (qs : nat -> Z -> list nat) (E : nat -> Prop).

(** The list of [c] holds the tasks [E] with their priorities, and
    highest_prio.next is the highest of these. *)
Record push_cpu E s c : Prop := {
  pc_nodup : NoDup (plist_items (pushable_tasks (crts s c))).*1;
  pc_in : forall p i, (p, i) ∈ plist_items (pushable_tasks (crts s c)) <-> E p /\ i = t_prio (stasks s p);
  pc_low : forall p, E p -> highest_next (crts s c) <= t_prio (stasks s p);
  pc_next : highest_next (crts s c) = MAX_RT_PRIO \/ exists p, E p /\ t_prio (stasks s p) = highest_next (crts s c) }.

(** Nothing but the list of [c] differs. *)
Record push_frame c s s' : Prop := {
  qf_step : step_frame c s s';
  qf_tasks : stasks s' = stasks s;
  qf_links : slinks s' = slinks s;
  qf_rq : forall d, crq s' d = crq s d;
  qf_rt : forall d, crt s' d = crt s d;
  qf_rds : rds s' = rds s;
  qf_total : rt_nr_total (crts s' c) = rt_nr_total (crts s c);
  qf_mig : rt_nr_migratory (crts s' c) = rt_nr_migratory (crts s c);
  qf_over : overloaded (crts s' c) = overloaded (crts s c) }.

Lemma push_frame_refl c s : push_frame c s s.
Proof. by split. Qed.
Lemma push_frame_trans c s1 s2 s3 : push_frame c s1 s2 -> push_frame c s2 s3 -> push_frame c s1 s3.
Proof. intros [] []. split; try congruence; by etrans. Qed.
Lemma push_frame_upd c (f : rt_rq_smp -> rt_rq_smp) s :
  (forall r, rt_nr_total (f r) = rt_nr_total r /\ rt_nr_migratory (f r) = rt_nr_migratory r /\ overloaded (f r) = overloaded r) ->
  push_frame c s (upd_rts c f s).
Proof.
  intros Hf. destruct (Hf (crts s c)) as (H1 & H2 & H3).
  split; try done; [apply step_rts|..]; try (intros d); unfold crq, crt, crts, upd_rts, upd_cpu in *; cbn; rewrite ?Nat.eqb_refl; try done;
    by destruct (Nat.eqb_spec d c) as [->|].
Qed.

Lemma enqueue_pushable_frame c p s : push_frame c s (enqueue_pushable_task c p s).
Proof.
  unfold enqueue_pushable_task. cbv zeta.
  set (s1 := upd_rts c _ s). assert (push_frame c s s1) as F1 by by apply push_frame_upd.
  set (s2 := upd_rts c _ s1). assert (push_frame c s1 s2) as F2 by by apply push_frame_upd.
  eapply push_frame_trans; [exact F1|]. eapply push_frame_trans; [exact F2|].
  destruct (_ <? _); [by apply push_frame_upd|apply push_frame_refl].
Qed.
Lemma dequeue_pushable_frame c p s : push_frame c s (dequeue_pushable_task c p s).
Proof.
  unfold dequeue_pushable_task. cbv zeta.
  set (s1 := upd_rts c _ s). assert (push_frame c s s1) as F1 by by apply push_frame_upd.
  eapply push_frame_trans; [exact F1|]. destruct (has_pushable_tasks c s1); by apply push_frame_upd.
Qed.

Lemma array_push c qs s s' : push_frame c s s' -> array_ok qs s -> array_ok qs s'.
Proof.
  intros [F1 F2 F3 F4 F5 F6 F7 F8 F9] [H1 H2 H3 H4].
  assert (forall x, nr_mig s' x = nr_mig s x /\ too_much s' x = too_much s x) as Hm.
  { intros x. split; [apply nr_mig_same|apply too_much_same]; intros y _; unfold nr_cpus_allowed; by rewrite F2. }
  split.
  - by rewrite F3.
  - intros d p Hp. destruct (task_part c s s' p F1) as [-> ->]. by apply H2.
  - intros d Hd. destruct (H3 d Hd) as [A1 A2 A3 [A4 A5] A6].
    assert (rt_nr_total (crts s' d) = rt_nr_total (crts s d) /\ rt_nr_migratory (crts s' d) = rt_nr_migratory (crts s d) /\
            overloaded (crts s' d) = overloaded (crts s d)) as (E1 & E2 & E3).
    { destruct (decide (d = c)) as [->|Hne]; [done|]. destruct (sf_cpu _ _ _ F1 d) as [_ _ [?|E] _ _ _ _]; [done|]. unfold crts. by rewrite E. }
    split; rewrite ?F5, ?E3, ?(proj2 (Hm _)); try done. by split; rewrite ?E1, ?E2, ?(proj1 (Hm _)).
  - apply (rd_ok_same s); [|by rewrite F6|done]. intros d x.
    apply over_same; [by rewrite (cb_rd _ _ _ (sf_cpu _ _ _ F1 x))|by rewrite (cb_online _ _ _ (sf_cpu _ _ _ F1 x))|].
    destruct (decide (x = c)) as [->|Hne]; [done|]. destruct (sf_cpu _ _ _ F1 x) as [_ _ [?|E] _ _ _ _]; [done|]. unfold crts. by rewrite E.
Qed.

(** A list that was not touched. *)
Lemma push_cpu_same E E' s s' c : (forall p, E' p <-> E p) -> (forall p, E p -> t_prio (stasks s' p) = t_prio (stasks s p)) ->
  pushable_tasks (crts s' c) = pushable_tasks (crts s c) -> highest_next (crts s' c) = highest_next (crts s c) ->
  push_cpu E s c -> push_cpu E' s' c.
Proof.
  intros HE Hp E1 E2 [H1 H2 H3 H4]. split; rewrite ?E1, ?E2; try done.
  - intros p i. rewrite H2, HE. split; intros [Hx ->]; (split; [done|]); by rewrite Hp.
  - intros p Hx%HE. rewrite Hp by done. by apply H3.
  - destruct H4 as [?|(p & Hx & Hy)]; [by left|right]. exists p. rewrite Hp by done. by rewrite HE.
Qed.

Lemma push_cpu_iff E E' s c : (forall p, E' p <-> E p) -> push_cpu E s c -> push_cpu E' s c.
Proof. intros HE. by apply push_cpu_same. Qed.

Lemma items_fst p l : p ∈ (plist_items l).*1 <-> exists i, (p, i) ∈ plist_items l.
Proof.
  rewrite list_elem_of_fmap. split; [intros ([q i] & -> & ?); by exists i|]. intros [i Hi]. by exists (p, i).
Qed.

Lemma crts_upd c f s : crts (upd_rts c f s) c = f (crts s c).
Proof. unfold crts, upd_rts, upd_cpu. cbn. by rewrite Nat.eqb_refl. Qed.

(** plist_del(), with the list's length in mind. *)
Lemma del_nodup p l : NoDup (plist_items l).*1 -> NoDup (plist_items (plist_del p l)).*1.
Proof.
  rewrite plist_del_items. intros H. induction (plist_items l) as [|[x i] m IH]; [done|].
  cbn in H. apply NoDup_cons in H as [Hx Hn]. rewrite filter_cons. case_decide; [|by apply IH].
  cbn. apply NoDup_cons. split; [|by apply IH]. intros (e & -> & [_ He]%list_elem_of_filter)%list_elem_of_fmap.
  apply Hx. by apply list_elem_of_fmap_2.
Qed.

Lemma enqueue_pushable_ok E s c p : t_prio (stasks s p) < MAX_RT_PRIO -> push_cpu E s c ->
  push_cpu (fun x => E x \/ x = p) (enqueue_pushable_task c p s) c.
Proof.
  intros Hp [H1 H2 H3 H4]. pose proof (enqueue_pushable_frame c p s) as F.
  assert (p ∉ (plist_items (plist_del p (pushable_tasks (crts s c)))).*1) as Hn.
  { rewrite items_fst. intros [i Hi]. rewrite plist_del_items, list_elem_of_filter in Hi. by destruct Hi. }
  pose proof (plist_add_items p (t_prio (stasks s p)) _ Hn) as Ha. pose proof (del_nodup p _ H1) as Hd.
  set (l' := plist_add _ _ _) in Ha.
  assert (pushable_tasks (crts (enqueue_pushable_task c p s) c) = l' /\
          highest_next (crts (enqueue_pushable_task c p s) c) = Z.min (t_prio (stasks s p)) (highest_next (crts s c))) as [E1 E2].
  { unfold enqueue_pushable_task. cbv zeta. rewrite !crts_upd. cbn. bcase; rewrite ?crts_upd; cbn; (split; [done|lia]). }
  split; rewrite ?E1, ?E2, ?(qf_tasks _ _ _ F).
  - rewrite Ha. cbn. by apply NoDup_cons.
  - intros x i. rewrite Ha, elem_of_cons, plist_del_items, list_elem_of_filter, H2. cbn. split.
    + intros [[= -> ->]|(? & ? & ->)]; auto.
    + intros [[Hx| ->] ->]; [|auto]. destruct (decide (x = p)) as [->|]; auto.
  - intros x [Hx| ->]; [|lia]. specialize (H3 x Hx). lia.
  - destruct H4 as [H4|(x & Hx & Hy)]; [rewrite H4, Z.min_l by lia; right; exists p; auto|].
    right. destruct (Z.min_spec (t_prio (stasks s p)) (highest_next (crts s c))) as [[_ ->]|[_ ->]]; [exists p|exists x]; auto.
Qed.

Lemma push_maybe E s c p (b : bool) : t_prio (stasks s p) < MAX_RT_PRIO -> push_cpu E s c ->
  push_cpu (fun x => E x \/ (x = p /\ b = true)) (if b then enqueue_pushable_task c p s else s) c.
Proof.
  intros Hp HE. destruct b.
  - eapply push_cpu_iff; [|by apply enqueue_pushable_ok, HE]. naive_solver.
  - eapply push_cpu_iff; [|exact HE]. naive_solver.
Qed.

Lemma dequeue_pushable_ok E s c p : push_cpu E s c -> push_cpu (fun x => E x /\ x <> p) (dequeue_pushable_task c p s) c.
Proof.
  intros [H1 H2 H3 H4]. pose proof (dequeue_pushable_frame c p s) as F. pose proof (del_nodup p _ H1) as Hd.
  set (l' := plist_del p (pushable_tasks (crts s c))) in *.
  assert (forall x i, (x, i) ∈ plist_items l' <-> (E x /\ x <> p) /\ i = t_prio (stasks s x)) as Hin.
  { intros x i. unfold l'. rewrite plist_del_items, list_elem_of_filter, H2. cbn. tauto. }
  assert (pushable_tasks (crts (dequeue_pushable_task c p s) c) = l' /\
          highest_next (crts (dequeue_pushable_task c p s) c) =
          if plist_head_empty l' then MAX_RT_PRIO else t_prio (stasks s (plist_first l'))) as [E1 E2].
  { unfold dequeue_pushable_task, has_pushable_tasks. cbv zeta. rewrite !crts_upd. cbn. fold l'.
    destruct (plist_head_empty l'); cbn; rewrite ?crts_upd; done. }
  split; rewrite ?E1, ?E2, ?(qf_tasks _ _ _ F); [done|done|..]; rewrite plist_empty_spec.
  - intros x Hx. assert ((x, t_prio (stasks s x)) ∈ plist_items l') as Hx' by by apply Hin.
    rewrite bool_decide_false by (intros E0; rewrite E0 in Hx'; set_solver).
    destruct (plist_first_spec l') as (i & Hi & Hmin); [intros E0; rewrite E0 in Hx'; set_solver|].
    apply Hin in Hi as [_ ->]. apply (Hmin _ Hx').
  - case_bool_decide as E0; [by left|right]. destruct (plist_first_spec l' E0) as (i & Hi & _).
    apply Hin in Hi as [Hi ->]. eauto.
Qed.
End pushable.

(** ** The invariant of the class, and its operations *)
Section inv.
Context {SK : SKTypes} {ST : SmpTypes} {STL : SmpTypesLaws} {CM : CpuMask} {CMS : CpuMasks} {CML : CpuMasksLaws} {SE : SmpEnv}
  {SL : SmpEnvLaws} {NL : KListLaws snode}.
Implicit Types (s : smp) (c p d : nat) (qs : nat -> Z -> list nat) (E : nat -> nat -> Prop).

Definition push_ok E s : Prop := forall c, is_cpu c = true -> push_cpu (E c) s c.
(** A waiting task that may run on several processors. *)
Definition eligible qs s c p : Prop := queued qs c p /\ cpu_curr s c <> p /\ migratory s p = true.
Definition rt_inv qs s : Prop := array_ok qs s /\ push_ok (eligible qs s) s.

Lemma step_curr c s s' d : step_frame c s s' -> cpu_curr s' d = cpu_curr s d.
Proof. intros F. unfold cpu_curr, crq. by rewrite (rb_curr _ _ _ (cb_rq _ _ _ (sf_cpu _ _ _ F d))). Qed.
Lemma step_migratory c s s' p : step_frame c s s' -> migratory s' p = migratory s p.
Proof. intros F. unfold migratory. by rewrite (task_same_nr s s') by apply F. Qed.

Lemma eligible_step c qs s s' d p : step_frame c s s' -> eligible qs s' d p <-> eligible qs s d p.
Proof. intros F. unfold eligible. by rewrite (step_curr c s s'), (step_migratory c s s'). Qed.

(** One runqueue's list is rebuilt, the others are as they were. *)
Lemma push_step c E E' s s' : step_frame c s s' -> (forall d p, d <> c -> E' d p <-> E d p) ->
  push_ok E s -> push_cpu (E' c) s' c -> push_ok E' s'.
Proof.
  intros F HE Hp Hc d Hd. destruct (decide (d = c)) as [->|Hne]; [done|].
  destruct (sf_cpu _ _ _ F d) as [_ _ [?|Er] _ _ _ _]; [done|].
  apply (push_cpu_same (E d) (E' d) s s'); [by intros; apply HE|intros; apply (task_part c s s'); done|..|by apply Hp];
    unfold crts; by rewrite Er.
Qed.

Lemma rt_inv_calm qs s s' : calm s s' -> rt_inv qs s -> rt_inv qs s'.
Proof.
  intros Hc [Ha Hp]. split; [by eapply array_calm|].
  intros d Hd. apply (push_cpu_same (eligible qs s d) _ s s'); [..|by apply Hp].
  - intros p. apply (eligible_step d). by apply step_calm.
  - intros p _. apply (cm_task _ _ Hc).
  - unfold crts. by rewrite (cs_rts _ _ (cm_cpu _ _ Hc d)).
  - unfold crts. by rewrite (cs_rts _ _ (cm_cpu _ _ Hc d)).
Qed.

Lemma inc_nr_calm_but c s : step_frame c s (inc_nr_running c s) /\ nr_running (crq (inc_nr_running c s) c) = u32 (nr_running (crq s c) + 1).
Proof. split; [apply step_nr|]. unfold inc_nr_running, crq, upd_crq, upd_cpu. cbn. by rewrite Nat.eqb_refl. Qed.
Lemma dec_nr_calm_but c s : step_frame c s (dec_nr_running c s) /\ nr_running (crq (dec_nr_running c s) c) = u32 (nr_running (crq s c) - 1).
Proof. split; [apply step_nr|]. unfold dec_nr_running, crq, upd_crq, upd_cpu. cbn. by rewrite Nat.eqb_refl. Qed.

(** The rest of the runqueue is nobody's business here. *)
Lemma rt_inv_crq c f qs s : (forall r, rq_curr (f r) = rq_curr r) -> rt_inv qs s -> rt_inv qs (upd_crq c f s).
Proof.
  intros Hf [[H1 H2 H3 H4] Hp]. set (s' := upd_crq _ _ _).
  assert (forall d, crts s' d = crts s d /\ crt s' d = crt s d /\ cpu_curr s' d = cpu_curr s d /\
    rq_rd (cpus s' d) = rq_rd (cpus s d) /\ rq_online (cpus s' d) = rq_online (cpus s d)) as H.
  { intros d. unfold s', cpu_curr, crts, crt, crq, upd_crq, upd_cpu. cbn. destruct (Nat.eqb_spec d c) as [->|]; [|done]. cbn. by rewrite Hf. }
  split; [split; try done|].
  - intros d Hd. destruct (H d) as (E1 & E2 & _). apply (cpu_array_same _ s); [done|by rewrite E2|done|by apply H3].
  - apply (rd_ok_same s); [|done|done]. intros d x. destruct (H x) as (E1 & _ & _ & E4 & E5). apply over_same; [done..|by rewrite E1].
  - intros d Hd. destruct (H d) as (E1 & _ & E3 & _). apply (push_cpu_same (eligible qs s d) _ s s'); [|done|by rewrite E1..|by apply Hp].
    intros p. unfold eligible. by rewrite E3.
Qed.
Lemma rt_inv_nr c f qs s : rt_inv qs s -> rt_inv qs (upd_crq c (fun r => r <| nr_running ::= f |>) s).
Proof. by apply rt_inv_crq. Qed.

(** A task that is on no queue. *)
Definition absent qs p : Prop := forall d, ~ queued qs d p.

Lemma off_rt_rq qs s p : array_ok qs s -> absent qs p -> on_rt_rq p s = false.
Proof. intros Ha Hp. unfold on_rt_rq. by rewrite (sl_off _ _ _ (ao_linked _ _ Ha) Hp). Qed.
Lemma is_on_rt_rq qs s c p : array_ok qs s -> queued qs c p -> on_rt_rq p s = true.
Proof. intros Ha Hp. unfold on_rt_rq. by rewrite (sl_on _ _ _ _ (ao_linked _ _ Ha) Hp). Qed.

Definition qs_enqueue s (c p : nat) (head : bool) qs : nat -> Z -> list nat :=
  upd_qs c (qs_add head (t_prio (stasks s p)) p (qs c)) qs.
Definition qs_dequeue (c p : nat) qs : nat -> Z -> list nat := upd_qs c (qs_del p (qs c)) qs.

(** Who becomes and who stays eligible. *)
Lemma eligible_enqueue qs qs' s c p : (forall d x, queued qs' d x <-> queued qs d x \/ (d = c /\ x = p)) ->
  (forall x, eligible qs' s c x <-> eligible qs s c x \/ (x = p /\ (cpu_curr s c <> p /\ migratory s p = true))) /\
  (forall d x, d <> c -> eligible qs' s d x <-> eligible qs s d x).
Proof.
  intros Hqs. split.
  - intros x. unfold eligible. rewrite Hqs. split.
    + intros ([?|[_ ->]] & ? & ?); [left|right]; auto.
    + intros [(? & ? & ?)|(-> & ? & ?)]; auto.
  - intros d x Hd. unfold eligible. rewrite Hqs. split; intros (H & ? & ?); (split; [|done]); tauto.
Qed.
Lemma eligible_dequeue qs qs' s c p : (forall d x, queued qs' d x <-> queued qs d x /\ ~ (d = c /\ x = p)) ->
  (forall x, eligible qs' s c x <-> eligible qs s c x /\ x <> p) /\
  (forall d x, d <> c -> eligible qs' s d x <-> eligible qs s d x).
Proof.
  intros Hqs. split.
  - intros x. unfold eligible. rewrite Hqs. split; intros H; destruct_and?; split_and?; auto; by intros [_ ->].
  - intros d x Hd. unfold eligible. rewrite Hqs. split; intros (H & ? & ?); (split; [|done]); tauto.
Qed.

(** enqueue_task_rt() *)
Lemma enqueue_rt_ok qs s c p flags : rt_inv qs s -> is_cpu c = true -> task_cpu s p = c -> absent qs p ->
  in_range (t_prio (stasks s p)) -> task_ptr p ->
  let s' := enqueue_task_rt c p flags s in
  rt_inv (qs_enqueue s c p (has_flag flags ENQUEUE_HEAD) qs) s' /\ step_frame c s s' /\
  nr_running (crq s' c) = u32 (nr_running (crq s c) + 1).
Proof.
  intros Hinv Hc Hcpu Hq Hi Hptr s'. set (head := has_flag flags ENQUEUE_HEAD) in *.
  set (s1 := if has_flag flags ENQUEUE_WAKEUP then upd_stask p (fun t => t <| t_rt ::= fun e => e <| rt_timeout := 0 |> |>) s else s).
  assert (calm s s1) as C1 by (unfold s1; case_match; auto with calm).
  assert (t_prio (stasks s1 p) = t_prio (stasks s p)) as Ep by apply (cm_task _ _ C1 p).
  assert (task_cpu s1 p = c) as Ec by (unfold task_cpu; by rewrite (cm_thread _ _ C1)).
  destruct (rt_inv_calm _ _ _ C1 Hinv) as [Ha Hp].
  set (s2 := __enqueue_rt_entity head p s1). destruct (enqueue_entity_ok qs s1 c p head Ha Hc Ec Hq) as [A2 [F2 T2 Q2 U2 V2]]; [by rewrite Ep|done|].
  fold s2 in A2, F2, T2, Q2, U2, V2. set (qs' := upd_qs c _ qs) in A2.
  assert (qs_enqueue s c p head qs = qs') as -> by (unfold qs', qs_enqueue; by rewrite Ep).
  assert (forall d x, queued qs' d x <-> queued qs d x \/ (d = c /\ x = p)) as Hqs by (intros; apply queued_add; by rewrite Ep).
  set (s3 := if negb (task_current s2 c p) && migratory s2 p then enqueue_pushable_task c p s2 else s2).
  assert (s' = inc_nr_running c s3) as ->.
  { unfold s', enqueue_task_rt, enqueue_rt_entity, dequeue_rt_stack. cbv zeta. fold s1. rewrite (off_rt_rq qs s1 p Ha Hq).
    unfold s3, migratory. reflexivity. }
  assert (push_frame c s2 s3) as F3 by (unfold s3; case_match; [apply enqueue_pushable_frame|apply push_frame_refl]).
  assert (push_cpu (eligible qs' s3 c) s3 c) as P3.
  { assert (push_cpu (eligible qs s1 c) s2 c) as P2.
    { apply (push_cpu_same (eligible qs s1 c) _ s1 s2); [done|by rewrite T2|done|done|by apply Hp]. }
    eapply push_cpu_iff; [|apply push_maybe; [|exact P2]; rewrite T2, Ep; unfold in_range in Hi; lia].
    intros x. rewrite (eligible_step c qs' s2 s3), (eligible_step c qs' s1 s2) by (done || apply F3).
    unfold task_current. rewrite (step_curr c s1 s2 c F2), (step_migratory c s1 s2 p F2), andb_true_iff, negb_true_iff, Nat.eqb_neq.
    by apply eligible_enqueue. }
  assert (step_frame c s s3) as G3 by (etrans; [by apply step_calm|]; etrans; [exact F2|apply F3]).
  destruct (inc_nr_calm_but c s3) as [G4 ->]. split; [apply rt_inv_nr; split|].
  - by eapply array_push.
  - apply (push_step c (eligible qs s) _ s); [done|..|by apply Hinv|done].
    intros d x Hd. rewrite (eligible_step c qs' s s3) by done. by apply (eligible_enqueue qs qs' s c p).
  - split; [by etrans|]. rewrite (qf_rq _ _ _ F3), Q2. f_equal. f_equal. apply (cm_cpu _ _ C1 c).
Qed.

(** dequeue_task_rt() *)
Lemma dequeue_rt_ok qs s c p flags : rt_inv qs s -> queued qs c p ->
  let s' := dequeue_task_rt c p flags s in
  rt_inv (qs_dequeue c p qs) s' /\ step_frame c s s' /\ nr_running (crq s' c) = u32 (nr_running (crq s c) - 1).
Proof.
  intros Hinv Hq s'. set (s1 := update_curr_rt c s). assert (calm s s1) as C1 by apply update_curr_calm.
  destruct (rt_inv_calm _ _ _ C1 Hinv) as [Ha Hp]. destruct (ao_task _ _ Ha c p Hq) as (Hc & Hcpu & _).
  set (s2 := __dequeue_rt_entity p s1). destruct (dequeue_entity_ok qs s1 c p Ha Hq) as [A2 [F2 T2 Q2 U2 V2]].
  fold s2 in A2, F2, T2, Q2, U2, V2. set (qs' := qs_dequeue c p qs). fold (qs_dequeue c p qs) in A2. fold qs' in A2.
  assert (forall d x, queued qs' d x <-> queued qs d x /\ ~ (d = c /\ x = p)) as Hqs by (intros; apply queued_del).
  set (s3 := dequeue_pushable_task c p s2). pose proof (dequeue_pushable_frame c p s2) as F3. fold s3 in F3.
  assert (s' = dec_nr_running c s3) as ->.
  { unfold s', dequeue_task_rt, dequeue_rt_entity, dequeue_rt_stack. fold s1. by rewrite (is_on_rt_rq qs s1 c p Ha Hq). }
  assert (step_frame c s s3) as G3 by (etrans; [by apply step_calm|]; etrans; [exact F2|apply F3]).
  assert (push_cpu (eligible qs' s3 c) s3 c) as P3.
  { assert (push_cpu (eligible qs s1 c) s2 c) as P2.
    { apply (push_cpu_same (eligible qs s1 c) _ s1 s2); [done|by rewrite T2|done|done|by apply Hp]. }
    eapply push_cpu_iff; [|by apply dequeue_pushable_ok, P2].
    intros x. rewrite (eligible_step c qs' s2 s3), (eligible_step c qs' s1 s2) by (done || apply F3).
    by apply eligible_dequeue. }
  destruct (dec_nr_calm_but c s3) as [G4 ->]. split; [apply rt_inv_nr; split|].
  - by eapply array_push.
  - apply (push_step c (eligible qs s) _ s); [done|..|by apply Hinv|done].
    intros d x Hd. rewrite (eligible_step c qs' s s3) by done. by apply (eligible_dequeue qs qs' s c p).
  - split; [by etrans|]. rewrite (qf_rq _ _ _ F3), Q2. f_equal. f_equal. apply (cm_cpu _ _ C1 c).
Qed.
End inv.
