(* ===== verification/SmpMachine.v ===== *)
(** The whole machine: the runqueues of all classes together.

    [OtherClasses] is what the real-time class and the core rely on of the stop,
    RAS and fair classes: each has a queue of tasks per processor, which its
    operations change as their names say, and they touch nothing else of the
    scheduler's state.  [machine_inv qs s] is the invariant of the machine, and
    [runq qs s c] are the tasks on the runqueue of [c].  Moving a task from one
    runqueue to another keeps the invariant, whatever its class. *)

From S2P Require Import Prelude KList Sched Ras Rt RtSpec RtBorrow Affinity AffinitySpec Smp RtSmp RtPush SmpSpec RtSmpSpec.

(** [s'] differs from [s] by calm steps and the number of tasks on [c]. *)
Definition set_nr `{SKTypes} `{SmpTypes} (c : nat) (n : Z) (s : smp) : smp := upd_crq c (fun r => r <| nr_running := n |>) s.

Definition smp_ops `{SmpClasses} (k : sched_class) : smp_class :=
  match k with stop_class => stop_smp | ras_class => ras_smp | fair_class => fair_smp | _ => idle_smp end.
Definition other_class (k : sched_class) : Prop := k = stop_class \/ k = ras_class \/ k = fair_class.

(** The steps that move the task [p] from [c] to [d]. *)
Notation move_task c p d s := (activate_task d p 0 (set_task_cpu p d (deactivate_task c p 0 s))).

Class OtherClasses `{SmpEnv} `{!SmpClasses} := {
  oq : sched_class -> SExt -> nat -> list nat;
  oq_enqueue k c p f s : other_class k -> p ∉ oq k (sext s) c ->
    let s' := sc_enqueue_task (smp_ops k) c p f s in
    calm (set_nr c (u32 (nr_running (crq s c) + 1)) s) s' /\ oq k (sext s') c ≡ₚ p :: oq k (sext s) c /\
    forall k' d, k' <> k \/ d <> c -> oq k' (sext s') d = oq k' (sext s) d;
  oq_dequeue k c p f s : other_class k -> p ∈ oq k (sext s) c ->
    let s' := sc_dequeue_task (smp_ops k) c p f s in
    calm (set_nr c (u32 (nr_running (crq s c) - 1)) s) s' /\ p :: oq k (sext s') c ≡ₚ oq k (sext s) c /\
    forall k' d, k' <> k \/ d <> c -> oq k' (sext s') d = oq k' (sext s) d;
  (* code that is not a class changes no queue *)
  oq_account k d p t e : oq k (account_exec p t e) d = oq k e d;
  oq_reschedule k d c e : oq k (send_reschedule c e) d = oq k e d;
  oq_queued k d p e : oq k (info_queued p e) d = oq k e d;
  oq_dequeued k d p e : oq k (info_dequeued p e) d = oq k e d }.

Section machine.
Context {SK : SKTypes} {ST : SmpTypes} {STL : SmpTypesLaws} {CM : CpuMask} {CMS : CpuMasks} {CML : CpuMasksLaws} {SE : SmpEnv}
  {SL : SmpEnvLaws} {NL : KListLaws snode} {SC : SmpClasses} {OC : OtherClasses}.
Implicit Types (s : smp) (c p d : nat) (qs : nat -> Z -> list nat) (k : sched_class).

Definition others s c : list nat := oq stop_class (sext s) c ++ oq ras_class (sext s) c ++ oq fair_class (sext s) c.
Definition runq qs s c : list nat := members (qs c) ++ others s c.

Lemma elem_of_runq qs s c p : p ∈ runq qs s c <-> queued qs c p \/ exists k, other_class k /\ p ∈ oq k (sext s) c.
Proof.
  unfold runq, others, other_class. rewrite !elem_of_app, queued_members. split.
  - intros [?|[?|[?|?]]]; eauto 6.
  - intros [?|(k & [->|[->| ->]] & ?)]; auto.
Qed.

(** A task that the scheduler may move: a valid pointer, with the priority of its class. *)
Definition task_good s p : Prop :=
  task_ptr p /\ (t_class (stasks s p) = rt_class /\ in_range (t_prio (stasks s p)) \/ other_class (t_class (stasks s p))).

Record machine_inv qs s : Prop := {
  mi_rt : rt_inv qs s;
  mi_class : forall c p, queued qs c p -> t_class (stasks s p) = rt_class;
  mi_other : forall k c p, other_class k -> p ∈ oq k (sext s) c ->
    is_cpu c = true /\ task_cpu s p = c /\ t_class (stasks s p) = k /\ task_ptr p;
  mi_nodup : forall k c, other_class k -> NoDup (oq k (sext s) c);
  mi_nr : forall c, is_cpu c = true -> nr_running (crq s c) = Z.of_nat (length (runq qs s c)) }.

Lemma rt_not_other : ~ other_class rt_class.
Proof. unfold other_class. naive_solver. Qed.

Lemma runq_task qs s c p : machine_inv qs s -> p ∈ runq qs s c ->
  is_cpu c = true /\ task_cpu s p = c /\ task_good s p.
Proof.
  intros [[Ha _] Hc Ho _ _] [Hq|(k & Hk & Hin)]%elem_of_runq.
  - destruct (ao_task _ _ Ha c p Hq) as (? & ? & ? & _ & ?). split_and!; try done. split; [done|left]. split; [by eapply Hc|done].
  - destruct (Ho k c p Hk Hin) as (? & ? & <- & ?). split_and!; try done. split; [done|by right].
Qed.

Lemma runq_nodup qs s c : machine_inv qs s -> NoDup (runq qs s c).
Proof.
  intros Hm. pose proof Hm as [[Ha _] Hc Ho Hn _]. unfold runq, others.
  assert (forall k p, other_class k -> p ∈ oq k (sext s) c -> t_class (stasks s p) = k) as Hk.
  { intros k p Hk Hp. by destruct (Ho k c p Hk Hp) as (_ & _ & ? & _). }
  assert (other_class stop_class /\ other_class ras_class /\ other_class fair_class) as (H1 & H2 & H3) by (unfold other_class; auto).
  rewrite !NoDup_app. split_and!; auto.
  - by apply (members_nodup (slinks s)), Ha.
  - intros p Hp%queued_members. rewrite !elem_of_app. apply Hc in Hp. intros [Hx|[Hx|Hx]]; apply Hk in Hx; congruence || auto.
  - intros p Hp. rewrite !elem_of_app. apply Hk in Hp; [|done]. intros [Hx|Hx]; apply Hk in Hx; congruence || auto.
  - intros p Hp. apply Hk in Hp; [|done]. intros Hx; apply Hk in Hx; congruence || auto.
Qed.

(** A task is on one runqueue at most. *)
Lemma runq_unique qs s c d p : machine_inv qs s -> p ∈ runq qs s c -> p ∈ runq qs s d -> c = d.
Proof.
  intros Hm Hc Hd. apply (runq_task _ _ _ _ Hm) in Hc as (_ & Hc & _). apply (runq_task _ _ _ _ Hm) in Hd as (_ & Hd & _). congruence.
Qed.

Lemma runq_small qs s c : machine_inv qs s -> Z.of_nat (S (length (runq qs s c))) < 2 ^ 32.
Proof.
  intros Hm. set (n := Z.to_nat (2 ^ 31)). assert (length (runq qs s c) <= n)%nat as H; [|unfold n in *; lia].
  apply NoDup_bound; [by apply runq_nodup|]. intros x Hx.
  apply (runq_task _ _ _ _ Hm) in Hx as (_ & _ & Hp & _). unfold task_ptr, n in *. lia.
Qed.

(** Calm steps that leave the queues of the other classes alone. *)
Definition same_oq s s' : Prop := forall k d, oq k (sext s') d = oq k (sext s) d.

Lemma machine_calm qs s s' : calm s s' -> same_oq s s' -> machine_inv qs s -> machine_inv qs s'.
Proof.
  intros Hc Ho [H1 H2 H3 H4 H5]. split.
  - by eapply rt_inv_calm.
  - intros c p Hq. rewrite (ts_class _ _ (cm_task _ _ Hc p)). by eapply H2.
  - intros k c p. rewrite Ho. unfold task_cpu. rewrite (cm_thread _ _ Hc), (ts_class _ _ (cm_task _ _ Hc p)). apply H3.
  - intros k c. rewrite Ho. apply H4.
  - intros c Hd. unfold crq. rewrite (rs_nr _ _ (cs_rq _ _ (cm_cpu _ _ Hc c))). etrans; [by apply H5|].
    unfold runq, others. by rewrite !Ho.
Qed.

Lemma resched_oq p s : same_oq s (resched_task p s).
Proof. intros k d. unfold resched_task. repeat case_match; try done. apply oq_reschedule. Qed.

Lemma sched_avg_ext n c period s : sext (sched_avg_loop n c period s) = sext s.
Proof. revert s; induction n as [|n IH]; intros s; cbn; [done|]. case_match; [|done]. by rewrite IH. Qed.

Lemma balance_ext c s : sext (balance_runtime c s) = sext s.
Proof. done. Qed.

Lemma exceeded_ext c s : sext (sched_rt_runtime_exceeded c s).2 = sext s.
Proof. unfold sched_rt_runtime_exceeded. by repeat case_match. Qed.

Lemma update_curr_oq c s : same_oq s (update_curr_rt c s).
Proof.
  intros k d. unfold update_curr_rt. case_match; [done|]. cbv zeta. set (delta := if s64 _ <? 0 then 0 else _). clearbody delta.
  set (s1 := sched_rt_avg_update c delta _). assert (oq k (sext s1) d = oq k (sext s) d) as E1.
  { unfold s1, sched_rt_avg_update, sched_avg_update. rewrite sched_avg_ext. apply oq_account. }
  clearbody s1. case_match; [done|]. case_match; [|done].
  pose proof (exceeded_ext (task_cpu s1 (cpu_curr s c)) (upd_crt (task_cpu s1 (cpu_curr s c)) (fun r => r <| rt_time ::= fun t => u64 (t + delta) |>) s1)) as E2.
  destruct (sched_rt_runtime_exceeded _ _) as [[] s2]; cbn in E2; [rewrite resched_oq|]; by rewrite E2.
Qed.

(** ** Moving a task *)

(** What moving the task [p] leaves alone: everything but the queues, the
    counters, and the processor [p] is assigned to. *)
Record cpu_kept (r r' : cpu_t) : Prop := {
  ck_curr : rq_curr (c_rq r') = rq_curr (c_rq r);
  ck_idle : rq_idle (c_rq r') = rq_idle (c_rq r);
  ck_stop : rq_stop (c_rq r') = rq_stop (c_rq r);
  ck_calc : calc_load_active (c_rq r') = calc_load_active (c_rq r);
  ck_rd : rq_rd r' = rq_rd r;
  ck_sd : rq_sd r' = rq_sd r;
  ck_online : rq_online r' = rq_online r;
  ck_wake : wake_list r' = wake_list r }.
Record thread_kept (t t' : task_smp) : Prop := {
  tk_on_cpu : on_cpu t' = on_cpu t;
  tk_contributes : sched_contributes_to_load t' = sched_contributes_to_load t;
  tk_bound : thread_bound t' = thread_bound t }.
Record move_frame p s s' : Prop := {
  vf_task : forall q, task_same (stasks s q) (stasks s' q);
  vf_other : forall q, q <> p -> task_cpu s' q = task_cpu s q;
  vf_thread : forall q, thread_kept (sthread s q) (sthread s' q);
  vf_cpu : forall d, cpu_kept (cpus s d) (cpus s' d);
  vf_rds : forall d, rd_same (rds s d) (rds s' d);
  vf_online : online_mask s' = online_mask s;
  vf_active : active_mask s' = active_mask s;
  vf_possible : possible_mask s' = possible_mask s;
  vf_load : load_tasks s' = load_tasks s;
  vf_this : this_cpu s' = this_cpu s;
  vf_run : running s' = running s }.

#[export] Instance cpu_kept_pre : PreOrder cpu_kept.
Proof. split; [by split|]. intros x y z [] []; split; congruence. Qed.
#[export] Instance thread_kept_pre : PreOrder thread_kept.
Proof. split; [by split|]. intros x y z [] []; split; congruence. Qed.
#[export] Instance move_frame_pre p : PreOrder (move_frame p).
Proof.
  split; [by split|]. intros x y z [H1 H2 H3 H4 H5 H6 H7 H8 H9 H10 H11] [G1 G2 G3 G4 G5 G6 G7 G8 G9 G10 G11].
  split.
  - intros d; etrans; [apply H1|apply G1].
  - intros q Hq. rewrite G2 by done. by apply H2.
  - intros d; etrans; [apply H3|apply G3].
  - intros d; etrans; [apply H4|apply G4].
  - intros d; etrans; [apply H5|apply G5].
  - by rewrite G6.
  - by rewrite G7.
  - by rewrite G8.
  - by rewrite G9.
  - by rewrite G10.
  - by rewrite G11.
Qed.

Lemma step_move c p s s' : step_frame c s s' -> move_frame p s s'.
Proof.
  intros [F1 F2 F3 F4 F5 F6 F7 F8 F9 F10 F11]. split; try done.
  - intros q _. unfold task_cpu. by rewrite F2.
  - intros q. by rewrite F2.
  - intros d. destruct (F3 d) as [[] ? ? ? ? ? ?]. by split.
Qed.
Lemma calm_move p s s' : calm s s' -> move_frame p s s'.
Proof. intros H. by apply (step_move 0), step_calm. Qed.
Lemma crq_move c p f s : (forall r, rq_curr (f r) = rq_curr r /\ rq_idle (f r) = rq_idle r /\ rq_stop (f r) = rq_stop r /\
  calc_load_active (f r) = calc_load_active r) -> move_frame p s (upd_crq c f s).
Proof.
  intros Hf. split; try done. intros d. unfold upd_crq, upd_cpu. cbn.
  destruct (Nat.eqb_spec d c) as [->|]; [|done]. destruct (Hf (c_rq (cpus s c))) as (? & ? & ? & ?). by split.
Qed.

(** A runqueue gains or loses the task [p]. *)
Definition gains p c qs qs' s s' : Prop :=
  runq qs' s' c ≡ₚ p :: runq qs s c /\ forall d, d <> c -> runq qs' s' d = runq qs s d.
Definition loses p c qs qs' s s' : Prop :=
  p :: runq qs' s' c ≡ₚ runq qs s c /\ forall d, d <> c -> runq qs' s' d = runq qs s d.

Lemma runq_rt_gain p c head qs s s' : in_range (t_prio (stasks s p)) -> same_oq s s' ->
  gains p c qs (qs_enqueue s c p head qs) s s'.
Proof.
  intros Hi Ho. unfold gains, runq, others. split.
  - rewrite !Ho. unfold qs_enqueue. rewrite upd_qs_eq, members_add by done. done.
  - intros d Hd. rewrite !Ho. unfold qs_enqueue. by rewrite upd_qs_ne.
Qed.
Lemma runq_rt_loss p c qs s s' : machine_inv qs s -> queued qs c p -> same_oq s s' -> loses p c qs (qs_dequeue c p qs) s s'.
Proof.
  intros Hm Hq Ho. unfold loses, runq, others. split.
  - rewrite !Ho. unfold qs_dequeue. rewrite upd_qs_eq, members_without.
    rewrite (without_perm p (members (qs c))) at 2; [done| |by apply queued_members].
    eapply members_nodup, ao_linked, (mi_rt _ _ Hm).
  - intros d Hd. rewrite !Ho. unfold qs_dequeue. by rewrite upd_qs_ne.
Qed.

(** One class's part of a runqueue changes. *)
Lemma others_perm (a b c a' : list nat) p : a' ≡ₚ p :: a -> a' ++ b ++ c ≡ₚ p :: a ++ b ++ c /\ b ++ a' ++ c ≡ₚ p :: b ++ a ++ c /\
  b ++ c ++ a' ≡ₚ p :: b ++ c ++ a.
Proof.
  intros ->. split_and!; solve_Permutation.
Qed.
Lemma others_gain k p c s s' : other_class k -> oq k (sext s') c ≡ₚ p :: oq k (sext s) c ->
  (forall k', k' <> k -> oq k' (sext s') c = oq k' (sext s) c) -> others s' c ≡ₚ p :: others s c.
Proof.
  intros Hk Hp Ho. unfold others. destruct Hk as [->|[->| ->]].
  - rewrite (Ho ras_class), (Ho fair_class) by done. by apply others_perm.
  - rewrite (Ho stop_class), (Ho fair_class) by done. by apply others_perm.
  - rewrite (Ho stop_class), (Ho ras_class) by done. by apply others_perm.
Qed.
Lemma others_same c s s' : (forall k', oq k' (sext s') c = oq k' (sext s) c) -> others s' c = others s c.
Proof. intros H. unfold others. by rewrite !H. Qed.

Lemma runq_other_gain k p c qs s s' : other_class k -> oq k (sext s') c ≡ₚ p :: oq k (sext s) c ->
  (forall k' d, k' <> k \/ d <> c -> oq k' (sext s') d = oq k' (sext s) d) -> gains p c qs qs s s'.
Proof.
  intros Hk Hp Ho. split.
  - unfold runq. rewrite (others_gain k p c s s') by auto. by rewrite <- Permutation_middle.
  - intros d Hd. unfold runq. by rewrite (others_same d s s') by auto.
Qed.
Lemma runq_other_loss k p c qs s s' : other_class k -> p :: oq k (sext s') c ≡ₚ oq k (sext s) c ->
  (forall k' d, k' <> k \/ d <> c -> oq k' (sext s') d = oq k' (sext s) d) -> loses p c qs qs s s'.
Proof.
  intros Hk Hp Ho. split.
  - unfold runq. rewrite (others_gain k p c s' s); [by rewrite <- Permutation_middle|done|by symmetry|].
    intros k' Hk'. symmetry. auto.
  - intros d Hd. unfold runq. by rewrite (others_same d s s') by auto.
Qed.

(** ** Putting a task on a runqueue and taking it off *)

Lemma machine_step qs qs' s s' c : machine_inv qs s -> rt_inv qs' s' -> step_frame c s s' ->
  (forall d p, queued qs' d p -> t_class (stasks s p) = rt_class) ->
  (forall k d p, other_class k -> p ∈ oq k (sext s') d -> is_cpu d = true /\ task_cpu s p = d /\ t_class (stasks s p) = k /\ task_ptr p) ->
  (forall k d, other_class k -> NoDup (oq k (sext s') d)) ->
  (forall d, d <> c -> runq qs' s' d = runq qs s d) ->
  (is_cpu c = true -> nr_running (crq s' c) = Z.of_nat (length (runq qs' s' c))) ->
  machine_inv qs' s'.
Proof.
  intros Hm Hr F Hc Ho Hn Hd Hnr. split.
  - done.
  - intros d p Hq. rewrite (ts_class _ _ (sf_task _ _ _ F p)). by apply (Hc d).
  - intros k d p Hk Hp. unfold task_cpu. rewrite (sf_thread _ _ _ F), (ts_class _ _ (sf_task _ _ _ F p)). by apply Ho.
  - done.
  - intros d Hcpu. destruct (decide (d = c)) as [->|Hne]; [by apply Hnr|]. rewrite Hd by done.
    destruct (sf_cpu _ _ _ F d) as [[[?|En] _ _ _ _ _ _] _ _ _ _ _ _]; [done|]. unfold crq. rewrite En. by apply (mi_nr _ _ Hm).
Qed.

Lemma nr_gain qs qs' s s' c p : machine_inv qs s -> gains p c qs qs' s s' -> is_cpu c = true ->
  u32 (nr_running (crq s c) + 1) = Z.of_nat (length (runq qs' s' c)).
Proof.
  intros Hm [Hg _] Hc. rewrite Hg, (mi_nr _ _ Hm) by done. cbn [length]. pose proof (runq_small _ _ c Hm). rewrite u32_small; lia.
Qed.
Lemma nr_loss qs qs' s s' c p : machine_inv qs s -> loses p c qs qs' s s' -> is_cpu c = true ->
  u32 (nr_running (crq s c) - 1) = Z.of_nat (length (runq qs' s' c)).
Proof.
  intros Hm [Hg _] Hc. rewrite (mi_nr _ _ Hm), <- Hg by done. pose proof (runq_small _ _ c Hm) as Hs. rewrite <- Hg in Hs.
  cbn [length] in *. rewrite u32_small; lia.
Qed.

(** The real-time class only accounts the execution time outside its data. *)
Lemma my_rd_ext c f s : sext (upd_my_rd c f s) = sext s.
Proof. unfold upd_my_rd. by case_match. Qed.
Lemma migration_ext c s : sext (update_rt_migration c s) = sext s.
Proof.
  unfold update_rt_migration, rt_set_overload, rt_clear_overload. repeat case_match; cbn; rewrite ?my_rd_ext; done.
Qed.
Lemma if_ext (b : bool) s s1 : sext s1 = sext s -> sext (if b then s1 else s) = sext s.
Proof. by destruct b. Qed.
Lemma inc_migration_ext c p s : sext (inc_rt_migration c p s) = sext s.
Proof. unfold inc_rt_migration. cbv zeta. rewrite migration_ext. by case_match. Qed.
Lemma dec_migration_ext c p s : sext (dec_rt_migration c p s) = sext s.
Proof. unfold dec_rt_migration. cbv zeta. rewrite migration_ext. by case_match. Qed.
Lemma inc_prio_ext c i s : sext (inc_rt_prio c i s) = sext s.
Proof. unfold inc_rt_prio, inc_rt_prio_smp. repeat case_match; cbn; rewrite ?my_rd_ext; done. Qed.
Lemma dec_prio_ext c i s : sext (dec_rt_prio c i s) = sext s.
Proof. unfold dec_rt_prio, dec_rt_prio_smp. repeat case_match; cbn; rewrite ?my_rd_ext; done. Qed.
Lemma bandwidth_ext s : sext (start_rt_bandwidth s) = sext s.
Proof. unfold start_rt_bandwidth. by repeat case_match. Qed.
Lemma enqueue_entity_ext head p s : sext (__enqueue_rt_entity head p s) = sext s.
Proof.
  unfold __enqueue_rt_entity, inc_rt_tasks, inc_rt_group. cbv zeta.
  rewrite bandwidth_ext, inc_migration_ext, inc_prio_ext. by case_match.
Qed.
Lemma dequeue_entity_ext p s : sext (__dequeue_rt_entity p s) = sext s.
Proof.
  unfold __dequeue_rt_entity, dec_rt_tasks. cbv zeta. rewrite dec_migration_ext, dec_prio_ext. by case_match.
Qed.
Lemma enqueue_pushable_ext c p s : sext (enqueue_pushable_task c p s) = sext s.
Proof. unfold enqueue_pushable_task. cbv zeta. by case_match. Qed.
Lemma dequeue_pushable_ext c p s : sext (dequeue_pushable_task c p s) = sext s.
Proof. unfold dequeue_pushable_task. cbv zeta. by case_match. Qed.
Lemma dequeue_stack_ext p s : sext (dequeue_rt_stack p s) = sext s.
Proof. unfold dequeue_rt_stack. case_match; [apply dequeue_entity_ext|done]. Qed.
Lemma inc_nr_ext c s : sext (inc_nr_running c s) = sext s.
Proof. done. Qed.
Lemma dec_nr_ext c s : sext (dec_nr_running c s) = sext s.
Proof. done. Qed.
Lemma wakeup_ext (b : bool) p s : sext (if b then upd_stask p (fun t => t <| t_rt ::= fun e => e <| rt_timeout := 0 |> |>) s else s) = sext s.
Proof. by destruct b. Qed.
Lemma enqueue_rt_ext c p f s : sext (enqueue_task_rt c p f s) = sext s.
Proof.
  unfold enqueue_task_rt, enqueue_rt_entity. cbv zeta. rewrite inc_nr_ext.
  etrans; [apply if_ext, enqueue_pushable_ext|]. by rewrite enqueue_entity_ext, dequeue_stack_ext, wakeup_ext.
Qed.
Lemma dequeue_rt_oq c p f s : same_oq s (dequeue_task_rt c p f s).
Proof.
  intros k d. unfold dequeue_task_rt, dequeue_rt_entity. cbv zeta.
  rewrite dec_nr_ext, dequeue_pushable_ext, dequeue_stack_ext. apply update_curr_oq.
Qed.

(** The state in which the class's operation runs. *)
Definition queue_clock (c : nat) (g : SExt -> SExt) s : smp := (update_rq_clock c s) <| sext ::= g |>.
Lemma queue_clock_calm c g s : calm s (queue_clock c g s).
Proof. unfold queue_clock. etrans; [apply rq_clock_calm|apply calm_ext]. Qed.
Lemma rq_clock_ext c s : sext (update_rq_clock c s) = sext s.
Proof. unfold update_rq_clock. by case_match. Qed.

Lemma calm_good s s' p : calm s s' -> task_good s p -> task_good s' p.
Proof.
  intros Hc. unfold task_good. by rewrite (ts_class _ _ (cm_task _ _ Hc p)), (ts_prio _ _ (cm_task _ _ Hc p)).
Qed.

Lemma class_enqueue_ok qs s c p f : machine_inv qs s -> is_cpu c = true -> task_cpu s p = c -> task_good s p ->
  (forall d, p ∉ runq qs s d) ->
  let s' := class_enqueue (t_class (stasks s p)) c p f s in
  exists qs', machine_inv qs' s' /\ gains p c qs qs' s s' /\ step_frame c s s'.
Proof.
  intros Hm Hc Hcpu [Hptr Hg] Hp s'.
  assert (absent qs p) as Ha by (intros d Hq; apply (Hp d), elem_of_runq; by left).
  assert (forall k d, other_class k -> p ∉ oq k (sext s) d) as Hoq by (intros k d Hk Hq; apply (Hp d), elem_of_runq; right; eauto).
  destruct Hg as [[Hcl Hi]|Hk].
  - unfold s'. rewrite Hcl. cbn [class_enqueue]. destruct (enqueue_rt_ok qs s c p f (mi_rt _ _ Hm) Hc Hcpu Ha Hi Hptr) as (Hr & F & En).
    set (qs' := qs_enqueue _ _ _ _ _) in *. exists qs'.
    assert (same_oq s (enqueue_task_rt c p f s)) as Ho by (intros k d; by rewrite enqueue_rt_ext).
    assert (gains p c qs qs' s (enqueue_task_rt c p f s)) as G by by apply runq_rt_gain.
    split_and!; [|done|done]. apply (machine_step qs qs' s _ c Hm Hr F).
    + intros d x. unfold qs', qs_enqueue. rewrite queued_add by done. intros [?|[-> ->]]; [by eapply mi_class|done].
    + intros k d x Hk. rewrite Ho. by apply (mi_other _ _ Hm).
    + intros k d Hk. rewrite Ho. by apply (mi_nodup _ _ Hm).
    + by apply G.
    + intros _. rewrite En. by eapply nr_gain.
  - set (k := t_class (stasks s p)) in *. assert (s' = sc_enqueue_task (smp_ops k) c p f s) as E.
    { unfold s', smp_ops, class_enqueue. by destruct Hk as [->|[->| ->]]. }
    destruct (oq_enqueue k c p f s Hk (Hoq k c Hk)) as (Hcalm & Hperm & Hoth). rewrite <- E in Hcalm, Hperm, Hoth.
    exists qs. assert (gains p c qs qs s s') as G by by eapply runq_other_gain.
    assert (step_frame c s s') as F by (etrans; [apply step_nr|by apply step_calm]).
    split_and!; [|done|done]. apply (machine_step qs qs s _ c Hm).
    + eapply rt_inv_calm; [exact Hcalm|]. by apply rt_inv_nr, Hm.
    + done.
    + apply (mi_class _ _ Hm).
    + intros k' d x Hk'. destruct (decide (k' = k /\ d = c)) as [[-> ->]|Hne].
      * rewrite Hperm, elem_of_cons. intros [->|Hx]; [done|by apply (mi_other _ _ Hm)].
      * rewrite Hoth by (destruct (decide (k' = k)); [right|left]; tauto). by apply (mi_other _ _ Hm).
    + intros k' d Hk'. destruct (decide (k' = k /\ d = c)) as [[-> ->]|Hne].
      * rewrite Hperm. apply NoDup_cons. split; [by apply Hoq|by apply (mi_nodup _ _ Hm)].
      * rewrite Hoth by (destruct (decide (k' = k)); [right|left]; tauto). by apply (mi_nodup _ _ Hm).
    + by apply G.
    + intros _. etrans; [|by eapply nr_gain]. unfold crq. rewrite (rs_nr _ _ (cs_rq _ _ (cm_cpu _ _ Hcalm c))).
      unfold set_nr, upd_crq, upd_cpu. cbn. by rewrite Nat.eqb_refl.
Qed.

Lemma class_dequeue_ok qs s c p f : machine_inv qs s -> p ∈ runq qs s c ->
  let s' := class_dequeue (t_class (stasks s p)) c p f s in
  exists qs', machine_inv qs' s' /\ loses p c qs qs' s s' /\ step_frame c s s'.
Proof.
  intros Hm Hp s'. destruct (runq_task _ _ _ _ Hm Hp) as (Hc & _ & _).
  apply elem_of_runq in Hp as [Hq|(k & Hk & Hq)].
  - unfold s'. rewrite (mi_class _ _ Hm c p Hq). cbn [class_dequeue].
    destruct (dequeue_rt_ok qs s c p f (mi_rt _ _ Hm) Hq) as (Hr & F & En).
    pose proof (dequeue_rt_oq c p f s) as Ho. set (s1 := dequeue_task_rt c p f s) in *.
    assert (loses p c qs (qs_dequeue c p qs) s s1) as G by by apply runq_rt_loss.
    exists (qs_dequeue c p qs). split_and!; [|done|done]. apply (machine_step qs _ s _ c Hm Hr F).
    + intros d x. unfold qs_dequeue. rewrite queued_del. intros [? _]. by eapply mi_class.
    + intros k d x Hk. rewrite Ho. by apply (mi_other _ _ Hm).
    + intros k d Hk. rewrite Ho. by apply (mi_nodup _ _ Hm).
    + by apply G.
    + intros _. rewrite En. by eapply nr_loss.
  - destruct (mi_other _ _ Hm k c p Hk Hq) as (_ & _ & Ek & _).
    assert (s' = sc_dequeue_task (smp_ops k) c p f s) as E.
    { unfold s', smp_ops, class_dequeue. rewrite Ek. by destruct Hk as [->|[->| ->]]. }
    destruct (oq_dequeue k c p f s Hk Hq) as (Hcalm & Hperm & Hoth). rewrite <- E in Hcalm, Hperm, Hoth.
    assert (loses p c qs qs s s') as G by by eapply runq_other_loss.
    assert (step_frame c s s') as F by (etrans; [apply step_nr|by apply step_calm]).
    assert (forall k' d x, other_class k' -> x ∈ oq k' (sext s') d -> x ∈ oq k' (sext s) d) as Hin.
    { intros k' d x Hk'. destruct (decide (k' = k /\ d = c)) as [[-> ->]|Hne]; [rewrite <- Hperm; set_solver|].
      by rewrite Hoth by (destruct (decide (k' = k)); [right|left]; tauto). }
    exists qs. split_and!; [|done|done]. apply (machine_step qs qs s _ c Hm).
    + eapply rt_inv_calm; [exact Hcalm|]. by apply rt_inv_nr, Hm.
    + done.
    + apply (mi_class _ _ Hm).
    + intros k' d x Hk' Hx%Hin; [by apply (mi_other _ _ Hm)|done].
    + intros k' d Hk'. destruct (decide (k' = k /\ d = c)) as [[-> ->]|Hne].
      * pose proof (mi_nodup _ _ Hm k c Hk) as Hn. rewrite <- Hperm in Hn. by apply NoDup_cons in Hn as [_ ?].
      * rewrite Hoth by (destruct (decide (k' = k)); [right|left]; tauto). by apply (mi_nodup _ _ Hm).
    + by apply G.
    + intros _. etrans; [|by eapply nr_loss]. unfold crq. rewrite (rs_nr _ _ (cs_rq _ _ (cm_cpu _ _ Hcalm c))).
      unfold set_nr, upd_crq, upd_cpu. cbn. by rewrite Nat.eqb_refl.
Qed.

Lemma runq_oq qs s s' c : same_oq s s' -> runq qs s' c = runq qs s c.
Proof. intros H. unfold runq. f_equal. by apply others_same. Qed.

(** The counter of uninterruptible tasks and [rq->nr_running] are apart. *)
Definition load_count (c : nat) (p : nat) (z : Z) s : smp :=
  if task_contributes_to_load (stasks s p) then upd_crq c (fun r => r <| nr_uninterruptible ::= fun n => u32 (n + z) |>) s else s.
Lemma machine_load c p z qs s : machine_inv qs s -> machine_inv qs (load_count c p z s).
Proof.
  unfold load_count. case_match; [|done]. intros [H1 H2 H3 H4 H5]. split; try done.
  - by apply rt_inv_crq.
  - intros d Hd. etrans; [|by apply H5]. unfold crq, upd_crq, upd_cpu. cbn. by destruct (Nat.eqb_spec d c) as [->|].
Qed.

Lemma load_move c p z q s : move_frame q s (load_count c p z s) /\ sthread (load_count c p z s) = sthread s /\
  same_oq s (load_count c p z s).
Proof. unfold load_count. case_match; [|done]. split; [|done]. by apply crq_move. Qed.

(** An operation that only changes the runqueue of [p]. *)
Record placed p s s' : Prop := { pl_frame : move_frame p s s'; pl_thread : sthread s' = sthread s }.
#[export] Instance placed_pre p : PreOrder (placed p).
Proof. split; [by split|]. intros x y z [H1 H2] [H3 H4]. split; [by etrans|by rewrite H4]. Qed.
Lemma step_placed c p s s' : step_frame c s s' -> placed p s s'.
Proof. intros F. split; [by apply (step_move c)|apply F]. Qed.
Lemma placed_good p q s s' : placed p s s' -> task_good s q -> task_good s' q.
Proof.
  intros [F _]. unfold task_good. by rewrite (ts_class _ _ (vf_task _ _ _ F q)), (ts_prio _ _ (vf_task _ _ _ F q)).
Qed.

(** What the class is called with. *)
Lemma queue_clock_ok c p g qs s : (forall k d e, oq k (g e) d = oq k e d) -> machine_inv qs s ->
  machine_inv qs (queue_clock c g s) /\ placed p s (queue_clock c g s) /\ same_oq s (queue_clock c g s).
Proof.
  intros Hg Hm. pose proof (queue_clock_calm c g s) as C.
  assert (same_oq s (queue_clock c g s)) as O by (intros k d; unfold queue_clock; cbn; by rewrite Hg, rq_clock_ext).
  split; [by eapply machine_calm|]. split; [|done]. by apply (step_placed c), step_calm.
Qed.

(** enqueue_task(), activate_task() *)
Lemma enqueue_ok qs s c p f : machine_inv qs s -> is_cpu c = true -> task_cpu s p = c -> task_good s p ->
  (forall d, p ∉ runq qs s d) ->
  exists qs', machine_inv qs' (enqueue_task c p f s) /\ gains p c qs qs' s (enqueue_task c p f s) /\ placed p s (enqueue_task c p f s).
Proof.
  intros Hm Hc Hcpu Hg Hp. destruct (queue_clock_ok c p (info_queued p) qs s (fun k d e => oq_queued k d p e) Hm) as (M2 & P2 & O2).
  set (s2 := queue_clock c (info_queued p) s) in *.
  assert (enqueue_task c p f s = class_enqueue (t_class (stasks s2 p)) c p f s2) as E by done.
  destruct (class_enqueue_ok qs s2 c p f M2 Hc) as (qs' & M' & G & F); [..|rewrite <- E in M', G, F].
  - unfold task_cpu. by rewrite (pl_thread _ _ _ P2).
  - by eapply placed_good.
  - intros d. by rewrite (runq_oq qs s).
  - exists qs'. split_and!; [done| |etrans; [exact P2|by eapply step_placed]].
    destruct G as [G1 G2]. split; [by rewrite <- (runq_oq qs s s2)|]. intros d Hd. by rewrite <- (runq_oq qs s s2), G2.
Qed.
Lemma load_placed c p z s : placed p s (load_count c p z s).
Proof. destruct (load_move c p z p s) as (? & ? & _). by split. Qed.
Lemma activate_ok qs s c p f : machine_inv qs s -> is_cpu c = true -> task_cpu s p = c -> task_good s p ->
  (forall d, p ∉ runq qs s d) ->
  exists qs', machine_inv qs' (activate_task c p f s) /\ gains p c qs qs' s (activate_task c p f s) /\ placed p s (activate_task c p f s).
Proof.
  intros Hm Hc Hcpu Hg Hp. destruct (load_move c p (-1) p s) as (_ & T1 & O1). pose proof (load_placed c p (-1) s) as P1.
  pose proof (machine_load c p (-1) qs s Hm) as M1. set (s1 := load_count c p (-1) s) in *.
  assert (activate_task c p f s = enqueue_task c p f s1) as -> by done.
  destruct (enqueue_ok qs s1 c p f M1 Hc) as (qs' & M' & G & P).
  - unfold task_cpu. by rewrite T1.
  - by eapply placed_good.
  - intros d. by rewrite (runq_oq qs s).
  - exists qs'. split_and!; [done| |by etrans].
    destruct G as [G1 G2]. split; [by rewrite <- (runq_oq qs s s1)|]. intros d Hd. by rewrite <- (runq_oq qs s s1), G2.
Qed.

(** dequeue_task(), deactivate_task() *)
Lemma dequeue_ok qs s c p f : machine_inv qs s -> p ∈ runq qs s c ->
  exists qs', machine_inv qs' (dequeue_task c p f s) /\ loses p c qs qs' s (dequeue_task c p f s) /\ placed p s (dequeue_task c p f s).
Proof.
  intros Hm Hp. destruct (queue_clock_ok c p (info_dequeued p) qs s (fun k d e => oq_dequeued k d p e) Hm) as (M2 & P2 & O2).
  set (s2 := queue_clock c (info_dequeued p) s) in *.
  assert (dequeue_task c p f s = class_dequeue (t_class (stasks s2 p)) c p f s2) as E by done.
  destruct (class_dequeue_ok qs s2 c p f M2) as (qs' & M' & G & F); [by rewrite (runq_oq qs s)|rewrite <- E in M', G, F].
  exists qs'. split_and!; [done| |etrans; [exact P2|by eapply step_placed]].
  destruct G as [G1 G2]. split; [by rewrite <- (runq_oq qs s s2)|]. intros d Hd. by rewrite <- (runq_oq qs s s2), G2.
Qed.
Lemma deactivate_ok qs s c p f : machine_inv qs s -> p ∈ runq qs s c ->
  exists qs', machine_inv qs' (deactivate_task c p f s) /\ loses p c qs qs' s (deactivate_task c p f s) /\ placed p s (deactivate_task c p f s).
Proof.
  intros Hm Hp. destruct (load_move c p 1 p s) as (_ & T1 & O1). pose proof (load_placed c p 1 s) as P1.
  pose proof (machine_load c p 1 qs s Hm) as M1. set (s1 := load_count c p 1 s) in *.
  assert (deactivate_task c p f s = dequeue_task c p f s1) as -> by done.
  destruct (dequeue_ok qs s1 c p f M1) as (qs' & M' & G & P); [by rewrite (runq_oq qs s)|].
  exists qs'. split_and!; [done| |by etrans].
  destruct G as [G1 G2]. split; [by rewrite <- (runq_oq qs s s1)|]. intros d Hd. by rewrite <- (runq_oq qs s s1), G2.
Qed.

(** set_task_cpu() on a task that is on no runqueue *)
Lemma machine_thread p f qs s : machine_inv qs s -> (forall d, p ∉ runq qs s d) -> machine_inv qs (upd_thread p f s).
Proof.
  intros Hm Hp. assert (forall d x, x ∈ runq qs s d -> task_cpu (upd_thread p f s) x = task_cpu s x) as Hcpu.
  { intros d x Hx. unfold task_cpu, upd_thread. cbn. destruct (Nat.eqb_spec x p) as [->|]; [by destruct (Hp d)|done]. }
  pose proof Hm as [[[A1 A2 A3 A4] A5] H2 H3 H4 H5]. split; try done.
  - split; [split|]; try done.
    + intros c x Hx. rewrite (Hcpu c); [by apply A2|]. apply elem_of_runq. by left.
    + intros c Hc. apply (cpu_array_same _ s); [done..|by apply A3].
    + by apply (rd_ok_same s).
    + intros d Hd. by apply (push_cpu_same (eligible qs s d) _ s); [..|apply A5].
  - intros k c x Hk Hx. rewrite (Hcpu c); [by apply H3|]. apply elem_of_runq. right. by exists k.
Qed.

Lemma set_task_cpu_ok qs s p c : machine_inv qs s -> (forall d, p ∉ runq qs s d) ->
  let s' := set_task_cpu p c s in
  machine_inv qs s' /\ move_frame p s s' /\ task_cpu s' p = c /\ same_oq s s'.
Proof.
  intros Hm Hp s'. unfold set_task_cpu in s'. set (s1 := if negb _ then _ else s) in s'.
  assert (calm s s1 /\ same_oq s s1) as [C1 O1] by (unfold s1; case_match; (split; [auto with calm|done])).
  assert (machine_inv qs s1) as M1 by by eapply machine_calm. clearbody s1. unfold s', __set_task_cpu. split_and!.
  - apply machine_thread; [done|]. intros d. by rewrite (runq_oq qs s).
  - etrans; [by apply calm_move|]. split; try done.
    + intros q Hq. unfold task_cpu, upd_thread. cbn. by rewrite (proj2 (Nat.eqb_neq q p) Hq).
    + intros q. unfold upd_thread. cbn. by destruct (Nat.eqb_spec q p) as [->|].
  - unfold task_cpu, upd_thread. cbn. by rewrite Nat.eqb_refl.
  - done.
Qed.

(** ** Moving a task *)
Record moved p c d qs qs' s s' : Prop := {
  mv_inv : machine_inv qs' s';
  mv_frame : move_frame p s s';
  mv_cpu : task_cpu s' p = d;
  mv_here : p ∈ runq qs' s' d;
  mv_rest : forall x e, x <> p -> x ∈ runq qs' s' e <-> x ∈ runq qs s e }.

(** From the runqueue of [c] to none, with the state [s1], to that of [d], with the
    state [s3]. *)
Lemma moved_by qs s c d p s1 s3 : machine_inv qs s -> p ∈ runq qs s c -> is_cpu d = true ->
  (exists qs1, machine_inv qs1 s1 /\ loses p c qs qs1 s s1 /\ placed p s s1) ->
  (forall qs1, let s2 := set_task_cpu p d s1 in machine_inv qs1 s2 -> task_cpu s2 p = d -> task_good s2 p -> (forall e, p ∉ runq qs1 s2 e) ->
    exists qs3, machine_inv qs3 s3 /\ gains p d qs1 qs3 s2 s3 /\ placed p s2 s3) ->
  exists qs', moved p c d qs qs' s s3.
Proof.
  intros Hm Hp Hd (qs1 & M1 & [L1 L2] & P1) Hs3. destruct (runq_task _ _ _ _ Hm Hp) as (Hc & Hcpu & Hg).
  assert (forall e, p ∉ runq qs1 s1 e) as Hno.
  { intros e He. destruct (decide (e = c)) as [->|Hne].
    - pose proof (runq_nodup _ _ c Hm) as Hn. rewrite <- L1 in Hn. by apply NoDup_cons in Hn as [? _].
    - rewrite L2 in He by done. apply Hne. by apply (runq_unique qs s e c p). }
  destruct (set_task_cpu_ok qs1 s1 p d M1 Hno) as (M2 & F2 & C2 & O2). set (s2 := set_task_cpu p d s1) in *.
  destruct (Hs3 qs1 M2 C2) as (qs3 & M3 & [G1 G2] & P3).
  { pose proof (placed_good _ p _ _ P1 Hg) as Hg1. revert Hg1. unfold task_good.
    by rewrite (ts_class _ _ (vf_task _ _ _ F2 p)), (ts_prio _ _ (vf_task _ _ _ F2 p)). }
  { intros e. by rewrite (runq_oq qs1 s1). }
  exists qs3. split; [done|..].
  - etrans; [apply P1|]. etrans; [exact F2|]. apply P3.
  - unfold task_cpu. by rewrite (pl_thread _ _ _ P3).
  - rewrite G1. by left.
  - intros x e Hx. assert (x ∈ runq qs1 s2 e <-> x ∈ runq qs s e) as <-.
    { rewrite (runq_oq qs1 s1 s2) by done. destruct (decide (e = c)) as [->|He]; [|by rewrite L2].
      rewrite <- L1, elem_of_cons. tauto. }
    destruct (decide (e = d)) as [->|He]; [|by rewrite G2]. rewrite G1, elem_of_cons. tauto.
Qed.
Lemma move_task_ok qs s c p d : machine_inv qs s -> p ∈ runq qs s c -> is_cpu d = true ->
  exists qs', moved p c d qs qs' s (move_task c p d s).
Proof.
  intros Hm Hp Hd. apply (moved_by qs s c d p (deactivate_task c p 0 s)); [done..|by apply deactivate_ok|].
  intros qs1 s2 M2 C2 Hg Hno. by apply activate_ok.
Qed.
Lemma requeue_task_ok qs s c p d : machine_inv qs s -> p ∈ runq qs s c -> is_cpu d = true ->
  exists qs', moved p c d qs qs' s (enqueue_task d p 0 (set_task_cpu p d (dequeue_task c p 0 s))).
Proof.
  intros Hm Hp Hd. apply (moved_by qs s c d p (dequeue_task c p 0 s)); [done..|by apply dequeue_ok|].
  intros qs1 s2 M2 C2 Hg Hno. by apply enqueue_ok.
Qed.
End machine.
