(* ===== verification/RtPushSpec.v ===== *)
(** Pushing and pulling real-time tasks, with the other processors running
    whenever the lock of the runqueue is dropped.

    [smp_inv qs s] is the invariant of the machine between critical sections:
    [machine_inv], a task is on a runqueue exactly when its [on_rq] is set, and
    the current task of each processor has its [on_cpu] set.  [Interference] says
    what the other processors may do meanwhile: anything that keeps the
    invariant. *)

From S2P Require Import Prelude KList Sched Ras Rt RtSpec RtBorrow Affinity AffinitySpec Smp RtSmp RtPush SmpSpec RtSmpSpec SmpMachine.

Section push.
Context {SK : SKTypes} {ST : SmpTypes} {STL : SmpTypesLaws} {CM : CpuMask} {CMS : CpuMasks} {CML : CpuMasksLaws} {SE : SmpEnv}
  {SL : SmpEnvLaws} {NL : KListLaws snode} {SC : SmpClasses} {OC : OtherClasses}.
Implicit Types (s : smp) (c p d : nat) (qs : nat -> Z -> list nat).

Record smp_inv qs s : Prop := {
  si_machine : machine_inv qs s;
  si_on_rq : forall p, c_true (t_on_rq (stasks s p)) = true <-> exists c, p ∈ runq qs s c;
  si_on_cpu : forall c, is_cpu c = true -> c_true (on_cpu (sthread s (cpu_curr s c))) = true;
  si_this : is_cpu (this_cpu s) = true }.

Class Interference : Prop := {
  or_inv qs s c : is_cpu c = true -> smp_inv qs s -> exists qs', smp_inv qs' (others_run c s) }.

Lemma smp_calm qs s s' : calm s s' -> same_oq s s' -> smp_inv qs s -> smp_inv qs s'.
Proof.
  intros Hc Ho [H1 H2 H3 H4]. split.
  - by eapply machine_calm.
  - intros p. rewrite (ts_on_rq _ _ (cm_task _ _ Hc p)), H2. by setoid_rewrite (runq_oq qs s s').
  - intros c Hd. unfold cpu_curr, crq. rewrite (cm_thread _ _ Hc), (rs_curr _ _ (cs_rq _ _ (cm_cpu _ _ Hc c))). by apply H3.
  - by rewrite (cm_this _ _ Hc).
Qed.

Lemma move_curr p s s' c : move_frame p s s' -> cpu_curr s' c = cpu_curr s c.
Proof. intros F. apply (ck_curr _ _ (vf_cpu _ _ _ F c)). Qed.

Lemma smp_moved p c d qs qs' s s' : moved p c d qs qs' s s' -> p ∈ runq qs s c -> smp_inv qs s -> smp_inv qs' s'.
Proof.
  intros [M F C H R] Hp [H1 H2 H3 H4]. split.
  - done.
  - intros q. rewrite (ts_on_rq _ _ (vf_task _ _ _ F q)), H2. destruct (decide (q = p)) as [->|Hne].
    + split; intros _; eauto.
    + by setoid_rewrite (R q _ Hne).
  - intros e He. rewrite (move_curr _ _ _ _ F), (tk_on_cpu _ _ (vf_thread _ _ _ F _)). by apply H3.
  - by rewrite (vf_this _ _ _ F).
Qed.

(** The best task of a runqueue. *)
Lemma highest_least qs s c : array_ok qs s -> is_cpu c = true ->
  (forall p, queued qs c p -> highest_prio (crt s c) <= t_prio (stasks s p)) /\ highest_prio (crt s c) <= MAX_RT_PRIO /\
  (highest_prio (crt s c) < MAX_RT_PRIO -> exists p, queued qs c p /\ t_prio (stasks s p) = highest_prio (crt s c)).
Proof.
  intros Ha Hc. pose proof (ao_cpu _ _ Ha c Hc) as [Hb Hh _ _ _].
  destruct (smp_bitmap_first _ _ Hb) as (Hr & Hl & Hn). rewrite <- Hh in *. split_and!; [|lia|].
  - intros p Hq. destruct (ao_task _ _ Ha c p Hq) as (_ & _ & Hi & Hin & _).
    destruct (decide (highest_prio (crt s c) <= t_prio (stasks s p))) as [|Hlt]; [done|].
    rewrite Hl in Hin; [set_solver|]. unfold in_range in Hi. lia.
  - intros Hlt. destruct (qs c (highest_prio (crt s c))) as [|p l] eqn:E; [by apply Hn in Hlt|].
    assert (in_range (highest_prio (crt s c))) as Hi by (unfold in_range; lia).
    assert (p ∈ qs c (highest_prio (crt s c))) as Hp by (rewrite E; by left).
    exists p. split; [by exists (highest_prio (crt s c))|].
    destruct (ao_task _ _ Ha c p) as (_ & _ & Hi' & Hin & _); [by exists (highest_prio (crt s c))|].
    by apply (sl_uniq _ _ (ao_linked _ _ Ha) p c _ c _).
Qed.

Lemma runq_on_rq qs s c p : smp_inv qs s -> p ∈ runq qs s c -> c_true (t_on_rq (stasks s p)) = true.
Proof. intros Hi Hp. apply (si_on_rq _ _ Hi). eauto. Qed.
Lemma on_rq_here qs s p : smp_inv qs s -> c_true (t_on_rq (stasks s p)) = true -> p ∈ runq qs s (task_cpu s p).
Proof.
  intros Hi Hp. apply (si_on_rq _ _ Hi) in Hp as [c Hp]. pose proof (runq_task _ _ _ _ (si_machine _ _ Hi) Hp) as (_ & -> & _). done.
Qed.
Lemma queued_runq qs s c p : queued qs c p -> p ∈ runq qs s c.
Proof. intros Hq. apply elem_of_runq. by left. Qed.

(** ** The task to push *)
Definition smp_array {qs s} (Hi : smp_inv qs s) : array_ok qs s := proj1 (mi_rt _ _ (si_machine _ _ Hi)).
Definition smp_push {qs s} (Hi : smp_inv qs s) : push_ok (eligible qs s) s := proj2 (mi_rt _ _ (si_machine _ _ Hi)).

Lemma pushable_items qs s c : smp_inv qs s -> is_cpu c = true ->
  forall p, p ∈ (plist_items (pushable_tasks (crts s c))).*1 <-> eligible qs s c p.
Proof.
  intros Hi Hc p. rewrite items_fst. setoid_rewrite (pc_in _ _ _ (smp_push Hi c Hc)). split; [by intros (i & ? & _)|eauto].
Qed.

Lemma has_pushable_spec qs s c : smp_inv qs s -> is_cpu c = true ->
  has_pushable_tasks c s = true <-> exists p, eligible qs s c p.
Proof.
  intros Hi Hc. unfold has_pushable_tasks. rewrite plist_empty_spec, negb_true_iff, bool_decide_eq_false.
  pose proof (pushable_items qs s c Hi Hc) as Hp. destruct (plist_items _) as [|[p i] l]; split.
  - done.
  - intros [p He%Hp]. set_solver.
  - intros _. exists p. apply Hp. by left.
  - done.
Qed.

Lemma pick_pushable qs s c : smp_inv qs s -> is_cpu c = true ->
  exists o, pick_next_pushable_task c s = Some o /\
    match o with
    | Some p => eligible qs s c p /\ forall q, eligible qs s c q -> t_prio (stasks s p) <= t_prio (stasks s q)
    | None => forall p, ~ eligible qs s c p
    end.
Proof.
  intros Hi Hc. unfold pick_next_pushable_task. destruct (has_pushable_tasks c s) eqn:Eh; cbn [negb].
  2: { exists None. split; [done|]. intros p He. assert (has_pushable_tasks c s = true); [|congruence].
       apply (has_pushable_spec qs); eauto. }
  set (p := plist_first _). destruct (smp_push Hi c Hc) as [P1 P2 P3 P4].
  assert (plist_items (pushable_tasks (crts s c)) <> []) as Hne.
  { unfold has_pushable_tasks in Eh. rewrite plist_empty_spec, negb_true_iff, bool_decide_eq_false in Eh. done. }
  destruct (plist_first_spec _ Hne) as (i & Hin & Hmin). fold p in Hin. apply P2 in Hin as [He ->].
  pose proof He as (Hq & Hcur & Hmig). destruct (ao_task _ _ (smp_array Hi) c p Hq) as (_ & Hcpu & Hr & _).
  exists (Some p). split.
  - rewrite Hcpu, Nat.eqb_refl. cbn [negb]. unfold task_current. rewrite (proj2 (Nat.eqb_neq _ _) Hcur).
    unfold migratory in Hmig. apply Z.ltb_lt in Hmig. rewrite (proj2 (Z.leb_gt _ _) Hmig).
    rewrite (runq_on_rq qs s c) by (done || by apply queued_runq). cbn [negb].
    unfold rt_task, rt_prio. unfold in_range in Hr. by rewrite (proj2 (Z.ltb_lt _ _) (proj2 Hr)).
  - split; [done|]. intros q Hq'. apply (Hmin (q, t_prio (stasks s q))). by apply P2.
Qed.

(** ** The processor to push to *)
Lemma domain_search_cpu sds this m d : (forall t, this = Some t -> is_cpu t = true) ->
  domain_search sds this m = Some d -> is_cpu d = true.
Proof.
  intros Ht. induction sds as [|sd sds IH]; cbn; [done|].
  repeat case_match; try done; intros [= <-]; auto.
Qed.
Lemma find_lowest_cpu task s d : is_cpu (this_cpu s) = true -> find_lowest_rq task s = Some d ->
  d = task_cpu s task \/ is_cpu d = true.
Proof.
  intros Ht. unfold find_lowest_rq. case_match; [done|]. case_match; [done|].
  destruct (find_pri _ _ _) as [found m]. case_match; [done|]. case_match; [intros [= <-]; by left|].
  set (this := if negb (cpumask_test_cpu (this_cpu s) m) then None else Some (this_cpu s)).
  assert (forall t, this = Some t -> is_cpu t = true) as Hthis by (unfold this; case_match; [done|by intros t [= <-]]).
  destruct (domain_search _ _ _) as [x|] eqn:E; [intros [= <-]; right; by eapply domain_search_cpu|].
  destruct this as [t|]; [intros [= <-]; right; by apply Hthis|]. case_match; [|done]. intros [= <-]. by right.
Qed.

Context {IL : Interference}.

(** [task] may be pushed from [c] to [d]. *)
Record pushable_to task c d qs s : Prop := {
  pt_cpu : is_cpu d = true; pt_other : d <> c;
  pt_here : task ∈ runq qs s c;
  pt_not_running : task <> cpu_curr s c;
  pt_allowed : cpumask_test_cpu d (tsk_cpus_allowed s task) = true;
  pt_prio : t_prio (stasks s task) < highest_prio (crt s d) }.

Lemma find_lock_ok n task c qs s : smp_inv qs s -> is_cpu c = true -> task_cpu s task = c ->
  let '(lowest, s') := find_lock_lowest n task c s in
  exists qs', smp_inv qs' s' /\
    match lowest with Some d => pushable_to task c d qs' s' | None => True end.
Proof.
  revert qs s. induction n as [|n IH]; intros qs s Hi Hc Ht; cbn [find_lock_lowest]; [by exists qs|].
  destruct (find_lowest_rq task s) as [d|] eqn:Ed; [|by exists qs].
  destruct (Nat.eqb_spec d c) as [->|Hd]; [by exists qs|].
  destruct (find_lowest_cpu _ _ _ (si_this _ _ Hi) Ed) as [->|Hcd]; [done|].
  cbn [double_lock_balance]. unfold double_lock_balance. set (s1 := others_run c s).
  destruct (or_inv qs s c Hc Hi) as [qs1 H1]. fold s1 in H1.
  destruct (Nat.eqb_spec (task_cpu s1 task) c) as [T1|]; [|by exists qs1]. cbn [andb negb orb].
  destruct (cpumask_test_cpu d (tsk_cpus_allowed s1 task)) eqn:A1; [|by exists qs1]. cbn [negb orb].
  destruct (task_running s1 c task) eqn:R1; [by exists qs1|]. cbn [orb].
  destruct (c_true (t_on_rq (stasks s1 task))) eqn:O1; [|by exists qs1]. cbn [negb].
  destruct (Z.ltb_spec (t_prio (stasks s1 task)) (highest_prio (crt s1 d))) as [Hlt|Hge].
  - exists qs1. split; [done|]. split; try done.
    + rewrite <- T1. by apply on_rq_here.
    + intros ->. unfold task_running in R1. rewrite (si_on_cpu _ _ H1) in R1; done.
  - specialize (IH qs1 s1 H1 Hc T1). destruct (find_lock_lowest n task c s1) as [lowest s2].
    destruct IH as (qs2 & H2 & Hm). by exists qs2.
Qed.

(** What a push does: [task] is now the most important real-time task of [d]. *)
Record pushed task c d qs' s' : Prop := {
  pu_cpu : is_cpu d = true; pu_other : d <> c;
  pu_here : task ∈ runq qs' s' d;
  pu_not_running : task <> cpu_curr s' c;
  pu_allowed : cpumask_test_cpu d (tsk_cpus_allowed s' task) = true;
  pu_best : forall q, queued qs' d q -> q <> task -> t_prio (stasks s' task) < t_prio (stasks s' q) }.

Lemma queued_moved p c d qs qs' s s' e x : smp_inv qs s -> moved p c d qs qs' s s' -> x <> p -> queued qs' e x <-> queued qs e x.
Proof.
  intros Hi Hm Hne. pose proof (mv_frame _ _ _ _ _ _ _ Hm) as F. pose proof (mv_rest _ _ _ _ _ _ _ Hm x e Hne) as Hr.
  pose proof (ts_class _ _ (vf_task _ _ _ F x)) as Ek. split; intros Hq.
  - pose proof (queued_runq _ s' _ _ Hq) as Hx. apply Hr, elem_of_runq in Hx as [Hx|(k & Hk & Hx)]; [done|].
    apply (mi_class _ _ (mv_inv _ _ _ _ _ _ _ Hm)) in Hq. apply (mi_other _ _ (si_machine _ _ Hi)) in Hx as (_ & _ & E & _); [|done].
    rewrite Ek, E in Hq. rewrite Hq in Hk. by destruct (rt_not_other Hk).
  - pose proof (queued_runq _ s _ _ Hq) as Hx. apply Hr, elem_of_runq in Hx as [Hx|(k & Hk & Hx)]; [done|].
    apply (mi_class _ _ (si_machine _ _ Hi)) in Hq. apply (mi_other _ _ (mv_inv _ _ _ _ _ _ _ Hm)) in Hx as (_ & _ & E & _); [|done].
    rewrite Ek, Hq in E. rewrite <- E in Hk. by destruct (rt_not_other Hk).
Qed.

(** A real-time task is queued wherever it goes. *)
Lemma moved_queued p c d qs qs' s s' : machine_inv qs s -> moved p c d qs qs' s s' -> queued qs c p -> queued qs' d p.
Proof.
  intros Hi Hm Hq. pose proof (mv_frame _ _ _ _ _ _ _ Hm) as F.
  destruct (proj1 (elem_of_runq _ _ _ _) (mv_here _ _ _ _ _ _ _ Hm)) as [?|(k & Hk & Hx)]; [done|].
  destruct (mi_other _ _ (mv_inv _ _ _ _ _ _ _ Hm) k d p Hk Hx) as (_ & _ & Ek & _).
  rewrite (ts_class _ _ (vf_task _ _ _ F p)), (mi_class _ _ Hi c p Hq) in Ek. rewrite <- Ek in Hk. by destruct (rt_not_other Hk).
Qed.

Lemma move_to task c d qs s : smp_inv qs s -> pushable_to task c d qs s ->
  exists qs', smp_inv qs' (move_task c task d s) /\ pushed task c d qs' (move_task c task d s) /\ moved task c d qs qs' s (move_task c task d s).
Proof.
  intros Hi [P1 P2 P3 P4 P5 P6]. destruct (move_task_ok qs s c task d (si_machine _ _ Hi) P3 P1) as [qs' Hm].
  set (s1 := move_task c task d s) in *. pose proof (mv_frame _ _ _ _ _ _ _ Hm) as F.
  exists qs'. split; [by eapply smp_moved|]. split; [|done]. split; try done.
  - apply Hm.
  - by rewrite (move_curr task s).
  - unfold tsk_cpus_allowed. by rewrite (ts_allowed _ _ (vf_task _ _ _ F task)).
  - intros q Hq Hne. rewrite !(ts_prio _ _ (vf_task _ _ _ F _)). apply (queued_moved _ _ _ _ _ _ _ _ _ Hi Hm Hne) in Hq.
    destruct (highest_least qs s d (smp_array Hi) P1) as [Hl _]. specialize (Hl q Hq). lia.
Qed.
Lemma pushed_calm task c d qs s s' : calm s s' -> same_oq s s' -> pushed task c d qs s -> pushed task c d qs s'.
Proof.
  intros Hc Ho [P1 P2 P3 P4 P5 P6]. split; try done.
  - by rewrite (runq_oq qs s).
  - intros ->. apply P4. apply (cm_cpu _ _ Hc c).
  - unfold tsk_cpus_allowed. by rewrite (ts_allowed _ _ (cm_task _ _ Hc task)).
  - intros q. rewrite !(ts_prio _ _ (cm_task _ _ Hc _)). apply P6.
Qed.

Lemma move_pushes task c d qs s : smp_inv qs s -> pushable_to task c d qs s ->
  let s' := resched_task (cpu_curr (move_task c task d s) d) (move_task c task d s) in
  exists qs', smp_inv qs' s' /\ pushed task c d qs' s' /\ moved task c d qs qs' s (move_task c task d s).
Proof.
  intros Hi Hp. destruct (move_to task c d qs s Hi Hp) as (qs' & H1 & P1 & Hm). set (s1 := move_task c task d s) in *. intros s'.
  assert (calm s1 s') as C2 by apply resched_calm. assert (same_oq s1 s') as O2 by apply resched_oq.
  exists qs'. split; [by eapply smp_calm|]. split; [by eapply pushed_calm|done].
Qed.

Definition push_result c (r : outcome (bool * smp)) : Prop :=
  match r with
  | Bug => False
  | NoFuel => True
  | Ret (b, s') => exists qs', smp_inv qs' s' /\ (b = true -> exists task d, pushed task c d qs' s')
  end.

Lemma push_retry_ok fuel next c qs s : smp_inv qs s -> is_cpu c = true -> task_cpu s next = c ->
  push_result c (push_retry fuel next c s).
Proof.
  revert next qs s. induction fuel as [|fuel IH]; intros next qs s Hi Hc Ht; cbn [push_retry]; [done|].
  case_match; [by exists qs|]. case_match.
  { exists qs. split; [eapply smp_calm; [apply resched_calm|apply resched_oq|done]|done]. }
  pose proof (find_lock_ok RT_MAX_TRIES next c qs s Hi Hc Ht) as Hf. unfold find_lock_lowest_rq.
  destruct (find_lock_lowest RT_MAX_TRIES next c s) as [[d|] s1]; destruct Hf as (qs1 & H1 & Hd).
  - destruct (move_pushes next c d qs1 s1 H1 Hd) as (qs2 & H2 & P2 & _).
    exists qs2. split; [exact H2|]. intros _. exists next, d. exact P2.
  - destruct (pick_pushable qs1 s1 c H1 Hc) as (o & -> & Ho).
    destruct o as [task|]; [|by case_match; exists qs1]. case_match; [by exists qs1|]. destruct Ho as [(Hq & _) _].
    destruct (ao_task _ _ (smp_array H1) c task Hq) as (_ & Hcpu & _).
    apply (IH task qs1 s1 H1 Hc Hcpu).
Qed.

Lemma push_task_ok fuel c qs s : smp_inv qs s -> is_cpu c = true -> push_result c (push_rt_task fuel c s).
Proof.
  intros Hi Hc. unfold push_rt_task. case_match; [by exists qs|].
  destruct (pick_pushable qs s c Hi Hc) as (o & -> & Ho). destruct o as [task|]; [|by exists qs].
  destruct Ho as [(Hq & _) _]. destruct (ao_task _ _ (smp_array Hi) c task Hq) as (_ & Hcpu & _).
  by apply (push_retry_ok fuel task c qs).
Qed.

(** push_rt_tasks() *)
Definition tasks_result (r : outcome smp) : Prop :=
  match r with
  | Bug => False
  | NoFuel => True
  | Ret s' => exists qs', smp_inv qs' s'
  end.
Lemma push_loop_ok fuel retries c qs s : smp_inv qs s -> is_cpu c = true -> tasks_result (push_rt_tasks_loop fuel retries c s).
Proof.
  revert qs s. induction fuel as [|fuel IH]; intros qs s Hi Hc; cbn [push_rt_tasks_loop]; [done|].
  pose proof (push_task_ok retries c qs s Hi Hc) as Hp. destruct (push_rt_task retries c s) as [| |[[] s1]]; try done.
  - destruct Hp as (qs1 & H1 & _). by apply (IH qs1 s1).
  - destruct Hp as (qs1 & H1 & _). by exists qs1.
Qed.

(** ** When the other processors are quiet *)
Definition quiet c : Prop := forall s, others_run c s = s.

Lemma find_lock_quiet n task c s : quiet c -> (find_lock_lowest n task c s).2 = s.
Proof.
  intros Hq. induction n as [|n IH]; cbn [find_lock_lowest]; [done|]. case_match; [|done]. case_match; [done|].
  unfold double_lock_balance. rewrite Hq. by repeat case_match.
Qed.

(** The tasks left to push from [c]. *)
Definition to_push c s : nat := length (plist_items (pushable_tasks (crts s c))).

Lemma moved_less c d task qs qs' s s1 s' : smp_inv qs s -> smp_inv qs' s' -> is_cpu c = true -> d <> c ->
  moved task c d qs qs' s s1 -> calm s1 s' -> eligible qs s c task -> (to_push c s' < to_push c s)%nat.
Proof.
  intros Hi H1 Hc Hd Hm Hcalm He. unfold to_push. rewrite <- (length_fmap fst (plist_items (pushable_tasks (crts s c)))), <- (length_fmap fst).
  set (l := (plist_items (pushable_tasks (crts s c))).*1). set (l' := (plist_items (pushable_tasks (crts s' c))).*1).
  assert (length (task :: l') <= length l)%nat; [|done].
  apply submseteq_length, NoDup_submseteq.
  - apply NoDup_cons. split; [|by apply (smp_push H1)].
    intros Hin%(pushable_items qs' s' c H1 Hc). destruct Hin as [Hin%(queued_runq _ s1) _].
    pose proof (runq_unique _ _ _ _ _ (mv_inv _ _ _ _ _ _ _ Hm) Hin (mv_here _ _ _ _ _ _ _ Hm)). congruence.
  - intros x [->|Hx]%elem_of_cons; [by apply (pushable_items qs)|].
    apply (pushable_items qs' s' c H1 Hc) in Hx as (Hq & Hcur & Hmig). apply (pushable_items qs); [done|done|].
    pose proof (mv_frame _ _ _ _ _ _ _ Hm) as F.
    assert (x <> task) as Hne.
    { intros ->. apply (queued_runq _ s1) in Hq.
      pose proof (runq_unique _ _ _ _ _ (mv_inv _ _ _ _ _ _ _ Hm) Hq (mv_here _ _ _ _ _ _ _ Hm)). congruence. }
    split; [|split].
    + by apply (queued_moved _ _ _ _ _ _ _ c x Hi Hm Hne).
    + rewrite <- (move_curr _ _ _ c F). intros E. apply Hcur. rewrite <- E. apply (cm_cpu _ _ Hcalm c).
    + revert Hmig. unfold migratory, nr_cpus_allowed. by rewrite (ts_nr _ _ (cm_task _ _ Hcalm x)), (ts_nr _ _ (vf_task _ _ _ F x)).
Qed.

Lemma pushable_again task c d qs1 qs s : smp_inv qs1 s -> smp_inv qs s -> pushable_to task c d qs1 s -> pushable_to task c d qs s.
Proof.
  intros I1 I [P1 P2 P3 P4 P5 P6]. split; try done. pose proof (runq_on_rq _ _ _ _ I1 P3) as Hon.
  destruct (runq_task _ _ _ _ (si_machine _ _ I1) P3) as (_ & <- & _). by apply on_rq_here.
Qed.
(** Tasks were moved to processors they may use. *)
Record settled qs qs' s s' : Prop := {
  sd_task : forall q, task_same (stasks s q) (stasks s' q);
  sd_cpu : forall d, cpu_kept (cpus s d) (cpus s' d);
  sd_online : online_mask s' = online_mask s;
  sd_this : this_cpu s' = this_cpu s;
  sd_runq : forall x d, x ∈ runq qs s d ->
    exists e, x ∈ runq qs' s' e /\ (e = d \/ cpumask_test_cpu e (tsk_cpus_allowed s x) = true) }.
Lemma settled_refl qs s : settled qs qs s s.
Proof. split; try done. intros x d Hx. exists d. auto. Qed.
Lemma settled_trans qs qs1 qs2 s s1 s2 : settled qs qs1 s s1 -> settled qs1 qs2 s1 s2 -> settled qs qs2 s s2.
Proof.
  intros [A1 A2 A3 A4 A5] [B1 B2 B3 B4 B5]. split; try congruence.
  - intros q. etrans; [apply A1|apply B1].
  - intros d. etrans; [apply A2|apply B2].
  - intros x d Hx. destruct (A5 x d Hx) as (e & He & Hed). destruct (B5 x e He) as (e' & He' & Hee). exists e'. split; [done|].
    unfold tsk_cpus_allowed in *. rewrite (ts_allowed _ _ (A1 x)) in Hee. destruct Hee as [->|]; auto.
Qed.
Lemma settled_calm qs s s' : calm s s' -> same_oq s s' -> settled qs qs s s'.
Proof.
  intros C O. pose proof (calm_move 0 _ _ C) as F. split; [apply F..|apply F|apply F|apply F|].
  intros x d Hx. exists d. split; [by rewrite (runq_oq qs s s')|by left].
Qed.
Lemma settled_moved task c d qs qs' s s1 s' : smp_inv qs s -> moved task c d qs qs' s s1 -> calm s1 s' -> same_oq s1 s' ->
  cpumask_test_cpu d (tsk_cpus_allowed s' task) = true -> settled qs qs' s s'.
Proof.
  intros Hi M C O Ha. eapply settled_trans; [|by eapply settled_calm]. pose proof (mv_frame _ _ _ _ _ _ _ M) as F.
  split; [apply F..|apply F|apply F|apply F|].
  intros x e Hx. destruct (decide (x = task)) as [->|Hne].
  - exists d. split; [apply M|]. right. rewrite <- Ha. unfold tsk_cpus_allowed.
    by rewrite (ts_allowed _ _ (cm_task _ _ C task)), (ts_allowed _ _ (vf_task _ _ _ F task)).
  - exists e. split; [|by left]. by apply (mv_rest _ _ _ _ _ _ _ M).
Qed.

Lemma push_task_quiet fuel c qs s : quiet c -> smp_inv qs s -> is_cpu c = true ->
  exists b s' qs', push_rt_task (S fuel) c s = Ret (b, s') /\ smp_inv qs' s' /\ settled qs qs' s s' /\
    if b : bool then (to_push c s' < to_push c s)%nat else same_oq s s' /\ calm s s' /\ qs' = qs.
Proof.
  intros Hq Hi Hc. unfold push_rt_task.
  assert (forall r, r = Ret (false, s) -> exists b s' qs', r = Ret (b, s') /\ smp_inv qs' s' /\ settled qs qs' s s' /\
    if b : bool then (to_push c s' < to_push c s)%nat else same_oq s s' /\ calm s s' /\ qs' = qs) as Hsame.
  { intros r ->. exists false, s, qs. do 2 (split; [done|]). split; [apply settled_refl|done]. }
  case_match; [by apply Hsame|].
  destruct (pick_pushable qs s c Hi Hc) as (o & Eo & Ho). rewrite Eo. destruct o as [task|]; [|by apply Hsame].
  destruct Ho as [He _]. pose proof He as (Hqd & _). destruct (ao_task _ _ (smp_array Hi) c task Hqd) as (_ & Hcpu & _).
  cbn [push_retry]. case_match; [by apply Hsame|]. case_match.
  { exists false, (resched_task (cpu_curr s c) s), qs. split; [done|].
    pose proof (resched_calm (cpu_curr s c) s) as C1. pose proof (resched_oq (cpu_curr s c) s) as O1.
    split; [by eapply smp_calm|]. split; [by apply settled_calm|]. by split. }
  pose proof (find_lock_ok RT_MAX_TRIES task c qs s Hi Hc Hcpu) as Hf. pose proof (find_lock_quiet RT_MAX_TRIES task c s Hq) as E2.
  unfold find_lock_lowest_rq. destruct (find_lock_lowest RT_MAX_TRIES task c s) as [[d|] s1]; cbn in E2; subst s1.
  - destruct Hf as (qs1 & I1 & Hd).
    destruct (move_pushes task c d qs s Hi (pushable_again task c d qs1 qs s I1 Hi Hd)) as (qs2 & I2 & P2 & M2).
    exists true. eexists _, qs2. split; [done|]. split; [exact I2|]. split.
    + refine (settled_moved task c d qs qs2 s _ _ Hi M2 _ _ (pu_allowed _ _ _ _ _ P2)); [apply resched_calm|apply resched_oq].
    + refine (moved_less c d task qs qs2 s _ _ Hi I2 Hc (pu_other _ _ _ _ _ P2) M2 _ He). apply resched_calm.
  - rewrite Eo. rewrite Hcpu, Nat.eqb_refl, bool_decide_true by done. by apply Hsame.
Qed.

Lemma push_loop_quiet fuel retries c qs s : quiet c -> smp_inv qs s -> is_cpu c = true -> (to_push c s < fuel)%nat ->
  exists s' qs', push_rt_tasks_loop fuel (S retries) c s = Ret s' /\ smp_inv qs' s' /\ settled qs qs' s s'.
Proof.
  revert qs s. induction fuel as [|fuel IH]; intros qs s Hq Hi Hc Hf; [lia|]. cbn [push_rt_tasks_loop].
  destruct (push_task_quiet retries c qs s Hq Hi Hc) as (b & s1 & qs1 & -> & H1 & S1 & Hb). destruct b.
  - destruct (IH qs1 s1 Hq H1 Hc ltac:(lia)) as (s2 & qs2 & E2 & H2 & S2). exists s2, qs2. split_and!; [done..|].
    by eapply settled_trans.
  - by exists s1, qs1.
Qed.

(** ** Pulling *)

(** A task that waits on [src] and may run on [c]. *)
Definition pickable qs s c src p : Prop := queued qs src p /\ pick_rt_task src p (Some c) s = true.

Lemma pick_queue_spec l c cpu s :
  match pick_in_queue (STask <$> l) c cpu s with
  | Some p => p ∈ l /\ pick_rt_task c p cpu s = true
  | None => forall p, p ∈ l -> pick_rt_task c p cpu s = false
  end.
Proof.
  induction l as [|p l IH]; cbn; [intros p Hp; by apply elem_of_nil in Hp|].
  destruct (pick_rt_task c p cpu s) eqn:E; [split; [by left|done]|].
  destruct (pick_in_queue _ _ _ _) as [x|]; [destruct IH; split; [by right|done]|].
  intros x [->|Hx]%elem_of_cons; auto.
Qed.

Lemma pick_highest_spec n idx qs s c cpu : array_ok qs s -> is_cpu c = true -> 0 <= idx -> MAX_RT_PRIO - idx < Z.of_nat n ->
  (forall j p, 0 <= j < idx -> p ∈ qs c j -> pick_rt_task c p cpu s = false) ->
  match pick_highest_loop n idx c cpu s with
  | Some p => queued qs c p /\ pick_rt_task c p cpu s = true /\
      forall q, queued qs c q -> pick_rt_task c q cpu s = true -> t_prio (stasks s p) <= t_prio (stasks s q)
  | None => forall p, queued qs c p -> pick_rt_task c p cpu s = false
  end.
Proof.
  intros Ha Hc. pose proof (ca_bitmap _ _ _ (ao_cpu _ _ Ha c Hc)) as Hb. revert idx.
  induction n as [|n IH]; intros idx Hi Hn Hlow; cbn [pick_highest_loop].
  { intros p (j & Hj & Hp). apply (Hlow j); [unfold in_range in Hj; lia|done]. }
  destruct (Z.leb_spec MAX_RT_PRIO idx) as [Hmax|Hmax].
  { intros p (j & Hj & Hp). apply (Hlow j); [unfold in_range in Hj; lia|done]. }
  assert (in_range idx) as Hir by (unfold in_range; lia).
  rewrite (sl_view _ _ (ao_linked _ _ Ha)) by done. pose proof (pick_queue_spec (qs c idx) c cpu s) as Hq.
  destruct (pick_in_queue _ _ _ _) as [p|].
  - destruct Hq as [Hp Hpick]. assert (queued qs c p) as Hqp by by exists idx. split; [done|]. split; [done|].
    intros q Hq Hqp'. destruct (ao_task _ _ Ha c q Hq) as (_ & _ & Hri & Hin & _). destruct (ao_task _ _ Ha c p Hqp) as (_ & _ & Hri' & Hin' & _).
    destruct (sl_uniq _ _ (ao_linked _ _ Ha) p c idx c _ Hir Hri' Hp Hin') as [_ <-].
    destruct (decide (idx <= t_prio (stasks s q))) as [|Hlt]; [done|].
    rewrite (Hlow (t_prio (stasks s q)) q) in Hqp'; [done| |done]. unfold in_range in Hri. lia.
  - destruct Hb as [B1 B2 B3]. destruct (next_bit_spec (rt_bitmap (crt s c)) MAX_RT_PRIO (idx + 1) B1) as [[N1 N2] _]; [lia|].
    apply IH; [lia|lia|]. intros j p Hj Hp. destruct (decide (j < idx)) as [Hlt|Hge]; [by apply (Hlow j); [lia|]|].
    destruct (decide (j = idx)) as [->|Hne]; [by apply Hq|]. exfalso.
    destruct (decide (j < MAX_RT_PRIO)) as [Hjm|Hjm].
    + specialize (N2 j). rewrite B3 in N2 by (unfold in_range; lia). specialize (N2 ltac:(lia) Hjm).
      apply negb_false_iff, bool_decide_eq_true in N2. rewrite N2 in Hp. by apply elem_of_nil in Hp.
    + destruct (next_bit_spec (rt_bitmap (crt s c)) MAX_RT_PRIO (idx + 1) B1) as [_ [_ N3]]; lia.
Qed.

Lemma pick_next_highest_spec qs s c cpu : array_ok qs s -> is_cpu c = true ->
  match pick_next_highest_task_rt c cpu s with
  | Some p => queued qs c p /\ pick_rt_task c p cpu s = true /\
      forall q, queued qs c q -> pick_rt_task c q cpu s = true -> t_prio (stasks s p) <= t_prio (stasks s q)
  | None => forall p, queued qs c p -> pick_rt_task c p cpu s = false
  end.
Proof.
  intros Ha Hc. destruct (smp_bitmap_first _ _ (ca_bitmap _ _ _ (ao_cpu _ _ Ha c Hc))) as (Hr & Hl & _).
  apply pick_highest_spec; [done|done|lia|unfold MAX_RT_PRIO in *; lia|].
  intros j p Hj Hp. rewrite Hl in Hp by done. by apply elem_of_nil in Hp.
Qed.

Lemma pick_to qs s c src p : smp_inv qs s -> is_cpu c = true -> is_cpu src = true -> c <> src -> pickable qs s c src p ->
  t_prio (stasks s p) < highest_prio (crt s c) -> pushable_to p src c qs s.
Proof.
  intros Hi Hc Hs Hne [Hq Hp] Hlt. unfold pick_rt_task in Hp. apply andb_true_iff in Hp as [[Hr Ha]%andb_true_iff Hm].
  split; try done.
  - by apply queued_runq.
  - intros ->. unfold task_running in Hr. by rewrite (si_on_cpu _ _ Hi src Hs) in Hr.
Qed.

Definition pull_result c (b : bool) s' : Prop :=
  exists qs', smp_inv qs' s' /\ (b = true -> exists p src, src <> c /\ pushed p src c qs' s').

Lemma pull_from_ok c src qs s : smp_inv qs s -> is_cpu c = true -> is_cpu src = true -> c <> src ->
  pull_result c (pull_from c src s).1 (pull_from c src s).2.
Proof.
  intros Hi Hc Hs Hne. unfold pull_from. case_match; [by exists qs|].
  unfold double_lock_balance. set (s1 := others_run c s). destruct (or_inv qs s c Hc Hi) as [qs1 I1].
  fold s1 in I1. case_match; [by exists qs1|].
  pose proof (pick_next_highest_spec qs1 s1 src (Some c) (smp_array I1) Hs) as Hp.
  destruct (pick_next_highest_task_rt src (Some c) s1) as [p|]; [|by exists qs1]. destruct Hp as (Hq & Hpick & _).
  destruct (Z.ltb_spec (t_prio (stasks s1 p)) (highest_prio (crt s1 c))) as [Hlt|]; [|by exists qs1]. case_match; [by exists qs1|].
  destruct (move_to p src c qs1 s1 I1) as (qs2 & I2 & P2 & M2); [by apply pick_to|].
  exists qs2. split; [exact I2|]. intros _. exists p, src. split; [done|exact P2].
Qed.

Lemma pull_loop_ok n prev c ret qs s : smp_inv qs s -> is_cpu c = true ->
  let r := pull_loop n prev c ret s in
  exists qs', smp_inv qs' r.2.
Proof.
  revert prev ret qs s. induction n as [|n IH]; intros prev ret qs s Hi Hc; cbn [pull_loop]; [by exists qs|].
  set (src := cpumask_next prev (my_rto_mask c s)). destruct (is_cpu src) eqn:Es; cbn [negb]; [|by exists qs].
  destruct (Nat.eqb_spec c src) as [|Hne]; [by apply (IH _ _ qs)|].
  destruct (pull_from_ok c src qs s Hi Hc Es Hne) as (qs1 & I1 & _). destruct (pull_from c src s) as [b s1]. cbn in I1.
  apply (IH (Some src) (ret || b) qs1 s1 I1 Hc).
Qed.

(** Nothing is left on [src] for [c]: no task there is more important than those
    of [c], or [src] is about to switch to a task that waits there. *)
Definition drained qs s c src : Prop :=
  (forall p, pickable qs s c src p -> highest_prio (crt s c) <= t_prio (stasks s p)) \/
  (exists p, pickable qs s c src p /\ t_prio (stasks s p) < t_prio (stasks s (cpu_curr s src))).

Lemma pickable_eligible qs s c src p : smp_inv qs s -> is_cpu src = true -> pickable qs s c src p -> eligible qs s src p.
Proof.
  intros Hi Hs [Hq Hp]. unfold pick_rt_task in Hp. apply andb_true_iff in Hp as [[Hr _]%andb_true_iff Hm].
  split; [done|]. split; [|done]. intros E. unfold task_running in Hr. rewrite <- E in Hr. by rewrite (si_on_cpu _ _ Hi src Hs) in Hr.
Qed.

(** Every processor that root domains mark has another task to run. *)
Lemma marked_many qs s c src : smp_inv qs s -> is_cpu src = true -> cpumask_test_cpu src (my_rto_mask c s) = true ->
  rq_rd (cpus s c) <> None -> too_much s (qs src) = true.
Proof.
  intros Hi Hs Hm Hrd. unfold my_rto_mask in Hm. destruct (rq_rd (cpus s c)) as [d|]; [|done].
  rewrite (ro_mask _ (ao_rd _ _ (smp_array Hi)) d src Hs) in Hm. unfold over_in in Hm. apply andb_true_iff in Hm as [_ Hm].
  rewrite (ca_over _ _ _ (ao_cpu _ _ (smp_array Hi) src Hs)) in Hm. by destruct (too_much s (qs src)).
Qed.

(** pull_rt_task() for one processor when the others are quiet *)
Lemma pull_from_quiet c src qs s : quiet c -> smp_inv qs s -> is_cpu c = true -> is_cpu src = true -> c <> src ->
  too_much s (qs src) = true ->
  let '(b, s') := pull_from c src s in
  exists qs', smp_inv qs' s' /\ drained qs' s' c src /\
    (if b then exists p, pushed p src c qs' s' /\ moved p src c qs qs' s s' /\ queued qs src p /\
       t_prio (stasks s p) < highest_prio (crt s c) else s' = s /\ qs' = qs).
Proof.
  intros Hqt Hi Hc Hs Hne Hm. unfold pull_from. destruct (Z.leb_spec (highest_prio (crt s c)) (highest_next (crts s src))) as [Hle|Hgt].
  { exists qs. split; [done|]. split; [|done]. left. intros p Hp.
    pose proof (pc_low _ _ _ (smp_push Hi src Hs) p (pickable_eligible _ _ _ _ _ Hi Hs Hp)). lia. }
  unfold double_lock_balance. rewrite Hqt. destruct (Z.leb_spec (rt_nr_running (crt s src)) 1) as [Hone|Hmany].
  { exfalso. rewrite (ca_count _ _ _ (ao_cpu _ _ (smp_array Hi) src Hs)) in Hone.
    unfold too_much in Hm. apply andb_true_iff in Hm as [_ Hm]. apply Nat.ltb_lt in Hm. lia. }
  pose proof (pick_next_highest_spec qs s src (Some c) (smp_array Hi) Hs) as Hp.
  destruct (pick_next_highest_task_rt src (Some c) s) as [p|].
  2: { exists qs. split; [done|]. split; [|done]. left. intros p [Hq Hpk]. rewrite Hp in Hpk; done. }
  destruct Hp as (Hq & Hpick & Hbest).
  destruct (Z.ltb_spec (t_prio (stasks s p)) (highest_prio (crt s c))) as [Hlt|Hge].
  2: { exists qs. split; [done|]. split; [|done]. left. intros q [Hq' Hqp]. specialize (Hbest q Hq' Hqp). lia. }
  destruct (Z.ltb_spec (t_prio (stasks s p)) (t_prio (stasks s (cpu_curr s src)))) as [Hcur|Hcur].
  { exists qs. split; [done|]. split; [|done]. right. by exists p. }
  destruct (move_to p src c qs s Hi) as (qs2 & I2 & P2 & M2); [by apply pick_to|].
  pose proof (mv_frame _ _ _ _ _ _ _ M2) as F. set (s2 := move_task src p c s) in *.
  exists qs2. split; [exact I2|]. split; [|by exists p]. left. intros q [Hq' Hqp].
  assert (q <> p) as Hqne.
  { intros ->. apply Hne. apply (runq_unique qs2 s2 c src p); [apply I2|apply P2|by apply queued_runq]. }
  apply (queued_moved _ _ _ _ _ _ _ _ _ Hi M2 Hqne) in Hq'.
  rewrite (ts_prio _ _ (vf_task _ _ _ F q)). transitivity (t_prio (stasks s p)).
  - destruct (highest_least qs2 s2 c (smp_array I2) Hc) as [Hl _].
    assert (queued qs2 c p) as Hpq by (eapply moved_queued; [apply Hi|exact M2|done]).
    specialize (Hl p Hpq). by rewrite (ts_prio _ _ (vf_task _ _ _ F p)) in Hl.
  - apply Hbest; [done|]. revert Hqp. unfold pick_rt_task, task_running, tsk_cpus_allowed, nr_cpus_allowed.
    by rewrite (tk_on_cpu _ _ (vf_thread _ _ _ F q)), (ts_allowed _ _ (vf_task _ _ _ F q)), (ts_nr _ _ (vf_task _ _ _ F q)).
Qed.

(** What pulling a task from [src] to [c] leaves of the other runqueues. *)
Section pulled.
Context (p src c : nat) (qs qs' : nat -> Z -> list nat) (s s' : smp)
  (Hi : smp_inv qs s) (Hi' : smp_inv qs' s') (Hm : moved p src c qs qs' s s') (Hp : queued qs src p) (Hc : is_cpu c = true)
  (Hbest : t_prio (stasks s p) < highest_prio (crt s c)).

Lemma pulled_frame : move_frame p s s'.
Proof. apply Hm. Qed.

Lemma pulled_not x y : x <> c -> queued qs' x y -> y <> p.
Proof.
  intros Hx Hy ->. apply Hx. apply (runq_unique qs' s' x c p); [apply Hi'|by apply queued_runq|apply Hm].
Qed.

Lemma pulled_less x : is_cpu x = true -> x <> c -> too_much s' (qs' x) = true -> too_much s (qs x) = true.
Proof.
  intros Hx Hxc. pose proof pulled_frame as F.
  assert (forall y, migratory s' y = migratory s y) as Em.
  { intros y. unfold migratory, nr_cpus_allowed. by rewrite (ts_nr _ _ (vf_task _ _ _ F y)). }
  assert (forall y, y ∈ members (qs' x) -> y ∈ members (qs x)) as Hin.
  { intros y Hy%queued_members. apply queued_members. apply (queued_moved _ _ _ _ _ _ _ _ _ Hi Hm); [|done]. by apply (pulled_not x). }
  assert (NoDup (members (qs' x))) as Hn by apply (members_nodup (slinks s')), (smp_array Hi').
  assert (length (members (qs' x)) <= length (members (qs x)))%nat as L1 by by apply submseteq_length, NoDup_submseteq.
  assert (nr_mig s' (qs' x) <= nr_mig s (qs x))%nat as L2.
  { apply submseteq_length, NoDup_submseteq; [by apply NoDup_filter|]. intros y [Hy Hy']%list_elem_of_filter.
    apply list_elem_of_filter. rewrite <- Em. auto. }
  unfold too_much. rewrite !andb_true_iff, !Nat.ltb_lt. lia.
Qed.

Lemma pulled_mask x : is_cpu x = true -> x <> c -> cpumask_test_cpu x (my_rto_mask c s') = true -> rq_rd (cpus s c) <> None ->
  cpumask_test_cpu x (my_rto_mask c s) = true.
Proof.
  intros Hx Hxc. pose proof pulled_frame as F. unfold my_rto_mask. rewrite (ck_rd _ _ (vf_cpu _ _ _ F c)).
  destruct (rq_rd (cpus s c)) as [d|]; [|done]. intros Hb _. revert Hb.
  rewrite (ro_mask _ (ao_rd _ _ (smp_array Hi')) d x Hx), (ro_mask _ (ao_rd _ _ (smp_array Hi)) d x Hx). unfold over_in.
  rewrite (ck_rd _ _ (vf_cpu _ _ _ F x)), (ck_online _ _ (vf_cpu _ _ _ F x)), !andb_true_iff. intros [[? ?] Ho]. split; [done|].
  rewrite (ca_over _ _ _ (ao_cpu _ _ (smp_array Hi') x Hx)) in Ho. rewrite (ca_over _ _ _ (ao_cpu _ _ (smp_array Hi) x Hx)).
  destruct (too_much s' (qs' x)) eqn:E; [|done]. by rewrite (pulled_less x).
Qed.

Lemma pulled_high : highest_prio (crt s' c) < highest_prio (crt s c).
Proof.
  destruct (highest_least qs' s' c (smp_array Hi') Hc) as [Hl _].
  specialize (Hl p (moved_queued _ _ _ _ _ _ _ (si_machine _ _ Hi) Hm Hp)). rewrite (ts_prio _ _ (vf_task _ _ _ pulled_frame p)) in Hl. lia.
Qed.

Lemma pulled_drained x : x <> c -> x <> src -> drained qs s c x -> drained qs' s' c x.
Proof.
  intros Hxc Hxs. pose proof pulled_frame as F. pose proof pulled_high as Hh.
  assert (forall y, pickable qs' s' c x y <-> pickable qs s c x y) as E.
  { intros y. unfold pickable, pick_rt_task, task_running, tsk_cpus_allowed, nr_cpus_allowed.
    rewrite (tk_on_cpu _ _ (vf_thread _ _ _ F y)), (ts_allowed _ _ (vf_task _ _ _ F y)), (ts_nr _ _ (vf_task _ _ _ F y)).
    split; intros [Hq Hy]; (split; [|done]).
    - apply (queued_moved _ _ _ _ _ _ _ _ _ Hi Hm); [by eapply pulled_not|done].
    - apply (queued_moved _ _ _ _ _ _ _ _ _ Hi Hm); [|done]. intros ->. apply Hxs.
      apply (runq_unique qs s x src p); [apply Hi|by apply queued_runq|by apply queued_runq]. }
  intros [Hd|(y & Hy & Hlt)]; [left|right].
  - intros y Hy%E. rewrite (ts_prio _ _ (vf_task _ _ _ F y)). specialize (Hd y Hy). lia.
  - exists y. rewrite E, (move_curr _ _ _ x F), !(ts_prio _ _ (vf_task _ _ _ F _)). done.
Qed.
End pulled.

Lemma after_dec prev x : after prev x \/ ~ after prev x.
Proof. unfold after. destruct prev; [lia|auto]. Qed.

(** pull_rt_task() when the others are quiet *)
Lemma pull_loop_quiet n prev c ret qs s : quiet c -> smp_inv qs s -> is_cpu c = true -> rq_rd (cpus s c) <> None ->
  (nr_cpus <= n + match prev with None => 0 | Some x => S x end)%nat ->
  (forall x, is_cpu x = true -> x <> c -> ~ after prev x -> cpumask_test_cpu x (my_rto_mask c s) = true -> drained qs s c x) ->
  let r := pull_loop n prev c ret s in
  exists qs', smp_inv qs' r.2 /\
    (forall x, is_cpu x = true -> x <> c -> cpumask_test_cpu x (my_rto_mask c r.2) = true -> drained qs' r.2 c x) /\
    (r.1 = ret /\ r.2 = s \/ r.1 = true /\ highest_prio (crt r.2 c) < highest_prio (crt s c)).
Proof.
  revert prev ret qs s. induction n as [|n IH]; intros prev ret qs s Hqt Hi Hc Hrd Hf Hdr; cbn [pull_loop].
  - exists qs. split; [done|]. split; [|by left]. intros x Hx Hxc. apply Hdr; [done..|].
    destruct prev as [y|]; unfold nr_cpus, is_cpu, after in *; lia.
  - set (src := cpumask_next prev (my_rto_mask c s)).
    assert (forall x, is_cpu x = true -> after prev x -> cpumask_test_cpu x (my_rto_mask c s) = true -> (src <= x)%nat) as Hle by (intros; by apply next_least).
    pose proof (next_after prev (my_rto_mask c s)) as Haf. fold src in Haf.
    destruct (is_cpu src) eqn:Es; cbn [negb].
    2: { exists qs. split; [done|]. split; [|by left]. intros x Hx Hxc Hb. apply Hdr; [done..| |done].
         intros Ha. specialize (Hle x Hx Ha Hb). unfold is_cpu in *. lia. }
    assert (nr_cpus <= n + S src)%nat as Hf' by (destruct prev; cbn in Haf; lia).
    destruct (Nat.eqb_spec c src) as [Ec|Hne].
    + apply (IH (Some src) ret qs s); [done..|]. intros x Hx Hxc Hnx Hb. destruct (after_dec prev x) as [Ha|Ha]; [|by apply Hdr].
      specialize (Hle x Hx Ha Hb). cbn in Hnx. lia.
    + pose proof (next_in prev (my_rto_mask c s) Es) as Hbit. fold src in Hbit.
      pose proof (pull_from_quiet c src qs s Hqt Hi Hc Es Hne (marked_many _ _ _ _ Hi Es Hbit Hrd)) as Hp.
      destruct (pull_from c src s) as [b s1]. destruct Hp as (qs1 & I1 & D1 & Hb1). destruct b.
      * destruct Hb1 as (p & _ & Hm & Hq & Hlt). pose proof (mv_frame _ _ _ _ _ _ _ Hm) as F.
        assert (rq_rd (cpus s1 c) <> None) as Hrd1 by by rewrite (ck_rd _ _ (vf_cpu _ _ _ F c)).
        pose proof (pulled_high p src c qs qs1 s s1 Hi I1 Hm Hq Hc Hlt) as Hh.
        destruct (IH (Some src) (ret || true) qs1 s1 Hqt I1 Hc Hrd1 Hf') as (qs2 & I2 & D2 & R2).
        { intros x Hx Hxc Hnx Hb. apply (pulled_mask p src c qs qs1 s s1) in Hb; [|done..].
          destruct (decide (x = src)) as [->|Hxs]; [done|].
          apply (pulled_drained p src c qs qs1 s s1); [done..|]. apply Hdr; [done..| |done].
          intros Ha. specialize (Hle x Hx Ha Hb). cbn in Hnx. lia. }
        exists qs2. split; [done|]. split; [done|]. right. rewrite orb_true_r in *.
        destruct R2 as [[-> ->]|[-> Hlt2]]; (split; [done|lia]).
      * destruct Hb1 as [-> ->]. rewrite orb_false_r. apply (IH (Some src) ret qs s); [done..|].
        intros x Hx Hxc Hnx Hb. destruct (after_dec prev x) as [Ha|Ha]; [|by apply Hdr].
        specialize (Hle x Hx Ha Hb). cbn in Hnx. assert (x = src) as -> by lia. done.
Qed.

(** C5: While a processor pushes a real-time task, with whatever the other
    processors do when it drops the lock of its runqueue, none of the checks of
    pick_next_pushable_task() fires; the machine is consistent afterwards, and a
    push that reports success left the task on another processor which it may use
    and where it precedes every other real-time task, and did not take the
    running task. *)
Theorem push_rt_task_safe fuel c qs s : smp_inv qs s -> is_cpu c = true ->
  match push_rt_task fuel c s with
  | Bug => False
  | NoFuel => True
  | Ret (b, s') => exists qs', smp_inv qs' s' /\ (b = true -> exists task d, pushed task c d qs' s')
  end.
Proof. apply push_task_ok. Qed.

(** C13: push_rt_tasks() ends when the other processors are quiet, with a
    consistent machine: the loop runs at most once for every task that can be
    pushed. *)
Theorem push_rt_tasks_ends fuel c qs s : quiet c -> smp_inv qs s -> is_cpu c = true -> (to_push c s < fuel)%nat ->
  exists s' qs', push_rt_tasks fuel c s = Ret s' /\ smp_inv qs' s'.
Proof.
  intros Hq Hi Hc Hf. destruct fuel as [|n]; [lia|].
  destruct (push_loop_quiet (S n) n c qs s Hq Hi Hc Hf) as (s' & qs' & E & H & _). eauto.
Qed.

(** C8: pull_rt_task() takes all there is to take: when the other processors are
    quiet, no task that waits on an overloaded processor of the root domain and
    may run here is more important than the tasks of this processor, unless that
    processor is about to switch to a waiting task; it reports a pull exactly
    when this processor's best task became more important, and changes nothing
    otherwise. *)
Theorem pull_rt_task_best c qs s : quiet c -> smp_inv qs s -> is_cpu c = true -> c_true (rt_overloaded c s) = true ->
  let '(ret, s') := pull_rt_task c s in
  exists qs', smp_inv qs' s' /\
    (forall src, is_cpu src = true -> src <> c -> cpumask_test_cpu src (my_rto_mask c s') = true -> drained qs' s' c src) /\
    (if ret then highest_prio (crt s' c) < highest_prio (crt s c) else s' = s).
Proof.
  intros Hq Hi Hc Ho. unfold pull_rt_task. rewrite Ho. cbn [negb].
  assert (rq_rd (cpus s c) <> None) as Hrd by (intros E; unfold rt_overloaded in Ho; by rewrite E in Ho).
  pose proof (pull_loop_quiet nr_cpus None c false qs s Hq Hi Hc Hrd ltac:(cbn; lia)) as H.
  destruct (pull_loop nr_cpus None c false s) as [ret s']. destruct H as (qs' & H1 & H2 & H3); [by intros ? ? ? []|].
  exists qs'. split; [done|]. split; [done|]. cbn in H3. by destruct H3 as [[-> ->]|[-> ?]].
Qed.
End push.
