(* ===== verification/Migrate.v ===== *)
(** Migration on several processors: the SMP part of kernel/sched/core.c.

    Waking a task up chooses its processor (select_task_rq(),
    select_fallback_rq()) and may hand it to that processor's [wake_list];
    set_cpus_allowed_ptr() changes an affinity mask and has the migration thread
    move the task; a processor that goes down empties its runqueue
    (migrate_tasks()).  CONFIG_NO_HZ is on, __ARCH_WANT_INTERRUPTS_ON_CTXSW is
    not defined.  Where an operation waits, the other processors run. *)

From S2P Require Import Prelude KList Sched Affinity Smp RtSmp RtPush.

(** include/linux/sched.h, with CONFIG_SMP *)
Definition ENQUEUE_WAKING := 4.
Definition WF_MIGRATED := 4.
Definition TASK_WAKING := 256.
Definition LONG_MIN := 0x80000000.               (* as an unsigned long *)

(** The code that migration calls and the repository does not hold. *)
Class MigrateEnv `{SKTypes} `{SmpTypes} := {
  nohz_balance_kick : nat -> SExt -> bool;       (* NOHZ_BALANCE_KICK in nohz_flags() *)
  raise_softirq_sched : SExt -> SExt;            (* raise_softirq_irqoff(SCHED_SOFTIRQ) *)
  irq_enter : SExt -> SExt;
  irq_exit : smp -> smp;                         (* may run softirqs *)
  schedule_hrtimeout : smp -> smp;               (* the current task sleeps for a tick *)
  others_go : smp -> smp;                        (* the other processors run while this one waits *)
  unthrottle_offline_cfs_rqs : nat -> smp -> smp;
  update_max_interval : SExt -> SExt;
  set_cpu_active : nat -> bool -> smp -> smp;    (* kernel/cpu.c *)
  (* kernel/stop_machine.c: run the function on the processor and wait *)
  stop_one_cpu : nat -> (smp -> option smp) -> smp -> option smp }.

Section migrate.
Context {SK : SKTypes} {ST : SmpTypes} {CM : CpuMask} {CMS : CpuMasks} {SE : SmpEnv} {SC : SmpClasses} {ME : MigrateEnv}.

(** [fuel] bounds the loops of pushing, which task_woken_rt() enters. *)
Context (fuel : nat).
Definition class_of (k : sched_class) : smp_class :=
  match k with
  | stop_class => stop_smp
  | rt_class => rt_smp_class fuel
  | ras_class => ras_smp
  | fair_class => fair_smp
  | idle_class => idle_smp
  end.
(** for_each_class() *)
Definition classes : list sched_class := [stop_class; rt_class; ras_class; fair_class; idle_class].
Definition p_class (s : smp) (p : nat) : smp_class := class_of (t_class (stasks s p)).

(** ** Idle processors *)

(** idle_cpu() *)
Definition idle_cpu (c : nat) (s : smp) : bool :=
  if negb (rq_curr (crq s c) =? rq_idle (crq s c))%nat then false
  else if c_true (nr_running (crq s c)) then false
  else if negb (llist_empty (wake_list (cpus s c))) then false
  else true.

(** get_nohz_timer_target(): the nearest busy processor *)
Fixpoint timer_target (sds : list sched_domain) (s : smp) : option nat :=
  match sds with
  | [] => None
  | sd :: sds =>
      match for_each_cpu_find nr_cpus None (sd_span sd) (fun i => negb (idle_cpu i s)) with
      | Some i => Some i
      | None => timer_target sds s
      end
  end.
Definition get_nohz_timer_target (s : smp) : nat :=
  let cpu := this_cpu s in
  match timer_target (rq_sd (cpus s cpu)) s with Some i => i | None => cpu end.

(** wake_up_idle_cpu() *)
Definition wake_up_idle_cpu (c : nat) (s : smp) : smp :=
  if (c =? this_cpu s)%nat then s
  else if negb (rq_curr (crq s c) =? rq_idle (crq s c))%nat then s
  else
    let idle := rq_idle (crq s c) in
    let s := set_tsk_need_resched idle s in
    if negb (is_polling idle (sext s)) then s <| sext ::= send_reschedule c |> else s.

(** got_nohz_idle_kick() *)
Definition got_nohz_idle_kick (s : smp) : bool :=
  let cpu := this_cpu s in
  idle_cpu cpu s && nohz_balance_kick cpu (sext s).

(** task_curr(), kick_process() *)
Definition task_curr (p : nat) (s : smp) : bool := (cpu_curr s (task_cpu s p) =? p)%nat.
Definition kick_process (p : nat) (s : smp) : smp :=
  let cpu := task_cpu s p in
  if negb (cpu =? this_cpu s)%nat && task_curr p s then s <| sext ::= send_reschedule cpu |> else s.

(** wait_task_inactive(): one pass of the loop: a spin while the task runs, or a
    look at it with the lock of its runqueue, which may have to be waited for *)
Inductive wait_step := WaitDone (ncsw : Z) (s : smp) | WaitAgain (s : smp).
Definition wait_pass (p : nat) (match_state : Z) (s : smp) : wait_step :=
  if task_running s (task_cpu s p) p then
    if c_true match_state && negb (t_state (stasks s p) =? match_state) then WaitDone 0 s
    else WaitAgain (others_go s)
  else
    let s := others_go s in
    let running := task_running s (task_cpu s p) p in
    let on_rq := c_true (t_on_rq (stasks s p)) in
    let ncsw := if negb (c_true match_state) || (t_state (stasks s p) =? match_state)
                then Z.lor (t_nvcsw (stasks s p)) LONG_MIN else 0 in
    if negb (c_true ncsw) then WaitDone ncsw s
    else if running then WaitAgain (others_go s)
    else if on_rq then
      let me := cpu_curr s (this_cpu s) in
      let s := upd_stask me (fun t => t <| t_state := TASK_UNINTERRUPTIBLE |>) s in
      WaitAgain (schedule_hrtimeout s)
    else WaitDone ncsw s.
Fixpoint wait_task_inactive (n : nat) (p : nat) (match_state : Z) (s : smp) : outcome (Z * smp) :=
  match n with
  | O => NoFuel
  | S n =>
      match wait_pass p match_state s with
      | WaitDone ncsw s => Ret (ncsw, s)
      | WaitAgain s => wait_task_inactive n p match_state s
      end
  end.

(** ** Choosing a processor *)

(** do_set_cpus_allowed(); the outer [None] is a BUG_ON() of the class *)
Definition do_set_cpus_allowed (p : nat) (new_mask : Z) (s : smp) : option smp :=
  match (match sc_set_cpus_allowed (p_class s p) with
         | Some set_cpus_allowed => set_cpus_allowed p new_mask s
         | None => Some s
         end) with
  | None => None
  | Some s =>
      let s := upd_stask p (fun t => t <| t_cpus_allowed := new_mask |>) s in
      Some (upd_stask p (fun t => t <| t_rt ::= fun e => e <| rt_nr_cpus_allowed := cpumask_weight new_mask |> |>) s)
  end.

(** select_fallback_rq() *)
Inductive fallback_state := cpuset | possible | fail.
Definition usable (s : smp) (dest_cpu : nat) : bool := cpu_online s dest_cpu && cpu_active s dest_cpu.
Fixpoint fallback_loop (n : nat) (state : fallback_state) (p : nat) (s : smp) : option (nat * smp) :=
  match n with
  | O => None
  | S n =>
      match for_each_cpu_find nr_cpus None (tsk_cpus_allowed s p) (usable s) with
      | Some dest_cpu => Some (dest_cpu, s)
      | None =>
          match state with
          | cpuset => fallback_loop n possible p (cpuset_cpus_allowed_fallback p s)
          | possible =>
              match do_set_cpus_allowed p (possible_mask s) s with
              | None => None
              | Some s => fallback_loop n fail p s
              end
          | fail => None
          end
      end
  end.
(** Every state is entered once. *)
Definition select_fallback_rq (cpu p : nat) (s : smp) : option (nat * smp) :=
  match for_each_cpu_find nr_cpus None (node_mask cpu)
          (fun d => usable s d && cpumask_test_cpu d (tsk_cpus_allowed s p)) with
  | Some dest_cpu => Some (dest_cpu, s)
  | None => fallback_loop 3 cpuset p s
  end.

(** select_task_rq() *)
Definition select_task_rq (p : nat) (sd_flags wake_flags : Z) (s : smp) : option (nat * smp) :=
  let cpu := sc_select_task_rq (p_class s p) p sd_flags wake_flags s in
  if negb (cpumask_test_cpu cpu (tsk_cpus_allowed s p)) || negb (cpu_online s cpu)
  then select_fallback_rq (task_cpu s p) p s
  else Some (cpu, s).

(** update_avg() *)
Definition update_avg (avg sample : Z) : Z :=
  let diff := s64 (u64 (sample - avg)) in
  u64 (avg + Z.shiftr diff 3).

(** ** Waking up *)

(** check_preempt_curr() *)
Fixpoint preempt_loop (cs : list sched_class) (c p : nat) (s : smp) : smp :=
  match cs with
  | [] => s
  | k :: cs =>
      if bool_decide (k = t_class (stasks s (cpu_curr s c))) then s
      else if bool_decide (k = t_class (stasks s p)) then resched_task (cpu_curr s c) s
      else preempt_loop cs c p s
  end.
Definition check_preempt_curr (c p : nat) (flags : Z) (s : smp) : smp :=
  let curr := cpu_curr s c in
  let s := if bool_decide (t_class (stasks s p) = t_class (stasks s curr))
           then sc_check_preempt_curr (p_class s curr) c p flags s
           else preempt_loop classes c p s in
  if c_true (t_on_rq (stasks s (cpu_curr s c))) && need_resched (stasks s (cpu_curr s c))
  then upd_crq c (fun r => r <| skip_clock_update := 1 |>) s else s.

(** ttwu_stat(): the statistics of the executing processor, of its nearest domain
    with the task's new processor, and of the task *)
Fixpoint stat_remote (cpu : nat) (sds : list sched_domain) : list sched_domain :=
  match sds with
  | [] => []
  | sd :: sds =>
      if cpumask_test_cpu cpu (sd_span sd) then (sd <| ttwu_wake_remote ::= fun n => u32 (n + 1) |>) :: sds
      else sd :: stat_remote cpu sds
  end.
Definition upd_stats (p : nat) (f : sched_statistics -> sched_statistics) : smp -> smp :=
  upd_stask p (fun t => t <| t_se ::= fun e => e <| statistics ::= f |> |>).
Definition ttwu_stat (p cpu : nat) (wake_flags : Z) (s : smp) : smp :=
  let this := this_cpu s in
  let s :=
    if (cpu =? this)%nat then
      let s := upd_cpu this (fun r => r <| ttwu_local ::= fun n => u32 (n + 1) |>) s in
      upd_thread p (fun t => t <| nr_wakeups_local ::= fun n => u64 (n + 1) |>) s
    else
      let s := upd_thread p (fun t => t <| nr_wakeups_remote ::= fun n => u64 (n + 1) |>) s in
      upd_cpu this (fun r => r <| rq_sd ::= stat_remote cpu |>) s in
  let s := if has_flag wake_flags WF_MIGRATED
           then upd_thread p (fun t => t <| nr_wakeups_migrate ::= fun n => u64 (n + 1) |>) s else s in
  let s := upd_crq this (fun r => r <| ttwu_count ::= fun n => u32 (n + 1) |>) s in
  let s := upd_stats p (fun st => st <| nr_wakeups ::= fun n => u64 (n + 1) |>) s in
  if has_flag wake_flags WF_SYNC
  then upd_stats p (fun st => st <| nr_wakeups_sync ::= fun n => u64 (n + 1) |>) s else s.

(** ttwu_activate(), ttwu_do_wakeup(), ttwu_do_activate(), ttwu_remote() *)
Definition ttwu_activate (c p : nat) (en_flags : Z) (s : smp) : smp :=
  let s := activate_task c p en_flags s in
  let s := upd_stask p (fun t => t <| t_on_rq := 1 |>) s in
  if has_flag (t_flags (stasks s p)) PF_WQ_WORKER then s <| sext ::= worker_waking_up p c |> else s.
Definition idle_stat (c : nat) (s : smp) : smp :=
  if c_true (idle_stamp (cpus s c)) then
    let delta := u64 (clock (crq s c) - idle_stamp (cpus s c)) in
    let max := u32 (2 * migration_cost) in
    let s := if max <? delta then upd_cpu c (fun r => r <| avg_idle := max |>) s
             else upd_cpu c (fun r => r <| avg_idle ::= fun a => update_avg a delta |>) s in
    upd_cpu c (fun r => r <| idle_stamp := 0 |>) s
  else s.
Definition ttwu_do_wakeup (c p : nat) (wake_flags : Z) (s : smp) : outcome smp :=
  let s := check_preempt_curr c p wake_flags s in
  let s := upd_stask p (fun t => t <| t_state := TASK_RUNNING |>) s in
  match (match sc_task_woken (p_class s p) with Some task_woken => task_woken c p s | None => Ret s end) with
  | Ret s => Ret (idle_stat c s)
  | stop => stop
  end.
Definition ttwu_do_activate (c p : nat) (wake_flags : Z) (s : smp) : outcome smp :=
  let s := if c_true (sched_contributes_to_load (sthread s p))
           then upd_crq c (fun r => r <| nr_uninterruptible ::= fun n => u32 (n - 1) |>) s else s in
  let s := ttwu_activate c p (Z.lor ENQUEUE_WAKEUP ENQUEUE_WAKING) s in
  ttwu_do_wakeup c p wake_flags s.
Definition ttwu_remote (p : nat) (wake_flags : Z) (s : smp) : outcome (bool * smp) :=
  if c_true (t_on_rq (stasks s p)) then
    match ttwu_do_wakeup (task_cpu s p) p wake_flags s with
    | Bug => Bug
    | NoFuel => NoFuel
    | Ret s => Ret (true, s)
    end
  else Ret (false, s).

(** sched_ttwu_pending(): the tasks other processors handed to this one *)
Fixpoint pending_loop (l : list nat) (c : nat) (s : smp) : outcome smp :=
  match l with
  | [] => Ret s
  | p :: l =>
      match ttwu_do_activate c p 0 s with
      | Ret s => pending_loop l c s
      | stop => stop
      end
  end.
Definition sched_ttwu_pending (s : smp) : outcome smp :=
  let c := this_cpu s in
  let '(l, rest) := llist_del_all (wake_list (cpus s c)) in
  let s := upd_cpu c (fun r => r <| wake_list := rest |>) s in
  pending_loop l c s.

(** scheduler_ipi() *)
Definition scheduler_ipi (s : smp) : outcome smp :=
  let c := this_cpu s in
  if llist_empty (wake_list (cpus s c)) && negb (got_nohz_idle_kick s) then Ret s
  else
    let s := s <| sext ::= irq_enter |> in
    match sched_ttwu_pending s with
    | Ret s =>
        let s := if got_nohz_idle_kick s && negb (need_resched (stasks s (cpu_curr s c)))
                 then (upd_cpu c (fun r => r <| idle_balance := 1 |>) s) <| sext ::= raise_softirq_sched |>
                 else s in
        Ret (irq_exit s)
    | stop => stop
    end.

(** ttwu_queue_remote(), cpus_share_cache(), ttwu_queue(); the call of
    sched_clock_cpu() there only synchronises clocks *)
Definition ttwu_queue_remote (p cpu : nat) (s : smp) : smp :=
  let '(was_empty, l) := llist_add p (wake_list (cpus s cpu)) in
  let s := upd_cpu cpu (fun r => r <| wake_list := l |>) s in
  if was_empty then s <| sext ::= send_reschedule cpu |> else s.
Definition cpus_share_cache (this_cpu that_cpu : nat) (s : smp) : bool := (sd_llc_id s this_cpu =? sd_llc_id s that_cpu)%nat.
Definition ttwu_queue (p cpu : nat) (s : smp) : outcome smp :=
  if feat_ttwu_queue s && negb (cpus_share_cache (this_cpu s) cpu s)
  then Ret (ttwu_queue_remote p cpu s)
  else ttwu_do_activate cpu p 0 s.

(** try_to_wake_up(); the wait for a task that is still being switched out spins
    at most [n] times *)
Fixpoint wait_on_cpu (n : nat) (p : nat) (s : smp) : outcome smp :=
  match n with
  | O => NoFuel
  | S n => if c_true (on_cpu (sthread s p)) then wait_on_cpu n p (others_go s) else Ret s
  end.
(** From the end of that wait on: the processor is chosen and the task queued. *)
Definition wake_migrate (p : nat) (wake_flags : Z) (s : smp) : outcome smp :=
  let load := of_bool (task_contributes_to_load (stasks s p)) in
  let s := upd_thread p (fun t => t <| sched_contributes_to_load := load |>) s in
  let s := upd_stask p (fun t => t <| t_state := TASK_WAKING |>) s in
  let s := match sc_task_waking (p_class s p) with Some task_waking => task_waking p s | None => s end in
  match select_task_rq p SD_BALANCE_WAKE wake_flags s with
  | None => Bug
  | Some (cpu, s) =>
      let '(wake_flags, s) :=
        if negb (task_cpu s p =? cpu)%nat then (Z.lor wake_flags WF_MIGRATED, set_task_cpu p cpu s)
        else (wake_flags, s) in
      match ttwu_queue p cpu s with
      | Ret s => Ret (ttwu_stat p cpu wake_flags s)
      | stop => stop
      end
  end.
Definition try_to_wake_up (n : nat) (p : nat) (state wake_flags : Z) (s : smp) : outcome (bool * smp) :=
  if negb (has_flag (t_state (stasks s p)) state) then Ret (false, s)
  else
    let cpu := task_cpu s p in
    match ttwu_remote p wake_flags s with
    | Bug => Bug
    | NoFuel => NoFuel
    | Ret (true, s) => Ret (true, ttwu_stat p cpu wake_flags s)
    | Ret (false, s) =>
        match wait_on_cpu n p s with
        | Bug => Bug
        | NoFuel => NoFuel
        | Ret s =>
            match wake_migrate p wake_flags s with
            | Bug => Bug
            | NoFuel => NoFuel
            | Ret s => Ret (true, s)
            end
        end
    end.

(** pre_schedule(), post_schedule(): the stop, fair and idle classes have no such
    hooks, those of the RAS class are empty *)
Definition pre_schedule (c prev : nat) (s : smp) : smp :=
  match t_class (stasks s prev) with rt_class => pre_schedule_rt c prev s | _ => s end.
Definition post_schedule (c : nat) (s : smp) : outcome smp :=
  if c_true (post_schedule_flag (cpus s c)) then
    match (match t_class (stasks s (cpu_curr s c)) with
           | rt_class => post_schedule_rt fuel c s
           | _ => Ret s
           end) with
    | Ret s => Ret (upd_cpu c (fun r => r <| post_schedule_flag := 0 |>) s)
    | stop => stop
    end
  else Ret s.

(** ** Migration *)

(** __migrate_task(), migration_cpu_stop() *)
Definition __migrate_task (p src_cpu dest_cpu : nat) (s : smp) : bool * smp :=
  if negb (cpu_active s dest_cpu) then (false, s)
  else if negb (task_cpu s p =? src_cpu)%nat then (true, s)
  else if negb (cpumask_test_cpu dest_cpu (tsk_cpus_allowed s p)) then (false, s)
  else if c_true (t_on_rq (stasks s p)) then
    let s := dequeue_task src_cpu p 0 s in
    let s := set_task_cpu p dest_cpu s in
    let s := enqueue_task dest_cpu p 0 s in
    (true, check_preempt_curr dest_cpu p 0 s)
  else (true, s).
Definition migration_cpu_stop (task dest_cpu : nat) (s : smp) : smp :=
  (__migrate_task task (this_cpu s) dest_cpu s).2.

(** set_cpus_allowed_ptr() *)
Definition set_cpus_allowed_ptr (p : nat) (new_mask : Z) (s : smp) : option (Z * smp) :=
  if cpumask_equal (t_cpus_allowed (stasks s p)) new_mask then Some (0, s)
  else if negb (cpumask_intersects new_mask (active_mask s)) then Some (- EINVAL, s)
  else if thread_bound (sthread s p) && negb (p =? cpu_curr s (this_cpu s))%nat then Some (- EINVAL, s)
  else
    match do_set_cpus_allowed p new_mask s with
    | None => None
    | Some s =>
        if cpumask_test_cpu (task_cpu s p) new_mask then Some (0, s)
        else
          let dest_cpu := cpumask_any_and (active_mask s) new_mask in
          if c_true (t_on_rq (stasks s p)) then
            match stop_one_cpu (task_cpu s p) (fun s => Some (migration_cpu_stop p dest_cpu s)) s with
            | None => None
            | Some s => Some (0, s)
            end
          else Some (0, s)
    end.

(** sched_exec() *)
Definition sched_exec (s : smp) : option smp :=
  let p := cpu_curr s (this_cpu s) in
  let dest_cpu := sc_select_task_rq (p_class s p) p SD_BALANCE_EXEC 0 s in
  if (dest_cpu =? this_cpu s)%nat then Some s
  else if cpu_active s dest_cpu
  then stop_one_cpu (task_cpu s p) (fun s => Some (migration_cpu_stop p dest_cpu s)) s
  else Some s.

(** ** A processor goes down *)

(** migrate_nr_uninterruptible(), calc_global_load_remove() *)
Definition migrate_nr_uninterruptible (c : nat) (s : smp) : smp :=
  let dest := cpumask_any (active_mask s) in
  let n := nr_uninterruptible (crq s c) in
  let s := upd_crq dest (fun r => r <| nr_uninterruptible ::= fun m => u32 (m + n) |>) s in
  upd_crq c (fun r => r <| nr_uninterruptible := 0 |>) s.
Definition calc_global_load_remove (c : nat) (s : smp) : smp :=
  let n := calc_load_active (crq s c) in
  let s := s <| load_tasks ::= fun l => s32 (l - n) |> in
  upd_crq c (fun r => r <| calc_load_active := 0 |>) s.

(** pick_next_task(): [None] is the BUG() *)
Fixpoint pick_loop (cs : list sched_class) (c : nat) (s : smp) : option (nat * smp) :=
  match cs with
  | [] => None
  | k :: cs =>
      match sc_pick_next_task (class_of k) c s with
      | None => None
      | Some (Some p, s) => Some (p, s)
      | Some (None, s) => pick_loop cs c s
      end
  end.
Definition pick_next_task (c : nat) (s : smp) : option (nat * smp) :=
  if nr_running (crq s c) =? cfs_h_nr_running (crq s c) then
    match sc_pick_next_task fair_smp c s with
    | None => None
    | Some (Some p, s) => Some (p, s)
    | Some (None, s) => pick_loop classes c s
    end
  else pick_loop classes c s.

(** migrate_tasks(); [n] bounds its loop.  Nothing else runs meanwhile. *)
Fixpoint migrate_loop (n : nat) (dead_cpu : nat) (s : smp) : outcome smp :=
  match n with
  | O => NoFuel
  | S n =>
      if nr_running (crq s dead_cpu) =? 1 then Ret s
      else
        match pick_next_task dead_cpu s with
        | None => Bug
        | Some (next, s) =>
            let s := sc_put_prev_task (p_class s next) dead_cpu next s in
            match select_fallback_rq dead_cpu next s with
            | None => Bug
            | Some (dest_cpu, s) => migrate_loop n dead_cpu (__migrate_task next dead_cpu dest_cpu s).2
            end
        end
  end.
Definition migrate_tasks (n : nat) (dead_cpu : nat) (s : smp) : outcome smp :=
  let stop := rq_stop (crq s dead_cpu) in
  let s := upd_crq dead_cpu (fun r => r <| rq_stop := None |>) s in
  let s := unthrottle_offline_cfs_rqs dead_cpu s in
  match migrate_loop n dead_cpu s with
  | Ret s => Ret (upd_crq dead_cpu (fun r => r <| rq_stop := stop |>) s)
  | failed => failed
  end.

(** set_rq_online(), set_rq_offline() *)
Fixpoint online_loop (cs : list sched_class) (c : nat) (s : smp) : smp :=
  match cs with
  | [] => s
  | k :: cs =>
      online_loop cs c (match sc_rq_online (class_of k) with Some rq_online => rq_online c s | None => s end)
  end.
Definition set_rq_online (c : nat) (s : smp) : smp :=
  if negb (c_true (rq_online (cpus s c))) then
    let s := upd_my_rd c (fun d => d <| rd_online ::= cpumask_set_cpu c |>) s in
    let s := upd_cpu c (fun r => r <| rq_online := 1 |>) s in
    online_loop classes c s
  else s.
Fixpoint offline_loop (cs : list sched_class) (c : nat) (s : smp) : option smp :=
  match cs with
  | [] => Some s
  | k :: cs =>
      match (match sc_rq_offline (class_of k) with Some rq_offline => rq_offline c s | None => Some s end) with
      | None => None
      | Some s => offline_loop cs c s
      end
  end.
Definition set_rq_offline (c : nat) (s : smp) : option smp :=
  if c_true (rq_online (cpus s c)) then
    match offline_loop classes c s with
    | None => None
    | Some s =>
        let s := upd_my_rd c (fun d => d <| rd_online ::= cpumask_clear_cpu c |>) s in
        Some (upd_cpu c (fun r => r <| rq_online := 0 |>) s)
    end
  else Some s.

(** migration_call(); [CPU_TASKS_FROZEN] is masked off the action *)
Inductive cpu_action := CPU_UP_PREPARE | CPU_STARTING | CPU_ONLINE | CPU_DOWN_PREPARE | CPU_DOWN_FAILED | CPU_DYING | CPU_OTHER.
Definition NOTIFY_DONE := 0.
Definition NOTIFY_OK := 1.
Definition in_span (c : nat) (s : smp) : bool :=
  match rq_rd (cpus s c) with Some d => cpumask_test_cpu c (rd_span (rds s d)) | None => true end.
Definition migration_call (n : nat) (action : cpu_action) (cpu : nat) (s : smp) : outcome (Z * smp) :=
  match
    match action with
    | CPU_UP_PREPARE =>
        let load := load_update s in
        Ret (upd_crq cpu (fun r => r <| rq_calc_load_update := load |>) s)
    | CPU_ONLINE =>
        if negb (in_span cpu s) then Bug
        else Ret (match rq_rd (cpus s cpu) with Some _ => set_rq_online cpu s | None => s end)
    | CPU_DYING =>
        match sched_ttwu_pending s with
        | Ret s =>
            if negb (in_span cpu s) then Bug
            else
              match (match rq_rd (cpus s cpu) with Some _ => set_rq_offline cpu s | None => Some s end) with
              | None => Bug
              | Some s =>
                  match migrate_tasks n cpu s with
                  | Ret s =>
                      if negb (nr_running (crq s cpu) =? 1) then Bug
                      else Ret (calc_global_load_remove cpu (migrate_nr_uninterruptible cpu s))
                  | failed => failed
                  end
              end
        | failed => failed
        end
    | _ => Ret s
    end
  with
  | Bug => Bug
  | NoFuel => NoFuel
  | Ret s => Ret (NOTIFY_OK, s <| sext ::= update_max_interval |>)
  end.

(** sched_cpu_active(), sched_cpu_inactive() *)
Definition sched_cpu_active (action : cpu_action) (c : nat) (s : smp) : Z * smp :=
  match action with
  | CPU_STARTING | CPU_DOWN_FAILED => (NOTIFY_OK, set_cpu_active c true s)
  | _ => (NOTIFY_DONE, s)
  end.
Definition sched_cpu_inactive (action : cpu_action) (c : nat) (s : smp) : Z * smp :=
  match action with
  | CPU_DOWN_PREPARE => (NOTIFY_OK, set_cpu_active c false s)
  | _ => (NOTIFY_DONE, s)
  end.

(** ** Root domains *)

(** rq_attach_root(): with the root domain to free, if the runqueue was its last *)
Definition rq_attach_root (c d : nat) (s : smp) : option (option nat * smp) :=
  match
    match rq_rd (cpus s c) with
    | None => Some (None, s)
    | Some old =>
        match (if cpumask_test_cpu c (rd_online (rds s old)) then set_rq_offline c s else Some s) with
        | None => None
        | Some s =>
            let s := upd_rd old (fun r => r <| rd_span ::= cpumask_clear_cpu c |>) s in
            let s := upd_rd old (fun r => r <| refcount ::= fun n => s32 (n - 1) |>) s in
            Some (if c_true (refcount (rds s old)) then None else Some old, s)
        end
    end
  with
  | None => None
  | Some (old_rd, s) =>
      let s := upd_rd d (fun r => r <| refcount ::= fun n => s32 (n + 1) |>) s in
      let s := upd_cpu c (fun r => r <| rq_rd := Some d |>) s in
      let s := upd_rd d (fun r => r <| rd_span ::= cpumask_set_cpu c |>) s in
      let s := if cpumask_test_cpu c (active_mask s) then set_rq_online c s else s in
      Some (old_rd, s)
  end.

(** highest_flag_domain(), update_top_cache_domain() *)
Definition SD_SHARE_PKG_RESOURCES := 0x200.
Fixpoint highest_flag (sds : list sched_domain) (flag : Z) (hsd : option sched_domain) : option sched_domain :=
  match sds with
  | [] => hsd
  | sd :: sds => if negb (has_flag (sd_flags sd) flag) then hsd else highest_flag sds flag (Some sd)
  end.
Definition highest_flag_domain (c : nat) (flag : Z) (s : smp) : option sched_domain := highest_flag (rq_sd (cpus s c)) flag None.
Definition update_top_cache_domain (c : nat) (s : smp) : smp :=
  let id := match highest_flag_domain c SD_SHARE_PKG_RESOURCES s with
            | Some sd => cpumask_next None (sd_span sd)
            | None => c
            end in
  s <| sd_llc_id ::= fun m x => if (x =? c)%nat then id else m x |>.
End migrate.
