(* ===== verification/MigrateSpec.v ===== *)
(** Migration keeps the machine consistent. *)

From S2P Require Import Prelude KList Sched Ras Rt RtSpec RtBorrow Affinity AffinitySpec Smp RtSmp RtPush SmpSpec RtSmpSpec SmpMachine RtPushSpec Migrate.

(** ** requeue_task_rt() *)
Section requeue.
Context {SK : SKTypes} {ST : SmpTypes} {STL : SmpTypesLaws} {CM : CpuMask} {CMS : CpuMasks} {CML : CpuMasksLaws} {SE : SmpEnv}
  {SL : SmpEnvLaws} {NL : KListLaws snode}.
Implicit Types (s : smp) (c p d : nat) (qs : nat -> Z -> list nat).

(** The queues with [p] at one end of its own. *)
Definition qs_requeue c p i (head : bool) qs : nat -> Z -> list nat := upd_qs c (qs_add head i p (qs_del p (qs c))) qs.

Lemma requeue_members c p i head qs d : NoDup (members (qs c)) -> in_range i -> p ∈ qs c i ->
  members (qs_requeue c p i head qs d) ≡ₚ members (qs d).
Proof.
  intros Hn Hi Hp. unfold qs_requeue. destruct (decide (d = c)) as [->|Hd]; [|by rewrite upd_qs_ne].
  rewrite upd_qs_eq, members_add by done. rewrite members_without. symmetry. apply without_perm; [done|].
  apply elem_of_members. eauto.
Qed.

Lemma requeue_at c p i head qs d j : (forall j', in_range j' -> p ∈ qs c j' -> j' = i) -> in_range j ->
  qs_requeue c p i head qs d j = if bool_decide (d = c /\ j = i) then q_enqueue head p (without p (qs c i)) else qs d j.
Proof.
  intros Hu Hj. unfold qs_requeue, qs_add, qs_del. case_bool_decide as E.
  - destruct E as [-> ->]. by rewrite upd_qs_eq, Z.eqb_refl.
  - destruct (decide (d = c)) as [->|Hd]; [|by rewrite upd_qs_ne]. rewrite upd_qs_eq.
    destruct (Z.eqb_spec j i) as [->|Hne]; [tauto|]. apply without_not_in. intros Hx. apply Hne. by apply Hu.
Qed.

Lemma slinked_move (l : lh (A := snode)) qs c i p (head : bool) : slinked l qs -> in_range i -> p ∈ qs c i ->
  slinked ((if head then list_move else list_move_tail) (STask p) (rt_queue c i) l) (qs_requeue c p i head qs).
Proof.
  intros Hl Hi Hp. set (l' := _ l).
  assert (STask p ∈ view l (rt_queue c i)) as Hv by (rewrite (sl_view _ _ Hl) by done; by apply elem_of_stasks).
  assert (forall j', in_range j' -> p ∈ qs c j' -> j' = i) as Hu by (intros j' Hj' Hx; by apply (sl_uniq _ _ Hl p c j' c i)).
  assert (lh_ok l' /\ view l' (rt_queue c i) = STask <$> q_enqueue head p (without p (qs c i)) /\
          forall b, b ∉ STask p :: rt_queue c i :: view l (rt_queue c i) -> view l' b = without (STask p) (view l b)) as (Ho & Hh & Hf).
  { unfold l'. destruct head.
    - destruct (move_spec l (STask p) (rt_queue c i)) as (? & E & ?); [apply Hl|done|..].
      split; [done|]. split; [|done]. rewrite E, (sl_view _ _ Hl), without_stasks by done. done.
    - destruct (move_tail_spec l (STask p) (rt_queue c i)) as (? & E & ?); [apply Hl|done|..].
      split; [done|]. split; [|done]. rewrite E, (sl_view _ _ Hl), without_stasks by done. cbn. by rewrite fmap_app. }
  assert (forall d j q, in_range j -> q ∈ qs_requeue c p i head qs d j -> q ∈ qs d j) as Hin.
  { intros d j q Hj. rewrite requeue_at by done. case_bool_decide as E; [|done]. destruct E as [-> ->].
    destruct head; cbn; rewrite ?elem_of_app, ?elem_of_cons, ?elem_of_nil, elem_of_without; intros H; destruct_or?; subst; naive_solver. }
  assert (forall d x, queued qs d x -> queued (qs_requeue c p i head qs) d x) as Hq.
  { intros d x Hx%queued_members. apply queued_members. rewrite requeue_members; [done|by apply (members_nodup l)|done|done]. }
  split; [done| | |].
  - intros d j Hj. rewrite requeue_at by done. case_bool_decide as E; [by destruct E as [-> ->]|].
    rewrite Hf by (apply (sl_other l qs); [done..|destruct (decide (d = c)); [right|left]; tauto]).
    rewrite (sl_view _ _ Hl), without_stasks, without_not_in; [done| |done].
    intros Hx. apply E. by destruct (sl_uniq _ _ Hl p c i d j Hi Hj Hp Hx).
  - intros x Hx. assert (forall d, ~ queued qs d x) as Hq' by (intros d Hd; by apply (Hx d), Hq).
    rewrite Hf; [by rewrite (sl_out _ _ Hl)|]. apply (sl_other_task l qs); [done|done| |].
    + intros ->. apply (Hq' c). by exists i.
    + intros Hy. apply (Hq' c). by exists i.
  - intros x d1 j1 d2 j2 H1 H2 Ha%Hin Hb%Hin; [|done..]. by apply (sl_uniq _ _ Hl x).
Qed.

Lemma requeue_rt_ok qs s c p head : rt_inv qs s -> queued qs c p ->
  exists qs', rt_inv qs' (requeue_task_rt p head s) /\ (forall d, members (qs' d) ≡ₚ members (qs d)) /\
    requeue_task_rt p head s = s <| slinks := slinks (requeue_task_rt p head s) |>.
Proof.
  intros [Ha Hpu] Hq. destruct (ao_task _ _ Ha c p Hq) as (Hc & Hcpu & Hi & Hin & _). set (i := t_prio (stasks s p)) in *.
  exists (qs_requeue c p i head qs). unfold requeue_task_rt. rewrite (is_on_rt_rq qs s c p Ha Hq), Hcpu. fold i. cbv zeta.
  set (s' := if head then s <| slinks ::= list_move (STask p) (rt_queue c i) |> else s <| slinks ::= list_move_tail (STask p) (rt_queue c i) |>).
  assert (s' = s <| slinks := (if head then list_move else list_move_tail) (STask p) (rt_queue c i) (slinks s) |>) as E by (unfold s'; by destruct head).
  clearbody s'. subst s'. pose proof Ha as [H1 H2 H3 H4].
  assert (forall d, members (qs_requeue c p i head qs d) ≡ₚ members (qs d)) as Hm.
  { intros d. apply requeue_members; [by apply (members_nodup (slinks s))|done|done]. }
  assert (forall d x, queued (qs_requeue c p i head qs) d x <-> queued qs d x) as Hqs.
  { intros d x. by rewrite !queued_members, Hm. }
  assert (forall j', in_range j' -> p ∈ qs c j' -> j' = i) as Hu by (intros j' Hj' Hx; by apply (sl_uniq _ _ H1 p c j' c i)).
  split; [|by split]. split; [split|].
  - by apply slinked_move.
  - intros d x Hx%Hqs. destruct (H2 d x Hx) as (? & ? & Hr & Hxi & ?). split_and!; try done.
    cbn. rewrite requeue_at by done. case_bool_decide as E; [|done]. destruct E as [-> Ei]. rewrite Ei in Hxi.
    destruct head; cbn; rewrite ?elem_of_app, ?elem_of_cons, ?elem_of_nil, elem_of_without; destruct (decide (x = p)); auto.
  - intros d Hd. destruct (H3 d Hd) as [[B1 B2 B3] A2 A3 [A4 A5] A6].
    assert (nr_mig s (qs_requeue c p i head qs d) = nr_mig s (qs d)) as En by (unfold nr_mig; by rewrite Hm).
    split.
    + split; [done|done|]. intros j Hj. cbn. rewrite B3 by done. f_equal. apply bool_decide_ext.
      rewrite requeue_at by done. case_bool_decide as E; [|done]. destruct E as [-> ->].
      split; [intros E0; rewrite E0 in Hin; by apply elem_of_nil in Hin|]. destruct head; cbn; [done|]. by intros [_ ?]%app_eq_nil.
    + done.
    + by rewrite Hm.
    + split; [by rewrite Hm|]. etrans; [exact A5|]. f_equal. by symmetry.
    + etrans; [exact A6|]. f_equal. unfold too_much. rewrite Hm.
      assert (nr_mig (s <| slinks := (if head then list_move else list_move_tail) (STask p) (rt_queue c i) (slinks s) |>)
        (qs_requeue c p i head qs d) = nr_mig s (qs d)) as -> by exact En. done.
  - by apply (rd_ok_same s).
  - intros d Hd. apply (push_cpu_same (eligible qs s d) _ s); [|done..|by apply Hpu].
    intros x. unfold eligible. by rewrite Hqs.
Qed.
End requeue.

(** ** do_set_cpus_allowed() on a real-time task *)
Section allowed.
Context {SK : SKTypes} {ST : SmpTypes} {STL : SmpTypesLaws} {CM : CpuMask} {CMS : CpuMasks} {CML : CpuMasksLaws} {SE : SmpEnv}
  {SL : SmpEnvLaws} {NL : KListLaws snode} {SC : SmpClasses}.
Implicit Types (s : smp) (c p d : nat) (qs : nat -> Z -> list nat).

(** The writes of do_set_cpus_allowed() itself; they commute with the class's. *)
Definition put_mask p mask s : smp :=
  upd_stask p (fun t => t <| t_rt ::= fun e => e <| rt_nr_cpus_allowed := cpumask_weight mask |> |>)
    (upd_stask p (fun t => t <| t_cpus_allowed := mask |>) s).

Lemma put_mask_rts p mask c f s : put_mask p mask (upd_rts c f s) = upd_rts c f (put_mask p mask s).
Proof. done. Qed.
Lemma put_mask_prio p mask s x : t_prio (stasks (put_mask p mask s) x) = t_prio (stasks s x).
Proof. unfold put_mask, upd_stask. cbn. destruct (Nat.eqb_spec x p) as [->|]; [by rewrite Nat.eqb_refl|done]. Qed.
Lemma put_mask_nr p mask s x : nr_cpus_allowed (put_mask p mask s) x = if (x =? p)%nat then cpumask_weight mask else nr_cpus_allowed s x.
Proof. unfold nr_cpus_allowed, put_mask, upd_stask. cbn. destruct (Nat.eqb_spec x p) as [->|]; [by rewrite Nat.eqb_refl|done]. Qed.
(** The list operations with the priority read beforehand. *)
Lemma enqueue_pushable_eq c p s i : t_prio (stasks s p) = i ->
  enqueue_pushable_task c p s =
    let s1 := upd_rts c (fun r => r <| pushable_tasks ::= plist_add p i |>) (upd_rts c (fun r => r <| pushable_tasks ::= plist_del p |>) s) in
    if i <? highest_next (crts s1 c) then upd_rts c (fun r => r <| highest_next := i |>) s1 else s1.
Proof. by intros <-. Qed.
Lemma put_mask_enqueue p mask c s : put_mask p mask (enqueue_pushable_task c p s) = enqueue_pushable_task c p (put_mask p mask s).
Proof.
  rewrite (enqueue_pushable_eq c p _ (t_prio (stasks s p))) by done.
  rewrite (enqueue_pushable_eq c p _ (t_prio (stasks s p))) by apply put_mask_prio. cbv zeta. rewrite <- !put_mask_rts.
  set (s1 := upd_rts c _ (upd_rts c _ s)). change (crts (put_mask p mask s1) c) with (crts s1 c). by case_match.
Qed.
Lemma dequeue_pushable_eq c p s i : let s1 := upd_rts c (fun r => r <| pushable_tasks ::= plist_del p |>) s in
  t_prio (stasks s (plist_first (pushable_tasks (crts s1 c)))) = i ->
  dequeue_pushable_task c p s =
    if has_pushable_tasks c s1 then upd_rts c (fun r => r <| highest_next := i |>) s1
    else upd_rts c (fun r => r <| highest_next := MAX_RT_PRIO |>) s1.
Proof. by intros ? <-. Qed.
Lemma put_mask_dequeue p mask c s : put_mask p mask (dequeue_pushable_task c p s) = dequeue_pushable_task c p (put_mask p mask s).
Proof.
  set (s1 := upd_rts c (fun r => r <| pushable_tasks ::= plist_del p |>) s).
  set (i := t_prio (stasks s (plist_first (pushable_tasks (crts s1 c))))).
  rewrite (dequeue_pushable_eq c p s i) by done. rewrite (dequeue_pushable_eq c p (put_mask p mask s) i) by apply put_mask_prio.
  rewrite <- put_mask_rts. fold s1. change (has_pushable_tasks c (put_mask p mask s1)) with (has_pushable_tasks c s1). by case_match.
Qed.
Lemma put_mask_rd p mask c f s : put_mask p mask (upd_my_rd c f s) = upd_my_rd c f (put_mask p mask s).
Proof. unfold upd_my_rd. cbn. by case_match. Qed.
Lemma put_mask_migration p mask c s : put_mask p mask (update_rt_migration c s) = update_rt_migration c (put_mask p mask s).
Proof.
  unfold update_rt_migration, rt_set_overload, rt_clear_overload. cbv zeta.
  repeat (change (crts (put_mask p mask s) c) with (crts s c)). change (cpus (put_mask p mask s) c) with (cpus s c).
  rewrite <- !put_mask_rd. repeat case_match; by rewrite ?put_mask_rts, ?put_mask_rd.
Qed.

(** The list of the tasks to push, for the new mask. *)
Lemma push_again E s c p (was now : bool) : t_prio (stasks s p) < MAX_RT_PRIO -> push_cpu E s c -> (E p -> was = true) ->
  let s1 := if was then dequeue_pushable_task c p s else s in
  let s2 := if now then enqueue_pushable_task c p s1 else s1 in
  push_frame c s s2 /\ push_cpu (fun x => (E x /\ x <> p) \/ (x = p /\ now = true)) s2 c.
Proof.
  intros Hp HE Hw s1 s2. assert (push_frame c s s1 /\ push_cpu (fun x => E x /\ x <> p) s1 c) as [F1 P1].
  { unfold s1. destruct was; [split; [apply dequeue_pushable_frame|by apply dequeue_pushable_ok]|].
    split; [apply push_frame_refl|]. eapply push_cpu_iff; [|exact HE]. intros x. cbn. split; [tauto|].
    intros Hx. split; [done|]. intros ->. by apply Hw in Hx. }
  split.
  - eapply push_frame_trans; [exact F1|]. unfold s2. destruct now; [apply enqueue_pushable_frame|apply push_frame_refl].
  - apply push_maybe; [|exact P1]. by rewrite (qf_tasks _ _ _ F1).
Qed.

Lemma nr_mig_put p mask s q : NoDup (members q) -> p ∈ members q ->
  let w := 1 <? cpumask_weight mask in
  Z.of_nat (nr_mig (put_mask p mask s) q) = Z.of_nat (nr_mig s q) + of_bool w - of_bool (migratory s p) /\
  (migratory s p = true -> (0 < nr_mig s q)%nat).
Proof.
  intros Hn Hp w. unfold nr_mig. set (f := migratory s). set (g := migratory (put_mask p mask s)).
  assert (g p = w) as Eg by (unfold g, migratory; by rewrite put_mask_nr, Nat.eqb_refl).
  assert (forall x, x <> p -> g x = f x) as Eo by (intros x Hx; unfold g, f, migratory; by rewrite put_mask_nr, (proj2 (Nat.eqb_neq x p) Hx)).
  split.
  - change (migratory s p) with (f p). destruct (f p) eqn:Ef, w.
    + assert (filter (fun x => g x = true) (members q) = filter (fun x => f x = true) (members q)) as ->; [|cbn; lia].
      apply filter_same. intros x _. destruct (decide (x = p)) as [->|]; [congruence|by apply Eo].
    + rewrite (filter_flip g f (members q) p) by (done || intros; symmetry; by apply Eo). cbn. lia.
    + rewrite (filter_flip f g (members q) p) by done. cbn. lia.
    + assert (filter (fun x => g x = true) (members q) = filter (fun x => f x = true) (members q)) as ->; [|cbn; lia].
      apply filter_same. intros x _. destruct (decide (x = p)) as [->|]; [congruence|by apply Eo].
  - intros Hf. assert (p ∈ filter (fun x => f x = true) (members q)) as Hin by by apply list_elem_of_filter.
    destruct (filter _ _); [by apply elem_of_nil in Hin|cbn; lia].
Qed.

(** What does not depend on the mask of [p]. *)
Record mask_frame p mask c s s' : Prop := {
  ma_links : slinks s' = slinks s;
  ma_thread : sthread s' = sthread s;
  ma_crt : forall d, crt s' d = crt s d;
  ma_crts : forall d, d <> c -> crts s' d = crts s d;
  ma_crq : forall d, crq s' d = crq s d;
  ma_tasks : stasks s' = stasks (put_mask p mask s) }.

(** The invariant, rebuilt for the runqueue of [p]. *)
Lemma mask_inv qs s s' c p mask : rt_inv qs s -> queued qs c p -> mask_frame p mask c s s' ->
  counters (qs c) s' c -> overloaded (crts s' c) = of_bool (too_much s' (qs c)) -> rd_ok s' ->
  push_cpu (eligible qs s' c) s' c -> rt_inv qs s'.
Proof.
  intros [[H1 H2 H3 H4] Hpu] Hq [F1 F2 F3 F4 F5 F6] Hct Hov Hrd Hpc.
  assert (forall x, t_prio (stasks s' x) = t_prio (stasks s x)) as Ep by (intros x; rewrite F6; apply put_mask_prio).
  assert (forall x, x <> p -> nr_cpus_allowed s' x = nr_cpus_allowed s x) as En.
  { intros x Hx. unfold nr_cpus_allowed. rewrite F6. fold (nr_cpus_allowed (put_mask p mask s) x).
    by rewrite put_mask_nr, (proj2 (Nat.eqb_neq x p) Hx). }
  assert (forall d x, d <> c -> queued qs d x -> x <> p) as Hne.
  { intros d x Hd Hx ->. destruct Hq as (i & Hi & Hqi), Hx as (j & Hj & Hxj). by destruct (sl_uniq _ _ H1 p c i d j) as [<- _]. }
  split; [split|].
  - by rewrite F1.
  - intros d x Hx. destruct (H2 d x Hx) as (? & Hcpu & ? & ? & ?). unfold task_cpu. rewrite F2, Ep. split_and!; done.
  - intros d Hd. destruct (H3 d Hd) as [A1 A2 A3 A4 A5]. destruct (decide (d = c)) as [->|Hdc].
    + split; rewrite ?F3; done.
    + apply (cpu_array_same _ s); [|by rewrite F3|by apply F4|by apply H3].
      intros x Hx%queued_members. apply En. by eapply Hne.
  - done.
  - intros d Hd. destruct (decide (d = c)) as [->|Hdc]; [done|].
    apply (push_cpu_same (eligible qs s d) _ s s'); [|by intros; apply Ep|by rewrite F4..|by apply Hpu].
    intros x. unfold eligible, cpu_curr. rewrite F5. split; intros (Hx & Hcur & Hm); (split; [done|]; split; [done|]); revert Hm; unfold migratory;
      by rewrite En by by eapply Hne.
Qed.

Lemma put_mask_frame p mask c s : mask_frame p mask c s (put_mask p mask s).
Proof. by split. Qed.

Lemma over_in_mask c s s' : (forall d, rq_rd (cpus s' d) = rq_rd (cpus s d)) -> (forall d, rq_online (cpus s' d) = rq_online (cpus s d)) ->
  (forall d, overloaded (crts s' d) = overloaded (crts s d)) -> rds s' = rds s -> rd_ok s -> rd_ok s'.
Proof. intros H1 H2 H3 H4. apply (rd_ok_same s); [|by rewrite H4]. intros d x. by apply over_same. Qed.

(** Only the count of migratory tasks of [c] changes. *)
Record mig_only c s s' (v : nat) : Prop := {
  mo_step : step_frame c s s';
  mo_tasks : stasks s' = stasks s;
  mo_links : slinks s' = slinks s;
  mo_rq : forall d, crq s' d = crq s d;
  mo_rt : forall d, crt s' d = crt s d;
  mo_rds : rds s' = rds s;
  mo_other : forall d, d <> c -> crts s' d = crts s d;
  mo_total : rt_nr_total (crts s' c) = rt_nr_total (crts s c);
  mo_mig : rt_nr_migratory (crts s' c) = Z.of_nat v;
  mo_over : overloaded (crts s' c) = overloaded (crts s c);
  mo_push : pushable_tasks (crts s' c) = pushable_tasks (crts s c) /\ highest_next (crts s' c) = highest_next (crts s c) }.

Lemma mig_only_upd c f s v : f (rt_nr_migratory (crts s c)) = Z.of_nat v ->
  mig_only c s (upd_rts c (fun r => r <| rt_nr_migratory ::= f |>) s) v.
Proof.
  intros Hv. split; try done; [apply step_rts|..]; try (intros d); unfold crq, crt, crts, upd_rts, upd_cpu in *; cbn; rewrite ?Nat.eqb_refl; try done;
    try by destruct (Nat.eqb_spec d c) as [->|].
Qed.

Lemma adjust_migratory p mask c s sA (v : nat) :
  (migratory s p = true -> 0 < rt_nr_migratory (crts sA c)) -> 0 <= rt_nr_migratory (crts sA c) + of_bool (1 <? cpumask_weight mask) < 2 ^ 32 ->
  Z.of_nat v = rt_nr_migratory (crts sA c) + of_bool (1 <? cpumask_weight mask) - of_bool (migratory s p) ->
  let w := cpumask_weight mask in
  exists sB, (match (if (nr_cpus_allowed s p <=? 1) && (1 <? w) then Some (upd_rts c (fun r => r <| rt_nr_migratory ::= fun n => u32 (n + 1) |>) sA)
      else if (1 <? nr_cpus_allowed s p) && (w <=? 1)
           then if negb (c_true (rt_nr_migratory (crts sA c))) then None else Some (upd_rts c (fun r => r <| rt_nr_migratory ::= fun n => u32 (n - 1) |>) sA)
           else Some sA) with None => None | Some s => Some (update_rt_migration c s) end) = Some (update_rt_migration c sB) /\
    mig_only c (put_mask p mask sA) (put_mask p mask sB) v /\ sext sB = sext sA.
Proof.
  intros Hpos Hr Hv w. fold w in Hr, Hv. unfold migratory in *. set (n := rt_nr_migratory (crts sA c)) in *.
  assert (forall f, f n = Z.of_nat v -> mig_only c (put_mask p mask sA) (put_mask p mask (upd_rts c (fun r => r <| rt_nr_migratory ::= f |>) sA)) v) as Hf.
  { intros f E. rewrite put_mask_rts. by apply mig_only_upd. }
  destruct (Z.leb_spec (nr_cpus_allowed s p) 1), (Z.ltb_spec 1 (nr_cpus_allowed s p)); try lia; destruct (Z.leb_spec w 1), (Z.ltb_spec 1 w); try lia; cbn [andb]; cbn in Hv, Hr.
  - exists sA. split; [done|]. split; [|done]. split; try done. change (n = Z.of_nat v). lia.
  - eexists. split; [done|]. split; [|done]. apply Hf. rewrite u32_small; lia.
  - specialize (Hpos eq_refl). unfold c_true. rewrite (proj2 (Z.eqb_neq n 0)) by lia. cbn [negb].
    eexists. split; [done|]. split; [|done]. apply Hf. rewrite u32_small; lia.
  - exists sA. split; [done|]. split; [|done]. split; try done. change (n = Z.of_nat v). lia.
Qed.

Lemma array_rd_push c s s' : push_frame c s s' -> rd_ok s -> rd_ok s'.
Proof.
  intros F. apply (over_in_mask c).
  - intros d. apply (cb_rd _ _ _ (sf_cpu _ _ _ (qf_step _ _ _ F) d)).
  - intros d. apply (cb_online _ _ _ (sf_cpu _ _ _ (qf_step _ _ _ F) d)).
  - intros d. destruct (decide (d = c)) as [->|Hd]; [apply F|].
    destruct (sf_cpu _ _ _ (qf_step _ _ _ F) d) as [_ _ [?|Er] _ _ _ _]; [done|]. unfold crts. by rewrite Er.
  - apply F.
Qed.

(** A mask of the same weight *)
Lemma mask_same_weight qs s c p mask : rt_inv qs s -> queued qs c p -> cpumask_weight mask = nr_cpus_allowed s p ->
  rt_inv qs (put_mask p mask s).
Proof.
  intros Hinv Hq Ew. pose proof Hinv as [Ha Hpu]. destruct (ao_task _ _ Ha c p Hq) as (Hc & _).
  pose proof (ao_cpu _ _ Ha c Hc) as [_ _ _ [Etot Em] Eov]. set (s0 := put_mask p mask s).
  assert (forall x, nr_cpus_allowed s0 x = nr_cpus_allowed s x) as En.
  { intros x. unfold s0. rewrite put_mask_nr. by destruct (Nat.eqb_spec x p) as [->|]. }
  apply (mask_inv qs s s0 c p mask); [done|done|apply put_mask_frame|..].
  - split; [done|]. etrans; [exact Em|]. f_equal. symmetry. apply nr_mig_same. auto.
  - etrans; [exact Eov|]. f_equal. symmetry. apply too_much_same. auto.
  - by apply (over_in_mask c s), Ha.
  - apply (push_cpu_same (eligible qs s c) _ s s0); [|by intros; apply put_mask_prio|done|done|by apply Hpu].
    intros x. unfold eligible, migratory. by rewrite En.
Qed.

(** The task is taken off the list of those to push and put back as the new mask says. *)
Definition repush (c p : nat) (mask : Z) s : smp :=
  if negb (task_current s c p) then
    let s := if 1 <? nr_cpus_allowed s p then dequeue_pushable_task c p s else s in
    if 1 <? cpumask_weight mask then enqueue_pushable_task c p s else s
  else s.
Lemma repush_kept c p mask s : sext (repush c p mask s) = sext s /\ stasks (repush c p mask s) = stasks s.
Proof.
  unfold repush. case_match; [|done]. destruct (1 <? nr_cpus_allowed s p), (1 <? cpumask_weight mask);
    by rewrite ?enqueue_pushable_ext, ?dequeue_pushable_ext, ?(qf_tasks _ _ _ (enqueue_pushable_frame _ _ _)),
      ?(qf_tasks _ _ _ (dequeue_pushable_frame _ _ _)).
Qed.
Lemma repush_ok qs s c p mask : rt_inv qs s -> queued qs c p ->
  let s0 := put_mask p mask s in let s1 := put_mask p mask (repush c p mask s) in
  push_frame c s0 s1 /\ push_cpu (eligible qs s0 c) s1 c.
Proof.
  intros [Ha Hpu] Hq s0 s1. destruct (ao_task _ _ Ha c p Hq) as (Hc & _ & Hi & _).
  set (was := migratory s p). set (now := 1 <? cpumask_weight mask).
  assert (push_cpu (eligible qs s c) s0 c) as P0.
  { apply (push_cpu_same (eligible qs s c) _ s s0); [done|by intros; apply put_mask_prio|done|done|by apply Hpu]. }
  assert (forall x, migratory s0 x = if (x =? p)%nat then now else migratory s x) as Em.
  { intros x. unfold migratory, s0. rewrite put_mask_nr. by destruct (x =? p)%nat. }
  unfold s1, repush. destruct (task_current s c p) eqn:Ecur; cbn [negb]; unfold task_current in Ecur.
  - apply Nat.eqb_eq in Ecur. split; [apply push_frame_refl|]. eapply push_cpu_iff; [|exact P0].
    intros x. unfold eligible. rewrite Em. change (cpu_curr s0 c) with (cpu_curr s c).
    destruct (Nat.eqb_spec x p) as [->|]; [|done]. split; intros (_ & ? & _); congruence.
  - apply Nat.eqb_neq in Ecur. change (1 <? nr_cpus_allowed s p) with was. fold now.
    destruct (push_again (eligible qs s c) s0 c p was now) as [F P].
    { unfold s0. rewrite put_mask_prio. unfold in_range in Hi. lia. } { exact P0. } { by intros (_ & _ & ?). }
    assert (put_mask p mask (let s1 := if was then dequeue_pushable_task c p s else s in if now then enqueue_pushable_task c p s1 else s1) =
      let s1 := if was then dequeue_pushable_task c p s0 else s0 in if now then enqueue_pushable_task c p s1 else s1) as E1.
    { unfold s0. destruct was, now; by rewrite ?put_mask_enqueue, ?put_mask_dequeue. }
    cbv zeta in E1, F, P |- *. rewrite E1. split; [exact F|]. eapply push_cpu_iff; [|exact P]. intros x. unfold eligible. rewrite Em.
    change (cpu_curr s0 c) with (cpu_curr s c). destruct (Nat.eqb_spec x p) as [->|]; tauto.
Qed.

(** update_rt_migration() after the list and the count follow the new mask *)
Lemma mask_counts qs s c p mask s1 s2 : rt_inv qs s -> queued qs c p ->
  let s0 := put_mask p mask s in push_frame c s0 s1 -> push_cpu (eligible qs s0 c) s1 c ->
  mig_only c s1 s2 (nr_mig s0 (qs c)) ->
  let s3 := update_rt_migration c s2 in rt_inv qs s3 /\ mask_frame p mask c s s3 /\ step_frame c s0 s3.
Proof.
  intros Hinv Hq s0 F1 P1 [G1 G2 G3 G4 G5 G6 G7 G8 G9 G10 [G11 G12]] s3. pose proof Hinv as [Ha _].
  destruct (ao_task _ _ Ha c p Hq) as (Hc & _). pose proof (ao_cpu _ _ Ha c Hc) as [_ _ _ [Etot _] Eov].
  assert (stasks s2 = stasks s0) as Et by (rewrite G2; apply F1).
  assert (nr_mig s2 (qs c) = nr_mig s0 (qs c)) as Enm by (apply nr_mig_same; intros; unfold nr_cpus_allowed; by rewrite Et).
  assert (rd_ok s2) as Hrd2.
  { apply (over_in_mask c s1); [intros d; apply (sf_cpu _ _ _ G1 d)|intros d; apply (sf_cpu _ _ _ G1 d)| |done|].
    - intros d. destruct (decide (d = c)) as [->|Hd]; [done|by rewrite G7].
    - apply (array_rd_push c s0 s1 F1). by apply (over_in_mask c s), Ha. }
  destruct (rt_migration_ok (qs c) c s2 (too_much s (qs c)) Hc Hrd2) as (R1 & R2 & [O1 O2 O3 O4 O5 O6 O7 O8 O9 O10 _]).
  { split; [by rewrite G8, (qf_total _ _ _ F1)|by rewrite G9, Enm]. }
  { rewrite G10, (qf_over _ _ _ F1). exact Eov. }
  fold s3 in R1, R2, O1, O2, O3, O4, O5, O6, O7, O8, O9, O10.
  assert (mask_frame p mask c s s3) as F3.
  { split.
    - by rewrite O3, G3, (qf_links _ _ _ F1).
    - rewrite (sf_thread _ _ _ O1), (sf_thread _ _ _ G1), (sf_thread _ _ _ (qf_step _ _ _ F1)). done.
    - intros d. by rewrite O5, G5, (qf_rt _ _ _ F1).
    - intros d Hd. rewrite O6, G7 by done. destruct (sf_cpu _ _ _ (qf_step _ _ _ F1) d) as [_ _ [?|Er] _ _ _ _]; [done|]. unfold crts. by rewrite Er.
    - intros d. by rewrite O4, G4, (qf_rq _ _ _ F1).
    - by rewrite O2, Et. }
  split; [|split; [exact F3|etrans; [apply F1|]; etrans; [exact G1|exact O1]]].
  apply (mask_inv qs s s3 c p mask); [done|done|done|..].
  - split; [by rewrite O7, G8, (qf_total _ _ _ F1)|]. rewrite O8, G9. f_equal. symmetry. rewrite <- Enm. apply nr_mig_same.
    intros. unfold nr_cpus_allowed. by rewrite O2.
  - rewrite R2. f_equal. symmetry. apply too_much_same. intros. unfold nr_cpus_allowed. by rewrite O2.
  - done.
  - apply (push_cpu_same (eligible qs s0 c) _ s1 s3); [..|exact P1].
    + intros x. unfold eligible, cpu_curr, migratory, nr_cpus_allowed. by rewrite O4, G4, (qf_rq _ _ _ F1), O2, Et.
    + intros x _. by rewrite O2, G2.
    + by rewrite O9, G11.
    + by rewrite O10, G12.
Qed.

Lemma set_allowed_rt_ok qs s c p mask : rt_inv qs s -> queued qs c p -> c_true (t_on_rq (stasks s p)) = true ->
  exists s1, set_cpus_allowed_rt p mask s = Some s1 /\ rt_inv qs (put_mask p mask s1) /\
    mask_frame p mask c s (put_mask p mask s1) /\ step_frame c (put_mask p mask s) (put_mask p mask s1) /\ sext s1 = sext s.
Proof.
  intros Hinv Hq Hon. pose proof Hinv as [Ha _]. destruct (ao_task _ _ Ha c p Hq) as (Hc & Hcpu & Hi & _ & _).
  assert (p ∈ members (qs c)) as Hpm by by apply queued_members.
  destruct (nr_mig_put p mask s (qs c)) as [Emig Hpos]; [by apply (members_nodup (slinks s)), Ha|done|].
  pose proof (ct_mig _ _ _ (ca_counters _ _ _ (ao_cpu _ _ Ha c Hc))) as Em.
  unfold set_cpus_allowed_rt, rt_task, rt_prio. unfold in_range in Hi. rewrite (proj2 (Z.ltb_lt _ _) (proj2 Hi)). cbn [negb].
  rewrite Hon. cbn [andb]. destruct (Z.eqb_spec (cpumask_weight mask) (nr_cpus_allowed s p)) as [Ew|Ew]; cbn [negb].
  { exists s. split; [done|]. split; [by apply (mask_same_weight qs s c)|]. split; [by apply put_mask_frame|done]. }
  rewrite Hcpu. fold (repush c p mask s). destruct (repush_ok qs s c p mask Hinv Hq) as [F1 P1]. destruct (repush_kept c p mask s) as [XA TA].
  set (sA := repush c p mask s) in *. clearbody sA. set (s0 := put_mask p mask s) in *.
  assert (rt_nr_migratory (crts sA c) = Z.of_nat (nr_mig s (qs c))) as EmA.
  { change (crts sA c) with (crts (put_mask p mask sA) c). by rewrite (qf_mig _ _ _ F1). }
  assert (nr_cpus_allowed sA p = nr_cpus_allowed s p) as EnA by (unfold nr_cpus_allowed; by rewrite TA).
  cbv zeta. rewrite EnA.
  destruct (adjust_migratory p mask c s sA (nr_mig s0 (qs c))) as (sB & EB & FB & XB).
  { intros Hw. rewrite EmA. specialize (Hpos Hw). lia. }
  { rewrite EmA. pose proof (nr_mig_length (qs c) s). pose proof (members_small qs s c Ha). destruct (1 <? cpumask_weight mask); cbn; lia. }
  { by rewrite Emig, <- EmA. }
  rewrite EB. exists (update_rt_migration c sB). split; [done|]. rewrite put_mask_migration.
  destruct (mask_counts qs s c p mask _ _ Hinv Hq F1 P1 FB) as (R1 & R2 & R3). split_and!; try done. by rewrite migration_ext, XB.
Qed.
End allowed.

(** What migration relies on of the stop, RAS, fair and idle classes: their other
    operations leave the queues alone, and they pick a task of their queue. *)
Definition not_rt (k : sched_class) : Prop := k <> rt_class.
Class OtherHooks `{OtherClasses} : Prop := {
  oh_preempt k c p f s : not_rt k ->
    calm s (sc_check_preempt_curr (smp_ops k) c p f s) /\ same_oq s (sc_check_preempt_curr (smp_ops k) c p f s);
  oh_put k c p s : not_rt k ->
    calm s (sc_put_prev_task (smp_ops k) c p s) /\ same_oq s (sc_put_prev_task (smp_ops k) c p s);
  oh_allowed k p m s : not_rt k ->
    exists s', (match sc_set_cpus_allowed (smp_ops k) with Some f => f p m s | None => Some s end) = Some s' /\ calm s s' /\ same_oq s s';
  oh_online k c s : not_rt k ->
    let s' := match sc_rq_online (smp_ops k) with Some f => f c s | None => s end in calm s s' /\ same_oq s s';
  oh_offline k c s : not_rt k ->
    exists s', (match sc_rq_offline (smp_ops k) with Some f => f c s | None => Some s end) = Some s' /\ calm s s' /\ same_oq s s';
  oh_woken k c p s : not_rt k ->
    exists s', (match sc_task_woken (smp_ops k) with Some f => f c p s | None => Ret s end) = Ret s' /\ calm s s' /\ same_oq s s';
  oh_waking k p s : not_rt k ->
    let s' := match sc_task_waking (smp_ops k) with Some f => f p s | None => s end in calm s s' /\ same_oq s s';
  (* the stop class picks rq->stop, the idle class rq->idle *)
  oh_stop c s : rq_stop (crq s c) = None -> sc_pick_next_task stop_smp c s = Some (None, s);
  oh_idle c s : exists s', sc_pick_next_task idle_smp c s = Some (Some (rq_idle (crq s c)), s') /\ calm s s' /\ same_oq s s';
  oh_pick k c s : k = ras_class \/ k = fair_class ->
    exists o s', sc_pick_next_task (smp_ops k) c s = Some (o, s') /\ calm s s' /\ same_oq s s' /\
      match o with Some p => p ∈ oq k (sext s) c | None => oq k (sext s) c = [] end;
  oh_worker k d p c e : oq k (worker_waking_up p c e) d = oq k e d }.

Section migrate.
Context {SK : SKTypes} {ST : SmpTypes} {STL : SmpTypesLaws} {CM : CpuMask} {CMS : CpuMasks} {CML : CpuMasksLaws} {SE : SmpEnv}
  {SL : SmpEnvLaws} {NL : KListLaws snode} {SC : SmpClasses} {OC : OtherClasses} {OH : OtherHooks} {ME : MigrateEnv}.
Implicit Types (s : smp) (c p d : nat) (qs : nat -> Z -> list nat).
Context (fuel : nat).

Lemma class_of_other k : not_rt k -> class_of fuel k = smp_ops k.
Proof. destruct k; done. Qed.
Lemma other_not_rt k : other_class k -> not_rt k.
Proof. unfold other_class, not_rt. naive_solver. Qed.

(** *** do_set_cpus_allowed() *)
Record allowed_frame p mask s s' : Prop := {
  af_task : forall q, task_same (stasks (put_mask p mask s) q) (stasks s' q);
  af_thread : sthread s' = sthread s;
  af_cpu : forall d, cpu_kept (cpus s d) (cpus s' d);
  af_nr : forall d, nr_running (crq s' d) = nr_running (crq s d);
  af_oq : same_oq s s';
  af_masks : online_mask s' = online_mask s /\ active_mask s' = active_mask s /\ possible_mask s' = possible_mask s;
  af_this : this_cpu s' = this_cpu s }.

Lemma put_mask_task p mask s q : let t := stasks (put_mask p mask s) q in
  t_prio t = t_prio (stasks s q) /\ t_class t = t_class (stasks s q) /\ t_on_rq t = t_on_rq (stasks s q).
Proof. unfold put_mask, upd_stask. cbn. destruct (Nat.eqb_spec q p) as [->|]; [by rewrite Nat.eqb_refl|done]. Qed.

Lemma allowed_task p mask s s' q : allowed_frame p mask s s' ->
  t_prio (stasks s' q) = t_prio (stasks s q) /\ t_class (stasks s' q) = t_class (stasks s q) /\ t_on_rq (stasks s' q) = t_on_rq (stasks s q).
Proof.
  intros F. destruct (af_task _ _ _ _ F q) as [H1 H2 _ _ H3 _ _ _]. rewrite H1, H2, H3. apply put_mask_task.
Qed.
Lemma allowed_self p mask s s' : allowed_frame p mask s s' -> tsk_cpus_allowed s' p = mask /\ nr_cpus_allowed s' p = cpumask_weight mask.
Proof.
  intros F. destruct (af_task _ _ _ _ F p) as [_ _ H1 H2 _ _ _ _]. unfold tsk_cpus_allowed, nr_cpus_allowed. rewrite H1, H2.
  unfold put_mask, upd_stask. cbn. by rewrite !Nat.eqb_refl.
Qed.

Lemma step_kept c s s' : step_frame c s s' -> forall d, cpu_kept (cpus s d) (cpus s' d).
Proof. intros F. apply (vf_cpu 0), (step_move c), F. Qed.

Lemma allowed_smp qs p mask s s' : smp_inv qs s -> rt_inv qs s' -> allowed_frame p mask s s' -> smp_inv qs s'.
Proof.
  intros [[M1 M2 M3 M4 M5] H2 H3 H4] Hr F.
  assert (forall d, runq qs s' d = runq qs s d) as Er by (intros d; apply runq_oq, F).
  split; [split|..].
  - done.
  - intros c q Hq. destruct (allowed_task _ _ _ _ q F) as (_ & -> & _). by apply (M2 c).
  - intros k c q Hk. rewrite (af_oq _ _ _ _ F k c). intros Hq. destruct (allowed_task _ _ _ _ q F) as (_ & -> & _).
    unfold task_cpu. rewrite (af_thread _ _ _ _ F). by apply M3.
  - intros k c Hk. rewrite (af_oq _ _ _ _ F k c). by apply M4.
  - intros c Hc. rewrite (af_nr _ _ _ _ F), Er. by apply M5.
  - intros q. destruct (allowed_task _ _ _ _ q F) as (_ & _ & ->). rewrite H2. by setoid_rewrite Er.
  - intros c Hc. unfold cpu_curr, crq. rewrite (ck_curr _ _ (af_cpu _ _ _ _ F c)), (af_thread _ _ _ _ F). by apply H3.
  - by rewrite (af_this _ _ _ _ F).
Qed.

(** A task that is on no real-time queue *)
Lemma put_mask_absent qs p mask s : rt_inv qs s -> absent qs p -> rt_inv qs (put_mask p mask s).
Proof.
  intros [[H1 H2 H3 H4] Hpu] Hab. set (s' := put_mask p mask s).
  assert (forall d x, queued qs d x -> nr_cpus_allowed s' x = nr_cpus_allowed s x) as En.
  { intros d x Hx. unfold s'. rewrite put_mask_nr. destruct (Nat.eqb_spec x p) as [->|]; [by destruct (Hab d)|done]. }
  split; [split|].
  - done.
  - intros d x Hx. unfold s'. rewrite put_mask_prio. by apply H2.
  - intros d Hd. apply (cpu_array_same _ s); [|done|done|by apply H3]. intros x Hx%queued_members. by eapply En.
  - by apply (over_in_mask 0 s).
  - intros d Hd. apply (push_cpu_same (eligible qs s d) _ s s'); [|by intros; apply put_mask_prio|done|done|by apply Hpu].
    intros x. unfold eligible. split; intros (Hx & Hcur & Hm); (split; [done|]; split; [done|]); revert Hm; unfold migratory; by rewrite (En d).
Qed.

Definition class_prio s p : Prop := t_class (stasks s p) = rt_class -> rt_task s p = true.

Lemma do_set_ok qs s p mask : smp_inv qs s -> class_prio s p ->
  exists s', do_set_cpus_allowed fuel p mask s = Some s' /\ smp_inv qs s' /\ allowed_frame p mask s s'.
Proof.
  intros Hi Hp. unfold do_set_cpus_allowed, p_class. destruct (decide (t_class (stasks s p) = rt_class)) as [Hk|Hk].
  - rewrite Hk. cbn [class_of rt_smp_class sc_set_cpus_allowed]. specialize (Hp Hk).
    destruct (c_true (t_on_rq (stasks s p))) eqn:Eon.
    + pose proof (on_rq_here qs s p Hi Eon) as Hr. apply elem_of_runq in Hr as [Hq|(k & Hk' & Hq)].
      2: { destruct (mi_other _ _ (si_machine _ _ Hi) _ _ _ Hk' Hq) as (_ & _ & E & _). rewrite Hk in E. rewrite <- E in Hk'. by destruct (rt_not_other Hk'). }
      destruct (set_allowed_rt_ok qs s (task_cpu s p) p mask (mi_rt _ _ (si_machine _ _ Hi)) Hq Eon) as (s1 & -> & Hr & F & Fs & X).
      exists (put_mask p mask s1). split; [done|].
      assert (allowed_frame p mask s (put_mask p mask s1)) as FA.
      { split.
        - apply Fs.
        - apply F.
        - apply (step_kept _ _ _ Fs).
        - intros d. by rewrite (ma_crq _ _ _ _ _ F).
        - intros k d. change (sext (put_mask p mask s1)) with (sext s1). by rewrite X.
        - split_and!; apply Fs.
        - apply Fs. }
      split; [|done]. by apply (allowed_smp qs p mask s).
    + exists (put_mask p mask s). split; [by unfold set_cpus_allowed_rt; rewrite Hp, Eon|].
      assert (allowed_frame p mask s (put_mask p mask s)) as FA by by split. split; [|done].
      apply (allowed_smp qs p mask s); [done| |done]. apply put_mask_absent; [apply Hi|].
      intros d Hd. assert (c_true (t_on_rq (stasks s p)) = true); [|congruence]. apply (runq_on_rq qs s d); [done|by apply queued_runq].
  - rewrite (class_of_other _ Hk). destruct (oh_allowed _ p mask s Hk) as (s1 & -> & C1 & O1).
    exists (put_mask p mask s1). split; [done|].
    assert (allowed_frame p mask s (put_mask p mask s1)) as FA.
    { split; try done.
      - intros q. destruct (cm_task _ _ C1 q) as []. unfold put_mask, upd_stask. cbn.
        destruct (Nat.eqb_spec q p) as [->|]; [rewrite Nat.eqb_refl|]; by split.
      - apply C1.
      - intros d. exact (step_kept 0 s s1 (step_calm 0 _ _ C1) d).
      - intros d. apply (cm_cpu _ _ C1 d).
      - split_and!; apply C1.
      - apply C1. }
    split; [|done]. apply (allowed_smp qs p mask s); [done| |done]. apply put_mask_absent; [by apply (rt_inv_calm qs s), Hi|].
    intros d Hd. apply Hk. by apply (mi_class _ _ (si_machine _ _ Hi) d).
Qed.

Lemma allowed_trans p m1 m2 s s1 s2 : allowed_frame p m1 s s1 -> allowed_frame p m2 s1 s2 -> allowed_frame p m2 s s2.
Proof.
  intros [A1 A2 A3 A4 A5 (A6 & A7 & A8) A9] [B1 B2 B3 B4 B5 (B6 & B7 & B8) B9]. split; try congruence.
  - intros q. etrans; [|apply B1]. specialize (A1 q). revert A1. unfold put_mask, upd_stask. cbn.
    destruct (Nat.eqb_spec q p) as [->|]; [rewrite Nat.eqb_refl|]; intros []; by split.
  - intros d. etrans; [apply A3|apply B3].
  - split_and!; congruence.
Qed.

(** *** select_fallback_rq() *)
Lemma find_cpu_loop n prev mask f : (nr_cpus <= n + match prev with None => 0 | Some x => S x end)%nat ->
  match for_each_cpu_find n prev mask f with
  | Some c => is_cpu c = true /\ cpumask_test_cpu c mask = true /\ f c = true
  | None => forall c, is_cpu c = true -> after prev c -> cpumask_test_cpu c mask = true -> f c = false
  end.
Proof.
  revert prev. induction n as [|n IH]; intros prev Hn; cbn [for_each_cpu_find].
  - intros c Hc Ha _. exfalso. apply Z.ltb_lt in Hc. unfold nr_cpus, is_cpu, after in *. destruct prev; cbn in Hn; cbn in *; lia.
  - set (d := cpumask_next prev mask). pose proof (next_after prev mask) as Hd. fold d in Hd.
    assert (forall c, is_cpu c = true -> after prev c -> cpumask_test_cpu c mask = true -> (d <= c)%nat) as Hle by (intros; by apply next_least).
    destruct (is_cpu d) eqn:Ed; cbn [negb].
    2: { intros c Hc Ha Hm. specialize (Hle c Hc Ha Hm). exfalso. unfold is_cpu in *. lia. }
    destruct (f d) eqn:Ef; [split_and!; [done|by apply next_in|done]|].
    specialize (IH (Some d)). destruct (for_each_cpu_find n (Some d) mask f) as [c|]; [apply IH; destruct prev; cbn in Hd; lia|].
    intros c Hc Ha Hm. specialize (Hle c Hc Ha Hm). destruct (decide (c = d)) as [->|Hne]; [done|].
    apply IH; [destruct prev; cbn in Hd; lia|done|cbn; lia|done].
Qed.
Lemma find_cpu_spec mask f :
  match for_each_cpu_find nr_cpus None mask f with
  | Some c => is_cpu c = true /\ cpumask_test_cpu c mask = true /\ f c = true
  | None => forall c, is_cpu c = true -> cpumask_test_cpu c mask = true -> f c = false
  end.
Proof.
  pose proof (find_cpu_loop nr_cpus None mask f ltac:(cbn; lia)) as H. destruct (for_each_cpu_find _ _ _ _); [done|].
  intros c Hc. by apply H.
Qed.

(** cpuset_cpus_allowed_fallback() gives the task another mask. *)
Definition cpuset_keeps : Prop := forall qs p s, smp_inv qs s -> class_prio s p ->
  let s' := cpuset_cpus_allowed_fallback p s in smp_inv qs s' /\ exists mask, allowed_frame p mask s s'.

Lemma usable_same p mask s s' d : allowed_frame p mask s s' -> usable s' d = usable s d.
Proof. intros F. unfold usable, cpu_online, cpu_active. by destruct (af_masks _ _ _ _ F) as (-> & -> & _). Qed.
Lemma class_prio_same p mask s s' : allowed_frame p mask s s' -> class_prio s p -> class_prio s' p.
Proof. intros F. unfold class_prio, rt_task. by destruct (allowed_task _ _ _ _ p F) as (-> & -> & _). Qed.

(** Where [p] may be put. *)
Definition good_cpu s p d : Prop :=
  is_cpu d = true /\ usable s d = true /\ cpumask_test_cpu d (tsk_cpus_allowed s p) = true.

Lemma fallback_ok qs cpu p s : cpuset_keeps -> smp_inv qs s -> class_prio s p ->
  (exists d, is_cpu d = true /\ usable s d = true /\ cpumask_test_cpu d (possible_mask s) = true) ->
  exists d s', select_fallback_rq fuel cpu p s = Some (d, s') /\ smp_inv qs s' /\ good_cpu s' p d /\
    (s' = s \/ (exists mask, allowed_frame p mask s s') /\ forall x, ~ good_cpu s p x).
Proof.
  intros Hcs Hi Hp (u & Hu & Huse & Hpos). unfold select_fallback_rq.
  pose proof (find_cpu_spec (node_mask cpu) (fun d => usable s d && cpumask_test_cpu d (tsk_cpus_allowed s p))) as H.
  destruct (for_each_cpu_find _ _ (node_mask cpu) _) as [d|].
  { destruct H as (Hd & _ & [H1 H2]%andb_true_iff). exists d, s. split_and!; [done|done|done|by left]. }
  clear H. cbn [fallback_loop].
  pose proof (find_cpu_spec (tsk_cpus_allowed s p) (usable s)) as H. destruct (for_each_cpu_find _ _ _ _) as [d|].
  { exists d, s. destruct H as (? & ? & ?). split_and!; [done|done|done|by left]. }
  assert (forall x, ~ good_cpu s p x) as Hnone by (intros x (H1 & H2 & H3); rewrite H in H2; done). clear H.
  destruct (Hcs qs p s Hi Hp) as (I1 & m1 & F1). set (s1 := cpuset_cpus_allowed_fallback p s) in *.
  pose proof (find_cpu_spec (tsk_cpus_allowed s1 p) (usable s1)) as H. destruct (for_each_cpu_find _ _ _ _) as [d|].
  { exists d, s1. destruct H as (? & ? & ?). split_and!; [done|done|done|right; eauto]. }
  clear H. destruct (do_set_ok qs s1 p (possible_mask s1) I1 (class_prio_same _ _ _ _ F1 Hp)) as (s2 & -> & I2 & F2).
  pose proof (find_cpu_spec (tsk_cpus_allowed s2 p) (usable s2)) as H. destruct (for_each_cpu_find _ _ _ _) as [d|].
  { exists d, s2. destruct H as (? & ? & ?). split_and!; [done|done|done|]. right. split; [|done]. eexists. by eapply allowed_trans. }
  exfalso. destruct (allowed_self _ _ _ _ F2) as [Em _]. specialize (H u Hu). rewrite Em in H.
  destruct (af_masks _ _ _ _ F1) as (_ & _ & Epos). rewrite Epos in H. specialize (H Hpos).
  rewrite (usable_same _ _ _ _ u F2), (usable_same _ _ _ _ u F1), Huse in H. done.
Qed.

(** *** check_preempt_curr() *)
Record rearranged qs qs' s s' : Prop := {
  ra_inv : smp_inv qs' s';
  ra_placed : forall p, placed p s s';
  ra_runq : forall d x, x ∈ runq qs' s' d <-> x ∈ runq qs s d }.

Lemma rearranged_calm qs s s' : smp_inv qs s -> calm s s' -> same_oq s s' -> rearranged qs qs s s'.
Proof.
  intros Hi Hc Ho. split.
  - by eapply smp_calm.
  - intros p. by apply (step_placed 0), step_calm.
  - intros d x. by rewrite (runq_oq qs s s').
Qed.
Lemma rearranged_trans qs qs1 qs2 s s1 s2 : rearranged qs qs1 s s1 -> rearranged qs1 qs2 s1 s2 -> rearranged qs qs2 s s2.
Proof.
  intros [A1 A2 A3] [B1 B2 B3]. split; [done| |].
  - intros p. etrans; [apply A2|apply B2].
  - intros d x. by rewrite B3.
Qed.

Lemma requeue_smp qs s p head : smp_inv qs s -> exists qs', rearranged qs qs' s (requeue_task_rt p head s).
Proof.
  intros Hi. destruct (decide (queued qs (task_cpu s p) p)) as [Hq|Hq].
  - destruct (requeue_rt_ok qs s (task_cpu s p) p head (mi_rt _ _ (si_machine _ _ Hi)) Hq) as (qs' & Hr & Hm & E).
    exists qs'. assert (forall d x, queued qs' d x <-> queued qs d x) as Hqs by (intros d x; by rewrite !queued_members, Hm).
    set (s' := requeue_task_rt p head s) in *. clearbody s'. rewrite E in *. set (l := slinks s') in *. clearbody l. clear E s'.
    assert (forall d, runq qs' (s <| slinks := l |>) d ≡ₚ runq qs s d) as Hrun by (intros d; unfold runq; by rewrite Hm).
    destruct Hi as [[M1 M2 M3 M4 M5] H2 H3 H4]. split; try done.
    + split; [split|..]; try done.
      * intros d x Hx%Hqs. by apply (M2 d).
      * intros d Hd. rewrite Hrun. by apply M5.
      * intros x. setoid_rewrite Hrun. apply H2.
    + intros d x. by rewrite Hrun.
  - exists qs. assert (on_rt_rq p s = false) as E.
    { apply (off_rt_rq qs); [exact (smp_array Hi)|]. intros d Hd. apply Hq. by destruct (ao_task _ _ (smp_array Hi) d p Hd) as (_ & -> & _). }
    unfold requeue_task_rt. rewrite E. by apply rearranged_calm.
Qed.

Lemma rearranged_resched qs qs1 s s1 p : rearranged qs qs1 s s1 -> rearranged qs qs1 s (resched_task p s1).
Proof.
  intros H. eapply rearranged_trans; [exact H|]. apply rearranged_calm; [apply H|apply resched_calm|apply resched_oq].
Qed.

Lemma check_preempt_rt_ok c p f qs s : smp_inv qs s -> exists qs', rearranged qs qs' s (check_preempt_curr_rt c p f s).
Proof.
  intros Hi. assert (rearranged qs qs s s) as Hs by by apply rearranged_calm.
  unfold check_preempt_curr_rt, check_preempt_equal_prio. repeat case_match; try (by exists qs); try (exists qs; by apply rearranged_resched).
  destruct (requeue_smp qs s p true Hi) as [qs' Hr]. exists qs'. by apply rearranged_resched.
Qed.

Lemma preempt_loop_ok cs c p qs s : smp_inv qs s -> rearranged qs qs s (preempt_loop cs c p s).
Proof.
  intros Hi. assert (rearranged qs qs s s) as Hs by by apply rearranged_calm.
  induction cs as [|k cs IH]; cbn; [done|]. case_match; [done|]. case_match; [by apply rearranged_resched|done].
Qed.

Lemma check_preempt_ok c p f qs s : smp_inv qs s -> exists qs', rearranged qs qs' s (check_preempt_curr fuel c p f s).
Proof.
  intros Hi. unfold check_preempt_curr.
  assert (exists qs1, rearranged qs qs1 s (if bool_decide (t_class (stasks s p) = t_class (stasks s (cpu_curr s c)))
    then sc_check_preempt_curr (p_class fuel s (cpu_curr s c)) c p f s else preempt_loop classes c p s)) as [qs1 H1].
  { case_bool_decide; [|exists qs; by apply preempt_loop_ok]. unfold p_class.
    destruct (decide (t_class (stasks s (cpu_curr s c)) = rt_class)) as [->|Hk].
    - cbn [class_of rt_smp_class sc_check_preempt_curr]. by apply check_preempt_rt_ok.
    - rewrite (class_of_other _ Hk). exists qs. apply rearranged_calm; [done|by apply oh_preempt..]. }
  exists qs1. cbv zeta. set (s1 := if bool_decide _ then _ else _) in *. clearbody s1. case_match; [|done].
  eapply rearranged_trans; [exact H1|]. apply rearranged_calm; [apply H1|auto with calm|done].
Qed.

(** *** __migrate_task() *)
Record migrated p dest qs qs' s s' : Prop := {
  mg_inv : smp_inv qs' s';
  mg_frame : move_frame p s s';
  mg_cpu : task_cpu s' p = dest;
  mg_here : p ∈ runq qs' s' dest;
  mg_rest : forall x e, x <> p -> x ∈ runq qs' s' e <-> x ∈ runq qs s e }.

Lemma migrate_here qs s p src dest : smp_inv qs s -> is_cpu dest = true -> good_cpu s p dest -> p ∈ runq qs s src ->
  exists s', __migrate_task fuel p src dest s = (true, s') /\ exists qs', migrated p dest qs qs' s s'.
Proof.
  intros Hi Hd (_ & [_ Hact]%andb_true_iff & Hall) Hp. unfold __migrate_task. rewrite Hact. cbn [negb].
  destruct (runq_task _ _ _ _ (si_machine _ _ Hi) Hp) as (_ & Hcpu & _). rewrite Hcpu, Nat.eqb_refl, Hall. cbn [negb].
  rewrite (runq_on_rq qs s src p Hi Hp). eexists. split; [done|].
  destruct (requeue_task_ok qs s src p dest (si_machine _ _ Hi) Hp Hd) as [qs1 Hm].
  set (s1 := enqueue_task dest p 0 _) in *. pose proof (smp_moved _ _ _ _ _ _ _ Hm Hp Hi) as I1.
  destruct (check_preempt_ok dest p 0 qs1 s1 I1) as [qs2 [I2 P2 R2]]. exists qs2. split.
  - done.
  - etrans; [apply Hm|apply P2].
  - transitivity (task_cpu s1 p); [|exact (mv_cpu _ _ _ _ _ _ _ Hm)]. unfold task_cpu. by rewrite (pl_thread _ _ _ (P2 p)).
  - apply R2. exact (mv_here _ _ _ _ _ _ _ Hm).
  - intros x e Hx. rewrite R2. exact (mv_rest _ _ _ _ _ _ _ Hm x e Hx).
Qed.

Lemma migrate_absent p src dest s : (task_cpu s p <> src \/ c_true (t_on_rq (stasks s p)) = false) ->
  (__migrate_task fuel p src dest s).2 = s.
Proof.
  intros H. unfold __migrate_task. case_match; [done|]. destruct (Nat.eqb_spec (task_cpu s p) src) as [E|]; [|done]. cbn [negb].
  case_match; [done|]. destruct H as [?| ->]; done.
Qed.

Lemma migrate_task_inv p src dest qs s : smp_inv qs s -> is_cpu dest = true ->
  exists qs', smp_inv qs' (__migrate_task fuel p src dest s).2.
Proof.
  intros Hi Hd. unfold __migrate_task. destruct (cpu_active s dest) eqn:Ea; cbn [negb]; [|by exists qs].
  destruct (Nat.eqb_spec (task_cpu s p) src) as [E|]; cbn [negb]; [|by exists qs].
  destruct (cpumask_test_cpu dest (tsk_cpus_allowed s p)) eqn:Et; cbn [negb]; [|by exists qs].
  destruct (c_true (t_on_rq (stasks s p))) eqn:Eon; [|by exists qs].
  pose proof (on_rq_here qs s p Hi Eon) as Hp. rewrite E in Hp.
  destruct (requeue_task_ok qs s src p dest (si_machine _ _ Hi) Hp Hd) as [qs1 Hm].
  pose proof (smp_moved _ _ _ _ _ _ _ Hm Hp Hi) as I1.
  destruct (check_preempt_ok dest p 0 qs1 _ I1) as [qs2 [I2 _ _]]. by exists qs2.
Qed.

(** ** set_cpus_allowed_ptr() *)

(** stop_one_cpu() while nothing else happens: the function runs on the processor. *)
Definition stopper_runs : Prop := forall c f s,
  stop_one_cpu c f s =
  match f (s <| this_cpu := c |>) with Some s' => Some (s' <| this_cpu := this_cpu s |>) | None => None end.

Lemma smp_crq qs c f s : (forall r, rq_curr (f r) = rq_curr r /\ nr_running (f r) = nr_running r) -> smp_inv qs s -> smp_inv qs (upd_crq c f s).
Proof.
  intros Hf [[M1 M2 M3 M4 M5] H2 H3 H4].
  assert (forall d, cpu_curr (upd_crq c f s) d = cpu_curr s d /\ nr_running (crq (upd_crq c f s) d) = nr_running (crq s d)) as Hd.
  { intros d. unfold cpu_curr, crq, upd_crq, upd_cpu. cbn. destruct (Nat.eqb_spec d c) as [->|]; [|done]. cbn. apply Hf. }
  split; [split|..]; try done.
  - apply rt_inv_crq; [|done]. intros r. apply Hf.
  - intros d Hc. destruct (Hd d) as [_ ->]. by apply M5.
  - intros d Hc. destruct (Hd d) as [-> _]. by apply H3.
Qed.
Lemma smp_this qs s c : is_cpu c = true -> smp_inv qs s -> smp_inv qs (s <| this_cpu := c |>).
Proof.
  intros Hc [[[[A1 A2 A3 A4] A5] M2 M3 M4 M5] H2 H3 H4]. split; try done. split; try done. split; [split|]; try done.
  - intros d Hd. apply (cpu_array_same _ s); [done..|by apply A3].
  - by apply (rd_ok_same s).
  - intros d Hd. by apply (push_cpu_same (eligible qs s d) _ s); [..|apply A5].
Qed.

(** C7: set_cpus_allowed_ptr() on several processors: a mask equal to the task's
    changes nothing; a mask without an active processor, or a mask for a bound
    thread that is not the caller, is refused with -EINVAL and changes nothing;
    any other mask is installed, with its weight, no check of the real-time class
    fires, and once the migration thread has run a runnable task waits only on a
    processor of the new mask. *)
Theorem set_cpus_allowed_ptr_spec qs s p mask : stopper_runs -> smp_inv qs s -> class_prio s p -> is_cpu (task_cpu s p) = true ->
  (forall d, cpu_active s d = true -> cpu_online s d = true) ->
  match set_cpus_allowed_ptr fuel p mask s with
  | None => False
  | Some (r, s') =>
      if cpumask_equal (t_cpus_allowed (stasks s p)) mask then r = 0 /\ s' = s
      else if negb (cpumask_intersects mask (active_mask s)) ||
              (thread_bound (sthread s p) && negb (p =? cpu_curr s (this_cpu s))%nat) then r = - EINVAL /\ s' = s
      else r = 0 /\ exists qs', smp_inv qs' s' /\ tsk_cpus_allowed s' p = mask /\ nr_cpus_allowed s' p = cpumask_weight mask /\
        forall c, p ∈ runq qs' s' c -> cpumask_test_cpu c mask = true
  end.
Proof.
  intros Hst Hi Hp Hcpu Hao. unfold set_cpus_allowed_ptr. destruct (cpumask_equal _ _); [done|].
  destruct (cpumask_intersects mask (active_mask s)) eqn:Ei; cbn [negb orb]; [|done].
  destruct (thread_bound _ && _); [done|]. destruct (do_set_ok qs s p mask Hi Hp) as (s1 & -> & I1 & F1).
  destruct (allowed_self _ _ _ _ F1) as [E1 E2].
  destruct (cpumask_test_cpu (task_cpu s1 p) mask) eqn:Et.
  { split; [done|]. exists qs. split_and!; [done..|]. intros c Hc.
    by destruct (runq_task _ _ _ _ (si_machine _ _ I1) Hc) as (_ & <- & _). }
  destruct (c_true (t_on_rq (stasks s1 p))) eqn:Eon.
  2: { split; [done|]. exists qs. split_and!; [done..|]. intros c Hc. by rewrite (runq_on_rq qs s1 c) in Eon. }
  rewrite Hst. apply intersects_spec in Ei as (x & Hx & Hxm & Hxa). destruct (af_masks _ _ _ _ F1) as (Eo & Ea & _).
  set (dest := cpumask_any_and (active_mask s1) mask). assert (is_cpu dest = true) as Hd.
  { apply (any_and_none _ _ x); [done|by rewrite Ea|done]. }
  destruct (any_and_in _ _ Hd) as [Hda Hdm]. fold dest in Hda, Hdm. set (c := task_cpu s1 p) in *.
  assert (is_cpu c = true) as Hc by (unfold c, task_cpu; by rewrite (af_thread _ _ _ _ F1)).
  pose proof (smp_this qs s1 c Hc I1) as I2. set (s2 := s1 <| this_cpu := c |>) in *.
  destruct (migrate_here qs s2 p c dest I2 Hd) as (s3 & E3 & qs3 & M3).
  { split; [done|]. split; [|by rewrite <- E1 in Hdm]. unfold usable. apply andb_true_iff. split; [|done].
    unfold cpu_online, s2. cbn. rewrite Eo. apply Hao. unfold cpu_active. by rewrite <- Ea. }
  { by apply on_rq_here. }
  unfold migration_cpu_stop. change (this_cpu s2) with c. rewrite E3. cbn [snd]. pose proof (mg_frame _ _ _ _ _ _ M3) as F3.
  split; [done|]. exists qs3. split; [|split; [|split]].
  - apply smp_this; [|apply M3]. rewrite (af_this _ _ _ _ F1). apply Hi.
  - etrans; [|exact E1]. apply (vf_task _ _ _ F3 p).
  - etrans; [|exact E2]. apply (vf_task _ _ _ F3 p).
  - intros e He. assert (e = dest) as ->; [|done].
    apply (runq_unique qs3 s3 e dest p); [apply M3|exact He|apply M3].
Qed.
End migrate.
