(* ===== verification/HotplugSpec.v ===== *)
(** A processor goes down: migrate_tasks() empties its runqueue, unless its
    real-time runqueue is throttled, in which case it never ends. *)

From S2P Require Import Prelude KList Sched Ras Rt RtSpec RtBorrow Affinity AffinitySpec Smp RtSmp RtPush SmpSpec RtSmpSpec SmpMachine RtPushSpec Migrate MigrateSpec.

(** The throttled runqueues are the same. *)
Definition thr_same `{SKTypes} `{SmpTypes} (s s' : smp) : Prop := forall d, rt_throttled (crt s' d) = rt_throttled (crt s d).
#[export] Instance thr_same_pre `{SKTypes} `{SmpTypes} : PreOrder thr_same.
Proof. split; [by intros s d|]. intros x y z H1 H2 d. by rewrite H2. Qed.

(** The stop, RAS, fair and idle classes do not throttle the real-time class. *)
Class OtherThrottle `{OtherHooks} : Prop := {
  ot_enqueue k c p f s : other_class k -> thr_same s (sc_enqueue_task (smp_ops k) c p f s);
  ot_dequeue k c p f s : other_class k -> thr_same s (sc_dequeue_task (smp_ops k) c p f s);
  ot_preempt k c p f s : not_rt k -> thr_same s (sc_check_preempt_curr (smp_ops k) c p f s);
  ot_put k c p s : not_rt k -> thr_same s (sc_put_prev_task (smp_ops k) c p s);
  ot_allowed k p m s s' : not_rt k -> (match sc_set_cpus_allowed (smp_ops k) with Some f => f p m s | None => Some s end) = Some s' -> thr_same s s';
  ot_pick k c s o s' : not_rt k -> sc_pick_next_task (smp_ops k) c s = Some (o, s') -> thr_same s s';
  ot_cpuset p s : thr_same s (cpuset_cpus_allowed_fallback p s) }.

(** ** The real-time class throttles only what it runs *)
Section throttle.
Context {SK : SKTypes} {ST : SmpTypes} {CM : CpuMask} {CMS : CpuMasks} {SE : SmpEnv}.
Implicit Types (s : smp) (c p d : nat).

Lemma thr_crt c f s : (forall r, rt_throttled (f r) = rt_throttled r) -> thr_same s (upd_crt c f s).
Proof. intros Hf d. unfold crt, upd_crt, upd_cpu. cbn. destruct (Nat.eqb_spec d c) as [->|]; [apply Hf|done]. Qed.
Lemma thr_cpu c f s : (forall r, c_rt (f r) = c_rt r) -> thr_same s (upd_cpu c f s).
Proof. intros Hf d. unfold crt, upd_cpu. cbn. destruct (Nat.eqb_spec d c) as [->|]; [by rewrite Hf|done]. Qed.
Lemma thr_my_rd c f s : thr_same s (upd_my_rd c f s).
Proof. intros d. unfold upd_my_rd. by case_match. Qed.
Lemma thr_if (b : bool) s s1 s2 : thr_same s s1 -> thr_same s s2 -> thr_same s (if b then s1 else s2).
Proof. by destruct b. Qed.

Lemma thr_push c s s' : push_frame c s s' -> thr_same s s'.
Proof. intros F d. by rewrite (qf_rt _ _ _ F). Qed.
Lemma thr_migration c s : thr_same s (update_rt_migration c s).
Proof.
  unfold update_rt_migration, rt_set_overload, rt_clear_overload. cbv zeta.
  repeat case_match; try done; repeat (etrans; [|by apply thr_cpu]); repeat (etrans; [|apply thr_my_rd]); done.
Qed.
Lemma thr_inc_migration c p s : thr_same s (inc_rt_migration c p s).
Proof.
  unfold inc_rt_migration. cbv zeta. etrans; [|apply thr_migration].
  apply thr_if; [etrans; [|by apply thr_cpu]|]; by apply thr_cpu.
Qed.
Lemma thr_dec_migration c p s : thr_same s (dec_rt_migration c p s).
Proof.
  unfold dec_rt_migration. cbv zeta. etrans; [|apply thr_migration].
  apply thr_if; [etrans; [|by apply thr_cpu]|]; by apply thr_cpu.
Qed.
Lemma thr_inc_prio c i s : thr_same s (inc_rt_prio c i s).
Proof.
  unfold inc_rt_prio, inc_rt_prio_smp. cbv zeta. set (s1 := if _ <? _ then _ else s).
  assert (thr_same s s1) as H1 by (apply thr_if; [by apply thr_crt|done]). clearbody s1.
  etrans; [exact H1|]. apply thr_if; [apply thr_my_rd|done].
Qed.
Lemma thr_dec_prio c i s : thr_same s (dec_rt_prio c i s).
Proof.
  unfold dec_rt_prio, dec_rt_prio_smp. cbv zeta. set (s1 := if c_true (rt_nr_running _) then _ else _).
  assert (thr_same s s1) as H1.
  { apply thr_if; [apply thr_if; [by apply thr_crt|done]|by apply thr_crt]. }
  clearbody s1. etrans; [exact H1|]. apply thr_if; [apply thr_my_rd|done].
Qed.
Lemma thr_bandwidth s : thr_same s (start_rt_bandwidth s).
Proof. intros d. unfold start_rt_bandwidth. by repeat case_match. Qed.
Lemma thr_enqueue_entity head p s : thr_same s (__enqueue_rt_entity head p s).
Proof.
  unfold __enqueue_rt_entity, inc_rt_tasks, inc_rt_group. cbv zeta.
  etrans; [|apply thr_bandwidth]. etrans; [|apply thr_inc_migration]. etrans; [|apply thr_inc_prio].
  etrans; [|by apply thr_crt]. etrans; [|by apply thr_crt]. by destruct head.
Qed.
Lemma thr_dequeue_entity p s : thr_same s (__dequeue_rt_entity p s).
Proof.
  unfold __dequeue_rt_entity, dec_rt_tasks. cbv zeta.
  etrans; [|apply thr_dec_migration]. etrans; [|apply thr_dec_prio]. etrans; [|by apply thr_crt].
  set (s1 := s <| slinks ::= list_del_init (STask p) |>). assert (thr_same s s1) as H1 by done. clearbody s1.
  etrans; [exact H1|]. apply thr_if; [by apply thr_crt|done].
Qed.

(** enqueue_task_rt(), and dequeue_task_rt(), put_prev_task_rt() on a processor that
    does not run a real-time task *)
Lemma thr_enqueue_rt c p f s : thr_same s (enqueue_task_rt c p f s).
Proof.
  unfold enqueue_task_rt, enqueue_rt_entity, dequeue_rt_stack. cbv zeta.
  etrans; [|by apply thr_cpu]. set (s1 := if has_flag f ENQUEUE_WAKEUP then _ else s).
  assert (thr_same s s1) as H1 by (apply thr_if; done). clearbody s1. etrans; [exact H1|].
  set (s2 := if on_rt_rq p s1 then _ else s1). assert (thr_same s1 s2) as H2 by (apply thr_if; [apply thr_dequeue_entity|done]).
  clearbody s2. etrans; [exact H2|]. etrans; [apply (thr_enqueue_entity (has_flag f ENQUEUE_HEAD) p)|].
  apply thr_if; [apply (thr_push c), enqueue_pushable_frame|done].
Qed.

Lemma update_curr_other c s : t_class (stasks s (cpu_curr s c)) <> rt_class -> update_curr_rt c s = s.
Proof. intros H. unfold update_curr_rt. by rewrite bool_decide_false. Qed.

Lemma thr_dequeue_rt c p f s : t_class (stasks s (cpu_curr s c)) <> rt_class -> thr_same s (dequeue_task_rt c p f s).
Proof.
  intros H. unfold dequeue_task_rt, dequeue_rt_entity, dequeue_rt_stack. rewrite update_curr_other by done.
  etrans; [|by apply thr_cpu]. etrans; [|apply (thr_push c), dequeue_pushable_frame].
  apply thr_if; [apply thr_dequeue_entity|done].
Qed.
Lemma thr_resched p s : thr_same s (resched_task p s).
Proof. intros d. unfold resched_task. by repeat case_match. Qed.
Lemma thr_clock c s : thr_same s (update_rq_clock c s).
Proof. unfold update_rq_clock. case_match; [done|]. etrans; [|by apply thr_cpu]. by apply thr_cpu. Qed.
Lemma thr_set_cpu p c s : thr_same s (set_task_cpu p c s).
Proof. intros d. unfold set_task_cpu. by case_match. Qed.
Lemma thr_requeue p head s : thr_same s (requeue_task_rt p head s).
Proof. intros d. unfold requeue_task_rt. by repeat case_match. Qed.
Lemma thr_preempt_rt c p f s : thr_same s (check_preempt_curr_rt c p f s).
Proof.
  unfold check_preempt_curr_rt, check_preempt_equal_prio. repeat case_match; try done; try apply thr_resched.
  etrans; [|apply thr_resched]. apply thr_requeue.
Qed.
Lemma thr_set_allowed_rt p m s s' : set_cpus_allowed_rt p m s = Some s' -> thr_same s s'.
Proof.
  unfold set_cpus_allowed_rt. case_match; [done|]. case_match; [|by intros [= <-]]. cbv zeta.
  set (s1 := if negb (task_current _ _ _) then _ else s). assert (thr_same s s1) as T1.
  { unfold s1. case_match; [|done]. set (s0 := if 1 <? nr_cpus_allowed s p then _ else s).
    assert (thr_same s s0) as T0 by (apply thr_if; [apply (thr_push (task_cpu s p)), dequeue_pushable_frame|done]).
    clearbody s0. etrans; [exact T0|]. apply thr_if; [apply (thr_push (task_cpu s p)), enqueue_pushable_frame|done]. }
  clearbody s1. repeat case_match; try done; intros [= <-]; (etrans; [exact T1|]);
    (etrans; [|apply thr_migration]); simplify_eq; try done; by apply thr_cpu.
Qed.
End throttle.

Section hotplug.
Context {SK : SKTypes} {ST : SmpTypes} {STL : SmpTypesLaws} {CM : CpuMask} {CMS : CpuMasks} {CML : CpuMasksLaws} {SE : SmpEnv}
  {SL : SmpEnvLaws} {NL : KListLaws snode} {SC : SmpClasses} {OC : OtherClasses} {OH : OtherHooks} {OT : OtherThrottle} {ME : MigrateEnv}.
Implicit Types (s : smp) (c p d : nat) (qs : nat -> Z -> list nat).
Context (fuel : nat).

Lemma thr_do_set p m s s' : do_set_cpus_allowed fuel p m s = Some s' -> thr_same s s'.
Proof.
  unfold do_set_cpus_allowed, p_class. destruct (decide (t_class (stasks s p) = rt_class)) as [->|Hk].
  - cbn [class_of rt_smp_class sc_set_cpus_allowed]. destruct (set_cpus_allowed_rt p m s) as [s1|] eqn:E; [|done].
    intros [= <-]. etrans; [by eapply thr_set_allowed_rt|done].
  - rewrite (class_of_other fuel _ Hk). pose proof (fun s1 => ot_allowed _ p m s s1 Hk) as H. destruct (match sc_set_cpus_allowed _ with Some f => f p m s | None => Some s end) as [s1|] eqn:E; [|done].
    intros [= <-]. etrans; [by apply H|done].
Qed.
Lemma thr_fallback cpu p s d s' : select_fallback_rq fuel cpu p s = Some (d, s') -> thr_same s s'.
Proof.
  unfold select_fallback_rq. case_match; [by intros [= _ <-]|]. cbn [fallback_loop].
  case_match; [by intros [= _ <-]|]. case_match; [intros [= _ <-]; apply ot_cpuset|].
  set (s1 := cpuset_cpus_allowed_fallback p s). destruct (do_set_cpus_allowed fuel p (possible_mask s1) s1) as [s2|] eqn:E; [|done].
  case_match; [|done]. intros [= _ <-]. etrans; [apply ot_cpuset|]. by eapply thr_do_set.
Qed.
Lemma thr_preempt_loop cs c p s : thr_same s (preempt_loop cs c p s).
Proof. induction cs as [|k cs IH]; cbn; [done|]. case_match; [done|]. case_match; [apply thr_resched|done]. Qed.
Lemma thr_check_preempt c p f s : thr_same s (check_preempt_curr fuel c p f s).
Proof.
  unfold check_preempt_curr. cbv zeta. set (s1 := if bool_decide _ then _ else _).
  assert (thr_same s s1) as T1.
  { apply thr_if; [|apply thr_preempt_loop]. unfold p_class.
    destruct (decide (t_class (stasks s (cpu_curr s c)) = rt_class)) as [->|Hk]; [apply thr_preempt_rt|].
    rewrite (class_of_other fuel _ Hk). by apply ot_preempt. }
  clearbody s1. etrans; [exact T1|]. apply thr_if; [by apply thr_cpu|done].
Qed.
Lemma thr_enqueue c p f s : (t_class (stasks s p) = rt_class \/ other_class (t_class (stasks s p))) -> thr_same s (enqueue_task c p f s).
Proof.
  intros Hk. unfold enqueue_task. set (s1 := (update_rq_clock c s) <| sext ::= info_queued p |>).
  assert (thr_same s s1) as T1 by (unfold s1; etrans; [apply (thr_clock c)|done]).
  assert (t_class (stasks s1 p) = t_class (stasks s p)) as Ek by apply (cm_task _ _ (queue_clock_calm c (info_queued p) s) p).
  rewrite <- Ek in Hk.
  clearbody s1. etrans; [exact T1|]. clear Ek. destruct Hk as [->|Hk]; [apply thr_enqueue_rt|].
  assert (class_enqueue (t_class (stasks s1 p)) c p f s1 = sc_enqueue_task (smp_ops (t_class (stasks s1 p))) c p f s1) as -> by by destruct Hk as [->|[->| ->]].
  by apply ot_enqueue.
Qed.
Lemma thr_dequeue c p f s : (t_class (stasks s p) = rt_class \/ other_class (t_class (stasks s p))) ->
  t_class (stasks s (cpu_curr s c)) <> rt_class -> thr_same s (dequeue_task c p f s).
Proof.
  intros Hk Hcur. unfold dequeue_task. set (s1 := (update_rq_clock c s) <| sext ::= info_dequeued p |>).
  assert (thr_same s s1) as T1 by (unfold s1; etrans; [apply (thr_clock c)|done]).
  pose proof (queue_clock_calm c (info_dequeued p) s) as C1. change (calm s s1) in C1.
  assert (t_class (stasks s1 p) = t_class (stasks s p)) as Ek by apply (cm_task _ _ C1 p). rewrite <- Ek in Hk.
  assert (t_class (stasks s1 (cpu_curr s1 c)) <> rt_class) as Hcur1.
  { rewrite (ts_class _ _ (cm_task _ _ C1 _)). unfold cpu_curr, crq. by rewrite (rs_curr _ _ (cs_rq _ _ (cm_cpu _ _ C1 c))). }
  clearbody s1. etrans; [exact T1|]. clear Ek. destruct Hk as [->|Hk]; [by apply thr_dequeue_rt|].
  assert (class_dequeue (t_class (stasks s1 p)) c p f s1 = sc_dequeue_task (smp_ops (t_class (stasks s1 p))) c p f s1) as -> by by destruct Hk as [->|[->| ->]].
  by apply ot_dequeue.
Qed.

(** ** The throttled runqueue *)

(** Nothing but throttled real-time tasks, and the migration thread, is left. *)
Record stuck c s : Prop := {
  sk_cpu : is_cpu c = true;
  sk_nr : nr_running (crq s c) <> 1;
  sk_stop : rq_stop (crq s c) = None;
  sk_throttled : c_true (rt_throttled (crt s c)) = true;
  sk_ras : oq ras_class (sext s) c = [];
  sk_fair : oq fair_class (sext s) c = [];
  sk_idle : t_class (stasks s (rq_idle (crq s c))) = idle_class /\ c_true (t_on_rq (stasks s (rq_idle (crq s c)))) = false }.

Lemma stuck_kept c s s' : (forall q, t_class (stasks s' q) = t_class (stasks s q) /\ t_on_rq (stasks s' q) = t_on_rq (stasks s q)) ->
  cpu_kept (cpus s c) (cpus s' c) -> nr_running (crq s' c) = nr_running (crq s c) -> same_oq s s' -> thr_same s s' -> stuck c s -> stuck c s'.
Proof.
  intros Ht Hk Hn Ho Hth [H1 H2 H3 H4 H5 H6 [H7 H8]].
  assert (rq_idle (crq s' c) = rq_idle (crq s c)) as Ei by apply Hk.
  split; rewrite ?Ei; rewrite ?Hn, ?Hth, ?Ho; try done.
  - etrans; [apply (ck_stop _ _ Hk)|done].
  - destruct (Ht (rq_idle (crq s c))) as [-> ->]. done.
Qed.
Lemma stuck_calm c s s' : calm s s' -> same_oq s s' -> thr_same s s' -> stuck c s -> stuck c s'.
Proof.
  intros Hc. apply stuck_kept.
  - intros q. split; apply (cm_task _ _ Hc q).
  - apply (step_kept 0 s), step_calm, Hc.
  - apply (cm_cpu _ _ Hc c).
Qed.

(** A calm step that keeps queues and throttling. *)
Definition still s s' : Prop := calm s s' /\ same_oq s s' /\ thr_same s s'.
Lemma still_refl s : still s s.
Proof. by split. Qed.
Lemma still_trans s1 s2 s3 : still s1 s2 -> still s2 s3 -> still s1 s3.
Proof.
  intros (H1 & H2 & H3) (H4 & H5 & H6). split; [by etrans|]. split; [|by etrans]. intros k d. by rewrite H5.
Qed.
Lemma stuck_still c s s' : still s s' -> stuck c s -> stuck c s'.
Proof. intros (? & ? & ?). by apply stuck_calm. Qed.

Lemma pick_empty k c s : k = ras_class \/ k = fair_class -> oq k (sext s) c = [] ->
  exists s', sc_pick_next_task (smp_ops k) c s = Some (None, s') /\ still s s'.
Proof.
  intros Hk He. destruct (oh_pick k c s Hk) as (o & s' & E & C & O & Ho). destruct o as [p|]; [rewrite He in Ho; by apply elem_of_nil in Ho|].
  exists s'. split; [done|]. split; [done|]. split; [done|]. eapply ot_pick; [|exact E]. by destruct Hk as [->| ->].
Qed.

Lemma pick_throttled c s : stuck c s -> exists s', pick_next_task_rt c s = Some (None, s') /\ still s s'.
Proof.
  intros Hs. unfold pick_next_task_rt, _pick_next_task_rt, rt_rq_throttled. rewrite (sk_throttled _ _ Hs).
  destruct (negb (c_true (rt_nr_running (crt s c)))); cbv zeta; (eexists; split; [done|]; split; [auto with calm|split; [done|by apply thr_cpu]]).
Qed.

Lemma pick_stuck c s : stuck c s -> exists s', pick_loop fuel classes c s = Some (rq_idle (crq s c), s') /\ still s s'.
Proof.
  intros Hs. unfold classes. cbn [pick_loop class_of]. rewrite (oh_stop c s (sk_stop _ _ Hs)).
  change (sc_pick_next_task (rt_smp_class fuel)) with pick_next_task_rt. destruct (pick_throttled c s Hs) as (s1 & -> & S1).
  destruct (pick_empty ras_class c s1) as (s2 & E2 & S2); [by left|rewrite (proj1 (proj2 S1)); apply Hs|].
  change (smp_ops ras_class) with ras_smp in E2. rewrite E2.
  pose proof (still_trans _ _ _ S1 S2) as S12.
  destruct (pick_empty fair_class c s2) as (s3 & E3 & S3); [by right|rewrite (proj1 (proj2 S12)); apply Hs|].
  change (smp_ops fair_class) with fair_smp in E3. rewrite E3.
  pose proof (still_trans _ _ _ S12 S3) as S13.
  destruct (oh_idle c s3) as (s4 & E4 & C4 & O4). rewrite E4. exists s4. split.
  - do 2 f_equal. apply (rs_idle _ _ (cs_rq _ _ (cm_cpu _ _ (proj1 S13) c))).
  - apply (still_trans _ s3); [done|]. split; [done|]. split; [done|]. by apply (ot_pick idle_class c s3 _ _) in E4.
Qed.

(** A pass over the stuck runqueue: the idle task is picked, a processor is found
    for it, and the runqueue is as before. *)
Definition some_usable s : Prop := exists d, is_cpu d = true /\ usable s d = true /\ cpumask_test_cpu d (possible_mask s) = true.
Record same_queues c s s' : Prop := {
  sq_nr : nr_running (crq s' c) = nr_running (crq s c);
  sq_idle : rq_idle (crq s' c) = rq_idle (crq s c);
  sq_oq : same_oq s s' }.

Lemma pick_idle c s : stuck c s -> exists s1, pick_next_task fuel c s = Some (rq_idle (crq s c), s1) /\ still s s1.
Proof.
  intros Hs. unfold pick_next_task. case_match; [|by apply pick_stuck].
  destruct (pick_empty fair_class c s) as (s0 & E0 & S0); [by right|apply Hs|]. change (smp_ops fair_class) with fair_smp in E0. rewrite E0.
  destruct (pick_stuck c s0 (stuck_still _ _ _ S0 Hs)) as (s1 & E1 & S1). exists s1. split; [|by eapply still_trans].
  rewrite E1. do 2 f_equal. apply (rs_idle _ _ (cs_rq _ _ (cm_cpu _ _ (proj1 S0) c))).
Qed.

Lemma stuck_pass c qs s : cpuset_keeps -> smp_inv qs s -> stuck c s -> some_usable s ->
  exists s', (forall n, migrate_loop fuel (S n) c s = migrate_loop fuel n c s') /\
    smp_inv qs s' /\ stuck c s' /\ some_usable s' /\ same_queues c s s'.
Proof.
  intros Hcs Hi Hs Hu. cbn [migrate_loop]. rewrite (proj2 (Z.eqb_neq _ _) (sk_nr _ _ Hs)).
  destruct (pick_idle c s Hs) as (s1 & -> & S1).
  set (i := rq_idle (crq s c)). destruct (sk_idle _ _ Hs) as [Hk Hon]. fold i in Hk, Hon.
  assert (t_class (stasks s1 i) = idle_class) as Hk1 by (rewrite <- Hk; apply (cm_task _ _ (proj1 S1) i)).
  unfold p_class. rewrite Hk1. cbn [class_of]. change idle_smp with (smp_ops idle_class).
  assert (not_rt idle_class) as Hnr by done.
  assert (still s1 (sc_put_prev_task (smp_ops idle_class) c i s1)) as S2.
  { destruct (oh_put idle_class c i s1 Hnr). split; [done|]. split; [done|]. by apply ot_put. }
  set (s2 := sc_put_prev_task _ c i s1) in *. pose proof (still_trans _ _ _ S1 S2) as S. clearbody s2. clear S1 S2 Hk1.
  pose proof (stuck_still _ _ _ S Hs) as Hs2. destruct S as (C & O & T). pose proof (smp_calm _ _ _ C O Hi) as I2.
  assert (t_class (stasks s2 i) = idle_class /\ c_true (t_on_rq (stasks s2 i)) = false) as [Hk2 Hon2].
  { by rewrite (ts_class _ _ (cm_task _ _ C i)), (ts_on_rq _ _ (cm_task _ _ C i)). }
  destruct (fallback_ok fuel qs c i s2 Hcs I2) as (d & s3 & E3 & I3 & _ & F3).
  { intros E. congruence. }
  { destruct Hu as (d & ? & Hud & ?). exists d. unfold usable, cpu_online, cpu_active in *.
    by rewrite (cm_online _ _ C), (cm_active _ _ C), (cm_possible _ _ C). }
  rewrite E3. assert (c_true (t_on_rq (stasks s3 i)) = false) as Hon3.
  { destruct F3 as [->|[[m F3] _]]; [done|]. by destruct (allowed_task _ _ _ _ i F3) as (_ & _ & ->). }
  exists s3. split; [intros n; by rewrite (migrate_absent fuel i c d s3) by (right; exact Hon3)|].
  pose proof (rs_idle _ _ (cs_rq _ _ (cm_cpu _ _ C c))) as Ei. pose proof (rs_nr _ _ (cs_rq _ _ (cm_cpu _ _ C c))) as En.
  split; [done|]. destruct F3 as [->|[[m F3] Ho]].
  - split; [done|]. split; [|by split]. destruct Hu as (x & ? & Hux & ?). exists x. split; [done|].
    unfold usable, cpu_online, cpu_active in *. by rewrite (cm_online _ _ C), (cm_active _ _ C), (cm_possible _ _ C).
  - assert (cpu_kept (cpus s2 c) (cpus s3 c)) as K3 by apply F3.
    assert (nr_running (crq s3 c) = nr_running (crq s2 c)) as N3 by apply F3.
    assert (same_oq s2 s3) as O3 by apply F3. split; [|split].
    + revert Hs2. apply stuck_kept; [|done..|by eapply thr_fallback].
      intros q. by destruct (allowed_task _ _ _ _ q F3) as (_ & -> & ->).
    + destruct Hu as (x & ? & Hux & ?). exists x. split; [done|].
      destruct (af_masks _ _ _ _ F3) as (E1 & E2 & E4). unfold usable, cpu_online, cpu_active in *.
      by rewrite E1, E2, E4, (cm_online _ _ C), (cm_active _ _ C), (cm_possible _ _ C).
    + unfold crq in *. split; unfold crq; [congruence|rewrite <- Ei; apply K3|intros k x; by rewrite O3].
Qed.

Lemma stuck_passes k c qs s : cpuset_keeps -> smp_inv qs s -> stuck c s -> some_usable s ->
  exists s', (forall n, migrate_loop fuel (k + n) c s = migrate_loop fuel n c s') /\
    smp_inv qs s' /\ stuck c s' /\ same_queues c s s'.
Proof.
  intros Hcs. revert s. induction k as [|k IH]; intros s Hi Hs Hu; [by exists s|].
  destruct (stuck_pass c qs s Hcs Hi Hs Hu) as (s1 & E1 & I1 & S1 & U1 & [N1 D1 O1]).
  destruct (IH s1 I1 S1 U1) as (s' & E & I & S & [N D O]). exists s'. split; [intros n; cbn [Nat.add]; by rewrite E1|].
  split; [done|]. split; [done|]. split; [congruence|congruence|intros x d; by rewrite O].
Qed.

(** rq->stop is cleared while the loop runs. *)
Definition no_stop c s : smp := upd_crq c (fun r => r <| rq_stop := None |>) s.
Lemma no_stop_crq c s : crq (no_stop c s) c = (crq s c) <| rq_stop := None |>.
Proof. unfold no_stop, crq, upd_crq, upd_cpu. cbn. by rewrite Nat.eqb_refl. Qed.
Lemma no_stop_thr c s : thr_same s (no_stop c s).
Proof. by apply thr_cpu. Qed.

(** There is no CFS bandwidth control. *)
Definition no_cfs_bandwidth : Prop := forall c s, unthrottle_offline_cfs_rqs c s = s.

(** C14: When the real-time runqueue of the processor that goes down is throttled,
    and the Race-Averse and the fair class have no task there, while nr_running is
    not 1 (the throttled real-time tasks are counted), migrate_tasks() never ends,
    on a machine that keeps its invariant, has another processor to migrate to and
    no CFS bandwidth control, and whose cpusets do not change meanwhile.
    After any number of passes the next pass picks the idle task, which is not
    queued and is migrated in vain, and the runqueue is as it was: the same
    real-time queues, the same tasks in the other classes, the same nr_running. *)
Theorem migrate_tasks_throttled n c qs s : cpuset_keeps -> no_cfs_bandwidth -> smp_inv qs s -> is_cpu c = true ->
  nr_running (crq s c) <> 1 -> c_true (rt_throttled (crt s c)) = true ->
  oq ras_class (sext s) c = [] -> oq fair_class (sext s) c = [] ->
  t_class (stasks s (rq_idle (crq s c))) = idle_class -> c_true (t_on_rq (stasks s (rq_idle (crq s c)))) = false ->
  (exists d, is_cpu d = true /\ usable s d = true /\ cpumask_test_cpu d (possible_mask s) = true) ->
  migrate_tasks fuel n c s = NoFuel /\
  forall k, exists x x1, (forall m, migrate_loop fuel (k + m) c (no_stop c s) = migrate_loop fuel m c x) /\
    pick_next_task fuel c x = Some (rq_idle (crq s c), x1) /\
    smp_inv qs x /\ same_queues c s x.
Proof.
  intros Hcs Hcfs Hi Hc Hnr Hth Hras Hfair Hik Hio Hu.
  assert (smp_inv qs (no_stop c s)) as Hi' by by apply smp_crq.
  assert (stuck c (no_stop c s)) as Hs by (split; rewrite ?no_stop_crq; try done; by rewrite (no_stop_thr c s c)).
  pose proof (fun k => stuck_passes k c qs (no_stop c s) Hcs Hi' Hs Hu) as Hp. split.
  - unfold migrate_tasks. cbv zeta. rewrite Hcfs. fold (no_stop c s).
    destruct (Hp n) as (x & E & _). specialize (E 0%nat). rewrite Nat.add_0_r in E. by rewrite E.
  - intros k. destruct (Hp k) as (x & E & I & S & [N D O]). destruct (pick_idle c x S) as (x1 & E1 & _).
    rewrite no_stop_crq in N, D. exists x, x1. split; [done|]. split; [rewrite E1; do 2 f_equal; exact D|]. done.
Qed.

(** ** The runqueue is emptied *)

(** The processor runs the migration thread and is no longer active. *)
Record dying c s : Prop := {
  dy_cpu : is_cpu c = true;
  dy_stop : rq_stop (crq s c) = None;
  dy_only : oq stop_class (sext s) c = [cpu_curr s c];
  dy_running : c_true (rt_throttled (crt s c)) = false;
  dy_active : cpu_active s c = false }.

Lemma dying_curr qs c s : smp_inv qs s -> dying c s -> t_class (stasks s (cpu_curr s c)) = stop_class.
Proof.
  intros Hi Hd. destruct (mi_other _ _ (si_machine _ _ Hi) stop_class c (cpu_curr s c)) as (_ & _ & ? & _); [by left| |done].
  rewrite (dy_only _ _ Hd). by left.
Qed.
Lemma dying_kept c s s' : cpu_kept (cpus s c) (cpus s' c) -> oq stop_class (sext s') c = oq stop_class (sext s) c ->
  thr_same s s' -> active_mask s' = active_mask s -> dying c s -> dying c s'.
Proof.
  intros Hk Ho Ht Ha [H1 H2 H3 H4 H5].
  assert (cpu_curr s' c = cpu_curr s c) as Ec by apply Hk.
  split; rewrite ?Ht, ?Ho, ?Ec; try done; [etrans; [apply (ck_stop _ _ Hk)|done]|unfold cpu_active; by rewrite Ha].
Qed.
Lemma dying_still c s s' : still s s' -> dying c s -> dying c s'.
Proof.
  intros (C & O & T). apply dying_kept; [apply (step_kept 0 s), step_calm, C|apply O|done|apply C].
Qed.

(** pick_next_task_rt() and put_prev_task_rt() of the task it picked *)
Lemma rt_pick c qs s : array_ok qs s -> is_cpu c = true -> c_true (rt_throttled (crt s c)) = false -> members (qs c) <> [] ->
  exists p, queued qs c p /\ _pick_next_task_rt c s =
    Some (Some p, upd_stask p (fun t => t <| t_se ::= fun e => e <| exec_start := clock_task (crq s c) |> |>) s).
Proof.
  intros Ha Hc Hth Hne. pose proof (ao_cpu _ _ Ha c Hc) as [Hb _ Hcnt _ _].
  destruct (smp_bitmap_first _ _ Hb) as (Hr & Hl & Hn). set (i := first_bit (rt_bitmap (crt s c))) in *.
  assert (i < MAX_RT_PRIO) as Hi.
  { destruct (decide (i < MAX_RT_PRIO)) as [|Hge]; [done|]. destruct (members (qs c)) as [|x l] eqn:E; [done|].
    assert (x ∈ members (qs c)) as Hx by (rewrite E; by left). apply elem_of_members in Hx as (j & Hj & Hx).
    rewrite Hl in Hx; [by apply elem_of_nil in Hx|]. unfold in_range in Hj. lia. }
  destruct (qs c i) as [|p l] eqn:Eq; [by apply Hn in Hi|].
  assert (in_range i) as Hir by (unfold in_range; lia). exists p. split; [exists i; split; [done|]; rewrite Eq; by left|].
  unfold _pick_next_task_rt, rt_rq_throttled, pick_next_rt_entity. fold i. rewrite Hth, Hcnt.
  assert (c_true (Z.of_nat (length (members (qs c)))) = true) as ->.
  { destruct (members (qs c)); [done|]. unfold c_true. apply negb_true_iff, Z.eqb_neq. cbn [length]. lia. }
  cbn [negb]. rewrite (proj2 (Z.leb_gt _ _) Hi).
  assert (list_next (slinks s) (rt_queue c i) = STask p) as ->; [|done].
  rewrite list_next_spec by apply (sl_ok _ _ (ao_linked _ _ Ha)). rewrite (sl_view _ _ (ao_linked _ _ Ha)), Eq; done.
Qed.

(** A task leaves the list of those to push and comes back. *)
Lemma push_again_inv c p qs s sA sB s1 s2 : rt_inv qs s -> queued qs c p -> cpu_curr s c <> p -> is_cpu c = true ->
  calm s sA -> sB = dequeue_pushable_task c p sA -> calm sB s1 -> s2 = (if migratory s p then enqueue_pushable_task c p s1 else s1) ->
  rt_inv qs s2 /\ step_frame c s s2 /\ thr_same sA sB /\ thr_same s1 s2 /\ (forall d, nr_running (crq s2 d) = nr_running (crq s d)).
Proof.
  intros [Ha Hpu] Hq Hcur Hc CA -> C1 E2. set (sB := dequeue_pushable_task c p sA) in *.
  pose proof (dequeue_pushable_frame c p sA) as FB. fold sB in FB.
  assert (push_frame c s1 s2) as F2 by (subst s2; destruct (migratory s p); [apply enqueue_pushable_frame|apply push_frame_refl]).
  assert (step_frame c s s2) as F.
  { etrans; [apply step_calm, CA|]. etrans; [apply FB|]. etrans; [apply step_calm, C1|]. apply F2. }
  assert (t_prio (stasks s1 p) < MAX_RT_PRIO) as Hpr.
  { rewrite (ts_prio _ _ (cm_task _ _ C1 p)), (qf_tasks _ _ _ FB), (ts_prio _ _ (cm_task _ _ CA p)).
    destruct (ao_task _ _ Ha c p Hq) as (_ & _ & Hr & _). apply Hr. }
  split_and!; [|done|by apply (thr_push c)|by apply (thr_push c)|].
  - split; [eapply array_push; [exact F2|]; eapply array_calm; [exact C1|]; eapply array_push; [exact FB|]; by eapply array_calm|].
    apply (push_step c (eligible qs s) _ s); [done| |done|].
    { intros d x _. by rewrite (eligible_step c qs s s2). }
    assert (push_cpu (eligible qs s c) sA c) as PA.
    { apply (push_cpu_same (eligible qs s c) _ s sA); [done|intros x _; apply (cm_task _ _ CA x)| | |by apply Hpu];
        unfold crts; by rewrite (cs_rts _ _ (cm_cpu _ _ CA c)). }
    pose proof (dequeue_pushable_ok _ sA c p PA) as PB. fold sB in PB.
    assert (push_cpu (fun x => eligible qs s c x /\ x <> p) s1 c) as P1.
    { apply (push_cpu_same (fun x => eligible qs s c x /\ x <> p) _ sB s1); [done|intros x _; apply (cm_task _ _ C1 x)| | |exact PB];
        unfold crts; by rewrite (cs_rts _ _ (cm_cpu _ _ C1 c)). }
    pose proof (push_maybe _ s1 c p (migratory s p) Hpr P1) as P2. rewrite <- E2 in P2.
    eapply push_cpu_iff; [|exact P2]. intros x. rewrite (eligible_step c qs s s2) by done. unfold eligible.
    destruct (decide (x = p)) as [->|]; tauto.
  - intros d. rewrite (qf_rq _ _ _ F2). transitivity (nr_running (crq sB d)); [apply (cm_cpu _ _ C1 d)|].
    rewrite (qf_rq _ _ _ FB). apply (cm_cpu _ _ CA d).
Qed.

Lemma smp_step qs c s s' : smp_inv qs s -> rt_inv qs s' -> step_frame c s s' -> same_oq s s' ->
  (forall d, nr_running (crq s' d) = nr_running (crq s d)) -> smp_inv qs s'.
Proof.
  intros [M H2 H3 H4] Hr F Ho Hn. assert (forall d, runq qs s' d = runq qs s d) as Er by (intros d; by apply runq_oq).
  split.
  - apply (machine_step qs qs s s' c); [done|done|done| | | |done|].
    + apply (mi_class _ _ M).
    + intros k d x Hk. rewrite Ho. by apply (mi_other _ _ M).
    + intros k d Hk. rewrite Ho. by apply (mi_nodup _ _ M).
    + intros Hc. rewrite Hn, Er. by apply (mi_nr _ _ M).
  - intros p. rewrite (ts_on_rq _ _ (sf_task _ _ _ F p)), H2. by setoid_rewrite Er.
  - intros d Hd. rewrite (step_curr c s s') by done. rewrite (sf_thread _ _ _ F). by apply H3.
  - by rewrite (sf_this _ _ _ F).
Qed.

Lemma rt_pick_put c qs s : smp_inv qs s -> is_cpu c = true -> t_class (stasks s (cpu_curr s c)) <> rt_class ->
  c_true (rt_throttled (crt s c)) = false -> members (qs c) <> [] ->
  exists p s1, pick_next_task_rt c s = Some (Some p, s1) /\ queued qs c p /\ t_class (stasks s1 p) = rt_class /\
    let s2 := put_prev_task_rt c p s1 in smp_inv qs s2 /\ placed p s s2 /\ thr_same s s2 /\ same_oq s s2.
Proof.
  intros Hi Hc Hcur Hth Hne. destruct (rt_pick c qs s (smp_array Hi) Hc Hth Hne) as (p & Hq & Ep).
  unfold pick_next_task_rt. rewrite Ep. set (sA := upd_stask p _ s). set (sB := dequeue_pushable_task c p sA).
  set (s1 := upd_cpu c _ sB). exists p, s1. split; [done|]. split; [done|].
  assert (calm s sA) as CA by (unfold sA; auto with calm). assert (calm sB s1) as C1 by (unfold s1; auto with calm).
  pose proof (dequeue_pushable_frame c p sA) as FB. fold sB in FB.
  assert (step_frame c s s1) as F1.
  { etrans; [apply step_calm, CA|]. etrans; [apply FB|]. apply step_calm, C1. }
  assert (t_class (stasks s p) = rt_class) as Hk by by apply (mi_class _ _ (si_machine _ _ Hi) c).
  split; [by rewrite (ts_class _ _ (sf_task _ _ _ F1 p))|].
  set (s2 := if migratory s p then enqueue_pushable_task c p s1 else s1).
  assert (put_prev_task_rt c p s1 = s2) as ->.
  { unfold put_prev_task_rt. rewrite update_curr_other.
    - unfold s2. assert (on_rt_rq p s1 = true) as ->.
      { unfold on_rt_rq. rewrite (cm_links _ _ C1), (qf_links _ _ _ FB). exact (is_on_rt_rq qs s c p (smp_array Hi) Hq). }
      change (1 <? nr_cpus_allowed s1 p) with (migratory s1 p). by rewrite (step_migratory c s s1 p F1).
    - rewrite (step_curr c s s1), (ts_class _ _ (sf_task _ _ _ F1 _)) by done. done. }
  destruct (push_again_inv c p qs s sA sB s1 s2 (mi_rt _ _ (si_machine _ _ Hi)) Hq) as (R2 & F2 & T1 & T2 & N2); [congruence|done..|].
  assert (same_oq s s2) as O2.
  { intros k d. unfold s2. destruct (migratory s p); rewrite ?enqueue_pushable_ext; change (sext s1) with (sext sB);
      unfold sB; by rewrite dequeue_pushable_ext. }
  split; [by eapply smp_step|]. split; [by apply (step_placed c)|]. split; [|done].
  etrans; [|exact T2]. etrans; [|by apply thr_cpu]. exact T1.
Qed.

(** The task that pick_next_task() chose, after its class's put_prev_task(). *)
Definition picked c qs s (p : nat) s1 : Prop :=
  let s2 := sc_put_prev_task (p_class fuel s1 p) c p s1 in
  smp_inv qs s2 /\ p ∈ runq qs s c /\ placed p s s2 /\ thr_same s s2 /\ same_oq s s2 /\
  (t_class (stasks s p) = rt_class \/ t_class (stasks s p) = ras_class \/ t_class (stasks s p) = fair_class).

Lemma picked_still c qs s s0 p s1 : still s s0 -> picked c qs s0 p s1 -> picked c qs s p s1.
Proof.
  intros (C & O & T) (H1 & H2 & H3 & H4 & H5 & H6). split; [done|]. split; [by rewrite <- (runq_oq qs s s0)|].
  split; [etrans; [by apply (step_placed c), step_calm|done]|]. split; [by etrans|]. split; [intros k d; by rewrite H5|].
  by rewrite (ts_class _ _ (cm_task _ _ C p)) in H6.
Qed.

Lemma picked_other k c qs s p s1 : k = ras_class \/ k = fair_class -> smp_inv qs s -> p ∈ oq k (sext s) c -> still s s1 -> picked c qs s p s1.
Proof.
  intros Hk Hi Hp S. assert (other_class k /\ not_rt k) as [Hko Hkn] by (unfold other_class, not_rt; destruct Hk as [->| ->]; auto).
  destruct (mi_other _ _ (si_machine _ _ Hi) k c p Hko Hp) as (_ & _ & Ek & _).
  unfold picked, p_class. rewrite (ts_class _ _ (cm_task _ _ (proj1 S) p)), Ek, (class_of_other fuel _ Hkn).
  assert (still s (sc_put_prev_task (smp_ops k) c p s1)) as (C & O & T).
  { apply (still_trans _ s1); [done|]. destruct (oh_put k c p s1 Hkn). split; [done|]. split; [done|]. by apply ot_put. }
  split; [by eapply smp_calm|]. split; [apply elem_of_runq; right; by exists k|].
  split; [by apply (step_placed c), step_calm|]. split; [done|]. split; [done|]. destruct Hk as [->| ->]; auto.
Qed.

(** pick_next_task() of the RAS or fair class *)
Lemma pick_other k c qs s : k = ras_class \/ k = fair_class -> smp_inv qs s ->
  (exists p s1, sc_pick_next_task (smp_ops k) c s = Some (Some p, s1) /\ picked c qs s p s1) \/
  (oq k (sext s) c = [] /\ exists s1, sc_pick_next_task (smp_ops k) c s = Some (None, s1) /\ still s s1).
Proof.
  intros Hk Hi. destruct (oh_pick k c s Hk) as (o & s1 & E & C & O & Ho).
  assert (still s s1) as S by (split; [done|]; split; [done|]; eapply ot_pick; [|exact E]; by destruct Hk as [->| ->]).
  destruct o as [p|]; [left; exists p, s1; split; [done|]; by apply (picked_other k)|right; eauto].
Qed.

Lemma dying_loop c qs s : smp_inv qs s -> dying c s -> nr_running (crq s c) <> 1 ->
  exists p s1, pick_loop fuel classes c s = Some (p, s1) /\ picked c qs s p s1.
Proof.
  intros Hi Hd Hnr. unfold classes. cbn [pick_loop class_of]. rewrite (oh_stop c s (dy_stop _ _ Hd)).
  change (sc_pick_next_task (rt_smp_class fuel)) with pick_next_task_rt.
  assert (t_class (stasks s (cpu_curr s c)) <> rt_class) as Hcur by by rewrite (dying_curr qs c s).
  destruct (decide (members (qs c) = [])) as [Hm|Hm].
  2: { destruct (rt_pick_put c qs s Hi (dy_cpu _ _ Hd) Hcur (dy_running _ _ Hd) Hm) as (p & s1 & -> & Hq & Hk & I2 & P2 & T2 & O2).
       exists p, s1. split; [done|]. unfold picked, p_class. rewrite Hk. split; [exact I2|]. split; [by apply queued_runq|].
       split; [exact P2|]. split; [exact T2|]. split; [exact O2|]. left. by apply (mi_class _ _ (si_machine _ _ Hi) c). }
  assert (exists s1, pick_next_task_rt c s = Some (None, s1) /\ still s s1) as (s1 & -> & S1).
  { unfold pick_next_task_rt, _pick_next_task_rt. rewrite (ca_count _ _ _ (ao_cpu _ _ (smp_array Hi) c (dy_cpu _ _ Hd))), Hm. cbn.
    eexists. split; [done|]. split; [auto with calm|split; [done|by apply thr_cpu]]. }
  assert (smp_inv qs s1) as I1 by (eapply smp_calm; [apply S1..|done]).
  destruct (pick_other ras_class c qs s1 (or_introl eq_refl) I1) as [(p & s2 & E & P)|(Eras & s2 & E & S2)];
    change (smp_ops ras_class) with ras_smp in E; rewrite E.
  { exists p, s2. split; [done|]. by eapply picked_still. }
  assert (smp_inv qs s2) as I2 by (eapply smp_calm; [apply S2..|done]). pose proof (still_trans _ _ _ S1 S2) as S12.
  destruct (pick_other fair_class c qs s2 (or_intror eq_refl) I2) as [(p & s3 & E3 & P)|(Efair & s3 & E3 & S3)];
    change (smp_ops fair_class) with fair_smp in E3; rewrite E3.
  { exists p, s3. split; [done|]. by eapply picked_still. }
  exfalso. apply Hnr. rewrite (mi_nr _ _ (si_machine _ _ Hi) c (dy_cpu _ _ Hd)). unfold runq, others.
  rewrite Hm, (dy_only _ _ Hd). rewrite (proj1 (proj2 S1)) in Eras. rewrite (proj1 (proj2 S12)) in Efair. by rewrite Eras, Efair.
Qed.

Lemma dying_pick c qs s : smp_inv qs s -> dying c s -> nr_running (crq s c) <> 1 ->
  exists p s1, pick_next_task fuel c s = Some (p, s1) /\ picked c qs s p s1.
Proof.
  intros Hi Hd Hnr. unfold pick_next_task. case_match; [|by apply dying_loop].
  destruct (pick_other fair_class c qs s (or_intror eq_refl) Hi) as [(p & s1 & E & P)|(_ & s1 & E & S)];
    change (smp_ops fair_class) with fair_smp in E; rewrite E; [by exists p, s1|].
  assert (nr_running (crq s1 c) <> 1) as Hnr1 by (unfold crq; by rewrite (rs_nr _ _ (cs_rq _ _ (cm_cpu _ _ (proj1 S) c)))).
  destruct (dying_loop c qs s1) as (p & s2 & E2 & P2); [eapply smp_calm; [apply S..|done]|by eapply dying_still|done|].
  exists p, s2. split; [done|]. by eapply picked_still.
Qed.

(** What one migration does for the dying processor. *)
Lemma thr_migrate_task p src dest qs s : smp_inv qs s -> t_class (stasks s (cpu_curr s src)) <> rt_class -> p ∈ runq qs s src ->
  thr_same s (__migrate_task fuel p src dest s).2.
Proof.
  intros Hi Hcur Hp. destruct (runq_task _ _ _ _ (si_machine _ _ Hi) Hp) as (_ & _ & _ & Hg).
  unfold __migrate_task. case_match; [done|]. case_match; [done|]. case_match; [done|]. case_match; [|done]. cbn [snd].
  etrans; [|apply thr_check_preempt]. assert (t_class (stasks s p) = rt_class \/ other_class (t_class (stasks s p))) as Hk by tauto.
  destruct (dequeue_ok qs s src p 0 (si_machine _ _ Hi) Hp) as (qs1 & _ & _ & P1).
  etrans; [|apply thr_enqueue].
  - etrans; [by apply (thr_dequeue src p 0)|apply thr_set_cpu].
  - assert (t_class (stasks (set_task_cpu p dest (dequeue_task src p 0 s)) p) = t_class (stasks s p)) as ->; [|done].
    etrans; [|apply (vf_task _ _ _ (pl_frame _ _ _ P1) p)]. unfold set_task_cpu. case_match; [|done]. cbn. by rewrite Nat.eqb_refl.
Qed.

Lemma only_one (l : list nat) x : NoDup l -> (forall y, y ∈ l <-> y = x) -> l = [x].
Proof.
  intros Hn Hl. destruct l as [|a l]; [by pose proof (proj2 (Hl x) eq_refl) as H%elem_of_nil|].
  assert (a = x) as -> by (apply Hl; by left). apply NoDup_cons in Hn as [Hx Hn]. destruct l as [|b l]; [done|].
  assert (b = x) as -> by (apply Hl; right; by left). destruct Hx. by left.
Qed.

(** A task of another class moved: the queue of this one is as it was. *)
Lemma class_queue k c p qs qs' s s' : other_class k -> machine_inv qs s -> machine_inv qs' s' ->
  (forall x e, x <> p -> x ∈ runq qs' s' e <-> x ∈ runq qs s e) -> (forall q, t_class (stasks s' q) = t_class (stasks s q)) ->
  t_class (stasks s p) <> k -> forall y, y ∈ oq k (sext s') c <-> y ∈ oq k (sext s) c.
Proof.
  intros Hk Hm Hm' Hr Hcl Hp y.
  assert (forall qs1 s1, machine_inv qs1 s1 -> (y ∈ oq k (sext s1) c <-> y ∈ runq qs1 s1 c /\ t_class (stasks s1 y) = k)) as E.
  { intros qs1 s1 M. split.
    - intros Hy. split; [apply elem_of_runq; right; by exists k|]. by destruct (mi_other _ _ M k c y Hk Hy) as (_ & _ & ? & _).
    - intros [[Hq|(k' & Hk' & Hq)]%elem_of_runq Ek].
      + rewrite (mi_class _ _ M c y Hq) in Ek. subst k. by destruct rt_not_other.
      + destruct (mi_other _ _ M k' c y Hk' Hq) as (_ & _ & Ek' & _). congruence. }
  rewrite (E _ _ Hm), (E _ _ Hm'), Hcl. split; intros [Hy Ek]; (split; [|done]); apply Hr; congruence || done.
Qed.

(** One pass of the loop. *)
Lemma migrate_pass c qs s : cpuset_keeps -> smp_inv qs s -> dying c s -> nr_running (crq s c) <> 1 ->
  (exists d, is_cpu d = true /\ usable s d = true /\ cpumask_test_cpu d (possible_mask s) = true) ->
  exists p s1 d s3 s4 qs4, pick_next_task fuel c s = Some (p, s1) /\
    select_fallback_rq fuel c p (sc_put_prev_task (p_class fuel s1 p) c p s1) = Some (d, s3) /\
    __migrate_task fuel p c d s3 = (true, s4) /\ smp_inv qs4 s4 /\ dying c s4 /\ cpu_curr s4 c = cpu_curr s c /\
    p ∈ runq qs s c /\ p ∈ runq qs4 s4 d /\ d <> c /\ good_cpu s3 p d /\
    (forall x e, x <> p -> x ∈ runq qs4 s4 e <-> x ∈ runq qs s e) /\
    online_mask s4 = online_mask s /\ active_mask s4 = active_mask s /\ possible_mask s4 = possible_mask s.
Proof.
  intros Hcs Hi Hd Hnr Hu. destruct (dying_pick c qs s Hi Hd Hnr) as (p & s1 & E1 & P). exists p, s1. rewrite E1.
  destruct P as (I2 & Hp & P2 & T2 & O2 & Hk). set (s2 := sc_put_prev_task _ c p s1) in *. pose proof (pl_frame _ _ _ P2) as F2.
  assert (p ∈ runq qs s2 c) as Hp2 by by rewrite (runq_oq qs s).
  destruct (fallback_ok fuel qs c p s2 Hcs I2) as (d & s3 & E3 & I3 & G3 & F3).
  { intros Er. destruct (runq_task _ _ _ _ (si_machine _ _ I2) Hp2) as (_ & _ & _ & [[_ Hr]|Ho]).
    - unfold rt_task, rt_prio. unfold in_range in Hr. apply Z.ltb_lt, Hr.
    - rewrite Er in Ho. by destruct (rt_not_other Ho). }
  { destruct Hu as (u & ? & Huu & ?). exists u. unfold usable, cpu_online, cpu_active in *.
    by rewrite (vf_online _ _ _ F2), (vf_active _ _ _ F2), (vf_possible _ _ _ F2). }
  exists d, s3.
  assert (same_oq s2 s3 /\ (online_mask s3 = online_mask s2 /\ active_mask s3 = active_mask s2 /\ possible_mask s3 = possible_mask s2) /\
    cpu_kept (cpus s2 c) (cpus s3 c) /\ (forall q, t_class (stasks s3 q) = t_class (stasks s2 q))) as (O3 & (M3 & M4 & M5) & K3 & T3).
  { destruct F3 as [->|[[m F3] _]]; [done|]. split_and!; try apply F3. intros q. by destruct (allowed_task _ _ _ _ q F3) as (_ & -> & _). }
  assert (d <> c) as Hdc.
  { intros ->. destruct G3 as (_ & [_ Ha]%andb_true_iff & _). unfold cpu_active in Ha. rewrite M4, (vf_active _ _ _ F2) in Ha.
    pose proof (dy_active _ _ Hd) as Hx. unfold cpu_active in Hx. congruence. }
  assert (p ∈ runq qs s3 c) as Hp3 by by rewrite (runq_oq qs s2).
  destruct (migrate_here fuel qs s3 p c d I3 (proj1 G3) G3 Hp3) as (s4 & E4 & qs4 & M). exists s4, qs4.
  pose proof (mg_frame _ _ _ _ _ _ M) as F4.
  assert (forall x e, x <> p -> x ∈ runq qs4 s4 e <-> x ∈ runq qs s e) as Hrest.
  { intros x e Hx. rewrite (mg_rest _ _ _ _ _ _ M) by done. by rewrite (runq_oq qs s2 s3), (runq_oq qs s s2). }
  assert (forall q, t_class (stasks s4 q) = t_class (stasks s q)) as Hcl.
  { intros q. rewrite (ts_class _ _ (vf_task _ _ _ F4 q)), T3. apply (vf_task _ _ _ F2 q). }
  assert (cpu_kept (cpus s c) (cpus s4 c)) as K.
  { etrans; [apply (vf_cpu _ _ _ F2 c)|]. etrans; [exact K3|]. apply (vf_cpu _ _ _ F4 c). }
  split; [done|]. split; [exact E3|]. split; [exact E4|]. split; [apply M|].
  split; [|split; [apply K|split_and!; try done; try apply M]].
  - destruct Hd as [D1 D2 D3 D4 D5]. assert (cpu_curr s4 c = cpu_curr s c) as Ec by apply K. split.
    + done.
    + etrans; [apply (ck_stop _ _ K)|done].
    + apply only_one; [by apply (mi_nodup _ _ (si_machine _ _ (mg_inv _ _ _ _ _ _ M))); left|].
      intros y. rewrite (class_queue stop_class c p qs qs4 s s4); [|by left|apply Hi|apply M|done|done|].
      * rewrite D3, Ec. apply list_elem_of_singleton.
      * intros Es. rewrite Es in Hk. naive_solver.
    + assert (thr_same s s4) as T.
      { etrans; [exact T2|]. etrans; [by eapply thr_fallback|]. pose proof (thr_migrate_task p c d qs s3 I3) as T4. rewrite E4 in T4.
        apply T4; [|done]. rewrite T3. assert (cpu_curr s3 c = cpu_curr s c) as ->.
        { etrans; [apply K3|]. apply (vf_cpu _ _ _ F2 c). }
        rewrite (ts_class _ _ (vf_task _ _ _ F2 _)), (dying_curr qs c s); [done|done|by split]. }
      by rewrite T.
    + unfold cpu_active. rewrite (vf_active _ _ _ F4), M4, (vf_active _ _ _ F2). done.
  - rewrite (vf_online _ _ _ F4), M3. apply F2.
  - rewrite (vf_active _ _ _ F4), M4. apply F2.
  - rewrite (vf_possible _ _ _ F4), M5. apply F2.
Qed.

Lemma migrate_loop_ends n c qs s : cpuset_keeps -> smp_inv qs s -> dying c s -> (length (runq qs s c) <= n)%nat ->
  (exists d, is_cpu d = true /\ usable s d = true /\ cpumask_test_cpu d (possible_mask s) = true) ->
  exists s' qs', migrate_loop fuel n c s = Ret s' /\ smp_inv qs' s' /\ dying c s' /\ nr_running (crq s' c) = 1 /\
    cpu_curr s' c = cpu_curr s c /\ forall x, (exists d, x ∈ runq qs' s' d) <-> (exists d, x ∈ runq qs s d).
Proof.
  intros Hcs. revert qs s. induction n as [|n IH]; intros qs s Hi Hd Hn Hu.
  { exfalso. assert (cpu_curr s c ∈ runq qs s c) as Hr.
    { apply elem_of_runq. right. exists stop_class. split; [by left|]. rewrite (dy_only _ _ Hd). by left. }
    destruct (runq qs s c); [by apply elem_of_nil in Hr|cbn in Hn; lia]. }
  cbn [migrate_loop]. destruct (Z.eqb_spec (nr_running (crq s c)) 1) as [E1|Hne]; [by exists s, qs|].
  destruct (migrate_pass c qs s Hcs Hi Hd Hne Hu) as
    (p & s1 & d & s3 & s4 & qs4 & E1 & E3 & E4 & I4 & D4 & C4 & Hp & Hp4 & Hdc & _ & Hrest & M1 & M2 & M3).
  rewrite E1, E3, E4. cbn [snd].
  assert (p ∉ runq qs4 s4 c) as Hpn.
  { intros Hx. apply Hdc. symmetry. by apply (runq_unique qs4 s4 c d p); [apply I4| |]. }
  destruct (IH qs4 s4 I4 D4) as (s5 & qs5 & E5 & I5 & D5 & N5 & C5 & R5).
  - assert (length (p :: runq qs4 s4 c) <= length (runq qs s c))%nat as Hlen; [|cbn in Hlen; lia].
    apply submseteq_length, NoDup_submseteq; [apply NoDup_cons; split; [done|by apply runq_nodup, I4]|].
    intros x [->|Hx]%elem_of_cons; [done|]. apply Hrest; [by intros ->|done].
  - destruct Hu as (u & ? & ? & ?). exists u. unfold usable, cpu_online, cpu_active in *. by rewrite M1, M2, M3.
  - exists s5, qs5. split; [done|]. split; [done|]. split; [done|]. split; [done|]. split; [congruence|].
    intros x. rewrite R5. destruct (decide (x = p)) as [->|Hx]; [split; intros _; eauto|].
    by setoid_rewrite (fun e => Hrest x e Hx).
Qed.

(** C6: migrate_tasks() empties the runqueue of a processor that goes down when
    its real-time runqueue is not throttled: with as many passes as there are
    tasks it ends, only the migration thread is left there, every task that was
    on some runqueue still is, and rq->stop is restored. *)
Theorem migrate_tasks_empties n c qs s : cpuset_keeps -> no_cfs_bandwidth -> smp_inv qs s -> is_cpu c = true ->
  oq stop_class (sext s) c = [cpu_curr s c] -> c_true (rt_throttled (crt s c)) = false -> cpu_active s c = false ->
  (exists d, is_cpu d = true /\ usable s d = true /\ cpumask_test_cpu d (possible_mask s) = true) ->
  (length (runq qs s c) <= n)%nat ->
  exists s' qs', migrate_tasks fuel n c s = Ret s' /\ smp_inv qs' s' /\ runq qs' s' c = [cpu_curr s c] /\
    (forall x, (exists d, x ∈ runq qs' s' d) <-> (exists d, x ∈ runq qs s d)) /\ rq_stop (crq s' c) = rq_stop (crq s c).
Proof.
  intros Hcs Hcfs Hi Hc Hst Hth Hact Hu Hn. unfold migrate_tasks. cbv zeta. rewrite Hcfs. fold (no_stop c s).
  assert (cpu_curr (no_stop c s) c = cpu_curr s c) as Ec by (unfold cpu_curr; by rewrite no_stop_crq).
  destruct (migrate_loop_ends n c qs (no_stop c s) Hcs) as (s1 & qs1 & -> & I1 & D1 & N1 & C1 & R1).
  - by apply smp_crq.
  - split; rewrite ?Ec; try done; [by rewrite no_stop_crq|by rewrite (no_stop_thr c s c)].
  - done.
  - done.
  - exists (upd_crq c (fun r => r <| rq_stop := rq_stop (crq s c) |>) s1), qs1. split; [done|].
    split; [by apply smp_crq|]. split; [|split; [done|]].
    + change (runq qs1 s1 c = [cpu_curr s c]). rewrite <- Ec, <- C1.
      assert (cpu_curr s1 c ∈ runq qs1 s1 c) as Hr.
      { apply elem_of_runq. right. exists stop_class. split; [by left|]. rewrite (dy_only _ _ D1). by left. }
      rewrite (mi_nr _ _ (si_machine _ _ I1) c Hc) in N1.
      destruct (runq qs1 s1 c) as [|x [|y l]]; cbn in N1; [lia| |lia]. by apply list_elem_of_singleton in Hr as ->.
    + unfold crq, upd_crq, upd_cpu. cbn. by rewrite Nat.eqb_refl.
Qed.
End hotplug.
