(* ===== verification/WakeupSpec.v ===== *)
(** Waking a task up on several processors. *)

From S2P Require Import Prelude KList Sched Ras Rt RtSpec RtBorrow Affinity AffinitySpec Smp RtSmp RtPush SmpSpec RtSmpSpec SmpMachine RtPushSpec Migrate MigrateSpec.

Section wakeup.
Context {SK : SKTypes} {ST : SmpTypes} {STL : SmpTypesLaws} {CM : CpuMask} {CMS : CpuMasks} {CML : CpuMasksLaws} {SE : SmpEnv}
  {SL : SmpEnvLaws} {NL : KListLaws snode} {SC : SmpClasses} {OC : OtherClasses} {OH : OtherHooks} {ME : MigrateEnv}.
Implicit Types (s : smp) (c p d : nat) (qs : nat -> Z -> list nat).
Context (fuel : nat).

(** A write to a task that the queues do not depend on. *)
Lemma rt_inv_task qs p f s : (forall t, t_prio (f t) = t_prio t /\ rt_nr_cpus_allowed (t_rt (f t)) = rt_nr_cpus_allowed (t_rt t)) ->
  rt_inv qs s -> rt_inv qs (upd_stask p f s).
Proof.
  intros Hf [[H1 H2 H3 H4] Hpu]. set (s' := upd_stask p f s).
  assert (forall x, t_prio (stasks s' x) = t_prio (stasks s x) /\ nr_cpus_allowed s' x = nr_cpus_allowed s x) as Hx.
  { intros x. unfold nr_cpus_allowed, s', upd_stask. cbn. destruct (Nat.eqb_spec x p) as [->|]; [apply Hf|done]. }
  split; [split|].
  - done.
  - intros d x Hq. destruct (Hx x) as [-> _]. by apply H2.
  - intros d Hd. apply (cpu_array_same _ s); [intros x _; apply Hx|done|done|by apply H3].
  - by apply (over_in_mask 0 s).
  - intros d Hd. apply (push_cpu_same (eligible qs s d) _ s s'); [|intros x _; apply Hx|done|done|by apply Hpu].
    intros x. unfold eligible, migratory. by destruct (Hx x) as [_ ->].
Qed.

Lemma machine_task qs p f s :
  (forall t, t_prio (f t) = t_prio t /\ rt_nr_cpus_allowed (t_rt (f t)) = rt_nr_cpus_allowed (t_rt t) /\ t_class (f t) = t_class t) ->
  machine_inv qs s -> machine_inv qs (upd_stask p f s).
Proof.
  intros Hf [M1 M2 M3 M4 M5]. assert (forall x, t_class (stasks (upd_stask p f s) x) = t_class (stasks s x)) as Hx.
  { intros x. unfold upd_stask. cbn. destruct (Nat.eqb_spec x p) as [->|]; [apply Hf|done]. }
  split; try done.
  - apply rt_inv_task; [|done]. intros t. destruct (Hf t) as (? & ? & ?). done.
  - intros c x Hq. rewrite Hx. by apply (M2 c).
  - intros k c x Hk Hq. rewrite Hx. by apply M3.
Qed.

Lemma smp_task qs p f s :
  (forall t, t_prio (f t) = t_prio t /\ rt_nr_cpus_allowed (t_rt (f t)) = rt_nr_cpus_allowed (t_rt t) /\ t_class (f t) = t_class t /\ t_on_rq (f t) = t_on_rq t) ->
  smp_inv qs s -> smp_inv qs (upd_stask p f s).
Proof.
  intros Hf [H1 H2 H3 H4]. split; try done.
  - apply machine_task; [|done]. intros t. by destruct (Hf t) as (? & ? & ? & ?).
  - intros x. rewrite <- H2. unfold upd_stask. cbn. destruct (Nat.eqb_spec x p) as [->|]; [|done]. by destruct (Hf (stasks s p)) as (_ & _ & _ & ->).
Qed.

(** Writes to a processor or a thread that the invariant does not depend on. *)
Lemma smp_cpu qs c f s :
  (forall r, c_rq (f r) = c_rq r /\ c_rt (f r) = c_rt r /\ c_rts (f r) = c_rts r /\ rq_rd (f r) = rq_rd r /\ rq_online (f r) = rq_online r) ->
  smp_inv qs s -> smp_inv qs (upd_cpu c f s).
Proof.
  intros Hf [[[[A1 A2 A3 A4] A5] M2 M3 M4 M5] H2 H3 H4]. set (s' := upd_cpu c f s).
  assert (forall d, crq s' d = crq s d /\ crt s' d = crt s d /\ crts s' d = crts s d /\
    rq_rd (cpus s' d) = rq_rd (cpus s d) /\ rq_online (cpus s' d) = rq_online (cpus s d)) as Hd.
  { intros d. unfold s', crq, crt, crts, upd_cpu. cbn. destruct (Nat.eqb_spec d c) as [->|]; [apply Hf|done]. }
  assert (forall d, cpu_curr s' d = cpu_curr s d) as Hcur by (intros d; unfold cpu_curr; by destruct (Hd d) as (-> & _)).
  split; [split; [split; [split|]|..]|..]; try done.
  - intros d Hc. destruct (Hd d) as (_ & Hr & Hs & _). apply (cpu_array_same _ s); [done|by rewrite Hr|done|by apply A3].
  - apply (rd_ok_same s); [|done|done]. intros e d. destruct (Hd d) as (_ & _ & Hs & ? & ?). apply over_same; [done..|by rewrite Hs].
  - intros d Hc. destruct (Hd d) as (_ & _ & Hs & _). apply (push_cpu_same (eligible qs s d) _ s s'); [|done|by rewrite Hs..|by apply A5].
    intros x. unfold eligible. by rewrite Hcur.
  - intros d Hc. destruct (Hd d) as (-> & _). by apply M5.
  - intros d Hc. rewrite Hcur. by apply H3.
Qed.
Lemma smp_thread qs p f s : (forall t, t_cpu (f t) = t_cpu t /\ on_cpu (f t) = on_cpu t) ->
  smp_inv qs s -> smp_inv qs (upd_thread p f s).
Proof.
  intros Hf [[[[A1 A2 A3 A4] A5] M2 M3 M4 M5] H2 H3 H4]. set (s' := upd_thread p f s).
  assert (forall x, t_cpu (sthread s' x) = t_cpu (sthread s x) /\ on_cpu (sthread s' x) = on_cpu (sthread s x)) as Hx.
  { intros x. unfold s', upd_thread. cbn. destruct (Nat.eqb_spec x p) as [->|]; [apply Hf|done]. }
  assert (forall x, task_cpu s' x = task_cpu s x) as Hcpu by (intros x; apply Hx).
  split; [split; [split; [split|]|..]|..]; try done.
  - intros d x Hq. rewrite Hcpu. by apply A2.
  - intros d Hc. apply (cpu_array_same _ s); [done..|by apply A3].
  - by apply (rd_ok_same s).
  - intros d Hc. by apply (push_cpu_same (eligible qs s d) _ s s'); [..|apply A5].
  - intros k d x Hk Hq. rewrite Hcpu. by apply M3.
  - intros d Hc. change (cpu_curr s' d) with (cpu_curr s d). destruct (Hx (cpu_curr s d)) as [_ ->]. by apply H3.
Qed.

Lemma off_runq qs s p : smp_inv qs s -> c_true (t_on_rq (stasks s p)) = false -> forall d, p ∉ runq qs s d.
Proof. intros Hi Hp d Hd. by rewrite (runq_on_rq qs s d) in Hp. Qed.

(** *** ttwu_activate() *)

(** [p] was put on the runqueue of [c]. *)
Record woken p c qs qs' s s' : Prop := {
  wk_inv : smp_inv qs' s';
  wk_here : p ∈ runq qs' s' c;
  wk_rest : forall x d, x <> p -> x ∈ runq qs' s' d <-> x ∈ runq qs s d;
  wk_len : length (runq qs' s' c) = S (length (runq qs s c));
  wk_frame : sthread s' = sthread s /\ online_mask s' = online_mask s /\ this_cpu s' = this_cpu s;
  wk_task : forall q, tsk_cpus_allowed s' q = tsk_cpus_allowed s q /\ t_class (stasks s' q) = t_class (stasks s q) /\
    t_prio (stasks s' q) = t_prio (stasks s q);
  wk_cpu : forall d, cpu_kept (cpus s d) (cpus s' d) }.

Lemma ttwu_activate_ok qs s c p f : smp_inv qs s -> is_cpu c = true -> task_cpu s p = c -> task_good s p ->
  c_true (t_on_rq (stasks s p)) = false -> exists qs', woken p c qs qs' s (ttwu_activate c p f s).
Proof.
  intros Hi Hc Hcpu Hg Hp. pose proof (off_runq _ _ _ Hi Hp) as Hno.
  destruct (activate_ok qs s c p f (si_machine _ _ Hi) Hc Hcpu Hg Hno) as (qs1 & M1 & [G1 G2] & [F1 T1]).
  unfold ttwu_activate. set (s1 := activate_task c p f s) in *.
  set (s2 := upd_stask p (fun t => t <| t_on_rq := 1 |>) s1).
  assert (runq qs1 s2 = runq qs1 s1) as R2 by done.
  assert (forall x d, x <> p -> x ∈ runq qs1 s1 d <-> x ∈ runq qs s d) as Hrest.
  { intros x d Hx. destruct (decide (d = c)) as [->|Hd]; [|by rewrite G2]. rewrite G1, elem_of_cons. tauto. }
  assert (forall q, t_cpus_allowed (stasks s2 q) = t_cpus_allowed (stasks s q) /\ t_class (stasks s2 q) = t_class (stasks s q) /\
    t_prio (stasks s2 q) = t_prio (stasks s q)) as Ht.
  { intros q. pose proof (vf_task _ _ _ F1 q) as [E1 E2 E3 _ _ _ _ _]. unfold s2, upd_stask. cbn. by destruct (Nat.eqb_spec q p) as [->|]. }
  assert (smp_inv qs1 s2) as I2.
  { split.
    - by apply machine_task.
    - intros q. rewrite R2. destruct (decide (q = p)) as [->|Hq].
      + unfold s2, upd_stask. cbn. rewrite Nat.eqb_refl. cbn. split; [|done]. intros _. exists c. rewrite G1. by left.
      + setoid_rewrite (fun d => Hrest q d Hq). rewrite <- (si_on_rq _ _ Hi). unfold s2, upd_stask. cbn.
        apply Nat.eqb_neq in Hq as ->. by rewrite (ts_on_rq _ _ (vf_task _ _ _ F1 q)).
    - intros d Hd. change (cpu_curr s2 d) with (cpu_curr s1 d). change (sthread s2) with (sthread s1).
      rewrite (move_curr _ _ _ _ F1), T1. by apply (si_on_cpu _ _ Hi).
    - change (this_cpu s2) with (this_cpu s1). rewrite (vf_this _ _ _ F1). apply Hi. }
  assert (woken p c qs qs1 s s2) as W2.
  { split; try done.
    - rewrite R2, G1. by left.
    - rewrite R2, G1. done.
    - split_and!; apply T1 || apply F1.
    - apply F1. }
  exists qs1. destruct (has_flag _ _); [|exact W2].
  set (s3 := s2 <| sext ::= worker_waking_up p c |>). assert (same_oq s2 s3) as O3 by (intros k d; apply oh_worker).
  destruct W2 as [W1 W3 W4 W5 W6 W7 W8]. split; try done.
  - eapply smp_calm; [apply calm_ext|exact O3|done].
  - by rewrite (runq_oq qs1 s2 s3).
  - intros x d Hx. rewrite (runq_oq qs1 s2 s3) by done. by apply W4.
  - by rewrite (runq_oq qs1 s2 s3).
Qed.

(** *** ttwu_do_wakeup() *)

Lemma to_push_length qs s c : smp_inv qs s -> is_cpu c = true -> (to_push c s <= length (runq qs s c))%nat.
Proof.
  intros Hi Hc. unfold to_push. rewrite <- (length_fmap fst). apply submseteq_length, NoDup_submseteq.
  - by apply (pc_nodup _ _ _ (smp_push Hi c Hc)).
  - intros p Hp%(pushable_items qs); [|done..]. by apply queued_runq, Hp.
Qed.

(** The task [p] runs or waits to run on a processor. *)
Record awake p c qs' s s' : Prop := {
  aw_inv : smp_inv qs' s';
  aw_state : t_state (stasks s' p) = TASK_RUNNING;
  aw_here : exists d, p ∈ runq qs' s' d /\ (d = c \/ cpumask_test_cpu d (tsk_cpus_allowed s p) = true);
  aw_allowed : tsk_cpus_allowed s' p = tsk_cpus_allowed s p }.

Context (Hquiet : forall c, quiet c).

Lemma quiet_interference : Interference.
Proof. split. intros. rewrite Hquiet. eauto. Qed.

Lemma idle_stat_calm c s : calm s (idle_stat c s) /\ same_oq s (idle_stat c s).
Proof.
  unfold idle_stat. case_match; [|by split]. cbv zeta. split; [|intros k d; by case_match].
  etrans; [|apply calm_cpu; intros; by split]. case_match; apply calm_cpu; intros; by split.
Qed.

Lemma task_woken_ok c p qs s : smp_inv qs s -> is_cpu c = true -> (length (runq qs s c) < fuel)%nat ->
  exists s' qs', (match sc_task_woken (p_class fuel s p) with Some task_woken => task_woken c p s | None => Ret s end) = Ret s' /\
    smp_inv qs' s' /\ settled qs qs' s s'.
Proof.
  intros Hi Hc Hf. unfold p_class. destruct (decide (t_class (stasks s p) = rt_class)) as [E|E].
  - rewrite E. cbn. unfold task_woken_rt. destruct (_ && _); [|exists s, qs; split_and!; [done..|apply settled_refl]].
    unfold push_rt_tasks. pose proof (to_push_length qs s c Hi Hc). destruct fuel as [|n]; [lia|].
    pose proof quiet_interference. apply push_loop_quiet; [done..|lia].
  - rewrite (class_of_other fuel) by done. destruct (oh_woken _ c p s E) as (s' & E' & C & O). exists s', qs.
    split_and!; [done|by eapply smp_calm|by apply settled_calm].
Qed.

Lemma rearranged_length qs qs' s s' c : smp_inv qs s -> rearranged qs qs' s s' -> length (runq qs' s' c) = length (runq qs s c).
Proof.
  intros Hi R. apply Permutation_length, NoDup_Permutation.
  - apply (runq_nodup qs' s'), R.
  - apply (runq_nodup qs s), Hi.
  - intros x. apply (ra_runq _ _ _ _ R).
Qed.

Lemma ttwu_do_wakeup_ok c p f qs s : smp_inv qs s -> is_cpu c = true -> p ∈ runq qs s c -> (length (runq qs s c) < fuel)%nat ->
  exists s' qs', ttwu_do_wakeup fuel c p f s = Ret s' /\ awake p c qs' s s' /\
    this_cpu s' = this_cpu s.
Proof.
  intros Hi Hc Hp Hf. unfold ttwu_do_wakeup.
  destruct (check_preempt_ok fuel c p f qs s Hi) as (qs1 & R1). set (s1 := check_preempt_curr fuel c p f s) in *.
  set (s2 := upd_stask p (fun t => t <| t_state := TASK_RUNNING |>) s1).
  assert (smp_inv qs1 s2) as I2 by (apply smp_task; [done|apply R1]).
  assert (runq qs1 s2 = runq qs1 s1) as E2 by done.
  destruct (task_woken_ok c p qs1 s2 I2 Hc) as (s3 & qs3 & -> & I3 & S3).
  { rewrite E2. by rewrite (rearranged_length _ _ _ _ c Hi R1). }
  destruct (idle_stat_calm c s3) as [C4 O4]. exists (idle_stat c s3), qs3. split; [done|].
  assert (tsk_cpus_allowed s2 p = tsk_cpus_allowed s p) as A2.
  { unfold tsk_cpus_allowed, s2, upd_stask. cbn. rewrite Nat.eqb_refl. cbn.
    by rewrite (ts_allowed _ _ (vf_task _ _ _ (pl_frame _ _ _ (ra_placed _ _ _ _ R1 p)) p)). }
  split; [split|].
  - by eapply smp_calm.
  - rewrite (ts_state _ _ (cm_task _ _ C4 p)), (ts_state _ _ (sd_task _ _ _ _ S3 p)). unfold s2, upd_stask. cbn. by rewrite Nat.eqb_refl.
  - rewrite <- A2. destruct (sd_runq _ _ _ _ S3 p c) as (d & Hd & Hdc).
    + rewrite E2. by apply (ra_runq _ _ _ _ R1).
    + exists d. split; [by rewrite (runq_oq qs3 s3)|done].
  - rewrite <- A2. unfold tsk_cpus_allowed. by rewrite (ts_allowed _ _ (cm_task _ _ C4 p)), (ts_allowed _ _ (sd_task _ _ _ _ S3 p)).
  - rewrite (cm_this _ _ C4), (sd_this _ _ _ _ S3). change (this_cpu s2) with (this_cpu s1).
    apply (vf_this _ _ _ (pl_frame _ _ _ (ra_placed _ _ _ _ R1 p))).
Qed.

(** *** ttwu_queue() *)

(** The task waits in the list of a processor that will wake it up. *)
Record handed p c qs s s' : Prop := {
  ha_inv : smp_inv qs s';
  ha_list : p ∈ llist_entries (wake_list (cpus s' c));
  ha_feat : feat_ttwu_queue s = true /\ cpus_share_cache (this_cpu s) c s = false;
  ha_task : stasks s' = stasks s /\ sthread s' = sthread s /\ this_cpu s' = this_cpu s }.

Lemma queue_remote_ok p c qs s : smp_inv qs s -> feat_ttwu_queue s = true -> cpus_share_cache (this_cpu s) c s = false ->
  handed p c qs s (ttwu_queue_remote p c s).
Proof.
  intros Hi Hf Hs. unfold ttwu_queue_remote. destruct (llist_add_spec p (wake_list (cpus s c))) as [_ Hl].
  destruct (llist_add p _) as [e l]. cbn in Hl. set (s1 := upd_cpu c (fun r => r <| wake_list := l |>) s).
  assert (smp_inv qs s1) as I1 by (by apply smp_cpu).
  assert (p ∈ llist_entries (wake_list (cpus s1 c))) as L1.
  { unfold s1, upd_cpu. cbn. rewrite Nat.eqb_refl. cbn. rewrite Hl. by left. }
  destruct e; [|by split]. split; try done. eapply smp_calm; [apply calm_ext| |done]. intros k d. apply oq_reschedule.
Qed.

Lemma do_activate_ok c p f qs s : smp_inv qs s -> is_cpu c = true -> task_cpu s p = c -> task_good s p ->
  c_true (t_on_rq (stasks s p)) = false -> (S (length (runq qs s c)) < fuel)%nat ->
  exists s' qs', ttwu_do_activate fuel c p f s = Ret s' /\ awake p c qs' s s' /\ this_cpu s' = this_cpu s.
Proof.
  intros Hi Hc Hcpu Hg Hp Hf. unfold ttwu_do_activate.
  set (s1 := if c_true (sched_contributes_to_load _) then _ else s).
  assert (smp_inv qs s1 /\ stasks s1 = stasks s /\ sthread s1 = sthread s /\ sext s1 = sext s /\ this_cpu s1 = this_cpu s) as (I1 & E1 & E2 & E3 & E4).
  { unfold s1. destruct (c_true (sched_contributes_to_load _)); [split; [by apply smp_crq|]|]; by split_and!. }
  clearbody s1. assert (runq qs s1 = runq qs s) as R1 by (unfold runq, others; by rewrite E3).
  destruct (ttwu_activate_ok qs s1 c p (Z.lor ENQUEUE_WAKEUP ENQUEUE_WAKING) I1 Hc) as (qs2 & W).
  - unfold task_cpu. by rewrite E2.
  - unfold task_good. by rewrite E1.
  - by rewrite E1.
  - set (s2 := ttwu_activate c p _ s1) in *. destruct W as [W1 W2 W3 W4 (W5 & W6 & W7) W8 W9].
    destruct (ttwu_do_wakeup_ok c p f qs2 s2 W1 Hc W2) as (s3 & qs3 & -> & [A1 A2 A3 A4] & A5); [by rewrite W4, R1|].
    destruct (W8 p) as (W10 & _). assert (tsk_cpus_allowed s1 p = tsk_cpus_allowed s p) as E5 by (unfold tsk_cpus_allowed; by rewrite E1).
    exists s3, qs3. split; [done|]. split; [split; [done..| |]|].
    + by rewrite W10, E5 in A3.
    + by rewrite A4, W10.
    + by rewrite A5, W7.
Qed.

(** Where the task is after ttwu_queue(). *)
Definition awoken p c qs' s s' : Prop := awake p c qs' s s' \/ handed p c qs' s s'.
Lemma ttwu_queue_ok p c qs s : smp_inv qs s -> is_cpu c = true -> task_cpu s p = c -> task_good s p ->
  c_true (t_on_rq (stasks s p)) = false -> (S (length (runq qs s c)) < fuel)%nat ->
  exists s' qs', ttwu_queue fuel p c s = Ret s' /\ awoken p c qs' s s' /\ this_cpu s' = this_cpu s.
Proof.
  intros Hi Hc Hcpu Hg Hp Hf. unfold ttwu_queue. destruct (feat_ttwu_queue s && _) eqn:E.
  - apply andb_true_iff in E as [E1 E2%negb_true_iff]. pose proof (queue_remote_ok p c qs s Hi E1 E2) as H.
    exists (ttwu_queue_remote p c s), qs. split; [done|]. split; [by right|]. apply H.
  - destruct (do_activate_ok c p 0 qs s) as (s' & qs' & E' & H & T); [done..|]. exists s', qs'. split; [done|]. by split; [left|].
Qed.

(** *** ttwu_stat() *)
Record counted s s' : Prop := {
  co_inv : forall qs, smp_inv qs s -> smp_inv qs s';
  co_ext : sext s' = sext s;
  co_state : forall q, t_state (stasks s' q) = t_state (stasks s q) /\ tsk_cpus_allowed s' q = tsk_cpus_allowed s q;
  co_wake : forall d, wake_list (cpus s' d) = wake_list (cpus s d);
  co_cpu : forall q, task_cpu s' q = task_cpu s q }.
#[local] Instance counted_pre : PreOrder counted.
Proof.
  split; [intros s; split; auto|]. intros x y z [A1 A2 A3 A4 A5] [B1 B2 B3 B4 B5]. split.
  - auto.
  - congruence.
  - intros q. destruct (A3 q), (B3 q). split; congruence.
  - intros d. by rewrite B4.
  - intros q. by rewrite B5.
Qed.
Lemma counted_cpu c f s : (forall r, c_rq (f r) = c_rq r /\ c_rt (f r) = c_rt r /\ c_rts (f r) = c_rts r /\ rq_rd (f r) = rq_rd r /\
  rq_online (f r) = rq_online r /\ wake_list (f r) = wake_list r) -> counted s (upd_cpu c f s).
Proof.
  intros Hf. split; try done.
  - intros qs. apply smp_cpu. intros r. by destruct (Hf r) as (? & ? & ? & ? & ? & _).
  - intros d. unfold upd_cpu. cbn. destruct (Nat.eqb_spec d c) as [->|]; [apply Hf|done].
Qed.
Lemma counted_thread p f s : (forall t, t_cpu (f t) = t_cpu t /\ on_cpu (f t) = on_cpu t) -> counted s (upd_thread p f s).
Proof.
  intros Hf. split; try done.
  - intros qs. by apply smp_thread.
  - intros q. unfold task_cpu, upd_thread. cbn. destruct (Nat.eqb_spec q p) as [->|]; [apply Hf|done].
Qed.
Lemma counted_stats p f s : counted s (upd_stats p f s).
Proof.
  split; try done.
  - intros qs. by apply smp_task.
  - intros q. unfold tsk_cpus_allowed, upd_stats, upd_stask. cbn. by destruct (Nat.eqb_spec q p) as [->|].
Qed.
Lemma counted_crq c f s : (forall r, rq_curr (f r) = rq_curr r /\ nr_running (f r) = nr_running r) -> counted s (upd_crq c f s).
Proof.
  intros Hf. split; try done.
  - intros qs. by apply smp_crq.
  - intros d. unfold upd_crq, upd_cpu. cbn. by destruct (Nat.eqb_spec d c) as [->|].
Qed.
Lemma ttwu_stat_ok p c f s : counted s (ttwu_stat p c f s).
Proof.
  unfold ttwu_stat. set (s1 := if (c =? this_cpu s)%nat then _ else _). assert (counted s s1) as C1.
  { unfold s1. destruct (c =? this_cpu s)%nat; (etrans; [|by apply counted_thread || by apply counted_cpu]);
      by apply counted_cpu || by apply counted_thread. }
  clearbody s1. set (s2 := if has_flag f WF_MIGRATED then _ else s1). assert (counted s1 s2) as C2.
  { unfold s2. destruct (has_flag f WF_MIGRATED); [by apply counted_thread|done]. }
  clearbody s2. etrans; [exact C1|]. etrans; [exact C2|].
  destruct (has_flag f WF_SYNC); repeat (etrans; [|apply counted_stats]); by apply counted_crq.
Qed.

(** *** try_to_wake_up() *)

(** set_task_cpu() of a task on no runqueue *)
Lemma set_cpu_smp qs s p c : smp_inv qs s -> c_true (t_on_rq (stasks s p)) = false ->
  let s' := set_task_cpu p c s in smp_inv qs s' /\ move_frame p s s' /\ task_cpu s' p = c /\ same_oq s s'.
Proof.
  intros Hi Hp s'. pose proof (off_runq _ _ _ Hi Hp) as Hno.
  destruct (set_task_cpu_ok qs s p c (si_machine _ _ Hi) Hno) as (M & F & C & O). fold s' in M, F, C, O. split_and!; try done. split.
  - done.
  - intros q. rewrite (ts_on_rq _ _ (vf_task _ _ _ F q)), (si_on_rq _ _ Hi).
    by setoid_rewrite (fun d => eq_ind_r (fun l => q ∈ runq qs s d <-> q ∈ l) (reflexivity _) (runq_oq qs s s' d O)).
  - intros d Hd. rewrite (move_curr _ _ _ _ F), (tk_on_cpu _ _ (vf_thread _ _ _ F _)). by apply (si_on_cpu _ _ Hi).
  - rewrite (vf_this _ _ _ F). apply Hi.
Qed.

Lemma awoken_counted p c qs' s s' s'' : counted s' s'' -> awoken p c qs' s s' ->
  smp_inv qs' s'' /\ tsk_cpus_allowed s'' p = tsk_cpus_allowed s p /\
  ((t_state (stasks s'' p) = TASK_RUNNING /\ exists d, p ∈ runq qs' s'' d /\ (d = c \/ cpumask_test_cpu d (tsk_cpus_allowed s p) = true)) \/
   (t_state (stasks s'' p) = t_state (stasks s p) /\ p ∈ llist_entries (wake_list (cpus s'' c)) /\ task_cpu s'' p = task_cpu s p)).
Proof.
  intros [C1 C2 C3 C4 C5] H. destruct (C3 p) as [E1 E2].
  assert (runq qs' s'' = runq qs' s') as R by (unfold runq, others; by rewrite C2).
  destruct H as [[A1 A2 A3 A4]|[H1 H2 _ (H3 & H4 & H5)]].
  - split; [by apply C1|]. split; [by rewrite E2|]. left. by rewrite E1, R.
  - split; [by apply C1|]. split; [rewrite E2; unfold tsk_cpus_allowed; by rewrite H3|]. right.
    rewrite E1, C4, C5, H3. unfold task_cpu. by rewrite H4.
Qed.

(** select_task_rq() *)
Lemma select_ok qs p sdf f s : cpuset_keeps -> smp_inv qs s -> class_prio s p ->
  (forall d, cpu_online s d = true -> is_cpu d = true) ->
  (exists d, is_cpu d = true /\ usable s d = true /\ cpumask_test_cpu d (possible_mask s) = true) ->
  exists d s', select_task_rq fuel p sdf f s = Some (d, s') /\ smp_inv qs s' /\ is_cpu d = true /\
    cpumask_test_cpu d (tsk_cpus_allowed s' p) = true /\ cpu_online s' d = true /\
    (forall q, t_prio (stasks s' q) = t_prio (stasks s q) /\ t_class (stasks s' q) = t_class (stasks s q) /\
       t_on_rq (stasks s' q) = t_on_rq (stasks s q) /\ t_state (stasks s' q) = t_state (stasks s q)) /\ same_oq s s'.
Proof.
  intros Hc Hi Hp Hon Hu. unfold select_task_rq. set (d := sc_select_task_rq _ _ _ _ _).
  destruct (cpumask_test_cpu d (tsk_cpus_allowed s p) && cpu_online s d) eqn:E; rewrite <- negb_andb, E; cbn [negb].
  { apply andb_true_iff in E as [E1 E2]. exists d, s. by split_and!; auto. }
  destruct (fallback_ok fuel qs (task_cpu s p) p s Hc Hi Hp Hu) as (x & s' & E' & I' & (G1 & G2 & G3) & Hor).
  exists x, s'. unfold usable in G2. apply andb_true_iff in G2 as [G2 _]. do 5 (split; [done|]).
  destruct Hor as [->|((m & F) & _)]; [by split|]. split; [|apply (af_oq _ _ _ _ F)].
  intros q. destruct (allowed_task _ _ _ _ q F) as (? & ? & ?). split_and!; [done..|].
  rewrite (ts_state _ _ (af_task _ _ _ _ F q)). unfold put_mask, upd_stask. cbn.
  destruct (Nat.eqb_spec q p) as [->|]; [by rewrite Nat.eqb_refl|done].
Qed.

(** The task is ready to be queued. *)
Record ready p qs s s' : Prop := {
  re_inv : smp_inv qs s';
  re_oq : same_oq s s';
  re_good : task_good s' p;
  re_off : c_true (t_on_rq (stasks s' p)) = false;
  re_masks : online_mask s' = online_mask s /\ active_mask s' = active_mask s /\ possible_mask s' = possible_mask s }.

Lemma ready_waking p qs s : smp_inv qs s -> task_good s p -> c_true (t_on_rq (stasks s p)) = false ->
  let s1 := upd_thread p (fun t => t <| sched_contributes_to_load := of_bool (task_contributes_to_load (stasks s p)) |>) s in
  let s2 := upd_stask p (fun t => t <| t_state := TASK_WAKING |>) s1 in
  let s3 := match sc_task_waking (p_class fuel s2 p) with Some task_waking => task_waking p s2 | None => s2 end in
  ready p qs s s3 /\ t_state (stasks s3 p) = TASK_WAKING.
Proof.
  intros Hi Hg Hp s1 s2. assert (smp_inv qs s2) as I2 by (apply smp_task; [done|]; by apply smp_thread).
  assert (ready p qs s s2 /\ t_state (stasks s2 p) = TASK_WAKING) as [R2 E2].
  { split; [split; try done|].
    - revert Hg. unfold task_good, s2, upd_stask. cbn. by rewrite Nat.eqb_refl.
    - unfold s2, upd_stask. cbn. by rewrite Nat.eqb_refl.
    - unfold s2, upd_stask. cbn. by rewrite Nat.eqb_refl. }
  clearbody s2. intros s3. destruct (decide (t_class (stasks s2 p) = rt_class)) as [E|E].
  { unfold s3, p_class. by rewrite E. }
  destruct (oh_waking (t_class (stasks s2 p)) p s2 E) as [C3 O3]. rewrite <- (class_of_other fuel) in C3, O3 by done.
  fold (p_class fuel s2 p) in C3, O3. fold s3 in C3, O3. clearbody s3. destruct R2 as [A1 A2 A3 A4 A5].
  split; [split|].
  - by eapply smp_calm.
  - intros k d. by rewrite O3, A2.
  - by eapply calm_good.
  - by rewrite (ts_on_rq _ _ (cm_task _ _ C3 p)).
  - by rewrite (cm_online _ _ C3), (cm_active _ _ C3), (cm_possible _ _ C3).
  - by rewrite (ts_state _ _ (cm_task _ _ C3 p)).
Qed.

(** The machine has a processor to run tasks on. *)
Definition some_cpu s : Prop := exists d, is_cpu d = true /\ usable s d = true /\ cpumask_test_cpu d (possible_mask s) = true.
Definition online_cpus s : Prop := forall d, cpu_online s d = true -> is_cpu d = true.

(** A task woken up: it waits on a runqueue, or in the list of the processor that
    will put it on its own; where it goes it may run. *)
Definition wakes p qs' s' : Prop :=
  (t_state (stasks s' p) = TASK_RUNNING /\ exists d, p ∈ runq qs' s' d /\ cpumask_test_cpu d (tsk_cpus_allowed s' p) = true) \/
  (t_state (stasks s' p) = TASK_WAKING /\
     exists d, p ∈ llist_entries (wake_list (cpus s' d)) /\ task_cpu s' p = d /\ cpumask_test_cpu d (tsk_cpus_allowed s' p) = true).

Lemma good_prio s p : task_good s p -> class_prio s p.
Proof.
  intros [_ [[_ H]|H]] E; [|destruct (rt_not_other); by rewrite <- E].
  unfold in_range in H. unfold rt_task, rt_prio. lia.
Qed.

Lemma wake_migrate_ok p f qs s : cpuset_keeps -> smp_inv qs s -> task_good s p -> c_true (t_on_rq (stasks s p)) = false ->
  online_cpus s -> some_cpu s -> (forall c, (S (length (runq qs s c)) < fuel)%nat) ->
  exists s' qs', wake_migrate fuel p f s = Ret s' /\ smp_inv qs' s' /\ wakes p qs' s'.
Proof.
  intros Hc Hi Hg Hp Hon Hu Hf. unfold wake_migrate. destruct (ready_waking p qs s Hi Hg Hp) as [[I3 O3 G3 P3 (M1 & M2 & M3)] W3].
  set (s3 := match sc_task_waking _ with Some f => _ | None => _ end) in *.
  destruct (select_ok qs p SD_BALANCE_WAKE f s3 Hc I3 (good_prio _ _ G3)) as (d & s4 & E4 & I4 & Hd & A4 & N4 & T4 & O4).
  { intros x. unfold cpu_online. rewrite M1. apply Hon. }
  { destruct Hu as (x & ?). exists x. unfold usable, cpu_online, cpu_active. by rewrite M1, M2, M3. }
  cbv zeta. fold s3. rewrite E4. destruct (T4 p) as (T5 & T6 & T7 & T8).
  assert (task_good s4 p) as G4 by (unfold task_good; rewrite T5, T6; apply G3).
  rewrite <- T7 in P3. rewrite <- T8 in W3.
  assert (exists f' s5, (if negb (task_cpu s4 p =? d)%nat then (Z.lor f WF_MIGRATED, set_task_cpu p d s4) else (f, s4)) = (f', s5) /\
    smp_inv qs s5 /\ move_frame p s4 s5 /\ task_cpu s5 p = d /\ same_oq s4 s5) as (f' & s5 & -> & I5 & F5 & C5 & O5).
  { destruct (Nat.eqb_spec (task_cpu s4 p) d) as [E|E]; cbn [negb].
    - by exists f, s4.
    - eexists _, _. split; [done|]. by apply set_cpu_smp. }
  pose proof (vf_task _ _ _ F5 p) as [S1 S2 S3 _ S5 S6 _ _].
  destruct (ttwu_queue_ok p d qs s5 I5 Hd C5) as (s6 & qs6 & -> & Haw & _).
  { unfold task_good. by rewrite S1, S2. }
  { by rewrite S5. }
  { rewrite (runq_oq qs s s5); [done|]. intros k x. by rewrite O5, O4, O3. }
  destruct (awoken_counted p d qs6 s5 s6 (ttwu_stat p d f' s6) (ttwu_stat_ok _ _ _ _) Haw) as (I7 & E7 & H7).
  exists (ttwu_stat p d f' s6), qs6. split; [done|]. split; [done|].
  assert (cpumask_test_cpu d (tsk_cpus_allowed s5 p) = true) as A5 by (unfold tsk_cpus_allowed; by rewrite S3).
  unfold wakes. rewrite E7. destruct H7 as [(R & x & Hx & Hor)|(R & Hl & Hcp)].
  - left. split; [done|]. exists x. split; [done|]. by destruct Hor as [->|].
  - right. split; [by rewrite R, S6|]. exists d. by rewrite Hcp.
Qed.

(** C4: try_to_wake_up() on several processors, the others being quiet: a task in
    none of the states asked for is left alone; any other is woken up, whatever
    processor its class proposes.  If it is still on a runqueue it runs again and
    stays on one; otherwise it is put, in state TASK_RUNNING, on the runqueue of a
    processor it may use, or handed, in state TASK_WAKING, to the list of such a
    processor, to which it is assigned.  The machine stays consistent and the
    checks of the real-time class never fire. *)
Theorem try_to_wake_up_wakes n p state f qs s : cpuset_keeps -> smp_inv qs s -> task_good s p ->
  (c_true (t_on_rq (stasks s p)) = false -> c_true (on_cpu (sthread s p)) = false) ->
  online_cpus s -> some_cpu s -> (forall c, (S (length (runq qs s c)) < fuel)%nat) ->
  if has_flag (t_state (stasks s p)) state then
    exists s' qs', try_to_wake_up fuel (S n) p state f s = Ret (true, s') /\ smp_inv qs' s' /\
      (if c_true (t_on_rq (stasks s p)) then t_state (stasks s' p) = TASK_RUNNING /\ exists d, p ∈ runq qs' s' d
       else wakes p qs' s')
  else try_to_wake_up fuel (S n) p state f s = Ret (false, s).
Proof.
  intros Hc Hi Hg Hsw Hon Hu Hf. unfold try_to_wake_up. destruct (has_flag _ state); [|done]. cbn [negb]. unfold ttwu_remote.
  destruct (c_true (t_on_rq (stasks s p))) eqn:Ep.
  - pose proof (on_rq_here qs s p Hi Ep) as Hh. destruct (runq_task _ _ _ _ (si_machine _ _ Hi) Hh) as (Hcp & _).
    destruct (ttwu_do_wakeup_ok (task_cpu s p) p f qs s Hi Hcp Hh) as (s1 & qs1 & -> & Haw & _); [specialize (Hf (task_cpu s p)); lia|].
    exists (ttwu_stat p (task_cpu s p) f s1), qs1. split; [done|].
    destruct (ttwu_stat_ok p (task_cpu s p) f s1) as [C1 C2 C3 C4 C5]. destruct Haw as [A1 A2 (d & A3 & _) _].
    split; [by apply C1|]. destruct (C3 p) as [-> _]. split; [done|]. exists d. unfold runq, others. by rewrite C2.
  - cbn [wait_on_cpu]. rewrite (Hsw eq_refl). destruct (wake_migrate_ok p f qs s) as (s' & qs' & -> & ? & ?); [done..|].
    by exists s', qs'.
Qed.
End wakeup.
