(* ===== verification/RootSpec.v ===== *)
(** A runqueue changes its root domain: rq_attach_root() never runs into the
    BUG_ON() of __disable_runtime(), keeps the invariant of the machine, and in
    every root domain the real-time runtime stays conserved. *)

From S2P Require Import Prelude KList Sched Ras Rt RtSpec TaskGroupSpec RtBorrow RtBorrowSpec Affinity Smp RtSmp RtPush SmpSpec RtSmpSpec SmpMachine RtPushSpec Migrate MigrateSpec.

(** The stop, RAS, fair and idle classes do not touch the real-time runqueues
    when a processor goes on or off line. *)
Class RuntimeHooks `{OtherHooks} : Prop := {
  rh_online k c s i : not_rt k ->
    crt (match sc_rq_online (smp_ops k) with Some f => f c s | None => s end) i = crt s i;
  rh_offline k c s s' i : not_rt k ->
    (match sc_rq_offline (smp_ops k) with Some f => f c s | None => Some s end) = Some s' -> crt s' i = crt s i }.

Lemma zsum_perm (l l' : list Z) : l ≡ₚ l' -> zsum l = zsum l'.
Proof. induction 1; cbn; lia. Qed.

(** ** The processors of a mask *)
Section cpus_of.
Context {CM : CpuMask} {CMS : CpuMasks} {CML : CpuMasksLaws}.

Lemma is_cpu_iff c : is_cpu c = true <-> (c < nr_cpus)%nat.
Proof. unfold is_cpu, nr_cpus. rewrite Z.ltb_lt. lia. Qed.

Lemma filter_none (P : nat -> Prop) `{forall x, Decision (P x)} l : (forall x, x ∈ l -> ~ P x) -> filter P l = [].
Proof.
  induction l as [|x l IH]; intros Hl; [done|]. rewrite filter_cons_False by (apply Hl; set_solver). apply IH. set_solver.
Qed.

Lemma cpus_from_eq n prev m : let b := match prev with None => 0 | Some x => S x end%nat in
  (nr_cpus <= n + b)%nat -> cpus_from n prev m = filter (fun c => cpumask_test_cpu c m = true) (seq b (nr_cpus - b)).
Proof.
  revert prev. induction n as [|n IH]; intros prev b Hn.
  - replace (nr_cpus - b)%nat with 0%nat by lia. done.
  - cbn [cpus_from]. set (x := cpumask_next prev m). pose proof (next_after prev m) as Ha. fold x in Ha.
    assert (b <= x)%nat as Hb by (unfold b; destruct prev; cbn in Ha; lia).
    assert (forall c, (b <= c < nr_cpus)%nat -> (c < x)%nat -> cpumask_test_cpu c m <> true) as Hl.
    { intros c Hc Hx Ht. pose proof (next_least prev m c) as H. fold x in H. apply Nat.lt_nge in Hx. apply Hx, H; [apply is_cpu_iff; lia| |done].
      unfold b in Hc. destruct prev; cbn; [lia|done]. }
    destruct (is_cpu x) eqn:E.
    + apply is_cpu_iff in E. rewrite IH by lia.
      replace (nr_cpus - b)%nat with ((x - b) + S (nr_cpus - S x))%nat by lia. rewrite seq_app, filter_app.
      replace (b + (x - b))%nat with x by lia. cbn [seq]. rewrite filter_cons_True by (apply next_in; by apply is_cpu_iff).
      rewrite (filter_none _ (seq b (x - b))); [done|]. intros c Hc%elem_of_seq. apply Hl; lia.
    + symmetry. apply filter_none. intros c Hc%elem_of_seq. apply Hl; [lia|].
      assert (~ (x < nr_cpus)%nat) by (intros H%is_cpu_iff; congruence). lia.
Qed.
Lemma cpus_of_eq m : cpus_of m = filter (fun c => cpumask_test_cpu c m = true) (seq 0 nr_cpus).
Proof. unfold cpus_of. rewrite cpus_from_eq by lia. by rewrite Nat.sub_0_r. Qed.
Lemma elem_of_cpus m c : c ∈ cpus_of m <-> is_cpu c = true /\ cpumask_test_cpu c m = true.
Proof. rewrite cpus_of_eq, list_elem_of_filter, elem_of_seq, is_cpu_iff. naive_solver lia. Qed.
Lemma cpus_nodup m : NoDup (cpus_of m).
Proof. rewrite cpus_of_eq. apply NoDup_filter, NoDup_seq. Qed.
Lemma cpus_length m : (length (cpus_of m) <= nr_cpus)%nat.
Proof. rewrite cpus_of_eq. etrans; [apply length_filter|]. by rewrite length_seq. Qed.
Lemma cpus_ext m m' : (forall c, is_cpu c = true -> cpumask_test_cpu c m = cpumask_test_cpu c m') -> cpus_of m = cpus_of m'.
Proof.
  intros H. rewrite !cpus_of_eq. apply filter_same. intros c Hc%elem_of_seq. rewrite H; [done|]. apply is_cpu_iff. lia.
Qed.
Lemma cpus_set c m : is_cpu c = true -> cpumask_test_cpu c m = false -> cpus_of (cpumask_set_cpu c m) ≡ₚ c :: cpus_of m.
Proof.
  intros Hc Ht. apply NoDup_Permutation; [apply cpus_nodup|constructor; [|apply cpus_nodup]|].
  - rewrite elem_of_cpus. intros [_ H]. congruence.
  - intros x. rewrite elem_of_cons, !elem_of_cpus. split.
    + intros [Hx H]. rewrite set_cpu_spec in H by done. destruct (Nat.eqb_spec x c) as [->|]; [by left|by right].
    + intros [->|[Hx H]]; (split; [done|]); rewrite set_cpu_spec by done; [by rewrite Nat.eqb_refl|]. rewrite H. apply orb_true_r.
Qed.
Lemma cpus_clear c m : is_cpu c = true -> cpumask_test_cpu c m = true -> cpus_of m ≡ₚ c :: cpus_of (cpumask_clear_cpu c m).
Proof.
  intros Hc Ht. apply NoDup_Permutation; [apply cpus_nodup|constructor; [|apply cpus_nodup]|].
  - rewrite elem_of_cpus, clear_cpu_spec, Nat.eqb_refl by done. by intros [_ ?].
  - intros x. rewrite elem_of_cons, !elem_of_cpus. split.
    + intros [Hx H]. destruct (decide (x = c)) as [->|Hne]; [by left|right]. split; [done|].
      rewrite clear_cpu_spec by done. by rewrite (proj2 (Nat.eqb_neq x c) Hne).
    + intros [->|[Hx H]]; [done|]. rewrite clear_cpu_spec in H by done. apply andb_true_iff in H as [_ H]. done.
Qed.
End cpus_of.

Section root.
Context {SK : SKTypes} {ST : SmpTypes} {STL : SmpTypesLaws} {CM : CpuMask} {CMS : CpuMasks} {CML : CpuMasksLaws} {SE : SmpEnv}
  {SL : SmpEnvLaws} {NL : KListLaws snode} {SC : SmpClasses} {OC : OtherClasses} {OH : OtherHooks} {RH : RuntimeHooks} {ME : MigrateEnv}.
Implicit Types (s : smp) (c p d : nat) (qs : nat -> Z -> list nat).
Context (fuel : nat).

(** ** Steps that only change one processor's root domain *)

Definition re_root c s' s : smp :=
  upd_cpu c (fun r => r <| rq_rd := rq_rd (cpus s' c) |> <| rq_online := rq_online (cpus s' c) |>) (s <| rds := rds s' |>).
(** [s'] is [s] but for the root domain and the online flag of [c] and for the
    root domains. *)
Definition root_step c s s' : Prop := calm (re_root c s' s) s' /\ same_oq s s'.

Lemma re_root_cpu c s s' d : let r := cpus (re_root c s' s) d in
  c_rq r = c_rq (cpus s d) /\ c_rt r = c_rt (cpus s d) /\ c_rts r = c_rts (cpus s d) /\
  rq_sd r = rq_sd (cpus s d) /\ wake_list r = wake_list (cpus s d) /\
  rq_rd r = (if (d =? c)%nat then rq_rd (cpus s' c) else rq_rd (cpus s d)) /\
  rq_online r = (if (d =? c)%nat then rq_online (cpus s' c) else rq_online (cpus s d)).
Proof. cbv zeta. unfold re_root, upd_cpu. cbn. by destruct (Nat.eqb_spec d c) as [->|]. Qed.

(** The processors and the tasks of [s'], in terms of those of [s]. *)
Record root_frame c s s' : Prop := {
  rf_task : forall p, task_same (stasks s p) (stasks s' p);
  rf_thread : sthread s' = sthread s;
  rf_rq : forall d, rq_same (crq s d) (crq s' d);
  rf_rt : forall d, array_same (crt s d) (crt s' d);
  rf_rts : forall d, crts s' d = crts s d;
  rf_sd : forall d, rq_sd (cpus s' d) = rq_sd (cpus s d);
  rf_wake : forall d, wake_list (cpus s' d) = wake_list (cpus s d);
  rf_rd : forall d, d <> c -> rq_rd (cpus s' d) = rq_rd (cpus s d);
  rf_online : forall d, d <> c -> rq_online (cpus s' d) = rq_online (cpus s d);
  rf_masks : online_mask s' = online_mask s /\ active_mask s' = active_mask s /\ possible_mask s' = possible_mask s;
  rf_this : this_cpu s' = this_cpu s;
  rf_run : running s' = running s;
  rf_bw : rtb_period (def_rt_bw s') = rtb_period (def_rt_bw s) /\ rtb_runtime (def_rt_bw s') = rtb_runtime (def_rt_bw s) }.

Lemma root_step_frame c s s' : root_step c s s' -> root_frame c s s'.
Proof.
  intros [[C1 C2 C3 C4 C5 C6 C7 C8 C9 C10 C11 C12 C13 C14 C15] _].
  assert (forall d, cpu_same (cpus (re_root c s' s) d) (cpus s' d)) as Hd by apply C3.
  split; try done; try (intros d; destruct (re_root_cpu c s s' d) as (E1 & E2 & E3 & E4 & E5 & E6 & E7);
    destruct (Hd d) as [F1 F2 F3 F4 F5 F6 F7]; unfold crq, crt, crts in *; rewrite ?E1, ?E2, ?E3, ?E4, ?E5 in *; done);
    intros d Hne; destruct (re_root_cpu c s s' d) as (E1 & E2 & E3 & E4 & E5 & E6 & E7); destruct (Hd d) as [F1 F2 F3 F4 F5 F6 F7];
    rewrite (proj2 (Nat.eqb_neq d c) Hne) in *; congruence.
Qed.

Lemma smp_re_root qs c s s' : rd_ok (re_root c s' s) -> smp_inv qs s -> smp_inv qs (re_root c s' s).
Proof.
  intros Hrd [[[[A1 A2 A3 A4] A5] M2 M3 M4 M5] H2 H3 H4]. pose proof (re_root_cpu c s s') as Hd. cbv zeta in Hd.
  set (s1 := re_root c s' s) in *.
  assert (forall d, crq s1 d = crq s d /\ crt s1 d = crt s d /\ crts s1 d = crts s d) as He.
  { intros d. unfold crq, crt, crts. by destruct (Hd d) as (-> & -> & -> & _). }
  assert (forall d, cpu_curr s1 d = cpu_curr s d) as Hcur by (intros d; unfold cpu_curr; by destruct (He d) as (-> & _)).
  split; [split; [split; [split|]|..]|..]; try done.
  - intros d Hc. destruct (He d) as (_ & Hr & Hs). apply (cpu_array_same _ s); [done|by rewrite Hr|done|by apply A3].
  - intros d Hc. destruct (He d) as (_ & _ & Hs). apply (push_cpu_same (eligible qs s d) _ s s1); [|done|by rewrite Hs..|by apply A5].
    intros x. unfold eligible. by rewrite Hcur.
  - intros d Hc. destruct (He d) as (-> & _). by apply M5.
  - intros d Hc. rewrite Hcur. by apply H3.
Qed.

Lemma over_re_root c s s' d x : root_step c s s' -> over_in (re_root c s' s) d x = over_in s' d x.
Proof.
  intros [Hc _]. pose proof (cm_cpu _ _ Hc x) as [_ _ F3 F4 _ F6 _]. unfold crts in *. symmetry. apply over_same; [done..|].
  unfold crts. by rewrite F3.
Qed.
Lemma smp_root qs c s s' : root_step c s s' -> rd_ok s' -> smp_inv qs s -> smp_inv qs s'.
Proof.
  intros Hs Hrd Hi. destruct Hs as [Hc Ho] eqn:Es. clear Es. apply (smp_calm qs (re_root c s' s)); [done|done|].
  apply smp_re_root; [|done]. apply (rd_ok_same s'); [|by intros d; rewrite (cm_rds _ _ Hc)|done].
  intros d x. by apply over_re_root.
Qed.

Lemma root_calm c s s' : calm s s' -> same_oq s s' -> root_step c s s'.
Proof.
  intros Hc Ho. split; [|done]. etrans; [|apply Hc]. destruct Hc as [C1 C2 C3 C4 C5 _ _ _ _ _ _ _ _ _ _].
  split; try done. intros d. unfold re_root, upd_cpu. cbn. destruct (Nat.eqb_spec d c) as [->|]; [|done].
  destruct (C3 c). split; cbn; done.
Qed.

Lemma calm_re_root c s2 s s' : calm s s' -> calm (re_root c s2 s) (re_root c s2 s').
Proof.
  intros [C1 C2 C3 C4 C5 C6 C7 C8 C9 C10 C11 C12 C13 C14 C15]. split; try done.
  intros d. unfold re_root, upd_cpu. cbn. destruct (Nat.eqb_spec d c) as [->|]; [|done].
  destruct (C3 c). by split.
Qed.
Lemma root_trans c s1 s2 s3 : root_step c s1 s2 -> root_step c s2 s3 -> root_step c s1 s3.
Proof.
  intros [C1 O1] [C2 O2]. split; [|intros k d; by rewrite O2].
  etrans; [|apply C2]. etrans; [|apply (calm_re_root c s3), C1]. split; try done.
  intros d. unfold re_root, upd_cpu. cbn. destruct (Nat.eqb_spec d c) as [->|]; [|done]. cbn. by rewrite Nat.eqb_refl.
Qed.
(** A write to the two members and to root domains. *)
Lemma root_write c s s' : (exists m g, s' = upd_cpu c g (s <| rds := m |>) /\
    forall r, g r = r <| rq_rd := rq_rd (g r) |> <| rq_online := rq_online (g r) |>) -> root_step c s s'.
Proof.
  intros (m & g & -> & Hg). split; [|done]. split; try done.
  intros d. unfold re_root, upd_cpu. cbn. destruct (Nat.eqb_spec d c) as [->|]; [|done]. rewrite !Nat.eqb_refl.
  rewrite (Hg (cpus s c)). by split.
Qed.
Lemma root_upd_rd c d f s : root_step c s (upd_rd d f s).
Proof.
  split; [|done]. split; try done. intros x. unfold re_root, upd_cpu, upd_rd. cbn. by destruct (Nat.eqb_spec x c) as [->|].
Qed.
Lemma root_my_rd c f s : root_step c s (upd_my_rd c f s).
Proof. unfold upd_my_rd. case_match; [apply root_upd_rd|]. by apply root_calm. Qed.
Lemma root_set_rd c o s : root_step c s (upd_cpu c (fun r => r <| rq_rd := o |>) s).
Proof. apply root_write. exists (rds s), (fun r => r <| rq_rd := o |>). by destruct s. Qed.
Lemma root_set_online c v s : root_step c s (upd_cpu c (fun r => r <| rq_online := v |>) s).
Proof. apply root_write. exists (rds s), (fun r => r <| rq_online := v |>). by destruct s. Qed.

(** ** Runtime in a root domain *)

(** The rt_rqs as the code that borrows in the root domain [d] sees them. *)
Definition rd_view d s : smp_rt := {|
  span := cpus_of (rd_span (rds s d)); rt_groups := [0%nat]; group_bw := fun _ => def_rt_bw s;
  cpu_rt := fun _ i => crt s i; share_feat := feat_share s; smp_running := running s |}.
Definition down s c : Prop := rt_runtime (crt s c) = RUNTIME_INF.

Lemma view_eq c d s : rq_rd (cpus s c) = Some d -> borrow_view c s = rd_view d s.
Proof. intros E. unfold borrow_view. by rewrite E. Qed.

Definition bw_same s s' : Prop :=
  rtb_period (def_rt_bw s') = rtb_period (def_rt_bw s) /\ rtb_runtime (def_rt_bw s') = rtb_runtime (def_rt_bw s).
(** Only the runtime of the members and the bandwidth matter. *)
Lemma fair_same d s s' : cpus_of (rd_span (rds s' d)) = cpus_of (rd_span (rds s d)) -> bw_same s s' ->
  (forall i, i ∈ cpus_of (rd_span (rds s d)) -> rt_runtime (crt s' i) = rt_runtime (crt s i) /\ rt_time (crt s' i) = rt_time (crt s i)) ->
  fair_group (rd_view d s) 0 -> fair_group (rd_view d s') 0.
Proof.
  intros Es [Ep Er] Hi [F1 F2 F3 F4 F5 F6]. cbn in *.
  assert (forall i, i ∈ cpus_of (rd_span (rds s d)) -> hold (rd_view d s') 0 i = hold (rd_view d s) 0 i /\
    part (rd_view d s') 0 i = part (rd_view d s) 0 i) as E.
  { intros i Hin. destruct (Hi i Hin) as [E _]. unfold hold, part, disabled, rtime. cbn. by rewrite E. }
  split; cbn; rewrite ?Es, ?Ep; unfold group_rt in *; cbn in *; rewrite ?Er; try done.
  - intros i Hin. destruct (E i Hin) as [-> _]. by apply F4.
  - intros i Hin. destruct (Hi i Hin) as [_ ->]. by apply F5.
  - rewrite (zsum_ext (hold (rd_view d s) 0) (hold (rd_view d s') 0)), (zsum_ext (part (rd_view d s) 0) (part (rd_view d s') 0));
      [done|intros; by apply E..].
Qed.

(** A processor that is not a member keeps its runtime. *)
Lemma reclaim_outside g c l want v i : i ∉ l -> cpu_rt (reclaim_loop g c l want v).2 g i = cpu_rt v g i.
Proof.
  revert want v. induction l as [|x l IH]; intros want v Hi; [done|]. cbn [reclaim_loop].
  apply not_elem_of_cons in Hi as [Hx Hi]. case_match; [by apply IH|].
  destruct (0 <? want); (case_match; cbn -[upd_cpu_rt]; [by apply cpu_rt_ne|rewrite IH by done; by apply cpu_rt_ne]).
Qed.
Lemma disable_outside g c v v' i : disable_group c g v = Some v' -> i ∉ RtBorrow.span v -> i <> c -> cpu_rt v' g i = cpu_rt v g i.
Proof.
  unfold disable_group. intros H Hi Hc. case_match; [injection H as <-; by apply cpu_rt_ne|].
  pose proof (reclaim_outside g c (RtBorrow.span v) (s64 (u64 (rtb_runtime (group_bw v g) - rt_runtime (cpu_rt v g c)))) v i Hi) as E.
  destruct (reclaim_loop _ _ _ _ _) as [w v1]. cbn in E. case_match; [done|]. injection H as <-. rewrite cpu_rt_ne by done. done.
Qed.

(** __disable_runtime() and __enable_runtime() in the root domain [d] of [c] *)
Lemma disable_view c d s : running s = true -> rq_rd (cpus s c) = Some d -> c ∈ cpus_of (rd_span (rds s d)) -> fair_group (rd_view d s) 0 ->
  exists s', __disable_runtime c s = Some s' /\ calm s s' /\ fair_group (rd_view d s') 0 /\ down s' c /\ same_oq s s' /\
    (forall i, i <> c -> down s i -> down s' i) /\
    (forall i, i ∉ cpus_of (rd_span (rds s d)) -> crt s' i = crt s i).
Proof.
  intros Hr Ed Hc Hf. unfold __disable_runtime. rewrite (view_eq c d s Ed). unfold RtBorrow.__disable_runtime.
  change (smp_running (rd_view d s)) with (running s). change (rt_groups (rd_view d s)) with [0%nat]. rewrite Hr. cbn [negb disable_groups].
  destruct (disable_group_holds 0 c (rd_view d s) Hf) as (v & E & F1 & F2 & F3 & F4); [done|]. rewrite E.
  eexists. split; [done|].
  assert (forall i, crt (borrow_back v s) i = cpu_rt v 0 i) as Ev by done.
  assert (forall i, i <> c -> i ∉ cpus_of (rd_span (rds s d)) -> crt (borrow_back v s) i = crt s i) as Ho.
  { intros i Hi Hs. rewrite Ev. apply (disable_outside 0 c (rd_view d s)); done. }
  split; [apply (borrow_back_calm c); rewrite (view_eq c d s Ed); by eapply disable_group_arrays|].
  split; [|split; [|split; [done|split]]].
  - apply (fair_ext 0 v); [by rewrite (fr_span _ _ _ F2)|by rewrite (fr_bw _ _ _ F2)|done| |done].
    intros i Hi. cbn. apply (fg_time _ _ F1 i Hi).
  - unfold disabled, rtime in F3. apply Z.eqb_eq in F3. apply F3.
  - intros i Hi Hd. specialize (F4 i Hi). unfold disabled, rtime, down in *. rewrite Ev. cbn in F4. rewrite Hd, Z.eqb_refl in F4. by apply Z.eqb_eq.
  - intros i Hi. destruct (decide (i = c)) as [->|Hne]; [done|]. by apply Ho.
Qed.
Lemma enable_view c d s : running s = true -> rq_rd (cpus s c) = Some d -> c ∈ cpus_of (rd_span (rds s d)) -> fair_group (rd_view d s) 0 -> down s c ->
  let s' := __enable_runtime c s in
  calm s s' /\ fair_group (rd_view d s') 0 /\ same_oq s s' /\ forall i, i <> c -> crt s' i = crt s i.
Proof.
  intros Hr Ed Hc Hf Hd. cbv zeta. split; [apply enable_calm|]. unfold __enable_runtime. rewrite (view_eq c d s Ed). unfold RtBorrow.__enable_runtime.
  change (smp_running (rd_view d s)) with (running s). change (rt_groups (rd_view d s)) with [0%nat]. rewrite Hr. cbn [negb fold_left].
  destruct (enable_group_holds 0 c (rd_view d s) Hf) as (F1 & _ & F3 & _); [done|left; unfold disabled, rtime; cbn; by apply Z.eqb_eq|].
  split; [|split; [done|]].
  - apply (fair_ext 0 (enable_group c 0 (rd_view d s))); [done..| |done]. intros i Hi. cbn. by apply (fg_time _ _ F1).
  - intros i Hi. by apply F3.
Qed.

(** ** The hooks of the other classes *)

Definition hook_step s s' : Prop := calm s s' /\ same_oq s s' /\ forall i, crt s' i = crt s i.
Lemma hook_refl s : hook_step s s.
Proof. by split_and!. Qed.
Lemma hook_trans s1 s2 s3 : hook_step s1 s2 -> hook_step s2 s3 -> hook_step s1 s3.
Proof. intros (C1 & O1 & R1) (C2 & O2 & R2). split_and!; [by etrans|intros k d; by rewrite O2|intros i; by rewrite R2]. Qed.

Lemma offline_hooks cs c s : Forall not_rt cs -> exists s', offline_loop fuel cs c s = Some s' /\ hook_step s s'.
Proof.
  revert s. induction cs as [|k cs IH]; intros s Hk; [exists s; split; [done|apply hook_refl]|]. cbn [offline_loop].
  apply Forall_cons in Hk as [Hk Hcs]. rewrite class_of_other by done.
  destruct (oh_offline k c s Hk) as (s1 & E & C & O). pose proof (fun i => rh_offline k c s s1 i Hk E) as R. rewrite E.
  destruct (IH s1 Hcs) as (s2 & E2 & H2). exists s2. split; [done|]. by apply (hook_trans s s1).
Qed.
Lemma online_hooks cs c s : Forall not_rt cs -> hook_step s (online_loop fuel cs c s).
Proof.
  revert s. induction cs as [|k cs IH]; intros s Hk; [apply hook_refl|]. cbn [online_loop].
  apply Forall_cons in Hk as [Hk Hcs]. rewrite class_of_other by done.
  destruct (oh_online k c s Hk) as [C O]. pose proof (fun i => rh_online k c s i Hk) as R.
  eapply hook_trans; [|by apply IH]. done.
Qed.
Lemma offline_app cs1 cs2 c s : offline_loop fuel (cs1 ++ cs2) c s =
  match offline_loop fuel cs1 c s with None => None | Some s => offline_loop fuel cs2 c s end.
Proof. revert s. induction cs1 as [|k cs1 IH]; intros s; [done|]. cbn [app offline_loop]. by case_match. Qed.
Lemma online_app cs1 cs2 c s : online_loop fuel (cs1 ++ cs2) c s = online_loop fuel cs2 c (online_loop fuel cs1 c s).
Proof. revert s. induction cs1 as [|k cs1 IH]; intros s; [done|]. cbn [app online_loop]. apply IH. Qed.
Lemma classes_split : classes = [stop_class] ++ [rt_class] ++ [ras_class; fair_class; idle_class].
Proof. done. Qed.
Lemma not_rt_before : Forall not_rt [stop_class].
Proof. by repeat constructor. Qed.
Lemma not_rt_after : Forall not_rt [ras_class; fair_class; idle_class].
Proof. by repeat constructor. Qed.

(** ** Going off and on line *)

(** [c] is a processor of the root domain [d], in a machine that runs. *)
Record in_root c d s : Prop := {
  ir_run : running s = true;
  ir_cpu : is_cpu c = true;
  ir_rd : rq_rd (cpus s c) = Some d;
  ir_span : c ∈ cpus_of (rd_span (rds s d));
  ir_fair : fair_group (rd_view d s) 0;
  ir_over : overloaded (crts s c) = of_bool (c_true (overloaded (crts s c))) }.

(** What the root domains and the runtime look like after [c], of [d], went off
    line ([v = 0]) or on line ([v = 1]). *)
Record moved_line (v : Z) c d s s' : Prop := {
  ml_step : root_step c s s';
  ml_rd : rq_rd (cpus s' c) = Some d;
  ml_flag : rq_online (cpus s' c) = v;
  ml_other : forall e, e <> d -> rds s' e = rds s e;
  ml_span : rd_span (rds s' d) = rd_span (rds s d);
  ml_ref : refcount (rds s' d) = refcount (rds s d);
  ml_online : rd_online (rds s' d) = (if v =? 1 then cpumask_set_cpu else cpumask_clear_cpu) c (rd_online (rds s d));
  ml_ok : rd_ok s';
  ml_fair : fair_group (rd_view d s') 0;
  ml_down : forall i, i <> c -> down s i -> down s' i;
  ml_out : forall i, i ∉ cpus_of (rd_span (rds s d)) -> crt s' i = crt s i }.

Lemma hook_in_root c d s s' : hook_step s s' -> in_root c d s -> in_root c d s'.
Proof.
  intros (C & _ & R) [I1 I2 I3 I4 I5 I6]. split; try done.
  - by rewrite (cm_run _ _ C).
  - by rewrite (cs_rd _ _ (cm_cpu _ _ C c)).
  - by rewrite (cm_rds _ _ C).
  - apply (fair_same d s); [by rewrite (cm_rds _ _ C)|apply (cm_bw _ _ C)|intros i _; by rewrite R|done].
  - unfold crts. by rewrite (cs_rts _ _ (cm_cpu _ _ C c)).
Qed.
Lemma hook_rd_ok s s' : hook_step s s' -> rd_ok s -> rd_ok s'.
Proof.
  intros (C & _ & R) Hr. apply (rd_ok_same s); [|by intros e; rewrite (cm_rds _ _ C)|done]. intros e x. destruct (cm_cpu _ _ C x).
  apply over_same; [done..|]. unfold crts. by rewrite cs_rts.
Qed.

(** rt_clear_overload() and rt_set_overload() only write the root domain of [c]. *)
Lemma overload_rds (b : bool) c d s : rq_rd (cpus s c) = Some d -> let t := (if b then rt_set_overload else rt_clear_overload) c s in
  t = s <| rds := rds t |> /\ (forall e, e <> d -> rds t e = rds s e) /\
  rd_span (rds t d) = rd_span (rds s d) /\ refcount (rds t d) = refcount (rds s d) /\ rd_online (rds t d) = rd_online (rds s d) /\
  rds t = rds (flip_over b c s).
Proof.
  intros Ed. cbv zeta. destruct (overload_eq b c s) as [E _]. split; [done|].
  destruct b; unfold flip_over, rt_set_overload, rt_clear_overload, upd_my_rd in *; cbn;
    (destruct (c_true (rq_online (cpus s c))); cbn; rewrite ?Ed; cbn; rewrite ?Ed; cbn; [|done]);
    rewrite ?Nat.eqb_refl; (split_and!; [|done..]); intros e He; by rewrite ?(proj2 (Nat.eqb_neq e d) He).
Qed.

(** What rq_offline_rt() and rq_online_rt() leave: the overload bookkeeping of
    [x], and everything else of the root domains but cpupri. *)
Record rt_line x c d s s' : Prop := {
  rl_step : root_step c s s';
  rl_rd : rq_rd (cpus s' c) = Some d;
  rl_flag : rq_online (cpus s' c) = rq_online (cpus s c);
  rl_other : forall e, e <> d -> rds s' e = rds s e;
  rl_data : rd_span (rds s' d) = rd_span (rds s d) /\ refcount (rds s' d) = refcount (rds s d) /\ rd_online (rds s' d) = rd_online (rds s d);
  rl_rto : forall e, rto_count (rds s' e) = rto_count (rds x e) /\ rto_mask (rds s' e) = rto_mask (rds x e);
  rl_fair : fair_group (rd_view d s') 0;
  rl_down : forall i, i <> c -> down s i -> down s' i;
  rl_out : forall i, i ∉ cpus_of (rd_span (rds s d)) -> crt s' i = crt s i }.

(** The machine with the overload of [c] flipped, if [c] is overloaded. *)
Definition flipped (b : bool) c s : smp := if c_true (overloaded (crts s c)) then flip_over b c s else s.
Definition marked (b : bool) c s : smp :=
  if c_true (overloaded (crts s c)) then (if b then rt_set_overload else rt_clear_overload) c s else s.

Lemma marked_eq (b : bool) c d s : rq_rd (cpus s c) = Some d -> let t := marked b c s in
  t = s <| rds := rds t |> /\ (forall e, e <> d -> rds t e = rds s e) /\
  rd_span (rds t d) = rd_span (rds s d) /\ refcount (rds t d) = refcount (rds s d) /\ rd_online (rds t d) = rd_online (rds s d) /\
  rds t = rds (flipped b c s).
Proof.
  intros Ed. unfold marked, flipped. case_match; [by apply overload_rds|]. split_and!; try done. by destruct s.
Qed.
Lemma root_rds c s m : root_step c s (s <| rds := m |>).
Proof. split; [|done]. split; try done. intros x. unfold re_root, upd_cpu. cbn. by destruct (Nat.eqb_spec x c) as [->|]. Qed.

Lemma my_rd_cpupri c d f s : rq_rd (cpus s c) = Some d -> let s' := upd_my_rd c (fun r => r <| cpupri ::= f |>) s in
  (forall e, e <> d -> rds s' e = rds s e) /\ rd_span (rds s' d) = rd_span (rds s d) /\ refcount (rds s' d) = refcount (rds s d) /\
  rd_online (rds s' d) = rd_online (rds s d) /\
  (forall e, rto_count (rds s' e) = rto_count (rds s e) /\ rto_mask (rds s' e) = rto_mask (rds s e)) /\
  cpus s' = cpus s /\ def_rt_bw s' = def_rt_bw s.
Proof.
  intros Ed. cbv zeta. unfold upd_my_rd. rewrite Ed. unfold upd_rd. cbn. rewrite Nat.eqb_refl. split_and!; try done.
  - intros e He. by rewrite (proj2 (Nat.eqb_neq e d) He).
  - intros e. by destruct (Nat.eqb_spec e d) as [->|].
Qed.

Lemma marked_cpus b c s : cpus (marked b c s) = cpus s /\ running (marked b c s) = running s /\ def_rt_bw (marked b c s) = def_rt_bw s /\
  root_step c s (marked b c s).
Proof.
  unfold marked. case_match; [|split_and!; try done; by apply root_calm].
  destruct (overload_eq b c s) as [E _]. rewrite E. split_and!; try done. apply root_rds.
Qed.

(** The end of both functions: the runtime was changed, [cpupri] is set. *)
Lemma line_end b c d s s2 f : in_root c d s -> let s1 := marked b c s in
  calm s1 s2 -> same_oq s1 s2 -> fair_group (rd_view d s2) 0 ->
  (forall i, i <> c -> down s1 i -> down s2 i) -> (forall i, i ∉ cpus_of (rd_span (rds s1 d)) -> crt s2 i = crt s1 i) ->
  rt_line (flipped b c s) c d s (upd_my_rd c (fun r => r <| cpupri ::= f |>) s2).
Proof.
  intros [I1 I2 I3 I4 I5 I6] s1 C O Hf Hd Ho.
  destruct (marked_cpus b c s) as (Ec & _ & Eb & Hs1). fold s1 in Ec, Eb, Hs1.
  destruct (marked_eq b c d s I3) as (_ & M1 & M2 & M3 & M4 & M5). fold s1 in M1, M2, M3, M4, M5.
  assert (rq_rd (cpus s2 c) = Some d) as Ed by (rewrite (cs_rd _ _ (cm_cpu _ _ C c)); by rewrite Ec).
  destruct (my_rd_cpupri c d f s2 Ed) as (P1 & P2 & P3 & P4 & P5 & P6 & P7).
  assert (forall i, crt (upd_my_rd c (fun r => r <| cpupri ::= f |>) s2) i = crt s2 i) as Er by (intros i; unfold crt; by rewrite P6).
  assert (forall i, crt s1 i = crt s i) as Es by (intros i; unfold crt; by rewrite Ec).
  set (s3 := upd_my_rd _ _ _) in *. split.
  - eapply root_trans; [exact Hs1|]. eapply root_trans; [by apply root_calm|apply root_my_rd].
  - by rewrite P6.
  - rewrite P6, (cs_online _ _ (cm_cpu _ _ C c)). by rewrite Ec.
  - intros e He. by rewrite P1, (cm_rds _ _ C), M1.
  - by rewrite P2, P3, P4, (cm_rds _ _ C), M2, M3, M4.
  - intros e. destruct (P5 e) as [-> ->]. by rewrite (cm_rds _ _ C), M5.
  - apply (fair_same d s2); [by f_equal|by unfold bw_same; rewrite P7|intros i _; by rewrite Er|done].
  - intros i Hi Hdi. unfold down. rewrite Er. apply Hd; [done|]. unfold down. by rewrite Es.
  - intros i Hi. rewrite Er, Ho by (by rewrite M2). apply Es.
Qed.

Lemma offline_rt c d s : in_root c d s -> exists s', rq_offline_rt c s = Some s' /\ rt_line (flipped false c s) c d s s' /\ down s' c.
Proof.
  intros Hi. pose proof Hi as [I1 I2 I3 I4 I5 I6]. unfold rq_offline_rt.
  change (if c_true (overloaded (crts s c)) then rt_clear_overload c s else s) with (marked false c s).
  destruct (marked_cpus false c s) as (Ec & Er & Eb & _). destruct (marked_eq false c d s I3) as (_ & _ & M2 & _).
  pose proof (line_end false c d s) as Hend. cbv zeta in *. set (s1 := marked false c s) in *.
  destruct (disable_view c d s1) as (s2 & E & C & F & D & O & Hd & Ho).
  { by rewrite Er. } { by rewrite Ec. } { by rewrite M2. }
  { apply (fair_same d s); [by f_equal|by unfold bw_same; rewrite Eb|intros i _; unfold crt; by rewrite Ec|done]. }
  rewrite E. eexists. split; [done|]. split; [by apply Hend|].
  destruct (my_rd_cpupri c d (cpupri_set c CPUPRI_INVALID) s2) as (_ & _ & _ & _ & _ & P6 & _).
  { rewrite (cs_rd _ _ (cm_cpu _ _ C c)). by rewrite Ec. }
  unfold down, crt. by rewrite P6.
Qed.

Lemma online_rt c d s : in_root c d s -> down s c -> rt_line (flipped true c s) c d s (rq_online_rt c s).
Proof.
  intros Hi Hdn. pose proof Hi as [I1 I2 I3 I4 I5 I6]. unfold rq_online_rt.
  change (if c_true (overloaded (crts s c)) then rt_set_overload c s else s) with (marked true c s).
  destruct (marked_cpus true c s) as (Ec & Er & Eb & _). destruct (marked_eq true c d s I3) as (_ & _ & M2 & _).
  pose proof (line_end true c d s) as Hend. cbv zeta in *. set (s1 := marked true c s) in *.
  assert (forall i, crt s1 i = crt s i) as Es by (intros i; unfold crt; by rewrite Ec).
  destruct (enable_view c d s1) as (C & F & O & Ho).
  { by rewrite Er. } { by rewrite Ec. } { by rewrite M2. }
  { apply (fair_same d s); [by f_equal|by unfold bw_same; rewrite Eb|intros i _; by rewrite Es|done]. }
  { unfold down. by rewrite Es. }
  apply Hend; try done.
  - intros i Hi' Hd. unfold down. by rewrite Ho.
  - intros i Hi'. apply Ho. intros ->. by rewrite M2 in Hi'.
Qed.

Lemma line_after x c d s s1 s2 : rt_line x c d s s1 -> hook_step s1 s2 -> rt_line x c d s s2.
Proof.
  intros [L1 L2 L3 L4 L5 L6 L7 L8 L9] (C & O & R). split.
  - eapply root_trans; [exact L1|by apply root_calm].
  - by rewrite (cs_rd _ _ (cm_cpu _ _ C c)).
  - by rewrite (cs_online _ _ (cm_cpu _ _ C c)).
  - by rewrite (cm_rds _ _ C).
  - by rewrite (cm_rds _ _ C).
  - by rewrite (cm_rds _ _ C).
  - apply (fair_same d s1); [by rewrite (cm_rds _ _ C)|apply (cm_bw _ _ C)|intros i _; by rewrite R|done].
  - intros i Hi Hd. unfold down. rewrite R. by apply L8.
  - intros i Hi. rewrite R. by apply L9.
Qed.
Lemma line_before x c d s s1 s2 : hook_step s s1 -> rt_line x c d s1 s2 -> rt_line x c d s s2.
Proof.
  intros (C & O & R) [L1 L2 L3 L4 L5 L6 L7 L8 L9]. rewrite (cm_rds _ _ C) in *. split; try done.
  - eapply root_trans; [by apply root_calm|exact L1].
  - rewrite L3. apply (cs_online _ _ (cm_cpu _ _ C c)).
  - intros i Hi Hd. apply L8; [done|]. unfold down. by rewrite R.
  - intros i Hi. rewrite L9 by done. apply R.
Qed.

(** The runqueues a root domain counts: [c] leaves or joins them. *)
Lemma over_step c s s' e x : root_step c s s' -> x <> c -> over_in s' e x = over_in s e x.
Proof.
  intros Hs Hx. pose proof (root_step_frame c s s' Hs) as F. unfold over_in.
  by rewrite (rf_rd _ _ _ F), (rf_online _ _ _ F), (rf_rts _ _ _ F) by done.
Qed.
Lemma flipped_over b c s e x : x <> c -> over_in (flipped b c s) e x = over_in s e x.
Proof. intros Hx. unfold flipped. case_match; [|done]. by rewrite flip_over_in, (proj2 (Nat.eqb_neq x c) Hx). Qed.

Lemma flipped_off c d s : in_root c d s -> rd_ok s -> rd_ok (flipped false c s) /\ forall e, over_in (flipped false c s) e c = false.
Proof.
  intros [_ I2 _ _ _ I6] Hr. unfold flipped. destruct (c_true (overloaded (crts s c))) eqn:E.
  - split; [by apply flip_ok|]. intros e. rewrite flip_over_in, Nat.eqb_refl. by rewrite andb_false_r.
  - split; [done|]. intros e. unfold over_in. by rewrite E, andb_false_r.
Qed.

Lemma set_rq_offline_spec c d s : in_root c d s -> rd_ok s -> c_true (rq_online (cpus s c)) = true ->
  exists s', set_rq_offline fuel c s = Some s' /\ moved_line 0 c d s s' /\ down s' c.
Proof.
  intros Hi Hr Hon. unfold set_rq_offline. rewrite Hon, classes_split, offline_app.
  destruct (offline_hooks _ c s not_rt_before) as (s1 & -> & H1). rewrite offline_app.
  pose proof (hook_in_root _ _ _ _ H1 Hi) as Hi1. pose proof (hook_rd_ok _ _ H1 Hr) as Hr1.
  destruct (offline_rt c d s1 Hi1) as (s2 & E2 & L2 & D2). change (offline_loop fuel [rt_class] c s1) with (match rq_offline_rt c s1 with None => None | Some s => Some s end). rewrite E2.
  destruct (offline_hooks _ c s2 not_rt_after) as (s3 & -> & H3).
  destruct (flipped_off c d s1 Hi1 Hr1) as [Hf1 Hf2].
  pose proof (line_before _ c d s s1 s3 H1 (line_after _ _ _ _ _ _ L2 H3)) as [L1 L2' L3 L4 L5 L6 L7 L8 L9].
  set (s4 := upd_my_rd c _ s3). assert (root_step c s3 s4) as R4 by apply root_my_rd.
  assert (root_step c s4 (upd_cpu c (fun r => r <| rq_online := 0 |>) s4)) as R5 by apply root_set_online.
  set (s5 := upd_cpu c _ s4) in *. assert (root_step c s s5) as R by (eapply root_trans; [exact L1|eapply root_trans; [exact R4|exact R5]]).
  assert (rds s5 = fun e => if (e =? d)%nat then (rds s3 d) <| rd_online ::= cpumask_clear_cpu c |> else rds s3 e) as Em
    by (unfold s5, s4, upd_my_rd; by rewrite L2').
  assert (forall i, crt s5 i = crt s3 i) as Et.
  { intros i. unfold s5, s4, upd_my_rd. rewrite L2'. unfold crt, upd_cpu. cbn. by destruct (Nat.eqb_spec i c) as [->|]. }
  assert (c_online : rq_online (cpus s5 c) = 0) by (unfold s5, upd_cpu; cbn; by rewrite Nat.eqb_refl).
  exists s5. split; [done|]. split; [|unfold down; rewrite Et; destruct H3 as (_ & _ & R3); by rewrite R3].
  destruct L5 as (L5a & L5b & L5c). split; try done; rewrite ?Em, ?Nat.eqb_refl; cbn; try done.
  - unfold s5, s4, upd_my_rd. rewrite L2'. unfold upd_cpu. cbn. by rewrite Nat.eqb_refl.
  - intros e He. rewrite (proj2 (Nat.eqb_neq e d) He). by apply L4.
  - by rewrite L5c.
  - apply (rd_ok_same (flipped false c s1)); [|intros e; rewrite Em; destruct (L6 e) as [<- <-]; by destruct (Nat.eqb_spec e d) as [->|]|done].
    intros e x. destruct (decide (x = c)) as [->|Hx].
    + rewrite Hf2. unfold over_in. by rewrite c_online, andb_false_r.
    + rewrite flipped_over, (over_step c s) by done. symmetry. apply (over_step c); [|done]. apply root_calm; apply H1.
  - apply (fair_same d s3); [by rewrite Em, Nat.eqb_refl|unfold bw_same, s5, s4, upd_my_rd; by rewrite L2'|intros i _; by rewrite Et|done].
  - intros i Hi' Hd. unfold down. rewrite Et. by apply L8.
  - intros i Hi'. rewrite Et. by apply L9.
Qed.

(** With the flag of [c] set, an overloaded [c] is still to be counted. *)
Lemma flipped_on c d s s1 : in_root c d s1 -> rd_ok s -> c_true (rq_online (cpus s c)) = false -> root_step c s s1 ->
  (forall e, rto_count (rds s1 e) = rto_count (rds s e) /\ rto_mask (rds s1 e) = rto_mask (rds s e)) -> rd_ok (flipped true c s1).
Proof.
  intros [_ I2 I3 _ _ I6] Hr Hoff Hs Hrto. unfold flipped.
  assert (forall e, over_in s e c = false) as Hc by (intros e; unfold over_in; by rewrite Hoff, andb_false_r).
  destruct (c_true (overloaded (crts s1 c))) eqn:E.
  - set (s0 := upd_rts c (fun r => r <| overloaded := 0 |>) s1).
    assert (overloaded (crts s0 c) = 0) as E0 by (unfold s0, crts, upd_rts, upd_cpu; cbn; by rewrite Nat.eqb_refl).
    assert (rq_rd (cpus s0 c) = rq_rd (cpus s1 c) /\ rq_online (cpus s0 c) = rq_online (cpus s1 c)) as [E1 E2]
      by (unfold s0, upd_rts, upd_cpu; cbn; by rewrite Nat.eqb_refl).
    assert (forall e x, over_in s0 e x = over_in s e x) as Ho.
    { intros e x. destruct (decide (x = c)) as [->|Hx].
      - rewrite Hc. unfold over_in. by rewrite E0, andb_false_r.
      - rewrite <- (over_step c s s1) by done. unfold over_in, s0, crts, upd_rts, upd_cpu. cbn. by rewrite (proj2 (Nat.eqb_neq x c) Hx). }
    assert (rd_ok s0) as H0 by (apply (rd_ok_same s); [done|apply Hrto|done]).
    apply (rd_ok_same (flip_over true c s0)); [| |by apply flip_ok].
    + intros e x. rewrite !flip_over_in, E1, E2. destruct (Nat.eqb_spec x c) as [|Hx]; [done|]. by rewrite Ho, (over_step c s).
    + intros e. destruct (flip_rd true c s0 e) as [-> ->], (flip_rd true c s1 e) as [-> ->]. by rewrite E1, E2.
  - apply (rd_ok_same s); [|done|done]. intros e x. destruct (decide (x = c)) as [->|Hx]; [|by apply (over_step c)].
    rewrite Hc. unfold over_in. by rewrite E, andb_false_r.
Qed.

Lemma set_rq_online_spec c d s : in_root c d s -> rd_ok s -> c_true (rq_online (cpus s c)) = false -> down s c ->
  moved_line 1 c d s (set_rq_online fuel c s).
Proof.
  intros Hi Hr Hoff Hdn. pose proof Hi as [I1 I2 I3 I4 I5 I6]. unfold set_rq_online. rewrite Hoff, classes_split, !online_app. cbn [negb].
  set (s1 := upd_my_rd c _ s). assert (root_step c s s1) as R1 by apply root_my_rd.
  set (s2 := upd_cpu c (fun r => r <| rq_online := 1 |>) s1). assert (root_step c s1 s2) as R2 by apply root_set_online.
  assert (root_step c s s2) as R by by apply (root_trans c s s1).
  assert (rds s2 = fun e => if (e =? d)%nat then (rds s d) <| rd_online ::= cpumask_set_cpu c |> else rds s e) as Em
    by (unfold s2, s1, upd_my_rd; by rewrite I3).
  assert (forall i, crt s2 i = crt s i) as Et.
  { intros i. unfold s2, s1, upd_my_rd. rewrite I3. unfold crt, upd_cpu. cbn. by destruct (Nat.eqb_spec i c) as [->|]. }
  assert (def_rt_bw s2 = def_rt_bw s) as Eb by (unfold s2, s1, upd_my_rd; by rewrite I3).
  assert (rq_rd (cpus s2 c) = Some d /\ rq_online (cpus s2 c) = 1) as [E1 E2].
  { unfold s2, s1, upd_my_rd. rewrite I3. unfold upd_cpu. cbn. by rewrite Nat.eqb_refl. }
  assert (in_root c d s2) as Hi2.
  { pose proof (root_step_frame c s s2 R) as F. split; try done.
    - by rewrite (rf_run _ _ _ F).
    - by rewrite Em, Nat.eqb_refl.
    - apply (fair_same d s); [by rewrite Em, Nat.eqb_refl|by unfold bw_same; rewrite Eb|intros i _; by rewrite Et|done].
    - by rewrite (rf_rts _ _ _ F). }
  pose proof (online_hooks _ c s2 not_rt_before) as H3. set (s3 := online_loop fuel [stop_class] c s2) in *.
  pose proof (hook_in_root _ _ _ _ H3 Hi2) as Hi3.
  assert (down s3 c) as D3 by (unfold down; destruct H3 as (_ & _ & ->); by rewrite Et).
  pose proof (online_rt c d s3 Hi3 D3) as L. change (online_loop fuel [rt_class] c s3) with (rq_online_rt c s3).
  pose proof (online_hooks _ c (rq_online_rt c s3) not_rt_after) as H5. set (s5 := online_loop fuel _ c (rq_online_rt c s3)) in *.
  assert (rd_ok (flipped true c s3)) as Hf.
  { apply (flipped_on c d s); try done.
    - eapply root_trans; [exact R|]. by apply root_calm; apply H3.
    - intros e. destruct H3 as (C3 & _). rewrite (cm_rds _ _ C3), Em. by destruct (Nat.eqb_spec e d) as [->|]. }
  pose proof (line_before _ c d s2 s3 s5 H3 (line_after _ _ _ _ _ _ L H5)) as [L1 L2 L3 L4 L5 L6 L7 L8 L9].
  assert (root_step c s s5) as R5 by by apply (root_trans c s s2).
  rewrite !Em, ?Nat.eqb_refl in *. destruct L5 as (La & Lb & Lc). split; try done.
  - by rewrite L3.
  - intros e He. rewrite L4 by done. by rewrite (proj2 (Nat.eqb_neq e d) He).
  - apply (rd_ok_same (flipped true c s3)); [|done|done]. intros e x. destruct (decide (x = c)) as [->|Hx].
    + unfold flipped. destruct (c_true (overloaded (crts s3 c))) eqn:E3.
      * rewrite flip_over_in, Nat.eqb_refl. destruct Hi3 as [_ _ J3 _ _ _]. rewrite J3. unfold over_in. rewrite L2, L3, E2.
        pose proof (root_step_frame c s s5 R5) as F5. pose proof (root_step_frame c s s2 R) as F2. destruct H3 as (C3 & _).
        assert (crts s5 c = crts s3 c) as E5 by (rewrite (rf_rts _ _ _ F5); rewrite <- (rf_rts _ _ _ F2); unfold crts; symmetry; apply (cs_rts _ _ (cm_cpu _ _ C3 c))).
        rewrite E5, E3. rewrite (cs_online _ _ (cm_cpu _ _ C3 c)), E2. by rewrite andb_true_r.
      * apply over_same; [rewrite L2; symmetry; by destruct Hi3| |].
        -- rewrite L3. destruct H3 as (C3 & _). by rewrite (cs_online _ _ (cm_cpu _ _ C3 c)).
        -- pose proof (root_step_frame c s s5 R5) as F5. pose proof (root_step_frame c s s2 R) as F2. destruct H3 as (C3 & _).
           by rewrite (rf_rts _ _ _ F5), <- (rf_rts _ _ _ F2), (cs_rts _ _ (cm_cpu _ _ C3 c) : crts s3 c = crts s2 c).
    + rewrite flipped_over, (over_step c s) by done. symmetry. rewrite <- (over_step c s s2) by done.
      destruct H3 as (C3 & O3 & _). apply (over_step c); [by apply root_calm|done].
  - intros i Hi' Hd. apply L8; [done|]. unfold down. by rewrite Et.
  - intros i Hi'. rewrite L9 by done. apply Et.
Qed.

(** ** The invariant of the root domains *)

Definition members_of d s : list nat := filter (fun c => rq_rd (cpus s c) = Some d) (seq 0 nr_cpus).

(** [D] are the root domains that exist, [held] counts the references to them
    besides those of runqueues, [known] are the processors that were up once:
    the others have their runtime although they are off line. *)
Context (held : nat -> Z) (known : nat -> Prop).
Record root_inv (D : nat -> Prop) s : Prop := {
  ri_run : running s = true;
  ri_nr : nr_cpu_ids + 1 < 2 ^ 31;
  ri_bw : 0 <= rtb_runtime (def_rt_bw s) /\ Z.of_nat nr_cpus * rtb_runtime (def_rt_bw s) < 2 ^ 63 /\ 0 <= rtb_period (def_rt_bw s) < 2 ^ 63;
  ri_time : forall c, is_cpu c = true -> 0 <= rt_time (crt s c) < 2 ^ 63;
  ri_rd : forall c, is_cpu c = true -> exists d, D d /\ rq_rd (cpus s c) = Some d;
  ri_span : forall d c, D d -> is_cpu c = true -> cpumask_test_cpu c (rd_span (rds s d)) = bool_decide (rq_rd (cpus s c) = Some d);
  ri_online : forall d c, D d -> is_cpu c = true ->
    cpumask_test_cpu c (rd_online (rds s d)) = bool_decide (rq_rd (cpus s c) = Some d) && c_true (rq_online (cpus s c));
  ri_ref : forall d, D d -> refcount (rds s d) = Z.of_nat (length (members_of d s)) + held d;
  ri_held : forall d, 0 <= held d <= 1;
  ri_fair : forall d, D d -> fair_group (rd_view d s) 0;
  ri_off : forall c, known c -> is_cpu c = true -> c_true (rq_online (cpus s c)) = false -> down s c }.

Lemma root_span D s d c : root_inv D s -> D d -> c ∈ cpus_of (rd_span (rds s d)) <-> is_cpu c = true /\ rq_rd (cpus s c) = Some d.
Proof.
  intros Hi Hd. rewrite elem_of_cpus. split; intros [Hc H]; (split; [done|]); rewrite (ri_span D s Hi d c Hd Hc) in *.
  - by apply bool_decide_eq_true in H.
  - by apply bool_decide_eq_true.
Qed.
Lemma members_same d s s' : (forall c, rq_rd (cpus s' c) = rq_rd (cpus s c)) -> members_of d s' = members_of d s.
Proof. intros H. unfold members_of. apply list_filter_iff. intros c. by rewrite H. Qed.

(** One group's share of a root domain: the sums and the bounds. *)
Lemma fair_intro D s d : root_inv D s -> forall s', bw_same s s' ->
  (forall i, i ∈ cpus_of (rd_span (rds s' d)) -> 0 <= hold (rd_view d s') 0 i /\ 0 <= rt_time (crt s' i) < 2 ^ 63) ->
  zsum (hold (rd_view d s') 0 <$> cpus_of (rd_span (rds s' d))) =
    rtb_runtime (def_rt_bw s) * zsum (part (rd_view d s') 0 <$> cpus_of (rd_span (rds s' d))) ->
  fair_group (rd_view d s') 0.
Proof.
  intros Hi s' [Ep Er] Hb Hs. destruct (ri_bw D s Hi) as (B1 & B2 & B3).
  split; unfold group_rt; cbn; rewrite ?Ep, ?Er.
  - apply cpus_nodup.
  - split; [done|]. pose proof (cpus_length (rd_span (rds s' d))). nia.
  - done.
  - intros i H. by apply Hb.
  - intros i H. by apply Hb.
  - exact Hs.
Qed.

(** A processor without runtime leaves or joins a root domain. *)
Lemma fair_leave D d c s s' : root_inv D s -> D d -> bw_same s s' -> (forall i, crt s' i = crt s i) -> down s c ->
  cpus_of (rd_span (rds s d)) ≡ₚ c :: cpus_of (rd_span (rds s' d)) -> fair_group (rd_view d s') 0.
Proof.
  intros Hi HD Hb Ht Hd Hp. pose proof (ri_fair D s Hi d HD) as [F1 F2 F3 F4 F5 F6]. cbn in *.
  assert (forall i, hold (rd_view d s') 0 i = hold (rd_view d s) 0 i /\ part (rd_view d s') 0 i = part (rd_view d s) 0 i) as E.
  { intros i. unfold hold, part, disabled, rtime. cbn. by rewrite Ht. }
  apply (fair_intro D s d Hi); [done|..].
  - intros i Hin. assert (i ∈ cpus_of (rd_span (rds s d))) as Hin' by (rewrite Hp; by right). destruct (E i) as [-> _]. rewrite Ht. auto.
  - rewrite (zsum_ext (hold (rd_view d s) 0) (hold (rd_view d s') 0)), (zsum_ext (part (rd_view d s) 0) (part (rd_view d s') 0)) by (intros; apply E).
    assert (forall f : nat -> Z, zsum (f <$> cpus_of (rd_span (rds s d))) = zsum (f <$> c :: cpus_of (rd_span (rds s' d)))) as Hz.
    { intros f. apply zsum_perm. by apply fmap_Permutation. }
    rewrite !Hz in F6. unfold group_rt in F6. cbn in F6. unfold hold at 1, part at 1, disabled, rtime in F6. cbn in F6.
    unfold down in Hd. by rewrite Hd, Z.eqb_refl in F6.
Qed.
Lemma fair_join D d c s s' : root_inv D s -> D d -> bw_same s s' -> (forall i, crt s' i = crt s i) -> is_cpu c = true -> down s c ->
  cpus_of (rd_span (rds s' d)) ≡ₚ c :: cpus_of (rd_span (rds s d)) -> fair_group (rd_view d s') 0.
Proof.
  intros Hi HD Hb Ht Hc Hd Hp. pose proof (ri_fair D s Hi d HD) as [F1 F2 F3 F4 F5 F6]. cbn in *.
  assert (forall i, hold (rd_view d s') 0 i = hold (rd_view d s) 0 i /\ part (rd_view d s') 0 i = part (rd_view d s) 0 i) as E.
  { intros i. unfold hold, part, disabled, rtime. cbn. by rewrite Ht. }
  assert (hold (rd_view d s) 0 c = 0 /\ part (rd_view d s) 0 c = 0) as [H1 H2].
  { unfold hold, part, disabled, rtime. cbn. unfold down in Hd. by rewrite Hd, Z.eqb_refl. }
  apply (fair_intro D s d Hi); [done|..].
  - intros i Hin. rewrite Hp in Hin. destruct (E i) as [-> _]. rewrite Ht.
    apply elem_of_cons in Hin as [->|Hin]; [rewrite H1; split; [lia|by apply (ri_time D s Hi)]|auto].
  - rewrite (zsum_ext (hold (rd_view d s) 0) (hold (rd_view d s') 0)), (zsum_ext (part (rd_view d s) 0) (part (rd_view d s') 0)) by (intros; apply E).
    assert (forall f : nat -> Z, zsum (f <$> cpus_of (rd_span (rds s' d))) = zsum (f <$> c :: cpus_of (rd_span (rds s d)))) as Hz.
    { intros f. apply zsum_perm. by apply fmap_Permutation. }
    rewrite !Hz. cbn. rewrite H1, H2. unfold group_rt in F6. cbn in F6. rewrite F6. lia.
Qed.

Lemma moved_in_root D c d s : root_inv D s -> D d -> is_cpu c = true -> rq_rd (cpus s c) = Some d ->
  overloaded (crts s c) = of_bool (c_true (overloaded (crts s c))) -> in_root c d s.
Proof.
  intros Hi Hd Hc Hr Ho. split; try done; [by eapply ri_run| |by eapply ri_fair]. by apply (root_span D).
Qed.

(** Going off or on line keeps the invariant. *)
Lemma line_root_inv D v c d s s' : root_inv D s -> D d -> is_cpu c = true -> rq_rd (cpus s c) = Some d -> (v = 0 \/ v = 1) ->
  moved_line v c d s s' -> (v = 0 -> down s' c) -> root_inv D s'.
Proof.
  intros Hi Hd Hc Hr Hv [M1 M2 M3 M4 M5 M6 M7 M8 M9 M10 M11] Hdn. pose proof (root_step_frame c s s' M1) as F.
  pose proof Hi as [I1 I2 I3 I4 I5 I6 I7 I8 I9 I10 I11].
  assert (forall x, rq_rd (cpus s' x) = rq_rd (cpus s x)) as Erd.
  { intros x. destruct (decide (x = c)) as [->|Hx]; [by rewrite M2, Hr|]. by rewrite (rf_rd _ _ _ F). }
  assert (forall e, rd_span (rds s' e) = rd_span (rds s e) /\ refcount (rds s' e) = refcount (rds s e)) as Esp.
  { intros e. destruct (decide (e = d)) as [->|He]; [done|]. by rewrite M4. }
  split; try done.
  - by rewrite (rf_run _ _ _ F).
  - destruct (rf_bw _ _ _ F) as [-> ->]. done.
  - intros x Hx. destruct (decide (x ∈ cpus_of (rd_span (rds s d)))) as [Hin|Hout]; [|rewrite M11 by done; by apply I4].
    apply (fg_time _ _ M9 x). change (x ∈ cpus_of (rd_span (rds s' d))). by rewrite M5.
  - intros x Hx. rewrite Erd. by apply I5.
  - intros e x He Hx. destruct (Esp e) as [-> _]. by rewrite Erd, I6.
  - intros e x He Hx. rewrite Erd. destruct (decide (e = d)) as [->|Hne].
    + rewrite M7. destruct (decide (x = c)) as [->|Hxc].
      * rewrite M3, Hr, bool_decide_true by done. destruct Hv as [->| ->]; cbn; [rewrite clear_cpu_spec by done|rewrite set_cpu_spec by done]; by rewrite Nat.eqb_refl.
      * rewrite (rf_online _ _ _ F), <- I7 by done.
        destruct Hv as [->| ->]; cbn; [rewrite clear_cpu_spec by done|rewrite set_cpu_spec by done]; by rewrite (proj2 (Nat.eqb_neq x c) Hxc).
    + rewrite M4, I7 by done. destruct (decide (x = c)) as [->|Hxc]; [|by rewrite (rf_online _ _ _ F)].
      rewrite Hr, bool_decide_false by congruence. done.
  - intros e He. destruct (Esp e) as [_ ->]. rewrite (members_same e s s') by done. by apply I8.
  - intros e He. destruct (decide (e = d)) as [->|Hne]; [done|].
    apply (fair_same e s); [by rewrite M4|by apply (rf_bw _ _ _ F)| |by apply I10].
    intros i Hin. apply (root_span D) in Hin as [Hic Hin]; [|done..]. rewrite M11; [done|].
    intros Hout. apply (root_span D) in Hout as [_ Hout]; [|done..]. congruence.
  - intros x Hk Hx Hoff. destruct (decide (x = c)) as [->|Hxc].
    + rewrite M3 in Hoff. destruct Hv as [->| ->]; [by apply Hdn|done].
    + apply M10; [done|]. apply I11; [done..|]. by rewrite <- (rf_online _ _ _ F).
Qed.

Lemma members_count D s d : root_inv D s -> 0 <= Z.of_nat (length (members_of d s)) + held d < 2 ^ 31.
Proof.
  intros Hi. pose proof (ri_held D s Hi d). pose proof (ri_nr D s Hi). pose proof nr_cpu_ids_range.
  assert (length (members_of d s) <= nr_cpus)%nat as Hl by (etrans; [apply length_filter|]; by rewrite length_seq).
  unfold nr_cpus in Hl. lia.
Qed.

(** rq_attach_root() between going off line and on line again. *)
Definition moved_root c old d s : smp :=
  let s := upd_rd old (fun r => r <| rd_span ::= cpumask_clear_cpu c |>) s in
  let s := upd_rd old (fun r => r <| refcount ::= fun n => s32 (n - 1) |>) s in
  let s := upd_rd d (fun r => r <| refcount ::= fun n => s32 (n + 1) |>) s in
  let s := upd_cpu c (fun r => r <| rq_rd := Some d |>) s in
  upd_rd d (fun r => r <| rd_span ::= cpumask_set_cpu c |>) s.

Lemma moved_root_step c old d s : root_step c s (moved_root c old d s).
Proof.
  unfold moved_root. cbv zeta. do 3 (eapply root_trans; [apply root_upd_rd|]).
  eapply root_trans; [apply root_set_rd|apply root_upd_rd].
Qed.
Lemma moved_root_cpus c old d s x : let s' := moved_root c old d s in
  rq_rd (cpus s' x) = (if (x =? c)%nat then Some d else rq_rd (cpus s x)) /\ rq_online (cpus s' x) = rq_online (cpus s x) /\
  crt s' x = crt s x /\ crts s' x = crts s x /\ def_rt_bw s' = def_rt_bw s.
Proof. cbv zeta. unfold moved_root, crt, crts, upd_rd, upd_cpu. cbn. by destruct (Nat.eqb_spec x c) as [->|]. Qed.
Lemma moved_root_rds c old d s e : let r := rds s e in let r' := rds (moved_root c old d s) e in
  rd_online r' = rd_online r /\ rto_count r' = rto_count r /\ rto_mask r' = rto_mask r /\
  rd_span r' = (if (e =? d)%nat then cpumask_set_cpu c else id) ((if (e =? old)%nat then cpumask_clear_cpu c else id) (rd_span r)) /\
  refcount r' = (if (e =? d)%nat then fun n => s32 (n + 1) else id) ((if (e =? old)%nat then fun n => s32 (n - 1) else id) (refcount r)).
Proof.
  cbv zeta. unfold moved_root, upd_rd, upd_cpu. cbn. rewrite !Nat.eqb_refl.
  destruct (Nat.eqb_spec e d) as [E1|E1], (Nat.eqb_spec e old) as [E2|E2]; subst; cbn; rewrite ?Nat.eqb_refl; cbn; rewrite ?Nat.eqb_refl; try done;
    repeat (first [rewrite (proj2 (Nat.eqb_neq _ _) E1)|rewrite (proj2 (Nat.eqb_neq _ _) E2)]; cbn); rewrite ?Nat.eqb_refl; done.
Qed.

Lemma members_iff d s x : x ∈ members_of d s <-> is_cpu x = true /\ rq_rd (cpus s x) = Some d.
Proof. unfold members_of. rewrite list_elem_of_filter, elem_of_seq, is_cpu_iff. naive_solver lia. Qed.
Lemma members_nodup' d s : NoDup (members_of d s).
Proof. apply NoDup_filter, NoDup_seq. Qed.
Lemma members_cons d c s s' : is_cpu c = true -> rq_rd (cpus s c) <> Some d -> rq_rd (cpus s' c) = Some d ->
  (forall x, x <> c -> rq_rd (cpus s' x) = rq_rd (cpus s x)) -> length (members_of d s') = S (length (members_of d s)).
Proof.
  intros Hc Hn Hy Ho. rewrite <- (Permutation_length (l := c :: members_of d s) (l' := members_of d s')); [done|].
  apply NoDup_Permutation; [constructor; [by rewrite members_iff; intros []|apply members_nodup']|apply members_nodup'|].
  intros x. rewrite elem_of_cons, !members_iff. destruct (decide (x = c)) as [->|Hx]; [naive_solver|]. rewrite Ho by done. naive_solver.
Qed.

Lemma moved_root_fair D c old d s e : root_inv D s -> D old -> D d -> D e -> is_cpu c = true -> rq_rd (cpus s c) = Some old -> down s c ->
  fair_group (rd_view e (moved_root c old d s)) 0.
Proof.
  intros Hi Ho Hd He Hc Hr Hdn. pose proof (moved_root_rds c old d s) as Hm. pose proof (fun x => moved_root_cpus c old d s x) as Hx.
  cbv zeta in Hm, Hx. set (s' := moved_root c old d s) in *.
  assert (bw_same s s') as Hb by (unfold bw_same; by destruct (Hx c) as (_ & _ & _ & _ & ->)).
  assert (forall i, crt s' i = crt s i) as Ht by (intros i; by apply Hx).
  assert (cpumask_test_cpu c (rd_span (rds s old)) = true) as Hco by (rewrite (ri_span D s Hi) by done; by apply bool_decide_eq_true).
  destruct (Hm e) as (_ & _ & _ & Esp & _).
  destruct (Nat.eqb_spec e d) as [E1|E1], (Nat.eqb_spec e old) as [E2|E2]; try subst e.
  - subst. apply (fair_same old s); [|done|intros i _; by rewrite Ht|by apply (ri_fair D s Hi)].
    rewrite Esp. apply cpus_ext. intros x Hxc. rewrite set_cpu_spec, clear_cpu_spec by done. destruct (Nat.eqb_spec x c) as [->|]; cbn; [by rewrite Hco|done].
  - apply (fair_join D d c s); try done. rewrite Esp. apply cpus_set; [done|]. rewrite (ri_span D s Hi) by done.
    apply bool_decide_eq_false. congruence.
  - subst. apply (fair_leave D old c s); try done. rewrite Esp. by apply cpus_clear.
  - apply (fair_same e s); [by rewrite Esp|done|intros i _; by rewrite Ht|by apply (ri_fair D s Hi)].
Qed.

Lemma moved_root_ref D c old d s e : root_inv D s -> D old -> D d -> D e -> is_cpu c = true -> rq_rd (cpus s c) = Some old ->
  refcount (rds (moved_root c old d s) e) = Z.of_nat (length (members_of e (moved_root c old d s))) + held e.
Proof.
  intros Hi Ho Hd He Hc Hr. destruct (moved_root_rds c old d s e) as (_ & _ & _ & _ & E). rewrite E. clear E.
  assert (forall x, rq_rd (cpus (moved_root c old d s) x) = if (x =? c)%nat then Some d else rq_rd (cpus s x)) as Hx by (intros x; by apply moved_root_cpus).
  set (s' := moved_root c old d s) in *. clearbody s'.
  assert (rq_rd (cpus s' c) = Some d) as Hc' by (by rewrite Hx, Nat.eqb_refl).
  assert (forall x, x <> c -> rq_rd (cpus s' x) = rq_rd (cpus s x)) as Hxne by (intros x Hne; by rewrite Hx, (proj2 (Nat.eqb_neq x c) Hne)).
  pose proof (ri_ref D s Hi e He) as Hre. pose proof (members_count D s e Hi) as Hb. pose proof (ri_held D s Hi e) as Hh. pose proof (ri_nr D s Hi) as Hnr.
  assert (forall s1, Z.of_nat (length (members_of e s1)) <= nr_cpu_ids) as Hl.
  { intros s1. pose proof nr_cpu_ids_range. assert (length (members_of e s1) <= nr_cpus)%nat as Hl by (etrans; [apply length_filter|]; by rewrite length_seq).
    unfold nr_cpus in Hl. lia. }
  pose proof (Hl s). pose proof (Hl s').
  destruct (Nat.eqb_spec e d) as [E1|E1], (Nat.eqb_spec e old) as [E2|E2]; cbn [id]; try subst e.
  - subst. rewrite Hre, s32_add_l. rewrite (members_same old s s'); [rewrite s32_small; lia|].
    intros x. destruct (decide (x = c)) as [->|]; [by rewrite Hc', Hr|by apply Hxne].
  - rewrite (members_cons d c s s') in * by (done || congruence). rewrite Hre, s32_small; lia.
  - subst. rewrite (members_cons old c s' s) in * by (done || congruence || (intros; symmetry; auto)). rewrite Hre, s32_small; lia.
  - rewrite Hre. do 2 f_equal. unfold members_of. f_equal. apply list_filter_iff. intros x. destruct (decide (x = c)) as [->|Hne]; [|by rewrite Hxne].
    rewrite Hc', Hr. split; intros [= ?]; congruence.
Qed.

Lemma moved_root_inv D c old d s : root_inv D s -> D old -> D d -> is_cpu c = true -> rq_rd (cpus s c) = Some old ->
  c_true (rq_online (cpus s c)) = false -> down s c -> root_inv D (moved_root c old d s).
Proof.
  intros Hi Ho Hd Hc Hr Hoff Hdn. pose proof (moved_root_rds c old d s) as Hm. pose proof (fun x => moved_root_cpus c old d s x) as Hx.
  pose proof (root_step_frame c s _ (moved_root_step c old d s)) as F.
  pose proof (fun e He => moved_root_fair D c old d s e Hi Ho Hd He Hc Hr Hdn) as Hfair.
  pose proof (fun e He => moved_root_ref D c old d s e Hi Ho Hd He Hc Hr) as Href.
  cbv zeta in Hm, Hx. set (s' := moved_root c old d s) in *. clearbody s'. pose proof Hi as [I1 I2 I3 I4 I5 I6 I7 I8 I9 I10 I11].
  split; try done.
  - by rewrite (rf_run _ _ _ F).
  - destruct (rf_bw _ _ _ F) as [-> ->]. done.
  - intros x Hxc. destruct (Hx x) as (_ & _ & -> & _). by apply I4.
  - intros x Hxc. destruct (Hx x) as (-> & _). destruct (x =? c)%nat; [by exists d|by apply I5].
  - intros e x He Hxc. destruct (Hx x) as (-> & _). destruct (Hm e) as (_ & _ & _ & -> & _). pose proof (I6 e x He Hxc) as Hs.
    destruct (Nat.eqb_spec e d) as [E1|E1], (Nat.eqb_spec e old) as [E2|E2]; try subst e; cbn [id];
      rewrite ?set_cpu_spec, ?clear_cpu_spec by done; rewrite ?Hs;
      (destruct (Nat.eqb_spec x c) as [->|Hne]; cbn; [rewrite ?Hr|done]);
      rewrite ?(bool_decide_true (Some _ = Some _)) by done; try done; rewrite ?bool_decide_false by congruence; done.
  - intros e x He Hxc. destruct (Hx x) as (-> & -> & _). destruct (Hm e) as (-> & _). rewrite I7 by done.
    destruct (Nat.eqb_spec x c) as [->|Hne]; [|done]. by rewrite Hoff, !andb_false_r.
  - intros x Hk Hxc. destruct (Hx x) as (_ & -> & Et & _). intros H. unfold down. rewrite Et. by apply I11.
Qed.

Lemma over_bool qs s c : smp_inv qs s -> is_cpu c = true -> overloaded (crts s c) = of_bool (c_true (overloaded (crts s c))).
Proof. intros Hi Hc. rewrite (ca_over _ _ _ (ao_cpu _ _ (proj1 (mi_rt _ _ (si_machine _ _ Hi))) c Hc)). by destruct (too_much _ _). Qed.
Lemma inv_rd_ok qs s : smp_inv qs s -> rd_ok s.
Proof. intros Hi. apply (ao_rd qs), (proj1 (mi_rt _ _ (si_machine _ _ Hi))). Qed.

(** The first part of rq_attach_root(): the runqueue goes off line. *)
Lemma leave_line qs D c old s : root_inv D s -> smp_inv qs s -> is_cpu c = true -> D old -> known c -> rq_rd (cpus s c) = Some old ->
  exists s1, (if cpumask_test_cpu c (rd_online (rds s old)) then set_rq_offline fuel c s else Some s) = Some s1 /\
    root_step c s s1 /\ root_inv D s1 /\ rd_ok s1 /\ rq_rd (cpus s1 c) = Some old /\ c_true (rq_online (cpus s1 c)) = false /\ down s1 c /\
    refcount (rds s1 old) = refcount (rds s old).
Proof.
  intros Hi Hs Hc Ho Hk Hr. pose proof (inv_rd_ok qs s Hs) as Hok. rewrite (ri_online D s Hi), bool_decide_true by done. cbn [andb].
  destruct (c_true (rq_online (cpus s c))) eqn:Eon.
  - pose proof (moved_in_root D c old s Hi Ho Hc Hr (over_bool qs s c Hs Hc)) as Hin.
    destruct (set_rq_offline_spec c old s Hin Hok Eon) as (s1 & E & M & Hd). exists s1. split; [done|].
    split; [apply M|]. split; [by apply (line_root_inv D 0 c old s); auto|]. split; [apply M|]. split; [apply M|].
    split; [by rewrite (ml_flag _ _ _ _ _ M)|]. split; [done|apply M].
  - exists s. split_and!; try done; [by apply root_calm|by apply (ri_off D s Hi)].
Qed.

(** The second part: it moves to [d], and on line if it is active. *)
Lemma join_line D c old d s : root_inv D s -> rd_ok s -> is_cpu c = true -> D old -> D d -> rq_rd (cpus s c) = Some old ->
  c_true (rq_online (cpus s c)) = false -> down s c -> overloaded (crts s c) = of_bool (c_true (overloaded (crts s c))) ->
  let s1 := moved_root c old d s in
  let s' := if cpumask_test_cpu c (active_mask s1) then set_rq_online fuel c s1 else s1 in
  root_step c s s' /\ root_inv D s' /\ rd_ok s' /\ rq_rd (cpus s' c) = Some d /\ c_true (rq_online (cpus s' c)) = cpumask_test_cpu c (active_mask s).
Proof.
  intros Hi Hok Hc Ho Hd Hr Hoff Hdn Hov s1. pose proof (moved_root_step c old d s) as R1. fold s1 in R1.
  pose proof (moved_root_inv D c old d s Hi Ho Hd Hc Hr Hoff Hdn) as Hi1. fold s1 in Hi1.
  destruct (moved_root_cpus c old d s c) as (E1 & E2 & E3 & E4 & _). fold s1 in E1, E2, E3, E4. rewrite Nat.eqb_refl in E1.
  assert (rd_ok s1) as Hok1.
  { apply (rd_ok_same s); [| |done].
    - intros e x. destruct (decide (x = c)) as [->|Hx]; [|by apply (over_step c)].
      unfold over_in. by rewrite E2, Hoff, !andb_false_r.
    - intros e. by destruct (moved_root_rds c old d s e) as (_ & ? & ? & _). }
  destruct (rf_masks _ _ _ (root_step_frame c s s1 R1)) as (_ & -> & _).
  destruct (cpumask_test_cpu c (active_mask s)) eqn:Ea; cbv zeta; [|by split_and!; rewrite ?E2].
  assert (in_root c d s1) as Hin by (apply (moved_in_root D); try done; by rewrite E4).
  assert (down s1 c) as Hd1 by (unfold down; by rewrite E3).
  assert (c_true (rq_online (cpus s1 c)) = false) as Hoff1 by by rewrite E2.
  pose proof (set_rq_online_spec c d s1 Hin Hok1 Hoff1 Hd1) as M. split_and!.
  - eapply root_trans; [exact R1|apply M].
  - apply (line_root_inv D 1 c d s1); auto; done.
  - apply M.
  - apply M.
  - by rewrite (ml_flag _ _ _ _ _ M).
Qed.

(** rq_attach_root() as a whole. *)
Lemma attach_root_holds qs D c d s : root_inv D s -> smp_inv qs s -> is_cpu c = true -> D d -> known c ->
  exists old s', rq_rd (cpus s c) = Some old /\
    rq_attach_root fuel c d s = Some (if Z.of_nat (length (members_of old s)) + held old =? 1 then Some old else None, s') /\
    root_inv D s' /\ smp_inv qs s' /\ rq_rd (cpus s' c) = Some d /\
    c_true (rq_online (cpus s' c)) = cpumask_test_cpu c (active_mask s) /\ root_frame c s s'.
Proof.
  intros Hi Hs Hc Hd Hk. destruct (ri_rd D s Hi c Hc) as (old & Ho & Hr).
  destruct (leave_line qs D c old s Hi Hs Hc Ho Hk Hr) as (s1 & E1 & R1 & I1 & O1 & Hr1 & Hoff & Hdn & Hrc).
  assert (overloaded (crts s1 c) = of_bool (c_true (overloaded (crts s1 c)))) as Hov.
  { rewrite (rf_rts _ _ _ (root_step_frame c s s1 R1)). by eapply over_bool. }
  destruct (join_line D c old d s1 I1 O1 Hc Ho Hd Hr1 Hoff Hdn Hov) as (R2 & I2 & O2 & Hr2 & Hon). cbv zeta in *.
  exists old. eexists. split; [done|]. unfold rq_attach_root. rewrite Hr, E1. cbv zeta. split.
  - f_equal. f_equal. set (s3 := upd_rd old _ (upd_rd old _ s1)).
    assert (refcount (rds s3 old) = s32 (refcount (rds s1 old) - 1)) as -> by (unfold s3, upd_rd; cbn; by rewrite !Nat.eqb_refl).
    rewrite Hrc, (ri_ref D s Hi old Ho). pose proof (members_count D s old Hi) as Hb.
    rewrite s32_small by lia. unfold c_true. bcase; cbn; (done || lia).
  - change (upd_rd d (fun r => r <| rd_span ::= cpumask_set_cpu c |>) _) with (moved_root c old d s1).
    assert (root_step c s (if cpumask_test_cpu c (active_mask (moved_root c old d s1)) then set_rq_online fuel c (moved_root c old d s1) else moved_root c old d s1)) as R
      by by apply (root_trans c s s1).
    split_and!; try done.
    + by apply (smp_root qs c s).
    + rewrite Hon. by destruct (rf_masks _ _ _ (root_step_frame c s s1 R1)) as (_ & -> & _).
    + by apply root_step_frame.
Qed.

(** a runqueue can change its root domain at any time.  rq_attach_root()
    never runs into the BUG_ON() of __disable_runtime(): in every root domain the
    processors hold together exactly the runtime of those that take part, and this
    stays so in the domain the processor leaves and in the one it joins.  The
    spans, the online masks and the reference counts of the root domains describe
    again exactly the runqueues that point to them, the old domain is handed out to
    be freed exactly when this was its last reference, and the invariant of the
    scheduler is kept. *)
Theorem rq_attach_root_spec qs D c d s : root_inv D s -> smp_inv qs s -> is_cpu c = true -> D d -> known c ->
  exists old s', rq_rd (cpus s c) = Some old /\
    rq_attach_root fuel c d s = Some (if Z.of_nat (length (members_of old s)) + held old =? 1 then Some old else None, s') /\
    root_inv D s' /\ smp_inv qs s' /\ rq_rd (cpus s' c) = Some d /\
    c_true (rq_online (cpus s' c)) = cpumask_test_cpu c (active_mask s) /\ root_frame c s s'.
Proof. apply attach_root_holds. Qed.
End root.
