(* ===== verification/Domains.v ===== *)
(** Scheduling domains: their construction, attachment and repartitioning, in
    kernel/sched/core.c below CONFIG_SMP.

    A scheduling domain, a group and a group's power are objects of a heap at
    addresses that are numbers; [kmalloc_next] counts the allocations and is the
    address of the next object, and [alloc_fails] tells which allocations fail.
    The per-CPU arrays of pointers that hold the objects under construction are
    objects of the heap too.  A function is a computation in the monad [M] over
    the state [dom]; it is [None] when it follows a null or dangling pointer,
    frees what is not allocated, runs into a BUG_ON(), or does not leave a loop
    (the fuel is the number of levels of the topology, or of processors).

    CONFIG_SCHED_MC and CONFIG_SCHED_SMT are on; debugging and the sysctl tables
    of the domains are off.  The functions of CONFIG_NUMA are at the end. *)

From S2P Require Import Prelude KList Sched Affinity Smp RtSmp RtPush Migrate.

(** ** Data *)

(** include/linux/sched.h: [struct sched_domain]; [d_private] is the level of the
    topology whose [data] it was built from. *)
Record sdom := mkDomain {
  d_parent : option nat; d_child : option nat; d_groups : option nat;
  d_flags : Z; d_level : Z; d_private : nat; d_weight : Z; d_span : Z }.
(** include/linux/sched.h: [struct sched_group] *)
Record sgroup := mkGroup {
  g_next : option nat; g_ref : Z; g_weight : Z; g_sgp : option nat; g_cpus : Z }.
(** include/linux/sched.h: [struct sched_group_power]; the powers are in [sg_power]. *)
Record sgpower := mkPower { p_ref : Z; nr_busy_cpus : Z }.

(** [struct sd_data], [struct sched_domain_topology_level]: [tl_init] is the
    value of SD_type_INIT. *)
Record sd_data := mkData { data_sd : option nat; data_sg : option nat; data_sgp : option nat }.
Record topology_level := mkLevel {
  tl_init : sdom; tl_mask : nat -> Z; tl_flags : Z; tl_data : sd_data }.

(** The callbacks that wait for a grace period. *)
Inductive rcu_callback := FreeSchedDomain (sd : nat) | FreeRootdomain (rd : nat).
(** An array of CPU masks: NULL, [&fallback_doms], or one of alloc_sched_domains(). *)
Inductive doms_ptr := NoDoms | Fallback | Doms (a : nat).

#[export] Instance doms_ptr_eq_dec : EqDecision doms_ptr.
Proof. solve_decision. Defined.

#[export] Instance eta_sdom : Eta sdom := fun r =>
  mkDomain r.(d_parent) r.(d_child) r.(d_groups) r.(d_flags) r.(d_level) r.(d_private) r.(d_weight) r.(d_span).
#[export] Instance eta_sgroup : Eta sgroup := fun r =>
  mkGroup r.(g_next) r.(g_ref) r.(g_weight) r.(g_sgp) r.(g_cpus).
#[export] Instance eta_sgpower : Eta sgpower := fun r => mkPower r.(p_ref) r.(nr_busy_cpus).
#[export] Instance eta_sd_data : Eta sd_data := fun r => mkData r.(data_sd) r.(data_sg) r.(data_sgp).
#[export] Instance eta_level : Eta topology_level := fun r =>
  mkLevel r.(tl_init) r.(tl_mask) r.(tl_flags) r.(tl_data).

(** The state: the machine of Smp.v, the heap, and the variables of core.c. *)
Record dom `{SKTypes} `{SmpTypes} := mkDom {
  machine : smp;
  sds : gmap nat sdom; sgs : gmap nat sgroup; sgps : gmap nat sgpower;
  sg_power : nat -> Z;                     (* sgp->power *)
  percpus : gmap nat (nat -> option nat);  (* the arrays of alloc_percpu() *)
  roots : gset nat;                        (* the allocated root domains *)
  arrays : gmap nat (list nat);            (* arrays of CPU masks *)
  masks : gmap nat Z;                      (* the masks in them *)
  kmalloc_next : nat;
  rcu : list rcu_callback;                 (* oldest first *)
  topology : list topology_level;          (* sched_domain_topology *)
  rq_sdp : nat -> option nat;              (* cpu_rq()->sd *)
  sd_llc : nat -> option nat;
  doms_cur : doms_ptr; ndoms_cur : nat;
  dattr_cur : option (list Z);
  fallback_doms : Z; cpu_isolated_map : Z;
  sched_domain_level_max : Z; default_relax_domain_level : Z;
  num_cpus_frozen : Z;
  sched_mc_power_savings : Z; sched_smt_power_savings : Z;
  force_sd_overlap : bool }.               (* sched_feat(FORCE_SD_OVERLAP) *)
#[export] Instance eta_dom `{SKTypes} `{SmpTypes} : Eta dom := fun r =>
  mkDom _ _ r.(machine) r.(sds) r.(sgs) r.(sgps) r.(sg_power) r.(percpus) r.(roots) r.(arrays) r.(masks)
    r.(kmalloc_next) r.(rcu) r.(topology) r.(rq_sdp) r.(sd_llc) r.(doms_cur) r.(ndoms_cur) r.(dattr_cur)
    r.(fallback_doms) r.(cpu_isolated_map) r.(sched_domain_level_max) r.(default_relax_domain_level)
    r.(num_cpus_frozen) r.(sched_mc_power_savings) r.(sched_smt_power_savings) r.(force_sd_overlap).

(** ** The monad *)

Definition M `{SKTypes} `{SmpTypes} (A : Type) := dom -> option (A * dom).
#[export] Instance M_ret `{SKTypes} `{SmpTypes} : MRet M := fun A a h => Some (a, h).
#[export] Instance M_bind `{SKTypes} `{SmpTypes} : MBind M := fun A B k m h =>
  match m h with
  | None => None
  | Some (a, h) => k a h
  end.

(** linux/cpumask.h, besides the operations of [CpuMasks]. *)
Class DomMasks := {
  cpumask_or : Z -> Z -> Z;
  cpumask_andnot : Z -> Z -> Z;
  cpumask_empty : Z -> bool }.

(** Which allocations fail: the [n]-th one, of any kind.  [alloc_cpumask_var]
    gives the contents of the mask, the variable's own when masks are not
    allocated (CONFIG_CPUMASK_OFFSTACK off); [cpupri_init] the initial
    priorities.  update_group_power() is code of fair.c, cpuset_update_active_cpus()
    of kernel/cpuset.c. *)
Class DomEnv `{SKTypes} `{SmpTypes} := {
  alloc_fails : nat -> bool;
  alloc_cpumask_var : nat -> Z -> option Z;
  cpupri_zero : Cpupri;
  cpupri_init : nat -> option Cpupri;
  nr_node_ids : Z;
  update_group_power : nat -> nat -> dom -> nat -> Z;  (* sd, cpu; the new powers *)
  arch_update_cpu_topology : list topology_level -> bool * list topology_level;
  cpuset_update_active_cpus : M unit;
  rebuild_sched_domains : M unit;
  sched_init_granularity : M unit }.

Section domains.
Context {SK : SKTypes} {ST : SmpTypes} {CM : CpuMask} {CMS : CpuMasks} {SE : SmpEnv} {SC : SmpClasses} {ME : MigrateEnv}
  {DM : DomMasks} {DE : DomEnv}.
(** The bound of the loops of pushing. *)
Context (pushes : nat).

Definition fault {A} : M A := fun _ => None.
Definition gets {A} (f : dom -> A) : M A := fun h => Some (f h, h).
Definition modify (f : dom -> dom) : M unit := fun h => Some (tt, f h).
(** A pointer that must not be NULL. *)
Definition deref (p : option nat) : M nat := match p with Some a => mret a | None => fault end.
(** An operation of the machine of Smp.v. *)
Definition on_machine (f : smp -> smp) : M unit := modify (fun h => h <| machine ::= f |>).

(** Loops over a list, without and with an error that ends them. *)
Fixpoint for_each {A} (l : list A) (f : A -> M unit) : M unit :=
  match l with
  | [] => mret tt
  | x :: l => f x ;; for_each l f
  end.
Fixpoint try_each {A} (l : list A) (f : A -> M Z) : M Z :=
  match l with
  | [] => mret 0
  | x :: l => ret ← f x; if c_true ret then mret ret else try_each l f
  end.

(** ** The heap *)

Definition sd_at (a : nat) : M sdom := fun h => match sds h !! a with Some d => Some (d, h) | None => None end.
Definition sg_at (a : nat) : M sgroup := fun h => match sgs h !! a with Some g => Some (g, h) | None => None end.
Definition sgp_at (a : nat) : M sgpower := fun h => match sgps h !! a with Some p => Some (p, h) | None => None end.
Definition upd_sd (a : nat) (f : sdom -> sdom) : M unit := d ← sd_at a; modify (fun h => h <| sds ::= <[a := f d]> |>).
Definition upd_sg (a : nat) (f : sgroup -> sgroup) : M unit := g ← sg_at a; modify (fun h => h <| sgs ::= <[a := f g]> |>).
Definition upd_sgp (a : nat) (f : sgpower -> sgpower) : M unit := p ← sgp_at a; modify (fun h => h <| sgps ::= <[a := f p]> |>).

(** kmalloc() *)
Definition kmalloc : M (option nat) := fun h =>
  let n := kmalloc_next h in
  Some (if alloc_fails n then None else Some n, h <| kmalloc_next := S n |>).
(** kzalloc_node() of the three structures, alloc_percpu() *)
Definition zero_sd : sdom := mkDomain None None None 0 0 0 0 cpumask_clear.
Definition zero_sg : sgroup := mkGroup None 0 0 None cpumask_clear.
Definition zero_sgp : sgpower := mkPower 0 0.
Definition kzalloc_sd : M (option nat) :=
  p ← kmalloc; match p with None => mret None | Some a => modify (fun h => h <| sds ::= <[a := zero_sd]> |>) ;; mret (Some a) end.
Definition kzalloc_sg : M (option nat) :=
  p ← kmalloc; match p with None => mret None | Some a => modify (fun h => h <| sgs ::= <[a := zero_sg]> |>) ;; mret (Some a) end.
Definition kzalloc_sgp : M (option nat) :=
  p ← kmalloc; match p with None => mret None | Some a => modify (fun h => h <| sgps ::= <[a := zero_sgp]> |>) ;; mret (Some a) end.
Definition alloc_percpu : M (option nat) :=
  p ← kmalloc; match p with None => mret None | Some a => modify (fun h => h <| percpus ::= <[a := fun _ => None]> |>) ;; mret (Some a) end.
(** kfree(), free_percpu() *)
Definition kfree_sd (p : option nat) : M unit :=
  match p with None => mret tt | Some a => sd_at a ;; modify (fun h => h <| sds ::= delete a |>) end.
Definition kfree_sg (p : option nat) : M unit :=
  match p with None => mret tt | Some a => sg_at a ;; modify (fun h => h <| sgs ::= delete a |>) end.
Definition kfree_sgp (p : option nat) : M unit :=
  match p with None => mret tt | Some a => sgp_at a ;; modify (fun h => h <| sgps ::= delete a |>) end.
Definition percpu_at (a : nat) : M (nat -> option nat) :=
  fun h => match percpus h !! a with Some m => Some (m, h) | None => None end.
Definition free_percpu (p : option nat) : M unit :=
  match p with None => mret tt | Some a => percpu_at a ;; modify (fun h => h <| percpus ::= delete a |>) end.

(** [*per_cpu_ptr(p, cpu)], read and written *)
Definition per_cpu_get (p : option nat) (cpu : nat) : M (option nat) :=
  a ← deref p; m ← percpu_at a; mret (m cpu).
Definition per_cpu_set (p : option nat) (cpu : nat) (v : option nat) : M unit :=
  a ← deref p; m ← percpu_at a; modify (fun h => h <| percpus ::= <[a := fun i => if (i =? cpu)%nat then v else m i]> |>).

(** [tl->data] of a level *)
Definition level_at (tl : nat) : M topology_level := fun h => match topology h !! tl with Some l => Some (l, h) | None => None end.
Definition data_at (tl : nat) : M sd_data := l ← level_at tl; mret (tl_data l).
Definition upd_data (tl : nat) (f : sd_data -> sd_data) : M unit :=
  modify (fun h => h <| topology ::= alter (fun l => l <| tl_data ::= f |>) tl |>).
(** for (tl = sched_domain_topology; tl->init; tl++) *)
Definition levels : M (list nat) := gets (fun h => seq 0 (length (topology h))).
Definition nlevels : M nat := gets (fun h => length (topology h)).

(** call_rcu() *)
Definition call_rcu (cb : rcu_callback) : M unit := modify (fun h => h <| rcu ::= fun l => l ++ [cb] |>).

(** ** Degenerate domains *)

(** sched_domain_span(), sched_group_cpus(), cpumask_first(), group_first_cpu() *)
Definition sched_domain_span (sd : nat) : M Z := d ← sd_at sd; mret (d_span d).
Definition sched_group_cpus (sg : nat) : M Z := g ← sg_at sg; mret (g_cpus g).
Definition cpumask_first (m : Z) : nat := cpumask_next None m.
Definition group_first_cpu (sg : nat) : M nat := m ← sched_group_cpus sg; mret (cpumask_first m).

(** include/linux/sched.h, besides those of RtSmp.v and Migrate.v *)
Definition SD_LOAD_BALANCE := 0x1.
Definition SD_BALANCE_NEWIDLE := 0x2.
Definition SD_WAKE_AFFINE := 0x20.
Definition SD_SHARE_CPUPOWER := 0x80.
Definition SD_SERIALIZE := 0x400.
Definition SD_OVERLAP := 0x2000.
(** The flags that need at least two groups. *)
Definition SD_GROUPS := Z.lor SD_LOAD_BALANCE (Z.lor SD_BALANCE_NEWIDLE (Z.lor SD_BALANCE_FORK (Z.lor SD_BALANCE_EXEC
  (Z.lor SD_SHARE_CPUPOWER SD_SHARE_PKG_RESOURCES)))).

(** [sd->groups == sd->groups->next] *)
Definition one_group (d : sdom) : M bool :=
  g ← deref (d_groups d); sg ← sg_at g; mret (bool_decide (g_next sg = Some g)).

(** sd_degenerate() *)
Definition sd_degenerate (sd : nat) : M bool :=
  d ← sd_at sd;
  if cpumask_weight (d_span d) =? 1 then mret true
  else
    two ← (if has_flag (d_flags d) SD_GROUPS then one ← one_group d; mret (negb one) else mret false);
    if (two : bool) then mret false
    else if has_flag (d_flags d) SD_WAKE_AFFINE then mret false
    else mret true.

(** sd_parent_degenerate() *)
Definition sd_parent_degenerate (sd parent : nat) : M bool :=
  d ← sd_at sd; p ← sd_at parent;
  let cflags := d_flags d in
  let pflags := d_flags p in
  deg ← sd_degenerate parent;
  if (deg : bool) then mret true
  else if negb (cpumask_equal (d_span d) (d_span p)) then mret false
  else
    one ← one_group p;
    let pflags :=
      if (one : bool) then
        let pflags := Z.ldiff pflags SD_GROUPS in
        if nr_node_ids =? 1 then Z.ldiff pflags SD_SERIALIZE else pflags
      else pflags in
    if c_true (Z.land (Z.lnot cflags) pflags) then mret false else mret true.

(** ** Root domains *)

(** The address of [def_root_domain]; objects are allocated at larger ones. *)
Definition def_root_domain : nat := 0.

(** free_rootdomain() *)
Definition free_rootdomain (rd : nat) : M unit := fun h =>
  if decide (rd ∈ roots h) then Some (tt, h <| roots ::= fun m => m ∖ {[rd]} |>) else None.

(** init_rootdomain(): the three masks and the processor priorities; each
    allocation has its number *)
Definition alloc_mask (m : Z) : M (option Z) := fun h =>
  Some (alloc_cpumask_var (kmalloc_next h) m, h <| kmalloc_next ::= S |>).
Definition set_rd (rd : nat) (f : root_domain -> root_domain) : M unit := on_machine (upd_rd rd f).
Definition init_rootdomain (rd : nat) : M Z :=
  set_rd rd (fun _ => mkRd _ 0 0 cpumask_clear cpumask_clear cpumask_clear cpupri_zero) ;;
  m ← alloc_mask cpumask_clear;
  match m with None => mret (- ENOMEM) | Some m =>
    set_rd rd (fun r => r <| rd_span := m |>) ;;
    m ← alloc_mask cpumask_clear;
    match m with None => mret (- ENOMEM) | Some m =>
      set_rd rd (fun r => r <| rd_online := m |>) ;;
      m ← alloc_mask cpumask_clear;
      match m with None => mret (- ENOMEM) | Some m =>
        set_rd rd (fun r => r <| rto_mask := m |>) ;;
        n ← gets kmalloc_next;
        modify (fun h => h <| kmalloc_next ::= S |>) ;;
        match cpupri_init n with
        | None => mret (- ENOMEM)
        | Some c => set_rd rd (fun r => r <| cpupri := c |>) ;; mret 0
        end
      end
    end
  end.

(** init_defrootdomain() *)
Definition init_defrootdomain : M unit :=
  init_rootdomain def_root_domain ;;
  set_rd def_root_domain (fun r => r <| refcount := 1 |>).

(** alloc_rootdomain() *)
Definition alloc_rootdomain : M (option nat) :=
  p ← kmalloc;
  match p with
  | None => mret None
  | Some rd =>
      modify (fun h => h <| roots ::= fun m => {[rd]} ∪ m |>) ;;
      err ← init_rootdomain rd;
      if c_true err then
        modify (fun h => h <| roots ::= fun m => m ∖ {[rd]} |>) ;; mret None
      else mret (Some rd)
  end.

(** rq_attach_root(), of Migrate.v, with the callback that frees the old one *)
Definition attach_root (cpu rd : nat) : M unit := fun h =>
  match rq_attach_root pushes cpu rd (machine h) with
  | None => None
  | Some (old_rd, s) =>
      let h := h <| machine := s |> in
      match old_rd with
      | None => Some (tt, h)
      | Some old => call_rcu (FreeRootdomain old) h
      end
  end.

(** ** Freeing *)

(** free_sched_groups(); [fuel] bounds the length of the ring *)
Fixpoint free_groups_loop (fuel : nat) (first sg : nat) (free_sgp : bool) : M unit :=
  match fuel with
  | O => fault
  | S fuel =>
      g ← sg_at sg;
      tmp ← deref (g_next g);
      (if free_sgp then
         p ← deref (g_sgp g);
         upd_sgp p (fun r => r <| p_ref ::= fun n => s32 (n - 1) |>) ;;
         r ← sgp_at p;
         if c_true (p_ref r) then mret tt else kfree_sgp (Some p)
       else mret tt) ;;
      kfree_sg (Some sg) ;;
      if (tmp =? first)%nat then mret tt else free_groups_loop fuel first tmp free_sgp
  end.
Definition free_sched_groups (sg : option nat) (free_sgp : bool) : M unit :=
  match sg with
  | None => mret tt
  | Some sg => free_groups_loop (S nr_cpus) sg sg free_sgp
  end.

(** free_sched_domain() *)
Definition free_sched_domain (sd : nat) : M unit :=
  d ← sd_at sd;
  (if has_flag (d_flags d) SD_OVERLAP then free_sched_groups (d_groups d) true
   else
     g ← deref (d_groups d);
     upd_sg g (fun r => r <| g_ref ::= fun n => s32 (n - 1) |>) ;;
     r ← sg_at g;
     if c_true (g_ref r) then mret tt
     else kfree_sgp (g_sgp r) ;; kfree_sg (Some g)) ;;
  kfree_sd (Some sd).

(** destroy_sched_domain(), destroy_sched_domains() *)
Definition destroy_sched_domain (sd : nat) : M unit := call_rcu (FreeSchedDomain sd).
Fixpoint destroy_loop (fuel : nat) (sd : option nat) : M unit :=
  match sd with
  | None => mret tt
  | Some a =>
      match fuel with
      | O => fault
      | S fuel => destroy_sched_domain a ;; d ← sd_at a; destroy_loop fuel (d_parent d)
      end
  end.
Definition destroy_sched_domains (sd : option nat) : M unit := n ← nlevels; destroy_loop n sd.

(** The end of a grace period: the callbacks run in the order of call_rcu(). *)
Definition run_callback (cb : rcu_callback) : M unit :=
  match cb with FreeSchedDomain sd => free_sched_domain sd | FreeRootdomain rd => free_rootdomain rd end.
Definition grace_period : M unit :=
  l ← gets rcu; modify (fun h => h <| rcu := [] |>) ;; for_each l run_callback.

(** ** Attaching *)

(** cpu_attach_domain(): the loop that removes parents that do not contribute *)
Fixpoint prune_parents (fuel : nat) (tmp : option nat) : M unit :=
  match tmp with
  | None => mret tt
  | Some t =>
      d ← sd_at t;
      match d_parent d with
      | None => mret tt
      | Some parent =>
          match fuel with
          | O => fault
          | S fuel =>
              deg ← sd_parent_degenerate t parent;
              if (deg : bool) then
                p ← sd_at parent;
                upd_sd t (fun d => d <| d_parent := d_parent p |>) ;;
                match d_parent p with
                | None => mret tt
                | Some pp => upd_sd pp (fun d => d <| d_child := Some t |>)
                end ;;
                destroy_sched_domain parent ;;
                prune_parents fuel (Some t)
              else prune_parents fuel (Some parent)
          end
      end
  end.

(** The masks of the ring of groups, and the domains from [sd] up, as [rq_sd] of
    Smp.v holds them. *)
Fixpoint ring_masks (fuel : nat) (h : dom) (first : nat) (sg : option nat) : list Z :=
  match fuel, sg with
  | S fuel, Some a =>
      match sgs h !! a with
      | None => []
      | Some g => g_cpus g :: if bool_decide (g_next g = Some first) then [] else ring_masks fuel h first (g_next g)
      end
  | _, _ => []
  end.
Fixpoint chain_view (fuel : nat) (h : dom) (sd : option nat) : list sched_domain :=
  match fuel, sd with
  | S fuel, Some a =>
      match sds h !! a with
      | None => []
      | Some d =>
          mkSd (d_flags d) (Z.to_nat (d_level d)) (d_span d)
            (match d_groups d with None => [] | Some g => ring_masks nr_cpus h g (Some g) end) 0
          :: chain_view fuel h (d_parent d)
      end
  | _, _ => []
  end.

(** highest_flag_domain() on the heap *)
Fixpoint highest_flag_loop (fuel : nat) (sd : option nat) (flag : Z) (hsd : option nat) : M (option nat) :=
  match sd with
  | None => mret hsd
  | Some a =>
      match fuel with
      | O => fault
      | S fuel =>
          d ← sd_at a;
          if negb (has_flag (d_flags d) flag) then mret hsd
          else highest_flag_loop fuel (d_parent d) flag (Some a)
      end
  end.
(** update_top_cache_domain(): [sd_llc] here, [sd_llc_id] by Migrate.v *)
Definition update_top_cache_domain (cpu : nat) : M unit :=
  n ← nlevels; sd ← gets (fun h => rq_sdp h cpu);
  hsd ← highest_flag_loop n sd SD_SHARE_PKG_RESOURCES None;
  modify (fun h => h <| sd_llc ::= fun m i => if (i =? cpu)%nat then hsd else m i |>) ;;
  on_machine (Migrate.update_top_cache_domain cpu).

(** cpu_attach_domain(): the base domain is removed too when it is degenerate *)
Definition prune_base (sd : option nat) : M (option nat) :=
  match sd with
  | None => mret None
  | Some tmp =>
      deg ← sd_degenerate tmp;
      if (deg : bool) then
        d ← sd_at tmp;
        destroy_sched_domain tmp ;;
        match d_parent d with
        | None => mret None
        | Some a => upd_sd a (fun d => d <| d_child := None |>) ;; mret (Some a)
        end
      else mret (Some tmp)
  end.
(** rcu_assign_pointer(rq->sd, sd) *)
Definition assign_sd (cpu : nat) (sd : option nat) : M unit :=
  modify (fun h => h <| rq_sdp ::= fun m i => if (i =? cpu)%nat then sd else m i |>) ;;
  v ← gets (fun h => chain_view (length (topology h)) h sd);
  on_machine (upd_cpu cpu (fun r => r <| rq_sd := v |>)).
Definition cpu_attach_domain (sd : option nat) (rd cpu : nat) : M unit :=
  n ← nlevels;
  prune_parents n sd ;;
  sd ← prune_base sd;
  attach_root cpu rd ;;
  tmp ← gets (fun h => rq_sdp h cpu);
  assign_sd cpu sd ;;
  destroy_sched_domains tmp ;;
  update_top_cache_domain cpu.

(** isolated_cpu_setup(), with the parsed list *)
Definition isolated_cpu_setup (mask : Z) : M unit := modify (fun h => h <| cpu_isolated_map := mask |>).

(** ** Groups *)

(** build_overlap_sched_groups(): the span of the group that starts at [i] *)
Definition overlap_span (sdd : sd_data) (i : nat) : M Z :=
  p ← per_cpu_get (data_sd sdd) i;
  c ← deref p; child ← sd_at c;
  match d_child child with
  | Some cc => sched_domain_span cc
  | None => mret (cpumask_set_cpu i cpumask_clear)
  end.
(** The loop: [covered] and the first, the last and the own group; the result is
    an error or the own group *)
Record overlap_st := mkOverlap {
  o_covered : Z; o_first : option nat; o_last : option nat; o_groups : option nat }.
Fixpoint overlap_loop (l : list nat) (cpu : nat) (sdd : sd_data) (o : overlap_st) : M (Z * overlap_st) :=
  match l with
  | [] => mret (0, o)
  | i :: l =>
      if cpumask_test_cpu i (o_covered o) then overlap_loop l cpu sdd o
      else
        p ← kzalloc_sg;
        match p with
        | None => mret (- ENOMEM, o)
        | Some sg =>
            m ← overlap_span sdd i;
            upd_sg sg (fun g => g <| g_cpus := m |>) ;;
            let covered := cpumask_or (o_covered o) m in
            sgp ← per_cpu_get (data_sgp sdd) (cpumask_first m);
            upd_sg sg (fun g => g <| g_sgp := sgp |>) ;;
            a ← deref sgp;
            upd_sgp a (fun r => r <| p_ref ::= fun n => s32 (n + 1) |>) ;;
            let groups := if cpumask_test_cpu cpu m then Some sg else o_groups o in
            let first := match o_first o with None => sg | Some f => f end in
            match o_last o with
            | None => mret tt
            | Some last => upd_sg last (fun g => g <| g_next := Some sg |>)
            end ;;
            upd_sg sg (fun g => g <| g_next := Some first |>) ;;
            overlap_loop l cpu sdd (mkOverlap covered (Some first) (Some sg) groups)
        end
  end.
Definition build_overlap_sched_groups (sd cpu : nat) : M Z :=
  span ← sched_domain_span sd;
  d ← sd_at sd; sdd ← data_at (d_private d);
  '(err, o) ← overlap_loop (cpus_of span) cpu sdd (mkOverlap cpumask_clear None None None);
  if c_true err then free_sched_groups (o_first o) false ;; mret (- ENOMEM)
  else upd_sd sd (fun d => d <| d_groups := o_groups o |>) ;; mret 0.

(** get_group(): the processor that stands for the group, and the group where
    [sg] is not NULL *)
Definition group_cpu (cpu : nat) (sdd : sd_data) : M nat :=
  p ← per_cpu_get (data_sd sdd) cpu; a ← deref p; sd ← sd_at a;
  match d_child sd with
  | Some c => m ← sched_domain_span c; mret (cpumask_first m)
  | None => mret cpu
  end.
Definition get_group (cpu : nat) (sdd : sd_data) : M (nat * nat) :=
  cpu ← group_cpu cpu sdd;
  p ← per_cpu_get (data_sg sdd) cpu; sg ← deref p;
  sgp ← per_cpu_get (data_sgp sdd) cpu;
  upd_sg sg (fun g => g <| g_sgp := sgp |>) ;;
  a ← deref sgp;
  upd_sgp a (fun r => r <| p_ref := 1 |>) ;;
  mret (cpu, sg).

(** build_sched_groups(): the inner loop collects the processors of a group *)
Fixpoint collect_group (l : list nat) (group : nat) (sdd : sd_data) (sg : nat) (covered : Z) : M Z :=
  match l with
  | [] => mret covered
  | j :: l =>
      g ← group_cpu j sdd;
      if negb (g =? group)%nat then collect_group l group sdd sg covered
      else
        upd_sg sg (fun g => g <| g_cpus ::= cpumask_set_cpu j |>) ;;
        collect_group l group sdd sg (cpumask_set_cpu j covered)
  end.
(** The outer loop, with [covered], [first] and [last]; and the function *)
Fixpoint groups_loop (l : list nat) (span : Z) (sdd : sd_data) (covered : Z) (first last : option nat) : M (option nat * option nat) :=
  match l with
  | [] => mret (first, last)
  | i :: l =>
      '(group, sg) ← get_group i sdd;
      if cpumask_test_cpu i covered then groups_loop l span sdd covered first last
      else
        upd_sg sg (fun g => g <| g_cpus := cpumask_clear |>) ;;
        g ← sg_at sg; p ← deref (g_sgp g);
        modify (fun h => h <| sg_power ::= fun m a => if (a =? p)%nat then 0 else m a |>) ;;
        covered ← collect_group (cpus_of span) group sdd sg covered;
        let first := match first with None => Some sg | Some f => Some f end in
        match last with
        | None => mret tt
        | Some l => upd_sg l (fun g => g <| g_next := Some sg |>)
        end ;;
        groups_loop l span sdd covered first (Some sg)
  end.
Definition build_sched_groups (sd cpu : nat) : M Z :=
  d ← sd_at sd; sdd ← data_at (d_private d);
  let span := d_span d in
  '(_, g) ← get_group cpu sdd;
  upd_sd sd (fun d => d <| d_groups := Some g |>) ;;
  upd_sg g (fun r => r <| g_ref ::= fun n => s32 (n + 1) |>) ;;
  if negb (cpu =? cpumask_first span)%nat then mret 0
  else
    '(first, last) ← groups_loop (cpus_of span) span sdd cpumask_clear None None;
    last ← deref last;
    upd_sg last (fun g => g <| g_next := first |>) ;;
    mret 0.

(** init_sched_groups_power(): the loop around the ring, and the function *)
Fixpoint weight_loop (fuel : nat) (groups : option nat) (sg : nat) : M nat :=
  match fuel with
  | O => fault
  | S fuel =>
      g ← sg_at sg;
      upd_sg sg (fun r => r <| g_weight := u32 (cpumask_weight (g_cpus g)) |>) ;;
      next ← deref (g_next g);
      if bool_decide (Some next = groups) then mret next else weight_loop fuel groups next
  end.
Definition init_sched_groups_power (cpu sd : nat) : M unit :=
  d ← sd_at sd; sg ← deref (d_groups d);
  sg ← weight_loop (S nr_cpus) (d_groups d) sg;
  first ← group_first_cpu sg;
  if negb (cpu =? first)%nat then mret tt
  else
    p ← gets (update_group_power sd cpu);
    modify (fun h => h <| sg_power := p |>) ;;
    g ← sg_at sg; a ← deref (g_sgp g);
    upd_sgp a (fun r => r <| nr_busy_cpus := s32 (g_weight g) |>).

(** ** Building *)

(** SD_INIT_FUNC() *)
Definition sd_init (tl cpu : nat) : M (option nat) :=
  l ← level_at tl;
  p ← per_cpu_get (data_sd (tl_data l)) cpu; sd ← deref p;
  upd_sd sd (fun d => (tl_init l) <| d_span := d_span d |>) ;;
  upd_sd sd (fun d => d <| d_private := tl |>) ;;
  mret (Some sd).

(** setup_relax_domain_level(), with what kstrtoint() parsed *)
Definition setup_relax_domain_level (v : option Z) : M Z :=
  match v with None => mret tt | Some v => modify (fun h => h <| default_relax_domain_level := v |>) end ;; mret 1.

(** set_domain_attribute() *)
Definition set_domain_attribute (sd : nat) (attr : option Z) : M unit :=
  default ← gets default_relax_domain_level;
  let request :=
    match attr with
    | Some r => if r <? 0 then (if default <? 0 then None else Some default) else Some r
    | None => if default <? 0 then None else Some default
    end in
  match request with
  | None => mret tt
  | Some request =>
      d ← sd_at sd;
      if request <? d_level d then
        upd_sd sd (fun d => d <| d_flags ::= fun f => Z.ldiff f (Z.lor SD_BALANCE_WAKE SD_BALANCE_NEWIDLE) |>)
      else upd_sd sd (fun d => d <| d_flags ::= fun f => Z.lor f (Z.lor SD_BALANCE_WAKE SD_BALANCE_NEWIDLE) |>)
  end.

(** build_sched_domain() *)
Definition build_sched_domain (tl : nat) (cpu_map : Z) (attr : option Z) (child : option nat) (cpu : nat) : M (option nat) :=
  sd ← sd_init tl cpu;
  match sd with
  | None => mret child
  | Some sd =>
      l ← level_at tl;
      upd_sd sd (fun d => d <| d_span := cpumask_and cpu_map (tl_mask l cpu) |>) ;;
      match child with
      | None => mret tt
      | Some c =>
          cd ← sd_at c;
          upd_sd sd (fun d => d <| d_level := s32 (d_level cd + 1) |>) ;;
          d ← sd_at sd;
          modify (fun h => h <| sched_domain_level_max ::= fun m => Z.max m (d_level d) |>) ;;
          upd_sd c (fun d => d <| d_parent := Some sd |>)
      end ;;
      upd_sd sd (fun d => d <| d_child := child |>) ;;
      set_domain_attribute sd attr ;;
      mret (Some sd)
  end.

(** __sdt_alloc(): the objects of a processor and of a level *)
Definition alloc_objects (tl j : nat) : M Z :=
  sdd ← data_at tl;
  sd ← kzalloc_sd;
  match sd with None => mret (- ENOMEM) | Some _ =>
    per_cpu_set (data_sd sdd) j sd ;;
    sg ← kzalloc_sg;
    match sg with None => mret (- ENOMEM) | Some a =>
      upd_sg a (fun g => g <| g_next := Some a |>) ;;
      per_cpu_set (data_sg sdd) j sg ;;
      sgp ← kzalloc_sgp;
      match sgp with None => mret (- ENOMEM) | Some _ =>
        per_cpu_set (data_sgp sdd) j sgp ;; mret 0
      end
    end
  end.
Definition alloc_level (cpu_map : Z) (tl : nat) : M Z :=
  p ← alloc_percpu; upd_data tl (fun d => d <| data_sd := p |>) ;;
  match p with None => mret (- ENOMEM) | Some _ =>
    p ← alloc_percpu; upd_data tl (fun d => d <| data_sg := p |>) ;;
    match p with None => mret (- ENOMEM) | Some _ =>
      p ← alloc_percpu; upd_data tl (fun d => d <| data_sgp := p |>) ;;
      match p with None => mret (- ENOMEM) | Some _ =>
        try_each (cpus_of cpu_map) (alloc_objects tl)
      end
    end
  end.
Definition __sdt_alloc (cpu_map : Z) : M Z := ls ← levels; try_each ls (alloc_level cpu_map).

(** __sdt_free(): the objects of a processor and of a level *)
Definition free_objects (tl j : nat) : M unit :=
  sdd ← data_at tl;
  match data_sd sdd with
  | None => mret tt
  | Some _ =>
      sd ← per_cpu_get (data_sd sdd) j;
      match sd with
      | None => mret tt
      | Some a =>
          d ← sd_at a;
          if has_flag (d_flags d) SD_OVERLAP then free_sched_groups (d_groups d) false else mret tt
      end ;;
      sd ← per_cpu_get (data_sd sdd) j;
      kfree_sd sd
  end ;;
  match data_sg sdd with
  | None => mret tt
  | Some _ => sg ← per_cpu_get (data_sg sdd) j; kfree_sg sg
  end ;;
  match data_sgp sdd with
  | None => mret tt
  | Some _ => sgp ← per_cpu_get (data_sgp sdd) j; kfree_sgp sgp
  end.
Definition free_level (cpu_map : Z) (tl : nat) : M unit :=
  for_each (cpus_of cpu_map) (free_objects tl) ;;
  sdd ← data_at tl;
  free_percpu (data_sd sdd) ;; upd_data tl (fun d => d <| data_sd := None |>) ;;
  free_percpu (data_sg sdd) ;; upd_data tl (fun d => d <| data_sg := None |>) ;;
  free_percpu (data_sgp sdd) ;; upd_data tl (fun d => d <| data_sgp := None |>).
Definition __sdt_free (cpu_map : Z) : M unit := ls ← levels; for_each ls (free_level cpu_map).

(** [struct s_data], [enum s_alloc] *)
Record s_data := mkSData { s_sd : option nat; s_rd : option nat }.
Inductive s_alloc := sa_rootdomain | sa_sd | sa_sd_storage | sa_none.

(** __free_domain_allocs(): every case falls through to the next *)
Definition __free_domain_allocs (d : s_data) (what : s_alloc) (cpu_map : Z) : M unit :=
  match what with
  | sa_rootdomain =>
      rd ← deref (s_rd d);
      n ← gets (fun h => refcount (rds (machine h) rd));
      if c_true n then mret tt else free_rootdomain rd
  | _ => mret tt
  end ;;
  match what with
  | sa_rootdomain | sa_sd => free_percpu (s_sd d)
  | _ => mret tt
  end ;;
  match what with
  | sa_rootdomain | sa_sd | sa_sd_storage => __sdt_free cpu_map
  | sa_none => mret tt
  end.

(** __visit_domain_allocation_hell() *)
Definition __visit_domain_allocation_hell (cpu_map : Z) : M (s_alloc * s_data) :=
  err ← __sdt_alloc cpu_map;
  if c_true err then mret (sa_sd_storage, mkSData None None)
  else
    sd ← alloc_percpu;
    match sd with
    | None => mret (sa_sd_storage, mkSData None None)
    | Some _ =>
        rd ← alloc_rootdomain;
        match rd with
        | None => mret (sa_sd, mkSData sd None)
        | Some _ => mret (sa_rootdomain, mkSData sd rd)
        end
    end.

(** claim_allocations() *)
Definition claim_allocations (cpu sd : nat) : M unit :=
  d ← sd_at sd; sdd ← data_at (d_private d);
  per_cpu_get (data_sd sdd) cpu ;;
  per_cpu_set (data_sd sdd) cpu None ;;
  p ← per_cpu_get (data_sg sdd) cpu; sg ← deref p; g ← sg_at sg;
  (if c_true (g_ref g) then per_cpu_set (data_sg sdd) cpu None else mret tt) ;;
  p ← per_cpu_get (data_sgp sdd) cpu; sgp ← deref p; r ← sgp_at sgp;
  (if c_true (p_ref r) then per_cpu_set (data_sgp sdd) cpu None else mret tt).

(** build_sched_domains(): the domains of a processor, up to one that spans the map *)
Fixpoint build_levels (ls : list nat) (cpu_map : Z) (attr : option Z) (i : nat) (sd : option nat) : M (option nat) :=
  match ls with
  | [] => mret sd
  | tl :: ls =>
      sd ← build_sched_domain tl cpu_map attr sd i;
      l ← level_at tl; force ← gets force_sd_overlap;
      a ← deref sd;
      (if has_flag (tl_flags l) 1 || force
       then upd_sd a (fun d => d <| d_flags ::= fun f => Z.lor f SD_OVERLAP |>) else mret tt) ;;
      span ← sched_domain_span a;
      if cpumask_equal cpu_map span then mret sd else build_levels ls cpu_map attr i sd
  end.
(** while (sd->child) sd = sd->child; *)
Fixpoint lowest_child (fuel : nat) (sd : nat) : M nat :=
  match fuel with
  | O => fault
  | S fuel =>
      d ← sd_at sd;
      match d_child d with None => mret sd | Some c => lowest_child fuel c end
  end.
Definition build_cpu (cpu_map : Z) (attr : option Z) (s : s_data) (i : nat) : M unit :=
  ls ← levels;
  sd ← build_levels ls cpu_map attr i None;
  sd ← deref sd;
  sd ← lowest_child (length ls) sd;
  per_cpu_set (s_sd s) i (Some sd).
(** for (sd = *per_cpu_ptr(d.sd, i); sd; sd = sd->parent), without and with an
    error; the body leaves [sd->parent] alone *)
Fixpoint chain_each (fuel : nat) (sd : option nat) (f : nat -> M unit) : M unit :=
  match sd with
  | None => mret tt
  | Some a =>
      match fuel with
      | O => fault
      | S fuel => f a ;; d ← sd_at a; chain_each fuel (d_parent d) f
      end
  end.
Fixpoint chain_try (fuel : nat) (sd : option nat) (f : nat -> M Z) : M Z :=
  match sd with
  | None => mret 0
  | Some a =>
      match fuel with
      | O => fault
      | S fuel => ret ← f a; if c_true ret then mret ret else d ← sd_at a; chain_try fuel (d_parent d) f
      end
  end.
(** The three following loops. *)
Definition build_groups (i sd : nat) : M Z :=
  upd_sd sd (fun d => d <| d_weight := u32 (cpumask_weight (d_span d)) |>) ;;
  d ← sd_at sd;
  if has_flag (d_flags d) SD_OVERLAP then build_overlap_sched_groups sd i else build_sched_groups sd i.
Definition groups_of_cpu (s : s_data) (i : nat) : M Z :=
  n ← nlevels; sd ← per_cpu_get (s_sd s) i; chain_try n sd (build_groups i).
Definition power_of_cpu (cpu_map : Z) (s : s_data) (i : nat) : M unit :=
  if negb (cpumask_test_cpu i cpu_map) then mret tt
  else
    n ← nlevels; sd ← per_cpu_get (s_sd s) i;
    chain_each n sd (fun sd => claim_allocations i sd ;; init_sched_groups_power i sd).
Definition attach_cpu (s : s_data) (i : nat) : M unit :=
  sd ← per_cpu_get (s_sd s) i; rd ← deref (s_rd s); cpu_attach_domain sd rd i.

(** build_sched_domains() *)
Definition build_sched_domains (cpu_map : Z) (attr : option Z) : M Z :=
  '(alloc_state, d) ← __visit_domain_allocation_hell cpu_map;
  ret ←
    match alloc_state with
    | sa_rootdomain =>
        for_each (cpus_of cpu_map) (build_cpu cpu_map attr d) ;;
        err ← try_each (cpus_of cpu_map) (groups_of_cpu d);
        if c_true err then mret (- ENOMEM)
        else
          for_each (rev (seq 0 nr_cpus)) (power_of_cpu cpu_map d) ;;
          for_each (cpus_of cpu_map) (attach_cpu d) ;;
          mret 0
    | _ => mret (- ENOMEM)
    end;
  __free_domain_allocs d alloc_state cpu_map ;;
  mret ret.

(** ** Partitions *)

(** alloc_sched_domains(), free_sched_domains() *)
Definition mask_kmalloc : M (option nat) := fun h =>
  let n := kmalloc_next h in
  match alloc_cpumask_var n cpumask_clear with
  | None => Some (None, h <| kmalloc_next := S n |>)
  | Some m => Some (Some n, h <| kmalloc_next := S n |> <| masks ::= <[n := m]> |>)
  end.
Definition free_mask (a : nat) : M unit := fun h =>
  match masks h !! a with None => None | Some _ => Some (tt, h <| masks ::= delete a |>) end.
Definition array_at (a : nat) : M (list nat) := fun h =>
  match arrays h !! a with None => None | Some l => Some (l, h) end.
Fixpoint alloc_masks (n : nat) : M (bool * list nat) :=
  match n with
  | O => mret (true, [])
  | S n =>
      p ← mask_kmalloc;
      match p with
      | None => mret (false, [])
      | Some a => '(ok, l) ← alloc_masks n; mret (ok, a :: l)
      end
  end.
Definition free_sched_domains (doms : doms_ptr) (ndoms : nat) : M unit :=
  match doms with
  | Doms a =>
      l ← array_at a;
      for_each (take ndoms l) free_mask ;;
      modify (fun h => h <| arrays ::= delete a |>)
  | _ => fault
  end.
Definition alloc_sched_domains (ndoms : nat) : M doms_ptr :=
  p ← kmalloc;
  match p with
  | None => mret NoDoms
  | Some a =>
      '(ok, l) ← alloc_masks ndoms;
      modify (fun h => h <| arrays ::= <[a := l]> |>) ;;
      if (ok : bool) then mret (Doms a)
      else free_sched_domains (Doms a) (length l) ;; mret NoDoms
  end.

(** [doms[i]], read and written *)
Definition mask_at (p : nat) : M Z := fun h => match masks h !! p with None => None | Some m => Some (m, h) end.
Definition doms_get (doms : doms_ptr) (i : nat) : M Z :=
  match doms with
  | NoDoms => fault
  | Fallback => if (i =? 0)%nat then gets fallback_doms else fault
  | Doms a =>
      l ← array_at a;
      match l !! i with
      | None => fault
      | Some p => mask_at p
      end
  end.
Definition doms_set0 (doms : doms_ptr) (m : Z) : M unit :=
  match doms with
  | NoDoms => fault
  | Fallback => modify (fun h => h <| fallback_doms := m |>)
  | Doms a =>
      l ← array_at a;
      match l !! 0%nat with
      | None => fault
      | Some p => modify (fun h => h <| masks ::= <[p := m]> |>)
      end
  end.

(** arch_update_cpu_topology() *)
Definition update_topology : M bool := fun h =>
  let '(changed, t) := arch_update_cpu_topology (topology h) in Some (changed, h <| topology := t |>).

(** init_sched_domains() *)
Definition init_sched_domains (cpu_map : Z) : M Z :=
  update_topology ;;
  modify (fun h => h <| ndoms_cur := 1%nat |>) ;;
  p ← alloc_sched_domains 1;
  modify (fun h => h <| doms_cur := if decide (p = NoDoms) then Fallback else p |>) ;;
  p ← gets doms_cur; isolated ← gets cpu_isolated_map;
  doms_set0 p (cpumask_andnot cpu_map isolated) ;;
  modify (fun h => h <| dattr_cur := None |>) ;;
  m ← doms_get p 0;
  build_sched_domains m None.

(** detach_destroy_domains() *)
Definition detach_destroy_domains (cpu_map : Z) : M unit :=
  for_each (cpus_of cpu_map) (cpu_attach_domain None def_root_domain).

(** dattrs_equal(); [SD_ATTR_INIT] has relax_domain_level = -1 *)
Definition SD_ATTR_INIT := -1.
Definition dattr_at (d : option (list Z)) (i : nat) : Z :=
  match d with None => SD_ATTR_INIT | Some l => l !!! i end.
Definition dattrs_equal (cur : option (list Z)) (idx_cur : nat) (new : option (list Z)) (idx_new : nat) : bool :=
  match new, cur with
  | None, None => true
  | _, _ => dattr_at cur idx_cur =? dattr_at new idx_new
  end.

(** partition_sched_domains(): is the domain [m] with its attributes among the
    first [n] of [doms]? *)
Fixpoint find_dom (js : list nat) (m : Z) (dattr : option (list Z)) (i : nat) (doms : doms_ptr) (dattrs : option (list Z)) : M bool :=
  match js with
  | [] => mret false
  | j :: js =>
      m' ← doms_get doms j;
      if cpumask_equal m m' && dattrs_equal dattr i dattrs j then mret true
      else find_dom js m dattr i doms dattrs
  end.
(** The two loops. *)
Definition destroy_deleted (n : nat) (doms_new : doms_ptr) (dattr_new : option (list Z)) (new_topology : bool) (i : nat) : M unit :=
  cur ← gets doms_cur; dattr ← gets dattr_cur;
  m ← doms_get cur i;
  found ← (if new_topology then mret false else find_dom (seq 0 n) m dattr i doms_new dattr_new);
  if (found : bool) then mret tt else detach_destroy_domains m.
Definition build_new (doms_new : doms_ptr) (dattr_new : option (list Z)) (new_topology : bool) (i : nat) : M unit :=
  cur ← gets doms_cur; dattr ← gets dattr_cur; n ← gets ndoms_cur;
  m ← doms_get doms_new i;
  found ← (if new_topology then mret false else find_dom (seq 0 n) m dattr_new i cur dattr);
  if (found : bool) then mret tt
  else build_sched_domains m (match dattr_new with None => None | Some _ => Some (dattr_at dattr_new i) end) ;; mret tt.

(** partition_sched_domains() *)
Definition partition_sched_domains (ndoms_new : nat) (doms_new : doms_ptr) (dattr_new : option (list Z)) : M unit :=
  new_topology ← update_topology;
  let n := if decide (doms_new = NoDoms) then 0%nat else ndoms_new in
  ndoms ← gets ndoms_cur;
  for_each (seq 0 ndoms) (destroy_deleted n doms_new dattr_new new_topology) ;;
  doms_new ←
    (if decide (doms_new = NoDoms) then
       modify (fun h => h <| ndoms_cur := 0%nat |>) ;;
       h ← gets id;
       doms_set0 Fallback (cpumask_andnot (active_mask (machine h)) (cpu_isolated_map h)) ;;
       mret Fallback
     else mret doms_new);
  for_each (seq 0 ndoms_new) (build_new doms_new dattr_new new_topology) ;;
  cur ← gets doms_cur; ndoms ← gets ndoms_cur;
  (if decide (cur = Fallback) then mret tt else free_sched_domains cur ndoms) ;;
  modify (fun h => h <| doms_cur := doms_new |> <| dattr_cur := dattr_new |> <| ndoms_cur := ndoms_new |>).

(** ** Power savings, CPU sets and booting *)

(** include/linux/sched.h: the flags that depend on power savings *)
Definition SD_POWERSAVINGS_BALANCE := 0x100.
Definition SD_PREFER_SIBLING := 0x1000.
Definition sd_balance_for_mc_power (h : dom) : Z :=
  if c_true (sched_smt_power_savings h) then SD_POWERSAVINGS_BALANCE
  else if negb (c_true (sched_mc_power_savings h)) then SD_PREFER_SIBLING
  else 0.
Definition sd_balance_for_package_power (h : dom) : Z :=
  if c_true (Z.lor (sched_mc_power_savings h) (sched_smt_power_savings h)) then SD_POWERSAVINGS_BALANCE else SD_PREFER_SIBLING.
Definition sd_power_saving_flags (h : dom) : Z :=
  if c_true (Z.lor (sched_mc_power_savings h) (sched_smt_power_savings h)) then SD_BALANCE_NEWIDLE else 0.

(** reinit_sched_domains() *)
Definition reinit_sched_domains : M unit :=
  partition_sched_domains 0 NoDoms None ;;
  rebuild_sched_domains.
(** sched_power_savings_store(), with what sscanf() read; the two files *)
Definition MAX_POWERSAVINGS_BALANCE_LEVELS := 3.
Definition sched_power_savings_store (level : option Z) (count : Z) (smt : bool) : M Z :=
  match level with
  | None => mret (- EINVAL)
  | Some level =>
      if MAX_POWERSAVINGS_BALANCE_LEVELS <=? level then mret (- EINVAL)
      else
        modify (fun h => if smt then h <| sched_smt_power_savings := level |> else h <| sched_mc_power_savings := level |>) ;;
        reinit_sched_domains ;;
        mret count
  end.
Definition sched_mc_power_savings_store (level : option Z) (count : Z) : M Z := sched_power_savings_store level count false.
Definition sched_smt_power_savings_store (level : option Z) (count : Z) : M Z := sched_power_savings_store level count true.

(** cpuset_cpu_active(), cpuset_cpu_inactive(); the result tells whether the
    action concerns it *)
Inductive cpuset_action :=
  SET_ONLINE_FROZEN | SET_DOWN_FAILED_FROZEN | SET_ONLINE | SET_DOWN_FAILED | SET_DOWN_PREPARE | SET_DOWN_PREPARE_FROZEN | SET_OTHER.
Definition cpuset_cpu_active (action : cpuset_action) : M Z :=
  match action with
  | SET_ONLINE_FROZEN | SET_DOWN_FAILED_FROZEN =>
      modify (fun h => h <| num_cpus_frozen ::= fun n => s32 (n - 1) |>) ;;
      frozen ← gets num_cpus_frozen;
      (if c_true frozen then partition_sched_domains 1 NoDoms None else cpuset_update_active_cpus) ;;
      mret NOTIFY_OK
  | SET_ONLINE | SET_DOWN_FAILED => cpuset_update_active_cpus ;; mret NOTIFY_OK
  | _ => mret NOTIFY_DONE
  end.
Definition cpuset_cpu_inactive (action : cpuset_action) : M Z :=
  match action with
  | SET_DOWN_PREPARE => cpuset_update_active_cpus ;; mret NOTIFY_OK
  | SET_DOWN_PREPARE_FROZEN =>
      modify (fun h => h <| num_cpus_frozen ::= fun n => s32 (n + 1) |>) ;;
      partition_sched_domains 1 NoDoms None ;;
      mret NOTIFY_OK
  | _ => mret NOTIFY_DONE
  end.

(** kernel/sched/rt.c: init_sched_rt_class() *)
Definition init_sched_rt_class : M unit :=
  h ← gets id;
  for_each (cpus_of (possible_mask (machine h))) (fun i =>
    m ← alloc_mask cpumask_clear;
    on_machine (fun s => s <| local_cpu_mask ::= fun f c => if (c =? i)%nat then bool_decide (is_Some m) else f c |>)).

(** sched_init_smp(): the boot task leaves the isolated processors, or BUG() *)
Definition leave_isolated (mask : Z) : M unit := fun h =>
  let s := machine h in
  match set_cpus_allowed_ptr pushes (cpu_curr s (this_cpu s)) mask s with
  | None => None
  | Some (err, s) => if err <? 0 then None else Some (tt, h <| machine := s |>)
  end.
(** sched_init_smp(); the registration of notifiers has no effect here *)
Definition sched_init_smp : M unit :=
  h ← gets id;
  init_sched_domains (active_mask (machine h)) ;;
  h ← gets id;
  let non_isolated := cpumask_andnot (possible_mask (machine h)) (cpu_isolated_map h) in
  let non_isolated := if cpumask_empty non_isolated then cpumask_set_cpu (this_cpu (machine h)) non_isolated else non_isolated in
  leave_isolated non_isolated ;;
  sched_init_granularity ;;
  init_sched_rt_class.
End domains.

(** ** NUMA *)

(** linux/topology.h: the nodes. *)
Class NumaEnv := {
  numa_nodes : Z;                          (* nr_node_ids *)
  nr_cpus_node : Z -> Z;
  node_distance : Z -> Z -> Z;
  cpumask_of_node : Z -> Z;
  cpu_to_node : nat -> Z;
  nodes_per_domain : Z }.                  (* SD_NODES_PER_DOMAIN *)

Section numa.
Context {CM : CpuMask} {DM : DomMasks} {NE : NumaEnv}.

(** find_next_best_node(): the loop with the least distance and its node *)
Definition INT_MAX := 2147483647.
Fixpoint best_node_loop (l : list nat) (node : Z) (used : gset Z) (min_val best : Z) : Z :=
  match l with
  | [] => best
  | i :: l =>
      let n := (node + Z.of_nat i) mod numa_nodes in
      if negb (c_true (nr_cpus_node n)) then best_node_loop l node used min_val best
      else if bool_decide (n ∈ used) then best_node_loop l node used min_val best
      else
        let val := node_distance node n in
        if val <? min_val then best_node_loop l node used val n
        else best_node_loop l node used min_val best
  end.
Definition find_next_best_node (node : Z) (used : gset Z) : Z * gset Z :=
  let best := best_node_loop (seq 0 (Z.to_nat numa_nodes)) node used INT_MAX (-1) in
  (best, if best =? -1 then used else {[best]} ∪ used).

(** sched_domain_node_span(), with [n] more nodes to add *)
Fixpoint node_span_loop (n : nat) (node : Z) (used : gset Z) (span : Z) : Z :=
  match n with
  | O => span
  | S n =>
      let '(next, used) := find_next_best_node node used in
      if next <? 0 then span else node_span_loop n node used (cpumask_or span (cpumask_of_node next))
  end.
Definition sched_domain_node_span (node : Z) : Z :=
  let span := cpumask_or cpumask_clear (cpumask_of_node node) in
  node_span_loop (Z.to_nat (nodes_per_domain - 1)) node {[node]} span.

(** cpu_node_mask(), cpu_cpu_mask() *)
Definition cpu_node_mask (cpu : nat) : Z := sched_domain_node_span (cpu_to_node cpu).
Definition cpu_cpu_mask (cpu : nat) : Z := cpumask_of_node (cpu_to_node cpu).
End numa.
