(* ===== verification/DomLogic.v ===== *)
(** Total correctness for the monad of Domains.v, and its heap.

    [wp m h Q] says that [m] ends in the state [h], without following a bad
    pointer, with a result and a state that satisfy [Q]. *)

From S2P Require Import Prelude KList Sched Affinity Smp RtSmp RtPush Migrate Domains.

Section wp.
Context {SK : SKTypes} {ST : SmpTypes}.
Implicit Types (h : dom) (a : nat).

Definition wp {A} (m : M A) h (Q : A -> dom -> Prop) : Prop :=
  match m h with Some (x, h') => Q x h' | None => False end.

Lemma wp_some {A} (m : M A) h Q : wp m h Q <-> exists x h', m h = Some (x, h') /\ Q x h'.
Proof. unfold wp. destruct (m h) as [[x h']|]; naive_solver. Qed.
Lemma wp_ret {A} (x : A) h (Q : A -> dom -> Prop) : Q x h -> wp (mret x) h Q.
Proof. done. Qed.
Lemma wp_bind {A B} (m : M A) (k : A -> M B) h Q : wp m h (fun x h => wp (k x) h Q) -> wp (m ≫= k) h Q.
Proof. unfold wp, mbind, M_bind. by destruct (m h) as [[x h']|]. Qed.
Lemma wp_mono {A} (m : M A) h (P Q : A -> dom -> Prop) : wp m h P -> (forall x h', P x h' -> Q x h') -> wp m h Q.
Proof. unfold wp. destruct (m h) as [[x h']|]; auto. Qed.
Lemma wp_seq {A B} (m : M A) (k : A -> M B) h P Q : wp m h P -> (forall x h', P x h' -> wp (k x) h' Q) -> wp (m ≫= k) h Q.
Proof. intros H1 H2. apply wp_bind. by eapply wp_mono. Qed.

Lemma wp_gets {A} (f : dom -> A) h (Q : A -> dom -> Prop) : Q (f h) h -> wp (gets f) h Q.
Proof. done. Qed.
Lemma wp_modify f h (Q : unit -> dom -> Prop) : Q tt (f h) -> wp (modify f) h Q.
Proof. done. Qed.
Lemma wp_deref (a : nat) h (Q : nat -> dom -> Prop) : Q a h -> wp (deref (Some a)) h Q.
Proof. done. Qed.
Lemma wp_sd_at a d h (Q : sdom -> dom -> Prop) : sds h !! a = Some d -> Q d h -> wp (sd_at a) h Q.
Proof. intros E H. unfold wp, sd_at. by rewrite E. Qed.
Lemma wp_sg_at a d h (Q : sgroup -> dom -> Prop) : sgs h !! a = Some d -> Q d h -> wp (sg_at a) h Q.
Proof. intros E H. unfold wp, sg_at. by rewrite E. Qed.
Lemma wp_sgp_at a d h (Q : sgpower -> dom -> Prop) : sgps h !! a = Some d -> Q d h -> wp (sgp_at a) h Q.
Proof. intros E H. unfold wp, sgp_at. by rewrite E. Qed.
Lemma wp_upd_sd a d f h (Q : unit -> dom -> Prop) : sds h !! a = Some d -> Q tt (h <| sds ::= <[a := f d]> |>) -> wp (upd_sd a f) h Q.
Proof. intros E H. unfold upd_sd. apply wp_bind. by apply (wp_sd_at a d). Qed.
Lemma wp_upd_sg a d f h (Q : unit -> dom -> Prop) : sgs h !! a = Some d -> Q tt (h <| sgs ::= <[a := f d]> |>) -> wp (upd_sg a f) h Q.
Proof. intros E H. unfold upd_sg. apply wp_bind. by apply (wp_sg_at a d). Qed.
Lemma wp_upd_sgp a d f h (Q : unit -> dom -> Prop) : sgps h !! a = Some d -> Q tt (h <| sgps ::= <[a := f d]> |>) -> wp (upd_sgp a f) h Q.
Proof. intros E H. unfold upd_sgp. apply wp_bind. by apply (wp_sgp_at a d). Qed.

Lemma wp_percpu_at a m h (Q : (nat -> option nat) -> dom -> Prop) : percpus h !! a = Some m -> Q m h -> wp (percpu_at a) h Q.
Proof. intros E H. unfold wp, percpu_at. by rewrite E. Qed.
Lemma wp_per_cpu_get a m c h (Q : option nat -> dom -> Prop) : percpus h !! a = Some m -> Q (m c) h -> wp (per_cpu_get (Some a) c) h Q.
Proof. intros E H. unfold per_cpu_get. apply wp_bind, wp_deref, wp_bind. by apply (wp_percpu_at a m). Qed.
Lemma wp_per_cpu_set a m c v h (Q : unit -> dom -> Prop) : percpus h !! a = Some m ->
  Q tt (h <| percpus ::= <[a := fun i => if (i =? c)%nat then v else m i]> |>) -> wp (per_cpu_set (Some a) c v) h Q.
Proof. intros E H. unfold per_cpu_set. apply wp_bind, wp_deref, wp_bind. by apply (wp_percpu_at a m). Qed.
Lemma wp_level_at l lv h (Q : topology_level -> dom -> Prop) : topology h !! l = Some lv -> Q lv h -> wp (level_at l) h Q.
Proof. intros E H. unfold wp, level_at. by rewrite E. Qed.
Lemma wp_data_at l lv h (Q : sd_data -> dom -> Prop) : topology h !! l = Some lv -> Q (tl_data lv) h -> wp (data_at l) h Q.
Proof. intros E H. unfold data_at. apply wp_bind. by apply (wp_level_at l lv). Qed.

(** Loops, by an invariant over the part of the list that is done. *)
Lemma wp_for_each {A} (l : list A) (f : A -> M unit) (I : list A -> dom -> Prop) h (Q : unit -> dom -> Prop) : I [] h ->
  (forall l1 x l2 h, l = l1 ++ x :: l2 -> I l1 h -> wp (f x) h (fun _ h => I (l1 ++ [x]) h)) ->
  (forall h, I l h -> Q tt h) -> wp (for_each l f) h Q.
Proof.
  intros H0 Hs HQ. assert (forall l2 l1 h, l = l1 ++ l2 -> I l1 h -> wp (for_each l2 f) h (fun _ h => I l h)) as H.
  { induction l2 as [|x l2 IH]; intros l1 h1 -> Hi; cbn [for_each].
    - apply wp_ret. by rewrite app_nil_r.
    - eapply wp_seq; [by apply (Hs l1 x l2)|]. cbn beta. intros _ h2 H2. apply (IH (l1 ++ [x])); [|done]. by rewrite <- app_assoc. }
  eapply wp_mono; [by apply (H l [])|]. intros []; apply HQ.
Qed.
Lemma wp_try_each {A} (l : list A) (f : A -> M Z) (I : list A -> dom -> Prop) (E : Z -> dom -> Prop) h (Q : Z -> dom -> Prop) : I [] h ->
  (forall l1 x l2 h, l = l1 ++ x :: l2 -> I l1 h -> wp (f x) h (fun r h => r = 0 /\ I (l1 ++ [x]) h \/ c_true r = true /\ E r h)) ->
  (forall h, I l h -> Q 0 h) -> (forall r h, c_true r = true -> E r h -> Q r h) -> wp (try_each l f) h Q.
Proof.
  intros H0 Hs HQ HE. assert (forall l2 l1 h, l = l1 ++ l2 -> I l1 h -> wp (try_each l2 f) h Q) as H.
  { induction l2 as [|x l2 IH]; intros l1 h1 -> Hi; cbn [try_each].
    - apply wp_ret, HQ. by rewrite app_nil_r.
    - eapply wp_seq; [by apply (Hs l1 x l2)|]. cbn beta. intros r h2 [[-> H2]|[Hr H2]].
      + cbn [c_true Z.eqb negb]. apply (IH (l1 ++ [x])); [|done]. by rewrite <- app_assoc.
      + rewrite Hr. by apply wp_ret, HE. }
  by apply (H l []).
Qed.
End wp.

(** ** The objects of the heap, of three kinds *)

Inductive kind := KSd | KSg | KSgp.
#[export] Instance kind_eq_dec : EqDecision kind.
Proof. solve_decision. Defined.

Inductive object := OSd (d : sdom) | OSg (g : sgroup) | OSgp (p : sgpower).

Section heap.
Context {SK : SKTypes} {ST : SmpTypes}.
Implicit Types (h : dom) (a l j : nat) (k : kind).

Definition obj k h a : option object :=
  match k with KSd => OSd <$> sds h !! a | KSg => OSg <$> sgs h !! a | KSgp => OSgp <$> sgps h !! a end.
Definition live k h a : Prop := is_Some (obj k h a).

(** The per-CPU arrays of a level, and what they hold. *)
Definition data_of k (d : sd_data) : option nat := match k with KSd => data_sd d | KSg => data_sg d | KSgp => data_sgp d end.
Definition tab k h l : option nat := match topology h !! l with Some lv => data_of k (tl_data lv) | None => None end.
Definition slot h (p : option nat) j : option nat :=
  match p with Some a => match percpus h !! a with Some m => m j | None => None end | None => None end.
Definition entry k h l j : option nat := slot h (tab k h l) j.

(** A level apart from its arrays. *)
Definition bare (lv : topology_level) : topology_level := lv <| tl_data := mkData None None None |>.
Definition no_data h : Prop := forall lv, lv ∈ topology h -> tl_data lv = mkData None None None.
(** Everything but the heap that construction changes. *)
Definition rest h : dom := h <| sds := ∅ |> <| sgs := ∅ |> <| sgps := ∅ |> <| percpus := ∅ |> <| kmalloc_next := 0%nat |> <| topology := [] |>.

(** Addresses are not used before they are allocated. *)
Record fresh_heap h : Prop := {
  fh_obj : forall k a, live k h a -> (a < kmalloc_next h)%nat;
  fh_percpu : forall a, is_Some (percpus h !! a) -> (a < kmalloc_next h)%nat;
  fh_root : forall a, a ∈ roots h -> (a < kmalloc_next h)%nat;
  fh_array : forall a, is_Some (arrays h !! a) -> (a < kmalloc_next h)%nat;
  fh_mask : forall a, is_Some (masks h !! a) -> (a < kmalloc_next h)%nat;
  fh_pos : (0 < kmalloc_next h)%nat }.

Lemma live_sd h a : live KSd h a <-> is_Some (sds h !! a).
Proof. unfold live. cbn [obj]. by rewrite fmap_is_Some. Qed.
Lemma live_sg h a : live KSg h a <-> is_Some (sgs h !! a).
Proof. unfold live. cbn [obj]. by rewrite fmap_is_Some. Qed.
Lemma live_sgp h a : live KSgp h a <-> is_Some (sgps h !! a).
Proof. unfold live. cbn [obj]. by rewrite fmap_is_Some. Qed.

Lemma rest_eq h : h = (rest h) <| sds := sds h |> <| sgs := sgs h |> <| sgps := sgps h |> <| percpus := percpus h |>
  <| kmalloc_next := kmalloc_next h |> <| topology := topology h |>.
Proof. by destruct h. Qed.
(** States are equal when all their parts are. *)
Lemma dom_ext h h' : (forall k a, obj k h' a = obj k h a) -> (forall a, percpus h' !! a = percpus h !! a) ->
  topology h' = topology h -> rest h' = rest h -> h' = h <| kmalloc_next := kmalloc_next h' |>.
Proof.
  intros Ho Hp Ht Hr.
  assert (sds h' = sds h) as E1.
  { apply map_eq. intros a. specialize (Ho KSd a). cbn in Ho. destruct (sds h' !! a), (sds h !! a); cbn in Ho; congruence. }
  assert (sgs h' = sgs h) as E2.
  { apply map_eq. intros a. specialize (Ho KSg a). cbn in Ho. destruct (sgs h' !! a), (sgs h !! a); cbn in Ho; congruence. }
  assert (sgps h' = sgps h) as E3.
  { apply map_eq. intros a. specialize (Ho KSgp a). cbn in Ho. destruct (sgps h' !! a), (sgps h !! a); cbn in Ho; congruence. }
  assert (percpus h' = percpus h) as E4 by by apply map_eq.
  etrans; [apply rest_eq|]. rewrite Hr, E1, E2, E3, E4, Ht. by destruct h.
Qed.

Lemma rest_sds h f : rest (h <| sds ::= f |>) = rest h.
Proof. done. Qed.
End heap.
