(* ===== verification/DomAlloc.v ===== *)
(** The allocations behind the scheduling domains: __sdt_alloc() and
    __sdt_free().  Whatever allocation fails, everything that was allocated is
    freed, once, and the heap is as it was. *)

From S2P Require Import Prelude KList Sched Ras Rt RtSpec TaskGroupSpec RtBorrow RtBorrowSpec Affinity Smp RtSmp RtPush SmpSpec RtSmpSpec SmpMachine RtPushSpec Migrate MigrateSpec RootSpec Domains DomLogic.

Section free.
Context {SK : SKTypes} {ST : SmpTypes} {CM : CpuMask} {CMS : CpuMasks} {CML : CpuMasksLaws} {DM : DomMasks}.
Implicit Types (h : dom) (a l j : nat) (k : kind).

(** The objects change, the tables of the construction do not. *)
Record tables_same h h' : Prop := {
  tb_percpus : percpus h' = percpus h;
  tb_topology : topology h' = topology h;
  tb_next : kmalloc_next h' = kmalloc_next h;
  tb_rest : rest h' = rest h }.
#[export] Instance tables_same_pre : PreOrder tables_same.
Proof. split; [by split|]. intros x y z [] []. split; congruence. Qed.

Lemma tables_entry h h' k l j : tables_same h h' -> entry k h' l j = entry k h l j.
Proof. intros [E1 E2 _ _]. unfold entry, slot, tab. by rewrite E1, E2. Qed.

Definition kfree k (p : option nat) : M unit := match k with KSd => kfree_sd p | KSg => kfree_sg p | KSgp => kfree_sgp p end.
Lemma wp_kfree k p h (Q : unit -> dom -> Prop) : (forall a, p = Some a -> live k h a) ->
  (forall h', tables_same h h' -> (forall k' b, obj k' h' b = if decide (k' = k /\ p = Some b) then None else obj k' h b) -> Q tt h') ->
  wp (kfree k p) h Q.
Proof.
  intros Hl HQ. destruct p as [a|].
  - specialize (Hl a eq_refl). assert (forall k' b, b <> a -> (k' = k /\ Some a = Some b) <-> False) as Hne by naive_solver.
    destruct k; cbn [kfree]; [apply live_sd in Hl as [d E]|apply live_sg in Hl as [d E]|apply live_sgp in Hl as [d E]];
      apply wp_bind; [eapply wp_sd_at|eapply wp_sg_at|eapply wp_sgp_at]; try exact E; apply wp_modify; apply HQ; try (by split);
      intros k' b; case_decide as Ed; [|destruct k'; cbn; try done|..]; try (destruct Ed as [-> [= ->]]; cbn; by rewrite lookup_delete_eq);
      try (destruct k'; cbn; try done); rewrite lookup_delete_ne; try done; naive_solver.
  - destruct k; apply wp_ret, HQ; try done; intros k' b; by rewrite decide_False by naive_solver.
Qed.

(** The objects of some places of the tables. *)
Definition entries k h (ps : list (nat * nat)) : list (option nat) := (fun p => entry k h p.1 p.2) <$> ps.
(** Exactly these were freed. *)
Definition freed ps h h' : Prop := forall k a, obj k h' a = if decide (Some a ∈ entries k h ps) then None else obj k h a.

Record tables_ok (cpus : list nat) h : Prop := {
  to_tab : forall k l p, tab k h l = Some p -> is_Some (percpus h !! p);
  to_tab_inj : forall k l k' l' p, tab k h l = Some p -> tab k' h l' = Some p -> k = k' /\ l = l';
  to_live : forall k l j a, j ∈ cpus -> entry k h l j = Some a -> live k h a;
  to_inj : forall k l j l' j' a, j ∈ cpus -> j' ∈ cpus -> entry k h l j = Some a -> entry k h l' j' = Some a -> l = l' /\ j = j';
  to_plain : forall l j a d, j ∈ cpus -> entry KSd h l j = Some a -> sds h !! a = Some d -> has_flag (d_flags d) SD_OVERLAP = false }.

Lemma wp_table k l lv j h (Q : option nat -> dom -> Prop) : topology h !! l = Some lv -> is_Some (data_of k (tl_data lv)) ->
  (forall p, tab k h l = Some p -> is_Some (percpus h !! p)) -> Q (entry k h l j) h -> wp (per_cpu_get (data_of k (tl_data lv)) j) h Q.
Proof.
  intros El [p Ep] Ht HQ. assert (tab k h l = Some p) as Et by (unfold tab; by rewrite El).
  destruct (Ht p Et) as [m Em]. rewrite Ep. eapply wp_per_cpu_get; [exact Em|]. unfold entry, slot in HQ. by rewrite Et, Em in HQ.
Qed.

(** One object of a place. *)
Lemma wp_free_place k l lv j h (Q : unit -> dom -> Prop) : topology h !! l = Some lv ->
  (forall p, tab k h l = Some p -> is_Some (percpus h !! p)) -> (forall a, entry k h l j = Some a -> live k h a) ->
  (forall h', tables_same h h' -> (forall k' b, obj k' h' b = if decide (k' = k /\ entry k h l j = Some b) then None else obj k' h b) -> Q tt h') ->
  wp (match data_of k (tl_data lv) with None => mret tt | Some _ => p ← per_cpu_get (data_of k (tl_data lv)) j; kfree k p end) h Q.
Proof.
  intros El Ht Hl HQ. destruct (data_of k (tl_data lv)) as [p|] eqn:Ep.
  - rewrite <- Ep. apply wp_bind. apply (wp_table k l); [done|by rewrite Ep|done|]. by apply wp_kfree.
  - apply wp_ret, HQ; [done|]. intros k' b. rewrite decide_False; [done|]. intros [-> H]. unfold entry, tab in H. rewrite El, Ep in H. done.
Qed.

Lemma freed_trans_one (ps : list (nat * nat)) l j h0 h1 h2 : tables_same h0 h1 -> freed ps h0 h1 ->
  (forall k b, obj k h2 b = if decide (entry k h1 l j = Some b) then None else obj k h1 b) -> freed (ps ++ [(l, j)]) h0 h2.
Proof.
  intros Ht H1 H2 k a. rewrite H2, H1. unfold entries. rewrite fmap_app. cbn. rewrite (tables_entry h0 h1) by done.
  case_decide as E; [rewrite decide_True; [done|rewrite elem_of_app, list_elem_of_singleton; by right]|].
  case_decide as E2; [rewrite decide_True; [done|rewrite elem_of_app; by left]|].
  rewrite decide_False; [done|]. rewrite elem_of_app, list_elem_of_singleton. naive_solver.
Qed.
(** What was not freed yet at a new place is still there. *)
Lemma freed_live cpus ps l j k a h0 h : tables_ok cpus h0 -> freed ps h0 h -> (forall x, x ∈ ps -> x.2 ∈ cpus) -> j ∈ cpus -> (l, j) ∉ ps ->
  entry k h0 l j = Some a -> obj k h a = obj k h0 a.
Proof.
  intros Hok Hf Hps Hj Hn Ha. rewrite Hf. apply decide_False. intros Hin. apply Hn.
  unfold entries in Hin. apply list_elem_of_fmap in Hin as ([l' j'] & E & Hin). cbn in E.
  destruct (to_inj _ _ Hok k l j l' j' a) as [-> ->]; [done|by apply (Hps (l', j'))|done..].
Qed.

Lemma wp_free_objects cpus ps l lv j h0 h (Q : unit -> dom -> Prop) : tables_ok cpus h0 -> tables_same h0 h -> freed ps h0 h ->
  (forall x, x ∈ ps -> x.2 ∈ cpus) -> j ∈ cpus -> (l, j) ∉ ps -> topology h0 !! l = Some lv ->
  (forall h', tables_same h0 h' -> freed (ps ++ [(l, j)]) h0 h' -> Q tt h') -> wp (free_objects l j) h Q.
Proof.
  intros Hok Ht Hf Hps Hj Hn El HQ. unfold free_objects. apply wp_bind. eapply wp_data_at; [by rewrite (tb_topology _ _ Ht)|].
  assert (Htab : forall h1, tables_same h0 h1 -> forall k p, tab k h1 l = Some p -> is_Some (percpus h1 !! p)).
  { intros h1 T1 k p. unfold tab. rewrite (tb_topology _ _ T1), (tb_percpus _ _ T1). by apply (to_tab _ _ Hok). }
  assert (Hlv : forall k a, entry k h0 l j = Some a -> obj k h a = obj k h0 a) by (intros k a; by eapply freed_live).
  assert (Hl0 : forall k a, entry k h0 l j = Some a -> live k h0 a) by (intros k a; by apply (to_live _ _ Hok)).
  apply wp_bind.
  (* the domain: the test for private groups finds none *)
  assert (wp (match data_of KSd (tl_data lv) with None => mret tt | Some _ => p ← per_cpu_get (data_of KSd (tl_data lv)) j; kfree KSd p end) h
    (fun _ h1 => tables_same h0 h1 /\ forall k b, obj k h1 b = if decide (k = KSd /\ entry KSd h l j = Some b) then None else obj k h b)) as H1.
  { apply (wp_free_place KSd l); [by rewrite (tb_topology _ _ Ht)|by apply Htab| |].
    - intros a. rewrite (tables_entry h0 h) by done. intros E. unfold live. rewrite Hlv by done. by apply Hl0.
    - intros h1 T1 O1. split; [by etrans|done]. }
  assert (forall Q' : unit -> dom -> Prop, wp (match data_of KSd (tl_data lv) with None => mret tt | Some _ => p ← per_cpu_get (data_of KSd (tl_data lv)) j; kfree KSd p end) h Q' ->
    wp (match data_sd (tl_data lv) with None => mret tt | Some _ =>
      sd ← per_cpu_get (data_sd (tl_data lv)) j;
      match sd with None => mret tt | Some a => d ← sd_at a; if has_flag (d_flags d) SD_OVERLAP then free_sched_groups (d_groups d) false else mret tt end ;;
      sd ← per_cpu_get (data_sd (tl_data lv)) j; kfree_sd sd end) h Q') as Hskip.
  { intros Q' HQ'. change (data_of KSd (tl_data lv)) with (data_sd (tl_data lv)) in HQ'. destruct (data_sd (tl_data lv)) as [p|] eqn:Ep; [|done].
    assert (wp (per_cpu_get (Some p) j) h (fun x h' => h' = h /\ x = entry KSd h l j)) as Hget.
    { rewrite <- Ep. apply (wp_table KSd l); [by rewrite (tb_topology _ _ Ht)|by cbn; rewrite Ep|by apply Htab|done]. }
    eapply wp_seq; [exact Hget|]. cbn beta. intros x h' [-> ->]. apply wp_bind. rewrite (tables_entry h0 h) by done.
    destruct (entry KSd h0 l j) as [a|] eqn:Ea; [|done].
    destruct (proj1 (live_sd h0 a) (Hl0 KSd a Ea)) as [d Ed]. pose proof (Hlv KSd a Ea) as Eo. cbn in Eo. rewrite Ed in Eo.
    apply wp_bind. apply (wp_sd_at a d); [by destruct (sds h !! a); cbn in Eo; congruence|].
    rewrite (to_plain _ _ Hok l j a d) by done. done. }
  apply Hskip. eapply wp_mono; [exact H1|]. cbn beta. intros _ h1 [T1 O1]. apply wp_bind.
  apply (wp_free_place KSg l lv j); [by rewrite (tb_topology _ _ T1)|by apply Htab| |].
  { intros a. rewrite (tables_entry h0 h1) by done. intros E. unfold live. rewrite O1, decide_False by naive_solver. rewrite Hlv by done. by apply Hl0. }
  intros h2 T2' O2. assert (tables_same h0 h2) as T2 by by etrans.
  apply (wp_free_place KSgp l lv j); [by rewrite (tb_topology _ _ T2)|by apply Htab| |].
  { intros a. rewrite (tables_entry h0 h2) by done. intros E. unfold live. rewrite O2, decide_False by naive_solver.
    rewrite O1, decide_False by naive_solver. rewrite Hlv by done. by apply Hl0. }
  intros h3 T3' O3. assert (tables_same h0 h3) as T3 by by etrans.
  apply HQ; [done|]. apply (freed_trans_one ps l j h0 h h3); [done|done|]. intros k b. rewrite O3, O2, O1.
  rewrite (tables_entry h0 h2 KSgp), (tables_entry h0 h1 KSg), !(tables_entry h0 h) by done.
  destruct (decide (entry k h0 l j = Some b)) as [E|E]; [|by rewrite !decide_False by (by intros [-> ?])].
  destruct k; [rewrite (decide_False (P := KSd = KSgp /\ _)), (decide_False (P := KSd = KSg /\ _)) by (by intros [? _])
    |rewrite (decide_False (P := KSg = KSgp /\ _)) by (by intros [? _])|]; by rewrite decide_True.
Qed.

Lemma freed_nil h : freed [] h h.
Proof. intros k a. rewrite decide_False; [done|]. apply not_elem_of_nil. Qed.
Lemma entry_in k h l js a : Some a ∈ entries k h ((fun j => (l, j)) <$> js) <-> exists j, j ∈ js /\ entry k h l j = Some a.
Proof.
  unfold entries. rewrite <- list_fmap_compose, list_elem_of_fmap. cbn. naive_solver.
Qed.

(** All objects of a level are freed, *)
Lemma wp_level_objects cm l lv h (Q : unit -> dom -> Prop) : tables_ok (cpus_of cm) h -> topology h !! l = Some lv ->
  (forall h', tables_same h h' -> freed ((fun j => (l, j)) <$> cpus_of cm) h h' -> Q tt h') ->
  wp (for_each (cpus_of cm) (free_objects l)) h Q.
Proof.
  intros Hok El HQ. pose proof (cpus_nodup cm) as Hn.
  apply (wp_for_each _ _ (fun js h1 => tables_same h h1 /\ freed ((fun j => (l, j)) <$> js) h h1)).
  - split; [done|apply freed_nil].
  - intros js j js' h1 E [T1 F1]. rewrite E in Hn. apply NoDup_app in Hn as (_ & Hn & _).
    apply (wp_free_objects (cpus_of cm) ((fun j => (l, j)) <$> js) l lv j h h1); try done.
    + intros x (j' & -> & Hj')%list_elem_of_fmap. cbn. rewrite E, elem_of_app. by left.
    + rewrite E, elem_of_app. right. by left.
    + intros (j' & [= ->] & Hj')%list_elem_of_fmap. apply (Hn j' Hj'). by left.
    + intros h2 T2 F2. by rewrite fmap_app.
  - intros h1 [T1 F1]. by apply HQ.
Qed.

(** its arrays too. *)
Lemma wp_free_percpu p h (Q : unit -> dom -> Prop) : (forall a, p = Some a -> is_Some (percpus h !! a)) ->
  Q tt (h <| percpus ::= match p with Some a => delete a | None => id end |>) -> wp (free_percpu p) h Q.
Proof.
  intros Hp HQ. destruct p as [a|]; [|by destruct h]. destruct (Hp a eq_refl) as [m Em]. apply wp_bind.
  eapply wp_percpu_at; [exact Em|]. by apply wp_modify.
Qed.

Record freed_level cm l h h' : Prop := {
  fl_obj : freed ((fun j => (l, j)) <$> cpus_of cm) h h';
  fl_topo : topology h' = alter bare l (topology h);
  fl_gone : forall k p, tab k h l = Some p -> percpus h' !! p = None;
  fl_kept : forall p, (forall k, tab k h l <> Some p) -> percpus h' !! p = percpus h !! p;
  fl_next : kmalloc_next h' = kmalloc_next h;
  fl_rest : rest h' = rest h }.

Lemma wp_free_level cm l lv h (Q : unit -> dom -> Prop) : tables_ok (cpus_of cm) h -> topology h !! l = Some lv ->
  (forall h', freed_level cm l h h' -> Q tt h') -> wp (free_level cm l) h Q.
Proof.
  intros Hok El HQ. unfold free_level. apply wp_bind. apply (wp_level_objects cm l lv); [done|done|]. intros h1 T1 F1.
  apply wp_bind. eapply wp_data_at; [by rewrite (tb_topology _ _ T1)|].
  assert (Ht : forall k, tab k h l = data_of k (tl_data lv)) by (intros k; unfold tab; by rewrite El).
  assert (Hp : forall k a, data_of k (tl_data lv) = Some a -> is_Some (percpus h1 !! a)).
  { intros k a E. rewrite (tb_percpus _ _ T1). apply (to_tab _ _ Hok k l). by rewrite Ht. }
  assert (Hd : forall k k' a b, data_of k (tl_data lv) = Some a -> data_of k' (tl_data lv) = Some b -> k <> k' -> a <> b).
  { intros k k' a b Ea Eb Hk ->. rewrite <- Ht in Ea, Eb. by destruct (to_tab_inj _ _ Hok k l k' l b Ea Eb). }
  apply wp_bind, wp_free_percpu; [apply (Hp KSd)|]. apply wp_bind, wp_modify.
  apply wp_bind, wp_free_percpu.
  { intros a Ea. cbn. destruct (data_sd (tl_data lv)) as [b|] eqn:Eb; [|by apply (Hp KSg)].
    rewrite lookup_delete_ne; [by apply (Hp KSg)|]. by apply (Hd KSd KSg). }
  apply wp_bind, wp_modify. apply wp_bind, wp_free_percpu.
  { intros a Ea. cbn. destruct (data_sd (tl_data lv)) as [b|] eqn:Eb, (data_sg (tl_data lv)) as [c|] eqn:Ec; cbn;
      rewrite ?lookup_delete_ne; try (by apply (Hp KSgp)); try (by apply (Hd KSd KSgp)); by apply (Hd KSg KSgp). }
  apply wp_modify, HQ. split; try done.
  - cbn. rewrite (tb_topology _ _ T1), !list_alter_alter_eq. by apply list_alter_ext.
  - intros k p Ep. rewrite Ht in Ep. cbn.
    destruct (data_sd (tl_data lv)) as [b|] eqn:Eb, (data_sg (tl_data lv)) as [c|] eqn:Ec, (data_sgp (tl_data lv)) as [d|] eqn:Ed; cbn;
      destruct k; cbn in Ep; simplify_eq; rewrite ?Eb, ?Ec, ?Ed in Ep; simplify_eq;
      repeat (rewrite lookup_delete; case_decide; [done|]); congruence.
  - intros p Hp'. cbn. rewrite <- (tb_percpus _ _ T1). pose proof (Hp' KSd) as H1. pose proof (Hp' KSg) as H2. pose proof (Hp' KSgp) as H3.
    rewrite Ht in H1, H2, H3. cbn in H1, H2, H3.
    destruct (data_sd (tl_data lv)), (data_sg (tl_data lv)), (data_sgp (tl_data lv)); cbn; rewrite ?lookup_delete_ne by congruence; done.
  - cbn. apply (tb_next _ _ T1).
  - cbn. apply (tb_rest _ _ T1).
Qed.

(** The levels [ls] were freed. *)
Record freed_levels cm (ls : list nat) h h' : Prop := {
  fs_topo : forall l, topology h' !! l = if decide (l ∈ ls) then bare <$> topology h !! l else topology h !! l;
  fs_gone : forall k l j a, l ∈ ls -> j ∈ cpus_of cm -> entry k h l j = Some a -> obj k h' a = None;
  fs_kept : forall k a, (forall l j, l ∈ ls -> j ∈ cpus_of cm -> entry k h l j <> Some a) -> obj k h' a = obj k h a;
  fs_tab : forall k l p, l ∈ ls -> tab k h l = Some p -> percpus h' !! p = None;
  fs_percpu : forall p, (forall k l, l ∈ ls -> tab k h l <> Some p) -> percpus h' !! p = percpus h !! p;
  fs_next : kmalloc_next h' = kmalloc_next h;
  fs_rest : rest h' = rest h }.

Lemma freed_tab cm ls h h' k l : freed_levels cm ls h h' -> tab k h' l = if decide (l ∈ ls) then None else tab k h l.
Proof.
  intros F. unfold tab. rewrite (fs_topo _ _ _ _ F). case_decide; [|done]. destruct (topology h !! l); [|done]. by destruct k.
Qed.
Lemma freed_entry cm ls h h' k l j : tables_ok (cpus_of cm) h -> freed_levels cm ls h h' ->
  entry k h' l j = if decide (l ∈ ls) then None else entry k h l j.
Proof.
  intros Hok F. unfold entry. rewrite (freed_tab cm ls h h') by done. case_decide as Hl; [done|].
  destruct (tab k h l) as [p|] eqn:Ep; [|done]. unfold slot. rewrite (fs_percpu _ _ _ _ F); [done|].
  intros k' l' Hl' Ep'. destruct (to_tab_inj _ _ Hok k l k' l' p Ep Ep') as [_ ->]. done.
Qed.
Lemma freed_ok cm ls h h' : tables_ok (cpus_of cm) h -> freed_levels cm ls h h' -> tables_ok (cpus_of cm) h'.
Proof.
  intros Hok F. pose proof (fun k l => freed_tab cm ls h h' k l F) as Ht. pose proof (fun k l j => freed_entry cm ls h h' k l j Hok F) as He.
  assert (forall k l j a, j ∈ cpus_of cm -> l ∉ ls -> entry k h l j = Some a -> obj k h' a = obj k h a) as Hobj.
  { intros k l j a Hj Hl Ea. apply (fs_kept _ _ _ _ F). intros l' j' Hl' Hj' Ea'.
    destruct (to_inj _ _ Hok k l j l' j' a) as [-> _]; done. }
  split.
  - intros k l p. rewrite Ht. case_decide as Hl; [done|]. intros Ep. rewrite (fs_percpu _ _ _ _ F); [by apply (to_tab _ _ Hok k l)|].
    intros k' l' Hl' Ep'. by destruct (to_tab_inj _ _ Hok k l k' l' p Ep Ep') as [_ ->].
  - intros k l k' l' p. rewrite !Ht. repeat case_decide; try done. apply (to_tab_inj _ _ Hok).
  - intros k l j a Hj. rewrite He. case_decide as Hl; [done|]. intros Ea. unfold live. rewrite (Hobj k l j) by done. by apply (to_live _ _ Hok k l j).
  - intros k l j l' j' a Hj Hj'. rewrite !He. repeat case_decide; try done. by apply (to_inj _ _ Hok).
  - intros l j a d Hj. rewrite He. case_decide as Hl; [done|]. intros Ea Ed. pose proof (Hobj KSd l j a Hj Hl Ea) as Eo. cbn in Eo.
    rewrite Ed in Eo. cbn in Eo. apply (to_plain _ _ Hok l j a d Hj Ea). by destruct (sds h !! a); cbn in Eo; congruence.
Qed.

Lemma freed_levels_step cm ls l h h1 h2 : tables_ok (cpus_of cm) h -> freed_levels cm ls h h1 -> l ∉ ls -> freed_level cm l h1 h2 ->
  freed_levels cm (ls ++ [l]) h h2.
Proof.
  intros Hok F1 Hl [L1 L2 L3 L4 L5 L6]. pose proof (fun k l => freed_tab cm ls h h1 k l F1) as Ht.
  pose proof (fun k l j => freed_entry cm ls h h1 k l j Hok F1) as He. pose proof F1 as [G1 G2 G3 G4 G5 G6 G7].
  assert (forall k, tab k h1 l = tab k h l) as Htl by (intros k; by rewrite Ht, decide_False).
  assert (forall k j, entry k h1 l j = entry k h l j) as Hel by (intros k j; by rewrite He, decide_False).
  assert (forall x, x ∈ ls ++ [l] <-> x ∈ ls \/ x = l) as Hin by (intros x; by rewrite elem_of_app, list_elem_of_singleton).
  assert (forall k a, obj k h2 a = None \/ obj k h2 a = obj k h1 a) as Hsub by (intros k a; rewrite L1; case_decide; auto).
  split.
  - intros x. rewrite L2. destruct (decide (x = l)) as [->|Hx].
    + rewrite list_lookup_alter_eq, G1, decide_False, decide_True by (done || (apply Hin; by right)). done.
    + rewrite list_lookup_alter_ne by done. rewrite G1. destruct (decide (x ∈ ls)) as [E|E]; [rewrite decide_True by (apply Hin; by left)|rewrite decide_False by (rewrite Hin; tauto)]; done.
  - intros k x j a Hx Hj Ea. apply Hin in Hx as [Hx| ->].
    + destruct (Hsub k a) as [->| ->]; [done|]. by apply (G2 k x j).
    + rewrite L1, decide_True; [done|]. apply entry_in. exists j. by rewrite Hel.
  - intros k a Ha. rewrite L1, decide_False.
    + apply G3. intros x j Hx. apply Ha, Hin. by left.
    + intros (j & Hj & Ea)%entry_in. rewrite Hel in Ea. apply (Ha l j); [apply Hin; by right|done|done].
  - intros k x p Hx Ep. apply Hin in Hx as [Hx| ->]; [|apply (L3 k); by rewrite Htl].
    rewrite L4; [by apply (G4 k x)|]. intros k' Ep'. rewrite Htl in Ep'. by destruct (to_tab_inj _ _ Hok k x k' l p Ep Ep') as [_ ->].
  - intros p Hp. rewrite L4; [|intros k; rewrite Htl; apply Hp, Hin; by right]. apply G5. intros k x Hx. apply Hp, Hin. by left.
  - by rewrite L5.
  - by rewrite L6.
Qed.

(** __sdt_free() *)
Lemma wp_sdt_free cm h (Q : unit -> dom -> Prop) : tables_ok (cpus_of cm) h ->
  (forall h', freed_levels cm (seq 0 (length (topology h))) h h' -> Q tt h') -> wp (__sdt_free cm) h Q.
Proof.
  intros Hok HQ. unfold __sdt_free. apply wp_bind, wp_gets.
  apply (wp_for_each _ _ (fun ls h1 => freed_levels cm ls h h1)).
  - split; try done; intros; by apply elem_of_nil in H || set_solver.
  - intros ls l ls' h1 E F1. assert (l < length (topology h))%nat as Hl by (assert (l ∈ seq 0 (length (topology h))) as Hl by (rewrite E; set_solver); apply elem_of_seq in Hl; lia).
    apply lookup_lt_is_Some in Hl as [lv El]. pose proof (NoDup_seq 0 (length (topology h))) as Hn. rewrite E in Hn. apply NoDup_app in Hn as (_ & Hn & _).
    assert (l ∉ ls) as Hls by (intros H; apply (Hn l H); by left).
    apply (wp_free_level cm l lv); [by eapply freed_ok|by rewrite (fs_topo _ _ _ _ F1), decide_False|].
    intros h2 F2. by eapply freed_levels_step.
  - done.
Qed.
End free.

Section alloc.
Context {SK : SKTypes} {ST : SmpTypes} {CM : CpuMask} {CMS : CpuMasks} {CML : CpuMasksLaws} {SE : SmpEnv} {DM : DomMasks} {DE : DomEnv}.
Implicit Types (h : dom) (a l j : nat) (k : kind).

(** A new object, at its address. *)
Definition new_obj k a : object :=
  match k with KSd => OSd zero_sd | KSg => OSg (zero_sg <| g_next := Some a |>) | KSgp => OSgp zero_sgp end.

(** What was allocated since [h0] is in the tables, and nothing else. *)
Record alloc_inv (cpus : list nat) h0 h : Prop := {
  ai_next : (kmalloc_next h0 <= kmalloc_next h)%nat;
  ai_topo : bare <$> topology h = topology h0;
  ai_rest : rest h = rest h0;
  ai_tab : forall k l p, tab k h l = Some p -> (kmalloc_next h0 <= p < kmalloc_next h)%nat /\ is_Some (percpus h !! p);
  ai_tab_inj : forall k l k' l' p, tab k h l = Some p -> tab k' h l' = Some p -> k = k' /\ l = l';
  ai_percpu : forall p, (forall k l, tab k h l <> Some p) -> percpus h !! p = percpus h0 !! p;
  ai_entry : forall k l j a, entry k h l j = Some a -> (kmalloc_next h0 <= a < kmalloc_next h)%nat /\ obj k h a = Some (new_obj k a) /\ j ∈ cpus;
  ai_inj : forall k l j l' j' a, entry k h l j = Some a -> entry k h l' j' = Some a -> l = l' /\ j = j';
  ai_obj : forall k a, (forall l j, entry k h l j <> Some a) -> obj k h a = obj k h0 a }.

Lemma bare_id lv : tl_data lv = mkData None None None -> bare lv = lv.
Proof. destruct lv as [? ? ? []]. cbn. by intros [= -> -> ->]. Qed.
Lemma no_data_bare h : no_data h -> bare <$> topology h = topology h.
Proof.
  intros H. apply list_eq. intros l. rewrite list_lookup_fmap. destruct (topology h !! l) as [lv|] eqn:E; [|done].
  cbn. f_equal. by apply bare_id, H, (list_elem_of_lookup_2 _ l).
Qed.
Lemma no_data_tab h k l : no_data h -> tab k h l = None.
Proof.
  intros H. unfold tab. destruct (topology h !! l) as [lv|] eqn:E; [|done]. rewrite (H lv) by by eapply list_elem_of_lookup_2.
  by destruct k.
Qed.
Lemma no_data_entry h k l j : no_data h -> entry k h l j = None.
Proof. intros H. unfold entry. by rewrite no_data_tab. Qed.

Lemma alloc_start cpus h0 : no_data h0 -> alloc_inv cpus h0 h0.
Proof.
  intros Hd. split; try done.
  - by apply no_data_bare.
  - intros k l p. by rewrite no_data_tab.
  - intros k l k' l' p. by rewrite no_data_tab.
  - intros k l j a. by rewrite no_data_entry.
  - intros k l j l' j' a. by rewrite no_data_entry.
Qed.
(** A failed allocation only uses up its number. *)
Lemma alloc_skip cpus h0 h : alloc_inv cpus h0 h -> alloc_inv cpus h0 (h <| kmalloc_next ::= S |>).
Proof.
  intros [A1 A2 A3 A4 A5 A6 A7 A8 A9]. split; cbn; try done.
  - lia.
  - intros k l p E. destruct (A4 k l p E). split; [lia|done].
  - intros k l j a E. destruct (A7 k l j a E) as (? & ? & ?). split_and!; [lia|lia|done|done].
Qed.

(** A new table, empty. *)
Definition put_tab k p (d : sd_data) : sd_data :=
  match k with KSd => d <| data_sd := p |> | KSg => d <| data_sg := p |> | KSgp => d <| data_sgp := p |> end.
Definition add_tab k l h : dom :=
  h <| percpus ::= <[kmalloc_next h := fun _ => None]> |> <| kmalloc_next ::= S |>
    <| topology ::= alter (fun lv => lv <| tl_data ::= put_tab k (Some (kmalloc_next h)) |>) l |>.

Lemma add_tab_tab k l h k' l' : (l < length (topology h))%nat -> tab k' (add_tab k l h) l' =
  if decide (k' = k /\ l' = l) then Some (kmalloc_next h) else tab k' h l'.
Proof.
  intros Hl. unfold tab, add_tab. cbn. apply lookup_lt_is_Some in Hl as [lv El]. destruct (decide (l' = l)) as [->|Hne].
  - rewrite list_lookup_alter_eq, El. cbn. by destruct k, k'; cbn; rewrite ?decide_True, ?decide_False by naive_solver.
  - rewrite list_lookup_alter_ne by done. rewrite decide_False; [done|]. by intros [_ ?].
Qed.
Lemma add_tab_inv cpus h0 h k l : fresh_heap h0 -> alloc_inv cpus h0 h -> (l < length (topology h))%nat -> tab k h l = None ->
  alloc_inv cpus h0 (add_tab k l h) /\ (forall k' l' j, entry k' (add_tab k l h) l' j = entry k' h l' j).
Proof.
  intros Hf [A1 A2 A3 A4 A5 A6 A7 A8 A9] Hl Hn. pose proof (fun k' l' => add_tab_tab k l h k' l' Hl) as Ht.
  assert (forall k' l' p, tab k' h l' = Some p -> p <> kmalloc_next h) as Hne by (intros k' l' p E ->; apply A4 in E; lia).
  assert (forall k' l' j, entry k' (add_tab k l h) l' j = entry k' h l' j) as He.
  { intros k' l' j. unfold entry. rewrite Ht. case_decide as E.
    - destruct E as [-> ->]. rewrite Hn. unfold slot, add_tab. cbn. by rewrite lookup_insert_eq.
    - destruct (tab k' h l') as [p|] eqn:Ep; [|done]. unfold slot, add_tab. cbn. rewrite lookup_insert_ne; [done|]. by apply not_eq_sym, (Hne k' l'). }
  split; [|done]. split; try done.
  - cbn. lia.
  - cbn. rewrite (list_fmap_alter _ _ id), list_alter_id; [done|done|]. apply Forall_forall. by intros lv _.
  - intros k' l' p. rewrite Ht. unfold add_tab. cbn. case_decide as E.
    + intros [= <-]. split; [lia|]. by rewrite lookup_insert_eq.
    + intros Ep. rewrite lookup_insert_ne by (by apply not_eq_sym, (Hne k' l')). destruct (A4 k' l' p Ep). split; [lia|done].
  - intros k1 l1 k2 l2 p. rewrite !Ht. case_decide as D1; case_decide as D2; intros E1 E2.
    + by destruct D1 as [-> ->], D2 as [-> ->].
    + injection E1 as <-. by apply Hne in E2.
    + injection E2 as <-. by apply Hne in E1.
    + by apply (A5 k1 l1 k2 l2 p).
  - intros p Hp. unfold add_tab. cbn. assert (p <> kmalloc_next h) as Hpn.
    { intros ->. apply (Hp k l). by rewrite Ht, decide_True. }
    rewrite lookup_insert_ne by done. apply A6. intros k' l' Ep. apply (Hp k' l'). rewrite Ht, decide_False; [done|].
    intros [-> ->]. congruence.
  - intros k' l' j a. rewrite He. intros E. destruct (A7 k' l' j a E) as (? & ? & ?). split_and!; [lia|cbn; lia|by destruct k'|done].
  - intros k' l1 j1 l2 j2 a. rewrite !He. apply A8.
  - intros k' a Ha. transitivity (obj k' h a); [by destruct k'|]. apply A9. intros l' j E. apply (Ha l' j). by rewrite He.
Qed.

(** A new object, in a table. *)
Definition put_obj k a h : dom :=
  match k with
  | KSd => h <| sds ::= <[a := zero_sd]> |>
  | KSg => h <| sgs ::= <[a := zero_sg <| g_next := Some a |>]> |>
  | KSgp => h <| sgps ::= <[a := zero_sgp]> |>
  end.
Definition add_obj k j p (m : nat -> option nat) h : dom :=
  let n := kmalloc_next h in
  (put_obj k n h) <| percpus ::= <[p := fun i => if (i =? j)%nat then Some n else m i]> |> <| kmalloc_next ::= S |>.

Lemma put_obj_obj k a h k' b : obj k' (put_obj k a h) b = if decide (k' = k /\ b = a) then Some (new_obj k a) else obj k' h b.
Proof.
  case_decide as E.
  - destruct E as [-> ->]. destruct k; cbn; by rewrite lookup_insert_eq.
  - destruct k, k'; cbn; try done; (rewrite lookup_insert_ne; [done|]); intros ->; by apply E.
Qed.
Lemma add_obj_facts k j p m h : let h' := add_obj k j p m h in
  (forall k' b, obj k' h' b = if decide (k' = k /\ b = kmalloc_next h) then Some (new_obj k b) else obj k' h b) /\
  topology h' = topology h /\ kmalloc_next h' = S (kmalloc_next h) /\ rest h' = rest h /\
  percpus h' = <[p := fun i => if (i =? j)%nat then Some (kmalloc_next h) else m i]> (percpus h).
Proof.
  cbv zeta. split.
  - intros k' b. transitivity (obj k' (put_obj k (kmalloc_next h) h) b); [by destruct k'|]. rewrite put_obj_obj.
    case_decide as E; [|done]. by destruct E as [_ ->].
  - by destruct k.
Qed.

Lemma add_obj_entry k l j p m h k' l' j' : tab k h l = Some p -> percpus h !! p = Some m ->
  (forall k1 l1, tab k1 h l1 = Some p -> k1 = k /\ l1 = l) ->
  entry k' (add_obj k j p m h) l' j' = if decide (k' = k /\ l' = l /\ j' = j) then Some (kmalloc_next h) else entry k' h l' j'.
Proof.
  intros Ep Em Hi. destruct (add_obj_facts k j p m h) as (_ & E2 & _ & _ & E5).
  unfold entry, slot. assert (tab k' (add_obj k j p m h) l' = tab k' h l') as -> by (unfold tab; by rewrite E2). rewrite E5.
  destruct (tab k' h l') as [q|] eqn:Eq; [|rewrite decide_False; [done|]; intros (-> & -> & _); congruence].
  destruct (decide (q = p)) as [->|Hq].
  - destruct (Hi k' l' Eq) as [-> ->]. rewrite lookup_insert_eq, Em. destruct (Nat.eqb_spec j' j) as [->|Hj]; [by rewrite decide_True|].
    rewrite decide_False; [done|]. by intros (_ & _ & ?).
  - rewrite lookup_insert_ne by done. rewrite decide_False; [done|]. intros (-> & -> & _). congruence.
Qed.

Lemma add_obj_inv cpus h0 h k l j p m : alloc_inv cpus h0 h -> tab k h l = Some p -> percpus h !! p = Some m -> entry k h l j = None ->
  j ∈ cpus -> alloc_inv cpus h0 (add_obj k j p m h).
Proof.
  intros [A1 A2 A3 A4 A5 A6 A7 A8 A9] Ep Em Hn Hj.
  assert (forall k1 l1, tab k1 h l1 = Some p -> k1 = k /\ l1 = l) as Hi by (intros k1 l1 E; by apply (A5 k1 l1 k l p)).
  pose proof (fun k' l' j' => add_obj_entry k l j p m h k' l' j' Ep Em Hi) as He.
  destruct (add_obj_facts k j p m h) as (E1 & E2 & E3 & E4 & E5). set (h' := add_obj k j p m h) in *. clearbody h'.
  assert (forall k' l', tab k' h' l' = tab k' h l') as Ht by (intros; unfold tab; by rewrite E2).
  assert (forall k' l' j', entry k' h l' j' <> Some (kmalloc_next h)) as Hf by (intros k' l' j' E; apply A7 in E; lia).
  split.
  - lia.
  - by rewrite E2.
  - by rewrite E4.
  - intros k' l' q. rewrite Ht, E3, E5. intros Eq. destruct (A4 k' l' q Eq) as [? ?]. split; [lia|].
    destruct (decide (q = p)) as [->|]; [by rewrite lookup_insert_eq|by rewrite lookup_insert_ne].
  - intros k1 l1 k2 l2 q. rewrite !Ht. apply A5.
  - intros q Hq. rewrite E5, lookup_insert_ne; [apply A6; intros k' l'; rewrite <- Ht; apply Hq|]. intros ->. by apply (Hq k l); rewrite Ht.
  - intros k' l' j' a. rewrite He, E3, E1. case_decide as D.
    + destruct D as (-> & -> & ->). intros [= <-]. rewrite decide_True by done. split_and!; [lia|lia|done|done].
    + intros E. destruct (A7 k' l' j' a E) as (? & ? & ?). rewrite decide_False by (intros [_ ->]; lia). split_and!; [lia|lia|done|done].
  - intros k' l1 j1 l2 j2 a. rewrite !He. case_decide as D1; case_decide as D2; intros F1 F2.
    + by destruct D1 as (-> & -> & ->), D2 as (_ & -> & ->).
    + injection F1 as <-. by apply Hf in F2.
    + injection F2 as <-. by apply Hf in F1.
    + by apply (A8 k' l1 j1 l2 j2 a).
  - intros k' a Ha. rewrite E1. case_decide as D.
    + destruct D as [-> ->]. exfalso. apply (Ha l j). rewrite He, decide_True; done.
    + apply A9. intros l' j' E. apply (Ha l' j'). rewrite He, decide_False; [done|]. intros (-> & -> & ->). congruence.
Qed.

(** One of the allocations from [i] up to [n] failed. *)
Definition out_of_memory (i n : nat) : Prop := exists a, (i <= a < n)%nat /\ (alloc_fails a = true \/ cpupri_init a = None).
Lemma out_more i i' n n' : (i' <= i)%nat -> (n <= n')%nat -> out_of_memory i n -> out_of_memory i' n'.
Proof. intros Hi Hn (a & Ha & Hf). exists a. split; [lia|done]. Qed.
Lemma out_here i n : (i <= n)%nat -> alloc_fails n = true -> out_of_memory i (S n).
Proof. intros Hi Hf. exists n. split; [lia|by left]. Qed.

(** kzalloc_node() and the store into the table. *)
Lemma wp_alloc_sd (p j : nat) m h (cont : M Z) (Q : Z -> dom -> Prop) : percpus h !! p = Some m ->
  (alloc_fails (kmalloc_next h) = true -> Q (- ENOMEM) (h <| kmalloc_next ::= S |>)) -> wp cont (add_obj KSd j p m h) Q ->
  wp (sd ← kzalloc_sd; match sd with None => mret (- ENOMEM) | Some _ => per_cpu_set (Some p) j sd ;; cont end) h Q.
Proof.
  intros Em H1 H2. unfold kzalloc_sd, kmalloc. unfold wp, mbind, M_bind. destruct (alloc_fails (kmalloc_next h)); [by apply H1|]. cbn [modify mret M_ret].
  unfold per_cpu_set, deref, percpu_at, mbind, M_bind, mret, M_ret. cbn. rewrite Em. exact H2.
Qed.
Lemma wp_alloc_sg (p j : nat) m h (cont : M Z) (Q : Z -> dom -> Prop) : percpus h !! p = Some m ->
  (alloc_fails (kmalloc_next h) = true -> Q (- ENOMEM) (h <| kmalloc_next ::= S |>)) -> wp cont (add_obj KSg j p m h) Q ->
  wp (sg ← kzalloc_sg; match sg with None => mret (- ENOMEM) | Some a =>
    upd_sg a (fun g => g <| g_next := Some a |>) ;; per_cpu_set (Some p) j sg ;; cont end) h Q.
Proof.
  intros Em H1 H2. unfold kzalloc_sg, kmalloc. unfold wp, mbind, M_bind. destruct (alloc_fails (kmalloc_next h)); [by apply H1|]. cbn [modify mret M_ret].
  unfold upd_sg, sg_at, per_cpu_set, deref, percpu_at, mbind, M_bind, mret, M_ret. cbn. rewrite lookup_insert_eq. cbn. rewrite insert_insert_eq, Em. exact H2.
Qed.
Lemma wp_alloc_sgp (p j : nat) m h (cont : M Z) (Q : Z -> dom -> Prop) : percpus h !! p = Some m ->
  (alloc_fails (kmalloc_next h) = true -> Q (- ENOMEM) (h <| kmalloc_next ::= S |>)) -> wp cont (add_obj KSgp j p m h) Q ->
  wp (sgp ← kzalloc_sgp; match sgp with None => mret (- ENOMEM) | Some _ => per_cpu_set (Some p) j sgp ;; cont end) h Q.
Proof.
  intros Em H1 H2. unfold kzalloc_sgp, kmalloc. unfold wp, mbind, M_bind. destruct (alloc_fails (kmalloc_next h)); [by apply H1|]. cbn [modify mret M_ret].
  unfold per_cpu_set, deref, percpu_at, mbind, M_bind, mret, M_ret. cbn. rewrite Em. exact H2.
Qed.

(** The tables of a level exist; what else is in them stays. *)
Record placed (l j : nat) h h' : Prop := {
  pl_tab : forall k l', tab k h' l' = tab k h l';
  pl_other : forall k l' j', ~ (l' = l /\ j' = j) -> entry k h' l' j' = entry k h l' j' }.
#[local] Instance placed_pre l j : PreOrder (placed l j).
Proof. split; [by split|]. intros x y z [A1 A2] [B1 B2]. split; [congruence|]. intros k l' j' H. by rewrite B2, A2. Qed.

(** One of the three objects of a place. *)
Lemma add_obj_placed cpus h0 h k l j p : alloc_inv cpus h0 h -> tab k h l = Some p -> entry k h l j = None -> j ∈ cpus ->
  exists m, percpus h !! p = Some m /\ alloc_inv cpus h0 (add_obj k j p m h) /\ placed l j h (add_obj k j p m h) /\
    forall k', entry k' (add_obj k j p m h) l j = if decide (k' = k) then Some (kmalloc_next h) else entry k' h l j.
Proof.
  intros Ha Ep En Hj. destruct (ai_tab _ _ _ Ha k l p Ep) as [_ [m Em]]. exists m. split; [done|].
  split; [by apply (add_obj_inv cpus h0 h k l j p m)|].
  assert (forall k1 l1, tab k1 h l1 = Some p -> k1 = k /\ l1 = l) as Hi by (intros k1 l1 E; by apply (ai_tab_inj _ _ _ Ha k1 l1 k l p)).
  pose proof (fun k' l' j' => add_obj_entry k l j p m h k' l' j' Ep Em Hi) as He.
  destruct (add_obj_facts k j p m h) as (_ & E2 & _). split; [split|].
  - intros k' l'. unfold tab. by rewrite E2.
  - intros k' l' j' H. rewrite He, decide_False; [done|]. intros (_ & ? & ?). by apply H.
  - intros k'. rewrite He. destruct (decide (k' = k)) as [->|]; [by rewrite decide_True|]. rewrite decide_False; [done|]. by intros (? & _).
Qed.

Definition alloc_post cpus h0 (l j : nat) h (Q : Z -> dom -> Prop) : Prop :=
  forall r h', alloc_inv cpus h0 h' -> placed l j h h' -> (r = 0 /\ (forall k, is_Some (entry k h' l j)) \/ c_true r = true /\ out_of_memory (kmalloc_next h0) (kmalloc_next h')) -> Q r h'.

Lemma wp_alloc_objects cpus h0 h l j (Q : Z -> dom -> Prop) : alloc_inv cpus h0 h -> (forall k, is_Some (tab k h l)) ->
  (forall k, entry k h l j = None) -> j ∈ cpus -> alloc_post cpus h0 l j h Q -> wp (alloc_objects l j) h Q.
Proof.
  intros Ha Ht Hn Hj HQ. unfold alloc_objects. apply wp_bind.
  assert (exists lv, topology h !! l = Some lv) as [lv El].
  { destruct (Ht KSd) as [p Ep]. unfold tab in Ep. destruct (topology h !! l) as [lv|]; [by exists lv|done]. }
  eapply wp_data_at; [exact El|].
  assert (exists a b c, data_sd (tl_data lv) = Some a /\ data_sg (tl_data lv) = Some b /\ data_sgp (tl_data lv) = Some c /\
    tab KSd h l = Some a /\ tab KSg h l = Some b /\ tab KSgp h l = Some c) as (a & b & c & -> & -> & -> & Ea & Eb & Ec).
  { destruct (Ht KSd) as [a Ea], (Ht KSg) as [b Eb], (Ht KSgp) as [c Ec]. exists a, b, c. unfold tab in *. rewrite El in *. done. }
  assert (Hskip : forall h1, alloc_inv cpus h0 h1 -> placed l j h h1 -> alloc_fails (kmalloc_next h1) = true -> Q (- ENOMEM) (h1 <| kmalloc_next ::= S |>)).
  { intros h1 A1 P1 Hf. apply HQ; [by apply alloc_skip|by destruct P1; split|right; split; [done|by apply out_here; [apply A1|]]]. }
  destruct (add_obj_placed cpus h0 h KSd l j a Ha Ea (Hn KSd) Hj) as (m1 & M1 & A1 & P1 & N1).
  apply (wp_alloc_sd a j m1); [done|by apply Hskip|].
  set (h1 := add_obj KSd j a m1 h) in *.
  destruct (add_obj_placed cpus h0 h1 KSg l j b A1) as (m2 & M2 & A2 & P2 & N2); [by rewrite (pl_tab _ _ _ _ P1)|rewrite N1; apply Hn|done|].
  apply (wp_alloc_sg b j m2); [done|by apply Hskip|]. set (h2 := add_obj KSg j b m2 h1) in *.
  assert (placed l j h h2) as P2' by by etrans.
  destruct (add_obj_placed cpus h0 h2 KSgp l j c A2) as (m3 & M3 & A3 & P3 & N3); [by rewrite (pl_tab _ _ _ _ P2')|rewrite N2; cbn; rewrite N1; apply Hn|done|].
  apply (wp_alloc_sgp c j m3); [done|by apply Hskip|]. set (h3 := add_obj KSgp j c m3 h2) in *.
  apply wp_ret, HQ; [done|by etrans|left]. split; [done|]. intros k. rewrite N3. case_decide; [done|]. rewrite N2. case_decide; [done|].
  rewrite N1. case_decide; [done|]. by destruct k.
Qed.

(** alloc_percpu() and the store into the level. *)
Lemma put_same k l h : tab k h l = None -> h <| topology ::= alter (fun lv => lv <| tl_data ::= put_tab k None |>) l |> = h.
Proof.
  intros Hn. assert (alter (fun lv => lv <| tl_data ::= put_tab k None |>) l (topology h) = topology h) as E; [|destruct h; cbn in *; by rewrite E].
  apply list_eq. intros i. destruct (decide (i = l)) as [->|Hi]; [|by rewrite list_lookup_alter_ne].
  rewrite list_lookup_alter_eq. unfold tab in Hn. destruct (topology h !! l) as [lv|]; [|done]. cbn. f_equal.
  destruct lv as [? ? ? [x y z]], k; cbn in *; by subst.
Qed.
Lemma wp_alloc_tab k l h (cont : M Z) (Q : Z -> dom -> Prop) : tab k h l = None ->
  (alloc_fails (kmalloc_next h) = true -> Q (- ENOMEM) (h <| kmalloc_next ::= S |>)) -> wp cont (add_tab k l h) Q ->
  wp (p ← alloc_percpu; upd_data l (put_tab k p) ;; match p with None => mret (- ENOMEM) | Some _ => cont end) h Q.
Proof.
  intros Hn H1 H2. unfold alloc_percpu, kmalloc. unfold wp, mbind, M_bind. destruct (alloc_fails (kmalloc_next h)); [|exact H2].
  unfold upd_data, modify, mret, M_ret. rewrite put_same; [by apply H1|exact Hn].
Qed.

(** Only the level [l] gets tables and objects. *)
Definition level_frame (l : nat) h h' : Prop :=
  forall k l', l' <> l -> tab k h' l' = tab k h l' /\ forall j, entry k h' l' j = entry k h l' j.
#[local] Instance level_frame_pre l : PreOrder (level_frame l).
Proof.
  split; [by intros h k l' _|]. intros x y z A B k l' H. destruct (A k l' H) as [A1 A2], (B k l' H) as [B1 B2]. split; [congruence|].
  intros j. by rewrite B2, A2.
Qed.
Lemma placed_frame l j h h' : placed l j h h' -> level_frame l h h'.
Proof. intros [P1 P2] k l' Hl. split; [done|]. intros j'. apply P2. by intros [? _]. Qed.
Lemma alloc_length cpus h0 h : alloc_inv cpus h0 h -> length (topology h) = length (topology h0).
Proof. intros Ha. by rewrite <- (ai_topo _ _ _ Ha), length_fmap. Qed.

Lemma add_tab_frame cpus h0 h k l : fresh_heap h0 -> alloc_inv cpus h0 h -> (l < length (topology h))%nat -> tab k h l = None ->
  alloc_inv cpus h0 (add_tab k l h) /\ level_frame l h (add_tab k l h) /\
  (forall k', tab k' (add_tab k l h) l = if decide (k' = k) then Some (kmalloc_next h) else tab k' h l) /\
  (forall k' j, entry k' (add_tab k l h) l j = entry k' h l j).
Proof.
  intros Hf Ha Hl Hn. destruct (add_tab_inv cpus h0 h k l Hf Ha Hl Hn) as [A E]. split; [done|]. split; [|split; [|done]].
  - intros k' l' Hne. split; [|by intros j]. rewrite add_tab_tab by done. rewrite decide_False; [done|]. by intros [_ ?].
  - intros k'. rewrite add_tab_tab by done. destruct (decide (k' = k)) as [->|]; [by rewrite decide_True|]. rewrite decide_False; [done|]. by intros [? _].
Qed.

Definition level_post cpus h0 (l : nat) h (Q : Z -> dom -> Prop) : Prop :=
  forall r h', alloc_inv cpus h0 h' -> level_frame l h h' ->
    (r = 0 /\ (forall k j, j ∈ cpus -> is_Some (entry k h' l j)) \/ c_true r = true /\ out_of_memory (kmalloc_next h0) (kmalloc_next h')) -> Q r h'.

(** All objects of a level. *)
Lemma wp_alloc_places cm h0 h l (Q : Z -> dom -> Prop) : alloc_inv (cpus_of cm) h0 h -> (forall k, is_Some (tab k h l)) ->
  (forall k j, entry k h l j = None) -> level_post (cpus_of cm) h0 l h Q -> wp (try_each (cpus_of cm) (alloc_objects l)) h Q.
Proof.
  intros Ha Ht Hn HQ. pose proof (cpus_nodup cm) as Hnd.
  apply (wp_try_each _ _ (fun js h1 => alloc_inv (cpus_of cm) h0 h1 /\ level_frame l h h1 /\ (forall k, is_Some (tab k h1 l)) /\
      (forall k j, j ∈ js -> is_Some (entry k h1 l j)) /\ (forall k j, j ∉ js -> entry k h1 l j = None))
    (fun _ h1 => alloc_inv (cpus_of cm) h0 h1 /\ level_frame l h h1 /\ out_of_memory (kmalloc_next h0) (kmalloc_next h1))).
  - split_and!; try done. by intros k j ?%not_elem_of_nil.
  - intros js j js' h1 E (A1 & F1 & T1 & S1 & N1). rewrite E in Hnd. apply NoDup_app in Hnd as (_ & Hnd & _).
    assert (j ∉ js) as Hj by (intros Hj; apply (Hnd j Hj); by left).
    apply (wp_alloc_objects (cpus_of cm) h0 h1 l j); [done|done|by intros k; apply N1|rewrite E; set_solver|].
    intros r h2 A2 P2 Hr. assert (level_frame l h h2) as F2 by (etrans; [exact F1|by eapply placed_frame]).
    destruct Hr as [[-> S2]|[Hr Ho]]; [left|by right]. split; [done|]. split_and!; [done|done|..].
    + intros k. by rewrite (pl_tab _ _ _ _ P2).
    + intros k x [Hx| ->%list_elem_of_singleton]%elem_of_app; [|done].
      destruct (decide (x = j)) as [->|Hne]; [done|]. rewrite (pl_other _ _ _ _ P2) by (by intros [_ ?]). by apply S1.
    + intros k x Hx. apply not_elem_of_app in Hx as [Hx Hxj]. rewrite (pl_other _ _ _ _ P2); [by apply N1|]. intros [_ ->]. apply Hxj. by left.
  - intros h1 (A1 & F1 & _ & S1 & _). apply HQ; [done|done|by left].
  - intros r h1 Hr (A1 & F1 & Ho). apply HQ; [done|done|by right].
Qed.

Lemma wp_alloc_level cm h0 h l (Q : Z -> dom -> Prop) : fresh_heap h0 -> alloc_inv (cpus_of cm) h0 h -> (l < length (topology h))%nat ->
  (forall k, tab k h l = None) -> level_post (cpus_of cm) h0 l h Q -> wp (alloc_level cm l) h Q.
Proof.
  intros Hf Ha Hl Hn HQ. unfold alloc_level.
  assert (Hskip : forall h1, alloc_inv (cpus_of cm) h0 h1 -> level_frame l h h1 -> alloc_fails (kmalloc_next h1) = true -> Q (- ENOMEM) (h1 <| kmalloc_next ::= S |>)).
  { intros h1 A1 F1 Hm. apply HQ; [by apply alloc_skip|done|right; split; [done|by apply out_here; [apply A1|]]]. }
  assert (Hen : forall k j, entry k h l j = None) by (intros k j; unfold entry; by rewrite Hn).
  destruct (add_tab_frame (cpus_of cm) h0 h KSd l Hf Ha Hl (Hn KSd)) as (A1 & F1 & T1 & E1).
  apply (wp_alloc_tab KSd l); [done|by apply Hskip|]. set (h1 := add_tab KSd l h) in *.
  assert (forall h2, alloc_inv (cpus_of cm) h0 h2 -> (l < length (topology h2))%nat) as Hlen.
  { intros h2 A2. rewrite (alloc_length _ _ _ A2), <- (alloc_length _ _ _ Ha). done. }
  destruct (add_tab_frame (cpus_of cm) h0 h1 KSg l Hf A1 (Hlen _ A1)) as (A2 & F2 & T2 & E2); [rewrite T1; apply Hn|].
  apply (wp_alloc_tab KSg l); [rewrite T1; apply Hn|by apply Hskip|]. set (h2 := add_tab KSg l h1) in *.
  assert (level_frame l h h2) as F2' by by etrans.
  destruct (add_tab_frame (cpus_of cm) h0 h2 KSgp l Hf A2 (Hlen _ A2)) as (A3 & F3 & T3 & E3); [rewrite T2; cbn; rewrite T1; apply Hn|].
  apply (wp_alloc_tab KSgp l); [rewrite T2; cbn; rewrite T1; apply Hn|by apply Hskip|]. set (h3 := add_tab KSgp l h2) in *.
  assert (level_frame l h h3) as F3' by by etrans.
  apply (wp_alloc_places cm h0 h3 l); [done| |by intros k j; rewrite E3, E2, E1|].
  - intros k. rewrite T3. case_decide; [done|]. rewrite T2. case_decide; [done|]. rewrite T1. case_decide; [done|]. by destruct k.
  - intros r h4 A4 F4. apply HQ; [done|]. by etrans.
Qed.

(** __sdt_alloc(): on success every place has its objects. *)
Definition all_placed (cpus : list nat) h : Prop := forall k l j, (l < length (topology h))%nat -> j ∈ cpus -> is_Some (entry k h l j).
Lemma wp_sdt_alloc cm h0 (Q : Z -> dom -> Prop) : fresh_heap h0 -> no_data h0 ->
  (forall r h, alloc_inv (cpus_of cm) h0 h -> (r = 0 /\ all_placed (cpus_of cm) h \/ c_true r = true /\ out_of_memory (kmalloc_next h0) (kmalloc_next h)) -> Q r h) ->
  wp (__sdt_alloc cm) h0 Q.
Proof.
  intros Hf Hd HQ. unfold __sdt_alloc. apply wp_bind, wp_gets.
  pose proof (NoDup_seq 0 (length (topology h0))) as Hnd.
  apply (wp_try_each _ _ (fun ls h1 => alloc_inv (cpus_of cm) h0 h1 /\
      (forall k l j, l ∈ ls -> j ∈ cpus_of cm -> is_Some (entry k h1 l j)) /\ (forall k l, l ∉ ls -> tab k h1 l = None))
    (fun _ h1 => alloc_inv (cpus_of cm) h0 h1 /\ out_of_memory (kmalloc_next h0) (kmalloc_next h1))).
  - split_and!; [by apply alloc_start|by intros k l j ?%not_elem_of_nil|]. intros k l _. by apply no_data_tab.
  - intros ls l ls' h1 E (A1 & S1 & N1). rewrite E in Hnd. apply NoDup_app in Hnd as (_ & Hnd & _).
    assert (l ∉ ls) as Hl by (intros Hl; apply (Hnd l Hl); by left).
    assert (l ∈ seq 0 (length (topology h0))) as Hlt%elem_of_seq by (rewrite E; set_solver).
    apply (wp_alloc_level cm h0 h1 l); [done|done|rewrite (alloc_length _ _ _ A1); lia|by intros k; apply N1|].
    intros r h2 A2 F2 [[-> S2]|[Hr Ho]]; [left|by right]. split; [done|]. split_and!; [done|..].
    + intros k x j [Hx| ->%list_elem_of_singleton]%elem_of_app Hj; [|by apply S2].
      destruct (F2 k x) as [_ ->]; [by intros ->|by apply S1].
    + intros k x Hx. apply not_elem_of_app in Hx as [Hx Hxl]. destruct (F2 k x) as [-> _]; [intros ->; apply Hxl; by left|by apply N1].
  - intros h1 (A1 & S1 & _). apply HQ; [done|left]. split; [done|]. intros k l j Hl. apply S1, elem_of_seq.
    rewrite (alloc_length _ _ _ A1) in Hl. lia.
  - intros r h1 Hr [A1 Ho]. apply HQ; [done|by right].
Qed.

(** What __sdt_alloc() leaves can be freed, and then nothing is left of it. *)
Lemma zero_plain k a d : new_obj k a = OSd d -> has_flag (d_flags d) SD_OVERLAP = false.
Proof. destruct k; cbn; [|done..]. by intros [= <-]. Qed.
Lemma alloc_tables_ok cpus h0 h : alloc_inv cpus h0 h -> tables_ok cpus h.
Proof.
  intros [A1 A2 A3 A4 A5 A6 A7 A8 A9]. split; try done.
  - intros k l p E. by destruct (A4 k l p E).
  - intros k l j a _ E. destruct (A7 k l j a E) as (_ & Eo & _). unfold live. by rewrite Eo.
  - intros k l j l' j' a _ _. apply A8.
  - intros l j a d _ E Ed. destruct (A7 KSd l j a E) as (_ & Eo & _). cbn in Eo. rewrite Ed in Eo. by injection Eo as ->.
Qed.
Lemma freed_back cm h0 h h' : fresh_heap h0 -> no_data h0 -> alloc_inv (cpus_of cm) h0 h ->
  freed_levels cm (seq 0 (length (topology h))) h h' -> h' = h0 <| kmalloc_next := kmalloc_next h' |>.
Proof.
  intros Hf Hd Ha [F1 F2 F3 F4 F5 F6 F7]. pose proof Ha as [A1 A2 A3 A4 A5 A6 A7 A8 A9].
  assert (forall k l p, tab k h l = Some p -> l ∈ seq 0 (length (topology h))) as Hin.
  { intros k l p E. apply elem_of_seq. unfold tab in E. destruct (topology h !! l) as [lv|] eqn:El; [|done]. apply lookup_lt_Some in El. lia. }
  assert (forall k l j a, entry k h l j = Some a -> l ∈ seq 0 (length (topology h))) as Hine.
  { intros k l j a E. unfold entry in E. destruct (tab k h l) as [p|] eqn:Ep; [|done]. by eapply Hin. }
  apply dom_ext.
  - intros k a. destruct (decide (kmalloc_next h0 <= a < kmalloc_next h)%nat) as [Ha'|Ha'].
    + assert (obj k h0 a = None) as ->.
      { destruct (obj k h0 a) as [o|] eqn:Eo; [|done]. assert (live k h0 a) as Hl by by exists o. apply (fh_obj _ Hf) in Hl. lia. }
      destruct (obj k h' a) as [o|] eqn:Eo; [|done]. exfalso.
      assert (forall l j, entry k h l j <> Some a) as Hno.
      { intros l j E. rewrite (F2 k l j a) in Eo; [done|by eapply Hine|by apply (A7 k l j a E)|done]. }
      rewrite F3 in Eo by auto. rewrite A9 in Eo by done.
      assert (live k h0 a) as Hl by by exists o. apply (fh_obj _ Hf) in Hl. lia.
    + assert (forall l j, entry k h l j <> Some a) as Hno by (intros l j E; apply A7 in E; lia).
      rewrite F3 by auto. by apply A9.
  - intros p. destruct (decide (kmalloc_next h0 <= p < kmalloc_next h)%nat) as [Hp|Hp].
    + assert (percpus h0 !! p = None) as ->.
      { destruct (percpus h0 !! p) as [m|] eqn:Em; [|done]. assert (is_Some (percpus h0 !! p)) as Hl by by exists m. apply (fh_percpu _ Hf) in Hl. lia. }
      destruct (percpus h' !! p) as [m|] eqn:Em; [|done]. exfalso.
      assert (forall k l, tab k h l <> Some p) as Hno by (intros k l E; rewrite (F4 k l p) in Em; [done|by eapply Hin|done]).
      rewrite F5 in Em by auto. rewrite A6 in Em by done. assert (is_Some (percpus h0 !! p)) as Hl by by exists m. apply (fh_percpu _ Hf) in Hl. lia.
    + assert (forall k l, tab k h l <> Some p) as Hno by (intros k l E; apply A4 in E; lia). rewrite F5 by auto. by apply A6.
  - rewrite <- A2. apply list_eq. intros l. rewrite F1, list_lookup_fmap. case_decide as Hl; [done|].
    rewrite elem_of_seq in Hl. by rewrite lookup_ge_None_2 by lia.
  - by rewrite F7.
Qed.
End alloc.
