(* ===== verification/DomVisit.v ===== *)
(** __visit_domain_allocation_hell() and what undoes it when an allocation fails. *)

From S2P Require Import Prelude KList Sched Ras Rt RtSpec TaskGroupSpec RtBorrow RtBorrowSpec Affinity Smp RtSmp RtPush SmpSpec RtSmpSpec SmpMachine RtPushSpec Migrate MigrateSpec RootSpec Domains DomLogic DomAlloc.

(** What the construction relies on of linux/cpumask.h: masks are not allocated
    (CONFIG_CPUMASK_OFFSTACK is off), so that the masks of a new root domain are
    the cleared ones. *)
Class DomLaws `{CpuMask} `{!CpuMasks} `{DomMasks} `{DomEnv} : Prop := {
  dl_mask n m : alloc_cpumask_var n m = Some m;
  dl_clear c : is_cpu c = true -> cpumask_test_cpu c cpumask_clear = false;
  dl_and c m m' : is_cpu c = true -> cpumask_test_cpu c (cpumask_and m m') = cpumask_test_cpu c m && cpumask_test_cpu c m';
  dl_or c m m' : is_cpu c = true -> cpumask_test_cpu c (cpumask_or m m') = cpumask_test_cpu c m || cpumask_test_cpu c m';
  dl_andnot c m m' : is_cpu c = true -> cpumask_test_cpu c (cpumask_andnot m m') = cpumask_test_cpu c m && negb (cpumask_test_cpu c m');
  dl_subset m m' : cpumask_subset m m' = true <-> forall c, is_cpu c = true -> cpumask_test_cpu c m = true -> cpumask_test_cpu c m' = true }.

Section visit.
Context {SK : SKTypes} {ST : SmpTypes} {CM : CpuMask} {CMS : CpuMasks} {CML : CpuMasksLaws} {SE : SmpEnv} {DM : DomMasks} {DE : DomEnv} {DL : DomLaws}.
Implicit Types (h : dom) (a l j : nat) (k : kind).

(** Only root domains that did not exist change, and the numbers of allocations. *)
Definition with_roots h (m : nat -> root_domain) (rs : gset nat) (n : nat) : dom :=
  h <| machine ::= (fun s => s <| rds := m |>) |> <| roots := rs |> <| kmalloc_next := n |>.
Definition old_roots h (m : nat -> root_domain) : Prop := forall e, (e < kmalloc_next h)%nat -> m e = rds (machine h) e.

Lemma with_roots_id h n : with_roots h (rds (machine h)) (roots h) n = h <| kmalloc_next := n |>.
Proof. by destruct h as [[]]. Qed.

(** alloc_rootdomain() gives a new, empty root domain, or nothing. *)
Definition new_root (c : Cpupri) : root_domain := mkRd _ 0 0 cpumask_clear cpumask_clear cpumask_clear c.
Lemma wp_alloc_mask m h (Q : option Z -> dom -> Prop) : Q (Some m) (h <| kmalloc_next ::= S |>) -> wp (alloc_mask m) h Q.
Proof. intros H. unfold wp, alloc_mask. by rewrite dl_mask. Qed.
Lemma wp_set_rd rd f h (Q : unit -> dom -> Prop) : Q tt (h <| machine ::= upd_rd rd f |>) -> wp (set_rd rd f) h Q.
Proof. done. Qed.
(** init_rootdomain() of the root domain [rd] *)
Lemma wp_init_rootdomain rd h (Q : Z -> dom -> Prop) :
  (forall m n, (forall e, e <> rd -> m e = rds (machine h) e) -> (kmalloc_next h < n)%nat -> out_of_memory (kmalloc_next h) n -> Q (- ENOMEM) (with_roots h m (roots h) n)) ->
  (forall m n c, (forall e, e <> rd -> m e = rds (machine h) e) -> (kmalloc_next h < n)%nat -> m rd = new_root c -> Q 0 (with_roots h m (roots h) n)) ->
  wp (init_rootdomain rd) h Q.
Proof.
  intros HN HS. unfold init_rootdomain.
  apply wp_bind, wp_set_rd. apply wp_bind, wp_alloc_mask. apply wp_bind, wp_set_rd. apply wp_bind, wp_alloc_mask.
  apply wp_bind, wp_set_rd. apply wp_bind, wp_alloc_mask. apply wp_bind, wp_set_rd. apply wp_bind, wp_gets. apply wp_bind, wp_modify.
  assert (forall s f, rds (upd_rd rd f s) rd = f (rds s rd)) as Eeq by (intros; unfold upd_rd; cbn; by rewrite Nat.eqb_refl).
  assert (forall s f e, e <> rd -> rds (upd_rd rd f s) e = rds s e) as Ene.
  { intros s f e He. unfold upd_rd. cbn. by rewrite (proj2 (Nat.eqb_neq e rd)). }
  destruct (cpupri_init _) as [c|] eqn:Ec.
  - apply wp_bind, wp_set_rd, wp_ret. cbn -[upd_rd]. set (s5 := upd_rd rd _ (upd_rd rd _ _)).
    change (Q 0 (with_roots h (rds s5) (roots h) (S (S (S (S (kmalloc_next h))))))). apply (HS _ _ c).
    + intros e He. unfold s5. by rewrite !Ene.
    + lia.
    + unfold s5. by rewrite !Eeq.
  - apply wp_ret. cbn -[upd_rd]. set (s4 := upd_rd rd _ (upd_rd rd _ _)).
    change (Q (- ENOMEM) (with_roots h (rds s4) (roots h) (S (S (S (S (kmalloc_next h))))))). apply HN; [|lia|].
    + intros e He. unfold s4. by rewrite !Ene.
    + eexists. split; [|right; exact Ec]. cbn. lia.
Qed.

Lemma wp_alloc_rootdomain h (Q : option nat -> dom -> Prop) : (forall x, x ∈ roots h -> (x < kmalloc_next h)%nat) ->
  (forall m n, old_roots h m -> (kmalloc_next h < n)%nat -> out_of_memory (kmalloc_next h) n -> Q None (with_roots h m (roots h) n)) ->
  (forall m n c, (forall e, e <> kmalloc_next h -> m e = rds (machine h) e) -> (kmalloc_next h < n)%nat -> m (kmalloc_next h) = new_root c ->
     Q (Some (kmalloc_next h)) (with_roots h m ({[kmalloc_next h]} ∪ roots h) n)) ->
  wp alloc_rootdomain h Q.
Proof.
  intros Hf HN HS. unfold alloc_rootdomain. apply wp_bind. unfold kmalloc, wp at 1. destruct (alloc_fails (kmalloc_next h)) eqn:Ef.
  { apply wp_ret. rewrite <- (with_roots_id h). apply HN; [done|lia|by apply out_here]. }
  set (rd := kmalloc_next h) in *. apply wp_bind, wp_modify, wp_bind.
  apply wp_init_rootdomain; cbn.
  - intros m n Hm Hn Hout. apply wp_bind, wp_modify, wp_ret.
    assert (({[rd]} ∪ roots h) ∖ {[rd]} = roots h) as Er.
    { apply set_eq. intros x. assert (x ∈ roots h -> x <> rd) by (intros Hx ->; apply Hf in Hx; unfold rd in Hx; lia). set_solver. }
    change (Q None (with_roots h m (({[rd]} ∪ roots h) ∖ {[rd]}) n)). rewrite Er. apply HN; [|lia|revert Hout; apply out_more; lia].
    intros e He. apply Hm. unfold rd. lia.
  - intros m n c Hm Hn Hr. apply wp_ret. change (Q (Some rd) (with_roots h m ({[rd]} ∪ roots h) n)). by apply (HS _ _ c); [|lia|].
Qed.

(** A failed construction leaves no trace but used-up numbers. *)
Definition restored h0 h : Prop := exists m n, old_roots h0 m /\ (kmalloc_next h0 <= n)%nat /\ h = with_roots h0 m (roots h0) n.

Lemma alloc_roots cpus h0 h m rs n : alloc_inv cpus h0 h -> (kmalloc_next h <= n)%nat ->
  alloc_inv cpus (with_roots h0 m rs (kmalloc_next h0)) (with_roots h m rs n).
Proof.
  intros [A1 A2 A3 A4 A5 A6 A7 A8 A9] Hn. split; try done.
  - cbn. lia.
  - change (with_roots (rest h) m rs 0 = with_roots (rest h0) m rs 0). by rewrite A3.
  - intros k l p E. destruct (A4 k l p E) as [? ?]. cbn. split; [lia|done].
  - intros k l j a E. destruct (A7 k l j a E) as (? & ? & ?). cbn. split_and!; [lia|lia|done|done].
Qed.
Lemma roots_fresh h m rs : fresh_heap h -> (forall a, a ∈ rs -> (a < kmalloc_next h)%nat) -> fresh_heap (with_roots h m rs (kmalloc_next h)).
Proof. intros [F1 F2 F3 F4 F5 F6] Hr. by split. Qed.

Lemma wp_undo cm h0 h m n (Q : unit -> dom -> Prop) : fresh_heap h0 -> no_data h0 -> alloc_inv (cpus_of cm) h0 h -> old_roots h0 m -> (kmalloc_next h <= n)%nat ->
  (forall h', restored h0 h' -> kmalloc_next h' = n -> Q tt h') -> wp (__sdt_free cm) (with_roots h m (roots h0) n) Q.
Proof.
  intros Hf Hd Ha Hm Hn HQ. pose proof (alloc_roots _ _ _ m (roots h0) n Ha Hn) as Ha'.
  apply wp_sdt_free; [by eapply alloc_tables_ok|]. intros h' F.
  pose proof (fs_next _ _ _ _ F) as En. apply freed_back with (h0 := with_roots h0 m (roots h0) (kmalloc_next h0)) in F; [|by apply roots_fresh, Hf|done|done].
  apply HQ; [|done]. exists m, (kmalloc_next h'). split; [done|]. split; [|by rewrite F at 1].
  rewrite En. pose proof (ai_next _ _ _ Ha). cbn. lia.
Qed.

(** Only a failed allocation makes the construction fail. *)
Definition failed h0 h : Prop := restored h0 h /\ out_of_memory (kmalloc_next h0) (kmalloc_next h).

(** The array [d.sd] is new too. *)
Lemma alloc_percpu_new cpus h0 h : fresh_heap h0 -> alloc_inv cpus h0 h -> percpus h !! kmalloc_next h = None.
Proof.
  intros Hf Ha. rewrite (ai_percpu _ _ _ Ha).
  - destruct (percpus h0 !! kmalloc_next h) as [m|] eqn:E; [|done]. assert (is_Some (percpus h0 !! kmalloc_next h)) as H by by exists m.
    apply (fh_percpu _ Hf) in H. pose proof (ai_next _ _ _ Ha). lia.
  - intros k l E. apply (ai_tab _ _ _ Ha) in E. lia.
Qed.
Definition with_percpu h : dom := h <| percpus ::= <[kmalloc_next h := fun _ => None]> |> <| kmalloc_next ::= S |>.
Lemma percpu_fresh cpus h0 h : fresh_heap h0 -> alloc_inv cpus h0 h -> fresh_heap h.
Proof.
  intros [F1 F2 F3 F4 F5 F6] [A1 A2 A3 A4 A5 A6 A7 A8 A9]. assert (rest h = rest h0) as Er by done.
  assert (roots h = roots h0 /\ arrays h = arrays h0 /\ masks h = masks h0) as (E1 & E2 & E3).
  { split_and!; [by apply (f_equal roots) in Er|by apply (f_equal arrays) in Er|by apply (f_equal masks) in Er]. }
  split; rewrite ?E1, ?E2, ?E3; try (intros; by eapply Nat.lt_le_trans; eauto); try lia.
  - intros k a Hl. destruct (decide (a < kmalloc_next h)%nat) as [|Hn]; [done|]. unfold live in Hl.
    rewrite A9 in Hl by (intros l j E; apply A7 in E; lia). apply F1 in Hl. lia.
  - intros p Hp. destruct (decide (p < kmalloc_next h)%nat) as [|Hn]; [done|].
    rewrite A6 in Hp by (intros k l E; apply A4 in E; lia). apply F2 in Hp. lia.
Qed.

(** __visit_domain_allocation_hell(), and what is undone when it fails *)
Definition visited cm h0 (m : nat -> root_domain) (rd p : nat) h : Prop :=
  exists h1 c n, alloc_inv (cpus_of cm) h0 h1 /\ all_placed (cpus_of cm) h1 /\ p = kmalloc_next h1 /\ (p < rd < n)%nat /\
    (forall e, e <> rd -> m e = rds (machine h0) e) /\ m rd = new_root c /\ h = with_roots (with_percpu h1) m ({[rd]} ∪ roots h0) n.
Lemma wp_visit cm h0 (Q : s_alloc * s_data -> dom -> Prop) : fresh_heap h0 -> no_data h0 ->
  (forall st d h, st <> sa_rootdomain -> wp (__free_domain_allocs d st cm) h (fun _ h => failed h0 h) -> Q (st, d) h) ->
  (forall m rd p h, visited cm h0 m rd p h -> Q (sa_rootdomain, mkSData (Some p) (Some rd)) h) ->
  wp (__visit_domain_allocation_hell cm) h0 Q.
Proof.
  intros Hf Hd HN HS. unfold __visit_domain_allocation_hell. apply wp_bind, wp_sdt_alloc; [done|done|]. intros r h1 A1 Hr.
  assert (Hundo : forall h m n, alloc_inv (cpus_of cm) h0 h -> old_roots h0 m -> (kmalloc_next h <= n)%nat -> out_of_memory (kmalloc_next h0) n ->
    wp (__sdt_free cm) (with_roots h m (roots h0) n) (fun _ h => failed h0 h)) by (intros; apply (wp_undo cm h0); [done..|]; intros h' ? En; split; [done|by rewrite En]).
  assert (Hun : forall h, alloc_inv (cpus_of cm) h0 h -> out_of_memory (kmalloc_next h0) (kmalloc_next h) -> wp (__sdt_free cm) h (fun _ h => failed h0 h)).
  { intros h A Hout. pose proof (f_equal roots (ai_rest _ _ _ A)) as Er. pose proof (f_equal machine (ai_rest _ _ _ A)) as Em. cbn in Er, Em.
    replace h with (with_roots h (rds (machine h0)) (roots h0) (kmalloc_next h)) at 1 by (rewrite <- Er, <- Em, with_roots_id; by destruct h).
    by apply Hundo. }
  destruct Hr as [[-> Hp]|[Hr Hout]]; [|rewrite Hr; apply wp_ret, HN; [done|]; unfold __free_domain_allocs; apply wp_bind, wp_ret, wp_bind, wp_ret; by apply Hun].
  cbn [c_true Z.eqb negb]. apply wp_bind. unfold alloc_percpu. apply wp_bind. unfold kmalloc, wp at 1. destruct (alloc_fails (kmalloc_next h1)) eqn:Efail.
  { apply wp_ret, wp_ret, HN; [done|]. unfold __free_domain_allocs. apply wp_bind, wp_ret, wp_bind, wp_ret.
    apply Hun; [by apply alloc_skip|]. by apply out_here; [apply A1|]. }
  apply wp_bind, wp_modify, wp_ret. apply wp_bind. change (wp alloc_rootdomain (with_percpu h1) (fun rd h => wp (match rd with
     | Some _ => mret (sa_rootdomain, mkSData (Some (kmalloc_next h1)) rd) | None => mret (sa_sd, mkSData (Some (kmalloc_next h1)) None) end) h Q)).
  pose proof (f_equal roots (ai_rest _ _ _ A1)) as Er. pose proof (f_equal machine (ai_rest _ _ _ A1)) as Em. cbn in Er, Em.
  pose proof (percpu_fresh _ _ _ Hf A1) as Hf1. pose proof (ai_next _ _ _ A1) as Hnx.
  assert (Hold : forall m, old_roots (with_percpu h1) m -> old_roots h0 m).
  { intros m Hm e He. rewrite Hm by (cbn; lia). cbn. by rewrite Em. }
  apply wp_alloc_rootdomain.
  - intros x Hx. cbn in *. apply (fh_root _ Hf1) in Hx. lia.
  - intros m n Hm Hn Hout. apply wp_ret, HN; [done|]. unfold __free_domain_allocs. apply wp_bind, wp_ret. cbn in Hn.
    apply wp_bind, wp_free_percpu; cbn.
    { intros a [= <-]. by rewrite lookup_insert_eq. }
    assert (delete (kmalloc_next h1) (<[kmalloc_next h1:=fun _ => None]> (percpus h1)) = percpus h1) as Edel
      by (apply delete_insert_id; by apply (alloc_percpu_new (cpus_of cm) h0)).
    assert (forall X, X = with_roots h1 m (roots h0) n -> wp (__sdt_free cm) X (fun _ h => failed h0 h)) as Hx; [|apply Hx].
    + intros X ->. apply (Hundo h1 m n A1); [by apply Hold|lia|]. revert Hout. apply out_more; cbn; lia.
    + rewrite <- Er. unfold with_roots, with_percpu, setf. cbn. rewrite Edel. done.
  - intros m n c Hm Hn Hc. apply wp_ret, (HS m). exists h1, c, n. split_and!; try done; try (cbn in *; lia); [|by rewrite <- Er].
    intros e He. rewrite Hm by done. cbn. by rewrite Em.
Qed.
End visit.

