(* ===== verification/DomAttach.v ===== *)
(** cpu_attach_domain(): a chain of domains without those that do not contribute
    becomes the domains of a processor. *)

From S2P Require Import Prelude KList Sched Ras Rt RtSpec TaskGroupSpec RtBorrow RtBorrowSpec Affinity Smp RtSmp RtPush SmpSpec RtSmpSpec SmpMachine RtPushSpec Migrate MigrateSpec RootSpec Domains DomLogic.

Section attach.
Context {SK : SKTypes} {ST : SmpTypes} {STL : SmpTypesLaws} {CM : CpuMask} {CMS : CpuMasks} {CML : CpuMasksLaws} {SE : SmpEnv}
  {SL : SmpEnvLaws} {NL : KListLaws snode} {SC : SmpClasses} {OC : OtherClasses} {OH : OtherHooks} {RH : RuntimeHooks} {ME : MigrateEnv}
  {DM : DomMasks} {DE : DomEnv}.
Context (pushes : nat) (held : nat -> Z) (known : nat -> Prop).
Implicit Types (h : dom) (a b c t p : nat) (l : list nat) (child sd : option nat).

(** ** Chains in the heap *)

(** From [sd] along [parent] there are the domains [l], each the [child] of the
    next. *)
Fixpoint chain_of h child sd l : Prop :=
  match l with
  | [] => sd = None
  | a :: l => sd = Some a /\ exists d, sds h !! a = Some d /\ d_child d = child /\ chain_of h (Some a) (d_parent d) l
  end.
(** A domain apart from its links. *)
Definition unlinked (d : sdom) : sdom := d <| d_parent := None |> <| d_child := None |>.
(** Only the links of the domains [l] change, and callbacks [cbs] are added. *)
Record relinked l (cbs : list rcu_callback) h h' : Prop := {
  rl_eq : h' = h <| sds := sds h' |> <| rcu := rcu h ++ cbs |>;
  rl_out : forall a, a ∉ l -> sds h' !! a = sds h !! a;
  rl_in : forall a, unlinked <$> sds h' !! a = unlinked <$> sds h !! a }.

Lemma chain_frame h h' child sd l : (forall a, a ∈ l -> sds h' !! a = sds h !! a) -> chain_of h child sd l -> chain_of h' child sd l.
Proof.
  revert child sd. induction l as [|a l IH]; intros child sd Hf; [done|]. intros (-> & d & E & Hc & Hl). split; [done|].
  exists d. rewrite Hf by left. split_and!; [done..|]. apply IH; [|done]. intros b Hb. apply Hf. by right.
Qed.
Lemma relinked_refl l h : relinked l [] h h.
Proof. split; [|done|done]. rewrite app_nil_r. by destruct h. Qed.
Lemma relinked_trans l1 l2 cbs1 cbs2 h1 h2 h3 : l2 ⊆ l1 -> relinked l1 cbs1 h1 h2 -> relinked l2 cbs2 h2 h3 -> relinked l1 (cbs1 ++ cbs2) h1 h3.
Proof.
  intros Hs [E1 O1 I1] [E2 O2 I2]. split.
  - rewrite E2, E1. cbn. rewrite app_assoc. by destruct h1.
  - intros a Ha. rewrite O2 by (intros H; by apply Ha, Hs). by apply O1.
  - intros a. by rewrite I2.
Qed.
(** One write of a link. *)
Lemma relinked_write l a d d' h : a ∈ l -> sds h !! a = Some d -> unlinked d' = unlinked d -> relinked l [] h (h <| sds ::= <[a := d']> |>).
Proof.
  intros Ha E Hd. split.
  - rewrite app_nil_r. by destruct h.
  - intros b Hb. cbn. apply lookup_insert_ne. by intros ->.
  - intros b. cbn. destruct (decide (b = a)) as [->|Hne]; [by rewrite lookup_insert_eq, E; cbn; rewrite Hd|by rewrite lookup_insert_ne].
Qed.
Lemma relinked_call l cb h : relinked l [cb] h (h <| rcu ::= fun x => x ++ [cb] |>).
Proof. split; [|done|done]. by destruct h. Qed.
Lemma unlinked_same d d' : unlinked d = unlinked d' ->
  d_groups d = d_groups d' /\ d_flags d = d_flags d' /\ d_level d = d_level d' /\ d_span d = d_span d' /\ d_private d = d_private d' /\ d_weight d = d_weight d'.
Proof. destruct d, d'. cbn. by intros [=]. Qed.

(** ** Domains that do not contribute *)

(** All processors of the domain are in one group. *)
Definition single h (d : sdom) : bool :=
  match d_groups d with
  | None => false
  | Some g => match sgs h !! g with None => false | Some sg => bool_decide (g_next sg = Some g) end
  end.
(** It has no groups to balance between, and no flag that works without. *)
Definition idle_domain h (d : sdom) : bool :=
  (cpumask_weight (d_span d) =? 1) || negb (has_flag (d_flags d) SD_GROUPS && negb (single h d)) && negb (has_flag (d_flags d) SD_WAKE_AFFINE).
(** The flags that are of use, given the groups. *)
Definition useful h (d : sdom) : Z :=
  if single h d then
    let f := Z.ldiff (d_flags d) SD_GROUPS in if nr_node_ids =? 1 then Z.ldiff f SD_SERIALIZE else f
  else d_flags d.
(** [p] is of no use above [d]: it is idle, or has the processors of [d] and no
    other useful flag. *)
Definition adds_nothing h (d p : sdom) : bool :=
  idle_domain h p || cpumask_equal (d_span d) (d_span p) && negb (c_true (Z.land (Z.lnot (d_flags d)) (useful h p))).

Definition degenerate h a : bool := match sds h !! a with Some d => idle_domain h d | None => false end.
Definition redundant h a b : bool := match sds h !! a, sds h !! b with Some d, Some p => adds_nothing h d p | _, _ => false end.
Definition grouped h a : Prop := exists d g sg, sds h !! a = Some d /\ d_groups d = Some g /\ sgs h !! g = Some sg.

(** All that matters of a domain: the domain without its links, and its group. *)
Definition same_group h h' (d : sdom) : Prop := forall g, d_groups d = Some g -> sgs h' !! g = sgs h !! g.
Definition alike h h' a : Prop := unlinked <$> sds h' !! a = unlinked <$> sds h !! a /\ forall d, sds h !! a = Some d -> same_group h h' d.
Lemma single_unlinked h h' d d' : same_group h h' d' -> unlinked d = unlinked d' -> single h' d = single h d'.
Proof.
  intros Es (E & _)%unlinked_same. unfold single. rewrite E. destruct (d_groups d') as [g|] eqn:Eg; [|done]. by rewrite (Es g).
Qed.
Lemma idle_unlinked h h' d d' : same_group h h' d' -> unlinked d = unlinked d' -> idle_domain h' d = idle_domain h d'.
Proof.
  intros Es E. unfold idle_domain. rewrite (single_unlinked h h' d d') by done. by apply unlinked_same in E as (_ & -> & _ & -> & _).
Qed.
Lemma adds_unlinked h h' (d d' p p' : sdom) : same_group h h' p' -> unlinked d = unlinked d' -> unlinked p = unlinked p' -> adds_nothing h' d p = adds_nothing h d' p'.
Proof.
  intros Es Hd Hp. unfold adds_nothing, useful. rewrite (idle_unlinked h h' p p'), (single_unlinked h h' p p') by done.
  apply unlinked_same in Hd as (_ & -> & _ & -> & _), Hp as (_ & -> & _ & -> & _). done.
Qed.
Lemma degenerate_alike h h' a : alike h h' a -> degenerate h' a = degenerate h a.
Proof.
  intros [Ha Hg]. unfold degenerate. destruct (sds h' !! a) as [d|], (sds h !! a) as [d'|]; cbn in Ha; try done. apply (inj Some) in Ha.
  apply idle_unlinked; auto.
Qed.
Lemma redundant_alike h h' a b : alike h h' a -> alike h h' b -> redundant h' a b = redundant h a b.
Proof.
  intros [Ha _] [Hb Hg]. unfold redundant.
  destruct (sds h' !! a) as [d|], (sds h !! a) as [d'|], (sds h' !! b) as [p|], (sds h !! b) as [p'|]; cbn in Ha, Hb; try done.
  apply (inj Some) in Ha. apply (inj Some) in Hb. apply adds_unlinked; auto.
Qed.
Lemma relinked_sgs l cbs h h' : relinked l cbs h h' -> sgs h' = sgs h.
Proof. intros [E _ _]. by rewrite E. Qed.
(** Groups are the same, and domains apart from their links. *)
Record similar h h' : Prop := {
  sm_sgs : sgs h' = sgs h;
  sm_sds : forall a, unlinked <$> sds h' !! a = unlinked <$> sds h !! a }.
#[export] Instance similar_pre : PreOrder similar.
Proof. split; [by split|]. intros h1 h2 h3 [G1 D1] [G2 D2]. split; [congruence|]. intros a. by rewrite D2. Qed.
Lemma similar_sym h h' : similar h h' -> similar h' h.
Proof. intros [G D]. by split. Qed.
Lemma relinked_similar l cbs h h' : relinked l cbs h h' -> similar h h'.
Proof. intros R. split; [by eapply relinked_sgs|apply R]. Qed.
Lemma similar_alike h h' a : similar h h' -> alike h h' a.
Proof. intros [Eg H]. split; [done|]. intros d _ g _. by rewrite Eg. Qed.
Lemma all_alike h h' l : similar h h' -> Forall (alike h h') l.
Proof. intros R. apply Forall_forall. intros a _. by apply similar_alike. Qed.
Lemma degenerate_similar h h' a : similar h h' -> degenerate h' a = degenerate h a.
Proof. intros R. by apply degenerate_alike, similar_alike. Qed.
Lemma grouped_similar h h' a : similar h h' -> grouped h a -> grouped h' a.
Proof.
  intros [Eg H] (d & g & sg & E1 & E2 & E3). specialize (H a). rewrite E1 in H.
  destruct (sds h' !! a) as [d'|] eqn:E; [|done]. cbn in H. apply (inj Some) in H. apply unlinked_same in H as (Ed & _).
  exists d', g, sg. by rewrite Ed, Eg.
Qed.

(** sd_degenerate() and sd_parent_degenerate() tell this. *)
Lemma wp_one_group h d g sg (Q : bool -> dom -> Prop) : d_groups d = Some g -> sgs h !! g = Some sg -> Q (single h d) h -> wp (one_group d) h Q.
Proof.
  intros E1 E2 H. unfold one_group, single in *. rewrite E1, E2 in *. apply wp_bind, wp_deref, wp_bind. by apply (wp_sg_at g sg).
Qed.
Lemma wp_degenerate h a (Q : bool -> dom -> Prop) : grouped h a -> Q (degenerate h a) h -> wp (sd_degenerate a) h Q.
Proof.
  intros (d & g & sg & E1 & E2 & E3) H. unfold sd_degenerate, degenerate in *. apply wp_bind, (wp_sd_at a d); [done|].
  rewrite E1 in H. unfold idle_domain in H. destruct (cpumask_weight (d_span d) =? 1); [done|]. apply wp_bind. cbn [orb] in H.
  destruct (has_flag (d_flags d) SD_GROUPS); cbn [andb negb] in H.
  - apply wp_bind, (wp_one_group h d g sg); [done..|]. apply wp_ret. destruct (single h d); cbn in *; [|done].
    by destruct (has_flag _ _).
  - apply wp_ret. by destruct (has_flag _ _).
Qed.
Lemma wp_parent_degenerate h a b (Q : bool -> dom -> Prop) : grouped h a -> grouped h b -> Q (redundant h a b) h -> wp (sd_parent_degenerate a b) h Q.
Proof.
  intros (d & _ & _ & E & _) Hb H. unfold sd_parent_degenerate. apply wp_bind, (wp_sd_at a d); [done|].
  pose proof Hb as (p & g & sg & E1 & E2 & E3). apply wp_bind, (wp_sd_at b p); [done|]. apply wp_bind, wp_degenerate; [done|].
  unfold redundant in H. rewrite E, E1 in H. unfold degenerate. rewrite E1. unfold adds_nothing in H.
  destruct (idle_domain h p); [done|]. cbn [orb] in H. destruct (cpumask_equal (d_span d) (d_span p)); [|done]. cbn [negb andb] in *.
  apply wp_bind, (wp_one_group h p g sg); [done..|]. unfold useful in H. by destruct (single h p); destruct (c_true _).
Qed.

(** ** Pruning *)

(** What stays above [t], and what goes. *)
Fixpoint kept h t l : list nat :=
  match l with
  | [] => [t]
  | p :: l => if redundant h t p then kept h t l else t :: kept h p l
  end.
Fixpoint dropped h t l : list nat :=
  match l with
  | [] => []
  | p :: l => if redundant h t p then p :: dropped h t l else dropped h p l
  end.
Lemma kept_head h t l : exists k, kept h t l = t :: k.
Proof. induction l as [|p l IH]; cbn; [by exists []|]. destruct (redundant h t p); [done|by eexists]. Qed.
Lemma kept_dropped h t l : kept h t l ++ dropped h t l ≡ₚ t :: l.
Proof.
  revert t. induction l as [|p l IH]; intros t; cbn [kept dropped]; [done|]. destruct (redundant h t p).
  - rewrite <- Permutation_middle, IH. apply perm_swap.
  - cbn. by rewrite IH.
Qed.
Lemma kept_alike h h' t l : Forall (alike h h') (t :: l) -> kept h' t l = kept h t l /\ dropped h' t l = dropped h t l.
Proof.
  revert t. induction l as [|p l IH]; intros t Hl; cbn [kept dropped]; [done|].
  apply Forall_cons in Hl as [Ht [Hp Hl]%Forall_cons]. rewrite (redundant_alike h h' t p) by done.
  destruct (IH t) as [-> ->]; [by constructor|]. destruct (IH p) as [-> ->]; [by constructor|done].
Qed.
(** Two domains in a row that are left contribute. *)
Fixpoint contributing h l : Prop :=
  match l with
  | a :: ((b :: _) as l) => redundant h a b = false /\ contributing h l
  | _ => True
  end.
Lemma kept_contributing h t l : contributing h (kept h t l).
Proof.
  revert t. induction l as [|p l IH]; intros t; cbn [kept]; [done|]. destruct (redundant h t p) eqn:E; [done|].
  specialize (IH p). destruct (kept_head h p l) as [k Ek]. rewrite Ek in *. by split.
Qed.
(** A degenerate domain adds nothing to any other. *)
Lemma contributing_above h a l : contributing h (a :: l) -> (forall b, b ∈ a :: l -> is_Some (sds h !! b)) -> Forall (fun b => degenerate h b = false) l.
Proof.
  revert a. induction l as [|b l IH]; intros a Hc Hl; [done|]. destruct Hc as [H1 H2]. constructor.
  - destruct (Hl a) as [d Ed]; [by left|]. destruct (Hl b) as [p Ep]; [by right; left|].
    unfold redundant in H1. rewrite Ed, Ep in H1. unfold degenerate. rewrite Ep. unfold adds_nothing in H1.
    by apply orb_false_iff in H1 as [? _].
  - apply (IH b); [done|]. intros x Hx. apply Hl. by right.
Qed.

Lemma chain_nodup_write h a d d' child sd l : a ∉ l -> chain_of h child sd l -> sds h !! a = Some d -> chain_of (h <| sds ::= <[a := d']> |>) child sd l.
Proof. intros Ha Hc _. apply (chain_frame h); [|done]. intros b Hb. cbn. apply lookup_insert_ne. by intros ->. Qed.

(** Unlinking the parent of [t]. *)
Lemma wp_unlink h child t p l (k : M unit) (Q : unit -> dom -> Prop) : chain_of h child (Some t) (t :: p :: l) -> NoDup (t :: p :: l) ->
  (forall h', relinked (t :: p :: l) [FreeSchedDomain p] h h' -> chain_of h' child (Some t) (t :: l) -> wp k h' Q) ->
  wp (p' ← sd_at p; upd_sd t (fun d => d <| d_parent := d_parent p' |>) ;;
      match d_parent p' with None => mret tt | Some pp => upd_sd pp (fun d => d <| d_child := Some t |>) end ;;
      destroy_sched_domain p ;; k) h Q.
Proof.
  intros (_ & d & Et & Hcd & (Htp & dp & Ep & Hcp & Hl)) [Ht [Hp Hnd]%NoDup_cons]%NoDup_cons HQ.
  apply wp_bind, (wp_sd_at p dp); [done|]. apply wp_bind, (wp_upd_sd t d); [done|].
  set (h1 := h <| sds ::= <[t := d <| d_parent := d_parent dp |>]> |>).
  assert (relinked (t :: p :: l) [] h h1) as R1 by (apply (relinked_write _ t d); [left|done|done]).
  assert (chain_of h1 (Some p) (d_parent dp) l) as H1 by (apply (chain_nodup_write _ _ d); [set_solver|done|done]).
  assert (sds h1 !! t = Some (d <| d_parent := d_parent dp |>)) as E1 by (cbn; by rewrite lookup_insert_eq).
  assert (Hend : forall h2, relinked (t :: p :: l) [] h1 h2 -> chain_of h2 child (Some t) (t :: l) ->
    wp (destroy_sched_domain p ;; k) h2 Q).
  { intros h2 R2 C2. apply wp_bind, wp_modify, HQ; [|by apply (chain_frame h2)].
    apply (relinked_trans _ (t :: p :: l) [] [_] _ h2); [done|by apply (relinked_trans _ (t :: p :: l) [] [] _ h1)|apply relinked_call]. }
  destruct l as [|pp l]; [cbn in H1; rewrite H1; apply wp_bind, wp_ret; apply Hend; [apply relinked_refl|]|].
  - split; [done|]. exists (d <| d_parent := d_parent dp |>). split_and!; [done|done|]. cbn. done.
  - destruct H1 as (Epp & e & Ee & _ & Hl1). rewrite Epp. apply wp_bind, (wp_upd_sd pp e); [done|]. apply Hend.
    + apply (relinked_write _ pp e); [by right; right; left|done|done].
    + assert (t <> pp) as Hne by set_solver. split; [done|]. exists (d <| d_parent := d_parent dp |>). split_and!; [|done|].
      { cbn. rewrite lookup_insert_ne by done. by rewrite lookup_insert_eq. }
      split; [cbn; done|]. exists (e <| d_child := Some t |>). split_and!; [cbn; by rewrite lookup_insert_eq|done|].
      apply (chain_nodup_write _ _ e); [by apply NoDup_cons in Hnd as [? _]|done|done].
Qed.

(** The loop of cpu_attach_domain(). *)
Lemma wp_prune fuel h child t l (Q : unit -> dom -> Prop) : chain_of h child (Some t) (t :: l) -> NoDup (t :: l) -> Forall (grouped h) (t :: l) ->
  (length l <= fuel)%nat ->
  (forall h', relinked (t :: l) (FreeSchedDomain <$> dropped h t l) h h' -> chain_of h' child (Some t) (kept h t l) -> Q tt h') ->
  wp (prune_parents fuel (Some t)) h Q.
Proof.
  revert h child t l Q. induction fuel as [|fuel IH]; intros h child t l Q Hc Hnd Hg Hf HQ;
    pose proof Hc as (_ & d & Et & Hcd & Hl); (destruct l as [|p l]; [|try (cbn in Hf; lia)]).
  1,2: apply wp_bind, (wp_sd_at t d); [done|]; cbn in Hl; rewrite Hl; apply wp_ret, HQ; [apply relinked_refl|done].
  pose proof Hl as (Hp & dp & Ep & Hcp & Hl'). cbn [prune_parents]. apply wp_bind, (wp_sd_at t d); [done|]. rewrite Hp.
  pose proof (Forall_inv Hg) as Hgt. pose proof (Forall_inv (Forall_inv_tail Hg)) as Hgp.
  apply wp_bind, wp_parent_degenerate; [done..|]. cbn [kept dropped] in HQ. destruct (redundant h t p) eqn:Er.
  - apply (wp_unlink h child t p l); [done|done|]. intros h1 R1 C1.
    destruct (kept_alike h h1 t l (all_alike _ _ _ (relinked_similar _ _ _ _ R1))) as [Ek Ed]. apply (IH h1 child t l); [done| |..].
    + apply NoDup_cons in Hnd as [H1 [H2 H3]%NoDup_cons]. constructor; [set_solver|done].
    + eapply Forall_impl; [constructor; [exact Hgt|exact (Forall_inv_tail (Forall_inv_tail Hg))]|]. intros y. by apply (grouped_similar h h1), (relinked_similar _ _ _ _ R1).
    + cbn in Hf. lia.
    + rewrite Ek, Ed. intros h' R C. apply HQ; [|done]. rewrite fmap_cons.
      apply (relinked_trans _ (t :: l) [FreeSchedDomain p] _ _ h1); [set_solver|done|done].
  - apply (IH h (Some t) p l); [split; [done|by exists dp]|by apply NoDup_cons in Hnd as [_ ?]|by inversion Hg|cbn in Hf; lia|].
    intros h' R C. apply HQ.
    + apply (relinked_trans _ (p :: l) [] _ _ h); [set_solver|apply relinked_refl|done].
    + destruct (kept_head h p l) as [k Ek]. split; [done|]. exists d.
      rewrite (rl_out _ _ _ _ R) by (by apply NoDup_cons in Hnd as [? _]). split_and!; [done|done|].
      rewrite Hp. done.
Qed.

(** The domains that become those of the processor, and those that are freed. *)
Definition survivors h l : list nat := match l with [] => [] | t :: l => if degenerate h t then tail (kept h t l) else kept h t l end.
Definition removed h l : list nat := match l with [] => [] | t :: l => dropped h t l ++ (if degenerate h t then [t] else []) end.
Lemma survivors_removed h l : survivors h l ++ removed h l ≡ₚ l.
Proof.
  destruct l as [|t l]; [done|]. cbn [survivors removed]. pose proof (kept_dropped h t l) as H. destruct (kept_head h t l) as [k Ek].
  rewrite Ek in *. destruct (degenerate h t); cbn [tail]; [|by rewrite app_nil_r].
  rewrite <- H, app_assoc. symmetry. apply Permutation_cons_append.
Qed.
Lemma survivors_length h l : (length (survivors h l) <= length l)%nat.
Proof. rewrite <- (Permutation_length (survivors_removed h l)), length_app. lia. Qed.
Lemma survivors_in h l a : a ∈ survivors h l -> a ∈ l.
Proof. intros Ha. rewrite <- (survivors_removed h l). apply elem_of_app. by left. Qed.
Lemma survivors_contributing h l : contributing h (survivors h l).
Proof.
  destruct l as [|t l]; [done|]. cbn [survivors]. pose proof (kept_contributing h t l) as Hc. destruct (degenerate h t); [|done].
  destruct (kept_head h t l) as [k Ek]. rewrite Ek in *. cbn [tail]. destruct k as [|b k]; [done|]. by destruct Hc.
Qed.
Lemma survivors_fit h l : Forall (grouped h) l -> Forall (fun a => degenerate h a = false) (survivors h l).
Proof.
  destruct l as [|t l]; [done|]. intros Hg. cbn [survivors]. destruct (kept_head h t l) as [k Ek].
  assert (Forall (fun b => degenerate h b = false) k) as Hk.
  { apply (contributing_above h t); [rewrite <- Ek; apply kept_contributing|]. intros b Hb. rewrite Forall_forall in Hg.
    destruct (Hg b) as (d & _ & _ & E & _); [|by exists d]. rewrite <- (kept_dropped h t l), Ek. apply elem_of_app. by left. }
  rewrite Ek. cbn [tail]. destruct (degenerate h t) eqn:E; [done|]. by constructor.
Qed.
Lemma contributing_alike h h' l : Forall (alike h h') l -> contributing h l -> contributing h' l.
Proof.
  induction l as [|a [|b l] IH]; [done|done|]. intros [Ha Hl]%Forall_cons [H1 H2]. pose proof (Forall_inv Hl) as Hb.
  split; [by rewrite (redundant_alike h h')|by apply IH].
Qed.
Lemma survivors_alike h h' l : Forall (alike h h') l -> survivors h' l = survivors h l /\ removed h' l = removed h l.
Proof.
  intros R. destruct l as [|t l]; [done|]. unfold survivors, removed. destruct (kept_alike h h' t l R) as [-> ->].
  by rewrite (degenerate_alike h h' t (Forall_inv R)).
Qed.

Lemma wp_prune_base h sd l (k : list nat) (Q : option nat -> dom -> Prop) : chain_of h None sd k -> NoDup k -> k ⊆ l -> Forall (grouped h) k ->
  (forall h', relinked l (match k with t :: _ => if degenerate h t then [FreeSchedDomain t] else [] | [] => [] end) h h' ->
     let k' := match k with t :: k' => if degenerate h t then k' else k | [] => [] end in chain_of h' None (head k') k' -> Q (head k') h') ->
  wp (prune_base sd) h Q.
Proof.
  destruct k as [|t k]; intros Hc Hnd Hs Hg HQ.
  { cbn in Hc. subst sd. apply wp_ret, (HQ h); [apply relinked_refl|done]. }
  destruct Hc as (-> & d & Et & Hcd & Hk). cbn [prune_base]. apply wp_bind, wp_degenerate; [by apply Forall_inv in Hg|].
  destruct (degenerate h t); [|apply wp_ret, (HQ h); [apply relinked_refl|by split; [|exists d]]].
  apply wp_bind, (wp_sd_at t d); [done|]. apply wp_bind, wp_modify. set (h1 := h <| rcu ::= _ |>).
  assert (relinked l [FreeSchedDomain t] h h1) as R1 by apply relinked_call.
  destruct k as [|p k]; [cbn in Hk; rewrite Hk; by apply wp_ret, HQ|].
  destruct Hk as (Hp & dp & Ep & _ & Hk). rewrite Hp. apply wp_bind, (wp_upd_sd p dp); [done|]. apply wp_ret, HQ.
  - apply (relinked_trans _ l [FreeSchedDomain t] [] _ h1); [done|done|]. apply (relinked_write _ p dp); [apply Hs; right; left|done|done].
  - cbn. split; [done|]. exists (dp <| d_child := None |>). split_and!; [by rewrite lookup_insert_eq|done|].
    apply (chain_frame h); [|done]. intros a Ha. cbn. apply lookup_insert_ne. apply NoDup_cons in Hnd as [_ [Hnd _]%NoDup_cons]. by intros ->.
Qed.
Lemma wp_prune_all n h sd l (k : option nat -> M unit) (Q : unit -> dom -> Prop) : chain_of h None sd l -> NoDup l -> Forall (grouped h) l -> (length l <= n)%nat ->
  (forall h', relinked l (FreeSchedDomain <$> removed h l) h h' -> chain_of h' None (head (survivors h l)) (survivors h l) ->
     wp (k (head (survivors h l))) h' Q) ->
  wp (prune_parents n sd ;; sd ← prune_base sd; k sd) h Q.
Proof.
  destruct l as [|t l]; intros Hc Hnd Hg Hn HQ.
  { cbn in Hc. subst sd. apply wp_bind. assert (prune_parents n None = mret tt) as -> by by destruct n. apply wp_ret, wp_bind, wp_ret.
    apply (HQ h); [apply relinked_refl|done]. }
  pose proof Hc as (-> & _). apply wp_bind, (wp_prune n h None t l); [done..|cbn in Hn; lia|]. intros h1 R1 C1. cbn [survivors removed] in HQ.
  destruct (kept_head h t l) as [k' Ek]. rewrite Ek in *. pose proof (kept_dropped h t l) as Hperm. rewrite Ek in Hperm.
  assert (forall a, a ∈ t :: k' -> a ∈ t :: l) as Hin by (intros a Ha; rewrite <- Hperm; apply elem_of_app; by left).
  apply wp_bind, (wp_prune_base h1 (Some t) (t :: l) (t :: k')); [done| |done| |].
  - rewrite <- Hperm in Hnd. by apply NoDup_app in Hnd as [? _].
  - apply Forall_forall. intros a Ha. apply (grouped_similar h h1); [by apply (relinked_similar _ _ _ _ R1)|]. rewrite Forall_forall in Hg. by apply Hg, Hin.
  - rewrite (degenerate_similar h h1 t (relinked_similar _ _ _ _ R1)). intros h2 R2. cbv zeta. intros C2. destruct (degenerate h t); cbn [tail head] in *.
    + apply (HQ h2); [|done]. rewrite fmap_app. by apply (relinked_trans _ (t :: l) _ [FreeSchedDomain t] _ h1).
    + apply (HQ h2); [|done]. rewrite app_nil_r. rewrite <- (app_nil_r (FreeSchedDomain <$> _)). by apply (relinked_trans _ (t :: l) _ [] _ h1).
Qed.

(** destroy_sched_domains() *)
Lemma wp_destroy n h child sd l (Q : unit -> dom -> Prop) : chain_of h child sd l -> (length l <= n)%nat ->
  Q tt (h <| rcu ::= fun x => x ++ (FreeSchedDomain <$> l) |>) -> wp (destroy_loop n sd) h Q.
Proof.
  revert n h child sd. induction l as [|a l IH]; intros n h child sd Hc Hn HQ.
  - cbn in Hc. subst sd. destruct n; apply wp_ret; revert HQ; cbn; rewrite app_nil_r; by destruct h.
  - destruct Hc as (-> & d & E & _ & Hl). destruct n as [|n]; [cbn in Hn; lia|]. cbn [destroy_loop]. apply wp_bind, wp_modify.
    apply wp_bind, (wp_sd_at a d); [done|]. apply (IH n _ (Some a)); [by apply (chain_frame h)|cbn in Hn; lia|].
    revert HQ. cbn. rewrite <- app_assoc. done.
Qed.

(** ** What the machine sees of the domains *)

Definition domain_view h a : sched_domain :=
  match sds h !! a with
  | Some d => mkSd (d_flags d) (Z.to_nat (d_level d)) (d_span d) (match d_groups d with None => [] | Some g => ring_masks nr_cpus h g (Some g) end) 0
  | None => mkSd 0 0 0 [] 0
  end.
Lemma chain_view_eq n h child sd l : chain_of h child sd l -> (length l <= n)%nat -> chain_view n h sd = domain_view h <$> l.
Proof.
  revert n child sd. induction l as [|a l IH]; intros n child sd Hc Hn.
  - cbn in Hc. subst sd. by destruct n.
  - destruct Hc as (-> & d & E & _ & Hl). destruct n as [|n]; [cbn in Hn; lia|]. cbn [chain_view]. rewrite E, fmap_cons.
    rewrite (IH n (Some a)); [|done|cbn in Hn; lia]. f_equal. unfold domain_view. by rewrite E.
Qed.

(** The highest domain of those whose processors share a cache. *)
Definition shares_cache h a : bool := match sds h !! a with Some d => has_flag (d_flags d) SD_SHARE_PKG_RESOURCES | None => false end.
Definition cache_domain h l (top : option nat) : Prop :=
  exists l1 l2, l = l1 ++ l2 /\ Forall (fun a => shares_cache h a = true) l1 /\ (forall a, head l2 = Some a -> shares_cache h a = false) /\ top = last l1.
Lemma wp_highest n h child sd l top (Q : option nat -> dom -> Prop) : chain_of h child sd l -> (length l <= n)%nat ->
  (forall l1 l2, l = l1 ++ l2 -> Forall (fun a => shares_cache h a = true) l1 -> (forall a, head l2 = Some a -> shares_cache h a = false) ->
     Q (match last l1 with Some a => Some a | None => top end) h) -> wp (highest_flag_loop n sd SD_SHARE_PKG_RESOURCES top) h Q.
Proof.
  revert n child sd top Q. induction l as [|a l IH]; intros n child sd top Q Hc Hn HQ.
  - cbn in Hc. subst sd. apply (wp_mono _ _ (fun r h' => r = top /\ h' = h)); [by destruct n; apply wp_ret|]. intros ? ? [-> ->]. by apply (HQ [] []).
  - destruct Hc as (-> & d & E & _ & Hl). destruct n as [|n]; [cbn in Hn; lia|]. cbn [highest_flag_loop]. apply wp_bind, (wp_sd_at a d); [done|].
    destruct (has_flag (d_flags d) SD_SHARE_PKG_RESOURCES) eqn:Ef; cbn [negb].
    + apply (IH n (Some a)); [done|cbn in Hn; lia|]. intros l1 l2 -> H1 H2. specialize (HQ (a :: l1) l2). rewrite last_cons in HQ.
      assert (Forall (fun x => shares_cache h x = true) (a :: l1)) as H by (constructor; [unfold shares_cache; by rewrite E|done]).
      destruct (last l1); by apply HQ.
    + apply wp_ret. apply (HQ [] (a :: l)); [done|done|]. intros b [= <-]. unfold shares_cache. by rewrite E.
Qed.
Lemma highest_view h l1 l2 top : Forall (fun a => shares_cache h a = true) l1 -> (forall a, head l2 = Some a -> shares_cache h a = false) ->
  (forall a, a ∈ l1 ++ l2 -> is_Some (sds h !! a)) ->
  highest_flag (domain_view h <$> l1 ++ l2) SD_SHARE_PKG_RESOURCES top = match last l1 with Some a => Some (domain_view h a) | None => top end.
Proof.
  revert top. induction l1 as [|a l1 IH]; intros top H1 H2 Hl.
  - destruct l2 as [|b l2]; [done|]. cbn. specialize (H2 b eq_refl). destruct (Hl b) as [d Ed]; [by left|].
    unfold shares_cache in H2. unfold domain_view at 1. rewrite Ed in *. cbn. by rewrite H2.
  - apply Forall_cons in H1 as [Ha H1]. destruct (Hl a) as [d Ed]; [by left|]. cbn [app fmap list_fmap highest_flag].
    assert (has_flag (sd_flags (domain_view h a)) SD_SHARE_PKG_RESOURCES = true) as ->.
    { unfold shares_cache in Ha. unfold domain_view. rewrite Ed in *. done. }
    cbn [negb]. rewrite IH; [|done|done|intros x Hx; apply Hl; by right]. rewrite last_cons. by destruct (last l1).
Qed.

(** ** Attaching *)

(** The machine does not depend on what it is told of the domains. *)
Lemma smp_sd qs c (v : list sched_domain) (s : smp) : smp_inv qs s -> smp_inv qs (upd_cpu c (fun r => r <| rq_sd := v |>) s).
Proof.
  intros [[[[A1 A2 A3 A4] A5] M2 M3 M4 M5] H2 H3 H4]. set (s1 := upd_cpu c _ s).
  assert (forall d, crq s1 d = crq s d /\ crt s1 d = crt s d /\ crts s1 d = crts s d) as He.
  { intros d. unfold s1, crq, crt, crts, upd_cpu. cbn. by destruct (Nat.eqb_spec d c) as [->|]. }
  assert (forall d, cpu_curr s1 d = cpu_curr s d) as Hcur by (intros d; unfold cpu_curr; by destruct (He d) as (-> & _)).
  split; [split; [split; [split|]|..]|..]; try done.
  - intros d Hc. destruct (He d) as (_ & Hr & Hs). apply (cpu_array_same _ s); [done|by rewrite Hr|done|by apply A3].
  - apply (rd_ok_same s); [|done|done]. intros d x. unfold over_in, crts, s1, upd_cpu. cbn. by destruct (Nat.eqb_spec x c) as [->|].
  - intros d Hc. destruct (He d) as (_ & _ & Hs). apply (push_cpu_same (eligible qs s d) _ s s1); [|done|by rewrite Hs..|by apply A5].
    intros x. unfold eligible. by rewrite Hcur.
  - intros d Hc. destruct (He d) as (-> & _). by apply M5.
  - intros d Hc. rewrite Hcur. by apply H3.
Qed.
Lemma smp_llc qs (f : (nat -> nat) -> nat -> nat) (s : smp) : smp_inv qs s -> smp_inv qs (s <| sd_llc_id ::= f |>).
Proof. apply smp_calm; done. Qed.
Lemma root_sd D c (v : list sched_domain) (s : smp) : root_inv held known D s -> root_inv held known D (upd_cpu c (fun r => r <| rq_sd := v |>) s).
Proof.
  intros [I1 I2 I3 I4 I5 I6 I7 I8 I9 I10 I11]. set (s1 := upd_cpu c _ s).
  assert (forall d, rq_rd (cpus s1 d) = rq_rd (cpus s d) /\ rq_online (cpus s1 d) = rq_online (cpus s d) /\ crt s1 d = crt s d) as He.
  { intros d. unfold s1, crt, upd_cpu. cbn. by destruct (Nat.eqb_spec d c) as [->|]. }
  split; try done.
  - intros d Hd. destruct (He d) as (_ & _ & ->). by apply I4.
  - intros d Hd. destruct (He d) as (-> & _). by apply I5.
  - intros d x Hd Hx. destruct (He x) as (-> & _). by apply I6.
  - intros d x Hd Hx. destruct (He x) as (-> & -> & _). by apply I7.
  - intros d Hd. rewrite (members_same d s s1) by apply He. by apply I8.
  - intros d Hd. apply (fair_same d s); [done|done|intros i _; by destruct (He i) as (_ & _ & ->)|by apply I10].
  - intros x Hk Hx. destruct (He x) as (_ & -> & Et). unfold down. rewrite Et. by apply I11.
Qed.
Lemma root_llc D (f : (nat -> nat) -> nat -> nat) (s : smp) : root_inv held known D s -> root_inv held known D (s <| sd_llc_id ::= f |>).
Proof. intros [I1 I2 I3 I4 I5 I6 I7 I8 I9 I10 I11]. by split. Qed.

Lemma view_similar h h' a : similar h h' -> domain_view h' a = domain_view h a.
Proof.
  intros [Es Ha]. specialize (Ha a). unfold domain_view.
  assert (forall n g x, ring_masks n h' g x = ring_masks n h g x) as Er.
  { induction n as [|n IH]; intros g x; [done|]. cbn. destruct x as [x|]; [|done]. rewrite Es. destruct (sgs h !! x); [|done]. by rewrite IH. }
  destruct (sds h' !! a) as [d|], (sds h !! a) as [d'|]; cbn in Ha; try done. apply (inj Some), unlinked_same in Ha as (-> & -> & -> & -> & _).
  case_match; [|done]. by rewrite Er.
Qed.
Lemma view_same h h' a : sds h' = sds h -> sgs h' = sgs h -> domain_view h' a = domain_view h a.
Proof. intros Ed Es. apply view_similar. split; [done|]. by rewrite Ed. Qed.
(** Writes elsewhere. *)
Lemma chain_same h h' child sd l : sds h' = sds h -> chain_of h child sd l -> chain_of h' child sd l.
Proof. intros E. apply chain_frame. intros. by rewrite E. Qed.
Lemma cache_same h h' l top : sds h' = sds h -> cache_domain h l top -> cache_domain h' l top.
Proof.
  intros E (l1 & l2 & H). exists l1, l2. assert (forall a, shares_cache h' a = shares_cache h a) as Hs by (intros a; unfold shares_cache; by rewrite E).
  destruct H as (-> & H1 & H2 & ->). split_and!; try done.
  - eapply Forall_impl; [exact H1|]. intros a. by rewrite Hs.
  - intros a Ha. rewrite Hs. by apply H2.
Qed.
Lemma chain_live h child sd l a : chain_of h child sd l -> a ∈ l -> is_Some (sds h !! a).
Proof.
  revert child sd. induction l as [|b l IH]; intros child sd Hc Ha; [by apply not_elem_of_nil in Ha|]. destruct Hc as (_ & d & E & _ & Hl).
  apply elem_of_cons in Ha as [->|Ha]; [by exists d|]. by eapply IH.
Qed.

(** What cpu_attach_domain() leaves of the chain [l] of a processor whose domains
    were [old]: it frees [cb] besides the domains. *)
Record attached c l old (cb : list rcu_callback) h h' : Prop := {
  at_chain : chain_of h' None (rq_sdp h' c) (survivors h l);
  at_view : rq_sd (cpus (machine h') c) = domain_view h' <$> survivors h l;
  at_cache : cache_domain h' (survivors h l) (sd_llc h' c);
  at_llc : sd_llc_id (machine h') c = match sd_llc h' c with Some a => cpumask_first (sd_span (domain_view h' a)) | None => c end;
  at_others : forall i, i <> c -> rq_sdp h' i = rq_sdp h i /\ sd_llc h' i = sd_llc h i;
  at_rcu : rcu h' = rcu h ++ (FreeSchedDomain <$> removed h l) ++ cb ++ (FreeSchedDomain <$> old);
  at_out : forall a, a ∉ l -> sds h' !! a = sds h !! a;
  at_in : forall a, unlinked <$> sds h' !! a = unlinked <$> sds h !! a;
  at_rest : h' = h <| sds := sds h' |> <| rcu := rcu h' |> <| rq_sdp := rq_sdp h' |> <| sd_llc := sd_llc h' |> <| machine := machine h' |> }.

Lemma wp_top_cache h c l (Q : unit -> dom -> Prop) : chain_of h None (rq_sdp h c) l -> (length l <= length (topology h))%nat ->
  rq_sd (cpus (machine h) c) = domain_view h <$> l ->
  (forall top f, cache_domain h l top ->
     f (sd_llc_id (machine h)) c = match top with Some a => cpumask_first (sd_span (domain_view h a)) | None => c end ->
     Q tt (h <| sd_llc ::= fun m i => if (i =? c)%nat then top else m i |> <| machine ::= fun s => s <| sd_llc_id ::= f |> |>)) ->
  wp (Domains.update_top_cache_domain c) h Q.
Proof.
  intros Hc Hn Hv HQ. unfold Domains.update_top_cache_domain. apply wp_bind, wp_gets, wp_bind, wp_gets, wp_bind, (wp_highest _ _ None _ l); [done..|].
  intros l1 l2 El H1 H2. apply wp_bind, wp_modify, wp_modify. cbn.
  assert (match last l1 with Some a => Some a | None => None end = last l1) as -> by by destruct (last l1).
  unfold Migrate.update_top_cache_domain. apply HQ; [by exists l1, l2|]. rewrite Nat.eqb_refl. unfold highest_flag_domain.
  rewrite Hv, El, highest_view; [|done|done|intros a Ha; apply (chain_live _ _ _ _ _ Hc); by rewrite El].
  by destruct (last l1).
Qed.

(** The new chain [k] is published and the old one freed. *)
Lemma wp_publish h c sd k old (Q : unit -> dom -> Prop) : chain_of h None sd k -> (length k <= length (topology h))%nat ->
  chain_of h None (rq_sdp h c) old -> (length old <= length (topology h))%nat ->
  (forall top f, cache_domain h k top -> f (sd_llc_id (machine h)) c = match top with Some a => cpumask_first (sd_span (domain_view h a)) | None => c end ->
     Q tt (h <| machine ::= fun s => (upd_cpu c (fun r => r <| rq_sd := domain_view h <$> k |>) s) <| sd_llc_id ::= f |> |>
             <| rq_sdp ::= fun m i => if (i =? c)%nat then sd else m i |> <| sd_llc ::= fun m i => if (i =? c)%nat then top else m i |>
             <| rcu ::= fun x => x ++ (FreeSchedDomain <$> old) |>)) ->
  wp (tmp ← gets (fun h => rq_sdp h c); assign_sd c sd ;; destroy_sched_domains tmp ;; Domains.update_top_cache_domain c) h Q.
Proof.
  intros Hk Hkn Ho Hon HQ. apply wp_bind, wp_gets, wp_bind. unfold assign_sd. apply wp_bind, wp_modify.
  set (h1 := h <| rq_sdp ::= (fun m i => if (i =? c)%nat then sd else m i) |>). apply wp_bind, wp_gets, wp_modify.
  assert (chain_view (length (topology h1)) h1 sd = domain_view h <$> k) as ->.
  { rewrite (chain_view_eq _ _ None sd k) by (done || by apply (chain_same h)). apply list_fmap_ext. intros. by apply view_same. }
  set (h2 := h1 <| machine ::= upd_cpu c (fun r => r <| rq_sd := domain_view h <$> k |>) |>). unfold destroy_sched_domains.
  apply wp_bind, wp_bind, wp_gets, (wp_destroy _ _ None _ old); [by apply (chain_same h)|done|].
  set (h3 := h2 <| rcu ::= (fun x => x ++ (FreeSchedDomain <$> old)) |>). apply (wp_top_cache h3 c k).
  - cbn. rewrite Nat.eqb_refl. by apply (chain_same h).
  - done.
  - cbn. rewrite Nat.eqb_refl. cbn. apply list_fmap_ext. intros. symmetry. by apply view_same.
  - intros top f Htop Hf. cbn in Hf. apply HQ; [by apply (cache_same h3)|]. rewrite Hf. destruct top; [|done]. by rewrite (view_same h h3).
Qed.

Lemma attach_holds qs D c rd sd l old h : root_inv held known D (machine h) -> smp_inv qs (machine h) -> is_cpu c = true -> known c -> D rd ->
  chain_of h None sd l -> NoDup l -> Forall (grouped h) l -> (length l <= length (topology h))%nat ->
  chain_of h None (rq_sdp h c) old -> (length old <= length (topology h))%nat -> (forall a, a ∈ old -> a ∉ l) ->
  exists r, rq_rd (cpus (machine h) c) = Some r /\
  wp (cpu_attach_domain pushes sd rd c) h (fun _ h' =>
    attached c l old (if Z.of_nat (length (members_of r (machine h))) + held r =? 1 then [FreeRootdomain r] else []) h h' /\
    root_inv held known D (machine h') /\ smp_inv qs (machine h') /\ rq_rd (cpus (machine h') c) = Some rd /\
    c_true (rq_online (cpus (machine h') c)) = cpumask_test_cpu c (active_mask (machine h)) /\
    (forall x, x <> c -> rq_rd (cpus (machine h') x) = rq_rd (cpus (machine h) x) /\ rq_online (cpus (machine h') x) = rq_online (cpus (machine h) x) /\
       rq_sd (cpus (machine h') x) = rq_sd (cpus (machine h) x)) /\
    active_mask (machine h') = active_mask (machine h)).
Proof.
  intros Hr Hs Hc Hk Hrd Hl Hnd Hg Hn Ho Hno Hd.
  destruct (attach_root_holds pushes held known qs D c rd (machine h) Hr Hs Hc Hrd Hk) as (r & s' & Er & Ea & Hr' & Hs' & Erd & Eon & F).
  exists r. split; [done|]. unfold cpu_attach_domain. apply wp_bind, wp_gets, (wp_prune_all _ h sd l); [done..|]. intros h1 R C1.
  set (k := survivors h l) in *. assert (machine h1 = machine h /\ rq_sdp h1 = rq_sdp h /\ topology h1 = topology h /\ sd_llc h1 = sd_llc h) as (Em & Ep & Et & Ell)
    by (rewrite (rl_eq _ _ _ _ R); done).
  apply wp_bind. set (cb := if _ =? 1 then [FreeRootdomain r] else []).
  assert (attach_root pushes c rd h1 = Some (tt, h1 <| machine := s' |> <| rcu ::= fun x => x ++ cb |>)) as Eat.
  { unfold attach_root. rewrite Em, Ea. unfold cb. destruct (_ =? 1); [done|]. cbn. unfold setf. cbn. by rewrite app_nil_r. }
  unfold wp at 1. rewrite Eat. clear Eat. set (h2 := h1 <| machine := s' |> <| rcu ::= _ |>).
  assert (length k <= length (topology h))%nat as Hkn by (etrans; [apply survivors_length|done]).
  apply (wp_publish h2 c (head k) k old).
  - by apply (chain_same h1).
  - change (topology h2) with (topology h1). by rewrite Et.
  - change (rq_sdp h2) with (rq_sdp h1). rewrite Ep. apply (chain_same h1); [done|]. apply (chain_frame h); [|done].
    intros a Hao. by apply (rl_out _ _ _ _ R), Hd.
  - change (topology h2) with (topology h1). by rewrite Et.
  - intros top f Htop Hf. set (h' := h2 <| machine ::= _ |> <| rq_sdp ::= _ |> <| sd_llc ::= _ |> <| rcu ::= _ |>).
    assert (forall x, cpus (machine h') x = if (x =? c)%nat then (cpus s' c) <| rq_sd := domain_view h2 <$> k |> else cpus s' x) as Ex by done.
    assert (rq_sdp h' c = head k /\ sd_llc h' c = top) as [E1 E2] by (cbn; by rewrite Nat.eqb_refl).
    assert (sds h' = sds h1 /\ sgs h' = sgs h1) as [E3 E4] by done.
    assert (root_frame c (machine h) s') as [_ _ _ _ _ F6 _ F8 F9 (_ & F10 & _) _ _ _] by exact F.
    split_and!.
    + split; rewrite ?E1, ?E2; fold k.
      * by apply (chain_same h1).
      * rewrite Ex, Nat.eqb_refl. cbn. apply list_fmap_ext. intros. symmetry. by apply view_same.
      * by apply (cache_same h2).
      * change (sd_llc_id (machine h') c) with (f (sd_llc_id (machine h2)) c). rewrite Hf. destruct top; [|done]. by rewrite (view_same h2 h').
      * intros i Hi. cbn. by rewrite (proj2 (Nat.eqb_neq i c) Hi), Ep, Ell.
      * cbn. rewrite (rl_eq _ _ _ _ R). cbn. by rewrite <- !app_assoc.
      * apply (rl_out _ _ _ _ R).
      * apply (rl_in _ _ _ _ R).
      * unfold h', h2. rewrite (rl_eq _ _ _ _ R). cbn. by destruct h.
    + apply root_llc, root_sd, Hr'.
    + apply smp_llc, smp_sd, Hs'.
    + by rewrite Ex, Nat.eqb_refl.
    + by rewrite Ex, Nat.eqb_refl.
    + intros x Hx. rewrite Ex, (proj2 (Nat.eqb_neq x c) Hx). split_and!; auto.
    + exact F10.
Qed.

(** C10: cpu_attach_domain() makes a chain of domains that contribute the domains
    of a processor.  The processor's new chain has no degenerate domain, and no
    domain in it is redundant above its child; what was left out, and the chain it
    replaces, is handed to RCU to be freed, each domain once; the rest of the heap
    and the other processors' domains do not change.  The processor is in the given
    root domain, its old root domain is freed exactly if this was the last
    reference, and the machine sees exactly the new chain, with the last-level-cache
    domain and its identifier as the chain has them. *)
Theorem cpu_attach_domain_spec qs D c rd sd l old h : root_inv held known D (machine h) -> smp_inv qs (machine h) -> is_cpu c = true -> known c -> D rd ->
  chain_of h None sd l -> NoDup l -> Forall (grouped h) l -> (length l <= length (topology h))%nat ->
  chain_of h None (rq_sdp h c) old -> (length old <= length (topology h))%nat -> (forall a, a ∈ old -> a ∉ l) ->
  exists r h', rq_rd (cpus (machine h) c) = Some r /\ cpu_attach_domain pushes sd rd c h = Some (tt, h') /\
    attached c l old (if Z.of_nat (length (members_of r (machine h))) + held r =? 1 then [FreeRootdomain r] else []) h h' /\
    (survivors h l ++ removed h l ≡ₚ l) /\ Forall (fun a => degenerate h' a = false) (survivors h l) /\ contributing h' (survivors h l) /\
    root_inv held known D (machine h') /\ smp_inv qs (machine h') /\ rq_rd (cpus (machine h') c) = Some rd /\
    c_true (rq_online (cpus (machine h') c)) = cpumask_test_cpu c (active_mask (machine h)).
Proof.
  intros Hr Hs Hc Hk Hrd Hl Hnd Hg Hn Ho Hno Hd.
  destruct (attach_holds qs D c rd sd l old h Hr Hs Hc Hk Hrd Hl Hnd Hg Hn Ho Hno Hd) as (r & Er & Hw).
  apply wp_some in Hw as ([] & h' & E & A & H1 & H2 & H3 & H4 & _). exists r, h'.
  assert (similar h h') as R by (split; [by rewrite (at_rest _ _ _ _ _ _ A)|apply A]).
  split_and!; try done.
  - apply survivors_removed.
  - eapply Forall_impl; [by apply survivors_fit|]. cbn. intros a Ha. by rewrite (degenerate_similar h h').
  - apply (contributing_alike h h'), survivors_contributing. by apply all_alike.
Qed.
End attach.
