(* ===== verification/DomGroups.v ===== *)
(** build_sched_groups(): the groups of a domain are a ring that divides its span. *)

From Stdlib Require Import Sorted.
From S2P Require Import Prelude KList Sched Affinity Smp RtSmp RtPush SmpSpec RtBorrow RtBorrowSpec Migrate MigrateSpec RootSpec Domains DomLogic DomAlloc DomVisit.

Section groups.
Context {SK : SKTypes} {ST : SmpTypes} {CM : CpuMask} {CMS : CpuMasks} {CML : CpuMasksLaws} {DM : DomMasks} {DE : DomEnv} {DL : DomLaws}.
Implicit Types (h : dom) (a b c i j r : nat) (l : list nat) (k : kind).

(** ** Rings *)

(** Each group of the list is followed by the next. *)
Fixpoint linked h l : Prop :=
  match l with
  | a :: ((b :: _) as l) => (exists x, sgs h !! a = Some x /\ g_next x = Some b) /\ linked h l
  | _ => True
  end.
(** And the last by the first. *)
Definition ring h l : Prop := match l with [] => False | a :: _ => linked h (l ++ [a]) end.

Lemma linked_frame h h' l : (forall a, a ∈ removelast l -> g_next <$> sgs h' !! a = g_next <$> sgs h !! a) -> linked h l -> linked h' l.
Proof.
  induction l as [|a [|b l] IH]; intros Hf; [done|done|]. intros [(x & E & En) Hl]. split.
  - assert (g_next <$> sgs h' !! a = Some (Some b)) as Ha by (rewrite Hf by (by left); rewrite E; cbn; by rewrite En).
    apply fmap_Some in Ha as (y & Ey & Hy). by exists y.
  - apply IH; [|done]. intros c Hc. apply Hf. by right.
Qed.
Lemma linked_snoc h l a b x : linked h (l ++ [a]) -> sgs h !! a = Some x -> g_next x = Some b -> linked h ((l ++ [a]) ++ [b]).
Proof.
  intros Hl E En. induction l as [|c l IH]; [by split; [exists x|]|]. destruct l as [|d l].
  - destruct Hl as [H1 _]. split; [done|]. by split; [exists x|].
  - destruct Hl as [H1 H2]. split; [done|]. by apply IH.
Qed.

(** ** What a level holds *)

Lemma entry_some k h (t : nat) j a : entry k h t j = Some a ->
  exists lv p m, topology h !! t = Some lv /\ data_of k (tl_data lv) = Some p /\ percpus h !! p = Some m /\ m j = Some a.
Proof.
  unfold entry, slot, tab. intros E. destruct (topology h !! t) as [lv|]; [|done]. destruct (data_of k (tl_data lv)) as [p|] eqn:Ed; [|done].
  destruct (percpus h !! p) as [m|] eqn:Em; [|done]. by exists lv, p, m.
Qed.
Lemma wp_entry k h (t : nat) lv j a (Q : option nat -> dom -> Prop) : topology h !! t = Some lv -> entry k h t j = Some a -> Q (Some a) h ->
  wp (per_cpu_get (data_of k (tl_data lv)) j) h Q.
Proof.
  intros El (lv' & p & m & El' & Ed & Ep & Em)%entry_some HQ. assert (lv' = lv) as -> by congruence.
  rewrite Ed. apply (wp_per_cpu_get p m); [done|]. by rewrite Em.
Qed.

(** The processors of [S] have domains on the level [tl]; [g j] is the processor
    that stands for the group of [j], the first of the child of its domain or
    itself; [B] and [C] are the groups and the powers the level holds. *)
Context (tl : nat) (S : Z) (g B C : nat -> nat).
Record grouping h : Prop := {
  gr_cpu : forall j, j ∈ cpus_of S -> exists a d, entry KSd h tl j = Some a /\ sds h !! a = Some d /\
    match d_child d with Some c => exists dc, sds h !! c = Some dc /\ g j = cpumask_first (d_span dc) | None => g j = j end;
  gr_sg : forall j, j ∈ cpus_of S -> entry KSg h tl (g j) = Some (B (g j)) /\ is_Some (sgs h !! B (g j));
  gr_sgp : forall j, j ∈ cpus_of S -> entry KSgp h tl (g j) = Some (C (g j)) /\ is_Some (sgps h !! C (g j)) }.
(** Groups start at their first processor; each has its own objects. *)
Record heads_ok : Prop := {
  ho_in : forall j, j ∈ cpus_of S -> g j ∈ cpus_of S;
  ho_idem : forall j, j ∈ cpus_of S -> g (g j) = g j;
  ho_least : forall j, j ∈ cpus_of S -> (g j <= j)%nat;
  ho_B : forall i j, i ∈ cpus_of S -> j ∈ cpus_of S -> B (g i) = B (g j) -> g i = g j;
  ho_C : forall i j, i ∈ cpus_of S -> j ∈ cpus_of S -> C (g i) = C (g j) -> g i = g j }.
Context (HO : heads_ok).
Definition heads_of l : list nat := filter (fun j => g j = j) l.

Lemma heads_sub l j : j ∈ heads_of l <-> g j = j /\ j ∈ l.
Proof. unfold heads_of. by rewrite list_elem_of_filter. Qed.

(** Only groups, their powers and their references may have changed. *)
Record regrouped h h' : Prop := {
  rg_eq : h' = h <| sgs := sgs h' |> <| sgps := sgps h' |> <| sg_power := sg_power h' |>;
  rg_sg : forall a, (forall j, j ∈ cpus_of S -> a <> B (g j)) -> sgs h' !! a = sgs h !! a;
  rg_sgp : forall a, (forall j, j ∈ cpus_of S -> a <> C (g j)) -> sgps h' !! a = sgps h !! a;
  rg_live : forall a, is_Some (sgs h !! a) -> is_Some (sgs h' !! a);
  rg_livep : forall a, is_Some (sgps h !! a) -> is_Some (sgps h' !! a);
  rg_ref : forall a, g_ref <$> sgs h' !! a = g_ref <$> sgs h !! a }.
#[export] Instance regrouped_pre : PreOrder regrouped.
Proof.
  split; [intros h; split; try done; by destruct h|]. intros h1 h2 h3 [E1 S1 P1 L1 M1 R1] [E2 S2 P2 L2 M2 R2]. split.
  - rewrite E2, E1. by destruct h1.
  - intros a Ha. by rewrite S2, S1.
  - intros a Ha. by rewrite P2, P1.
  - auto.
  - auto.
  - intros a. by rewrite R2, R1.
Qed.
Lemma grouping_regrouped h h' : regrouped h h' -> grouping h -> grouping h'.
Proof.
  intros [E _ _ L M _] [G1 G2 G3]. assert (sds h' = sds h /\ forall k (t : nat) j, entry k h' t j = entry k h t j) as [Ed Ee] by (rewrite E; done).
  split; intros j Hj; rewrite ?Ee.
  - destruct (G1 j Hj) as (a & d & H1 & H2 & H3). exists a, d. by rewrite Ed.
  - destruct (G2 j Hj). auto.
  - destruct (G3 j Hj). auto.
Qed.

Lemma wp_group_cpu h lv j (Q : nat -> dom -> Prop) : grouping h -> topology h !! tl = Some lv -> j ∈ cpus_of S -> Q (g j) h ->
  wp (group_cpu j (tl_data lv)) h Q.
Proof.
  intros [G1 _ _] El Hj HQ. destruct (G1 j Hj) as (a & d & Ea & Ed & Hc). unfold group_cpu. apply wp_bind, (wp_entry KSd _ tl _ _ a); [done..|].
  apply wp_bind, wp_deref, wp_bind, (wp_sd_at a d); [done|]. destruct (d_child d) as [c|]; [|by apply wp_ret; rewrite <- Hc].
  destruct Hc as (dc & Ec & Hg). apply wp_bind. unfold sched_domain_span. apply wp_bind, (wp_sd_at c dc); [done|]. apply wp_ret, wp_ret. by rewrite <- Hg.
Qed.

(** get_group() with a pointer: the group of [j] gets its power, with one reference. *)
Definition got r h h' : Prop := exists x p, sgs h !! B r = Some x /\ sgps h !! C r = Some p /\
  h' = h <| sgs ::= <[B r := x <| g_sgp := Some (C r) |>]> |> <| sgps ::= <[C r := p <| p_ref := 1 |>]> |>.
Lemma wp_get_group h lv j (Q : nat * nat -> dom -> Prop) : grouping h -> topology h !! tl = Some lv -> j ∈ cpus_of S ->
  (forall h', got (g j) h h' -> Q (g j, B (g j)) h') -> wp (get_group j (tl_data lv)) h Q.
Proof.
  intros G El Hj HQ. destruct (gr_sg _ G j Hj) as [Eg [x Ex]]. destruct (gr_sgp _ G j Hj) as [Ep [p Epp]].
  unfold get_group. apply wp_bind, wp_group_cpu; [done..|]. apply wp_bind, (wp_entry KSg _ tl _ _ (B (g j))); [done..|].
  apply wp_bind, wp_deref, wp_bind, (wp_entry KSgp _ tl _ _ (C (g j))); [done..|]. apply wp_bind, (wp_upd_sg _ x); [done|].
  apply wp_bind, wp_deref, wp_bind, (wp_upd_sgp _ p); [done|]. apply wp_ret, HQ. by exists x, p.
Qed.
Lemma got_regrouped j h h' : j ∈ cpus_of S -> got (g j) h h' -> regrouped h h'.
Proof.
  intros Hj (x & p & Ex & Ep & ->). split; cbn; try done.
  - intros a Ha. rewrite lookup_insert_ne; [done|]. intros <-. by apply (Ha j).
  - intros a Ha. rewrite lookup_insert_ne; [done|]. intros <-. by apply (Ha j).
  - intros a Ha. destruct (decide (a = B (g j))) as [->|]; [by rewrite lookup_insert_eq|by rewrite lookup_insert_ne].
  - intros a Ha. destruct (decide (a = C (g j))) as [->|]; [by rewrite lookup_insert_eq|by rewrite lookup_insert_ne].
  - intros a. destruct (decide (a = B (g j))) as [->|]; [by rewrite lookup_insert_eq, Ex|by rewrite lookup_insert_ne].
Qed.

(** The inner loop: the processors of the group [r]. *)
Fixpoint collected r l (m : Z) : Z :=
  match l with
  | [] => m
  | j :: l => collected r l (if (g j =? r)%nat then cpumask_set_cpu j m else m)
  end.
Lemma collected_test r l m c : is_cpu c = true -> (forall j, j ∈ l -> is_cpu j = true) ->
  cpumask_test_cpu c (collected r l m) = cpumask_test_cpu c m || bool_decide (c ∈ l /\ g c = r).
Proof.
  intros Hc. revert m. induction l as [|j l IH]; intros m Hl.
  { cbn. rewrite bool_decide_false; [by rewrite orb_false_r|]. intros [H _]. by apply not_elem_of_nil in H. }
  cbn [collected]. rewrite IH by (intros; apply Hl; by right). assert (is_cpu j = true) as Hj by (apply Hl; by left).
  destruct (Nat.eqb_spec (g j) r) as [E|E].
  - rewrite set_cpu_spec by done. destruct (Nat.eqb_spec c j) as [->|Hne]; cbn.
    + rewrite (bool_decide_true (j ∈ j :: l /\ g j = r)) by (split; [by left|done]). by rewrite orb_true_r.
    + f_equal. apply bool_decide_ext. rewrite elem_of_cons. naive_solver.
  - f_equal. apply bool_decide_ext. rewrite elem_of_cons. naive_solver.
Qed.
Lemma wp_collect h lv r l cov x (Q : Z -> dom -> Prop) : grouping h -> topology h !! tl = Some lv -> (forall j, j ∈ l -> j ∈ cpus_of S) ->
  sgs h !! B r = Some x -> r ∈ g <$> cpus_of S ->
  Q (collected r l cov) (h <| sgs ::= <[B r := x <| g_cpus ::= collected r l |>]> |>) -> wp (collect_group l r (tl_data lv) (B r) cov) h Q.
Proof.
  revert h cov x. induction l as [|j l IH]; intros h cov x G El Hl Ex Hr HQ; cbn [collect_group].
  - apply wp_ret. assert (x <| g_cpus ::= collected r [] |> = x) as E0 by by destruct x. rewrite E0 in HQ.
    assert (h <| sgs ::= <[B r := x]> |> = h) as E1 by (destruct h; cbn in *; unfold setf; cbn; by rewrite insert_id).
    by rewrite E1 in HQ.
  - apply wp_bind, wp_group_cpu; [done|done|apply Hl; by left|]. cbn [collected] in HQ.
    assert (forall y, y ∈ l -> y ∈ cpus_of S) as Hl' by (intros; apply Hl; by right). destruct (Nat.eqb_spec (g j) r) as [E|E]; cbn [negb]; [|by apply (IH _ _ x)].
    apply wp_bind, (wp_upd_sg _ x); [done|]. set (h1 := h <| sgs ::= _ |>).
    assert (regrouped h h1) as R.
    { split; try done; cbn.
      - intros a Ha. rewrite lookup_insert_ne; [done|]. intros <-. apply list_elem_of_fmap in Hr as (y & -> & Hy). by apply (Ha y).
      - intros a Ha. destruct (decide (a = B r)) as [->|]; [by rewrite lookup_insert_eq|by rewrite lookup_insert_ne].
      - intros a. destruct (decide (a = B r)) as [->|]; [by rewrite lookup_insert_eq, Ex|by rewrite lookup_insert_ne]. }
    apply (IH h1 _ (x <| g_cpus ::= cpumask_set_cpu j |>)); [by apply (grouping_regrouped h)|done|done|cbn; by rewrite lookup_insert_eq|done|].
    revert HQ. cbn. unfold setf. cbn. rewrite insert_insert_eq. done.
Qed.

(** A group that is complete: its processors, its power without references of
    domains. *)
Definition group_done h r : Prop := exists x p, sgs h !! B r = Some x /\ g_sgp x = Some (C r) /\
  (forall c, is_cpu c = true -> cpumask_test_cpu c (g_cpus x) = bool_decide (c ∈ cpus_of S /\ g c = r)) /\
  sgps h !! C r = Some p /\ p_ref p = 1.
Lemma done_frame h h' r : sgs h' !! B r = sgs h !! B r -> sgps h' !! C r = sgps h !! C r -> group_done h r -> group_done h' r.
Proof. intros E1 E2 (x & p & H). exists x, p. by rewrite E1, E2. Qed.
(** get_group() of a processor whose group is complete changes nothing. *)
Lemma done_got h h' r : group_done h r -> got r h h' -> h' = h.
Proof.
  intros (x & p & Ex & Es & _ & Ep & Er) (y & q & Ey & Eq & ->). assert (y = x) as -> by congruence. assert (q = p) as -> by congruence.
  assert (x <| g_sgp := Some (C r) |> = x) as -> by (destruct x; cbn in *; by rewrite Es).
  assert (p <| p_ref := 1 |> = p) as -> by (destruct p; cbn in *; by rewrite Er).
  destruct h. cbn in *. unfold setf. cbn. by rewrite !insert_id.
Qed.

(** What the outer loop has built from [h0] after the processors [l]. *)
Record ring_inv l h0 h (cov : Z) (first last : option nat) : Prop := {
  rn_frame : regrouped h0 h;
  rn_cov : forall c, is_cpu c = true -> cpumask_test_cpu c cov = bool_decide (c ∈ cpus_of S /\ g c ∈ l);
  rn_first : first = B <$> head (heads_of l);
  rn_last : last = B <$> list.last (heads_of l);
  rn_linked : linked h (B <$> heads_of l);
  rn_done : forall r, r ∈ heads_of l -> group_done h r;
  rn_power : forall r, r ∈ heads_of l -> sg_power h (C r) = 0 }.

Lemma cpus_sorted m l1 i l2 j : cpus_of m = l1 ++ i :: l2 -> j ∈ l2 -> (i < j)%nat.
Proof.
  intros E Hj. assert (StronglySorted lt (cpus_of m)) as Hs.
  { rewrite cpus_of_eq. generalize nr_cpus, 0%nat. intros n. induction n as [|n IH]; intros s; cbn [seq]; [constructor|].
    assert (forall b, Forall (lt s) (filter (fun c => cpumask_test_cpu c m = true) (seq (Datatypes.S s) b))) as Hl.
    { intros b. apply Forall_forall. intros x [_ Hx]%list_elem_of_filter. apply elem_of_seq in Hx. lia. }
    destruct (decide (cpumask_test_cpu s m = true)); [rewrite filter_cons_True by done; constructor; [apply IH|apply Hl]|by rewrite filter_cons_False by done; apply IH]. }
  rewrite E in Hs. clear E. induction l1 as [|x l1 IH]; cbn in Hs; apply StronglySorted_inv in Hs as [Hs Hx]; [|by apply IH].
  by apply (proj1 (Forall_forall _ _) Hx).
Qed.
(** A processor whose group is not covered yet starts it. *)
Lemma starts_group l1 i l2 : cpus_of S = l1 ++ i :: l2 -> g i ∉ l1 -> g i = i.
Proof.
  intros E Hn. assert (i ∈ cpus_of S) as Hi by (rewrite E; set_solver). pose proof (ho_least HO i Hi) as Hle. pose proof (ho_in HO i Hi) as Hin.
  rewrite E, elem_of_app, elem_of_cons in Hin. destruct Hin as [H|[H|H]]; [by destruct Hn|done|]. pose proof (cpus_sorted S l1 i l2 (g i) E H). lia.
Qed.
Lemma heads_snoc l i : heads_of (l ++ [i]) = heads_of l ++ (if decide (g i = i) then [i] else []).
Proof. unfold heads_of. by rewrite filter_app. Qed.

(** The group of the processor [i] is filled. *)
Definition filled i h (x : sgroup) (p : sgpower) : dom :=
  h <| sgs ::= <[B i := x <| g_sgp := Some (C i) |> <| g_cpus := collected i (cpus_of S) cpumask_clear |>]> |>
    <| sgps ::= <[C i := p <| p_ref := 1 |>]> |> <| sg_power ::= fun m a => if (a =? C i)%nat then 0 else m a |>.
Lemma filled_done i h x p : group_done (filled i h x p) i.
Proof.
  do 2 eexists. unfold filled. cbn. rewrite !lookup_insert_eq. split_and!; try done. intros c Hc. cbn.
  rewrite collected_test by (done || intros j [? _]%elem_of_cpus; done). by rewrite dl_clear.
Qed.
Lemma filled_regrouped i h x p : i ∈ cpus_of S -> g i = i -> sgs h !! B i = Some x -> sgps h !! C i = Some p -> regrouped h (filled i h x p).
Proof.
  intros Hi Hg Ex Ep. split; cbn; try done.
  - intros a Ha. apply lookup_insert_ne. intros <-. apply (Ha i); [done|by rewrite Hg].
  - intros a Ha. apply lookup_insert_ne. intros <-. apply (Ha i); [done|by rewrite Hg].
  - intros a Ha. destruct (decide (a = B i)) as [->|]; [by rewrite lookup_insert_eq|by rewrite lookup_insert_ne].
  - intros a Ha. destruct (decide (a = C i)) as [->|]; [by rewrite lookup_insert_eq|by rewrite lookup_insert_ne].
  - intros a. destruct (decide (a = B i)) as [->|]; [by rewrite lookup_insert_eq, Ex|by rewrite lookup_insert_ne].
Qed.
Lemma wp_fill h h1 lv i cov (k : Z -> M (option nat * option nat)) Q : grouping h -> topology h !! tl = Some lv -> i ∈ cpus_of S -> g i = i -> got i h h1 ->
  (forall x p, sgs h !! B i = Some x -> sgps h !! C i = Some p -> wp (k (collected i (cpus_of S) cov)) (filled i h x p) Q) ->
  wp (upd_sg (B i) (fun g => g <| g_cpus := cpumask_clear |>) ;;
      x ← sg_at (B i); p ← deref (g_sgp x);
      modify (fun h => h <| sg_power ::= fun m a => if (a =? p)%nat then 0 else m a |>) ;;
      covered ← collect_group (cpus_of S) i (tl_data lv) (B i) cov; k covered) h1 Q.
Proof.
  intros G El Hi Hg Hgot HQ. assert (regrouped h h1) as R by (apply (got_regrouped i); [done|by rewrite Hg]).
  destruct Hgot as (x & p & Ex & Ep & ->). specialize (HQ x p Ex Ep).
  set (x1 := x <| g_sgp := Some (C i) |>). set (h1 := h <| sgs ::= _ |> <| sgps ::= _ |>) in *.
  assert (sgs h1 !! B i = Some x1) as E1 by (cbn; by rewrite lookup_insert_eq).
  apply wp_bind, (wp_upd_sg _ x1); [done|]. set (x2 := x1 <| g_cpus := cpumask_clear |>). set (h2 := h1 <| sgs ::= _ |>).
  assert (sgs h2 !! B i = Some x2) as E2 by (cbn; by rewrite lookup_insert_eq).
  apply wp_bind, (wp_sg_at _ x2); [done|]. apply wp_bind, wp_deref, wp_bind, wp_modify.
  set (h3 := h2 <| sg_power ::= _ |>). assert (regrouped h h3) as R3.
  { etrans; [exact R|]. split; cbn; try done.
    - intros a Ha. apply lookup_insert_ne. intros <-. apply (Ha i); [done|by rewrite Hg].
    - intros a Ha. destruct (decide (a = B i)) as [->|]; [by rewrite lookup_insert_eq|by rewrite lookup_insert_ne].
    - intros a. destruct (decide (a = B i)) as [->|]; [by rewrite !lookup_insert_eq|by rewrite lookup_insert_ne]. }
  apply wp_bind, (wp_collect _ _ _ _ _ x2); [by apply (grouping_regrouped h)|done|done|done| |].
  - apply list_elem_of_fmap. by exists i.
  - assert (h3 <| sgs ::= <[B i := x2 <| g_cpus ::= collected i (cpus_of S) |>]> |> = filled i h x p) as ->; [|done].
    unfold filled, h3, h2, h1. destruct h. cbn. unfold setf. cbn. by rewrite !insert_insert_eq.
Qed.

Lemma heads_inj r r' l : (forall j, j ∈ l -> j ∈ cpus_of S) -> r ∈ heads_of l -> r' ∈ heads_of l -> B r = B r' -> r = r'.
Proof.
  intros Hl [Hr1 Hr2]%heads_sub [Hr3 Hr4]%heads_sub E. rewrite <- Hr1, <- Hr3 in *. apply (ho_B HO); [by apply Hl; rewrite <- Hr1|by apply Hl; rewrite <- Hr3|done].
Qed.
Lemma heads_injC r r' l : (forall j, j ∈ l -> j ∈ cpus_of S) -> r ∈ heads_of l -> r' ∈ heads_of l -> C r = C r' -> r = r'.
Proof.
  intros Hl [Hr1 Hr2]%heads_sub [Hr3 Hr4]%heads_sub E. rewrite <- Hr1, <- Hr3 in *. apply (ho_C HO); [by apply Hl; rewrite <- Hr1|by apply Hl; rewrite <- Hr3|done].
Qed.

(** Writing [next] of the last group. *)
Definition set_next a v h : dom := match sgs h !! a with Some x => h <| sgs ::= <[a := x <| g_next := Some v |>]> |> | None => h end.
Lemma set_next_at a v h x : sgs h !! a = Some x -> sgs (set_next a v h) !! a = Some (x <| g_next := Some v |>).
Proof. intros E. unfold set_next. rewrite E. cbn. by rewrite lookup_insert_eq. Qed.
Lemma set_next_ne a v h b : b <> a -> sgs (set_next a v h) !! b = sgs h !! b.
Proof. intros Hne. unfold set_next. destruct (sgs h !! a); [|done]. cbn. by rewrite lookup_insert_ne. Qed.
Lemma set_next_regrouped r v h : r ∈ cpus_of S -> g r = r -> regrouped h (set_next (B r) v h).
Proof.
  intros Hr Hg. unfold set_next. destruct (sgs h !! B r) as [x|] eqn:E; [|done]. split; cbn; try done.
  - intros a Ha. apply lookup_insert_ne. intros <-. apply (Ha r); [done|by rewrite Hg].
  - intros a Ha. destruct (decide (a = B r)) as [->|]; [by rewrite lookup_insert_eq|by rewrite lookup_insert_ne].
  - intros a. destruct (decide (a = B r)) as [->|]; [by rewrite lookup_insert_eq, E|by rewrite lookup_insert_ne].
Qed.
Lemma set_next_power a v h : sg_power (set_next a v h) = sg_power h.
Proof. unfold set_next. by destruct (sgs h !! a). Qed.
Lemma set_next_done r a v h : group_done h r -> group_done (set_next a v h) r.
Proof.
  intros (x & p & Ex & H). assert (sgps (set_next a v h) = sgps h) as E1 by (unfold set_next; by destruct (sgs h !! a)).
  unfold group_done. rewrite E1. destruct (decide (B r = a)) as [<-|Hne].
  - exists (x <| g_next := Some v |>), p. by rewrite (set_next_at _ _ _ x).
  - exists x, p. by rewrite set_next_ne.
Qed.
Lemma set_next_linked a v h l : linked h l -> a ∉ removelast l -> linked (set_next a v h) l.
Proof. intros Hl Ha. apply (linked_frame h); [|done]. intros b Hb. rewrite set_next_ne; [done|]. by intros ->. Qed.
Lemma wp_set_next a v h x (Q : unit -> dom -> Prop) : sgs h !! a = Some x -> Q tt (set_next a v h) -> wp (upd_sg a (fun g => g <| g_next := Some v |>)) h Q.
Proof. intros E HQ. apply (wp_upd_sg _ x); [done|]. unfold set_next in HQ. by rewrite E in HQ. Qed.

Lemma ring_inv_cov l1 i l2 h0 h cov first last : cpus_of S = l1 ++ i :: l2 -> ring_inv l1 h0 h cov first last ->
  cpumask_test_cpu i cov = bool_decide (g i ∈ l1).
Proof.
  intros E [_ Hc _ _ _ _ _]. assert (i ∈ cpus_of S) as Hi by (rewrite E; set_solver). rewrite Hc by (by apply elem_of_cpus in Hi as [? _]).
  apply bool_decide_ext. naive_solver.
Qed.
(** A processor of a group that is there already. *)
Lemma ring_inv_skip l1 i l2 h0 h h1 cov first last : cpus_of S = l1 ++ i :: l2 -> g i ∈ l1 -> got (g i) h h1 -> ring_inv l1 h0 h cov first last ->
  ring_inv (l1 ++ [i]) h0 h1 cov first last.
Proof.
  intros E Hin Hgot [R Hc Hf Hl Hk Hd Hw]. assert (i ∈ cpus_of S) as Hi by (rewrite E; set_solver).
  pose proof (ho_idem HO i Hi) as Hid. assert (g i ∈ heads_of l1) as Hh by by apply heads_sub.
  apply done_got in Hgot as ->; [|by apply Hd]. pose proof (cpus_nodup S) as Hnd. rewrite E in Hnd. apply NoDup_app in Hnd as (_ & Hx & _).
  assert (g i <> i) as Hne by (intros Heq; rewrite Heq in Hin; apply (Hx i); [done|by left]).
  assert (heads_of (l1 ++ [i]) = heads_of l1) as Eh by (rewrite heads_snoc, decide_False by done; apply app_nil_r).
  split; rewrite ?Eh; try done. intros c Hcc. rewrite Hc by done. apply bool_decide_ext. rewrite elem_of_app, list_elem_of_singleton.
  split; [naive_solver|]. intros [Hcs [?|Hci]]; [done|]. pose proof (ho_idem HO c Hcs) as H. by rewrite Hci in H.
Qed.
(** A new group is filled and linked. *)
Lemma ring_inv_add l1 i l2 h0 h x p cov first last : cpus_of S = l1 ++ i :: l2 -> g i = i -> sgs h !! B i = Some x -> sgps h !! C i = Some p ->
  ring_inv l1 h0 h cov first last ->
  ring_inv (l1 ++ [i]) h0 (match last with None => filled i h x p | Some a => set_next a (B i) (filled i h x p) end) (collected i (cpus_of S) cov)
    (match first with None => Some (B i) | Some f => Some f end) (Some (B i)).
Proof.
  intros E Hg Ex Ep [R Hc Hf Hl Hk Hd Hw]. assert (i ∈ cpus_of S) as Hi by (rewrite E; set_solver).
  assert (forall j, j ∈ l1 ++ [i] -> j ∈ cpus_of S) as Hsub by (intros j Hj; rewrite E; set_solver).
  pose proof (cpus_nodup S) as Hnd. rewrite E in Hnd. apply NoDup_app in Hnd as (Hnd & Hx & _).
  assert (forall r, r ∈ heads_of l1 -> r <> i) as Hne by (intros r [_ Hr]%heads_sub ->; apply (Hx i); [done|by left]).
  assert (heads_of (l1 ++ [i]) = heads_of l1 ++ [i]) as Eh by by rewrite heads_snoc, decide_True.
  assert (forall r, r ∈ heads_of l1 -> B r <> B i /\ C r <> C i) as HB.
  { intros r Hr. assert (r ∈ heads_of (l1 ++ [i]) /\ i ∈ heads_of (l1 ++ [i])) as [H1 H2] by (rewrite Eh; set_solver).
    split; intros Heq; apply (Hne r Hr); [by apply (heads_inj r i (l1 ++ [i]))|by apply (heads_injC r i (l1 ++ [i]))]. }
  pose proof (filled_regrouped i h x p Hi Hg Ex Ep) as R1. set (h1 := filled i h x p) in *.
  assert (linked h1 (B <$> heads_of l1)) as Hk1.
  { apply (linked_frame h); [|done]. intros a Ha. unfold h1, filled. cbn. rewrite lookup_insert_ne; [done|]. intros <-.
    assert (B i ∈ B <$> heads_of l1) as (r & Hr & Hr')%list_elem_of_fmap.
    { clear -Ha. induction (B <$> heads_of l1) as [|b [|b' l] IH]; cbn in Ha; [by apply not_elem_of_nil in Ha|by apply not_elem_of_nil in Ha|].
      apply elem_of_cons in Ha as [->|Ha]; [by left|right; by apply IH]. }
    by destruct (HB r Hr'). }
  assert (forall r, r ∈ heads_of (l1 ++ [i]) -> group_done h1 r) as Hd1.
  { intros r Hr. rewrite Eh in Hr. apply elem_of_app in Hr as [Hr| ->%list_elem_of_singleton]; [|apply filled_done].
    destruct (HB r Hr). apply (done_frame h); [..|by apply Hd]; unfold h1, filled; cbn; by apply lookup_insert_ne. }
  split.
  - etrans; [exact R|]. etrans; [exact R1|]. rewrite Hl. destruct (list.last (heads_of l1)) as [r|] eqn:El; [|done]. cbn.
    apply last_Some_elem_of, heads_sub in El as [? Hr]. apply set_next_regrouped; [|done]. apply Hsub, elem_of_app. by left.
  - intros c Hcc. rewrite collected_test by (done || intros j [? _]%elem_of_cpus; done). rewrite Hc by done.
    rewrite <- bool_decide_or. apply bool_decide_ext. rewrite elem_of_app, list_elem_of_singleton. naive_solver.
  - rewrite Hf, Eh, head_app. by destruct (head (heads_of l1)).
  - rewrite Eh, last_snoc. done.
  - rewrite Eh, fmap_app. cbn. rewrite Hl. assert (NoDup (heads_of l1)) as Hn by by apply NoDup_filter.
    destruct (heads_of l1) as [|r l _] using rev_ind; [done|]. rewrite last_snoc. cbn. rewrite fmap_app in *. cbn in *.
    assert (r ∈ l ++ [r]) as Hr by set_solver. destruct (Hd1 r) as (y & _ & Ey & _); [rewrite Eh; set_solver|].
    apply (linked_snoc _ _ _ _ (y <| g_next := Some (B i) |>)); [|by apply set_next_at|done]. apply set_next_linked; [done|].
    rewrite removelast_last. intros (r' & Heq & Hr')%list_elem_of_fmap.
    apply NoDup_app in Hn as (_ & Hn & _). apply (Hn r'); [done|]. apply list_elem_of_singleton.
    symmetry. apply (heads_inj r r' (l1 ++ [i])); [done|rewrite Eh; set_solver|rewrite Eh; set_solver|done].
  - intros r Hr. rewrite Hl. destruct (list.last (heads_of l1)); cbn; [apply set_next_done|]; by apply Hd1.
  - intros r Hr. assert (sg_power h1 (C r) = 0) as Hr'.
    { unfold h1, filled. cbn. destruct (Nat.eqb_spec (C r) (C i)) as [_|Hne']; [done|]. rewrite Eh in Hr.
      apply elem_of_app in Hr as [Hr| ->%list_elem_of_singleton]; [by apply Hw|done]. }
    destruct last as [a|]; [|done]. by rewrite set_next_power.
Qed.

Lemma wp_groups_loop h0 lv l2 l1 h cov first last (Q : option nat * option nat -> dom -> Prop) : grouping h0 -> topology h0 !! tl = Some lv ->
  cpus_of S = l1 ++ l2 -> ring_inv l1 h0 h cov first last ->
  (forall h' cov' f la, ring_inv (cpus_of S) h0 h' cov' f la -> Q (f, la) h') ->
  wp (groups_loop l2 S (tl_data lv) cov first last) h Q.
Proof.
  intros G El. revert l1 h cov first last. induction l2 as [|i l2 IH]; intros l1 h cov first last E I HQ; cbn [groups_loop].
  { apply wp_ret. rewrite app_nil_r in E. rewrite <- E in I. by apply (HQ h cov). }
  assert (i ∈ cpus_of S) as Hi by (rewrite E; set_solver). pose proof (rn_frame _ _ _ _ _ _ I) as R.
  pose proof (grouping_regrouped _ _ R G) as Gh. assert (topology h !! tl = Some lv) as Elh by (rewrite (rg_eq _ _ R); done).
  assert (cpus_of S = (l1 ++ [i]) ++ l2) as E' by by rewrite <- app_assoc.
  apply wp_bind, wp_get_group; [done..|]. intros h1 Hgot. rewrite (ring_inv_cov _ _ _ _ _ _ _ _ E I). case_bool_decide as Hin.
  { apply (IH (l1 ++ [i])); [done|by apply (ring_inv_skip _ i l2 _ h)|done]. }
  pose proof (starts_group _ _ _ E Hin) as Hg. rewrite Hg in *. apply (wp_fill h); [done..|]. intros x p Ex Ep.
  pose proof (ring_inv_add _ _ _ _ _ _ _ _ _ _ E Hg Ex Ep I) as I'. apply wp_bind. destruct last as [a|]; [|apply wp_ret; by apply (IH (l1 ++ [i]))].
  pose proof (rn_last _ _ _ _ _ _ I) as Hl. destruct (list.last (heads_of l1)) as [r|] eqn:Elast; [|done]. injection Hl as ->.
  apply last_Some_elem_of in Elast. destruct (rn_done _ _ _ _ _ _ I r Elast) as (y & _ & Ey & _).
  assert (is_Some (sgs (filled i h x p) !! B r)) as [z Ez].
  { eapply rg_live; [apply (filled_regrouped i h x p); done|by exists y]. }
  apply (wp_set_next _ _ _ z); [done|]. by apply (IH (l1 ++ [i])).
Qed.

(** ** build_sched_groups() *)

(** The groups of the domain, complete and in a ring. *)
Definition divided h : Prop := ring h (B <$> heads_of (cpus_of S)) /\ forall r, r ∈ heads_of (cpus_of S) -> group_done h r.

Lemma ring_closed h0 h cov first last i : i ∈ cpus_of S -> ring_inv (cpus_of S) h0 h cov first last ->
  exists a v x, last = Some a /\ first = Some v /\ sgs h !! a = Some x /\ regrouped h0 (set_next a v h) /\ divided (set_next a v h) /\
    forall r, r ∈ heads_of (cpus_of S) -> sg_power (set_next a v h) (C r) = 0.
Proof.
  intros Hi [R Hc Hf Hl Hk Hd Hw]. assert (g i ∈ heads_of (cpus_of S)) as Hh.
  { apply heads_sub. split; [by apply (ho_idem HO)|by apply (ho_in HO)]. }
  pose proof (NoDup_filter (fun j => g j = j) _ (cpus_nodup S)) as Hnd. fold (heads_of (cpus_of S)) in Hnd.
  destruct (heads_of (cpus_of S)) as [|r l _] eqn:Eh using rev_ind; [by apply not_elem_of_nil in Hh|]. rewrite last_snoc in Hl. rewrite head_app in Hf.
  destruct (Hd r) as (x & p & Ex & Hx); [set_solver|].
  assert (exists v, first = Some v /\ exists l', B <$> l ++ [r] = v :: l') as (v & -> & l' & Ev).
  { destruct l as [|a l]; cbn in Hf; eexists; (split; [done|]); by eexists. }
  exists (B r), v, x. assert (r ∈ heads_of (cpus_of S)) as [Hgr Hr]%heads_sub by (rewrite Eh; set_solver).
  split_and!; try done.
  - etrans; [exact R|]. by apply set_next_regrouped.
  - split; [|intros q Hq; apply set_next_done, Hd; by rewrite <- Eh].
    rewrite Eh. unfold ring. rewrite Ev. rewrite <- Ev, fmap_app in *. cbn [fmap list_fmap] in *.
    apply (linked_snoc _ _ _ _ (x <| g_next := Some v |>)); [|by apply set_next_at|done]. apply set_next_linked; [done|].
    rewrite removelast_last. intros (r' & Heq & Hr')%list_elem_of_fmap. apply NoDup_app in Hnd as (_ & Hn & _). apply (Hn r'); [done|]. apply list_elem_of_singleton.
    symmetry. apply (heads_inj r r' (cpus_of S)); [done|rewrite Eh; set_solver|rewrite Eh; set_solver|done].
  - intros q Hq. rewrite set_next_power. by apply Hw.
Qed.

(** A reference to a group. *)
Lemma ref_divided a f h x : sgs h !! a = Some x -> divided h -> divided (h <| sgs ::= <[a := x <| g_ref ::= f |>]> |>).
Proof.
  intros Ex [Hr Hd]. set (h' := h <| sgs ::= _ |>).
  assert (forall b, g_next <$> sgs h' !! b = g_next <$> sgs h !! b) as Hn.
  { intros b. cbn. destruct (decide (b = a)) as [->|]; [by rewrite lookup_insert_eq, Ex|by rewrite lookup_insert_ne]. }
  split.
  - unfold ring in *. destruct (B <$> _); [done|]. apply (linked_frame h); [intros; apply Hn|done].
  - intros r Hh. destruct (Hd r Hh) as (y & p & Ey & H). destruct (decide (B r = a)) as [<-|Hne].
    + exists (y <| g_ref ::= f |>), p. assert (y = x) as -> by congruence. cbn. by rewrite lookup_insert_eq.
    + exists y, p. cbn. by rewrite lookup_insert_ne.
Qed.
Lemma sds_divided f h : divided h -> divided (h <| sds ::= f |>).
Proof.
  intros [Hr Hd]. split.
  - unfold ring in *. destruct (B <$> _); [done|]. by apply (linked_frame h).
  - intros r Hh. by apply (done_frame h), Hd.
Qed.
Lemma sds_grouping h sd d v : grouping h -> sds h !! sd = Some d -> grouping (h <| sds ::= <[sd := d <| d_groups := v |>]> |>).
Proof.
  intros [G1 G2 G3] E. split; [|exact G2|exact G3]. intros j Hj. destruct (G1 j Hj) as (a & d' & Ea & Ed & Hc).
  assert (forall b e, sds h !! b = Some e -> exists e', <[sd := d <| d_groups := v |>]> (sds h) !! b = Some e' /\ d_child e' = d_child e /\ d_span e' = d_span e) as Hs.
  { intros b e Eb. destruct (decide (b = sd)) as [->|]; [|by exists e; rewrite lookup_insert_ne].
    assert (e = d) as -> by congruence. exists (d <| d_groups := v |>). by rewrite lookup_insert_eq. }
  destruct (Hs a d' Ed) as (e & Ee & Ec & _). exists a, e. split; [done|]. split; [done|]. rewrite Ec. destruct (d_child d') as [c|]; [|done].
  destruct Hc as (dc & Edc & Hg). destruct (Hs c dc Edc) as (e' & Ee' & _ & Es). exists e'. by rewrite Es.
Qed.

(** The domain [sd] of the processor [i] has its group. *)
Record grouped_domain sd (d : sdom) i h h' : Prop := {
  gd_sds : sds h' = <[sd := d <| d_groups := Some (B (g i)) |>]> (sds h);
  gd_eq : h' = h <| sds := sds h' |> <| sgs := sgs h' |> <| sgps := sgps h' |> <| sg_power := sg_power h' |>;
  gd_sg : forall a, (forall j, j ∈ cpus_of S -> a <> B (g j)) -> sgs h' !! a = sgs h !! a;
  gd_sgp : forall a, (forall j, j ∈ cpus_of S -> a <> C (g j)) -> sgps h' !! a = sgps h !! a;
  gd_live : (forall a, is_Some (sgs h !! a) -> is_Some (sgs h' !! a)) /\ (forall a, is_Some (sgps h !! a) -> is_Some (sgps h' !! a));
  gd_ref : forall a, g_ref <$> sgs h' !! a = (fun n => if (a =? B (g i))%nat then s32 (n + 1) else n) <$> (g_ref <$> sgs h !! a);
  gd_divided : (i = cpumask_first S -> divided h') /\ (divided h -> divided h');
  gd_power : i = cpumask_first S -> forall r, r ∈ heads_of (cpus_of S) -> sg_power h' (C r) = 0 }.

Lemma grouped_end sd d i h h1 y h' :
  let h2 := h1 <| sds ::= <[sd := d <| d_groups := Some (B (g i)) |>]> |> in
  let h3 := h2 <| sgs ::= <[B (g i) := y <| g_ref ::= fun n => s32 (n + 1) |>]> |> in
  i ∈ cpus_of S -> regrouped h h1 -> sgs h1 !! B (g i) = Some y -> regrouped h3 h' ->
  (i = cpumask_first S -> divided h' /\ forall r, r ∈ heads_of (cpus_of S) -> sg_power h' (C r) = 0) -> (divided h -> divided h') -> grouped_domain sd d i h h'.
Proof.
  intros h2 h3 Hi R1 Ey [E' S' P' L' M' F'] H1 H2. split; try done; try by split; [intros Hi'; by apply H1|].
  all: try (intros Hi'; by apply H1).
  - rewrite E'. cbn. rewrite (rg_eq _ _ R1). done.
  - assert (sds h' = sds h3) as -> by (rewrite E'; done). etrans; [exact E'|]. unfold h3, h2.
    generalize (sgs h'), (sgps h'), (sg_power h'). intros u v w. rewrite (rg_eq _ _ R1). by destruct h.
  - intros a Ha. rewrite S' by done. unfold h3. cbn. rewrite lookup_insert_ne by (intros <-; by apply (Ha i)). by apply (rg_sg _ _ R1).
  - intros a Ha. rewrite P' by done. by apply (rg_sgp _ _ R1).
  - split; intros a Ha.
    + apply L'. cbn. destruct (decide (a = B (g i))) as [->|]; [by rewrite lookup_insert_eq|rewrite lookup_insert_ne by done]. by apply (rg_live _ _ R1).
    + by apply M', (rg_livep _ _ R1).
  - intros a. rewrite F'. unfold h3. cbn. destruct (Nat.eqb_spec a (B (g i))) as [->|Hne].
    + rewrite lookup_insert_eq. cbn. pose proof (rg_ref _ _ R1 (B (g i))) as H. rewrite Ey in H. rewrite <- H. done.
    + rewrite lookup_insert_ne by done. rewrite (rg_ref _ _ R1 a). by destruct (sgs h !! a).
Qed.

Lemma build_groups_holds sd d i h : grouping h -> sds h !! sd = Some d -> d_span d = S -> d_private d = tl -> i ∈ cpus_of S ->
  wp (build_sched_groups sd i) h (fun ret h' => ret = 0 /\ grouped_domain sd d i h h').
Proof.
  intros G Ed Es Ep Hi. destruct (gr_sg _ G i Hi) as [(lv & _ & _ & El & _)%entry_some [x Ex]].
  unfold build_sched_groups. apply wp_bind, (wp_sd_at _ d); [done|]. rewrite Ep, Es. apply wp_bind, (wp_data_at _ lv); [done|]. cbv zeta.
  apply wp_bind, wp_get_group; [done..|]. intros h1 Hgot. pose proof (got_regrouped i h h1 Hi Hgot) as R1.
  assert (sds h1 !! sd = Some d) as Ed1 by (rewrite (rg_eq _ _ R1); done). apply wp_bind, (wp_upd_sd _ d); [done|].
  set (h2 := h1 <| sds ::= _ |>). destruct (rg_live _ _ R1 (B (g i)) (ex_intro _ x Ex)) as [y Ey].
  apply wp_bind, (wp_upd_sg _ y); [done|]. set (h3 := h2 <| sgs ::= _ |>).
  assert (divided h -> divided h3) as Hkeep.
  { intros Hd. apply (ref_divided _ _ h2 y); [done|]. apply (sds_divided _ h1). replace h1 with h; [done|]. symmetry. apply (done_got h h1 (g i)); [|done].
    apply Hd, heads_sub. split; [by apply (ho_idem HO)|by apply (ho_in HO)]. }
  assert (forall h', regrouped h3 h' -> (i = cpumask_first S -> divided h' /\ forall r, r ∈ heads_of (cpus_of S) -> sg_power h' (C r) = 0) -> (divided h -> divided h') -> grouped_domain sd d i h h') as Hend
    by (intros; by apply (grouped_end sd d i h h1 y)).
  destruct (Nat.eqb_spec i (cpumask_first S)) as [Hfirst|Hn]; cbn [negb]; [|by apply wp_ret; split; [|apply Hend]].
  assert (grouping h3) as G3.
  { assert (grouping h2) as G2 by by apply sds_grouping; [apply (grouping_regrouped h)|].
    destruct G2 as [A1 A2 A3]. split; [exact A1| |exact A3]. intros j Hj. destruct (A2 j Hj) as [A4 A5]. split; [exact A4|]. cbn.
    destruct (decide (B (g j) = B (g i))) as [->|]; [by rewrite lookup_insert_eq|by rewrite lookup_insert_ne]. }
  assert (topology h3 = topology h) as Et by (unfold h3, h2; rewrite (rg_eq _ _ R1); done).
  apply wp_bind, (wp_groups_loop h3 lv (cpus_of S) [] _ _ None None); [done|by rewrite Et|done| |].
  - split; try done; [|by intros r Hr%not_elem_of_nil..]. intros c Hc.
    rewrite dl_clear, bool_decide_false by (done || intros [_ H]; by apply not_elem_of_nil in H). done.
  - intros h4 cov f la I. destruct (ring_closed h3 h4 cov f la i Hi I) as (a & v & z & -> & -> & Ez & R & Hd & Hw).
    apply wp_bind, wp_deref, wp_bind, (wp_set_next a v h4 z); [done|]. apply wp_ret. split; [done|]. by apply Hend.
Qed.

(** The ring has every processor of the span in exactly one group. *)
Lemma divided_once h c : divided h -> c ∈ cpus_of S ->
  exists! a, a ∈ B <$> heads_of (cpus_of S) /\ exists x, sgs h !! a = Some x /\ cpumask_test_cpu c (g_cpus x) = true.
Proof.
  intros [_ Hd] Hc. pose proof Hc as [Hcpu _]%elem_of_cpus. assert (g c ∈ heads_of (cpus_of S)) as Hh.
  { apply heads_sub. split; [by apply (ho_idem HO)|by apply (ho_in HO)]. }
  exists (B (g c)). split.
  - split; [by apply list_elem_of_fmap_2|]. destruct (Hd _ Hh) as (x & p & Ex & _ & Hm & _). exists x. split; [done|].
    rewrite Hm by done. by apply bool_decide_eq_true.
  - intros a [(r & -> & Hr)%list_elem_of_fmap (x & Ex & Ht)]. destruct (Hd r Hr) as (y & p & Ey & _ & Hm & _).
    assert (y = x) as -> by congruence. rewrite Hm in Ht by done. apply bool_decide_eq_true in Ht as [_ ->]. done.
Qed.

(** C11: build_sched_groups() divides the span of a domain.  It never follows a bad
    pointer, always succeeds, and gives the domain the group of its processor, with
    one more reference.  When the first processor of the span calls it, the groups
    of the span become one ring, in the order of their first processors, in which
    every processor of the span is in exactly one group, with the processors of
    its child domain; the calls of the others keep the ring.  Groups of other
    spans, and the counts of references of the rest, do not change. *)
Theorem build_sched_groups_spec sd d i h : grouping h -> sds h !! sd = Some d -> d_span d = S -> d_private d = tl -> i ∈ cpus_of S ->
  exists h', build_sched_groups sd i h = Some (0, h') /\ grouped_domain sd d i h h' /\
    (i = cpumask_first S \/ divided h ->
       ring h' (B <$> heads_of (cpus_of S)) /\ B (g i) ∈ B <$> heads_of (cpus_of S) /\
       forall c, c ∈ cpus_of S ->
         exists! a, a ∈ B <$> heads_of (cpus_of S) /\ exists x, sgs h' !! a = Some x /\ cpumask_test_cpu c (g_cpus x) = true).
Proof.
  intros G Ed Es Ep Hi. pose proof (build_groups_holds sd d i h G Ed Es Ep Hi) as H. apply wp_some in H as (r & h' & E & -> & Hg).
  exists h'. split; [done|]. split; [done|]. intros Hor. assert (divided h') as Hd by (destruct (gd_divided _ _ _ _ _ Hg); naive_solver).
  split; [apply Hd|]. split; [|intros c Hc; by apply divided_once].
  apply list_elem_of_fmap_2, heads_sub. split; [by apply (ho_idem HO)|by apply (ho_in HO)].
Qed.
End groups.
