(* ===== verification/DomDebug.v ===== *)
(** sched_domain_debug(): the kernel's own check of the domains it attaches.  It
    reports an error exactly when a domain is not what it should be, and finds none
    in the groups build_sched_groups() makes. *)

From S2P Require Import Prelude KList Sched Affinity Smp RtSmp RtPush SmpSpec RtBorrow RtBorrowSpec Migrate MigrateSpec RootSpec Domains DomLogic DomAlloc DomVisit DomGroups.

(** The lines of the log; those from [SpanMissesCpu] on say "ERROR". *)
Inductive debug_line :=
  | AttachingNull (cpu : nat) | Attaching (cpu : nat) | Domain (level : nat) | NoBalance | SpanLevel (span : Z)
  | Groups | Group (cpus : Z) | CpuPower (power : Z)
  | SpanMissesCpu (cpu : nat) | GroupsMissCpu (cpu : nat) | HasParent | GroupIsNull | PowerNotSet | EmptyGroup | RepeatedCpus
  | GroupsDoNotSpan | ParentNotSuperset.
Definition is_error (l : debug_line) : bool :=
  match l with
  | SpanMissesCpu _ | GroupsMissCpu _ | HasParent | GroupIsNull | PowerNotSet | EmptyGroup | RepeatedCpus | GroupsDoNotSpan | ParentNotSuperset => true
  | _ => false
  end.
Definition SCHED_POWER_SCALE := 1024.

Section debug.
Context {SK : SKTypes} {ST : SmpTypes} {CM : CpuMask} {CMS : CpuMasks} {DM : DomMasks} {DE : DomEnv}.

(** sched_domain_debug_one(): the loop around the groups, with [groupmask] *)
Fixpoint debug_groups (fuel : nat) (first group : option nat) (groupmask : Z) (log : list debug_line) : M (Z * list debug_line) :=
  match fuel with
  | O => fault
  | S fuel =>
      match group with
      | None => mret (groupmask, log ++ [GroupIsNull])
      | Some a =>
          g ← sg_at a; p ← deref (g_sgp g); power ← gets (fun h => sg_power h p);
          if negb (c_true power) then mret (groupmask, log ++ [PowerNotSet])
          else if negb (c_true (cpumask_weight (g_cpus g))) then mret (groupmask, log ++ [EmptyGroup])
          else if cpumask_intersects groupmask (g_cpus g) then mret (groupmask, log ++ [RepeatedCpus])
          else
            let groupmask := cpumask_or groupmask (g_cpus g) in
            let log := log ++ [Group (g_cpus g)] ++ (if power =? SCHED_POWER_SCALE then [] else [CpuPower power]) in
            if bool_decide (g_next g = first) then mret (groupmask, log) else debug_groups fuel first (g_next g) groupmask log
      end
  end.
(** The result tells whether it was -1 *)
Definition sched_domain_debug_one (sd cpu level : nat) : M (bool * list debug_line) :=
  d ← sd_at sd;
  let log := [Domain level] in
  if negb (has_flag (d_flags d) SD_LOAD_BALANCE) then
    mret (true, log ++ [NoBalance] ++ match d_parent d with Some _ => [HasParent] | None => [] end)
  else
    let log := log ++ [SpanLevel (d_span d)] ++ (if cpumask_test_cpu cpu (d_span d) then [] else [SpanMissesCpu cpu]) in
    g ← deref (d_groups d); m ← sched_group_cpus g;
    let log := log ++ (if cpumask_test_cpu cpu m then [] else [GroupsMissCpu cpu]) ++ [Groups] in
    '(groupmask, log) ← debug_groups (S nr_cpus) (d_groups d) (d_groups d) cpumask_clear log;
    let log := log ++ (if cpumask_equal (d_span d) groupmask then [] else [GroupsDoNotSpan]) in
    match d_parent d with
    | None => mret (false, log)
    | Some p =>
        m ← sched_domain_span p;
        mret (false, log ++ (if cpumask_subset groupmask m then [] else [ParentNotSuperset]))
    end.

(** sched_domain_debug(), with [sched_domain_debug_enabled] *)
Fixpoint debug_chain (fuel : nat) (sd cpu level : nat) : M (list debug_line) :=
  match fuel with
  | O => fault
  | S fuel =>
      '(stop, log) ← sched_domain_debug_one sd cpu level;
      if (stop : bool) then mret log
      else
        d ← sd_at sd;
        match d_parent d with
        | None => mret log
        | Some p => rest ← debug_chain fuel p cpu (S level); mret (log ++ rest)
        end
  end.
Definition sched_domain_debug (enabled : bool) (sd : option nat) (cpu : nat) : M (list debug_line) :=
  if negb enabled then mret []
  else
    match sd with
    | None => mret [AttachingNull cpu]
    | Some sd => n ← nlevels; log ← debug_chain n sd cpu 0; mret (Attaching cpu :: log)
    end.

(** ** What the check accepts *)

Context {CML : CpuMasksLaws} {DL : DomLaws}.
Implicit Types (h : dom) (a i r : nat) (l : list nat).

(** A ring can be entered anywhere. *)
Lemma linked_app h l a l' : linked h (l ++ a :: l') <-> linked h (l ++ [a]) /\ linked h (a :: l').
Proof.
  induction l as [|b l IH]; [cbn; naive_solver|]. destruct l as [|c l]; cbn in *; [naive_solver|]. rewrite IH. naive_solver.
Qed.
Lemma ring_rotate h l l' : ring h (l ++ l') -> ring h (l' ++ l).
Proof.
  destruct l' as [|b l']; [by rewrite app_nil_r|]. destruct l as [|a l]; [by rewrite app_nil_r|]. unfold ring. cbn [app].
  intros H. change (a :: (l ++ b :: l') ++ [a]) with ((a :: l ++ b :: l') ++ [a]) in H.
  assert (linked h ((a :: l) ++ b :: (l' ++ [a]))) as [H1 H2]%linked_app by (revert H; cbn; by rewrite <- app_assoc).
  assert (linked h ((b :: l') ++ a :: (l ++ [b]))) as H3; [|revert H3; cbn; by rewrite <- app_assoc].
  apply linked_app. done.
Qed.

(** Groups the check passes: with processors and power, and no processor that
    was [seen] before. *)
Definition mask_of h a : Z := match sgs h !! a with Some x => g_cpus x | None => cpumask_clear end.
Definition group_fine h a : Prop := exists x p, sgs h !! a = Some x /\ g_sgp x = Some p /\ sg_power h p <> 0 /\
  exists c, is_cpu c = true /\ cpumask_test_cpu c (g_cpus x) = true.
Fixpoint apart h (seen : nat -> bool) l : Prop :=
  match l with
  | [] => True
  | a :: l => (forall c, is_cpu c = true -> seen c = true -> cpumask_test_cpu c (mask_of h a) = false) /\
      apart h (fun c => seen c || cpumask_test_cpu c (mask_of h a)) l
  end.
Lemma weight_some m c : is_cpu c = true -> cpumask_test_cpu c m = true -> cpumask_weight m <> 0.
Proof.
  intros Hc Ht. rewrite weight_spec, <- cpus_of_eq. assert (c ∈ cpus_of m) as Hin by by apply elem_of_cpus.
  destruct (cpus_of m); [by apply not_elem_of_nil in Hin|]. cbn. lia.
Qed.
Lemma apart_ext h seen seen' l : (forall c, is_cpu c = true -> seen c = seen' c) -> apart h seen l -> apart h seen' l.
Proof.
  revert seen seen'. induction l as [|a l IH]; intros seen seen' He; [done|]. intros [H1 H2]. split.
  - intros c Hc Hs. apply H1; [done|by rewrite He].
  - eapply IH; [|exact H2]. intros c Hc. cbn. by rewrite He.
Qed.
Lemma weight_none m : cpumask_weight m <> 0 -> exists c, is_cpu c = true /\ cpumask_test_cpu c m = true.
Proof.
  rewrite weight_spec, <- cpus_of_eq. destruct (cpus_of m) as [|c l] eqn:E; [done|]. intros _. exists c.
  apply elem_of_cpus. rewrite E. by left.
Qed.
(** A group that has been seen adds to the processors. *)
Lemma weight_or m g c : is_cpu c = true -> cpumask_test_cpu c g = true -> cpumask_intersects m g = false ->
  (length (cpus_of m) < length (cpus_of (cpumask_or m g)))%nat.
Proof.
  intros Hc Hg Hi. assert (NoDup (c :: cpus_of m)) as Hn.
  { apply NoDup_cons. split; [|apply cpus_nodup]. intros [_ Hm]%elem_of_cpus.
    apply not_true_iff_false in Hi. apply Hi, intersects_spec. by exists c. }
  assert (c :: cpus_of m ⊆+ cpus_of (cpumask_or m g)) as H; [|apply submseteq_length in H; cbn in H; lia].
  apply NoDup_submseteq; [done|]. intros i [->|[H1 H2]%elem_of_cpus]%elem_of_cons; apply elem_of_cpus; split; try done;
    rewrite dl_or by done; [by rewrite Hg, orb_true_r|by rewrite H2].
Qed.

Definition quiet (log : list debug_line) : Prop := Forall (fun x => is_error x = false) log.
Definition covered h l c : bool := existsb (fun x => cpumask_test_cpu c (mask_of h x)) l.
(** A group as it is allocated. *)
Definition group_ready h a : Prop := exists x p, sgs h !! a = Some x /\ g_sgp x = Some p.

Lemma quiet_error (e : debug_line) : is_error e = true -> quiet [e] <-> False.
Proof. intros H. split; [|done]. intros Hq. apply Forall_inv in Hq. congruence. Qed.

(** The result of the loop: nothing is logged as wrong exactly when the groups are
    fine and disjoint, and then their processors have been collected. *)
Definition groups_checked h m log l (r : Z * list debug_line) (h' : dom) : Prop :=
  h' = h /\ exists log', r.2 = log ++ log' /\
    (quiet log' <-> Forall (group_fine h) l /\ apart h (fun c => cpumask_test_cpu c m) l) /\
    (quiet log' -> forall c, is_cpu c = true -> cpumask_test_cpu c r.1 = cpumask_test_cpu c m || covered h l c).

Lemma checked_error h m log l e : is_error e = true -> (Forall (group_fine h) l -> apart h (fun c => cpumask_test_cpu c m) l -> False) ->
  groups_checked h m log l (m, log ++ [e]) h.
Proof.
  intros He Hl. split; [done|]. exists [e]. split; [done|]. pose proof (quiet_error e He) as Hq.
  split; [rewrite Hq; split; [done|]; intros [H1 H2]; by apply Hl|]. intros H. by apply Hq in H.
Qed.

Lemma wp_debug_groups h first l fuel a m log : linked h (a :: l ++ [first]) -> first ∉ l ->
  Forall (group_ready h) (a :: l) -> (nr_cpus < fuel + length (cpus_of m))%nat ->
  wp (debug_groups fuel (Some first) (Some a) m log) h (groups_checked h m log (a :: l)).
Proof.
  revert fuel a m log. induction l as [|b l IH]; intros fuel a m log Hl Hf Hr Hn;
    (destruct fuel as [|fuel]; [pose proof (cpus_length m); lia|]); destruct (Forall_inv Hr) as (x & p & Ex & Ep);
    destruct Hl as [(y & Ey & En) Hl]; assert (y = x) as -> by congruence;
    assert (mask_of h a = g_cpus x) as Em by (unfold mask_of; by rewrite Ex).
  all: cbn [debug_groups]; apply wp_bind, (wp_sg_at a x); [done|]; rewrite Ep; apply wp_bind, wp_deref, wp_bind, wp_gets.
  all: destruct (c_true (sg_power h p)) eqn:Hp; cbn [negb]; [apply c_true_iff in Hp|
    apply wp_ret, checked_error; [done|]; intros (x' & p' & Ex' & Ep' & Hp' & _)%Forall_inv _; apply (proj2 (c_true_iff _)) in Hp'; congruence].
  all: destruct (c_true (cpumask_weight (g_cpus x))) eqn:Hw; cbn [negb]; [apply c_true_iff, weight_none in Hw as (c0 & Hc0 & Ht0)|
    apply wp_ret, checked_error; [done|]; intros (x' & p' & Ex' & _ & _ & c & Hc & Ht)%Forall_inv _;
    assert (x' = x) as -> by congruence; pose proof (proj2 (c_true_iff _) (weight_some _ _ Hc Ht)); congruence].
  all: destruct (cpumask_intersects m (g_cpus x)) eqn:Hi; [apply wp_ret, checked_error; [done|]; intros _ [H _];
    apply intersects_spec in Hi as (c & Hc & H1 & H2); rewrite Em in H; rewrite (H c Hc H1) in H2; done|].
  all: pose proof (weight_or m (g_cpus x) c0 Hc0 Ht0 Hi) as Hlt; rewrite En.
  all: assert (group_fine h a) as Hfa by (exists x, p; split_and!; eauto).
  all: assert (forall c, is_cpu c = true -> cpumask_test_cpu c m = true -> cpumask_test_cpu c (mask_of h a) = false) as Hda by
    (intros c Hc H1; rewrite Em; apply not_true_iff_false; intros H2; apply not_true_iff_false in Hi; apply Hi, intersects_spec; eauto).
  all: set (new := [Group (g_cpus x)] ++ (if sg_power h p =? SCHED_POWER_SCALE then [] else [CpuPower (sg_power h p)]));
    assert (quiet new) as Hnew by (unfold new; destruct (_ =? _); by repeat constructor).
  - rewrite bool_decide_true by done. apply wp_ret. split; [done|]. exists new. split; [done|]. split.
    + split; [|done]. intros _. split; [by repeat constructor|by split].
    + intros _ c Hc. cbn. by rewrite dl_or, Em, orb_false_r by done.
  - rewrite bool_decide_false by (intros [= ->]; apply Hf; by left).
    eapply wp_mono; [apply IH; [done|set_solver|by apply Forall_inv_tail in Hr|lia]|].
    intros [m' lg] h' (-> & log' & Elog & Hiff & Hm). split; [done|]. exists (new ++ log'). split; [rewrite app_assoc; exact Elog|].
    unfold quiet in *. rewrite Forall_app, Forall_cons. split.
    + split; [intros [_ [H1 H2]%Hiff]|intros [[_ H1] [_ H2]]; split; [done|]; apply Hiff]; (split; [auto|]).
      * split; [done|]. eapply apart_ext; [|exact H2]. intros c Hc. cbn beta. by rewrite dl_or, Em.
      * eapply apart_ext; [|exact H2]. intros c Hc. cbn beta. by rewrite dl_or, Em.
    + intros [_ Hq] c Hc. specialize (Hm Hq c Hc). cbn [fst] in *. rewrite Hm, dl_or, <- Em by done. by rewrite <- orb_assoc.
Qed.

(** A load-balancing domain [d] of the processor [i] as it should be, its groups
    being [l]: it and its first group contain the processor, every group has power
    and a processor, no processor is in two groups, the groups together are the
    span, and the parent's span contains it. *)
Record sound_domain h d i l : Prop := {
  so_cpu : cpumask_test_cpu i (d_span d) = true;
  so_first : exists a, head l = Some a /\ cpumask_test_cpu i (mask_of h a) = true;
  so_fine : Forall (group_fine h) l;
  so_apart : forall a b c, a ∈ l -> b ∈ l -> a <> b -> is_cpu c = true ->
    cpumask_test_cpu c (mask_of h a) = true -> cpumask_test_cpu c (mask_of h b) = false;
  so_union : forall c, is_cpu c = true -> cpumask_test_cpu c (d_span d) = covered h l c;
  so_parent : forall p dp, d_parent d = Some p -> sds h !! p = Some dp -> cpumask_subset (d_span d) (d_span dp) = true }.

Lemma apart_iff h P l : NoDup l ->
  apart h P l <-> (forall a c, a ∈ l -> is_cpu c = true -> P c = true -> cpumask_test_cpu c (mask_of h a) = false) /\
    (forall a b c, a ∈ l -> b ∈ l -> a <> b -> is_cpu c = true ->
      cpumask_test_cpu c (mask_of h a) = true -> cpumask_test_cpu c (mask_of h b) = false).
Proof.
  revert P. induction l as [|x l IH]; intros P Hn; [split; [|done]; intros _; split; set_solver|].
  apply NoDup_cons in Hn as [Hx Hn]. cbn [apart]. rewrite IH by done. split.
  - intros (H1 & H2 & H3). split.
    + intros a c [->|Ha]%elem_of_cons Hc HP; [by apply H1|]. apply H2; [done..|by rewrite HP].
    + intros a b c [->|Ha]%elem_of_cons [->|Hb]%elem_of_cons Hne Hc Ht; [done| | |by apply (H3 a b)].
      * apply H2; [done..|by rewrite Ht, orb_true_r].
      * apply not_true_iff_false. intros Hs. enough (cpumask_test_cpu c (mask_of h a) = false) by congruence.
        apply H2; [done..|by rewrite Hs, orb_true_r].
  - intros [H1 H2]. split_and!.
    + intros c. apply H1. by left.
    + intros a c Ha Hc [HP|Ht]%orb_true_iff; [apply H1; [by right|done..]|].
      apply (H2 x); [by left|by right|by intros ->|done..].
    + intros a b c Ha Hb. apply H2; by right.
Qed.

(** One domain: the log is quiet exactly when the domain is sound. *)
Lemma debug_one_checked h sd d i level a l : sds h !! sd = Some d -> has_flag (d_flags d) SD_LOAD_BALANCE = true ->
  d_groups d = Some a -> ring h (a :: l) -> NoDup (a :: l) -> Forall (group_ready h) (a :: l) ->
  (forall p, d_parent d = Some p -> is_Some (sds h !! p)) ->
  exists log, sched_domain_debug_one sd i level h = Some ((false, log), h) /\ (quiet log <-> sound_domain h d i (a :: l)).
Proof.
  intros Ed Hf Eg Hring Hn Hr Hpar. destruct (Forall_inv Hr) as (x & px & Ex & _).
  assert (mask_of h a = g_cpus x) as Em by (unfold mask_of; by rewrite Ex).
  assert (wp (sched_domain_debug_one sd i level) h (fun res h' => h' = h /\ res.1 = false /\ (quiet res.2 <-> sound_domain h d i (a :: l)))) as Hw.
  2: { apply wp_some in Hw as ([b log] & h' & E & -> & Hb & Hlog). exists log. cbn in Hb, Hlog. by subst b. }
  unfold sched_domain_debug_one. apply wp_bind, (wp_sd_at _ d); [done|]. rewrite Hf, Eg. cbn [negb].
  apply wp_bind, wp_deref, wp_bind. unfold sched_group_cpus. apply wp_bind, (wp_sg_at _ x); [done|]. apply wp_ret, wp_bind.
  eapply wp_mono; [apply (wp_debug_groups h a l); [exact Hring|by apply NoDup_cons in Hn as [? _]|done|lia]|].
  intros [m log] h' (-> & log' & Elog & Hiff & Hm). cbn [fst snd] in Elog, Hm. rewrite apart_iff in Hiff by done. subst log.
  set (log0 := (([Domain level] ++ [SpanLevel (d_span d)] ++ _) ++ _ ++ [Groups])).
  assert (quiet log0 <-> cpumask_test_cpu i (d_span d) = true /\ cpumask_test_cpu i (mask_of h a) = true) as H0.
  { unfold log0, quiet. rewrite Em. destruct (cpumask_test_cpu i (d_span d)), (cpumask_test_cpu i (g_cpus x));
      repeat rewrite ?Forall_app, ?Forall_cons; cbn; naive_solver. }
  clearbody log0. assert (quiet log' -> cpumask_equal (d_span d) m = true <-> forall c, is_cpu c = true -> cpumask_test_cpu c (d_span d) = covered h (a :: l) c) as He.
  { intros Hq. rewrite equal_spec. split; intros H c Hc; [by rewrite H, (Hm Hq), dl_clear|by rewrite H, (Hm Hq), dl_clear]. }
  assert (forall rest, (quiet log' -> cpumask_equal (d_span d) m = true ->
      quiet rest <-> forall p dp, d_parent d = Some p -> sds h !! p = Some dp -> cpumask_subset (d_span d) (d_span dp) = true) ->
    quiet (((log0 ++ log') ++ (if cpumask_equal (d_span d) m then [] else [GroupsDoNotSpan])) ++ rest) <-> sound_domain h d i (a :: l)) as Hall.
  { intros rest Hrest. unfold quiet in *. rewrite !Forall_app. split.
    - intros [[[Q0 Q1] Q2] Q3]. destruct (cpumask_equal (d_span d) m) eqn:E; [|by apply Forall_inv in Q2].
      pose proof (proj1 Hiff Q1) as (F1 & _ & F2). destruct (proj1 H0 Q0) as [T1 T2].
      split; [done|by exists a|done|done|by apply He|by apply Hrest].
    - intros [T1 (a' & [= <-] & T2) F1 F2 F3 F4]. assert (quiet log') as Q1.
      { apply Hiff. split; [done|]. split; [|done]. intros b c _ Hc H. by rewrite dl_clear in H. }
      pose proof (proj2 (He Q1) F3) as E. rewrite E. split_and!; [by apply H0|done|constructor|by apply Hrest]. }
  destruct (d_parent d) as [pd|] eqn:Ep.
  - destruct (Hpar pd eq_refl) as [dp Edp]. apply wp_bind. unfold sched_domain_span. apply wp_bind, (wp_sd_at _ dp); [done|].
    apply wp_ret, wp_ret. split; [done|]. split; [done|]. apply Hall. intros Hq E.
    assert (cpumask_subset m (d_span dp) = true <-> cpumask_subset (d_span d) (d_span dp) = true) as Hsub.
    { rewrite !dl_subset. rewrite equal_spec in E. split; intros H c Hc Ht; apply H; [done|by rewrite <- E|done|by rewrite E]. }
    split.
    + intros H p dp' [= <-] Edp'. assert (dp' = dp) as -> by congruence. apply Hsub.
      destruct (cpumask_subset m (d_span dp)); [done|by apply Forall_inv in H].
    + intros H. rewrite (proj2 Hsub); [constructor|]. by apply (H pd).
  - apply wp_ret. split; [done|]. split; [done|]. specialize (Hall []). rewrite app_nil_r in Hall. apply Hall. intros _ _.
    split; [done|constructor].
Qed.

(** C12: the kernel's own check of scheduling domains is exact.  For a domain whose
    groups form a ring of allocated groups, sched_domain_debug_one() walks around
    the ring and terminates without a null pointer, whatever is in the groups, and
    changes nothing; it logs an error exactly when the domain is not sound.  Sound
    means, for a domain that balances load: the domain and its first group contain
    the processor, no group is empty or without power, no processor is in two
    groups, the groups together are the span, and the parent's span contains it;
    for any other domain, where the check ends: it has no parent. *)
Theorem sched_domain_debug_exact h sd d i level a l : sds h !! sd = Some d ->
  d_groups d = Some a -> ring h (a :: l) -> NoDup (a :: l) -> Forall (group_ready h) (a :: l) ->
  (forall p, d_parent d = Some p -> is_Some (sds h !! p)) ->
  exists log, sched_domain_debug_one sd i level h = Some ((negb (has_flag (d_flags d) SD_LOAD_BALANCE), log), h) /\
    (Forall (fun x => is_error x = false) log <->
     if has_flag (d_flags d) SD_LOAD_BALANCE then sound_domain h d i (a :: l) else d_parent d = None).
Proof.
  intros Ed Eg Hring Hn Hr Hpar. destruct (has_flag (d_flags d) SD_LOAD_BALANCE) eqn:Hf; [by apply (debug_one_checked h sd d)|].
  assert (wp (sched_domain_debug_one sd i level) h (fun res h' => h' = h /\ res.1 = true /\ (quiet res.2 <-> d_parent d = None))) as Hw.
  { unfold sched_domain_debug_one. apply wp_bind, (wp_sd_at _ d); [done|]. rewrite Hf. cbn [negb]. apply wp_ret.
    split; [done|]. split; [done|]. unfold quiet. cbn [snd]. rewrite !Forall_app.
    destruct (d_parent d); [split; [intros (_ & _ & H); by apply Forall_inv in H|done]|]. split; [done|]. intros _. by repeat constructor. }
  apply wp_some in Hw as ([b log] & h' & E & -> & Hb & Hlog). exists log. cbn in Hb, Hlog. by subst b.
Qed.

Section passes.
Context (tl : nat) (S : Z) (g B C : nat -> nat) (HO : heads_ok S g B C).

(** The ring, entered at the group of the processor [i]. *)
Lemma heads_rotate i : i ∈ cpus_of S -> exists rs rs', heads_of g (cpus_of S) = rs ++ g i :: rs'.
Proof.
  intros Hi. apply list_elem_of_split, heads_sub. split; [by apply (ho_idem _ _ _ _ HO)|by apply (ho_in _ _ _ _ HO)].
Qed.
Lemma head_fine h r : r ∈ heads_of g (cpus_of S) -> group_done S g B C h r -> sg_power h (C r) <> 0 -> group_fine h (B r).
Proof.
  intros [Hr Hin]%heads_sub (x & p & Ex & Es & Hm & _) Hp. exists x, (C r). split_and!; [done..|]. pose proof Hin as [Hc _]%elem_of_cpus.
  exists r. split; [done|]. rewrite Hm by done. by apply bool_decide_eq_true.
Qed.
Lemma heads_apart h rs P : (forall r, r ∈ rs -> group_done S g B C h r) -> NoDup rs ->
  (forall c r, is_cpu c = true -> P c = true -> r ∈ rs -> g c <> r) -> apart h P (B <$> rs).
Proof.
  revert P. induction rs as [|r rs IH]; intros P Hd Hnd HP; [done|]. apply NoDup_cons in Hnd as [Hr Hnd].
  assert (forall c, is_cpu c = true -> cpumask_test_cpu c (mask_of h (B r)) = bool_decide (c ∈ cpus_of S /\ g c = r)) as Hm.
  { destruct (Hd r) as (x & p & Ex & _ & Hm & _); [by left|]. intros c Hc. unfold mask_of. by rewrite Ex, Hm. }
  cbn [fmap list_fmap apart]. split.
  - intros c Hc HPc. rewrite Hm by done. apply bool_decide_eq_false. intros [_ E]. apply (HP c r Hc HPc); [by left|done].
  - apply IH; [intros; apply Hd; by right|done|]. intros c r' Hc [H|H]%orb_true_iff Hr'; [apply HP; [done|done|by right]|].
    rewrite Hm in H by done. apply bool_decide_eq_true in H as [_ H]. intros E. apply Hr. by rewrite <- H, E.
Qed.

(** The groups that are built pass, entered at the group of any processor of the
    span, once they have power. *)
Theorem sched_domain_debug_accepts h sd d i level : divided S g B C h -> (forall r, r ∈ heads_of g (cpus_of S) -> sg_power h (C r) <> 0) ->
  i ∈ cpus_of S -> sds h !! sd = Some d -> d_span d = S -> d_groups d = Some (B (g i)) -> has_flag (d_flags d) SD_LOAD_BALANCE = true ->
  (forall p, d_parent d = Some p -> exists dp, sds h !! p = Some dp /\ cpumask_subset S (d_span dp) = true) ->
  exists log, sched_domain_debug_one sd i level h = Some ((false, log), h) /\ Forall (fun x => is_error x = false) log.
Proof.
  intros [Hring Hd] Hpow Hi Ed Es Eg Hf Hpar. destruct (heads_rotate i Hi) as (rs & rs' & Eh).
  pose proof (NoDup_filter (fun j => g j = j) _ (cpus_nodup S)) as Hnd. fold (heads_of g (cpus_of S)) in Hnd. rewrite Eh in *.
  assert ((g i :: rs') ++ rs ≡ₚ rs ++ g i :: rs') as Hperm by apply Permutation_app_comm.
  rewrite <- Hperm in Hnd. setoid_rewrite <- Hperm in Hd. setoid_rewrite <- Hperm in Hpow.
  rewrite fmap_app in Hring. apply ring_rotate in Hring. rewrite <- fmap_app in Hring.
  assert (forall r, r ∈ (g i :: rs') ++ rs -> r ∈ heads_of g (cpus_of S)) as Hin by (intros r; rewrite Eh; set_solver).
  set (l := rs' ++ rs) in *. change ((g i :: rs') ++ rs) with (g i :: l) in *. pose proof Hi as [Hci Hti]%elem_of_cpus.
  assert (forall r c, r ∈ g i :: l -> is_cpu c = true -> cpumask_test_cpu c (mask_of h (B r)) = bool_decide (c ∈ cpus_of S /\ g c = r)) as Hm.
  { intros r c Hr Hc. destruct (Hd r Hr) as (x & p & Ex & _ & Hm & _). unfold mask_of. by rewrite Ex, Hm. }
  assert (Forall (group_fine h) (B <$> g i :: l)) as Hfine.
  { apply Forall_forall. intros a (r & -> & Hr)%list_elem_of_fmap. apply head_fine; auto. }
  assert (NoDup (B <$> g i :: l)) as HnB.
  { apply NoDup_fmap_2_strong; [|done]. intros r r' Hr Hr' E. apply (heads_inj _ _ _ _ HO _ _ (cpus_of S)); auto. }
  destruct (debug_one_checked h sd d i level (B (g i)) (B <$> l)) as (log & E & H); try done.
  { eapply Forall_impl; [exact Hfine|]. intros a (x & p & Ex & Ep & _). by exists x, p. }
  { intros p Hp. destruct (Hpar p Hp) as (dp & -> & _). by eexists. }
  exists log. split; [done|]. apply H. change (B (g i) :: (B <$> l)) with (B <$> g i :: l). split; [by rewrite Es| |done| | |].
  - exists (B (g i)). split; [done|]. rewrite Hm; [by apply bool_decide_eq_true|by left|done].
  - intros a b c (r & -> & Hr)%list_elem_of_fmap (r' & -> & Hr')%list_elem_of_fmap Hne Hc. rewrite !Hm by done.
    rewrite bool_decide_eq_true, bool_decide_eq_false. intros [_ <-] [_ E']. by subst r'.
  - intros c Hc. rewrite Es. apply eq_true_iff_eq. unfold covered. rewrite existsb_exists. split.
    + intros Ht. assert (c ∈ cpus_of S) as Hcs by by apply elem_of_cpus. assert (g c ∈ g i :: l) as Hr.
      { rewrite Hperm, <- Eh. apply heads_sub. split; [by apply (ho_idem _ _ _ _ HO)|by apply (ho_in _ _ _ _ HO)]. }
      exists (B (g c)). split; [by apply list_elem_of_In, list_elem_of_fmap_2|]. rewrite Hm by done. by apply bool_decide_eq_true.
    + intros (a & Ha & Ht). apply list_elem_of_In, list_elem_of_fmap in Ha as (r & -> & Hr).
      rewrite Hm in Ht by done. apply bool_decide_eq_true in Ht as [Ht _]. by apply elem_of_cpus in Ht as [_ ?].
  - intros p dp Hp Edp. destruct (Hpar p Hp) as (dp' & Edp' & Hs). rewrite Es. by replace dp with dp' by congruence.
Qed.
End passes.
End debug.
