(* ===== verification/DomTopo.v ===== *)
(** The topology of the processors: what the tables that build_sched_domains()
    goes through have to satisfy, the spans of the domains that follow from them,
    and the processors that stand for their groups. *)

From S2P Require Import Prelude KList Sched Affinity Smp RtSmp RtPush SmpSpec RtBorrow RtBorrowSpec Migrate MigrateSpec RootSpec Domains DomLogic DomAlloc DomVisit DomGroups.

(** ** The topology *)

(** Every level divides the processors, each level into parts of the next; the
    levels do not overlap, and SD_type_INIT leaves the pointers NULL. *)
Record topo_ok `{CpuMask} (topo : list topology_level) : Prop := {
  tk_some : topo <> [];
  tk_parent : forall lv, lv ∈ topo -> d_parent (tl_init lv) = None;
  tk_init : forall lv, lv ∈ topo -> has_flag (d_flags (tl_init lv)) SD_OVERLAP = false;
  tk_flags : forall lv, lv ∈ topo -> has_flag (tl_flags lv) 1 = false;
  tk_self : forall lv i, lv ∈ topo -> is_cpu i = true -> cpumask_test_cpu i (tl_mask lv i) = true;
  tk_part : forall lv i j x, lv ∈ topo -> is_cpu i = true -> is_cpu j = true -> is_cpu x = true ->
    cpumask_test_cpu j (tl_mask lv i) = true -> cpumask_test_cpu x (tl_mask lv j) = cpumask_test_cpu x (tl_mask lv i);
  tk_nest : forall l lv lv' i x, topo !! l = Some lv -> topo !! S l = Some lv' -> is_cpu i = true -> is_cpu x = true ->
    cpumask_test_cpu x (tl_mask lv i) = true -> cpumask_test_cpu x (tl_mask lv' i) = true }.

Section topo.
Context {CM : CpuMask} {CMS : CpuMasks} {CML : CpuMasksLaws} {SK : SKTypes} {ST : SmpTypes} {DM : DomMasks} {DE : DomEnv} {DL : DomLaws}.
Context (topo : list topology_level) (cm : Z) (TOK : topo_ok topo).
Implicit Types (i j c l r : nat).

Definition cpus : list nat := cpus_of cm.
Definition tmask l i : Z := match topo !! l with Some lv => tl_mask lv i | None => cpumask_clear end.
(** The span of the domain of the level [l] of [i], and the processor that stands
    for the group of [i] there: the first of its domain one level below. *)
Definition span_at l i : Z := cpumask_and cm (tmask l i).
Definition in_span l i c : bool := cpumask_test_cpu c (span_at l i).
Definition rep l i : nat := match l with O => i | S l => cpumask_first (span_at l i) end.
Definition full l i : bool := cpumask_equal cm (span_at l i).
Definition level l : Prop := (l < length topo)%nat.

Lemma level_some l : level l -> exists lv, topo !! l = Some lv /\ lv ∈ topo.
Proof. intros [lv E]%lookup_lt_is_Some. exists lv. split; [done|]. by eapply list_elem_of_lookup_2. Qed.
Lemma in_cpus c : c ∈ cpus <-> is_cpu c = true /\ cpumask_test_cpu c cm = true.
Proof. apply elem_of_cpus. Qed.
Lemma in_span_eq l i c : is_cpu c = true -> in_span l i c = cpumask_test_cpu c cm && cpumask_test_cpu c (tmask l i).
Proof. apply dl_and. Qed.
Lemma in_span_cpus l i c : c ∈ cpus_of (span_at l i) <-> is_cpu c = true /\ in_span l i c = true.
Proof. apply elem_of_cpus. Qed.
Lemma span_in l i c : is_cpu c = true -> in_span l i c = true -> c ∈ cpus_of (span_at l i).
Proof. intros. by apply in_span_cpus. Qed.
Lemma span_sub l i c : is_cpu c = true -> in_span l i c = true -> c ∈ cpus.
Proof. intros Hc H. rewrite in_span_eq in H by done. apply andb_true_iff in H as [H _]. by apply in_cpus. Qed.

Lemma span_self l i : level l -> i ∈ cpus -> in_span l i i = true.
Proof.
  intros (lv & E & Hin)%level_some [Hi Hm]%in_cpus. rewrite in_span_eq, Hm by done. unfold tmask. rewrite E. by apply (tk_self _ TOK).
Qed.
Lemma span_part l i j c : level l -> i ∈ cpus -> is_cpu c = true -> j ∈ cpus -> in_span l i j = true -> in_span l j c = in_span l i c.
Proof.
  intros (lv & E & Hin)%level_some [Hi _]%in_cpus Hc [Hj Hjm]%in_cpus H. rewrite !in_span_eq in * by done. unfold tmask in *. rewrite E in *.
  apply andb_true_iff in H as [_ H]. by rewrite (tk_part _ TOK lv i j c).
Qed.
Lemma span_sym l i j : level l -> i ∈ cpus -> j ∈ cpus -> in_span l i j = true -> in_span l j i = true.
Proof. intros Hl Hi Hj H. rewrite (span_part l i j i); [by apply span_self|done|done|by apply in_cpus in Hi as [? _]|done|done]. Qed.
Lemma span_nest l i c : level (S l) -> i ∈ cpus -> is_cpu c = true -> in_span l i c = true -> in_span (S l) i c = true.
Proof.
  intros Hl [Hi Hm]%in_cpus Hc H. rewrite !in_span_eq in * by done. apply andb_true_iff in H as [H1 H2]. rewrite H1. cbn [andb].
  unfold tmask in *. destruct (level_some (S l) Hl) as (lv' & E' & _). destruct (level_some l) as (lv & E & _); [unfold level in *; lia|].
  rewrite E in H2. rewrite E'. by apply (tk_nest _ TOK l lv lv').
Qed.
Lemma span_cpus_eq l i j : level l -> i ∈ cpus -> j ∈ cpus -> in_span l i j = true -> cpus_of (span_at l j) = cpus_of (span_at l i).
Proof. intros Hl Hi Hj H. apply cpus_ext. intros c Hc. by apply span_part. Qed.

(** The first processor of a span. *)
Lemma first_of m : cpumask_first m = match cpus_of m with c :: _ => c | [] => cpumask_first m end.
Proof.
  unfold cpus_of. destruct nr_cpus as [|n] eqn:E; [done|]. cbn [cpus_from]. by destruct (is_cpu (cpumask_next None m)).
Qed.
Lemma first_in m c : c ∈ cpus_of m -> cpumask_first m ∈ cpus_of m.
Proof. intros Hc. rewrite (first_of m). destruct (cpus_of m); [by apply not_elem_of_nil in Hc|by left]. Qed.
Lemma first_eq m m' c : cpus_of m = cpus_of m' -> c ∈ cpus_of m -> cpumask_first m = cpumask_first m'.
Proof. intros E Hc. rewrite (first_of m), (first_of m'). rewrite E in *. destruct (cpus_of m'); [by apply not_elem_of_nil in Hc|done]. Qed.
Lemma first_least m c : c ∈ cpus_of m -> (cpumask_first m <= c)%nat.
Proof. intros [Hc H]%elem_of_cpus. by apply next_least. Qed.

Lemma rep_span l i : level l -> i ∈ cpus -> rep l i ∈ cpus_of (span_at l i).
Proof.
  intros Hl Hi. pose proof (proj1 (proj1 (in_cpus i) Hi)) as Hc. destruct l as [|l]; cbn [rep].
  - apply span_in; [done|]. by apply span_self.
  - assert (level l) as Hl' by (unfold level in *; lia).
    assert (i ∈ cpus_of (span_at l i)) as Hii by (apply span_in; [done|by apply span_self]).
    apply first_in in Hii. apply in_span_cpus in Hii as [H1 H2]. apply span_in; [done|]. by apply span_nest.
Qed.
Lemma rep_cpu l i : level l -> i ∈ cpus -> rep l i ∈ cpus.
Proof. intros Hl Hi. destruct (proj1 (in_span_cpus l i _) (rep_span l i Hl Hi)) as [H1 H2]. by apply (span_sub l i). Qed.
(** Processors of one group have one representative. *)
Lemma rep_eq l i j : level (S l) -> i ∈ cpus -> j ∈ cpus -> in_span l i j = true -> rep (S l) j = rep (S l) i.
Proof.
  intros Hl Hi Hj H. cbn [rep]. assert (level l) as Hl' by (unfold level in *; lia). apply (first_eq _ _ j); [by apply span_cpus_eq|].
  apply span_in; [by apply in_cpus in Hj as [? _]|by apply span_self].
Qed.
Lemma rep_rep l i : level l -> i ∈ cpus -> rep l (rep l i) = rep l i.
Proof.
  intros Hl Hi. destruct l as [|l]; [done|]. assert (level l) as Hl' by (unfold level in *; lia).
  apply rep_eq; [done|done|by apply rep_cpu|]. cbn [rep].
  assert (i ∈ cpus_of (span_at l i)) as Hii by (apply span_in; [by apply in_cpus in Hi as [? _]|by apply span_self]).
  by apply first_in, in_span_cpus in Hii as [_ ?].
Qed.
Lemma rep_least l i : level l -> i ∈ cpus -> (rep l i <= i)%nat.
Proof.
  intros Hl Hi. destruct l as [|l]; [done|]. apply first_least, span_in; [by apply in_cpus in Hi as [? _]|].
  apply span_self; [unfold level in *; lia|done].
Qed.

(** All processors have domains on the same levels. *)
Lemma full_same l i j : level l -> i ∈ cpus -> j ∈ cpus -> full l i = true -> full l j = true.
Proof.
  unfold full. rewrite !equal_spec. intros Hl Hi Hj H c Hc. rewrite (H c Hc).
  assert (in_span l i j = true) as Hij by (unfold in_span; rewrite <- H; apply in_cpus in Hj; tauto).
  symmetry. by apply (span_part l i j c).
Qed.
End topo.
