(* ===== verification/DomBuild.v ===== *)
(** build_sched_domains(): the domains of every processor, one for each level of
    the topology up to the first that spans the map. *)

From S2P Require Import Prelude KList Sched Affinity Smp RtSmp RtPush SmpSpec RtBorrow RtBorrowSpec Migrate MigrateSpec RootSpec Domains DomLogic DomAlloc DomVisit DomGroups DomTopo.

Section build.
Context {SK : SKTypes} {ST : SmpTypes} {CM : CpuMask} {CMS : CpuMasks} {CML : CpuMasksLaws} {DM : DomMasks} {DE : DomEnv} {DL : DomLaws}.
(** The topology and the map; the addresses of the objects of every level and
    processor; the number of levels that get domains. *)
Context (topo : list topology_level) (cm : Z) (TOK : topo_ok topo) (attr : option Z).
Context (A : kind -> nat -> nat -> nat) (n : nat).
Implicit Types (h : dom) (a c i j l m : nat) (k : kind) (d : sdom).

(** A level is the last one when it spans the map for one processor, and then
    for all. *)
Record levels_used : Prop := {
  lu_pos : (0 < n <= length topo)%nat;
  lu_stop : forall l i, i ∈ cpus cm -> (S l < n)%nat -> full topo cm l i = false;
  lu_end : forall i, i ∈ cpus cm -> n = length topo \/ full topo cm (n - 1) i = true }.
Definition separate : Prop := forall k l j l' j', level topo l -> level topo l' -> j ∈ cpus cm -> j' ∈ cpus cm ->
  A k l j = A k l' j' -> l = l' /\ j = j'.
Context (LU : levels_used) (SEP : separate).

(** The tables hold the objects, which exist. *)
Record laid_out h : Prop := {
  lo_topo : bare <$> topology h = topo;
  lo_entry : forall k l j, level topo l -> j ∈ cpus cm -> entry k h l j = Some (A k l j);
  lo_live : forall k l j, level topo l -> j ∈ cpus cm -> live k h (A k l j) }.

Lemma laid_level h l : laid_out h -> level topo l -> exists lv lv', topology h !! l = Some lv' /\ topo !! l = Some lv /\ lv ∈ topo /\
  tl_init lv' = tl_init lv /\ tl_mask lv' = tl_mask lv /\ tl_flags lv' = tl_flags lv.
Proof.
  intros [Ht _ _] (lv & E & Hin)%level_some. pose proof E as E'. rewrite <- Ht, list_lookup_fmap in E'.
  destruct (topology h !! l) as [lv'|] eqn:El; [|done]. cbn in E'. apply (inj Some) in E'. exists lv, lv'. subst lv. done.
Qed.
Lemma laid_data h l lv' : topology h !! l = Some lv' -> laid_out h -> level topo l -> forall k j, j ∈ cpus cm ->
  forall Q : option nat -> dom -> Prop, Q (Some (A k l j)) h -> wp (per_cpu_get (data_of k (tl_data lv')) j) h Q.
Proof. intros El Hl Hlv k j Hj Q HQ. apply (wp_entry k h l lv' j (A k l j)); [done|by apply lo_entry|done]. Qed.

(** Only domains of the processor [i] change. *)
Record sd_frame i h h' : Prop := {
  sf_eq : h' = h <| sds := sds h' |> <| sched_domain_level_max := sched_domain_level_max h' |>;
  sf_sd : forall a, (forall l, (l < n)%nat -> a <> A KSd l i) -> sds h' !! a = sds h !! a;
  sf_live : forall a, is_Some (sds h' !! a) <-> is_Some (sds h !! a) }.
#[export] Instance sd_frame_pre i : PreOrder (sd_frame i).
Proof.
  split; [intros h; split; try done; by destruct h|]. intros h1 h2 h3 [E1 S1 L1] [E2 S2 L2]. split.
  - rewrite E2, E1. by destruct h1.
  - intros a Ha. by rewrite S2, S1.
  - intros a. by rewrite L2, L1.
Qed.
Lemma used_level l : (l < n)%nat -> level topo l.
Proof. unfold level. pose proof (lu_pos LU). lia. Qed.
Lemma frame_write i l d h : (l < n)%nat -> is_Some (sds h !! A KSd l i) -> sd_frame i h (h <| sds ::= <[A KSd l i := d]> |>).
Proof.
  intros Hl Hs. split; cbn.
  - by destruct h.
  - intros a Ha. apply lookup_insert_ne. intros <-. by apply (Ha l).
  - intros a. destruct (decide (a = A KSd l i)) as [->|]; [rewrite lookup_insert_eq; split; [done|by eexists]|by rewrite lookup_insert_ne].
Qed.
Lemma frame_laid i h h' : sd_frame i h h' -> laid_out h -> laid_out h'.
Proof.
  intros [E S L] [L1 L2 L3]. split.
  - by rewrite E.
  - intros k l j Hl Hj. rewrite E. by apply (L2 k l j).
  - intros k l j Hl Hj. specialize (L3 k l j Hl Hj). destruct k.
    + apply live_sd, L. by apply live_sd.
    + apply live_sg. rewrite E. by apply live_sg.
    + apply live_sgp. rewrite E. by apply live_sgp.
Qed.

(** What the domain of a level is, when [m] levels are built. *)
Definition child_at l i : option nat := match l with O => None | S l => Some (A KSd l i) end.
Record dom_ok m l i d : Prop := {
  do_parent : d_parent d = if (S l <? m)%nat then Some (A KSd (S l) i) else None;
  do_child : d_child d = child_at l i;
  do_private : d_private d = l;
  do_span : d_span d = span_at topo cm l i;
  do_plain : has_flag (d_flags d) SD_OVERLAP = false }.
Definition chain_done m i h : Prop := forall l, (l < m)%nat -> exists d, sds h !! A KSd l i = Some d /\ dom_ok m l i d.

(** ** A level *)

Lemma overlap_flag f b : Z.land b SD_OVERLAP = 0 -> has_flag (Z.lor f b) SD_OVERLAP = has_flag f SD_OVERLAP /\ has_flag (Z.ldiff f b) SD_OVERLAP = has_flag f SD_OVERLAP.
Proof.
  intros Hm. unfold has_flag. split; apply (f_equal c_true), Z.bits_inj'; intros x Hx; pose proof (f_equal (fun z => Z.testbit z x) Hm) as H; cbn beta in H;
    rewrite Z.land_spec, Z.bits_0 in H; rewrite !Z.land_spec, ?Z.lor_spec, ?Z.ldiff_spec; destruct (Z.testbit f x), (Z.testbit b x), (Z.testbit SD_OVERLAP x); done.
Qed.
Lemma wp_set_attribute a d h (Q : unit -> dom -> Prop) : sds h !! a = Some d ->
  (forall f, has_flag f SD_OVERLAP = has_flag (d_flags d) SD_OVERLAP -> Q tt (h <| sds ::= <[a := d <| d_flags := f |>]> |>)) ->
  wp (set_domain_attribute a attr) h Q.
Proof.
  intros E HQ. assert (wp (mret tt) h Q) as Hret.
  { apply wp_ret. specialize (HQ (d_flags d) eq_refl). assert (d <| d_flags := d_flags d |> = d) as E0 by by destruct d. rewrite E0 in HQ.
    assert (h <| sds ::= <[a := d]> |> = h) as E1 by (destruct h; cbn in *; unfold setf; cbn; by rewrite insert_id). by rewrite E1 in HQ. }
  unfold set_domain_attribute. apply wp_bind, wp_gets.
  assert (Z.land (Z.lor SD_BALANCE_WAKE SD_BALANCE_NEWIDLE) SD_OVERLAP = 0) as Hz by done.
  match goal with |- wp (match ?x with Some _ => _ | None => _ end) _ _ => destruct x as [r|] end; [|done].
  apply wp_bind, (wp_sd_at a d); [done|]. destruct (r <? d_level d); apply (wp_upd_sd a d); [done| |done|]; apply (HQ _).
  all: apply (overlap_flag (d_flags d) _ Hz).
Qed.
Lemma wp_sd_init l i h lv d (Q : option nat -> dom -> Prop) : topology h !! l = Some lv -> entry KSd h l i = Some (A KSd l i) -> sds h !! A KSd l i = Some d ->
  Q (Some (A KSd l i)) (h <| sds ::= <[A KSd l i := (tl_init lv) <| d_span := d_span d |> <| d_private := l |>]> |>) -> wp (sd_init l i) h Q.
Proof.
  intros El Ee Ed HQ. unfold sd_init. apply wp_bind, (wp_level_at l lv); [done|]. apply wp_bind, (wp_entry KSd h l lv i (A KSd l i)); [done..|].
  apply wp_bind, wp_deref, wp_bind, (wp_upd_sd _ d); [done|]. apply wp_bind, (wp_upd_sd _ ((tl_init lv) <| d_span := d_span d |>)); [cbn; by rewrite lookup_insert_eq|].
  apply wp_ret. revert HQ. cbn. unfold setf. cbn. by rewrite insert_insert_eq.
Qed.

(** build_sched_domain() of the next level *)
Lemma chain_extend l i h h' d : level topo l -> i ∈ cpus cm -> chain_done l i h -> sds h' !! A KSd l i = Some d -> dom_ok (S l) l i d ->
  (forall l', (S l' < l)%nat -> sds h' !! A KSd l' i = sds h !! A KSd l' i) ->
  (forall c, child_at l i = Some c -> exists dc, sds h !! c = Some dc /\ sds h' !! c = Some (dc <| d_parent := Some (A KSd l i) |>)) ->
  chain_done (S l) i h'.
Proof.
  intros Hl Hi Hc Ed Hd Hlow Hch l' Hl'. destruct (decide (l' = l)) as [->|Hne]; [by exists d|].
  destruct (Hc l') as (e & Ee & [P1 P2 P3 P4 P5]); [lia|]. destruct (decide (S l' = l)) as [<-|Hne'].
  - destruct (Hch _ eq_refl) as (dc & Edc & Edc'). assert (dc = e) as -> by congruence. eexists. split; [exact Edc'|]. split; try done.
    by rewrite (proj2 (Nat.ltb_lt (S l') _)) by lia.
  - exists e. rewrite Hlow by lia. split; [done|]. split; try done. rewrite P1.
    by rewrite !(proj2 (Nat.ltb_lt (S l') _)) by lia.
Qed.
Lemma addr_ne l i l' : level topo l -> level topo l' -> i ∈ cpus cm -> l' <> l -> A KSd l' i <> A KSd l i.
Proof. intros Hl Hl' Hi Hne E. destruct (SEP KSd l' i l i) as [? _]; auto. Qed.
(** Its end, once the span is set and the child knows its parent. *)
Lemma wp_finish_domain l i h h1 d (Q : option nat -> dom -> Prop) : (l < n)%nat -> i ∈ cpus cm -> chain_done l i h -> sd_frame i h h1 ->
  sds h1 !! A KSd l i = Some d -> d_parent d = None -> d_private d = l -> d_span d = span_at topo cm l i -> has_flag (d_flags d) SD_OVERLAP = false ->
  (forall l', (S l' < l)%nat -> sds h1 !! A KSd l' i = sds h !! A KSd l' i) ->
  (forall c, child_at l i = Some c -> exists dc, sds h !! c = Some dc /\ sds h1 !! c = Some (dc <| d_parent := Some (A KSd l i) |>)) ->
  (forall h', sd_frame i h h' -> chain_done (S l) i h' -> Q (Some (A KSd l i)) h') ->
  wp (upd_sd (A KSd l i) (fun d => d <| d_child := child_at l i |>) ;; set_domain_attribute (A KSd l i) attr ;; mret (Some (A KSd l i))) h1 Q.
Proof.
  intros Hn Hi Hc F Ed Hp Hv Hs Hf Hlow Hch HQ. pose proof (used_level l Hn) as Hl. set (a := A KSd l i) in *. set (d1 := d <| d_child := child_at l i |>).
  apply wp_bind, (wp_upd_sd a d); [done|]. apply wp_bind, (wp_set_attribute a d1); [cbn; by rewrite lookup_insert_eq|]. intros f Ef.
  apply wp_ret, HQ.
  - etrans; [exact F|]. etrans; [apply (frame_write i l d1); [done|by exists d]|]. apply (frame_write i l (d1 <| d_flags := f |>)); [done|].
    cbn. rewrite lookup_insert_eq. by eexists.
  - assert (forall l', (l' < l)%nat -> A KSd l' i <> a) as Hne by (intros l' Hl'; apply addr_ne; [done|unfold level in *; lia|done|lia]).
    apply (chain_extend l i h _ (d1 <| d_flags := f |>)); [done|done|done|cbn; by rewrite lookup_insert_eq|..].
    + split; try done; [by rewrite (proj2 (Nat.ltb_ge (S l) _)) by lia|]. cbn. rewrite Ef. exact Hf.
    + intros l' Hl'. cbn. rewrite !lookup_insert_ne by (intros E; apply (Hne l'); [lia|done]). by apply Hlow.
    + intros c Ec. destruct (Hch c Ec) as (dc & H1 & H2). exists dc. split; [done|]. cbn. destruct l as [|l']; [done|]. injection Ec as <-.
      by rewrite !lookup_insert_ne by (intros E; apply (Hne l'); [lia|done]).
Qed.
Lemma wp_build_domain l i h (Q : option nat -> dom -> Prop) : laid_out h -> (l < n)%nat -> i ∈ cpus cm -> chain_done l i h ->
  (forall h', sd_frame i h h' -> chain_done (S l) i h' -> Q (Some (A KSd l i)) h') -> wp (build_sched_domain l cm attr (child_at l i) i) h Q.
Proof.
  intros Hlo Hn Hi Hc HQ. pose proof (used_level l Hn) as Hl. destruct (laid_level h l Hlo Hl) as (lv & lv' & El' & El & Hin & Ei & Em & _).
  pose proof (lo_live h Hlo KSd l i Hl Hi) as [d0 Ed0]%live_sd. set (a := A KSd l i) in *.
  unfold build_sched_domain. apply wp_bind, (wp_sd_init l i h lv' d0); [done|by apply lo_entry|done|]. fold a. set (d1 := (tl_init lv') <| d_span := _ |> <| d_private := l |>).
  set (h1 := h <| sds ::= _ |>). assert (sds h1 !! a = Some d1) as Ed1 by (cbn; by rewrite lookup_insert_eq).
  apply wp_bind, (wp_level_at l lv'); [done|]. apply wp_bind, (wp_upd_sd a d1); [done|]. set (d2 := d1 <| d_span := _ |>). set (h2 := h1 <| sds ::= _ |>).
  assert (sd_frame i h h2) as F2.
  { etrans; [apply (frame_write i l d1); [done|by exists d0]|]. apply (frame_write i l d2); [done|]. by exists d1. }
  assert (d_span d2 = span_at topo cm l i /\ d_private d2 = l /\ d_parent d2 = None /\ has_flag (d_flags d2) SD_OVERLAP = false) as (D1 & D2 & D3 & D4).
  { unfold d2, d1. cbn. rewrite Em, Ei. split_and!; [unfold span_at, tmask; by rewrite El|done|by apply (tk_parent _ TOK)|by apply (tk_init _ TOK)]. }
  assert (forall b, b <> a -> sds h2 !! b = sds h !! b) as Hb by (intros b Hb; cbn; by rewrite !lookup_insert_ne).
  assert (sds h2 !! a = Some d2) as E2 by (cbn; by rewrite lookup_insert_eq).
  apply wp_bind. destruct l as [|l]; cbn [child_at].
  - apply wp_ret. apply (wp_finish_domain 0 i h h2 d2); try done. intros l' Hl'. lia.
  - assert (level topo l) as Hl' by (unfold level in *; lia). destruct (Hc l) as (dc & Edc & _); [lia|]. set (c := A KSd l i) in *.
    assert (c <> a) as Hca by (apply addr_ne; (done || lia)). apply wp_bind, (wp_sd_at c dc); [by rewrite Hb|].
    apply wp_bind, (wp_upd_sd a d2); [done|]. set (d3 := d2 <| d_level := _ |>). set (h3 := h2 <| sds ::= _ |>).
    apply wp_bind, (wp_sd_at a d3); [cbn; by rewrite lookup_insert_eq|]. apply wp_bind, wp_modify. set (h4 := h3 <| sched_domain_level_max ::= _ |>).
    assert (sds h4 !! c = Some dc) as E4 by (cbn; rewrite !lookup_insert_ne by done; done). apply (wp_upd_sd c dc); [done|].
    apply (wp_finish_domain (S l) i h _ d3); try done.
    + etrans; [exact F2|]. etrans; [apply (frame_write i (S l) d3); [done|by exists d2]|]. fold a. fold h3.
      assert (sd_frame i h3 h4) as F4 by (split; [unfold h4; by destruct h3|done|done]).
      etrans; [exact F4|]. apply (frame_write i l); [lia|by exists dc].
    + cbn. rewrite lookup_insert_ne by done. by rewrite lookup_insert_eq.
    + intros x Hx. cbn. rewrite !lookup_insert_ne; [done|..]; apply not_eq_sym, addr_ne; (done || lia || unfold level in *; lia).
    + intros x [= <-]. exists dc. split; [done|]. cbn. by rewrite lookup_insert_eq.
Qed.

(** ** A processor *)

Lemma wp_build_levels b l i h (Q : option nat -> dom -> Prop) : force_sd_overlap h = false -> laid_out h -> i ∈ cpus cm -> (l < n)%nat -> length topo = (l + b)%nat ->
  chain_done l i h -> (forall h', sd_frame i h h' -> chain_done n i h' -> Q (Some (A KSd (n - 1) i)) h') ->
  wp (build_levels (seq l b) cm attr i (child_at l i)) h Q.
Proof.
  revert l h Q. induction b as [|b IH]; intros l h Q Hov Hlo Hi Hl Eb Hc HQ; [pose proof (lu_pos LU); lia|]. cbn [seq build_levels].
  assert (level topo l) as Hlv by (unfold level; lia). apply wp_bind, (wp_build_domain l i h); [done..|]. intros h1 F1 C1.
  pose proof (frame_laid _ _ _ F1 Hlo) as Hlo1. destruct (laid_level h1 l Hlo1 Hlv) as (lv & lv' & El' & El & Hin & _ & _ & Ef).
  apply wp_bind, (wp_level_at l lv'); [done|]. apply wp_bind, wp_gets. assert (force_sd_overlap h1 = false) as Hov1 by (by rewrite (sf_eq _ _ _ F1)).
  rewrite Hov1, Ef, (tk_flags _ TOK lv Hin). cbn [orb]. apply wp_bind, wp_deref, wp_bind, wp_ret, wp_bind.
  destruct (C1 l) as (d & Ed & Hd); [lia|]. unfold sched_domain_span. apply wp_bind, (wp_sd_at _ d); [done|]. apply wp_ret.
  rewrite (do_span _ _ _ _ Hd). fold (full topo cm l i). destruct (full topo cm l i) eqn:E.
  - assert (n = S l) as En by (destruct (decide (S l < n)%nat) as [H|H]; [by rewrite (lu_stop LU l i) in E|lia]).
    apply wp_ret. rewrite <- En in C1. replace l with (n - 1)%nat by lia. by apply HQ.
  - destruct (decide (S l < n)%nat) as [H|H].
    + apply (IH (S l)); [done|done|done|done|lia|done|]. intros h2 F2 C2. apply HQ; [by etrans|done].
    + assert (n = S l) as En by lia. destruct (lu_end LU i Hi) as [Hn|Hn].
      * assert (b = 0%nat) as -> by lia. apply wp_ret. rewrite <- En in C1. replace l with (n - 1)%nat by lia. by apply HQ.
      * replace (n - 1)%nat with l in Hn by lia. congruence.
Qed.
Lemma wp_lowest i h l fuel (Q : nat -> dom -> Prop) : chain_done n i h -> (l < n)%nat -> (l < fuel)%nat -> Q (A KSd 0 i) h ->
  wp (lowest_child fuel (A KSd l i)) h Q.
Proof.
  intros Hc. revert fuel. induction l as [|l IH]; intros fuel Hl Hf HQ; (destruct fuel as [|fuel]; [lia|]); cbn [lowest_child];
    destruct (Hc _ Hl) as (d & Ed & Hd); apply wp_bind, (wp_sd_at _ d); [done| |done|]; rewrite (do_child _ _ _ _ Hd); cbn [child_at].
  - by apply wp_ret.
  - apply IH; [lia|lia|done].
Qed.

(** The domains of the processors [js] are built, and the array [p] has the lowest. *)
Context (p : nat).
Record built (js : list nat) h h' : Prop := {
  bt_eq : h' = h <| sds := sds h' |> <| sched_domain_level_max := sched_domain_level_max h' |> <| percpus := percpus h' |>;
  bt_sd : forall a, (forall l i, (l < n)%nat -> i ∈ js -> a <> A KSd l i) -> sds h' !! a = sds h !! a;
  bt_live : forall a, is_Some (sds h' !! a) <-> is_Some (sds h !! a);
  bt_chain : forall i, i ∈ js -> chain_done n i h';
  bt_percpu : forall q, q <> p -> percpus h' !! q = percpus h !! q;
  bt_base : exists f, percpus h' !! p = Some f /\ forall i, i ∈ js -> f i = Some (A KSd 0 i) }.

Lemma built_laid js h h' : (forall k l, tab k h l <> Some p) -> built js h h' -> laid_out h -> laid_out h' /\ (forall k l, tab k h' l = tab k h l).
Proof.
  intros Hp [E S L C P B] [L1 L2 L3]. assert (forall k l, tab k h' l = tab k h l) as Ht by (intros k l; unfold tab; by rewrite E). split; [|done]. split.
  - by rewrite E.
  - intros k l j Hl Hj. rewrite <- (L2 k l j Hl Hj). unfold entry. rewrite Ht. unfold slot. destruct (tab k h l) as [q|] eqn:Eq; [|done].
    rewrite P; [done|]. intros ->. by apply (Hp k l).
  - intros k l j Hl Hj. specialize (L3 k l j Hl Hj). destruct k.
    + apply live_sd, L. by apply live_sd.
    + apply live_sg. rewrite E. by apply live_sg.
    + apply live_sgp. rewrite E. by apply live_sgp.
Qed.
(** The other processors keep theirs. *)
Lemma frame_chain i j h h' : i ∈ cpus cm -> j ∈ cpus cm -> i <> j -> sd_frame i h h' -> chain_done n j h -> chain_done n j h'.
Proof.
  intros Hi Hj Hne F Hc l Hl. destruct (Hc l Hl) as (d & Ed & Hd). exists d. split; [|done]. rewrite (sf_sd _ _ _ F); [done|].
  intros l' Hl' E. assert (level topo l) as Hll by (unfold level; pose proof (lu_pos LU); lia). by destruct (SEP KSd l j l' i) as [_ <-]; auto using used_level.
Qed.
Lemma wp_build_cpu s i js h0 h (Q : unit -> dom -> Prop) : s_sd s = Some p -> force_sd_overlap h0 = false -> (forall k l, tab k h0 l <> Some p) -> laid_out h0 ->
  built js h0 h -> i ∈ cpus cm -> (forall j, j ∈ js -> j ∈ cpus cm) -> i ∉ js ->
  (forall h', built (js ++ [i]) h0 h' -> Q tt h') -> wp (build_cpu cm attr s i) h Q.
Proof.
  intros Es Hov Hp Hlo B Hi Hjs Hni HQ. pose proof (built_laid _ _ _ Hp B Hlo) as [Hl Ht]. pose proof (lu_pos LU) as Hn.
  assert (length (topology h) = length topo) as El by (rewrite <- (lo_topo h Hl); by rewrite length_fmap).
  unfold build_cpu. apply wp_bind, wp_gets, wp_bind. rewrite El. apply (wp_build_levels (length topo) 0 i h); [by rewrite (bt_eq _ _ _ B)|done|done|lia|done| |].
  { intros l Hl0. lia. }
  intros h1 F1 C1. apply wp_bind, wp_deref, wp_bind, (wp_lowest i); [done|lia|rewrite length_seq; lia|]. rewrite Es.
  destruct (bt_base _ _ _ B) as (f & Ef & Hf). assert (percpus h1 = percpus h) as E1 by (rewrite (sf_eq _ _ _ F1); done).
  apply (wp_per_cpu_set p f); [by rewrite E1|]. apply HQ. pose proof B as [B1 B2 B3 B4 B5 B6]. split; cbn.
  - rewrite (sf_eq _ _ _ F1). rewrite B1. by destruct h0.
  - intros a Ha. rewrite (sf_sd _ _ _ F1); [apply B2; intros; apply Ha; [done|set_solver]|]. intros l Hlv. apply Ha; [done|set_solver].
  - intros a. by rewrite (sf_live _ _ _ F1).
  - intros j [Hj| ->%list_elem_of_singleton]%elem_of_app; [|done].
    assert (chain_done n j h1) as Hcj; [|exact Hcj]. apply (frame_chain i j h); auto. by intros ->.
  - intros q Hq. rewrite lookup_insert_ne by done. rewrite E1. by apply B5.
  - eexists. rewrite lookup_insert_eq. split; [done|]. intros j Hj. cbn. destruct (Nat.eqb_spec j i) as [->|Hne]; [done|]. apply Hf. set_solver.
Qed.
(** The first loop of build_sched_domains() *)
Lemma wp_build_all s h (Q : unit -> dom -> Prop) : s_sd s = Some p -> force_sd_overlap h = false -> (forall k l, tab k h l <> Some p) -> laid_out h -> is_Some (percpus h !! p) ->
  (forall h', built (cpus cm) h h' -> Q tt h') -> wp (for_each (cpus_of cm) (build_cpu cm attr s)) h Q.
Proof.
  intros Es Hov Hp Hlo [f Ef] HQ. apply (wp_for_each _ _ (fun js h' => built js h h')).
  - split; try done; [by destruct h|..]. { by intros i ?%not_elem_of_nil. } exists f. split; [done|]. by intros i ?%not_elem_of_nil.
  - intros js i js' h1 E B1. pose proof (cpus_nodup cm) as Hnd. rewrite E in Hnd. apply NoDup_app in Hnd as (_ & Hx & _).
    apply (wp_build_cpu s i js h); try done; unfold cpus; rewrite ?E; [set_solver|set_solver|]. intros Hin. apply (Hx i Hin). by left.
  - done.
Qed.
End build.
