(* ===== verification/DomRings.v ===== *)
(** build_sched_domains(): the groups of all domains, with their references. *)

From S2P Require Import Prelude KList Sched Affinity Smp RtSmp RtPush SmpSpec RtBorrow RtBorrowSpec Migrate MigrateSpec RootSpec Domains DomLogic DomAlloc DomVisit DomGroups DomTopo DomBuild.

Section frame.
Context {SK : SKTypes} {ST : SmpTypes} {CM : CpuMask} {CMS : CpuMasks} {CML : CpuMasksLaws} {DM : DomMasks} {DE : DomEnv} {DL : DomLaws}.
Implicit Types (h : dom).

(** A divided span depends on its processors and on the groups it has. *)
Lemma divided_ext S S' g B C h : cpus_of S = cpus_of S' -> divided S g B C h -> divided S' g B C h.
Proof. intros E [H1 H2]. unfold divided, group_done in *. by rewrite <- E. Qed.
Lemma divided_frame S g B C h h' : (forall r, r ∈ heads_of g (cpus_of S) ->
    (exists x x', sgs h !! B r = Some x /\ sgs h' !! B r = Some x' /\ g_next x' = g_next x /\ g_sgp x' = g_sgp x /\ g_cpus x' = g_cpus x) /\
    p_ref <$> sgps h' !! C r = p_ref <$> sgps h !! C r) ->
  divided S g B C h -> divided S g B C h'.
Proof.
  intros Hf [Hr Hd]. split.
  - unfold ring in *. destruct (B <$> heads_of g (cpus_of S)) as [|a l] eqn:E; [done|]. apply (linked_frame h); [|done].
    intros b Hb. assert (b ∈ B <$> heads_of g (cpus_of S)) as (r & -> & Hr')%list_elem_of_fmap.
    { rewrite E. change ((a :: l) ++ [a]) with (a :: (l ++ [a])) in Hb. replace (removelast (a :: l ++ [a])) with (a :: l) in Hb; [done|].
      change (a :: l ++ [a]) with ((a :: l) ++ [a]). by rewrite removelast_last. }
    destruct (Hf r Hr') as [(x & x' & -> & -> & En & _) _]. cbn. by rewrite En.
  - intros r Hh. destruct (Hd r Hh) as (x & q & Ex & Es & Hm & Eq & Ep). destruct (Hf r Hh) as [(y & x' & Ey & Ex' & _ & Es' & Em') Hp].
    assert (y = x) as -> by congruence. rewrite Eq in Hp. destruct (sgps h' !! C r) as [q'|] eqn:Eq'; [|done]. cbn in Hp. injection Hp as Hp.
    exists x', q'. split_and!; [done|by rewrite Es'|by rewrite Em'|done|by rewrite Hp].
Qed.
End frame.

Section rings.
Context {SK : SKTypes} {ST : SmpTypes} {CM : CpuMask} {CMS : CpuMasks} {CML : CpuMasksLaws} {DM : DomMasks} {DE : DomEnv} {DL : DomLaws}.
Context (topo : list topology_level) (cm : Z) (TOK : topo_ok topo).
Context (A : kind -> nat -> nat -> nat) (n : nat) (LU : levels_used topo cm n) (SEP : separate topo cm A).
Context (NR : nr_cpu_ids < 2 ^ 31).
Implicit Types (h : dom) (a c i j l m r : nat) (k : kind) (d : sdom).
#[local] Abbreviation rep := (rep topo cm).
#[local] Abbreviation cpus := (cpus cm).
#[local] Abbreviation span l i := (cpus_of (span_at topo cm l i)).

(** The groups of the span of [i] on the level [l] are complete. *)
Definition ringed l i h : Prop := divided (span_at topo cm l i) (rep l) (A KSg l) (A KSgp l) h.

Lemma used l : (l < n)%nat -> level topo l.
Proof. by apply (used_level topo cm n LU). Qed.
Lemma span_cpus l i j : j ∈ span l i -> j ∈ cpus.
Proof. intros [Hj H]%in_span_cpus. by eapply span_sub. Qed.
Lemma same_span l i j : level topo l -> i ∈ cpus -> j ∈ span l i -> span l j = span l i.
Proof. intros Hl Hi Hj. apply span_cpus_eq; [done|done|done|by eapply span_cpus|by apply in_span_cpus in Hj as [_ ?]]. Qed.
Lemma self_span l i : level topo l -> i ∈ cpus -> i ∈ span l i.
Proof. intros Hl Hi. apply span_in; [by apply in_cpus in Hi as [? _]|by apply span_self]. Qed.
Lemma span_heads l i : level topo l -> i ∈ cpus -> heads_ok (span_at topo cm l i) (rep l) (A KSg l) (A KSgp l).
Proof.
  intros Hl Hi. split.
  - intros j Hj. rewrite <- (same_span l i j) by done. apply rep_span; [done|done|by eapply span_cpus].
  - intros j Hj%span_cpus. by apply rep_rep.
  - intros j Hj%span_cpus. by apply rep_least.
  - intros x y Hx%span_cpus Hy%span_cpus E. by destruct (SEP KSg l (rep l x) l (rep l y)) as [_ ?]; [done|done|apply rep_cpu|apply rep_cpu|done|].
  - intros x y Hx%span_cpus Hy%span_cpus E. by destruct (SEP KSgp l (rep l x) l (rep l y)) as [_ ?]; [done|done|apply rep_cpu|apply rep_cpu|done|].
Qed.

(** How many of the processors of [ds] refer to the group of [r]. *)
Definition refs l r (ds : list (nat * nat)) : nat := length (filter (fun q => q.1 = l /\ rep l q.2 = r) ds).

(** The domains [ds], given by level and processor, have their groups. *)
Record groups_of (ds : list (nat * nat)) h0 h : Prop := {
  gs_eq : h = h0 <| sds := sds h |> <| sgs := sgs h |> <| sgps := sgps h |> <| sg_power := sg_power h |>;
  gs_dom : forall l i, (l < n)%nat -> i ∈ cpus -> exists d, sds h !! A KSd l i = Some d /\ dom_ok topo cm A n l i d /\
    ((l, i) ∈ ds -> d_groups d = Some (A KSg l (rep l i)));
  gs_sd : forall a, (forall l i, (l < n)%nat -> i ∈ cpus -> a <> A KSd l i) -> sds h !! a = sds h0 !! a;
  gs_sg : forall a, (forall l i, (l < n)%nat -> i ∈ cpus -> a <> A KSg l (rep l i)) -> sgs h !! a = sgs h0 !! a;
  gs_sgp : forall a, (forall l i, (l < n)%nat -> i ∈ cpus -> a <> A KSgp l (rep l i)) -> sgps h !! a = sgps h0 !! a;
  gs_live : forall k a, live k h a <-> live k h0 a;
  gs_ref : forall l r, (l < n)%nat -> r ∈ cpus -> exists x, sgs h !! A KSg l r = Some x /\ g_ref x = Z.of_nat (refs l r ds);
  gs_ring : forall l i, (l, i) ∈ ds -> (l < n)%nat -> i ∈ cpus -> ringed l i h }.

Lemma groups_laid ds h0 h : groups_of ds h0 h -> laid_out topo cm A h0 -> laid_out topo cm A h.
Proof.
  intros G [L1 L2 L3]. split.
  - by rewrite (gs_eq _ _ _ G).
  - intros k l j Hl Hj. rewrite (gs_eq _ _ _ G). by apply (L2 k l j).
  - intros k l j Hl Hj. apply (gs_live _ _ _ G). auto.
Qed.

Lemma grouping_at ds h0 h l i : groups_of ds h0 h -> laid_out topo cm A h0 -> (l < n)%nat -> i ∈ cpus ->
  grouping l (span_at topo cm l i) (rep l) (A KSg l) (A KSgp l) h.
Proof.
  intros G Hlo Hl Hi. pose proof (used l Hl) as Hlv. pose proof (groups_laid _ _ _ G Hlo) as [_ L2 L3]. split; intros j Hj%span_cpus.
  - destruct (gs_dom _ _ _ G l j Hl Hj) as (d & Ed & Hd & _). exists (A KSd l j), d. split; [by apply L2|]. split; [done|].
    rewrite (do_child _ _ _ _ _ _ _ Hd). destruct l as [|l]; cbn [child_at]; [done|].
    destruct (gs_dom _ _ _ G l j) as (dc & Edc & Hdc & _); [lia|done|]. exists dc. split; [done|]. by rewrite (do_span _ _ _ _ _ _ _ Hdc).
  - assert (rep l j ∈ cpus) as Hr by by apply rep_cpu. split; [by apply L2|]. by apply live_sg, L3.
  - assert (rep l j ∈ cpus) as Hr by by apply rep_cpu. split; [by apply L2|]. by apply live_sgp, L3.
Qed.

(** ** One domain *)

Lemma refs_snoc l r ds q : refs l r (ds ++ [q]) = (refs l r ds + (if decide (q.1 = l /\ rep l q.2 = r) then 1 else 0))%nat.
Proof.
  unfold refs. rewrite filter_app, length_app. f_equal. destruct (decide (q.1 = l /\ rep l q.2 = r)); [by rewrite filter_cons_True|by rewrite filter_cons_False].
Qed.
Lemma refs_bound l r ds : NoDup ds -> (forall q, q ∈ ds -> q.2 ∈ cpus) -> (refs l r ds <= nr_cpus)%nat.
Proof.
  intros Hnd Hin. unfold refs. set (f := filter _ ds). assert (NoDup f) as Hf by by apply NoDup_filter.
  assert (forall q, q ∈ f -> q.1 = l /\ q.2 ∈ cpus) as Hq by (intros q [[? _] ?]%list_elem_of_filter; auto).
  assert (NoDup (f.*2)) as H2.
  { clear -Hf Hq. induction f as [|[a b] f IH]; [constructor|]. apply NoDup_cons in Hf as [Hn Hf]. cbn. constructor; [|apply IH; [done|intros; apply Hq; by right]].
    intros ([a' b'] & E & Hin)%list_elem_of_fmap. cbn in E. subst b'. apply Hn. destruct (Hq (a, b)) as [E1 _]; [by left|].
    destruct (Hq (a', b)) as [E2 _]; [by right|]. cbn in *. by subst a a'. }
  rewrite <- (length_fmap snd f). etrans; [|apply (cpus_length cm)]. apply submseteq_length, NoDup_submseteq; [done|].
  intros b (q & -> & Hb)%list_elem_of_fmap. by apply Hq.
Qed.

(** The groups of another level or of another span are not touched. *)
Lemma other_groups l i l' i' : level topo l -> level topo l' -> i ∈ cpus -> i' ∈ cpus -> (l' <> l \/ in_span topo cm l i i' = false) ->
  forall k r j, r ∈ span l' i' -> j ∈ span l i -> A k l' r <> A k l (rep l j).
Proof.
  intros Hl Hl' Hi Hi' Hor k r j Hr Hj E. pose proof (span_cpus _ _ _ Hr) as Hrc. pose proof (span_cpus _ _ _ Hj) as Hjc.
  assert (rep l j ∈ cpus) as Hrep by by apply rep_cpu. destruct (SEP k l' r l (rep l j)) as [-> Er]; auto. destruct Hor as [?|Hor]; [done|].
  assert (r ∈ span l i) as Hri by (rewrite Er; rewrite <- (same_span l i j) by done; by apply rep_span).
  assert (i' ∈ span l i) as [_ H]%in_span_cpus; [|congruence].
  rewrite <- (same_span l i r) by done. rewrite (same_span l i' r) by done. by apply self_span.
Qed.
Lemma ring_kept ds h0 h h1 l i sd d l' i' : groups_of ds h0 h -> grouped_domain (span_at topo cm l i) (rep l) (A KSg l) (A KSgp l) sd d i h h1 ->
  (l < n)%nat -> i ∈ cpus -> (l' < n)%nat -> i' ∈ cpus -> ringed l' i' h -> ringed l' i' h1.
Proof.
  intros G D Hl%used Hi Hl'%used Hi' Hr. destruct (decide (l' = l /\ in_span topo cm l i i' = true)) as [[-> H]|Hn].
  - assert (i' ∈ span l i) as Hin by (apply span_in; [by apply in_cpus in Hi' as [? _]|done]).
    apply (divided_ext (span_at topo cm l i)); [symmetry; by apply same_span|]. apply (gd_divided _ _ _ _ _ _ _ _ _ D).
    apply (divided_ext (span_at topo cm l i')); [by apply same_span|done].
  - assert (l' <> l \/ in_span topo cm l i i' = false) as Hor by (destruct (decide (l' = l)), (in_span topo cm l i i'); naive_solver).
    apply (divided_frame _ _ _ _ h); [|done]. intros r Hh. pose proof (proj1 (heads_sub _ _ _) Hh) as [_ Hin]. split.
    + destruct Hr as [_ Hd]. destruct (Hd r Hh) as (x & q & Ex & _). exists x, x. rewrite (gd_sg _ _ _ _ _ _ _ _ _ D) by (intros j Hj; by apply (other_groups l i l' i')). done.
    + by rewrite (gd_sgp _ _ _ _ _ _ _ _ _ D) by (intros j Hj; by apply (other_groups l i l' i')).
Qed.

Lemma addr_sd l i l' i' : (l < n)%nat -> (l' < n)%nat -> i ∈ cpus -> i' ∈ cpus -> (l', i') <> (l, i) -> A KSd l' i' <> A KSd l i.
Proof. intros Hl%used Hl'%used Hi Hi' Hne E. destruct (SEP KSd l' i' l i) as [-> ->]; auto. Qed.
(** A domain apart from its groups and its weight. *)
Lemma groups_write ds h0 h l i d (f : sdom -> sdom) : groups_of ds h0 h -> (l < n)%nat -> i ∈ cpus -> sds h !! A KSd l i = Some d ->
  dom_ok topo cm A n l i (f d) -> ((l, i) ∈ ds -> d_groups (f d) = d_groups d) -> groups_of ds h0 (h <| sds ::= <[A KSd l i := f d]> |>).
Proof.
  intros [G1 G2 G3 G4 G5 G6 G7 G8] Hl Hi Ed Hf Hg. split; try done.
  - cbn. rewrite G1. by destruct h0.
  - intros l' i' Hl' Hi'. cbn. destruct (decide ((l', i') = (l, i))) as [[= -> ->]|Hne].
    + exists (f d). rewrite lookup_insert_eq. split_and!; try done. intros Hin. rewrite Hg by done.
      destruct (G2 l i Hl Hi) as (d' & Ed' & _ & H). assert (d' = d) as -> by congruence. by apply H.
    + rewrite lookup_insert_ne by (apply not_eq_sym; by apply addr_sd). by apply G2.
  - intros a Ha. cbn. rewrite lookup_insert_ne by (intros <-; by apply (Ha l i)). by apply G3.
  - intros k a. rewrite <- G6. destruct k; [|done|done]. rewrite !live_sd. cbn.
    destruct (decide (a = A KSd l i)) as [->|]; [rewrite lookup_insert_eq, Ed; split; by eexists|by rewrite lookup_insert_ne].
  - intros l' i' Hin Hl' Hi'. apply sds_divided. by apply G8.
Qed.
Lemma refs_grow ds h0 h h' l i sd d : groups_of ds h0 h -> grouped_domain (span_at topo cm l i) (rep l) (A KSg l) (A KSgp l) sd d i h h' ->
  (l < n)%nat -> i ∈ cpus -> (l, i) ∉ ds -> NoDup ds -> (forall q, q ∈ ds -> q.2 ∈ cpus) ->
  forall l' r, (l' < n)%nat -> r ∈ cpus -> exists x, sgs h' !! A KSg l' r = Some x /\ g_ref x = Z.of_nat (refs l' r (ds ++ [(l, i)])).
Proof.
  intros G D Hl Hi Hnew Hnd Hin l' r Hl' Hr. destruct (gs_ref _ _ _ G l' r Hl' Hr) as (x & Ex & Ef).
  pose proof (gd_ref _ _ _ _ _ _ _ _ _ D (A KSg l' r)) as Hg. rewrite Ex in Hg. cbn in Hg.
  destruct (sgs h' !! A KSg l' r) as [x'|]; [|done]. exists x'. split; [done|]. cbn in Hg. injection Hg as ->. rewrite refs_snoc. cbn [fst snd].
  assert (rep l i ∈ cpus) as Hrc by (apply rep_cpu; auto using used).
  assert ((A KSg l' r =? A KSg l (rep l i))%nat = bool_decide (l = l' /\ rep l' i = r)) as ->.
  { apply eq_true_iff_eq. rewrite Nat.eqb_eq, bool_decide_eq_true. split; [|by intros [-> <-]].
    intros E. by destruct (SEP KSg l' r l (rep l i)) as [-> ->]; auto using used. }
  rewrite Ef. case_bool_decide as Hc; [rewrite decide_True by done|rewrite decide_False by done; lia].
  assert (NoDup (ds ++ [(l, i)])) as Hnd' by (apply NoDup_app; split; [done|split; [intros q Hq ->%list_elem_of_singleton; done|apply NoDup_singleton]]).
  pose proof (refs_bound l' r _ Hnd') as Hb. rewrite refs_snoc in Hb. cbn [fst snd] in Hb. rewrite decide_True in Hb by done.
  assert (refs l' r ds + 1 <= nr_cpus)%nat as Hb'.
  { apply Hb. intros q [Hq| ->%list_elem_of_singleton]%elem_of_app; [by apply Hin|done]. }
  unfold nr_cpus in Hb'. pose proof nr_cpu_ids_range. rewrite s32_small by lia. lia.
Qed.
Lemma groups_step ds h0 h h' l i d : laid_out topo cm A h0 -> groups_of ds h0 h -> (l < n)%nat -> i ∈ cpus -> sds h !! A KSd l i = Some d ->
  grouped_domain (span_at topo cm l i) (rep l) (A KSg l) (A KSgp l) (A KSd l i) d i h h' ->
  (l, i) ∉ ds -> NoDup ds -> (forall q, q ∈ ds -> q.2 ∈ cpus) -> ringed l i h' -> groups_of (ds ++ [(l, i)]) h0 h'.
Proof.
  intros Hlo G Hl Hi Ed D Hnew Hnd Hin Hring. pose proof G as [G1 G2 G3 G4 G5 G6 G7 G8]. pose proof (gd_sds _ _ _ _ _ _ _ _ _ D) as Es.
  assert (forall j, j ∈ span l i -> rep l j = rep l j /\ j ∈ cpus) as Hspan by (intros j Hj; split; [done|by eapply span_cpus]).
  split; try done.
  - rewrite (gd_eq _ _ _ _ _ _ _ _ _ D). cbn. rewrite G1. by destruct h0.
  - intros l' i' Hl' Hi'. rewrite Es. destruct (decide ((l', i') = (l, i))) as [[= -> ->]|Hne].
    + eexists. rewrite lookup_insert_eq. split; [done|]. destruct (G2 l i Hl Hi) as (d' & Ed' & [P1 P2 P3 P4 P5] & _).
      assert (d' = d) as -> by congruence. split; [by split|done].
    + rewrite lookup_insert_ne by (apply not_eq_sym; by apply addr_sd). destruct (G2 l' i' Hl' Hi') as (d' & Ed' & Hd' & Hg).
      exists d'. split_and!; [done|done|]. intros [H|H%list_elem_of_singleton]%elem_of_app; [by apply Hg|done].
  - intros a Ha. rewrite Es, lookup_insert_ne by (intros <-; by apply (Ha l i)). by apply G3.
  - intros a Ha. rewrite (gd_sg _ _ _ _ _ _ _ _ _ D); [by apply G4|]. intros j Hj. apply Ha; [done|by apply Hspan].
  - intros a Ha. rewrite (gd_sgp _ _ _ _ _ _ _ _ _ D); [by apply G5|]. intros j Hj. apply Ha; [done|by apply Hspan].
  - intros k a. rewrite <- G6. destruct k.
    + rewrite !live_sd, Es. destruct (decide (a = A KSd l i)) as [->|]; [rewrite lookup_insert_eq, Ed; split; by eexists|by rewrite lookup_insert_ne].
    + rewrite !live_sg. pose proof (gd_ref _ _ _ _ _ _ _ _ _ D a) as Hr. destruct (sgs h' !! a), (sgs h !! a); try done; split; by eexists.
    + rewrite !live_sgp. split; [|apply (gd_live _ _ _ _ _ _ _ _ _ D)]. intros Hs.
      destruct (decide (Exists (fun j => a = A KSgp l (rep l j)) (span l i))) as [(j & Hj & ->)%Exists_exists|Hno].
      * apply live_sgp, G6. apply (lo_live _ _ _ _ Hlo); [by apply used|]. apply rep_cpu; auto using used. by eapply span_cpus.
      * rewrite (gd_sgp _ _ _ _ _ _ _ _ _ D) in Hs; [done|]. intros j Hj E. apply Hno, Exists_exists. by exists j.
  - by apply (refs_grow ds h0 h h' l i (A KSd l i) d).
  - intros l' i' [H|[= -> ->]%list_elem_of_singleton]%elem_of_app Hl' Hi'; [|done]. apply (ring_kept ds h0 h _ l i (A KSd l i) d); auto.
Qed.

(** The body of the second loop of build_sched_domains() *)
Definition first_done l i (ds : list (nat * nat)) : Prop := i = cpumask_first (span_at topo cm l i) \/ (l, cpumask_first (span_at topo cm l i)) ∈ ds.
Lemma wp_build_groups ds h0 h l i (Q : Z -> dom -> Prop) : laid_out topo cm A h0 -> groups_of ds h0 h -> (l < n)%nat -> i ∈ cpus ->
  (l, i) ∉ ds -> NoDup ds -> (forall q, q ∈ ds -> q.2 ∈ cpus) -> first_done l i ds ->
  (forall h', groups_of (ds ++ [(l, i)]) h0 h' -> Q 0 h') -> wp (build_groups i (A KSd l i)) h Q.
Proof.
  intros Hlo G Hl Hi Hnew Hnd Hin Hfirst HQ. destruct (gs_dom _ _ _ G l i Hl Hi) as (d & Ed & Hd & _). pose proof (used l Hl) as Hlv.
  unfold build_groups. apply wp_bind, (wp_upd_sd _ d); [done|]. set (f := fun d => d <| d_weight := u32 (cpumask_weight (d_span d)) |>). set (h1 := h <| sds ::= _ |>).
  assert (sds h1 !! A KSd l i = Some (f d)) as Ed1 by (cbn; by rewrite lookup_insert_eq).
  assert (dom_ok topo cm A n l i (f d)) as Hd1 by (destruct Hd; by split).
  assert (groups_of ds h0 h1) as G1 by by apply (groups_write ds h0 h l i d f).
  apply wp_bind, (wp_sd_at _ (f d)); [done|]. rewrite (do_plain _ _ _ _ _ _ _ Hd1).
  eapply wp_mono; [apply (build_groups_holds l (span_at topo cm l i) (rep l) (A KSg l) (A KSgp l) (span_heads l i Hlv Hi) _ (f d))|].
  - by apply (grouping_at ds h0).
  - done.
  - apply (do_span _ _ _ _ _ _ _ Hd1).
  - apply (do_private _ _ _ _ _ _ _ Hd1).
  - by apply self_span.
  - intros r h2 [-> D]. apply HQ. apply (groups_step ds h0 h1 h2 l i (f d)); try done.
    destruct (gd_divided _ _ _ _ _ _ _ _ _ D) as [H1 H2]. destruct Hfirst as [Hf|Hf]; [by apply H1|]. apply H2.
    set (x := cpumask_first _) in *. assert (x ∈ span l i) as Hx by (by apply (first_in _ i), self_span).
    pose proof (gs_ring _ _ _ G1 l x Hf Hl (span_cpus _ _ _ Hx)) as Hr.
    apply (divided_ext (span_at topo cm l x)); [by apply same_span|done].
Qed.

(** ** All domains *)

Definition pairs_of (i : nat) (ls : list nat) : list (nat * nat) := (fun l => (l, i)) <$> ls.
Lemma wp_groups_from i h0 b l ds h fuel (Q : Z -> dom -> Prop) : laid_out topo cm A h0 -> groups_of (ds ++ pairs_of i (seq 0 l)) h0 h -> i ∈ cpus -> n = (l + b)%nat -> (b <= fuel)%nat ->
  (forall l', (l', i) ∉ ds) -> NoDup ds -> (forall q, q ∈ ds -> q.2 ∈ cpus) -> (forall l', (l' < n)%nat -> first_done l' i ds) ->
  (forall h', groups_of (ds ++ pairs_of i (seq 0 n)) h0 h' -> Q 0 h') ->
  wp (chain_try fuel (if (l <? n)%nat then Some (A KSd l i) else None) (build_groups i)) h Q.
Proof.
  intros Hlo G Hi. revert l h fuel G. induction b as [|b IH]; intros l h fuel G En Hf Hnew Hnd Hin Hfirst HQ.
  - rewrite (proj2 (Nat.ltb_ge _ _)) by lia. replace l with n in G by lia. destruct fuel; apply wp_ret; by apply HQ.
  - assert (l < n)%nat as Hl by lia. rewrite (proj2 (Nat.ltb_lt l n)) by lia. destruct fuel as [|fuel]; [lia|]. cbn [chain_try].
    apply wp_bind, (wp_build_groups (ds ++ pairs_of i (seq 0 l)) h0); try done.
    + rewrite elem_of_app. intros [?|(x & [= ->] & Hx%elem_of_seq)%list_elem_of_fmap]; [by apply (Hnew l)|lia].
    + apply NoDup_app. split; [done|]. split; [intros [x y] Hq (z & [= -> ->] & _)%list_elem_of_fmap; by apply (Hnew z)|].
      apply NoDup_fmap; [by intros ? ? [= ->]|apply NoDup_seq].
    + intros q [Hq|(x & -> & _)%list_elem_of_fmap]%elem_of_app; [by apply Hin|done].
    + destruct (Hfirst l Hl) as [?|?]; [by left|right]. apply elem_of_app. by left.
    + intros h1 G1. cbn [c_true]. change (c_true 0) with false. cbn iota.
      destruct (gs_dom _ _ _ G1 l i Hl Hi) as (d & Ed & Hd & _). apply wp_bind, (wp_sd_at _ d); [done|]. rewrite (do_parent _ _ _ _ _ _ _ Hd).
      assert ((ds ++ pairs_of i (seq 0 l)) ++ [(l, i)] = ds ++ pairs_of i (seq 0 (S l))) as E.
      { rewrite <- app_assoc, seq_S. unfold pairs_of. by rewrite fmap_app. }
      rewrite E in G1. apply (IH (S l)); (done || lia).
Qed.
Definition all_pairs (js : list nat) : list (nat * nat) := concat ((fun i => pairs_of i (seq 0 n)) <$> js).
Lemma in_all_pairs js l i : (l, i) ∈ all_pairs js <-> (l < n)%nat /\ i ∈ js.
Proof.
  unfold all_pairs. rewrite list_elem_of_In, in_concat. split.
  - intros (x & (j & -> & Hj)%list_elem_of_In%list_elem_of_fmap & (z & [= -> ->] & Hz%elem_of_seq)%list_elem_of_In%list_elem_of_fmap). split; [lia|done].
  - intros [Hl Hi]. exists (pairs_of i (seq 0 n)). split; apply list_elem_of_In, list_elem_of_fmap; [by exists i|]. exists l. split; [done|]. apply elem_of_seq. lia.
Qed.
Lemma all_pairs_snoc js i : all_pairs (js ++ [i]) = all_pairs js ++ pairs_of i (seq 0 n).
Proof. unfold all_pairs. rewrite fmap_app, concat_app. cbn. by rewrite app_nil_r. Qed.
Lemma all_pairs_nodup js : NoDup js -> NoDup (all_pairs js).
Proof.
  induction js as [|i js IH]; intros Hnd; [constructor|]. apply NoDup_cons in Hnd as [Hi Hnd]. unfold all_pairs. cbn. fold (all_pairs js).
  apply NoDup_app. split; [apply NoDup_fmap; [by intros ? ? [= ->]|apply NoDup_seq]|]. split; [|by apply IH].
  intros [l j] (z & [= -> ->] & _)%list_elem_of_fmap [_ Hj]%in_all_pairs. done.
Qed.
(** The second loop of build_sched_domains() *)
Lemma wp_groups_all s p f h0 (Q : Z -> dom -> Prop) : s_sd s = Some p -> percpus h0 !! p = Some f -> (forall i, i ∈ cpus -> f i = Some (A KSd 0 i)) ->
  laid_out topo cm A h0 -> groups_of [] h0 h0 -> (forall h', groups_of (all_pairs cpus) h0 h' -> Q 0 h') ->
  wp (try_each (cpus_of cm) (groups_of_cpu s)) h0 Q.
Proof.
  intros Es Ef Hf Hlo G HQ. apply (wp_try_each _ _ (fun js h => groups_of (all_pairs js) h0 h) (fun _ _ => False)); [done|..|done|done].
  intros js i js' h E G1. pose proof (cpus_nodup cm) as Hnd. rewrite E in Hnd. apply NoDup_app in Hnd as (Hnd & Hx & _).
  assert (i ∈ cpus /\ forall j, j ∈ js -> j ∈ cpus) as [Hi Hjs] by (unfold DomTopo.cpus; rewrite E; set_solver).
  assert (length (topology h) = length topo) as El by (rewrite <- (lo_topo _ _ _ _ (groups_laid _ _ _ G1 Hlo)); by rewrite length_fmap).
  unfold groups_of_cpu. apply wp_bind, wp_gets. rewrite Es. apply wp_bind, (wp_per_cpu_get p f); [by rewrite (gs_eq _ _ _ G1)|].
  rewrite Hf by done. pose proof (lu_pos _ _ _ LU) as Hn. assert (Some (A KSd 0 i) = if (0 <? n)%nat then Some (A KSd 0 i) else None) as -> by (by rewrite (proj2 (Nat.ltb_lt 0 n)) by lia).
  apply (wp_groups_from i h0 n 0 (all_pairs js)); [done|by rewrite app_nil_r|done|done|lia|..].
  - intros l' [_ Hin]%in_all_pairs. apply (Hx i Hin). by left.
  - by apply all_pairs_nodup.
  - intros [l j] [_ Hj]%in_all_pairs. by apply Hjs.
  - intros l Hl. set (x := cpumask_first (span_at topo cm l i)). assert (x ∈ span l i) as Hx' by (apply (first_in _ i), self_span; auto using used).
    assert (x <= i)%nat as Hle by (apply first_least, self_span; auto using used).
    destruct (decide (x = i)) as [Ex|Hne]; [by left|right]. apply in_all_pairs. split; [done|].
    pose proof (span_cpus _ _ _ Hx') as Hxc. unfold DomTopo.cpus in Hxc. rewrite E, elem_of_app, elem_of_cons in Hxc. destruct Hxc as [?|[?|Hxc]]; [done|done|].
    pose proof (cpus_sorted cm js i js' x E Hxc). lia.
  - intros h' G'. left. split; [done|]. by rewrite all_pairs_snoc.
Qed.
(** The state before. *)
Lemma groups_start h : laid_out topo cm A h -> (forall i, i ∈ cpus -> chain_done topo cm A n i h) ->
  (forall l r, level topo l -> r ∈ cpus -> g_ref <$> sgs h !! A KSg l r = Some 0) -> groups_of [] h h.
Proof.
  intros Hlo Hc Hr. split; try done.
  - by destruct h.
  - intros l i Hl Hi. destruct (Hc i Hi l Hl) as (d & Ed & Hd). exists d. split_and!; [done|done|]. by intros ?%not_elem_of_nil.
  - intros l r Hl Hin. specialize (Hr l r (used l Hl) Hin). destruct (sgs h !! A KSg l r) as [x|]; [|done]. exists x. split; [done|]. apply (inj Some) in Hr. by rewrite Hr.
  - by intros l i ?%not_elem_of_nil.
Qed.
End rings.
