(* ===== verification/DomClaim.v ===== *)
(** build_sched_domains(): the groups are weighed, and what the domains keep is
    taken out of the tables that are freed at the end. *)

From S2P Require Import Prelude KList Sched Affinity Smp RtSmp RtPush SmpSpec RtBorrow RtBorrowSpec Migrate MigrateSpec RootSpec Domains DomLogic DomAlloc DomVisit DomGroups DomDebug DomTopo DomBuild DomRings.

(** ** Tables and rings *)

Section parts.
Context {SK : SKTypes} {ST : SmpTypes} {CM : CpuMask} {CMS : CpuMasks} {CML : CpuMasksLaws} {DM : DomMasks} {DE : DomEnv} {DL : DomLaws}.
Implicit Types (h : dom) (a b i j l q : nat) (k : kind) (x : sgroup).

Definition tabs_inj h : Prop := forall k l k' l' q, tab k h l = Some q -> tab k' h l' = Some q -> k = k' /\ l = l'.
(** An entry of a table becomes NULL. *)
Record forgot (P : kind -> nat -> nat -> Prop) `{forall k l j, Decision (P k l j)} h h' : Prop := {
  fo_eq : h' = h <| percpus := percpus h' |>;
  fo_entry : forall k l j, entry k h' l j = if decide (P k l j) then None else entry k h l j;
  fo_other : forall q, (forall k l, tab k h l <> Some q) -> percpus h' !! q = percpus h !! q;
  fo_live : forall q, is_Some (percpus h' !! q) <-> is_Some (percpus h !! q) }.

Lemma forgot_tab P `{forall k l j, Decision (P k l j)} h h' k l : forgot P h h' -> tab k h' l = tab k h l.
Proof. intros F. by rewrite (fo_eq _ _ _ F). Qed.
Lemma forgot_trans (P1 P2 P3 : kind -> nat -> nat -> Prop) `{forall k l j, Decision (P1 k l j)} `{forall k l j, Decision (P2 k l j)} `{forall k l j, Decision (P3 k l j)} h1 h2 h3 :
  (forall k l j, P3 k l j <-> P1 k l j \/ P2 k l j) -> forgot P1 h1 h2 -> forgot P2 h2 h3 -> forgot P3 h1 h3.
Proof.
  intros HP F1 F2. split.
  - rewrite (fo_eq _ _ _ F2), (fo_eq _ _ _ F1). done.
  - intros k l j. rewrite (fo_entry _ _ _ F2), (fo_entry _ _ _ F1).
    destruct (decide (P2 k l j)), (decide (P1 k l j)), (decide (P3 k l j)) as [H3|H3]; rewrite HP in H3; naive_solver.
  - intros q Hq. rewrite (fo_other _ _ _ F2) by (intros k l; rewrite (forgot_tab _ _ _ _ _ F1); apply Hq). by apply (fo_other _ _ _ F1).
  - intros q. by rewrite (fo_live _ _ _ F2), (fo_live _ _ _ F1).
Qed.
Lemma forgot_none (P : kind -> nat -> nat -> Prop) `{forall k l j, Decision (P k l j)} h : (forall k l j, ~ P k l j) -> forgot P h h.
Proof. intros HP. split; try done; [by destruct h|]. intros k l j. by rewrite decide_False. Qed.

Lemma wp_forget k l lv i a h (Q : unit -> dom -> Prop) : tabs_inj h -> topology h !! l = Some lv -> entry k h l i = Some a ->
  (forall h', forgot (fun k' l' j => k' = k /\ l' = l /\ j = i) h h' -> Q tt h') -> wp (per_cpu_set (data_of k (tl_data lv)) i None) h Q.
Proof.
  intros HT El (lv' & q & m & El' & Eq & Em & _)%entry_some HQ. assert (lv' = lv) as -> by congruence. rewrite Eq.
  assert (tab k h l = Some q) as Et by (unfold tab; by rewrite El). apply (wp_per_cpu_set q m); [done|]. apply HQ. split.
  - by destruct h.
  - intros k' l' j. unfold entry. change (tab k' (h <| percpus ::= _ |>) l') with (tab k' h l').
    destruct (tab k' h l') as [q'|] eqn:E'; cbn; [|by destruct (decide _)]. destruct (decide (q' = q)) as [->|Hne].
    + destruct (HT k' l' k l q E' Et) as [-> ->]. rewrite lookup_insert_eq, Em. destruct (Nat.eqb_spec j i) as [->|Hj]; [by rewrite decide_True|by rewrite decide_False by naive_solver].
    + rewrite lookup_insert_ne by done. rewrite decide_False; [done|]. intros (-> & -> & _). congruence.
  - intros q' Hq'. cbn. apply lookup_insert_ne. intros <-. by apply (Hq' k l).
  - intros q'. cbn. destruct (decide (q' = q)) as [->|]; [rewrite lookup_insert_eq, Em; split; by eexists|by rewrite lookup_insert_ne].
Qed.

(** A group with its number of processors. *)
Definition weigh x : sgroup := x <| g_weight := u32 (cpumask_weight (g_cpus x)) |>.
Definition weighed (js : list nat) h (m : gmap nat sgroup) : Prop := forall b, m !! b = (if decide (b ∈ js) then weigh <$> sgs h !! b else sgs h !! b).
(** A group apart from its weight. *)
Definition unweighed x : sgroup := x <| g_weight := 0 |>.

Lemma weighed_same (js : list nat) h m b : weighed js h m -> unweighed <$> m !! b = unweighed <$> sgs h !! b.
Proof. intros W. rewrite W. destruct (decide _); [|done]. by destruct (sgs h !! b). Qed.
Lemma wp_weight_loop h (first : nat) (l : list nat) fuel a (Q : nat -> dom -> Prop) : linked h (a :: l ++ [first]) -> first ∉ l -> (length l < fuel)%nat ->
  (forall m, weighed (a :: l) h m -> Q first (h <| sgs := m |>)) -> wp (weight_loop fuel (Some first) a) h Q.
Proof.
  revert h a fuel Q. induction l as [|b l IH]; intros h a fuel Q Hl Hn Hf HQ; (destruct fuel as [|fuel]; [cbn in Hf; lia|]);
    destruct Hl as [(x & Ex & En) Hl]; cbn [weight_loop]; apply wp_bind, (wp_sg_at _ x); try done; apply wp_bind, (wp_upd_sg _ x); try done;
    rewrite En; apply wp_bind, wp_deref; change (x <| g_weight := _ |>) with (weigh x).
  - rewrite bool_decide_true by done. apply wp_ret. apply HQ. intros c. unfold setf. cbn. destruct (decide (c = a)) as [->|Hc].
    + rewrite decide_True by by left. by rewrite lookup_insert_eq, Ex.
    + rewrite lookup_insert_ne, decide_False; [done| |done]. by intros ?%list_elem_of_singleton.
  - rewrite bool_decide_false by (intros [= ->]; apply Hn; by left). set (h1 := h <| sgs ::= _ |>).
    assert (forall c, g_next <$> sgs h1 !! c = g_next <$> sgs h !! c) as Hnx.
    { intros c. unfold h1. cbn. destruct (decide (c = a)) as [->|]; [by rewrite lookup_insert_eq, Ex|by rewrite lookup_insert_ne]. }
    apply IH; [by apply (linked_frame h)|set_solver|cbn in Hf; lia|]. intros m W. change (h1 <| sgs := m |>) with (h <| sgs := m |>). apply HQ. intros c. rewrite W.
    unfold h1. cbn. destruct (decide (c = a)) as [->|Hc].
    + rewrite lookup_insert_eq, (decide_True (P := a ∈ a :: b :: l)) by by left. rewrite Ex. by destruct (decide _).
    + rewrite lookup_insert_ne by done. destruct (decide (c ∈ b :: l)); [rewrite decide_True by by right|rewrite decide_False by (rewrite elem_of_cons; naive_solver)]; done.
Qed.
End parts.

Section claim.
Context {SK : SKTypes} {ST : SmpTypes} {CM : CpuMask} {CMS : CpuMasks} {CML : CpuMasksLaws} {DM : DomMasks} {DE : DomEnv} {DL : DomLaws}.
Context (topo : list topology_level) (cm : Z) (TOK : topo_ok topo).
Context (A : kind -> nat -> nat -> nat) (n : nat) (LU : levels_used topo cm n) (SEP : separate topo cm A) (NR : nr_cpu_ids < 2 ^ 31).
Implicit Types (h : dom) (a c i j l q r : nat) (k : kind) (d : sdom) (x : sgroup).
#[local] Abbreviation rep := (rep topo cm).
#[local] Abbreviation cpus := (cpus cm).
#[local] Abbreviation span l i := (cpus_of (span_at topo cm l i)).
#[local] Abbreviation ringed := (ringed topo cm A).
#[local] Abbreviation all_domains := (all_pairs n cpus).

(** All domains have their groups, which count them. *)
Record grouped_all h : Prop := {
  ga_laid : laid_out topo cm A h;
  ga_dom : forall l i, (l < n)%nat -> i ∈ cpus -> exists d, sds h !! A KSd l i = Some d /\ dom_ok topo cm A n l i d /\ d_groups d = Some (A KSg l (rep l i));
  ga_ref : forall l r, (l < n)%nat -> r ∈ cpus -> exists x, sgs h !! A KSg l r = Some x /\ g_ref x = Z.of_nat (refs topo cm l r all_domains);
  ga_pref : forall l r, (l < n)%nat -> r ∈ cpus -> exists s, sgps h !! A KSgp l r = Some s /\ p_ref s = if decide (rep l r = r) then 1 else 0;
  ga_ring : forall l i, (l < n)%nat -> i ∈ cpus -> ringed l i h;
  ga_tabs : tabs_inj h }.

(** A group counts a domain exactly when it stands for itself. *)
Lemma refs_head l r : (l < n)%nat -> r ∈ cpus -> c_true (Z.of_nat (refs topo cm l r all_domains)) = bool_decide (rep l r = r).
Proof.
  intros Hl Hr. unfold c_true. apply eq_true_iff_eq. rewrite negb_true_iff, Z.eqb_neq, bool_decide_eq_true. unfold refs. split.
  - intros Hn. destruct (filter _ _) as [|[l' j] f] eqn:E; [done|]. assert ((l', j) ∈ (l', j) :: f) as H by by left.
    rewrite <- E in H. apply list_elem_of_filter in H as [[<- <-] [_ Hj]%in_all_pairs]. by apply rep_rep; [exact TOK|apply (used topo cm n LU)|].
  - intros Hh Hz. assert ((l, r) ∈ filter (fun q : nat * nat => q.1 = l /\ rep l q.2 = r) all_domains) as H
      by (apply list_elem_of_filter; split; [done|by apply in_all_pairs]).
    destruct (filter _ _); [by apply not_elem_of_nil in H|done].
Qed.

(** ** claim_allocations() *)

Definition claims l i k l' j : Prop := l' = l /\ j = i /\ (k = KSd \/ rep l i = i).
#[local] Instance claims_dec l i k l' j : Decision (claims l i k l' j).
Proof. unfold claims. apply _. Defined.

Lemma wp_claim h l i (Q : unit -> dom -> Prop) : (l < n)%nat -> i ∈ cpus -> tabs_inj h -> bare <$> topology h = topo ->
  (forall k, entry k h l i = Some (A k l i)) -> (exists d, sds h !! A KSd l i = Some d /\ d_private d = l) ->
  (exists x, sgs h !! A KSg l i = Some x /\ c_true (g_ref x) = bool_decide (rep l i = i)) ->
  (exists s, sgps h !! A KSgp l i = Some s /\ c_true (p_ref s) = bool_decide (rep l i = i)) ->
  (forall h', forgot (claims l i) h h' -> Q tt h') -> wp (claim_allocations i (A KSd l i)) h Q.
Proof.
  intros Hl Hi HT Ht He (d & Ed & Ep) (x & Ex & Hx) (s & Es & Hs) HQ.
  destruct (topology h !! l) as [lv|] eqn:El.
  2:{ apply lookup_ge_None in El. rewrite <- (length_fmap bare), Ht in El. pose proof (used topo cm n LU l Hl). unfold level in *. lia. }
  unfold claim_allocations. apply wp_bind, (wp_sd_at _ d); [done|]. rewrite Ep. apply wp_bind, (wp_data_at l lv); [done|].
  apply wp_bind, (wp_entry KSd h l lv i (A KSd l i)); [done|by apply He|]. apply wp_bind, (wp_forget KSd l lv i (A KSd l i)); [done|done|by apply He|]. intros h1 F1.
  assert (forall h2, h2 = h1 \/ forgot (fun k' l' j => k' = KSg /\ l' = l /\ j = i) h1 h2 ->
    topology h2 = topology h /\ tabs_inj h2 /\ sgps h2 = sgps h /\ entry KSgp h2 l i = Some (A KSgp l i)) as Hstep.
  { assert (topology h1 = topology h /\ tabs_inj h1 /\ sgps h1 = sgps h /\ entry KSgp h1 l i = Some (A KSgp l i)) as (S1 & S2 & S3 & S4).
    { split_and!; [by rewrite (fo_eq _ _ _ F1)| |by rewrite (fo_eq _ _ _ F1)|].
      - intros k l' k' l'' q. rewrite !(forgot_tab _ _ _ _ _ F1). apply HT.
      - rewrite (fo_entry _ _ _ F1), decide_False by (by intros [? _]). apply He. }
    intros h2 [->|F2]; [done|]. split_and!; [by rewrite (fo_eq _ _ _ F2)| |by rewrite (fo_eq _ _ _ F2)|].
    - intros k l' k' l'' q. rewrite !(forgot_tab _ _ _ _ _ F2). apply S2.
    - rewrite (fo_entry _ _ _ F2), decide_False by (by intros [? _]). done. }
  destruct (Hstep h1) as (T1 & TI1 & _); [by left|].
  apply wp_bind, (wp_entry KSg h1 l lv i (A KSg l i)); [by rewrite T1|rewrite (fo_entry _ _ _ F1), decide_False by (by intros [? _]); by apply He|].
  apply wp_bind, wp_deref, wp_bind, (wp_sg_at _ x); [by rewrite (fo_eq _ _ _ F1)|]. apply wp_bind. rewrite Hx.
  assert (forall h2, (rep l i <> i /\ h2 = h1) \/ (rep l i = i /\ forgot (fun k' l' j => k' = KSg /\ l' = l /\ j = i) h1 h2) ->
    wp (p ← per_cpu_get (data_sgp (tl_data lv)) i; sgp ← deref p; r ← sgp_at sgp;
      (if c_true (p_ref r) then per_cpu_set (data_sgp (tl_data lv)) i None else mret tt)) h2 Q) as Hend.
  { intros h2 H2. destruct (Hstep h2) as (T2 & TI2 & Es2 & Ee2); [naive_solver|].
    apply wp_bind, (wp_entry KSgp h2 l lv i (A KSgp l i)); [by rewrite T2|done|]. apply wp_bind, wp_deref, wp_bind, (wp_sgp_at _ s); [by rewrite Es2|].
    rewrite Hs. destruct H2 as [[Hne ->]|[Heq F2]].
    - rewrite bool_decide_false by done. apply wp_ret, HQ. eapply (forgot_trans _ (fun _ _ _ => False)); [|exact F1|by apply forgot_none; intros ? ? ? []].
      intros k l' j. unfold claims. naive_solver.
    - rewrite bool_decide_true by done. apply (wp_forget KSgp l lv i (A KSgp l i)); [done|by rewrite T2|done|]. intros h3 F3. apply HQ.
      eapply (forgot_trans (fun k' l' j => k' <> KSgp /\ l' = l /\ j = i)); [|eapply forgot_trans; [|exact F1|exact F2]|exact F3].
      + intros k l' j. unfold claims. destruct k; naive_solver.
      + intros k l' j. destruct k; naive_solver. }
  case_bool_decide as Hh; [|by apply wp_ret, Hend; left].
  apply (wp_forget KSg l lv i (A KSg l i)); [done|by rewrite T1|rewrite (fo_entry _ _ _ F1), decide_False by (by intros [? _]); by apply He|].
  intros h2 F2. apply Hend. by right.
Qed.

(** ** init_sched_groups_power() *)

(** The ring of a domain, from the group of its processor on. *)
Lemma ring_from l i h : (l < n)%nat -> i ∈ cpus -> ringed l i h -> exists rs, (rep l i :: rs ≡ₚ heads_of (rep l) (span l i)) /\
  linked h (A KSg l (rep l i) :: (A KSg l <$> rs) ++ [A KSg l (rep l i)]) /\ A KSg l (rep l i) ∉ A KSg l <$> rs /\ (length rs < S nr_cpus)%nat.
Proof.
  intros Hl Hi [Hr _]. pose proof (used topo cm n LU l Hl) as Hlv. pose proof (span_heads topo cm TOK A SEP l i Hlv Hi) as HO.
  destruct (heads_rotate _ _ _ _ HO i) as (rs & rs' & E); [by apply self_span|]. exists (rs' ++ rs).
  assert (rep l i :: rs' ++ rs ≡ₚ heads_of (rep l) (span l i)) as Hp by (rewrite E; by rewrite <- Permutation_middle, (Permutation_app_comm rs')).
  rewrite E, fmap_app in Hr. apply ring_rotate in Hr. rewrite <- fmap_app in Hr. cbn in Hr.
  assert (NoDup (rep l i :: rs' ++ rs)) as Hnd by (rewrite Hp; apply NoDup_filter, cpus_nodup). apply NoDup_cons in Hnd as [Hn _].
  split_and!; [done|done|..].
  - intros (r & Er & Hin)%list_elem_of_fmap. apply Hn. replace (rep l i) with r; [done|].
    assert (forall y, y ∈ rep l i :: rs' ++ rs -> y ∈ heads_of (rep l) (span l i)) as Hy by (intros y; by rewrite Hp).
    symmetry. apply (heads_inj _ _ _ _ HO _ _ (span l i)); [done|apply Hy; by left|apply Hy; by right|done].
  - apply Permutation_length in Hp. cbn in Hp. pose proof (cpus_length (span_at topo cm l i)) as H1.
    pose proof (length_filter (fun j => rep l j = j) (span l i)) as H2. unfold heads_of in Hp. lia.
Qed.
(** The first processor of a group. *)
Lemma group_first l i x : (l < n)%nat -> i ∈ cpus ->
  (forall c, is_cpu c = true -> cpumask_test_cpu c (g_cpus x) = bool_decide (c ∈ span l i /\ rep l c = rep l i)) -> cpumask_first (g_cpus x) = rep l i.
Proof.
  intros Hl Hi Hm. pose proof (used topo cm n LU l Hl) as Hlv.
  assert (rep l i ∈ cpus_of (g_cpus x)) as Hin.
  { pose proof (rep_span topo cm TOK l i Hlv Hi) as Hs. apply elem_of_cpus. split; [by apply elem_of_cpus in Hs as [? _]|].
    rewrite Hm by by apply elem_of_cpus in Hs as [? _]. apply bool_decide_eq_true. split; [done|by apply rep_rep]. }
  pose proof (first_least _ _ Hin) as Hle. apply first_in, elem_of_cpus in Hin as [Hc Ht]. rewrite Hm in Ht by done. apply bool_decide_eq_true in Ht as [Hs He].
  assert (cpumask_first (g_cpus x) ∈ cpus) as Hcc by (by eapply span_cpus). pose proof (rep_least topo cm TOK l _ Hlv Hcc). lia.
Qed.

(** How many processors of the group are busy, of its power. *)
Definition busy x (s : sgpower) : sgpower := s <| nr_busy_cpus := s32 (u32 (cpumask_weight (g_cpus x))) |>.
Record powered l i h h' : Prop := {
  pw_eq : h' = h <| sgs := sgs h' |> <| sgps := sgps h' |> <| sg_power := sg_power h' |>;
  pw_sg : weighed (A KSg l <$> heads_of (rep l) (span l i)) h (sgs h');
  pw_sgp : forall a, a <> A KSgp l i -> sgps h' !! a = sgps h !! a;
  pw_busy : forall x, sgs h !! A KSg l i = Some x -> sgps h' !! A KSgp l i = (if decide (rep l i = i) then busy x <$> sgps h !! A KSgp l i else sgps h !! A KSgp l i) }.

Lemma wp_power h l i d (Q : unit -> dom -> Prop) : (l < n)%nat -> i ∈ cpus -> ringed l i h ->
  sds h !! A KSd l i = Some d -> d_groups d = Some (A KSg l (rep l i)) ->
  (forall h', powered l i h h' -> Q tt h') -> wp (init_sched_groups_power i (A KSd l i)) h Q.
Proof.
  intros Hl Hi Hr Ed Eg HQ. destruct (ring_from l i h Hl Hi Hr) as (rs & Hp & Hlk & Hn & Hlen).
  unfold init_sched_groups_power. apply wp_bind, (wp_sd_at _ d); [done|]. rewrite Eg. apply wp_bind, wp_deref, wp_bind.
  apply (wp_weight_loop h _ (A KSg l <$> rs)); [done|done|by rewrite length_fmap|]. intros m W. set (h1 := h <| sgs := m |>).
  assert (weighed (A KSg l <$> heads_of (rep l) (span l i)) h m) as W1.
  { intros b. rewrite W. change (A KSg l (rep l i) :: (A KSg l <$> rs)) with (A KSg l <$> (rep l i :: rs)). apply decide_ext. by rewrite Hp. }
  destruct Hr as [_ Hd]. destruct (Hd (rep l i)) as (x & s & Ex & Es & Hm & Eq & _); [rewrite <- Hp; by left|].
  assert (sgs h1 !! A KSg l (rep l i) = Some (weigh x)) as Ex1 by (cbn; rewrite W, decide_True by (by left); by rewrite Ex).
  apply wp_bind. unfold group_first_cpu, sched_group_cpus. apply wp_bind, wp_bind, (wp_sg_at _ (weigh x)); [done|]. apply wp_ret, wp_ret.
  change (g_cpus (weigh x)) with (g_cpus x). rewrite (group_first l i x Hl Hi Hm). destruct (Nat.eqb_spec i (rep l i)) as [E|E]; cbn [negb].
  - apply wp_bind, wp_gets, wp_bind, wp_modify. set (h2 := h1 <| sg_power := _ |>). apply wp_bind, (wp_sg_at _ (weigh x)); [done|].
    cbn [g_sgp weigh]. change (g_sgp (weigh x)) with (g_sgp x). rewrite Es. apply wp_bind, wp_deref, (wp_upd_sgp _ s); [done|]. apply HQ. rewrite <- E in *. split.
    + by destruct h.
    + exact W1.
    + intros a Ha. cbn. by rewrite lookup_insert_ne.
    + intros y Ey. assert (y = x) as -> by congruence. cbn. rewrite lookup_insert_eq, decide_True by done. by rewrite Eq.
  - apply wp_ret, HQ. split; [by destruct h|exact W1|done|]. intros y Ey. by rewrite decide_False.
Qed.

(** ** The third loop *)

Context (hg : dom) (GA : grouped_all hg).
(** Of the domains [ds] the tables have let go, and their groups are weighed. *)
Definition taken (ds : list (nat * nat)) k l j : Prop := (l, j) ∈ ds /\ (k = KSd \/ rep l j = j).
#[local] Instance taken_dec ds k l j : Decision (taken ds k l j).
Proof. unfold taken. apply _. Defined.
Definition fits x : Prop := g_weight x = u32 (cpumask_weight (g_cpus x)).
Record claimed (ds : list (nat * nat)) h : Prop := {
  cl_eq : h = hg <| sgs := sgs h |> <| sgps := sgps h |> <| sg_power := sg_power h |> <| percpus := percpus h |>;
  cl_sg : forall a, unweighed <$> sgs h !! a = unweighed <$> sgs hg !! a;
  cl_sgp : forall a, p_ref <$> sgps h !! a = p_ref <$> sgps hg !! a;
  cl_sg_out : forall a, (forall l r, (l < n)%nat -> r ∈ cpus -> a <> A KSg l r) -> sgs h !! a = sgs hg !! a;
  cl_sgp_out : forall a, (forall l r, (l < n)%nat -> r ∈ cpus -> a <> A KSgp l r) -> sgps h !! a = sgps hg !! a;
  cl_entry : forall k l j, entry k h l j = if decide (taken ds k l j) then None else entry k hg l j;
  cl_other : forall q, (forall k l, tab k hg l <> Some q) -> percpus h !! q = percpus hg !! q;
  cl_live : forall q, is_Some (percpus h !! q) <-> is_Some (percpus hg !! q);
  cl_fits : forall l i r, (l, i) ∈ ds -> (l < n)%nat -> i ∈ cpus -> r ∈ heads_of (rep l) (span l i) -> exists x, sgs h !! A KSg l r = Some x /\ fits x;
  cl_busy : forall l i, (l, i) ∈ ds -> (l < n)%nat -> i ∈ cpus -> rep l i = i ->
    exists x s, sgs h !! A KSg l i = Some x /\ sgps h !! A KSgp l i = Some s /\ nr_busy_cpus s = s32 (u32 (cpumask_weight (g_cpus x))) }.

Lemma claimed_start : claimed [] hg.
Proof.
  split; try done; [by destruct hg|by intros l i r ?%not_elem_of_nil|by intros l i ?%not_elem_of_nil].
Qed.
Lemma claimed_tab ds h k l : claimed ds h -> tab k h l = tab k hg l.
Proof. intros C. by rewrite (cl_eq _ _ C). Qed.
Lemma core_same x y : unweighed x = unweighed y -> g_next x = g_next y /\ g_ref x = g_ref y /\ g_sgp x = g_sgp y /\ g_cpus x = g_cpus y.
Proof. destruct x, y. cbn. by intros [= -> -> -> ->]. Qed.
Lemma claimed_group ds h a x : claimed ds h -> sgs hg !! a = Some x -> exists y, sgs h !! a = Some y /\ unweighed y = unweighed x.
Proof.
  intros C E. pose proof (cl_sg _ _ C a) as H. rewrite E in H. destruct (sgs h !! a) as [y|]; [|done]. exists y. split; [done|].
  by apply (inj Some) in H.
Qed.
Lemma claimed_power ds h a s : claimed ds h -> sgps hg !! a = Some s -> exists t, sgps h !! a = Some t /\ p_ref t = p_ref s.
Proof.
  intros C E. pose proof (cl_sgp _ _ C a) as H. rewrite E in H. destruct (sgps h !! a) as [t|]; [|done]. exists t. split; [done|].
  by apply (inj Some) in H.
Qed.
Lemma claimed_ringed ds h l i : claimed ds h -> (l < n)%nat -> i ∈ cpus -> ringed l i h.
Proof.
  intros C Hl Hi. pose proof (ga_ring _ GA l i Hl Hi) as Hr. apply (divided_frame _ _ _ _ hg); [|exact Hr]. intros r Hh. split; [|apply (cl_sgp _ _ C)].
  destruct Hr as [_ Hd]. destruct (Hd r Hh) as (x & s & Ex & _). destruct (claimed_group _ _ _ _ C Ex) as (y & Ey & Hu).
  exists x, y. apply core_same in Hu as (? & _ & ? & ?). done.
Qed.

(** The body of the loop *)
Lemma powered_group l i h1 h2 a x : powered l i h1 h2 -> sgs h1 !! a = Some x -> exists y, sgs h2 !! a = Some y /\ unweighed y = unweighed x /\ (fits x -> fits y).
Proof.
  intros P E. rewrite (pw_sg _ _ _ _ P), E. destruct (decide _); eexists; (split; [done|]); [|done]. split; [by destruct x|]. done.
Qed.
Lemma powered_sgp l i h1 h2 a s : powered l i h1 h2 -> is_Some (sgs h1 !! A KSg l i) -> sgps h1 !! a = Some s -> exists t, sgps h2 !! a = Some t /\ p_ref t = p_ref s.
Proof.
  intros P [x Ex] E. destruct (decide (a = A KSgp l i)) as [->|Hne]; [|exists s; by rewrite (pw_sgp _ _ _ _ P)].
  rewrite (pw_busy _ _ _ _ P x Ex), E. destruct (decide _); eexists; (split; [done|]); by destruct s.
Qed.
Lemma claimed_taken ds h h1 l i k l' j : claimed ds h -> forgot (claims l i) h h1 ->
  entry k h1 l' j = if decide (taken (ds ++ [(l, i)]) k l' j) then None else entry k hg l' j.
Proof.
  intros C F. rewrite (fo_entry _ _ _ F), (cl_entry _ _ C).
  assert (taken (ds ++ [(l, i)]) k l' j <-> taken ds k l' j \/ claims l i k l' j) as Ht.
  { unfold taken, claims. rewrite elem_of_app, list_elem_of_singleton. split; [|naive_solver]. intros [[?|[= -> ->]] ?]; naive_solver. }
  destruct (decide (claims l i k l' j)), (decide (taken ds k l' j)), (decide (taken (ds ++ [(l, i)]) k l' j)) as [H|H]; rewrite Ht in H; naive_solver.
Qed.
Lemma claimed_step ds h h1 h2 l i : claimed ds h -> (l < n)%nat -> i ∈ cpus -> (l, i) ∉ ds -> forgot (claims l i) h h1 -> powered l i h1 h2 ->
  claimed (ds ++ [(l, i)]) h2.
Proof.
  intros C Hl Hi Hnew F P. pose proof (used topo cm n LU l Hl) as Hlv. pose proof (claimed_ringed ds h l i C Hl Hi) as [_ Hring].
  assert (sgs h1 = sgs h /\ sgps h1 = sgps h /\ topology h1 = topology h) as (Eg & Eq & Et) by (by rewrite (fo_eq _ _ _ F)).
  assert (percpus h2 = percpus h1 /\ topology h2 = topology h1) as [E2 Et2] by (by rewrite (pw_eq _ _ _ _ P)).
  destruct (ga_ref _ GA l i Hl Hi) as (x0 & Ex0 & _). destruct (claimed_group _ _ _ _ C Ex0) as (x1 & Ex1 & _). clear x0 Ex0.
  assert (forall r, r ∈ heads_of (rep l) (span l i) -> r ∈ cpus) as Hh by (intros r [_ Hr]%heads_sub; by eapply span_cpus).
  split.
  - rewrite (pw_eq _ _ _ _ P), (fo_eq _ _ _ F), (cl_eq _ _ C). by destruct hg.
  - intros a. rewrite <- (cl_sg _ _ C a), <- Eg. rewrite (weighed_same _ _ _ _ (pw_sg _ _ _ _ P)). done.
  - intros a. rewrite <- (cl_sgp _ _ C a), <- Eq. destruct (sgps h1 !! a) as [s|] eqn:Es.
    + destruct (powered_sgp l i h1 h2 a s P) as (t & -> & E); [by rewrite Eg; eexists|done|]. cbn. by rewrite E.
    + destruct (decide (a = A KSgp l i)) as [->|Hne]; [|by rewrite (pw_sgp _ _ _ _ P), Es].
      rewrite (pw_busy _ _ _ _ P x1) by (by rewrite Eg). rewrite Es. by destruct (decide _).
  - intros a Ha. rewrite <- (cl_sg_out _ _ C a Ha), <- Eg, (pw_sg _ _ _ _ P), decide_False; [done|]. intros (r & -> & Hr)%list_elem_of_fmap.
    apply (Ha l r); auto.
  - intros a Ha. rewrite <- (cl_sgp_out _ _ C a Ha), <- Eq. apply (pw_sgp _ _ _ _ P). by apply Ha.
  - intros k l' j. rewrite <- (claimed_taken ds h h1 l i k l' j C F). unfold entry, slot, tab. by rewrite E2, Et2.
  - intros q Hq. rewrite E2, (fo_other _ _ _ F); [by apply (cl_other _ _ C)|]. intros k l'. rewrite (claimed_tab ds h) by done. apply Hq.
  - intros q. by rewrite E2, (fo_live _ _ _ F), (cl_live _ _ C).
  - intros l' i' r [Hin|[= -> ->]%list_elem_of_singleton]%elem_of_app Hl' Hi' Hr.
    + destruct (cl_fits _ _ C l' i' r Hin Hl' Hi' Hr) as (x & Ex & Hx). rewrite <- Eg in Ex.
      destruct (powered_group l i h1 h2 _ x P Ex) as (y & Ey & _ & Hf). exists y. auto.
    + destruct (Hring r Hr) as (x & s & Ex & _). rewrite <- Eg in Ex. exists (weigh x).
      rewrite (pw_sg _ _ _ _ P), decide_True, Ex; [done|]. by apply list_elem_of_fmap_2.
  - intros l' i' [Hin|[= -> ->]%list_elem_of_singleton]%elem_of_app Hl' Hi' Hr.
    + destruct (cl_busy _ _ C l' i' Hin Hl' Hi' Hr) as (x & s & Ex & Es & Hb). rewrite <- Eg in Ex. rewrite <- Eq in Es.
      destruct (powered_group l i h1 h2 _ x P Ex) as (y & Ey & Hu & _). exists y, s. split; [done|]. apply core_same in Hu as (_ & _ & _ & ->).
      split; [|done]. rewrite (pw_sgp _ _ _ _ P); [done|]. intros E. destruct (SEP KSgp l' i' l i) as [-> ->]; auto. by apply (used topo cm n LU).
    + rewrite <- Eg in Ex1. destruct (powered_group l i h1 h2 _ x1 P Ex1) as (y & Ey & Hu & _). destruct (Hring i) as (x & s & Ex & _ & _ & Es & _).
      { apply heads_sub. split; [done|by apply self_span]. }
      exists y, (busy x1 s). split; [done|]. apply core_same in Hu as (_ & _ & _ & ->). rewrite (pw_busy _ _ _ _ P x1 Ex1), decide_True by done. by rewrite Eq, Es.
Qed.
Lemma claimed_facts ds h l i : claimed ds h -> (l < n)%nat -> i ∈ cpus -> (l, i) ∉ ds -> tabs_inj h /\ bare <$> topology h = topo /\
  (forall k, entry k h l i = Some (A k l i)) /\ sds h = sds hg /\
  (exists x, sgs h !! A KSg l i = Some x /\ c_true (g_ref x) = bool_decide (rep l i = i)) /\
  (exists s, sgps h !! A KSgp l i = Some s /\ c_true (p_ref s) = bool_decide (rep l i = i)).
Proof.
  intros C Hl Hi Hnew. pose proof (used topo cm n LU l Hl) as Hlv. pose proof (ga_laid _ GA) as [L1 L2 L3]. split_and!.
  - intros k l1 k' l2 q. rewrite !(claimed_tab ds h) by done. apply (ga_tabs _ GA).
  - by rewrite (cl_eq _ _ C).
  - intros k. rewrite (cl_entry _ _ C), decide_False by (by intros [? _]). auto.
  - by rewrite (cl_eq _ _ C).
  - destruct (ga_ref _ GA l i Hl Hi) as (x & Ex & Er). destruct (claimed_group _ _ _ _ C Ex) as (y & Ey & (_ & E & _)%core_same). exists y. split; [done|].
    rewrite E, Er. by apply refs_head.
  - destruct (ga_pref _ GA l i Hl Hi) as (s & Es & Er). destruct (claimed_power _ _ _ _ C Es) as (t & Et & E). exists t. split; [done|].
    rewrite E, Er. unfold c_true. destruct (decide _) as [H|H]; [by rewrite bool_decide_true|by rewrite bool_decide_false].
Qed.
Lemma wp_claim_power ds h l i (Q : unit -> dom -> Prop) : claimed ds h -> (l < n)%nat -> i ∈ cpus -> (l, i) ∉ ds ->
  (forall h', claimed (ds ++ [(l, i)]) h' -> Q tt h') -> wp (claim_allocations i (A KSd l i) ;; init_sched_groups_power i (A KSd l i)) h Q.
Proof.
  intros C Hl Hi Hnew HQ. destruct (claimed_facts ds h l i C Hl Hi Hnew) as (H1 & H2 & H3 & H4 & H5 & H6).
  destruct (ga_dom _ GA l i Hl Hi) as (d & Ed & Hd & Eg). pose proof (do_private _ _ _ _ _ _ _ Hd) as Ep.
  apply wp_bind, wp_claim; try done; [exists d; by rewrite H4|]. intros h1 F.
  assert (sds h1 = sds h) as Es by (by rewrite (fo_eq _ _ _ F)).
  apply (wp_power h1 l i d); try done; [|by rewrite Es, H4|].
  - pose proof (claimed_ringed ds h l i C Hl Hi) as Hr. assert (sgs h1 = sgs h /\ sgps h1 = sgps h) as [E1 E2] by (by rewrite (fo_eq _ _ _ F)).
    apply (divided_frame _ _ _ _ h); [|done]. intros r Hh. destruct Hr as [_ Hr]. destruct (Hr r Hh) as (x & _ & Ex & _). rewrite E1, E2. split; [|done]. by exists x, x.
  - intros h2 P. by apply HQ, (claimed_step ds h h1).
Qed.

Lemma wp_power_from i b l ds h fuel (Q : unit -> dom -> Prop) : claimed (ds ++ pairs_of i (seq 0 l)) h -> i ∈ cpus -> n = (l + b)%nat -> (b <= fuel)%nat ->
  (forall l', (l', i) ∉ ds) -> (forall h', claimed (ds ++ pairs_of i (seq 0 n)) h' -> Q tt h') ->
  wp (chain_each fuel (if (l <? n)%nat then Some (A KSd l i) else None) (fun sd => claim_allocations i sd ;; init_sched_groups_power i sd)) h Q.
Proof.
  intros C Hi. revert l h fuel C. induction b as [|b IH]; intros l h fuel C En Hf Hnew HQ.
  - rewrite (proj2 (Nat.ltb_ge l n)) by lia. replace l with n in C by lia. destruct fuel; apply wp_ret; by apply HQ.
  - assert (l < n)%nat as Hl by lia. rewrite (proj2 (Nat.ltb_lt l n)) by lia. destruct fuel as [|fuel]; [lia|]. cbn [chain_each].
    apply wp_bind, (wp_claim_power (ds ++ pairs_of i (seq 0 l))); [done|done|done|..].
    + rewrite elem_of_app. intros [?|(y & [= ->] & Hy%elem_of_seq)%list_elem_of_fmap]; [by apply (Hnew l)|lia].
    + intros h1 C1. destruct (ga_dom _ GA l i Hl Hi) as (d & Ed & Hd & _). apply wp_bind, (wp_sd_at _ d); [by rewrite (cl_eq _ _ C1)|].
      rewrite (do_parent _ _ _ _ _ _ _ Hd). apply (IH (S l)); [|lia|lia|done|done].
      assert ((ds ++ pairs_of i (seq 0 l)) ++ [(l, i)] = ds ++ pairs_of i (seq 0 (S l))) as <-; [|done].
      rewrite <- app_assoc, seq_S. unfold pairs_of. by rewrite fmap_app.
Qed.
(** The loop, from the last processor on *)
Lemma wp_power_all s p f (Q : unit -> dom -> Prop) : s_sd s = Some p -> percpus hg !! p = Some f -> (forall i, i ∈ cpus -> f i = Some (A KSd 0 i)) ->
  (forall k l, tab k hg l <> Some p) ->
  (forall ds h, claimed ds h -> (forall l i, (l, i) ∈ ds <-> (l < n)%nat /\ i ∈ cpus) -> Q tt h) ->
  wp (for_each (rev (seq 0 nr_cpus)) (power_of_cpu cm s)) hg Q.
Proof.
  intros Es Ef Hf Hp HQ. assert (forall i, i ∈ rev (seq 0 nr_cpus) <-> (i < nr_cpus)%nat) as Hrev.
  { intros i. rewrite list_elem_of_In, <- in_rev, <- list_elem_of_In, elem_of_seq. lia. }
  apply (wp_for_each _ _ (fun js h => claimed (all_pairs n (filter (fun j => cpumask_test_cpu j cm = true) js)) h)).
  - apply claimed_start.
  - intros js i js' h E C. assert (NoDup (js ++ i :: js')) as Hnd by (rewrite <- E; apply NoDup_ListNoDup, NoDup_rev, seq_NoDup).
    apply NoDup_app in Hnd as (_ & Hx & _). assert (is_cpu i = true) as Hc by (apply is_cpu_iff, Hrev; rewrite E; set_solver).
    unfold power_of_cpu. rewrite filter_app. destruct (cpumask_test_cpu i cm) eqn:Et; cbn [negb].
    + assert (i ∈ cpus) as Hi by by apply in_cpus. rewrite filter_cons_True by done. rewrite filter_nil, all_pairs_snoc.
      assert (length (topology h) = length topo) as El by (rewrite (cl_eq _ _ C), <- (lo_topo _ _ _ _ (ga_laid _ GA)); cbn; by rewrite length_fmap).
      apply wp_bind, wp_gets. rewrite Es, El. apply wp_bind, (wp_per_cpu_get p f); [by rewrite (cl_other _ _ C)|]. rewrite Hf by done.
      pose proof (lu_pos _ _ _ LU) as Hn. assert (Some (A KSd 0 i) = if (0 <? n)%nat then Some (A KSd 0 i) else None) as -> by (by rewrite (proj2 (Nat.ltb_lt 0 n)) by lia).
      apply (wp_power_from i n 0 (all_pairs n (filter (fun j => cpumask_test_cpu j cm = true) js))); [by rewrite app_nil_r|done|done|lia| |done].
      intros l' [_ [_ Hin]%list_elem_of_filter]%in_all_pairs. apply (Hx i Hin). by left.
    + apply wp_ret. rewrite filter_cons_False by congruence. by rewrite filter_nil, app_nil_r.
  - intros h C. apply (HQ _ _ C). intros l i. rewrite in_all_pairs, list_elem_of_filter, Hrev, in_cpus, is_cpu_iff. naive_solver.
Qed.
End claim.
