(* ===== verification/DomPublish.v ===== *)
(** build_sched_domains(): the chains of all processors are attached to a new root
    domain. *)

From S2P Require Import Prelude KList Sched Ras Rt RtSpec TaskGroupSpec RtBorrow RtBorrowSpec Affinity Smp RtSmp RtPush SmpSpec RtSmpSpec SmpMachine RtPushSpec Migrate MigrateSpec RootSpec Domains DomLogic DomAlloc DomVisit DomAttach.

Section publish.
Context {SK : SKTypes} {ST : SmpTypes} {STL : SmpTypesLaws} {CM : CpuMask} {CMS : CpuMasks} {CML : CpuMasksLaws} {SE : SmpEnv}
  {SL : SmpEnvLaws} {NL : KListLaws snode} {SC : SmpClasses} {OC : OtherClasses} {OH : OtherHooks} {RH : RuntimeHooks} {ME : MigrateEnv}
  {DM : DomMasks} {DE : DomEnv} {DL : DomLaws}.
Context (pushes : nat) (held : nat -> Z) (known : nat -> Prop).
Implicit Types (h : dom) (a c d i j r : nat) (l : list nat).

(** ** A new root domain *)

Lemma new_root_inv D rd pri m (s : smp) : root_inv held known D s -> ~ D rd -> held rd = 0 -> m rd = new_root pri -> (forall e, e <> rd -> m e = rds s e) ->
  root_inv held known (fun d => D d \/ d = rd) (s <| rds := m |>).
Proof.
  intros Hi Hn Hh Hm Ho. pose proof Hi as [I1 I2 I3 I4 I5 I6 I7 I8 I9 I10 I11]. set (s' := s <| rds := m |>).
  assert (forall c, is_cpu c = true -> rq_rd (cpus s c) <> Some rd) as Hno.
  { intros c Hc E. destruct (I5 c Hc) as (d & Hd & E'). assert (d = rd) as -> by congruence. done. }
  assert (forall d, D d -> rds s' d = rds s d) as Hold by (intros d Hd; apply Ho; by intros ->).
  split; try done.
  - intros c Hc. destruct (I5 c Hc) as (d & Hd & E). exists d. split; [by left|done].
  - intros d c [Hd| ->] Hc; [rewrite Hold by done; by apply I6|]. cbn. rewrite Hm. cbn. rewrite dl_clear by done. symmetry. by apply bool_decide_eq_false, Hno.
  - intros d c [Hd| ->] Hc; [rewrite Hold by done; by apply I7|]. cbn. rewrite Hm. cbn. rewrite dl_clear by done. by rewrite bool_decide_false by by apply Hno.
  - intros d [Hd| ->]; [rewrite Hold, I8 by done; done|]. cbn. rewrite Hm, Hh. cbn.
    assert (members_of rd s' = []) as ->; [|done]. destruct (members_of rd s') as [|c l] eqn:E; [done|].
    assert (c ∈ members_of rd s') as Hc by (rewrite E; by left). apply (members_iff held known) in Hc as [Hc Hr]. by destruct (Hno c Hc).
  - intros d [Hd| ->].
    + apply (fair_same d s); [by rewrite Hold|done|done|by apply I10].
    + assert (cpus_of (rd_span (rds s' rd)) = []) as En.
      { cbn. rewrite Hm. cbn. destruct (cpus_of cpumask_clear) as [|c l] eqn:E; [done|]. assert (c ∈ cpus_of cpumask_clear) as [Hc Ht]%elem_of_cpus by (rewrite E; by left).
        by rewrite dl_clear in Ht. }
      destruct I3 as (B1 & B2 & B3). assert (span (rd_view rd s') = []) as Es by exact En. split; rewrite ?Es.
      * constructor.
      * split; [exact B1|]. cbn. lia.
      * exact B3.
      * by intros i ?%not_elem_of_nil.
      * by intros i ?%not_elem_of_nil.
      * cbn. lia.
Qed.
Lemma new_root_smp qs rd pri m (s : smp) : (forall c, is_cpu c = true -> rq_rd (cpus s c) <> Some rd) -> smp_inv qs s -> m rd = new_root pri ->
  (forall e, e <> rd -> m e = rds s e) -> smp_inv qs (s <| rds := m |>).
Proof.
  intros Hno Hi Hm Ho. pose proof (inv_rd_ok qs s Hi) as [R1 R2]. destruct Hi as [[[[A1 A2 A3 A4] A5] M2 M3 M4 M5] H2 H3 H4].
  split; [split; [split; [split|]|..]|..]; try done.
  { intros c Hc. apply (cpu_array_same _ s); [done|done|done|by apply A3]. }
  2:{ intros c Hc. by apply (push_cpu_same (eligible qs s c) _ s), A5. }
  split.
  - intros d. change (over_in (s <| rds := m |>) d) with (over_in s d). cbn. destruct (decide (d = rd)) as [->|Hne]; [|rewrite Ho by done; apply R1].
    rewrite Hm. cbn. assert (filter (fun c => over_in s rd c = true) (seq 0 nr_cpus) = []) as ->; [|done].
    destruct (filter _ _) as [|c l] eqn:E; [done|]. assert (c ∈ filter (fun c => over_in s rd c = true) (seq 0 nr_cpus)) as Hc by (rewrite E; by left).
    apply list_elem_of_filter in Hc as [Hov Hc]. unfold over_in in Hov. rewrite bool_decide_false in Hov; [done|]. apply Hno.
    apply is_cpu_iff. apply elem_of_seq in Hc. lia.
  - intros d c Hc. change (over_in (s <| rds := m |>) d c) with (over_in s d c). cbn. destruct (decide (d = rd)) as [->|Hne]; [|rewrite Ho by done; by apply R2].
    rewrite Hm. cbn. rewrite dl_clear by done. unfold over_in. by rewrite bool_decide_false by by apply Hno.
Qed.

(** A processor moves to the root domain [rd]. *)
Lemma moved_refs D i r rd (s s' : smp) : root_inv held known D s -> root_inv held known D s' -> is_cpu i = true -> D r ->
  rq_rd (cpus s i) = Some r -> rq_rd (cpus s' i) = Some rd -> r <> rd -> (forall x, x <> i -> rq_rd (cpus s' x) = rq_rd (cpus s x)) ->
  refcount (rds s' r) = refcount (rds s r) - 1 /\ 1 <= refcount (rds s r) /\
  forall e, D e -> e <> r -> e <> rd -> refcount (rds s' e) = refcount (rds s e).
Proof.
  intros Hi Hi' Hc Hr E E' Hne Ho. rewrite (ri_ref _ _ _ _ Hi r Hr), (ri_ref _ _ _ _ Hi' r Hr). pose proof (ri_held _ _ _ _ Hi r) as Hh.
  assert (length (members_of r s) = S (length (members_of r s'))) as El.
  { apply (members_cons held known r i s' s); [done|congruence|done|]. intros x Hx. symmetry. by apply Ho. }
  rewrite El. split_and!; [lia|lia|]. intros e He He1 He2. rewrite (ri_ref _ _ _ _ Hi e He), (ri_ref _ _ _ _ Hi' e He). do 2 f_equal.
  unfold members_of. f_equal. apply list_filter_iff. intros x. destruct (decide (x = i)) as [->|Hx]; [|by rewrite Ho].
  rewrite E, E'. split; congruence.
Qed.

(** ** The last loop *)

Context (qs : nat -> Z -> list nat) (D : nat -> Prop) (rd : nat) (cm : Z) (hc : dom) (base : nat -> nat) (chain old : nat -> list nat).
#[local] Abbreviation root_of h i := (rq_rd (cpus (machine h) i)).

(** Every processor of the map has a chain to attach, and its old one. *)
Record ready : Prop := {
  re_root : root_inv held known D (machine hc);
  re_smp : smp_inv qs (machine hc);
  re_new : D rd;
  re_unused : forall c, is_cpu c = true -> root_of hc c <> Some rd;
  re_known : forall i, i ∈ cpus_of cm -> known i;
  re_chain : forall i, i ∈ cpus_of cm -> chain_of hc None (Some (base i)) (chain i) /\ NoDup (chain i) /\ Forall (grouped hc) (chain i) /\
    (length (chain i) <= length (topology hc))%nat;
  re_old : forall i, i ∈ cpus_of cm -> chain_of hc None (rq_sdp hc i) (old i) /\ (length (old i) <= length (topology hc))%nat;
  re_apart : forall i j a, i ∈ cpus_of cm -> j ∈ cpus_of cm -> i <> j -> a ∈ chain i -> a ∉ chain j;
  re_older : forall i j a, i ∈ cpus_of cm -> j ∈ cpus_of cm -> a ∈ old i -> a ∉ chain j }.
Context (RE : ready).

(** What a processor hands to RCU besides the callback [cb] for its root domain. *)
Definition callbacks (cb : nat -> list rcu_callback) i : list rcu_callback :=
  (FreeSchedDomain <$> removed hc (chain i)) ++ cb i ++ (FreeSchedDomain <$> old i).
(** The root domains that lost a processor of [js] and that nobody refers to any more. *)
Definition deserted (js : list nat) h r : Prop := (exists j, j ∈ js /\ root_of hc j = Some r) /\ refcount (rds (machine h) r) = 0.
Record roots_freed (js : list nat) (cb : nat -> list rcu_callback) h : Prop := {
  rf_kind : forall i x, i ∈ js -> x ∈ cb i -> exists r, x = FreeRootdomain r;
  rf_once : NoDup (concat (cb <$> js));
  rf_exact : forall r, FreeRootdomain r ∈ concat (cb <$> js) <-> deserted js h r }.

Record published (js : list nat) h : Prop := {
  pb_eq : h = hc <| sds := sds h |> <| rcu := rcu h |> <| rq_sdp := rq_sdp h |> <| sd_llc := sd_llc h |> <| machine := machine h |>;
  pb_out : forall a, (forall i, i ∈ js -> a ∉ chain i) -> sds h !! a = sds hc !! a;
  pb_in : forall a, unlinked <$> sds h !! a = unlinked <$> sds hc !! a;
  pb_chain : forall i, i ∈ js -> chain_of h None (rq_sdp h i) (survivors hc (chain i)) /\
    rq_sd (cpus (machine h) i) = domain_view hc <$> survivors hc (chain i) /\ root_of h i = Some rd /\
    c_true (rq_online (cpus (machine h) i)) = cpumask_test_cpu i (active_mask (machine hc));
  pb_others : forall i, i ∉ js -> rq_sdp h i = rq_sdp hc i /\ root_of h i = root_of hc i /\ rq_online (cpus (machine h) i) = rq_online (cpus (machine hc) i) /\
    rq_sd (cpus (machine h) i) = rq_sd (cpus (machine hc) i);
  pb_root : root_inv held known D (machine h);
  pb_smp : smp_inv qs (machine h);
  pb_active : active_mask (machine h) = active_mask (machine hc);
  pb_rcu : exists cb, rcu h = rcu hc ++ concat (callbacks cb <$> js) /\ roots_freed js cb h }.

Lemma published_similar js h : published js h -> similar hc h.
Proof. intros P. split; [by rewrite (pb_eq _ _ P)|apply P]. Qed.
Lemma published_start : published [] hc.
Proof.
  split; try done; [by destruct hc|by intros i ?%not_elem_of_nil|apply RE|apply RE|].
  exists (fun _ => []). cbn. rewrite app_nil_r. split; [done|]. split; [by intros i x ?%not_elem_of_nil|constructor|].
  intros r. split; [by intros ?%not_elem_of_nil|]. by intros [(j & ?%not_elem_of_nil & _) _].
Qed.
Lemma concat_map_ext (f g : nat -> list rcu_callback) js : (forall i, i ∈ js -> f i = g i) -> concat (f <$> js) = concat (g <$> js).
Proof. intros H. f_equal. apply list_fmap_ext. intros k x E. apply H. by eapply list_elem_of_lookup_2. Qed.
Lemma roots_step js i r cb h h' : (forall j, j ∈ js -> j ∈ cpus_of cm) -> i ∈ cpus_of cm -> i ∉ js -> root_inv held known D (machine h) -> root_inv held known D (machine h') ->
  root_of hc i = Some r -> root_of h i = Some r -> root_of h' i = Some rd -> (forall x, x <> i -> root_of h' x = root_of h x) ->
  roots_freed js cb h -> let c := if refcount (rds (machine h) r) =? 1 then [FreeRootdomain r] else [] in
  roots_freed (js ++ [i]) (fun j => if (j =? i)%nat then c else cb j) h'.
Proof.
  intros Hjs Hi Hni Hr Hr' Ec E E' Ho [F1 F2 F3]. cbv zeta. set (c := if _ =? 1 then _ else _). assert (is_cpu i = true) as Hic by by apply elem_of_cpus in Hi as [? _].
  assert (forall j, j ∈ cpus_of cm -> forall e, root_of hc j = Some e -> D e /\ e <> rd) as HD.
  { intros j [Hj _]%elem_of_cpus e Ee. destruct (ri_rd _ _ _ _ (re_root RE) j Hj) as (d & Hd & Ed). assert (d = e) as -> by congruence.
    split; [done|]. intros ->. by apply (re_unused RE j). }
  destruct (HD i Hi r Ec) as [Hrd Hne]. destruct (moved_refs D i r rd _ _ Hr Hr' Hic Hrd E E' Hne Ho) as (R1 & R2 & R3).
  assert (FreeRootdomain r ∉ concat (cb <$> js)) as Hnr by (rewrite F3; intros [_ ?]; lia).
  assert (concat ((fun j => if (j =? i)%nat then c else cb j) <$> (js ++ [i])) = concat (cb <$> js) ++ c) as Ecat.
  { rewrite fmap_app, concat_app. cbn. rewrite Nat.eqb_refl, app_nil_r. f_equal. apply concat_map_ext. intros j Hj.
    rewrite (proj2 (Nat.eqb_neq j i)); [done|]. by intros ->. }
  split.
  - intros j x Hj Hx. destruct (Nat.eqb_spec j i) as [->|Hji].
    + unfold c in Hx. destruct (_ =? 1); [apply list_elem_of_singleton in Hx as ->; by exists r|by apply not_elem_of_nil in Hx].
    + apply (F1 j); [|done]. apply elem_of_app in Hj as [?|?%list_elem_of_singleton]; done.
  - rewrite Ecat. apply NoDup_app. split; [done|]. unfold c. destruct (_ =? 1).
    + split; [by intros x Hx ->%list_elem_of_singleton|apply NoDup_singleton].
    + split; [by intros x _ ?%not_elem_of_nil|constructor].
  - intros e. rewrite Ecat, elem_of_app, F3. unfold deserted. destruct (decide (e = r)) as [->|Her].
    + unfold c. destruct (Z.eqb_spec (refcount (rds (machine h) r)) 1) as [E1|E1].
      * rewrite list_elem_of_singleton. split; [|by right]. intros _. split; [exists i; split; [set_solver|done]|lia].
      * split; [intros [[_ ?]|?%not_elem_of_nil]; [lia|done]|]. intros [_ ?]. lia.
    + assert (FreeRootdomain e ∉ c) as Hc by (unfold c; destruct (_ =? 1); [intros [= ->]%list_elem_of_singleton; done|apply not_elem_of_nil]). split.
      * intros [[(j & Hj & Ej) Hz]|?]; [|done]. destruct (HD j (Hjs j Hj) e Ej) as [HDe Hee]. split; [exists j; split; [set_solver|done]|]. by rewrite R3.
      * intros [(j & Hj & Ej) Hz]. left. apply elem_of_app in Hj as [Hj| ->%list_elem_of_singleton]; [|congruence].
        destruct (HD j (Hjs j Hj) e Ej) as [HDe Hee]. rewrite R3 in Hz by done. split; [by exists j|done].
Qed.

Lemma published_ready js i h : (forall j, j ∈ js -> j ∈ cpus_of cm) -> i ∈ cpus_of cm -> i ∉ js -> published js h ->
  chain_of h None (Some (base i)) (chain i) /\ Forall (grouped h) (chain i) /\ chain_of h None (rq_sdp h i) (old i) /\ topology h = topology hc.
Proof.
  intros Hjs Hi Hni P. destruct (re_chain RE i Hi) as (C1 & _ & C3 & _), (re_old RE i Hi) as (C5 & _). split_and!.
  - apply (chain_frame hc); [|done]. intros a Ha. apply (pb_out _ _ P). intros j Hj. apply (re_apart RE i j); auto. by intros ->.
  - eapply Forall_impl; [exact C3|]. intros a. by apply (grouped_similar hc h), (published_similar js).
  - destruct (pb_others _ _ P i Hni) as (-> & _). apply (chain_frame hc); [|done]. intros a Ha. apply (pb_out _ _ P). intros j Hj. apply (re_older RE i j); auto.
  - by rewrite (pb_eq _ _ P).
Qed.
Lemma callbacks_snoc js i (c : list rcu_callback) cb : i ∉ js ->
  concat (callbacks (fun j => if (j =? i)%nat then c else cb j) <$> (js ++ [i])) =
  concat (callbacks cb <$> js) ++ (FreeSchedDomain <$> removed hc (chain i)) ++ c ++ (FreeSchedDomain <$> old i).
Proof.
  intros Hni. rewrite fmap_app, concat_app. cbn. rewrite app_nil_r. f_equal; [|by unfold callbacks; rewrite Nat.eqb_refl].
  apply concat_map_ext. intros j Hj. unfold callbacks. rewrite (proj2 (Nat.eqb_neq j i)); [done|]. by intros ->.
Qed.
Lemma published_step js i r h h' : (forall j, j ∈ js -> j ∈ cpus_of cm) -> i ∈ cpus_of cm -> i ∉ js -> published js h -> root_of h i = Some r ->
  attached i (chain i) (old i) (if refcount (rds (machine h) r) =? 1 then [FreeRootdomain r] else []) h h' ->
  root_inv held known D (machine h') -> smp_inv qs (machine h') -> root_of h' i = Some rd ->
  c_true (rq_online (cpus (machine h') i)) = cpumask_test_cpu i (active_mask (machine h)) ->
  (forall x, x <> i -> root_of h' x = root_of h x /\ rq_online (cpus (machine h') x) = rq_online (cpus (machine h) x) /\
     rq_sd (cpus (machine h') x) = rq_sd (cpus (machine h) x)) ->
  active_mask (machine h') = active_mask (machine h) -> published (js ++ [i]) h'.
Proof.
  intros Hjs Hi Hni P Er A Hr Hs Erd Eon Ho Ea. pose proof (published_similar _ _ P) as Sim.
  assert (similar h h') as Sim' by (split; [by rewrite (at_rest _ _ _ _ _ _ A)|apply A]).
  destruct (survivors_alike hc h (chain i) (all_alike _ _ _ Sim)) as [Es Ed]. assert (forall j, j ∈ js -> j <> i) as Hji by (by intros j Hj ->).
  split; try done.
  - rewrite (at_rest _ _ _ _ _ _ A), (pb_eq _ _ P). by destruct hc.
  - intros a Ha. rewrite (at_out _ _ _ _ _ _ A) by (apply Ha; set_solver). apply (pb_out _ _ P). intros j Hj. apply Ha. set_solver.
  - intros a. by rewrite (at_in _ _ _ _ _ _ A), (pb_in _ _ P).
  - intros j [Hj| ->%list_elem_of_singleton]%elem_of_app.
    + destruct (pb_chain _ _ P j Hj) as (C1 & C2 & C3 & C4), (Ho j (Hji j Hj)) as (O1 & O2 & O3), (at_others _ _ _ _ _ _ A j (Hji j Hj)) as [-> _].
      rewrite O1, O2, O3. split_and!; try done. apply (chain_frame h); [|done]. intros a Ha. apply (at_out _ _ _ _ _ _ A).
      apply (re_apart RE j i); auto. by apply survivors_in in Ha.
    + rewrite <- Es. split_and!; [apply A| |done|by rewrite Eon, (pb_active _ _ P)].
      rewrite (at_view _ _ _ _ _ _ A). apply list_fmap_ext. intros _ a _. by rewrite (view_similar h h'), (view_similar hc h).
  - intros j Hj. assert (j <> i /\ j ∉ js) as [Hne Hnj] by set_solver. destruct (Ho j Hne) as (-> & -> & ->), (at_others _ _ _ _ _ _ A j Hne) as [-> _].
    by apply (pb_others _ _ P).
  - by rewrite Ea, (pb_active _ _ P).
  - destruct (pb_rcu _ _ P) as (cb & Ec & Hf). set (c := if refcount (rds (machine h) r) =? 1 then [FreeRootdomain r] else []) in *.
    exists (fun j => if (j =? i)%nat then c else cb j). split.
    + rewrite (callbacks_snoc js i c cb Hni), (at_rcu _ _ _ _ _ _ A), Ec, Ed. by rewrite <- app_assoc.
    + apply (roots_step js i r cb h h'); try done; [apply P|destruct (pb_others _ _ P i Hni) as (_ & <- & _); done|]. intros x Hx. by apply Ho.
Qed.
(** The last loop of build_sched_domains() *)
Lemma wp_publish_all s p f (Q : unit -> dom -> Prop) : s_sd s = Some p -> s_rd s = Some rd -> percpus hc !! p = Some f -> (forall i, i ∈ cpus_of cm -> f i = Some (base i)) ->
  (forall h, published (cpus_of cm) h -> Q tt h) -> wp (for_each (cpus_of cm) (attach_cpu pushes s)) hc Q.
Proof.
  intros Es Erd Ef Hf HQ. apply (wp_for_each _ _ published); [apply published_start| |done].
  intros js i js' h E P. pose proof (cpus_nodup cm) as Hnd. rewrite E in Hnd. apply NoDup_app in Hnd as (_ & Hx & _).
  assert (i ∈ cpus_of cm /\ forall j, j ∈ js -> j ∈ cpus_of cm) as [Hi Hjs] by (rewrite E; set_solver).
  assert (i ∉ js) as Hni by (intros Hin; apply (Hx i Hin); by left). pose proof Hi as [Hic _]%elem_of_cpus.
  destruct (published_ready js i h Hjs Hi Hni P) as (C1 & C2 & C3 & Et), (re_chain RE i Hi) as (_ & Hnc & _ & Hl), (re_old RE i Hi) as (_ & Hlo).
  rewrite <- Et in Hl, Hlo. unfold attach_cpu. rewrite Es, Erd. apply wp_bind, (wp_per_cpu_get p f); [by rewrite (pb_eq _ _ P)|].
  rewrite Hf by done. apply wp_bind, wp_deref.
  destruct (attach_holds pushes held known qs D i rd (Some (base i)) (chain i) (old i) h) as (r & Er & Hw); try done; try apply P; try by apply RE.
  { intros a Ha. by apply (re_older RE i i). }
  assert (D r) as Hr.
  { destruct (ri_rd _ _ _ _ (pb_root _ _ P) i Hic) as (d & Hd & Ed). assert (d = r) as -> by congruence. done. }
  rewrite <- (ri_ref _ _ _ _ (pb_root _ _ P) r Hr) in Hw. eapply wp_mono; [exact Hw|]. intros [] h' (A & H1 & H2 & H3 & H4 & H5 & H6). by apply (published_step js i r h h').
Qed.
End publish.
