(* ===== verification/DomConstruct.v ===== *)
(** build_sched_domains(): from the allocations to the groups of all domains. *)

From S2P Require Import Prelude KList Sched Ras Rt RtSpec TaskGroupSpec RtBorrow RtBorrowSpec Affinity Smp RtSmp RtPush SmpSpec RtSmpSpec SmpMachine RtPushSpec Migrate MigrateSpec RootSpec Domains DomLogic DomAlloc DomVisit DomGroups DomTopo DomBuild DomRings DomClaim.

Section construct.
Context {SK : SKTypes} {ST : SmpTypes} {CM : CpuMask} {CMS : CpuMasks} {CML : CpuMasksLaws} {SE : SmpEnv} {DM : DomMasks} {DE : DomEnv} {DL : DomLaws}.
Implicit Types (h : dom) (a c i j l q r : nat) (k : kind) (d : sdom).

(** ** How many levels get domains *)

Definition levels_of (topo : list topology_level) (cm : Z) : nat :=
  match list_find (fun l => full topo cm l (cpumask_first cm) = true) (seq 0 (length topo)) with
  | Some (l, _) => S l
  | None => length topo
  end.
Lemma levels_of_used topo cm : topo_ok topo -> cpus_of cm <> [] -> levels_used topo cm (levels_of topo cm).
Proof.
  intros TOK Hne. assert (cpumask_first cm ∈ cpus cm) as H0.
  { unfold cpus. destruct (cpus_of cm) as [|c l] eqn:E; [done|]. rewrite <- E. apply (first_in cm c). rewrite E. by left. }
  pose proof (tk_some _ TOK) as Hs. assert (0 < length topo)%nat as Hlen by (destruct topo; [done|cbn; lia]).
  unfold levels_of. destruct (list_find _ _) as [[l x]|] eqn:E.
  - apply list_find_Some in E as (El & Hf & Hn). apply lookup_seq in El as [-> Hl]. cbn in Hf. split.
    + lia.
    + intros l' i Hi Hl'. destruct (full topo cm l' i) eqn:Ef; [|done]. exfalso. apply (Hn l' l'); [by apply lookup_seq; lia|lia|].
      apply (full_same topo cm TOK l' i); [unfold level; lia|done..].
    + intros i Hi. right. replace (S l - 1)%nat with l by lia. by apply (full_same topo cm TOK l (cpumask_first cm)).
  - apply list_find_None in E. rewrite Forall_forall in E. split.
    + lia.
    + intros l' i Hi Hl'. destruct (full topo cm l' i) eqn:Ef; [|done]. exfalso. apply (E l'); [apply elem_of_seq; lia|].
      apply (full_same topo cm TOK l' i); [unfold level; lia|done..].
    + by left.
Qed.

(** ** What is allocated *)

Section set_up.
Context (cm : Z) (h0 : dom) (m : nat -> root_domain) (rd p : nat) (A : kind -> nat -> nat -> nat).
#[local] Abbreviation topo := (topology h0).
#[local] Abbreviation cpus := (cpus cm).

Record set_up h : Prop := {
  su_laid : laid_out topo cm A h;
  su_sep : separate topo cm A;
  su_obj : forall k l j, level topo l -> j ∈ cpus -> obj k h (A k l j) = Some (new_obj k (A k l j)) /\ (kmalloc_next h0 <= A k l j < kmalloc_next h)%nat;
  su_entry : forall k l j a, entry k h l j = Some a -> level topo l /\ j ∈ cpus /\ a = A k l j;
  su_old : forall k a, (forall l j, level topo l -> j ∈ cpus -> a <> A k l j) -> obj k h a = obj k h0 a;
  su_inj : tabs_inj h;
  su_tab : forall k l q, tab k h l = Some q -> (kmalloc_next h0 <= q < p)%nat /\ is_Some (percpus h !! q);
  su_percpu : forall q, q <> p -> (forall k l, tab k h l <> Some q) -> percpus h !! q = percpus h0 !! q;
  su_base : percpus h !! p = Some (fun _ => None);
  su_rest : rest h = with_roots (rest h0) m ({[rd]} ∪ roots h0) 0;
  su_num : (kmalloc_next h0 <= p < rd)%nat /\ (rd < kmalloc_next h)%nat;
  su_rds : forall e, e <> rd -> m e = rds (machine h0) e;
  su_new : exists pri, m rd = new_root pri }.
End set_up.

Definition addresses h k l j : nat := default 0%nat (entry k h l j).
Lemma visited_set_up cm h0 m rd p h : fresh_heap h0 -> no_data h0 -> visited cm h0 m rd p h -> set_up cm h0 m rd p (addresses h) h.
Proof.
  intros Hf Hd (h1 & pri & n & Ha & Hp & -> & Hn & Hm & Hr & ->). set (h := with_roots _ _ _ _). pose proof Ha as [A1 A2 A3 A4 A5 A6 A7 A8 A9].
  assert (forall k l, tab k h l = tab k h1 l) as Ht by done. assert (forall k a, obj k h a = obj k h1 a) as Ho by (by intros []).
  assert (forall k l, tab k h1 l <> Some (kmalloc_next h1)) as Hne by (intros k l E; apply A4 in E; lia).
  assert (forall k l j, entry k h l j = entry k h1 l j) as He.
  { intros k l j. unfold entry. rewrite Ht. destruct (tab k h1 l) as [q|] eqn:E; [|done]. unfold slot, h. cbn.
    rewrite lookup_insert_ne; [done|]. intros <-. by apply (Hne k l). }
  assert (forall k l j a, entry k h l j = Some a -> level (topology h0) l /\ j ∈ cpus cm /\ a = addresses h k l j) as Hentry.
  { intros k l j a E. unfold addresses. rewrite E. split_and!; [|rewrite He in E; by apply A7 in E as (_ & _ & ?)|done].
    rewrite He in E. unfold level. rewrite <- A2, length_fmap. unfold entry in E. destruct (tab k h1 l) as [q|] eqn:Et; [|done].
    unfold tab in Et. destruct (topology h1 !! l) eqn:El; [|done]. by eapply lookup_lt_Some. }
  assert (forall k l j, level (topology h0) l -> j ∈ cpus cm -> entry k h l j = Some (addresses h k l j)) as Hput.
  { intros k l j Hl Hj. unfold addresses. destruct (Hp k l j) as [a E]; [by rewrite <- (length_fmap bare), A2|done|]. by rewrite He, E. }
  split; try done.
  - split; [done|done|]. intros k l j Hl Hj. unfold live. rewrite Ho. pose proof (Hput k l j Hl Hj) as E. rewrite He in E. apply A7 in E as (_ & -> & _). by eexists.
  - intros k l j l' j' Hl Hl' Hj Hj' E. apply (A8 k l j l' j' (addresses h k l j)); rewrite <- He; [by apply Hput|]. rewrite E. by apply Hput.
  - intros k l j Hl Hj. rewrite Ho. pose proof (Hput k l j Hl Hj) as E. rewrite He in E. apply A7 in E as (? & ? & _). split; [done|]. cbn. lia.
  - intros k a Hna. rewrite Ho. apply A9. intros l j E. rewrite <- He in E. destruct (Hentry k l j a E) as (Hl & Hj & Ea). by apply (Hna l j).
  - intros k l q E. destruct (A4 k l q E) as [? [f Ef]]. split; [lia|]. unfold h. cbn. rewrite lookup_insert_ne by lia. by eexists.
  - intros q Hq Hnt. unfold h. cbn. rewrite lookup_insert_ne by done. by apply A6.
  - unfold h. cbn. by rewrite lookup_insert_eq.
  - unfold h. change (with_roots (rest h1) m ({[rd]} ∪ roots h0) 0 = with_roots (rest h0) m ({[rd]} ∪ roots h0) 0). by rewrite A3.
  - cbn. lia.
  - by exists pri.
Qed.

(** ** The first two loops *)

Section loops.
Context (cm : Z) (attr : option Z) (h0 : dom) (m : nat -> root_domain) (rd p : nat) (A : kind -> nat -> nat -> nat) (n : nat) (h : dom).
#[local] Abbreviation topo := (topology h0).
#[local] Abbreviation cpus := (cpus cm).
#[local] Abbreviation rep := (rep topo cm).
Context (TOK : topo_ok topo) (LU : levels_used topo cm n) (SU : set_up cm h0 m rd p A h) (NR : nr_cpu_ids < 2 ^ 31).

(** The domains and groups are built; nothing else changed. *)
Record grouped_up hg : Prop := {
  gu_eq : hg = h <| sds := sds hg |> <| sgs := sgs hg |> <| sgps := sgps hg |> <| sg_power := sg_power hg |> <| percpus := percpus hg |>
    <| sched_domain_level_max := sched_domain_level_max hg |>;
  gu_all : grouped_all topo cm A n hg;
  gu_out : forall k a, (forall l i, (l < n)%nat -> i ∈ cpus -> a <> A k l i) -> obj k hg a = obj k h a;
  gu_live : forall k a, live k hg a <-> live k h a;
  gu_percpu : forall q, q <> p -> percpus hg !! q = percpus h !! q;
  gu_base : exists f, percpus hg !! p = Some f /\ forall i, i ∈ cpus -> f i = Some (A KSd 0 i) }.

Lemma not_base k l : tab k h l <> Some p.
Proof. intros E. apply (su_tab _ _ _ _ _ _ _ SU) in E as [? _]. lia. Qed.
Lemma zero_ref k l j : level topo l -> j ∈ cpus -> obj k h (A k l j) = Some (new_obj k (A k l j)).
Proof. intros Hl Hj. by apply (su_obj _ _ _ _ _ _ _ SU). Qed.
Lemma grouped_after hb hg : built topo cm A n p cpus h hb -> groups_of topo cm A n (all_pairs n cpus) hb hg -> grouped_up hg.
Proof.
  intros B G. destruct (built_laid topo cm A n p cpus h hb not_base B (su_laid _ _ _ _ _ _ _ SU)) as [Lb Tb].
  pose proof (groups_laid _ _ _ _ _ _ _ G Lb) as Lg. pose proof (su_sep _ _ _ _ _ _ _ SU) as SEP.
  assert (sgs hb = sgs h /\ sgps hb = sgps h) as [Eg Ep] by (rewrite (bt_eq _ _ _ _ _ _ _ _ B); done).
  assert (percpus hg = percpus hb /\ topology hg = topology h) as [Ec Et]
    by (rewrite (gs_eq _ _ _ _ _ _ _ G); cbn; rewrite (bt_eq _ _ _ _ _ _ _ _ B); done).
  assert (forall l i, (l < n)%nat -> i ∈ cpus -> (l, i) ∈ all_pairs n cpus) as Hall by (intros; by apply in_all_pairs).
  split.
  - rewrite (gs_eq _ _ _ _ _ _ _ G), (bt_eq _ _ _ _ _ _ _ _ B). by destruct h.
  - split; [done|..].
    + intros l i Hl Hi. destruct (gs_dom _ _ _ _ _ _ _ G l i Hl Hi) as (d & Ed & Hd & Hg). exists d. auto.
    + intros l r Hl Hr. by apply (gs_ref _ _ _ _ _ _ _ G).
    + intros l r Hl Hr. destruct (decide (rep l r = r)) as [E|E].
      * destruct (gs_ring _ _ _ _ _ _ _ G l r (Hall l r Hl Hr) Hl Hr) as [_ Hd].
        destruct (Hd r) as (x & s & _ & _ & _ & Es & Er); [|by exists s].
        apply heads_sub. split; [done|]. apply (self_span topo cm TOK); [by apply (used topo cm n LU)|done].
      * assert (sgps hg !! A KSgp l r = sgps h !! A KSgp l r) as ->.
        { rewrite <- Ep. apply (gs_sgp _ _ _ _ _ _ _ G). intros l' i Hl' Hi Ea.
          assert (rep l' i ∈ cpus) as Hri by (apply rep_cpu; [exact TOK|by apply (used topo cm n LU)|done]).
          destruct (SEP KSgp l r l' (rep l' i)) as [-> ->]; [by apply (used topo cm n LU)|by apply (used topo cm n LU)|done|done|done|].
          apply E. apply rep_rep; [exact TOK|by apply (used topo cm n LU)|done]. }
        pose proof (zero_ref KSgp l r (used topo cm n LU l Hl) Hr) as Eo. cbn in Eo. destruct (sgps h !! A KSgp l r) as [s|]; [|done].
        exists s. split; [done|]. injection Eo as ->. done.
    + intros l i Hl Hi. apply (gs_ring _ _ _ _ _ _ _ G); auto.
    + intros k l k' l' q. unfold tab. rewrite Et. apply (su_inj _ _ _ _ _ _ _ SU).
  - intros k a Ha. assert (obj k hg a = obj k hb a) as ->.
    { destruct k; cbn; f_equal.
      - by apply (gs_sd _ _ _ _ _ _ _ G).
      - apply (gs_sg _ _ _ _ _ _ _ G). intros l i Hl Hi. apply Ha; [done|]. apply rep_cpu; [exact TOK|by apply (used topo cm n LU)|done].
      - apply (gs_sgp _ _ _ _ _ _ _ G). intros l i Hl Hi. apply Ha; [done|]. apply rep_cpu; [exact TOK|by apply (used topo cm n LU)|done]. }
    destruct k; cbn; [|by rewrite Eg|by rewrite Ep]. f_equal. by apply (bt_sd _ _ _ _ _ _ _ _ B).
  - intros k a. rewrite (gs_live _ _ _ _ _ _ _ G). destruct k; [|unfold live; cbn; by rewrite Eg|unfold live; cbn; by rewrite Ep].
    rewrite !live_sd. apply B.
  - intros q Hq. rewrite Ec. by apply B.
  - rewrite Ec. apply B.
Qed.
Lemma wp_grouped s (K : Z -> M Z) (Q : Z -> dom -> Prop) : s_sd s = Some p -> force_sd_overlap h = false ->
  (forall hg, grouped_up hg -> wp (K 0) hg Q) ->
  wp (for_each (cpus_of cm) (build_cpu cm attr s) ;; err ← try_each (cpus_of cm) (groups_of_cpu s); K err) h Q.
Proof.
  intros Es Hov HQ. pose proof (su_laid _ _ _ _ _ _ _ SU) as L. pose proof (su_sep _ _ _ _ _ _ _ SU) as SEP.
  apply wp_bind, (wp_build_all topo cm TOK attr A n LU SEP p); [done|done|apply not_base|done|by rewrite (su_base _ _ _ _ _ _ _ SU)|].
  intros hb B. destruct (built_laid topo cm A n p cpus h hb not_base B L) as [Lb _]. destruct (bt_base _ _ _ _ _ _ _ _ B) as (f & Ef & Hf).
  apply wp_bind, (wp_groups_all topo cm TOK A n LU SEP NR s p f); [done..| |].
  - apply (groups_start topo cm A n LU hb Lb); [apply B|]. intros l r Hl Hr. assert (sgs hb = sgs h) as -> by (rewrite (bt_eq _ _ _ _ _ _ _ _ B); done).
    pose proof (zero_ref KSg l r Hl Hr) as Eo. cbn in Eo. destruct (sgs h !! A KSg l r) as [x|]; [|done]. by injection Eo as ->.
  - intros hg G. apply HQ. by apply (grouped_after hb).
Qed.
End loops.
End construct.
