(* ===== verification/DomSpec.v ===== *)
(** build_sched_domains(): what it leaves behind. *)

From S2P Require Import Prelude KList Sched Ras Rt RtSpec TaskGroupSpec RtBorrow RtBorrowSpec Affinity Smp RtSmp RtPush SmpSpec RtSmpSpec SmpMachine RtPushSpec Migrate MigrateSpec RootSpec Domains DomLogic DomAlloc DomVisit DomAttach DomGroups DomDebug DomTopo DomBuild DomRings DomClaim DomPublish DomConstruct.

(** ** What the machine sees of a domain *)

Section view.
Context {SK : SKTypes} {ST : SmpTypes} {CM : CpuMask} {CMS : CpuMasks} {CML : CpuMasksLaws} {DM : DomMasks} {DE : DomEnv}.
Implicit Types (h : dom) (a b c g : nat) (l : list nat).

Lemma ring_next h l b y c : ring h l -> b ∈ l -> sgs h !! b = Some y -> g_next y = Some c -> c ∈ l.
Proof.
  intros Hr (l1 & l2 & ->)%list_elem_of_split Ey Ec. apply ring_rotate in Hr. cbn in Hr.
  assert (c ∈ (l2 ++ l1) ++ [b]) as Hc.
  { destruct ((l2 ++ l1) ++ [b]) as [|x r] eqn:E; [by destruct (l2 ++ l1)|]. destruct Hr as [(z & Ez & En) _].
    assert (z = y) as -> by congruence. assert (x = c) as -> by congruence. by left. }
  set_solver.
Qed.
Lemma ring_masks_same h h' (P : nat -> Prop) n g x : (forall b, P b -> sgs h' !! b = sgs h !! b) ->
  (forall b y c, P b -> sgs h !! b = Some y -> g_next y = Some c -> P c) -> (forall b, x = Some b -> P b) -> ring_masks n h' g x = ring_masks n h g x.
Proof.
  intros HP Hn. revert x. induction n as [|n IH]; intros x Hx; [done|]. cbn. destruct x as [b|]; [|done]. specialize (Hx b eq_refl). rewrite (HP b Hx).
  destruct (sgs h !! b) as [y|] eqn:Ey; [|done]. f_equal. destruct (bool_decide _); [done|]. apply IH. intros c Ec. by apply (Hn b y c).
Qed.
Lemma view_alike h h' a (P : nat -> Prop) : alike h h' a -> (forall b, P b -> sgs h' !! b = sgs h !! b) ->
  (forall b y c, P b -> sgs h !! b = Some y -> g_next y = Some c -> P c) ->
  (forall d g, sds h !! a = Some d -> d_groups d = Some g -> P g) -> domain_view h' a = domain_view h a.
Proof.
  intros [Ha _] HP Hn Hd. unfold domain_view. destruct (sds h' !! a) as [d|], (sds h !! a) as [d'|] eqn:E; cbn in Ha; try done.
  apply (inj Some), unlinked_same in Ha as (-> & -> & -> & -> & _). destruct (d_groups d') as [g|] eqn:Eg; [|done].
  rewrite (ring_masks_same h h' P); [done|done|done|]. intros b [= <-]. by apply (Hd d').
Qed.
End view.

Section spec.
Context {SK : SKTypes} {ST : SmpTypes} {STL : SmpTypesLaws} {CM : CpuMask} {CMS : CpuMasks} {CML : CpuMasksLaws} {SE : SmpEnv}
  {SL : SmpEnvLaws} {NL : KListLaws snode} {SC : SmpClasses} {OC : OtherClasses} {OH : OtherHooks} {RH : RuntimeHooks} {ME : MigrateEnv}
  {DM : DomMasks} {DE : DomEnv} {DL : DomLaws}.
Context (pushes : nat) (held : nat -> Z) (known : nat -> Prop) (qs : nat -> Z -> list nat).
Implicit Types (h : dom) (a c i j l q r : nat) (k : kind) (d : sdom).

Definition root_exists h r : Prop := r = def_root_domain \/ r ∈ roots h.

(** What build_sched_domains() needs of the state [h0] and of the map [cm]: the
    processors' domains so far are [old]. *)
Record buildable (cm : Z) (old : nat -> list nat) (h0 : dom) : Prop := {
  bd_heap : fresh_heap h0;
  bd_tables : no_data h0;
  bd_topo : topo_ok (topology h0);
  bd_feat : force_sd_overlap h0 = false;
  bd_some : cpus_of cm <> [];
  bd_known : forall i, i ∈ cpus_of cm -> known i;
  bd_old : forall i, i ∈ cpus_of cm -> chain_of h0 None (rq_sdp h0 i) (old i) /\ (length (old i) <= length (topology h0))%nat;
  bd_root : root_inv held known (root_exists h0) (machine h0);
  bd_held : forall r, ~ root_exists h0 r -> held r = 0;
  bd_smp : smp_inv qs (machine h0) }.

Section result.
Context (cm : Z) (old : nat -> list nat) (h0 : dom).
#[local] Abbreviation topo := (topology h0).
#[local] Abbreviation cpus := (cpus cm).
#[local] Abbreviation rep := (rep topo cm).
#[local] Abbreviation n := (levels_of topo cm).

(** The domains of a processor, from the lowest level up; the objects that are
    kept: all domains, and the groups and powers of the processors that stand for
    themselves. *)
Definition domains_of (A : kind -> nat -> nat -> nat) i : list nat := (fun l => A KSd l i) <$> seq 0 n.
Definition kept k l j : Prop := (l < n)%nat /\ j ∈ cpus /\ (k = KSd \/ rep l j = j).

Record constructed (A : kind -> nat -> nat -> nat) (rd : nat) h : Prop := {
  (* the heap *)
  cs_separate : separate topo cm A;
  cs_live : forall k a, live k h a <-> live k h0 a \/ exists l i, kept k l i /\ a = A k l i;
  cs_fresh : forall k l i, kept k l i -> (kmalloc_next h0 <= A k l i < kmalloc_next h)%nat;
  cs_old : forall k a, live k h0 a -> obj k h a = obj k h0 a;
  cs_tables : topology h = topo /\ forall q, percpus h !! q = percpus h0 !! q;
  (* the domains and their groups *)
  cs_domain : forall l i, (l < n)%nat -> i ∈ cpus -> exists d, sds h !! A KSd l i = Some d /\
    d_span d = span_at topo cm l i /\ d_private d = l /\ d_groups d = Some (A KSg l (rep l i));
  cs_ring : forall l i, (l < n)%nat -> i ∈ cpus -> divided (span_at topo cm l i) (rep l) (A KSg l) (A KSgp l) h;
  cs_group : forall l r, kept KSg l r -> exists x s, sgs h !! A KSg l r = Some x /\ sgps h !! A KSgp l r = Some s /\
    g_ref x = Z.of_nat (refs topo cm l r (all_pairs n cpus)) /\ g_weight x = u32 (cpumask_weight (g_cpus x)) /\ nr_busy_cpus s = s32 (g_weight x);
  (* what is attached *)
  cs_chain : forall i, i ∈ cpus -> let l := survivors h (domains_of A i) in
    chain_of h None (rq_sdp h i) l /\ contributing h l /\ Forall (fun a => degenerate h a = false) l /\
    rq_sd (Smp.cpus (machine h) i) = domain_view h <$> l /\ rq_rd (Smp.cpus (machine h) i) = Some rd /\
    c_true (rq_online (Smp.cpus (machine h) i)) = cpumask_test_cpu i (active_mask (machine h0));
  cs_others : forall i, i ∉ cpus -> rq_sdp h i = rq_sdp h0 i /\ rq_rd (Smp.cpus (machine h) i) = rq_rd (Smp.cpus (machine h0) i) /\
    rq_online (Smp.cpus (machine h) i) = rq_online (Smp.cpus (machine h0) i) /\ rq_sd (Smp.cpus (machine h) i) = rq_sd (Smp.cpus (machine h0) i);
  cs_new_root : ~ root_exists h0 rd /\ roots h = {[rd]} ∪ roots h0;
  cs_root : root_inv held known (root_exists h) (machine h);
  cs_smp : smp_inv qs (machine h);
  (* what waits for the grace period *)
  cs_rcu : exists cb, rcu h = rcu h0 ++ concat (callbacks h (domains_of A) old cb <$> cpus) /\ roots_freed h0 cpus cb h }.

(** ** Before the last loop *)

Section steps.
Context (BD : buildable cm old h0) (m : nat -> root_domain) (rd p : nat) (A : kind -> nat -> nat -> nat) (h hg hc : dom) (ds : list (nat * nat)).
Context (SU : set_up cm h0 m rd p A h) (GU : grouped_up cm h0 p A n h hg) (CL : claimed topo cm A n hg ds hc).
Context (DS : forall l i, (l, i) ∈ ds <-> (l < n)%nat /\ i ∈ cpus).
#[local] Abbreviation TOK := (bd_topo _ _ _ BD).

Lemma used_n : levels_used topo cm n.
Proof. apply levels_of_used; apply BD. Qed.
Lemma level_n l : (l < n)%nat -> level topo l.
Proof. apply (used topo cm n used_n). Qed.
Lemma after_claims : machine hc = (machine h0) <| rds := m |> /\ rq_sdp hc = rq_sdp h0 /\ rcu hc = rcu h0 /\ roots hc = {[rd]} ∪ roots h0 /\
  topology hc = topology h /\ sds hc = sds hg.
Proof.
  pose proof (su_rest _ _ _ _ _ _ _ SU) as Er.
  assert (machine hc = machine (rest h) /\ rq_sdp hc = rq_sdp (rest h) /\ rcu hc = rcu (rest h) /\ roots hc = roots (rest h) /\ topology hc = topology h /\ sds hc = sds hg)
    as (-> & -> & -> & -> & -> & ->).
  { rewrite (cl_eq _ _ _ _ _ _ _ CL). cbn. rewrite (gu_eq _ _ _ _ _ _ _ GU). done. }
  rewrite Er. done.
Qed.
(** Other objects are as they were. *)
Definition unplaced k a : Prop := forall l j, level topo l -> j ∈ cpus -> a <> A k l j.
Lemma old_unplaced k a : (a < kmalloc_next h0)%nat -> unplaced k a.
Proof. intros Ha l j Hl Hj ->. destruct (su_obj _ _ _ _ _ _ _ SU k l j Hl Hj) as [_ ?]. lia. Qed.
Lemma other_objects k a : unplaced k a -> obj k hc a = obj k h0 a.
Proof.
  intros Hne. rewrite <- (su_old _ _ _ _ _ _ _ SU k a Hne). rewrite <- (gu_out _ _ _ _ _ _ _ GU) by (intros; apply Hne; auto using level_n). destruct k; cbn.
  - by destruct after_claims as (_ & _ & _ & _ & _ & ->).
  - f_equal. apply (cl_sg_out _ _ _ _ _ _ _ CL). intros; apply Hne; auto using level_n.
  - f_equal. apply (cl_sgp_out _ _ _ _ _ _ _ CL). intros; apply Hne; auto using level_n.
Qed.
Lemma old_domains i a : i ∈ cpus -> a ∈ old i -> (a < kmalloc_next h0)%nat.
Proof.
  intros Hi Ha. destruct (bd_old _ _ _ BD i Hi) as [Hc _]. apply (fh_obj _ (bd_heap _ _ _ BD) KSd). apply live_sd. by eapply chain_live.
Qed.

Lemma chain_from i b l : i ∈ cpus -> n = (l + b)%nat ->
  chain_of hc (child_at A l i) (if (l <? n)%nat then Some (A KSd l i) else None) ((fun l => A KSd l i) <$> seq l b).
Proof.
  intros Hi. revert l. induction b as [|b IH]; intros l E; cbn [seq fmap list_fmap chain_of].
  - by rewrite (proj2 (Nat.ltb_ge l n)) by lia.
  - rewrite (proj2 (Nat.ltb_lt l n)) by lia. split; [done|]. destruct (ga_dom _ _ _ _ _ (gu_all _ _ _ _ _ _ _ GU) l i) as (d & Ed & Hd & _); [lia|done|].
    destruct after_claims as (_ & _ & _ & _ & _ & Es). exists d. rewrite Es. split_and!; [done|apply (do_child _ _ _ _ _ _ _ Hd)|]. rewrite (do_parent _ _ _ _ _ _ _ Hd). apply (IH (S l)). lia.
Qed.
Lemma domains_nodup i : i ∈ cpus -> NoDup (domains_of A i).
Proof.
  intros Hi. apply NoDup_fmap_2_strong; [|apply NoDup_seq]. intros x y Hx%elem_of_seq Hy%elem_of_seq E.
  destruct (su_sep _ _ _ _ _ _ _ SU KSd x i y i) as [-> _]; [apply level_n; lia|apply level_n; lia|done..].
Qed.
Lemma in_domains i a : a ∈ domains_of A i <-> exists l, (l < n)%nat /\ a = A KSd l i.
Proof. unfold domains_of. rewrite list_elem_of_fmap. setoid_rewrite elem_of_seq. split; intros (l & H1 & H2); exists l; (split; [lia|done]) || (split; [done|lia]). Qed.
Lemma domains_apart i j a : i ∈ cpus -> j ∈ cpus -> i <> j -> a ∈ domains_of A i -> a ∉ domains_of A j.
Proof.
  intros Hi Hj Hne (l & Hl & ->)%in_domains (l' & Hl' & E)%in_domains.
  by destruct (su_sep _ _ _ _ _ _ _ SU KSd l i l' j) as [_ ?]; auto using level_n.
Qed.
Lemma rd_new : ~ root_exists h0 rd.
Proof.
  pose proof (su_num _ _ _ _ _ _ _ SU). intros [->|Hr]; [|apply (fh_root _ (bd_heap _ _ _ BD)) in Hr; lia].
  unfold def_root_domain in *. lia.
Qed.
Lemma ready_now : ready held known qs (fun r => root_exists h0 r \/ r = rd) rd cm hc (A KSd 0) (domains_of A) old.
Proof.
  destruct after_claims as (Em & Ep & _ & _ & Et & Es). pose proof (lu_pos _ _ _ used_n) as Hn. destruct (su_new _ _ _ _ _ _ _ SU) as [pri Hpri].
  assert (length (topology hc) = length topo) as El by (rewrite Et, <- (lo_topo _ _ _ _ (su_laid _ _ _ _ _ _ _ SU)); by rewrite length_fmap).
  assert (forall c, is_cpu c = true -> rq_rd (Smp.cpus (machine h0) c) <> Some rd) as Hno.
  { intros c Hc E. destruct (ri_rd _ _ _ _ (bd_root _ _ _ BD) c Hc) as (r & Hr & E'). assert (r = rd) as -> by congruence. by apply rd_new. }
  split.
  - rewrite Em. apply (new_root_inv held known _ rd pri); [apply BD|apply rd_new|apply (bd_held _ _ _ BD), rd_new|done|apply SU].
  - rewrite Em. apply (new_root_smp qs rd pri); [done|apply BD|done|apply SU].
  - by right.
  - intros c Hc. rewrite Em. by apply Hno.
  - apply BD.
  - intros i Hi. split_and!.
    + pose proof (chain_from i n 0 Hi eq_refl) as Hc. by rewrite (proj2 (Nat.ltb_lt 0 n)) in Hc by lia.
    + by apply domains_nodup.
    + apply Forall_forall. intros a (l & Hl & ->)%in_domains. destruct (ga_dom _ _ _ _ _ (gu_all _ _ _ _ _ _ _ GU) l i Hl Hi) as (d & Ed & _ & Eg).
      assert (rep l i ∈ cpus) as Hr by (apply rep_cpu; [exact TOK|by apply level_n|done]).
      destruct (ga_ref _ _ _ _ _ (gu_all _ _ _ _ _ _ _ GU) l (rep l i) Hl Hr) as (x & Ex & _). destruct (claimed_group _ _ _ _ _ _ _ _ _ CL Ex) as (y & Ey & _).
      exists d, (A KSg l (rep l i)), y. by rewrite Es.
    + unfold domains_of. rewrite length_fmap, length_seq, El. lia.
  - intros i Hi. rewrite Ep, El. destruct (bd_old _ _ _ BD i Hi) as [Hc Hl]. split; [|done]. apply (chain_frame h0); [|done].
    intros a Ha%old_domains; [|done]. pose proof (other_objects KSd a (old_unplaced KSd a Ha)) as Eo. cbn in Eo. destruct (sds hc !! a), (sds h0 !! a); cbn in Eo; congruence.
  - intros i j a Hi Hj Hne. by apply domains_apart.
  - intros i j a Hi Hj Ha%old_domains (l & Hl & ->)%in_domains; [|done]. destruct (su_obj _ _ _ _ _ _ _ SU KSd l j (level_n l Hl) Hj) as [_ ?]. lia.
Qed.

(** ** The objects that are freed at the end *)

#[local] Abbreviation published := (published held known qs (fun r => root_exists h0 r \/ r = rd) rd hc (domains_of A) old).
Context (hp : dom) (PB : published cpus hp).
#[local] Instance kept_dec k l j : Decision (kept k l j).
Proof. unfold kept. apply _. Defined.

Lemma same_tables k l : tab k hp l = tab k h l.
Proof.
  assert (topology hp = topology h) as E by (rewrite (pb_eq _ _ _ _ _ _ _ _ _ _ PB); apply after_claims). unfold tab. by rewrite E.
Qed.
Lemma percpus_hp : percpus hp = percpus hc /\ sgs hp = sgs hc /\ sgps hp = sgps hc.
Proof. rewrite (pb_eq _ _ _ _ _ _ _ _ _ _ PB). done. Qed.
Lemma entries_left k l j : entry k hp l j = if decide (kept k l j) then None else entry k h l j.
Proof.
  assert (forall k l, tab k h l <> Some p) as Hp by (intros; by eapply not_base).
  assert (topology hg = topology h) as Et by (rewrite (gu_eq _ _ _ _ _ _ _ GU); done).
  assert (entry k hg l j = entry k h l j) as <-.
  { unfold entry, tab. rewrite Et. fold (tab k h l). unfold slot. destruct (tab k h l) as [q|] eqn:E; [|done].
    rewrite (gu_percpu _ _ _ _ _ _ _ GU); [done|]. intros ->. by apply (Hp k l). }
  assert (entry k hp l j = entry k hc l j) as ->.
  { unfold entry. rewrite same_tables. assert (tab k hc l = tab k h l) as -> by (unfold tab; by destruct after_claims as (_ & _ & _ & _ & -> & _)).
    unfold slot. by destruct percpus_hp as [-> _]. }
  rewrite (cl_entry _ _ _ _ _ _ _ CL). assert (taken topo cm ds k l j <-> kept k l j) as Hk by (unfold taken, kept; rewrite DS; tauto).
  destruct (decide (taken _ _ _ _ _ _)), (decide (kept k l j)) as [H|H]; rewrite <- Hk in H; done.
Qed.
Lemma live_hp k a : live k hp a <-> live k h a.
Proof.
  rewrite <- (gu_live _ _ _ _ _ _ _ GU). destruct percpus_hp as (_ & Eg & Ep), after_claims as (_ & _ & _ & _ & _ & Es). destruct k.
  - rewrite !live_sd. pose proof (pb_in _ _ _ _ _ _ _ _ _ _ PB a) as H. rewrite Es in H. destruct (sds hp !! a), (sds hg !! a); try done; split; by eexists.
  - rewrite !live_sg, Eg. pose proof (cl_sg _ _ _ _ _ _ _ CL a) as H. destruct (sgs hc !! a), (sgs hg !! a); try done; split; by eexists.
  - rewrite !live_sgp, Ep. pose proof (cl_sgp _ _ _ _ _ _ _ CL a) as H. destruct (sgps hc !! a), (sgps hg !! a); try done; split; by eexists.
Qed.
Definition without_base : dom := hp <| percpus ::= delete p |>.
Lemma base_entry k l j : entry k without_base l j = entry k hp l j.
Proof.
  unfold entry, slot. change (tab k without_base l) with (tab k hp l). rewrite same_tables. destruct (tab k h l) as [q|] eqn:E; [|done].
  cbn. rewrite lookup_delete_ne; [done|]. intros <-. by eapply (not_base cm h0 m rd p A h SU k l).
Qed.
(** What is left in the tables *)
Lemma left_entry k l j a : entry k without_base l j = Some a -> level topo l /\ j ∈ cpus /\ a = A k l j /\ ~ kept k l j.
Proof.
  rewrite base_entry, entries_left. case_decide as Hk; [done|]. intros (? & ? & ?)%(su_entry _ _ _ _ _ _ _ SU). done.
Qed.
Lemma left_placed k l j : level topo l -> j ∈ cpus -> ~ kept k l j -> entry k without_base l j = Some (A k l j).
Proof. intros Hl Hj Hk. rewrite base_entry, entries_left, decide_False by done. by apply (lo_entry _ _ _ _ (su_laid _ _ _ _ _ _ _ SU)). Qed.
Lemma tables_left : tables_ok cpus without_base.
Proof.
  split.
  - intros k l q E. change (tab k without_base l) with (tab k hp l) in E. rewrite same_tables in E. destruct (su_tab _ _ _ _ _ _ _ SU k l q E) as [Hq Hs].
    cbn. rewrite lookup_delete_ne by lia. destruct percpus_hp as [-> _]. apply (cl_live _ _ _ _ _ _ _ CL). by rewrite (gu_percpu _ _ _ _ _ _ _ GU) by lia.
  - intros k l k' l' q. change (tab k hp l = Some q -> tab k' hp l' = Some q -> k = k' /\ l = l'). rewrite !same_tables. apply (su_inj _ _ _ _ _ _ _ SU).
  - intros k l j a Hj E. apply left_entry in E as (Hl & _ & -> & _). assert (live k hp (A k l j)) as H; [|by destruct k].
    apply live_hp. by apply (lo_live _ _ _ _ (su_laid _ _ _ _ _ _ _ SU)).
  - intros k l j l' j' a Hj Hj' (Hl & _ & -> & _)%left_entry (Hl' & _ & E & _)%left_entry. by apply (su_sep _ _ _ _ _ _ _ SU k).
  - intros l j a d Hj (Hl & _ & -> & Hk)%left_entry Ed. assert (~ (l < n)%nat) as Hn by (intros Hn; apply Hk; unfold kept; auto).
    assert (forall l' i, (l' < n)%nat -> i ∈ cpus -> A KSd l j <> A KSd l' i) as Hne.
    { intros l' i Hl' Hi E. destruct (su_sep _ _ _ _ _ _ _ SU KSd l j l' i) as [-> _]; auto using level_n. }
    assert (obj KSd hg (A KSd l j) = Some (new_obj KSd (A KSd l j))) as Eo.
    { rewrite (gu_out _ _ _ _ _ _ _ GU) by done. by apply (su_obj _ _ _ _ _ _ _ SU). }
    assert (sds hp !! A KSd l j = sds hg !! A KSd l j) as E.
    { rewrite (pb_out _ _ _ _ _ _ _ _ _ _ PB); [by destruct after_claims as (_ & _ & _ & _ & _ & ->)|]. intros i Hi (l' & Hl' & E)%in_domains. by apply (Hne l' i). }
    change (sds hp !! A KSd l j = Some d) in Ed. rewrite E in Ed. cbn in Eo. rewrite Ed in Eo. by injection Eo as ->.
Qed.

(** ** The end *)

Context (h' : dom) (FR : freed_levels cm (seq 0 (length (topology without_base))) without_base h').
Lemma left_levels l : level topo l -> l ∈ seq 0 (length (topology without_base)).
Proof.
  intros Hl. apply elem_of_seq. change (topology without_base) with (topology hp).
  assert (topology hp = topology h) as -> by (rewrite (pb_eq _ _ _ _ _ _ _ _ _ _ PB); apply after_claims).
  rewrite <- (length_fmap bare), (lo_topo _ _ _ _ (su_laid _ _ _ _ _ _ _ SU)). unfold level in Hl. lia.
Qed.
Lemma final_obj k a : (forall l j, level topo l -> j ∈ cpus -> ~ kept k l j -> a <> A k l j) -> obj k h' a = obj k hp a.
Proof.
  intros Hne. transitivity (obj k without_base a); [|by destruct k]. apply (fs_kept _ _ _ _ FR). intros l j _ Hj (Hl & _ & Ea & Hk)%left_entry.
  by apply (Hne l j).
Qed.
Lemma final_gone k l j : level topo l -> j ∈ cpus -> ~ kept k l j -> obj k h' (A k l j) = None.
Proof. intros Hl Hj Hk. apply (fs_gone _ _ _ _ FR k l j); [by apply left_levels|done|by apply left_placed]. Qed.
Lemma kept_level k l j : kept k l j -> level topo l /\ j ∈ cpus.
Proof. intros (Hl & Hj & _). split; [by apply level_n|done]. Qed.
Lemma final_kept k l j : kept k l j -> obj k h' (A k l j) = obj k hp (A k l j).
Proof.
  intros Hk. apply final_obj. intros l' j' Hl' Hj' Hn E. destruct (kept_level k l j Hk) as [Hl Hj].
  destruct (su_sep _ _ _ _ _ _ _ SU k l j l' j') as [-> ->]; auto.
Qed.
Lemma final_other k a : unplaced k a -> obj k h' a = obj k h0 a.
Proof.
  intros Hu. rewrite final_obj by (intros; by apply Hu). rewrite <- (other_objects k a Hu). destruct percpus_hp as (_ & Eg & Ep). destruct k; cbn; [|by rewrite Eg|by rewrite Ep].
  f_equal. apply (pb_out _ _ _ _ _ _ _ _ _ _ PB). intros i Hi (l & Hl & ->)%in_domains. apply (Hu l i); [by apply level_n|done|done].
Qed.
Lemma placed_or_not k a : (exists l j, level topo l /\ j ∈ cpus /\ a = A k l j) \/ unplaced k a.
Proof.
  destruct (decide (Exists (fun l => Exists (fun j => a = A k l j) cpus) (seq 0 (length topo)))) as [H|H].
  - left. apply Exists_exists in H as (l & Hl%elem_of_seq & (j & Hj & ->)%Exists_exists). exists l, j. split; [unfold level; lia|done].
  - right. intros l j Hl Hj ->. apply H, Exists_exists. exists l. split; [apply elem_of_seq; unfold level in Hl; lia|]. apply Exists_exists. by exists j.
Qed.
Lemma final_live k a : live k h' a <-> live k h0 a \/ exists l i, kept k l i /\ a = A k l i.
Proof.
  destruct (placed_or_not k a) as [(l & j & Hl & Hj & ->)|Hu].
  - assert (~ live k h0 (A k l j)) as Hn.
    { intros H%(fh_obj _ (bd_heap _ _ _ BD)). destruct (su_obj _ _ _ _ _ _ _ SU k l j Hl Hj) as [_ ?]. lia. }
    destruct (decide (kept k l j)) as [Hk|Hk].
    + split; [intros _; right; by exists l, j|]. intros _. unfold live. rewrite final_kept by done. apply live_hp.
      by apply (lo_live _ _ _ _ (su_laid _ _ _ _ _ _ _ SU)).
    + unfold live at 1. rewrite final_gone by done. split; [by intros [? ?]|]. intros [?|(l' & i & Hk' & E)]; [done|]. destruct (kept_level _ _ _ Hk') as [Hl' Hi].
      exfalso. destruct (su_sep _ _ _ _ _ _ _ SU k l j l' i) as [-> ->]; [done..|by apply Hk].
  - unfold live at 1. rewrite final_other by done. split; [by left|]. intros [?|(l & i & [Hl Hi]%kept_level & ->)]; [done|]. by destruct (Hu l i).
Qed.
Lemma final_tables : topology h' = topo /\ forall q, percpus h' !! q = percpus h0 !! q.
Proof.
  assert (topology without_base = topology h) as Et by (change (topology hp = topology h); rewrite (pb_eq _ _ _ _ _ _ _ _ _ _ PB); apply after_claims).
  assert (forall q, (kmalloc_next h0 <= q)%nat -> percpus h0 !! q = None) as Hnew.
  { intros q Hq. destruct (percpus h0 !! q) as [f|] eqn:E; [|done]. assert (is_Some (percpus h0 !! q)) as H by (by eexists).
    apply (fh_percpu _ (bd_heap _ _ _ BD)) in H. lia. }
  pose proof (su_num _ _ _ _ _ _ _ SU) as Hnum. split.
  - rewrite <- (lo_topo _ _ _ _ (su_laid _ _ _ _ _ _ _ SU)). apply list_eq. intros l. rewrite (fs_topo _ _ _ _ FR), Et, list_lookup_fmap.
    case_decide as Hl; [done|]. rewrite elem_of_seq in Hl. by rewrite lookup_ge_None_2 by lia.
  - intros q. destruct (decide (Exists (fun l => Exists (fun k => tab k without_base l = Some q) [KSd; KSg; KSgp]) (seq 0 (length (topology without_base))))) as [H|H].
    + apply Exists_exists in H as (l & Hl & (k & _ & E)%Exists_exists). rewrite (fs_tab _ _ _ _ FR k l q Hl E). symmetry. apply Hnew.
      change (tab k without_base l) with (tab k hp l) in E. rewrite same_tables in E. apply (su_tab _ _ _ _ _ _ _ SU) in E as [? _]. lia.
    + assert (forall k l, tab k h l <> Some q) as Hno.
      { intros k l E. apply H, Exists_exists. exists l. split.
        - apply elem_of_seq. rewrite Et. unfold tab in E. destruct (topology h !! l) eqn:El; [|done]. apply lookup_lt_Some in El. lia.
        - apply Exists_exists. exists k. split; [destruct k; set_solver|]. change (tab k hp l = Some q). by rewrite same_tables. }
      rewrite (fs_percpu _ _ _ _ FR) by (intros k l _; change (tab k hp l <> Some q); rewrite same_tables; apply Hno).
      cbn. destruct (decide (q = p)) as [->|Hq]; [rewrite lookup_delete_eq; symmetry; apply Hnew; lia|]. rewrite lookup_delete_ne by done.
      destruct percpus_hp as [-> _]. rewrite (cl_other _ _ _ _ _ _ _ CL).
      * rewrite (gu_percpu _ _ _ _ _ _ _ GU) by done. by apply (su_percpu _ _ _ _ _ _ _ SU).
      * assert (topology hg = topology h) as Eg by (rewrite (gu_eq _ _ _ _ _ _ _ GU); done). intros k l. unfold tab. rewrite Eg. apply Hno.
Qed.

(** The domains and groups that are kept are those before the last loop, apart
    from the links of the domains. *)
Lemma final_sd l i : (l < n)%nat -> i ∈ cpus -> unlinked <$> sds h' !! A KSd l i = unlinked <$> sds hc !! A KSd l i.
Proof.
  intros Hl Hi. assert (kept KSd l i) as Hk by (unfold kept; auto). pose proof (final_kept KSd l i Hk) as E. cbn in E.
  rewrite <- (pb_in _ _ _ _ _ _ _ _ _ _ PB). destruct (sds h' !! A KSd l i), (sds hp !! A KSd l i); cbn in E; congruence.
Qed.
Lemma final_sg l r : (l < n)%nat -> r ∈ cpus -> rep l r = r -> sgs h' !! A KSg l r = sgs hc !! A KSg l r.
Proof.
  intros Hl Hr E. pose proof (final_kept KSg l r ltac:(unfold kept; auto)) as Eo. cbn in Eo. destruct percpus_hp as (_ & <- & _).
  destruct (sgs h' !! A KSg l r), (sgs hp !! A KSg l r); cbn in Eo; congruence.
Qed.
Lemma final_sgp l r : (l < n)%nat -> r ∈ cpus -> rep l r = r -> sgps h' !! A KSgp l r = sgps hc !! A KSgp l r.
Proof.
  intros Hl Hr E. pose proof (final_kept KSgp l r ltac:(unfold kept; auto)) as Eo. cbn in Eo. destruct percpus_hp as (_ & _ & <-).
  destruct (sgps h' !! A KSgp l r), (sgps hp !! A KSgp l r); cbn in Eo; congruence.
Qed.
Lemma domain_at l i : (l < n)%nat -> i ∈ cpus -> exists d, sds hc !! A KSd l i = Some d /\ dom_ok topo cm A n l i d /\ d_groups d = Some (A KSg l (rep l i)).
Proof. intros Hl Hi. destruct after_claims as (_ & _ & _ & _ & _ & ->). by apply (ga_dom _ _ _ _ _ (gu_all _ _ _ _ _ _ _ GU)). Qed.
Lemma rep_ok l i : (l < n)%nat -> i ∈ cpus -> rep l i ∈ cpus /\ rep l (rep l i) = rep l i.
Proof. intros Hl%level_n Hi. split; [by apply rep_cpu; [exact TOK|..]|by apply rep_rep; [exact TOK|..]]. Qed.
Lemma final_domain l i : (l < n)%nat -> i ∈ cpus -> exists d, sds h' !! A KSd l i = Some d /\
    d_span d = span_at topo cm l i /\ d_private d = l /\ d_groups d = Some (A KSg l (rep l i)).
Proof.
  intros Hl Hi. destruct (domain_at l i Hl Hi) as (d & Ed & Hd & Eg). pose proof (final_sd l i Hl Hi) as E. rewrite Ed in E.
  destruct (sds h' !! A KSd l i) as [d'|]; [|done]. exists d'. apply (inj Some), unlinked_same in E as (-> & _ & _ & -> & -> & _).
  split_and!; [done|apply (do_span _ _ _ _ _ _ _ Hd)|apply (do_private _ _ _ _ _ _ _ Hd)|done].
Qed.
Lemma in_heads l i r : (l < n)%nat -> i ∈ cpus -> r ∈ heads_of (rep l) (cpus_of (span_at topo cm l i)) -> r ∈ cpus /\ rep l r = r.
Proof. intros Hl Hi [E Hr]%heads_sub. split; [by eapply span_cpus|done]. Qed.
Lemma ringed_hc l i : (l < n)%nat -> i ∈ cpus -> ringed topo cm A l i hc.
Proof. intros Hl Hi. by apply (claimed_ringed topo cm A n hg (gu_all _ _ _ _ _ _ _ GU) ds). Qed.
Lemma final_ring l i : (l < n)%nat -> i ∈ cpus -> divided (span_at topo cm l i) (rep l) (A KSg l) (A KSgp l) h'.
Proof.
  intros Hl Hi. pose proof (ringed_hc l i Hl Hi) as Hr. apply (divided_frame _ _ _ _ hc); [|exact Hr]. intros r Hh.
  destruct (in_heads l i r Hl Hi Hh) as [Hrc E]. destruct Hr as [_ Hr]. destruct (Hr r Hh) as (x & _ & Ex & _).
  rewrite final_sg, final_sgp by done. split; [|done]. by exists x, x.
Qed.
Lemma final_group l r : kept KSg l r -> exists x s, sgs h' !! A KSg l r = Some x /\ sgps h' !! A KSgp l r = Some s /\
    g_ref x = Z.of_nat (refs topo cm l r (all_pairs n cpus)) /\ g_weight x = u32 (cpumask_weight (g_cpus x)) /\ nr_busy_cpus s = s32 (g_weight x).
Proof.
  intros (Hl & Hr & [?|E]); [done|]. assert ((l, r) ∈ ds) as Hin by by apply DS.
  destruct (cl_busy _ _ _ _ _ _ _ CL l r Hin Hl Hr E) as (x & s & Ex & Es & Hb).
  destruct (cl_fits _ _ _ _ _ _ _ CL l r r Hin Hl Hr) as (x' & Ex' & Hf); [apply heads_sub; split; [done|apply (self_span topo cm TOK); [by apply level_n|done]]|].
  assert (x' = x) as -> by congruence. destruct (ga_ref _ _ _ _ _ (gu_all _ _ _ _ _ _ _ GU) l r Hl Hr) as (y & Ey & Er).
  destruct (claimed_group _ _ _ _ _ _ _ _ _ CL Ey) as (z & Ez & Hz). assert (z = x) as -> by congruence. apply core_same in Hz as (_ & Hz & _).
  exists x, s. rewrite final_sg, final_sgp by done. unfold fits in Hf. split_and!; [done|done|by rewrite Hz|done|by rewrite Hf].
Qed.

(** ** The chains *)

Lemma final_alike i : i ∈ cpus -> Forall (alike hc h') (domains_of A i).
Proof.
  intros Hi. apply Forall_forall. intros a (l & Hl & ->)%in_domains. split; [by apply final_sd|]. intros d Ed g Eg.
  destruct (domain_at l i Hl Hi) as (d' & Ed' & _ & Eg'). assert (d' = d) as -> by congruence. assert (g = A KSg l (rep l i)) as -> by congruence.
  destruct (rep_ok l i Hl Hi). by apply final_sg.
Qed.
Lemma final_view i a : i ∈ cpus -> a ∈ domains_of A i -> domain_view h' a = domain_view hc a.
Proof.
  intros Hi Ha. pose proof (proj1 (Forall_forall _ _) (final_alike i Hi) a Ha) as Hal. apply in_domains in Ha as (l & Hl & ->).
  apply (view_alike hc h' _ (fun b => b ∈ A KSg l <$> heads_of (rep l) (cpus_of (span_at topo cm l i)))); [done|..].
  - intros b (r & -> & [Hr E]%in_heads)%list_elem_of_fmap; [|done|done]. by apply final_sg.
  - intros b y c Hb. apply ring_next; [|done]. apply (ringed_hc l i Hl Hi).
  - intros d g Ed Eg. destruct (domain_at l i Hl Hi) as (d' & Ed' & _ & Eg'). assert (d' = d) as -> by congruence. assert (g = A KSg l (rep l i)) as -> by congruence.
    apply list_elem_of_fmap_2, heads_sub. destruct (rep_ok l i Hl Hi). split; [done|]. apply rep_span; [exact TOK|by apply level_n|done].
Qed.
Lemma machine_end : machine h' = machine hp /\ rq_sdp h' = rq_sdp hp /\ rcu h' = rcu hp /\ roots h' = {[rd]} ∪ roots h0.
Proof.
  pose proof (fs_rest _ _ _ _ FR) as Er. split_and!; [by apply (f_equal machine) in Er|by apply (f_equal rq_sdp) in Er|by apply (f_equal rcu) in Er|].
  apply (f_equal roots) in Er. change (roots h' = roots hp) in Er. rewrite Er, (pb_eq _ _ _ _ _ _ _ _ _ _ PB). apply after_claims.
Qed.
Lemma final_chain i : i ∈ cpus -> let l := survivors h' (domains_of A i) in
    chain_of h' None (rq_sdp h' i) l /\ contributing h' l /\ Forall (fun a => degenerate h' a = false) l /\
    rq_sd (Smp.cpus (machine h') i) = domain_view h' <$> l /\ rq_rd (Smp.cpus (machine h') i) = Some rd /\
    c_true (rq_online (Smp.cpus (machine h') i)) = cpumask_test_cpu i (active_mask (machine h0)).
Proof.
  intros Hi. cbv zeta. pose proof (final_alike i Hi) as Hal. destruct (survivors_alike hc h' _ Hal) as [-> _], machine_end as (-> & -> & _).
  destruct (pb_chain _ _ _ _ _ _ _ _ _ _ PB i Hi) as (C1 & C2 & C3 & C4). destruct after_claims as (Em & _).
  assert (Forall (alike hc h') (survivors hc (domains_of A i))) as Hal'.
  { rewrite Forall_forall in *. intros a Ha. by apply Hal, (survivors_in hc). }
  destruct (re_chain _ _ _ _ _ _ _ _ _ _ ready_now i Hi) as (_ & _ & Hg & _). split_and!; [..|done|by rewrite C4, Em].
  - apply (chain_frame hp); [|done]. intros a (l & Hl & ->)%survivors_in%in_domains. pose proof (final_kept KSd l i ltac:(unfold kept; auto)) as E. cbn in E.
    destruct (sds h' !! A KSd l i), (sds hp !! A KSd l i); cbn in E; congruence.
  - apply (contributing_alike hc h'); [done|]. apply survivors_contributing.
  - pose proof (survivors_fit hc _ Hg) as Hf. rewrite Forall_forall in *. intros a Ha. rewrite (degenerate_alike hc h') by auto. by apply Hf.
  - rewrite C2. apply list_fmap_ext. intros k a Ha%list_elem_of_lookup_2%survivors_in. symmetry. by apply (final_view i).
Qed.

Lemma root_inv_iff (D D' : nat -> Prop) s : (forall r, D r <-> D' r) -> root_inv held known D s -> root_inv held known D' s.
Proof.
  intros E [I1 I2 I3 I4 I5 I6 I7 I8 I9 I10 I11]. split; try done.
  - intros c Hc. destruct (I5 c Hc) as (r & Hr & Er). exists r. by rewrite <- E.
  - intros r c Hr. by apply I6, E.
  - intros r c Hr. by apply I7, E.
  - intros r Hr. by apply I8, E.
  - intros r Hr. by apply I10, E.
Qed.
Lemma final_rcu : exists cb, rcu h' = rcu h0 ++ concat (callbacks h' (domains_of A) old cb <$> cpus) /\ roots_freed h0 cpus cb h'.
Proof.
  destruct (pb_rcu _ _ _ _ _ _ _ _ _ _ PB) as (cb & Er & [F1 F2 F3]), after_claims as (Em & _ & Erc & _), machine_end as (Emh & _ & -> & _).
  exists cb. split.
  - rewrite Er, Erc. f_equal. apply concat_map_ext. intros i Hi. unfold callbacks. by destruct (survivors_alike hc h' _ (final_alike i Hi)) as [_ ->].
  - split; [done|done|]. intros r. rewrite F3. unfold deserted. by rewrite Emh, Em.
Qed.
Lemma final_constructed : constructed A rd h'.
Proof.
  destruct machine_end as (Em & Ep & _ & Er), after_claims as (Emc & Epc & _). split; try apply final_tables.
  - apply SU.
  - apply final_live.
  - intros k l i [Hl Hi]%kept_level. destruct (su_obj _ _ _ _ _ _ _ SU k l i Hl Hi) as [_ Ha]. rewrite (fs_next _ _ _ _ FR).
    assert (kmalloc_next without_base = kmalloc_next h) as ->; [|done]. change (kmalloc_next hp = kmalloc_next h).
    rewrite (pb_eq _ _ _ _ _ _ _ _ _ _ PB). cbn. rewrite (cl_eq _ _ _ _ _ _ _ CL). cbn. rewrite (gu_eq _ _ _ _ _ _ _ GU). done.
  - intros k a Hl. by apply final_other, old_unplaced, (fh_obj _ (bd_heap _ _ _ BD) k).
  - apply final_domain.
  - apply final_ring.
  - apply final_group.
  - apply final_chain.
  - intros i Hi. destruct (pb_others _ _ _ _ _ _ _ _ _ _ PB i Hi) as (H1 & H2 & H3 & H4). by rewrite Em, Ep, H1, H2, H3, H4, Epc, Emc.
  - split; [apply rd_new|done].
  - rewrite Em. eapply root_inv_iff; [|apply PB]. intros r. unfold root_exists. rewrite Er. set_solver.
  - rewrite Em. apply PB.
  - apply final_rcu.
Qed.
End steps.

(** __free_domain_allocs() of a construction that succeeded *)
Lemma wp_end A m rd p h hg hc ds hp (Q : unit -> dom -> Prop) (BD : buildable cm old h0) (SU : set_up cm h0 m rd p A h) (GU : grouped_up cm h0 p A n h hg)
  (CL : claimed topo cm A n hg ds hc) (DS : forall l i, (l, i) ∈ ds <-> (l < n)%nat /\ i ∈ cpus)
  (PB : published held known qs (fun r => root_exists h0 r \/ r = rd) rd hc (domains_of A) old cpus hp) :
  (forall h', constructed A rd h' -> Q tt h') -> wp (__free_domain_allocs (mkSData (Some p) (Some rd)) sa_rootdomain cm) hp Q.
Proof.
  intros HQ. unfold __free_domain_allocs. apply wp_bind, wp_bind, wp_deref, wp_bind, wp_gets.
  assert (c_true (refcount (rds (machine hp) rd)) = true) as ->.
  { rewrite (ri_ref _ _ _ _ (pb_root _ _ _ _ _ _ _ _ _ _ PB) rd) by by right. pose proof (ri_held _ _ _ _ (pb_root _ _ _ _ _ _ _ _ _ _ PB) rd) as Hh.
    assert (length (members_of rd (machine hp)) <> 0%nat) as Hl; [|unfold c_true; apply negb_true_iff, Z.eqb_neq; lia].
    pose proof (bd_some _ _ _ BD) as Hs. destruct (cpus_of cm) as [|i l] eqn:E; [done|]. assert (i ∈ cpus_of cm) as Hi by (rewrite E; by left).
    destruct (pb_chain _ _ _ _ _ _ _ _ _ _ PB i Hi) as (_ & _ & Hr & _). assert (i ∈ members_of rd (machine hp)) as Hm.
    { apply (members_iff held known). by apply elem_of_cpus in Hi as [? _]. }
    destruct (members_of rd (machine hp)); [by apply not_elem_of_nil in Hm|done]. }
  apply wp_ret, wp_bind, wp_free_percpu.
  { intros a [= <-]. assert (percpus hp = percpus hc) as -> by (rewrite (pb_eq _ _ _ _ _ _ _ _ _ _ PB); done). apply (cl_live _ _ _ _ _ _ _ CL).
    destruct (gu_base _ _ _ _ _ _ _ GU) as (f & -> & _). by eexists. }
  cbn. change (hp <| percpus ::= delete p |>) with (without_base p hp).
  apply wp_sdt_free; [by apply (tables_left BD m rd p A h hg hc ds SU GU CL DS)|].
  intros h' FR. apply HQ. by apply (final_constructed BD m rd p A h hg hc ds SU GU CL DS hp PB h').
Qed.
End result.

(** C9: build_sched_domains() builds the domains of a map completely or not at all.
    It never follows a bad pointer, loops for ever or runs into the BUG_ON() of the
    real-time class.  When it returns -ENOMEM, an allocation failed and nothing is
    left behind.  Otherwise it returns 0, and: every processor of the map has a
    domain on each level up to the first that spans the map; the groups of every
    domain are a ring that divides its span, with a count of the domains that refer
    to each and the weight of each; exactly these objects were added to the heap and
    everything older is untouched; each processor runs with the domains of its own
    that contribute, without any degenerate one, in a new root domain that exactly
    the processors of the map joined; and the rest of its domains, its old domains,
    and the root domains that lost their last reference wait for the grace period,
    each once. *)
Theorem build_sched_domains_spec cm attr old h0 : buildable cm old h0 ->
  exists ret h', build_sched_domains pushes cm attr h0 = Some (ret, h') /\
    (ret = - ENOMEM /\ failed h0 h' \/ ret = 0 /\ exists A rd, constructed cm old h0 A rd h').
Proof.
  intros BD. enough (wp (build_sched_domains pushes cm attr) h0 (fun ret h' =>
    ret = - ENOMEM /\ failed h0 h' \/ ret = 0 /\ exists A rd, constructed cm old h0 A rd h')) as Hw.
  { apply wp_some in Hw as (ret & h' & E & H). by exists ret, h'. }
  unfold build_sched_domains. apply wp_bind, wp_visit; [apply BD|apply BD|..].
  - intros st d h Hst Hw. apply wp_bind. assert (wp (match st with sa_rootdomain => mret 0 | _ => mret (- ENOMEM) end : M Z) h
      (fun ret h' => wp (__free_domain_allocs d st cm ;; mret ret) h' (fun ret h' => ret = - ENOMEM /\ failed h0 h'))) as H.
    { destruct st; [done|..]; apply wp_ret, wp_bind; (eapply wp_mono; [exact Hw|]); intros []; auto using wp_ret. }
    destruct st; [done|..]; (eapply wp_mono; [exact H|]); intros ret h1 H1; (eapply wp_mono; [exact H1|]); auto.
  - intros m rd p h V. pose proof (visited_set_up _ _ _ _ _ _ (bd_heap _ _ _ BD) (bd_tables _ _ _ BD) V) as SU. set (A := addresses h) in *.
    pose proof (ri_nr _ _ _ _ (bd_root _ _ _ BD)) as Hnr. assert (nr_cpu_ids < 2 ^ 31) as NR by lia.
    pose proof (levels_of_used _ _ (bd_topo _ _ _ BD) (bd_some _ _ _ BD)) as LU.
    assert (force_sd_overlap h = false) as Hov.
    { pose proof (f_equal force_sd_overlap (su_rest _ _ _ _ _ _ _ SU)) as E. cbn in E. rewrite E. apply BD. }
    apply wp_bind, (wp_grouped cm attr h0 m rd p A _ h (bd_topo _ _ _ BD) LU SU NR (mkSData (Some p) (Some rd))); [done|done|]. intros hg GU.
    cbn [c_true]. change (c_true 0) with false. cbn iota. destruct (gu_base _ _ _ _ _ _ _ GU) as (f & Ef & Hf).
    apply wp_bind, (wp_power_all _ cm (bd_topo _ _ _ BD) A _ LU (su_sep _ _ _ _ _ _ _ SU) NR hg (gu_all _ _ _ _ _ _ _ GU) _ p f); [done|done|done| |].
    { intros k l. assert (topology hg = topology h) as Et by (rewrite (gu_eq _ _ _ _ _ _ _ GU); done). unfold tab. rewrite Et. by eapply not_base. }
    intros ds hc CL DS. pose proof (ready_now cm old h0 BD m rd p A h hg hc ds SU GU CL) as RE.
    apply wp_bind, (wp_publish_all pushes held known qs _ rd cm hc (A KSd 0%nat) (domains_of cm h0 A) old RE _ p f); [done|done| |done|].
    + rewrite (cl_other _ _ _ _ _ _ _ CL); [done|]. intros k l. assert (topology hg = topology h) as Et by (rewrite (gu_eq _ _ _ _ _ _ _ GU); done).
      unfold tab. rewrite Et. by eapply not_base.
    + intros hp PB. apply wp_ret, wp_bind, (wp_end cm old h0 A m rd p h hg hc ds hp _ BD SU GU CL DS PB). intros h' C. apply wp_ret. right. split; [done|]. by exists A, rd.
Qed.
End spec.
