(* ===== verification/DomSysctl.v ===== *)
(** The sysctl tables of the scheduling domains, in kernel/sched/core.c below
    CONFIG_SCHED_DEBUG and CONFIG_SYSCTL.

    A table is an array of entries at an address, and a name that was duplicated a
    string at one; [alloc_ok] tells which allocations succeed.  A function is
    [None] when it follows a null pointer, leaves an array, or frees what is not
    allocated. *)

From S2P Require Import Prelude.

(** [entry->procname]: a string literal or one of kstrdup() *)
Inductive proc_name := NoName | Literal (s : string) | Dup (a : nat).
(** [struct ctl_table]: [ct_data] is the member of a domain that the entry shows *)
Record ctl_table := mkCtl {
  ct_name : proc_name; ct_data : option (nat * string); ct_maxlen : Z; ct_mode : Z; ct_child : option nat; ct_handler : option string }.
#[export] Instance eta_ctl : Eta ctl_table := fun r =>
  mkCtl r.(ct_name) r.(ct_data) r.(ct_maxlen) r.(ct_mode) r.(ct_child) r.(ct_handler).
Definition zero_entry : ctl_table := mkCtl NoName None 0 0 None None.

(** The heap, and [sd_ctl_dir[0].child], [sd_sysctl_header]. *)
Record ctl_heap := mkCtlHeap {
  tables : gmap nat (list ctl_table); names : gmap nat string; next_alloc : nat;
  sd_ctl_child : option nat; sd_sysctl_header : option nat }.
#[export] Instance eta_ctl_heap : Eta ctl_heap := fun r =>
  mkCtlHeap r.(tables) r.(names) r.(next_alloc) r.(sd_ctl_child) r.(sd_sysctl_header).

Section sysctl.
(** Which allocations succeed; the register of tables; the domains of a processor;
    the possible processors; and [sizeof(int)], [sizeof(long)], CORENAME_MAX_SIZE. *)
Context (alloc_ok : nat -> bool) (register_sysctl_table : option nat -> ctl_heap -> option nat).
Context (domains : nat -> list nat) (possible : list nat) (sizeof_int sizeof_long CORENAME_MAX_SIZE : Z) (decimal : nat -> string).
Implicit Types (h : ctl_heap) (a t : nat) (e : ctl_table) (l : list ctl_table).

(** sd_alloc_ctl_entry(); kstrdup() *)
Definition sd_alloc_ctl_entry (n : nat) h : option nat * ctl_heap :=
  let a := next_alloc h in
  let h := h <| next_alloc := S a |> in
  if alloc_ok a then (Some a, h <| tables ::= <[a := replicate n zero_entry]> |>) else (None, h).
Definition kstrdup (s : string) h : proc_name * ctl_heap :=
  let a := next_alloc h in
  let h := h <| next_alloc := S a |> in
  if alloc_ok a then (Dup a, h <| names ::= <[a := s]> |>) else (NoName, h).
Definition kfree_name (n : proc_name) h : option ctl_heap :=
  match n with
  | NoName => Some h
  | Literal _ => None
  | Dup a => match names h !! a with None => None | Some _ => Some (h <| names ::= delete a |>) end
  end.

(** set_table_entry(); [table[i]] of the table at [a] *)
Definition set_table_entry (a i : nat) (e : ctl_table) h : ctl_heap := h <| tables ::= alter (fun l => <[i := e]> l) a |>.
(** The twelve entries of a domain, in the order of the code *)
Definition domain_entries (sd : nat) : list ctl_table :=
  let long (s : string) := mkCtl (Literal s) (Some (sd, s)) sizeof_long 0x1a4 None (Some "proc_doulongvec_minmax"%string) in
  let int (s : string) := mkCtl (Literal s) (Some (sd, s)) sizeof_int 0x1a4 None (Some "proc_dointvec_minmax"%string) in
  [long "min_interval"; long "max_interval"; int "busy_idx"; int "idle_idx"; int "newidle_idx"; int "wake_idx"; int "forkexec_idx";
   int "busy_factor"; int "imbalance_pct"; int "cache_nice_tries"; int "flags";
   mkCtl (Literal "name") (Some (sd, "name"%string)) CORENAME_MAX_SIZE 0x124 None (Some "proc_dostring"%string)]%string.
(** sd_alloc_ctl_domain_table() *)
Definition sd_alloc_ctl_domain_table (sd : nat) h : option nat * ctl_heap :=
  match sd_alloc_ctl_entry 13 h with
  | (None, h) => (None, h)
  | (Some t, h) => (Some t, foldl (fun h '(i, e) => set_table_entry t i e h) h (zip (seq 0 12) (domain_entries sd)))
  end.
(** A directory: entries with duplicated names "<prefix><number>" and a table each *)
Fixpoint fill_dir (prefix : string) (sub : nat -> ctl_heap -> option nat * ctl_heap) (t i : nat) (l : list (nat * nat)) h : ctl_heap :=
  match l with
  | [] => h
  | (num, x) :: l =>
      let '(name, h) := kstrdup (prefix +:+ decimal num) h in
      let '(child, h) := sub x h in
      fill_dir prefix sub t (S i) l (set_table_entry t i (mkCtl name None 0 0x16d child None) h)
  end.
(** sd_alloc_ctl_cpu_table() *)
Definition sd_alloc_ctl_cpu_table (cpu : nat) h : option nat * ctl_heap :=
  let domain_num := length (domains cpu) in
  match sd_alloc_ctl_entry (S domain_num) h with
  | (None, h) => (None, h)
  | (Some t, h) => (Some t, fill_dir "domain" sd_alloc_ctl_domain_table t 0 (zip (seq 0 domain_num) (domains cpu)) h)
  end.
(** register_sched_domain_sysctl() *)
Definition register_sched_domain_sysctl h : ctl_heap :=
  let cpu_num := length possible in
  let '(entry, h) := sd_alloc_ctl_entry (S cpu_num) h in
  let h := h <| sd_ctl_child := entry |> in
  match entry with
  | None => h
  | Some t =>
      let h := fill_dir "cpu" sd_alloc_ctl_cpu_table t 0 (zip possible possible) h in
      h <| sd_sysctl_header := register_sysctl_table (sd_ctl_child h) h |>
  end.

(** sd_free_ctl_entry(): the loop over the entries, with how a child is freed, and
    the function; [fuel] is the depth of the tables *)
Fixpoint free_entries (free : nat -> ctl_heap -> option ctl_heap) l h : option ctl_heap :=
  match l with
  | [] => None
  | e :: l =>
      if negb (c_true (ct_mode e)) then Some h
      else
        match (match ct_child e with None => Some h | Some c => free c h end) with
        | None => None
        | Some h =>
            match (match ct_handler e with None => kfree_name (ct_name e) h | Some _ => Some h end) with
            | None => None
            | Some h => free_entries free l h
            end
        end
  end.
Fixpoint sd_free_ctl_entry (fuel : nat) (t : nat) h : option ctl_heap :=
  match fuel with
  | O => None
  | S fuel =>
      match tables h !! t with
      | None => None
      | Some l =>
          match free_entries (sd_free_ctl_entry fuel) l h with
          | None => None
          | Some h => match tables h !! t with None => None | Some _ => Some (h <| tables ::= delete t |>) end
          end
      end
  end.
(** unregister_sched_domain_sysctl() *)
Definition unregister_sched_domain_sysctl h : option ctl_heap :=
  let h := h <| sd_sysctl_header := None |> in
  match sd_ctl_child h with
  | None => Some h
  | Some t =>
      match sd_free_ctl_entry 3 t h with
      | None => None
      | Some h => Some (h <| sd_ctl_child := None |>)
      end
  end.

(** ** Unregistering frees what registering allocated *)

(** Addresses are below [next_alloc]. *)
Definition fresh_ctl h : Prop := forall a, (next_alloc h <= a)%nat -> tables h !! a = None /\ names h !! a = None.
(** Two heaps hold the same from [lo] to [hi]; a heap without what is there. *)
Definition agree lo hi h h' : Prop := forall a, (lo <= a < hi)%nat -> tables h' !! a = tables h !! a /\ names h' !! a = names h !! a.
Definition outside (lo hi : nat) {A} (kv : nat * A) : Prop := (kv.1 < lo \/ hi <= kv.1)%nat.
#[local] Instance outside_dec lo hi {A} (kv : nat * A) : Decision (outside lo hi kv).
Proof. unfold outside. apply _. Defined.
Definition strip lo hi h : ctl_heap := h <| tables ::= filter (outside lo hi) |> <| names ::= filter (outside lo hi) |>.

Lemma strip_lookup {A} lo hi (m : gmap nat A) a : filter (outside lo hi) m !! a = if decide ((a < lo \/ hi <= a)%nat) then m !! a else None.
Proof.
  destruct (m !! a) as [x|] eqn:E.
  - case_decide as H; [by apply map_lookup_filter_Some_2|]. apply map_lookup_filter_None_2. right. by intros y _.
  - case_decide; by apply map_lookup_filter_None_2; left.
Qed.
Lemma ctl_ext h h' : (forall a, tables h' !! a = tables h !! a) -> (forall a, names h' !! a = names h !! a) -> next_alloc h' = next_alloc h ->
  sd_ctl_child h' = sd_ctl_child h -> sd_sysctl_header h' = sd_sysctl_header h -> h' = h.
Proof. destruct h, h'; cbn. intros E1%map_eq E2%map_eq -> -> ->. by subst. Qed.
Lemma strip_strip lo mid hi h : (lo <= mid <= hi)%nat -> strip mid hi (strip lo mid h) = strip lo hi h.
Proof.
  intros H. apply ctl_ext; try done; intros a; cbn; rewrite !strip_lookup; repeat case_decide; (done || lia).
Qed.
Lemma agree_strip lo mid hi h h' : agree lo hi h h' -> (lo <= mid <= hi)%nat -> agree mid hi h (strip lo mid h').
Proof.
  intros Ha H a Hr. cbn. rewrite !strip_lookup, !decide_True by lia. apply Ha. lia.
Qed.
Lemma agree_sub lo hi lo' hi' h h' : agree lo hi h h' -> (lo <= lo')%nat -> (hi' <= hi)%nat -> agree lo' hi' h h'.
Proof. intros Ha H1 H2 a Hr. apply Ha. lia. Qed.
Lemma strip_empty lo hi h : (hi <= lo)%nat -> strip lo hi h = h.
Proof. intros H. apply ctl_ext; try done; intros a; cbn; by rewrite !strip_lookup, decide_True by lia. Qed.

(** Freeing the table [t], the entries [l], or one entry, frees exactly what lies
    from [lo] to [hi]. *)
Definition owns (free : nat -> ctl_heap -> option ctl_heap) t lo hi h : Prop := forall h2, agree lo hi h h2 -> free t h2 = Some (strip lo hi h2).
Definition owns_entries (free : nat -> ctl_heap -> option ctl_heap) l lo hi h : Prop :=
  forall h2, agree lo hi h h2 -> free_entries free l h2 = Some (strip lo hi h2).
Lemma owns_agree free t lo hi h h' : agree lo hi h h' -> owns free t lo hi h -> owns free t lo hi h'.
Proof. intros Ha Ho h2 H2. apply Ho. intros a Hr. destruct (H2 a Hr) as [-> ->]. by apply Ha. Qed.
Lemma entries_agree free l lo hi h h' : agree lo hi h h' -> owns_entries free l lo hi h -> owns_entries free l lo hi h'.
Proof. intros Ha Ho h2 H2. apply Ho. intros a Hr. destruct (H2 a Hr) as [-> ->]. by apply Ha. Qed.
Lemma owns_end free lo h : owns_entries free [zero_entry] lo lo h.
Proof. intros h2 _. cbn. by rewrite strip_empty. Qed.

(** What an allocating function may do. *)
Record extends h h' : Prop := {
  ex_next : (next_alloc h <= next_alloc h')%nat;
  ex_fresh : fresh_ctl h';
  ex_old : forall a, (a < next_alloc h)%nat -> tables h' !! a = tables h !! a /\ names h' !! a = names h !! a;
  ex_child : sd_ctl_child h' = sd_ctl_child h;
  ex_header : sd_sysctl_header h' = sd_sysctl_header h }.
Lemma extends_refl h : fresh_ctl h -> extends h h.
Proof. by split. Qed.
Lemma extends_trans h1 h2 h3 : extends h1 h2 -> extends h2 h3 -> extends h1 h3.
Proof.
  intros [N1 F1 O1 C1 H1] [N2 F2 O2 C2 H2]. split; [lia|done| |congruence|congruence].
  intros a Ha. destruct (O2 a) as [-> ->]; [lia|]. by apply O1.
Qed.
(** Its result owns what it allocated. *)
Definition result_owns (free : nat -> ctl_heap -> option ctl_heap) (r : option nat) h h' : Prop :=
  match r with
  | Some t => owns free t (next_alloc h) (next_alloc h') h'
  | None => forall a, (next_alloc h <= a)%nat -> tables h' !! a = None /\ names h' !! a = None
  end.
Definition allocates (free : nat -> ctl_heap -> option ctl_heap) (sub : nat -> ctl_heap -> option nat * ctl_heap) : Prop :=
  forall x h, fresh_ctl h -> let '(r, h') := sub x h in extends h h' /\ result_owns free r h h'.

Lemma alloc_entry_some n h t h' : fresh_ctl h -> sd_alloc_ctl_entry n h = (Some t, h') ->
  t = next_alloc h /\ next_alloc h' = S t /\ tables h' = <[t := replicate n zero_entry]> (tables h) /\ names h' = names h /\ extends h h'.
Proof.
  unfold sd_alloc_ctl_entry. intros Hf. destruct (alloc_ok _); [|done]. intros [= <- <-]. split_and!; try done. split; try done; [cbn; lia| |].
  - intros a Ha. cbn in *. rewrite lookup_insert_ne by lia. apply Hf. lia.
  - intros a Ha. cbn in *. by rewrite lookup_insert_ne by lia.
Qed.
Lemma alloc_entry_none n h h' : fresh_ctl h -> sd_alloc_ctl_entry n h = (None, h') ->
  extends h h' /\ forall a, (next_alloc h <= a)%nat -> tables h' !! a = None /\ names h' !! a = None.
Proof.
  unfold sd_alloc_ctl_entry. intros Hf. destruct (alloc_ok _); [done|]. intros [= <-]. split; [|exact Hf]. split; try done; [cbn; lia|].
  intros a Ha. cbn in *. apply Hf. lia.
Qed.

Lemma kstrdup_owns s h : fresh_ctl h -> let '(n, h') := kstrdup s h in extends h h' /\
  forall h2, agree (next_alloc h) (next_alloc h') h' h2 -> kfree_name n h2 = Some (strip (next_alloc h) (next_alloc h') h2).
Proof.
  intros Hf. unfold kstrdup. destruct (alloc_ok (next_alloc h)).
  - split.
    + split; try done; [cbn; lia| |]; intros a Ha; cbn in *; rewrite lookup_insert_ne by lia; [|done]. apply Hf. lia.
    + cbn. intros h2 Ha. destruct (Ha (next_alloc h)) as [E1 E2]; [lia|]. cbn in E1, E2. rewrite lookup_insert_eq in E2. rewrite E2. f_equal.
      destruct (Hf (next_alloc h)) as [E3 _]; [lia|]. rewrite E3 in E1. apply ctl_ext; try done; intros a; cbn; rewrite strip_lookup; case_decide.
      * done.
      * replace a with (next_alloc h) by lia. done.
      * rewrite lookup_delete_ne by lia. done.
      * replace a with (next_alloc h) by lia. by rewrite lookup_delete_eq.
  - split.
    + split; try done; [cbn; lia|]. intros a Ha. cbn in *. apply Hf. lia.
    + cbn. intros h2 Ha. destruct (Ha (next_alloc h)) as [E1 E2]; [lia|]. cbn in E1, E2. destruct (Hf (next_alloc h)) as [E3 E4]; [lia|].
      rewrite E3 in E1. rewrite E4 in E2. f_equal. apply ctl_ext; try done; intros a; cbn; rewrite strip_lookup; case_decide; try done;
        by replace a with (next_alloc h) by lia.
Qed.

(** One more entry in front of those that are freed after it. *)
Lemma owns_cons free name child l lo m1 m2 hi h : (lo <= m1 <= m2)%nat -> (m2 <= hi)%nat ->
  (forall h2, agree lo m1 h h2 -> kfree_name name h2 = Some (strip lo m1 h2)) ->
  match child with Some c => owns free c m1 m2 h | None => forall a, (m1 <= a < m2)%nat -> tables h !! a = None /\ names h !! a = None end ->
  owns_entries free l m2 hi h -> owns_entries free (mkCtl name None 0 0x16d child None :: l) lo hi h.
Proof.
  intros H1 H2 Hn Hc Hl h2 Ha. cbn [free_entries ct_mode ct_child ct_handler ct_name c_true]. change (negb (c_true 0x16d)) with false. cbn iota.
  assert ((match child with None => Some h2 | Some c => free c h2 end) = Some (strip m1 m2 h2)) as ->.
  { destruct child as [c|]; [apply Hc; apply (agree_sub lo hi); [done|lia|lia]|]. f_equal. apply ctl_ext; try done; intros a; cbn; rewrite strip_lookup; case_decide; try done.
    - destruct (Ha a) as [-> _]; [lia|]. apply Hc. lia.
    - destruct (Ha a) as [_ ->]; [lia|]. apply Hc. lia. }
  rewrite Hn.
  - assert (strip lo m1 (strip m1 m2 h2) = strip lo m2 h2) as ->.
    { apply ctl_ext; try done; intros a; cbn; rewrite !strip_lookup; repeat case_decide; (done || lia). }
    rewrite (Hl (strip lo m2 h2)); [by rewrite strip_strip by lia|]. apply (agree_strip lo); [done|lia].
  - intros a Hr. cbn. rewrite !strip_lookup, !decide_True by lia. apply Ha. lia.
Qed.
(** A table in front of its entries. *)
Lemma owns_table d t l hi h : tables h !! t = Some l -> names h !! t = None -> (t < hi)%nat ->
  owns_entries (sd_free_ctl_entry d) l (S t) hi h -> owns (sd_free_ctl_entry (S d)) t t hi h.
Proof.
  intros E En Ht Hl h2 Ha. cbn [sd_free_ctl_entry]. destruct (Ha t) as [E1 E2]; [lia|]. rewrite E1, E. rewrite (Hl h2) by (apply (agree_sub t hi); [done|lia|lia]).
  assert (tables (strip (S t) hi h2) !! t = Some l) as -> by (cbn; rewrite strip_lookup, decide_True by lia; congruence).
  f_equal. apply ctl_ext; try done; intros a; cbn; rewrite ?strip_lookup; destruct (decide (a = t)) as [->|Hne].
  - by rewrite lookup_delete_eq, decide_False by lia.
  - rewrite lookup_delete_ne, strip_lookup by done. repeat case_decide; (done || lia).
  - rewrite decide_True, decide_False by lia. congruence.
  - repeat case_decide; (done || lia).
Qed.

(** The directories *)
Lemma set_entry_other a i e h b : b <> a -> tables (set_table_entry a i e h) !! b = tables h !! b.
Proof. intros Hne. cbn. by rewrite lookup_alter_ne. Qed.
Lemma set_entry_extends a i e h h' : (a < next_alloc h)%nat -> extends h h' ->
  fresh_ctl (set_table_entry a i e h') /\ forall b, (b < next_alloc h)%nat -> b <> a -> tables (set_table_entry a i e h') !! b = tables h !! b.
Proof.
  intros Ha [N F O C Hh]. split.
  - intros b Hb. cbn in Hb. rewrite set_entry_other by lia. by apply F.
  - intros b Hb Hne. rewrite set_entry_other by done. by apply O.
Qed.
Lemma fill_dir_owns d prefix sub t (l : list (nat * nat)) (pre : list ctl_table) h : allocates (sd_free_ctl_entry d) sub -> fresh_ctl h -> (t < next_alloc h)%nat ->
  tables h !! t = Some (pre ++ replicate (S (length l)) zero_entry) ->
  exists es, let h' := fill_dir prefix sub t (length pre) l h in
    tables h' !! t = Some (pre ++ es) /\ owns_entries (sd_free_ctl_entry d) es (next_alloc h) (next_alloc h') h' /\
    (next_alloc h <= next_alloc h')%nat /\ fresh_ctl h' /\ sd_ctl_child h' = sd_ctl_child h /\ sd_sysctl_header h' = sd_sysctl_header h /\
    forall a, (a < next_alloc h)%nat -> (a <> t -> tables h' !! a = tables h !! a) /\ names h' !! a = names h !! a.
Proof.
  intros Hsub. revert pre h. induction l as [|[num x] l IH]; intros pre h Hf Ht E.
  { exists [zero_entry]. cbn. split_and!; try done. apply owns_end. }
  cbn [fill_dir]. pose proof (kstrdup_owns (prefix +:+ decimal num) h Hf) as Hk. destruct (kstrdup _ h) as [name h1]. destruct Hk as [X1 Hk].
  pose proof (Hsub x h1 (ex_fresh _ _ X1)) as Hs. destruct (sub x h1) as [child h2]. destruct Hs as [X2 Hc].
  pose proof (extends_trans _ _ _ X1 X2) as X. pose proof (ex_next _ _ X1) as N1. pose proof (ex_next _ _ X2) as N2.
  set (e := mkCtl name None 0 0x16d child None). set (h3 := set_table_entry t (length pre) e h2).
  destruct (set_entry_extends t (length pre) e h h2 Ht X) as [F3 O3]. fold h3 in F3, O3.
  assert (tables h3 !! t = Some ((pre ++ [e]) ++ replicate (S (length l)) zero_entry)) as E3.
  { unfold h3. cbn. rewrite lookup_alter_eq. destruct (ex_old _ _ X t Ht) as [-> _]. rewrite E. cbn. f_equal.
    rewrite <- (Nat.add_0_r (length pre)), insert_app_r, <- app_assoc. done. }
  destruct (IH (pre ++ [e]) h3 F3) as (es & E4 & Ho & N4 & F4 & C4 & H4 & O4); [cbn; lia|done|].
  rewrite length_app, Nat.add_1_r in *. set (h4 := fill_dir prefix sub t (S (length pre)) l h3) in *.
  assert (forall a, (next_alloc h <= a < next_alloc h2)%nat -> tables h4 !! a = tables h2 !! a /\ names h4 !! a = names h2 !! a) as K.
  { intros a Ha. destruct (O4 a) as [K1 K2]; [cbn; lia|]. rewrite K1 by lia. rewrite K2. unfold h3. by rewrite set_entry_other by lia. }
  exists (e :: es). cbv zeta. split_and!.
  - by rewrite <- app_assoc in E4.
  - apply (owns_cons _ _ _ _ _ (next_alloc h1) (next_alloc h2)); [lia|done| | |done].
    + intros g Hg. apply Hk. intros a Ha. destruct (Hg a Ha) as [-> ->]. destruct (K a) as [-> ->]; [lia|]. apply (ex_old _ _ X2). lia.
    + destruct child as [c|]; [|intros a Ha; destruct (K a) as [-> ->]; [lia|apply Hc; lia]].
      eapply owns_agree; [|exact Hc]. intros a Ha. apply K. lia.
  - cbn in N4. lia.
  - done.
  - rewrite C4. cbn. apply (ex_child _ _ X).
  - rewrite H4. cbn. apply (ex_header _ _ X).
  - intros a Ha. destruct (O4 a) as [K1 K2]; [cbn; lia|]. split.
    + intros Hne. rewrite K1 by done. by apply O3.
    + rewrite K2. cbn. by apply (ex_old _ _ X).
Qed.

(** The three levels *)
Lemma domain_table_owns : allocates (sd_free_ctl_entry 1) sd_alloc_ctl_domain_table.
Proof.
  intros sd h Hf. unfold sd_alloc_ctl_domain_table. destruct (sd_alloc_ctl_entry 13 h) as [[t|] h1] eqn:E; [|by apply alloc_entry_none in E].
  apply alloc_entry_some in E as (-> & En & Et & Es & X); [|done]. cbn [result_owns]. set (t := next_alloc h) in *.
  set (l := zip (seq 0 12) (domain_entries sd)).
  assert (forall (l : list (nat * ctl_table)) h2, next_alloc (foldl (fun h '(i, e) => set_table_entry t i e h) h2 l) = next_alloc h2 /\
    names (foldl (fun h '(i, e) => set_table_entry t i e h) h2 l) = names h2 /\
    sd_ctl_child (foldl (fun h '(i, e) => set_table_entry t i e h) h2 l) = sd_ctl_child h2 /\
    sd_sysctl_header (foldl (fun h '(i, e) => set_table_entry t i e h) h2 l) = sd_sysctl_header h2 /\
    forall b, b <> t -> tables (foldl (fun h '(i, e) => set_table_entry t i e h) h2 l) !! b = tables h2 !! b) as Hfold.
  { clear. induction l as [|[i e] l IH]; intros h2; [done|]. cbn [foldl]. destruct (IH (set_table_entry t i e h2)) as (-> & -> & -> & -> & H).
    split_and!; try done. intros b Hb. by rewrite H, set_entry_other. }
  destruct (Hfold l h1) as (E1 & E2 & E3 & E4 & E5).
  assert (tables (foldl (fun h '(i, e) => set_table_entry t i e h) h1 l) !! t = Some (domain_entries sd ++ [zero_entry])) as E6.
  { unfold l. cbn. by rewrite !lookup_alter_eq, Et, lookup_insert_eq. }
  set (h2 := foldl _ h1 l) in *. split.
  - split; rewrite ?E1, ?E3, ?E4, ?En; try apply X; [lia| |].
    + intros a Ha. rewrite E1, En in Ha. rewrite E5 by lia. rewrite E2. apply (ex_fresh _ _ X). lia.
    + intros a Ha. rewrite E5 by lia. rewrite E2. by apply (ex_old _ _ X).
  - rewrite E1, En. eapply owns_table; [exact E6|rewrite E2, Es; apply Hf; lia|lia|]. intros h3 _. rewrite strip_empty by lia. done.
Qed.
Lemma dir_owns d prefix sub (l : list (nat * nat)) : allocates (sd_free_ctl_entry d) sub ->
  forall h, fresh_ctl h -> let '(r, h') := (match sd_alloc_ctl_entry (S (length l)) h with (None, h) => (None, h) | (Some t, h) => (Some t, fill_dir prefix sub t 0 l h) end) in
    extends h h' /\ result_owns (sd_free_ctl_entry (S d)) r h h'.
Proof.
  intros Hsub h Hf. destruct (sd_alloc_ctl_entry _ h) as [[t|] h1] eqn:E; [|by apply alloc_entry_none in E].
  apply alloc_entry_some in E as (-> & En & Et & Es & X); [|done]. set (t := next_alloc h) in *.
  destruct (fill_dir_owns d prefix sub t l [] h1 Hsub) as (es & E1 & Ho & N & F & C & H & O); [apply X|lia|by rewrite Et, lookup_insert_eq|].
  cbn [length app] in *. set (h2 := fill_dir _ _ _ _ _ h1) in *. split.
  - split; [lia|done| |by rewrite C; apply X|by rewrite H; apply X]. intros a Ha. destruct (O a) as [O1 O2]; [lia|]. rewrite O1, O2 by lia. by apply (ex_old _ _ X).
  - cbn [result_owns]. eapply owns_table; [exact E1| |lia|by rewrite En in Ho]. fold t. destruct (O t) as [_ ->]; [lia|]. rewrite Es. apply Hf. lia.
Qed.
Lemma cpu_table_owns : allocates (sd_free_ctl_entry 2) sd_alloc_ctl_cpu_table.
Proof.
  intros cpu h Hf. unfold sd_alloc_ctl_cpu_table.
  pose proof (dir_owns 1 "domain" _ (zip (seq 0 (length (domains cpu))) (domains cpu)) domain_table_owns h Hf) as H.
  by rewrite length_zip_with_l_eq, length_seq in H by (by rewrite length_seq).
Qed.

(** C37: the sysctl tables of the scheduling domains do not leak.  Whatever
    allocations fail while register_sched_domain_sysctl() builds its three levels
    of tables and their names, unregister_sched_domain_sysctl() afterwards follows
    no bad pointer and frees each of them exactly once: what was allocated before
    is there unchanged, and nothing else. *)
Theorem sched_domain_sysctl_roundtrip h : fresh_ctl h -> sd_ctl_child h = None ->
  exists h', unregister_sched_domain_sysctl (register_sched_domain_sysctl h) = Some h' /\
    tables h' = tables h /\ names h' = names h /\ sd_ctl_child h' = None /\ sd_sysctl_header h' = None.
Proof.
  intros Hf Hc. unfold register_sched_domain_sysctl. destruct (sd_alloc_ctl_entry _ h) as [[t|] h1] eqn:E.
  - apply alloc_entry_some in E as (-> & En & Et & Es & X); [|done]. set (t := next_alloc h) in *. set (h1' := h1 <| sd_ctl_child := Some t |>).
    destruct (fill_dir_owns 2 "cpu" sd_alloc_ctl_cpu_table t (zip possible possible) [] h1') as (es & E1 & Ho & N & F & C & H & O).
    + apply cpu_table_owns.
    + apply (ex_fresh _ _ X).
    + unfold h1'. cbn. lia.
    + change (tables h1') with (tables h1). cbn [app]. rewrite Et, lookup_insert_eq, length_zip_with_l_eq by done. done.
    + cbn [length app] in *. set (h2 := fill_dir _ _ _ _ _ h1') in *. change (next_alloc h1') with (next_alloc h1) in *. rewrite En in *.
      assert (owns (sd_free_ctl_entry 3) t t (next_alloc h2) h2) as Ht.
      { eapply owns_table; [exact E1| |lia|exact Ho]. destruct (O t) as [_ ->]; [lia|]. unfold h1'. cbn. rewrite Es. apply Hf. lia. }
      unfold unregister_sched_domain_sysctl. cbv zeta.
      change (sd_ctl_child (_ <| sd_sysctl_header := None |>)) with (sd_ctl_child h2). rewrite C. change (sd_ctl_child h1') with (Some t). cbn iota.
      rewrite (Ht _) by (intros a _; done). eexists. split; [done|]. split_and!; try done; apply map_eq; intros a; cbn; rewrite strip_lookup.
      * case_decide as Hr; [|symmetry; apply Hf; lia]. destruct (decide (a < t)%nat) as [Ha|Ha].
        -- destruct (O a) as [O1 _]; [lia|]. rewrite O1 by lia. unfold h1'. cbn. by rewrite Et, lookup_insert_ne by lia.
        -- transitivity (@None (list ctl_table)); [apply F; lia|symmetry; apply Hf; lia].
      * case_decide as Hr; [|symmetry; apply Hf; lia]. destruct (decide (a < t)%nat) as [Ha|Ha].
        -- destruct (O a) as [_ ->]; [lia|]. unfold h1'. cbn. by rewrite Es.
        -- transitivity (@None string); [apply F; lia|symmetry; apply Hf; lia].
  - apply alloc_entry_none in E as [X Hn]; [|done]. unfold unregister_sched_domain_sysctl. cbv zeta. cbn [sd_ctl_child].
    eexists. split; [done|]. split_and!; try done; apply map_eq; intros a; cbn; destruct (decide (a < next_alloc h)%nat).
    + by apply (ex_old _ _ X).
    + transitivity (@None (list ctl_table)); [apply Hn; lia|symmetry; apply Hf; lia].
    + by apply (ex_old _ _ X).
    + transitivity (@None string); [apply Hn; lia|symmetry; apply Hf; lia].
Qed.
End sysctl.

(** An instance: two processors with two and one domains; the fourth allocation
    fails. *)
Definition no_tables : ctl_heap := mkCtlHeap ∅ ∅ 1 None None.
Definition two_domains (cpu : nat) : list nat := match cpu with 0%nat => [10; 11]%nat | _ => [12]%nat end.
Definition digit (i : nat) : string := String (Ascii.ascii_of_nat (48 + i)) EmptyString.
Lemma sched_domain_sysctl_roundtrip_witness : exists h',
  unregister_sched_domain_sysctl (register_sched_domain_sysctl (fun a => negb (a =? 4)%nat) (fun _ _ => Some 0%nat) two_domains [0; 1]%nat 4 4 16 digit no_tables) = Some h' /\
  tables h' = ∅ /\ names h' = ∅ /\ sd_ctl_child h' = None /\ sd_sysctl_header h' = None.
Proof. apply sched_domain_sysctl_roundtrip; [intros a _; split; apply lookup_empty|done]. Defined.
