(* ===== verification/CoreMisc.v ===== *)
(** The remaining operations of kernel/sched/core.c: taking the lock of a task's
    run queue, the high-resolution tick, the preemption notifiers and the
    preemption counter with its checks, conditional rescheduling, spinning on the
    owner of a mutex, the listing of tasks, the check for sleeping in atomic
    context, and what is left of starting and stopping a processor. *)

From S2P Require Import Prelude KList Sched Core Wait LoadAvg Affinity Smp RtSmp RtPush Migrate.
#[local] Open Scope Z_scope.

(** ** task_rq_lock() *)

(** Other processors may move the task while its lock is waited for: [where t] is
    the run queue of the task at the instant [t], and an attempt to take a lock
    takes one instant.  The locks held are [pi_lock] and one of a run queue. *)
Section rq_lock.
Context (where_is : nat -> nat).

Record locks := mkLocks { pi_locked : bool; rq_locked : option nat }.
(** __task_rq_lock(), with the instant at which it returns *)
Fixpoint __task_rq_lock (fuel t : nat) (l : locks) : option (nat * nat * locks) :=
  match fuel with
  | O => None
  | S fuel =>
      let rq := where_is t in
      let l := mkLocks (pi_locked l) (Some rq) in
      let t := S t in
      if (rq =? where_is t)%nat then Some (rq, t, l)
      else __task_rq_lock fuel t (mkLocks (pi_locked l) None)
  end.
(** task_rq_lock(): here [pi_lock] is dropped too before the next attempt *)
Fixpoint task_rq_lock (fuel t : nat) (l : locks) : option (nat * nat * locks) :=
  match fuel with
  | O => None
  | S fuel =>
      let rq := where_is t in
      let l := mkLocks true (Some rq) in
      let t := S t in
      if (rq =? where_is t)%nat then Some (rq, t, l)
      else task_rq_lock fuel t (mkLocks false None)
  end.
(** __task_rq_unlock(), task_rq_unlock() *)
Definition __task_rq_unlock (l : locks) : locks := mkLocks (pi_locked l) None.
Definition task_rq_unlock (l : locks) : locks := mkLocks false None.

(** The task is not moved any more from the instant [n] on. *)
Definition settled (n : nat) : Prop := forall t, (n <= t)%nat -> where_is (S t) = where_is t.

(** task_rq_lock() returns, once the task stops moving between run queues, and
    returns the run queue the task is on at that instant, with exactly its lock and
    the task's own held; so does __task_rq_lock(), which keeps the task's. *)
Theorem task_rq_lock_spec n t l : settled n ->
  (exists r t', task_rq_lock (S (S (n - t))) t l = Some (r, t', mkLocks true (Some r)) /\ where_is t' = r /\ (t < t')%nat) /\
  (exists r t', __task_rq_lock (S (S (n - t))) t l = Some (r, t', mkLocks (pi_locked l) (Some r)) /\ where_is t' = r /\ (t < t')%nat).
Proof.
  intros Hs. remember (n - t)%nat as k eqn:Ek. revert t l Ek.
  assert (forall t, (n <= t)%nat -> (where_is t =? where_is (S t))%nat = true) as Hstay by (intros t Ht; apply Nat.eqb_eq; by rewrite (Hs t Ht)).
  induction k as [|k IH]; intros t l Ek.
  - assert (n <= t)%nat as Ht by lia. cbn [task_rq_lock __task_rq_lock]. rewrite (Hstay t Ht).
    split; exists (where_is t), (S t); (split_and!; [done|by rewrite (Hs t Ht)|lia]).
  - remember (S k) as f. cbn [task_rq_lock __task_rq_lock]. split; destruct (Nat.eqb_spec (where_is t) (where_is (S t))) as [E|_];
      [exists (where_is t), (S t); (split_and!; [done|done|lia])| |exists (where_is t), (S t); (split_and!; [done|done|lia])|]; subst f.
    + destruct (IH (S t) (mkLocks false None)) as [(r & t' & E & Hr & Ht) _]; [lia|]. exists r, t'. split_and!; [done|done|lia].
    + destruct (IH (S t) (mkLocks (pi_locked l) None)) as [_ (r & t' & E & Hr & Ht)]; [lia|]. exists r, t'. split_and!; [done|done|lia].
Qed.
End rq_lock.

(** ** The high-resolution tick *)

(** CONFIG_SCHED_HRTICK and CONFIG_SMP; the timers are the kernel's. *)
Class HrTimers := {
  hrtimer : Type;
  hrtimer_active : hrtimer -> bool;
  hrtimer_cancel : hrtimer -> hrtimer;
  hrtimer_set_expires : hrtimer -> Z -> hrtimer;
  hrtimer_restart : hrtimer -> hrtimer;
  hrtimer_init : hrtimer;
  hrtimer_get_time : hrtimer -> Z;
  hrtimer_is_hres_active : hrtimer -> bool }.
Section hrtick.
Context {HT : HrTimers}.

(** [rq->hrtick_timer], [rq->hrtick_csd_pending]; [csd_sent] counts the calls of
    the processor that are on their way. *)
Record hrtick_rq := mkHrtick { hrtick_timer : hrtimer; hrtick_csd_pending : Z; csd_sent : nat }.
#[export] Instance eta_hrtick : Eta hrtick_rq := fun r => mkHrtick r.(hrtick_timer) r.(hrtick_csd_pending) r.(csd_sent).

(** hrtick_enabled() of kernel/sched/sched.h *)
Definition hrtick_enabled (feature active : bool) (r : hrtick_rq) : bool :=
  if negb feature then false else if negb active then false else hrtimer_is_hres_active (hrtick_timer r).
(** hrtick_clear() *)
Definition hrtick_clear (r : hrtick_rq) : hrtick_rq :=
  if hrtimer_active (hrtick_timer r) then r <| hrtick_timer ::= hrtimer_cancel |> else r.
(** __hrtick_start(): the call arrives *)
Definition __hrtick_start (r : hrtick_rq) : hrtick_rq :=
  r <| hrtick_timer ::= hrtimer_restart |> <| hrtick_csd_pending := 0 |>.
Definition csd_arrives (r : hrtick_rq) : hrtick_rq :=
  match csd_sent r with O => r | S n => __hrtick_start (r <| csd_sent := n |>) end.
(** hrtick_start(); [this] tells whether the run queue is this processor's *)
Definition hrtick_start (this : bool) (delay : Z) (r : hrtick_rq) : hrtick_rq :=
  let time := s64 (hrtimer_get_time (hrtick_timer r) + delay) in
  let r := r <| hrtick_timer ::= fun t => hrtimer_set_expires t time |> in
  if this then r <| hrtick_timer ::= hrtimer_restart |>
  else if negb (c_true (hrtick_csd_pending r)) then r <| csd_sent ::= S |> <| hrtick_csd_pending := 1 |>
  else r.
(** hotplug_hrtick(), init_rq_hrtick() *)
Inductive hotplug_action := CANCELED_PREPARE_OR_DEAD | OTHER_ACTION.
Definition hotplug_hrtick (action : hotplug_action) (r : hrtick_rq) : Z * hrtick_rq :=
  match action with
  | CANCELED_PREPARE_OR_DEAD => (NOTIFY_OK, hrtick_clear r)
  | OTHER_ACTION => (NOTIFY_DONE, r)
  end.
Definition init_rq_hrtick : hrtick_rq := mkHrtick hrtimer_init 0 0.

(** One call at most is on its way, and the flag tells so. *)
Definition csd_ok (r : hrtick_rq) : Prop := Z.of_nat (csd_sent r) = hrtick_csd_pending r /\ (csd_sent r <= 1)%nat.
(** What happens to a run queue's timer. *)
Inductive hrtick_event := HrStart (this : bool) (delay : Z) | HrArrives | HrHotplug (a : hotplug_action) | HrClear.
Definition hrtick_step (e : hrtick_event) (r : hrtick_rq) : hrtick_rq :=
  match e with
  | HrStart this delay => hrtick_start this delay r
  | HrArrives => csd_arrives r
  | HrHotplug a => (hotplug_hrtick a r).2
  | HrClear => hrtick_clear r
  end.

(** starting the tick of another processor never sends a second call while one
    is on its way: in every sequence of starts, arrivals, cancellations and hotplug
    events from init_rq_hrtick() on there is at most one call, exactly when
    [hrtick_csd_pending] is set, and its arrival allows the next. *)
Theorem hrtick_one_call es : csd_ok (foldl (fun r e => hrtick_step e r) init_rq_hrtick es).
Proof.
  assert (forall es r, csd_ok r -> csd_ok (foldl (fun r e => hrtick_step e r) r es)) as H; [|apply H; split; cbn; lia].
  clear es. induction es as [|e es IH]; intros r Hr; [done|]. cbn [foldl]. apply IH. destruct Hr as [H1 H2].
  destruct e as [this delay| |a|]; cbn [hrtick_step].
  - unfold hrtick_start. cbn. destruct this; [done|]. destruct (c_true (hrtick_csd_pending r)) eqn:E; cbn [negb]; [done|].
    apply c_true_false in E. unfold csd_ok. cbn. lia.
  - unfold csd_arrives, csd_ok. destruct (csd_sent r) as [|n] eqn:E; [by rewrite E|]. cbn. lia.
  - destruct a; cbn; [|done]. unfold hrtick_clear. by destruct (hrtimer_active _).
  - unfold hrtick_clear. by destruct (hrtimer_active _).
Qed.
End hrtick.

(** hrtick(): the tick of the class, marked as queued *)
Definition hrtick `{CoreEnv} (s : kst) : kst :=
  let s := Core.update_rq_clock s in
  task_tick_op (Core.class_of (curr s) s) (curr s) 1 s.

(** ** Preemption notifiers *)

(** linux/list.h: a list of notifiers through their members [link].  hlist_del()
    leaves the poison LIST_POISON1 in the [next] of what it takes out, here
    [None]; the end of the list is [Some None]. *)
Class HList := {
  hlist : Type;
  hl_first : hlist -> option nat;
  hl_next : nat -> hlist -> option (option nat);
  hlist_add_head : nat -> hlist -> hlist;
  hlist_del : nat -> hlist -> hlist;
  hl_is : hlist -> list nat -> Prop }.
Class HListLaws `{HList} : Prop := {
  hl_first_is h l : hl_is h l -> hl_first h = head l;
  hl_next_is h l1 a l2 : hl_is h (l1 ++ a :: l2) -> hl_next a h = Some (head l2);
  hl_add_is h l a : hl_is h l -> a ∉ l -> hl_is (hlist_add_head a h) (a :: l);
  hl_del_is h l1 a l2 : hl_is h (l1 ++ a :: l2) -> NoDup (l1 ++ a :: l2) -> hl_is (hlist_del a h) (l1 ++ l2);
  hl_poison h l a : hl_is h l -> a ∈ l -> hl_next a (hlist_del a h) = None }.

Section notifiers.
Context {HL : HList} {HLL : HListLaws}.
(** What the operations sched_in() or sched_out() of a notifier do to the list. *)
Context (notify : nat -> hlist -> hlist).

(** preempt_notifier_register(), preempt_notifier_unregister() *)
Definition preempt_notifier_register (notifier : nat) (l : hlist) : hlist := hlist_add_head notifier l.
Definition preempt_notifier_unregister (notifier : nat) (l : hlist) : hlist := hlist_del notifier l.
(** fire_sched_in_preempt_notifiers() and fire_sched_out_preempt_notifiers(), with
    the notifiers that are called; [None] when the loop follows the poison *)
Fixpoint fire_loop (fuel : nat) (pos : option nat) (l : hlist) (called : list nat) : option (list nat * hlist) :=
  match pos, fuel with
  | None, _ => Some (called, l)
  | Some _, O => None
  | Some n, S fuel =>
      let l := notify n l in
      match hl_next n l with
      | None => None
      | Some pos => fire_loop fuel pos l (called ++ [n])
      end
  end.
Definition fire_sched_preempt_notifiers (fuel : nat) (l : hlist) : option (list nat * hlist) := fire_loop fuel (hl_first l) l [].

Lemma fire_rest h l1 l2 fuel : (forall n g, notify n g = g) -> hl_is h (l1 ++ l2) -> (length l2 <= fuel)%nat ->
  fire_loop fuel (head l2) h l1 = Some (l1 ++ l2, h).
Proof.
  intros Hn. revert l1 fuel. induction l2 as [|a l2 IH]; intros l1 fuel Hh Hf.
  - rewrite app_nil_r. by destruct fuel.
  - destruct fuel as [|fuel]; [cbn in Hf; lia|]. cbn [fire_loop head]. rewrite Hn, (hl_next_is _ _ _ _ Hh).
    rewrite (IH (l1 ++ [a])); [by rewrite <- app_assoc|by rewrite <- app_assoc|cbn in Hf; lia].
Qed.

(** the preemption notifiers of a task are called once each, the last one
    registered first, as long as they leave the list alone; but a notifier that
    unregisters itself, which preempt_notifier_unregister() says is safe, makes the
    loop follow the poisoned pointer of the entry that was taken out. *)
Theorem fire_notifiers_spec h l fuel : hl_is h l -> (length l <= fuel)%nat ->
  ((forall n g, notify n g = g) -> fire_sched_preempt_notifiers fuel h = Some (l, h)) /\
  (forall a l', l = a :: l' -> notify a h = preempt_notifier_unregister a h -> fire_sched_preempt_notifiers fuel h = None).
Proof.
  intros Hh Hf. unfold fire_sched_preempt_notifiers. rewrite (hl_first_is _ _ Hh). split.
  - intros Hn. by apply (fire_rest h [] l).
  - intros a l' -> Ha. destruct fuel as [|fuel]; [done|]. cbn [fire_loop head]. rewrite Ha.
    unfold preempt_notifier_unregister. by rewrite (hl_poison h (a :: l')) by (done || by left).
Qed.
End notifiers.

(** ** The preemption counter *)

(** CONFIG_DEBUG_PREEMPT and CONFIG_PREEMPT_TRACER: [PREEMPT_MASK] is of
    linux/hardirq.h.  [warnings] counts DEBUG_LOCKS_WARN_ON(), [preempt_trace] are
    the calls of trace_preempt_off() and trace_preempt_on(). *)
Section preempt.
Context (PREEMPT_MASK : Z).
Inductive preempt_event := TracePreemptOff | TracePreemptOn.
Record preempt_state := mkPreempt { p_count : Z; warnings : nat; preempt_trace : list preempt_event }.
#[export] Instance eta_preempt : Eta preempt_state := fun r => mkPreempt r.(p_count) r.(warnings) r.(preempt_trace).

(** add_preempt_count(), sub_preempt_count() *)
Definition add_preempt_count (val : Z) (s : preempt_state) : preempt_state :=
  if p_count s <? 0 then s <| warnings ::= S |>
  else
    let s := s <| p_count ::= fun n => s32 (n + val) |> in
    let s := if PREEMPT_MASK - 10 <=? Z.land (p_count s) PREEMPT_MASK then s <| warnings ::= S |> else s in
    if p_count s =? val then s <| preempt_trace ::= fun l => l ++ [TracePreemptOff] |> else s.
Definition sub_preempt_count (val : Z) (s : preempt_state) : preempt_state :=
  if p_count s <? val then s <| warnings ::= S |>
  else if (val <? PREEMPT_MASK) && negb (c_true (Z.land (p_count s) PREEMPT_MASK)) then s <| warnings ::= S |>
  else
    let s := if p_count s =? val then s <| preempt_trace ::= fun l => l ++ [TracePreemptOn] |> else s in
    s <| p_count ::= fun n => s32 (n - val) |>.

(** Leaving what was entered, in the opposite order: the count comes back, nothing
    is warned of below the limit, and the tracer sees preemption off and on again
    exactly around the outermost section. *)
Lemma preempt_section val s : 0 <= p_count s -> 0 < val -> p_count s + val < 2 ^ 31 ->
  Z.land (p_count s + val) PREEMPT_MASK < PREEMPT_MASK - 10 -> (val < PREEMPT_MASK -> Z.land (p_count s + val) PREEMPT_MASK <> 0) ->
  sub_preempt_count val (add_preempt_count val s) =
    s <| preempt_trace ::= fun l => l ++ (if p_count s =? 0 then [TracePreemptOff; TracePreemptOn] else []) |>.
Proof.
  intros H0 Hv Hb Hl Hm. unfold add_preempt_count. rewrite (proj2 (Z.ltb_ge _ _)) by lia. cbn. rewrite (s32_small (p_count s + val)) by lia.
  rewrite (proj2 (Z.leb_gt _ _)) by lia. unfold sub_preempt_count.
  assert ((p_count s + val =? val) = (p_count s =? 0)) as Ez by (destruct (Z.eqb_spec (p_count s) 0), (Z.eqb_spec (p_count s + val) val); lia).
  assert ((val <? PREEMPT_MASK) && negb (c_true (Z.land (p_count s + val) PREEMPT_MASK)) = false) as Ew.
  { destruct (Z.ltb_spec val PREEMPT_MASK) as [H|H]; [|done]. rewrite (proj2 (c_true_iff _)) by auto. done. }
  cbn. rewrite Ez. destruct (p_count s =? 0); cbn; rewrite (proj2 (Z.ltb_ge _ _)) by lia; rewrite Ew, Ez; cbn.
  all: replace (p_count s + val - val) with (p_count s) by lia; rewrite s32_small by lia; destruct s; cbn; rewrite <- ?app_assoc, ?app_nil_r; done.
Qed.
End preempt.

(** get_parent_ip(), with the callers' addresses; in_sched_functions() *)
Definition get_parent_ip (in_lock_functions : Z -> bool) (addr caller2 caller3 : Z) : Z :=
  if in_lock_functions addr then if in_lock_functions caller2 then caller3 else caller2 else addr.
Definition in_sched_functions (in_lock_functions : Z -> bool) (text_start text_end addr : Z) : bool :=
  in_lock_functions addr || (text_start <=? addr) && (addr <? text_end).

(** ** Rescheduling *)

Section resched.
Context {KT : KTypes} {KE : KEnv} {CE : CoreEnv}.

(** schedule_preempt_disabled(), up to the switch: the task that called it disables
    preemption again once it runs *)
Definition schedule_preempt_disabled (fuel : nat) (s : kst) : option kst :=
  let ti := curr s in
  let s := preempt_enable_no_resched s in
  match Core.schedule fuel s with
  | None => None
  | Some s => Some (if (curr s =? ti)%nat then preempt_disable s else s)
  end.
(** preempt_schedule_irq(): [None] is the BUG_ON() too *)
Definition preempt_schedule_irq (fuel : nat) (irqs_disabled : bool) (s : kst) : option kst :=
  let ti := curr s in
  if c_true (preempt_count (tasks s ti)) || negb irqs_disabled then None
  else
    let s := Core.add_preempt_count PREEMPT_ACTIVE s in
    match __schedule fuel s with
    | None => None
    | Some s => Some (if (curr s =? ti)%nat then Core.sub_preempt_count PREEMPT_ACTIVE s else s)
    end.

(** __cond_resched_lock() of a lock that is held or not, with whether others wait
    for it (spin_needbreak()); [relaxed] counts cpu_relax() *)
Record spin := mkSpin { spin_held : bool; spin_needbreak : bool; relaxed : nat }.
#[export] Instance eta_spin : Eta spin := fun r => mkSpin r.(spin_held) r.(spin_needbreak) r.(relaxed).
Definition __cond_resched_lock (fuel : nat) (lock : spin) (s : kst) : option (Z * spin * kst) :=
  let resched := should_resched s in
  if spin_needbreak lock || resched then
    let lock := lock <| spin_held := false |> in
    match (if resched then match __cond_resched fuel s with None => None | Some s => Some (lock, s) end
           else Some (lock <| relaxed ::= S |>, s)) with
    | None => None
    | Some (lock, s) => Some (1, lock <| spin_held := true |>, s)
    end
  else Some (0, lock, s).
(** __cond_resched_softirq(): [bh] are local_bh_enable() and local_bh_disable() *)
Definition __cond_resched_softirq (fuel : nat) (in_softirq : bool) (bh_enable bh_disable : kst -> kst) (s : kst) : option (Z * kst) :=
  if negb in_softirq then None
  else if should_resched s then
    match __cond_resched fuel (bh_enable s) with
    | None => None
    | Some s => Some (1, bh_disable s)
    end
  else Some (0, s).

(** io_schedule_timeout(): the part before schedule_timeout() and after it, as
    io_schedule() of Core.v *)
Definition io_schedule_timeout_enter (timeout : Z) (s : kst) : Z * kst := (timeout, io_schedule_enter s).
Definition io_schedule_timeout_exit (p : nat) (ret : Z) (s : kst) : Z * kst := (ret, io_schedule_exit p s).

(** nr_iowait_cpu() on the only processor *)
Definition nr_iowait_cpu (s : kst) : Z := u32 (nr_iowait (rq s)).
(** task_times() below CONFIG_VIRT_CPU_ACCOUNTING *)
Definition task_times_virt (p : nat) (s : kst) : Z * Z := (t_utime (tasks s p), t_stime (tasks s p)).

(** idle_task_exit(): [mm] is the idle task's [active_mm]; [None] is the BUG_ON() *)
Definition idle_task_exit (cpu_online : bool) (init_mm : nat) (s : kst) : option kst :=
  let mm := t_active_mm (tasks s (curr s)) in
  if cpu_online then None
  else
    let s := if bool_decide (mm = Some init_mm) then s else s <| ext ::= switch_mm mm (Some init_mm) (curr s) |> in
    Some (match mm with Some mm => s <| ext ::= mmdrop mm |> | None => s end).

(** ** The listing of tasks *)

(** TASK_STATE_TO_CHAR_STR of linux/sched.h *)
Definition stat_nam : list Z := [82; 83; 68; 84; 116; 90; 88; 120; 75; 87].
(** __ffs(), for the states there are *)
Fixpoint ffs_from (n : nat) (i x : Z) : Z :=
  match n with O => i | S n => if Z.testbit x i then i else ffs_from n (i + 1) x end.
Definition state_index (state : Z) : Z := if c_true state then ffs_from 64 0 state + 1 else 0.
(** sched_show_task(): what it prints of a task, without the program counter and
    the stack *)
Record task_line := mkTaskLine { tl_comm : list Z; tl_state : Z; tl_pid : Z; tl_father : Z; tl_task_flags : Z }.
Definition sched_show_task (p : nat) (flags : Z) (s : kst) : task_line :=
  let t := tasks s p in
  let state := state_index (t_state t) in
  mkTaskLine (firstn 15 (t_comm t)) (if state <? Z.of_nat (length stat_nam) then nth (Z.to_nat state) stat_nam 0 else 63)
    (t_pid t) (match real_parent t with Some q => t_pid (tasks s q) | None => 0 end) flags.
(** show_state_filter(): the tasks it shows, of all [threads], and whether it goes
    on to the locks *)
Definition show_state_filter (state_filter : Z) (threads : list nat) (flags : nat -> Z) (s : kst) : list task_line * bool :=
  let shown := filter (fun p => negb (c_true state_filter) || c_true (Z.land (t_state (tasks s p)) state_filter) = true) threads in
  ((fun p => sched_show_task p (flags p) s) <$> shown, negb (c_true state_filter)).
End resched.

(** ** Spinning on the owner of a mutex *)

(** Others change the mutex and run: at the instant [t], [owner_at t] is the owner,
    [on_cpu_at t] tells whether the given task runs, and [resched_at t] whether this
    task must reschedule. *)
Section mutex_spin.
Context (owner_at : nat -> option nat) (on_cpu_at resched_at : nat -> bool).

(** owner_running(): [lock->owner] and [owner->on_cpu] are read at [t] and [S t] *)
Definition owner_running (owner : option nat) (t : nat) : bool :=
  if decide (owner_at t = owner) then on_cpu_at (S t) else false.
(** mutex_spin_on_owner(), with the instant after the loop *)
Fixpoint spin_loop (fuel : nat) (owner : option nat) (t : nat) : option nat :=
  match fuel with
  | O => None
  | S fuel =>
      if owner_running owner t then
        if resched_at (S (S t)) then Some (S (S (S t))) else spin_loop fuel owner (S (S (S t)))
      else Some (S (S t))
  end.
Definition mutex_spin_on_owner (owner_spin : bool) (fuel : nat) (owner : option nat) (t : nat) : option Z :=
  if negb owner_spin then Some 0
  else match spin_loop fuel owner t with None => None | Some t => Some (of_bool (bool_decide (owner_at t = None))) end.

Lemma spin_eq fuel owner t : spin_loop (S fuel) owner t =
  if owner_running owner t then if resched_at (S (S t)) then Some (S (S (S t))) else spin_loop fuel owner (S (S (S t))) else Some (S (S t)).
Proof. done. Qed.
Lemma spin_loop_ends owner n : (forall m, (n <= m)%nat -> owner_at m <> owner) \/ (forall m, (n <= m)%nat -> on_cpu_at m = false) \/
    (forall m, (n <= m)%nat -> resched_at m = true) ->
  forall k t, (n <= t + k)%nat -> exists t' u, spin_loop (S k) owner t = Some t' /\ (t <= u < t')%nat /\
    (owner_at u <> owner \/ on_cpu_at u = false \/ resched_at u = true).
Proof.
  intros Hn. induction k as [|k IH]; intros t Hk; rewrite spin_eq; unfold owner_running;
    (destruct (decide (owner_at t = owner)) as [E|E]; [|exists (S (S t)), t; split_and!; [done|lia|lia|by left]]);
    (destruct (on_cpu_at (S t)) eqn:Ec; [|exists (S (S t)), (S t); split_and!; [done|lia|lia|by right; left]]);
    (destruct (resched_at (S (S t))) eqn:Er; [exists (S (S (S t))), (S (S t)); split_and!; [done|lia|lia|by right; right]|]).
  - exfalso. destruct Hn as [Hn|[Hn|Hn]]; [by apply (Hn t); [lia|]|rewrite Hn in Ec by lia; done|rewrite Hn in Er by lia; done].
  - destruct (IH (S (S (S t)))) as (t' & u & E' & Hu & H); [lia|]. exists t', u. split_and!; [done|lia|lia|done].
Qed.

(** mutex_spin_on_owner() ends once the owner changes, no longer runs, or this
    task must reschedule for good, however long that takes; it ends for one of these
    three reasons only, and reports success exactly when the mutex has no owner at
    the end. *)
Theorem mutex_spin_spec owner t n : (forall m, (n <= m)%nat -> owner_at m <> owner) \/ (forall m, (n <= m)%nat -> on_cpu_at m = false) \/
    (forall m, (n <= m)%nat -> resched_at m = true) ->
  exists t' u, (t <= u < t')%nat /\ (owner_at u <> owner \/ on_cpu_at u = false \/ resched_at u = true) /\
    mutex_spin_on_owner true (S n) owner t = Some (of_bool (bool_decide (owner_at t' = None))).
Proof.
  intros Hn. destruct (spin_loop_ends owner n Hn n t) as (t' & u & E & Hu & H); [lia|]. exists t', u. split_and!; [lia|lia|done|].
  unfold mutex_spin_on_owner. cbn [negb]. by rewrite E.
Qed.
End mutex_spin.

(** ** Sleeping in atomic context *)

(** __might_sleep(), below CONFIG_DEBUG_ATOMIC_SLEEP.  [prev_jiffy] is the static
    variable; the result tells whether the bug is reported. *)
Inductive system_states := SYSTEM_BOOTING | SYSTEM_RUNNING | SYSTEM_OTHER.
#[export] Instance system_states_eq_dec : EqDecision system_states.
Proof. solve_decision. Defined.
(** preempt_count_equals() *)
Definition preempt_count_equals (preempt_offset count rcu_preempt_depth : Z) : bool :=
  s32 (Z.ldiff count PREEMPT_ACTIVE + rcu_preempt_depth) =? preempt_offset.
(** __might_sleep_init() sets this *)
Definition __might_sleep_init : bool * Z := (true, 0).
Definition __might_sleep (HZ : Z) (in_context oops_in_progress init_called : bool) (state : system_states) (jiffies prev_jiffy : Z) : bool * Z :=
  if in_context || oops_in_progress then (false, prev_jiffy)
  else if negb (bool_decide (state = SYSTEM_RUNNING)) && (negb init_called || negb (bool_decide (state = SYSTEM_BOOTING))) then (false, prev_jiffy)
  else if time_before jiffies (u32 (prev_jiffy + HZ)) && c_true prev_jiffy then (false, prev_jiffy)
  else (true, jiffies).

(** After a report the next one waits for a second. *)
Lemma might_sleep_rate HZ ctx oops init st j prev : (__might_sleep HZ ctx oops init st j prev).1 = true ->
  (__might_sleep HZ ctx oops init st j prev).2 = j /\ (prev <> 0 -> time_before j (u32 (prev + HZ)) = false).
Proof.
  unfold __might_sleep. destruct (ctx || oops); [done|]. destruct (_ && (_ || _)); [done|].
  destruct (time_before _ _) eqn:Et; cbn [andb]; [|done]. destruct (c_true prev) eqn:Ep; [done|]. intros _. split; [done|].
  apply c_true_false in Ep. done.
Qed.

(** ** What is left of SMP and of the bandwidth *)

Section smp_misc.
Context {SK : SKTypes} {ST : SmpTypes} {CM : CpuMask} {CMS : CpuMasks} {SE : SmpEnv} {SC : SmpClasses} {ME : MigrateEnv}.

(** curr_task(), set_curr_task() *)
Definition curr_task (cpu : nat) (s : smp) : nat := cpu_curr s cpu.
Definition set_curr_task (cpu p : nat) (s : smp) : smp := upd_crq cpu (fun r => r <| rq_curr := p |>) s.

(** migration_init(): the boot processor is brought up; NOTIFY_BAD is not a result
    of migration_call() *)
Definition migration_init (fuel n : nat) (s : smp) : outcome smp :=
  match migration_call fuel n CPU_UP_PREPARE (this_cpu s) s with
  | Ret (_, s) =>
      match migration_call fuel n CPU_ONLINE (this_cpu s) s with
      | Ret (_, s) => Ret s
      | Bug => Bug
      | NoFuel => NoFuel
      end
  | Bug => Bug
  | NoFuel => NoFuel
  end.

(** global_rt_runtime(), and sched_rt_global_constraints() without group
    scheduling; [period] is [sysctl_sched_rt_period] *)
Definition global_rt_runtime_of (s : smp) : Z :=
  if rt_runtime_sysctl s <? 0 then RUNTIME_INF else u64 (rt_runtime_sysctl s * NSEC_PER_USEC).
Definition sched_rt_global_constraints (period : Z) (s : smp) : Z * smp :=
  if period <=? 0 then (- EINVAL, s)
  else if rt_runtime_sysctl s =? 0 then (- EBUSY, s)
  else (0, foldl (fun s i => upd_crt i (fun r => r <| rt_runtime := global_rt_runtime_of s |>) s) s (cpus_of (possible_mask s))).
End smp_misc.
