(* ===== verification/SmpDemo.v ===== *)
(** A machine of four processors, on which the theorems about the multiprocessor
    scheduler are evaluated: CPU masks are the bits of a number, a priority-sorted
    list is a list of pairs, the stop, RAS and fair classes keep a queue per
    processor, cpupri is the table of the processors' priorities, and the other
    processors are quiet. *)

From S2P Require Import Prelude KList Sched Cpuacct Demo Rt RtSpec Affinity Smp RtSmp RtPush SmpSpec RtSmpSpec SmpMachine RtPushSpec Migrate MigrateSpec HotplugSpec WakeupSpec.
Import RingLists.

Module SmpDemo.

#[export] Instance sk_types : SKTypes := {| SExt := sched_class -> nat -> list nat; snode_lists := ring_ops |}.
#[export] Instance sk_laws : KListLaws snode := ring_laws.

(** ** Masks *)
Definition test (c : nat) (m : Z) : bool := Z.testbit m (Z.of_nat c).
(** The first of the next [n] processors from [c] on that is in the mask, or [4]. *)
Fixpoint next_cpu (n c : nat) (m : Z) : nat :=
  match n with
  | O => 4
  | S n => if test c m then c else next_cpu n (S c) m
  end.
Definition first_after (prev : option nat) : nat := match prev with None => 0 | Some p => S p end.
Definition mask_next (prev : option nat) (m : Z) : nat :=
  let c := first_after prev in if (c <? 4)%nat then next_cpu (4 - c) c m else Nat.max c 4.

#[export] Instance mask : CpuMask := {|
  nr_cpu_ids := 4; cpumask_size := 4; cpu_online_mask := 15; cpumask_clear := 0;
  cpumask_test_cpu := test;
  cpumask_and := Z.land;
  cpumask_subset := fun a b => Z.land (Z.land a (Z.lnot b)) 15 =? 0;
  mask_bytes := fun m => [m; 0; 0; 0];
  mask_load := fun l m => match l with b :: _ => b | [] => m end |}.
#[export] Instance masks : CpuMasks := {|
  cpumask_next := mask_next;
  cpumask_any := mask_next None;
  cpumask_any_and := fun m m' => mask_next None (Z.land m m');
  cpumask_weight := fun m => Z.of_nat (length (filter (fun c => test c m = true) (seq 0 4)));
  cpumask_equal := fun m m' => forallb (fun c => Bool.eqb (test c m) (test c m')) (seq 0 4);
  cpumask_intersects := fun m m' => existsb (fun c => test c m && test c m') (seq 0 4);
  cpumask_set_cpu := fun c m => Z.setbit m (Z.of_nat c);
  cpumask_clear_cpu := fun c m => Z.clearbit m (Z.of_nat c);
  cpumask_of := fun c => Z.setbit 0 (Z.of_nat c) |}.

Lemma next_cpu_spec n c m : (n + c = 4)%nat ->
  let x := next_cpu n c m in (c <= x <= 4)%nat /\ ((x < 4)%nat -> test x m = true) /\
  forall d, (c <= d < 4)%nat -> test d m = true -> (x <= d)%nat.
Proof.
  revert c. induction n as [|n IH]; intros c Hn; cbn [next_cpu]; [split_and!; intros; lia|].
  destruct (test c m) eqn:E; [split_and!; intros; [lia..|done|lia]|].
  destruct (IH (S c)) as (H1 & H2 & H3); [lia|]. split_and!; [lia..|done|].
  intros d Hd Ht. destruct (decide (d = c)) as [->|]; [congruence|]. apply H3; [lia|done].
Qed.

Lemma is_cpu_lt c : is_cpu c = true <-> (c < 4)%nat.
Proof. unfold is_cpu. cbn. lia. Qed.

Lemma mask_next_spec prev m : let x := mask_next prev m in
  after prev x /\ ((x < 4)%nat -> test x m = true) /\
  forall d, (d < 4)%nat -> after prev d -> test d m = true -> (x <= d)%nat.
Proof.
  unfold mask_next. set (c := first_after prev).
  assert (forall d, after prev d <-> (c <= d)%nat) as Ha by (intros d; unfold c; destruct prev; cbn; lia).
  setoid_rewrite Ha. destruct (Nat.ltb_spec c 4).
  - destruct (next_cpu_spec (4 - c) c m) as (H1 & H2 & H3); [lia|]. split_and!; [lia|done|]. intros d Hd Hc. apply H3. lia.
  - split_and!; intros; lia.
Qed.

#[export] Instance mask_laws : CpuMasksLaws.
Proof.
  split; intros *.
  - cbn. lia.
  - apply mask_next_spec.
  - rewrite is_cpu_lt. apply mask_next_spec.
  - rewrite is_cpu_lt. intros. by apply (mask_next_spec prev m).
  - rewrite is_cpu_lt. apply mask_next_spec.
  - rewrite !is_cpu_lt. intros H1 H2. destruct (mask_next_spec None m) as (_ & _ & H). specialize (H c H1 I H2).
    change (mask_next None m < 4)%nat. lia.
  - rewrite is_cpu_lt. intros H%mask_next_spec. unfold test in H. rewrite Z.land_spec in H. by apply andb_true_iff in H.
  - rewrite !is_cpu_lt. intros H1 H2 H3. destruct (mask_next_spec None (Z.land m m')) as (_ & _ & H). specialize (H c H1 I).
    unfold test in H. rewrite Z.land_spec in H. cbn in H2, H3. unfold test in H2, H3. rewrite H2, H3 in H. specialize (H eq_refl).
    change (mask_next None (Z.land m m') < 4)%nat. lia.
  - done.
  - cbn [cpumask_equal masks]. rewrite forallb_forall. setoid_rewrite is_cpu_lt. split; intros H c Hc.
    + apply Bool.eqb_prop, H, in_seq. lia.
    + apply in_seq in Hc. cbn in H. rewrite (H c) by lia. apply Bool.eqb_reflx.
  - cbn [cpumask_intersects masks]. rewrite existsb_exists. setoid_rewrite is_cpu_lt. split.
    + intros (c & Hc%in_seq & [H1 H2]%andb_true_iff). exists c. split; [lia|done].
    + intros (c & Hc & H1 & H2). exists c. cbn in H1, H2. rewrite H1, H2. split; [apply in_seq; lia|done].
  - intros _ _. cbn. unfold test. destruct (Nat.eqb_spec d c) as [->|Hne]; [by rewrite Z.setbit_eq by lia|].
    by rewrite Z.setbit_neq by lia.
  - intros _ _. cbn. unfold test. destruct (Nat.eqb_spec d c) as [->|Hne]; [by rewrite Z.clearbit_eq|].
    by rewrite Z.clearbit_neq by lia.
  - intros _ _. cbn. unfold test. destruct (Nat.eqb_spec d c) as [->|Hne]; [by rewrite Z.setbit_eq by lia|].
    rewrite Z.setbit_neq by lia. apply Z.bits_0.
Qed.

(** ** Lists and bits *)

(** The leftmost pair of least priority. *)
Fixpoint best (e : nat * Z) (l : list (nat * Z)) : nat * Z :=
  match l with
  | [] => e
  | x :: l => best (if x.2 <? e.2 then x else e) l
  end.
Lemma best_spec e l : best e l ∈ e :: l /\ forall x, x ∈ e :: l -> (best e l).2 <= x.2.
Proof.
  revert e; induction l as [|y l IH]; intros e; cbn [best].
  - split; [by left|]. intros x ->%list_elem_of_singleton. done.
  - set (e' := if y.2 <? e.2 then y else e). destruct (IH e') as [H1 H2].
    assert (e' ∈ [e; y] /\ e'.2 <= e.2 /\ e'.2 <= y.2) as (H3 & H4 & H5).
    { unfold e'. destruct (Z.ltb_spec y.2 e.2); split_and!; try lia; set_solver. }
    clearbody e'. split; [set_solver|]. intros x Hx. specialize (H2 e' ltac:(by left)) as H6.
    apply elem_of_cons in Hx as [->|[->|Hx]%elem_of_cons]; [lia..|]. apply H2. by right.
Qed.

(** cpupri: the priority of every processor. *)
Definition pri_candidates (pri : nat -> Z) (prio allowed : Z) : list nat :=
  filter (fun c => (prio <? pri c) && test c allowed = true) (seq 0 4).
Definition pri_find (pri : nat -> Z) (prio allowed : Z) : bool * Z :=
  let l := pri_candidates pri prio allowed in
  let top := foldr (fun c m => Z.max (pri c) m) (-1) l in
  (match l with [] => false | _ => true end,
   foldr (fun c m => if pri c =? top then Z.setbit m (Z.of_nat c) else m) 0 l).

#[export] Instance smp_types : SmpTypes := {|
  plist := list (nat * Z); plist_items := fun l => l; plist_head_init := [];
  plist_del := fun p l => filter (fun e => e.1 <> p) l;
  plist_add := fun p i l => l ++ [(p, i)];
  plist_head_empty := fun l => match l with [] => true | _ => false end;
  plist_first := fun l => match l with [] => 0%nat | e :: l => (best e l).1 end;
  llist := list nat; llist_entries := fun l => l;
  llist_empty := fun l => match l with [] => true | _ => false end;
  llist_add := fun p l => (match l with [] => true | _ => false end, p :: l);
  llist_del_all := fun l => (l, []);
  Cpupri := nat -> Z;
  cpupri_find := pri_find;
  cpupri_set := fun c prio pri d => if (d =? c)%nat then prio else pri d |}.
#[export] Instance smp_types_laws : SmpTypesLaws.
Proof.
  split; cbn; intros *; try done.
  - intros _. by rewrite (comm (++)).
  - by destruct l.
  - destruct l as [|e l]; [done|intros _]. destruct (best_spec e l) as [H1 H2]. exists (best e l).2.
    split; [by rewrite <- surjective_pairing|done].
  - by destruct l.
Qed.

Definition bit_from (n o b : Z) : Z := Demo.first_bit (Z.to_nat (n - o)) o b.
Lemma first_bit_next fuel i b : 0 <= i ->
  (i <= Demo.first_bit fuel i b <= i + Z.of_nat fuel) /\
  (forall j, i <= j < Demo.first_bit fuel i b -> Z.testbit b j = false) /\
  (Demo.first_bit fuel i b < i + Z.of_nat fuel -> Z.testbit b (Demo.first_bit fuel i b) = true).
Proof.
  revert i; induction fuel as [|fuel IH]; intros i Hi; cbn [Demo.first_bit].
  { split_and!; intros; lia. }
  destruct (Z.testbit b i) eqn:E; [split_and!; intros; [lia..|done]|].
  destruct (IH (i + 1)) as (H1 & H2 & H3); [lia|]. split_and!; [lia..| |].
  - intros j Hj. destruct (decide (j = i)) as [->|]; [done|]. apply H2. lia.
  - intros H. apply H3. lia.
Qed.

(** ** The code outside the repository *)

(** cpuset_cpus_allowed_fallback() without cpusets: do_set_cpus_allowed() to the
    possible processors. *)
Definition fallback (p : nat) (s : smp) : smp :=
  match (match t_class (stasks s p) with
         | rt_class => set_cpus_allowed_rt p (possible_mask s) s
         | _ => Some s
         end) with
  | Some s' => upd_stask p (fun t => t <| t_rt ::= fun e => e <| rt_nr_cpus_allowed := cpumask_weight (possible_mask s) |> |>)
                 (upd_stask p (fun t => t <| t_cpus_allowed := possible_mask s |>) s')
  | None => s
  end.
#[export] Instance smp_env : SmpEnv := {|
  clock_of := fun _ _ => 1000000; account_exec := fun _ _ e => e;
  first_bit := bit_from 101 0; next_bit := fun b n o => bit_from n o b;
  migration_cost := 500000; is_polling := fun _ _ => false;
  send_reschedule := fun _ e => e; info_queued := fun _ e => e; info_dequeued := fun _ e => e;
  worker_waking_up := fun _ _ e => e; node_mask := fun _ => 15;
  cpuset_cpus_allowed_fallback := fallback;
  others_run := fun _ s => s |}.
#[export] Instance smp_env_laws : SmpEnvLaws.
Proof.
  split.
  - intros b Hb Hd. cbn [first_bit smp_env]. unfold bit_from. destruct (Demo.first_bit_spec (Z.to_nat (101 - 0)) 0 b) as (H1 & H2 & H3).
    + lia.
    + exists 100. split; [lia|done].
    + unfold MAX_RT_PRIO, MAX_USER_RT_PRIO. split; [lia|]. by split.
  - intros b n o Hb Ho. cbn [next_bit smp_env]. unfold bit_from. destruct (first_bit_next (Z.to_nat (n - o)) o b Ho) as (H1 & H2 & H3).
    split; [split; [lia|intros; by apply H2]|]. split; [intros; apply H3; lia|lia].
Qed.

(** ** The classes *)
Definition class_eqb (k k' : sched_class) : bool := bool_decide (k = k').
Definition upd_queue (k : sched_class) (c : nat) (f : list nat -> list nat) (e : sched_class -> nat -> list nat) :
  sched_class -> nat -> list nat :=
  fun k' d => if class_eqb k' k && (d =? c)%nat then f (e k c) else e k' d.
Fixpoint remove_one (p : nat) (l : list nat) : list nat :=
  match l with
  | [] => []
  | x :: l => if (x =? p)%nat then l else x :: remove_one p l
  end.
Lemma remove_one_perm p l : p ∈ l -> p :: remove_one p l ≡ₚ l.
Proof.
  induction l as [|x l IH]; [by intros ?%elem_of_nil|]. cbn. destruct (Nat.eqb_spec x p) as [->|Hne]; [done|].
  intros [->|Hp]%elem_of_cons; [done|]. rewrite <- (IH Hp) at 2. apply Permutation_swap.
Qed.

Definition demo_class (k : sched_class) : smp_class := {|
  sc_enqueue_task := fun c p _ s => (inc_nr_running c s) <| sext ::= upd_queue k c (fun l => l ++ [p]) |>;
  sc_dequeue_task := fun c p _ s => (dec_nr_running c s) <| sext ::= upd_queue k c (remove_one p) |>;
  sc_check_preempt_curr := fun c _ _ s => resched_task (cpu_curr s c) s;
  sc_pick_next_task := fun c s =>
    Some (match k with
          | stop_class => rq_stop (crq s c)
          | idle_class => Some (rq_idle (crq s c))
          | _ => head (sext s k c)
          end, s);
  sc_put_prev_task := fun _ _ s => s;
  sc_select_task_rq := fun p _ _ s => task_cpu s p;
  sc_set_cpus_allowed := None; sc_rq_online := None; sc_rq_offline := None;
  sc_task_woken := None; sc_task_waking := None |}.
#[export] Instance classes : SmpClasses := {|
  stop_smp := demo_class stop_class; ras_smp := demo_class ras_class;
  fair_smp := demo_class fair_class; idle_smp := demo_class idle_class |}.
Lemma smp_ops_eq k : k <> rt_class -> smp_ops k = demo_class k.
Proof. by destruct k. Qed.

Lemma upd_queue_eq k c f e : upd_queue k c f e k c = f (e k c).
Proof. unfold upd_queue, class_eqb. by rewrite bool_decide_true, Nat.eqb_refl by done. Qed.
Lemma upd_queue_ne k c f e k' d : k' <> k \/ d <> c -> upd_queue k c f e k' d = e k' d.
Proof.
  unfold upd_queue, class_eqb. case_bool_decide; [|done]. destruct (Nat.eqb_spec d c); [|done]. tauto.
Qed.

#[export, refine] Instance other_classes : OtherClasses := {| oq := fun k e c => e k c |}.
Proof.
  - intros k c p f s Hk Hp. rewrite smp_ops_eq by (unfold other_class in Hk; naive_solver). cbn [sc_enqueue_task demo_class].
    split; [done|]. split; [|intros; by apply upd_queue_ne].
    change (upd_queue k c (fun l => l ++ [p]) (sext s) k c ≡ₚ p :: sext s k c). rewrite upd_queue_eq. by rewrite (comm (++)).
  - intros k c p f s Hk Hp. rewrite smp_ops_eq by (unfold other_class in Hk; naive_solver). cbn [sc_dequeue_task demo_class].
    split; [done|]. split; [|intros; by apply upd_queue_ne].
    change (p :: upd_queue k c (remove_one p) (sext s) k c ≡ₚ sext s k c). rewrite upd_queue_eq. by apply remove_one_perm.
  - done.
  - done.
  - done.
  - done.
Defined.
#[export] Instance other_hooks : OtherHooks.
Proof.
  split.
  - intros k c p f s Hk. rewrite smp_ops_eq by done. cbn. split; [apply resched_calm|apply resched_oq].
  - intros k c p s Hk. by rewrite smp_ops_eq.
  - intros k p m s Hk. rewrite smp_ops_eq by done. by exists s.
  - intros k c s Hk. by rewrite smp_ops_eq.
  - intros k c s Hk. rewrite smp_ops_eq by done. by exists s.
  - intros k c p s Hk. rewrite smp_ops_eq by done. by exists s.
  - intros k p s Hk. by rewrite smp_ops_eq.
  - intros c s Hs. cbn. by rewrite Hs.
  - intros c s. by exists s.
  - intros k c s Hk. rewrite smp_ops_eq by naive_solver. exists (head (sext s k c)), s. split.
    { cbn. destruct Hk as [->| ->]; done. }
    split; [done|]. split; [done|]. cbn. destruct (sext s k c); [done|by left].
  - done.
Qed.
#[export] Instance other_throttle : OtherThrottle.
Proof.
  split.
  - intros k c p f s Hk. rewrite smp_ops_eq by (unfold other_class in Hk; naive_solver).
    cbn. intros d. unfold crt, inc_nr_running, upd_crq, upd_cpu. cbn. by destruct (Nat.eqb_spec d c) as [->|].
  - intros k c p f s Hk. rewrite smp_ops_eq by (unfold other_class in Hk; naive_solver).
    cbn. intros d. unfold crt, dec_nr_running, upd_crq, upd_cpu. cbn. by destruct (Nat.eqb_spec d c) as [->|].
  - intros k c p f s Hk. rewrite smp_ops_eq by done. apply thr_resched.
  - intros k c p s Hk. by rewrite smp_ops_eq.
  - intros k p m s s' Hk. rewrite smp_ops_eq by done. by intros [= <-].
  - intros k c s o s' Hk. rewrite smp_ops_eq by done. by intros [= _ <-].
  - intros p s. cbn. unfold fallback. case_match eqn:E; [|done]. case_match; try by simplify_eq.
    by apply thr_set_allowed_rt in E.
Qed.

#[export] Instance interference : Interference.
Proof. split. eauto. Qed.

#[export] Instance migrate_env : MigrateEnv := {|
  nohz_balance_kick := fun _ _ => false; raise_softirq_sched := fun e => e;
  irq_enter := fun e => e; irq_exit := fun s => s; schedule_hrtimeout := fun s => s;
  others_go := fun s => s; unthrottle_offline_cfs_rqs := fun _ s => s; update_max_interval := fun e => e;
  set_cpu_active := fun c active s => s <| active_mask ::= if active then cpumask_set_cpu c else cpumask_clear_cpu c |>;
  stop_one_cpu := fun c f s =>
    match f (s <| this_cpu := c |>) with Some s' => Some (s' <| this_cpu := this_cpu s |>) | None => None end |}.

Lemma demo_cpuset : cpuset_keeps.
Proof.
  intros qs p s Hi Hp. cbn. destruct (do_set_ok 0 qs s p (possible_mask s) Hi Hp) as (s' & E & I' & F).
  assert (fallback p s = s') as ->; [|eauto].
  revert E. unfold do_set_cpus_allowed, p_class, fallback.
  destruct (t_class (stasks s p)); cbn [class_of stop_smp rt_smp_class ras_smp fair_smp idle_smp classes demo_class sc_set_cpus_allowed];
    try by intros [= <-].
  destruct (set_cpus_allowed_rt p (possible_mask s) s); by intros [= <-].
Qed.
End SmpDemo.
