(* ===== verification/SmpWitness.v ===== *)
(** Instances of the theorems about the multiprocessor scheduler, on the machine
    of SmpDemo.v: an idle machine satisfies the invariant, and the states the
    theorems are applied to arise from it by waking tasks up. *)

From S2P Require Import Prelude KList Sched Cpuacct Demo Ras Rt RtSpec Affinity Smp RtSmp RtPush SmpSpec RtSmpSpec SmpMachine RtPushSpec Migrate MigrateSpec HotplugSpec WakeupSpec SmpDemo.
Import RingLists Demo SmpDemo.

(** The tasks: 1, 2 and 3 are real-time tasks that may run everywhere, 4 and 5 a
    fair and a RAS task, 10 to 13 the idle tasks, 20 to 23 the migration threads. *)
Definition rt_demo_task (prio : Z) : task_struct :=
  task0 <| t_prio := prio |> <| t_class := rt_class |> <| t_policy := SCHED_FIFO |>
    <| t_cpus_allowed := 15 |> <| t_rt := mkRtSe 0 0 4 None 0 None |>.
Definition demo_task (p : nat) : task_struct :=
  match p with
  | 1%nat => rt_demo_task 10
  | 2%nat => rt_demo_task 20
  | 3%nat => (rt_demo_task 30) <| t_state := TASK_INTERRUPTIBLE |>
  | 4%nat => task0 <| t_cpus_allowed := 15 |>
  | 5%nat => task0 <| t_class := ras_class |> <| t_cpus_allowed := 15 |>
  | 10%nat | 11%nat | 12%nat | 13%nat => task0 <| t_class := idle_class |>
  | _ => task0 <| t_class := stop_class |> <| t_prio := 0 |>
  end.

(** No task is queued; [curr] runs on each processor, [throttled] says whether the
    real-time runqueues are throttled. *)
Definition idle_machine (curr : nat -> nat) (active throttled : Z) : smp := {|
  stasks := demo_task;
  sthread := fun p => mkTaskSmp 0 (of_bool (existsb (fun c => (curr c =? p)%nat) (seq 0 4))) 0 false 0 0 0;
  cpus := fun c => mkCpu _ (rq0 <| rq_curr := curr c |> <| rq_idle := (10 + c)%nat |> <| rq_stop := Some (20 + c)%nat |>)
    (rt_rq0 <| rt_throttled := throttled |>) (mkRtSmp _ 100 0 0 0 []) (Some 0%nat) [] 1 0 0 0 0 0 0 0 [];
  slinks := unlinked;
  rds := fun d => mkRd _ (if (d =? 0)%nat then 5 else 0) 0 (if (d =? 0)%nat then 15 else 0) (if (d =? 0)%nat then 15 else 0) 0 (fun _ => 140);
  online_mask := 15; active_mask := active; possible_mask := 15;
  local_cpu_mask := fun _ => true; sd_llc_id := fun _ => 0%nat;
  def_rt_bw := mkRtB 1000000000 950000000 false; rt_runtime_sysctl := 950000;
  feat_share := true; feat_ttwu_queue := true; running := true;
  load_tasks := 0; load_update := 0; this_cpu := 0; sext := fun _ _ => [] |}.

Definition no_queues : nat -> Z -> list nat := fun _ _ => [].
Lemma no_queued c p : ~ queued no_queues c p.
Proof. intros (i & _ & H%elem_of_nil). done. Qed.

Lemma demo_first_bit : bit_from 101 0 (2 ^ 100) = 100.
Proof. by vm_compute. Qed.

Lemma idle_machine_inv curr active throttled : smp_inv no_queues (idle_machine curr active throttled).
Proof.
  set (s := idle_machine curr active throttled).
  assert (members (no_queues 0) = []) as Hm by by vm_compute.
  split; [split; [split; [split|]|..]|..].
  - split; try done.
    + apply unlinked_ok.
    + by intros ? ? ? ? ? _ _ ?%elem_of_nil.
  - by intros c p ?%no_queued.
  - intros c Hc. split.
    + split; [done|done|]. intros i Hi. change (Z.testbit (2 ^ 100) i = false). apply Z.pow2_bits_false. unfold in_range, MAX_RT_PRIO, MAX_USER_RT_PRIO in Hi. lia.
    + change (100 = bit_from 101 0 (2 ^ 100)). by rewrite demo_first_bit.
    + change (0 = Z.of_nat (length (members (no_queues 0)))). by rewrite Hm.
    + split; [change (0 = Z.of_nat (length (members (no_queues 0))))|change (0 = Z.of_nat (nr_mig s (no_queues 0))); unfold nr_mig]; by rewrite Hm.
    + change (0 = of_bool (too_much s (no_queues 0))). unfold too_much. rewrite Hm. by rewrite andb_false_r.
  - split; [|intros d c _; change (test c 0 = over_in s d c); unfold over_in; rewrite andb_false_r; apply Z.bits_0].
    intros d. change (0 = Z.of_nat (length (filter (fun c => over_in s d c = true) (seq 0 4)))).
    rewrite (filter_same (fun _ => false)) by (intros; unfold over_in; apply andb_false_r). done.
  - intros c Hc. split; try done.
    + apply NoDup_nil_2.
    + intros p i. split; [by intros ?%elem_of_nil|]. by intros [[?%no_queued _] _].
    + by intros p [?%no_queued _].
    + by left.
  - by intros c p ?%no_queued.
  - by intros k c p _ ?%elem_of_nil.
  - intros k c _. apply NoDup_nil_2.
  - intros c _. change (0 = Z.of_nat (length (members (no_queues 0) ++ []))). by rewrite Hm.
  - intros p. split.
    + intros H. exfalso. revert H. do 24 (destruct p as [|p]; [done|]). done.
    + intros (c & [?%no_queued|(k & _ & ?%elem_of_nil)]%elem_of_runq); done.
  - intros c Hc%is_cpu_lt. change (c_true (of_bool (existsb (fun d => (curr d =? curr c)%nat) (seq 0 4))) = true).
    assert (existsb (fun d => (curr d =? curr c)%nat) (seq 0 4) = true) as ->; [|done].
    apply existsb_exists. exists c. split; [apply in_seq; lia|apply Nat.eqb_refl].
  - done.
Qed.

Lemma wake_inv c p s : (exists qs, smp_inv qs s) -> is_cpu c = true -> task_cpu s p = c -> task_good s p ->
  c_true (t_on_rq (stasks s p)) = false -> exists qs, smp_inv qs (ttwu_activate c p 0 s).
Proof.
  intros (qs & Hi) Hc Hcp Hg Hp. destruct (ttwu_activate_ok qs s c p 0 Hi Hc Hcp Hg Hp) as (qs' & W).
  exists qs'. apply W.
Qed.

Lemma demo_no_cfs : no_cfs_bandwidth.
Proof. done. Qed.
Lemma demo_quiet c : quiet c.
Proof. done. Qed.
Lemma demo_stopper : stopper_runs.
Proof. done. Qed.

(** Side conditions are evaluated. *)
Ltac demo_good := split; [by vm_compute|first [by left; vm_compute|by right; vm_compute; auto]].
Lemma idle_inv curr active throttled : exists qs, smp_inv qs (idle_machine curr active throttled).
Proof. eexists. apply idle_machine_inv. Qed.
Ltac demo_wakes := repeat (apply wake_inv; [|reflexivity|by vm_compute|demo_good|by vm_compute]); apply idle_inv.

(** Processor 0 runs the task 1, and 2 waits there; the others are idle. *)
Definition running_first (c : nat) : nat := match c with 0%nat => 1%nat | _ => (10 + c)%nat end.
Definition busy : smp := ttwu_activate 0 2 0 (ttwu_activate 0 1 0 (idle_machine running_first 15 0)).
Lemma busy_inv : exists qs, smp_inv qs busy.
Proof. unfold busy. demo_wakes. Qed.

Example busy_pushes :
  match push_rt_task 2 0 busy with
  | Ret (pushed, s) => (pushed, task_cpu s 2, nr_running (crq s 0), nr_running (crq s 1)) = (true, 1%nat, 1, 1)
  | _ => False
  end.
Proof. by vm_compute. Qed.

Lemma push_rt_task_safe_witness : exists qs, smp_inv qs busy /\
  match push_rt_task 2 0 busy with
  | Bug => False
  | NoFuel => True
  | Ret (b, s') => exists qs', smp_inv qs' s' /\ (b = true -> exists task d, pushed task 0 d qs' s')
  end.
Proof. destruct busy_inv as [qs H]. exists qs. split; [exact H|]. apply (push_rt_task_safe 2 0 qs busy H). reflexivity. Defined.

Lemma push_rt_tasks_ends_witness : (to_push 0 busy < 2)%nat /\
  exists s' qs', push_rt_tasks 2 0 busy = Ret s' /\ smp_inv qs' s'.
Proof.
  destruct busy_inv as [qs H]. assert (to_push 0 busy < 2)%nat as Hf by (vm_compute; lia). split; [exact Hf|].
  apply (push_rt_tasks_ends 2 0 qs busy); [apply demo_quiet|exact H|reflexivity|exact Hf].
Defined.

(** Processor 1 pulls. *)
Example busy_pulls : let '(pulled, s) := pull_rt_task 1 busy in
  (pulled, task_cpu s 2, highest_prio (crt s 1)) = (true, 1%nat, 20).
Proof. by vm_compute. Qed.

Lemma pull_rt_task_best_witness : exists qs, smp_inv qs busy /\
  let '(ret, s') := pull_rt_task 1 busy in
  exists qs', smp_inv qs' s' /\
    (forall src, is_cpu src = true -> src <> 1%nat -> cpumask_test_cpu src (my_rto_mask 1 s') = true -> drained qs' s' 1 src) /\
    (if ret then highest_prio (crt s' 1) < highest_prio (crt busy 1) else s' = busy).
Proof.
  destruct busy_inv as [qs H]. exists qs. split; [exact H|].
  apply (pull_rt_task_best 1 qs busy); [apply demo_quiet|exact H|reflexivity|by vm_compute].
Defined.

(** The task 2 is restricted to processor 1 and moves there. *)
Example busy_restricted : match set_cpus_allowed_ptr 3 2 2 busy with
  | Some (r, s) => (r, task_cpu s 2, t_cpus_allowed (stasks s 2)) = (0, 1%nat, 2)
  | None => False
  end.
Proof. by vm_compute. Qed.

Lemma busy_active d : cpu_active busy d = true -> cpu_online busy d = true.
Proof. unfold cpu_active, cpu_online. assert (active_mask busy = online_mask busy) as -> by (by vm_compute). done. Qed.
Lemma set_cpus_allowed_ptr_spec_witness : exists qs, smp_inv qs busy /\
  match set_cpus_allowed_ptr 3 2 2 busy with
  | None => False
  | Some (r, s') =>
      if cpumask_equal (t_cpus_allowed (stasks busy 2)) 2 then r = 0 /\ s' = busy
      else if negb (cpumask_intersects 2 (active_mask busy)) ||
              (thread_bound (sthread busy 2) && negb (2 =? cpu_curr busy (this_cpu busy))%nat) then r = - EINVAL /\ s' = busy
      else r = 0 /\ exists qs', smp_inv qs' s' /\ tsk_cpus_allowed s' 2 = 2 /\ nr_cpus_allowed s' 2 = cpumask_weight 2 /\
        forall c, 2%nat ∈ runq qs' s' c -> cpumask_test_cpu c 2 = true
  end.
Proof.
  destruct busy_inv as [qs H]. exists qs. split; [exact H|].
  apply (set_cpus_allowed_ptr_spec 3 qs busy 2 2); [apply demo_stopper|exact H|intros _; by vm_compute|by vm_compute|exact busy_active].
Defined.

(** Processor 0 goes down: its migration thread runs, a real-time, a fair and a RAS
    task wait. *)
Definition running_stop (c : nat) : nat := match c with 0%nat => 20%nat | _ => (10 + c)%nat end.
Definition going_down : smp :=
  ttwu_activate 0 5 0 (ttwu_activate 0 4 0 (ttwu_activate 0 2 0 (ttwu_activate 0 20 0 (idle_machine running_stop 14 0)))).
Lemma going_down_inv : exists qs, smp_inv qs going_down.
Proof. unfold going_down. demo_wakes. Qed.
Example going_down_empties : match migrate_tasks 3 4 0 going_down with
  | Ret s => ((task_cpu s <$> [2; 4; 5; 20]%nat), nr_running (crq s 0), rq_stop (crq s 0)) = ([1; 1; 1; 0]%nat, 1, Some 20%nat)
  | _ => False
  end.
Proof. by vm_compute. Qed.

Lemma going_down_usable : exists d, is_cpu d = true /\ usable going_down d = true /\ cpumask_test_cpu d (possible_mask going_down) = true.
Proof. exists 1%nat. split_and!; by vm_compute. Qed.
Lemma migrate_tasks_empties_witness : exists qs, smp_inv qs going_down /\
  exists s' qs', migrate_tasks 3 4 0 going_down = Ret s' /\ smp_inv qs' s' /\ runq qs' s' 0 = [cpu_curr going_down 0] /\
    (forall x, (exists d, x ∈ runq qs' s' d) <-> (exists d, x ∈ runq qs going_down d)) /\ rq_stop (crq s' 0) = rq_stop (crq going_down 0).
Proof.
  destruct going_down_inv as [qs H]. exists qs. split; [exact H|].
  apply (migrate_tasks_empties 3 4 0 qs going_down);
    [apply demo_cpuset|apply demo_no_cfs|exact H|reflexivity|by vm_compute|by vm_compute|by vm_compute|apply going_down_usable|].
  pose proof (mi_nr _ _ (si_machine _ _ H) 0%nat eq_refl) as Hn. assert (nr_running (crq going_down 0) = 4) as E by (by vm_compute). lia.
Defined.

(** The same with a throttled real-time runqueue. *)
Definition throttled_down : smp := ttwu_activate 0 2 0 (ttwu_activate 0 20 0 (idle_machine running_stop 14 1)).
Lemma throttled_down_inv : exists qs, smp_inv qs throttled_down.
Proof. unfold throttled_down. demo_wakes. Qed.
Lemma throttled_usable : exists d, is_cpu d = true /\ usable throttled_down d = true /\ cpumask_test_cpu d (possible_mask throttled_down) = true.
Proof. exists 1%nat. split_and!; by vm_compute. Qed.
Lemma migrate_tasks_throttled_witness : c_true (rt_throttled (crt throttled_down 0)) = true /\
  migrate_tasks 3 100 0 throttled_down = NoFuel /\
  exists x x1, pick_next_task 3 0 x = Some (rq_idle (crq throttled_down 0), x1) /\ nr_running (crq x 0) = nr_running (crq throttled_down 0).
Proof.
  destruct throttled_down_inv as [qs H]. assert (c_true (rt_throttled (crt throttled_down 0)) = true) as Ht by (by vm_compute).
  split; [exact Ht|].
  destruct (migrate_tasks_throttled 3 100 0 qs throttled_down) as [E P];
    [apply demo_cpuset|apply demo_no_cfs|exact H|reflexivity|by vm_compute|exact Ht|by vm_compute|by vm_compute|by vm_compute|by vm_compute|apply throttled_usable|].
  split; [exact E|]. destruct (P 5%nat) as (x & x1 & _ & E1 & _ & Q). exists x, x1. split; [exact E1|]. exact (sq_nr _ _ _ Q).
Defined.

(** The sleeping task 3 is woken up. *)
Example busy_wakes : match try_to_wake_up 6 1 3 TASK_INTERRUPTIBLE 0 busy with
  | Ret (woken, s) => (woken, t_state (stasks s 3), t_on_rq (stasks s 3), task_cpu s 3) = (true, TASK_RUNNING, 1, 1%nat)
  | _ => False
  end.
Proof. by vm_compute. Qed.

Lemma busy_small qs c : smp_inv qs busy -> (S (length (runq qs busy c)) < 6)%nat.
Proof.
  intros H. destruct (is_cpu c) eqn:Hc.
  - pose proof (mi_nr _ _ (si_machine _ _ H) c Hc) as Hn. apply is_cpu_lt in Hc.
    assert (nr_running (crq busy c) <= 2); [|lia]. do 4 (destruct c as [|c]; [by vm_compute|]). lia.
  - destruct (runq qs busy c) as [|x l] eqn:E; [cbn; lia|]. assert (x ∈ runq qs busy c) as Hx by (rewrite E; by left).
    apply (runq_task _ _ _ _ (si_machine _ _ H)) in Hx as (Hx & _). congruence.
Qed.
Lemma busy_good : task_good busy 3.
Proof. demo_good. Qed.
Lemma busy_online : online_cpus busy.
Proof.
  intros d. unfold cpu_online. assert (online_mask busy = 15) as -> by (by vm_compute). cbn. unfold test. rewrite is_cpu_lt.
  intros Hd. destruct (decide (d < 4)%nat) as [|Hge]; [done|]. rewrite Z.bits_above_log2 in Hd; [done|lia|cbn; lia].
Qed.
Lemma busy_usable : some_cpu busy.
Proof. exists 1%nat. split_and!; by vm_compute. Qed.
Lemma try_to_wake_up_wakes_witness : exists qs, smp_inv qs busy /\
  if has_flag (t_state (stasks busy 3)) TASK_INTERRUPTIBLE then
    exists s' qs', try_to_wake_up 6 1 3 TASK_INTERRUPTIBLE 0 busy = Ret (true, s') /\ smp_inv qs' s' /\
      (if c_true (t_on_rq (stasks busy 3)) then t_state (stasks s' 3) = TASK_RUNNING /\ exists d, 3%nat ∈ runq qs' s' d
       else wakes 3 qs' s')
  else try_to_wake_up 6 1 3 TASK_INTERRUPTIBLE 0 busy = Ret (false, busy).
Proof.
  destruct busy_inv as [qs H]. exists qs. split; [exact H|].
  apply (try_to_wake_up_wakes 6 demo_quiet 0 3 TASK_INTERRUPTIBLE 0 qs busy);
    [apply demo_cpuset|exact H|apply busy_good|intros _; by vm_compute|apply busy_online|apply busy_usable|].
  intros c. by apply busy_small.
Defined.
