(* ===== verification/DomWitness.v ===== *)
(** Instances of the theorems about root domains and scheduling domains, on the
    machine of four processors of SmpDemo.v: processors 0 and 1, and 2 and 3,
    share a cache. *)

From S2P Require Import Prelude KList Sched Cpuacct Demo Ras Rt RtSpec TaskGroupSpec RtBorrow RtBorrowSpec Affinity Smp RtSmp RtPush SmpSpec RtSmpSpec SmpMachine RtPushSpec Migrate MigrateSpec HotplugSpec WakeupSpec RootSpec Domains DomLogic DomAlloc DomVisit DomAttach DomGroups DomDebug SmpDemo SmpWitness.
Import RingLists Demo SmpDemo.

#[export] Instance runtime_hooks : RuntimeHooks.
Proof.
  split.
  - intros k c s i Hk. by rewrite smp_ops_eq.
  - intros k c s s' i Hk. rewrite smp_ops_eq by done. by intros [= <-].
Qed.
#[export] Instance dom_masks : DomMasks := {|
  cpumask_or := Z.lor; cpumask_andnot := Z.ldiff;
  cpumask_empty := fun m => negb (existsb (fun c => test c m) (seq 0 4)) |}.
(** Allocations succeed; the power of the groups of a domain becomes 1024. *)
#[export] Instance dom_env : DomEnv := {|
  alloc_fails := fun _ => false; alloc_cpumask_var := fun _ m => Some m;
  cpupri_zero := fun _ => 0; cpupri_init := fun _ => Some (fun _ => -1);
  nr_node_ids := 1; update_group_power := fun _ _ _ _ => 1024;
  arch_update_cpu_topology := fun t => (false, t);
  cpuset_update_active_cpus := mret tt; rebuild_sched_domains := mret tt; sched_init_granularity := mret tt |}.
#[export] Instance dom_laws : DomLaws.
Proof.
  split; try done.
  - intros c _. apply Z.bits_0.
  - intros c m m' _. apply Z.land_spec.
  - intros c m m' _. apply Z.lor_spec.
  - intros c m m' _. apply Z.ldiff_spec.
  - intros m m'. cbn [cpumask_subset mask]. rewrite Z.eqb_eq. setoid_rewrite is_cpu_lt. split.
    + intros H c Hc Ht. cbn in *. unfold test in *. assert (Z.testbit (Z.land (Z.land m (Z.lnot m')) 15) (Z.of_nat c) = false) as E by (rewrite H; apply Z.bits_0).
      rewrite !Z.land_spec, Z.lnot_spec, Ht in E by lia. destruct (Z.testbit m' _); [done|]. cbn in E.
      change 15 with (Z.ones 4) in E. by rewrite Z.ones_spec_low in E by lia.
    + intros H. apply Z.bits_inj_0. intros i. rewrite !Z.land_spec. change 15 with (Z.ones 4).
      destruct (decide (0 <= i < 4)) as [Hi|Hi].
      * rewrite Z.lnot_spec by lia. specialize (H (Z.to_nat i) ltac:(lia)). cbn in H. unfold test in H. rewrite Z2Nat.id in H by lia.
        destruct (Z.testbit m i); [by rewrite H|done].
      * destruct (decide (i < 0)); [by rewrite (Z.testbit_neg_r (Z.ones 4)), andb_false_r by done|].
        by rewrite Z.ones_spec_high, andb_false_r by lia.
Qed.

(** The idle machine is in the root domain 0; 5 is a new one. *)
Definition held0 (d : nat) : Z := if (d =? 0)%nat then 1 else 0.
Definition two_roots (d : nat) : Prop := d = 0%nat \/ d = 5%nat.
Lemma four_cpus c : is_cpu c = true -> c = 0%nat \/ c = 1%nat \/ c = 2%nat \/ c = 3%nat.
Proof. rewrite is_cpu_lt. lia. Qed.
Lemma idle_rooted curr throttled : root_inv held0 (fun _ => True) two_roots (idle_machine curr 15 throttled).
Proof.
  split; try done.
  - intros c Hc. exists 0%nat. split; [by left|done].
  - intros d c [-> | ->] H%four_cpus; naive_solver.
  - intros d c [-> | ->] H%four_cpus; naive_solver.
  - intros d [-> | ->]; by vm_compute.
  - intros d. unfold held0. destruct (d =? 0)%nat; lia.
  - intros d [-> | ->]; split; try (by vm_compute).
    all: try (cbn; repeat constructor; set_solver).
    all: intros i Hi; cbn in *; repeat (apply elem_of_cons in Hi as [->|Hi]; [by vm_compute|]); by apply elem_of_nil in Hi.
Qed.

(** ** Attaching *)

Lemma rq_attach_root_spec_witness : exists old s', rq_rd (cpus (idle_machine running_first 15 0) 1) = Some old /\
  rq_attach_root 2 1 5 (idle_machine running_first 15 0) =
    Some (if Z.of_nat (length (members_of old (idle_machine running_first 15 0))) + held0 old =? 1 then Some old else None, s') /\
  root_inv held0 (fun _ => True) two_roots s' /\ smp_inv no_queues s' /\ rq_rd (cpus s' 1) = Some 5%nat /\
  c_true (rq_online (cpus s' 1)) = cpumask_test_cpu 1 (active_mask (idle_machine running_first 15 0)) /\
  root_frame 1 (idle_machine running_first 15 0) s'.
Proof.
  apply (rq_attach_root_spec 2 held0 (fun _ => True) no_queues two_roots 1 5).
  - apply idle_rooted.
  - apply idle_machine_inv.
  - done.
  - by right.
  - done.
Defined.

(** The domains built for processor 0: the two processors that share a cache (100),
    the same ones again (101), and all (102); 110 is the domain it has. *)
Definition flags0 : Z := Z.lor SD_LOAD_BALANCE SD_WAKE_AFFINE.
Definition level0 (m : nat -> Z) : topology_level := mkLevel (mkDomain None None None flags0 0 0 0 0) m 0 (mkData None None None).
Definition empty_dom (s : smp) (t : list topology_level) : dom :=
  mkDom _ _ s ∅ ∅ ∅ (fun _ => 0) ∅ {[5%nat]} ∅ ∅ 300 [] t (fun _ => None) (fun _ => None) Fallback 0 None 0 0 0 (-1) 0 0 0 false.
Definition attach_demo : dom := (empty_dom (idle_machine running_first 15 0) [level0 (fun _ => 0); level0 (fun _ => 0); level0 (fun _ => 0)])
  <| sds := <[100%nat := mkDomain (Some 101%nat) None (Some 200%nat) flags0 0 0 2 3]>
           (<[101%nat := mkDomain (Some 102%nat) (Some 100%nat) (Some 202%nat) flags0 1 1 2 3]>
           (<[102%nat := mkDomain None (Some 101%nat) (Some 203%nat) flags0 2 2 4 15]>
           {[110%nat := mkDomain None None (Some 203%nat) flags0 0 0 4 15]})) |>
  <| sgs := <[200%nat := mkGroup (Some 201%nat) 1 1 None 1]> (<[201%nat := mkGroup (Some 200%nat) 1 1 None 2]>
           (<[202%nat := mkGroup (Some 202%nat) 2 2 None 3]> (<[203%nat := mkGroup (Some 204%nat) 2 2 None 3]>
           {[204%nat := mkGroup (Some 203%nat) 2 2 None 12]}))) |>
  <| rq_sdp := fun c => if (c =? 0)%nat then Some 110%nat else None |>.

(** 101 has one group and goes. *)
Example attach_prunes : survivors attach_demo [100; 101; 102]%nat = [100; 102]%nat /\ removed attach_demo [100; 101; 102]%nat = [101]%nat.
Proof. split; by vm_compute. Qed.
Example attach_evaluated :
  match cpu_attach_domain 2 (Some 100%nat) 5 0 attach_demo with
  | Some (_, h) => (rq_sdp h 0, rcu h, sd_span <$> rq_sd (cpus (machine h) 0), rq_rd (cpus (machine h) 0)) =
      (Some 100%nat, [FreeSchedDomain 101; FreeSchedDomain 110], [3; 15], Some 5%nat)
  | None => False
  end.
Proof. by vm_compute. Qed.

Lemma cpu_attach_domain_spec_witness : exists r h', rq_rd (cpus (machine attach_demo) 0) = Some r /\
  cpu_attach_domain 2 (Some 100%nat) 5 0 attach_demo = Some (tt, h') /\
  attached 0 [100; 101; 102]%nat [110]%nat (if Z.of_nat (length (members_of r (machine attach_demo))) + held0 r =? 1 then [FreeRootdomain r] else []) attach_demo h'.
Proof.
  destruct (cpu_attach_domain_spec 2 held0 (fun _ => True) no_queues two_roots 0 5 (Some 100%nat) [100; 101; 102]%nat [110]%nat attach_demo) as (r & h' & H1 & H2 & H3 & _).
  - apply idle_rooted.
  - apply idle_machine_inv.
  - done.
  - done.
  - by right.
  - repeat (split; [done|]; eexists; split; [by vm_compute|]; split; [done|]). done.
  - repeat constructor; set_solver.
  - repeat constructor; (do 3 eexists; split_and!; by vm_compute).
  - cbn. lia.
  - repeat (split; [done|]; eexists; split; [by vm_compute|]; split; [done|]). done.
  - cbn. lia.
  - intros a ->%list_elem_of_singleton. set_solver.
  - by exists r, h'.
Defined.

(** ** Groups *)

(** The objects of the level of all processors: domains 40 to 43, whose children
    30 to 33 are the processors that share a cache, groups 50 to 53, powers 60 to 63. *)
Definition four {A} (n : nat) (x : nat -> A) : gmap nat A := <[n := x 0%nat]> (<[S n := x 1%nat]> (<[S (S n) := x 2%nat]> {[S (S (S n)) := x 3%nat]})).
Definition pair_of (j : nat) : Z := match j with 0%nat | 1%nat => 3 | _ => 12 end.
Definition first_of (j : nat) : nat := match j with 0%nat | 1%nat => 0 | _ => 2 end.
Definition groups_demo : dom := (empty_dom (idle_machine running_first 15 0)
    [level0 pair_of; mkLevel (mkDomain None None None flags0 0 0 0 0) (fun _ => 15) 0 (mkData (Some 1%nat) (Some 2%nat) (Some 3%nat))])
  <| sds := four 40 (fun j => mkDomain None (Some (30 + j)%nat) None flags0 1 1 4 15) ∪ four 30 (fun j => mkDomain (Some (40 + j)%nat) None None flags0 0 0 2 (pair_of j)) |>
  <| sgs := four 50 (fun j => mkGroup (Some (50 + j)%nat) 0 0 None 0) |>
  <| sgps := four 60 (fun j => mkPower 0 0) |>
  <| percpus := <[1%nat := fun j => Some (40 + j)%nat]> (<[2%nat := fun j => Some (50 + j)%nat]> {[3%nat := fun j => Some (60 + j)%nat]}) |>.

Lemma in_15 j : j ∈ cpus_of 15 -> j = 0%nat \/ j = 1%nat \/ j = 2%nat \/ j = 3%nat.
Proof. intros [H _]%elem_of_cpus. by apply four_cpus. Qed.
Lemma groups_demo_grouping : grouping 1 15 first_of (fun j => 50 + j)%nat (fun j => 60 + j)%nat groups_demo.
Proof.
  split.
  - intros j Hj%in_15. exists (40 + j)%nat. eexists.
    destruct Hj as [->|[->|[->| ->]]]; (split; [by vm_compute|]; split; [by vm_compute|]; cbn; eexists; split; by vm_compute).
  - intros j Hj%in_15. destruct Hj as [->|[->|[->| ->]]]; (split; [by vm_compute|by eexists; vm_compute]).
  - intros j Hj%in_15. destruct Hj as [->|[->|[->| ->]]]; (split; [by vm_compute|by eexists; vm_compute]).
Qed.
Lemma demo_heads : heads_ok 15 first_of (fun j => 50 + j)%nat (fun j => 60 + j)%nat.
Proof.
  split.
  - intros j Hj%in_15. apply elem_of_cpus. naive_solver.
  - intros j Hj%in_15. naive_solver.
  - intros j Hj%in_15. destruct Hj as [->|[->|[->| ->]]]; cbn; lia.
  - intros i j _ _ H. lia.
  - intros i j _ _ H. lia.
Qed.

Lemma build_sched_groups_spec_witness : exists h', build_sched_groups 40 0 groups_demo = Some (0, h') /\ ring h' [50; 52]%nat.
Proof.
  destruct (build_sched_groups_spec 1 15 first_of (fun j => 50 + j)%nat (fun j => 60 + j)%nat demo_heads 40
    (mkDomain None (Some 30%nat) None flags0 1 1 4 15) 0 groups_demo) as (h' & E & _ & H).
  - apply groups_demo_grouping.
  - by vm_compute.
  - done.
  - done.
  - by vm_compute; left.
  - exists h'. split; [done|]. destruct H as [H _]; [left; by vm_compute|]. exact H.
Defined.

(** The same groups, built and with power. *)
Definition built_demo : dom := groups_demo
  <| sds ::= <[40%nat := mkDomain None (Some 30%nat) (Some 50%nat) flags0 1 1 4 15]> |>
  <| sgs := <[50%nat := mkGroup (Some 52%nat) 2 2 (Some 60%nat) 3]> {[52%nat := mkGroup (Some 50%nat) 2 2 (Some 62%nat) 12]} |>
  <| sgps := <[60%nat := mkPower 1 2]> {[62%nat := mkPower 1 2]} |>
  <| sg_power := fun _ => 2048 |>.
Lemma built_demo_divided : divided 15 first_of (fun j => 50 + j)%nat (fun j => 60 + j)%nat built_demo.
Proof.
  split.
  - split; [eexists; split; by vm_compute|]. split; [eexists; split; by vm_compute|]. done.
  - intros r Hr. assert (r = 0 \/ r = 2)%nat as [-> | ->].
    { unfold heads_of in Hr. change (cpus_of 15) with [0; 1; 2; 3]%nat in Hr. cbn in Hr. set_solver. }
    all: do 2 eexists; split; [by vm_compute|]; split; [done|]; split; [|by eexists; vm_compute].
    all: intros c Hc%four_cpus; destruct Hc as [->|[->|[->| ->]]]; by vm_compute.
Qed.
Lemma sched_domain_debug_accepts_witness : exists log, sched_domain_debug_one 40 1 0 built_demo = Some ((false, log), built_demo) /\
  Forall (fun x => is_error x = false) log.
Proof.
  apply (sched_domain_debug_accepts 15 first_of (fun j => 50 + j)%nat (fun j => 60 + j)%nat demo_heads built_demo 40
    (mkDomain None (Some 30%nat) (Some 50%nat) flags0 1 1 4 15) 1 0).
  - apply built_demo_divided.
  - done.
  - by vm_compute; right; left.
  - by vm_compute.
  - done.
  - done.
  - by vm_compute.
  - done.
Defined.

(** The check is quiet on that domain, so the domain is sound. *)
Lemma sched_domain_debug_exact_witness : exists log, sched_domain_debug_one 40 1 0 built_demo = Some ((false, log), built_demo) /\
  (Forall (fun x => is_error x = false) log <->
   sound_domain built_demo (mkDomain None (Some 30%nat) (Some 50%nat) flags0 1 1 4 15) 1 [50; 52]%nat).
Proof.
  apply (sched_domain_debug_exact built_demo 40 (mkDomain None (Some 30%nat) (Some 50%nat) flags0 1 1 4 15) 1 0 50 [52]%nat).
  - by vm_compute.
  - done.
  - repeat (split; [eexists; split; by vm_compute|]). done.
  - repeat constructor; set_solver.
  - repeat constructor; do 2 eexists; split_and!; by vm_compute.
  - done.
Defined.
