(* ===== verification/DomSpecWitness.v ===== *)
(** An instance of the theorem about build_sched_domains(): four processors, of
    which two and two share a cache; processor 0 has an old domain. *)

From S2P Require Import Prelude KList Sched Cpuacct Demo Ras Rt RtSpec TaskGroupSpec RtBorrow RtBorrowSpec Affinity Smp RtSmp RtPush SmpSpec RtSmpSpec SmpMachine RtPushSpec Migrate MigrateSpec HotplugSpec WakeupSpec RootSpec Domains DomLogic DomAlloc DomVisit DomAttach DomGroups DomTopo DomSpec SmpDemo SmpWitness DomWitness.
Import RingLists Demo SmpDemo.

Definition demo_levels : list topology_level := [level0 pair_of; level0 (fun _ => 15)].
Definition build_demo : dom := (empty_dom (idle_machine running_first 15 0) demo_levels)
  <| roots := ∅ |> <| sds := {[110%nat := mkDomain None None (Some 203%nat) flags0 0 0 4 15]} |>
  <| sgs := {[203%nat := mkGroup (Some 203%nat) 1 4 None 15]} |> <| rq_sdp := fun c => if (c =? 0)%nat then Some 110%nat else None |>.
Definition demo_old (i : nat) : list nat := if (i =? 0)%nat then [110%nat] else [].

(** Both levels are used; the domain of a pair and the domain of all processors
    stay, and the old one is freed. *)
Example build_evaluated :
  match build_sched_domains 2 15 None build_demo with
  | Some (ret, h) => (ret, elements (roots h), refcount (rds (machine h) 331)) = (0, [331%nat], 4) /\
      (fun c => (sd_span <$> rq_sd (Smp.cpus (machine h) c))) <$> [0; 1; 2; 3]%nat = [[3; 15]; [3; 15]; [12; 15]; [12; 15]] /\
      (fun c => (sd_groups <$> rq_sd (Smp.cpus (machine h) c))) <$> [0; 3]%nat = [[[1; 2]; [3; 12]]; [[8; 4]; [12; 3]]] /\
      rcu h = [FreeSchedDomain 110] /\ (size (sds h), size (sgs h), size (sgps h), size (percpus h)) = (9%nat, 7%nat, 6%nat, 0%nat)
  | None => False
  end.
Proof. by vm_compute. Qed.

Lemma demo_topology : topo_ok demo_levels.
Proof.
  assert (forall lv, lv ∈ demo_levels -> lv = level0 pair_of \/ lv = level0 (fun _ => 15)) as Hl by (unfold demo_levels; set_solver).
  split; try done.
  - intros lv [-> | ->]%Hl; done.
  - intros lv [-> | ->]%Hl; done.
  - intros lv [-> | ->]%Hl; done.
  - intros lv i [-> | ->]%Hl Hi%four_cpus; naive_solver.
  - intros lv i j x [-> | ->]%Hl Hi%four_cpus Hj%four_cpus Hx%four_cpus; naive_solver.
  - intros [|[|l]] lv lv' i x E E' Hi%four_cpus Hx%four_cpus; try done.
    cbn in E, E'. apply (inj Some) in E, E'. subst lv lv'. naive_solver.
Qed.
Lemma demo_fresh : fresh_heap build_demo.
Proof.
  split; cbn.
  - intros [] a Ha.
    + apply live_sd in Ha as [d Ha]. cbn in Ha. apply lookup_singleton_Some in Ha as [<- _]. lia.
    + apply live_sg in Ha as [d Ha]. cbn in Ha. apply lookup_singleton_Some in Ha as [<- _]. lia.
    + apply live_sgp in Ha as [d Ha]. done.
  - intros a [d Ha]. done.
  - intros a Ha. set_solver.
  - intros a [d Ha]. done.
  - intros a [d Ha]. done.
  - lia.
Qed.
Lemma demo_root : root_inv held0 (fun _ => True) (root_exists build_demo) (machine build_demo).
Proof.
  assert (forall r, root_exists build_demo r -> two_roots r) as HD by (intros r [->|Hr]; [by left|set_solver]).
  destruct (idle_rooted running_first 0) as [I1 I2 I3 I4 I5 I6 I7 I8 I9 I10 I11]. split; try done.
  - intros c Hc. exists 0%nat. split; [by left|done].
  - intros d c Hd%HD. by apply I6.
  - intros d c Hd%HD. by apply I7.
  - intros d Hd%HD. by apply I8.
  - intros d Hd%HD. by apply I10.
Qed.
Lemma build_demo_ready : buildable held0 (fun _ => True) no_queues 15 demo_old build_demo.
Proof.
  split; try done.
  - apply demo_fresh.
  - intros lv [->|[->|?%elem_of_nil]%elem_of_cons]%elem_of_cons; done.
  - apply demo_topology.
  - intros i Hi%in_15. destruct Hi as [->|[->|[->| ->]]]; cbn; (split; [|lia]); try done.
    split; [done|]. eexists. split; [by vm_compute|]. done.
  - apply demo_root.
  - intros r Hr. unfold held0. destruct (Nat.eqb_spec r 0) as [->|]; [|done]. destruct Hr. by left.
  - apply idle_machine_inv.
Qed.
Lemma build_sched_domains_spec_witness : exists h', build_sched_domains 2 15 None build_demo = Some (0, h') /\
  exists A rd, constructed held0 (fun _ => True) no_queues 15 demo_old build_demo A rd h'.
Proof.
  destruct (build_sched_domains_spec 2 held0 (fun _ => True) no_queues 15 None demo_old build_demo build_demo_ready) as (ret & h' & E & [[_ [_ Hf]]|[-> H]]).
  - destruct Hf as (a & _ & [Ha|Ha]); done.
  - exists h'. split; [exact E|exact H].
Defined.
